(* ===== verification/_CoqProject ===== *)
-Q . S2P
Prelude.v
CString.v
Bytes.v
Spinlock.v
Kalloc.v
Vm.v
VmSpace.v
VmUser.v
VmCopy.v
Vm64.v
Pipe.v
Disk.v
Ide.v
Bio.v
Cache.v
Log.v
LogSafety.v
Proc.v
Sched.v
ProcLife.v
Store.v
Fs.v
FsBlocks.v
FsFile.v
FsRw.v
Mkfs.v
MkfsOk.v
FsDir.v
Path.v
File.v
FilePipe.v
Syscall.v
SysFile.v
SysPipe.v
SysProc.v
Exec.v
Boot.v
Umalloc.v
Printf.v
Console.v
ConsoleLine.v
Trap.v
ArrayList.v
Frame.v
Checksum.v
Random.v
Ipv4.v
Net.v
Arp.v
IpSend.v
Icmp.v
Queue.v
Udp.v
UdpSend.v
Tcp.v
TcpSend.v
TcpState.v
TcpConn.v
Adapter.v
AdapterOk.v
Grep.v
Sh.v
ShRun.v
