(* ===== verification/Prelude.v ===== *)
(** * The Xv64 kernel

    A model of the C and C++ code of the Xv64 kernel (an xv6 for 64-bit x86 with several CPUs)
    and the proofs that its core does what it should.  The kernel is a set of layers: locks and
    a page allocator; page tables and the switch between address spaces; processes and their
    scheduler; a disk, the cache of its sectors and a write-ahead log; a file system on top;
    open files and pipes; traps, the console and the system calls through which processes use
    all of it; and a network stack with ARP, IPv4, ICMP, UDP and TCP.

    ** The style of the model

    Kernel code that changes state is a function of the monad [K S] of this file: it takes
    a state [S], emits events (sectors written to disk, wakeups) and returns, or stops for
    one of the reasons of [stop]: a panic, a sleep, a switch to the scheduler, a fault (a
    wild or null pointer), a halt, or [NoFuel], a loop that ran out of its bound.  [wp m s Q] says
    that [m] returns from [s] with a result, state and events in [Q]; it excludes every way
    of stopping, so each theorem stated with it includes termination, no panic and no fault.
    [stops] is its counterpart for code that does not return.  Code that sleeps is cut at
    the sleep: the model stops there, and what runs on wakeup is a definition of its own.
    Integers are [Z], with the wrap-around of their width written out ([u32], [i32], ...);
    memory and disk blocks are lists of bytes; a pointer to an element of a table is its
    index; a lock is a boolean, acquired once or a panic.  A component's state is embedded
    in a larger one by a lens, and its operations are run there with [zoom].

    ** The parts

    - [Prelude]: the monad, lenses, [wp] and its tactics, machine integers.
    - [CString], [Bytes]: kernel/sysstring.c, the string instructions of x86.h, part of
      ulib/string.c; little-endian integers in memory.
    - [Spinlock]: kernel/spinlock.c, twice: as steps of any number of CPUs (module [Smp],
      with the exchange instruction as the atomic step), where mutual exclusion is proved
      for all interleavings; and as the [acquire]/[release] the other files use.
    - [Kalloc]: kernel/kalloc.c, the free list threaded through the pages.
    - [Vm], [VmSpace], [VmUser], [VmCopy]: kernel/vm.c with setupkvm of vm64.c, over
      physical memory as pages of bytes; [aspace] says which address space a set of tables
      in memory represents, and each operation is proved against it: mapping, growing,
      shrinking, freeing, copying for fork, copying out.
    - [Vm64]: kernel/vm64.c; [hw_translate] is the processor's walk of the tables, and the
      theorems say what kernel and user code can reach after kvmalloc and switchuvm.
    - [Pipe]: kernel/pipe.c, refining a bounded queue of bytes.
    - [Disk], [Bio], [Cache]: the interface of a disk driver as the class [Driver] with its
      laws [DriverSpec], kernel/memide.c as its instance, and kernel/bio.c over any driver:
      the ring of buffers is a least-recently-used list, and reading and writing through it
      agree with the sectors.
    - [Log], [LogSafety]: kernel/log.c; a crash is a prefix of the sectors written, and
      commit and recovery are atomic and repeatable for every prefix; the space reserved by
      operations bounds a transaction.
    - [Proc], [Sched], [ProcLife]: kernel/proc.c over the class [ProcEnv] of the services it
      uses; which process a turn of the scheduler runs, how long one waits, sleep and
      wakeup, exit and wait.
    - [Store]: the interface [BlockOps] with the laws [BlockSpec] between the file system and
      the log, discharged for log and cache over any driver.
    - [Fs], [FsBlocks], [FsFile], [FsRw], [FsDir], [Path]: kernel/fs/fs1.c and kernel/vfs.c:
      block allocation, inodes and their cache, the map of file blocks, reading and writing,
      directories, path names.
    - [Mkfs], [MkfsOk]: tools/mkfs.c, which formats a disk and copies files to it; the disk it
      makes is well-formed in the sense of the file system's theorems and has those files.
    - [File], [FilePipe]: kernel/file.c and pipealloc; files, pipes and pages together refine
      a table of reference counts and queues.
    - [Syscall], [SysFile], [SysPipe], [SysProc]: kernel/syscall.c, sysfile.c and sysproc.c:
      the checks on arguments, all handlers, the table and the dispatcher; descriptors, dup,
      close and pipe are proved over [FilePipe].
    - [Exec]: kernel/exec.c over page tables, file system and process; a failed exec leaves
      the caller's image alone.
    - [Boot]: initlog of log.c and the loop device of proc.c.
    - [Trap]: kernel/trap.c, the dispatcher over the process table: no killed process returns
      to user code.
    - [Ide]: kernel/ide.c; the queue of requests and the interrupt refine a queue that serves
      them in order.
    - [Printf], [Console], [ConsoleLine]: kernel/console.c with uart.c, kbd.c and kbd.h:
      formatting, what appears on the screen and the serial line, the decoding of scan codes and
      the line editor that console reads take their input from.
    - [Umalloc]: ulib/umalloc.c, the free list of the heap of a user program.
    - [ArrayList], [Queue]: the containers of include/UArrayList.tcc and UQueue.tcc; the queue
      is a chain of cells that refines a list.
    - [Frame]: kernel/UEtherFrame.cc, frames as arrays of bytes with a size; operations keep
      their shape.  [Checksum]: the sum of 16-bit words; a checksum that was stored verifies.
      [Random]: include/URandom.tcc.
    - [Ipv4], [Net], [Arp], [IpSend], [Icmp]: kernel/UProtocols.cc and include/UProtocols.hh: the
      fields of packets, the tables of addresses and routes with the search for a route,
      address resolution, sending and the echo.
    - [Udp], [UdpSend]: UDP of include/UProtocols4.tcc: endpoints as queues of datagrams, and
      what a transmission sends.
    - [Tcp], [TcpSend], [TcpState], [TcpConn]: TCP of the same file: segments and control
      blocks; what a control segment sends; the diagram of states as an invariant of all
      interleavings; the handshake of a server; an established connection as a queue of bytes.
    - [Adapter], [AdapterOk]: kernel/UNetworkAdapter.cc and the dispatch at the end of
      UEtherFrame.cc: the rings of descriptors of the adapter as a queue of packets, and the
      interrupt that hands them to the protocols.
    - [Grep]: user/grep.c, the matcher of regular expressions against their meaning, and the loop
      over the input.
    - [Sh], [ShRun]: user/sh.c, the parser of command lines, total and inverse to a printer, and
      the processes that a command starts, with their descriptors.

    ** Bounds

    Loops that count over a table or a buffer are structural ([for_each], [for_return], lists).
    Others take fuel: the number of pages or bytes left (page-table and file loops), the
    number of polls a pipe allows, the length of a path, two for the retry of an allocation
    after a table grew.  A theorem with [wp] shows that the fuel is enough.  Two folds of
    the carries are enough for a checksum of up to 2^16 words, and the length of a queue of
    cells for counting it.  The recursion of [ArrayList.qsort] takes the depth of the kernel stack
    as fuel, since it does not end.  The parser of the shell takes four times the length of the
    line, which [Sh.parsecmd_total] shows to be enough.

    ** Interfaces

    Code outside this model appears as a parameter.  [Driver] (disk controllers), [FsEnv]
    (ext2 and devices), [TxOps], [SockOps] (sockets), [ProcEnv], [TrapDev] (interrupt routines of
    devices), [ConEnv] (the ports of the console), [Sbrk] (the system call under malloc), [Fresh]
    (the contents of a new page), [Peers] (what arrives while a sender waits), [Registers] and
    [Controller] (the registers of a network adapter) are classes;
    the end of the kernel image, the outcome of a bounded wait for a lock, the contents of
    fresh memory and, in the system calls, exec (modelled in [Exec] over a state with page
    tables) are arguments.  Theorems that need laws of a parameter have them
    as hypotheses, with an instance in the witness.

    ** Not modelled

    ext2.c; the drivers for SATA, PCI, the interrupt controllers and video,
    which only program device registers; ACPI and MP tables; boot code; the choice between the
    protocols above IPv4 and the socket calls; the other user programs.
    Interleaving of CPUs is modelled for spin locks, for operations on the log and for sleep
    and wakeup; elsewhere a component runs under its lock.

    ** This file

    Integers, the monad, lenses, the program logic and its tactics, and lemmas on lists and
    integers that several components use. *)

From stdpp Require Import base list gmap strings numbers.
From Stdlib Require Import ZArith Lia.

Declare Scope kernel_scope.
Delimit Scope kernel_scope with kernel.
Open Scope Z_scope.

(** ** Machine integers

    The C types of include/types.h, as [Z] kept in range by explicit
    wrap-around.  [uint] is 32 bits, [uintp] is 64 bits. *)

Definition u8 (z : Z) : Z := z mod 2 ^ 8.
Definition u16 (z : Z) : Z := z mod 2 ^ 16.
Definition u32 (z : Z) : Z := z mod 2 ^ 32.
Definition u64 (z : Z) : Z := z mod 2 ^ 64.

(** Two's complement reading of the low [w] bits. *)
Definition signed (w z : Z) : Z :=
  let m := z mod 2 ^ w in if m <? 2 ^ (w - 1) then m else m - 2 ^ w.
Definition i8 (z : Z) : Z := signed 8 z.
Definition i16 (z : Z) : Z := signed 16 z.
Definition i32 (z : Z) : Z := signed 32 z.
Definition i64 (z : Z) : Z := signed 64 z.

(** C's [(x & mask) != 0] and [x &= ~mask] on non-negative words. *)
Definition has (x mask : Z) : bool := negb (Z.land x mask =? 0).
Definition clr (x mask : Z) : Z := Z.ldiff x mask.
Definition set (x mask : Z) : Z := Z.lor x mask.

(** C's boolean-as-int. *)
Definition b2z (b : bool) : Z := if b then 1 else 0.

(** ** Sleep channels and events

    A sleep channel is an address in the source; here it is the object the
    address belongs to. *)

Inductive chan :=
| ChBuf (i : nat)        (* a struct buf of the cache *)
| ChLog                  (* &log *)
| ChInode (i : nat)      (* a struct inode of an inode cache *)
| ChPipeR (p : Z)        (* &p->nread *)
| ChPipeW (p : Z)        (* &p->nwrite *)
| ChProc (i : nat)       (* a struct proc *)
| ChTicks                (* &ticks *)
| ChInput                (* &input.r *)
| ChTcp (i : nat)        (* a TCB of TCBTable *)
| ChUdp (i : nat).       (* a UDPController of UDPTable *)

#[export] Instance chan_eq_dec : EqDecision chan.
Proof. solve_decision. Defined.

(** What the rest of the machine can observe while an operation runs. *)
Inductive event :=
| Wakeup (c : chan)                              (* wakeup(c) *)
| DiskWrite (dev sec : Z) (data : list Z).       (* one sector reaches the disk *)

(** ** Outcomes of kernel code

    Kernel code either returns, or stops: [panic()] never returns, [sleep()]
    gives the CPU away at the current point (the continuation runs again once
    the channel is woken), [sched()] switches to the scheduler, a wild access
    faults, a CPU that halts loops for ever, and [NoFuel] is the outcome of a loop whose iteration bound was too
    small. *)

Inductive stop :=
| Panicked (msg : string)
| Sleeping (c : chan)
| Switched
| Faulted
| Halted
| NoFuel.

Inductive outcome (S A : Type) :=
| Ret (a : A) (s : S)
| Stop (r : stop) (s : S).
Arguments Ret {S A} a s.
Arguments Stop {S A} r s.

(** Kernel computations over a state [S]: state passing, early stop, and the
    list of events emitted. *)
Definition K (S A : Type) : Type := S -> list event * outcome S A.

Definition kret {S A} (a : A) : K S A := fun s => ([], Ret a s).

Definition kbind {S A B} (m : K S A) (f : A -> K S B) : K S B := fun s =>
  match m s with
  | (t, Ret a s1) => let '(t2, o) := f a s1 in (t ++ t2, o)
  | (t, Stop r s1) => (t, Stop r s1)
  end.

Definition kstop {S A} (r : stop) : K S A := fun s => ([], Stop r s).
Definition panic {S A} (msg : string) : K S A := kstop (Panicked msg).
Definition fault {S A} : K S A := kstop Faulted.
Definition kget {S} : K S S := fun s => ([], Ret s s).
Definition gets {S A} (f : S -> A) : K S A := fun s => ([], Ret (f s) s).
Definition kmod {S} (f : S -> S) : K S unit := fun s => ([], Ret tt (f s)).
Definition emit {S} (e : event) : K S unit := fun s => ([e], Ret tt s).
Definition wakeup {S} (c : chan) : K S unit := emit (Wakeup c).

(** [sleep(chan, lk)]: the lock is released by [unlock] as the process sleeps. *)
Definition ksleep {S A} (c : chan) (unlock : S -> S) : K S A :=
  fun s => ([], Stop (Sleeping c) (unlock s)).

Notation "'let!' x ':=' m 'in' k" := (kbind m (fun x => k))
  (at level 10, x pattern, m at level 100, k at level 200)
  : kernel_scope.
Notation "m ';;;' k" := (kbind m (fun _ => k))
  (at level 100, k at level 200, right associativity) : kernel_scope.
Open Scope kernel_scope.

Definition kwhen {S} (b : bool) (m : K S unit) : K S unit :=
  if b then m else kret tt.

(** A [for] loop over a fixed range of items. *)
Fixpoint for_each {S X} (l : list X) (body : X -> K S unit) : K S unit :=
  match l with
  | [] => kret tt
  | x :: l' => body x ;;; for_each l' body
  end.

(** A [for] loop whose body may [return] from the enclosing function: the first
    [Some] ends the loop. *)
Fixpoint for_return {S X A} (l : list X) (body : X -> K S (option A)) : K S (option A) :=
  match l with
  | [] => kret None
  | x :: l' =>
      let! r := body x in
      match r with Some a => kret (Some a) | None => for_return l' body end
  end.

(** ** State components

    A component's operations run on its own state; [zoom] runs them on a field
    of a larger state. *)

Record lens (S T : Type) := Lens {
  lget : S -> T;
  lput : T -> S -> S;
}.
Arguments Lens {S T}.
Arguments lget {S T}.
Arguments lput {S T}.

Class LensLaws {S T} (l : lens S T) : Prop := {
  lget_lput : forall t s, lget l (lput l t s) = t;
  lput_lput : forall t t' s, lput l t (lput l t' s) = lput l t s;
  lput_lget : forall s, lput l (lget l s) s = s;
}.

Definition zoom {S T A} (l : lens S T) (m : K T A) : K S A := fun s =>
  match m (lget l s) with
  | (t, Ret a x) => (t, Ret a (lput l x s))
  | (t, Stop r x) => (t, Stop r (lput l x s))
  end.

(** ** Total correctness

    [wp m s Q]: from state [s], [m] returns, and the value, the final state and
    the events satisfy [Q]. *)

Definition wp {S A} (m : K S A) (s : S) (Q : A -> S -> list event -> Prop) : Prop :=
  match m s with
  | (t, Ret a s') => Q a s' t
  | (_, Stop _ _) => False
  end.

(** [stops m s r Q]: from state [s], [m] stops with outcome [r], and the state it leaves
    and the events satisfy [Q]. *)
Definition stops {S A} (m : K S A) (s : S) (r : stop) (Q : S -> list event -> Prop) : Prop :=
  match m s with
  | (t, Stop r' s') => r' = r /\ Q s' t
  | (_, Ret _ _) => False
  end.

(** The state an outcome leaves behind, whatever the outcome. *)
Definition final {S A} (o : outcome S A) : S :=
  match o with Ret _ s => s | Stop _ s => s end.

(** [pres P m]: whatever the outcome, [m] preserves [P]. *)
Definition pres {S A} (P : S -> Prop) (m : K S A) : Prop :=
  forall s, P s -> P (final (m s).2).

(** The writes among some events, oldest first. *)
Fixpoint disk_writes (t : list event) : list (Z * Z * list Z) :=
  match t with
  | [] => []
  | DiskWrite d s b :: t' => (d, s, b) :: disk_writes t'
  | Wakeup _ :: t' => disk_writes t'
  end.

(** * Lemmas *)

(** ** Equality of computations

    Two computations are the same when they behave the same from every state. *)

Definition keq {S A} (m m' : K S A) : Prop := forall s, m s = m' s.
Infix "≡ₖ" := keq (at level 70) : kernel_scope.

#[export] Instance keq_equivalence {S A} : Equivalence (@keq S A).
Proof.
  split; [by intros m s|by intros m m' H s|]. intros m1 m2 m3 H1 H2 s. by rewrite H1, H2.
Qed.
#[export] Instance kbind_proper {S A B} :
  Proper (keq ==> pointwise_relation A keq ==> keq) (@kbind S A B).
Proof.
  intros m m' Hm f f' Hf s. unfold kbind. rewrite Hm. destruct (m' s) as [t [a s1|]]; [|done]. by rewrite (Hf a s1).
Qed.

Lemma kbind_assoc {S A B D} (m : K S A) (f : A -> K S B) (g : B -> K S D) :
  kbind (kbind m f) g ≡ₖ kbind m (fun a => kbind (f a) g).
Proof.
  intros s. unfold kbind. destruct (m s) as [t [a s1|]]; [|done]. destruct (f a s1) as [t2 [b s2|]]; [|done].
  destruct (g b s2) as [t3 o]. by rewrite app_assoc.
Qed.
Lemma kbind_ret_l {S A B} (a : A) (f : A -> K S B) : kbind (kret a) f ≡ₖ f a.
Proof. intros s. unfold kbind. simpl. by destruct (f a s). Qed.
Lemma kbind_unit_r {S} (m : K S unit) : kbind m (fun _ => kret tt) ≡ₖ m.
Proof. intros s. unfold kbind. destruct (m s) as [t [[] s1|]]; [|done]. simpl. by rewrite app_nil_r. Qed.
Lemma for_each_app {S X} (l1 l2 : list X) (b : X -> K S unit) :
  for_each (l1 ++ l2) b ≡ₖ (for_each l1 b ;;; for_each l2 b).
Proof.
  induction l1 as [|x l1 IH]; cbn [app for_each]; [by rewrite kbind_ret_l|].
  rewrite kbind_assoc. f_equiv. intros []. apply IH.
Qed.
Lemma for_each_one {S X} (x : X) (b : X -> K S unit) : for_each [x] b ≡ₖ b x.
Proof. apply kbind_unit_r. Qed.

(** A sequence returns only if both parts do. *)
Lemma kbind_returns {S A B} (m : K S A) (f : A -> K S B) s t b s' :
  kbind m f s = (t, Ret b s') ->
  exists a s1 t1 t2, m s = (t1, Ret a s1) /\ f a s1 = (t2, Ret b s') /\ t = t1 ++ t2.
Proof.
  unfold kbind. destruct (m s) as [t1 [a s1|]]; [|done]. destruct (f a s1) as [t2 o] eqn:E2.
  intros [= <- ->]. by exists a, s1, t1, t2.
Qed.

(** Code that never returns. *)
Definition never {S A} (m : K S A) : Prop := forall s t a s', m s <> (t, Ret a s').
Lemma never_stop {S A} r : never (@kstop S A r).
Proof. done. Qed.
Lemma never_bind {S A B} (m : K S A) (f : A -> K S B) : (forall a, never (f a)) -> never (kbind m f).
Proof. intros Hf s t b s' (a & s1 & t1 & t2 & _ & H2 & _)%kbind_returns. by apply Hf in H2. Qed.
Lemma never_zoom {S T A} (l : lens S T) (m : K T A) : never m -> never (zoom l m).
Proof.
  intros Hm s t a s' H. unfold zoom in H. destruct (m (lget l s)) as [t1 [x s1|]] eqn:E1; [|done]. by apply Hm in E1.
Qed.

Section wp.
Context {S : Type}.

Lemma wp_ret {A} (a : A) (s : S) Q : Q a s [] -> wp (kret a) s Q.
Proof. done. Qed.

Lemma wp_bind {A B} (m : K S A) (f : A -> K S B) s Q :
  wp m s (fun a s1 t1 => wp (f a) s1 (fun b s2 t2 => Q b s2 (t1 ++ t2))) ->
  wp (kbind m f) s Q.
Proof.
  unfold wp, kbind. destruct (m s) as [t [a s1|]]; [|done].
  by destruct (f a s1) as [t2 [b s2|]].
Qed.

Lemma wp_mono {A} (m : K S A) s (Q Q' : A -> S -> list event -> Prop) :
  wp m s Q -> (forall a s' t, Q a s' t -> Q' a s' t) -> wp m s Q'.
Proof. unfold wp. destruct (m s) as [t [a s'|]]; eauto. Qed.

Lemma wp_keq {A} (m m' : K S A) s Q : m ≡ₖ m' -> wp m' s Q -> wp m s Q.
Proof. unfold wp. intros Hm. by rewrite (Hm s). Qed.

Lemma wp_get (s : S) (Q : S -> S -> list event -> Prop) : Q s s [] -> wp kget s Q.
Proof. done. Qed.

Lemma wp_gets {A} (f : S -> A) s Q : Q (f s) s [] -> wp (gets f) s Q.
Proof. done. Qed.

Lemma wp_mod (f : S -> S) s Q : Q tt (f s) [] -> wp (kmod f) s Q.
Proof. done. Qed.

Lemma wp_emit e (s : S) Q : Q tt s [e] -> wp (emit e) s Q.
Proof. done. Qed.

Lemma wp_when (b : bool) (m : K S unit) s Q :
  (b = true -> wp m s Q) -> (b = false -> Q tt s []) -> wp (kwhen b m) s Q.
Proof. intros H1 H2. destruct b; [by apply H1|by apply H2]. Qed.

Lemma wp_zoom {T A} (l : lens S T) (m : K T A) s Q :
  wp m (lget l s) (fun a x t => Q a (lput l x s) t) -> wp (zoom l m) s Q.
Proof. unfold wp, zoom. by destruct (m (lget l s)) as [t [a x|]]. Qed.

(** A [for] loop with an invariant [I] on the turns done and the events so far. *)
Lemma wp_for_each {X} (l : list X) (body : X -> K S unit) (I : nat -> S -> list event -> Prop) s :
  I 0%nat s [] ->
  (forall k x s t, l !! k = Some x -> I k s t ->
     wp (body x) s (fun _ s' t' => I (Datatypes.S k) s' (t ++ t'))) ->
  wp (for_each l body) s (fun _ s' t => I (length l) s' t).
Proof.
  revert I s. induction l as [|x l IH]; intros I s H0 Hstep; [exact H0|].
  simpl. apply wp_bind. eapply wp_mono; [by apply (Hstep 0%nat x s [])|].
  intros u s1 t1 H1. simpl in H1.
  apply (IH (fun k s' t => I (Datatypes.S k) s' (t1 ++ t))); [by rewrite app_nil_r|].
  intros k y s2 t2 Hy H2. eapply wp_mono; [by apply (Hstep (Datatypes.S k) y s2 (t1 ++ t2))|].
  intros u' s3 t3 H3. by rewrite app_assoc.
Qed.

(** A [for] loop with early return: [I] holds before each turn that is reached. *)
Lemma wp_for_return {X A} (l : list X) (body : X -> K S (option A)) (I : nat -> S -> Prop)
    (Q : option A -> S -> Prop) s :
  I 0%nat s ->
  (forall k x s, l !! k = Some x -> I k s ->
     wp (body x) s (fun r s' _ => match r with Some a => Q (Some a) s' | None => I (Datatypes.S k) s' end)) ->
  (forall s, I (length l) s -> Q None s) ->
  wp (for_return l body) s (fun r s' _ => Q r s').
Proof.
  revert I s. induction l as [|x l IH]; intros I s H0 Hstep Hend; [by apply Hend|].
  simpl. apply wp_bind. eapply wp_mono; [by apply (Hstep 0%nat x s)|].
  intros [a|] s1 t1 H1; [done|].
  eapply wp_mono; [apply (IH (fun k => I (Datatypes.S k)) s1 H1)|done].
  - intros k y s2 Hy. by apply Hstep.
  - exact Hend.
Qed.

Lemma wp_run {A} (m : K S A) s Q :
  wp m s Q -> exists a s' t, m s = (t, Ret a s') /\ Q a s' t.
Proof. unfold wp. destruct (m s) as [t [a s'|]]; [eauto|done]. Qed.

Lemma wp_of_run {A} (m : K S A) s Q a s' t :
  m s = (t, Ret a s') -> Q a s' t -> wp m s Q.
Proof. unfold wp. by intros ->. Qed.
End wp.

(** Running a computation step by step. *)
Section run.
Context {S : Type}.

Lemma stops_bind {A B} (m : K S A) (f : A -> K S B) s r Q :
  wp m s (fun a s1 t1 => stops (f a) s1 r (fun s2 t2 => Q s2 (t1 ++ t2))) ->
  stops (kbind m f) s r Q.
Proof.
  unfold wp, stops, kbind. destruct (m s) as [t [a s1|]]; [|done].
  by destruct (f a s1) as [t2 [b s2|]].
Qed.

Lemma stops_bind_now {A B} (m : K S A) (f : A -> K S B) s r Q :
  stops m s r Q -> stops (kbind m f) s r Q.
Proof. unfold stops, kbind. by destruct (m s) as [t [a s1|]]. Qed.

Lemma stops_of_run {A} (m : K S A) s r Q t s' :
  m s = (t, Stop r s') -> Q s' t -> stops m s r Q.
Proof. unfold stops. by intros ->. Qed.

Lemma kbind_pure {A B} (m : K S A) (f : A -> K S B) s a s1 :
  m s = ([], Ret a s1) -> kbind m f s = f a s1.
Proof. intros H. unfold kbind. rewrite H. by destruct (f a s1). Qed.

Lemma kbind_run {A B} (m : K S A) (f : A -> K S B) s t a s1 t2 o :
  m s = (t, Ret a s1) -> f a s1 = (t2, o) -> kbind m f s = (t ++ t2, o).
Proof. intros H H2. unfold kbind. by rewrite H, H2. Qed.

Lemma kbind_stop {A B} (m : K S A) (f : A -> K S B) s t r s1 :
  m s = (t, Stop r s1) -> kbind m f s = (t, Stop r s1).
Proof. intros H. unfold kbind. by rewrite H. Qed.
End run.

Section pres.
Context {S : Type} (P : S -> Prop).

Lemma pres_ret {A} (a : A) : pres P (kret a).
Proof. by intros s. Qed.

Lemma pres_stop {A} r : pres P (kstop (A:=A) r).
Proof. by intros s. Qed.

Lemma pres_gets {A} (f : S -> A) : pres P (gets f).
Proof. by intros s. Qed.

Lemma pres_emit e : pres P (emit e).
Proof. by intros s. Qed.

Lemma pres_mod f : (forall s, P s -> P (f s)) -> pres P (kmod f).
Proof. intros H s. apply H. Qed.

Lemma pres_bind {A B} (m : K S A) (f : A -> K S B) :
  pres P m -> (forall a, pres P (f a)) -> pres P (kbind m f).
Proof.
  intros Hm Hf s Hs. specialize (Hm s Hs). unfold kbind.
  destruct (m s) as [t [a s1|]]; simpl in *; [|done].
  specialize (Hf a s1 Hm). by destruct (f a s1).
Qed.

Lemma pres_when b m : pres P m -> pres P (kwhen b m).
Proof. destruct b; [done|]. intros _. apply pres_ret. Qed.

Lemma pres_zoom {T A} (l : lens S T) (m : K T A) :
  (forall x s, P s -> P (lput l x s)) -> pres P (zoom l m).
Proof. intros H s Hs. unfold zoom. destruct (m (lget l s)) as [t [a x|r x]]; by apply H. Qed.

Lemma pres_for_each {X} (l : list X) body :
  (forall x, pres P (body x)) -> pres P (for_each l body).
Proof.
  intros H. induction l; simpl; [apply pres_ret|]. by apply pres_bind.
Qed.
End pres.

Lemma disk_writes_app t1 t2 : disk_writes (t1 ++ t2) = disk_writes t1 ++ disk_writes t2.
Proof. induction t1 as [|[] t1 IH]; simpl; [done|done|by rewrite IH]. Qed.

(** ** Updating a list at an index *)

Lemma alter_as_insert {A} (f : A -> A) (l : list A) i x :
  l !! i = Some x -> alter f i l = <[i := f x]> l.
Proof.
  intros H. apply list_eq. intros j. destruct (decide (i = j)) as [<-|Hne].
  - rewrite list_lookup_alter_eq, H, list_lookup_insert_eq; [done|]. by eapply lookup_lt_Some.
  - by rewrite list_lookup_alter_ne, list_lookup_insert_ne.
Qed.

Lemma alter_alter {A} (f g : A -> A) i (l : list A) :
  alter f i (alter g i l) = alter (fun x => f (g x)) i l.
Proof. revert i. induction l as [|x l IH]; intros [|i]; simpl; [done..|]. f_equal. apply IH. Qed.
Lemma alter_inserted {A} (g : A -> A) (l : list A) i x : alter g i (<[i := x]> l) = <[i := g x]> l.
Proof.
  destruct (decide (i < length l)%nat) as [Hl|Hl].
  - rewrite (alter_as_insert _ _ _ x), list_insert_insert_eq; [done|]. by apply list_lookup_insert_eq.
  - rewrite !list_insert_ge by lia. revert i Hl. induction l as [|y l IH]; intros [|i] Hl; simpl in *; try done; [lia|].
    f_equal. apply IH. lia.
Qed.

(** ** The first index that passes a test *)

Lemma find_from test k n j : List.find test (seq k n) = Some j ->
  (k <= j < k + n)%nat /\ test j = true /\ (forall i, (k <= i < j)%nat -> test i = false).
Proof.
  revert k. induction n as [|n IH]; intros k H; [done|]. cbn [seq List.find] in H.
  destruct (test k) eqn:Ek; [injection H as <-; split_and!; [lia|lia|done|intros; lia]|].
  apply IH in H as (H1 & H2 & H3). split_and!; [lia|lia|done|]. intros i Hi.
  destruct (decide (i = k)) as [->|]; [done|]. apply H3. lia.
Qed.

Lemma find_seq_first test n i : (i < n)%nat -> test i = true ->
  (forall j, (j < i)%nat -> test j = false) -> List.find test (seq 0 n) = Some i.
Proof.
  intros Hi Ht Hno. destruct (List.find test (seq 0 n)) as [j|] eqn:Ef.
  - apply find_from in Ef as (H1 & H2 & H3). destruct (lt_eq_lt_dec i j) as [[Hij | ->]|Hij].
    + rewrite H3 in Ht by lia. done.
    + done.
    + rewrite Hno in H2 by lia. done.
  - eapply List.find_none in Ef; [by rewrite Ef in Ht|]. apply in_seq. lia.
Qed.

(** ** Integers *)

Lemma u8_range z : 0 <= u8 z < 256.
Proof. unfold u8. apply Z.mod_pos_bound. lia. Qed.
Lemma u16_range z : 0 <= u16 z < 2 ^ 16.
Proof. unfold u16. apply Z.mod_pos_bound. lia. Qed.
Lemma u32_range z : 0 <= u32 z < 2 ^ 32.
Proof. unfold u32. apply Z.mod_pos_bound. lia. Qed.
Lemma u64_range z : 0 <= u64 z < 2 ^ 64.
Proof. unfold u64. apply Z.mod_pos_bound. lia. Qed.
Lemma u32_small z : 0 <= z < 2 ^ 32 -> u32 z = z.
Proof. apply Z.mod_small. Qed.
Lemma u64_small z : 0 <= z < 2 ^ 64 -> u64 z = z.
Proof. apply Z.mod_small. Qed.
Lemma u16_small z : 0 <= z < 2 ^ 16 -> u16 z = z.
Proof. apply Z.mod_small. Qed.
Lemma u8_small z : 0 <= z < 256 -> u8 z = z.
Proof. apply Z.mod_small. Qed.

Lemma u32_add_l a b : u32 (u32 a + b) = u32 (a + b).
Proof. unfold u32. apply Zplus_mod_idemp_l. Qed.
Lemma u32_add_r a b : u32 (a + u32 b) = u32 (a + b).
Proof. unfold u32. apply Zplus_mod_idemp_r. Qed.
Lemma u32_sub_l a b : u32 (u32 a - b) = u32 (a - b).
Proof. unfold u32. apply Zminus_mod_idemp_l. Qed.
Lemma u32_sub_r a b : u32 (a - u32 b) = u32 (a - b).
Proof. unfold u32. apply Zminus_mod_idemp_r. Qed.
Lemma u32_idemp a : u32 (u32 a) = u32 a.
Proof. unfold u32. apply Z.mod_mod. lia. Qed.

Lemma i32_u32_small x : 0 <= x < 2 ^ 31 -> i32 (u32 x) = x.
Proof.
  intros Hx. unfold i32, signed. rewrite u32_small, Z.mod_small by lia.
  by rewrite (proj2 (Z.ltb_lt _ _)) by lia.
Qed.

Lemma i32_small_id x : 0 <= x < 2 ^ 31 -> i32 x = x.
Proof. intros Hx. rewrite <-(u32_small x) at 1 by lia. by apply i32_u32_small. Qed.

(** Reducing a counter kept modulo 2^32 by a size that divides 2^32. *)
Lemma u32_mod_dvd a m : 0 < m -> (m | 2 ^ 32) -> u32 a mod m = a mod m.
Proof. intros Hm Hd. unfold u32. symmetry. by apply Znumtheory.Zmod_div_mod. Qed.

Create HintDb kernel.
#[export] Hint Resolve u8_range u16_range u32_range u64_range : kernel.

(** ** Tactics *)

(** [wp_step]: one step of symbolic execution of the goal's computation. *)
Ltac wp_step :=
  lazymatch goal with
  | |- wp (kbind _ _) _ _ => apply wp_bind
  | |- wp (kret _) _ _ => apply wp_ret
  | |- wp kget _ _ => apply wp_get
  | |- wp (gets _) _ _ => apply wp_gets
  | |- wp (kmod _) _ _ => apply wp_mod
  | |- wp (emit _) _ _ => apply wp_emit
  | |- wp (wakeup _) _ _ => apply wp_emit
  | |- wp (zoom _ _) _ _ => apply wp_zoom
  end; cbn beta.
Ltac wp_steps := repeat wp_step.

(** [kstep]: run the next step of a bind, when it emits nothing. *)
Ltac kstep := erewrite kbind_pure; [|first [reflexivity|eassumption|eauto with kernel]].
Ltac kstep_by tac := erewrite kbind_pure; [|solve [tac]].

(** Solve a [lia] goal that speaks of [/] and [mod]. *)
Ltac lia_dm := Z.div_mod_to_equations; lia.
