(* ===== verification/CString.v ===== *)
(** * Memory and string primitives

    kernel/sysstring.c (the kernel's copies, named with a sys_ prefix), include/x86.h's string
    instructions, and the functions ulib/string.c adds for user programs.

    Memory is a list of bytes starting at address 0; a write outside it is
    [None].  A [const char*] that is only read is the list of bytes from the
    pointer onwards, and reading past its end is [None].  For the copying string
    functions the destination buffer and the source are distinct objects. *)

From stdpp Require Import base list strings.
From Stdlib Require Import ZArith Lia.
From S2P Require Import Prelude.
Open Scope Z_scope.

Notation mem := (list Z).

Definition poke (m : mem) (a : nat) (v : Z) : option mem :=
  if decide (a < length m)%nat then Some (<[a := v]> m) else None.

(** x86.h: [rep stosb] and [rep stosl] (little endian). *)
Fixpoint stosb (m : mem) (addr : nat) (data : Z) (cnt : nat) : option mem :=
  match cnt with
  | O => Some m
  | S cnt' => poke m addr (u8 data) ≫= fun m1 => stosb m1 (addr + 1) data cnt'
  end.

Definition stosl_word (m : mem) (addr : nat) (data : Z) : option mem :=
  poke m addr (u8 data) ≫= fun m1 =>
  poke m1 (addr + 1) (u8 (Z.shiftr data 8)) ≫= fun m2 =>
  poke m2 (addr + 2) (u8 (Z.shiftr data 16)) ≫= fun m3 =>
  poke m3 (addr + 3) (u8 (Z.shiftr data 24)).

Fixpoint stosl (m : mem) (addr : nat) (data : Z) (cnt : nat) : option mem :=
  match cnt with
  | O => Some m
  | S cnt' => stosl_word m addr data ≫= fun m1 => stosl m1 (addr + 4) data cnt'
  end.

Definition sys_memset (m : mem) (dst : nat) (c : Z) (n : nat) : option mem :=
  if ((dst mod 4 =? 0)%nat && (n mod 4 =? 0)%nat)%bool then
    let c := Z.land c 255 in
    let w := u32 (Z.lor (Z.lor (Z.lor (Z.shiftl c 24) (Z.shiftl c 16)) (Z.shiftl c 8)) c) in
    stosl m dst w (n / 4)
  else stosb m dst c n.

(** [while (n-- > 0) *d++ = *s++;] *)
Fixpoint copy_up (m : mem) (d s n : nat) : option mem :=
  match n with
  | O => Some m
  | S n' => m !! s ≫= fun c => poke m d c ≫= fun m1 => copy_up m1 (d + 1) (s + 1) n'
  end.

(** [while (n-- > 0) *--d = *--s;] with [d] and [s] already moved to the end. *)
Fixpoint copy_down (m : mem) (d s n : nat) : option mem :=
  match n with
  | O => Some m
  | S n' => m !! (s - 1)%nat ≫= fun c =>
            poke m (d - 1) c ≫= fun m1 => copy_down m1 (d - 1) (s - 1) n'
  end.

Definition sys_memmove (m : mem) (dst src n : nat) : option mem :=
  if decide (src < dst /\ dst < src + n)%nat then copy_down m (dst + n) (src + n) n
  else copy_up m dst src n.

Fixpoint sys_memcmp (s1 s2 : list Z) (n : nat) {struct n} : option Z :=
  match n with
  | O => Some 0
  | S n' =>
      match s1, s2 with
      | c1 :: s1', c2 :: s2' => if c1 =? c2 then sys_memcmp s1' s2' n' else Some (c1 - c2)
      | _, _ => None
      end
  end.

Fixpoint sys_strncmp (p q : list Z) (n : nat) {struct n} : option Z :=
  match n with
  | O => Some 0
  | S n' =>
      match p, q with
      | cp :: p', cq :: q' =>
          if (negb (cp =? 0) && (cp =? cq))%bool then sys_strncmp p' q' n'
          else Some (u8 cp - u8 cq)
      | _, _ => None
      end
  end.

Fixpoint strlen_from (s : list Z) (n : Z) : option Z :=
  match s with
  | [] => None
  | c :: s' => if c =? 0 then Some n else strlen_from s' (n + 1)
  end.
Definition sys_strlen (s : list Z) : option Z := strlen_from s 0.

(** [while (n-- > 0) *s++ = 0;] from index [i] of the destination. *)
Fixpoint zero_pad (s : list Z) (i : nat) (n : nat) : option (list Z) :=
  match n with
  | O => Some s
  | S n' => poke s i 0 ≫= fun s1 => zero_pad s1 (i + 1) n'
  end.

(** [while (n-- > 0 && ( *s++ = *t++) != 0);] then the padding loop.  [n] is the
    [int] argument; a non-positive one copies nothing. *)
Fixpoint strncpy_loop (s t : list Z) (i : nat) (n : nat) {struct n} : option (list Z) :=
  match n with
  | O => Some s
  | S n' =>
      match t with
      | [] => None
      | c :: t' => poke s i c ≫= fun s1 =>
          if c =? 0 then zero_pad s1 (i + 1) n' else strncpy_loop s1 t' (i + 1) n'
      end
  end.
Definition sys_strncpy (s t : list Z) (n : Z) : option (list Z) :=
  strncpy_loop s t 0 (Z.to_nat n).

(** [while (--n > 0 && ( *s++ = *t++) != 0); *s = 0;] where [n] counts what is
    left after the pre-decrement. *)
Fixpoint safestrcpy_loop (s t : list Z) (i : nat) (n : nat) {struct n} : option (list Z) :=
  match n with
  | O => poke s i 0
  | S n' =>
      match t with
      | [] => None
      | c :: t' => poke s i c ≫= fun s1 =>
          if c =? 0 then poke s1 (i + 1) 0 else safestrcpy_loop s1 t' (i + 1) n'
      end
  end.
Definition sys_safestrcpy (s t : list Z) (n : Z) : option (list Z) :=
  if n <=? 0 then Some s else safestrcpy_loop s t 0 (Z.to_nat (n - 1)).

(** ** User-level additions: ulib/string.c *)

(** [atoi]: [n*10 + *s++ - '0'] in [int] arithmetic. *)
Fixpoint atoi_loop (s : list Z) (n : Z) : option Z :=
  match s with
  | [] => None
  | c :: s' =>
      if ((48 <=? c) && (c <=? 57))%bool then atoi_loop s' (i32 (n * 10 + c - 48)) else Some n
  end.
Definition atoi (s : list Z) : option Z := atoi_loop s 0.

(** [strchr]: the index of the first [c] before the terminator; the outer [None]
    is a read past the end, the inner one the null result. *)
Fixpoint strchr_from (s : list Z) (c : Z) (i : nat) : option (option nat) :=
  match s with
  | [] => None
  | x :: s' => if x =? 0 then Some None
               else if x =? c then Some (Some i) else strchr_from s' c (i + 1)
  end.
Definition strchr (s : list Z) (c : Z) : option (option nat) := strchr_from s c 0.

(** [strstr]: index of the first occurrence of [str2]. *)
Fixpoint strstr_from (s1 s2 : list Z) (len : nat) (i : nat) : option (option nat) :=
  match s1 with
  | [] => None
  | x :: s1' =>
      if x =? 0 then Some None
      else match sys_strncmp s1 s2 len with
           | None => None
           | Some r => if r =? 0 then Some (Some i) else strstr_from s1' s2 len (i + 1)
           end
  end.
Definition strstr (str1 str2 : list Z) : option (option nat) :=
  sys_strlen str2 ≫= fun len => strstr_from str1 str2 (Z.to_nat len) 0.

(** ** Specifications *)

(** The characters of a C string: those before the terminator. *)
Fixpoint cstr (s : list Z) : list Z :=
  match s with
  | [] => []
  | c :: s' => if c =? 0 then [] else c :: cstr s'
  end.

(** What a bounded comparison sees of a string. *)
Definition cstrn (n : nat) (s : list Z) : list Z := cstr (take n s).

Definition bytes (s : list Z) : Prop := Forall (fun c => 0 <= c < 256) s.

(** [s] with [d] written over it from index [i]. *)
Definition splice (s : list Z) (i : nat) (d : list Z) : list Z :=
  take i s ++ d ++ drop (i + length d) s.

(** * Lemmas *)

Lemma poke_spec m a v : (a < length m)%nat -> poke m a v = Some (<[a := v]> m).
Proof. intros. unfold poke. by rewrite decide_True. Qed.

Lemma length_splice s i d : (i + length d <= length s)%nat -> length (splice s i d) = length s.
Proof. intros. unfold splice. rewrite !length_app, length_take, length_drop. lia. Qed.

Lemma lookup_splice_in s i d k :
  (i + length d <= length s)%nat -> (i <= k < i + length d)%nat ->
  splice s i d !! k = d !! (k - i)%nat.
Proof.
  intros. unfold splice. rewrite lookup_app_r by (rewrite length_take; lia).
  rewrite lookup_app_l; rewrite length_take; [f_equal|]; lia.
Qed.

Lemma lookup_splice_out s i d k :
  (i + length d <= length s)%nat -> (k < i \/ i + length d <= k)%nat ->
  splice s i d !! k = s !! k.
Proof.
  intros Hl [Hk|Hk]; unfold splice.
  - rewrite lookup_app_l by (rewrite length_take; lia). by rewrite lookup_take_lt.
  - rewrite lookup_app_r by (rewrite length_take; lia).
    rewrite lookup_app_r by (rewrite length_take; lia).
    rewrite lookup_drop. f_equal. rewrite length_take. lia.
Qed.

(** Pointwise characterisation of [splice], the usual way to prove one. *)
Lemma splice_eq s i d r :
  (i + length d <= length s)%nat -> length r = length s ->
  (forall k, (k < length s)%nat ->
     r !! k = if decide (i <= k < i + length d)%nat then d !! (k - i)%nat else s !! k) ->
  r = splice s i d.
Proof.
  intros Hl Hr Hk. apply list_eq. intros k.
  destruct (decide (k < length s)%nat) as [Hlt|Hge].
  - rewrite Hk by done. case_decide.
    + by rewrite lookup_splice_in.
    + rewrite lookup_splice_out; [done|done|lia].
  - rewrite !lookup_ge_None_2; [done| |]; rewrite ?length_splice; lia.
Qed.

Lemma splice_cons s i x d :
  (i + S (length d) <= length s)%nat ->
  splice (<[i := x]> s) (i + 1) d = splice s i (x :: d).
Proof.
  intros Hl. apply splice_eq; simpl; [lia|rewrite length_splice; rewrite length_insert; lia|].
  intros k Hk. destruct (decide (i + 1 <= k < i + 1 + length d)%nat) as [Hin|Hout].
  - rewrite lookup_splice_in by (rewrite ?length_insert; lia).
    rewrite decide_True by lia. replace (k - i)%nat with (S (k - (i + 1))) by lia. done.
  - rewrite lookup_splice_out by (rewrite ?length_insert; lia).
    destruct (decide (k = i)) as [->|Hne].
    + rewrite decide_True by lia. rewrite Nat.sub_diag. simpl.
      apply list_lookup_insert_eq. lia.
    + rewrite decide_False by lia. by rewrite list_lookup_insert_ne.
Qed.

(** The [n] bytes at address [a]. *)
Definition slice (m : mem) (a n : nat) : list Z := take n (drop a m).

Lemma length_slice m a n : (a + n <= length m)%nat -> length (slice m a n) = n.
Proof. intros. unfold slice. rewrite length_take, length_drop. lia. Qed.

Lemma lookup_slice m a n k : (k < n)%nat -> slice m a n !! k = m !! (a + k)%nat.
Proof. intros. unfold slice. by rewrite lookup_take_lt, lookup_drop. Qed.

Lemma slice_insert m a n i x :
  (i < a \/ a + n <= i)%nat -> slice (<[i := x]> m) a n = slice m a n.
Proof.
  intros Hi. apply list_eq. intros k. destruct (decide (k < n)%nat).
  - rewrite !lookup_slice by done. apply list_lookup_insert_ne. lia.
  - rewrite !lookup_ge_None_2; [done| |];
      unfold slice; rewrite length_take; lia.
Qed.

Lemma slice_S m a n c : m !! a = Some c -> slice m a (S n) = c :: slice m (a + 1) n.
Proof.
  intros Hc. unfold slice. rewrite (drop_S _ _ _ Hc). simpl.
  by replace (a + 1)%nat with (S a) by lia.
Qed.

Lemma slice_snoc m a n c :
  m !! (a + n)%nat = Some c -> slice m a (S n) = slice m a n ++ [c].
Proof.
  intros Hc. unfold slice. apply take_S_r. by rewrite lookup_drop.
Qed.

Lemma splice_nil m i : splice m i [] = m.
Proof. unfold splice. simpl. rewrite Nat.add_0_r. apply take_drop. Qed.

Lemma splice_snoc s i x d :
  (i + S (length d) <= length s)%nat ->
  splice (<[(i + length d)%nat := x]> s) i d = splice s i (d ++ [x]).
Proof.
  intros Hl. apply splice_eq; rewrite ?length_app; simpl;
    [lia|rewrite length_splice; rewrite length_insert; lia|].
  intros k Hk. destruct (decide (i <= k < i + length d)%nat) as [Hin|Hout].
  - rewrite lookup_splice_in by (rewrite ?length_insert; lia).
    rewrite decide_True by lia. rewrite lookup_app_l by lia. done.
  - rewrite lookup_splice_out by (rewrite ?length_insert; lia).
    destruct (decide (k = i + length d)%nat) as [->|Hne].
    + rewrite decide_True by lia. rewrite lookup_app_r by lia.
      replace (i + length d - i - length d)%nat with 0%nat by lia. simpl.
      apply list_lookup_insert_eq. lia.
    + rewrite decide_False by lia. by rewrite list_lookup_insert_ne.
Qed.

Lemma copy_up_spec n m d s :
  (s + n <= length m)%nat -> (d + n <= length m)%nat -> (d <= s \/ s + n <= d)%nat ->
  copy_up m d s n = Some (splice m d (slice m s n)).
Proof.
  revert m d s. induction n as [|n IH]; intros m d s Hs Hd Ho; simpl.
  - unfold slice. rewrite take_0. by rewrite splice_nil.
  - destruct (lookup_lt_is_Some_2 m s) as [c Hc]; [lia|]. rewrite Hc. simpl.
    rewrite poke_spec by lia. simpl. rewrite IH by (rewrite ?length_insert; lia).
    rewrite slice_insert by lia. rewrite (slice_S _ _ _ _ Hc).
    rewrite splice_cons by (rewrite length_slice; lia). done.
Qed.

Lemma copy_down_spec n m d s :
  (s + n <= length m)%nat -> (d + n <= length m)%nat -> (s <= d)%nat ->
  copy_down m (d + n) (s + n) n = Some (splice m d (slice m s n)).
Proof.
  revert m. induction n as [|n IH]; intros m Hs Hd Ho; simpl.
  - unfold slice. rewrite take_0. by rewrite splice_nil.
  - replace (s + S n - 1)%nat with (s + n)%nat by lia.
    replace (d + S n - 1)%nat with (d + n)%nat by lia.
    destruct (lookup_lt_is_Some_2 m (s + n)) as [c Hc]; [lia|]. rewrite Hc. simpl.
    rewrite poke_spec by lia. simpl. rewrite IH by (rewrite ?length_insert; lia).
    rewrite slice_insert by lia. rewrite (slice_snoc _ _ _ _ Hc).
    rewrite <-splice_snoc by (rewrite length_slice; lia). by rewrite length_slice by lia.
Qed.

Lemma memmove_spec m dst src n :
  (src + n <= length m)%nat -> (dst + n <= length m)%nat ->
  sys_memmove m dst src n = Some (splice m dst (slice m src n)).
Proof.
  intros Hs Hd. unfold sys_memmove. case_decide.
  - apply copy_down_spec; lia.
  - apply copy_up_spec; lia.
Qed.

Lemma stosb_spec n m a c :
  (a + n <= length m)%nat -> stosb m a c n = Some (splice m a (replicate n (u8 c))).
Proof.
  revert m a. induction n as [|n IH]; intros m a Ha; simpl.
  - by rewrite splice_nil.
  - rewrite poke_spec by lia. simpl. rewrite IH by (rewrite length_insert; lia).
    by rewrite splice_cons by (rewrite length_replicate; lia).
Qed.

Lemma stosl_word_spec m a w :
  (a + 4 <= length m)%nat ->
  stosl_word m a w =
    Some (splice m a [u8 w; u8 (Z.shiftr w 8); u8 (Z.shiftr w 16); u8 (Z.shiftr w 24)]).
Proof.
  intros Ha. unfold stosl_word.
  rewrite poke_spec by lia. simpl. rewrite poke_spec by (rewrite !length_insert; lia). simpl.
  rewrite poke_spec by (rewrite !length_insert; lia). simpl.
  rewrite poke_spec by (rewrite !length_insert; lia).
  replace (a + 2)%nat with (a + 1 + 1)%nat by lia.
  replace (a + 3)%nat with (a + 1 + 1 + 1)%nat by lia.
  rewrite <-!splice_cons by (rewrite ?length_insert; simpl; lia).
  by rewrite splice_nil.
Qed.

Lemma splice_app m a d1 d2 :
  (a + length d1 + length d2 <= length m)%nat ->
  splice (splice m a d1) (a + length d1) d2 = splice m a (d1 ++ d2).
Proof.
  revert m a. induction d1 as [|x d1 IH]; simpl; intros m a Hl.
  - by rewrite splice_nil, Nat.add_0_r.
  - rewrite <-!splice_cons by (rewrite ?length_app; lia).
    replace (a + S (length d1))%nat with (a + 1 + length d1)%nat by lia.
    apply IH. rewrite length_insert. lia.
Qed.

(** The word that repeats one byte. *)
Lemma byte_word c k :
  let w := u32 (Z.lor (Z.lor (Z.lor (Z.shiftl (Z.land c 255) 24) (Z.shiftl (Z.land c 255) 16))
                         (Z.shiftl (Z.land c 255) 8)) (Z.land c 255)) in
  k = 0 \/ k = 8 \/ k = 16 \/ k = 24 -> u8 (Z.shiftr w k) = u8 c.
Proof.
  intros w Hk. unfold w, u8, u32. change 255 with (Z.ones 8).
  apply Z.bits_inj'. intros i Hi. rewrite <-!Z.land_ones by lia.
  rewrite !Z.land_spec, Z.shiftr_spec, !Z.land_spec, !Z.lor_spec by lia.
  destruct (Z.ltb_spec i 8) as [Hlt|Hge].
  2: { rewrite (Z.ones_spec_high 8 i) by lia. by rewrite !andb_false_r. }
  rewrite !Z.shiftl_spec, !Z.land_spec by lia.
  rewrite (Z.ones_spec_low 8 i), (Z.ones_spec_low 32) by lia. rewrite !andb_true_r.
  destruct Hk as [-> | [-> | [-> | ->] ] ].
  all: repeat match goal with
    | |- context [Z.testbit (Z.ones 8) ?j] =>
        first [ rewrite (Z.ones_spec_low 8 j) by lia
              | rewrite (Z.ones_spec_high 8 j) by lia
              | rewrite (Z.testbit_neg_r (Z.ones 8) j) by lia ]
    end; rewrite ?andb_false_r, ?andb_true_r, ?orb_false_r, ?orb_false_l.
  all: f_equal; lia.
Qed.

Lemma stosl_spec n m a w c :
  (a + 4 * n <= length m)%nat ->
  (forall k, k = 0 \/ k = 8 \/ k = 16 \/ k = 24 -> u8 (Z.shiftr w k) = c) ->
  stosl m a w n = Some (splice m a (replicate (4 * n) c)).
Proof.
  intros Ha Hw. revert m a Ha. induction n as [|n IH]; intros m a Ha; simpl stosl.
  - by rewrite splice_nil.
  - rewrite stosl_word_spec by lia. simpl mbind.
    pose proof (Hw 0 ltac:(auto)) as H0. rewrite Z.shiftr_0_r in H0.
    rewrite H0, !Hw by auto. rewrite IH by (rewrite length_splice; simpl; lia).
    change (a + 4)%nat with (a + length [c; c; c; c])%nat.
    rewrite splice_app by (rewrite length_replicate; simpl; lia).
    f_equal. f_equal. replace (4 * S n)%nat with (4 + 4 * n)%nat by lia. done.
Qed.

Lemma memset_spec m dst c n :
  (dst + n <= length m)%nat ->
  sys_memset m dst c n = Some (splice m dst (replicate n (u8 c))).
Proof.
  intros Hl. unfold sys_memset.
  destruct ((dst mod 4 =? 0)%nat && (n mod 4 =? 0)%nat)%bool eqn:E.
  - apply andb_true_iff in E as [_ E]. apply Nat.eqb_eq in E.
    assert (n = 4 * (n / 4))%nat as Hn by (pose proof (Nat.div_mod_eq n 4); lia).
    rewrite (stosl_spec _ _ _ _ (u8 c)); [by rewrite <-Hn|lia|].
    intros k Hk. by apply byte_word.
  - by apply stosb_spec.
Qed.

(** ** Strings *)

(** A source string that a bounded reader of [n] characters never overruns. *)
Definition readable (n : nat) (s : list Z) : Prop := (n <= length s)%nat \/ 0 ∈ s.

(** [take n] of the string, then zeros up to [n]: the fixed-width field form. *)
Definition padn (n : nat) (s : list Z) : list Z :=
  cstrn n s ++ replicate (n - length (cstrn n s)) 0.

Lemma readable_cons n c s : readable (S n) (c :: s) -> c <> 0 -> readable n s.
Proof.
  intros [H|H] Hc; [left; simpl in H; lia|right].
  apply elem_of_cons in H as [H|H]; congruence.
Qed.

Lemma readable_nil n : ~ readable (S n) [].
Proof. intros [H|H]; [simpl in H; lia|by apply not_elem_of_nil in H]. Qed.

Lemma cstrn_S n c s : cstrn (S n) (c :: s) = if c =? 0 then [] else c :: cstrn n s.
Proof. done. Qed.

Lemma length_cstrn n s : (length (cstrn n s) <= n)%nat.
Proof.
  revert s. induction n as [|n IH]; intros s; [done|].
  destruct s as [|c s]; [simpl; lia|]. rewrite cstrn_S. case_match; simpl; [lia|].
  specialize (IH s). lia.
Qed.

Lemma cstrn_nonzero n s : Forall (fun c => c <> 0) (cstrn n s).
Proof.
  revert s. induction n as [|n IH]; intros [|c s]; try constructor.
  rewrite cstrn_S. destruct (Z.eqb_spec c 0); constructor; auto.
Qed.

Lemma strncmp_zero n p q :
  bytes p -> bytes q -> readable n p -> readable n q ->
  exists r, sys_strncmp p q n = Some r /\ (r = 0 <-> cstrn n p = cstrn n q).
Proof.
  revert p q. induction n as [|n IH]; intros p q Bp Bq Rp Rq. { by exists 0. }
  destruct p as [|cp p]; [by apply readable_nil in Rp|].
  destruct q as [|cq q]; [by apply readable_nil in Rq|].
  inversion_clear Bp as [|?? Bcp Bp']; inversion_clear Bq as [|?? Bcq Bq'].
  rewrite !cstrn_S. simpl.
  destruct (Z.eqb_spec cp 0) as [->|Hp]; destruct (Z.eqb_spec cq 0) as [->|Hq]; simpl.
  - exists 0. split; [done|split; done].
  - eexists; split; [done|]. rewrite !u8_small by lia. split; [lia|done].
  - destruct (Z.eqb_spec cp 0); [done|]. eexists; split; [done|].
    rewrite !u8_small by lia. split; [lia|done].
  - destruct (Z.eqb_spec cp cq) as [->|Hne].
    + destruct (IH p q) as (r & Hr & Hiff); eauto using readable_cons.
      exists r. split; [done|]. rewrite Hiff. split; [by intros ->|by intros [= ?] ].
    + eexists; split; [done|]. rewrite !u8_small by lia. split; [lia|by intros [= ? ?] ].
Qed.

Lemma zero_pad_spec n s i :
  (i + n <= length s)%nat -> zero_pad s i n = Some (splice s i (replicate n 0)).
Proof.
  revert s i. induction n as [|n IH]; intros s i Hl; simpl; [by rewrite splice_nil|].
  rewrite poke_spec by lia. simpl. rewrite IH by (rewrite length_insert; lia).
  by rewrite splice_cons by (rewrite length_replicate; lia).
Qed.

Lemma strncpy_loop_spec n s t i :
  (i + n <= length s)%nat -> readable n t ->
  strncpy_loop s t i n = Some (splice s i (padn n t)).
Proof.
  revert s t i. induction n as [|n IH]; intros s t i Hl Hr; simpl.
  - by rewrite splice_nil.
  - destruct t as [|c t]; [by apply readable_nil in Hr|].
    rewrite poke_spec by lia. simpl. unfold padn. rewrite cstrn_S.
    destruct (Z.eqb_spec c 0) as [->|Hc]; simpl.
    + rewrite zero_pad_spec by (rewrite length_insert; lia).
      by rewrite splice_cons by (rewrite length_replicate; lia).
    + rewrite IH by (rewrite ?length_insert; eauto using readable_cons || lia).
      pose proof (length_cstrn n t).
      rewrite splice_cons; [done|]. unfold padn. rewrite length_app, length_replicate. lia.
Qed.

Lemma strncpy_spec n s t :
  (n <= length s)%nat -> readable n t ->
  sys_strncpy s t (Z.of_nat n) = Some (padn n t ++ drop n s).
Proof.
  intros Hl Hr. unfold sys_strncpy. rewrite Nat2Z.id, strncpy_loop_spec by done.
  unfold splice. simpl. do 3 f_equal. unfold padn.
  rewrite length_app, length_replicate. pose proof (length_cstrn n t). lia.
Qed.

Lemma length_padn n t : length (padn n t) = n.
Proof.
  unfold padn. rewrite length_app, length_replicate. pose proof (length_cstrn n t). lia.
Qed.

Lemma cstr_nonzero_app l r : Forall (fun c => c <> 0) l -> cstr (l ++ r) = l ++ cstr r.
Proof.
  induction 1 as [|c l Hc _ IH]; simpl; [done|]. rewrite IH.
  by destruct (Z.eqb_spec c 0).
Qed.

Lemma cstr_zeros n : cstr (replicate n 0) = [].
Proof. by destruct n. Qed.

(** A fixed-width field holds exactly the bounded string written into it. *)
Lemma cstrn_padn n t : cstrn n (padn n t) = cstrn n t.
Proof.
  unfold cstrn at 1. rewrite take_ge by (rewrite length_padn; lia).
  unfold padn. rewrite cstr_nonzero_app by apply cstrn_nonzero.
  by rewrite cstr_zeros, app_nil_r.
Qed.

Lemma bytes_padn n t : bytes t -> bytes (padn n t).
Proof.
  intros Ht. unfold padn. apply Forall_app. split.
  - revert t Ht. induction n as [|n IH]; intros [|c t] Ht; try by constructor.
    inversion_clear Ht. rewrite cstrn_S. destruct (c =? 0); constructor; auto.
  - apply Forall_replicate. lia.
Qed.

Lemma safestrcpy_loop_spec n s t i :
  (i + S n <= length s)%nat -> readable n t ->
  exists r, safestrcpy_loop s t i n = Some r /\ length r = length s /\
    take i r = take i s /\ cstr (drop i r) = cstrn n t.
Proof.
  revert s t i. induction n as [|n IH]; intros s t i Hl Hr; simpl.
  - rewrite poke_spec by lia. eexists. split_and!; [done|apply length_insert| |].
    + by rewrite take_insert_ge by lia.
    + rewrite (drop_S _ 0) by (apply list_lookup_insert_eq; lia). done.
  - destruct t as [|c t]; [by apply readable_nil in Hr|].
    rewrite poke_spec by lia. simpl. rewrite cstrn_S.
    destruct (Z.eqb_spec c 0) as [->|Hc].
    + rewrite poke_spec by (rewrite length_insert; lia).
      eexists. split_and!; [done|by rewrite !length_insert| |].
      * by rewrite !take_insert_ge by lia.
      * rewrite (drop_S _ 0); [done|].
        rewrite list_lookup_insert_ne by lia. apply list_lookup_insert_eq. lia.
    + destruct (IH (<[i:=c]> s) t (i + 1)%nat) as (r & -> & Hlen & Htk & Hc');
        [rewrite length_insert; lia|by eapply readable_cons|].
      rewrite length_insert in Hlen.
      assert (r !! i = Some c) as Hri.
      { rewrite <-(lookup_take_lt r (i + 1)) by lia. rewrite Htk, lookup_take_lt by lia.
        apply list_lookup_insert_eq. lia. }
      exists r. split_and!; [done|done| |].
      * apply (f_equal (take i)) in Htk. rewrite !take_take, !Nat.min_l in Htk by lia.
        by rewrite Htk, take_insert_ge by lia.
      * rewrite (drop_S _ _ _ Hri). simpl. destruct (Z.eqb_spec c 0); [done|].
        replace (S i) with (i + 1)%nat by lia. by rewrite Hc'.
Qed.

(** * Claims *)

(** Kernel memory moves.  [sys_memmove] copies the [n] bytes that were at [src] to
    [dst] and changes nothing else, also when the ranges overlap in either direction;
    [sys_memset] fills exactly its range with the low byte of [c], by bytes or by words. *)
Theorem memory_routines_correct m dst src n c :
  (dst + n <= length m)%nat -> (src + n <= length m)%nat ->
  sys_memmove m dst src n = Some (splice m dst (slice m src n)) /\
  sys_memset m dst c n = Some (splice m dst (replicate n (u8 c))).
Proof. intros Hd Hs. split; [by apply memmove_spec|by apply memset_spec]. Qed.

Lemma memory_routines_correct_witness :
  sys_memmove [1; 2; 3; 4; 5] 1 0 4 = Some [1; 1; 2; 3; 4] /\
  sys_memset [1; 2; 3; 4; 5] 1 256 4 = Some [1; 0; 0; 0; 0].
Proof. exact (memory_routines_correct [1; 2; 3; 4; 5] 1 0 4 256 ltac:(simpl; lia) ltac:(simpl; lia)). Defined.

(** Fixed-width names.  A name [t] copied into an [n]-byte field by [sys_strncpy]
    fills the field (zero padded, the rest of the structure untouched), and comparing the
    field with any name [u] by [sys_strncmp] over [n] bytes gives 0 exactly when [t] and
    [u] agree up to their first [n] characters. *)
Theorem name_field_roundtrip n s t u :
  (n <= length s)%nat -> bytes t -> bytes u -> readable n t -> readable n u ->
  exists f r, sys_strncpy s t (Z.of_nat n) = Some (f ++ drop n s) /\ length f = n /\
    sys_strncmp f u n = Some r /\ (r = 0 <-> cstrn n t = cstrn n u).
Proof.
  intros Hl Bt Bu Rt Ru. exists (padn n t).
  destruct (strncmp_zero n (padn n t) u) as (r & Hr & Hiff); [by apply bytes_padn|done| |done|].
  { left. by rewrite length_padn. }
  exists r. rewrite cstrn_padn in Hiff. split_and!; [by apply strncpy_spec|apply length_padn|done|done].
Qed.

Lemma name_field_roundtrip_witness : exists f r,
  sys_strncpy [9; 9; 9; 9; 7] [104; 105; 0] 4 = Some (f ++ [7]) /\ length f = 4%nat /\
  sys_strncmp f [104; 105; 0] 4 = Some r /\ (r = 0 <-> [104; 105] = [104; 105]).
Proof.
  apply (name_field_roundtrip 4 [9; 9; 9; 9; 7] [104; 105; 0] [104; 105; 0]).
  - simpl; lia.
  - repeat constructor; lia.
  - repeat constructor; lia.
  - right. apply list_elem_of_further, list_elem_of_further, list_elem_of_here.
  - right. apply list_elem_of_further, list_elem_of_further, list_elem_of_here.
Defined.
