(* ===== verification/Bytes.v ===== *)
(** * Integers in memory

    Structures the kernel overlays on a disk block are read and written as
    little-endian integers at byte offsets. *)

From stdpp Require Import base list.
From Stdlib Require Import ZArith Lia.
From S2P Require Import Prelude CString.
Open Scope Z_scope.

Fixpoint le_bytes (n : nat) (v : Z) : list Z :=
  match n with
  | O => []
  | S n' => v mod 256 :: le_bytes n' (v / 256)
  end.

Fixpoint le_int (l : list Z) : Z :=
  match l with
  | [] => 0
  | b :: l' => b + 256 * le_int l'
  end.

(** The [n]-byte unsigned integer at offset [off], and storing one there. *)
Definition get_le (blk : list Z) (off n : nat) : Z := le_int (slice blk off n).
Definition put_le (blk : list Z) (off n : nat) (v : Z) : list Z :=
  splice blk off (le_bytes n v).

Definition get32 (blk : list Z) (off : nat) : Z := get_le blk off 4.
Definition put32 (blk : list Z) (off : nat) (v : Z) : list Z := put_le blk off 4 v.
Definition get16 (blk : list Z) (off : nat) : Z := get_le blk off 2.
Definition put16 (blk : list Z) (off : nat) (v : Z) : list Z := put_le blk off 2 v.

(** * Lemmas *)

Lemma length_le_bytes n v : length (le_bytes n v) = n.
Proof. revert v. induction n; intros; simpl; auto. Qed.

Lemma le_bytes_range n v : bytes (le_bytes n v).
Proof.
  revert v. induction n as [|n IH]; intros v; simpl; constructor; [|apply IH].
  apply Z.mod_pos_bound. lia.
Qed.

Lemma le_int_bytes n v : le_int (le_bytes n v) = v mod 256 ^ Z.of_nat n.
Proof.
  revert v. induction n as [|n IH]; intros v; simpl le_int.
  - by rewrite Z.mod_1_r.
  - rewrite IH, Nat2Z.inj_succ, Z.pow_succ_r by lia.
    rewrite Z.rem_mul_r by lia. done.
Qed.

Lemma le_bytes_int l : bytes l -> le_bytes (length l) (le_int l) = l.
Proof.
  induction 1 as [|b l Hb _ IH]; simpl; [done|]. f_equal.
  - rewrite Z.mul_comm, Z.mod_add by lia. apply Z.mod_small. lia.
  - rewrite Z.mul_comm, Z.div_add, Z.div_small by lia. by rewrite Z.add_0_l.
Qed.

Lemma le_int_range l : bytes l -> 0 <= le_int l < 256 ^ Z.of_nat (length l).
Proof.
  induction 1 as [|b l Hb _ IH]; simpl length; simpl le_int; [lia|].
  rewrite Nat2Z.inj_succ, Z.pow_succ_r by lia. lia.
Qed.

Lemma slice_splice_same m a d : (a + length d <= length m)%nat -> slice (splice m a d) a (length d) = d.
Proof.
  intros Hl. apply list_eq. intros k. destruct (decide (k < length d)%nat).
  - rewrite lookup_slice, lookup_splice_in by lia. f_equal. lia.
  - rewrite !lookup_ge_None_2; [done|lia|].
    rewrite length_slice; rewrite ?length_splice; lia.
Qed.

Lemma slice_splice_other m a d b n :
  (a + length d <= length m)%nat -> (b + n <= a \/ a + length d <= b)%nat ->
  slice (splice m a d) b n = slice m b n.
Proof.
  intros Hl Hd. apply list_eq. intros k. destruct (decide (k < n)%nat).
  - rewrite !lookup_slice by done. apply lookup_splice_out; lia.
  - rewrite !lookup_ge_None_2; [done| |]; unfold slice; rewrite length_take; lia.
Qed.

Lemma length_put_le blk off n v : (off + n <= length blk)%nat -> length (put_le blk off n v) = length blk.
Proof. intros. unfold put_le. apply length_splice. by rewrite length_le_bytes. Qed.

Lemma get_put_same blk off n v :
  (off + n <= length blk)%nat -> get_le (put_le blk off n v) off n = v mod 256 ^ Z.of_nat n.
Proof.
  intros. unfold get_le, put_le. rewrite <-(length_le_bytes n v) at 2.
  rewrite slice_splice_same by (by rewrite length_le_bytes). apply le_int_bytes.
Qed.

Lemma get_put_other blk off n v off' n' :
  (off + n <= length blk)%nat -> (off' + n' <= off \/ off + n <= off')%nat ->
  get_le (put_le blk off n v) off' n' = get_le blk off' n'.
Proof.
  intros. unfold get_le, put_le. rewrite slice_splice_other; rewrite ?length_le_bytes; done.
Qed.

Lemma get_le_range blk off n :
  bytes blk -> (off + n <= length blk)%nat -> 0 <= get_le blk off n < 256 ^ Z.of_nat n.
Proof.
  intros Hb Hl. unfold get_le. pose proof (le_int_range (slice blk off n)) as Hr.
  rewrite length_slice in Hr by done. apply Hr. by apply Forall_take, Forall_drop.
Qed.

Lemma bytes_splice m a d : bytes m -> bytes d -> bytes (splice m a d).
Proof.
  intros Hm Hd. unfold splice. apply Forall_app. split; [by apply Forall_take|].
  apply Forall_app. split; [done|by apply Forall_drop].
Qed.

Lemma bytes_put_le m a n v : bytes m -> bytes (put_le m a n v).
Proof. intros. apply bytes_splice; [done|apply le_bytes_range]. Qed.

Lemma get32_put32 blk off v :
  (off + 4 <= length blk)%nat -> get32 (put32 blk off v) off = u32 v.
Proof. intros. unfold get32, put32. by rewrite get_put_same. Qed.

Lemma get32_put32_other blk off v off' :
  (off + 4 <= length blk)%nat -> (off' + 4 <= off \/ off + 4 <= off')%nat ->
  get32 (put32 blk off v) off' = get32 blk off'.
Proof. intros. by apply get_put_other. Qed.
