(* ===== verification/Spinlock.v ===== *)
(** * Spin locks: kernel/spinlock.c

    [Smp] is the lock as several CPUs run it: each CPU has its own interrupt
    flag, nesting counter and program point, and the steps of different CPUs
    interleave at every shared access.  [acquire] and [release] at the end of the
    file are what one kernel thread sees of a lock: taking a lock it already
    holds panics, releasing one it does not hold panics. *)

From stdpp Require Import base list strings relations.
From Stdlib Require Import ZArith Lia.
From S2P Require Import Prelude.
Open Scope Z_scope.

Definition SPINLOCK_SIG : Z := 44310.          (* 0xAD16 *)
Definition SPINLOCK_ACQUIRED : Z := 1.
Definition SPINLOCK_NOT_ACQUIRED : Z := 0.
Definition UINT32_MAX : Z := 4294967295.

Module Smp.

(** [struct spinlock]; the owner is the index of a CPU.  The recorded call stack
    is debugging output and is left out. *)
Record spinlock := Spinlock {
  locked : Z;
  sig : Z;
  name : string;
  owner : option nat;
}.

(** The part of [struct cpu] that locking uses, and the CPU's own interrupt flag. *)
Record cpu := Cpu {
  ncli : Z;
  intena : bool;
  IF : bool;
}.

Definition initlock (nm : string) : spinlock :=
  {| name := nm; locked := 0; owner := None; sig := SPINLOCK_SIG |}.

Definition pushcli (c : cpu) : cpu :=
  let eflags := IF c in
  {| IF := false;
     intena := if ncli c =? 0 then eflags else intena c;
     ncli := ncli c + 1 |}.

Definition popcli (c : cpu) : string + cpu :=
  if IF c then inl "popcli - interruptible"%string
  else
    let n := ncli c - 1 in
    if n <? 0 then inl "popcli"%string
    else inr {| ncli := n; intena := intena c;
                IF := if ((n =? 0) && intena c)%bool then true else false |}.

Definition holding (lk : spinlock) (me : nat) : string + bool :=
  if negb (sig lk =? SPINLOCK_SIG) then inl "*lock is not a lock"%string
  else inr (negb (locked lk =? 0) && bool_decide (owner lk = Some me))%bool.

(** Where a CPU is in [sacquire] / [release]. *)
Inductive pc :=
| Out                              (* not using the lock *)
| Spin (wait startticks : Z)       (* in the xchg loop of sacquire *)
| Got                              (* xchg returned 0, lk->cpu not yet set *)
| Crit                             (* sacquire returned SPINLOCK_ACQUIRED *)
| Rel                              (* release: lk->cpu cleared, lock word still 1 *)
| Rel2.                            (* release: lock word 0, popcli to come *)

(** [timeouts] counts the calls of [sacquire] that returned
    [SPINLOCK_NOT_ACQUIRED] on this CPU. *)
Record core := Core {
  c_cpu : cpu;
  c_pc : pc;
  timeouts : Z;
}.

Record sys := Sys {
  lk : spinlock;
  cores : list core;
  ticks : Z;
  panicked : option string;
}.

Definition set_core (i : nat) (c : core) (s : sys) : sys :=
  Sys (lk s) (<[i := c]> (cores s)) (ticks s) (panicked s).
Definition set_lk (l : spinlock) (s : sys) : sys := Sys l (cores s) (ticks s) (panicked s).
Definition set_panic (m : string) (s : sys) : sys := Sys (lk s) (cores s) (ticks s) (Some m).

(** [sacquire(lk, wait)] up to the loop: pushcli, the holding check, and the
    start of the clock. *)
Definition sacquire_enter (i : nat) (c : core) (wait : Z) (s : sys) : sys :=
  let c1 := Core (pushcli (c_cpu c)) (c_pc c) (timeouts c) in
  let s1 := set_core i c1 s in
  match holding (lk s) i with
  | inl m => set_panic m s1
  | inr true => set_panic "acquire: already holding lock"%string s1
  | inr false => set_core i (Core (c_cpu c1) (Spin wait (ticks s)) (timeouts c)) s1
  end.

(** One turn of [while (amd64_xchg(&lk->locked, 1) != 0) {...}]. *)
Definition sacquire_xchg (i : nat) (c : core) (wait startticks : Z) (s : sys) : sys :=
  let old := locked (lk s) in
  let s1 := set_lk (Spinlock 1 (sig (lk s)) (name (lk s)) (owner (lk s))) s in
  if old =? 0 then set_core i (Core (c_cpu c) Got (timeouts c)) s1
  else
    let delta := u32 (ticks s - startticks) in
    if wait <? delta then set_core i (Core (c_cpu c) Out (timeouts c + 1)) s1
    else s1.

(** [lk->cpu = cpu; return SPINLOCK_ACQUIRED;] *)
Definition sacquire_own (i : nat) (c : core) (s : sys) : sys :=
  set_core i (Core (c_cpu c) Crit (timeouts c))
    (set_lk (Spinlock (locked (lk s)) (sig (lk s)) (name (lk s)) (Some i)) s).

(** [release]: the holding check and [lk->cpu = 0]. *)
Definition release_check (i : nat) (c : core) (s : sys) : sys :=
  match holding (lk s) i with
  | inl m => set_panic m s
  | inr false => set_panic "release"%string s
  | inr true =>
      set_core i (Core (c_cpu c) Rel (timeouts c))
        (set_lk (Spinlock (locked (lk s)) (sig (lk s)) (name (lk s)) None) s)
  end.

(** [amd64_xchg(&lk->locked, 0)] *)
Definition release_xchg (i : nat) (c : core) (s : sys) : sys :=
  set_core i (Core (c_cpu c) Rel2 (timeouts c))
    (set_lk (Spinlock 0 (sig (lk s)) (name (lk s)) (owner (lk s))) s).

Definition release_popcli (i : nat) (c : core) (s : sys) : sys :=
  match popcli (c_cpu c) with
  | inl m => set_panic m s
  | inr u => set_core i (Core u Out (timeouts c)) s
  end.

(** The program CPU [i] runs next; [Out] CPUs may call [sacquire] with any bound
    ([acquire] is [sacquire(lk, UINT32_MAX)]), [Crit] CPUs may call [release]. *)
Inductive step : sys -> sys -> Prop :=
| st_enter s i c wait : cores s !! i = Some c -> c_pc c = Out ->
    0 <= wait <= UINT32_MAX -> step s (sacquire_enter i c wait s)
| st_xchg s i c wait st : cores s !! i = Some c -> c_pc c = Spin wait st ->
    step s (sacquire_xchg i c wait st s)
| st_own s i c : cores s !! i = Some c -> c_pc c = Got -> step s (sacquire_own i c s)
| st_check s i c : cores s !! i = Some c -> c_pc c = Crit -> step s (release_check i c s)
| st_unlock s i c : cores s !! i = Some c -> c_pc c = Rel -> step s (release_xchg i c s)
| st_popcli s i c : cores s !! i = Some c -> c_pc c = Rel2 -> step s (release_popcli i c s)
| st_tick s : step s (Sys (lk s) (cores s) (u32 (ticks s + 1)) (panicked s)).

(** CPUs start outside the lock with interrupts on. *)
Definition init (n : nat) (nm : string) : sys :=
  Sys (initlock nm) (replicate n (Core (Cpu 0 false true) Out 0)) 0 None.

Definition reachable (n : nat) (nm : string) (s : sys) : Prop :=
  rtc step (init n nm) s.

(** The CPU is between the successful xchg of [sacquire] and the one of
    [release]. *)
Definition in_crit (p : pc) : bool :=
  match p with Got | Crit | Rel => true | _ => false end.

(** ** Invariant *)

Definition core_ok (c : core) : Prop :=
  0 <= timeouts c /\
  match c_pc c with
  | Out => ncli (c_cpu c) = timeouts c /\ IF (c_cpu c) = (timeouts c =? 0) /\
           (0 < timeouts c -> intena (c_cpu c) = true)
  | _ => ncli (c_cpu c) = timeouts c + 1 /\ IF (c_cpu c) = false /\
         intena (c_cpu c) = true
  end.

Definition owner_ok (s : sys) (o : option nat) : Prop :=
  match o with
  | None => locked (lk s) = 0 /\ owner (lk s) = None /\
            forall i c, cores s !! i = Some c -> in_crit (c_pc c) = false
  | Some i => locked (lk s) = 1 /\
      (exists c, cores s !! i = Some c /\ in_crit (c_pc c) = true /\
         owner (lk s) = match c_pc c with Crit => Some i | _ => None end) /\
      forall j c, j <> i -> cores s !! j = Some c -> in_crit (c_pc c) = false
  end.

Record inv (s : sys) : Prop := {
  inv_sig : sig (lk s) = SPINLOCK_SIG;
  inv_core : forall i c, cores s !! i = Some c -> core_ok c;
  inv_owner : exists o, owner_ok s o;
  inv_panic : panicked s = None;
}.

(** ** Preservation *)

Lemma init_inv n nm : inv (init n nm).
Proof.
  split; simpl; [done| | |done].
  - intros i c [-> _]%lookup_replicate. unfold core_ok. simpl. lia.
  - exists None. split_and!; [done|done|]. by intros i c [-> _]%lookup_replicate.
Qed.

(** A CPU that is not in the critical region may change its own state without
    disturbing who owns the lock. *)
Lemma owner_ok_frame s i c c' l' o :
  cores s !! i = Some c -> in_crit (c_pc c) = false -> in_crit (c_pc c') = false ->
  locked l' = locked (lk s) -> owner l' = owner (lk s) ->
  owner_ok s o -> owner_ok (set_core i c' (set_lk l' s)) o.
Proof.
  intros Hi Hc Hc' Hl Ho. destruct o as [j|]; simpl; rewrite Hl, Ho.
  - intros (H1 & (cj & Hj & Hcr & How) & Hoth). split_and!; [done| |].
    + exists cj. rewrite list_lookup_insert_ne by congruence. done.
    + intros k ck Hk. destruct (decide (k = i)) as [->|Hne].
      * rewrite list_lookup_insert_eq by eauto using lookup_lt_Some. by intros [= <-].
      * rewrite list_lookup_insert_ne by done. by apply Hoth.
  - intros (H1 & H2 & Hoth). split_and!; [done|done|]. intros k ck.
    destruct (decide (k = i)) as [->|Hne].
    + rewrite list_lookup_insert_eq by eauto using lookup_lt_Some. by intros [= <-].
    + rewrite list_lookup_insert_ne by done. apply Hoth.
Qed.

Lemma inv_set_core s i c c' l' :
  inv s -> cores s !! i = Some c -> core_ok c' -> sig l' = SPINLOCK_SIG ->
  (exists o, owner_ok (set_core i c' (set_lk l' s)) o) ->
  inv (set_core i c' (set_lk l' s)).
Proof.
  intros [Hsig Hcore Hown Hp] Hi Hok Hs Ho. split; simpl; auto.
  intros k ck. destruct (decide (k = i)) as [->|Hne].
  - rewrite list_lookup_insert_eq by eauto using lookup_lt_Some. by intros [= <-].
  - rewrite list_lookup_insert_ne by done. apply Hcore.
Qed.

Lemma set_lk_id s : set_lk (lk s) s = s.
Proof. by destruct s. Qed.

(** Only the CPU in the critical region can be the owner. *)
Lemma owner_ok_in s o i c :
  owner_ok s o -> cores s !! i = Some c -> in_crit (c_pc c) = true ->
  o = Some i /\ locked (lk s) = 1 /\ owner (lk s) = match c_pc c with Crit => Some i | _ => None end.
Proof.
  destruct o as [j|]; simpl.
  - intros (H1 & (cj & Hj & Hcr & How) & Hoth) Hi Hc.
    destruct (decide (i = j)) as [->|Hne]; [|by rewrite (Hoth i c) in Hc].
    assert (cj = c) as -> by congruence. done.
  - intros (_ & _ & Hoth) Hi Hc. by rewrite (Hoth i c) in Hc.
Qed.

Lemma owner_not_me s o i c :
  owner_ok s o -> cores s !! i = Some c -> in_crit (c_pc c) = false ->
  owner (lk s) <> Some i.
Proof.
  destruct o as [j|]; simpl.
  - intros (H1 & (cj & Hj & Hcr & How) & Hoth) Hi Hc. rewrite How.
    destruct (c_pc cj) eqn:E; try done. intros [= ->].
    assert (cj = c) as -> by congruence. by rewrite E in Hc.
  - intros (_ & -> & _). done.
Qed.

Lemma owner_ok_enter s i c c' l' :
  cores s !! i = Some c -> owner_ok s None -> in_crit (c_pc c') = true ->
  locked l' = 1 -> owner l' = match c_pc c' with Crit => Some i | _ => None end ->
  owner_ok (set_core i c' (set_lk l' s)) (Some i).
Proof.
  intros Hi (_ & _ & Hoth) Hc' Hl Ho. simpl. split_and!; [done| |].
  - exists c'. by rewrite list_lookup_insert_eq by eauto using lookup_lt_Some.
  - intros k ck Hne. rewrite list_lookup_insert_ne by done. apply Hoth.
Qed.

Lemma owner_ok_move s i c c' l' :
  cores s !! i = Some c -> owner_ok s (Some i) -> in_crit (c_pc c') = true ->
  locked l' = 1 -> owner l' = match c_pc c' with Crit => Some i | _ => None end ->
  owner_ok (set_core i c' (set_lk l' s)) (Some i).
Proof.
  intros Hi (_ & _ & Hoth) Hc' Hl Ho. simpl. split_and!; [done| |].
  - exists c'. by rewrite list_lookup_insert_eq by eauto using lookup_lt_Some.
  - intros k ck Hne. rewrite list_lookup_insert_ne by done. by apply Hoth.
Qed.

Lemma owner_ok_leave s i c c' l' :
  cores s !! i = Some c -> owner_ok s (Some i) -> in_crit (c_pc c') = false ->
  locked l' = 0 -> owner l' = None ->
  owner_ok (set_core i c' (set_lk l' s)) None.
Proof.
  intros Hi (_ & _ & Hoth) Hc' Hl Ho. simpl. split_and!; [done|done|].
  intros k ck. destruct (decide (k = i)) as [->|Hne].
  - rewrite list_lookup_insert_eq by eauto using lookup_lt_Some. by intros [= <-].
  - rewrite list_lookup_insert_ne by done. by apply Hoth.
Qed.

Lemma enter_inv s i c wait :
  inv s -> cores s !! i = Some c -> c_pc c = Out -> inv (sacquire_enter i c wait s).
Proof.
  intros Hinv Hi Hpc. pose proof (inv_core s Hinv i c Hi) as (H0 & Hok).
  rewrite Hpc in Hok. destruct Hok as (Hn & Hif & Hin).
  destruct (inv_owner s Hinv) as [o Ho].
  unfold sacquire_enter, holding. rewrite (inv_sig s Hinv). simpl.
  rewrite bool_decide_false
    by (eapply owner_not_me; [done|done|by rewrite Hpc]).
  rewrite andb_false_r.
  unfold set_core at 1. simpl. rewrite list_insert_insert_eq.
  rewrite <-(set_lk_id s) at 2 3 4 5.
  apply (inv_set_core s i c); try done.
  - unfold core_ok. simpl. split_and!; [done|lia|done|].
    destruct (Z.eqb_spec (ncli (c_cpu c)) 0); [|apply Hin; lia].
    rewrite Hif. apply Z.eqb_eq. lia.
  - exact (inv_sig s Hinv).
  - exists o. eapply owner_ok_frame; eauto. by rewrite Hpc.
Qed.

Lemma xchg_inv s i c wait st :
  inv s -> cores s !! i = Some c -> c_pc c = Spin wait st ->
  inv (sacquire_xchg i c wait st s).
Proof.
  intros Hinv Hi Hpc. pose proof (inv_core s Hinv i c Hi) as (H0 & Hok).
  rewrite Hpc in Hok. destruct Hok as (Hn & Hif & Hin).
  destruct (inv_owner s Hinv) as [o Ho]. pose proof (inv_sig s Hinv) as Hsig.
  unfold sacquire_xchg. destruct (Z.eqb_spec (locked (lk s)) 0) as [Hl|Hl].
  - apply (inv_set_core s i c); try done.
    destruct o as [j|]; [destruct Ho as (Ho & _); lia|].
    exists (Some i). eapply owner_ok_enter; eauto. by destruct Ho as (_ & -> & _).
  - assert (locked (lk s) = 1) as Hl1.
    { destruct o as [j|]; [by destruct Ho as (Ho & _)|by destruct Ho as (Ho & _)]. }
    destruct (wait <? _).
    + apply (inv_set_core s i c); try done.
      * unfold core_ok. simpl. split_and!; [lia|lia| |done].
        rewrite Hif. symmetry. apply Z.eqb_neq. lia.
      * exists o. eapply owner_ok_frame; eauto. by rewrite Hpc.
    + replace (Spinlock 1 _ _ _) with (lk s); [by rewrite set_lk_id|].
      destruct (lk s). simpl in *. by subst.
Qed.

Lemma own_inv s i c :
  inv s -> cores s !! i = Some c -> c_pc c = Got -> inv (sacquire_own i c s).
Proof.
  intros Hinv Hi Hpc. pose proof (inv_core s Hinv i c Hi) as Hok.
  destruct (inv_owner s Hinv) as [o Ho].
  destruct (owner_ok_in s o i c Ho Hi) as (-> & Hl & How); [by rewrite Hpc|].
  apply (inv_set_core s i c); try done.
  - unfold core_ok in *. by rewrite Hpc in Hok.
  - exact (inv_sig s Hinv).
  - exists (Some i). eapply owner_ok_move; eauto.
Qed.

Lemma check_inv s i c :
  inv s -> cores s !! i = Some c -> c_pc c = Crit -> inv (release_check i c s).
Proof.
  intros Hinv Hi Hpc. pose proof (inv_core s Hinv i c Hi) as Hok.
  destruct (inv_owner s Hinv) as [o Ho].
  destruct (owner_ok_in s o i c Ho Hi) as (-> & Hl & How); [by rewrite Hpc|].
  rewrite Hpc in How. unfold release_check, holding.
  rewrite (inv_sig s Hinv), Hl, How. simpl. rewrite bool_decide_true by done.
  apply (inv_set_core s i c); try done.
  - unfold core_ok in *. by rewrite Hpc in Hok.
  - exists (Some i). eapply owner_ok_move; eauto.
Qed.

Lemma unlock_inv s i c :
  inv s -> cores s !! i = Some c -> c_pc c = Rel -> inv (release_xchg i c s).
Proof.
  intros Hinv Hi Hpc. pose proof (inv_core s Hinv i c Hi) as Hok.
  destruct (inv_owner s Hinv) as [o Ho].
  destruct (owner_ok_in s o i c Ho Hi) as (-> & Hl & How); [by rewrite Hpc|].
  rewrite Hpc in How.
  apply (inv_set_core s i c); try done.
  - unfold core_ok in *. by rewrite Hpc in Hok.
  - exact (inv_sig s Hinv).
  - exists None. eapply owner_ok_leave; eauto.
Qed.

Lemma popcli_inv s i c :
  inv s -> cores s !! i = Some c -> c_pc c = Rel2 -> inv (release_popcli i c s).
Proof.
  intros Hinv Hi Hpc. pose proof (inv_core s Hinv i c Hi) as (H0 & Hok).
  rewrite Hpc in Hok. destruct Hok as (Hn & Hif & Hin).
  destruct (inv_owner s Hinv) as [o Ho].
  unfold release_popcli, popcli. rewrite Hif, Hn, Hin, andb_true_r.
  replace (timeouts c + 1 - 1) with (timeouts c) by lia.
  destruct (Z.ltb_spec (timeouts c) 0); [lia|].
  rewrite <-(set_lk_id s) at 1.
  apply (inv_set_core s i c); try done.
  - unfold core_ok. simpl. split_and!; [done|done| |done].
    by destruct (timeouts c =? 0).
  - exact (inv_sig s Hinv).
  - exists o. eapply owner_ok_frame; eauto. by rewrite Hpc.
Qed.

Lemma step_inv s s' : step s s' -> inv s -> inv s'.
Proof.
  destruct 1; intros Hinv;
    eauto using enter_inv, xchg_inv, own_inv, check_inv, unlock_inv, popcli_inv.
  by destruct Hinv as [? ? [o Ho] ?]; split; simpl; [| |exists o; destruct o|].
Qed.

Lemma reachable_inv n nm s : reachable n nm s -> inv s.
Proof.
  intros Hr. pose proof (init_inv n nm) as Hi. revert Hi.
  induction Hr; eauto using step_inv.
Qed.

(** ** Properties *)

(** C7. Mutual exclusion on a multiprocessor: in every reachable state at most one
    CPU is between the successful xchg of [sacquire] and the xchg of [release],
    that CPU runs with interrupts off, the owner field names it while it is inside,
    and none of the panics of acquire, release or popcli ever fires. *)
Theorem mutual_exclusion n nm s :
  reachable n nm s ->
  panicked s = None /\
  (forall i j ci cj, cores s !! i = Some ci -> cores s !! j = Some cj ->
     in_crit (c_pc ci) = true -> in_crit (c_pc cj) = true -> i = j) /\
  (forall i c, cores s !! i = Some c -> c_pc c = Crit ->
     IF (c_cpu c) = false /\ 0 < ncli (c_cpu c) /\ holding (lk s) i = inr true).
Proof.
  intros Hr. apply reachable_inv in Hr as Hinv. destruct (inv_owner s Hinv) as [o Ho].
  split_and!; [apply (inv_panic s Hinv)| |].
  - intros i j ci cj Hi Hj Ci Cj.
    destruct (owner_ok_in s o i ci Ho Hi Ci) as [-> _].
    by destruct (owner_ok_in s _ j cj Ho Hj Cj) as [ [= ->] _].
  - intros i c Hi Hc. pose proof (inv_core s Hinv i c Hi) as (H0 & Hok).
    rewrite Hc in Hok. destruct (owner_ok_in s o i c Ho Hi) as (_ & Hl & How);
      [by rewrite Hc|].
    split_and!; [tauto|lia|]. rewrite Hc in How.
    unfold holding. rewrite (inv_sig s Hinv), Hl, How. simpl. by rewrite bool_decide_true.
Qed.

(** Two CPUs contend: the second spins while the first holds the lock. *)
Definition contended : sys :=
  Sys (Spinlock 1 SPINLOCK_SIG "ptable" (Some 0%nat))
    [Core (Cpu 1 true false) Crit 0; Core (Cpu 1 true false) (Spin UINT32_MAX 0) 0] 0 None.

Lemma mutual_exclusion_witness :
  reachable 2 "ptable" contended /\ panicked contended = None /\
  holding (lk contended) 0 = inr true.
Proof.
  assert (Hr : reachable 2 "ptable" contended).
  { eapply rtc_l; [eapply (st_enter _ 0 _ UINT32_MAX); [done|done|unfold UINT32_MAX; lia]|].
    eapply rtc_l; [by eapply (st_xchg _ 0)|].
    eapply rtc_l; [by eapply (st_own _ 0)|].
    eapply rtc_l; [eapply (st_enter _ 1 _ UINT32_MAX); [done|done|unfold UINT32_MAX; lia]|].
    eapply rtc_l; [by eapply (st_xchg _ 1)|]. apply rtc_refl. }
  destruct (mutual_exclusion 2 "ptable" contended Hr) as (Hp & _ & Hc).
  split_and!; [exact Hr|exact Hp|].
  by destruct (Hc 0%nat _ eq_refl eq_refl) as (_ & _ & Hh).
Defined.

(** [acquire] is [sacquire] with the bound UINT32_MAX, and that call cannot time
    out: whatever the tick counter reads, a turn of its xchg loop either takes the
    lock (exactly when the lock word was 0) or spins again, so the "failed to
    acquire lock" panic of [acquire] is dead code. *)
Theorem acquire_never_times_out s i c start :
  cores s !! i = Some c ->
  exists c', cores (sacquire_xchg i c UINT32_MAX start s) !! i = Some c' /\
    timeouts c' = timeouts c /\
    (locked (lk s) = 0 -> c_pc c' = Got) /\
    (locked (lk s) <> 0 -> c' = c).
Proof.
  intros Hi. unfold sacquire_xchg.
  destruct (Z.eqb_spec (locked (lk s)) 0) as [Hl|Hl].
  - eexists. split; [apply list_lookup_insert_eq; eauto using lookup_lt_Some|].
    by split_and!.
  - pose proof (u32_range (ticks s - start)).
    destruct (Z.ltb_spec UINT32_MAX (u32 (ticks s - start))); [unfold UINT32_MAX in *; lia|].
    exists c. by split_and!.
Qed.

Lemma acquire_never_times_out_witness :
  exists c', cores (sacquire_xchg 1 (Core (Cpu 1 true false) (Spin UINT32_MAX 0) 0)
                      UINT32_MAX 0 contended) !! 1%nat = Some c' /\ timeouts c' = 0.
Proof.
  destruct (acquire_never_times_out contended 1
              (Core (Cpu 1 true false) (Spin UINT32_MAX 0) 0) 0 eq_refl)
    as (c' & H1 & H2 & _).
  exists c'. split; [exact H1|exact H2].
Defined.

(** A bounded [sacquire] that gives up returns without undoing its [pushcli]: in
    every reachable state a CPU outside the lock has interrupts enabled exactly when
    none of its calls ever returned SPINLOCK_NOT_ACQUIRED, and its nesting depth is
    the number of calls that did. *)
Theorem sacquire_timeout_leaves_interrupts_off n nm s i c :
  reachable n nm s -> cores s !! i = Some c -> c_pc c = Out ->
  ncli (c_cpu c) = timeouts c /\ (IF (c_cpu c) = true <-> timeouts c = 0).
Proof.
  intros Hr Hi Hc. apply reachable_inv in Hr as Hinv.
  pose proof (inv_core s Hinv i c Hi) as (H0 & Hok). rewrite Hc in Hok.
  destruct Hok as (Hn & -> & _). split; [done|]. apply Z.eqb_eq.
Qed.

(** A bounded wait of 0 ticks that runs out while CPU 0 holds the lock. *)
Definition timed_out : sys :=
  Sys (Spinlock 1 SPINLOCK_SIG "pipe" (Some 0%nat))
    [Core (Cpu 1 true false) Crit 0; Core (Cpu 1 true false) Out 1] 1 None.

Lemma sacquire_timeout_leaves_interrupts_off_witness :
  reachable 2 "pipe" timed_out /\ ncli (Cpu 1 true false) = 1 /\
  (IF (Cpu 1 true false) = true <-> 1 = 0).
Proof.
  assert (Hr : reachable 2 "pipe" timed_out).
  { eapply rtc_l; [eapply (st_enter _ 0 _ UINT32_MAX); [done|done|unfold UINT32_MAX; lia]|].
    eapply rtc_l; [by eapply (st_xchg _ 0)|].
    eapply rtc_l; [by eapply (st_own _ 0)|].
    eapply rtc_l; [eapply (st_enter _ 1 _ 0); [done|done|unfold UINT32_MAX; lia]|].
    eapply rtc_l; [apply st_tick|].
    eapply rtc_l; [by eapply (st_xchg _ 1)|]. apply rtc_refl. }
  split; [exact Hr|].
  exact (sacquire_timeout_leaves_interrupts_off 2 "pipe" timed_out 1
           (Core (Cpu 1 true false) Out 1) Hr eq_refl eq_refl).
Defined.

End Smp.

(** ** A lock as one kernel thread uses it

    The lock word, seen by the thread that runs between [acquire] and [release]
    on its CPU. *)

Definition acquire {S} (l : lens S bool) : K S unit :=
  let! held := gets (lget l) in
  if held : bool then panic "acquire: already holding lock" else kmod (lput l true).

Definition release {S} (l : lens S bool) : K S unit :=
  let! held := gets (lget l) in
  if held : bool then kmod (lput l false) else panic "release".

Lemma wp_acquire {S} (l : lens S bool) (s : S) Q :
  lget l s = false -> Q tt (lput l true s) [] -> wp (acquire l) s Q.
Proof. intros Hl HQ. unfold acquire. wp_steps. rewrite Hl. by wp_steps. Qed.

Lemma wp_release {S} (l : lens S bool) (s : S) Q :
  lget l s = true -> Q tt (lput l false s) [] -> wp (release l) s Q.
Proof. intros Hl HQ. unfold release. wp_steps. rewrite Hl. by wp_steps. Qed.

Lemma acquire_run {S} (l : lens S bool) (s : S) :
  lget l s = false -> acquire l s = ([], Ret tt (lput l true s)).
Proof. intros H. unfold acquire. kstep. by rewrite H. Qed.

Lemma release_run {S} (l : lens S bool) (s : S) :
  lget l s = true -> release l s = ([], Ret tt (lput l false s)).
Proof. intros H. unfold release. kstep. by rewrite H. Qed.
#[export] Hint Resolve acquire_run release_run : kernel.
