(* ===== verification/Kalloc.v ===== *)
(** * Physical page allocator: kernel/kalloc.c

    The free list is threaded through the free pages themselves: [struct run] is
    the first word of a free page.  The state keeps that word for every page the
    allocator has written, the list head, and the lock.  [kend] is the linker's
    [end] symbol. *)

From stdpp Require Import base list gmap strings.
From Stdlib Require Import ZArith Lia.
From S2P Require Import Prelude Spinlock.
Open Scope Z_scope.

(** include/memlayout.h, include/mmu.h *)
Definition KERNBASE : Z := 18446744071562067968.  (* 0xFFFFFFFF80000000 *)
Definition PHYSTOP : Z := 234881024.              (* 0xE000000 *)
Definition KALLOC_START : Z := 52428800.          (* 0x3200000 *)
Definition PGSIZE : Z := 4096.
Definition v2p (a : Z) : Z := u64 (a - KERNBASE).
Definition p2v (a : Z) : Z := u64 (a + KERNBASE).
Definition PGROUNDUP (sz : Z) : Z := Z.ldiff (u64 (sz + (PGSIZE - 1))) (PGSIZE - 1).
Definition PGROUNDDOWN (a : Z) : Z := Z.ldiff (u64 a) (PGSIZE - 1).

Record kmem := Kmem {
  lock : bool;
  use_lock : bool;
  freelist : Z;              (* struct run*, 0 when empty *)
  word0 : gmap Z Z;          (* r->next of the page at an address *)
  kalloc_fullysetup : bool;
}.

Definition set_lock (b : bool) (s : kmem) : kmem :=
  Kmem b (use_lock s) (freelist s) (word0 s) (kalloc_fullysetup s).
Definition set_use_lock (b : bool) (s : kmem) : kmem :=
  Kmem (lock s) b (freelist s) (word0 s) (kalloc_fullysetup s).
Definition set_freelist (r : Z) (s : kmem) : kmem :=
  Kmem (lock s) (use_lock s) r (word0 s) (kalloc_fullysetup s).
Definition set_word0 (a v : Z) (s : kmem) : kmem :=
  Kmem (lock s) (use_lock s) (freelist s) (<[a := v]> (word0 s)) (kalloc_fullysetup s).
Definition set_setup (b : bool) (s : kmem) : kmem :=
  Kmem (lock s) (use_lock s) (freelist s) (word0 s) b.

Definition kmem_lock : lens kmem bool := Lens lock set_lock.

Section kalloc.
Context (kend : Z).

Definition kfree (v : Z) : K kmem unit :=
  if (negb (v mod PGSIZE =? 0) || (v <? kend) || (PHYSTOP <=? v2p v))%bool then panic "kfree"
  else
    (* memset(v, 1, PGSIZE): the first word becomes 0x0101010101010101 *)
    kmod (set_word0 v 72340172838076673) ;;;
    let! ul := gets use_lock in
    kwhen ul (acquire kmem_lock) ;;;
    let! fl := gets freelist in
    kmod (set_word0 v fl) ;;;
    kmod (set_freelist v) ;;;
    kwhen ul (release kmem_lock).

(** [r->next]; following a null or wild pointer faults. *)
Definition run_next (r : Z) : K kmem Z :=
  let! m := gets word0 in
  match m !! r with Some n => kret n | None => fault end.

Definition kalloc : K kmem Z :=
  let! ul := gets use_lock in
  kwhen ul (acquire kmem_lock) ;;;
  let! r := gets freelist in
  kwhen (negb (r =? 0)) (let! n := run_next r in kmod (set_freelist n)) ;;;
  kwhen ul (release kmem_lock) ;;;
  kret r.

(** [for (uint8 i = 0; i != pages; i++) { kmem.freelist = n; n = n->next; }]:
    the counter has 8 bits, [pages] has 16. *)
Fixpoint kmalloc_loop (fuel : nat) (i pages n : Z) : K kmem unit :=
  if i =? pages then kret tt
  else match fuel with
       | O => kstop NoFuel
       | S fuel' =>
           kmod (set_freelist n) ;;;
           let! n' := run_next n in
           kmalloc_loop fuel' (u8 (i + 1)) pages n'
       end.

Definition kmalloc (fuel : nat) (pages : Z) : K kmem Z :=
  let! ok := gets kalloc_fullysetup in
  if negb ok then panic "kalloc not fully setup"
  else
    let! ul := gets use_lock in
    kwhen ul (acquire kmem_lock) ;;;
    let! r := gets freelist in
    kwhen (negb (r =? 0)) (let! n := run_next r in kmalloc_loop fuel 0 (u16 pages) n) ;;;
    kwhen ul (release kmem_lock) ;;;
    kret r.

(** [for (; p + PGSIZE <= vend; p += PGSIZE) kfree(p);] *)
Fixpoint freerange_loop (fuel : nat) (p vend : Z) : K kmem unit :=
  if u64 (p + PGSIZE) <=? vend then
    match fuel with
    | O => kstop NoFuel
    | S fuel' => kfree p ;;; freerange_loop fuel' (u64 (p + PGSIZE)) vend
    end
  else kret tt.

Definition freerange (vstart vend : Z) : K kmem unit :=
  let p := PGROUNDUP vstart in
  freerange_loop (Z.to_nat ((vend - p) / PGSIZE + 1)) p vend.

Definition kinit1 (vstart vend : Z) : K kmem unit :=
  kmod (set_lock false) ;;;            (* initlock *)
  kmod (set_use_lock false) ;;;
  freerange vstart vend.

Definition kinit2 (vstart vend : Z) : K kmem unit :=
  freerange vstart vend ;;;
  kmod (set_use_lock true) ;;;
  kmod (set_setup true).

(** ** The abstract allocator: a stack of distinct, valid pages *)

(** [p] heads the linked list of the pages [l]. *)
Fixpoint chain (m : gmap Z Z) (p : Z) (l : list Z) : Prop :=
  match l with
  | [] => p = 0
  | a :: l' => p = a /\ a <> 0 /\ exists n, m !! a = Some n /\ chain m n l'
  end.

Definition page_ok (v : Z) : Prop :=
  v mod PGSIZE = 0 /\ kend <= v /\ v2p v < PHYSTOP /\ 0 < v < 2 ^ 64.

(** The allocator's free pages are [l], in allocation order, and no one holds
    its lock. *)
Record free_pages (s : kmem) (l : list Z) : Prop := {
  fp_chain : chain (word0 s) (freelist s) l;
  fp_nodup : NoDup l;
  fp_ok : Forall page_ok l;
  fp_lock : lock s = false;
}.

(** A client's calls, and what an abstract stack of pages answers: [kalloc] pops
    (0 when empty); [kfree] pushes, and is a client error ([None]) unless the page
    is a valid one that is not already free. *)
Inductive op := Alloc | Free (v : Z).

Fixpoint run_ops (ops : list op) : K kmem (list Z) :=
  match ops with
  | [] => kret []
  | Alloc :: ops' => let! r := kalloc in let! rs := run_ops ops' in kret (r :: rs)
  | Free v :: ops' => kfree v ;;; run_ops ops'
  end.

Fixpoint stack_ops (valid : Z -> bool) (l : list Z) (ops : list op) : option (list Z * list Z) :=
  match ops with
  | [] => Some ([], l)
  | Alloc :: ops' =>
      '(rs, l') ← stack_ops valid (tail l) ops';
      Some (match l with [] => 0 | a :: _ => a end :: rs, l')
  | Free v :: ops' =>
      if (valid v && bool_decide (v ∉ l))%bool then stack_ops valid (v :: l) ops' else None
  end.

Definition page_okb (v : Z) : bool :=
  ((v mod PGSIZE =? 0) && (kend <=? v) && (v2p v <? PHYSTOP) && (0 <? v) && (v <? 2 ^ 64))%bool.

(** ** Lemmas *)

Lemma chain_insert m p l a v : a ∉ l -> chain m p l -> chain (<[a := v]> m) p l.
Proof.
  revert p. induction l as [|b l IH]; intros p Hn; simpl; [done|].
  apply not_elem_of_cons in Hn as [Hne Hn]. intros (-> & H0 & n & Hm & Hc).
  split_and!; [done|done|]. exists n. rewrite lookup_insert_ne by done. auto.
Qed.

(** The state [kfree] leaves behind. *)
Lemma free_pages_push s s' l v w :
  free_pages s l -> page_ok v -> v ∉ l ->
  word0 s' = <[v := freelist s]> (<[v := w]> (word0 s)) -> freelist s' = v ->
  lock s' = false -> free_pages s' (v :: l).
Proof.
  intros [Hch Hnd Hok Hlk] Hv Hn Hw Hf Hl. split; [|by constructor|by constructor|done].
  rewrite Hw, Hf. simpl. split_and!; [done|destruct Hv; lia|]. exists (freelist s).
  split; [apply lookup_insert_eq|].
  apply chain_insert; [done|]. by apply chain_insert.
Qed.

Lemma kfree_wp s l v Q :
  free_pages s l -> page_ok v -> v ∉ l ->
  (forall s', free_pages s' (v :: l) -> use_lock s' = use_lock s ->
     kalloc_fullysetup s' = kalloc_fullysetup s -> Q tt s' []) ->
  wp (kfree v) s Q.
Proof.
  intros Hfp Hv Hn HQ. pose proof Hv as (Hal & Hend & Hphys & Hpos).
  pose proof (fp_lock s l Hfp) as Hlk. unfold kfree.
  rewrite Hal. replace (v <? kend) with false by (symmetry; apply Z.ltb_ge; lia).
  replace (PHYSTOP <=? v2p v) with false by (symmetry; apply Z.leb_gt; lia).
  simpl. wp_steps. apply wp_when; intros Hul.
  - apply wp_acquire; [done|]. wp_steps. rewrite Hul. simpl.
    apply wp_release; [done|]. apply HQ; [|done|done]. by eapply free_pages_push.
  - wp_steps. rewrite Hul. simpl. wp_steps. apply HQ; [|done|done].
    by eapply free_pages_push.
Qed.

Lemma run_next_wp s r n Q : word0 s !! r = Some n -> Q n s [] -> wp (run_next r) s Q.
Proof. intros Hr HQ. unfold run_next. wp_steps. rewrite Hr. by wp_steps. Qed.

(** Taking pages off the front keeps the rest of the list. *)
Lemma free_pages_drop s s' l1 l2 :
  free_pages s (l1 ++ l2) -> word0 s' = word0 s -> lock s' = false ->
  chain (word0 s) (freelist s') l2 -> free_pages s' l2.
Proof.
  intros [Hch Hnd Hok Hlk] Hw Hl Hc. split; [by rewrite Hw| | |done].
  - by apply NoDup_app in Hnd as (_ & _ & ?).
  - by apply Forall_app in Hok as [_ ?].
Qed.

Lemma kalloc_wp s l Q :
  free_pages s l ->
  (forall s', use_lock s' = use_lock s -> kalloc_fullysetup s' = kalloc_fullysetup s ->
     free_pages s' (tail l) -> Q (match l with [] => 0 | a :: _ => a end) s' []) ->
  wp kalloc s Q.
Proof.
  intros Hfp HQ. pose proof (fp_lock s l Hfp) as Hlk. pose proof (fp_chain s l Hfp) as Hch.
  assert (Hmid : forall s1 Q1, word0 s1 = word0 s -> freelist s1 = freelist s ->
    (forall s2, word0 s2 = word0 s1 -> lock s2 = lock s1 -> use_lock s2 = use_lock s1 ->
       kalloc_fullysetup s2 = kalloc_fullysetup s1 ->
       chain (word0 s) (freelist s2) (tail l) -> Q1 tt s2 []) ->
    wp (kwhen (negb (freelist s1 =? 0)) (let! n := run_next (freelist s1) in
                                         kmod (set_freelist n))) s1 Q1).
  { intros s1 Q1 Hw1 Hf1 HQ1. rewrite Hf1. destruct l as [|a l]; simpl in Hch.
    - rewrite Hch. simpl. wp_steps. apply HQ1; try done. by rewrite Hf1.
    - destruct Hch as (Hf & Ha & n & Hn & Hc). rewrite Hf.
      destruct (Z.eqb_spec a 0); [done|]. simpl. wp_steps.
      eapply run_next_wp; [by rewrite Hw1|]. wp_steps. by apply HQ1. }
  assert (Hfl : freelist s = match l with [] => 0 | a :: _ => a end).
  { destruct l; simpl in Hch; tauto. }
  unfold kalloc. wp_steps. apply wp_when; intros Hul.
  - apply wp_acquire; [done|]. wp_steps. apply Hmid; try done. intros s2 Hw2 Hl2 Hu2 Hk2 Hc2.
    wp_steps. rewrite Hul. simpl. apply wp_release; [done|]. wp_steps. simpl. rewrite Hfl.
    apply HQ; try done. apply (free_pages_drop s _ (take 1 l)); try done.
    by destruct l.
  - wp_steps. apply Hmid; try done. intros s2 Hw2 Hl2 Hu2 Hk2 Hc2.
    wp_steps. rewrite Hul. simpl. wp_steps. simpl. rewrite Hfl.
    apply HQ; try done. apply (free_pages_drop s _ (take 1 l)); try done;
      [by destruct l|congruence].
Qed.

(** ** Ranges of pages *)

Fixpoint page_range (p : Z) (n : nat) : list Z :=
  match n with
  | O => []
  | S n' => p :: page_range (p + PGSIZE) n'
  end.

Lemma elem_of_page_range p n a :
  a ∈ page_range p n <-> exists k, 0 <= k < Z.of_nat n /\ a = p + k * PGSIZE.
Proof.
  revert p. induction n as [|n IH]; intros p; simpl.
  - split; [by intros ?%not_elem_of_nil|]. intros (k & Hk & _). lia.
  - rewrite elem_of_cons, IH. split.
    + intros [->|(k & Hk & ->)]; [exists 0|exists (k + 1)]; lia.
    + intros (k & Hk & ->). destruct (decide (k = 0)) as [->|]; [left; lia|].
      right. exists (k - 1). lia.
Qed.

Lemma ldiff_page z : Z.ldiff z (PGSIZE - 1) = z - z mod PGSIZE.
Proof.
  change (PGSIZE - 1) with (Z.ones 12). rewrite Z.ldiff_ones_r by lia.
  rewrite Z.shiftl_mul_pow2, Z.shiftr_div_pow2 by lia.
  change PGSIZE with (2 ^ 12). lia_dm.
Qed.

Lemma PGROUNDUP_aligned a : a mod PGSIZE = 0 -> 0 <= a < 2 ^ 64 - PGSIZE -> PGROUNDUP a = a.
Proof.
  intros Ha Hr. unfold PGROUNDUP. rewrite ldiff_page, u64_small by (unfold PGSIZE in *; lia).
  unfold PGSIZE in *. lia_dm.
Qed.

(** A page-aligned address range inside the kernel's direct map, above the image. *)
Definition range_ok (p : Z) (n : nat) : Prop :=
  p mod PGSIZE = 0 /\ KERNBASE <= p /\ kend <= p /\
  p + Z.of_nat n * PGSIZE <= KERNBASE + PHYSTOP.

Lemma range_page_ok p n a : range_ok p n -> a ∈ page_range p n -> page_ok a.
Proof.
  intros (Hal & Hb & He & Hp) (k & Hk & ->)%elem_of_page_range.
  unfold page_ok, v2p, KERNBASE, PHYSTOP, PGSIZE in *.
  rewrite u64_small by lia. split_and!; try lia. lia_dm.
Qed.

Lemma range_ok_S p n : range_ok p (S n) -> range_ok (p + PGSIZE) n.
Proof.
  intros (Hal & Hb & He & Hp). unfold range_ok, PGSIZE in *. split_and!; try lia. lia_dm.
Qed.

Lemma freerange_loop_wp n : forall fuel p vend s l Q,
  range_ok p n -> (n <= fuel)%nat ->
  p + Z.of_nat n * PGSIZE <= vend < p + (Z.of_nat n + 1) * PGSIZE ->
  vend <= KERNBASE + PHYSTOP ->
  free_pages s l -> (forall a, a ∈ page_range p n -> a ∉ l) ->
  (forall s', free_pages s' (rev (page_range p n) ++ l) -> use_lock s' = use_lock s ->
     kalloc_fullysetup s' = kalloc_fullysetup s -> Q tt s' []) ->
  wp (freerange_loop fuel p vend) s Q.
Proof.
  induction n as [|n IH]; intros fuel p vend s l Q Hr Hf Hv Hve Hfp Hdis HQ;
    pose proof Hr as (Hal & Hb & He & Hp);
    assert (Hp64 : u64 (p + PGSIZE) = p + PGSIZE)
      by (apply u64_small; unfold KERNBASE, PHYSTOP, PGSIZE in *; lia);
    destruct fuel as [|fuel]; try lia; simpl; rewrite Hp64.
  1,2: rewrite (proj2 (Z.leb_gt _ _)) by lia; wp_steps; by apply HQ.
  rewrite (proj2 (Z.leb_le _ _)) by (unfold PGSIZE in *; lia).
  wp_steps. apply (kfree_wp s l); [done| |apply Hdis; left|].
  { apply (range_page_ok p (S n)); [done|left]. }
  intros s1 Hfp1 Hu1 Hk1. apply (IH _ _ _ _ (p :: l)); try done.
  - by apply range_ok_S.
  - lia.
  - unfold PGSIZE in *. lia.
  - intros a Ha. apply not_elem_of_cons. split; [|apply Hdis; by right].
    apply elem_of_page_range in Ha as (k & Hk & ->). unfold PGSIZE. lia.
  - intros s2 Hfp2 Hu2 Hk2. simpl. apply HQ; [|congruence|congruence].
    simpl. by rewrite <-app_assoc.
Qed.

Lemma freerange_wp n p s l Q :
  range_ok p n -> free_pages s l -> (forall a, a ∈ page_range p n -> a ∉ l) ->
  (forall s', free_pages s' (rev (page_range p n) ++ l) -> use_lock s' = use_lock s ->
     kalloc_fullysetup s' = kalloc_fullysetup s -> Q tt s' []) ->
  wp (freerange p (p + Z.of_nat n * PGSIZE)) s Q.
Proof.
  intros Hr Hfp Hdis HQ. pose proof Hr as (Hal & Hb & He & Hp). unfold freerange.
  rewrite PGROUNDUP_aligned
    by first [done | unfold KERNBASE, PHYSTOP, PGSIZE in *; lia].
  apply (freerange_loop_wp n _ _ _ _ l); try done.
  - replace (p + Z.of_nat n * PGSIZE - p) with (Z.of_nat n * PGSIZE) by lia.
    rewrite Z.div_mul by (unfold PGSIZE; lia). lia.
  - unfold PGSIZE. lia.
Qed.

(** [k] turns of the loop starting at the page list [L]. *)
Lemma kmalloc_loop_wp k : forall fuel i pages n L s Q,
  (k <= fuel)%nat -> 0 <= i -> i + Z.of_nat k = pages -> pages < 256 ->
  (k <= length L)%nat -> chain (word0 s) n L ->
  (forall s', word0 s' = word0 s -> lock s' = lock s -> use_lock s' = use_lock s ->
     kalloc_fullysetup s' = kalloc_fullysetup s ->
     (k = 0%nat -> s' = s) ->
     ((0 < k)%nat -> chain (word0 s) (freelist s') (drop (k - 1) L)) -> Q tt s' []) ->
  wp (kmalloc_loop fuel i pages n) s Q.
Proof.
  induction k as [|k IH]; intros fuel i pages n L s Q Hf Hi Hp Hlt HL Hc HQ.
  - replace pages with i by lia. destruct fuel; simpl; rewrite Z.eqb_refl;
      wp_steps; apply HQ; try done; lia.
  - destruct fuel as [|fuel]; [lia|]. destruct L as [|a L]; simpl in HL; [lia|].
    destruct Hc as (-> & Ha & n' & Hn & Hc). cbn [kmalloc_loop].
    destruct (Z.eqb_spec i pages); [lia|]. wp_steps.
    apply (run_next_wp _ _ n'); [done|].
    replace (u8 (i + 1)) with (i + 1) by (symmetry; apply u8_small; lia).
    apply (IH _ _ _ _ L); try done; try lia.
    intros s' Hw Hl Hu Hk H0 Hc'. apply HQ; try done. intros _.
    destruct k as [|k].
    + rewrite (H0 eq_refl). simpl. split_and!; [done|done|]. by exists n'.
    + simpl in *. rewrite Nat.sub_0_r in *. apply Hc'. lia.
Qed.

Lemma kmalloc_wp s l1 l2 fuel Q :
  free_pages s (l1 ++ l2) -> kalloc_fullysetup s = true ->
  (0 < length l1 < 256)%nat -> l2 <> [] -> (length l1 <= fuel)%nat ->
  (forall s', free_pages s' l2 -> Q (hd 0 l1) s' []) ->
  wp (kmalloc fuel (Z.of_nat (length l1))) s Q.
Proof.
  intros Hfp Hset Hlen Hl2 Hf HQ. pose proof (fp_lock _ _ Hfp) as Hlk.
  pose proof (fp_chain _ _ Hfp) as Hch. destruct l1 as [|a l1]; [simpl in *; lia|].
  simpl in Hch. destruct Hch as (Hfl & Ha & n & Hn & Hc).
  assert (Hu16 : u16 (Z.of_nat (length (a :: l1))) = Z.of_nat (length (a :: l1))).
  { apply Z.mod_small. lia. }
  assert (Hmid : forall s1 Q1, word0 s1 = word0 s -> freelist s1 = a ->
    (forall s2, word0 s2 = word0 s1 -> lock s2 = lock s1 ->
       chain (word0 s) (freelist s2) l2 -> Q1 tt s2 []) ->
    wp (kwhen (negb (a =? 0)) (let! n := run_next a in
          kmalloc_loop fuel 0 (u16 (Z.of_nat (length (a :: l1)))) n)) s1 Q1).
  { intros s1 Q1 Hw1 Hf1 HQ1. destruct (Z.eqb_spec a 0); [done|]. cbn [negb kwhen].
    wp_steps. apply (run_next_wp _ _ n); [by rewrite Hw1|]. rewrite Hu16.
    assert (Hne : (0 < length l2)%nat) by (destruct l2; simpl; [done|lia]).
    apply (kmalloc_loop_wp (length (a :: l1)) _ _ _ _ (l1 ++ l2)); rewrite ?Hw1;
      try done; try (rewrite ?length_app; simpl in *; lia).
    intros s2 Hw2 Hl2' _ _ _ Hc2. simpl. apply HQ1; [congruence|done|].
    specialize (Hc2 ltac:(simpl; lia)). simpl in Hc2.
    by rewrite Nat.sub_0_r, drop_app_length in Hc2. }
  unfold kmalloc. wp_steps. rewrite Hset. cbn [negb]. wp_steps.
  apply wp_when; intros Hul.
  - apply wp_acquire; [done|]. wp_steps. cbn [freelist set_lock lput kmem_lock].
    rewrite Hfl. apply Hmid; try done. intros s2 Hw2 Hl2' Hc2. wp_steps. rewrite Hul.
    cbn [kwhen]. apply wp_release; [done|]. wp_steps. apply HQ.
    by apply (free_pages_drop s _ (a :: l1)).
  - wp_steps. rewrite Hfl. apply Hmid; try done. intros s2 Hw2 Hl2' Hc2. wp_steps.
    rewrite Hul. cbn [kwhen]. wp_steps. apply HQ.
    apply (free_pages_drop s _ (a :: l1)); try done. congruence.
Qed.

Lemma page_okb_ok v : page_okb v = true -> page_ok v.
Proof.
  unfold page_okb, page_ok. rewrite !andb_true_iff, Z.eqb_eq, Z.leb_le, !Z.ltb_lt. tauto.
Qed.

(** ** Properties *)

(** C8. The page allocator refines a stack of distinct pages: whatever sequence of
    calls a client makes, as long as it frees only valid pages that are not free,
    every call returns (no panic, no fault, lock released), [kalloc] returns exactly
    the page the abstract stack pops (0 when there is none), and the free list is
    again a duplicate-free list of valid pages - so no page is handed out twice. *)
Theorem kalloc_refines_stack s l ops rs l' :
  free_pages s l -> stack_ops page_okb l ops = Some (rs, l') ->
  wp (run_ops ops) s (fun r s' _ => r = rs /\ free_pages s' l').
Proof.
  revert s l rs l'. induction ops as [|[|v] ops IH]; intros s l rs l' Hfp Hst; simpl in *.
  - injection Hst as <- <-. by wp_steps.
  - apply bind_Some in Hst as ([rs1 l1] & Hst & [= <- <-]). wp_steps.
    apply (kalloc_wp s l); [done|]. intros s1 _ _ Hfp1. wp_steps.
    eapply wp_mono; [by apply (IH s1 (tail l) rs1)|]. simpl.
    intros r s2 t [-> Hfp2]. by wp_steps.
  - destruct (page_okb v && bool_decide (v ∉ l))%bool eqn:E; [|done].
    apply andb_true_iff in E as [Hok Hn]. apply bool_decide_eq_true in Hn.
    wp_steps. apply (kfree_wp s l); auto using page_okb_ok. intros s1 Hfp1 _ _.
    eapply wp_mono; [by apply (IH s1 (v :: l) rs)|]. done.
Qed.

(** After boot ([kinit1] on the first range, [kinit2] on the rest) the allocator
    holds every page of both ranges exactly once, highest address first, the lock is
    in use and free. *)
Theorem kinit_frees_all s p1 n1 p2 n2 :
  freelist s = 0 -> range_ok p1 n1 -> range_ok p2 n2 ->
  p1 + Z.of_nat n1 * PGSIZE <= p2 ->
  wp (kinit1 p1 (p1 + Z.of_nat n1 * PGSIZE) ;;; kinit2 p2 (p2 + Z.of_nat n2 * PGSIZE)) s
    (fun _ s' _ => free_pages s' (rev (page_range p2 n2) ++ rev (page_range p1 n1)) /\
       use_lock s' = true /\ kalloc_fullysetup s' = true).
Proof.
  intros Hf H1 H2 Hle. unfold kinit1, kinit2. wp_steps.
  apply (freerange_wp n1 p1 _ []); [done| |set_solver|].
  { split; simpl; try done; constructor. }
  intros s1 Hfp1 Hu1 Hk1. rewrite app_nil_r in Hfp1. wp_steps.
  apply (freerange_wp n2 p2 _ (rev (page_range p1 n1))); [done|done| |].
  { intros a (k & Hk & ->)%elem_of_page_range.
    rewrite list_elem_of_In, <-in_rev, <-list_elem_of_In, elem_of_page_range.
    intros (k' & Hk' & Heq). unfold PGSIZE in *. lia. }
  intros s2 Hfp2 Hu2 Hk2. wp_steps. simpl. split_and!; [|done|done].
  by destruct Hfp2; split.
Qed.

(** [kmalloc(n)] pops [n] pages but does not allocate [n] contiguous pages: on a
    free list filled by [freerange] it returns the highest page [p] and removes the
    [n] pages from [p] downwards, so the page at [p + PGSIZE] that the caller would
    use as its second page is not one of them. *)
Theorem kmalloc_not_contiguous s q n m l fuel :
  free_pages s (rev (page_range q (n + m)) ++ l) -> kalloc_fullysetup s = true ->
  (1 < n < 256)%nat -> (0 < m)%nat -> (n <= fuel)%nat ->
  let p := q + Z.of_nat (n + m - 1) * PGSIZE in
  wp (kmalloc fuel (Z.of_nat n)) s (fun r s' _ =>
    r = p /\ free_pages s' (rev (page_range q m) ++ l) /\
    p + PGSIZE ∉ page_range q (n + m)).
Proof.
  intros Hfp Hset Hn Hm Hf p.
  assert (Hsplit : forall q a b,
    page_range q (a + b) = page_range q a ++ page_range (q + Z.of_nat a * PGSIZE) b).
  { intros q0 a b. revert q0. induction a as [|a IH]; intros q0.
    - replace (q0 + Z.of_nat 0 * PGSIZE) with q0 by lia. done.
    - cbn [page_range Nat.add app]. rewrite IH. do 2 f_equal.
      f_equal. unfold PGSIZE. lia. }
  set (q2 := q + Z.of_nat m * PGSIZE).
  assert (Hlist : page_range q (n + m) = page_range q m ++ page_range q2 n).
  { rewrite Nat.add_comm. apply Hsplit. }
  assert (Hlen : forall q k, length (page_range q k) = k).
  { intros q0 k. revert q0. induction k; intros; simpl; auto. }
  assert (Hln : length (rev (page_range q2 n)) = n) by (rewrite length_rev; apply Hlen).
  rewrite <-Hln at 1. apply (kmalloc_wp s _ (rev (page_range q m) ++ l)).
  - rewrite Hlist, rev_app_distr, <-app_assoc in Hfp. done.
  - done.
  - lia.
  - destruct m; [lia|]. simpl. by destruct (rev (page_range (q + PGSIZE) m)).
  - lia.
  - intros s' Hfp'. split_and!; [|done|].
    + destruct n as [|n]; [lia|]. replace (S n) with (n + 1)%nat by lia.
      rewrite Hsplit, rev_app_distr. simpl. unfold p, q2. lia.
    + intros (k & Hk & Heq)%elem_of_page_range. unfold p, PGSIZE in *. lia.
Qed.

End kalloc.

(** Ten pages at the start of the allocator's physical range, kernel image ending
    at its first page. *)
Definition demo_kend : Z := KERNBASE + 4194304.
Definition demo_p1 : Z := KERNBASE + KALLOC_START.
Definition demo_p2 : Z := demo_p1 + 6 * PGSIZE.
Definition demo_kmem0 : kmem := Kmem false false 0 ∅ false.
Definition demo_kmem : kmem :=
  final ((kinit1 demo_kend demo_p1 (demo_p1 + 6 * PGSIZE) ;;;
          kinit2 demo_kend demo_p2 (demo_p2 + 4 * PGSIZE)) demo_kmem0).2.

Lemma demo_free :
  free_pages demo_kend demo_kmem (rev (page_range demo_p2 4) ++ rev (page_range demo_p1 6)).
Proof.
  split; [vm_compute; repeat (split; [done|]; split; [done|]; eexists; split; [done|]); done| | |done].
  - apply (bool_decide_unpack _). by vm_compute.
  - eapply Forall_impl; [|intros v; apply page_okb_ok].
    apply (bool_decide_unpack _). by vm_compute.
Qed.

Lemma kalloc_refines_stack_witness :
  wp (run_ops demo_kend [Alloc; Alloc; Free (demo_p2 + 3 * PGSIZE); Alloc]) demo_kmem
    (fun r s' _ => r = [demo_p2 + 3 * PGSIZE; demo_p2 + 2 * PGSIZE; demo_p2 + 3 * PGSIZE] /\
       free_pages demo_kend s' (rev (page_range demo_p2 2) ++ rev (page_range demo_p1 6))).
Proof.
  apply (kalloc_refines_stack demo_kend demo_kmem
           (rev (page_range demo_p2 4) ++ rev (page_range demo_p1 6))).
  - exact demo_free.
  - by vm_compute.
Defined.

Lemma demo_range n p :
  p = demo_p1 \/ p = demo_p2 -> (n <= 6)%nat -> range_ok demo_kend p n.
Proof.
  intros Hp Hn. unfold range_ok, demo_kend, demo_p2, demo_p1, KERNBASE, KALLOC_START, PHYSTOP,
    PGSIZE in *. destruct Hp as [-> | ->]; split_and!; try lia; by vm_compute.
Qed.

Lemma kinit_frees_all_witness :
  wp (kinit1 demo_kend demo_p1 (demo_p1 + Z.of_nat 6 * PGSIZE) ;;;
      kinit2 demo_kend demo_p2 (demo_p2 + Z.of_nat 4 * PGSIZE)) demo_kmem0
    (fun _ s' _ =>
       free_pages demo_kend s' (rev (page_range demo_p2 4) ++ rev (page_range demo_p1 6)) /\
       use_lock s' = true /\ kalloc_fullysetup s' = true).
Proof.
  apply (kinit_frees_all demo_kend demo_kmem0 demo_p1 6 demo_p2 4).
  - done.
  - apply demo_range; [by left|lia].
  - apply demo_range; [by right|lia].
  - unfold demo_p2. lia.
Defined.

Lemma kmalloc_not_contiguous_witness :
  wp (kmalloc 2 (Z.of_nat 2)) demo_kmem (fun r s' _ =>
    r = demo_p2 + Z.of_nat (2 + 2 - 1) * PGSIZE /\
    free_pages demo_kend s' (rev (page_range demo_p2 2) ++ rev (page_range demo_p1 6)) /\
    demo_p2 + Z.of_nat (2 + 2 - 1) * PGSIZE + PGSIZE ∉ page_range demo_p2 (2 + 2)).
Proof.
  apply (kmalloc_not_contiguous demo_kend demo_kmem demo_p2 2 2 (rev (page_range demo_p1 6)) 2).
  - exact demo_free.
  - by vm_compute.
  - lia.
  - lia.
  - lia.
Defined.
