(* ===== verification/Vm.v ===== *)
(** * Page tables and user memory: kernel/vm.c, and setupkvm of kernel/vm64.c

    Kernel memory is the set of pages in use, by kernel address, each a list of
    4096 bytes, together with the state of the page allocator.  [kalloc] brings a
    page into use with what [kfree] left in it (the link in its first word, ones in
    the rest); [kfree] takes it out of use, and an access to a page that is not in
    use faults.  Page tables are the words of such pages, so that every entry is
    read and written in memory as in the source.

    The specification reads the two levels of tables as an abstract address space:
    a table page for some directory indices, and a frame with its flags for some
    virtual page numbers. *)

From stdpp Require Import base list gmap strings fin_maps fin_map_dom.
From Stdlib Require Import ZArith Lia.
From S2P Require Import Prelude CString Bytes Spinlock Kalloc.
Open Scope Z_scope.

(** include/mmu.h *)
Definition NPDENTRIES : Z := 512.
Definition NPTENTRIES : Z := 512.
Definition PXMASK : Z := 511.
Definition PDX (va : Z) : Z := Z.land (Z.shiftr (u64 va) 21) PXMASK.
Definition PTX (va : Z) : Z := Z.land (Z.shiftr (u64 va) 12) PXMASK.
Definition PTE_P : Z := 1.
Definition PTE_W : Z := 2.
Definition PTE_U : Z := 4.
Definition PTE_PWT : Z := 8.
Definition PTE_PCD : Z := 16.
Definition PTE_PS : Z := 128.
Definition PTE_ADDR (pte : Z) : Z := Z.ldiff pte 4095.
Definition PTE_FLAGS (pte : Z) : Z := Z.land pte 4095.

(** The kernel's memory; [kpdpt] is the third-level table of the kernel part of
    every address space (vm64.c). *)
Record memory := Memory {
  km : kmem;
  pages : gmap Z (list Z);
  kpdpt : Z;
}.

Definition set_km (k : kmem) (s : memory) : memory := Memory k (pages s) (kpdpt s).
Definition set_pages (p : gmap Z (list Z)) (s : memory) : memory := Memory (km s) p (kpdpt s).
Definition km_lens : lens memory kmem := Lens km set_km.

(** [PGSIZE] as a length. *)
Definition pgsize : nat := Z.to_nat PGSIZE.

(** ** Memory accesses: inside one page *)

Definition page_of (a : Z) : Z := a - a mod PGSIZE.
Definition page_off (a : Z) : nat := Z.to_nat (a mod PGSIZE).

Definition with_page {A} (a : Z) (f : list Z -> K memory A) : K memory A :=
  let! m := gets pages in
  match m !! page_of a with Some l => f l | None => fault end.

Definition put_page (a : Z) (l : list Z) : K memory unit :=
  kmod (fun s => set_pages (<[page_of a := l]> (pages s)) s).

Definition load64 (a : Z) : K memory Z :=
  with_page a (fun l => kret (get_le l (page_off a) 8)).
Definition store64 (a v : Z) : K memory unit :=
  with_page a (fun l => put_page a (put_le l (page_off a) 8 v)).

(** [memset(a, c, n)] and [memmove] to and from a page, with the page's contents as
    the memory. *)
Definition memset (a c : Z) (n : nat) : K memory unit :=
  with_page a (fun l =>
    match sys_memset l (page_off a) c n with Some l' => put_page a l' | None => fault end).
Definition read_bytes (a : Z) (n : nat) : K memory (list Z) :=
  with_page a (fun l =>
    if decide (page_off a + n <= length l)%nat then kret (slice l (page_off a) n) else fault).
Definition write_bytes (a : Z) (d : list Z) : K memory unit :=
  with_page a (fun l =>
    if decide (page_off a + length d <= length l)%nat
    then put_page a (splice l (page_off a) d) else fault).

Section vm.
Context (kend : Z).

Definition kalloc_page : K memory Z :=
  let! r := zoom km_lens kalloc in
  if r =? 0 then kret 0
  else
    let! next := gets (fun s => freelist (km s)) in
    kmod (fun s => set_pages (<[r := le_bytes 8 next ++ replicate (pgsize - 8) 1]> (pages s)) s) ;;;
    kret r.

Definition kfree_page (v : Z) : K memory unit :=
  zoom km_lens (kfree kend v) ;;;
  kmod (fun s => set_pages (delete v (pages s)) s).

(** ** vm.c *)

Definition walkpgdir (pgdir va : Z) (alloc : bool) : K memory Z :=
  let pde := u64 (pgdir + 8 * PDX va) in
  let! e := load64 pde in
  if has e PTE_P then kret (u64 (p2v (PTE_ADDR e) + 8 * PTX va))
  else if negb alloc then kret 0
  else
    let! pgtab := kalloc_page in
    if pgtab =? 0 then kret 0
    else
      memset pgtab 0 pgsize ;;;
      store64 pde (Z.lor (Z.lor (Z.lor (v2p pgtab) PTE_P) PTE_W) PTE_U) ;;;
      kret (u64 (pgtab + 8 * PTX va)).

(** [for (;;) ...]: the fuel is the number of pages after the first. *)
Fixpoint mappages_loop (fuel : nat) (pgdir a last pa perm : Z) : K memory Z :=
  let! pte := walkpgdir pgdir a true in
  if pte =? 0 then kret (-1)
  else
    let! e := load64 pte in
    if has e PTE_P then panic "remap"
    else
      store64 pte (Z.lor (Z.lor pa perm) PTE_P) ;;;
      if a =? last then kret 0
      else match fuel with
           | O => kstop NoFuel
           | S fuel' => mappages_loop fuel' pgdir (u64 (a + PGSIZE)) last (u64 (pa + PGSIZE)) perm
           end.

Definition mappages (pgdir va size pa perm : Z) : K memory Z :=
  let a := PGROUNDDOWN va in
  let last := PGROUNDDOWN (va + size - 1) in
  mappages_loop (Z.to_nat (u64 (last - a) / PGSIZE)) pgdir a last pa perm.

(** [init] is the first [sz] bytes at the source's pointer. *)
Definition inituvm (pgdir : Z) (init : list Z) : K memory unit :=
  let sz := Z.of_nat (length init) in
  if PGSIZE <=? sz then panic "inituvm: more than a page"
  else
    let! mem := kalloc_page in
    memset mem 0 pgsize ;;;
    let! _ := mappages pgdir 0 PGSIZE (v2p mem) (Z.lor PTE_W PTE_U) in
    write_bytes mem init.

(** The pages from [a] up to [oldsz]; a missing table skips to the same page of the
    next one. *)
Fixpoint deallocuvm_loop (fuel : nat) (pgdir a oldsz : Z) : K memory unit :=
  if a <? oldsz then
    match fuel with
    | O => kstop NoFuel
    | S fuel' =>
        let! pte := walkpgdir pgdir a false in
        if pte =? 0 then
          deallocuvm_loop fuel' pgdir (u64 (u64 (a + (NPTENTRIES - 1) * PGSIZE) + PGSIZE)) oldsz
        else
          let! e := load64 pte in
          (if has e PTE_P then
             let pa := PTE_ADDR e in
             if pa =? 0 then panic "kfree"
             else kfree_page (p2v pa) ;;; store64 pte 0
           else kret tt) ;;;
          deallocuvm_loop fuel' pgdir (u64 (a + PGSIZE)) oldsz
    end
  else kret tt.

Definition deallocuvm (pgdir oldsz newsz : Z) : K memory Z :=
  if oldsz <=? newsz then kret (i32 oldsz)
  else
    let a := PGROUNDUP newsz in
    deallocuvm_loop (Z.to_nat (oldsz / PGSIZE + 1)) pgdir a oldsz ;;;
    kret (i32 newsz).

(** [true] when the loop ran to its end, [false] when memory ran out. *)
Fixpoint allocuvm_loop (fuel : nat) (pgdir a newsz : Z) : K memory bool :=
  if a <? newsz then
    match fuel with
    | O => kstop NoFuel
    | S fuel' =>
        let! mem := kalloc_page in
        if mem =? 0 then kret false
        else
          memset mem 0 pgsize ;;;
          let! _ := mappages pgdir a PGSIZE (v2p mem) (Z.lor PTE_W PTE_U) in
          allocuvm_loop fuel' pgdir (u64 (a + PGSIZE)) newsz
    end
  else kret true.

Definition allocuvm (pgdir oldsz newsz : Z) : K memory Z :=
  let oldsz := u32 oldsz in
  let newsz := u32 newsz in
  if KERNBASE <=? newsz then kret 0
  else if newsz <? oldsz then kret (i32 oldsz)
  else
    let a := PGROUNDUP oldsz in
    let! ok := allocuvm_loop (Z.to_nat (newsz / PGSIZE + 1)) pgdir a newsz in
    if ok : bool then kret (i32 newsz)
    else
      let! _ := deallocuvm pgdir newsz oldsz in
      kret 0.

Definition freevm (pgdir : Z) : K memory unit :=
  if pgdir =? 0 then panic "freevm: no pgdir"
  else
    let! _ := deallocuvm pgdir 1067450368 0 in
    for_each (map Z.of_nat (seq 0 510)) (fun i =>
      let! e := load64 (u64 (pgdir + 8 * i)) in
      kwhen (has e PTE_P) (kfree_page (p2v (PTE_ADDR e)))) ;;;
    kfree_page pgdir.

Definition clearpteu (pgdir uva : Z) : K memory unit :=
  let! pte := walkpgdir pgdir uva false in
  if pte =? 0 then panic "clearpteu"
  else
    let! e := load64 pte in
    store64 pte (clr e PTE_U).

(** vm64.c *)
Definition setupkvm : K memory Z :=
  let! pml4 := kalloc_page in
  let! pdpt := kalloc_page in
  let! pgdir := kalloc_page in
  memset pml4 0 pgsize ;;;
  memset pdpt 0 pgsize ;;;
  memset pgdir 0 pgsize ;;;
  let! kp := gets kpdpt in
  store64 (u64 (pml4 + 8 * 511)) (Z.lor (Z.lor (Z.lor (v2p kp) PTE_P) PTE_W) PTE_U) ;;;
  store64 pml4 (Z.lor (Z.lor (Z.lor (v2p pdpt) PTE_P) PTE_W) PTE_U) ;;;
  store64 pdpt (Z.lor (Z.lor (Z.lor (v2p pgdir) PTE_P) PTE_W) PTE_U) ;;;
  store64 (u64 (pgdir + 8 * 511)) (Z.lor pml4 PTE_P) ;;;
  store64 (u64 (pgdir + 8 * 510)) (Z.lor pdpt PTE_P) ;;;
  kret pgdir.

(** [false] is [goto bad]. *)
Fixpoint copyuvm_loop (fuel : nat) (pgdir d i sz : Z) : K memory bool :=
  if i <? sz then
    match fuel with
    | O => kstop NoFuel
    | S fuel' =>
        let! pte := walkpgdir pgdir i false in
        if pte =? 0 then panic "copyuvm: pte should exist"
        else
          let! e := load64 pte in
          if negb (has e PTE_P) then panic "copyuvm: page not present"
          else
            let pa := PTE_ADDR e in
            let flags := PTE_FLAGS e in
            let! mem := kalloc_page in
            if mem =? 0 then kret false
            else
              let! b := read_bytes (p2v pa) pgsize in
              write_bytes mem b ;;;
              let! r := mappages d i PGSIZE (v2p mem) flags in
              if r <? 0 then kret false
              else copyuvm_loop fuel' pgdir d (u64 (i + PGSIZE)) sz
    end
  else kret true.

Definition copyuvm (pgdir sz : Z) : K memory Z :=
  let sz := u32 sz in
  let! d := setupkvm in
  if d =? 0 then kret 0
  else
    let! ok := copyuvm_loop (Z.to_nat (sz / PGSIZE + 1)) pgdir d 0 sz in
    if ok : bool then kret d
    else freevm d ;;; kret 0.

Definition uva2ka (pgdir uva : Z) : K memory Z :=
  let! pte := walkpgdir pgdir uva false in
  let! e := load64 pte in
  if negb (has e PTE_P) then kret 0
  else if negb (has e PTE_U) then kret 0
  else kret (p2v (PTE_ADDR e)).

(** [buf] is the [len] bytes at the source's pointer that are still to be copied. *)
Fixpoint copyout_loop (fuel : nat) (pgdir va : Z) (buf : list Z) : K memory Z :=
  let len := Z.of_nat (length buf) in
  if 0 <? len then
    match fuel with
    | O => kstop NoFuel
    | S fuel' =>
        let va0 := u32 (PGROUNDDOWN va) in
        let! pa0 := uva2ka pgdir va0 in
        if pa0 =? 0 then kret (-1)
        else
          let n := u64 (PGSIZE - u64 (va - va0)) in
          let n := if len <? n then len else n in
          write_bytes (u64 (pa0 + (va - va0))) (take (Z.to_nat n) buf) ;;;
          copyout_loop fuel' pgdir (u32 (va0 + PGSIZE)) (drop (Z.to_nat n) buf)
    end
  else kret 0.

Definition copyout (pgdir va : Z) (p : list Z) : K memory Z :=
  copyout_loop (length p) pgdir (u32 va) p.

End vm.

(** Load a segment: [FS] is the state of the file system and [readi off n] reads [n]
    bytes of the file at [off], giving the count and the bytes. *)
Section loaduvm.
Context {FS : Type} (readi : Z -> Z -> K FS (Z * list Z)).

Definition mem_part : lens (memory * FS) memory := Lens fst (fun m s => (m, s.2)).
Definition fs_part : lens (memory * FS) FS := Lens snd (fun f s => (s.1, f)).

Fixpoint loaduvm_loop (fuel : nat) (pgdir addr offset i sz : Z) : K (memory * FS) Z :=
  if i <? sz then
    match fuel with
    | O => kstop NoFuel
    | S fuel' =>
        let! pte := zoom mem_part (walkpgdir pgdir (u64 (addr + i)) false) in
        if pte =? 0 then panic "loaduvm: address should exist"
        else
          let! e := zoom mem_part (load64 pte) in
          let pa := u32 (PTE_ADDR e) in
          let n := if sz - i <? PGSIZE then sz - i else PGSIZE in
          let! (r, d) := zoom fs_part (readi (u32 (offset + i)) n) in
          zoom mem_part (write_bytes (p2v pa) d) ;;;
          if negb (u32 r =? n) then kret (-1)
          else loaduvm_loop fuel' pgdir addr offset (u32 (i + PGSIZE)) sz
    end
  else kret 0.

Definition loaduvm (pgdir addr offset sz : Z) : K (memory * FS) Z :=
  let sz := u32 sz in
  if negb (addr mod PGSIZE =? 0) then panic "loaduvm: addr must be page aligned"
  else loaduvm_loop (Z.to_nat (sz / PGSIZE + 1)) pgdir addr (u32 offset) 0 sz.
End loaduvm.
