(* ===== verification/VmSpace.v ===== *)
(** * Address spaces: what the page tables of Vm mean

    [aspace] relates the words in memory under a page directory to a map [T] from
    directory indices to table pages and a map [M] from virtual page numbers to a
    frame and its flags.  The lemmas follow walkpgdir, mappages and the memory
    primitives; VmUser builds the user memory operations on them. *)

From stdpp Require Import base list gmap strings fin_maps fin_map_dom sets.
From Stdlib Require Import ZArith Lia.
From S2P Require Import Prelude CString Bytes Spinlock Kalloc Vm.
Open Scope Z_scope.

(** The part of an address space that pgdir's tables cover: 510 entries, the last
    two hold backpointers. *)
Definition UTOP : Z := 510 * 2 ^ 21.
Definition NPGDIR : Z := 510.

(** Word [i] of the page at [pg]. *)
Definition word (P : gmap Z (list Z)) (pg i : Z) : Z :=
  match P !! pg with Some l => get_le l (Z.to_nat (8 * i)) 8 | None => 0 end.

Definition pte_val (m : option (Z * Z)) : Z :=
  match m with Some (f, fl) => Z.lor (v2p f) fl | None => 0 end.

Lemma pgsize_Z : Z.of_nat pgsize = 4096.
Proof. done. Qed.

Lemma pgsize_link : (8 + (pgsize - 8))%nat = pgsize.
Proof. done. Qed.

Opaque pgsize.

Section space.
Context (kend : Z).

(** The allocator's free pages are [l], no page is both free and in use. *)
Record mem_ok (s : memory) (l : list Z) : Prop := {
  mo_free : free_pages kend (km s) l;
  mo_fresh : forall a, a ∈ l -> pages s !! a = None;
  mo_size : forall a p, pages s !! a = Some p -> length p = pgsize;
}.

Record aspace (P : gmap Z (list Z)) (pgdir : Z) (T : gmap Z Z) (M : gmap Z (Z * Z)) : Prop := {
  as_dir : page_ok kend pgdir /\ is_Some (P !! pgdir);
  as_pde : forall i, 0 <= i < NPGDIR ->
    word P pgdir i = match T !! i with Some t => Z.lor (v2p t) 7 | None => 0 end;
  as_tab : forall i t, T !! i = Some t ->
    0 <= i < NPGDIR /\ page_ok kend t /\ is_Some (P !! t) /\ t <> pgdir;
  as_tab_inj : forall i j t, T !! i = Some t -> T !! j = Some t -> i = j;
  as_pte : forall i t j, T !! i = Some t -> 0 <= j < 512 ->
    word P t j = pte_val (M !! (512 * i + j));
  as_map : forall v f fl, M !! v = Some (f, fl) ->
    is_Some (T !! (v / 512)) /\ page_ok kend f /\ is_Some (P !! f) /\ f <> pgdir /\
    (forall i, T !! i <> Some f) /\ 0 <= fl < 4096 /\ Z.odd fl = true;
  as_map_inj : forall v w f fl fl', M !! v = Some (f, fl) -> M !! w = Some (f, fl') -> v = w;
}.

(** Memory other than the page directory and the tables is unchanged. *)
Definition keeps (pgdir : Z) (T : gmap Z Z) (P P' : gmap Z (list Z)) : Prop :=
  forall a p, P !! a = Some p -> a <> pgdir -> (forall i, T !! i <> Some a) -> P' !! a = Some p.

(** The directory indices of [n] pages from page [v], and how many of their tables
    are still to be allocated. *)
Definition dirs (v : Z) (n : nat) : gset Z :=
  list_to_set (map (fun k => (v + Z.of_nat k) / 512) (seq 0 n)).
Definition need (T : gmap Z Z) (v : Z) (n : nat) : nat := size (dirs v n ∖ dom T).

(** [n] consecutive pages from [v] mapped to consecutive frames from [f]. *)
Fixpoint map_pages (M : gmap Z (Z * Z)) (v f fl : Z) (n : nat) : gmap Z (Z * Z) :=
  match n with
  | O => M
  | S n' => map_pages (<[v := (f, fl)]> M) (v + 1) (f + PGSIZE) fl n'
  end.

(** ** Entries *)

Lemma page_ok_range a : page_ok kend a ->
  a mod 4096 = 0 /\ 0 < a < 2 ^ 64 - 4096 /\ KERNBASE <= a /\ v2p a = a - KERNBASE /\
  0 <= v2p a < PHYSTOP.
Proof.
  intros (Ha & _ & Hp & Hr). unfold PGSIZE in Ha.
  assert (KERNBASE <= a).
  { destruct (Z.le_gt_cases KERNBASE a); [done|]. exfalso. unfold v2p, u64 in Hp.
    rewrite <-(Z.mod_add _ 1), Z.mod_small in Hp by (unfold KERNBASE in *; lia).
    unfold KERNBASE, PHYSTOP in *. lia. }
  assert (Hv : v2p a = a - KERNBASE).
  { apply u64_small. unfold KERNBASE in *. lia. }
  rewrite Hv in *. unfold KERNBASE, PHYSTOP in *. split_and!; lia.
Qed.

Lemma page_ok_mod a : page_ok kend a -> a mod 4096 = 0.
Proof. by intros [? _]. Qed.

Lemma p2v_v2p a : page_ok kend a -> p2v (v2p a) = a.
Proof.
  intros Ha. apply page_ok_range in Ha as (_ & Hr & Hk & -> & _).
  unfold p2v. rewrite u64_small; unfold KERNBASE in *; lia.
Qed.

Lemma page_ok_phys a : page_ok kend a -> v2p a mod 4096 = 0 /\ 0 <= v2p a < 2 ^ 63.
Proof.
  intros Ha. apply page_ok_range in Ha as (H1 & _ & _ & Hv & H2). rewrite Hv in *.
  unfold PHYSTOP, KERNBASE in *. split; [|lia]. lia_dm.
Qed.

Lemma lor_page a x : a mod 4096 = 0 -> 0 <= x < 4096 -> Z.lor a x = a + x.
Proof.
  intros Ha Hx. assert (Hl : Z.land a x = 0).
  { apply Z.bits_inj'. intros n Hn. rewrite Z.land_spec, Z.bits_0.
    destruct (Z.le_gt_cases 12 n).
    - rewrite (Z.bits_above_log2 x n), andb_false_r; [done|lia|].
      destruct (decide (x = 0)) as [->|]; [simpl; lia|].
      apply Z.log2_lt_pow2; [lia|]. pose proof (Z.pow_le_mono_r 2 12 n). lia.
    - replace a with (Z.shiftl (a / 4096) 12); [by rewrite Z.shiftl_spec_low|].
      rewrite Z.shiftl_mul_pow2 by lia. change (2 ^ 12) with 4096. lia_dm. }
  pose proof (Z.add_lor_land a x). lia.
Qed.

Lemma PTE_ADDR_lor a x : a mod 4096 = 0 -> 0 <= x < 4096 -> PTE_ADDR (Z.lor a x) = a.
Proof.
  intros Ha Hx. unfold PTE_ADDR. change 4095 with (PGSIZE - 1).
  rewrite ldiff_page, lor_page by done. unfold PGSIZE. lia_dm.
Qed.

Lemma PTE_FLAGS_lor a x : a mod 4096 = 0 -> 0 <= x < 4096 -> PTE_FLAGS (Z.lor a x) = x.
Proof.
  intros Ha Hx. unfold PTE_FLAGS. change 4095 with (Z.ones 12).
  rewrite Z.land_ones, lor_page by (done || lia). change (2 ^ 12) with 4096. lia_dm.
Qed.

Lemma has_odd e : has e PTE_P = Z.odd e.
Proof.
  unfold has, PTE_P. change 1 with (Z.ones 1). rewrite Z.land_ones by lia.
  change (2 ^ 1) with 2. rewrite Zmod_odd. by destruct (Z.odd e).
Qed.

Lemma odd_lor a b : Z.odd (Z.lor a b) = (Z.odd a || Z.odd b)%bool.
Proof. by rewrite <-!Z.bit0_odd, Z.lor_spec. Qed.

Lemma has_low a x m : a mod 4096 = 0 -> 0 <= m < 4096 -> has (Z.lor a x) m = has x m.
Proof.
  intros Ha Hm. unfold has. rewrite Z.land_lor_distr_l.
  replace (Z.land a m) with 0; [by rewrite Z.lor_0_l|]. symmetry.
  pose proof (Z.add_lor_land a m) as Hadd. rewrite (lor_page a m) in Hadd by done. lia.
Qed.

Lemma page_even a : a mod 4096 = 0 -> Z.odd a = false.
Proof.
  intros Ha. replace a with (2 * (a / 4096 * 2048)) by lia_dm. by rewrite Z.odd_mul.
Qed.

Lemma lor_flags_range x y : 0 <= x < 4096 -> 0 <= y < 4096 -> 0 <= Z.lor x y < 4096.
Proof.
  intros Hx Hy. split; [apply Z.lor_nonneg; lia|].
  destruct (decide (Z.lor x y = 0)) as [->|]; [lia|].
  apply (Z.log2_lt_cancel _ 4096). rewrite Z.log2_lor by lia. change (Z.log2 4096) with 12.
  pose proof (Z.log2_le_mono x 4095). pose proof (Z.log2_le_mono y 4095).
  change (Z.log2 4095) with 11 in *. lia.
Qed.

Lemma PDX_vpn va : 0 <= va < 2 ^ 30 -> PDX va = va / 2 ^ 21.
Proof.
  intros Hva. unfold PDX, PXMASK. rewrite u64_small by lia. change 511 with (Z.ones 9).
  rewrite Z.land_ones, Z.shiftr_div_pow2 by lia. apply Z.mod_small. lia_dm.
Qed.

Lemma PTX_vpn va : 0 <= va < 2 ^ 30 -> PTX va = (va / 4096) mod 512.
Proof.
  intros Hva. unfold PTX, PXMASK. rewrite u64_small by lia. change 511 with (Z.ones 9).
  by rewrite Z.land_ones, Z.shiftr_div_pow2 by lia.
Qed.

(** The entry of page [v] is entry [v mod 512] of table [v / 512]. *)
Lemma vpn_split va : 0 <= va < 2 ^ 30 ->
  PDX va = va / 4096 / 512 /\ PTX va = (va / 4096) mod 512 /\
  512 * PDX va + PTX va = va / 4096 /\ 0 <= PTX va < 512.
Proof.
  intros Hva. rewrite PDX_vpn, PTX_vpn by done. change (2 ^ 21) with 2097152.
  split_and!; lia_dm.
Qed.

(** ** Words and pages *)

Lemma page_of_word pg i : pg mod 4096 = 0 -> 0 <= i < 512 ->
  page_of (pg + 8 * i) = pg /\ page_off (pg + 8 * i) = Z.to_nat (8 * i).
Proof.
  intros Hp Hi. unfold page_of, page_off, PGSIZE.
  assert ((pg + 8 * i) mod 4096 = 8 * i) as -> by lia_dm. split; [lia|done].
Qed.

Lemma page_of_page pg : pg mod 4096 = 0 -> page_of pg = pg /\ page_off pg = 0%nat.
Proof. intros Hp. unfold page_of, page_off, PGSIZE. rewrite Hp. split; [lia|done]. Qed.

Lemma load64_wp s pg i Q : pg mod 4096 = 0 -> 0 <= i < 512 -> is_Some (pages s !! pg) ->
  Q (word (pages s) pg i) s [] -> wp (load64 (pg + 8 * i)) s Q.
Proof.
  intros Hp Hi [p Hs] HQ. unfold load64, with_page. wp_steps.
  destruct (page_of_word pg i Hp Hi) as [-> ->]. rewrite Hs. wp_steps.
  unfold word in HQ. by rewrite Hs in HQ.
Qed.

Lemma store64_wp s pg i v p Q : pg mod 4096 = 0 -> 0 <= i < 512 -> pages s !! pg = Some p ->
  Q tt (set_pages (<[pg := put_le p (Z.to_nat (8 * i)) 8 v]> (pages s)) s) [] ->
  wp (store64 (pg + 8 * i) v) s Q.
Proof.
  intros Hp Hi Hs HQ. unfold store64, with_page. wp_steps.
  destruct (page_of_word pg i Hp Hi) as [Hof ->]. rewrite Hof, Hs. unfold put_page. wp_steps.
  by rewrite Hof.
Qed.

Lemma word_other P pg pg' l i : pg' <> pg -> word (<[pg' := l]> P) pg i = word P pg i.
Proof. intros H. unfold word. by rewrite lookup_insert_ne. Qed.

Lemma word_put P pg p i v j : P !! pg = Some p -> length p = pgsize ->
  0 <= i < 512 -> 0 <= j < 512 ->
  word (<[pg := put_le p (Z.to_nat (8 * i)) 8 v]> P) pg j =
  if decide (i = j) then u64 v else word P pg j.
Proof.
  intros Hp Hl Hi Hj. pose proof pgsize_Z. unfold word. rewrite lookup_insert_eq, Hp.
  case_decide as Hij.
  - subst j. rewrite get_put_same by lia. done.
  - apply get_put_other; lia.
Qed.

Lemma word_zero P pg i : 0 <= i < 512 -> P !! pg = Some (replicate pgsize 0) -> word P pg i = 0.
Proof.
  intros Hi Hp. pose proof pgsize_Z. unfold word. rewrite Hp. unfold get_le, slice.
  rewrite drop_replicate, take_replicate.
  by induction (Nat.min _ _) as [|n IH]; simpl; [|rewrite IH].
Qed.

Lemma memset_wp s pg p c Q : pg mod 4096 = 0 -> pages s !! pg = Some p -> length p = pgsize ->
  Q tt (set_pages (<[pg := replicate pgsize (u8 c)]> (pages s)) s) [] ->
  wp (memset pg c pgsize) s Q.
Proof.
  intros Hp Hs Hl HQ. unfold memset, with_page. wp_steps.
  destruct (page_of_page pg Hp) as [Hof ->]. rewrite Hof, Hs.
  rewrite memset_spec by lia. unfold put_page. wp_steps. rewrite Hof.
  replace (splice p 0 (replicate pgsize (u8 c))) with (replicate pgsize (u8 c)); [done|].
  unfold splice. rewrite take_0, (drop_ge p) by (rewrite length_replicate; lia).
  by rewrite app_nil_r.
Qed.
(** ** Allocating and freeing *)

Lemma mem_ok_insert s l a p p' : mem_ok s l -> pages s !! a = Some p -> length p' = pgsize ->
  mem_ok (set_pages (<[a := p']> (pages s)) s) l.
Proof.
  intros [Hf Hn Hl] Ha Hp. split; simpl; [done| |].
  - intros b Hb. rewrite lookup_insert_ne; [by apply Hn|]. intros ->. rewrite Hn in Ha; done.
  - intros b q. destruct (decide (a = b)) as [->|];
      [rewrite lookup_insert_eq; by intros [= <-]|rewrite lookup_insert_ne by done; apply Hl].
Qed.

Lemma kalloc_page_wp s l Q : mem_ok s l ->
  (l = [] -> forall s', mem_ok s' [] -> pages s' = pages s -> kpdpt s' = kpdpt s -> Q 0 s' []) ->
  (forall a l' p s', l = a :: l' -> mem_ok s' l' -> pages s' = <[a := p]> (pages s) ->
     kpdpt s' = kpdpt s -> length p = pgsize -> page_ok kend a -> pages s !! a = None ->
     Q a s' []) ->
  wp kalloc_page s Q.
Proof.
  intros [Hf Hn Hl] H0 H1. unfold kalloc_page. wp_steps. apply (kalloc_wp kend _ l); [done|].
  intros k Hk1 Hk2 Hfp. destruct l as [|a l].
  - wp_steps. by apply H0.
  - pose proof (fp_ok _ _ _ Hf) as Hok. apply Forall_cons in Hok as [Ha _].
    destruct (Z.eqb_spec a 0) as [->|]; [destruct Ha; lia|]. wp_steps. cbn [app].
    pose proof (fp_nodup _ _ _ Hf) as Hnd. apply NoDup_cons in Hnd as [Hal _].
    set (j := le_bytes 8 _ ++ _).
    assert (Hj : length j = pgsize).
    { unfold j. rewrite length_app, length_le_bytes, length_replicate. apply pgsize_link. }
    apply (H1 a l j); try done; [|apply Hn; left].
    split; [done| |]; simpl.
    + intros b Hb. rewrite lookup_insert_ne by (intros ->; done). apply Hn. by right.
    + intros b q. destruct (decide (a = b)) as [->|];
        [rewrite lookup_insert_eq; by intros [= <-]|rewrite lookup_insert_ne by done; apply Hl].
Qed.

Lemma kfree_page_wp s l v Q : mem_ok s l -> page_ok kend v -> is_Some (pages s !! v) ->
  (forall s', mem_ok s' (v :: l) -> pages s' = delete v (pages s) -> kpdpt s' = kpdpt s ->
     Q tt s' []) ->
  wp (kfree_page kend v) s Q.
Proof.
  intros [Hf Hn Hl] Hv [p Hp] HQ. unfold kfree_page. wp_steps.
  assert (Hvl : v ∉ l). { intros Hin. rewrite Hn in Hp; done. }
  apply (kfree_wp kend _ l); [done|done|done|]. intros k Hfp _ _. wp_steps.
  apply HQ; try done. split; [done| |]; simpl.
  - intros b [->|Hb]%elem_of_cons; [apply lookup_delete_eq|].
    rewrite lookup_delete_ne by (intros ->; done). by apply Hn.
  - intros b q. rewrite lookup_delete_Some. intros [_ Hb]. by apply (Hl b).
Qed.

(** ** Frame properties of an address space *)

Lemma aspace_frame P P' pgdir T M : aspace P pgdir T M ->
  P' !! pgdir = P !! pgdir -> (forall i t, T !! i = Some t -> P' !! t = P !! t) ->
  (forall v f fl, M !! v = Some (f, fl) -> is_Some (P' !! f)) -> aspace P' pgdir T M.
Proof.
  intros [H1 H2 H3 H4 H5 H6 H7] Hd Ht Hf. split; try done.
  - by rewrite Hd.
  - intros i Hi. unfold word. rewrite Hd. by apply H2.
  - intros i t Hi. rewrite (Ht i t Hi). by apply H3.
  - intros i t j Hi Hj. unfold word. rewrite (Ht i t Hi). by apply H5.
  - intros v f fl Hv. destruct (H6 v f fl Hv) as (? & ? & _ & ?). split_and!; try tauto.
    by apply (Hf v f fl).
Qed.

(** A page that is in use but no part of the address space. *)
Definition outside (pgdir : Z) (T : gmap Z Z) (M : gmap Z (Z * Z)) (a : Z) : Prop :=
  a <> pgdir /\ (forall i, T !! i <> Some a) /\ (forall v fl, M !! v <> Some (a, fl)).

Lemma fresh_outside P pgdir T M a : aspace P pgdir T M -> P !! a = None -> outside pgdir T M a.
Proof.
  intros H Ha. split_and!.
  - intros ->. destruct (as_dir _ _ _ _ H) as [_ [? ?]]. congruence.
  - intros i Hi. destruct (as_tab _ _ _ _ H i a Hi) as (_ & _ & [? ?] & _). congruence.
  - intros v fl Hv. destruct (as_map _ _ _ _ H v a fl Hv) as (_ & _ & [? ?] & _). congruence.
Qed.

Lemma aspace_insert_outside P pgdir T M a p :
  aspace P pgdir T M -> outside pgdir T M a -> aspace (<[a := p]> P) pgdir T M.
Proof.
  intros H (H1 & H2 & H3). apply (aspace_frame P); [done| | |].
  - by rewrite lookup_insert_ne.
  - intros i t Hi. rewrite lookup_insert_ne; [done|]. intros ->. by apply (H2 i).
  - intros v f fl Hv. rewrite lookup_insert_is_Some'. right. by destruct (as_map _ _ _ _ H _ _ _ Hv) as (_ & _ & ? & _).
Qed.

(** Writing a frame's contents leaves the mapping alone. *)
Lemma aspace_insert_frame P pgdir T M v f fl p :
  aspace P pgdir T M -> M !! v = Some (f, fl) -> aspace (<[f := p]> P) pgdir T M.
Proof.
  intros H Hv. destruct (as_map _ _ _ _ H v f fl Hv) as (_ & _ & _ & Hd & Ht & _).
  apply (aspace_frame P); [done| | |].
  - by rewrite lookup_insert_ne.
  - intros i t Hi. rewrite lookup_insert_ne; [done|]. intros ->. by apply (Ht i).
  - intros w g gl Hw. rewrite lookup_insert_is_Some'. right. by destruct (as_map _ _ _ _ H _ _ _ Hw) as (_ & _ & ? & _).
Qed.

Lemma keeps_refl pgdir T P : keeps pgdir T P P.
Proof. by intros a p. Qed.

Lemma keeps_trans pgdir T T' P P' P'' :
  keeps pgdir T P P' -> keeps pgdir T' P' P'' ->
  (forall i a, T' !! i = Some a -> (exists j, T !! j = Some a) \/ P !! a = None) ->
  keeps pgdir T P P''.
Proof.
  intros H1 H2 HT a p Ha Hd Ht. apply H2; [by apply H1|done|].
  intros i Hi. destruct (HT i a Hi) as [[j Hj]|Hn]; [by apply (Ht j)|congruence].
Qed.
(** ** Changing an entry *)

Lemma pte_val_u64 m :
  (forall f fl, m = Some (f, fl) -> page_ok kend f /\ 0 <= fl < 4096) -> u64 (pte_val m) = pte_val m.
Proof.
  intros Hm. apply u64_small. destruct m as [[f fl]|]; simpl; [|lia].
  destruct (Hm f fl eq_refl) as [Hf Hfl]. apply page_ok_phys in Hf as [H1 H2].
  rewrite lor_page by done. lia.
Qed.

(** A new, empty table for directory entry [i]. *)
Lemma aspace_add_table P pgdir T M i t d :
  aspace P pgdir T M -> 0 <= i < NPGDIR -> T !! i = None -> page_ok kend t -> P !! t = None ->
  P !! pgdir = Some d -> length d = pgsize ->
  aspace (<[pgdir := put_le d (Z.to_nat (8 * i)) 8 (Z.lor (v2p t) 7)]>
            (<[t := replicate pgsize 0]> P)) pgdir (<[i := t]> T) M.
Proof.
  intros H Hi HT Ht Hn Hd Hl. pose proof (fresh_outside _ _ _ _ _ H Hn) as (Htd & HtT & HtM).
  assert (Hd' : (<[t := replicate pgsize 0]> P) !! pgdir = Some d).
  { by rewrite lookup_insert_ne. }
  assert (Hsome : forall a, is_Some (P !! a) ->
    is_Some ((<[pgdir := put_le d (Z.to_nat (8 * i)) 8 (Z.lor (v2p t) 7)]>
            (<[t := replicate pgsize 0]> P)) !! a)).
  { intros a Ha. rewrite !lookup_insert_is_Some'. tauto. }
  unfold NPGDIR in *. split.
  - destruct (as_dir _ _ _ _ H). split; [done|]. by apply Hsome.
  - intros j Hj. rewrite word_put; try done; [|unfold NPGDIR in *; lia..]. case_decide as E.
    + subst j. rewrite lookup_insert_eq. apply (pte_val_u64 (Some (t, 7))).
      intros ? ? [= <- <-]. split; [done|lia].
    + rewrite lookup_insert_ne by done. rewrite word_other by done. by apply (as_pde _ _ _ _ H).
  - intros j u. destruct (decide (i = j)) as [->|].
    + rewrite lookup_insert_eq. intros [= <-]. split_and!; try done; try (unfold NPGDIR; lia).
      rewrite !lookup_insert_is_Some'. tauto.
    + rewrite lookup_insert_ne by done. intros Hu. apply (as_tab _ _ _ _ H) in Hu as (? & ? & ? & ?).
      split_and!; try tauto. by apply Hsome.
  - intros j k u. rewrite !lookup_insert_Some. intros [[<- <-]|[? Hj]] [[<- Hu]|[? Hk]]; try done.
    + by destruct (HtT k).
    + subst. by destruct (HtT j).
    + by apply (as_tab_inj _ _ _ _ H j k u).
  - intros j u k. rewrite lookup_insert_Some. intros [[<- <-]|[Hne Hu]] Hk.
    + rewrite word_other by done. rewrite word_zero by (try done; apply lookup_insert_eq).
      destruct (M !! (512 * i + k)) as [[f fl]|] eqn:EM; [|done].
      apply (as_map _ _ _ _ H) in EM as [[x Hx] _].
      replace ((512 * i + k) / 512) with i in Hx by lia_dm. congruence.
    + pose proof (as_tab _ _ _ _ H j u Hu) as (_ & _ & _ & Hud).
      rewrite !word_other; [by apply (as_pte _ _ _ _ H)| |done].
      intros ->. by apply (HtT j).
  - intros v f fl Hv. pose proof (as_map _ _ _ _ H v f fl Hv) as (Hx & Hf & Hs & Hfd & HfT & Hfl).
    split_and!; try tauto.
    + rewrite lookup_insert_is_Some'. tauto.
    + by apply Hsome.
    + intros j. rewrite lookup_insert_Some. intros [[_ ->]|[_ Hj]]; [by apply (HtM v fl)|by apply (HfT j)].
  - apply (as_map_inj _ _ _ _ H).
Qed.

(** The entry of page [512 * i + j] becomes [m]. *)
Lemma aspace_set_pte P pgdir T M M' i j t tab m :
  aspace P pgdir T M -> T !! i = Some t -> 0 <= j < 512 -> P !! t = Some tab -> length tab = pgsize ->
  M' !! (512 * i + j) = m -> (forall w, w <> 512 * i + j -> M' !! w = M !! w) ->
  (forall f fl, m = Some (f, fl) -> page_ok kend f /\ is_Some (P !! f) /\ f <> pgdir /\
     (forall k, T !! k <> Some f) /\ (forall w gl, w <> 512 * i + j -> M !! w <> Some (f, gl)) /\
     0 <= fl < 4096 /\ Z.odd fl = true) ->
  aspace (<[t := put_le tab (Z.to_nat (8 * j)) 8 (pte_val m)]> P) pgdir T M'.
Proof.
  intros H HT Hj Hp Hl Hm Hother Hnew.
  pose proof (as_tab _ _ _ _ H i t HT) as (Hi & Htok & _ & Htd).
  assert (Hsome : forall a, is_Some (P !! a) ->
    is_Some ((<[t := put_le tab (Z.to_nat (8 * j)) 8 (pte_val m)]> P) !! a)).
  { intros a Ha. rewrite lookup_insert_is_Some'. tauto. }
  split.
  - destruct (as_dir _ _ _ _ H). split; [done|]. by apply Hsome.
  - intros k Hk. rewrite word_other by done. by apply (as_pde _ _ _ _ H).
  - intros k u Hu. apply (as_tab _ _ _ _ H) in Hu as (? & ? & ? & ?). split_and!; try tauto.
    by apply Hsome.
  - apply (as_tab_inj _ _ _ _ H).
  - intros k u x Hu Hx. destruct (decide (u = t)) as [->|Hne].
    + assert (k = i) as -> by (by apply (as_tab_inj _ _ _ _ H k i t)).
      rewrite word_put; try done. case_decide as E.
      * subst x. rewrite Hm. apply pte_val_u64. intros f fl Ef. apply Hnew in Ef. tauto.
      * rewrite Hother by lia. by apply (as_pte _ _ _ _ H).
    + rewrite word_other by done. rewrite Hother; [by apply (as_pte _ _ _ _ H)|].
      intros E. assert (k = i) by lia. congruence.
  - intros v f fl Hv. destruct (decide (v = 512 * i + j)) as [->|Hne].
    + rewrite Hm in Hv. destruct (Hnew f fl Hv) as (? & ? & ? & ? & _ & ?).
      split_and!; try tauto; [|by apply Hsome]. exists t.
      by replace ((512 * i + j) / 512) with i by lia_dm.
    + rewrite Hother in Hv by done. apply (as_map _ _ _ _ H) in Hv as (? & ? & ? & ?).
      split_and!; try tauto. by apply Hsome.
  - intros v w f fl fl' Hv Hw.
    destruct (decide (v = 512 * i + j)) as [->|Hv'], (decide (w = 512 * i + j)) as [->|Hw'];
      try done.
    + rewrite Hm in Hv. rewrite Hother in Hw by done. destruct (Hnew f fl Hv) as (_ & _ & _ & _ & Hno & _). by destruct (Hno w fl').
    + rewrite Hm in Hw. rewrite Hother in Hv by done. destruct (Hnew f fl' Hw) as (_ & _ & _ & _ & Hno & _). by destruct (Hno v fl).
    + rewrite Hother in Hv, Hw by done. by apply (as_map_inj _ _ _ _ H v w f fl fl').
Qed.
(** ** walkpgdir *)

Lemma UTOP_small va : 0 <= va < UTOP -> 0 <= va < 2 ^ 30 /\ 0 <= PDX va < NPGDIR.
Proof.
  unfold UTOP, NPGDIR. intros Hva. change (510 * 2 ^ 21) with 1069547520 in Hva.
  rewrite PDX_vpn by lia. change (2 ^ 21) with 2097152. split; [lia|lia_dm].
Qed.

Lemma PDX_dir va : 0 <= va < UTOP -> PDX va = va / 4096 / 512.
Proof. intros Hva. apply UTOP_small in Hva as [Hva _]. by destruct (vpn_split va Hva). Qed.

(** The address of a word of a page does not wrap around. *)
Lemma u64_word pg i : page_ok kend pg -> 0 <= i < 512 -> u64 (pg + 8 * i) = pg + 8 * i.
Proof. intros Hp Hi. apply page_ok_range in Hp. apply u64_small. lia. Qed.

Lemma pde_wp s pgdir T M va Q : aspace (pages s) pgdir T M -> 0 <= va < UTOP ->
  Q match T !! PDX va with Some t => Z.lor (v2p t) 7 | None => 0 end s [] ->
  wp (load64 (u64 (pgdir + 8 * PDX va))) s Q.
Proof.
  intros H Hva HQ. apply UTOP_small in Hva as [_ Hi]. destruct (as_dir _ _ _ _ H) as [Hd Hs].
  unfold NPGDIR in *. rewrite u64_word by (done || lia). apply load64_wp; [|lia|done|].
  - by apply page_ok_mod.
  - rewrite (as_pde _ _ _ _ H) by (unfold NPGDIR; lia). done.
Qed.

Lemma walk_found s pgdir T M va alloc t Q : aspace (pages s) pgdir T M -> 0 <= va < UTOP ->
  T !! PDX va = Some t -> Q (t + 8 * PTX va) s [] -> wp (walkpgdir pgdir va alloc) s Q.
Proof.
  intros H Hva HT HQ. unfold walkpgdir. cbv zeta. apply wp_bind. eapply pde_wp; [done|done|].
  destruct (as_tab _ _ _ _ H _ _ HT) as (_ & Ht & _). pose proof (page_ok_phys t Ht) as [Hm _].
  apply UTOP_small in Hva as [Hva _]. destruct (vpn_split va Hva) as (_ & _ & _ & Hx).
  rewrite HT, has_odd, odd_lor, orb_true_r. wp_steps.
  rewrite PTE_ADDR_lor, p2v_v2p, u64_word by (done || lia). done.
Qed.

Lemma walk_missing s pgdir T M va Q : aspace (pages s) pgdir T M -> 0 <= va < UTOP ->
  T !! PDX va = None -> Q 0 s [] -> wp (walkpgdir pgdir va false) s Q.
Proof.
  intros H Hva HT HQ. unfold walkpgdir. cbv zeta. apply wp_bind. eapply pde_wp; [done|done|].
  rewrite HT. cbn. wp_steps. done.
Qed.

(** A missing table is allocated, zeroed and entered in the directory. *)
Lemma walk_adds s l pgdir T M va t l' Q : mem_ok s l -> aspace (pages s) pgdir T M ->
  0 <= va < UTOP -> T !! PDX va = None -> l = t :: l' ->
  (forall s', mem_ok s' l' -> aspace (pages s') pgdir (<[PDX va := t]> T) M ->
     keeps pgdir T (pages s) (pages s') -> page_ok kend t -> pages s !! t = None ->
     kpdpt s' = kpdpt s -> Q (t + 8 * PTX va) s' []) ->
  wp (walkpgdir pgdir va true) s Q.
Proof.
  intros Hmo H Hva HT Hl HQ. unfold walkpgdir. cbv zeta. apply wp_bind.
  eapply pde_wp; [done|done|]. rewrite HT. cbn [has negb]. change (has 0 PTE_P) with false.
  cbv iota. wp_steps. apply (kalloc_page_wp s l); [done|by rewrite Hl|].
  intros a l1 p s1 Hl1 Hmo1 Hp1 Hk1 Hlen Ha Hn. rewrite Hl in Hl1. injection Hl1 as <- <-.
  pose proof (page_ok_range t Ha) as (Hal & Hpos & _).
  destruct (Z.eqb_spec t 0) as [->|]; [lia|]. wp_steps.
  assert (Ht1 : pages s1 !! t = Some p) by (rewrite Hp1; apply lookup_insert_eq).
  apply (memset_wp s1 t p); [done|done|done|]. wp_steps. rewrite Hp1, insert_insert_eq.
  pose proof (fresh_outside _ _ _ _ _ H Hn) as (Hne & _).
  destruct (as_dir _ _ _ _ H) as [Hdok [d Hd]].
  pose proof (UTOP_small va Hva) as [Hva30 Hi].
  destruct (vpn_split va Hva30) as (_ & _ & _ & Hx).
  pose proof (mo_size _ _ Hmo _ _ Hd) as Hdl. change (u8 0) with 0.
  rewrite u64_word by (unfold NPGDIR in *; done || lia).
  set (s2 := set_pages (<[t := replicate pgsize 0]> (pages s)) s1).
  assert (Hmo2 : mem_ok s2 l').
  { pose proof (mem_ok_insert s1 l' t p (replicate pgsize 0) Hmo1 Ht1) as Hmo2.
    rewrite Hp1, insert_insert_eq in Hmo2. apply Hmo2, length_replicate. }
  apply (store64_wp s2 pgdir _ _ d);
    [by apply page_ok_mod|unfold NPGDIR in *; lia|simpl; by rewrite lookup_insert_ne|].
  wp_steps. rewrite u64_word by (done || lia). cbn [app].
  rewrite <-!Z.lor_assoc. change (Z.lor PTE_P (Z.lor PTE_W PTE_U)) with 7.
  apply HQ; try done.
  - apply (mem_ok_insert s2 l' pgdir d); [done|simpl; by rewrite lookup_insert_ne|].
    rewrite length_put_le; [done|]. pose proof pgsize_Z. unfold NPGDIR in *. lia.
  - cbn [pages set_pages]. by apply aspace_add_table.
  - intros b q Hb Hbd _. unfold s2. cbn [pages set_pages]. rewrite lookup_insert_ne by done.
    rewrite lookup_insert_ne; [done|]. congruence.
Qed.

Lemma walk_no_memory s pgdir T M va Q : mem_ok s [] -> aspace (pages s) pgdir T M ->
  0 <= va < UTOP -> T !! PDX va = None ->
  (forall s', mem_ok s' [] -> pages s' = pages s -> kpdpt s' = kpdpt s -> Q 0 s' []) ->
  wp (walkpgdir pgdir va true) s Q.
Proof.
  intros Hmo H Hva HT HQ. unfold walkpgdir. cbv zeta. apply wp_bind.
  eapply pde_wp; [done|done|]. rewrite HT. change (has 0 PTE_P) with false. cbn [negb].
  wp_steps. apply (kalloc_page_wp s []); [done| |done].
  intros _ s' ? ? ?. cbn. wp_steps. by apply HQ.
Qed.

(** Reading the entry of a page whose table exists. *)
Lemma pte_wp s pgdir T M va t Q : aspace (pages s) pgdir T M -> 0 <= va < UTOP ->
  T !! PDX va = Some t -> Q (pte_val (M !! (va / 4096))) s [] -> wp (load64 (t + 8 * PTX va)) s Q.
Proof.
  intros H Hva HT HQ. destruct (as_tab _ _ _ _ H _ _ HT) as (_ & Ht & Hs & _).
  apply UTOP_small in Hva as [Hva _]. destruct (vpn_split va Hva) as (_ & _ & Hv & Hx).
  apply load64_wp; [by apply page_ok_mod|lia|done|].
  rewrite (as_pte _ _ _ _ H _ _ _ HT Hx), Hv. done.
Qed.

(** Writing it. *)
Lemma set_pte_wp s l pgdir T M M' va t m v Q : mem_ok s l -> aspace (pages s) pgdir T M ->
  0 <= va < UTOP -> T !! PDX va = Some t -> v = pte_val m ->
  M' !! (va / 4096) = m -> (forall w, w <> va / 4096 -> M' !! w = M !! w) ->
  (forall f fl, m = Some (f, fl) -> page_ok kend f /\ is_Some (pages s !! f) /\ f <> pgdir /\
     (forall k, T !! k <> Some f) /\ (forall w gl, w <> va / 4096 -> M !! w <> Some (f, gl)) /\
     0 <= fl < 4096 /\ Z.odd fl = true) ->
  (forall s', mem_ok s' l -> aspace (pages s') pgdir T M' -> keeps pgdir T (pages s) (pages s') ->
     (forall a, is_Some (pages s' !! a) <-> is_Some (pages s !! a)) ->
     kpdpt s' = kpdpt s -> Q tt s' []) ->
  wp (store64 (t + 8 * PTX va) v) s Q.
Proof.
  intros Hmo H Hva HT -> Hm Hoth Hnew HQ.
  destruct (as_tab _ _ _ _ H _ _ HT) as (_ & Ht & [tab Htab] & _).
  apply UTOP_small in Hva as [Hva _]. destruct (vpn_split va Hva) as (_ & _ & Hv & Hx).
  rewrite <-Hv in *. pose proof (mo_size _ _ Hmo _ _ Htab) as Hl.
  apply (store64_wp s t _ _ tab); [by apply page_ok_mod|lia|done|].
  apply HQ; simpl; try done.
  - apply (mem_ok_insert s l t tab); [done|done|].
    rewrite length_put_le; [done|]. pose proof pgsize_Z. lia.
  - by apply (aspace_set_pte _ _ _ M _ (PDX va)).
  - intros b q Hb _ Hbt. rewrite lookup_insert_ne; [done|]. intros ->. by apply (Hbt (PDX va)).
  - intros a. rewrite lookup_insert_is_Some'. split; [|tauto]. intros [<-|?]; [by exists tab|done].
Qed.
(** ** Tables still needed *)

Lemma dirs_S v n : dirs v (S n) = {[ v / 512 ]} ∪ dirs (v + 1) n.
Proof.
  unfold dirs. cbn [seq map list_to_set]. f_equal; [by rewrite Z.add_0_r|]. f_equal.
  rewrite <-seq_shift, map_map. apply map_ext. intros k. f_equal. lia.
Qed.

Lemma need_S_found T v n t : T !! (v / 512) = Some t -> (need T (v + 1) n <= need T v (S n))%nat.
Proof. intros Ht. unfold need. apply subseteq_size. rewrite dirs_S. set_solver. Qed.

Lemma need_S_added T v n t : T !! (v / 512) = None ->
  (S (need (<[(v / 512)%Z := t]> T) (v + 1) n) <= need T v (S n))%nat.
Proof.
  intros Ht. unfold need. rewrite dirs_S, dom_insert_L.
  assert (Hn : v / 512 ∉ dom T) by (by apply not_elem_of_dom).
  set (X := dirs (v + 1) n ∖ ({[ v / 512 ]} ∪ dom T)).
  assert (size ({[ v / 512 ]} ∪ X : gset Z) = S (size X)) as <-.
  { rewrite size_union by (unfold X; set_solver). by rewrite size_singleton. }
  apply subseteq_size. unfold X. set_solver.
Qed.

Lemma need_S_pos T v n : T !! (v / 512) = None -> (0 < need T v (S n))%nat.
Proof. intros Ht. pose proof (need_S_added T v n 0 Ht). lia. Qed.

Lemma need_first T v n : (need T v 1 <= need T v (S n))%nat.
Proof. unfold need. apply subseteq_size. rewrite !dirs_S. set_solver. Qed.

Lemma need_one T v : (need T v 1 <= 1)%nat.
Proof.
  unfold need. rewrite dirs_S. change (dirs (v + 1) 0) with (∅ : gset Z).
  transitivity (size ({[ v / 512 ]} : gset Z)); [apply subseteq_size; set_solver|].
  by rewrite size_singleton.
Qed.

(** ** mappages *)

(** What mapping [n] pages from [v] to the frames from [f] may do: [k] pages are
    mapped, all of them unless memory ran out; new tables [tl] come off the free
    list. *)
Record mapped (pgdir v f fl : Z) (n : nat) (s : memory) (l : list Z) T M
    (r : Z) (s' : memory) (l' : list Z) (T' : gmap Z Z) (k : nat) (tl : list Z) : Prop := {
  mp_res : (r = 0 /\ k = n) \/ (r = -1 /\ (k < n)%nat /\ l' = []);
  mp_mem : mem_ok s' l';
  mp_space : aspace (pages s') pgdir T' (map_pages M v f fl k);
  mp_keeps : keeps pgdir T (pages s) (pages s');
  mp_list : l = tl ++ l';
  mp_sub : T ⊆ T';
  mp_new : forall i a, T' !! i = Some a -> T !! i = Some a \/ a ∈ tl;
  mp_need : (length tl <= need T v n)%nat;
  mp_more : r = 0 -> forall m,
    (length tl + need T' (v + Z.of_nat n) m <= need T v (n + m))%nat;
  mp_enough : (need T v n <= length l)%nat -> r = 0;
  mp_kpdpt : kpdpt s' = kpdpt s;
}.

(** The frames to map: valid pages in use that belong to nothing of the address space. *)
Definition frames_ok (P : gmap Z (list Z)) pgdir T M (f : Z) (n : nat) : Prop :=
  forall k, (k < n)%nat -> let g := f + Z.of_nat k * PGSIZE in
    page_ok kend g /\ is_Some (P !! g) /\ outside pgdir T M g.

Lemma frames_ok_first P pgdir T M f n : frames_ok P pgdir T M f (S n) ->
  page_ok kend f /\ is_Some (P !! f) /\ outside pgdir T M f.
Proof. intros H. specialize (H 0%nat ltac:(lia)). cbv zeta in H. by rewrite Z.mul_0_l, Z.add_0_r in H. Qed.

Lemma frames_ok_step P P' pgdir T T' M f fl v n :
  frames_ok P pgdir T M f (S n) -> keeps pgdir T P P' ->
  (forall i a, T' !! i = Some a -> T !! i = Some a \/ P !! a = None) ->
  frames_ok P' pgdir T' (<[v := (f, fl)]> M) (f + PGSIZE) n.
Proof.
  intros Hf Hk HT k Hlt. specialize (Hf (S k) ltac:(lia)). cbv zeta in *.
  replace (f + PGSIZE + Z.of_nat k * PGSIZE) with (f + Z.of_nat (S k) * PGSIZE) by lia.
  destruct Hf as (Hok & [p Hp] & H1 & H2 & H3).
  split_and!; [done|exists p; by apply Hk|split_and!; [done| |]].
  - intros i Hi. destruct (HT i _ Hi) as [?|?]; [by apply (H2 i)|congruence].
  - intros w gl. rewrite lookup_insert_Some. intros [[_ [= E _]]|[_ Hw]]; [|by apply (H3 w gl)].
    unfold PGSIZE in E. lia.
Qed.

(** One page whose table exists. *)
Lemma map_store_wp s l pgdir T M va t f perm Q : mem_ok s l -> aspace (pages s) pgdir T M ->
  0 <= va < UTOP -> T !! PDX va = Some t -> 0 <= perm < 4096 -> M !! (va / 4096) = None ->
  page_ok kend f -> is_Some (pages s !! f) -> outside pgdir T M f ->
  (forall s', mem_ok s' l ->
     aspace (pages s') pgdir T (<[va / 4096 := (f, Z.lor perm PTE_P)]> M) ->
     keeps pgdir T (pages s) (pages s') -> kpdpt s' = kpdpt s -> Q tt s' []) ->
  wp (store64 (t + 8 * PTX va) (Z.lor (Z.lor (v2p f) perm) PTE_P)) s Q.
Proof.
  intros Hmo H Hva HT Hperm HM Hf Hs (Hd & HfT & HfM) HQ.
  apply (set_pte_wp s l pgdir T M (<[va / 4096 := (f, Z.lor perm PTE_P)]> M) va t
           (Some (f, Z.lor perm PTE_P))); try done.
  - simpl. by rewrite Z.lor_assoc.
  - apply lookup_insert_eq.
  - intros w Hw. by rewrite lookup_insert_ne.
  - intros g gl [= <- <-].
    pose proof (lor_flags_range perm PTE_P Hperm ltac:(unfold PTE_P; lia)) as Hr.
    pose proof (odd_lor perm PTE_P) as Ho. rewrite orb_true_r in Ho.
    split_and!; try done; try lia.
  - intros s' H1 H2 H3 _ H5. by apply HQ.
Qed.

Lemma va_step va n : va mod 4096 = 0 -> 0 <= va -> va + 4096 * Z.of_nat (S (S n)) <= UTOP ->
  u64 (va + PGSIZE) = va + PGSIZE /\ (va + PGSIZE) mod 4096 = 0 /\
  (va + PGSIZE) / 4096 = va / 4096 + 1.
Proof.
  intros H1 H2 H3. unfold PGSIZE. change UTOP with 1069547520 in H3.
  rewrite u64_small by lia. split_and!; [done|lia_dm|lia_dm].
Qed.

Lemma v2p_step f : page_ok kend f -> page_ok kend (f + PGSIZE) ->
  u64 (v2p f + PGSIZE) = v2p (f + PGSIZE).
Proof.
  intros Ha Hb. apply page_ok_range in Ha as (_ & _ & _ & -> & Ha).
  apply page_ok_range in Hb as (_ & _ & _ & Hv & Hb). rewrite Hv in *.
  unfold PHYSTOP, PGSIZE, KERNBASE in *. rewrite u64_small; lia.
Qed.

(** How a walk that allocates finds its table: it is there, or it is the first free
    page. *)
Definition table_step (P : gmap Z (list Z)) (T : gmap Z Z) (i : Z) (l l' : list Z)
    (T' : gmap Z Z) (tl : list Z) : Prop :=
  l = tl ++ l' /\
  ((exists t, T !! i = Some t /\ T' = T /\ tl = []) \/
   (exists t, T !! i = None /\ T' = <[i := t]> T /\ tl = [t] /\ P !! t = None)).

Lemma table_step_new P T i l l' T' tl : table_step P T i l l' T' tl ->
  T ⊆ T' /\ (forall j a, T' !! j = Some a -> T !! j = Some a \/ (a ∈ tl /\ P !! a = None)) /\
  is_Some (T' !! i).
Proof.
  intros (_ & [(t & Hi & -> & ->)|(t & Hi & -> & -> & Hn)]); (split; [|split]).
  - done.
  - by left.
  - by exists t.
  - by apply insert_subseteq.
  - intros j a. rewrite lookup_insert_Some. intros [[_ ->]|[_ ?]]; [right|by left].
    split; [left|done].
  - exists t. apply lookup_insert_eq.
Qed.

Lemma table_step_need P T v l l' T' tl n : table_step P T (v / 512) l l' T' tl ->
  (length tl + need T' (v + 1) n <= need T v (S n))%nat.
Proof.
  intros (_ & [(t & Hi & -> & ->)|(t & Hi & -> & -> & Hn)]); simpl.
  - by apply (need_S_found _ _ _ t).
  - by apply need_S_added.
Qed.

(** One turn of the loop, followed by [C]: out of memory, or the page is mapped. *)
Lemma map_turn_wp s l pgdir T M va f perm (C : K memory Z) Q :
  mem_ok s l -> aspace (pages s) pgdir T M -> 0 <= va < UTOP -> 0 <= perm < 4096 ->
  M !! (va / 4096) = None -> page_ok kend f -> is_Some (pages s !! f) -> outside pgdir T M f ->
  (T !! PDX va = None -> l = [] -> forall s', mem_ok s' [] -> pages s' = pages s ->
     kpdpt s' = kpdpt s -> Q (-1) s' []) ->
  (forall s' l' T' tl, table_step (pages s) T (PDX va) l l' T' tl -> mem_ok s' l' ->
     aspace (pages s') pgdir T' (<[va / 4096 := (f, Z.lor perm PTE_P)]> M) ->
     keeps pgdir T (pages s) (pages s') -> kpdpt s' = kpdpt s -> wp C s' Q) ->
  wp (let! pte := walkpgdir pgdir va true in
      if pte =? 0 then kret (-1)
      else
        let! e := load64 pte in
        if has e PTE_P then panic "remap"
        else store64 pte (Z.lor (Z.lor (v2p f) perm) PTE_P) ;;; C) s Q.
Proof.
  intros Hmo H Hva Hperm HM Hf Hfs Hfo Hno Hyes.
  assert (Hmid : forall s1 l1 T1 tl t, table_step (pages s) T (PDX va) l l1 T1 tl ->
    T1 !! PDX va = Some t -> mem_ok s1 l1 -> aspace (pages s1) pgdir T1 M ->
    keeps pgdir T (pages s) (pages s1) -> kpdpt s1 = kpdpt s ->
    wp (if t + 8 * PTX va =? 0 then kret (-1)
        else let! e := load64 (t + 8 * PTX va) in
             if has e PTE_P then panic "remap"
             else store64 (t + 8 * PTX va) (Z.lor (Z.lor (v2p f) perm) PTE_P) ;;; C) s1 Q).
  { intros s1 l1 T1 tl t Hst Ht Hmo1 H1 Hk1 Hkp.
    destruct (as_tab _ _ _ _ H1 _ _ Ht) as (_ & Htok & _). apply page_ok_range in Htok.
    destruct (vpn_split va) as (_ & _ & _ & Hx); [by apply UTOP_small|].
    destruct (Z.eqb_spec (t + 8 * PTX va) 0); [lia|].
    destruct (table_step_new _ _ _ _ _ _ _ Hst) as (_ & Hnew & _).
    assert (HnewP : forall j a, T1 !! j = Some a -> T !! j = Some a \/ pages s !! a = None).
    { intros j a Hj. destruct (Hnew j a Hj) as [?|[_ ?]]; tauto. }
    destruct Hfs as [p Hp]. destruct Hfo as (Hfd & HfT & HfM).
    apply wp_bind. eapply (pte_wp s1 pgdir T1 M va t); [done|done|done|]. rewrite HM.
    change (has (pte_val None) PTE_P) with false. cbv iota. apply wp_bind.
    apply (map_store_wp s1 l1 pgdir T1 M va t f perm); try done.
    - exists p. by apply Hk1.
    - split_and!; [done| |done]. intros j Hj.
      destruct (HnewP j f Hj) as [?|?]; [by apply (HfT j)|congruence].
    - intros s2 Hmo2 H2 Hk2 Hkp2. apply (Hyes s2 l1 T1 tl); try done; [|congruence].
      apply (keeps_trans _ _ T1 _ (pages s1)); [done|done|]. intros j a Hj.
      destruct (HnewP j a Hj); [left; by exists j|by right]. }
  apply wp_bind. destruct (T !! PDX va) as [t|] eqn:ET; [|destruct l as [|t l1]].
  - eapply walk_found; [done|done|done|]. apply (Hmid s l T [] t); try done; [|apply keeps_refl].
    split; [done|left]. by exists t.
  - eapply walk_no_memory; [done|done|done|done|]. intros s1 Hmo1 Hp1 Hk1. cbn. wp_steps. by apply Hno.
  - eapply walk_adds; [done|done|done|done|done|]. intros s1 Hmo1 H1 Hk1 Htok Hn Hkp.
    apply (Hmid s1 l1 (<[PDX va := t]> T) [t] t); try done; [|apply lookup_insert_eq].
    split; [done|right]. by exists t.
Qed.

(** The result of one turn of the loop that succeeds, and of the turns after it. *)
Lemma mapped_cons pgdir v f fl n s s1 s2 l l1 l2 T T1 T2 M r k tl tl2 :
  table_step (pages s) T (v / 512) l l1 T1 tl -> keeps pgdir T (pages s) (pages s1) ->
  kpdpt s1 = kpdpt s ->
  mapped pgdir (v + 1) (f + PGSIZE) fl n s1 l1 T1 (<[v := (f, fl)]> M) r s2 l2 T2 k tl2 ->
  mapped pgdir v f fl (S n) s l T M r s2 l2 T2 (S k) (tl ++ tl2).
Proof.
  intros Hst Hk Hkp [H1 H2 H3 H4 H5 H6 H7 H8 Hmore H9 H10].
  destruct (table_step_new _ _ _ _ _ _ _ Hst) as (Hsub & Hnew & _).
  pose proof (table_step_need _ _ _ _ _ _ _ n Hst) as Hneed.
  assert (Hneed' := fun m => table_step_need _ _ _ _ _ _ _ (n + m)%nat Hst). destruct Hst as [Hl _].
  split; try done.
  - destruct H1 as [[? ?]|(? & ? & ?)]; [left|right]; split_and!; try done; lia.
  - apply (keeps_trans _ _ T1 _ (pages s1)); [done|done|]. intros i a Hi.
    destruct (Hnew i a Hi) as [?|[_ ?]]; [left; by exists i|by right].
  - rewrite <-app_assoc. congruence.
  - by transitivity T1.
  - intros i a Hi. rewrite elem_of_app. destruct (H7 i a Hi) as [Hi1|?]; [|tauto].
    destruct (Hnew i a Hi1) as [?|[? _]]; tauto.
  - rewrite length_app. lia.
  - intros Hr m. specialize (Hmore Hr m). specialize (Hneed' m). rewrite length_app.
    replace (v + Z.of_nat (S n)) with (v + 1 + Z.of_nat n) by lia.
    change (S n + m)%nat with (S (n + m))%nat. lia.
  - intros Hle. apply H9. rewrite Hl, length_app in Hle. lia.
  - congruence.
Qed.

(** The turn finds no table and no memory. *)
Lemma mapped_fail pgdir v f fl n s s' T M : aspace (pages s) pgdir T M -> T !! (v / 512) = None ->
  mem_ok s' [] -> pages s' = pages s -> kpdpt s' = kpdpt s ->
  mapped pgdir v f fl (S n) s [] T M (-1) s' [] T 0 [].
Proof.
  intros H HT Hmo Hp Hkp. pose proof (need_S_pos T v n HT) as Hpos. split; try assumption.
  - right. split_and!; [reflexivity|lia|reflexivity].
  - by rewrite Hp.
  - rewrite Hp. apply keeps_refl.
  - reflexivity.
  - reflexivity.
  - auto.
  - simpl. lia.
  - lia.
  - simpl. lia.
Qed.

Lemma mapped_done pgdir v f fl s l T M : mem_ok s l -> aspace (pages s) pgdir T M ->
  mapped pgdir v f fl 0 s l T M 0 s l T 0 [].
Proof.
  intros Hmo H. split; try assumption; auto using keeps_refl; [simpl; lia|].
  intros _ m. by rewrite Z.add_0_r.
Qed.

Lemma mappages_loop_wp n : forall fuel s l pgdir T M va f perm Q,
  (n <= fuel)%nat -> mem_ok s l -> aspace (pages s) pgdir T M ->
  va mod 4096 = 0 -> 0 <= va -> va + 4096 * Z.of_nat (S n) <= UTOP -> 0 <= perm < 4096 ->
  frames_ok (pages s) pgdir T M f (S n) ->
  (forall k, (k < S n)%nat -> M !! (va / 4096 + Z.of_nat k) = None) ->
  (forall r s' l' T' k tl,
     mapped pgdir (va / 4096) f (Z.lor perm PTE_P) (S n) s l T M r s' l' T' k tl -> Q r s' []) ->
  wp (mappages_loop fuel pgdir va (va + 4096 * Z.of_nat n) (v2p f) perm) s Q.
Proof.
  induction n as [|n IH]; intros fuel s l pgdir T M va f perm Q Hfuel Hmo H Hal H0 Htop Hperm Hfr HM HQ;
    destruct (frames_ok_first _ _ _ _ _ _ Hfr) as (Hfok & Hfs & Hfo);
    pose proof (HM 0%nat ltac:(lia)) as HM0; rewrite Z.add_0_r in HM0;
    assert (Hva : 0 <= va < UTOP) by lia; pose proof (PDX_dir va Hva) as Hpd.
  - assert (E : va =? va + 4096 * Z.of_nat 0 = true) by (apply Z.eqb_eq; lia).
    destruct fuel; cbn [mappages_loop]; rewrite E;
      (apply (map_turn_wp s l pgdir T M va f perm _ Q); try assumption;
       [rewrite Hpd; intros HT -> s' ? ? ?; eapply HQ, mapped_fail; eassumption|];
       intros s' l' T' tl Hst Hmo' H' Hk Hkp; apply wp_ret; rewrite Hpd in Hst;
       eapply HQ, (mapped_cons _ _ _ _ 0 s s' s'); [eassumption..|]; by apply mapped_done).
  - destruct fuel as [|fuel]; [lia|]. cbn [mappages_loop].
    destruct (Z.eqb_spec va (va + 4096 * Z.of_nat (S n))); [lia|].
    destruct (va_step va n Hal H0 Htop) as (Hw & Hmod & Hvpn). rewrite Hw.
    pose proof (Hfr 1%nat ltac:(lia)) as (Hf1 & _). replace (f + Z.of_nat 1 * PGSIZE) with (f + PGSIZE) in Hf1 by lia.
    rewrite (v2p_step f Hfok Hf1).
    replace (va + 4096 * Z.of_nat (S n)) with (va + PGSIZE + 4096 * Z.of_nat n) by (unfold PGSIZE; lia).
    apply (map_turn_wp s l pgdir T M va f perm _ Q); try done.
    + rewrite Hpd. intros HT -> s' ? ? ?. eapply HQ, mapped_fail; eassumption.
    + intros s' l' T' tl Hst Hmo' H' Hk Hkp.
      destruct (table_step_new _ _ _ _ _ _ _ Hst) as (_ & Hnew & _).
      apply (IH fuel s' l' pgdir T' (<[va / 4096 := (f, Z.lor perm PTE_P)]> M)); try done; try lia.
      * unfold PGSIZE. lia.
      * unfold PGSIZE. lia.
      * apply (frames_ok_step (pages s) _ _ T _ M); [done|done|].
        intros i a Hi. destruct (Hnew i a Hi) as [?|[_ ?]]; tauto.
      * intros k Hlt. rewrite Hvpn, lookup_insert_ne by lia.
        rewrite <-(HM (S k)) by lia. f_equal. lia.
      * intros r s2 l2 T2 k tl2 Hm. rewrite Hvpn in Hm. rewrite Hpd in Hst.
        eapply HQ, mapped_cons; [exact Hst|done|done|done].
Qed.

Lemma lookup_map_pages n : forall M v f fl w,
  map_pages M v f fl n !! w =
  if decide (v <= w < v + Z.of_nat n) then Some (f + (w - v) * PGSIZE, fl) else M !! w.
Proof.
  induction n as [|n IH]; intros M v f fl w; cbn [map_pages].
  - case_decide; [lia|done].
  - rewrite IH. destruct (decide (w = v)) as [->|Hne].
    + rewrite decide_False, decide_True by lia. rewrite lookup_insert_eq. do 2 f_equal. lia.
    + rewrite lookup_insert_ne by done. case_decide; case_decide; try lia; [|done].
      do 2 f_equal. unfold PGSIZE. lia.
Qed.

Lemma mappages_wp s l pgdir T M va size f perm n Q :
  mem_ok s l -> aspace (pages s) pgdir T M -> 0 <= va -> 0 < size -> va + size <= UTOP ->
  0 <= perm < 4096 -> Z.of_nat n = (va + size - 1) / 4096 - va / 4096 + 1 ->
  frames_ok (pages s) pgdir T M f n ->
  (forall k, (k < n)%nat -> M !! (va / 4096 + Z.of_nat k) = None) ->
  (forall r s' l' T' k tl,
     mapped pgdir (va / 4096) f (Z.lor perm PTE_P) n s l T M r s' l' T' k tl -> Q r s' []) ->
  wp (mappages pgdir va size (v2p f) perm) s Q.
Proof.
  intros Hmo H H0 Hs Htop Hperm Hn Hfr HM HQ. change UTOP with 1069547520 in Htop.
  unfold mappages. cbv zeta. unfold PGROUNDDOWN. rewrite !ldiff_page, !(u64_small (_ - 1)) by lia.
  rewrite (u64_small va) by lia. unfold PGSIZE.
  set (a := va - va mod 4096).
  assert (Hav : a / 4096 = va / 4096) by (unfold a; lia_dm).
  assert (Ham : a mod 4096 = 0) by (unfold a; lia_dm).
  assert (Ha0 : 0 <= a) by (unfold a; lia_dm).
  destruct n as [|n]; [exfalso; lia_dm|].
  assert (Hlast : va + size - 1 - (va + size - 1) mod 4096 = a + 4096 * Z.of_nat n).
  { unfold a. lia_dm. }
  rewrite Hlast. replace (u64 (a + 4096 * Z.of_nat n - a) / 4096) with (Z.of_nat n).
  2: { rewrite u64_small; unfold a in *; lia_dm. }
  rewrite Nat2Z.id. rewrite <-Hav in *.
  apply (mappages_loop_wp n n s l pgdir T M); try done.
  change UTOP with 1069547520. unfold a in *. lia_dm.
Qed.

Lemma remap_stops s pgdir T M va size f perm :
  aspace (pages s) pgdir T M -> 0 <= va < UTOP -> is_Some (M !! (va / 4096)) ->
  stops (mappages pgdir va size (v2p f) perm) s (Panicked "remap") (fun s' _ => s' = s).
Proof.
  intros H Hva [[g fl] HM]. destruct (as_map _ _ _ _ H _ _ _ HM) as ([t Ht] & Hg & _ & _ & _ & Hfl & Hodd).
  unfold mappages. cbv zeta. pose proof (UTOP_small va Hva) as [Hva30 _].
  assert (PGROUNDDOWN va = va - va mod PGSIZE) as ->.
  { unfold PGROUNDDOWN. by rewrite ldiff_page, u64_small by lia. }
  set (a := va - va mod PGSIZE).
  assert (Ha : 0 <= a < UTOP) by (unfold a, PGSIZE; lia_dm).
  assert (Hav : a / 4096 = va / 4096) by (unfold a, PGSIZE; lia_dm).
  assert (HTa : T !! PDX a = Some t) by (by rewrite (PDX_dir a Ha), Hav).
  destruct (as_tab _ _ _ _ H _ _ HTa) as (_ & Htok & _). apply page_ok_range in Htok.
  destruct (vpn_split a) as (_ & _ & _ & Hx); [by apply UTOP_small|].
  destruct (Z.to_nat _) as [|n]; cbn [mappages_loop]; apply stops_bind;
    (eapply walk_found; [done|done|done|]); (destruct (Z.eqb_spec (t + 8 * PTX a) 0); [lia|]);
    apply stops_bind; (eapply pte_wp; [done|done|done|]); rewrite Hav, HM; cbn [pte_val];
    rewrite has_odd, odd_lor, Hodd, orb_true_r; done.
Qed.

(** mappages maps a range of virtual addresses page by page to consecutive physical
    pages.  Whatever the alignment of the range, the pages it touches get the frames in
    order with the given permissions and the present bit, missing page tables are
    taken from the free list, and no other mapping and no memory outside the page
    directory and its tables changes.  With a free page for every missing table the result is 0; the
    result is -1 only when memory is exhausted, with a prefix of the range mapped.  If the first
    page of the range is mapped already, it panics before changing anything. *)
Theorem mappages_maps s l pgdir T M va size f perm n :
  mem_ok s l -> aspace (pages s) pgdir T M -> 0 <= va -> 0 < size -> va + size <= UTOP ->
  0 <= perm < 4096 -> Z.of_nat n = (va + size - 1) / 4096 - va / 4096 + 1 ->
  frames_ok (pages s) pgdir T M f n ->
  ((forall k, (k < n)%nat -> M !! (va / 4096 + Z.of_nat k) = None) ->
   wp (mappages pgdir va size (v2p f) perm) s (fun r s' _ => exists l' T' k tl,
     mapped pgdir (va / 4096) f (Z.lor perm PTE_P) n s l T M r s' l' T' k tl)) /\
  (is_Some (M !! (va / 4096)) ->
   stops (mappages pgdir va size (v2p f) perm) s (Panicked "remap") (fun s' _ => s' = s)).
Proof.
  intros Hmo H H0 Hs Htop Hperm Hn Hfr. split.
  - intros HM. apply (mappages_wp s l pgdir T M va size f perm n); try done. intros r s' l' T' k tl Hm. by exists l', T', k, tl.
  - intros Hsome. eapply remap_stops; [done|lia|done].
Qed.
End space.
