(* ===== verification/VmUser.v ===== *)
(** * User memory: the operations of vm.c on an address space

    allocuvm, deallocuvm, freevm, copyuvm and copyout against the abstract address
    spaces of VmSpace. *)

From stdpp Require Import base list gmap strings fin_maps fin_map_dom sets.
From Stdlib Require Import ZArith Lia.
From S2P Require Import Prelude CString Bytes Spinlock Kalloc Vm VmSpace.
Open Scope Z_scope.

(** The pages of a process of [sz] bytes. *)
Definition npages (sz : Z) : Z := (sz + 4095) / 4096.

(** The mappings of the pages from [v] up to [e] removed. *)
Definition unmap (M : gmap Z (Z * Z)) (v e : Z) : gmap Z (Z * Z) :=
  filter (fun x => ~ (v <= x.1 < e)) M.

Lemma lookup_unmap M v e w : unmap M v e !! w = if decide (v <= w < e) then None else M !! w.
Proof.
  unfold unmap. destruct (M !! w) as [x|] eqn:E; case_decide.
  - apply map_lookup_filter_None. right. intros y _ Hy. by apply Hy.
  - by apply map_lookup_filter_Some.
  - apply map_lookup_filter_None. by left.
  - apply map_lookup_filter_None. by left.
Qed.

Lemma unmap_step M v e : v < e -> unmap M v e = unmap (delete v M) (v + 1) e.
Proof.
  intros H. apply map_eq. intros w. rewrite !lookup_unmap.
  destruct (decide (w = v)) as [->|]; [|rewrite lookup_delete_ne by done];
    [rewrite lookup_delete_eq|]; repeat case_decide; done || lia.
Qed.

Lemma unmap_none M v e : (forall w, v <= w < e -> M !! w = None) -> unmap M v e = M.
Proof.
  intros H. apply map_eq. intros w. rewrite lookup_unmap. case_decide; [|done].
  symmetry. by apply H.
Qed.

Lemma PGROUNDUP_npages sz : 0 <= sz < 2 ^ 62 -> PGROUNDUP sz = 4096 * npages sz.
Proof.
  intros H. unfold PGROUNDUP, npages. rewrite ldiff_page. unfold PGSIZE.
  rewrite u64_small by lia. replace (sz + (4096 - 1)) with (sz + 4095) by lia. lia_dm.
Qed.

(** Look an address up in a map built by insertions, given the distinctness facts. *)
Ltac look := repeat first [rewrite lookup_insert_eq | rewrite lookup_insert_ne by congruence];
  first [reflexivity | eassumption | idtac].

Section user.
Context (kend : Z) (Hkend : KERNBASE < kend).

Notation mem_ok := (mem_ok kend).
Notation aspace := (aspace kend).

(** ** deallocuvm *)

(** Freed frames [fs] go on the free list, the tables stay, nothing else changes. *)
Record unmapped (pgdir v e : Z) (s : memory) (l : list Z) T M (s' : memory) (fs : list Z) : Prop := {
  um_mem : mem_ok s' (fs ++ l);
  um_space : aspace (pages s') pgdir T (unmap M v e);
  um_frames : forall f, f ∈ fs <-> exists w fl, v <= w < e /\ M !! w = Some (f, fl);
  um_keeps : forall b p, pages s !! b = Some p -> b <> pgdir -> (forall i, T !! i <> Some b) ->
    b ∉ fs -> pages s' !! b = Some p;
  um_dom : forall b, pages s !! b = None -> pages s' !! b = None;
  um_kpdpt : kpdpt s' = kpdpt s;
}.

Lemma frame_phys_pos f : page_ok kend f -> v2p f <> 0.
Proof.
  intros Hf. pose proof (page_ok_range kend f Hf) as (_ & _ & _ & -> & _).
  destruct Hf as (_ & Hk & _). lia.
Qed.

(** Free the frame of page [va / 4096] and clear its entry. *)
Lemma unmap_turn_wp s l pgdir T M va t f fl Q : mem_ok s l -> aspace (pages s) pgdir T M ->
  0 <= va < UTOP -> T !! PDX va = Some t -> M !! (va / 4096) = Some (f, fl) ->
  (forall s', unmapped pgdir (va / 4096) (va / 4096 + 1) s l T M s' [f] -> Q tt s' []) ->
  wp (kfree_page kend f ;;; store64 (t + 8 * PTX va) 0) s Q.
Proof.
  intros Hmo H Hva HT HM HQ.
  destruct (as_map _ _ _ _ _ H _ _ _ HM) as (_ & Hf & Hfs & Hfd & HfT & _).
  destruct (as_tab _ _ _ _ _ H _ _ HT) as (_ & Htok & [tab Htab] & Htd).
  destruct (vpn_split va) as (_ & _ & Hv & Hx); [by apply UTOP_small|].
  assert (Htf : t <> f). { intros ->. by apply (HfT (PDX va)). }
  apply wp_bind. apply (kfree_page_wp kend s l f); [done|done|done|].
  intros s1 Hmo1 Hp1 Hk1.
  assert (Ht1 : pages s1 !! t = Some tab) by (rewrite Hp1; by rewrite lookup_delete_ne).
  apply (store64_wp s1 t _ _ tab); [by apply (page_ok_mod kend)|lia|done|].
  pose proof (mo_size _ _ _ Hmo _ _ Htab) as Hl.
  assert (Hdel : forall w, w <> va / 4096 -> delete (va / 4096) M !! w = M !! w).
  { intros w Hw. by rewrite lookup_delete_ne. }
  rewrite <-Hv in *.
  assert (Hum : unmap M (512 * PDX va + PTX va) (512 * PDX va + PTX va + 1) =
                delete (512 * PDX va + PTX va) M).
  { rewrite unmap_step by lia. apply unmap_none. intros w Hw. lia. }
  apply HQ. split; cbn [pages set_pages app].
  - apply (mem_ok_insert kend s1 _ t tab); [done|done|].
    rewrite length_put_le; [done|]. pose proof pgsize_Z. lia.
  - rewrite Hum. apply (aspace_frame kend (<[t := put_le tab (Z.to_nat (8 * PTX va)) 8 (pte_val None)]> (pages s))).
    + apply (aspace_set_pte kend (pages s) pgdir T M _ (PDX va) (PTX va) t tab None);
        try done. by rewrite lookup_delete_eq.
    + rewrite Hp1, !lookup_insert_ne, lookup_delete_ne by done. done.
    + intros i u Hu. rewrite Hp1. destruct (decide (u = t)) as [->|]; [by rewrite !lookup_insert_eq|].
      rewrite !lookup_insert_ne by done. rewrite lookup_delete_ne; [done|].
      intros ->. by apply (HfT i).
    + intros w g gl. rewrite lookup_delete_Some. intros [Hne Hw].
      rewrite lookup_insert_is_Some'. right. rewrite Hp1, lookup_delete_ne.
      * by destruct (as_map _ _ _ _ _ H _ _ _ Hw) as (_ & _ & ? & _).
      * intros <-. apply Hne. by apply (as_map_inj _ _ _ _ _ H _ _ f fl gl).
  - intros g. rewrite list_elem_of_singleton. split.
    + intros ->. exists (512 * PDX va + PTX va), fl. split; [lia|done].
    + intros (w & gl & Hw & HM'). replace w with (512 * PDX va + PTX va) in HM' by lia. congruence.
  - intros b p Hb _ HbT Hbf. rewrite lookup_insert_ne by (intros ->; by apply (HbT (PDX va))).
    rewrite Hp1, lookup_delete_ne; [done|]. intros <-. apply Hbf. left.
  - intros b Hb. rewrite lookup_insert_ne by congruence. rewrite Hp1.
    by rewrite lookup_delete_None; right.
  - by rewrite <-Hk1.
Qed.

Lemma unmap_unmap M v m e : v <= m <= e -> unmap (unmap M v m) m e = unmap M v e.
Proof. intros H. apply map_eq. intros w. rewrite !lookup_unmap. repeat case_decide; done || lia. Qed.

Lemma unmapped_trans pgdir v m e s l T M s1 fs1 s2 fs2 : v <= m <= e ->
  unmapped pgdir v m s l T M s1 fs1 ->
  unmapped pgdir m e s1 (fs1 ++ l) T (unmap M v m) s2 fs2 ->
  unmapped pgdir v e s l T M s2 (fs2 ++ fs1).
Proof.
  intros Hm [H1 H2 H3 H4 H5 H6] [G1 G2 G3 G4 G5 G6]. split.
  - by rewrite <-app_assoc.
  - by rewrite <-(unmap_unmap M v m e).
  - intros f. rewrite elem_of_app, G3, H3. split.
    + intros [(w & fl & Hw & HM)|(w & fl & Hw & HM)].
      * rewrite lookup_unmap in HM. case_decide; [done|]. exists w, fl. split; [lia|done].
      * exists w, fl. split; [lia|done].
    + intros (w & fl & Hw & HM). destruct (decide (w < m)); [right|left]; exists w, fl.
      * split; [lia|done].
      * split; [lia|]. rewrite lookup_unmap, decide_False by lia. done.
  - intros b p Hb Hd HT Hf. apply not_elem_of_app in Hf as [Hf2 Hf1]. apply G4; try done. by apply H4.
  - intros b Hb. by apply G5, H5.
  - congruence.
Qed.

Lemma unmapped_refl pgdir v e s l T M : mem_ok s l -> aspace (pages s) pgdir T M ->
  (forall w, v <= w < e -> M !! w = None) -> unmapped pgdir v e s l T M s [].
Proof.
  intros Hmo H Hno. split; try done.
  - by rewrite unmap_none.
  - intros f. split; [by intros ?%not_elem_of_nil|]. intros (w & fl & Hw & HM).
    rewrite Hno in HM by lia. done.
Qed.

(** No page of the range is mapped above a missing table: what the skip over a
    missing table in deallocuvm relies on. *)
Definition tables_below (T : gmap Z Z) (M : gmap Z (Z * Z)) (v e : Z) : Prop :=
  forall w u, v <= u <= w -> w < e -> is_Some (M !! w) -> is_Some (T !! (u / 512)).

Lemma deallocuvm_loop_wp fuel : forall s l pgdir T M v oldsz Q,
  mem_ok s l -> aspace (pages s) pgdir T M -> 0 <= v -> 0 <= oldsz <= UTOP ->
  npages oldsz - v <= Z.of_nat fuel -> v <= npages UTOP + 512 ->
  tables_below T M v (npages oldsz) ->
  (forall s' fs, unmapped pgdir v (npages oldsz) s l T M s' fs -> Q tt s' []) ->
  wp (deallocuvm_loop kend fuel pgdir (4096 * v) oldsz) s Q.
Proof.
  change (npages UTOP) with 261120. unfold UTOP. change (510 * 2 ^ 21) with 1069547520.
  induction fuel as [|fuel IH]; intros s l pgdir T M v oldsz Q Hmo H Hv Hsz Hfuel Hvtop Htb HQ;
    cbn [deallocuvm_loop]; destruct (Z.ltb_spec (4096 * v) oldsz) as [Hlt|Hge].
  - exfalso. unfold npages in Hfuel. lia_dm.
  - wp_steps. apply (HQ s []). apply unmapped_refl; [done|done|]. unfold npages. intros w Hw. exfalso. lia_dm.
  - assert (Hve : v < npages oldsz) by (unfold npages; lia_dm).
    assert (Hvu : 0 <= 4096 * v < UTOP) by (change UTOP with 1069547520; lia).
    assert (Hvv : 4096 * v / 4096 = v) by lia_dm.
    pose proof (PDX_dir _ Hvu) as Hpd. rewrite Hvv in Hpd. apply wp_bind.
    destruct (T !! PDX (4096 * v)) as [t|] eqn:ET.
    + eapply walk_found; [done|done|done|].
      destruct (as_tab _ _ _ _ _ H _ _ ET) as (_ & Htok & _). apply (page_ok_range kend) in Htok.
      destruct (vpn_split (4096 * v)) as (_ & _ & _ & Hx); [by apply UTOP_small|].
      destruct (Z.eqb_spec (t + 8 * PTX (4096 * v)) 0); [lia|].
      apply wp_bind. eapply pte_wp; [done|done|done|]. rewrite Hvv.
      unfold PGSIZE. rewrite u64_small by lia. replace (4096 * v + 4096) with (4096 * (v + 1)) by lia.
      apply wp_bind. destruct (M !! v) as [[f fl]|] eqn:EM; cbn [pte_val].
      * destruct (as_map _ _ _ _ _ H _ _ _ EM) as (_ & Hf & _ & _ & _ & Hfl & Hodd).
        pose proof (page_ok_phys kend f Hf) as [Hfm _].
        rewrite has_odd, odd_lor, Hodd, orb_true_r, PTE_ADDR_lor by done.
        destruct (Z.eqb_spec (v2p f) 0) as [E|_]; [by destruct (frame_phys_pos f Hf)|].
        rewrite (p2v_v2p kend) by done.
        apply (unmap_turn_wp s l pgdir T M (4096 * v) t f fl);
          [done|done|done|done|by rewrite Hvv|]. rewrite Hvv. intros s1 Hum. apply (IH s1 ([f] ++ l) pgdir T (unmap M v (v + 1))); try done; try lia.
        -- apply Hum.
        -- apply Hum.
        -- intros w u Hu Hw Hs. apply (Htb w u); try lia. rewrite lookup_unmap in Hs.
           by case_decide; [destruct Hs|].
        -- intros s2 fs Hum2. eapply HQ. eapply (unmapped_trans _ _ (v + 1)); [lia|done|done].
      * change (has 0 PTE_P) with false. cbv iota. wp_steps.
        apply (IH s l pgdir T M); try done; try lia.
        -- intros w u Hu Hw. apply Htb; lia.
        -- intros s2 fs Hum2. apply (HQ s2 (fs ++ [])).
           assert (Hum0 : unmapped pgdir v (v + 1) s l T M s []).
           { apply unmapped_refl; [done|done|]. intros w Hw. by replace w with v by lia. }
           eapply (unmapped_trans _ _ (v + 1)); [lia|done|]. rewrite unmap_none; [done|].
           intros w Hw. by replace w with v by lia.
    + eapply walk_missing; [done|done|done|]. rewrite Z.eqb_refl. unfold NPTENTRIES, PGSIZE.
      rewrite !u64_small by (rewrite ?u64_small; lia).
      replace (4096 * v + (512 - 1) * 4096 + 4096) with (4096 * (v + 512)) by lia.
      assert (Hno : forall w, v <= w < npages oldsz -> M !! w = None).
      { intros w Hw. destruct (M !! w) as [x|] eqn:E; [|done]. exfalso.
        destruct (Htb w v) as [t Ht]; [lia|lia|by exists x|]. rewrite <-Hpd in Ht. congruence. }
      apply (IH s l pgdir T M); try done; try lia.
      * intros w u Hu Hw [x Hx]. rewrite Hno in Hx by lia. done.
      * intros s2 fs [U1 U2 U3 U4 U5 U6]. apply (HQ s2 fs). split; try done.
        -- rewrite unmap_none in U2 |- *; [done|intros; apply Hno; lia..].
        -- intros f. rewrite U3. split; intros (w & fl & Hw & HM);
             [exists w, fl; split; [lia|done]|rewrite Hno in HM by lia; done].
  - wp_steps. apply (HQ s []). apply unmapped_refl; [done|done|]. unfold npages. intros w Hw. exfalso. lia_dm.
Qed.

Lemma i32_small z : 0 <= z < 2 ^ 31 -> i32 z = z.
Proof.
  intros Hz. unfold i32, signed. rewrite Z.mod_small by lia.
  change (2 ^ (32 - 1)) with (2 ^ 31). by rewrite (proj2 (Z.ltb_lt _ _)) by lia.
Qed.

Lemma UTOP_31 sz : 0 <= sz <= UTOP -> 0 <= sz < 2 ^ 31 /\ 0 <= npages sz <= 261120.
Proof.
  change UTOP with 1069547520. intros Hsz. unfold npages. split; [lia|]. lia_dm.
Qed.

Lemma deallocuvm_wp s l pgdir T M oldsz newsz Q :
  mem_ok s l -> aspace (pages s) pgdir T M -> 0 <= newsz < oldsz -> oldsz <= UTOP ->
  tables_below T M (npages newsz) (npages oldsz) ->
  (forall s' fs, unmapped pgdir (npages newsz) (npages oldsz) s l T M s' fs -> Q newsz s' []) ->
  wp (deallocuvm kend pgdir oldsz newsz) s Q.
Proof.
  intros Hmo H Hsz Htop Htb HQ. destruct (UTOP_31 oldsz) as [Ho Hon]; [lia|].
  destruct (UTOP_31 newsz) as [Hn Hnn]; [lia|].
  unfold deallocuvm. rewrite (proj2 (Z.leb_gt _ _)) by lia. cbv zeta.
  rewrite PGROUNDUP_npages by lia. wp_steps.
  apply (deallocuvm_loop_wp _ s l pgdir T M); try done; try lia.
  - unfold npages at 1, PGSIZE. lia_dm.
  - change (npages UTOP) with 261120. lia.
  - intros s' fs Hu. wp_steps. rewrite i32_small by lia. by apply (HQ s' fs).
Qed.

(** ** allocuvm *)

(** [k] pages from [v] are mapped to fresh zero pages, readable and writable by the
    user; nothing else is mapped differently. *)
Record extended (pgdir v : Z) (k : nat) (s : memory) (l : list Z) (T : gmap Z Z) (M : gmap Z (Z * Z))
    (s' : memory) (l' : list Z) T' (M' : gmap Z (Z * Z)) : Prop := {
  ex_mem : mem_ok s' l';
  ex_space : aspace (pages s') pgdir T' M';
  ex_old : forall w, ~ (v <= w < v + Z.of_nat k) -> M' !! w = M !! w;
  ex_new : forall w, v <= w < v + Z.of_nat k -> exists f, f ∈ l /\ M' !! w = Some (f, 7) /\
    pages s' !! f = Some (replicate pgsize 0);
  ex_keeps : keeps pgdir T (pages s) (pages s');
  ex_sub : T ⊆ T';
  ex_tabs : forall i a, T' !! i = Some a -> T !! i = Some a \/ a ∈ l;
  ex_list : l' `suffix_of` l;
  ex_count : (length l <= length l' + k + need T v k)%nat \/
    (l' = [] /\ length l <= S (k + need T v k))%nat;
  ex_kpdpt : kpdpt s' = kpdpt s;
}.

Lemma extended_refl pgdir v s l T M : mem_ok s l -> aspace (pages s) pgdir T M ->
  extended pgdir v 0 s l T M s l T M.
Proof.
  intros Hmo H. split; auto using keeps_refl; try done; [intros w Hw; lia|]. left. lia.
Qed.

(** The first page, mapped to [f], then [k] more. *)
Lemma extended_cons pgdir v k s f l1 T M s1 tl l2 T1 s2 l' T2 M2 :
  mem_ok s (f :: l1) -> l1 = tl ++ l2 ->
  keeps pgdir T (pages s) (pages s1) -> T ⊆ T1 ->
  (forall i a, T1 !! i = Some a -> T !! i = Some a \/ a ∈ tl) ->
  pages s1 !! f = Some (replicate pgsize 0) -> kpdpt s1 = kpdpt s ->
  (length tl + need T1 (v + 1) k <= need T v (S k))%nat ->
  extended pgdir (v + 1) k s1 l2 T1 (<[v := (f, 7)]> M) s2 l' T2 M2 ->
  extended pgdir v (S k) s (f :: l1) T M s2 l' T2 M2.
Proof.
  intros Hmo -> Hk HT Hnew Hf Hkp Hneed [E1 E2 E3 E4 E5 E6 E7 E8 Ec E9].
  assert (Hfresh : forall a, a ∈ f :: tl ++ l2 -> pages s !! a = None) by apply (mo_fresh _ _ _ Hmo).
  pose proof (fp_nodup _ _ _ (mo_free _ _ _ Hmo)) as Hnd. apply NoDup_cons in Hnd as [Hfl _].
  assert (Hv : M2 !! v = Some (f, 7)) by (rewrite E3 by lia; apply lookup_insert_eq).
  split; try done.
  - intros w Hw. rewrite E3 by lia. apply lookup_insert_ne. lia.
  - intros w Hw. destruct (decide (w = v)) as [->|].
    + exists f. split_and!; [left|done|]. apply E5; [done| |].
      * destruct (as_map _ _ _ _ _ E2 _ _ _ Hv) as (_ & _ & _ & ? & _). done.
      * intros i Hi. destruct (as_map _ _ _ _ _ E2 _ _ _ Hv) as (_ & _ & _ & _ & Hno & _).
        apply (Hno i). by eapply lookup_weaken.
    + destruct (E4 w ltac:(lia)) as (g & Hg & ? & ?). exists g. split; [|done].
      right. apply elem_of_app. by right.
  - apply (keeps_trans _ _ T1 _ (pages s1)); [done|done|]. intros i a Hi.
    destruct (Hnew i a Hi) as [?|Ha]; [left; by exists i|right]. apply Hfresh. right.
    apply elem_of_app. by left.
  - by transitivity T1.
  - intros i a Hi. destruct (E7 i a Hi) as [Hi1|Ha].
    + destruct (Hnew i a Hi1) as [?|?]; [by left|right]. right. apply elem_of_app. by left.
    + right. right. apply elem_of_app. by right.
  - destruct E8 as [x ->]. exists (f :: tl ++ x). by rewrite <-app_comm_cons, <-app_assoc.
  - cbn [length]. rewrite length_app. destruct Ec as [Ec|[? Ec]]; [left|right; split; [done|]]; lia.
  - congruence.
Qed.

(** Map one page that belongs to nothing yet. *)
Lemma map_one_wp s l pgdir T M v f perm Q : mem_ok s l -> aspace (pages s) pgdir T M ->
  0 <= v < 261120 -> 0 <= perm < 4096 -> M !! v = None ->
  page_ok kend f -> is_Some (pages s !! f) -> outside pgdir T M f ->
  (forall r s' l' T' k tl,
     mapped kend pgdir v f (Z.lor perm PTE_P) 1 s l T M r s' l' T' k tl -> Q r s' []) ->
  wp (mappages pgdir (4096 * v) PGSIZE (v2p f) perm) s Q.
Proof.
  intros Hmo H Hv Hperm HM Hf Hs Ho HQ. assert (Hvv : 4096 * v / 4096 = v) by lia_dm.
  apply (mappages_wp kend s l pgdir T M _ _ f perm 1); rewrite ?Hvv; try done; try lia.
  - change UTOP with 1069547520. unfold PGSIZE. lia.
  - unfold PGSIZE. lia_dm.
  - intros k Hk. replace k with 0%nat by lia. cbv zeta. by rewrite Z.mul_0_l, Z.add_0_r.
  - intros k Hk. replace k with 0%nat by lia. by rewrite Z.add_0_r.
Qed.

Lemma NoDup_cons_fresh s a l : mem_ok s (a :: l) -> a ∉ l /\ pages s !! a = None.
Proof.
  intros Hmo. pose proof (fp_nodup _ _ _ (mo_free _ _ _ Hmo)) as Hnd.
  apply NoDup_cons in Hnd as [? _]. split; [done|]. apply (mo_fresh _ _ _ Hmo). left.
Qed.

(** One turn: a fresh frame filled with [b] in place of what was in it, then mapped. *)
Lemma fresh_frame s s1 a l p b pgdir T M : mem_ok s (a :: l) -> mem_ok s1 l ->
  pages s1 = <[a := p]> (pages s) -> kpdpt s1 = kpdpt s -> length b = pgsize ->
  aspace (pages s) pgdir T M ->
  let s2 := set_pages (<[a := b]> (pages s1)) s1 in
  mem_ok s2 l /\ aspace (pages s2) pgdir T M /\ pages s2 = <[a := b]> (pages s) /\
  keeps pgdir T (pages s) (pages s2) /\ outside pgdir T M a.
Proof.
  intros Hmo Hmo1 Hp1 Hkp Hb H s2. destruct (NoDup_cons_fresh _ _ _ Hmo) as [_ Hn].
  pose proof (fresh_outside kend _ _ _ _ _ H Hn) as Ho.
  assert (Hs2 : pages s2 = <[a := b]> (pages s)).
  { unfold s2. cbn [pages set_pages]. by rewrite Hp1, insert_insert_eq. }
  split_and!.
  - apply (mem_ok_insert kend s1 l a p); [done|rewrite Hp1; apply lookup_insert_eq|done].
  - rewrite Hs2. by apply aspace_insert_outside.
  - done.
  - intros c q Hc _ _. rewrite Hs2, lookup_insert_ne; [done|congruence].
  - done.
Qed.

(** The loop from page [v] to the end of page [v + n - 1]: it maps [k] pages, all of
    them when there is enough memory. *)
Lemma allocuvm_loop_wp n : forall fuel s l pgdir T M v newsz Q,
  (n <= fuel)%nat -> mem_ok s l -> aspace (pages s) pgdir T M -> 0 <= v ->
  newsz <= UTOP -> (0 < Z.of_nat n \/ npages newsz <= v) -> (n <> 0%nat -> npages newsz = v + Z.of_nat n) ->
  (forall w, v <= w < npages newsz -> M !! w = None) ->
  (forall ok s' l' T' M' k,
     extended pgdir v k s l T M s' l' T' M' ->
     (ok = true /\ k = n) \/ (ok = true /\ S k = n /\ l' = []) \/ (ok = false /\ (k < n)%nat /\ l' = []) ->
     ((n + need T v n <= length l)%nat -> ok = true /\ k = n) ->
     Q ok s' []) ->
  wp (allocuvm_loop fuel pgdir (4096 * v) newsz) s Q.
Proof.
  induction n as [|n IH]; intros fuel s l pgdir T M v newsz Q Hfuel Hmo H Hv Htop Hn0 Hn HM HQ.
  { assert (E : 4096 * v <? newsz = false).
    { apply Z.ltb_ge. destruct Hn0; [lia|]. unfold npages in *. lia_dm. }
    destruct fuel; cbn [allocuvm_loop]; rewrite E; wp_steps;
      apply (HQ true s l T M 0%nat); auto using extended_refl. }
  destruct fuel as [|fuel]; [lia|]. specialize (Hn ltac:(lia)). cbn [allocuvm_loop].
  assert (Hvt : v < 261120).
  { change UTOP with 1069547520 in Htop. unfold npages in Hn. lia_dm. }
  rewrite (proj2 (Z.ltb_lt _ _)) by (unfold npages in Hn; lia_dm). apply wp_bind.
  apply (kalloc_page_wp kend s l); [done| |].
  { intros -> s' Hmo' Hp' Hk'. cbn. wp_steps. apply (HQ false s' [] T M 0%nat).
    - split; try done; rewrite ?Hp'; try done; [intros w Hw; lia|apply keeps_refl|auto|left; simpl; lia].
    - right. right. split_and!; [done|lia|done].
    - simpl. lia. }
  intros f l1 p s1 -> Hmo1 Hp1 Hk1 Hlp Hf Hfn.
  destruct (Z.eqb_spec f 0) as [->|_]; [destruct Hf; lia|]. apply wp_bind.
  apply (memset_wp s1 f p); [by apply (page_ok_mod kend)|rewrite Hp1; apply lookup_insert_eq|done|].
  change (u8 0) with 0.
  destruct (fresh_frame s s1 f l1 p (replicate pgsize 0) pgdir T M Hmo Hmo1 Hp1 Hk1
              (length_replicate _ _) H) as (Hmo2 & H2 & Hp2 & Hk2 & Ho).
  revert Hmo2 H2 Hp2 Hk2. set (s2 := set_pages _ s1). intros Hmo2 H2 Hp2 Hk2.
  apply wp_bind. apply (map_one_wp s2 l1 pgdir T M v f); try done; try lia.
  { apply HM. lia. }
  { rewrite Hp2, lookup_insert_eq. by eexists. }
  change (Z.lor (Z.lor PTE_W PTE_U) PTE_P) with 7.
  intros r s3 l2 T1 k tl Hm. unfold PGSIZE. rewrite u64_small by lia.
  replace (4096 * v + 4096) with (4096 * (v + 1)) by lia.
  assert (Hmid : r = 0 -> k = 1%nat -> forall s' l' T' M' k', extended pgdir (v + 1) k' s3 l2 T1
      (<[v := (f, 7)]> M) s' l' T' M' -> extended pgdir v (S k') s (f :: l1) T M s' l' T' M').
  { intros Hr -> s' l' T' M' k' He.
    pose proof (mp_more _ _ _ _ _ _ _ _ _ _ _ _ _ _ _ _ Hm Hr k') as Hmore.
    destruct Hm as [_ _ _ Hk3 Hl3 Hsub Hnew _ _ _ Hkp].
    apply (extended_cons pgdir v k' s f l1 T M s3 tl l2 T1); try done.
    - apply (keeps_trans _ _ T _ (pages s2)); [done|done|]. intros i a Hi. left. by exists i.
    - apply Hk3; [rewrite Hp2; apply lookup_insert_eq|apply Ho|apply Ho].
    - rewrite Hkp. exact Hk1. }
  destruct (mp_res _ _ _ _ _ _ _ _ _ _ _ _ _ _ _ _ Hm) as [[-> ->]|(-> & Hk & Hl2)].
  - apply (IH fuel s3 l2 pgdir T1 (<[v := (f, 7)]> M)); try done; try lia.
    + apply Hm.
    + apply Hm.
    + intros w Hw. rewrite lookup_insert_ne by lia. apply HM. lia.
    + intros ok s' l' T' M' k' He Hok Henough.
      apply (HQ ok s' l' T' M' (S k')); [by apply Hmid| |].
      * destruct Hok as [[? ?]|[(? & ? & ?)|(? & ? & ?)]]; [left|right; left|right; right];
          split_and!; try done; lia.
      * intros Hle. destruct Henough as [? ?]; [|split; [done|lia]].
        destruct Hm as [_ _ _ _ Hl _ _ _ Hmore _ _]. specialize (Hmore eq_refl n).
        cbn [length] in Hle. rewrite Hl, length_app in Hle. change (1 + n)%nat with (S n) in Hmore.
        change (Z.of_nat 1) with 1 in Hmore. lia.
  - (* no table: the page just allocated is lost, and the next turn finds no memory *)
    subst l2. assert (k = 0%nat) as -> by lia. destruct Hm as [_ Hmo3 H3 Hk3 Hl3 Hsub Hnew _ _ Hen Hkp].
    cbn [map_pages] in H3. rewrite app_nil_r in Hl3. subst tl.
    assert (Hl1 : l1 = []).
    { pose proof (need_one T v). destruct l1; [done|]. cbn [length] in Hen. specialize (Hen ltac:(lia)). done. }
    assert (He : extended pgdir v 0 s (f :: l1) T M s3 [] T1 M).
    { split; try done.
      - intros w Hw. lia.
      - apply (keeps_trans _ _ T _ (pages s2)); [done|done|]. intros i a Hi. left. by exists i.
      - intros i a Hi. destruct (Hnew i a Hi) as [?|?]; [by left|right; by right].
      - exists (f :: l1). by rewrite app_nil_r.
      - right. rewrite Hl1. split; [done|simpl; lia].
      - rewrite Hkp. exact Hk1. }
    assert (Hnope : (S n + need T v (S n) <= length (f :: l1))%nat -> False).
    { intros Hle. pose proof (need_first T v n). cbn [length] in Hle.
      specialize (Hen ltac:(lia)). done. }
    destruct n as [|n].
    + assert (E : 4096 * (v + 1) <? newsz = false) by (apply Z.ltb_ge; unfold npages in Hn; lia_dm).
      destruct fuel; cbn [allocuvm_loop]; rewrite E; wp_steps;
        (apply (HQ true s3 [] T1 M 0%nat); [done|right; left; done|intros; by destruct Hnope]).
    + destruct fuel as [|fuel]; [lia|]. cbn [allocuvm_loop].
      rewrite (proj2 (Z.ltb_lt _ _)) by (unfold npages in Hn; lia_dm). apply wp_bind.
      apply (kalloc_page_wp kend s3 []); [done| |done]. intros _ s4 Hmo4 Hp4 Hkp4. cbn. wp_steps.
      apply (HQ false s4 [] T1 M 0%nat); [|right; right; split_and!; [done|lia|done]|intros; by destruct Hnope].
      destruct He as [E1 E2 E3 E4 E5 E6 E7 E8 Ec E9]. split; rewrite ?Hp4; try done. congruence.
Qed.

(** Undo a partial extension: the mappings are the old ones again. *)
Lemma extended_below pgdir v k s l T M s' l' T' M' e :
  extended pgdir v k s l T M s' l' T' M' -> (forall w, v <= w < e -> M !! w = None) ->
  tables_below T' M' v e.
Proof.
  intros [_ H' Hold Hnew _ _ _ _ _ _] HM w u Hu Hw [x Hx].
  destruct (decide (w < v + Z.of_nat k)).
  - destruct (Hnew u ltac:(lia)) as (f & _ & Hf & _).
    by destruct (as_map _ _ _ _ _ H' _ _ _ Hf).
  - rewrite Hold, HM in Hx by lia. done.
Qed.

Lemma extended_undone pgdir v k s l T M s' l' T' M' e s'' fs :
  mem_ok s l -> v + Z.of_nat k <= e ->
  extended pgdir v k s l T M s' l' T' M' -> (forall w, v <= w < e -> M !! w = None) ->
  unmapped pgdir v e s' l' T' M' s'' fs ->
  aspace (pages s'') pgdir T' M /\ keeps pgdir T (pages s) (pages s'') /\ kpdpt s'' = kpdpt s /\
  forall f, f ∈ fs -> f ∈ l.
Proof.
  intros Hmo Hk [E1 E2 E3 E4 E5 E6 E7 E8 _ E9] HM [U1 U2 U3 U4 U5 U6].
  assert (Hfs : forall f, f ∈ fs -> f ∈ l).
  { intros f Hf. apply U3 in Hf as (w & fl & Hw & Hm). destruct (decide (w < v + Z.of_nat k)).
    - destruct (E4 w ltac:(lia)) as (g & Hg & Hm' & _). congruence.
    - rewrite E3, HM in Hm by lia. done. }
  split_and!; [| |congruence|done].
  - replace M with (unmap M' v e); [done|]. apply map_eq. intros w. rewrite lookup_unmap.
    case_decide; [by rewrite HM|]. apply E3. lia.
  - intros b p Hb Hd HT. apply U4; [by apply E5|done| |].
    + intros i Hi. destruct (E7 i b Hi) as [?|Hl]; [by apply (HT i)|].
      rewrite (mo_fresh _ _ _ Hmo) in Hb by done. done.
    + intros Hf. rewrite (mo_fresh _ _ _ Hmo) in Hb by auto. done.
Qed.

(** What allocuvm may leave: see the property below. *)
Definition allocuvm_post (pgdir oldsz newsz : Z) (n : nat) (s : memory) (l : list Z)
    (T : gmap Z Z) (M : gmap Z (Z * Z)) (r : Z) (s' : memory) : Prop :=
  (exists l' T' M' k, r = newsz /\ (k = n \/ (S k = n /\ l' = [])) /\
     extended pgdir (npages oldsz) k s l T M s' l' T' M') \/
  (exists l' T', r = 0 /\ mem_ok s' l' /\ aspace (pages s') pgdir T' M /\ T ⊆ T' /\
     keeps pgdir T (pages s) (pages s') /\ kpdpt s' = kpdpt s).

Lemma allocuvm_wp s l pgdir T M oldsz newsz n Q :
  mem_ok s l -> aspace (pages s) pgdir T M -> 0 <= oldsz <= newsz -> newsz <= UTOP ->
  Z.of_nat n = npages newsz - npages oldsz ->
  (forall w, npages oldsz <= w < npages newsz -> M !! w = None) ->
  (forall r s', allocuvm_post pgdir oldsz newsz n s l T M r s' ->
     ((n + need T (npages oldsz) n <= length l)%nat -> r = newsz /\
        exists l' T' M', extended pgdir (npages oldsz) n s l T M s' l' T' M') -> Q r s' []) ->
  wp (allocuvm kend pgdir oldsz newsz) s Q.
Proof.
  intros Hmo H Hsz Htop Hn HM HQ. destruct (UTOP_31 newsz) as [Hw Hwn]; [lia|].
  destruct (UTOP_31 oldsz) as [Ho Hon]; [lia|].
  unfold allocuvm. cbv zeta. rewrite !u32_small by lia.
  rewrite (proj2 (Z.leb_gt _ _)) by (unfold KERNBASE; lia).
  rewrite (proj2 (Z.ltb_ge _ _)) by lia. rewrite PGROUNDUP_npages by lia. apply wp_bind.
  apply (allocuvm_loop_wp n _ s l pgdir T M); try done; try lia.
  { unfold npages, PGSIZE in *. lia_dm. }
  intros ok s1 l1 T1 M1 k He Hok Hen. destruct ok.
  - wp_steps. rewrite i32_small by lia. apply HQ.
    + left. exists l1, T1, M1, k. split_and!; [done| |done].
      destruct Hok as [[_ ?]|[(_ & ? & ?)|(? & _)]]; [by left|by right|done].
    + intros Hle. split; [done|]. destruct (Hen Hle) as [_ <-]. by exists l1, T1, M1.
  - assert (k < n)%nat by (destruct Hok as [[? _]|[(? & _)|(_ & ? & _)]]; done).
    apply wp_bind. apply (deallocuvm_wp s1 l1 pgdir T1 M1); try apply He; try done; try lia.
    { unfold npages in *. lia_dm. }
    { by eapply extended_below. }
    intros s2 fs Hu. wp_steps. cbn [app].
    destruct (extended_undone pgdir (npages oldsz) k s l T M s1 l1 T1 M1 (npages newsz) s2 fs)
      as (A1 & A2 & A3 & A4); try done; try lia.
    apply HQ.
    + right. exists (fs ++ l1), T1. split_and!; try done; [apply Hu|apply He].
    + intros Hle. by destruct (Hen Hle).
Qed.

(** ** setupkvm *)

(** The three new table pages: the first-level table [pml4] points to the kernel's
    third-level table and to [pdpt], [pdpt] to [pgdir], and the last two words of
    [pgdir] are the backpointers. *)
Record new_space (s s' : memory) (pml4 pdpt pgdir : Z) : Prop := {
  ns_pml4 : forall i, 0 <= i < 512 -> word (pages s') pml4 i =
    if decide (i = 0) then Z.lor (v2p pdpt) 7
    else if decide (i = 511) then u64 (Z.lor (v2p (kpdpt s)) 7) else 0;
  ns_pdpt : forall i, 0 <= i < 512 -> word (pages s') pdpt i =
    if decide (i = 0) then Z.lor (v2p pgdir) 7 else 0;
  ns_back : word (pages s') pgdir 511 = Z.lor pml4 PTE_P /\ word (pages s') pgdir 510 = Z.lor pdpt PTE_P;
  ns_space : aspace (pages s') pgdir ∅ ∅;
  ns_keeps : forall x p, pages s !! x = Some p -> pages s' !! x = Some p;
  ns_kpdpt : kpdpt s' = kpdpt s;
}.

Definition zeros : list Z := replicate pgsize 0.
Definition put64 (p : list Z) (i v : Z) : list Z := put_le p (Z.to_nat (8 * i)) 8 v.

Lemma length_put64 p i v : 0 <= i < 512 -> length p = pgsize -> length (put64 p i v) = pgsize.
Proof.
  intros Hi Hp. unfold put64. rewrite length_put_le; [done|]. pose proof pgsize_Z. lia.
Qed.

Lemma word_put64 P pg p i v j : P !! pg = Some (put64 p i v) -> length p = pgsize ->
  0 <= i < 512 -> 0 <= j < 512 ->
  word P pg j = if decide (i = j) then u64 v else get_le p (Z.to_nat (8 * j)) 8.
Proof.
  intros HP Hp Hi Hj. pose proof pgsize_Z. unfold word. rewrite HP. unfold put64. case_decide.
  - subst j. by rewrite get_put_same by lia.
  - apply get_put_other; lia.
Qed.

Lemma get_zeros i : 0 <= i < 512 -> get_le zeros (Z.to_nat (8 * i)) 8 = 0.
Proof.
  intros Hi. pose proof (word_zero {[ 0 := zeros ]} 0 i Hi (lookup_singleton_eq _ _)) as H.
  unfold word in H. by rewrite lookup_singleton_eq in H.
Qed.

Lemma get_put64 p i v j : length p = pgsize -> 0 <= i < 512 -> 0 <= j < 512 ->
  get_le (put64 p i v) (Z.to_nat (8 * j)) 8 =
  if decide (i = j) then u64 v else get_le p (Z.to_nat (8 * j)) 8.
Proof.
  intros Hp Hi Hj. pose proof (word_put64 {[ 0 := put64 p i v ]} 0 p i v j (lookup_singleton_eq _ _) Hp Hi Hj) as H.
  unfold word in H. by rewrite lookup_singleton_eq in H.
Qed.

Lemma page_flags_u64 a x : page_ok kend a -> 0 <= x < 4096 ->
  u64 (Z.lor (v2p a) x) = Z.lor (v2p a) x /\ u64 (Z.lor a x) = Z.lor a x.
Proof.
  intros Ha Hx. pose proof (page_ok_phys kend a Ha) as [H1 H2].
  pose proof (page_ok_range kend a Ha) as (H3 & H4 & _). rewrite !lor_page by done.
  split; apply u64_small; lia.
Qed.

(** The contents of the new pages when setupkvm is done. *)
Lemma new_space_intro s s' a b c :
  page_ok kend a -> page_ok kend b -> page_ok kend c ->
  pages s' !! a = Some (put64 (put64 zeros 511 (Z.lor (v2p (kpdpt s)) 7)) 0 (Z.lor (v2p b) 7)) ->
  pages s' !! b = Some (put64 zeros 0 (Z.lor (v2p c) 7)) ->
  pages s' !! c = Some (put64 (put64 zeros 511 (Z.lor a PTE_P)) 510 (Z.lor b PTE_P)) ->
  (forall x p, pages s !! x = Some p -> pages s' !! x = Some p) -> kpdpt s' = kpdpt s ->
  new_space s s' a b c.
Proof.
  intros Ha Hb Hc HA HB HC Hk Hkp. assert (Hz : length zeros = pgsize) by apply length_replicate.
  assert (H1 : 0 <= 7 < 4096) by lia. assert (H2 : 0 <= PTE_P < 4096) by (unfold PTE_P; lia).
  assert (Hz1 : forall v, length (put64 zeros 511 v) = pgsize) by (intros; apply length_put64; [lia|done]).
  split; [| | | |done|done].
  - intros i Hi. rewrite (word_put64 _ _ _ _ _ _ HA (Hz1 _)), (get_put64 _ _ _ _ Hz) by lia.
    rewrite get_zeros by lia. destruct (decide (i = 0)) as [->|].
    + rewrite decide_True by done. apply (page_flags_u64 b 7 Hb H1).
    + rewrite decide_False by done. by repeat case_decide.
  - intros i Hi. rewrite (word_put64 _ _ _ _ _ _ HB Hz), get_zeros by lia.
    destruct (decide (i = 0)) as [->|]; [|by rewrite decide_False].
    rewrite decide_True by done. apply (page_flags_u64 c 7 Hc H1).
  - split; rewrite (word_put64 _ _ _ _ _ _ HC (Hz1 _)) by lia.
    + rewrite decide_False, (get_put64 _ _ _ _ Hz), decide_True by lia.
      apply (page_flags_u64 a PTE_P Ha H2).
    + rewrite decide_True by lia. apply (page_flags_u64 b PTE_P Hb H2).
  - split; try done.
    intros i Hi. rewrite lookup_empty. unfold NPGDIR in Hi.
      rewrite (word_put64 _ _ _ _ _ _ HC (Hz1 _)), decide_False by lia.
      rewrite (get_put64 _ _ _ _ Hz), decide_False by lia. apply get_zeros. lia.
Qed.

(** Writes to a page in use, keeping [mem_ok]. *)
Lemma store_page_wp s l pg i p v addr Q : mem_ok s l -> page_ok kend pg -> 0 <= i < 512 ->
  addr = pg + 8 * i -> pages s !! pg = Some p ->
  (forall s', mem_ok s' l -> pages s' = <[pg := put64 p i v]> (pages s) -> kpdpt s' = kpdpt s ->
     Q tt s' []) ->
  wp (store64 addr v) s Q.
Proof.
  intros Hmo Hpg Hi -> Hp HQ. apply (store64_wp s pg i v p); [by apply (page_ok_mod kend)|done|done|].
  apply HQ; [|done|done]. apply (mem_ok_insert kend s l pg p); [done|done|].
  apply length_put64; [done|]. by apply (mo_size _ _ _ Hmo pg).
Qed.

Lemma zero_page_wp s l pg p Q : mem_ok s l -> page_ok kend pg -> pages s !! pg = Some p ->
  (forall s', mem_ok s' l -> pages s' = <[pg := zeros]> (pages s) -> kpdpt s' = kpdpt s ->
     Q tt s' []) ->
  wp (memset pg 0 pgsize) s Q.
Proof.
  intros Hmo Hpg Hp HQ. apply (memset_wp s pg p);
    [by apply (page_ok_mod kend)|done|by apply (mo_size _ _ _ Hmo pg)|].
  apply HQ; [|done|done]. apply (mem_ok_insert kend s l pg p); [done|done|apply length_replicate].
Qed.

Lemma setupkvm_wp s a b c l Q : mem_ok s (a :: b :: c :: l) ->
  (forall s', mem_ok s' l -> new_space s s' a b c -> Q c s' []) -> wp setupkvm s Q.
Proof.
  intros Hmo HQ. unfold setupkvm.
  pose proof (fp_nodup _ _ _ (mo_free _ _ _ Hmo)) as Hnd.
  rewrite !NoDup_cons, !not_elem_of_cons in Hnd. destruct Hnd as ((Hab & Hac & _) & (Hbc & _) & _).
  apply wp_bind, (kalloc_page_wp kend s (a :: b :: c :: l)); [done|done|].
  intros ? ? pa s1 [= <- <-] Hmo1 Hp1 Hk1 Hla Ha Hna.
  apply wp_bind, (kalloc_page_wp kend s1 (b :: c :: l)); [done|done|].
  intros ? ? pb s2 [= <- <-] Hmo2 Hp2 Hk2 Hlb Hb Hnb.
  apply wp_bind, (kalloc_page_wp kend s2 (c :: l)); [done|done|].
  intros ? ? pc s3 [= <- <-] Hmo3 Hp3 Hk3 Hlc Hc Hnc.
  rewrite Hp2, Hp1 in Hp3.
  apply wp_bind, (zero_page_wp s3 l a pa); [done|done|rewrite Hp3; look|]. intros s4 Hmo4 Hp4 Hk4.
  apply wp_bind, (zero_page_wp s4 l b pb); [done|done|rewrite Hp4, Hp3; look|]. intros s5 Hmo5 Hp5 Hk5.
  apply wp_bind, (zero_page_wp s5 l c pc); [done|done|rewrite Hp5, Hp4, Hp3; look|].
  intros s6 Hmo6 Hp6 Hk6. apply wp_bind, wp_gets. cbn beta.
  rewrite <-!Z.lor_assoc. change (Z.lor PTE_P (Z.lor PTE_W PTE_U)) with 7.
  apply wp_bind, (store_page_wp s6 l a 511 zeros); [done|done|lia|apply (u64_word kend); done || lia|
    rewrite Hp6, Hp5, Hp4; look|]. intros s7 Hmo7 Hp7 Hk7.
  apply wp_bind, (store_page_wp s7 l a 0 (put64 zeros 511 (Z.lor (v2p (kpdpt s6)) 7)));
    [done|done|lia|lia|rewrite Hp7; look|]. intros s8 Hmo8 Hp8 Hk8.
  apply wp_bind, (store_page_wp s8 l b 0 zeros);
    [done|done|lia|lia|rewrite Hp8, Hp7, Hp6, Hp5; look|]. intros s9 Hmo9 Hp9 Hk9.
  apply wp_bind, (store_page_wp s9 l c 511 zeros);
    [done|done|lia|apply (u64_word kend); done || lia|rewrite Hp9, Hp8, Hp7, Hp6; look|].
  intros s10 Hmo10 Hp10 Hk10.
  apply wp_bind, (store_page_wp s10 l c 510 (put64 zeros 511 (Z.lor a PTE_P)));
    [done|done|lia|apply (u64_word kend); done || lia|rewrite Hp10; look|].
  intros s11 Hmo11 Hp11 Hk11. wp_steps. apply HQ; [done|].
  assert (Hk : kpdpt s6 = kpdpt s) by congruence. rewrite Hk in *.
  apply new_space_intro; try done.
  - rewrite Hp11, Hp10, Hp9, Hp8. look.
  - rewrite Hp11, Hp10, Hp9. look.
  - rewrite Hp11. look.
  - assert (Hnb0 : pages s !! b = None) by (apply (mo_fresh _ _ _ Hmo); set_solver).
    assert (Hnc0 : pages s !! c = None) by (apply (mo_fresh _ _ _ Hmo); set_solver).
    intros x p Hx. rewrite Hp11, Hp10, Hp9, Hp8, Hp7, Hp6, Hp5, Hp4, Hp3. look.
  - congruence.
Qed.

(** allocuvm does not look at the result of mappages: with one page left it takes it
    for the frame of the first page, finds no page for the table, and reports success
    with nothing mapped. *)
Theorem allocuvm_reports_unmapped_page s f pgdir : mem_ok s [f] -> aspace (pages s) pgdir ∅ ∅ ->
  wp (allocuvm kend pgdir 0 4096) s (fun r s' _ => r = 4096 /\ exists T, aspace (pages s') pgdir T ∅).
Proof.
  intros Hmo H. unfold allocuvm. cbv zeta. change (u32 0) with 0. change (u32 4096) with 4096.
  change (KERNBASE <=? 4096) with false. change (4096 <? 0) with false. cbv iota.
  change (PGROUNDUP 0) with (4096 * 0). change (Z.to_nat (4096 / PGSIZE + 1)) with 2%nat.
  cbn [allocuvm_loop]. change (4096 * 0 <? 4096) with true. cbv iota. apply wp_bind, wp_bind.
  apply (kalloc_page_wp kend s [f]); [done|done|]. intros ? ? p s1 [= <- <-] Hmo1 Hp1 Hk1 Hlp Hf Hn.
  destruct (Z.eqb_spec f 0) as [->|_]; [destruct Hf; lia|]. apply wp_bind.
  apply (memset_wp s1 f p); [by apply (page_ok_mod kend)|rewrite Hp1; apply lookup_insert_eq|done|].
  destruct (fresh_frame s s1 f [] p (replicate pgsize 0) pgdir ∅ ∅ Hmo Hmo1 Hp1 Hk1
              (length_replicate _ _) H) as (Hmo2 & H2 & Hp2 & _ & Ho).
  change (u8 0) with 0. revert Hmo2 H2 Hp2. set (s2 := set_pages _ s1). intros Hmo2 H2 Hp2.
  apply wp_bind, (map_one_wp s2 [] pgdir ∅ ∅ 0 f); try done.
  { rewrite Hp2, lookup_insert_eq. by eexists. }
  intros r s3 l3 T3 k tl [Hres _ Hsp _ Hl _ Hnew _ _ _ _].
  symmetry in Hl. apply app_nil in Hl as [-> ->].
  assert (HT : T3 = ∅).
  { apply map_empty. intros i. destruct (T3 !! i) as [a|] eqn:E; [|done].
    destruct (Hnew i a E) as [?|?%not_elem_of_nil]; [|done]. by rewrite lookup_empty in *. }
  change (u64 (4096 * 0 + PGSIZE) <? 4096) with false. cbv iota. wp_steps. split; [done|].
  destruct Hres as [[_ ->]|(_ & Hk & _)]; [|assert (k = 0%nat) as -> by lia; by exists T3].
  exfalso. cbn [map_pages] in Hsp.
  destruct (as_map _ _ _ _ _ Hsp 0 f _ (lookup_insert_eq _ _ _)) as [[t Ht] _]. subst T3. done.
Qed.

(** ** Properties *)

(** deallocuvm shrinks a process from oldsz to newsz bytes: exactly the pages above
    the new size are unmapped, their frames, and no other page, go back on the free
    list, and no other mapping or memory changes; it returns the new size (the old one,
    changing nothing, when newsz >= oldsz).  It relies on no page of the range being
    mapped above a missing page table. *)
Theorem deallocuvm_shrinks s l pgdir T M oldsz newsz :
  mem_ok s l -> aspace (pages s) pgdir T M -> 0 <= newsz -> 0 <= oldsz <= UTOP ->
  tables_below T M (npages newsz) (npages oldsz) ->
  wp (deallocuvm kend pgdir oldsz newsz) s (fun r s' _ =>
    if decide (newsz < oldsz)
    then r = newsz /\ exists fs, unmapped pgdir (npages newsz) (npages oldsz) s l T M s' fs
    else r = oldsz /\ s' = s).
Proof.
  intros Hmo H Hn Ho Htb. case_decide.
  - apply (deallocuvm_wp s l pgdir T M); try done; [lia|]. intros s' fs Hu. split; [done|]. by exists fs.
  - unfold deallocuvm. rewrite (proj2 (Z.leb_le _ _)) by lia. wp_steps.
    rewrite i32_small by (change UTOP with 1069547520 in *; lia). done.
Qed.

(** allocuvm grows a process from oldsz to newsz bytes.  With a free page for every
    new page and every missing table it returns newsz, and exactly the new pages are
    mapped, user-accessible, to distinct zeroed pages taken from the free list.  When memory runs out
    in the middle it unmaps what it mapped and returns 0 with the old mappings (the
    tables it added stay).  There is one more outcome: if memory runs out exactly at
    the table of the last page, it still returns newsz, with that page unmapped.  No
    other memory changes, and it returns oldsz when newsz < oldsz. *)
Theorem allocuvm_grows s l pgdir T M oldsz newsz n :
  mem_ok s l -> aspace (pages s) pgdir T M -> 0 <= oldsz <= UTOP -> 0 <= newsz <= UTOP ->
  Z.of_nat n = Z.max 0 (npages newsz - npages oldsz) ->
  (forall w, npages oldsz <= w < npages newsz -> M !! w = None) ->
  wp (allocuvm kend pgdir oldsz newsz) s (fun r s' _ =>
    if decide (newsz < oldsz) then r = oldsz /\ s' = s
    else allocuvm_post pgdir oldsz newsz n s l T M r s' /\
         ((n + need T (npages oldsz) n <= length l)%nat -> r = newsz /\
            exists l' T' M', extended pgdir (npages oldsz) n s l T M s' l' T' M')).
Proof.
  intros Hmo H Ho Hw Hn HM. case_decide.
  - unfold allocuvm. cbv zeta. change UTOP with 1069547520 in *. rewrite !u32_small by lia.
    rewrite (proj2 (Z.leb_gt _ _)) by (unfold KERNBASE; lia).
    rewrite (proj2 (Z.ltb_lt _ _)) by lia. wp_steps. by rewrite i32_small by lia.
  - apply (allocuvm_wp s l pgdir T M oldsz newsz n); try done; try lia.
    assert (npages oldsz <= npages newsz) by (unfold npages; lia_dm). lia.
Qed.
End user.

(** ** A machine with twenty free pages and one address space *)

Lemma wp_final {S A} (m : K S A) s Q : wp m s Q -> exists a t, m s = (t, Ret a (final (m s).2)) /\
  Q a (final (m s).2) t.
Proof. unfold wp. destruct (m s) as [t [a s'|]]; [|done]. by exists a, t. Qed.

Definition demo_kmem20 : kmem :=
  final ((kinit1 demo_kend demo_p1 (demo_p1 + 6 * PGSIZE) ;;;
          kinit2 demo_kend demo_p2 (demo_p2 + 14 * PGSIZE)) demo_kmem0).2.
Definition demo_kpdpt : Z := KERNBASE + KALLOC_START + 64 * PGSIZE.
Definition demo_mem : memory := Memory demo_kmem20 ∅ demo_kpdpt.
Definition demo_vm : memory := final (setupkvm demo_mem).2.
Definition demo_pgdir : Z := demo_p2 + 11 * PGSIZE.
Definition demo_first : Z := demo_p2 + 10 * PGSIZE.
Definition demo_list : list Z := rev (page_range demo_p2 11) ++ rev (page_range demo_p1 6).

Lemma demo_kend_ok : KERNBASE < demo_kend.
Proof. done. Qed.

Lemma demo_mem_ok : mem_ok demo_kend demo_mem (rev (page_range demo_p2 14) ++ rev (page_range demo_p1 6)).
Proof.
  split; [|done|done].
  split; [vm_compute; repeat (split; [done|]; split; [done|]; eexists; split; [done|]); done| | |done].
  - apply (bool_decide_unpack _). by vm_compute.
  - eapply Forall_impl; [|intros v; apply page_okb_ok].
    apply (bool_decide_unpack _). by vm_compute.
Qed.

Lemma demo_vm_ok : mem_ok demo_kend demo_vm demo_list /\
  aspace demo_kend (pages demo_vm) demo_pgdir ∅ ∅.
Proof.
  pose proof (setupkvm_wp demo_kend demo_kend_ok demo_mem _ _ _ _ (fun r s' _ => r = demo_pgdir /\
    mem_ok demo_kend s' demo_list /\ aspace demo_kend (pages s') demo_pgdir ∅ ∅) demo_mem_ok) as H.
  destruct (wp_final _ _ _ (H ltac:(intros s' Hmo Hns; split_and!; [done|done|apply Hns])))
    as (a & t & _ & _ & H1 & H2).
  split; [exact H1|exact H2].
Qed.

(** Two pages allocated. *)
Definition demo_vm2 : memory := final (allocuvm demo_kend demo_pgdir 0 8192 demo_vm).2.

Lemma demo_vm2_ok : exists l T M, mem_ok demo_kend demo_vm2 l /\
  aspace demo_kend (pages demo_vm2) demo_pgdir T M /\ (14 <= length l)%nat /\
  (forall w, 0 <= w < 2 -> exists f, M !! w = Some (f, 7)) /\ (forall w, ~ (0 <= w < 2) -> M !! w = None).
Proof.
  destruct demo_vm_ok as [Hmo H].
  pose proof (allocuvm_wp demo_kend demo_kend_ok demo_vm demo_list demo_pgdir ∅ ∅ 0 8192 2
    (fun r s' _ => exists l' T' M', extended demo_kend demo_pgdir 0 2 demo_vm demo_list ∅ ∅ s' l' T' M')
    Hmo H ltac:(lia) ltac:(done) ltac:(done) ltac:(done)) as Hrun.
  destruct (wp_final _ _ _ (Hrun ltac:(intros r s' _ He; apply He; vm_compute; lia)))
    as (a & t & _ & l' & T' & M' & He).
  exists l', T', M'. destruct He as [E1 E2 E3 E4 _ _ _ _ Ec _]. split_and!; [done|done| | |].
  - assert (Hl : length demo_list = 17%nat) by done. assert (Hn : need ∅ 0 2 = 1%nat) by (by vm_compute).
    rewrite Hl, Hn in Ec. lia.
  - intros w Hw. destruct (E4 w) as (f & _ & Hf & _); [lia|]. by exists f.
  - intros w Hw. rewrite E3 by lia. done.
Qed.

Lemma deallocuvm_shrinks_witness : exists l T M, is_Some (M !! 1) /\
  wp (deallocuvm demo_kend demo_pgdir 8192 4096) demo_vm2 (fun r s' _ =>
    if decide (4096 < 8192)
    then r = 4096 /\ exists fs, unmapped demo_kend demo_pgdir (npages 4096) (npages 8192)
           demo_vm2 l T M s' fs
    else r = 8192 /\ s' = demo_vm2).
Proof.
  destruct demo_vm2_ok as (l & T & M & Hmo & H & _ & Hin & Hout). exists l, T, M. split.
  - destruct (Hin 1) as [f Hf]; [lia|]. by eexists.
  - apply (deallocuvm_shrinks demo_kend demo_kend_ok demo_vm2 l demo_pgdir T M).
    + exact Hmo.
    + exact H.
    + lia.
    + done.
    + change (npages 4096) with 1. change (npages 8192) with 2. intros w u Hu Hw _.
      replace u with w by lia. destruct (Hin w) as [f Hf]; [lia|]. destruct (as_map _ _ _ _ _ H _ _ _ Hf) as [Ht _]. exact Ht.
Defined.

Lemma allocuvm_grows_witness : wp (allocuvm demo_kend demo_pgdir 0 8192) demo_vm (fun r s' _ =>
  if decide (8192 < 0) then r = 0 /\ s' = demo_vm
  else allocuvm_post demo_kend demo_pgdir 0 8192 2 demo_vm demo_list ∅ ∅ r s' /\
       ((2 + need ∅ (npages 0) 2 <= length demo_list)%nat -> r = 8192 /\
          exists l' T' M', extended demo_kend demo_pgdir (npages 0) 2 demo_vm demo_list ∅ ∅ s' l' T' M')).
Proof.
  destruct demo_vm_ok as [Hmo H].
  apply (allocuvm_grows demo_kend demo_kend_ok demo_vm demo_list demo_pgdir ∅ ∅ 0 8192 2).
  - exact Hmo.
  - exact H.
  - done.
  - done.
  - done.
  - done.
Defined.

(** The memory after a page was taken for the mapping. *)
Definition demo_vm1 : memory := final (kalloc_page demo_vm).2.

Lemma kalloc_frame_wp kend s a l pgdir T M : mem_ok kend s (a :: l) ->
  aspace kend (pages s) pgdir T M ->
  wp kalloc_page s (fun _ s' _ => mem_ok kend s' l /\ aspace kend (pages s') pgdir T M /\
    frames_ok kend (pages s') pgdir T M a 1).
Proof.
  intros Hmo H. apply (kalloc_page_wp kend s (a :: l)); [done|done|].
  intros ? ? p s' [= <- <-] Hmo' Hp' _ _ Hok Hn. rewrite Hp'.
  pose proof (fresh_outside _ _ _ _ _ _ H Hn) as Ho.
  split_and!; [done|by apply aspace_insert_outside|].
  intros k Hk. replace k with 0%nat by lia. cbv zeta. rewrite Z.mul_0_l, Z.add_0_r.
  split_and!; [done|rewrite lookup_insert_eq; by eexists|done].
Qed.

Lemma demo_vm1_ok : mem_ok demo_kend demo_vm1 (tail demo_list) /\
  aspace demo_kend (pages demo_vm1) demo_pgdir ∅ ∅ /\
  frames_ok demo_kend (pages demo_vm1) demo_pgdir ∅ ∅ demo_first 1.
Proof.
  destruct demo_vm_ok as [Hmo H].
  destruct (wp_final _ _ _ (kalloc_frame_wp _ _ _ _ _ _ _ Hmo H)) as (a & t & _ & Hres).
  exact Hres.
Qed.

Lemma mappages_maps_witness :
  wp (mappages demo_pgdir 5000 100 (v2p demo_first) (Z.lor PTE_W PTE_U)) demo_vm1 (fun r s' _ =>
    exists l' T' k tl, mapped demo_kend demo_pgdir (5000 / 4096) demo_first 7 1 demo_vm1
      (tail demo_list) ∅ ∅ r s' l' T' k tl).
Proof.
  destruct demo_vm1_ok as (Hmo & H & Hf).
  refine (proj1 (mappages_maps demo_kend demo_vm1 (tail demo_list) demo_pgdir ∅ ∅ 5000 100 demo_first
           (Z.lor PTE_W PTE_U) 1 Hmo H _ _ _ _ _ Hf) _).
  - lia.
  - lia.
  - vm_compute. discriminate.
  - vm_compute. split; [discriminate|reflexivity].
  - vm_compute. reflexivity.
  - intros k _. apply lookup_empty.
Defined.
