(* ===== verification/VmCopy.v ===== *)
(** * Whole address spaces: freevm, copyuvm, uva2ka, copyout and inituvm

    The rest of vm.c's operations, against the address spaces of VmSpace. *)

From stdpp Require Import base list gmap strings fin_maps fin_map_dom sets.
From Stdlib Require Import ZArith Lia.
From S2P Require Import Prelude CString Bytes Spinlock Kalloc Vm VmSpace VmUser.
Open Scope Z_scope.

(** The part deallocuvm covers when it is called by freevm. *)
Definition FREETOP : Z := 1067450368.

Section copy.
Context (kend : Z) (Hkend : KERNBASE < kend).

Notation mem_ok := (mem_ok kend).
Notation aspace := (aspace kend).

(** ** freevm *)

(** All the pages of the address space, and only they, are freed. *)
Record freed (pgdir : Z) (s : memory) (l : list Z) (T : gmap Z Z) (M : gmap Z (Z * Z))
    (s' : memory) (l' : list Z) : Prop := {
  fr_mem : mem_ok s' l';
  fr_list : forall x, x ∈ l' <-> x ∈ l \/ x = pgdir \/ (exists i, T !! i = Some x) \/
    (exists w fl, M !! w = Some (x, fl));
  fr_keeps : forall x p, pages s !! x = Some p -> x ∉ l' -> pages s' !! x = Some p;
  fr_dom : forall x, pages s !! x = None -> pages s' !! x = None;
  fr_kpdpt : kpdpt s' = kpdpt s;
}.

(** The loop over the directory frees the tables of its first [k] entries. *)
Definition tables_freed (pgdir : Z) (s : memory) (l : list Z) (T : gmap Z Z) (k : nat)
    (s' : memory) : Prop :=
  exists l', mem_ok s' l' /\
    (forall x, x ∈ l' <-> x ∈ l \/ exists i, 0 <= i < Z.of_nat k /\ T !! i = Some x) /\
    (forall x p, pages s !! x = Some p -> x ∉ l' -> pages s' !! x = Some p) /\
    (forall x, pages s !! x = None -> pages s' !! x = None) /\ kpdpt s' = kpdpt s.

Lemma free_tables_wp s l pgdir T M Q : mem_ok s l -> aspace (pages s) pgdir T M ->
  (forall s', tables_freed pgdir s l T 510 s' -> Q tt s') ->
  wp (for_each (map Z.of_nat (seq 0 510)) (fun i =>
        let! e := load64 (u64 (pgdir + 8 * i)) in
        kwhen (has e PTE_P) (kfree_page kend (p2v (PTE_ADDR e))))) s (fun r s' _ => Q r s').
Proof.
  intros Hmo H HQ.
  assert (Hlen : length (map Z.of_nat (seq 0 510)) = 510%nat) by (by rewrite length_map, length_seq).
  eapply wp_mono;
    [eapply (wp_for_each _ _ (fun k s' _ => tables_freed pgdir s l T k s'))|
     intros u s' t Ht; rewrite Hlen in Ht; destruct u; by apply HQ].
  - exists l. split_and!; try done. intros x. split; [by left|]. intros [?|(i & Hi & _)]; [done|lia].
  - intros k x s1 t1 Hk (l1 & Hmo1 & Hl1 & Hk1 & Hd1 & Hp1).
    rewrite list_lookup_fmap in Hk. apply fmap_Some in Hk as (k' & Hk & ->).
    apply lookup_seq in Hk as [-> Hlt]. simpl plus.
    destruct (as_dir _ _ _ _ _ H) as [Hdok [dp Hdp]].
    assert (Hnd : forall i t, T !! i = Some t -> pages s !! t <> None /\ t <> pgdir /\ page_ok kend t).
    { intros i t Ht. destruct (as_tab _ _ _ _ _ H _ _ Ht) as (_ & ? & [? ?] & ?). split_and!; congruence || done. }
    assert (Hd1' : pages s1 !! pgdir = Some dp).
    { apply Hk1; [done|]. rewrite Hl1. intros [Hx|(i & _ & Hi)].
      - rewrite (mo_fresh _ _ _ Hmo) in Hdp by done. done.
      - by destruct (Hnd i pgdir Hi) as (_ & ? & _). }
    apply wp_bind. rewrite (u64_word kend) by (done || lia).
    apply load64_wp; [by apply (page_ok_mod kend)|lia|by eexists|].
    assert (Hword : word (pages s1) pgdir (Z.of_nat k) =
              match T !! Z.of_nat k with Some t => Z.lor (v2p t) 7 | None => 0 end).
    { rewrite <-(as_pde _ _ _ _ _ H) by (unfold NPGDIR; lia). unfold word. by rewrite Hd1', Hdp. }
    rewrite Hword. destruct (T !! Z.of_nat k) as [t|] eqn:ET.
    + destruct (Hnd _ _ ET) as (Htn & Htd & Htok). rewrite has_odd, odd_lor, orb_true_r.
      pose proof (page_ok_phys kend t Htok) as [Htm _].
      rewrite PTE_ADDR_lor, (p2v_v2p kend) by (done || lia). cbn [kwhen].
      destruct (pages s !! t) as [tp|] eqn:Etp; [|done].
      assert (Htl : t ∉ l1).
      { rewrite Hl1. intros [Hx|(i & Hi & Hti)].
        - rewrite (mo_fresh _ _ _ Hmo) in Etp by done. done.
        - pose proof (as_tab_inj _ _ _ _ _ H _ _ _ ET Hti). lia. }
      apply (kfree_page_wp kend s1 l1); [done|done|exists tp; by apply Hk1|].
      intros s2 Hmo2 Hp2 Hkp2. exists (t :: l1). split_and!; [done| | | |congruence].
      * intros x. rewrite elem_of_cons, Hl1. split.
        -- intros [->|[?|(i & Hi & Hti)]]; [right|by left|right].
           ++ exists (Z.of_nat k). split; [lia|done].
           ++ exists i. split; [lia|done].
        -- intros [?|(i & Hi & Hti)]; [by right; left|].
           destruct (decide (i = Z.of_nat k)) as [->|]; [left; congruence|].
           right. right. exists i. split; [lia|done].
      * intros x p Hx Hn. apply not_elem_of_cons in Hn as [Hne Hn].
        rewrite Hp2, lookup_delete_ne by done. by apply Hk1.
      * intros x Hx. rewrite Hp2. apply lookup_delete_None. right. by apply Hd1.
    + change (has 0 PTE_P) with false. cbn [kwhen]. wp_steps. exists l1. split_and!; try done.
      intros x. rewrite Hl1. split; (intros [?|(i & Hi & Hti)]; [by left|right]).
      * exists i. split; [lia|done].
      * exists i. destruct (decide (i = Z.of_nat k)) as [->|]; [congruence|]. split; [lia|done].
Qed.

Lemma freevm_wp s l pgdir T M Q : mem_ok s l -> aspace (pages s) pgdir T M ->
  (forall w x, M !! w = Some x -> 0 <= w < npages FREETOP) -> tables_below T M 0 (npages FREETOP) ->
  (forall s' l', freed pgdir s l T M s' l' -> Q tt s') ->
  wp (freevm kend pgdir) s (fun r s' _ => Q r s').
Proof.
  intros Hmo H HM Htb HQ. destruct (as_dir _ _ _ _ _ H) as [Hdok [dp Hdp]].
  pose proof (page_ok_range kend _ Hdok) as (_ & Hpos & _). unfold freevm.
  destruct (Z.eqb_spec pgdir 0); [lia|]. apply wp_bind.
  apply (deallocuvm_wp kend Hkend s l pgdir T M 1067450368 0); try done.
  intros s1 fs [U1 U2 U3 U4 U5 U6]. apply wp_bind.
  eapply wp_mono; [eapply (free_tables_wp s1 _ pgdir T _ (fun _ s2 => tables_freed pgdir s1 (fs ++ l) T 510 s2));
                   [done|done|done]|].
  intros [] s2 t2 (l2 & Hmo2 & Hl2 & Hk2 & Hd2 & Hkp2). cbn beta.
  assert (Hd1 : exists dp1, pages s1 !! pgdir = Some dp1) by apply (as_dir _ _ _ _ _ U2).
  destruct Hd1 as [dp1 Hdp1].
  assert (Hdl2 : pgdir ∉ l2).
  { rewrite Hl2. intros [Hx|(i & _ & Hi)].
    - rewrite (mo_fresh _ _ _ U1) in Hdp1 by done. done.
    - by destruct (as_tab _ _ _ _ _ H _ _ Hi) as (_ & _ & _ & ?). }
  apply (kfree_page_wp kend s2 l2); [done|done|exists dp1; by apply Hk2|].
  intros s3 Hmo3 Hp3 Hkp3. apply (HQ s3 (pgdir :: l2)).
  assert (Hlist : forall x, x ∈ pgdir :: l2 <-> x ∈ l \/ x = pgdir \/ (exists i, T !! i = Some x) \/
    (exists w fl, M !! w = Some (x, fl))).
  { intros x. rewrite elem_of_cons, Hl2, elem_of_app, U3. split.
    - intros [->|[[(w & fl & _ & Hw)|?]|(i & _ & Hi)]]; [tauto|right; right; right; eauto|tauto|].
      right; right; left; eauto.
    - intros [?|[->|[[i Hi]|(w & fl & Hw)]]]; [tauto|tauto| |].
      + right; right. exists i. split; [|done].
        destruct (as_tab _ _ _ _ _ H _ _ Hi) as (Hr & _). unfold NPGDIR in Hr. lia.
      + right; left; left. exists w, fl. split; [|done]. apply HM in Hw. exact Hw. }
  split; [done|done| | |congruence].
  - intros x p Hx Hn. rewrite Hp3, lookup_delete_ne by (intros <-; apply Hn; left).
    rewrite Hlist in Hn. apply Hk2; [|intros Hx2; apply Hn, Hlist; by right].
    apply U4; [done|tauto| |].
    + intros i Hi. apply Hn. right; right; left. by exists i.
    + rewrite U3. intros (w & fl & _ & Hw). apply Hn. right; right; right. by exists w, fl.
  - intros x Hx. rewrite Hp3. apply lookup_delete_None. right. by apply Hd2, U5.
Qed.

(** ** copyuvm *)

Lemma whole_slice l : length l = pgsize -> slice l 0 pgsize = l.
Proof. intros Hl. unfold slice. by rewrite drop_0, take_ge by lia. Qed.

Lemma whole_splice l d : length l = pgsize -> length d = pgsize -> splice l 0 d = d.
Proof. intros Hl Hd. unfold splice. rewrite take_0, drop_ge by lia. by rewrite app_nil_r. Qed.

Lemma read_page_wp s pg p Q : page_ok kend pg -> pages s !! pg = Some p -> length p = pgsize ->
  Q p s [] -> wp (read_bytes pg pgsize) s Q.
Proof.
  intros Hpg Hp Hl HQ. unfold read_bytes, with_page. wp_steps.
  destruct (page_of_page pg) as [-> ->]; [by apply (page_ok_mod kend)|]. rewrite Hp.
  rewrite decide_True by lia. wp_steps. by rewrite whole_slice.
Qed.

Lemma write_page_wp s l pg p d Q : mem_ok s l -> page_ok kend pg -> pages s !! pg = Some p ->
  length d = pgsize ->
  (let s' := set_pages (<[pg := d]> (pages s)) s in mem_ok s' l -> Q tt s' []) ->
  wp (write_bytes pg d) s Q.
Proof.
  intros Hmo Hpg Hp Hd HQ. pose proof (mo_size _ _ _ Hmo _ _ Hp) as Hl. unfold write_bytes, with_page. wp_steps.
  destruct (page_of_page pg) as [Hof Hoff]; [by apply (page_ok_mod kend)|]. rewrite Hof, Hoff, Hp.
  rewrite decide_True by lia. unfold put_page. wp_steps. rewrite Hof, whole_splice by done.
  apply HQ. by apply (mem_ok_insert kend s l pg p).
Qed.

(** The pages below [v] of the parent's mapping [M] (in the memory [s0] before the
    copy) are copied: same flags, same contents, in pages that were free. *)
Record copied (s0 : memory) (d : Z) (M : gmap Z (Z * Z)) (v : Z) (s : memory) (l : list Z)
    (Td : gmap Z Z) (Md : gmap Z (Z * Z)) : Prop := {
  cp_mem : mem_ok s l;
  cp_space : aspace (pages s) d Td Md;
  cp_keeps : forall x p, pages s0 !! x = Some p -> pages s !! x = Some p;
  cp_fresh : pages s0 !! d = None /\ (forall i t, Td !! i = Some t -> pages s0 !! t = None);
  cp_pages : forall w, 0 <= w < v -> exists f g fl b, M !! w = Some (f, fl) /\
    Md !! w = Some (g, fl) /\ pages s0 !! f = Some b /\ pages s !! g = Some b /\ pages s0 !! g = None;
  cp_only : forall w, ~ (0 <= w < v) -> Md !! w = None;
}.

(** The parent's address space is still there. *)
Lemma copied_parent s0 pgdir T M d v s l Td Md : aspace (pages s0) pgdir T M ->
  copied s0 d M v s l Td Md -> aspace (pages s) pgdir T M.
Proof.
  intros H Hc. pose proof (cp_keeps _ _ _ _ _ _ _ _ Hc) as Hk.
  assert (Hsame : forall x, is_Some (pages s0 !! x) -> pages s !! x = pages s0 !! x).
  { intros x [p Hp]. by rewrite Hp, (Hk x p). }
  apply (aspace_frame kend (pages s0)); [done| | |].
  - apply Hsame, H.
  - intros i t Hi. apply Hsame. by destruct (as_tab _ _ _ _ _ H _ _ Hi) as (_ & _ & ? & _).
  - intros w f fl Hw. destruct (as_map _ _ _ _ _ H _ _ _ Hw) as (_ & _ & Hs & _).
    by rewrite Hsame.
Qed.

Lemma lor_odd fl : 0 <= fl -> Z.odd fl = true -> Z.lor fl PTE_P = fl.
Proof.
  intros H0 Ho. apply Z.bits_inj'. intros n Hn. rewrite Z.lor_spec. unfold PTE_P.
  destruct (decide (n = 0)) as [->|].
  - by rewrite Z.bit0_odd, Ho.
  - replace (Z.testbit 1 n) with false; [by rewrite orb_false_r|]. symmetry.
    apply Z.bits_above_log2; simpl; lia.
Qed.

(** A fresh page [g] with the bytes [b] of the parent's page [v]: the child before it
    is mapped. *)
Lemma copied_fresh s0 d M v s l Td Md g p b s1 s2 : copied s0 d M v s (g :: l) Td Md ->
  mem_ok s1 l -> pages s1 = <[g := p]> (pages s) -> length b = pgsize ->
  pages s2 = <[g := b]> (pages s1) -> mem_ok s2 l ->
  copied s0 d M v s2 l Td Md /\ outside d Td Md g /\ pages s2 !! g = Some b /\ pages s0 !! g = None.
Proof.
  intros [C1 C2 C3 [C4 C5] C6 C7] Hmo1 Hp1 Hb Hp2 Hmo2.
  destruct (NoDup_cons_fresh kend _ _ _ C1) as [_ Hg].
  pose proof (fresh_outside kend _ _ _ _ _ C2 Hg) as Ho.
  assert (Hg0 : pages s0 !! g = None).
  { destruct (pages s0 !! g) as [q|] eqn:E; [|done]. apply C3 in E. congruence. }
  rewrite Hp1, insert_insert_eq in Hp2. split_and!; [split| | |]; try done.
  - rewrite Hp2. by apply aspace_insert_outside.
  - intros x q Hx. rewrite Hp2, lookup_insert_ne by congruence. by apply C3.
  - intros w Hw. destruct (C6 w Hw) as (f & g' & fl & b' & H1 & H2 & H3 & H4 & H5).
    exists f, g', fl, b'. split_and!; try done. rewrite Hp2, lookup_insert_ne by congruence. done.
  - rewrite Hp2. apply lookup_insert_eq.
Qed.

(** Mapping it, or failing to. *)
Lemma copied_mapped s0 d M v s l Td Md g b f fl r s' l' T' k tl :
  copied s0 d M v s l Td Md -> M !! v = Some (f, fl) -> 0 <= v -> pages s0 !! f = Some b ->
  pages s !! g = Some b -> pages s0 !! g = None -> outside d Td Md g ->
  mapped kend d v g fl 1 s l Td Md r s' l' T' k tl ->
  (r = 0 /\ copied s0 d M (v + 1) s' l' T' (<[v := (g, fl)]> Md)) \/
  (r = -1 /\ l' = [] /\ copied s0 d M v s' l' T' Md).
Proof.
  intros [C1 C2 C3 [C4 C5] C6 C7] HM Hv Hf Hg Hg0 Ho Hm.
  assert (Hlf : forall a, a ∈ tl -> pages s !! a = None).
  { intros a Ha. apply (mo_fresh _ _ _ C1). destruct Hm as [_ _ _ _ -> _ _ _ _ _ _]. apply elem_of_app. by left. }
  destruct Hm as [Hres Hmo Hsp Hk Hl Hsub Hnew _ _ _ _].
  assert (Hkeep : forall x p, pages s0 !! x = Some p -> pages s' !! x = Some p).
  { intros x p Hx. apply Hk; [by apply C3|congruence|]. intros i Hi. rewrite (C5 i x Hi) in Hx. done. }
  assert (Hfresh : forall i t, T' !! i = Some t -> pages s0 !! t = None).
  { intros i t Hi. destruct (Hnew i t Hi) as [?|Ht]; [by apply (C5 i)|].
    destruct (pages s0 !! t) as [q|] eqn:E; [|done]. apply C3 in E. rewrite Hlf in E; done. }
  assert (Hcopy : forall w, 0 <= w < v -> exists f g fl b, M !! w = Some (f, fl) /\
    Md !! w = Some (g, fl) /\ pages s0 !! f = Some b /\ pages s' !! g = Some b /\ pages s0 !! g = None).
  { intros w Hw. destruct (C6 w Hw) as (f1 & g1 & fl1 & b1 & H1 & H2 & H3 & H4 & H5).
    exists f1, g1, fl1, b1. split_and!; try done.
    destruct (as_map _ _ _ _ _ C2 _ _ _ H2) as (_ & _ & _ & Hd & HT & _). by apply Hk. }
  destruct Hres as [[-> ->]|(-> & Hk1 & ->)]; [left|right; assert (k = 0%nat) as -> by lia];
    cbn [map_pages] in Hsp; split_and!; try done; split; try done.
  - intros w Hw. destruct (decide (w = v)) as [->|].
    + exists f, g, fl, b. rewrite lookup_insert_eq. split_and!; try done.
      destruct Ho as (H1 & H2 & _). by apply Hk.
    + destruct (Hcopy w ltac:(lia)) as (f1 & g1 & fl1 & b1 & ? & ? & ?). exists f1, g1, fl1, b1.
      by rewrite lookup_insert_ne by done.
  - intros w Hw. rewrite lookup_insert_ne by lia. apply C7. lia.
Qed.

Lemma copyuvm_loop_wp n : forall fuel s0 s l pgdir T M d Td Md v sz Q,
  (n <= fuel)%nat -> aspace (pages s0) pgdir T M ->
  (forall x p, pages s0 !! x = Some p -> length p = pgsize) ->
  copied s0 d M v s l Td Md -> 0 <= v -> 0 <= sz <= UTOP -> npages sz = v + Z.of_nat n ->
  (forall w, 0 <= w < npages sz -> is_Some (M !! w)) ->
  (forall ok s' l' Td' Md' v', copied s0 d M v' s' l' Td' Md' -> 0 <= v' <= npages sz ->
     (ok = true -> v' = npages sz) ->
     ((n + need Td v n <= length l)%nat -> ok = true) -> Q ok s' []) ->
  wp (copyuvm_loop fuel pgdir d (4096 * v) sz) s Q.
Proof.
  induction n as [|n IH]; intros fuel s0 s l pgdir T M d Td Md v sz Q Hfuel H Hlen Hc Hv Hsz Hn HM HQ.
  { assert (E : 4096 * v <? sz = false) by (apply Z.ltb_ge; unfold npages in *; lia_dm).
    destruct fuel; cbn [copyuvm_loop]; rewrite E; wp_steps; apply (HQ true s l Td Md v); done || lia. }
  destruct fuel as [|fuel]; [lia|]. cbn [copyuvm_loop].
  assert (Hvt : v < 261120) by (change UTOP with 1069547520 in Hsz; unfold npages in Hn; lia_dm).
  assert (Hvu : 0 <= 4096 * v < UTOP) by (change UTOP with 1069547520; lia).
  assert (Hvv : 4096 * v / 4096 = v) by lia_dm. pose proof (PDX_dir _ Hvu) as Hpd. rewrite Hvv in Hpd.
  rewrite (proj2 (Z.ltb_lt _ _)) by (unfold npages in Hn; lia_dm).
  destruct (HM v ltac:(lia)) as [[f fl] HMv].
  pose proof (copied_parent _ _ _ _ _ _ _ _ _ _ H Hc) as Hpar.
  destruct (as_map _ _ _ _ _ H _ _ _ HMv) as ([t Ht] & Hf & [b Hb] & _ & _ & Hfl & Hodd).
  rewrite <-Hpd in Ht. pose proof (page_ok_phys kend f Hf) as [Hfm _].
  destruct (as_tab _ _ _ _ _ H _ _ Ht) as (_ & Htok & _). apply (page_ok_range kend) in Htok.
  destruct (vpn_split (4096 * v)) as (_ & _ & _ & Hx); [by apply UTOP_small|].
  apply wp_bind. eapply walk_found; [done|done|done|].
  destruct (Z.eqb_spec (t + 8 * PTX (4096 * v)) 0); [lia|].
  apply wp_bind. eapply pte_wp; [done|done|done|]. rewrite Hvv, HMv. cbn [pte_val].
  rewrite has_odd, odd_lor, Hodd, orb_true_r. cbn [negb].
  rewrite PTE_ADDR_lor, PTE_FLAGS_lor, (p2v_v2p kend) by done.
  apply wp_bind. apply (kalloc_page_wp kend s l); [by destruct Hc| |].
  { intros -> s1 Hmo1 Hp1 _. cbn. wp_steps. apply (HQ false s1 [] Td Md v); [|lia|done|simpl; lia].
    destruct Hc as [C1 C2 C3 C4 C6 C7]. by split; rewrite ?Hp1. }
  intros g l1 p s1 -> Hmo1 Hp1 _ Hlp Hg Hgn.
  destruct (Z.eqb_spec g 0) as [->|_]; [destruct Hg; lia|]. apply wp_bind.
  assert (Hfs : pages s !! f = Some b) by (by apply (cp_keeps _ _ _ _ _ _ _ _ Hc)).
  assert (Hbl : length b = pgsize) by (by apply (Hlen f)).
  apply (read_page_wp s1 f b); [done|rewrite Hp1, lookup_insert_ne by congruence; done|done|].
  apply wp_bind. apply (write_page_wp s1 l1 g p b); [done|done|rewrite Hp1; apply lookup_insert_eq|done|].
  cbv zeta. set (s2 := set_pages _ s1). intros Hmo2.
  destruct (copied_fresh s0 d M v s l1 Td Md g p b s1 s2 Hc Hmo1 Hp1 Hbl eq_refl Hmo2)
    as (Hc2 & Ho & Hg2 & Hg0).
  apply wp_bind. apply (map_one_wp kend s2 l1 d Td Md v g fl);
    [done|by destruct Hc2|lia|done|apply (cp_only _ _ _ _ _ _ _ _ Hc); lia|done|by eexists|done|].
  rewrite lor_odd by (done || lia). intros r s3 l3 T3 k tl Hm.
  pose proof (mp_enough _ _ _ _ _ _ _ _ _ _ _ _ _ _ _ _ Hm) as Hen.
  pose proof (mp_more _ _ _ _ _ _ _ _ _ _ _ _ _ _ _ _ Hm) as Hmore.
  pose proof (mp_list _ _ _ _ _ _ _ _ _ _ _ _ _ _ _ _ Hm) as Hl3.
  destruct (copied_mapped s0 d M v s2 l1 Td Md g b f fl r s3 l3 T3 k tl Hc2 HMv Hv Hb Hg2 Hg0 Ho Hm)
    as [[-> Hc3]|(-> & -> & Hc3)].
  - rewrite (proj2 (Z.ltb_ge _ _)) by lia. unfold PGSIZE. rewrite u64_small by lia.
    replace (4096 * v + 4096) with (4096 * (v + 1)) by lia.
    apply (IH fuel s0 s3 l3 pgdir T M d T3 (<[v := (g, fl)]> Md)); try done; try lia.
    intros ok s' l' Td' Md' v' Hc' Hv' Hok Henough. apply (HQ ok s' l' Td' Md' v'); try done.
    intros Hle. apply Henough. specialize (Hmore eq_refl n). cbn [length] in Hle.
    rewrite Hl3, length_app in Hle. change (1 + n)%nat with (S n) in Hmore.
    change (Z.of_nat 1) with 1 in Hmore. lia.
  - rewrite (proj2 (Z.ltb_lt _ _)) by lia. wp_steps.
    apply (HQ false s3 [] T3 Md v); [done|lia|done|]. intros Hle. exfalso.
    pose proof (need_first Td v n). cbn [length] in Hle. specialize (Hen ltac:(lia)). done.
Qed.

Lemma copied_contiguous s0 M sz v d s l Td Md : copied s0 d M v s l Td Md -> 0 <= v <= npages sz ->
  npages sz <= npages FREETOP ->
  (forall w x, Md !! w = Some x -> 0 <= w < npages FREETOP) /\ tables_below Td Md 0 (npages FREETOP).
Proof.
  intros [C1 C2 C3 C4 C6 C7] Hv Hsz.
  assert (Hin : forall w, is_Some (Md !! w) <-> 0 <= w < v).
  { intros w. split.
    - intros [x Hx]. destruct (decide (0 <= w < v)); [done|]. rewrite C7 in Hx by done. done.
    - intros Hw. destruct (C6 w Hw) as (f & g & fl & b & _ & Hg & _). by eexists. }
  split.
  - intros w x Hx. assert (0 <= w < v) by (apply Hin; by eexists). lia.
  - intros w u Hu Hw Hs. apply Hin in Hs. assert (Hux : is_Some (Md !! u)) by (apply Hin; lia).
    destruct Hux as [[f fl] Hf]. by destruct (as_map _ _ _ _ _ C2 _ _ _ Hf) as [? _].
Qed.

(** What copyuvm leaves: a complete copy, or nothing but pages given back. *)
Definition copyuvm_post (sz : Z) (s : memory) (M : gmap Z (Z * Z)) (r : Z) (s' : memory) : Prop :=
  (exists l' Td Md, r <> 0 /\ copied s r M (npages sz) s' l' Td Md) \/
  (exists l', r = 0 /\ mem_ok s' l' /\ forall x p, pages s !! x = Some p -> pages s' !! x = Some p).

Lemma copyuvm_wp s l pgdir T M sz n Q :
  mem_ok s l -> aspace (pages s) pgdir T M -> (3 <= length l)%nat ->
  0 <= sz <= FREETOP -> Z.of_nat n = npages sz ->
  (forall w, 0 <= w < npages sz -> is_Some (M !! w)) ->
  (forall r s', copyuvm_post sz s M r s' ->
     ((3 + n + need ∅ 0 n <= length l)%nat -> r <> 0) -> Q r s') ->
  wp (copyuvm kend pgdir sz) s (fun r s' _ => Q r s').
Proof.
  intros Hmo H Hl Hsz Hn HM HQ. destruct l as [|a [|b [|c l]]]; simpl in Hl; try lia.
  unfold copyuvm. cbv zeta. unfold FREETOP in Hsz. rewrite u32_small by lia. apply wp_bind.
  apply (setupkvm_wp kend Hkend s a b c l); [done|]. intros s1 Hmo1 [_ _ _ Hsp1 Hk1 _].
  destruct (as_dir _ _ _ _ _ Hsp1) as [Hcok _]. apply (page_ok_range kend) in Hcok.
  destruct (Z.eqb_spec c 0); [lia|].
  assert (Hc0 : pages s !! c = None) by (apply (mo_fresh _ _ _ Hmo); set_solver).
  assert (Hc1 : copied s c M 0 s1 l ∅ ∅).
  { split; try done; intros w Hw; lia. }
  apply wp_bind. change 0 with (4096 * 0) at 1.
  apply (copyuvm_loop_wp n _ s s1 l pgdir T M c ∅ ∅ 0 sz); try done; try lia.
  { unfold npages, PGSIZE in *. lia_dm. }
  { apply (mo_size _ _ _ Hmo). }
  { change UTOP with 1069547520. lia. }
  intros ok s2 l2 Td Md v Hc2 Hv Hok Hen. destruct ok.
  - wp_steps. apply HQ; [left|done]. rewrite (Hok eq_refl) in Hc2. by exists l2, Td, Md.
  - destruct (copied_contiguous s M sz v c s2 l2 Td Md Hc2 Hv) as [Hb1 Hb2].
    { unfold npages, FREETOP. lia_dm. }
    apply wp_bind. eapply wp_mono;
      [apply (freevm_wp s2 l2 c Td Md (fun _ s3 => exists l3, freed c s2 l2 Td Md s3 l3));
       [apply Hc2|apply Hc2|done|done|by eauto]|].
    intros _ s3 t3 [l3 [F1 F2 F3 F4 F5]]. wp_steps. apply HQ.
    + right. exists l3. split_and!; [done|done|]. intros x p Hx. destruct Hc2 as [C1 C2 C3 [C4 C5] C6 C7].
      apply F3; [by apply C3|]. rewrite F2. intros [Hx2|[->|[[i Hi]|(w & fl & Hw)]]].
      * apply C3 in Hx. rewrite (mo_fresh _ _ _ C1) in Hx by done. done.
      * congruence.
      * rewrite (C5 i) in Hx by done. done.
      * destruct (decide (0 <= w < v)) as [Hw'|]; [|rewrite C7 in Hw by done; done].
        destruct (C6 w Hw') as (f & g & fl' & b' & _ & Hg & _ & _ & Hg0). congruence.
    + intros Hle. assert (false = true); [|done]. apply Hen. cbn [length] in Hle. lia.
Qed.

(** freevm gives back every page of an address space: the frames of its user
    pages, its page tables and its page directory go on the free list, each once, and
    no other page does - so the two upper-level tables that setupkvm allocated with
    the directory stay in use for ever.  No other memory changes. *)
Theorem freevm_frees s l pgdir T M :
  mem_ok s l -> aspace (pages s) pgdir T M ->
  (forall w x, M !! w = Some x -> 0 <= w < npages FREETOP) -> tables_below T M 0 (npages FREETOP) ->
  wp (freevm kend pgdir) s (fun _ s' _ => exists l', freed pgdir s l T M s' l').
Proof.
  intros Hmo H HM Htb. apply (freevm_wp s l pgdir T M (fun _ s' => exists l', freed pgdir s l T M s' l')); eauto.
Qed.

(** C16. copyuvm copies the memory of a process: with enough free pages it returns a new
    page directory whose pages 0 to sz have the parent's flags and contents, in frames
    and tables that were free before, and every page in use before, the parent's
    address space among them, is unchanged.  When memory runs out it returns 0, and
    again everything in use before is unchanged.  (At least three pages must be free:
    setupkvm does not check its allocations.) *)
Theorem copyuvm_copies s l pgdir T M sz n :
  mem_ok s l -> aspace (pages s) pgdir T M -> (3 <= length l)%nat ->
  0 <= sz <= FREETOP -> Z.of_nat n = npages sz ->
  (forall w, 0 <= w < npages sz -> is_Some (M !! w)) ->
  wp (copyuvm kend pgdir sz) s (fun r s' _ => copyuvm_post sz s M r s' /\
     ((3 + n + need ∅ 0 n <= length l)%nat -> r <> 0)).
Proof.
  intros Hmo H Hl Hsz Hn HM.
  apply (copyuvm_wp s l pgdir T M sz n (fun r s' => copyuvm_post sz s M r s' /\
     ((3 + n + need ∅ 0 n <= length l)%nat -> r <> 0))); auto.
Qed.

(** ** copyout *)

(** The byte a user sees at [a]. *)
Definition ubyte (P : gmap Z (list Z)) (M : gmap Z (Z * Z)) (a : Z) : option Z :=
  match M !! (a / 4096) with
  | Some (f, _) => P !! f ≫= fun p => p !! Z.to_nat (a mod 4096)
  | None => None
  end.

(** Page [w] is mapped for the user. *)
Definition user_page (M : gmap Z (Z * Z)) (w : Z) : bool :=
  match M !! w with Some (_, fl) => has fl PTE_U | None => false end.

(** The first [k] bytes of [d] are in user memory at [va], and nothing else changed. *)
Record written (pgdir : Z) (T : gmap Z Z) (M : gmap Z (Z * Z)) (va : Z) (d : list Z) (k : Z)
    (s : memory) (l : list Z) (s' : memory) : Prop := {
  wr_mem : mem_ok s' l;
  wr_space : aspace (pages s') pgdir T M;
  wr_bytes : forall a, 0 <= a < UTOP -> ubyte (pages s') M a =
    if decide (va <= a < va + k) then d !! Z.to_nat (a - va) else ubyte (pages s) M a;
  wr_keeps : forall x p, pages s !! x = Some p -> (forall w fl, M !! w <> Some (x, fl)) ->
    pages s' !! x = Some p;
}.

Lemma uva2ka_wp s pgdir T M va Q : aspace (pages s) pgdir T M -> 0 <= va < UTOP ->
  is_Some (T !! (va / 4096 / 512)) ->
  Q (match M !! (va / 4096) with Some (f, fl) => if has fl PTE_U then f else 0 | None => 0 end) s [] ->
  wp (uva2ka pgdir va) s Q.
Proof.
  intros H Hva [t Ht] HQ. rewrite <-(PDX_dir va Hva) in Ht. unfold uva2ka. apply wp_bind.
  eapply walk_found; [done|done|done|]. apply wp_bind. eapply pte_wp; [done|done|done|].
  destruct (M !! (va / 4096)) as [[f fl]|] eqn:EM; cbn [pte_val].
  - destruct (as_map _ _ _ _ _ H _ _ _ EM) as (_ & Hf & _ & _ & _ & Hfl & Hodd).
    pose proof (page_ok_phys kend f Hf) as [Hfm _].
    rewrite has_odd, odd_lor, Hodd, orb_true_r, has_low by (unfold PTE_U; done || lia). cbn [negb].
    destruct (has fl PTE_U); cbn [negb]; wp_steps; [|done].
    by rewrite PTE_ADDR_lor, (p2v_v2p kend) by done.
  - change (has 0 PTE_P) with false. cbn [negb]. by wp_steps.
Qed.

Lemma user_written_nil pgdir T M va d s l : mem_ok s l -> aspace (pages s) pgdir T M ->
  written pgdir T M va d 0 s l s.
Proof. intros Hmo H. split; try done. intros a Ha. by rewrite decide_False by lia. Qed.

(** Writing inside the frame of one page. *)
Lemma write_user_wp s l pgdir T M va w f fl d Q : mem_ok s l -> aspace (pages s) pgdir T M ->
  0 <= va -> va / 4096 = w -> M !! w = Some (f, fl) -> va mod 4096 + Z.of_nat (length d) <= 4096 ->
  (forall s', written pgdir T M va d (Z.of_nat (length d)) s l s' -> Q tt s' []) ->
  wp (write_bytes (f + va mod 4096) d) s Q.
Proof.
  intros Hmo H Hva Hw HM Hd HQ.
  destruct (as_map _ _ _ _ _ H _ _ _ HM) as (_ & Hf & [p Hp] & _).
  pose proof (page_ok_mod kend f Hf) as Hfm. pose proof (mo_size _ _ _ Hmo _ _ Hp) as Hl.
  pose proof pgsize_Z. pose proof (Z.mod_pos_bound va 4096 ltac:(lia)) as Hb.
  assert (Hmod : (f + va mod 4096) mod 4096 = va mod 4096) by lia_dm.
  unfold write_bytes, with_page. wp_steps. unfold page_of, page_off, PGSIZE. rewrite Hmod.
  replace (f + va mod 4096 - va mod 4096) with f by lia. rewrite Hp.
  rewrite decide_True by lia. unfold put_page, page_of, PGSIZE. wp_steps. rewrite Hmod.
  replace (f + va mod 4096 - va mod 4096) with f by lia. set (p' := splice p _ d).
  assert (Hp' : length p' = pgsize) by (unfold p'; rewrite length_splice; lia).
  apply HQ. split; cbn [pages set_pages].
  - by apply (mem_ok_insert kend s l f p).
  - by apply (aspace_insert_frame kend _ _ _ _ w f fl).
  - intros a Ha. unfold ubyte. destruct (decide (a / 4096 = w)) as [Haw|Haw].
    + assert (Hoff : a mod 4096 = va mod 4096 + (a - va)) by lia_dm.
      pose proof (Z.mod_pos_bound a 4096 ltac:(lia)).
      rewrite Haw, HM, lookup_insert_eq, Hp. cbn [mbind option_bind]. unfold p'. case_decide.
      * rewrite lookup_splice_in by lia. f_equal. lia.
      * apply lookup_splice_out; lia.
    + rewrite decide_False by lia_dm. destruct (M !! (a / 4096)) as [[g gl]|] eqn:Eg; [|done].
      rewrite lookup_insert_ne; [done|]. intros <-. apply Haw.
      by apply (as_map_inj _ _ _ _ _ H _ _ f gl fl).
  - intros x q Hx Hno. rewrite lookup_insert_ne; [done|]. intros <-. by apply (Hno w fl).
Qed.

(** [k1] bytes, then [k2] more. *)
Lemma user_written_app pgdir T M va d d1 k1 k2 s l s1 s2 : 0 <= k1 -> 0 <= k2 ->
  d1 = drop (Z.to_nat k1) d -> written pgdir T M va d k1 s l s1 ->
  written pgdir T M (va + k1) d1 k2 s1 l s2 -> written pgdir T M va d (k1 + k2) s l s2.
Proof.
  intros Hk1 Hk2 -> [A1 A2 A3 A4] [B1 B2 B3 B4]. split; try done.
  - intros a Ha. rewrite B3, A3 by done. repeat case_decide; try lia; try done.
    rewrite lookup_drop. f_equal. lia.
  - intros x p Hx Hno. apply B4; [|done]. by apply A4.
Qed.

(** A prefix of the data is also written as itself. *)
Lemma written_prefix pgdir T M va d n s l s' :
  written pgdir T M va (take n d) (Z.of_nat (length (take n d))) s l s' ->
  written pgdir T M va d (Z.of_nat (length (take n d))) s l s'.
Proof.
  intros [A1 A2 A3 A4]. split; try done. intros a Ha. rewrite A3 by done. case_decide; [|done].
  rewrite length_take in *. rewrite lookup_take_lt; [done|lia].
Qed.

Lemma copyout_loop_wp fuel : forall s l pgdir T M va buf Q,
  mem_ok s l -> aspace (pages s) pgdir T M -> 0 <= va -> va + Z.of_nat (length buf) <= UTOP ->
  (length buf <= fuel)%nat ->
  (forall a, va <= a < va + Z.of_nat (length buf) -> is_Some (T !! (a / 4096 / 512))) ->
  (forall r s' k, written pgdir T M va buf k s l s' -> 0 <= k <= Z.of_nat (length buf) ->
     (forall a, va <= a < va + k -> user_page M (a / 4096) = true) ->
     (r = 0 /\ k = Z.of_nat (length buf)) \/
     (r = -1 /\ k < Z.of_nat (length buf) /\ user_page M ((va + k) / 4096) = false) -> Q r s' []) ->
  wp (copyout_loop fuel pgdir va buf) s Q.
Proof.
  induction fuel as [|fuel IH]; intros s l pgdir T M va buf Q Hmo H Hva Htop Hfuel HT HQ;
    (destruct buf as [|c buf]; [cbn; wp_steps; apply (HQ 0 s 0); [by apply user_written_nil|simpl; lia|intros; lia|by left]|]);
    [simpl in Hfuel; lia|].
  cbn [copyout_loop]. set (d := c :: buf) in *.
  assert (Hlen : 0 < Z.of_nat (length d)) by (unfold d; simpl; lia).
  rewrite (proj2 (Z.ltb_lt _ _)) by done. change UTOP with 1069547520 in Htop.
  assert (Hround : u32 (PGROUNDDOWN va) = 4096 * (va / 4096)).
  { unfold PGROUNDDOWN. rewrite ldiff_page, u64_small by lia. unfold PGSIZE. rewrite u32_small; lia_dm. }
  rewrite Hround. set (w := va / 4096).
  assert (Hvv : 4096 * w / 4096 = w) by lia_dm.
  assert (Hw : 0 <= 4096 * w < UTOP) by (change UTOP with 1069547520; unfold w; lia_dm).
  assert (Hoff : va - 4096 * w = va mod 4096) by (unfold w; lia_dm).
  apply wp_bind. eapply uva2ka_wp; [done|done|rewrite Hvv; apply HT; lia|]. rewrite Hvv.
  destruct (user_page M w) eqn:Eu.
  2: { assert (match M !! w with Some (f, fl) => if has fl PTE_U then f else 0 | None => 0 end = 0) as ->.
       { unfold user_page in Eu. destruct (M !! w) as [[f fl]|]; [by rewrite Eu|done]. }
       cbn. wp_steps. apply (HQ (-1) s 0); [by apply user_written_nil|lia|intros; lia|].
       right. split_and!; [done|lia|]. by rewrite Z.add_0_r. }
  unfold user_page in Eu. destruct (M !! w) as [[f fl]|] eqn:EM; [|done]. rewrite Eu.
  destruct (as_map _ _ _ _ _ H _ _ _ EM) as (_ & Hf & _). apply (page_ok_range kend) in Hf as (Hfm & Hfr & _).
  destruct (Z.eqb_spec f 0) as [->|_]; [lia|]. rewrite Hoff.
  pose proof (Z.mod_pos_bound va 4096 ltac:(lia)) as Hb.
  unfold PGSIZE. rewrite (u64_small (va mod 4096)), (u64_small (4096 - _)), (u64_small (f + _)), (u32_small (_ + 4096)) by lia.
  set (n := if Z.of_nat (length d) <? 4096 - va mod 4096 then _ else _).
  assert (Hn : 0 < n <= Z.of_nat (length d) /\ n <= 4096 - va mod 4096 /\
    (n = Z.of_nat (length d) \/ n = 4096 - va mod 4096)).
  { unfold n. destruct (Z.ltb_spec (Z.of_nat (length d)) (4096 - va mod 4096)); lia. }
  clearbody n. assert (Htn : Z.of_nat (length (take (Z.to_nat n) d)) = n) by (rewrite length_take; lia).
  apply wp_bind. apply (write_user_wp s l pgdir T M va w f fl); try done; [lia|].
  intros s1 Hw1. apply written_prefix in Hw1. rewrite Htn in Hw1.
  assert (Hpage : forall a, va <= a < va + n -> user_page M (a / 4096) = true).
  { intros a Ha. unfold user_page. replace (a / 4096) with w by (unfold w; lia_dm). by rewrite EM. }
  assert (Hdl : Z.of_nat (length (drop (Z.to_nat n) d)) = Z.of_nat (length d) - n) by (rewrite length_drop; lia).
  destruct (decide (n = Z.of_nat (length d))) as [Hnd|Hnd].
  - rewrite drop_ge by lia. destruct fuel; cbn; wp_steps; apply (HQ 0 s1 n); try done; try lia; by left.
  - replace (4096 * w + 4096) with (va + n) by lia.
    destruct Hw1 as [A1 A2 A3 A4].
    apply (IH s1 l pgdir T M); try done; try lia.
    + rewrite Hdl. change UTOP with 1069547520. lia.
    + intros a Ha. apply HT. lia.
    + intros r s2 k Hw2 Hk Hu Hr. apply (HQ r s2 (n + k)).
      * apply (user_written_app _ _ _ _ _ (drop (Z.to_nat n) d) n k s l s1); try done; lia.
      * lia.
      * intros a Ha. destruct (decide (a < va + n)); [apply Hpage|apply Hu]; lia.
      * rewrite Hdl in Hr. replace (va + (n + k)) with (va + n + k) by lia.
        destruct Hr as [[? ?]|(? & ? & ?)]; [left|right]; split_and!; try done; lia.
Qed.

(** copyout writes kernel bytes to user memory through the page tables.  When the
    tables of the range exist, it returns: 0 with exactly the bytes of the range written, however
    it crosses pages, or -1 at the first page that is not mapped for the user, with
    the bytes before that page written.  In both cases no other byte of the process,
    no mapping and no other memory changes. *)
Theorem copyout_writes s l pgdir T M va buf :
  mem_ok s l -> aspace (pages s) pgdir T M -> 0 <= va -> va + Z.of_nat (length buf) <= UTOP ->
  (forall a, va <= a < va + Z.of_nat (length buf) -> is_Some (T !! (a / 4096 / 512))) ->
  wp (copyout pgdir va buf) s (fun r s' _ => exists k,
    written pgdir T M va buf k s l s' /\
    (forall a, va <= a < va + k -> user_page M (a / 4096) = true) /\
    ((r = 0 /\ k = Z.of_nat (length buf)) \/
     (r = -1 /\ 0 <= k < Z.of_nat (length buf) /\ user_page M ((va + k) / 4096) = false))).
Proof.
  intros Hmo H Hva Htop HT. unfold copyout. rewrite u32_small by (change UTOP with 1069547520 in *; lia).
  apply (copyout_loop_wp _ s l pgdir T M); try done. intros r s' k Hw Hk Hu Hr. exists k.
  split_and!; [done|done|]. destruct Hr as [?|(? & ? & ?)]; [by left|right]. split_and!; done || lia.
Qed.
End copy.

(** ** Witnesses: the process of VmUser with two pages *)

Lemma demo_contiguous l T M : mem_ok demo_kend demo_vm2 l -> aspace demo_kend (pages demo_vm2) demo_pgdir T M ->
  (forall w, 0 <= w < 2 -> exists f, M !! w = Some (f, 7)) -> (forall w, ~ (0 <= w < 2) -> M !! w = None) ->
  (forall w x, M !! w = Some x -> 0 <= w < npages FREETOP) /\ tables_below T M 0 (npages FREETOP).
Proof.
  intros Hmo H Hin Hout. split.
  - intros w x Hx. change (npages FREETOP) with 260608. destruct (decide (0 <= w < 2)); [lia|].
    rewrite Hout in Hx by done. discriminate.
  - intros w u Hu Hw [x Hx]. destruct (decide (0 <= w < 2)) as [Hw2|].
    + destruct (Hin u) as [f Hf]; [lia|]. destruct (as_map _ _ _ _ _ H _ _ _ Hf) as [Ht _]. exact Ht.
    + rewrite Hout in Hx by done. discriminate.
Qed.

Lemma freevm_frees_witness : exists l T M, is_Some (M !! 1) /\
  wp (freevm demo_kend demo_pgdir) demo_vm2 (fun _ s' _ => exists l', freed demo_kend demo_pgdir demo_vm2 l T M s' l').
Proof.
  destruct demo_vm2_ok as (l & T & M & Hmo & H & _ & Hin & Hout). exists l, T, M. split.
  - destruct (Hin 1) as [f Hf]; [lia|]. by eexists.
  - destruct (demo_contiguous l T M Hmo H Hin Hout) as [H1 H2].
    exact (freevm_frees demo_kend demo_kend_ok demo_vm2 l demo_pgdir T M Hmo H H1 H2).
Defined.

Lemma copyuvm_copies_witness : exists M, is_Some (M !! 1) /\
  wp (copyuvm demo_kend demo_pgdir 8000) demo_vm2 (fun r s' _ =>
    copyuvm_post demo_kend 8000 demo_vm2 M r s' /\ r <> 0).
Proof.
  destruct demo_vm2_ok as (l & T & M & Hmo & H & Hl & Hin & Hout). exists M. split.
  - destruct (Hin 1) as [f Hf]; [lia|]. by eexists.
  - eapply wp_mono; [refine (copyuvm_copies demo_kend demo_kend_ok demo_vm2 l demo_pgdir T M 8000 2 Hmo H _ _ _ _)|].
    + lia.
    + vm_compute. split; discriminate.
    + reflexivity.
    + change (npages 8000) with 2. intros w Hw. destruct (Hin w Hw) as [f Hf]. by eexists.
    + intros r s' t [Hp Hr]. split; [exact Hp|]. apply Hr.
      assert (need ∅ 0 2 = 1%nat) as -> by (vm_compute; reflexivity). lia.
Defined.

Lemma copyout_writes_witness : exists l T M, user_page M 0 = true /\ user_page M 1 = true /\
  wp (copyout demo_pgdir 4094 [1; 2; 3; 4]) demo_vm2 (fun r s' _ => exists k,
    written demo_kend demo_pgdir T M 4094 [1; 2; 3; 4] k demo_vm2 l s' /\
    (forall a, 4094 <= a < 4094 + k -> user_page M (a / 4096) = true) /\
    ((r = 0 /\ k = 4) \/ (r = -1 /\ 0 <= k < 4 /\ user_page M ((4094 + k) / 4096) = false))).
Proof.
  destruct demo_vm2_ok as (l & T & M & Hmo & H & Hl & Hin & Hout). exists l, T, M. split_and!.
  - unfold user_page. destruct (Hin 0) as [f ->]; [lia|reflexivity].
  - unfold user_page. destruct (Hin 1) as [f ->]; [lia|reflexivity].
  - refine (copyout_writes demo_kend demo_vm2 l demo_pgdir T M 4094 [1; 2; 3; 4] Hmo H _ _ _).
    + lia.
    + vm_compute. discriminate.
    + simpl length. intros a Ha. assert (Hp : 0 <= a / 4096 < 2) by lia_dm.
      destruct (Hin _ Hp) as [f Hf]. destruct (as_map _ _ _ _ _ H _ _ _ Hf) as [Ht _]. exact Ht.
Defined.
