(* ===== verification/Vm64.v ===== *)
(** * The 64-bit machine: kernel/vm64.c

    The kernel's own page tables, the interrupt and segment tables of a CPU, and the
    switch between address spaces.  The machine is the memory of Vm with the
    registers of the running CPU.  [hw_translate] is the processor's walk of the four
    levels of tables from [cr3]: the properties state what the tables built here mean
    to the hardware. *)

From stdpp Require Import base list gmap strings fin_maps fin_map_dom sets.
From Stdlib Require Import ZArith Lia.
From S2P Require Import Prelude CString Bytes Spinlock Kalloc Vm VmSpace VmUser.
Open Scope Z_scope.

(** include/mmu.h, include/memlayout.h, include/param.h *)
Definition SEG_KCODE : Z := 1.
Definition SEG_KDATA : Z := 2.
Definition SEG_KCPU : Z := 3.
Definition SEG_UCODE : Z := 4.
Definition SEG_UDATA : Z := 5.
Definition SEG_TSS : Z := 6.
Definition PDXSHIFT : Z := 21.
Definition DEVSPACE : Z := 0xFE000000.
Definition DEVBASE : Z := 0xFFFFFFFF40000000.
Definition KSTACKSIZE : Z := 4096.

(** The running CPU's registers; [fsbase] is MSR 0xC0000100. *)
Record regs := Regs {
  cr3 : Z;
  idtr : Z * Z;     (* base, limit *)
  gdtr : Z * Z;
  tr : Z;
  fsbase : Z;
}.

Record machine := Machine {
  mm : memory;
  hw : regs;
  lockcpu : Smp.cpu;          (* ncli, intena and the interrupt flag *)
  cpunum : Z;                 (* cpunum(): the index of this CPU *)
  local : gmap Z Z;           (* cpus[i].local *)
  cpu_ptr : Z;                (* the thread-local cpu, as an index of cpus *)
  proc_ptr : Z;               (* the thread-local proc; 0 is null *)
  kpml4 : Z;
  kpgdir0 : Z;
  kpgdir1 : Z;
  iopgdir : Z;
}.

Definition set_mm (m : memory) (s : machine) : machine :=
  Machine m (hw s) (lockcpu s) (cpunum s) (local s) (cpu_ptr s) (proc_ptr s) (kpml4 s)
    (kpgdir0 s) (kpgdir1 s) (iopgdir s).
Definition set_hw (r : regs) (s : machine) : machine :=
  Machine (mm s) r (lockcpu s) (cpunum s) (local s) (cpu_ptr s) (proc_ptr s) (kpml4 s)
    (kpgdir0 s) (kpgdir1 s) (iopgdir s).
Definition set_lockcpu (c : Smp.cpu) (s : machine) : machine :=
  Machine (mm s) (hw s) c (cpunum s) (local s) (cpu_ptr s) (proc_ptr s) (kpml4 s)
    (kpgdir0 s) (kpgdir1 s) (iopgdir s).
Definition set_percpu (l : gmap Z Z) (c p : Z) (s : machine) : machine :=
  Machine (mm s) (hw s) (lockcpu s) (cpunum s) l c p (kpml4 s) (kpgdir0 s) (kpgdir1 s) (iopgdir s).
Definition set_ktables (p4 g0 g1 io : Z) (s : machine) : machine :=
  Machine (mm s) (hw s) (lockcpu s) (cpunum s) (local s) (cpu_ptr s) (proc_ptr s) p4 g0 g1 io.
Definition set_kpdpt (a : Z) (m : memory) : memory := Memory (km m) (pages m) a.

Definition mm_lens : lens machine memory := Lens mm set_mm.

(** A 32-bit store. *)
Definition store32 (a v : Z) : K memory unit :=
  with_page a (fun l => put_page a (put32 l (page_off a) v)).

Definition lcr3 (v : Z) : K machine unit :=
  kmod (fun s => set_hw (Regs v (idtr (hw s)) (gdtr (hw s)) (tr (hw s)) (fsbase (hw s))) s).
Definition lidt (p size : Z) : K machine unit :=
  kmod (fun s => set_hw (Regs (cr3 (hw s)) (p, u16 (size - 1)) (gdtr (hw s)) (tr (hw s)) (fsbase (hw s))) s).
Definition lgdt (p size : Z) : K machine unit :=
  kmod (fun s => set_hw (Regs (cr3 (hw s)) (idtr (hw s)) (p, u16 (size - 1)) (tr (hw s)) (fsbase (hw s))) s).
Definition ltr (sel : Z) : K machine unit :=
  kmod (fun s => set_hw (Regs (cr3 (hw s)) (idtr (hw s)) (gdtr (hw s)) (u16 sel) (fsbase (hw s))) s).
Definition wrmsr_fsbase (v : Z) : K machine unit :=
  kmod (fun s => set_hw (Regs (cr3 (hw s)) (idtr (hw s)) (gdtr (hw s)) (tr (hw s)) v) s).

(** Four words of the interrupt table. *)
Definition mkgate (idt n kva pl : Z) (trap : bool) : K memory unit :=
  let addr := u64 kva in
  let n := u32 (n * 4) in
  let trap := if trap then 0x8F00 else 0x8E00 in    (* trap or interrupt gate *)
  store32 (u64 (idt + 4 * n)) (Z.lor (Z.land addr 0xFFFF) (Z.shiftl (Z.shiftl SEG_KCODE 3) 16)) ;;;
  store32 (u64 (idt + 4 * (n + 1)))
    (Z.lor (Z.lor (Z.land addr 0xFFFF0000) trap) (Z.shiftl (Z.land pl 3) 13)) ;;;
  store32 (u64 (idt + 4 * (n + 2))) (Z.shiftr addr 32) ;;;
  store32 (u64 (idt + 4 * (n + 3))) 0.

Definition tss_set_rsp (tss n rsp : Z) : K memory unit :=
  store32 (u64 (tss + 4 * (n * 2 + 1))) rsp ;;;
  store32 (u64 (tss + 4 * (n * 2 + 2))) (Z.shiftr rsp 32).

(** [vectors] is the table of trap entry points that the build generates. *)
Definition seginit (vectors : Z -> Z) : K machine unit :=
  let! idt := zoom mm_lens kalloc_page in
  zoom mm_lens (memset idt 0 pgsize) ;;;
  zoom mm_lens (for_each (map Z.of_nat (seq 0 256)) (fun n => mkgate idt n (vectors n) 0 false)) ;;;
  zoom mm_lens (mkgate idt 64 (vectors 64) 3 true) ;;;
  lidt idt PGSIZE ;;;
  let! local_page := zoom mm_lens kalloc_page in
  zoom mm_lens (memset local_page 0 pgsize) ;;;
  let gdt := local_page in
  let tss := u64 (local_page + 1024) in
  zoom mm_lens (store32 (u64 (tss + 4 * 16)) 0x00680000) ;;;
  wrmsr_fsbase (u64 (local_page + PGSIZE / 2)) ;;;
  let! c := gets cpunum in
  kmod (fun s => set_percpu (<[c := local_page]> (local s)) c 0 s) ;;;
  let addr := tss in
  zoom mm_lens (
    store64 gdt 0 ;;;
    store64 (u64 (gdt + 8 * SEG_KCODE)) 0x0020980000000000 ;;;   (* Code, DPL=0, R/X *)
    store64 (u64 (gdt + 8 * SEG_UCODE)) 0x0020F80000000000 ;;;   (* Code, DPL=3, R/X *)
    store64 (u64 (gdt + 8 * SEG_KDATA)) 0x0000920000000000 ;;;   (* Data, DPL=0, W *)
    store64 (u64 (gdt + 8 * SEG_KCPU)) 0 ;;;
    store64 (u64 (gdt + 8 * SEG_UDATA)) 0x0000F20000000000 ;;;  (* Data, DPL=3, W *)
    store64 (u64 (gdt + 8 * SEG_TSS))
      (Z.lor (Z.lor (Z.lor 0x0067 (Z.shiftl (Z.land addr 0xFFFFFF) 16)) (Z.shiftl 0xE9 40))
         (u64 (Z.shiftl (Z.land (Z.shiftr addr 24) 0xFF) 56))) ;;;
    store64 (u64 (gdt + 8 * (SEG_TSS + 1))) (Z.shiftr addr 32)) ;;;
  lgdt gdt (8 * 8) ;;;
  ltr (Z.shiftl SEG_TSS 3).

Definition switchkvm : K machine unit :=
  let! p4 := gets kpml4 in
  lcr3 (v2p p4).

(** The memory writes of kvmalloc on its five pages. *)
Definition kvm_tables (p4 pdpt g0 g1 io : Z) : K memory unit :=
  memset p4 0 pgsize ;;;
  memset pdpt 0 pgsize ;;;
  memset io 0 pgsize ;;;
  store64 (u64 (p4 + 8 * 511)) (Z.lor (Z.lor (v2p pdpt) PTE_P) PTE_W) ;;;
  store64 (u64 (pdpt + 8 * 511)) (Z.lor (Z.lor (v2p g1) PTE_P) PTE_W) ;;;
  store64 (u64 (pdpt + 8 * 510)) (Z.lor (Z.lor (v2p g0) PTE_P) PTE_W) ;;;
  store64 (u64 (pdpt + 8 * 509)) (Z.lor (Z.lor (v2p io) PTE_P) PTE_W) ;;;
  for_each (map Z.of_nat (seq 0 512)) (fun n =>
    store64 (u64 (g0 + 8 * n)) (Z.lor (Z.lor (Z.lor (Z.shiftl n PDXSHIFT) PTE_PS) PTE_P) PTE_W) ;;;
    store64 (u64 (g1 + 8 * n))
      (Z.lor (Z.lor (Z.lor (Z.shiftl (n + 512) PDXSHIFT) PTE_PS) PTE_P) PTE_W)) ;;;
  for_each (map Z.of_nat (seq 0 16)) (fun n =>
    store64 (u64 (io + 8 * n))
      (Z.lor (Z.lor (Z.lor (Z.lor (Z.lor (DEVSPACE + Z.shiftl n PDXSHIFT) PTE_PS) PTE_P) PTE_W)
         PTE_PWT) PTE_PCD)).

Definition kvmalloc : K machine unit :=
  let! p4 := zoom mm_lens kalloc_page in
  let! pdpt := zoom mm_lens kalloc_page in
  zoom mm_lens (kmod (set_kpdpt pdpt)) ;;;
  let! g0 := zoom mm_lens kalloc_page in
  let! g1 := zoom mm_lens kalloc_page in
  let! io := zoom mm_lens kalloc_page in
  kmod (set_ktables p4 g0 g1 io) ;;;
  zoom mm_lens (kvm_tables p4 pdpt g0 g1 io) ;;;
  switchkvm.

(** [p_pgdir] is p->pgdir, [kstack] the current process's proc->kstack. *)
Definition switchuvm (p_pgdir kstack : Z) : K machine unit :=
  kmod (fun s => set_lockcpu (Smp.pushcli (lockcpu s)) s) ;;;
  if p_pgdir =? 0 then panic "switchuvm: no pgdir"
  else
    let! s := kget in
    match local s !! cpu_ptr s with
    | None => fault
    | Some lp =>
        let tss := u64 (lp + 1024) in
        zoom mm_lens (tss_set_rsp tss 0 (u64 (kstack + KSTACKSIZE))) ;;;
        let! e := zoom mm_lens (load64 (u64 (p_pgdir + 8 * 511))) in
        let pml4 := PTE_ADDR e in
        lcr3 (v2p pml4) ;;;
        let! s := kget in
        match Smp.popcli (lockcpu s) with
        | inl m => panic m
        | inr c => kmod (set_lockcpu c)
        end
    end.

(** ** The processor *)

(** Entry [i] of the table at physical address [pa], read through the direct map. *)
Definition hw_entry (P : gmap Z (list Z)) (pa i : Z) : option Z :=
  let e := word P (p2v pa) i in if has e PTE_P then Some e else None.

Definition hw_index (va level : Z) : Z := Z.land (Z.shiftr va (12 + 9 * level)) 511.

(** The physical address of a virtual one: four levels, or three with a large page. *)
Definition hw_translate (P : gmap Z (list Z)) (root va : Z) : option Z :=
  hw_entry P root (hw_index va 3) ≫= fun e4 =>
  hw_entry P (PTE_ADDR e4) (hw_index va 2) ≫= fun e3 =>
  hw_entry P (PTE_ADDR e3) (hw_index va 1) ≫= fun e2 =>
  if has e2 PTE_PS then Some (e2 - e2 mod 2 ^ 21 + va mod 2 ^ 21)
  else hw_entry P (PTE_ADDR e2) (hw_index va 0) ≫= fun e1 => Some (PTE_ADDR e1 + va mod 4096).

(** An interrupt gate: handler address, selector, type bits, privilege level, present. *)
Definition gate_offset (l : list Z) (n : nat) : Z :=
  Z.land (get32 l (16 * n)) 65535 + (get32 l (16 * n + 4) - Z.land (get32 l (16 * n + 4)) 65535)
  + 2 ^ 32 * get32 l (16 * n + 8).
Definition gate_selector (l : list Z) (n : nat) : Z := Z.shiftr (get32 l (16 * n)) 16.
Definition gate_type (l : list Z) (n : nat) : Z := Z.land (Z.shiftr (get32 l (16 * n + 4)) 8) 15.
Definition gate_dpl (l : list Z) (n : nat) : Z := Z.land (Z.shiftr (get32 l (16 * n + 4)) 13) 3.
Definition gate_present (l : list Z) (n : nat) : bool := Z.testbit (get32 l (16 * n + 4)) 15.

(** ** What the tables mean *)

Lemma hw_index_div va k : 0 <= va -> 0 <= k -> hw_index va k = (va / 2 ^ (12 + 9 * k)) mod 512.
Proof.
  intros Hva Hk. unfold hw_index. change 511 with (Z.ones 9).
  by rewrite Z.land_ones, Z.shiftr_div_pow2 by lia.
Qed.

(** The indices of an address, level by level. *)
Lemma hw_index_parts va : 0 <= va ->
  hw_index va 3 = (va / 2 ^ 39) mod 512 /\ hw_index va 2 = (va / 2 ^ 30) mod 512 /\
  hw_index va 1 = (va / 2 ^ 21) mod 512 /\ hw_index va 0 = (va / 4096) mod 512.
Proof. intros Hva. by rewrite !hw_index_div by lia. Qed.

(** An entry that points to a table. *)
Lemma hw_entry_table P root i t fl : word P (p2v root) i = Z.lor t fl -> t mod 4096 = 0 ->
  Z.odd fl = true -> hw_entry P root i = Some (Z.lor t fl).
Proof.
  intros Hw Ht Ho. unfold hw_entry. rewrite Hw, has_odd, odd_lor, Ho, orb_true_r. done.
Qed.

(** A large-page entry for [n * 2MB]. *)
Definition big_entry (n fl : Z) : Z := n * 2 ^ 21 + fl.

(** The kernel's third-level table maps two gigabytes of memory and the devices. *)
Definition kernel_tables (P : gmap Z (list Z)) (kend pdpt g0 g1 io : Z) : Prop :=
  page_ok kend pdpt /\ page_ok kend g0 /\ page_ok kend g1 /\ page_ok kend io /\
  word P pdpt 511 = Z.lor (v2p g1) 3 /\ word P pdpt 510 = Z.lor (v2p g0) 3 /\
  word P pdpt 509 = Z.lor (v2p io) 3 /\
  (forall n, 0 <= n < 512 -> word P g0 n = big_entry n 131 /\ word P g1 n = big_entry (n + 512) 131) /\
  (forall n, 0 <= n < 16 -> word P io n = big_entry n 155 + DEVSPACE).

(** What the processor sees of the kernel through any root table with entry 511 set. *)
Definition kernel_mapped (P : gmap Z (list Z)) (root : Z) : Prop :=
  (forall pa, 0 <= pa < 2 ^ 31 -> hw_translate P root (KERNBASE + pa) = Some pa) /\
  (forall k, 0 <= k < 2 ^ 25 -> hw_translate P root (DEVBASE + k) = Some (DEVSPACE + k)).

Lemma odd_big n m : Z.odd (n * 2 ^ 21 + m) = Z.odd m.
Proof.
  replace (n * 2 ^ 21) with (2 * (n * 2 ^ 20)) by lia. by rewrite Z.odd_add, Z.odd_mul.
Qed.

Lemma has_big n fl m : 0 <= fl < 4096 -> 0 <= m < 4096 -> has (n * 2 ^ 21 + fl) m = has fl m.
Proof.
  intros Hf Hm. rewrite <-lor_page; [|rewrite Z.mod_divide by lia; exists (n * 512); lia|done].
  apply has_low; [rewrite Z.mod_divide by lia; exists (n * 512); lia|done].
Qed.

Section meaning.
Context (kend : Z).

Lemma table_entry P root i t fl : page_ok kend t -> 0 <= fl < 4096 -> Z.odd fl = true ->
  word P (p2v root) i = Z.lor (v2p t) fl ->
  hw_entry P root i = Some (Z.lor (v2p t) fl) /\ p2v (PTE_ADDR (Z.lor (v2p t) fl)) = t.
Proof.
  intros Ht Hfl Ho Hw. pose proof (page_ok_phys kend t Ht) as [Hm _]. split.
  - by apply hw_entry_table.
  - rewrite PTE_ADDR_lor by done. by apply (p2v_v2p kend).
Qed.

(** The last two levels of a kernel address: a large page. *)
Lemma big_translate P root va i4 i3 i2 pdpt g n fl : page_ok kend pdpt -> page_ok kend g ->
  hw_index va 3 = i4 -> hw_index va 2 = i3 -> hw_index va 1 = i2 ->
  (exists fl4, 0 <= fl4 < 4096 /\ Z.odd fl4 = true /\ word P (p2v root) i4 = Z.lor (v2p pdpt) fl4) ->
  word P pdpt i3 = Z.lor (v2p g) 3 -> word P g i2 = n * 2 ^ 21 + fl ->
  fl = 131 \/ fl = 155 ->
  hw_translate P root va = Some (n * 2 ^ 21 + va mod 2 ^ 21).
Proof.
  intros Hpd Hg H4 H3 H2 (fl4 & Hfl4 & Ho4 & W4) W3 W2 Hfl. unfold hw_translate.
  destruct (table_entry P root i4 pdpt fl4 Hpd Hfl4 Ho4 W4) as [E4 A4].
  rewrite H4, E4. cbn [mbind option_bind]. rewrite H3.
  destruct (table_entry P (PTE_ADDR (Z.lor (v2p pdpt) fl4)) i3 g 3 Hg) as [E3 A3];
    [lia|done|by rewrite A4|]. rewrite E3. cbn [mbind option_bind].
  rewrite H2. unfold hw_entry. rewrite A3, W2, has_odd, odd_big.
  assert (Hb : 0 <= fl < 4096) by (destruct Hfl; lia).
  replace (Z.odd fl) with true by (by destruct Hfl as [-> | ->]). cbn [mbind option_bind].
  rewrite has_big by (done || (unfold PTE_PS; lia)).
  replace (has fl PTE_PS) with true by (by destruct Hfl as [-> | ->]). do 2 f_equal.
  change (2 ^ 21) with 2097152. lia_dm.
Qed.

Lemma kernel_mapped_ok P root pdpt g0 g1 io : kernel_tables P kend pdpt g0 g1 io ->
  (exists fl4, 0 <= fl4 < 4096 /\ Z.odd fl4 = true /\ word P (p2v root) 511 = Z.lor (v2p pdpt) fl4) ->
  kernel_mapped P root.
Proof.
  intros (Hpd & Hg0 & Hg1 & Hio & W511 & W510 & W509 & Wg & Wio) H4. split.
  - intros pa Hpa. set (n := pa / 2 ^ 21).
    assert (Hsplit : pa = n * 2 ^ 21 + pa mod 2 ^ 21).
    { unfold n. change (2 ^ 21) with 2097152. lia_dm. }
    assert (Hmod : (KERNBASE + pa) mod 2 ^ 21 = pa mod 2 ^ 21).
    { unfold KERNBASE. change (2 ^ 21) with 2097152. lia_dm. }
    assert (Hn : 0 <= n < 1024) by (unfold n; change (2 ^ 21) with 2097152; change (2 ^ 31) with 2147483648 in *; lia_dm).
    destruct (hw_index_parts (KERNBASE + pa)) as (I3 & I2 & I1 & _); [unfold KERNBASE; lia|].
    assert (J3 : hw_index (KERNBASE + pa) 3 = 511).
    { rewrite I3. unfold KERNBASE. change (2 ^ 39) with 549755813888. change (2 ^ 31) with 2147483648 in *. lia_dm. }
    rewrite Hsplit at 2. rewrite <-Hmod.
    destruct (decide (n < 512)).
    + apply (big_translate P root _ 511 510 n pdpt g0 n 131); try done; [| |by apply Wg; lia|by left].
      * rewrite I2. unfold KERNBASE, n in *. change (2 ^ 30) with 1073741824. change (2 ^ 21) with 2097152 in *.
        change (2 ^ 31) with 2147483648 in *. lia_dm.
      * rewrite I1. unfold KERNBASE, n in *. change (2 ^ 21) with 2097152 in *. change (2 ^ 31) with 2147483648 in *. lia_dm.
    + apply (big_translate P root _ 511 511 (n - 512) pdpt g1 n 131); try done; [| | |by left].
      * rewrite I2. unfold KERNBASE, n in *. change (2 ^ 30) with 1073741824. change (2 ^ 21) with 2097152 in *.
        change (2 ^ 31) with 2147483648 in *. lia_dm.
      * rewrite I1. unfold KERNBASE, n in *. change (2 ^ 21) with 2097152 in *. change (2 ^ 31) with 2147483648 in *. lia_dm.
      * destruct (Wg (n - 512)) as [_ ->]; [lia|]. unfold big_entry. lia.
  - intros k Hk. set (n := k / 2 ^ 21).
    assert (Hsplit : k = n * 2 ^ 21 + k mod 2 ^ 21).
    { unfold n. change (2 ^ 21) with 2097152. lia_dm. }
    assert (Hmod : (DEVBASE + k) mod 2 ^ 21 = k mod 2 ^ 21).
    { unfold DEVBASE. change (2 ^ 21) with 2097152. lia_dm. }
    assert (Hn : 0 <= n < 16) by (unfold n; change (2 ^ 21) with 2097152; change (2 ^ 25) with 33554432 in *; lia_dm).
    destruct (hw_index_parts (DEVBASE + k)) as (I3 & I2 & I1 & _); [unfold DEVBASE; lia|].
    rewrite (big_translate P root _ 511 509 n pdpt io (n + 2032) 155); try done.
    + rewrite Hmod. f_equal. unfold DEVSPACE. lia.
    + rewrite I3. unfold DEVBASE. change (2 ^ 39) with 549755813888. change (2 ^ 25) with 33554432 in *. lia_dm.
    + rewrite I2. unfold DEVBASE. change (2 ^ 30) with 1073741824. change (2 ^ 25) with 33554432 in *. lia_dm.
    + rewrite I1. unfold DEVBASE, n in *. change (2 ^ 21) with 2097152 in *. change (2 ^ 25) with 33554432 in *. lia_dm.
    + rewrite Wio by lia. unfold big_entry, DEVSPACE. lia.
    + by right.
Qed.

(** The processor's view of the user part is the abstract mapping. *)
Lemma user_translate P pml4 pdpt pgdir T M va : aspace kend P pgdir T M ->
  page_ok kend pml4 -> page_ok kend pdpt ->
  word P pml4 0 = Z.lor (v2p pdpt) 7 -> word P pdpt 0 = Z.lor (v2p pgdir) 7 -> 0 <= va < UTOP ->
  hw_translate P (v2p pml4) va =
    match M !! (va / 4096) with Some (f, _) => Some (v2p f + va mod 4096) | None => None end.
Proof.
  intros H H4 H3 W4 W3 Hva. pose proof (UTOP_small va Hva) as [Hva30 Hpd].
  destruct (as_dir _ _ _ _ _ H) as [Hdok _].
  destruct (hw_index_parts va) as (I3 & I2 & I1 & I0); [lia|].
  rewrite Z.div_small in I3 by (change (2 ^ 39) with 549755813888; change (2 ^ 30) with 1073741824 in *; lia).
  rewrite Z.div_small in I2 by lia. change (0 mod 512) with 0 in I2, I3.
  pose proof (PDX_vpn va Hva30) as HP. pose proof (PTX_vpn va Hva30) as HX.
  rewrite Z.mod_small in I1 by (rewrite <-HP; unfold NPGDIR in *; lia). rewrite <-HP in I1. rewrite <-HX in I0.
  unfold hw_translate. rewrite I3, I2, I1, I0.
  destruct (table_entry P (v2p pml4) 0 pdpt 7 H3) as [E4 A4]; [lia|done|by rewrite (p2v_v2p kend)|].
  rewrite E4. cbn [mbind option_bind].
  destruct (table_entry P (PTE_ADDR (Z.lor (v2p pdpt) 7)) 0 pgdir 7 Hdok) as [E3 A3]; [lia|done|by rewrite A4|].
  rewrite E3. cbn [mbind option_bind].
  destruct (vpn_split va Hva30) as (Hdir & _ & Hvpn & Hx).
  pose proof (as_pde _ _ _ _ _ H (PDX va) Hpd) as Wd.
  destruct (T !! PDX va) as [t|] eqn:ET.
  - destruct (as_tab _ _ _ _ _ H _ _ ET) as (_ & Ht & _).
    destruct (table_entry P (PTE_ADDR (Z.lor (v2p pgdir) 7)) (PDX va) t 7 Ht) as [E2 A2]; [lia|done|by rewrite A3|].
    rewrite E2. cbn [mbind option_bind]. pose proof (page_ok_phys kend t Ht) as [Htm _].
    rewrite has_low by (done || (unfold PTE_PS; lia)). change (has 7 PTE_PS) with false.
    pose proof (as_pte _ _ _ _ _ H _ _ _ ET Hx) as Wt. rewrite Hvpn in Wt.
    unfold hw_entry. rewrite A2, Wt. destruct (M !! (va / 4096)) as [[f fl]|] eqn:EM; cbn [pte_val]; [|done].
    destruct (as_map _ _ _ _ _ H _ _ _ EM) as (_ & Hf & _ & _ & _ & Hfl & Hodd).
    pose proof (page_ok_phys kend f Hf) as [Hfm _].
    rewrite has_odd, odd_lor, Hodd, orb_true_r. cbn [mbind option_bind]. by rewrite PTE_ADDR_lor.
  - unfold hw_entry. rewrite A3, Wd. change (has 0 PTE_P) with false. cbn [mbind option_bind].
    destruct (M !! (va / 4096)) as [[f fl]|] eqn:EM; [|done].
    destruct (as_map _ _ _ _ _ H _ _ _ EM) as ([t Ht] & _). rewrite <-Hdir in Ht. congruence.
Qed.

(** ** kvmalloc *)

(** The loop that fills the two tables of large pages. *)
Lemma fill_tables_wp s l g0 g1 Q : mem_ok kend s l -> page_ok kend g0 -> page_ok kend g1 -> g0 <> g1 ->
  is_Some (pages s !! g0) -> is_Some (pages s !! g1) ->
  (forall s', mem_ok kend s' l -> kpdpt s' = kpdpt s ->
     (forall x, x <> g0 -> x <> g1 -> pages s' !! x = pages s !! x) ->
     (forall n, 0 <= n < 512 -> word (pages s') g0 n = big_entry n 131 /\
        word (pages s') g1 n = big_entry (n + 512) 131) -> Q tt s') ->
  wp (for_each (map Z.of_nat (seq 0 512)) (fun n =>
      store64 (u64 (g0 + 8 * n)) (Z.lor (Z.lor (Z.lor (Z.shiftl n PDXSHIFT) PTE_PS) PTE_P) PTE_W) ;;;
      store64 (u64 (g1 + 8 * n))
        (Z.lor (Z.lor (Z.lor (Z.shiftl (n + 512) PDXSHIFT) PTE_PS) PTE_P) PTE_W))) s (fun r s' _ => Q r s').
Proof.
  intros Hmo H0 H1 Hne Hs0 Hs1 HQ.
  assert (Hentry : forall n, 0 <= n < 1024 ->
    Z.lor (Z.lor (Z.lor (Z.shiftl n PDXSHIFT) PTE_PS) PTE_P) PTE_W = big_entry n 131 /\
    u64 (big_entry n 131) = big_entry n 131).
  { intros n Hn. rewrite <-!Z.lor_assoc. change (Z.lor PTE_PS (Z.lor PTE_P PTE_W)) with 131.
    unfold PDXSHIFT, big_entry. rewrite Z.shiftl_mul_pow2 by lia. change (2 ^ 21) with 2097152.
    split; [apply lor_page; [|lia]|apply u64_small; lia].
    rewrite Z.mod_divide by lia. exists (n * 512). lia. }
  eapply wp_mono; [eapply (wp_for_each _ _ (fun k s' _ => mem_ok kend s' l /\ kpdpt s' = kpdpt s /\
     (forall x, x <> g0 -> x <> g1 -> pages s' !! x = pages s !! x) /\
     is_Some (pages s' !! g0) /\ is_Some (pages s' !! g1) /\
     (forall n, 0 <= n < Z.of_nat k -> word (pages s') g0 n = big_entry n 131 /\
        word (pages s') g1 n = big_entry (n + 512) 131)))|].
  - split_and!; try done. intros n Hn. lia.
  - intros k x s1 t1 Hk (Hmo1 & Hkp & Hoth & [p0 Hp0] & [p1 Hp1] & Hw).
    rewrite list_lookup_fmap in Hk. apply fmap_Some in Hk as (k' & Hk & ->).
    apply lookup_seq in Hk as [-> Hlt]. cbn [plus].
    apply wp_bind. apply (store_page_wp kend s1 l g0 (Z.of_nat k) p0); [done|done|lia|apply (u64_word kend); done || lia|done|].
    intros s2 Hmo2 Hp2 Hk2.
    apply (store_page_wp kend s2 l g1 (Z.of_nat k) p1);
      [done|done|lia|apply (u64_word kend); done || lia|rewrite Hp2, lookup_insert_ne by done; done|].
    intros s3 Hmo3 Hp3 Hk3.
    destruct (Hentry (Z.of_nat k)) as [E0 U0]; [lia|]. destruct (Hentry (Z.of_nat k + 512)) as [E1 U1]; [lia|].
    rewrite E1 in Hp3. rewrite E0 in Hp2.
    pose proof (mo_size _ _ _ Hmo1 _ _ Hp0) as L0. pose proof (mo_size _ _ _ Hmo1 _ _ Hp1) as L1.
    split_and!; [done|congruence| | | |].
    + intros x Hx0 Hx1. rewrite Hp3, lookup_insert_ne, Hp2, lookup_insert_ne by done. by apply Hoth.
    + rewrite Hp3, lookup_insert_ne, Hp2, lookup_insert_eq by done. by eexists.
    + rewrite Hp3, lookup_insert_eq. by eexists.
    + intros n Hn.
      assert (G0 : pages s3 !! g0 = Some (put64 p0 (Z.of_nat k) (big_entry (Z.of_nat k) 131))).
      { rewrite Hp3, lookup_insert_ne, Hp2, lookup_insert_eq by done. done. }
      assert (G1 : pages s3 !! g1 = Some (put64 p1 (Z.of_nat k) (big_entry (Z.of_nat k + 512) 131))).
      { rewrite Hp3, lookup_insert_eq. done. }
      rewrite (word_put64 _ _ _ _ _ _ G0 L0), (word_put64 _ _ _ _ _ _ G1 L1) by lia.
      case_decide as E; [subst n; by rewrite U0, U1|].
      specialize (Hw n ltac:(lia)). unfold word in Hw. by rewrite Hp0, Hp1 in Hw.
  - intros [] s' t (A1 & A2 & A3 & _ & _ & A4). by apply HQ.
Qed.

(** The loop over the sixteen large pages of the devices. *)
Lemma fill_devices_wp s l io p Q : mem_ok kend s l -> page_ok kend io -> pages s !! io = Some p ->
  (forall s', mem_ok kend s' l -> kpdpt s' = kpdpt s ->
     (forall x, x <> io -> pages s' !! x = pages s !! x) ->
     (forall n, 0 <= n < 16 -> word (pages s') io n = big_entry n 155 + DEVSPACE) -> Q tt s') ->
  wp (for_each (map Z.of_nat (seq 0 16)) (fun n =>
      store64 (u64 (io + 8 * n))
        (Z.lor (Z.lor (Z.lor (Z.lor (Z.lor (DEVSPACE + Z.shiftl n PDXSHIFT) PTE_PS) PTE_P) PTE_W)
           PTE_PWT) PTE_PCD))) s (fun r s' _ => Q r s').
Proof.
  intros Hmo Hio Hp HQ.
  assert (Hentry : forall n, 0 <= n < 16 ->
    Z.lor (Z.lor (Z.lor (Z.lor (Z.lor (DEVSPACE + Z.shiftl n PDXSHIFT) PTE_PS) PTE_P) PTE_W) PTE_PWT) PTE_PCD
      = big_entry n 155 + DEVSPACE /\
    u64 (big_entry n 155 + DEVSPACE) = big_entry n 155 + DEVSPACE).
  { intros n Hn. rewrite <-!Z.lor_assoc.
    change (Z.lor PTE_PS (Z.lor PTE_P (Z.lor PTE_W (Z.lor PTE_PWT PTE_PCD)))) with 155.
    unfold PDXSHIFT, big_entry, DEVSPACE. rewrite Z.shiftl_mul_pow2 by lia. change (2 ^ 21) with 2097152.
    split; [rewrite lor_page; [lia| |lia]|apply u64_small; lia].
    rewrite Z.mod_divide by lia. exists (1040384 + n * 512). lia. }
  eapply wp_mono; [eapply (wp_for_each _ _ (fun k s' _ => mem_ok kend s' l /\ kpdpt s' = kpdpt s /\
     (forall x, x <> io -> pages s' !! x = pages s !! x) /\ is_Some (pages s' !! io) /\
     (forall n, 0 <= n < Z.of_nat k -> word (pages s') io n = big_entry n 155 + DEVSPACE)))|].
  - split_and!; try done. intros n Hn. lia.
  - intros k x s1 t1 Hk (Hmo1 & Hkp & Hoth & [p0 Hp0] & Hw).
    rewrite list_lookup_fmap in Hk. apply fmap_Some in Hk as (k' & Hk & ->).
    apply lookup_seq in Hk as [-> Hlt]. cbn [plus].
    apply (store_page_wp kend s1 l io (Z.of_nat k) p0);
      [done|done|lia|apply (u64_word kend); done || lia|done|].
    intros s2 Hmo2 Hp2 Hk2. destruct (Hentry (Z.of_nat k)) as [E0 U0]; [lia|]. rewrite E0 in Hp2.
    pose proof (mo_size _ _ _ Hmo1 _ _ Hp0) as L0. split_and!; [done|congruence| | |].
    + intros y Hy. rewrite Hp2, lookup_insert_ne by done. by apply Hoth.
    + rewrite Hp2, lookup_insert_eq. by eexists.
    + intros n Hn. assert (G0 := Hp2). apply (f_equal (lookup io)) in G0. rewrite lookup_insert_eq in G0.
      rewrite (word_put64 _ _ _ _ _ _ G0 L0) by lia. case_decide as E; [by subst n|].
      specialize (Hw n ltac:(lia)). unfold word in Hw. by rewrite Hp0 in Hw.
  - intros [] s' t (A1 & A2 & A3 & _ & A4). by apply HQ.
Qed.

(** Taking a page in the machine. *)
Lemma zoom_kalloc_wp s a l Q : mem_ok kend (mm s) (a :: l) ->
  (forall m, mem_ok kend m l -> (exists p, length p = pgsize /\ pages m = <[a := p]> (pages (mm s))) ->
     kpdpt m = kpdpt (mm s) -> page_ok kend a -> Q a (set_mm m s) []) ->
  wp (zoom mm_lens kalloc_page) s Q.
Proof.
  intros Hmo HQ. apply wp_zoom. apply (kalloc_page_wp kend (mm s) (a :: l)); [done|done|].
  intros a' l' p m [= <- <-] Hm Hp Hk Hl Ha _. apply HQ; try done. by exists p.
Qed.

Lemma kvm_tables_wp s l p4 pdpt g0 g1 io Q : mem_ok kend s l -> NoDup [p4; pdpt; g0; g1; io] ->
  Forall (fun a => page_ok kend a /\ is_Some (pages s !! a)) [p4; pdpt; g0; g1; io] ->
  (forall s', mem_ok kend s' l -> kernel_tables (pages s') kend pdpt g0 g1 io ->
     (forall i, 0 <= i < 512 -> word (pages s') p4 i = if decide (i = 511) then Z.lor (v2p pdpt) 3 else 0) ->
     (forall x, x ∉ [p4; pdpt; g0; g1; io] -> pages s' !! x = pages s !! x) -> kpdpt s' = kpdpt s -> Q tt s') ->
  wp (kvm_tables p4 pdpt g0 g1 io) s (fun r s' _ => Q r s').
Proof.
  intros Hmo Hnd Hall HQ. rewrite !Forall_cons in Hall.
  destruct Hall as ((O4 & q4 & P4) & (Op & qp & Pp) & (O0 & S0) & (O1 & S1) & (Oi & qi & Pi) & _).
  rewrite !NoDup_cons, !not_elem_of_cons in Hnd.
  destruct Hnd as ((N1 & N2 & N3 & N4 & _) & (N5 & N6 & N7 & _) & (N8 & N9 & _) & (N10 & _) & _).
  assert (Hz : length zeros = pgsize) by apply length_replicate.
  unfold kvm_tables. rewrite <-!Z.lor_assoc. change (Z.lor PTE_P PTE_W) with 3.
  apply wp_bind, (zero_page_wp kend s l p4 q4); [done|done|done|]. intros s1 M1 E1 K1.
  apply wp_bind, (zero_page_wp kend s1 l pdpt qp); [done|done|rewrite E1; look|]. intros s2 M2 E2 K2.
  apply wp_bind, (zero_page_wp kend s2 l io qi); [done|done|rewrite E2, E1; look|]. intros s3 M3 E3 K3.
  apply wp_bind, (store_page_wp kend s3 l p4 511 zeros); [done|done|lia|apply (u64_word kend); done || lia|
    rewrite E3, E2, E1; look|]. intros s4 M4 E4 K4.
  apply wp_bind, (store_page_wp kend s4 l pdpt 511 zeros); [done|done|lia|apply (u64_word kend); done || lia|
    rewrite E4, E3, E2; look|]. intros s5 M5 E5 K5.
  apply wp_bind, (store_page_wp kend s5 l pdpt 510 (put64 zeros 511 (Z.lor (v2p g1) 3)));
    [done|done|lia|apply (u64_word kend); done || lia|rewrite E5; look|]. intros s6 M6 E6 K6.
  apply wp_bind, (store_page_wp kend s6 l pdpt 509 (put64 (put64 zeros 511 (Z.lor (v2p g1) 3)) 510 (Z.lor (v2p g0) 3)));
    [done|done|lia|apply (u64_word kend); done || lia|rewrite E6; look|]. intros s7 M7 E7 K7.
  assert (Hother : forall x, x <> p4 -> x <> pdpt -> x <> io -> pages s7 !! x = pages s !! x).
  { intros x X1 X2 X3. rewrite E7, E6, E5, E4, E3, E2, E1. look. }
  apply wp_bind. eapply wp_mono; [apply (fill_tables_wp s7 l g0 g1 (fun _ s8 =>
     mem_ok kend s8 l /\ kpdpt s8 = kpdpt s7 /\ (forall x, x <> g0 -> x <> g1 -> pages s8 !! x = pages s7 !! x) /\
     (forall n, 0 <= n < 512 -> word (pages s8) g0 n = big_entry n 131 /\
        word (pages s8) g1 n = big_entry (n + 512) 131)));
     [done|done|done|done|by rewrite Hother by done|by rewrite Hother by done|by auto]|].
  intros _ s8 _ (M8 & K8 & E8 & W8). cbn beta.
  assert (Pi8 : pages s8 !! io = Some zeros).
  { rewrite E8 by done. rewrite E7, E6, E5, E4, E3. look. }
  apply (fill_devices_wp s8 l io zeros); [done|done|done|]. intros s9 M9 K9 E9 W9.
  assert (F4 : pages s9 !! p4 = Some (put64 zeros 511 (Z.lor (v2p pdpt) 3))).
  { rewrite E9, E8 by done. rewrite E7, E6, E5, E4. look. }
  assert (Fp : pages s9 !! pdpt = Some (put64 (put64 (put64 zeros 511 (Z.lor (v2p g1) 3)) 510 (Z.lor (v2p g0) 3)) 509 (Z.lor (v2p io) 3))).
  { rewrite E9, E8 by done. rewrite E7. look. }
  assert (L1 : forall v, length (put64 zeros 511 v) = pgsize) by (intros; by apply length_put64).
  assert (L2 : forall v w, length (put64 (put64 zeros 511 v) 510 w) = pgsize) by (intros; by apply length_put64).
  assert (H3 : 0 <= 3 < 4096) by lia.
  apply HQ; [done| | | |congruence].
  - unfold kernel_tables. do 4 (split; [done|]).
    rewrite !(word_put64 _ _ _ _ _ _ Fp (L2 _ _)), !(get_put64 _ _ _ _ (L1 _)), !(get_put64 _ _ _ _ Hz) by lia.
    cbn [decide]. rewrite (proj1 (page_flags_u64 kend g1 3 O1 H3)), (proj1 (page_flags_u64 kend g0 3 O0 H3)),
      (proj1 (page_flags_u64 kend io 3 Oi H3)).
    split_and!; [by repeat (rewrite decide_False by lia); rewrite decide_True|
      by rewrite decide_False by lia; rewrite decide_True|by rewrite decide_True| |done].
    intros n Hn. unfold word. rewrite !E9 by done. by apply W8.
  - intros i Hi. rewrite (word_put64 _ _ _ _ _ _ F4 Hz), get_zeros by lia.
    destruct (decide (i = 511)) as [->|]; [|by rewrite decide_False by lia].
    rewrite decide_True by done. apply (page_flags_u64 kend pdpt 3 Op H3).
  - intros x Hx. rewrite !not_elem_of_cons in Hx. destruct Hx as (X1 & X2 & X3 & X4 & X5 & _).
    rewrite E9, E8, Hother by done. done.
Qed.

Lemma kvmalloc_wp s a b c d e l Q : mem_ok kend (mm s) (a :: b :: c :: d :: e :: l) ->
  (forall s', mem_ok kend (mm s') l -> cr3 (hw s') = v2p a -> kpml4 s' = a -> kpdpt (mm s') = b ->
     page_ok kend a -> kernel_tables (pages (mm s')) kend b c d e ->
     (forall i, 0 <= i < 512 -> word (pages (mm s')) a i = if decide (i = 511) then Z.lor (v2p b) 3 else 0) ->
     (forall x p, pages (mm s) !! x = Some p -> pages (mm s') !! x = Some p) ->
     lockcpu s' = lockcpu s -> Q tt s') ->
  wp kvmalloc s (fun r s' _ => Q r s').
Proof.
  intros Hmo HQ. pose proof (fp_nodup _ _ _ (mo_free _ _ _ Hmo)) as Hnd.
  assert (Hnd5 : NoDup [a; b; c; d; e]).
  { change (a :: b :: c :: d :: e :: l) with ([a; b; c; d; e] ++ l) in Hnd. by apply NoDup_app in Hnd as [? _]. }
  assert (Hnone : forall x, x ∈ [a; b; c; d; e] -> pages (mm s) !! x = None).
  { intros x Hx. apply (mo_fresh _ _ _ Hmo). set_solver. }
  unfold kvmalloc. apply wp_bind, (zoom_kalloc_wp s a (b :: c :: d :: e :: l)); [done|].
  intros m1 Hm1 (p1 & L1 & E1) K1 O1.
  apply wp_bind, (zoom_kalloc_wp _ b (c :: d :: e :: l)); [exact Hm1|].
  intros m2 Hm2 (p2 & L2 & E2) K2 O2. apply wp_bind, wp_zoom, wp_mod. cbn [lget lput mm_lens set_mm mm] in *.
  apply wp_bind, (zoom_kalloc_wp _ c (d :: e :: l)); [by destruct Hm2; split|].
  intros m3 Hm3 (p3 & L3 & E3) K3 O3.
  apply wp_bind, (zoom_kalloc_wp _ d (e :: l)); [exact Hm3|].
  intros m4 Hm4 (p4 & L4 & E4) K4 O4.
  apply wp_bind, (zoom_kalloc_wp _ e l); [exact Hm4|].
  intros m5 Hm5 (p5 & L5 & E5) K5 O5.
  cbn [mm set_mm pages kpdpt set_kpdpt] in *. rewrite E2, E1 in E3. rewrite E3 in E4. rewrite E4 in E5.
  pose proof Hnd5 as Hd. rewrite !NoDup_cons, !not_elem_of_cons in Hd.
  destruct Hd as ((N1 & N2 & N3 & N4 & _) & (N5 & N6 & N7 & _) & (N8 & N9 & _) & (N10 & _) & _).
  apply wp_bind, wp_mod. apply wp_bind, wp_zoom. cbn [lget mm_lens mm set_ktables set_mm].
  eapply wp_mono; [apply (kvm_tables_wp m5 l a b c d e (fun _ m6 => mem_ok kend m6 l /\
     kernel_tables (pages m6) kend b c d e /\
     (forall i, 0 <= i < 512 -> word (pages m6) a i = if decide (i = 511) then Z.lor (v2p b) 3 else 0) /\
     (forall x, x ∉ [a; b; c; d; e] -> pages m6 !! x = pages m5 !! x) /\ kpdpt m6 = kpdpt m5));
     [done|done| |by auto 10]|].
  - rewrite !Forall_cons. split_and!; try done; rewrite E5; eexists; look.
  - intros _ m6 _ (M6 & T6 & W6 & X6 & K6). unfold switchkvm.
    apply wp_bind, wp_gets, wp_mod. cbn beta. apply HQ; cbn [mm set_hw hw cr3 kpml4 set_mm set_ktables lput mm_lens]; try done.
    + congruence.
    + intros x p Hx. assert (Hn : x ∉ [a; b; c; d; e]) by (intros Hin; rewrite Hnone in Hx; done).
      rewrite X6 by done. rewrite !not_elem_of_cons in Hn.
      destruct Hn as (X1 & X2 & X3 & X4 & X5 & _). rewrite E5. look.
Qed.

(** kvmalloc builds the kernel's address space and switches to it: with five free
    pages it returns, and the processor then translates every address of the first
    two gigabytes above KERNBASE to the physical address it stands for, the 32
    megabytes above DEVBASE to the devices at DEVSPACE, and no user address; memory
    in use before is unchanged. *)
Theorem kvmalloc_maps_kernel s a b c d e l :
  mem_ok kend (mm s) (a :: b :: c :: d :: e :: l) ->
  wp kvmalloc s (fun _ s' _ => mem_ok kend (mm s') l /\
    kernel_mapped (pages (mm s')) (cr3 (hw s')) /\
    (forall va, 0 <= va < 2 ^ 47 -> hw_translate (pages (mm s')) (cr3 (hw s')) va = None) /\
    (exists g0 g1 io, kernel_tables (pages (mm s')) kend (kpdpt (mm s')) g0 g1 io) /\
    (forall x p, pages (mm s) !! x = Some p -> pages (mm s') !! x = Some p)).
Proof.
  intros Hmo. apply (kvmalloc_wp s a b c d e l (fun _ s' => mem_ok kend (mm s') l /\
    kernel_mapped (pages (mm s')) (cr3 (hw s')) /\
    (forall va, 0 <= va < 2 ^ 47 -> hw_translate (pages (mm s')) (cr3 (hw s')) va = None) /\
    (exists g0 g1 io, kernel_tables (pages (mm s')) kend (kpdpt (mm s')) g0 g1 io) /\
    (forall x p, pages (mm s) !! x = Some p -> pages (mm s') !! x = Some p))); [done|].
  intros s' M1 -> _ Hk Ha HT Hw Hkeep _. split_and!; [done| | |by rewrite Hk; eauto|done].
  - apply (kernel_mapped_ok _ _ b c d e HT). exists 3. split_and!; [lia|lia|done|].
    rewrite (p2v_v2p kend), Hw by (done || lia). by rewrite decide_True.
  - intros va Hva. unfold hw_translate. destruct (hw_index_parts va) as (-> & _); [lia|].
    unfold hw_entry. rewrite (p2v_v2p kend), Hw by (done || (apply Z.mod_pos_bound; lia)).
    rewrite decide_False; [done|]. change (2 ^ 39) with 549755813888. change (2 ^ 47) with 140737488355328 in Hva. lia_dm.
Qed.

(** ** switchuvm *)

(** An address space whose upper levels are as setupkvm left them, on a machine whose
    kernel tables are in place; [lp] is the running CPU's local page, apart from both. *)
Record process_space (s : machine) (l : list Z) (pml4 pdpt pgdir : Z) (T : gmap Z Z)
    (M : gmap Z (Z * Z)) (lp : Z) : Prop := {
  ps_mem : mem_ok kend (mm s) l;
  ps_space : aspace kend (pages (mm s)) pgdir T M;
  ps_upper : page_ok kend pml4 /\ page_ok kend pdpt /\
    word (pages (mm s)) pml4 0 = Z.lor (v2p pdpt) 7 /\ word (pages (mm s)) pdpt 0 = Z.lor (v2p pgdir) 7 /\
    word (pages (mm s)) pml4 511 = Z.lor (v2p (kpdpt (mm s))) 7 /\
    word (pages (mm s)) pgdir 511 = Z.lor pml4 PTE_P;
  ps_kernel : exists g0 g1 io, kernel_tables (pages (mm s)) kend (kpdpt (mm s)) g0 g1 io /\
    lp <> g0 /\ lp <> g1 /\ lp <> io;
  ps_local : local s !! cpu_ptr s = Some lp /\ page_ok kend lp /\ is_Some (pages (mm s) !! lp);
  ps_apart : outside pgdir T M lp /\ lp <> pml4 /\ lp <> pdpt /\ lp <> kpdpt (mm s);
}.

(** What the running CPU sees of a process: its pages, and the kernel. *)
Definition process_mapped (P : gmap Z (list Z)) (root : Z) (M : gmap Z (Z * Z)) : Prop :=
  (forall va, 0 <= va < UTOP -> hw_translate P root va =
     match M !! (va / 4096) with Some (f, _) => Some (v2p f + va mod 4096) | None => None end) /\
  kernel_mapped P root.

(** Changing the local page leaves all tables alone. *)
Lemma process_mapped_ok s l pml4 pdpt pgdir T M lp P' :
  process_space s l pml4 pdpt pgdir T M lp ->
  (forall x, x <> lp -> P' !! x = pages (mm s) !! x) -> is_Some (P' !! lp) ->
  process_mapped P' (v2p pml4) M.
Proof.
  intros [H1 H2 (O4 & O3 & W4 & W3 & Wk & _) (g0 & g1 & io & HK & X0 & X1 & Xi) _ ((Xd & XT & XM) & X4 & X3 & Xk)] HP Hlp.
  assert (HW : forall x i, x <> lp -> word P' x i = word (pages (mm s)) x i).
  { intros x i Hx. unfold word. by rewrite HP. }
  assert (HA : aspace kend P' pgdir T M).
  { apply (aspace_frame kend (pages (mm s))); [done|apply HP; congruence| |].
    - intros i t Hi. apply HP. intros ->. by apply (XT i).
    - intros v f fl Hv. rewrite HP by (intros ->; by apply (XM v fl)).
      by destruct (as_map _ _ _ _ _ H2 _ _ _ Hv) as (_ & _ & ? & _). }
  split.
  - intros va Hva. apply (user_translate P' pml4 pdpt pgdir T M); try done; by rewrite HW by congruence.
  - apply (kernel_mapped_ok P' _ (kpdpt (mm s)) g0 g1 io).
    + destruct HK as (K1 & K2 & K3 & K4 & K5 & K6 & K7 & K8 & K9). unfold kernel_tables.
      rewrite !HW by congruence. split_and!; try done.
      * intros n Hn. rewrite !HW by congruence. by apply K8.
      * intros n Hn. rewrite HW by congruence. by apply K9.
    + exists 7. split_and!; [lia|lia|done|]. rewrite (p2v_v2p kend), HW by (done || congruence). done.
Qed.

Lemma store_word32_wp s l pg off p v Q : mem_ok kend s l -> page_ok kend pg -> pages s !! pg = Some p ->
  0 <= off <= 4092 ->
  (forall s', mem_ok kend s' l -> pages s' = <[pg := put32 p (Z.to_nat off) v]> (pages s) ->
     kpdpt s' = kpdpt s -> Q tt s' []) ->
  wp (store32 (u64 (pg + off)) v) s Q.
Proof.
  intros Hmo Hpg Hp Hoff HQ. pose proof (page_ok_range kend pg Hpg) as (Hm & Hr & _).
  pose proof (mo_size _ _ _ Hmo _ _ Hp) as Hl. pose proof pgsize_Z.
  rewrite u64_small by lia. assert (Hmod : (pg + off) mod 4096 = off) by lia_dm.
  unfold store32, with_page, put_page. wp_steps. unfold page_of, page_off, PGSIZE. rewrite Hmod.
  replace (pg + off - off) with pg by lia. rewrite Hp. wp_steps. apply HQ; [|done|done].
  apply (mem_ok_insert kend s l pg p); [done|done|]. unfold put32. rewrite length_put_le; lia.
Qed.

(** popcli undoes pushcli. *)
Lemma popcli_pushcli c : 0 <= Smp.ncli c -> (0 < Smp.ncli c -> Smp.IF c = false) ->
  exists c', Smp.popcli (Smp.pushcli c) = inr c' /\ Smp.IF c' = Smp.IF c /\ Smp.ncli c' = Smp.ncli c.
Proof.
  intros Hcli Hif. destruct c as [n0 ie fl]. unfold Smp.popcli, Smp.pushcli. cbn in *.
  rewrite Z.add_simpl_r, (proj2 (Z.ltb_ge n0 0)) by lia. eexists. split; [done|].
  cbn. destruct (Z.eqb_spec n0 0) as [->|]; [by destruct fl|]. rewrite Hif by lia. done.
Qed.

(** switchuvm loads the address space of a process: afterwards the processor
    translates every user address as the process's mapping says (and faults where it
    has none), still translates the kernel's addresses, takes its kernel stack for
    interrupts from the top of the current process's, and has interrupts enabled
    exactly when it had before. *)
Theorem switchuvm_switches s l pml4 pdpt pgdir T M lp kstack :
  process_space s l pml4 pdpt pgdir T M lp -> 0 <= kstack < 2 ^ 64 - KSTACKSIZE ->
  0 <= Smp.ncli (lockcpu s) -> (0 < Smp.ncli (lockcpu s) -> Smp.IF (lockcpu s) = false) ->
  wp (switchuvm pgdir kstack) s (fun _ s' _ => cr3 (hw s') = v2p pml4 /\
    process_mapped (pages (mm s')) (cr3 (hw s')) M /\
    (exists p, pages (mm s') !! lp = Some p /\
       get32 p 1028 + 2 ^ 32 * get32 p 1032 = kstack + KSTACKSIZE) /\
    Smp.IF (lockcpu s') = Smp.IF (lockcpu s) /\ Smp.ncli (lockcpu s') = Smp.ncli (lockcpu s)).
Proof.
  intros Hps Hks Hcli Hif. pose proof Hps as [H1 H2 (O4 & _ & _ & _ & _ & Wb) _ (Hloc & Olp & [p Hp]) ((Xd & _) & _)].
  unfold KSTACKSIZE in *. unfold switchuvm. destruct (as_dir _ _ _ _ _ H2) as [Od Sd].
  apply wp_bind, wp_mod. pose proof (page_ok_range kend _ Od) as (_ & Hdp & _).
  destruct (Z.eqb_spec pgdir 0); [lia|]. apply wp_bind, wp_get. cbn [local cpu_ptr set_lockcpu].
  rewrite Hloc. cbv zeta. pose proof (page_ok_range kend _ Olp) as (_ & Hlr & _).
  rewrite (u64_small (lp + 1024)), (u64_small (kstack + _)) by (unfold KSTACKSIZE; lia).
  apply wp_bind, wp_zoom. unfold tss_set_rsp. apply wp_bind.
  replace (lp + 1024 + 4 * (0 * 2 + 1)) with (lp + 1028) by lia.
  replace (lp + 1024 + 4 * (0 * 2 + 2)) with (lp + 1032) by lia.
  apply (store_word32_wp _ l lp 1028 p); [done|done|done|lia|]. intros m1 M1 E1 K1.
  set (p1 := put32 p (Z.to_nat 1028) (kstack + KSTACKSIZE)) in *.
  apply (store_word32_wp m1 l lp 1032 p1); [done|done|rewrite E1; apply lookup_insert_eq|lia|]. intros m2 M2 E2 K2.
  set (p2 := put32 p1 _ _) in *. rewrite E1, insert_insert_eq in E2. cbn [lget mm_lens mm set_lockcpu] in *.
  apply wp_bind, wp_zoom. rewrite (u64_word kend) by (done || lia). cbn [lget lput mm_lens mm set_mm].
  apply load64_wp; [by apply (page_ok_mod kend)|lia|rewrite E2, lookup_insert_ne by done; done|].
  assert (word (pages m2) pgdir 511 = Z.lor pml4 PTE_P) as ->.
  { rewrite E2, word_other by done. done. }
  rewrite PTE_ADDR_lor by (first [by apply (page_ok_mod kend) | unfold PTE_P; lia]).
  apply wp_bind, wp_mod. apply wp_bind, wp_get.
  cbn [lockcpu set_hw set_mm lput mm_lens set_lockcpu].
  destruct (popcli_pushcli (lockcpu s) Hcli Hif) as (c' & -> & HI & HN). apply wp_mod.
  cbn [hw cr3 mm lockcpu set_lockcpu set_hw set_mm lput mm_lens].
  assert (Hl : length p = pgsize) by (by apply (mo_size _ _ _ H1 lp)). pose proof pgsize_Z.
  assert (Hl1 : length p1 = pgsize) by (unfold p1, put32; rewrite length_put_le; lia).
  split_and!; [done| | |done|done].
  - apply (process_mapped_ok s l pml4 pdpt pgdir T M lp); [done| |].
    + intros x Hx. by rewrite E2, lookup_insert_ne.
    + rewrite E2, lookup_insert_eq. by eexists.
  - exists p2. split; [rewrite E2; apply lookup_insert_eq|].
    assert (get32 p2 1028 = u32 (kstack + KSTACKSIZE)) as ->.
    { unfold p2. rewrite get32_put32_other by lia. unfold p1. apply (get32_put32 p 1028). lia. }
    assert (get32 p2 1032 = u32 (Z.shiftr (kstack + KSTACKSIZE) 32)) as ->.
    { unfold p2. apply (get32_put32 p1 1032). lia. }
    rewrite Z.shiftr_div_pow2 by lia. unfold KSTACKSIZE, u32. change (2 ^ 32) with 4294967296.
    change (2 ^ 64) with 18446744073709551616 in *. lia_dm.
Qed.
End meaning.

(** ** Witnesses: a machine that boots its kernel space and one process *)

Lemma word_mono P P' x i w : (forall x p, P !! x = Some p -> P' !! x = Some p) ->
  word P x i = w -> w <> 0 -> word P' x i = w.
Proof.
  intros HP Hw H0. unfold word in *. destruct (P !! x) as [p|] eqn:E; [by rewrite (HP x p E)|congruence].
Qed.

Lemma kernel_tables_mono P P' kend pdpt g0 g1 io :
  (forall x p, P !! x = Some p -> P' !! x = Some p) ->
  kernel_tables P kend pdpt g0 g1 io ->
  kernel_tables P' kend pdpt g0 g1 io /\ Forall (fun x => is_Some (P !! x)) [pdpt; g0; g1; io].
Proof.
  intros HP (K1 & K2 & K3 & K4 & K5 & K6 & K7 & K8 & K9).
  assert (Hne : forall a, page_ok kend a -> Z.lor (v2p a) 3 <> 0).
  { intros a Ha. apply (page_ok_phys kend) in Ha as [Hm Hr]. rewrite lor_page by (done || lia). lia. }
  assert (Hsome : forall x i, word P x i <> 0 -> is_Some (P !! x)).
  { intros x i Hx. unfold word in Hx. by destruct (P !! x). }
  assert (Hb : forall n fl, 0 <= n -> 0 < fl -> big_entry n fl <> 0) by (unfold big_entry; lia).
  split.
  - split_and!; try done; try (by apply (word_mono P); auto).
    + intros n Hn. destruct (K8 n Hn). split; apply (word_mono P); auto; apply Hb; lia.
    + intros n Hn. apply (word_mono P); auto. unfold big_entry, DEVSPACE. lia.
  - repeat constructor.
    + apply (Hsome _ 511). rewrite K5. auto.
    + apply (Hsome _ 0). destruct (K8 0) as [-> _]; [lia|]. apply Hb; lia.
    + apply (Hsome _ 0). destruct (K8 0) as [_ ->]; [lia|]. apply Hb; lia.
    + apply (Hsome _ 0). rewrite K9 by lia. unfold big_entry, DEVSPACE. lia.
Qed.

Definition demo_regs : regs := Regs 0 (0, 0) (0, 0) 0 0.
Definition demo_boot : machine :=
  Machine demo_mem demo_regs (Smp.Cpu 0 true true) 0 ∅ 0 0 0 0 0 0.
Definition demo_list15 : list Z := rev (page_range demo_p2 9) ++ rev (page_range demo_p1 6).

Lemma kvmalloc_maps_kernel_witness : wp kvmalloc demo_boot (fun _ s' _ =>
  mem_ok demo_kend (mm s') demo_list15 /\ kernel_mapped (pages (mm s')) (cr3 (hw s')) /\
  (forall va, 0 <= va < 2 ^ 47 -> hw_translate (pages (mm s')) (cr3 (hw s')) va = None) /\
  (exists g0 g1 io, kernel_tables (pages (mm s')) demo_kend (kpdpt (mm s')) g0 g1 io) /\
  (forall x p, pages (mm demo_boot) !! x = Some p -> pages (mm s') !! x = Some p)).
Proof. exact (kvmalloc_maps_kernel demo_kend demo_boot _ _ _ _ _ demo_list15 demo_mem_ok). Defined.

(** The kernel's space, then a process's, then a local page for the CPU. *)
Lemma boot_process kend (Hkend : KERNBASE < kend) s p1 p2 p3 p4 p5 p6 p7 p8 p9 l :
  mem_ok kend (mm s) (p1 :: p2 :: p3 :: p4 :: p5 :: p6 :: p7 :: p8 :: p9 :: l) ->
  exists s1 m2 m3, (exists t, kvmalloc s = (t, Ret tt s1)) /\ (exists t, setupkvm (mm s1) = (t, Ret p8 m2)) /\
    (exists t, kalloc_page m2 = (t, Ret p9 m3)) /\ lockcpu s1 = lockcpu s /\
    process_space kend (set_percpu {[ 0 := p9 ]} 0 0 (set_mm m3 s1)) l p6 p7 p8 ∅ ∅ p9.
Proof.
  intros Hmo.
  destruct (wp_run _ _ _ (kvmalloc_wp kend s _ _ _ _ _ _ (fun _ s1 =>
     mem_ok kend (mm s1) (p6 :: p7 :: p8 :: p9 :: l) /\ kpdpt (mm s1) = p2 /\
     kernel_tables (pages (mm s1)) kend p2 p3 p4 p5 /\ lockcpu s1 = lockcpu s) Hmo
     ltac:(intros; cbn beta; split_and!; assumption))) as ([] & s1 & t1 & R1 & M1 & K1 & T1 & L1).
  destruct (wp_run _ _ _ (setupkvm_wp kend Hkend (mm s1) _ _ _ _ (fun r m2 _ => r = p8 /\
     mem_ok kend m2 (p9 :: l) /\ new_space kend (mm s1) m2 p6 p7 p8) M1 ltac:(intros; split_and!; auto)))
    as (r2 & m2 & t2 & R2 & -> & M2 & [N4 N3 [Nb _] NS NK Nk]).
  destruct (wp_run _ _ _ (kalloc_page_wp kend m2 _ (fun r m3 _ => r = p9 /\ mem_ok kend m3 l /\
     (exists p, pages m3 = <[p9 := p]> (pages m2)) /\ kpdpt m3 = kpdpt m2 /\ page_ok kend p9 /\
     pages m2 !! p9 = None) M2 ltac:(discriminate)
     ltac:(intros a l' p s' [= <- <-] ? ? ? ? ? ?; split_and!; eauto)))
    as (r3 & m3 & t3 & R3 & -> & M3 & [p E3] & K3 & O3 & F3).
  exists s1, m2, m3. split; [by eauto|]. split; [by eauto|]. split; [by eauto|]. split; [done|].
  destruct (kernel_tables_mono (pages (mm s1)) (pages m2) kend p2 p3 p4 p5 NK T1) as [T2 Ts].
  rewrite !Forall_cons in Ts. destruct Ts as (S2 & S3 & S4 & S5 & _).
  assert (Hne : forall x, is_Some (pages (mm s1) !! x) -> p9 <> x).
  { intros x [q Hq] <-. rewrite (NK _ _ Hq) in F3. done. }
  assert (Hne2 : forall x, is_Some (pages m2 !! x) -> p9 <> x) by (intros x [q Hq] <-; congruence).
  assert (Hword : forall x i w, word (pages m2) x i = w -> w <> 0 -> word (pages m3) x i = w /\ p9 <> x).
  { intros x i w Hw H0. assert (Hx : p9 <> x).
    { apply Hne2. unfold word in Hw. destruct (pages m2 !! x); [by eexists|congruence]. }
    split; [|done]. rewrite E3, word_other by done. done. }
  pose proof (fp_ok _ _ _ (mo_free _ _ _ M1)) as Hok. rewrite !Forall_cons in Hok.
  destruct Hok as (O6 & O7 & O8 & _).
  assert (Hlor : forall a fl, page_ok kend a -> 0 < fl < 4096 -> Z.lor (v2p a) fl <> 0 /\ Z.lor a fl <> 0).
  { intros a fl Ha Hfl. pose proof (page_ok_phys kend a Ha). pose proof (page_ok_range kend a Ha).
    rewrite !lor_page by (tauto || lia). lia. }
  assert (O2 : page_ok kend p2) by (by destruct T1).
  specialize (N4 0 ltac:(lia)) as N40. specialize (N4 511 ltac:(lia)) as N4k. specialize (N3 0 ltac:(lia)) as N30.
  rewrite decide_True in N40, N30 by done. rewrite decide_False, decide_True, K1 in N4k by done.
  rewrite (proj1 (page_flags_u64 kend p2 7 O2 ltac:(lia))) in N4k.
  destruct (Hword _ _ _ N40) as [W40 X6]; [exact (proj1 (Hlor p7 7 O7 ltac:(lia)))|]. destruct (Hword _ _ _ N4k) as [W4k _]; [exact (proj1 (Hlor p2 7 O2 ltac:(lia)))|].
  destruct (Hword _ _ _ N30) as [W30 X7]; [exact (proj1 (Hlor p8 7 O8 ltac:(lia)))|].
  destruct (Hword _ _ _ Nb) as [Wb X8]; [exact (proj2 (Hlor p6 PTE_P O6 ltac:(unfold PTE_P; lia)))|].
  assert (Kp : kpdpt m3 = p2) by congruence.
  assert (T3 : kernel_tables (pages m3) kend p2 p3 p4 p5).
  { apply (kernel_tables_mono (pages m2)); [|done]. intros x q Hx. rewrite E3, lookup_insert_ne; [done|congruence]. }
  split; cbn [mm set_percpu set_mm local cpu_ptr]; rewrite ?Kp.
  - done.
  - rewrite E3. apply aspace_insert_outside; [done|]. by apply (fresh_outside kend (pages m2)).
  - done.
  - exists p3, p4, p5. split_and!; auto.
  - split_and!; [by rewrite lookup_singleton_eq|done|]. rewrite E3, lookup_insert_eq. by eexists.
  - split_and!; auto. by apply (fresh_outside kend (pages m2)).
Qed.

Lemma switchuvm_switches_witness : exists s pgdir pml4 lp, local s !! cpu_ptr s = Some lp /\
  wp (switchuvm pgdir 4096) s (fun _ s' _ => cr3 (hw s') = v2p pml4 /\
    process_mapped (pages (mm s')) (cr3 (hw s')) ∅ /\
    (exists p, pages (mm s') !! lp = Some p /\ get32 p 1028 + 2 ^ 32 * get32 p 1032 = 4096 + KSTACKSIZE) /\
    Smp.IF (lockcpu s') = Smp.IF (lockcpu s) /\ Smp.ncli (lockcpu s') = Smp.ncli (lockcpu s)).
Proof.
  destruct (boot_process demo_kend demo_kend_ok demo_boot _ _ _ _ _ _ _ _ _ _ demo_mem_ok)
    as (s1 & m2 & m3 & _ & _ & _ & Hl & Hps).
  eexists _, _, _, _. split; [apply Hps|].
  refine (switchuvm_switches demo_kend _ _ _ _ _ _ _ _ 4096 Hps _ _ _).
  - vm_compute. split; [discriminate|reflexivity].
  - cbn [lockcpu set_percpu set_mm]. rewrite Hl. vm_compute. discriminate.
  - cbn [lockcpu set_percpu set_mm]. rewrite Hl. intros H. vm_compute in H. discriminate.
Defined.
