(* ===== verification/Pipe.v ===== *)
(** * Pipes: kernel/pipe.c

    A pipe is a 512-byte ring buffer with two free-running 32-bit counters.  The
    reader and the writer both hold the pipe's lock for a whole call and poll a
    bounded number of times instead of sleeping, so within one call nothing but the
    caller changes the pipe.  [got] is whether [sacquire] obtained the lock within
    LOCK_WAIT_TICKS, [killed] is [proc->killed] of the caller, [pa] the address of
    the pipe (it names the sleep channels). *)

From stdpp Require Import base list strings.
From Stdlib Require Import ZArith Lia.
From S2P Require Import Prelude Spinlock.
Open Scope Z_scope.

Definition PIPESIZE : Z := 512.
Definition MAX_WRITE_WAIT : Z := 1000.
Definition MAX_READ_WAIT : Z := 1000.
Definition F_ERROR : Z := -1.
Definition FNOT_READY : Z := -2.

Record pipe := Pipe {
  p_lock : bool;
  data : list Z;
  nread : Z;          (* number of bytes read, modulo 2^32 *)
  nwrite : Z;         (* number of bytes written, modulo 2^32 *)
  readopen : Z;
  writeopen : Z;
}.

Definition set_p_lock (b : bool) (p : pipe) : pipe :=
  Pipe b (data p) (nread p) (nwrite p) (readopen p) (writeopen p).
Definition pipe_lock : lens pipe bool := Lens p_lock set_p_lock.

(** [data[nwrite++ % PIPESIZE] = c] *)
Definition push_byte (c : Z) (p : pipe) : pipe :=
  Pipe (p_lock p) (<[Z.to_nat (nwrite p mod PIPESIZE) := c]> (data p))
    (nread p) (u32 (nwrite p + 1)) (readopen p) (writeopen p).

(** [nread++] *)
Definition bump_nread (p : pipe) : pipe :=
  Pipe (p_lock p) (data p) (u32 (nread p + 1)) (nwrite p) (readopen p) (writeopen p).

Definition set_readopen (v : Z) (p : pipe) : pipe :=
  Pipe (p_lock p) (data p) (nread p) (nwrite p) v (writeopen p).
Definition set_writeopen (v : Z) (p : pipe) : pipe :=
  Pipe (p_lock p) (data p) (nread p) (nwrite p) (readopen p) v.

(** What [pipealloc] stores in a fresh page. *)
Definition pipe_init (d : list Z) : pipe := Pipe false d 0 0 1 1.

Section pipe.
Context (pa : Z) (killed : bool).

(** Result of polling: leave the loop with the counter, or return from the call. *)
Inductive polled := Done (loops : Z) | Return (r : Z).

(** [while ((p->nwrite == p->nread + PIPESIZE) && loops++ < MAX_WRITE_WAIT) {...}] *)
Fixpoint poll_full (fuel : nat) (loops : Z) : K pipe polled :=
  let! p := kget in
  if nwrite p =? u32 (nread p + PIPESIZE) then
    if loops <? MAX_WRITE_WAIT then
      match fuel with
      | O => kstop NoFuel
      | S fuel' =>
          if ((readopen p =? 0) || killed)%bool then
            release pipe_lock ;;; kret (Return F_ERROR)
          else wakeup (ChPipeR pa) ;;; poll_full fuel' (u32 (loops + 1))
      end
    else kret (Done (u32 (loops + 1)))
  else kret (Done loops).

(** [for (i = 0; i < n; i++) {...}] over the bytes still to write; [None] when all
    are written, [Some r] when the function returned [r] inside the loop. *)
Fixpoint write_loop (src : list Z) : K pipe (option Z) :=
  match src with
  | [] => kret None
  | c :: src' =>
      let! w := poll_full (Z.to_nat MAX_WRITE_WAIT) 0 in
      match w with
      | Return r => kret (Some r)
      | Done loops =>
          if MAX_WRITE_WAIT <=? loops then
            wakeup (ChPipeR pa) ;;; release pipe_lock ;;; kret (Some FNOT_READY)
          else kmod (push_byte c) ;;; write_loop src'
      end
  end.

Definition pipewrite (got : bool) (addr : list Z) (n : Z) : K pipe Z :=
  if negb got then kret FNOT_READY
  else
    acquire pipe_lock ;;;
    let! r := write_loop (take (Z.to_nat n) addr) in
    match r with
    | Some v => kret v
    | None => wakeup (ChPipeR pa) ;;; release pipe_lock ;;; kret n
    end.

(** [while (p->nread == p->nwrite && p->writeopen && loops++ < MAX_READ_WAIT) {...}] *)
Fixpoint poll_empty (fuel : nat) (loops : Z) : K pipe polled :=
  let! p := kget in
  if ((nread p =? nwrite p) && negb (writeopen p =? 0))%bool then
    if loops <? MAX_READ_WAIT then
      match fuel with
      | O => kstop NoFuel
      | S fuel' =>
          if killed then release pipe_lock ;;; kret (Return F_ERROR)
          else poll_empty fuel' (u32 (loops + 1))
      end
    else kret (Done (u32 (loops + 1)))
  else kret (Done loops).

(** [for (i = 0; i < n; i++) { if (nread == nwrite) break; addr[i] = ...; }]: the
    bytes copied. *)
Fixpoint read_loop (n : nat) : K pipe (list Z) :=
  match n with
  | O => kret []
  | S n' =>
      let! p := kget in
      if nread p =? nwrite p then kret []
      else match data p !! Z.to_nat (nread p mod PIPESIZE) with
           | None => fault
           | Some c => kmod bump_nread ;;; let! r := read_loop n' in kret (c :: r)
           end
  end.

(** Returns the result of [piperead] and the bytes it stored at [addr]. *)
Definition piperead (got : bool) (n : Z) : K pipe (Z * list Z) :=
  if negb got then kret (FNOT_READY, [])
  else
    acquire pipe_lock ;;;
    let! w := poll_empty (Z.to_nat MAX_READ_WAIT) 0 in
    match w with
    | Return r => kret (r, [])
    | Done loops =>
        if MAX_READ_WAIT <=? loops then
          wakeup (ChPipeW pa) ;;; release pipe_lock ;;; kret (FNOT_READY, [])
        else
          let! bs := read_loop (Z.to_nat n) in
          wakeup (ChPipeW pa) ;;; release pipe_lock ;;;
          kret (Z.of_nat (length bs), bs)
    end.

(** Returns whether the page was given back with [kfree]. *)
Definition pipeclose (writable : bool) : K pipe bool :=
  acquire pipe_lock ;;;
  (if writable then kmod (set_writeopen 0) ;;; wakeup (ChPipeR pa)
   else kmod (set_readopen 0) ;;; wakeup (ChPipeW pa)) ;;;
  let! p := kget in
  release pipe_lock ;;;
  kret ((readopen p =? 0) && (writeopen p =? 0))%bool.

(** ** The abstract pipe: a queue of at most 512 bytes *)

Record repr (p : pipe) (q : list Z) : Prop := {
  rp_len : length (data p) = 512%nat;
  rp_cap : (length q <= 512)%nat;
  rp_nread : 0 <= nread p < 2 ^ 32;
  rp_nwrite : nwrite p = u32 (nread p + Z.of_nat (length q));
  rp_data : forall k c, q !! k = Some c ->
    data p !! Z.to_nat ((nread p + Z.of_nat k) mod PIPESIZE) = Some c;
}.

(** ** Lemmas *)

Lemma full_iff p q : repr p q ->
  (nwrite p =? u32 (nread p + PIPESIZE)) = (length q =? 512)%nat.
Proof.
  intros [? Hc Hr Hw ?]. rewrite Hw. unfold u32, PIPESIZE in *.
  destruct (Nat.eqb_spec (length q) 512) as [->|Hne]; [by apply Z.eqb_eq|].
  apply Z.eqb_neq. intros He. lia_dm.
Qed.

Lemma empty_iff p q : repr p q -> (nread p =? nwrite p) = (length q =? 0)%nat.
Proof.
  intros [? Hc Hr Hw ?]. rewrite Hw. unfold u32.
  destruct (Nat.eqb_spec (length q) 0) as [->|Hne].
  - apply Z.eqb_eq. rewrite Z.mod_small; lia.
  - apply Z.eqb_neq. intros He. lia_dm.
Qed.

Lemma repr_push p q c : repr p q -> (length q < 512)%nat -> repr (push_byte c p) (q ++ [c]).
Proof.
  intros [Hl Hc Hr Hw Hd] Hlt. split; simpl; try done.
  - by rewrite length_insert.
  - rewrite length_app. simpl. lia.
  - rewrite Hw, u32_add_l, length_app. simpl. f_equal. lia.
  - assert (Hidx : nwrite p mod PIPESIZE = (nread p + Z.of_nat (length q)) mod PIPESIZE).
    { rewrite Hw. apply u32_mod_dvd; [unfold PIPESIZE; lia|]. by exists 8388608. }
    intros k d Hk. rewrite Hidx. destruct (decide (k = length q)) as [->|Hne].
    + rewrite list_lookup_insert_eq.
      * rewrite lookup_app_r, Nat.sub_diag in Hk by lia. done.
      * rewrite Hl. unfold PIPESIZE. lia_dm.
    + assert (k < length q)%nat.
      { apply lookup_lt_Some in Hk. rewrite length_app in Hk. simpl in Hk. lia. }
      rewrite lookup_app_l in Hk by done. rewrite list_lookup_insert_ne; [by apply Hd|].
      intros He. unfold PIPESIZE in *. lia_dm.
Qed.

Lemma repr_pop p c q : repr p (c :: q) ->
  data p !! Z.to_nat (nread p mod PIPESIZE) = Some c /\ repr (bump_nread p) q.
Proof.
  intros [Hl Hc Hr Hw Hd]. split.
  - specialize (Hd 0%nat c eq_refl). by rewrite Z.add_0_r in Hd.
  - split; simpl; try done.
    + simpl in Hc. lia.
    + apply u32_range.
    + rewrite u32_add_l, Hw. simpl. f_equal. lia.
    + intros k d Hk. specialize (Hd (S k) d Hk).
      rewrite <-Hd. f_equal. f_equal.
      replace (nread p + Z.of_nat (S k)) with (nread p + 1 + Z.of_nat k) by lia.
      rewrite <-Zplus_mod_idemp_l. unfold PIPESIZE.
      rewrite (u32_mod_dvd (nread p + 1) 512); [by rewrite Zplus_mod_idemp_l|lia|].
      by exists 8388608.
Qed.

Lemma repr_lock p q b : repr p q -> repr (set_p_lock b p) q.
Proof. by intros []; split. Qed.

(** Polling a full pipe: the reader's end is closed or the caller was killed, or
    the bound is used up; polling a pipe with room leaves at once. *)
Lemma poll_full_stuck fuel loops p q Q :
  repr p q -> length q = 512%nat -> 0 <= loops <= MAX_WRITE_WAIT ->
  (Z.to_nat (MAX_WRITE_WAIT - loops) <= fuel)%nat ->
  readopen p <> 0 -> killed = false ->
  (forall t, Q (Done (MAX_WRITE_WAIT + 1)) p t) ->
  wp (poll_full fuel loops) p Q.
Proof.
  intros Hr Hq Hl Hf Ho Hk. revert loops Hl Hf Q.
  induction fuel as [|fuel IH]; intros loops Hl Hf Q HQ; simpl; wp_steps;
    rewrite (full_iff p q Hr), Hq; simpl;
    destruct (Z.ltb_spec loops MAX_WRITE_WAIT) as [Hlt|Hge]; try (unfold MAX_WRITE_WAIT in *; lia).
  1,3: wp_steps; replace loops with MAX_WRITE_WAIT by lia; by apply HQ.
  destruct (Z.eqb_spec (readopen p) 0); [done|]. rewrite Hk. simpl. wp_steps.
  rewrite u32_small by (unfold MAX_WRITE_WAIT in *; lia).
  apply IH; unfold MAX_WRITE_WAIT in *; try lia. intros t. apply HQ.
Qed.

Lemma poll_full_error fuel p q Q :
  repr p q -> length q = 512%nat -> p_lock p = true ->
  (readopen p =? 0) = true \/ killed = true -> (0 < fuel)%nat ->
  (forall t, Q (Return F_ERROR) (set_p_lock false p) t) ->
  wp (poll_full fuel 0) p Q.
Proof.
  intros Hr Hq Hlk Ho Hf HQ. destruct fuel as [|fuel]; [lia|]. simpl. wp_steps.
  rewrite (full_iff p q Hr), Hq. simpl.
  replace ((readopen p =? 0) || killed)%bool with true
    by (destruct Ho as [-> | ->]; [done|by rewrite orb_true_r]).
  wp_steps. apply wp_release; [done|]. wp_steps. apply HQ.
Qed.

Lemma poll_full_room fuel p q Q :
  repr p q -> (length q < 512)%nat -> Q (Done 0) p [] -> wp (poll_full fuel 0) p Q.
Proof.
  intros Hr Hq HQ. destruct fuel; simpl; wp_steps; rewrite (full_iff p q Hr);
    destruct (Nat.eqb_spec (length q) 512); try lia; by wp_steps.
Qed.

(** How a write that does not fit ends. *)
Definition full_result (p : pipe) : Z :=
  if ((readopen p =? 0) || killed)%bool then F_ERROR else FNOT_READY.

Lemma write_loop_wp src p q Q :
  repr p q -> p_lock p = true ->
  (forall p' t, readopen p' = readopen p -> writeopen p' = writeopen p ->
     (length src <= 512 - length q)%nat -> repr p' (q ++ src) -> p_lock p' = true ->
     Q None p' t) ->
  (forall p' t, readopen p' = readopen p -> writeopen p' = writeopen p ->
     (512 - length q < length src)%nat -> repr p' (q ++ take (512 - length q) src) ->
     p_lock p' = false -> Q (Some (full_result p)) p' t) ->
  wp (write_loop src) p Q.
Proof.
  revert p q Q. induction src as [|c src IH]; intros p q Q Hr Hlk HN HS.
  - cbn [write_loop]. wp_steps. apply HN; simpl; try done; [lia|by rewrite app_nil_r].
  - cbn [write_loop]. wp_steps. pose proof (rp_cap p q Hr) as Hcap.
    destruct (decide (length q = 512)%nat) as [Hf|Hf].
    + assert (Hroom : (512 - length q = 0)%nat) by lia. rewrite Hroom in *.
      destruct ((readopen p =? 0) || killed)%bool eqn:E.
      * apply (poll_full_error _ p q); [done|done|done| |unfold MAX_WRITE_WAIT; lia|].
        { destruct (readopen p =? 0); [by left|by right]. }
        intros t. wp_steps. unfold full_result in HS. rewrite E in HS.
        apply HS; simpl; try done; try lia. rewrite app_nil_r. by apply repr_lock.
      * apply orb_false_iff in E as [E1 E2].
        apply (poll_full_stuck _ _ p q); try done; unfold MAX_WRITE_WAIT; try lia.
        intros t. simpl. wp_steps.
        apply wp_release; [done|]. wp_steps. unfold full_result in HS. rewrite E1, E2 in HS.
        apply HS; simpl; try done; try lia. rewrite app_nil_r. by apply repr_lock.
    + apply (poll_full_room _ p q); [done|lia|]. simpl. wp_steps.
      apply (IH _ (q ++ [c])).
      * apply repr_push; [done|lia].
      * done.
      * intros p' t H1 H2 Hle Hr' Hl'. rewrite length_app in Hle. simpl in Hle.
        rewrite <-app_assoc in Hr'. apply HN; simpl; try done. lia.
      * intros p' t H1 H2 Hle Hr' Hl'. rewrite length_app in Hle, Hr'. simpl in Hle, Hr'.
        rewrite <-app_assoc in Hr'. apply HS; simpl; try done; [lia|].
        replace (512 - length q)%nat with (S (512 - (length q + 1))) by lia. done.
Qed.

Lemma pipewrite_wp p q src Q :
  repr p q -> p_lock p = false ->
  (forall p' t, readopen p' = readopen p -> writeopen p' = writeopen p -> p_lock p' = false ->
     (length src <= 512 - length q)%nat -> repr p' (q ++ src) ->
     Q (Z.of_nat (length src)) p' t) ->
  (forall p' t, readopen p' = readopen p -> writeopen p' = writeopen p -> p_lock p' = false ->
     (512 - length q < length src)%nat -> repr p' (q ++ take (512 - length q) src) ->
     Q (full_result p) p' t) ->
  wp (pipewrite true src (Z.of_nat (length src))) p Q.
Proof.
  intros Hr Hlk HN HS. unfold pipewrite. cbn [negb]. wp_steps.
  apply wp_acquire; [done|]. wp_steps. rewrite Nat2Z.id, take_ge by lia.
  apply (write_loop_wp _ _ q); [by apply repr_lock|done| |].
  - intros p' t H1 H2 Hle Hr' Hl'. wp_steps. apply wp_release; [done|]. wp_steps.
    apply HN; simpl; try done. by apply repr_lock.
  - intros p' t H1 H2 Hle Hr' Hl'. wp_steps. by apply HS.
Qed.

Lemma poll_empty_wait fuel loops p Q :
  repr p [] -> writeopen p <> 0 -> killed = false -> 0 <= loops <= MAX_READ_WAIT ->
  (Z.to_nat (MAX_READ_WAIT - loops) <= fuel)%nat ->
  Q (Done (MAX_READ_WAIT + 1)) p [] -> wp (poll_empty fuel loops) p Q.
Proof.
  intros Hr Ho Hk. revert loops. induction fuel as [|fuel IH]; intros loops Hl Hf HQ;
    simpl; wp_steps; rewrite (empty_iff p [] Hr); simpl;
    destruct (Z.eqb_spec (writeopen p) 0); try done; simpl;
    destruct (Z.ltb_spec loops MAX_READ_WAIT) as [Hlt|Hge]; try (unfold MAX_READ_WAIT in *; lia).
  1,3: wp_steps; by replace loops with MAX_READ_WAIT by lia.
  rewrite Hk. rewrite u32_small by (unfold MAX_READ_WAIT in *; lia).
  apply IH; unfold MAX_READ_WAIT in *; try lia. done.
Qed.

Lemma poll_empty_skip fuel p q Q :
  repr p q -> ((length q =? 0)%nat && negb (writeopen p =? 0))%bool = false ->
  Q (Done 0) p [] -> wp (poll_empty fuel 0) p Q.
Proof.
  intros Hr Hq HQ. destruct fuel; simpl; wp_steps; rewrite (empty_iff p q Hr), Hq;
    by wp_steps.
Qed.

Lemma poll_empty_killed fuel p Q :
  repr p [] -> (writeopen p =? 0) = false -> killed = true -> p_lock p = true ->
  (0 < fuel)%nat -> Q (Return F_ERROR) (set_p_lock false p) [] -> wp (poll_empty fuel 0) p Q.
Proof.
  intros Hr Hw Hk Hl Hf HQ. destruct fuel as [|fuel]; [lia|]. simpl. wp_steps.
  rewrite (empty_iff p [] Hr), Hw, Hk. simpl. wp_steps. apply wp_release; [done|]. by wp_steps.
Qed.

Lemma read_loop_wp n p q Q :
  repr p q ->
  (forall p' , readopen p' = readopen p -> writeopen p' = writeopen p -> p_lock p' = p_lock p ->
     repr p' (drop n q) -> Q (take n q) p' []) ->
  wp (read_loop n) p Q.
Proof.
  revert p q Q. induction n as [|n IH]; intros p q Q Hr HQ; simpl.
  - wp_steps. by apply HQ.
  - wp_steps. rewrite (empty_iff p q Hr). destruct q as [|c q]; simpl.
    + wp_steps. by apply HQ.
    + destruct (repr_pop p c q Hr) as [Hd Hr']. rewrite Hd. wp_steps.
      apply (IH _ q); [done|]. intros p' H1 H2 H3 Hr2. wp_steps. by apply HQ.
Qed.

(** What [piperead] answers on the queue [q]. *)
Definition read_result (p : pipe) (q : list Z) (n : nat) : Z * list Z :=
  match q with
  | [] => if (writeopen p =? 0)%Z then (0, [])
          else if killed then (F_ERROR, []) else (FNOT_READY, [])
  | _ => (Z.of_nat (length (take n q)), take n q)
  end.

Lemma piperead_wp p q n Q :
  repr p q -> p_lock p = false ->
  (forall p' t, readopen p' = readopen p -> writeopen p' = writeopen p -> p_lock p' = false ->
     repr p' (drop n q) -> Q (read_result p q n) p' t) ->
  wp (piperead true (Z.of_nat n)) p Q.
Proof.
  intros Hr Hlk HQ. unfold piperead. cbn [negb]. wp_steps.
  apply wp_acquire; [done|]. wp_steps.
  pose proof (repr_lock p q true Hr) as Hr1. rewrite Nat2Z.id.
  assert (Hread : forall Q1,
    (forall p' t, readopen p' = readopen p -> writeopen p' = writeopen p -> p_lock p' = false ->
       repr p' (drop n q) -> Q1 (Z.of_nat (length (take n q)), take n q) p' t) ->
    wp (let! bs := read_loop n in
        wakeup (ChPipeW pa) ;;; release pipe_lock ;;; kret (Z.of_nat (length bs), bs))
      (set_p_lock true p) Q1).
  { intros Q1 HQ1. wp_steps. apply (read_loop_wp _ _ q); [done|].
    intros p' H1 H2 H3 Hr2. wp_steps. apply wp_release; [done|]. wp_steps.
    apply HQ1; try done. by apply repr_lock. }
  destruct q as [|c q].
  - unfold read_result in HQ. rewrite drop_nil in HQ. rewrite drop_nil, take_nil in Hread.
    destruct (writeopen p =? 0) eqn:Ew.
    + apply (poll_empty_skip _ _ []); [done|simpl; by rewrite Ew|]. cbn [Z.leb MAX_READ_WAIT].
      apply Hread. intros p' t H1 H2 H3 H4. by apply HQ.
    + destruct killed eqn:Ek.
      * apply poll_empty_killed; try done; [unfold MAX_READ_WAIT; lia|].
        wp_steps. apply HQ; try done. do 2 apply repr_lock. done.
      * apply poll_empty_wait; try done; unfold MAX_READ_WAIT; try lia.
        { simpl. by apply Z.eqb_neq. }
        wp_steps. apply HQ; try done. do 2 apply repr_lock. done.
  - apply (poll_empty_skip _ _ (c :: q)); [done|done|]. cbn [Z.leb MAX_READ_WAIT].
    apply Hread. intros p' t H1 H2 H3 H4. by apply HQ.
Qed.

(** ** A session on one pipe *)

(** A session's calls: write a buffer, or read at most [n] bytes. *)
Inductive op := W (src : list Z) | R (n : nat).

(** The bytes the writers were able to store, and the bytes the readers got. *)
Fixpoint session (ops : list op) : K pipe (list (Z * list Z)) :=
  match ops with
  | [] => kret []
  | W src :: ops' =>
      let! r := pipewrite true src (Z.of_nat (length src)) in
      let! rs := session ops' in kret ((r, []) :: rs)
  | R n :: ops' =>
      let! r := piperead true (Z.of_nat n) in
      let! rs := session ops' in kret (r :: rs)
  end.

(** The same calls on a bounded FIFO queue of capacity 512, given which ends are
    open. *)
Fixpoint queue_session (p : pipe) (q : list Z) (ops : list op) : list (Z * list Z) * list Z :=
  match ops with
  | [] => ([], q)
  | W src :: ops' =>
      let fits := (length src <=? 512 - length q)%nat in
      let '(rs, q') := queue_session p (q ++ take (512 - length q) src) ops' in
      ((if fits then Z.of_nat (length src) else full_result p, []) :: rs, q')
  | R n :: ops' =>
      let '(rs, q') := queue_session p (drop n q) ops' in
      (read_result p q n :: rs, q')
  end.

Lemma queue_session_open p p' q ops :
  readopen p' = readopen p -> writeopen p' = writeopen p ->
  queue_session p' q ops = queue_session p q ops.
Proof.
  intros H1 H2. revert q. induction ops as [|[src|n] ops IH]; intros q; simpl; [done| |];
    rewrite IH; destruct (queue_session p _ ops); unfold full_result, read_result;
    by rewrite ?H1, ?H2.
Qed.

Lemma session_wp p q ops :
  repr p q -> p_lock p = false ->
  wp (session ops) p (fun rs p' _ =>
    rs = (queue_session p q ops).1 /\ repr p' (queue_session p q ops).2 /\ p_lock p' = false).
Proof.
  revert p q. induction ops as [|[src|n] ops IH]; intros p q Hr Hlk; simpl.
  - by wp_steps.
  - wp_steps. apply (pipewrite_wp p q); [done|done| |].
    + intros p' t H1 H2 Hl Hle Hr'. wp_steps. rewrite (proj2 (Nat.leb_le _ _)) by done.
      rewrite take_ge by done.
      eapply wp_mono; [by apply IH|]. simpl. rewrite (queue_session_open p p') by done.
      intros rs p2 t2 (-> & Hr2 & Hl2). wp_steps.
      by destruct (queue_session p (q ++ src) ops).
    + intros p' t H1 H2 Hl Hle Hr'. wp_steps. rewrite (proj2 (Nat.leb_gt _ _)) by done.
      eapply wp_mono; [by apply IH|]. simpl. rewrite (queue_session_open p p') by done.
      intros rs p2 t2 (-> & Hr2 & Hl2). wp_steps.
      by destruct (queue_session p (q ++ take _ src) ops).
  - wp_steps. apply (piperead_wp p q); [done|done|].
    intros p' t H1 H2 Hl Hr'. wp_steps.
    eapply wp_mono; [by apply IH|]. simpl. rewrite (queue_session_open p p') by done.
    intros rs p2 t2 (-> & Hr2 & Hl2). wp_steps. by destruct (queue_session p (drop n q) ops).
Qed.

(** The bytes the pipe accepted over a session. *)
Fixpoint accepted (q : list Z) (ops : list op) : list Z :=
  match ops with
  | [] => []
  | W src :: ops' => take (512 - length q) src ++ accepted (q ++ take (512 - length q) src) ops'
  | R n :: ops' => accepted (drop n q) ops'
  end.

Lemma queue_fifo p q ops :
  q ++ accepted q ops =
  concat (map snd (queue_session p q ops).1) ++ (queue_session p q ops).2.
Proof.
  revert q. induction ops as [|[src|n] ops IH]; intros q; simpl; [by rewrite app_nil_r| |].
  - specialize (IH (q ++ take (512 - length q) src)).
    destruct (queue_session p _ ops) as [rs q']. simpl in *. by rewrite <-IH, <-app_assoc.
  - specialize (IH (drop n q)). destruct (queue_session p _ ops) as [rs q'].
    simpl in *. rewrite <-app_assoc, <-IH, app_assoc. f_equal.
    destruct q as [|c q]; simpl; [rewrite drop_nil; by repeat case_match|].
    by rewrite (take_drop n (c :: q)).
Qed.

(** ** Properties *)

(** C9. A pipe refines a FIFO queue of 512 bytes, across any sequence of reads and
    writes and any wrap-around of its 32-bit counters: every call returns, with the
    result the queue prescribes - a write that fits stores all its bytes and returns
    their number, one that does not stores what fits and returns F_ERROR or
    FNOT_READY; a read returns the oldest bytes, 0 at end of file, F_ERROR or
    FNOT_READY on an empty pipe - and the lock is free again. *)
Theorem pipe_refines_queue p q ops :
  repr p q -> p_lock p = false ->
  wp (session ops) p (fun rs p' _ =>
    rs = (queue_session p q ops).1 /\ repr p' (queue_session p q ops).2 /\ p_lock p' = false).
Proof. apply session_wp. Qed.

(** First in, first out, nothing lost and nothing invented: over any session the
    bytes readers receive, followed by the bytes still queued, are exactly the bytes
    that were queued at the start followed by the bytes the writers' calls accepted,
    in order. *)
Theorem pipe_fifo p q ops :
  repr p q -> p_lock p = false ->
  wp (session ops) p (fun rs p' _ =>
    exists q', repr p' q' /\ q ++ accepted q ops = concat (map snd rs) ++ q').
Proof.
  intros Hr Hlk. eapply wp_mono; [by apply session_wp|].
  simpl. intros rs p' _ (-> & Hr' & _). eexists. split; [done|]. apply queue_fifo.
Qed.

(** A write that does not fit is reported as not done although part of it was:
    with the reader's end open the call returns FNOT_READY, yet the bytes that fitted
    are in the pipe, so a caller that retries the whole buffer duplicates them. *)
Theorem pipewrite_partial_not_reported p q src :
  repr p q -> p_lock p = false -> readopen p <> 0 -> killed = false ->
  (512 - length q < length src)%nat ->
  wp (pipewrite true src (Z.of_nat (length src))) p (fun r p' _ =>
    r = FNOT_READY /\ repr p' (q ++ take (512 - length q) src)).
Proof.
  intros Hr Hlk Ho Hk Hlt. apply (pipewrite_wp p q); [done|done|intros; lia|].
  intros p' t _ _ _ _ Hr'. split; [|done]. unfold full_result. rewrite Hk.
  by destruct (Z.eqb_spec (readopen p) 0).
Qed.

End pipe.

(** A pipe whose counters are about to wrap, holding nothing. *)
Definition demo_pipe : pipe :=
  Pipe false (replicate 512 0) (2 ^ 32 - 2) (2 ^ 32 - 2) 1 1.

Lemma demo_repr : repr demo_pipe [].
Proof. split; simpl; try done; lia. Qed.

Lemma pipe_refines_queue_witness :
  wp (session 0 false [W [7; 8; 9]; R 2; W [10]; R 5; R 1]) demo_pipe (fun rs p' _ =>
    rs = [(3, []); (2, [7; 8]); (1, []); (2, [9; 10]); (FNOT_READY, [])] /\
    repr p' [] /\ p_lock p' = false).
Proof.
  exact (pipe_refines_queue 0 false demo_pipe [] [W [7; 8; 9]; R 2; W [10]; R 5; R 1]
           demo_repr eq_refl).
Defined.

Lemma pipe_fifo_witness :
  wp (session 0 false [W [7; 8; 9]; R 2]) demo_pipe (fun rs p' _ =>
    exists q', repr p' q' /\ [7; 8; 9] = concat (map snd rs) ++ q').
Proof. exact (pipe_fifo 0 false demo_pipe [] [W [7; 8; 9]; R 2] demo_repr eq_refl). Defined.

Lemma pipewrite_partial_not_reported_witness :
  wp (pipewrite 0 false true (replicate 513 5) 513) demo_pipe (fun r p' _ =>
    r = FNOT_READY /\ repr p' (take 512 (replicate 513 5))).
Proof.
  apply (pipewrite_partial_not_reported 0 false demo_pipe [] (replicate 513 5) demo_repr eq_refl).
  - done.
  - done.
  - rewrite length_replicate. simpl. lia.
Defined.
