(* ===== verification/Disk.v ===== *)
(** * Buffers and disk drivers

    [struct buf] of include/buf.h, the driver interface the buffer cache calls
    (iderw of kernel/ide.c or kernel/memide.c, sata_read and sata_write of
    kernel/ahci.c), and the in-memory driver kernel/memide.c as an instance.

    The interface is a class of operations [Driver] and a class of laws
    [DriverSpec]: what a caller may assume of a driver, in terms of the sectors
    [blocks d] it stores. *)

From stdpp Require Import base list strings.
From Stdlib Require Import ZArith Lia.
From S2P Require Import Prelude CString Bytes.
Open Scope Z_scope.

Definition B_BUSY : Z := 1.
Definition B_VALID : Z := 2.
Definition B_DIRTY : Z := 4.
Definition SECTOR_SIZE : nat := 512.

Definition DEV_IDE : Z := 0.
Definition DEV_SATA : Z := 1.
Definition GETDEVTYPE (a : Z) : Z := Z.shiftr (Z.land a 4026531840) 28.
Definition GETDEVNUM (a : Z) : Z := Z.land a 268435455.
Definition TODEVNUM (type num : Z) : Z := Z.shiftl type 28 + Z.land 268435455 num.
Definition SATA_IO_SUCCESS : Z := 0.

(** [prev] and [next] are indices into the cache's array; [qnext] belongs to the
    IDE request queue. *)
Record buf := Buf {
  flags : Z;
  dev : Z;
  sector : Z;
  prev : nat;
  next : nat;
  bdata : list Z;
}.

Definition set_flags (v : Z) (b : buf) : buf :=
  Buf v (dev b) (sector b) (prev b) (next b) (bdata b).
Definition set_prev (v : nat) (b : buf) : buf :=
  Buf (flags b) (dev b) (sector b) v (next b) (bdata b).
Definition set_next (v : nat) (b : buf) : buf :=
  Buf (flags b) (dev b) (sector b) (prev b) v (bdata b).
Definition set_bdata (v : list Z) (b : buf) : buf :=
  Buf (flags b) (dev b) (sector b) (prev b) (next b) v.
Definition set_ident (d s : Z) (b : buf) : buf :=
  Buf (flags b) d s (prev b) (next b) (bdata b).

Definition busy (b : buf) : bool := has (flags b) B_BUSY.
Definition valid (b : buf) : bool := has (flags b) B_VALID.
Definition dirty (b : buf) : bool := has (flags b) B_DIRTY.

(** The driver operations [bread] and [bwrite] call.  [iderw] returns the buffer as
    the driver leaves it; [sata_read] returns a status and the bytes it stored. *)
Class Driver (D : Type) := {
  iderw : nat -> buf -> K D buf;
  sata_read : Z -> Z -> Z -> K D (Z * list Z);
  sata_write : Z -> Z -> Z -> list Z -> K D Z;
}.

(** Changing one sector of a disk. *)
Definition upd_block (f : Z -> Z -> list Z) (d s : Z) (b : list Z) : Z -> Z -> list Z :=
  fun d' s' => if ((d' =? d) && (s' =? s))%bool then b else f d' s'.

(** [blocks d dv sec] is the sector as stored; [online d dv sec] says the device
    exists, holds that sector and serves it without error. *)
Class DriverSpec (D : Type) `{Driver D} := {
  blocks : D -> Z -> Z -> list Z;
  online : D -> Z -> Z -> Prop;
  same_disk : D -> D -> Prop := fun d d' =>
    (forall dv sec, blocks d' dv sec = blocks d dv sec) /\
    (forall dv sec, online d dv sec -> online d' dv sec);
  online_block : forall d dv sec, online d dv sec -> length (blocks d dv sec) = SECTOR_SIZE;
  iderw_read : forall d i b (Q : buf -> D -> list event -> Prop),
    GETDEVTYPE (dev b) = DEV_IDE -> online d (dev b) (sector b) ->
    busy b = true -> valid b = false -> dirty b = false ->
    (forall d' t, same_disk d d' -> disk_writes t = [] ->
       Q (set_flags (clr (set (flags b) B_VALID) B_DIRTY)
            (set_bdata (blocks d (dev b) (sector b)) b)) d' t) ->
    wp (iderw i b) d Q;
  iderw_write : forall d i b (Q : buf -> D -> list event -> Prop),
    GETDEVTYPE (dev b) = DEV_IDE -> online d (dev b) (sector b) ->
    busy b = true -> dirty b = true -> length (bdata b) = SECTOR_SIZE ->
    (forall d' t,
       (forall dv sec, blocks d' dv sec =
          upd_block (blocks d) (dev b) (sector b) (bdata b) dv sec) ->
       (forall dv sec, online d dv sec -> online d' dv sec) ->
       disk_writes t = [(dev b, sector b, bdata b)] ->
       Q (set_flags (clr (set (flags b) B_VALID) B_DIRTY) b) d' t) ->
    wp (iderw i b) d Q;
  sata_read_ok : forall d dv sec (Q : Z * list Z -> D -> list event -> Prop),
    GETDEVTYPE dv = DEV_SATA -> online d dv sec ->
    (forall d' t, same_disk d d' -> disk_writes t = [] ->
       Q (SATA_IO_SUCCESS, blocks d dv sec) d' t) ->
    wp (sata_read (GETDEVNUM dv) sec 1) d Q;
  sata_write_ok : forall d dv sec data (Q : Z -> D -> list event -> Prop),
    GETDEVTYPE dv = DEV_SATA -> online d dv sec -> length data = SECTOR_SIZE ->
    (forall d' t,
       (forall dv' sec', blocks d' dv' sec' = upd_block (blocks d) dv sec data dv' sec') ->
       (forall dv' sec', online d dv' sec' -> online d' dv' sec') ->
       disk_writes t = [(dv, sec, data)] ->
       Q SATA_IO_SUCCESS d' t) ->
    wp (sata_write (GETDEVNUM dv) sec 1 data) d Q;
}.

(** ** kernel/memide.c: sectors in memory *)

Record memdisk := Memdisk { image : list Z }.

Definition disksize (d : memdisk) : Z := Z.of_nat (length (image d)) / 512.

Definition memide_iderw (b : buf) : K memdisk buf :=
  if negb (busy b) then panic "iderw: buf not busy"
  else if Z.land (flags b) (Z.lor B_VALID B_DIRTY) =? B_VALID then panic "iderw: nothing to do"
  else if negb (dev b =? 1) then panic "iderw: request not for disk 1"
  else
    let! d := kget in
    if disksize d <=? sector b then panic "iderw: sector out of range"
    else
      let p := Z.to_nat (u32 (sector b * 512)) in
      let! b1 :=
        (if dirty b then
           (* memmove(p, b->data, 512) *)
           kmod (fun d => Memdisk (splice (image d) p (take 512 (bdata b)))) ;;;
           emit (DiskWrite (dev b) (sector b) (bdata b)) ;;;
           kret (set_flags (clr (flags b) B_DIRTY) b)
         else
           (* memmove(b->data, p, 512) *)
           kret (set_bdata (slice (image d) p 512) b)) in
      kret (set_flags (set (flags b1) B_VALID) b1).

(** There is no SATA device behind this driver: the slot is empty. *)
Definition SATA_IO_ERROR_NO_PORT : Z := 2.

#[export] Instance memide_driver : Driver memdisk := {
  iderw _ b := memide_iderw b;
  sata_read _ _ _ := kret (SATA_IO_ERROR_NO_PORT, []);
  sata_write _ _ _ _ := kret SATA_IO_ERROR_NO_PORT;
}.

(** * Lemmas *)

Lemma has_bit x k : 0 <= k -> has x (2 ^ k) = Z.testbit x k.
Proof.
  intros Hk. unfold has. destruct (Z.testbit x k) eqn:E.
  - apply negb_true_iff, Z.eqb_neq. intros H0.
    apply (f_equal (fun z => Z.testbit z k)) in H0.
    by rewrite Z.land_spec, E, Z.pow2_bits_true, Z.bits_0 in H0.
  - apply negb_false_iff, Z.eqb_eq. apply Z.bits_inj'. intros i Hi.
    rewrite Z.land_spec, Z.bits_0. destruct (decide (i = k)) as [->|Hne]; [by rewrite E|].
    rewrite Z.pow2_bits_false by done. apply andb_false_r.
Qed.

Lemma busy_bit b : busy b = Z.testbit (flags b) 0.
Proof. exact (has_bit _ 0 ltac:(lia)). Qed.
Lemma valid_bit b : valid b = Z.testbit (flags b) 1.
Proof. exact (has_bit _ 1 ltac:(lia)). Qed.
Lemma dirty_bit b : dirty b = Z.testbit (flags b) 2.
Proof. exact (has_bit _ 2 ltac:(lia)). Qed.

(** Flag tests after a flag is set or cleared. *)
Lemma has_set_bit x j k : 0 <= j -> 0 <= k ->
  has (set x (2 ^ j)) (2 ^ k) = (has x (2 ^ k) || (j =? k))%bool.
Proof.
  intros Hj Hk. rewrite !has_bit by done. unfold set.
  rewrite Z.lor_spec, (Z.pow2_bits_eqb j k) by done. done.
Qed.
Lemma has_clr_bit x j k : 0 <= j -> 0 <= k ->
  has (clr x (2 ^ j)) (2 ^ k) = (has x (2 ^ k) && negb (j =? k))%bool.
Proof.
  intros Hj Hk. rewrite !has_bit by done. unfold clr.
  rewrite Z.ldiff_spec, (Z.pow2_bits_eqb j k) by done. done.
Qed.

Lemma has_set_flag x m m' : m ∈ [B_BUSY; B_VALID; B_DIRTY] -> m' ∈ [B_BUSY; B_VALID; B_DIRTY] ->
  has (set x m) m' = (has x m' || (m =? m'))%bool.
Proof.
  rewrite !list_elem_of_In. simpl.
  intros [<-|[<-|[<-|[]]]] [<-|[<-|[<-|[]]]];
    [exact (has_set_bit x 0 0 ltac:(lia) ltac:(lia))|exact (has_set_bit x 0 1 ltac:(lia) ltac:(lia))
    |exact (has_set_bit x 0 2 ltac:(lia) ltac:(lia))|exact (has_set_bit x 1 0 ltac:(lia) ltac:(lia))
    |exact (has_set_bit x 1 1 ltac:(lia) ltac:(lia))|exact (has_set_bit x 1 2 ltac:(lia) ltac:(lia))
    |exact (has_set_bit x 2 0 ltac:(lia) ltac:(lia))|exact (has_set_bit x 2 1 ltac:(lia) ltac:(lia))
    |exact (has_set_bit x 2 2 ltac:(lia) ltac:(lia))].
Qed.
Lemma has_clr_flag x m m' : m ∈ [B_BUSY; B_VALID; B_DIRTY] -> m' ∈ [B_BUSY; B_VALID; B_DIRTY] ->
  has (clr x m) m' = (has x m' && negb (m =? m'))%bool.
Proof.
  rewrite !list_elem_of_In. simpl.
  intros [<-|[<-|[<-|[]]]] [<-|[<-|[<-|[]]]];
    [exact (has_clr_bit x 0 0 ltac:(lia) ltac:(lia))|exact (has_clr_bit x 0 1 ltac:(lia) ltac:(lia))
    |exact (has_clr_bit x 0 2 ltac:(lia) ltac:(lia))|exact (has_clr_bit x 1 0 ltac:(lia) ltac:(lia))
    |exact (has_clr_bit x 1 1 ltac:(lia) ltac:(lia))|exact (has_clr_bit x 1 2 ltac:(lia) ltac:(lia))
    |exact (has_clr_bit x 2 0 ltac:(lia) ltac:(lia))|exact (has_clr_bit x 2 1 ltac:(lia) ltac:(lia))
    |exact (has_clr_bit x 2 2 ltac:(lia) ltac:(lia))].
Qed.

(** Simplify the flag tests of a goal about a buffer whose flags were just updated. *)
Ltac flag_simpl :=
  unfold busy, valid, dirty;
  cbn [flags set_flags set_bdata set_ident set_prev set_next];
  rewrite ?has_set_flag, ?has_clr_flag, ?has_set_flag by
    (repeat first [apply list_elem_of_here|apply list_elem_of_further]);
  cbn [Z.eqb Pos.eqb B_BUSY B_VALID B_DIRTY negb];
  rewrite ?orb_true_r, ?orb_false_r, ?andb_true_r, ?andb_false_r, ?orb_true_r, ?orb_false_r.

Lemma flags_write_eq f : set (clr f B_DIRTY) B_VALID = clr (set f B_VALID) B_DIRTY.
Proof.
  apply Z.bits_inj'. intros i Hi. unfold set, clr, B_VALID, B_DIRTY.
  rewrite ?Z.ldiff_spec, ?Z.lor_spec, ?Z.ldiff_spec.
  change 2 with (2 ^ 1). change 4 with (2 ^ 2).
  destruct (decide (i = 1)) as [->|H1]; [by rewrite !Z.pow2_bits_true, !orb_true_r by lia|].
  by rewrite (Z.pow2_bits_false 1) by done; rewrite !orb_false_r.
Qed.

Lemma flags_read_eq f : Z.testbit f 2 = false -> set f B_VALID = clr (set f B_VALID) B_DIRTY.
Proof.
  intros H2. apply Z.bits_inj'. intros i Hi. unfold set, clr, B_VALID, B_DIRTY.
  rewrite Z.ldiff_spec, Z.lor_spec. change 4 with (2 ^ 2).
  destruct (decide (i = 2)) as [->|Hne].
  - by rewrite H2.
  - rewrite (Z.pow2_bits_false 2) by done. simpl. by rewrite andb_true_r.
Qed.

Lemma vd_test f :
  (Z.land f (Z.lor B_VALID B_DIRTY) =? B_VALID) = (Z.testbit f 1 && negb (Z.testbit f 2))%bool.
Proof.
  unfold B_VALID, B_DIRTY. change (Z.lor 2 4) with 6.
  destruct (Z.eqb_spec (Z.land f 6) 2) as [E|E].
  - pose proof (f_equal (fun z => Z.testbit z 1) E) as E1.
    pose proof (f_equal (fun z => Z.testbit z 2) E) as E2. cbv beta in E1, E2.
    rewrite Z.land_spec in E1, E2.
    change (Z.testbit 6 1) with true in E1. change (Z.testbit 6 2) with true in E2.
    rewrite andb_true_r in E1, E2. by rewrite E1, E2.
  - symmetry. apply andb_false_iff. destruct (Z.testbit f 1) eqn:E1; [|by left].
    destruct (Z.testbit f 2) eqn:E2; [by right|]. destruct E. apply Z.bits_inj'. intros i Hi.
    rewrite Z.land_spec.
    destruct (decide (i = 1)) as [->|N1]; [by rewrite E1|].
    destruct (decide (i = 2)) as [->|N2]; [by rewrite E2|].
    change 2 with (2 ^ 1). rewrite (Z.pow2_bits_false 1) by done.
    change 6 with (Z.lor (2 ^ 1) (2 ^ 2)).
    rewrite Z.lor_spec, !Z.pow2_bits_false by done. apply andb_false_r.
Qed.

Definition mem_blocks (d : memdisk) (dv sec : Z) : list Z :=
  if ((dv =? 1) && (0 <=? sec))%bool then slice (image d) (Z.to_nat (sec * 512)) 512 else [].
Definition mem_online (d : memdisk) (dv sec : Z) : Prop :=
  dv = 1 /\ 0 <= sec < disksize d /\ disksize d * 512 <= 2 ^ 32.

Lemma mem_online_bounds d dv sec : mem_online d dv sec ->
  (Z.to_nat (sec * 512) + 512 <= length (image d))%nat /\ u32 (sec * 512) = sec * 512.
Proof.
  unfold mem_online, disksize. intros (-> & Hs & Hd).
  split; [|apply u32_small]; lia_dm.
Qed.

(** A driver call that gets past every check of [iderw]. *)
Lemma memide_ok d b :
  busy b = true -> (valid b = false \/ dirty b = true) -> mem_online d (dev b) (sector b) ->
  memide_iderw b d =
    (if dirty b then
       ([DiskWrite (dev b) (sector b) (bdata b)],
        Ret (set_flags (set (clr (flags b) B_DIRTY) B_VALID) b)
          (Memdisk (splice (image d) (Z.to_nat (sector b * 512)) (take 512 (bdata b)))))
     else
       ([], Ret (set_flags (set (flags b) B_VALID)
                   (set_bdata (slice (image d) (Z.to_nat (sector b * 512)) 512) b)) d)).
Proof.
  intros Hb Hv Ho. pose proof (mem_online_bounds _ _ _ Ho) as [_ Hu].
  destruct Ho as (Hd & Hs & _). unfold memide_iderw. rewrite Hb, vd_test, Hd, Hu.
  replace (Z.testbit (flags b) 1 && negb (Z.testbit (flags b) 2))%bool with false.
  2: { rewrite <-valid_bit, <-dirty_bit. by destruct Hv as [-> | ->]; destruct (valid b). }
  simpl. unfold kbind, kget.
  rewrite (proj2 (Z.leb_gt _ _)) by lia. by destruct (dirty b).
Qed.

Lemma mem_blocks_online d dv sec :
  mem_online d dv sec -> mem_blocks d dv sec = slice (image d) (Z.to_nat (sec * 512)) 512.
Proof.
  intros (-> & Hs & _). unfold mem_blocks. rewrite (proj2 (Z.leb_le _ _)) by lia. done.
Qed.

Lemma mem_blocks_write d dv s data dv' s' :
  mem_online d dv s -> length data = 512%nat ->
  mem_blocks (Memdisk (splice (image d) (Z.to_nat (s * 512)) data)) dv' s' =
  upd_block (mem_blocks d) dv s data dv' s'.
Proof.
  intros Ho Hlen. pose proof (mem_online_bounds _ _ _ Ho) as [Hl _].
  destruct Ho as (-> & Hs & Hsz). unfold mem_blocks, upd_block. simpl.
  destruct (Z.eqb_spec dv' 1) as [->|]; simpl; [|done].
  destruct (Z.leb_spec 0 s') as [Hs'|Hs']; simpl;
    destruct (Z.eqb_spec s' s) as [->|Hne]; simpl; try lia; try done.
  - rewrite <-Hlen at 1. by apply slice_splice_same; rewrite Hlen.
  - apply slice_splice_other; rewrite Hlen; lia.
Qed.

#[export] Program Instance memide_spec : DriverSpec memdisk := {
  blocks := mem_blocks;
  online := mem_online;
}.
Next Obligation.
  intros d dv sec Ho. pose proof (mem_online_bounds _ _ _ Ho) as [Hl _].
  rewrite mem_blocks_online by done. by apply length_slice.
Qed.
Next Obligation.
  intros d i b Q Ht Ho Hb Hv Hd HQ. unfold wp. simpl.
  rewrite memide_ok, Hd by auto. rewrite dirty_bit in Hd.
  rewrite (flags_read_eq (flags b)), <-(mem_blocks_online _ _ _ Ho) by done.
  apply HQ; done.
Qed.
Next Obligation.
  intros d i b Q Ht Ho Hb Hd Hlen HQ. unfold wp. simpl.
  rewrite memide_ok, Hd by auto. rewrite flags_write_eq, take_ge by (by rewrite Hlen).
  apply HQ; [|intros dv sec (-> & Hs & Hsz)|done].
  - intros dv sec. by apply mem_blocks_write.
  - unfold mem_online, disksize in *. simpl.
    rewrite length_splice; [done|]. rewrite Hlen.
    by apply (mem_online_bounds _ _ _ Ho).
Qed.
Next Obligation.
  intros d dv sec Q Ht (-> & _). discriminate Ht.
Qed.
Next Obligation.
  intros d dv sec data Q Ht (-> & _). discriminate Ht.
Qed.
