(* ===== verification/Ide.v ===== *)
(** * The IDE driver: kernel/ide.c

    Requests wait in a queue linked through the buffers; the one at its head is the one the
    drive works on.  [iderw] appends a buffer and sleeps; the interrupt of the drive
    completes the head, wakes its process and starts the next.

    The drive is part of the state: the registers of the channel, and the sectors of its two
    units.  A write takes effect when its data have been sent; a read delivers the sector that
    the registers select.  [idewait] polls the status port of the primary channel, whatever the
    channel in use: [ready] says that it ever becomes ready, [failed] what its error bits are. *)

From stdpp Require Import base list gmap strings.
From Stdlib Require Import ZArith Lia.
From S2P Require Import Prelude Spinlock Bytes Disk.
Open Scope Z_scope.

Definition IDE_CMD_READ : Z := 32.
Definition IDE_CMD_WRITE : Z := 48.
Definition IDE_MASTER : Z := 224.
Definition IDE_SLAVE : Z := 240.

(** ** The drive *)

Record drive := Drive {
  r_count : Z;
  r_lba0 : Z;
  r_lba1 : Z;
  r_lba2 : Z;
  r_sel : Z;
  r_cmd : Z;
  media : Z -> Z -> list Z;      (* unit, sector *)
  ready : bool;
  failed : bool;
  r_ctl : Z;
}.

(** A byte to the register at this offset of the channel.  The control register is at 0x206 from
    the base of either channel: 0x3f6 and 0x376. *)
Definition reg_out (off v : Z) (d : drive) : drive :=
  let v := u8 v in
  if off =? 2 then Drive v (r_lba0 d) (r_lba1 d) (r_lba2 d) (r_sel d) (r_cmd d) (media d) (ready d) (failed d) (r_ctl d)
  else if off =? 3 then Drive (r_count d) v (r_lba1 d) (r_lba2 d) (r_sel d) (r_cmd d) (media d) (ready d) (failed d) (r_ctl d)
  else if off =? 4 then Drive (r_count d) (r_lba0 d) v (r_lba2 d) (r_sel d) (r_cmd d) (media d) (ready d) (failed d) (r_ctl d)
  else if off =? 5 then Drive (r_count d) (r_lba0 d) (r_lba1 d) v (r_sel d) (r_cmd d) (media d) (ready d) (failed d) (r_ctl d)
  else if off =? 6 then Drive (r_count d) (r_lba0 d) (r_lba1 d) (r_lba2 d) v (r_cmd d) (media d) (ready d) (failed d) (r_ctl d)
  else if off =? 7 then Drive (r_count d) (r_lba0 d) (r_lba1 d) (r_lba2 d) (r_sel d) v (media d) (ready d) (failed d) (r_ctl d)
  else if off =? 518 then Drive (r_count d) (r_lba0 d) (r_lba1 d) (r_lba2 d) (r_sel d) (r_cmd d) (media d) (ready d) (failed d) v
  else d.

(** The unit and the sector that the registers select. *)
Definition sel_unit (d : drive) : Z := if Z.testbit (r_sel d) 4 then 1 else 0.
Definition sel_lba (d : drive) : Z :=
  r_lba0 d + 2 ^ 8 * r_lba1 d + 2 ^ 16 * r_lba2 d + 2 ^ 24 * Z.land (r_sel d) 15.

Definition set_media (m : Z -> Z -> list Z) (d : drive) : drive :=
  Drive (r_count d) (r_lba0 d) (r_lba1 d) (r_lba2 d) (r_sel d) (r_cmd d) m (ready d) (failed d) (r_ctl d).

(** ** The driver *)

Record ide := Ide {
  idelock : bool;
  idequeue : option nat;
  bufs : gmap nat (buf * option nat);      (* a buffer and its qnext *)
  havedisk1 : bool;
  drv : drive;
  havedisk0 : Z;
}.
Definition set_idelock v (s : ide) : ide := Ide v (idequeue s) (bufs s) (havedisk1 s) (drv s) (havedisk0 s).
Definition set_idequeue v (s : ide) : ide := Ide (idelock s) v (bufs s) (havedisk1 s) (drv s) (havedisk0 s).
Definition set_bufs v (s : ide) : ide := Ide (idelock s) (idequeue s) v (havedisk1 s) (drv s) (havedisk0 s).
Definition set_drv v (s : ide) : ide := Ide (idelock s) (idequeue s) (bufs s) (havedisk1 s) v (havedisk0 s).
Definition set_havedisk0 v (s : ide) : ide := Ide (idelock s) (idequeue s) (bufs s) (havedisk1 s) (drv s) v.
Definition set_havedisk1 v (s : ide) : ide := Ide (idelock s) (idequeue s) (bufs s) v (drv s) (havedisk0 s).
Definition ide_lk : lens ide bool := Lens idelock set_idelock.

Notation IK := (K ide).

Definition get_buf (i : nat) : IK (buf * option nat) :=
  let! s := kget in match bufs s !! i with Some b => kret b | None => fault end.
Definition upd_buf (i : nat) (f : buf -> buf) : IK unit :=
  kmod (fun s => set_bufs (alter (fun bq => (f bq.1, bq.2)) i (bufs s)) s).
Definition set_qnext (i : nat) (q : option nat) : IK unit :=
  kmod (fun s => set_bufs (alter (fun bq => (bq.1, q)) i (bufs s)) s).

Definition idewait (checkerr : bool) : IK Z :=
  let! s := kget in
  if ready (drv s) then kret (if (checkerr && failed (drv s))%bool then -1 else 0)
  else kstop Halted.

Definition out8 (off v : Z) : IK unit := kmod (fun s => set_drv (reg_out off v (drv s)) s).
(** [amd64_outsl(ideChannel, data, 512 / 4)] after a write command. *)
Definition outsl (data : list Z) : IK unit :=
  let! s := kget in
  let d := drv s in
  let u := sel_unit d in
  let l := sel_lba d in
  kmod (set_drv (set_media (upd_block (media d) u l (take 512 data)) d)) ;;;
  emit (DiskWrite u l (take 512 data)).
(** [amd64_insl(ideChannel, data, 512 / 4)] after a read command. *)
Definition insl : IK (list Z) :=
  let! s := kget in
  kret (media (drv s) (sel_unit (drv s)) (sel_lba (drv s))).

Definition idestart (b : option nat) : IK unit :=
  match b with
  | None => panic "idestart"
  | Some i =>
      let! bq := get_buf i in
      let b := bq.1 in
      let! _ := idewait false in
      out8 518 0 ;;;                    (* generate interrupt *)
      out8 2 1 ;;;
      out8 3 (Z.land (sector b) 255) ;;;
      out8 4 (Z.land (Z.shiftr (sector b) 8) 255) ;;;
      out8 5 (Z.land (Z.shiftr (sector b) 16) 255) ;;;
      out8 6 (Z.lor (if dev b =? 1 then IDE_SLAVE else IDE_MASTER) (Z.land (Z.shiftr (sector b) 24) 15)) ;;;
      if dirty b then out8 7 IDE_CMD_WRITE ;;; outsl (bdata b)
      else out8 7 IDE_CMD_READ
  end.

(** Read data if needed; the request is done. *)
Definition complete (i : nat) (b : buf) : IK unit :=
  (if dirty b then kret tt
   else
     let! r := idewait true in
     if 0 <=? r then let! data := insl in upd_buf i (set_bdata data) else kret tt) ;;;
  upd_buf i (fun b => set_flags (set (flags b) B_VALID) b) ;;;
  upd_buf i (fun b => set_flags (clr (flags b) B_DIRTY) b).

Definition ideintr : IK unit :=
  acquire ide_lk ;;;
  let! q := gets idequeue in
  match q with
  | None => release ide_lk
  | Some i =>
      let! bq := get_buf i in
      kmod (set_idequeue bq.2) ;;;
      complete i bq.1 ;;;
      wakeup (ChBuf i) ;;;
      let! q' := gets idequeue in
      (match q' with Some _ => idestart q' | None => kret tt end) ;;;
      release ide_lk
  end.

(** [for (pp = &idequeue; *pp; pp = &( *pp)->qnext) ; *pp = b] *)
Fixpoint append (fuel : nat) (p : option nat) (b : nat) : IK unit :=
  match p with
  | None => kmod (set_idequeue (Some b))
  | Some i =>
      let! bq := get_buf i in
      match bq.2 with
      | None => set_qnext i (Some b)
      | Some j => match fuel with O => kstop NoFuel | S fuel' => append fuel' (Some j) b end
      end
  end.

(** The loop that waits for the request: with the lock held. *)
Definition wait_done (i : nat) : IK unit :=
  let! bq := get_buf i in
  if Z.land (flags bq.1) (Z.lor B_VALID B_DIRTY) =? B_VALID then release ide_lk
  else ksleep (ChBuf i) (set_idelock false).

Definition iderw_start (i : nat) : IK unit :=
  let! bq := get_buf i in
  let b := bq.1 in
  if negb (busy b) then panic "iderw: buf not busy"
  else if Z.land (flags b) (Z.lor B_VALID B_DIRTY) =? B_VALID then panic "iderw: nothing to do"
  else
    let! s := kget in
    if (negb (dev b =? 0) && negb (havedisk1 s))%bool then panic "iderw: ide disk 1 not present"
    else
      acquire ide_lk ;;;
      set_qnext i None ;;;
      let! s := kget in
      append (size (bufs s)) (idequeue s) i ;;;
      let! q := gets idequeue in
      (if bool_decide (q = Some i) then idestart (Some i) else kret tt) ;;;
      wait_done i.

(** From a wakeup on: [sleep] has taken the lock again. *)
Definition iderw_resume (i : nat) : IK unit :=
  acquire ide_lk ;;;
  wait_done i.

(** [ideinit]: the second disk is there when its status, read up to 1000 times, is ever other than
    zero.  [status i] is what the [i]-th read of the status port gives; the lines printed are the
    result. *)
Fixpoint poll (status : nat -> Z) (i n : nat) : bool :=
  match n with
  | O => false
  | S n' => if negb (status i =? 0) then true else poll status (S i) n'
  end.

Definition ideinit (status : nat -> Z) : IK (list string) :=
  kmod (set_idelock false) ;;;
  let! d0 := idewait false in
  kmod (set_havedisk0 d0) ;;;
  out8 6 IDE_SLAVE ;;;
  (if poll status 0 1000 then kmod (set_havedisk1 true) else kret tt) ;;;
  let! s := kget in
  out8 6 IDE_MASTER ;;;
  kret (["Detecting IDE devices:"%string] ++
        (if d0 =? 0 then [] else ["   Init success: disk(0, 0)"%string]) ++
        (if poll status 0 1000 then ["   Init success: disk(0, 1)"%string] else []) ++
        (if ((d0 =? 0) && negb (havedisk1 s))%bool then ["   no IDE devices detected"%string] else [])).

(** ** Requests, one after the other

    What the driver promises: requests are served in the order they came; a write stores its
    data in its sector and a read gets what its sector holds by then. *)

Definition unit_of (b : buf) : Z := if dev b =? 1 then 1 else 0.
Definition done_disk (b : buf) (dsk : Z -> Z -> list Z) : Z -> Z -> list Z :=
  if dirty b then upd_block dsk (unit_of b) (sector b) (bdata b) else dsk.
Definition done_buf (b : buf) (dsk : Z -> Z -> list Z) : buf :=
  let b' := if dirty b then b else set_bdata (dsk (unit_of b) (sector b)) b in
  set_flags (clr (set (flags b') B_VALID) B_DIRTY) b'.

(** A buffer that [iderw] accepts. *)
Record request (hd1 : bool) (b : buf) : Prop := {
  rq_busy : busy b = true;
  rq_todo : Z.land (flags b) (Z.lor B_VALID B_DIRTY) =? B_VALID = false;
  rq_unit : dev b = 0 \/ hd1 = true;
  rq_sector : 0 <= sector b < 2 ^ 28;
  rq_data : dirty b = true -> length (bdata b) = 512%nat;
}.

(** The links from [p] go through the buffers [l]. *)
Fixpoint chain (m : gmap nat (buf * option nat)) (p : option nat) (l : list nat) : Prop :=
  match l with
  | [] => p = None
  | i :: l' => p = Some i /\ exists b q, m !! i = Some (b, q) /\ chain m q l'
  end.

(** The drive works on the request [b], from the sectors [dsk]. *)
Record started (d : drive) (b : buf) (dsk : Z -> Z -> list Z) : Prop := {
  st_unit : sel_unit d = unit_of b;
  st_lba : sel_lba d = sector b;
  st_media : forall u l, media d u l = done_disk b dsk u l;
}.

Record queue_ok (s : ide) (pend : list nat) (dsk : Z -> Z -> list Z) : Prop := {
  qo_lock : idelock s = false;
  qo_chain : chain (bufs s) (idequeue s) pend;
  qo_nodup : NoDup pend;
  qo_req : forall i, i ∈ pend -> exists b q, bufs s !! i = Some (b, q) /\ request (havedisk1 s) b;
  qo_ready : ready (drv s) = true /\ failed (drv s) = false;
  qo_head : match pend with
            | [] => forall u l, media (drv s) u l = dsk u l
            | i :: _ => forall b q, bufs s !! i = Some (b, q) -> started (drv s) b dsk
            end;
}.

(** ** The registers *)

Lemma nibble (P : Z -> bool) x : forallb P (seqZ 0 16) = true -> 0 <= x < 16 -> P x = true.
Proof. rewrite forallb_forall. intros H Hx. apply H, list_elem_of_In, elem_of_seqZ. lia. Qed.

Lemma land_255 x : Z.land x 255 = x mod 2 ^ 8.
Proof. change 255 with (Z.ones 8). by apply Z.land_ones. Qed.
Lemma land_15 x : Z.land x 15 = x mod 2 ^ 4.
Proof. change 15 with (Z.ones 4). by apply Z.land_ones. Qed.

Lemma select_byte sel x : sel = IDE_MASTER \/ sel = IDE_SLAVE -> 0 <= x < 16 ->
  u8 (Z.lor sel x) = Z.lor sel x /\ Z.land (Z.lor sel x) 15 = x /\ Z.testbit (Z.lor sel x) 4 = (sel =? IDE_SLAVE).
Proof.
  intros Hs Hx.
  assert (H : ((u8 (Z.lor sel x) =? Z.lor sel x) && (Z.land (Z.lor sel x) 15 =? x) &&
               Bool.eqb (Z.testbit (Z.lor sel x) 4) (sel =? IDE_SLAVE))%bool = true).
  { destruct Hs as [-> | ->].
    - apply (nibble (fun x => (u8 (Z.lor IDE_MASTER x) =? Z.lor IDE_MASTER x) && (Z.land (Z.lor IDE_MASTER x) 15 =? x) &&
               Bool.eqb (Z.testbit (Z.lor IDE_MASTER x) 4) (IDE_MASTER =? IDE_SLAVE))%bool x); [by vm_compute|done].
    - apply (nibble (fun x => (u8 (Z.lor IDE_SLAVE x) =? Z.lor IDE_SLAVE x) && (Z.land (Z.lor IDE_SLAVE x) 15 =? x) &&
               Bool.eqb (Z.testbit (Z.lor IDE_SLAVE x) 4) (IDE_SLAVE =? IDE_SLAVE))%bool x); [by vm_compute|done]. }
  apply andb_true_iff in H as [[H1 H2]%andb_true_iff H3].
  split_and!; [by apply Z.eqb_eq|by apply Z.eqb_eq|by apply Bool.eqb_prop].
Qed.

(** The registers after the six bytes of [idestart]. *)
Definition addressed (b : buf) (d : drive) : drive :=
  reg_out 6 (Z.lor (if dev b =? 1 then IDE_SLAVE else IDE_MASTER) (Z.land (Z.shiftr (sector b) 24) 15))
    (reg_out 5 (Z.land (Z.shiftr (sector b) 16) 255)
      (reg_out 4 (Z.land (Z.shiftr (sector b) 8) 255)
        (reg_out 3 (Z.land (sector b) 255) (reg_out 2 1 (reg_out 518 0 d))))).

Lemma addressed_sel b d cmd : 0 <= sector b < 2 ^ 28 ->
  sel_unit (reg_out 7 cmd (addressed b d)) = unit_of b /\ sel_lba (reg_out 7 cmd (addressed b d)) = sector b.
Proof.
  intros Hs. set (d' := reg_out 7 cmd (addressed b d)).
  assert (Hsel : r_sel d' = u8 (Z.lor (if dev b =? 1 then IDE_SLAVE else IDE_MASTER) (Z.land (Z.shiftr (sector b) 24) 15)))
    by reflexivity.
  assert (H0 : r_lba0 d' = u8 (Z.land (sector b) 255)) by reflexivity.
  assert (H8 : r_lba1 d' = u8 (Z.land (Z.shiftr (sector b) 8) 255)) by reflexivity.
  assert (H16 : r_lba2 d' = u8 (Z.land (Z.shiftr (sector b) 16) 255)) by reflexivity.
  clearbody d'. unfold sel_unit, sel_lba, unit_of. rewrite Hsel, H0, H8, H16.
  destruct (select_byte (if dev b =? 1 then IDE_SLAVE else IDE_MASTER) (Z.land (Z.shiftr (sector b) 24) 15)) as (H1 & H2 & H3).
  { case_match; auto. }
  { rewrite land_15. apply Z.mod_pos_bound. lia. }
  rewrite H1, H2, H3. split; [by destruct (dev b =? 1)|].
  rewrite !land_255, land_15, !Z.shiftr_div_pow2 by lia. unfold u8. rewrite !Z.mod_mod by lia. lia_dm.
Qed.

(** ** The operations *)

Lemma get_buf_wp i bq s (Q : buf * option nat -> ide -> list event -> Prop) :
  bufs s !! i = Some bq -> Q bq s [] -> wp (get_buf i) s Q.
Proof. intros Hi HQ. unfold get_buf. wp_steps. rewrite Hi. by wp_steps. Qed.

Lemma idestart_wp i b q s dsk (Q : unit -> ide -> list event -> Prop) :
  bufs s !! i = Some (b, q) -> ready (drv s) = true -> 0 <= sector b < 2 ^ 28 -> (dirty b = true -> length (bdata b) = 512%nat) ->
  (forall u l, media (drv s) u l = dsk u l) ->
  (forall d' t, started d' b dsk -> ready d' = ready (drv s) -> failed d' = failed (drv s) ->
     t = (if dirty b then [DiskWrite (unit_of b) (sector b) (bdata b)] else []) -> Q tt (set_drv d' s) t) ->
  wp (idestart (Some i)) s Q.
Proof.
  intros Hi Hr Hs Hl Hm HQ. unfold idestart. wp_steps. apply (get_buf_wp i (b, q)); [done|]. cbn [fst].
  unfold idewait, out8, outsl. wp_steps. rewrite Hr. wp_steps. cbn [drv set_drv]. fold (addressed b (drv s)).
  destruct (dirty b) eqn:Hd; wp_steps; cbn [drv set_drv].
  - destruct (addressed_sel b (drv s) IDE_CMD_WRITE Hs) as [Hu Hlba].
    fold (addressed b (drv s)). rewrite Hu, Hlba, take_ge by (rewrite Hl; done).
    apply (HQ (set_media (upd_block (media (reg_out 7 IDE_CMD_WRITE (addressed b (drv s)))) (unit_of b) (sector b) (bdata b))
                 (reg_out 7 IDE_CMD_WRITE (addressed b (drv s))))); try done.
    split; [exact Hu|exact Hlba|]. intros u l. unfold done_disk. rewrite Hd. cbn [media set_media]. unfold upd_block.
    by rewrite <-(Hm u l).
  - destruct (addressed_sel b (drv s) IDE_CMD_READ Hs) as [Hu Hlba].
    apply (HQ (reg_out 7 IDE_CMD_READ (addressed b (drv s)))); try done. split; [done|done|].
    intros u l. unfold done_disk. rewrite Hd. apply Hm.
Qed.

Lemma chain_ext m m' p l : chain m p l ->
  (forall i b q, i ∈ l -> m !! i = Some (b, q) -> exists b', m' !! i = Some (b', q)) -> chain m' p l.
Proof.
  revert p. induction l as [|i l IH]; intros p; cbn [chain]; [done|]. intros [-> (b & q & Hi & Hc)] Hx. split; [done|].
  destruct (Hx i b q ltac:(left) Hi) as [b' Hb']. exists b', q. split; [done|]. apply IH; [done|].
  intros j c r Hj. apply Hx. by right.
Qed.

(** What [ideintr] does to the buffer. *)
Lemma finish_alter (m : gmap nat (buf * option nat)) i b q (f : buf -> buf) : m !! i = Some (b, q) ->
  alter (fun bq : buf * option nat => (f bq.1, bq.2)) i m = <[i := (f b, q)]> m.
Proof. intros Hi. apply map_eq. intros j. destruct (decide (j = i)) as [->|Hne].
  - by rewrite lookup_alter_eq, lookup_insert_eq, Hi.
  - by rewrite lookup_alter_ne, lookup_insert_ne.
Qed.

Lemma upd_buf_wp i b q f s (Q : unit -> ide -> list event -> Prop) : bufs s !! i = Some (b, q) ->
  Q tt (set_bufs (<[i := (f b, q)]> (bufs s)) s) [] -> wp (upd_buf i f) s Q.
Proof. intros Hi HQ. unfold upd_buf. wp_steps. by rewrite (finish_alter _ _ b q). Qed.

(** The middle of [ideintr]: the buffer gets its data and its flags. *)
Lemma complete_wp i b q s dsk (Q : unit -> ide -> list event -> Prop) :
  bufs s !! i = Some (b, q) -> ready (drv s) = true -> failed (drv s) = false -> started (drv s) b dsk ->
  Q tt (set_bufs (<[i := (done_buf b dsk, q)]> (bufs s)) s) [] ->
  wp (complete i b) s Q.
Proof.
  intros Hi Hr Hf [Hu Hl Hm] HQ. unfold complete. unfold done_buf in HQ. unfold done_disk in Hm. wp_steps. destruct (dirty b) eqn:Hd.
  - wp_steps. apply (upd_buf_wp i b q); [done|]. wp_steps.
    eapply upd_buf_wp; [cbn [bufs set_bufs]; apply lookup_insert_eq|]. cbn [bufs set_bufs].
    rewrite insert_insert_eq. exact HQ.
  - unfold idewait, insl. wp_steps. rewrite Hr, Hf. wp_steps. change (0 <=? (if true && false then -1 else 0)) with true. cbn iota.
    wp_steps. rewrite Hu, Hl, Hm.
    apply (upd_buf_wp i b q); [done|]. wp_steps.
    eapply upd_buf_wp; [cbn [bufs set_bufs]; apply lookup_insert_eq|]. cbn [bufs set_bufs]. wp_steps.
    eapply upd_buf_wp; [cbn [bufs set_bufs]; apply lookup_insert_eq|]. cbn [bufs set_bufs].
    rewrite !insert_insert_eq. exact HQ.
Qed.

(** An interrupt completes the request at the head and starts the next. *)
Lemma ideintr_wp i b q pend dsk s (Q : unit -> ide -> list event -> Prop) :
  queue_ok s (i :: pend) dsk -> bufs s !! i = Some (b, q) ->
  (forall s' t, queue_ok s' pend (done_disk b dsk) -> bufs s' = <[i := (done_buf b dsk, q)]> (bufs s) ->
     havedisk1 s' = havedisk1 s ->
     t = Wakeup (ChBuf i) :: match pend with
                             | j :: _ => match bufs s !! j with
                                         | Some (c, _) => if dirty c then [DiskWrite (unit_of c) (sector c) (bdata c)] else []
                                         | None => []
                                         end
                             | [] => []
                             end -> Q tt s' t) ->
  wp ideintr s Q.
Proof.
  intros H Hi HQ. destruct H as [Hlk Hch Hnd Hrq [Hrd Hfl] Hhd]. specialize (Hhd b q Hi).
  cbn [chain] in Hch. destruct Hch as [Hq (b0 & q0 & Hi0 & Hch)]. rewrite Hi in Hi0. injection Hi0 as <- <-.
  apply NoDup_cons in Hnd as [Hnin Hnd].
  unfold ideintr. wp_steps. apply wp_acquire; [done|]. wp_steps. cbn [lput ide_lk idequeue set_idelock]. rewrite Hq.
  wp_steps. apply (get_buf_wp i (b, q)); [done|]. wp_steps. cbn [fst snd].
  apply (complete_wp i b q _ dsk); [done|done|done|done|]. wp_steps. cbn [idequeue set_bufs set_idequeue].
  set (m' := <[i := (done_buf b dsk, q)]> (bufs s)).
  assert (Hoth : forall j, j ∈ pend -> m' !! j = bufs s !! j).
  { intros j Hj. unfold m'. rewrite lookup_insert_ne; [done|]. by intros ->. }
  assert (Hch' : chain m' q pend).
  { apply (chain_ext (bufs s)); [done|]. intros j c r Hj Hc. exists c. by rewrite Hoth. }
  assert (Hrq' : forall j, j ∈ pend -> exists c r, m' !! j = Some (c, r) /\ request (havedisk1 s) c).
  { intros j Hj. rewrite Hoth by done. apply Hrq. by right. }
  destruct pend as [|j pend].
  - cbn [chain] in Hch'. subst q. wp_steps. apply wp_release; [done|]. apply HQ; [|done|done|done].
    split; try done. cbn. apply (st_media _ _ _ Hhd).
  - cbn [chain] in Hch'. destruct Hch' as [-> (c & r & Hj & Hch')].
    destruct (Hrq' j ltac:(left)) as (c0 & r0 & Hj0 & Hreq). rewrite Hj in Hj0. injection Hj0 as <- <-.
    rewrite <-(Hoth j ltac:(left)), Hj in HQ.
    apply (idestart_wp j c r _ (done_disk b dsk)); [exact Hj|exact Hrd|apply Hreq|apply Hreq|apply (st_media _ _ _ Hhd)|].
    intros d' t Hst Hr' Hf' ->. wp_steps. apply wp_release; [done|]. apply HQ; [|done|done|by rewrite app_nil_r].
    split; cbn; try done.
    + split; [done|]. by exists c, r.
    + by rewrite Hr', Hf'.
    + intros c' r' Hc'. change (m' !! j = Some (c', r')) in Hc'. rewrite Hj in Hc'. by injection Hc' as <- <-.
Qed.

Lemma chain_dom m p l i : chain m p l -> i ∈ l -> is_Some (m !! i).
Proof.
  revert p. induction l as [|j l IH]; intros p Hc Hi; [by apply not_elem_of_nil in Hi|].
  destruct Hc as [_ (b & q & Hj & Hc)]. apply elem_of_cons in Hi as [->|Hi]; [eauto|by eapply IH].
Qed.

Lemma chain_size m p l : chain m p l -> NoDup l -> (length l <= size m)%nat.
Proof.
  intros Hc Hnd. rewrite <-(size_dom (D := gset nat)). change (size (dom m)) with (length (elements (dom m))).
  apply submseteq_length, NoDup_submseteq; [done|]. intros i Hi. apply elem_of_elements, elem_of_dom. by apply (chain_dom m p l).
Qed.

(** Appending to a queue that is not empty sets the link of its last buffer. *)
Lemma append_wp fuel j l i b s (Q : unit -> ide -> list event -> Prop) :
  chain (bufs s) (Some j) (j :: l) -> (length l <= fuel)%nat -> NoDup (j :: l) -> i ∉ j :: l ->
  bufs s !! i = Some (b, None) ->
  (forall k bk, k ∈ j :: l -> bufs s !! k = Some (bk, None) ->
     chain (<[k := (bk, Some i)]> (bufs s)) (Some j) ((j :: l) ++ [i]) ->
     Q tt (set_bufs (<[k := (bk, Some i)]> (bufs s)) s) []) ->
  wp (append fuel (Some j) i) s Q.
Proof.
  revert fuel j. induction l as [|j' l IH]; intros fuel j Hc Hf Hnd Hni Hi HQ;
    destruct Hc as [_ (bj & qj & Hj & Hc)]; apply NoDup_cons in Hnd as [Hjn Hnd].
  - cbn [chain] in Hc. subst qj. assert (wp (set_qnext j (Some i)) s Q) as Hw.
    { unfold set_qnext. wp_steps. replace (alter (fun bq => (bq.1, Some i)) j (bufs s)) with (<[j := (bj, Some i)]> (bufs s)).
      - apply HQ; [left|done|]. cbn [app chain]. split; [done|]. exists bj, (Some i). split; [apply lookup_insert_eq|].
        split; [done|]. exists b, None. split; [|done]. rewrite lookup_insert_ne; [done|]. intros ->. apply Hni. left.
      - apply map_eq. intros x. destruct (decide (x = j)) as [->|Hne].
        + by rewrite lookup_alter_eq, lookup_insert_eq, Hj.
        + by rewrite lookup_alter_ne, lookup_insert_ne. }
    destruct fuel; cbn [append]; wp_step; by apply (get_buf_wp j (bj, None)).
  - destruct Hc as [-> Hc]. destruct fuel as [|fuel]; [simpl in Hf; lia|]. cbn [append]. wp_step.
    apply (get_buf_wp j (bj, Some j')); [done|]. cbn [fst snd].
    apply IH; [by split|simpl in Hf; lia|done|intros Hx; apply Hni; by right|done|].
    intros k bk Hk Hbk Hch. apply HQ; [by right|done|]. cbn [app chain]. split; [done|].
    exists bj, (Some j'). split; [|done]. rewrite lookup_insert_ne; [done|]. by intros ->.
Qed.

(** ** Submitting a request *)

(** The same buffers but for the links of the queue. *)
Definition same_bufs (m m' : gmap nat (buf * option nat)) : Prop := forall i, fst <$> m' !! i = fst <$> m !! i.

Lemma same_bufs_get m m' i b q : same_bufs m m' -> m !! i = Some (b, q) -> exists q', m' !! i = Some (b, q').
Proof.
  intros Hs Hi. specialize (Hs i). rewrite Hi in Hs. destruct (m' !! i) as [[b' q']|]; [|done]. injection Hs as ->. eauto.
Qed.

Lemma requests_same m m' hd1 (l : list nat) : same_bufs m m' ->
  (forall i, i ∈ l -> exists b q, m !! i = Some (b, q) /\ request hd1 b) ->
  (forall i, i ∈ l -> exists b q, m' !! i = Some (b, q) /\ request hd1 b).
Proof.
  intros Hs H i Hi. destruct (H i Hi) as (b & q & Hb & Hr). destruct (same_bufs_get _ _ _ _ _ Hs Hb) as [q' Hq']. eauto.
Qed.

Lemma alter_qnext (m : gmap nat (buf * option nat)) i (b : buf) (q : option nat) : m !! i = Some (b, q) ->
  alter (fun bq : buf * option nat => (bq.1, @None nat)) i m = <[i := (b, None)]> m.
Proof.
  intros Hi. apply map_eq. intros x. destruct (decide (x = i)) as [->|Hne].
  - by rewrite lookup_alter_eq, lookup_insert_eq, Hi.
  - by rewrite lookup_alter_ne, lookup_insert_ne.
Qed.

(** A new request goes to the end; the process sleeps on the buffer, without the lock. *)
Lemma iderw_start_stops i b q pend dsk s (P : ide -> list event -> Prop) :
  queue_ok s pend dsk -> i ∉ pend -> bufs s !! i = Some (b, q) -> request (havedisk1 s) b ->
  (forall s' t, queue_ok s' (pend ++ [i]) dsk -> same_bufs (bufs s) (bufs s') -> havedisk1 s' = havedisk1 s ->
     t = (if decide (pend = []) then if dirty b then [DiskWrite (unit_of b) (sector b) (bdata b)] else [] else []) -> P s' t) ->
  stops (iderw_start i) s (Sleeping (ChBuf i)) P.
Proof.
  intros H Hni Hi Hreq HP. destruct H as [Hlk Hch Hnd Hrq [Hrd Hfl] Hhd].
  pose proof Hreq as [Hbusy Htodo Hunit Hsec Hlen].
  unfold iderw_start. apply stops_bind, (get_buf_wp i (b, q)); [done|]. cbn [fst]. rewrite Hbusy, Htodo. cbn [negb].
  apply stops_bind, wp_get. assert ((negb (dev b =? 0) && negb (havedisk1 s))%bool = false) as ->.
  { destruct Hunit as [-> | ->]; [done|by rewrite andb_false_r]. }
  apply stops_bind, wp_acquire; [done|]. apply stops_bind, wp_mod. apply stops_bind, wp_get.
  cbn [lput ide_lk bufs set_idelock set_bufs idequeue]. rewrite (alter_qnext (bufs s) i b q Hi).
  set (m1 := <[i := (b, None)]> (bufs s)). set (s1 := set_bufs m1 (set_idelock true s)).
  assert (Hi1 : m1 !! i = Some (b, None)) by apply lookup_insert_eq.
  assert (Hsame1 : same_bufs (bufs s) m1).
  { intros x. unfold m1. destruct (decide (x = i)) as [->|]; [by rewrite lookup_insert_eq, Hi|by rewrite lookup_insert_ne]. }
  assert (Hch1 : chain m1 (idequeue s) pend).
  { apply (chain_ext (bufs s)); [done|]. intros x c r Hx Hc. exists c. unfold m1. rewrite lookup_insert_ne; [done|]. by intros ->. }
  assert (Hwait : forall s2, bufs s2 !! i = Some (b, None) ->
    forall t (R : ide -> list event -> Prop), R (set_idelock false s2) t -> stops (wait_done i) s2 (Sleeping (ChBuf i)) (fun s' t' => R s' (t ++ t'))).
  { intros s2 Hs2 t R HR. unfold wait_done. apply stops_bind, (get_buf_wp i (b, None)); [done|]. cbn [fst]. rewrite Htodo.
    eapply stops_of_run; [done|]. by rewrite app_nil_r. }
  destruct pend as [|j l].
  - cbn [chain] in Hch1. rewrite Hch1. apply stops_bind. destruct (size m1); cbn [append]; apply wp_mod.
    all: apply stops_bind, wp_gets; cbn [idequeue set_idequeue]; rewrite bool_decide_eq_true_2 by done.
    all: apply stops_bind, (idestart_wp i b None _ dsk); [exact Hi1|exact Hrd|done|done|exact Hhd|].
    all: intros d' t Hst Hr' Hf' Ht; cbn [app]; eapply Hwait; [exact Hi1|]; apply HP; [|exact Hsame1|done|exact Ht].
    all: split; cbn; [done|split; [done|by exists b, None]|by apply NoDup_singleton| |by rewrite Hr', Hf'|].
    all: try (intros x Hx; apply list_elem_of_singleton in Hx as ->; by exists b, None).
    all: intros b' q' Hb'; change (m1 !! i = Some (b', q')) in Hb'; rewrite Hi1 in Hb'; by injection Hb' as <- <-.
  - pose proof Hch1 as Hch1'. cbn [chain] in Hch1. destruct Hch1 as [Hidq _]. rewrite Hidq in Hch1' |- *.
    apply stops_bind, (append_wp _ j l i b s1); try done.
    { pose proof (chain_size _ _ _ Hch1' Hnd) as Hsz. simpl in Hsz. change (bufs s1) with m1. lia. }
    intros k bk Hk Hbk Hch2. set (m2 := <[k := (bk, Some i)]> (bufs s1)) in *. change (bufs s1) with m1 in *.
    assert (Hki : k <> i) by (intros ->; by apply Hni).
    assert (Hsame2 : same_bufs (bufs s) m2).
    { intros x. rewrite <-(Hsame1 x). unfold m2. destruct (decide (x = k)) as [->|]; [by rewrite lookup_insert_eq, Hbk|by rewrite lookup_insert_ne]. }
    assert (Hi2 : m2 !! i = Some (b, None)) by (unfold m2; by rewrite lookup_insert_ne).
    apply stops_bind, wp_gets. cbn [idequeue set_bufs]. change (idequeue s1) with (idequeue s). rewrite Hidq.
    rewrite bool_decide_eq_false_2 by (intros [= ->]; apply Hni; left). apply stops_bind, wp_ret. cbn [app].
    apply (Hwait (set_bufs m2 s1) Hi2 []). apply HP; [|exact Hsame2|done|done].
    split.
    + done.
    + change (chain m2 (idequeue s) ((j :: l) ++ [i])). by rewrite Hidq.
    + apply NoDup_app. split_and!; [done| |by apply NoDup_singleton]. intros x Hx Hx'.
      apply list_elem_of_singleton in Hx' as ->. by apply Hni.
    + intros x [Hx|Hx]%elem_of_app; [by apply (requests_same (bufs s) m2 _ (j :: l))|].
      apply list_elem_of_singleton in Hx as ->. by exists b, None.
    + done.
    + intros c r Hc. change (m2 !! j = Some (c, r)) in Hc. destruct (Hrq j ltac:(left)) as (c0 & r0 & Hc0 & _).
      destruct (same_bufs_get _ _ _ _ _ Hsame2 Hc0) as [r1 Hr1]. rewrite Hr1 in Hc. injection Hc as <- <-. by apply (Hhd c0 r0).
Qed.

(** An interrupt with nothing to do is ignored. *)
Lemma spurious_run dsk s : queue_ok s [] dsk -> ideintr s = ([], Ret tt s).
Proof.
  intros [Hlk Hch _ _ _ _]. cbn [chain] in Hch. unfold ideintr. kstep_by ltac:(by apply acquire_run). kstep.
  cbn [idequeue lput ide_lk set_idelock]. rewrite Hch. rewrite release_run by done. destruct s. simpl in *. by subst.
Qed.

(** Woken up: the request is done, or the process sleeps again. *)
Lemma iderw_resume_run i b q s : idelock s = false -> bufs s !! i = Some (b, q) ->
  iderw_resume i s = ([], if Z.land (flags b) (Z.lor B_VALID B_DIRTY) =? B_VALID then Ret tt s else Stop (Sleeping (ChBuf i)) s).
Proof.
  intros Hl Hi. unfold iderw_resume, wait_done. kstep_by ltac:(by apply acquire_run).
  unfold get_buf. erewrite kbind_pure; [|kstep; cbn [bufs lput ide_lk set_idelock]; by rewrite Hi]. cbn [fst].
  assert (Hid : set_idelock false (set_idelock true s) = s) by (destruct s; simpl in *; by subst).
  case_match; [by rewrite release_run by done; cbn [lput ide_lk]; rewrite Hid|]. unfold ksleep. cbn [lput ide_lk]. by rewrite Hid.
Qed.

Lemma done_valid b dsk : Z.land (flags (done_buf b dsk)) (Z.lor B_VALID B_DIRTY) =? B_VALID = true.
Proof.
  unfold done_buf. cbn [flags set_flags]. generalize (flags (if dirty b then b else set_bdata (dsk (unit_of b) (sector b)) b)). intros f.
  unfold clr, set. apply Z.eqb_eq. apply Z.bits_inj'. intros n Hn.
  rewrite Z.land_spec, Z.ldiff_spec, !Z.lor_spec. unfold B_VALID, B_DIRTY.
  destruct (decide (n = 1)) as [->|]; [by rewrite orb_true_r|]. destruct (decide (n = 2)) as [->|]; [by rewrite !andb_false_r|].
  assert (Z.testbit 2 n = false /\ Z.testbit 4 n = false) as [-> ->].
  { change 2 with (2 ^ 1). change 4 with (2 ^ 2). split; by rewrite Z.pow2_bits_false. }
  by rewrite andb_false_r.
Qed.

(** ** Sessions *)

Inductive step := Submit (i : nat) | Interrupt.

(** The steps, run one after the other; [None] when one ends in an unexpected way. *)
Definition run_step (st : step) (s : ide) : option ide :=
  match st with
  | Submit i =>
      match iderw_start i s with
      | (_, Stop (Sleeping (ChBuf j)) s') => if decide (j = i) then Some s' else None
      | _ => None
      end
  | Interrupt => match ideintr s with (_, Ret _ s') => Some s' | _ => None end
  end.
Definition run (steps : list step) (s : ide) : option ide := foldl (fun o st => o ≫= run_step st) (Some s) steps.

(** The requests that wait, the sectors and the buffers. *)
Record fifo := Fifo {
  ff_pend : list nat;
  ff_disk : Z -> Z -> list Z;
  ff_buf : nat -> option buf;
}.
Definition fifo_step (A : fifo) (st : step) : fifo :=
  match st with
  | Submit i => Fifo (ff_pend A ++ [i]) (ff_disk A) (ff_buf A)
  | Interrupt =>
      match ff_pend A with
      | [] => A
      | i :: pend =>
          match ff_buf A i with
          | Some b => Fifo pend (done_disk b (ff_disk A))
                        (fun j => if decide (j = i) then Some (done_buf b (ff_disk A)) else ff_buf A j)
          | None => A
          end
      end
  end.
Definition enabled (hd1 : bool) (A : fifo) (st : step) : Prop :=
  match st with
  | Submit i => i ∉ ff_pend A /\ exists b, ff_buf A i = Some b /\ request hd1 b
  | Interrupt => True
  end.
Fixpoint allowed (hd1 : bool) (A : fifo) (steps : list step) : Prop :=
  match steps with
  | [] => True
  | st :: steps' => enabled hd1 A st /\ allowed hd1 (fifo_step A st) steps'
  end.

Definition implements (s : ide) (A : fifo) : Prop :=
  queue_ok s (ff_pend A) (ff_disk A) /\ forall i, fst <$> bufs s !! i = ff_buf A i.

Lemma step_simulates hd1 s A st : implements s A -> havedisk1 s = hd1 -> enabled hd1 A st ->
  exists s', run_step st s = Some s' /\ implements s' (fifo_step A st) /\ havedisk1 s' = hd1.
Proof.
  intros [Hq Hb] Hhd Hen. destruct st as [i|].
  - destruct Hen as [Hni (b & Hbi & Hreq)]. rewrite <-Hb in Hbi. destruct (bufs s !! i) as [[b' q]|] eqn:Hi; [|done].
    injection Hbi as ->. rewrite <-Hhd in Hreq.
    assert (Hst : stops (iderw_start i) s (Sleeping (ChBuf i)) (fun s' t =>
      queue_ok s' (ff_pend A ++ [i]) (ff_disk A) /\ same_bufs (bufs s) (bufs s') /\ havedisk1 s' = havedisk1 s)).
    { by eapply iderw_start_stops. }
    unfold stops in Hst. unfold run_step. destruct (iderw_start i s) as [t [|r s']]; [done|].
    destruct Hst as (-> & Hq' & Hs' & Hh'). exists s'. rewrite decide_True by done. split_and!; [done| |congruence].
    split; [done|]. intros j. cbn. by rewrite (Hs' j), Hb.
  - unfold run_step, fifo_step. destruct (ff_pend A) as [|i pend] eqn:Hp.
    + rewrite (spurious_run _ _ Hq). exists s. split_and!; [done| |done]. split; [by rewrite Hp|done].
    + destruct (qo_req _ _ _ Hq i ltac:(left)) as (b & q & Hi & _). rewrite <-Hb, Hi. cbn [fmap option_fmap option_map fst].
      assert (Hw : wp ideintr s (fun _ s' t => queue_ok s' pend (done_disk b (ff_disk A)) /\
        bufs s' = <[i := (done_buf b (ff_disk A), q)]> (bufs s) /\ havedisk1 s' = havedisk1 s)).
      { by eapply ideintr_wp. }
      unfold wp in Hw. destruct (ideintr s) as [t [[] s'|]]; [|done]. destruct Hw as (Hq' & Hb' & Hh').
      exists s'. split_and!; [done| |congruence]. split; [done|]. intros j. cbn. rewrite Hb'.
      destruct (decide (j = i)) as [->|]; [by rewrite lookup_insert_eq|by rewrite lookup_insert_ne].
Qed.


(** ** One request at a time

    The interface of [Disk]: the caller sleeps until the interrupt of its request has come, and
    runs on. *)

Definition slept {S A} (m k : K S A) : K S A := fun s =>
  match m s with
  | (t, Stop (Sleeping _) s1) => let '(t2, o) := k s1 in (t ++ t2, o)
  | r => r
  end.

Definition ide_iderw (i : nat) (b : buf) : IK buf :=
  kmod (fun s => set_bufs (<[i := (b, None)]> (bufs s)) s) ;;;
  slept (iderw_start i) (ideintr ;;; iderw_resume i) ;;;
  let! bq := get_buf i in
  kret bq.1.

#[export] Instance ide_driver : Driver ide := {
  iderw := ide_iderw;
  sata_read _ _ _ := kret (SATA_IO_ERROR_NO_PORT, []);
  sata_write _ _ _ _ := kret SATA_IO_ERROR_NO_PORT;
}.

Definition ide_blocks (s : ide) (dv sec : Z) : list Z :=
  if (((dv =? 0) || (dv =? 1)) && (0 <=? sec) && (sec <? 2 ^ 28))%bool then media (drv s) dv sec else [].
Record ide_online (s : ide) (dv sec : Z) : Prop := {
  on_idle : queue_ok s [] (media (drv s));
  on_unit : dv = 0 \/ (dv = 1 /\ havedisk1 s = true);
  on_sector : 0 <= sec < 2 ^ 28;
  on_block : length (media (drv s) dv sec) = 512%nat;
}.

Lemma ide_blocks_online s dv sec : ide_online s dv sec -> ide_blocks s dv sec = media (drv s) dv sec.
Proof.
  intros [_ Hu Hs _]. unfold ide_blocks. rewrite (proj2 (Z.leb_le 0 sec)), (proj2 (Z.ltb_lt _ _)) by lia.
  by destruct Hu as [->|[-> _]].
Qed.

Lemma slept_wp {S} (m k : K S unit) s c (P : S -> list event -> Prop) (Q : unit -> S -> list event -> Prop) :
  stops m s (Sleeping c) P -> (forall s1 t, P s1 t -> wp k s1 (fun a s' t2 => Q a s' (t ++ t2))) -> wp (slept m k) s Q.
Proof.
  unfold stops, wp, slept. destruct (m s) as [t [|r s1]]; [done|]. intros [-> HP] Hk. specialize (Hk s1 t HP).
  by destruct (k s1) as [t2 [a s'|]].
Qed.

Definition written (b : buf) : list (Z * Z * list Z) := if dirty b then [(dev b, sector b, bdata b)] else [].

(** A request on an idle driver, from start to end. *)
Lemma ide_iderw_wp i b s (Q : buf -> ide -> list event -> Prop) :
  ide_online s (dev b) (sector b) -> busy b = true ->
  Z.land (flags b) (Z.lor B_VALID B_DIRTY) =? B_VALID = false -> (dirty b = true -> length (bdata b) = 512%nat) ->
  (forall s' t, queue_ok s' [] (done_disk b (media (drv s))) -> havedisk1 s' = havedisk1 s ->
     disk_writes t = written b -> Q (done_buf b (media (drv s))) s' t) ->
  wp (ide_iderw i b) s Q.
Proof.
  intros [[Hlk Hch _ _ Hrd Hhd] Hu Hs _] Hb Ht Hl HQ. unfold ide_iderw. wp_step. wp_step. wp_step.
  set (s1 := set_bufs (<[i := (b, None)]> (bufs s)) s).
  assert (Hi : bufs s1 !! i = Some (b, None)) by apply lookup_insert_eq.
  assert (Hunit : unit_of b = dev b) by (unfold unit_of; by destruct Hu as [->|[-> _]]).
  assert (Hq1 : queue_ok s1 [] (media (drv s))).
  { split; try done; [by apply NoDup_nil|]. intros x Hx. by apply not_elem_of_nil in Hx. }
  assert (Hreq : request (havedisk1 s1) b) by (split; try done; destruct Hu as [?|[_ ?]]; auto).
  eapply slept_wp; [eapply (iderw_start_stops i b None [] (media (drv s)) s1 (fun s' t =>
    queue_ok s' [i] (media (drv s)) /\ same_bufs (bufs s1) (bufs s') /\ havedisk1 s' = havedisk1 s /\ disk_writes t = written b)); try done|].
  - apply not_elem_of_nil.
  - intros s' t Hq' Hs' Hh' ->. split_and!; try done. rewrite decide_True by done. unfold written. rewrite Hunit. by case_match.
  - intros s2 t (Hq2 & Hs2 & Hh2 & Hw2). destruct (same_bufs_get _ _ _ _ _ Hs2 Hi) as [q Hi2]. wp_step.
    apply (ideintr_wp i b q [] (media (drv s)) s2); [done|done|]. intros s3 t3 Hq3 Hb3 Hh3 ->.
    assert (Hi3 : bufs s3 !! i = Some (done_buf b (media (drv s)), q)) by (rewrite Hb3; apply lookup_insert_eq).
    eapply wp_of_run.
    { rewrite (iderw_resume_run i (done_buf b (media (drv s))) q s3 ltac:(apply Hq3) Hi3), done_valid. reflexivity. }
    wp_steps. apply (get_buf_wp i (done_buf b (media (drv s)), q)); [done|]. wp_steps.
    apply HQ; [done|congruence|]. cbn [app]. rewrite <-Hw2, !disk_writes_app. cbn. by rewrite !app_nil_r.
Qed.

(** The driver, idle again. *)
Lemma idle_self s dsk : queue_ok s [] dsk -> queue_ok s [] (media (drv s)).
Proof. intros [H1 H2 H3 H4 H5 _]. by split. Qed.

Lemma online_keeps s s' dsk dv sec : queue_ok s' [] dsk -> havedisk1 s' = havedisk1 s ->
  length (dsk dv sec) = 512%nat -> ide_online s dv sec -> ide_online s' dv sec.
Proof.
  intros Hq Hh Hl [_ Hu Hs _]. split; [by eapply idle_self|by rewrite Hh|done|].
  by rewrite (qo_head _ _ _ Hq dv sec).
Qed.

#[export] Program Instance ide_driver_spec : DriverSpec ide := {
  blocks := ide_blocks;
  online := ide_online;
}.
Next Obligation. intros s dv sec Ho. rewrite ide_blocks_online by done. apply Ho. Qed.
Next Obligation.
  intros s i b Q _ Ho Hb Hv Hd HQ. apply (ide_iderw_wp i b s); [done|done| |by rewrite Hd|].
  { apply Z.eqb_neq. intros E. revert Hv. change (valid b) with (has (flags b) (2 ^ 1)). rewrite has_bit by lia.
    apply (f_equal (fun z => Z.testbit z 1)) in E. rewrite Z.land_spec in E. change (Z.testbit (Z.lor B_VALID B_DIRTY) 1) with true in E.
    rewrite andb_true_r in E. by rewrite E. }
  intros s' t Hq Hh Hw. unfold written in Hw. unfold done_disk in Hq. unfold done_buf. rewrite Hd in *.
  assert (unit_of b = dev b) as ->. { unfold unit_of. by destruct (on_unit _ _ _ Ho) as [->|[-> _]]. }
  rewrite ide_blocks_online in HQ by done. cbn [flags set_bdata].
  apply HQ; [|done]. split.
  - intros dv sec. unfold ide_blocks. by rewrite (qo_head _ _ _ Hq dv sec).
  - intros dv sec Ho'. eapply online_keeps; [exact Hq|done|apply Ho'|done].
Qed.
Next Obligation.
  intros s i b Q _ Ho Hb Hd Hl HQ. apply (ide_iderw_wp i b s); [done|done| |done|].
  { apply Z.eqb_neq. intros E. revert Hd. change (dirty b) with (has (flags b) (2 ^ 2)). rewrite has_bit by lia.
    apply (f_equal (fun z => Z.testbit z 2)) in E. rewrite Z.land_spec in E. change (Z.testbit (Z.lor B_VALID B_DIRTY) 2) with true in E.
    rewrite andb_true_r in E. by rewrite E. }
  intros s' t Hq Hh Hw. unfold written in Hw. unfold done_disk in Hq. unfold done_buf. rewrite Hd in *.
  assert (Hu : unit_of b = dev b). { unfold unit_of. by destruct (on_unit _ _ _ Ho) as [->|[-> _]]. }
  rewrite Hu in Hq. apply HQ; [| |done].
  - intros dv sec. unfold ide_blocks at 1. rewrite (qo_head _ _ _ Hq dv sec). unfold upd_block.
    destruct (Z.eqb_spec dv (dev b)) as [->|]; [|done]. destruct (Z.eqb_spec sec (sector b)) as [->|]; [|done]. cbn [andb].
    destruct (on_unit _ _ _ Ho) as [->|[-> _]]; cbn [andb orb Z.eqb];
      by rewrite (proj2 (Z.leb_le _ _)), (proj2 (Z.ltb_lt _ _)) by (pose proof (on_sector _ _ _ Ho); lia).
  - intros dv sec Ho'. eapply online_keeps; [exact Hq|done| |done]. unfold upd_block. case_match; [done|apply Ho'].
Qed.
Next Obligation. intros s dv sec Q Ht Ho. by destruct (on_unit _ _ _ Ho) as [->|[-> _]]. Qed.
Next Obligation. intros s dv sec data Q Ht Ho. by destruct (on_unit _ _ _ Ho) as [->|[-> _]]. Qed.

(** ** Initialisation *)

Lemma poll_spec status i n : poll status i n = true <-> exists k, (k < n)%nat /\ status (i + k)%nat <> 0.
Proof.
  revert i. induction n as [|n IH]; intros i; cbn [poll]; [split; [done|intros (k & Hk & _); lia]|].
  destruct (Z.eqb_spec (status i) 0) as [E|E]; cbn [negb].
  - rewrite IH. split; intros (k & Hk & Hs).
    + exists (S k). split; [lia|]. by replace (i + S k)%nat with (S i + k)%nat by lia.
    + destruct k as [|k]; [by rewrite Nat.add_0_r in Hs|]. exists k. split; [lia|].
      by replace (S i + k)%nat with (i + S k)%nat by lia.
  - split; [intros _|done]. exists O. split; [lia|]. by rewrite Nat.add_0_r.
Qed.

(** On a drive that is ready, [ideinit] returns with an empty queue, a usable driver and the second
    disk recorded exactly when its status was seen; it never records the first disk, and says
    that there are no devices when the second is missing. *)
Theorem ideinit_ready status s : idequeue s = None -> ready (drv s) = true -> failed (drv s) = false ->
  havedisk1 s = false ->
  wp (ideinit status) s (fun msg s' t => t = [] /\ queue_ok s' [] (media (drv s)) /\ havedisk0 s' = 0 /\
    (havedisk1 s' = true <-> exists k, (k < 1000)%nat /\ status k <> 0) /\
    ("   no IDE devices detected"%string ∈ msg <-> havedisk1 s' = false)).
Proof.
  intros Hq Hr Hf Hh. pose proof (poll_spec status 0 1000) as Hp. unfold ideinit, idewait, out8. wp_steps.
  cbn [ready drv set_idelock]. rewrite Hr. wp_steps. set (p := poll status 0 1000) in *. clearbody p.
  destruct p; wp_steps; cbn [andb Z.eqb havedisk1 set_drv set_havedisk0 set_havedisk1 set_idelock negb]; rewrite ?Hh; cbn [negb].
  all: split; [done|]; split; [split; try done; [by apply NoDup_nil|by intros x ?%not_elem_of_nil]|].
  all: split; [done|]; split; [exact Hp|]; cbn; rewrite ?Hh; set_solver.
Qed.

(** ** An example: a write and a read of one sector *)

Definition demo_data : list Z := replicate 512 7.
Definition demo_ide : ide :=
  Ide false None {[ 1%nat := (Buf 5 0 9 0 0 demo_data, None); 2%nat := (Buf 1 0 9 0 0 [], None) ]} false
    (Drive 0 0 0 0 0 0 (fun _ _ => replicate 512 0) true false 0) 0.
Definition demo_fifo : fifo :=
  Fifo [] (fun _ _ => replicate 512 0)
    (fun i => fst <$> ({[ 1%nat := (Buf 5 0 9 0 0 demo_data, None); 2%nat := (Buf 1 0 9 0 0 [], None) ]} : gmap nat (buf * option nat)) !! i).

