(* ===== verification/Bio.v ===== *)
(** * Buffer cache: kernel/bio.c

    The cache is an array of NBUF buffers threaded on a circular doubly linked list
    in most-recently-used order; index [NBUF] is the list head [bcache.head].  The
    driver behind the cache is any [Driver]. *)

From stdpp Require Import base list strings sets sorting.
From Stdlib Require Import ZArith Lia.
From S2P Require Import Prelude CString Bytes Spinlock Disk.
Open Scope Z_scope.

Definition NBUF : nat := 30.
Definition head : nat := NBUF.
Definition NODEV : Z := 4294967295.        (* (uint32) -1 *)

Record bcache (D : Type) := Bcache {
  b_lock : bool;
  bufs : list buf;          (* buf[0..NBUF-1], then head *)
  disk : D;
}.
Arguments Bcache {D}.
Arguments b_lock {D}.
Arguments bufs {D}.
Arguments disk {D}.

Definition set_b_lock {D} (b : bool) (s : bcache D) : bcache D := Bcache b (bufs s) (disk s).
Definition set_bufs {D} (l : list buf) (s : bcache D) : bcache D := Bcache (b_lock s) l (disk s).
Definition set_disk {D} (d : D) (s : bcache D) : bcache D := Bcache (b_lock s) (bufs s) d.
Definition bcache_lock {D} : lens (bcache D) bool := Lens b_lock set_b_lock.
Definition bcache_disk {D} : lens (bcache D) D := Lens disk set_disk.

(** [b->field = v] for the buffer of index [i]. *)
Definition upd_buf {D} (i : nat) (f : buf -> buf) : K (bcache D) unit :=
  kmod (fun s => set_bufs (alter f i (bufs s)) s).

(** [*b]; a wild index faults. *)
Definition get_buf {D} (i : nat) : K (bcache D) buf :=
  let! l := gets bufs in
  match l !! i with Some b => kret b | None => fault end.

(** The body of [binit]'s loop: link buffer [i] behind the head. *)
Definition binit_one {D} (i : nat) : K (bcache D) unit :=
  let! h := get_buf head in
  upd_buf i (set_next (next h)) ;;;
  upd_buf i (set_prev head) ;;;
  upd_buf i (fun b => set_ident NODEV (sector b) b) ;;;
  let! h := get_buf head in
  upd_buf (next h) (set_prev i) ;;;
  upd_buf head (set_next i).

Definition binit {D} : K (bcache D) unit :=
  kmod (set_b_lock false) ;;;                   (* initlock *)
  upd_buf head (set_prev head) ;;;
  upd_buf head (set_next head) ;;;
  for_each (seq 0 NBUF) binit_one.

(** [for (b = start; b != &bcache.head; b = dir(b)) if (test(b)) ...]: the first
    buffer that passes the test, [Some None] when the loop reaches the head, [None]
    when it does not within [fuel] turns or follows a wild pointer. *)
Fixpoint scan (fuel : nat) (bs : list buf) (dir : buf -> nat) (test : buf -> bool)
    (b : nat) : option (option nat) :=
  if decide (b = head) then Some None
  else match fuel with
       | O => None
       | S fuel' =>
           match bs !! b with
           | None => None
           | Some x => if test x then Some (Some b) else scan fuel' bs dir test (dir x)
           end
       end.

Definition is_ident (dv sec : Z) (b : buf) : bool := ((dev b =? dv) && (sector b =? sec))%bool.
Definition is_free (b : buf) : bool := (negb (busy b) && negb (dirty b))%bool.

Definition bget {D} (dv sec : Z) : K (bcache D) nat :=
  acquire bcache_lock ;;;
  (* loop: is the sector already cached? *)
  let! h := get_buf head in
  let! bs := gets bufs in
  match scan NBUF bs next (is_ident dv sec) (next h) with
  | None => kstop NoFuel
  | Some (Some i) =>
      let! b := get_buf i in
      if negb (busy b) then
        upd_buf i (fun b => set_flags (set (flags b) B_BUSY) b) ;;;
        release bcache_lock ;;;
        kret i
      else ksleep (ChBuf i) (set_b_lock false)     (* sleep(b, &lock); goto loop *)
  | Some None =>
      (* not cached; recycle some non-busy and clean buffer *)
      match scan NBUF bs prev is_free (prev h) with
      | None => kstop NoFuel
      | Some (Some i) =>
          upd_buf i (set_ident dv sec) ;;;
          upd_buf i (set_flags B_BUSY) ;;;
          release bcache_lock ;;;
          kret i
      | Some None => panic "bget: no buffers"
      end
  end.

Definition bread {D} `{Driver D} (dv sec : Z) : K (bcache D) nat :=
  let! i := bget dv sec in
  let! b := get_buf i in
  if negb (valid b) then
    if GETDEVTYPE dv =? DEV_IDE then
      let! b' := zoom bcache_disk (iderw i b) in
      upd_buf i (fun _ => b') ;;; kret i
    else if GETDEVTYPE dv =? DEV_SATA then
      let! r := zoom bcache_disk (sata_read (GETDEVNUM dv) sec 1) in
      if negb (r.1 =? SATA_IO_SUCCESS) then panic "SATA I/O ERROR"
      else
        upd_buf i (set_bdata r.2) ;;;
        upd_buf i (fun b => set_flags (set (flags b) B_VALID) b) ;;;
        upd_buf i (fun b => set_flags (clr (flags b) B_DIRTY) b) ;;;
        wakeup (ChBuf i) ;;; kret i
    else panic "Unsupported device type"
  else kret i.

Definition bwrite {D} `{Driver D} (i : nat) : K (bcache D) unit :=
  let! b := get_buf i in
  if negb (busy b) then panic "bwrite"
  else
    upd_buf i (fun b => set_flags (set (flags b) B_DIRTY) b) ;;;
    let! b := get_buf i in
    if GETDEVTYPE (dev b) =? DEV_IDE then
      let! b' := zoom bcache_disk (iderw i b) in
      upd_buf i (fun _ => b')
    else
      let! st := zoom bcache_disk (sata_write (GETDEVNUM (dev b)) (sector b) 1 (bdata b)) in
      upd_buf i (fun b => set_flags (set (flags b) B_VALID) b) ;;;
      upd_buf i (fun b => set_flags (clr (flags b) B_DIRTY) b) ;;;
      wakeup (ChBuf i) ;;;
      if negb (st =? SATA_IO_SUCCESS) then panic "SATA I/O ERROR" else kret tt.

Definition brelse {D} (i : nat) : K (bcache D) unit :=
  let! b := get_buf i in
  if negb (busy b) then panic "brelse"
  else
    acquire bcache_lock ;;;
    let! b := get_buf i in
    upd_buf (next b) (set_prev (prev b)) ;;;
    upd_buf (prev b) (set_next (next b)) ;;;
    let! h := get_buf head in
    upd_buf i (set_next (next h)) ;;;
    upd_buf i (set_prev head) ;;;
    let! h := get_buf head in
    upd_buf (next h) (set_prev i) ;;;
    upd_buf head (set_next i) ;;;
    upd_buf i (fun b => set_flags (clr (flags b) B_BUSY) b) ;;;
    wakeup (ChBuf i) ;;;
    release bcache_lock.

(** ** The list behind the links *)

Definition nxt (bs : list buf) (i : nat) : nat := from_option next 0%nat (bs !! i).
Definition prv (bs : list buf) (i : nat) : nat := from_option prev 0%nat (bs !! i).

(** Going from [x] through [l] to [z] by [nx], and back by [pv]. *)
Fixpoint path (nx pv : nat -> nat) (x : nat) (l : list nat) (z : nat) : Prop :=
  match l with
  | [] => nx x = z /\ pv z = x
  | y :: l' => nx x = y /\ pv y = x /\ path nx pv y l' z
  end.

(** The buffers in most-recently-used order are [l]. *)
Record ring (bs : list buf) (l : list nat) : Prop := {
  ring_len : length bs = S NBUF;
  ring_perm : l ≡ₚ seq 0 NBUF;
  ring_path : path (nxt bs) (prv bs) head l head;
}.

(** ** Paths *)

Lemma path_ext nx pv nx' pv' x l z :
  (forall i, i ∈ x :: l -> nx' i = nx i) -> (forall i, i ∈ l ++ [z] -> pv' i = pv i) ->
  path nx pv x l z -> path nx' pv' x l z.
Proof.
  revert x. induction l as [|y l IH]; intros x Hn Hp; simpl.
  - rewrite Hn, Hp by set_solver. done.
  - rewrite Hn, (Hp y) by set_solver. intros (H1 & H2 & H3). split_and!; [done|done|].
    apply IH; [intros i Hi; apply Hn; set_solver|intros i Hi; apply Hp; set_solver|done].
Qed.

Lemma path_app nx pv x l1 y l2 z :
  path nx pv x (l1 ++ y :: l2) z <-> path nx pv x l1 y /\ path nx pv y l2 z.
Proof.
  revert x. induction l1 as [|w l1 IH]; intros x; simpl; [tauto|]. rewrite IH. tauto.
Qed.

Lemma path_rev nx pv x l z : path nx pv x l z -> path pv nx z (rev l) x.
Proof.
  revert x z. induction l as [|y l IH]; intros x z; simpl; [tauto|].
  intros (H1 & H2 & H3%IH). apply path_app. simpl. tauto.
Qed.


Lemma path_ends nx pv x l z :
  path nx pv x l z -> nx x ∈ l ++ [z] /\ pv z ∈ x :: l.
Proof.
  revert x. induction l as [|y l IH]; intros x; simpl.
  - intros [-> ->]. set_solver.
  - intros (-> & _ & [_ H]%IH). set_solver.
Qed.

(** What the pointer surgery of [brelse] does to a path: take [b] out ... *)
Lemma path_unlink nx pv b l2 z nx' pv' l1 : forall x,
  path nx pv x (l1 ++ b :: l2) z -> NoDup (x :: l1 ++ b :: l2) -> z ∉ l1 ++ b :: l2 ->
  (forall i, nx' i = if decide (i = pv b) then nx b else nx i) ->
  (forall i, pv' i = if decide (i = nx b) then pv b else pv i) ->
  path nx' pv' x (l1 ++ l2) z.
Proof.
  induction l1 as [|y l1 IH]; intros x Hp Hnd Hz Hnx Hpv; simpl in *.
  - destruct Hp as (H1 & H2 & H3).
    apply NoDup_cons in Hnd as [Hx Hnd]. apply NoDup_cons in Hnd as [Hb Hnd].
    destruct l2 as [|c l2]; simpl in *.
    + destruct H3 as [H3 _]. rewrite (Hnx x), (Hpv z), H2, H3, !decide_True by done. done.
    + destruct H3 as (H3 & H4 & H5). apply NoDup_cons in Hnd as [Hc Hnd].
      rewrite (Hnx x), (Hpv c), H2, H3, !decide_True by done. split_and!; [done|done|].
      revert H5. apply path_ext; intros i Hi.
      * rewrite Hnx, H2, decide_False; set_solver.
      * rewrite Hpv, H3, decide_False; set_solver.
  - destruct Hp as (H1 & H2 & H3). apply NoDup_cons in Hnd as [Hx Hnd].
    pose proof H3 as H4. apply path_app in H4 as [Ha Hb].
    apply path_ends in Ha as [_ Ha]. apply path_ends in Hb as [Hb _].
    apply NoDup_cons in Hnd as Hnd'. destruct Hnd' as [Hy _].
    assert (x <> pv b) as Hx'.
    { intros ->. apply Hx. rewrite app_comm_cons. apply elem_of_app. by left. }
    assert (y <> nx b) as Hy'.
    { intros ->. apply elem_of_app in Hb as [Hb|Hb%list_elem_of_singleton].
      - apply Hy. apply elem_of_app. right. by apply elem_of_cons; right.
      - apply Hz. rewrite <-Hb. by apply elem_of_cons; left. }
    rewrite Hnx, (Hpv y), !decide_False by done.
    split_and!; [done|done|]. apply IH; [done|done| |done|done].
    intros ?. apply Hz. by apply elem_of_cons; right.
Qed.

(** ... and put it right after the head. *)
Lemma path_push nx pv h b l nx' pv' :
  path nx pv h l h -> b ∉ l -> b <> h -> h ∉ l -> NoDup l ->
  (forall i, nx' i = if decide (i = h) then b else if decide (i = b) then nx h else nx i) ->
  (forall i, pv' i = if decide (i = nx h) then b else if decide (i = b) then h else pv i) ->
  path nx' pv' h (b :: l) h.
Proof.
  intros Hp Hb Hbh Hh Hnd Hnx Hpv. pose proof Hp as Hp'. apply path_ends in Hp' as [Hn _].
  cbn [path]. rewrite (Hnx h), decide_True by done. split; [done|].
  rewrite (Hpv b), decide_False, decide_True by (done || set_solver). split; [done|].
  destruct l as [|c l]; simpl in *.
  - destruct Hp as [H1 H2]. rewrite (Hnx b), decide_False, decide_True by done.
    by rewrite (Hpv h), H1, decide_True.
  - destruct Hp as (H1 & H2 & H3). apply NoDup_cons in Hnd as [Hc Hnd].
    rewrite (Hnx b), decide_False, decide_True by done.
    rewrite (Hpv c), H1, decide_True by done. split_and!; [done|done|].
    revert H3. apply path_ext; intros i Hi.
    + rewrite Hnx, !decide_False by set_solver. done.
    + rewrite Hpv, H1, !decide_False by set_solver. done.
Qed.

(** ** Scans *)

(** The first buffer of [l] that passes [test]. *)
Definition first_such (bs : list buf) (test : buf -> bool) (l : list nat) : option nat :=
  List.find (fun i => from_option test false (bs !! i)) l.

Lemma scan_path bs dir test nx pv l : forall x fuel,
  (forall i b, bs !! i = Some b -> dir b = nx i) ->
  path nx pv x l head -> head ∉ l -> (forall i, i ∈ l -> (i < length bs)%nat) ->
  (length l <= fuel)%nat ->
  scan fuel bs dir test (nx x) = Some (first_such bs test l).
Proof.
  induction l as [|y l IH]; intros x fuel Hdir Hp Hh Hl Hf; simpl in *.
  - destruct Hp as [-> _]. by destruct fuel.
  - destruct Hp as (-> & _ & Hp). destruct fuel as [|fuel]; [lia|]. simpl.
    rewrite decide_False by set_solver.
    destruct (lookup_lt_is_Some_2 bs y) as [b Hb]; [apply Hl; set_solver|].
    unfold first_such. simpl. rewrite Hb. simpl.
    destruct (test b); [done|]. rewrite (Hdir y b Hb).
    apply IH; try done; [set_solver|set_solver|lia].
Qed.

Lemma first_such_Some bs test l i :
  first_such bs test l = Some i -> i ∈ l /\ exists b, bs !! i = Some b /\ test b = true.
Proof.
  intros H. apply find_some in H as [H1 H2]. split; [by apply list_elem_of_In|].
  destruct (bs !! i) as [b|]; [|done]. by exists b.
Qed.

Lemma first_such_None bs test l i b :
  first_such bs test l = None -> i ∈ l -> bs !! i = Some b -> test b = false.
Proof.
  intros H Hi Hb. apply list_elem_of_In in Hi. pose proof (find_none _ _ H i Hi) as Hn.
  cbv beta in Hn. by rewrite Hb in Hn.
Qed.

#[global] Arguments scan : simpl never.

(** ** Links of an updated array *)

Lemma nxt_some bs i b : bs !! i = Some b -> next b = nxt bs i.
Proof. unfold nxt. by intros ->. Qed.
Lemma prv_some bs i b : bs !! i = Some b -> prev b = prv bs i.
Proof. unfold prv. by intros ->. Qed.

Lemma nxt_set_next bs i v j : (i < length bs)%nat ->
  nxt (alter (set_next v) i bs) j = if decide (j = i) then v else nxt bs j.
Proof.
  intros Hi. unfold nxt. destruct (decide (j = i)) as [->|Hne].
  - rewrite list_lookup_alter_eq. by destruct (lookup_lt_is_Some_2 bs i Hi) as [b ->].
  - by rewrite list_lookup_alter_ne.
Qed.
Lemma prv_set_prev bs i v j : (i < length bs)%nat ->
  prv (alter (set_prev v) i bs) j = if decide (j = i) then v else prv bs j.
Proof.
  intros Hi. unfold prv. destruct (decide (j = i)) as [->|Hne].
  - rewrite list_lookup_alter_eq. by destruct (lookup_lt_is_Some_2 bs i Hi) as [b ->].
  - by rewrite list_lookup_alter_ne.
Qed.
Lemma nxt_alter_keep bs f i j : (forall b, next (f b) = next b) ->
  nxt (alter f i bs) j = nxt bs j.
Proof.
  intros Hf. unfold nxt. destruct (decide (j = i)) as [->|Hne].
  - rewrite list_lookup_alter_eq. destruct (bs !! i); simpl; [apply Hf|done].
  - by rewrite list_lookup_alter_ne.
Qed.
Lemma prv_alter_keep bs f i j : (forall b, prev (f b) = prev b) ->
  prv (alter f i bs) j = prv bs j.
Proof.
  intros Hf. unfold prv. destruct (decide (j = i)) as [->|Hne].
  - rewrite list_lookup_alter_eq. destruct (bs !! i); simpl; [apply Hf|done].
  - by rewrite list_lookup_alter_ne.
Qed.

(** Evaluate [nxt] and [prv] of a chain of field updates. *)
Ltac links :=
  repeat first
    [ rewrite nxt_set_next by (rewrite ?length_alter; first [assumption|lia])
    | rewrite prv_set_prev by (rewrite ?length_alter; first [assumption|lia])
    | rewrite nxt_alter_keep by done
    | rewrite prv_alter_keep by done ].

Section ops.
Context {D : Type}.
Implicit Types (s : bcache D).

Lemma wp_get_buf i s Q : (i < length (bufs s))%nat ->
  (forall b, bufs s !! i = Some b -> Q b s []) -> wp (get_buf i) s Q.
Proof.
  intros Hi HQ. unfold get_buf. wp_steps.
  destruct (lookup_lt_is_Some_2 _ _ Hi) as [b Hb]. rewrite Hb. wp_steps. by apply HQ.
Qed.

Lemma get_buf_run i b s : bufs s !! i = Some b -> get_buf i s = ([], Ret b s).
Proof. intros H. unfold get_buf. kstep. by rewrite H. Qed.
#[local] Hint Resolve get_buf_run : kernel.

Lemma wp_upd_buf i f s Q : Q tt (set_bufs (alter f i (bufs s)) s) [] -> wp (upd_buf i f) s Q.
Proof. done. Qed.

(** The head of the list is never in it; every other buffer is. *)
Lemma ring_elem bs l i : ring bs l -> i ∈ l <-> (i < NBUF)%nat.
Proof.
  intros [_ Hp _]. rewrite Hp, elem_of_seq. lia.
Qed.
Lemma ring_nodup bs l : ring bs l -> NoDup l.
Proof. intros [_ Hp _]. rewrite Hp. apply NoDup_seq. Qed.
Lemma ring_head bs l : ring bs l -> head ∉ l.
Proof. intros H. rewrite (ring_elem _ _ _ H). unfold head. lia. Qed.
Lemma ring_next_lt bs l i : ring bs l -> (i <= NBUF)%nat ->
  (nxt bs i <= NBUF)%nat /\ (prv bs i <= NBUF)%nat.
Proof.
  intros Hr Hi. pose proof (ring_path _ _ Hr) as Hp.
  assert (forall j, j ∈ l ++ [head] -> (j <= NBUF)%nat) as Hle.
  { intros j [Hj|Hj%list_elem_of_singleton]%elem_of_app.
    - apply (ring_elem _ _ _ Hr) in Hj. lia.
    - subst. unfold head. lia. }
  assert (forall j, j ∈ head :: l -> (j <= NBUF)%nat) as Hle'.
  { intros j [->|Hj]%elem_of_cons; [unfold head; lia|]. apply Hle, elem_of_app. by left. }
  destruct (decide (i = head)) as [->|Hne].
  - apply path_ends in Hp as [H1 H2]. eauto.
  - assert (i ∈ l) as Hin by (apply (ring_elem _ _ _ Hr); unfold head in Hne; lia).
    apply list_elem_of_split in Hin as (l1 & l2 & ->).
    apply path_app in Hp as [[_ H1]%path_ends [H2 _]%path_ends].
    split; [apply Hle|apply Hle'].
    + rewrite <-app_assoc. apply elem_of_app. right. by apply elem_of_cons; right.
    + rewrite app_comm_cons. apply elem_of_app. by left.
Qed.

(** Moving [i] to the front: [brelse]'s six assignments. *)
Definition move_front (i : nat) (bs : list buf) : list buf :=
  let bs1 := alter (set_next (nxt bs i)) (prv bs i) (alter (set_prev (prv bs i)) (nxt bs i) bs) in
  let bs2 := alter (set_prev head) i (alter (set_next (nxt bs1 head)) i bs1) in
  alter (set_next i) head (alter (set_prev i) (nxt bs2 head) bs2).

Lemma ring_move_front bs l1 i l2 :
  ring bs (l1 ++ i :: l2) -> ring (move_front i bs) (i :: l1 ++ l2).
Proof.
  intros Hr. pose proof (ring_len _ _ Hr) as Hlen.
  pose proof (ring_nodup _ _ Hr) as Hnd. pose proof (ring_head _ _ Hr) as Hh.
  assert (i < NBUF)%nat as Hi.
  { apply (ring_elem _ _ _ Hr), elem_of_app. right. by apply elem_of_cons; left. }
  destruct (ring_next_lt _ _ i Hr ltac:(lia)) as [Hn Hp].
  set (bs1 := alter (set_next (nxt bs i)) (prv bs i) (alter (set_prev (prv bs i)) (nxt bs i) bs)).
  assert (path (nxt bs1) (prv bs1) head (l1 ++ l2) head) as Hpath.
  { refine (path_unlink (nxt bs) (prv bs) i l2 head _ _ l1 head (ring_path _ _ Hr) _ Hh _ _).
    - by apply NoDup_cons.
    - intros j. unfold bs1. by links.
    - intros j. unfold bs1. by links. }
  assert (i ∉ l1 ++ l2) as Hil.
  { apply NoDup_app in Hnd as (_ & Hd & Hnd). apply NoDup_cons in Hnd as [Hi2 _].
    intros [Hin|Hin]%elem_of_app; [|done]. apply (Hd i Hin). by apply elem_of_cons; left. }
  assert (head ∉ l1 ++ l2) as Hhl.
  { intros [Hin|Hin]%elem_of_app; apply Hh, elem_of_app; [by left|right].
    by apply elem_of_cons; right. }
  assert (length bs1 = S NBUF) as Hlen1 by (unfold bs1; by rewrite !length_alter).
  assert (nxt bs1 head <= NBUF)%nat as Hn1.
  { apply path_ends in Hpath as [[H|H%list_elem_of_singleton]%elem_of_app _];
      [|by rewrite H].
    assert (nxt bs1 head ∈ l1 ++ i :: l2) as H'.
    { apply elem_of_app in H as [H|H]; apply elem_of_app; [by left|right].
      by apply elem_of_cons; right. }
    apply (ring_elem _ _ _ Hr) in H'. lia. }
  assert (i <> head) as Hih by (unfold head; lia).
  split.
  - unfold move_front. by rewrite !length_alter.
  - rewrite <-(ring_perm _ _ Hr). by rewrite Permutation_middle.
  - apply (path_push (nxt bs1) (prv bs1)); [done|done|done|done| | |].
    + apply NoDup_app in Hnd as (Ha & Hd & Hb). apply NoDup_cons in Hb as [_ Hb].
      apply NoDup_app. split_and!; [done| |done].
      intros x Hx Hx2. apply (Hd x Hx). by apply elem_of_cons; right.
    + intros j. unfold move_front. fold bs1. unfold head in *.
      assert (NBUF < length bs1)%nat by lia. assert (i < length bs1)%nat by lia.
      links. done.
    + intros j. unfold move_front. fold bs1.
      assert (NBUF < length bs1)%nat by lia. assert (i < length bs1)%nat by lia.
      assert (nxt bs1 head < length bs1)%nat by lia.
      replace (nxt (alter (set_prev head) i (alter (set_next (nxt bs1 head)) i bs1)) head)
        with (nxt bs1 head) by (links; by rewrite decide_False by done).
      by links.
Qed.

Lemma set_lock_id s b : b_lock s = b -> set_b_lock b s = s.
Proof. destruct s. by intros <-. Qed.

(** [bget], told by the list: the cached buffer if there is one, otherwise the least
    recently used buffer that is neither busy nor dirty. *)
Definition bget_spec (dv sec : Z) (l : list nat) (s : bcache D)
    : list event * outcome (bcache D) nat :=
  match first_such (bufs s) (is_ident dv sec) l with
  | Some i =>
      if from_option busy false (bufs s !! i) then ([], Stop (Sleeping (ChBuf i)) s)
      else ([], Ret i (set_bufs
             (alter (fun b => set_flags (set (flags b) B_BUSY) b) i (bufs s)) s))
  | None =>
      match first_such (bufs s) is_free (rev l) with
      | Some i => ([], Ret i (set_bufs
          (alter (fun b => set_flags B_BUSY (set_ident dv sec b)) i (bufs s)) s))
      | None => ([], Stop (Panicked "bget: no buffers") (set_b_lock true s))
      end
  end.

Lemma bget_eq dv sec l s :
  b_lock s = false -> ring (bufs s) l -> bget dv sec s = bget_spec dv sec l s.
Proof.
  intros Hl Hr. pose proof (ring_len _ _ Hr) as Hlen.
  assert (forall j, j ∈ l -> (j < length (bufs s))%nat) as Hin.
  { intros j Hj%(ring_elem _ _ _ Hr). lia. }
  destruct (lookup_lt_is_Some_2 (bufs s) head) as [h Hh]; [unfold head; lia|].
  pose proof (Permutation_length (ring_perm _ _ Hr)) as Hll. rewrite length_seq in Hll.
  unfold bget, bget_spec. do 2 kstep_by ltac:(eauto with kernel). kstep. cbn [bufs set_b_lock lput bcache_lock].
  rewrite (nxt_some _ _ _ Hh), (prv_some _ _ _ Hh).
  rewrite (scan_path _ _ _ (nxt (bufs s)) (prv (bufs s)) l);
    [|intros; by apply nxt_some|apply (ring_path _ _ Hr)|by eapply ring_head|done|lia].
  destruct (first_such _ (is_ident dv sec) l) as [i|] eqn:E.
  - apply first_such_Some in E as (Hi & b & Hb & _). rewrite Hb. simpl.
    kstep_by ltac:(eauto with kernel).
    destruct (busy b); simpl.
    + unfold ksleep, set_b_lock. simpl. rewrite <-Hl. by destruct s.
    + kstep. kstep_by ltac:(eauto with kernel). unfold kret, set_bufs, set_b_lock. simpl.
      by rewrite <-Hl.
  - rewrite (scan_path _ _ _ (prv (bufs s)) (nxt (bufs s)) (rev l));
      [|intros; by apply prv_some|apply path_rev, (ring_path _ _ Hr)| | |].
    + destruct (first_such _ is_free (rev l)) as [i|]; [|done]. do 2 kstep.
      kstep_by ltac:(eauto with kernel). unfold kret, set_bufs, set_b_lock. simpl.
      by rewrite alter_alter, <-Hl.
    + rewrite list_elem_of_In, <-in_rev, <-list_elem_of_In. by eapply ring_head.
    + intros j. rewrite list_elem_of_In, <-in_rev, <-list_elem_of_In. apply Hin.
    + rewrite length_rev. lia.
Qed.

(** [brelse], told by the list. *)
Lemma brelse_eq i b l s :
  b_lock s = false -> ring (bufs s) l -> (i < NBUF)%nat ->
  bufs s !! i = Some b -> busy b = true ->
  brelse i s = ([Wakeup (ChBuf i)],
    Ret tt (set_bufs (alter (fun b => set_flags (clr (flags b) B_BUSY) b) i
                        (move_front i (bufs s))) s)).
Proof.
  intros Hl Hr Hi Hb Hbusy. pose proof (ring_len _ _ Hr) as Hlen.
  unfold brelse. kstep_by ltac:(eauto with kernel). rewrite Hbusy. cbv beta iota delta [negb].
  do 2 kstep_by ltac:(eauto with kernel). do 2 kstep. cbn [bufs set_bufs set_b_lock lput bcache_lock].
  rewrite (nxt_some _ _ _ Hb), (prv_some _ _ _ Hb).
  set (bs1 := alter (set_next _) _ _).
  destruct (lookup_lt_is_Some_2 bs1 head) as [h Hh].
  { unfold bs1, head. rewrite !length_alter. lia. }
  kstep_by ltac:(by apply get_buf_run). do 2 kstep. cbn [bufs set_bufs set_b_lock].
  rewrite (nxt_some _ _ _ Hh). set (bs2 := alter (set_prev head) _ _).
  destruct (lookup_lt_is_Some_2 bs2 head) as [h' Hh'].
  { unfold bs2, bs1, head. rewrite !length_alter. lia. }
  kstep_by ltac:(by apply get_buf_run). do 3 kstep. rewrite (nxt_some _ _ _ Hh').
  erewrite kbind_run; [|reflexivity|by apply release_run]. simpl app. unfold set_bufs, set_b_lock, move_front.
  fold bs1. fold bs2. simpl. by rewrite <-Hl.
Qed.

(** What [binit]'s loop has built after [k] turns. *)
Definition linked (bs0 : list buf) (k : nat) (bs : list buf) : Prop :=
  length bs = S NBUF /\ path (nxt bs) (prv bs) head (rev (seq 0 k)) head /\
  forall i b, (i < NBUF)%nat -> bs !! i = Some b ->
    ((i < k)%nat -> dev b = NODEV) /\
    exists b0, bs0 !! i = Some b0 /\ flags b = flags b0 /\ bdata b = bdata b0.

(** Linking buffer [k] behind the head. *)
Definition link_front (k : nat) (bs : list buf) : list buf :=
  let bs1 := alter (fun b => set_ident NODEV (sector b) b) k
    (alter (set_prev head) k (alter (set_next (nxt bs head)) k bs)) in
  alter (set_next k) head (alter (set_prev k) (nxt bs1 head) bs1).

Lemma binit_one_eq k s : length (bufs s) = S NBUF -> (k < NBUF)%nat ->
  binit_one k s = ([], Ret tt (set_bufs (link_front k (bufs s)) s)).
Proof.
  intros Hlen Hk. unfold binit_one.
  destruct (lookup_lt_is_Some_2 (bufs s) head) as [h Hh]; [unfold head; lia|].
  kstep_by ltac:(by apply get_buf_run). do 3 kstep. cbn [bufs set_bufs].
  rewrite (nxt_some _ _ _ Hh). set (bs1 := alter (fun b => set_ident NODEV _ _) _ _).
  destruct (lookup_lt_is_Some_2 bs1 head) as [h' Hh'].
  { unfold bs1, head. rewrite !length_alter. lia. }
  kstep_by ltac:(by apply get_buf_run). kstep. rewrite (nxt_some _ _ _ Hh'). done.
Qed.

Lemma linked_front bs0 k bs :
  linked bs0 k bs -> (k < NBUF)%nat -> linked bs0 (S k) (link_front k bs).
Proof.
  intros (Hlen & Hp & Hd) Hk.
  assert (k <> head) as Hkh by (unfold head; lia).
  assert (forall j, j ∈ rev (seq 0 k) -> (j < k)%nat) as Hin.
  { intros j. rewrite list_elem_of_In, <-in_rev, in_seq. lia. }
  assert (nxt bs head < S NBUF)%nat as Hn.
  { apply path_ends in Hp as [[H%Hin|H%list_elem_of_singleton]%elem_of_app _]; [lia|].
    rewrite H. unfold head. lia. }
  assert (NBUF < length bs)%nat by lia. assert (k < length bs)%nat by lia.
  assert (nxt bs head < length bs)%nat by lia.
  split_and!.
  - unfold link_front. by rewrite !length_alter.
  - rewrite seq_S, rev_app_distr. simpl.
    apply (path_push (nxt bs) (prv bs)); [done| |done| | | |].
    + intros ?%Hin. lia.
    + intros Hh%Hin. unfold head in Hh. lia.
    + apply NoDup_ListNoDup, List.NoDup_rev, NoDup_ListNoDup, NoDup_seq.
    + intros j. unfold link_front, head. by links.
    + intros j. unfold link_front.
      set (bs1 := alter (fun b => set_ident NODEV _ _) _ _).
      assert (nxt bs1 head = nxt bs head) as ->.
      { unfold bs1. links. by rewrite decide_False by done. }
      unfold bs1. by links.
  - intros i b Hi Hb. unfold link_front in Hb.
    set (bs1 := alter (fun b => set_ident NODEV _ _) _ _) in Hb.
    rewrite list_lookup_alter_ne in Hb by (unfold head; lia).
    assert (exists b1, bs1 !! i = Some b1 /\ dev b = dev b1 /\ flags b = flags b1 /\
              bdata b = bdata b1) as (b1 & Hb1 & -> & -> & ->).
    { destruct (decide (nxt bs1 head = i)) as [<-|Hne].
      - rewrite list_lookup_alter_eq in Hb.
        destruct (bs1 !! _) as [b1|]; [|done]. injection Hb as <-. by exists b1.
      - rewrite list_lookup_alter_ne in Hb by done. by exists b. }
    clear Hb b. unfold bs1 in Hb1. rewrite !alter_alter in Hb1.
    destruct (decide (k = i)) as [<-|Hne].
    + rewrite list_lookup_alter_eq in Hb1. destruct (bs !! k) as [b0|] eqn:E; [|done].
      injection Hb1 as <-. simpl. split; [done|]. by apply (Hd k b0).
    + rewrite list_lookup_alter_ne in Hb1 by done. destruct (Hd i b1 Hi Hb1) as [Hd1 Hd2].
      split; [|done]. intros Hik. apply Hd1. lia.
Qed.

Lemma binit_eq s : length (bufs s) = S NBUF ->
  wp binit s (fun _ s' t => t = [] /\ b_lock s' = false /\ disk s' = disk s /\
                linked (bufs s) NBUF (bufs s')).
Proof.
  intros Hlen. unfold binit.
  do 3 (apply wp_bind, wp_mod). eapply wp_mono.
  - apply (wp_for_each _ _ (fun k s' t => t = [] /\ b_lock s' = false /\ disk s' = disk s /\
             linked (bufs s) k (bufs s'))).
    + simpl. split_and!; [done..|]. unfold linked.
      assert (NBUF < length (bufs s))%nat by lia.
      split_and!.
      * by rewrite !length_alter.
      * simpl. unfold head. links. by rewrite !decide_True.
      * intros i b Hi Hb. rewrite !list_lookup_alter_ne in Hb by (unfold head; lia).
        split; [lia|]. by exists b.
    + intros k x s1 t1 Hx (-> & H1 & H2 & H3).
      apply lookup_seq in Hx as [-> Hk]. simpl.
      eapply wp_of_run; [apply binit_one_eq; [apply H3|done]|]. simpl.
      split_and!; [done..|]. by apply linked_front.
  - cbv beta. intros _ s' t H. by rewrite length_seq in H.
Qed.
(** * Claims *)

(** C5. [bget] is a least-recently-used cache.  Over a ring of buffers in
    most-recently-used order [l], it returns the buffer already given to the sector, or
    sleeps on it with the lock released when another process holds it; otherwise it takes
    the least recently used buffer that is neither busy nor dirty, gives it to the sector
    and marks it busy and not valid; and it panics, holding the lock, exactly when every
    buffer is busy or dirty. *)
Theorem bget_recycles_lru dv sec l s :
  b_lock s = false -> ring (bufs s) l ->
  bget dv sec s =
    match first_such (bufs s) (fun b => (dev b =? dv) && (sector b =? sec))%bool l with
    | Some i =>
        if from_option busy false (bufs s !! i) then ([], Stop (Sleeping (ChBuf i)) s)
        else ([], Ret i (set_bufs
               (alter (fun b => set_flags (set (flags b) B_BUSY) b) i (bufs s)) s))
    | None =>
        match first_such (bufs s) (fun b => negb (busy b) && negb (dirty b))%bool (rev l) with
        | Some i => ([], Ret i (set_bufs
            (alter (fun b => set_flags B_BUSY (set_ident dv sec b)) i (bufs s)) s))
        | None => ([], Stop (Panicked "bget: no buffers") (set_b_lock true s))
        end
    end.
Proof. apply bget_eq. Qed.

End ops.

(** A cache just started, with nothing behind it. *)
Definition started : bcache unit :=
  final (binit (Bcache false (replicate (S NBUF) (Buf 0 0 0 0 0 [])) tt)).2.

Lemma started_ring : b_lock started = false /\ ring (bufs started) (rev (seq 0 NBUF)).
Proof.
  destruct (wp_run _ _ _ (binit_eq (Bcache false (replicate (S NBUF) (Buf 0 0 0 0 0 [])) tt) eq_refl))
    as (u & s & t & E & _ & Hl & _ & H1 & H2 & _).
  unfold started. rewrite E. split; [done|]. split; [done|symmetry; apply Permutation_rev|done].
Qed.

Lemma bget_recycles_lru_witness : exists s1, bget 1 3 started = ([], Ret 0%nat s1).
Proof.
  destruct started_ring as [Hl Hr].
  rewrite (bget_recycles_lru 1 3 (rev (seq 0 NBUF)) started Hl Hr).
  eexists. vm_compute. reflexivity.
Defined.
