(* ===== verification/Cache.v ===== *)
(** * What the buffer cache promises to its clients

    The clients of kernel/bio.c (the log and the file systems) see a block device
    with a write-back cache in front of it.  A sector is named by a key (device,
    sector number), and a state of the cache is summed up by four functions of the
    key: [view] (the contents a [bread] returns), the sector on the disk, and whether
    a process holds the buffer ([busyk]) or the log has pinned it ([dirtyk]).  The
    specifications [bread_wp], [bwrite_wp], [brelse_wp] and [set_data_wp] speak of
    these only: which buffer is recycled is invisible. *)

From stdpp Require Import base list strings sets sorting.
From Stdlib Require Import ZArith Lia.
From S2P Require Import Prelude CString Bytes Spinlock Disk Bio.
Open Scope Z_scope.

Definition key : Type := Z * Z.
Definition entry : Type := Z * list Z.           (* flags, data *)
Definition bkey (b : buf) : key := (dev b, sector b).

(** A buffer without its links. *)
Definition info (b : buf) : key * entry := (bkey b, (flags b, bdata b)).

Definition fbusy (f : Z) : bool := has f B_BUSY.
Definition fvalid (f : Z) : bool := has f B_VALID.
Definition fdirty (f : Z) : bool := has f B_DIRTY.

(** What buffer [i] caches, once it has been given to a sector. *)
Definition entry_at (bs : list buf) (i : nat) : option (key * entry) :=
  if decide (i < NBUF)%nat then
    match bs !! i with
    | Some b => if dev b =? NODEV then None else Some (bkey b, (flags b, bdata b))
    | None => None
    end
  else None.

Definition entries (bs : list buf) : list (key * entry) := omap (entry_at bs) (seq 0 NBUF).

(** The first pair with a given first component. *)
Definition assoc {A B} `{EqDecision A} (k : A) (l : list (A * B)) : option B :=
  snd <$> List.find (fun p => bool_decide (p.1 = k)) l.

Lemma assoc_Some {A B} `{EqDecision A} (k : A) (l : list (A * B)) e :
  assoc k l = Some e -> (k, e) ∈ l.
Proof.
  unfold assoc. destruct (List.find _ l) as [[k' e']|] eqn:E; [|done]. intros [= <-].
  apply find_some in E as [Hin Hk]. apply bool_decide_eq_true in Hk. simpl in Hk. subst k'.
  by apply list_elem_of_In.
Qed.

Lemma assoc_None {A B} `{EqDecision A} (k : A) (l : list (A * B)) e :
  assoc k l = None -> (k, e) ∉ l.
Proof.
  unfold assoc. destruct (List.find _ l) eqn:E; [done|]. intros _ Hin%list_elem_of_In.
  apply (find_none _ _ E) in Hin. simpl in Hin. by apply bool_decide_eq_false in Hin.
Qed.

Definition cached (bs : list buf) (k : key) : option entry := assoc k (entries bs).

(** No sector is in two buffers. *)
Definition uniq (bs : list buf) : Prop := forall i j k e e',
  entry_at bs i = Some (k, e) -> entry_at bs j = Some (k, e') -> i = j.

Lemma entry_at_entries bs p : p ∈ entries bs <-> exists i, entry_at bs i = Some p.
Proof.
  unfold entries. rewrite list_elem_of_omap. split.
  - intros (i & _ & H). by exists i.
  - intros [i H]. exists i. split; [|done]. apply elem_of_seq.
    unfold entry_at in H. destruct (decide (i < NBUF)%nat); [lia|done].
Qed.

Lemma cached_in bs k e : cached bs k = Some e -> (k, e) ∈ entries bs.
Proof. unfold cached. generalize (entries bs). intros l. apply assoc_Some. Qed.

#[global] Opaque entries.

Lemma cached_None bs k : cached bs k = None <-> forall i e, entry_at bs i <> Some (k, e).
Proof.
  split.
  - intros H i e He. assert ((k, e) ∈ entries bs) as Hin.
    { apply entry_at_entries. by exists i. }
    revert H Hin. unfold cached. generalize (entries bs). intros l. apply assoc_None.
  - intros H. destruct (cached bs k) as [e|] eqn:E; [|done]. exfalso.
    apply cached_in, entry_at_entries in E as [i Hi].
    by apply (H i e).
Qed.

Lemma cached_Some bs k e : uniq bs ->
  cached bs k = Some e <-> exists i, entry_at bs i = Some (k, e).
Proof.
  intros Hu. split; [intros H; by apply entry_at_entries, cached_in|].
  intros [i Hi]. destruct (cached bs k) as [e'|] eqn:E.
  - apply cached_in, entry_at_entries in E as [j Hj].
    pose proof (Hu i j k e e' Hi Hj) as ->. congruence.
  - exfalso. by apply (proj1 (cached_None bs k) E i e).
Qed.

(** Replacing what buffer [i] caches. *)
Lemma cached_change bs bs' i k' e' : uniq bs ->
  (forall j, j <> i -> entry_at bs' j = entry_at bs j) ->
  entry_at bs' i = Some (k', e') ->
  (forall j e, entry_at bs j = Some (k', e) -> j = i) ->
  uniq bs' /\ forall k, cached bs' k =
    if decide (k = k') then Some e'
    else if decide (fst <$> entry_at bs i = Some k) then None else cached bs k.
Proof.
  intros Hu Hj Hi Hk.
  assert (uniq bs') as Hu'.
  { intros a b k ea eb Ha Hb. destruct (decide (a = i)) as [->|Na], (decide (b = i)) as [->|Nb].
    - done.
    - rewrite Hj in Hb by done. rewrite Hi in Ha. injection Ha as -> ->. symmetry. eauto.
    - rewrite Hj in Ha by done. rewrite Hi in Hb. injection Hb as -> ->. eauto.
    - rewrite Hj in Ha, Hb by done. eauto. }
  split; [done|]. intros k. destruct (decide (k = k')) as [->|Hne].
  { apply cached_Some; [done|]. by exists i. }
  destruct (decide _) as [Hf|Hf].
  - apply cached_None. intros j e He. destruct (decide (j = i)) as [->|Nj]; [congruence|].
    rewrite Hj in He by done.
    destruct (entry_at bs i) as [[k1 e1]|] eqn:E; [|done]. simpl in Hf. injection Hf as ->.
    by pose proof (Hu _ _ _ _ _ He E).
  - destruct (cached bs k) as [e|] eqn:E.
    + apply (cached_Some _ _ _ Hu) in E as [j E]. apply cached_Some; [done|]. exists j.
      rewrite Hj; [done|]. intros ->. rewrite E in Hf. done.
    + apply cached_None. intros j e He. destruct (decide (j = i)) as [->|Nj]; [congruence|].
      rewrite Hj in He by done. by apply (proj1 (cached_None bs k) E j e).
Qed.

Section spec.
Context {D : Type} `{HD : Driver D} `{HS : !DriverSpec D}.
Implicit Types (s : bcache D).

Definition usable (d : D) (k : key) : Prop :=
  online d k.1 k.2 /\ (GETDEVTYPE k.1 = DEV_IDE \/ GETDEVTYPE k.1 = DEV_SATA).

Definition entry_ok (d : D) (k : key) (e : entry) : Prop :=
  usable d k /\ length e.2 = SECTOR_SIZE /\
  (fvalid e.1 = true \/ (fbusy e.1 = false /\ fdirty e.1 = false)) /\
  (fvalid e.1 = true -> fbusy e.1 = false -> fdirty e.1 = false -> e.2 = blocks d k.1 k.2).

(** The invariant of the cache between operations. *)
Record wf s : Prop := {
  wf_lock : b_lock s = false;
  wf_ring : exists l, ring (bufs s) l;
  wf_uniq : uniq (bufs s);
  wf_entry : forall k e, cached (bufs s) k = Some e -> entry_ok (disk s) k e;
  wf_fresh : forall i b, (i < NBUF)%nat -> bufs s !! i = Some b -> dev b = NODEV ->
    busy b = false /\ dirty b = false;
}.

Definition view s (k : key) : list Z :=
  match cached (bufs s) k with
  | Some (f, d) => if fvalid f then d else blocks (disk s) k.1 k.2
  | None => blocks (disk s) k.1 k.2
  end.
Definition on_disk s (k : key) : list Z := blocks (disk s) k.1 k.2.
Definition busyk s (k : key) : bool :=
  match cached (bufs s) k with Some (f, _) => fbusy f | None => false end.
Definition dirtyk s (k : key) : bool :=
  match cached (bufs s) k with Some (f, _) => fdirty f | None => false end.

(** A process holds buffer [i], which caches [k]. *)
Definition holds s (i : nat) (k : key) : Prop :=
  exists e, entry_at (bufs s) i = Some (k, e) /\ fbusy e.1 = true.

(** Every buffer that cannot be recycled is one of [L]. *)
Definition only s (L : list key) : Prop :=
  forall k, busyk s k = true \/ dirtyk s k = true -> k ∈ L.

Lemma usable_nodev d k : usable d k -> k.1 <> NODEV.
Proof. intros [_ [H|H]] E; rewrite E in H; discriminate H. Qed.

Lemma same_disk_usable d d' k : same_disk d d' -> usable d k -> usable d' k.
Proof. intros [_ Ho] [Hk Ht]. split; [by apply Ho|done]. Qed.

(** ** Updating one buffer in place *)

Lemma alter_insert {A} (f : A -> A) i (l : list A) x :
  l !! i = Some x -> alter f i l = <[i := f x]> l.
Proof.
  revert i. induction l as [|y l IH]; intros [|i]; simpl; [done..|by intros [= ->]|].
  intros H. f_equal. by apply IH.
Qed.

Lemma ring_insert bs l i b b' : ring bs l -> bs !! i = Some b ->
  next b' = next b -> prev b' = prev b -> ring (<[i := b']> bs) l.
Proof.
  intros [Hlen Hp Hpath] Hb Hn Hv. split; [by rewrite length_insert|done|].
  revert Hpath. apply path_ext; intros j _; unfold nxt, prv;
    (destruct (decide (i = j)) as [<-|Hne];
     [rewrite list_lookup_insert_eq by (by eapply lookup_lt_Some); rewrite Hb; done
     |by rewrite list_lookup_insert_ne]).
Qed.

Lemma entry_at_insert_ne bs i j b : j <> i -> entry_at (<[i := b]> bs) j = entry_at bs j.
Proof. intros Hne. unfold entry_at. by rewrite list_lookup_insert_ne. Qed.

Lemma entry_at_some bs i b : (i < NBUF)%nat -> bs !! i = Some b -> dev b <> NODEV ->
  entry_at bs i = Some (bkey b, (flags b, bdata b)).
Proof.
  intros Hi Hb Hd. unfold entry_at. rewrite decide_True, Hb by done.
  by rewrite (proj2 (Z.eqb_neq _ _)).
Qed.

Lemma entry_at_inv bs i k e : entry_at bs i = Some (k, e) ->
  exists b, (i < NBUF)%nat /\ bs !! i = Some b /\ dev b <> NODEV /\ k = bkey b /\
    e = (flags b, bdata b).
Proof.
  unfold entry_at. destruct (decide _); [|done]. destruct (bs !! i) as [b|]; [|done].
  destruct (Z.eqb_spec (dev b) NODEV); [done|]. intros [= <- <-]. by exists b.
Qed.

Lemma entry_at_insert bs i b : (i < NBUF)%nat -> (i < length bs)%nat -> dev b <> NODEV ->
  entry_at (<[i := b]> bs) i = Some (bkey b, (flags b, bdata b)).
Proof. intros. apply entry_at_some; [done|by apply list_lookup_insert_eq|done]. Qed.

(** Buffer [i], which cached [b], now caches [b']: the state [s'] after a step that
    touches no other buffer, gives a sector it already cached or one that was not
    cached at all, and takes nobody's buffer away. *)
Record swap s s' (i : nat) (b b' : buf) : Prop := {
  sw_lt : (i < NBUF)%nat;
  sw_old : bufs s !! i = Some b;
  sw_info : forall j, j <> i -> (j < NBUF)%nat -> info <$> bufs s' !! j = info <$> bufs s !! j;
  sw_info_i : info <$> bufs s' !! i = Some (info b');
  sw_ring : exists l, ring (bufs s') l;
  sw_lock : b_lock s' = false;
  sw_usable : usable (disk s') (bkey b');
  sw_key : bkey b = bkey b' \/
    (cached (bufs s) (bkey b') = None /\ busy b = false /\ dirty b = false);
}.

Lemma entry_at_info bs i : entry_at bs i =
  if decide (i < NBUF)%nat then
    match info <$> bs !! i with
    | Some p => if p.1.1 =? NODEV then None else Some p
    | None => None
    end
  else None.
Proof. unfold entry_at. by destruct (bs !! i). Qed.

Lemma sw_new s s' i b b' j : swap s s' i b b' -> j <> i ->
  entry_at (bufs s') j = entry_at (bufs s) j.
Proof.
  intros Hs Hj. rewrite !entry_at_info. destruct (decide _); [|done].
  by rewrite (sw_info _ _ _ _ _ Hs).
Qed.

Lemma sw_i s s' i b b' : swap s s' i b b' -> entry_at (bufs s') i = Some (info b').
Proof.
  intros Hs. rewrite entry_at_info, decide_True by apply Hs.
  rewrite (sw_info_i _ _ _ _ _ Hs). simpl.
  pose proof (usable_nodev _ _ (sw_usable _ _ _ _ _ Hs)) as Hn.
  change (dev b' <> NODEV) in Hn. by rewrite (proj2 (Z.eqb_neq _ _) Hn).
Qed.

Lemma swap_cached s s' i b b' : wf s -> swap s s' i b b' ->
  uniq (bufs s') /\ forall k, cached (bufs s') k =
    if decide (k = bkey b') then Some (flags b', bdata b')
    else if decide (fst <$> entry_at (bufs s) i = Some k) then None else cached (bufs s) k.
Proof.
  intros Hwf Hs. apply cached_change; [apply Hwf|intros; by eapply sw_new|by eapply sw_i|].
  intros j e Hj. destruct (sw_key _ _ _ _ _ Hs) as [Hk|[Hk _]].
  - assert (entry_at (bufs s) i = Some (bkey b, (flags b, bdata b))) as Hi.
    { apply entry_at_some; [apply Hs|apply Hs|].
      change (dev b) with ((bkey b).1). rewrite Hk.
      eapply usable_nodev, (sw_usable _ _ _ _ _ Hs). }
    rewrite Hk in Hi. by apply (wf_uniq _ Hwf _ _ _ _ _ Hj Hi).
  - exfalso. by apply (proj1 (cached_None _ _) Hk j e).
Qed.

Lemma swap_cached_same s s' i b b' : wf s -> swap s s' i b b' ->
  cached (bufs s') (bkey b') = Some (flags b', bdata b').
Proof.
  intros Hwf Hs. destruct (swap_cached _ _ _ _ _ Hwf Hs) as [Hu _].
  apply cached_Some; [done|]. exists i. by eapply sw_i.
Qed.

(** What the step does to a key: the new key reads [b'], the key evicted (if any) was
    clean and reads the disk, the others are as they were. *)
Lemma swap_other s s' i b b' k : wf s -> swap s s' i b b' -> k <> bkey b' ->
  busyk s' k = busyk s k /\ dirtyk s' k = dirtyk s k /\
  (blocks (disk s') k.1 k.2 = blocks (disk s) k.1 k.2 -> view s' k = view s k).
Proof.
  intros Hwf Hs Hk. destruct (swap_cached _ _ _ _ _ Hwf Hs) as [_ Hc].
  unfold busyk, dirtyk, view. rewrite (Hc k), decide_False by done.
  destruct (decide _) as [Hf|_].
  2: { split_and!; [done..|]. by intros ->. }
  destruct (entry_at (bufs s) i) as [[k1 [f d]]|] eqn:E; [|done].
  simpl in Hf. injection Hf as ->.
  assert (cached (bufs s) k = Some (f, d)) as Hck.
  { apply cached_Some; [apply Hwf|]. by exists i. }
  destruct (entry_at_inv _ _ _ _ E) as (b1 & _ & Hb1 & _ & -> & Heq).
  rewrite (sw_old _ _ _ _ _ Hs) in Hb1. injection Hb1 as <-. injection Heq as -> ->.
  rewrite Hck. destruct (sw_key _ _ _ _ _ Hs) as [?|(_ & Hb & Hd)]; [done|].
  change (fbusy (flags b)) with (busy b). change (fdirty (flags b)) with (dirty b).
  rewrite Hb, Hd. split_and!; [done..|]. intros ->.
  destruct (fvalid (flags b)) eqn:Hv; [|done].
  symmetry. by apply (wf_entry _ Hwf _ _ Hck).
Qed.

Lemma swap_holds s s' i b b' j k : wf s -> swap s s' i b b' ->
  holds s j k -> (k = bkey b' -> busy b' = true) -> holds s' j k.
Proof.
  intros Hwf Hs (e & He & Hbz) Hb'. destruct (decide (j = i)) as [->|Hne].
  - destruct (entry_at_inv _ _ _ _ He) as (b1 & _ & Hb1 & _ & -> & ->).
    rewrite (sw_old _ _ _ _ _ Hs) in Hb1. injection Hb1 as <-.
    destruct (sw_key _ _ _ _ _ Hs) as [Hk|(_ & Hb & _)].
    + exists (flags b', bdata b'). rewrite Hk. split; [by eapply sw_i|by apply Hb'].
    + simpl in Hbz. change (busy b = true) in Hbz. congruence.
  - exists e. by rewrite (sw_new _ _ _ _ _ _ Hs Hne).
Qed.

Lemma swap_wf s s' i b b' : wf s -> swap s s' i b b' ->
  (forall k, usable (disk s) k -> usable (disk s') k) ->
  (forall k, k <> bkey b' -> blocks (disk s') k.1 k.2 = blocks (disk s) k.1 k.2) ->
  entry_ok (disk s') (bkey b') (flags b', bdata b') -> wf s'.
Proof.
  intros Hwf Hs Hu Hblk Hok. destruct (swap_cached _ _ _ _ _ Hwf Hs) as [Huq Hc].
  split; [apply Hs|apply Hs|done| |].
  - intros k e. rewrite Hc. destruct (decide (k = bkey b')) as [->|Hk]; [by intros [= <-]|].
    destruct (decide _); [done|]. intros Hke.
    destruct (wf_entry _ Hwf _ _ Hke) as (H1 & H2 & H3 & H4).
    split_and!; [by apply Hu|done|done|]. intros. rewrite Hblk by done. by apply H4.
  - intros j c Hj Hcj Hd. destruct (decide (j = i)) as [->|Hne].
    + pose proof (sw_info_i _ _ _ _ _ Hs) as Hi. rewrite Hcj in Hi. injection Hi as Hi _ _ _.
      destruct (usable_nodev _ _ (sw_usable _ _ _ _ _ Hs)). simpl. congruence.
    + pose proof (sw_info _ _ _ _ _ Hs j Hne Hj) as Hn. rewrite Hcj in Hn. symmetry in Hn.
      apply fmap_Some in Hn as (c0 & Hc0 & Heq). injection Heq as E1 E2 E3 E4.
      destruct (wf_fresh _ Hwf j c0 Hj Hc0) as [Ha Hb]; [congruence|].
      unfold busy, dirty in *. by rewrite E3.
Qed.

(** ** Reading *)

Lemma wf_lookup s i : wf s -> (i < NBUF)%nat -> exists b, bufs s !! i = Some b.
Proof.
  intros Hwf Hi. destruct (wf_ring _ Hwf) as [l Hl]. apply lookup_lt_is_Some_2.
  rewrite (ring_len _ _ Hl). lia.
Qed.

(** A pinned buffer has been given to a sector. *)
Lemma pinned_entry s i b : wf s -> (i < NBUF)%nat -> bufs s !! i = Some b ->
  is_free b = false -> entry_at (bufs s) i = Some (info b) /\
    (busyk s (bkey b) = true \/ dirtyk s (bkey b) = true).
Proof.
  intros Hwf Hi Hb Hf. unfold is_free in Hf.
  assert (dev b <> NODEV) as Hd.
  { intros Hd. destruct (wf_fresh _ Hwf i b Hi Hb Hd) as [H1 H2].
    by rewrite H1, H2 in Hf. }
  pose proof (entry_at_some _ _ _ Hi Hb Hd) as He. split; [done|].
  assert (cached (bufs s) (bkey b) = Some (flags b, bdata b)) as Hc.
  { apply cached_Some; [apply Hwf|]. by exists i. }
  unfold busyk, dirtyk. rewrite Hc.
  change (fbusy (flags b)) with (busy b). change (fdirty (flags b)) with (dirty b).
  destruct (busy b), (dirty b); simpl in Hf; auto.
Qed.

Lemma free_exists s L : wf s -> only s L -> (length L < NBUF)%nat ->
  exists i b, (i < NBUF)%nat /\ bufs s !! i = Some b /\ is_free b = true.
Proof.
  intros Hwf Ho HL.
  destruct (first_such (bufs s) is_free (seq 0 NBUF)) as [i|] eqn:E.
  { apply first_such_Some in E as (Hi%elem_of_seq & b & Hb & Hf).
    exists i, b. split_and!; [lia|done|done]. }
  exfalso. set (ks := (fun i => from_option bkey (0, 0) (bufs s !! i)) <$> seq 0 NBUF).
  assert (forall i, i ∈ seq 0 NBUF -> exists b, (i < NBUF)%nat /\ bufs s !! i = Some b /\
            entry_at (bufs s) i = Some (info b) /\
            (busyk s (bkey b) = true \/ dirtyk s (bkey b) = true)) as Hall.
  { intros i Hi. pose proof Hi as Hi'. apply elem_of_seq in Hi'.
    destruct (wf_lookup s i Hwf) as [b Hb]; [lia|]. exists b.
    split; [lia|]. split; [done|]. apply pinned_entry; [done|lia|done|].
    by eapply first_such_None. }
  assert (NoDup ks) as Hnd.
  { apply NoDup_fmap_2_strong; [|apply NoDup_seq]. intros i j Hi Hj Hij.
    destruct (Hall i Hi) as (bi & _ & Hbi & Hei & _).
    destruct (Hall j Hj) as (bj & _ & Hbj & Hej & _).
    rewrite Hbi, Hbj in Hij. simpl in Hij. unfold info in Hei. rewrite Hij in Hei.
    by apply (wf_uniq _ Hwf _ _ _ _ _ Hei Hej). }
  assert (ks ⊆ L) as Hsub.
  { intros k (i & -> & Hi)%list_elem_of_fmap. destruct (Hall i Hi) as (b & _ & Hb & _ & Hp).
    rewrite Hb. by apply Ho. }
  apply NoDup_submseteq in Hsub; [|done]. apply submseteq_length in Hsub.
  unfold ks in Hsub. rewrite length_fmap, length_seq in Hsub. lia.
Qed.

Lemma set_bufs_insert s i b f : bufs s !! i = Some b ->
  set_bufs (alter f i (bufs s)) s = set_bufs (<[i := f b]> (bufs s)) s.
Proof. intros H. by rewrite (alter_insert _ _ _ b). Qed.

(** [bget] when the block is not held and some buffer is free (or the block is cached):
    the buffer it returns, and what it held before. *)
Lemma bget_ok dv sec s L : wf s -> usable (disk s) (dv, sec) -> busyk s (dv, sec) = false ->
  only s L -> (length L < NBUF)%nat \/ dirtyk s (dv, sec) = true ->
  exists i b, (i < NBUF)%nat /\ bufs s !! i = Some b /\
    ((cached (bufs s) (dv, sec) = Some (flags b, bdata b) /\ bkey b = (dv, sec) /\
      bget dv sec s = ([], Ret i (set_bufs
        (<[i := set_flags (set (flags b) B_BUSY) b]> (bufs s)) s))) \/
     (cached (bufs s) (dv, sec) = None /\ busy b = false /\ dirty b = false /\
      bget dv sec s = ([], Ret i (set_bufs
        (<[i := set_flags B_BUSY (set_ident dv sec b)]> (bufs s)) s)))).
Proof.
  intros Hwf Hu Hnb Ho HL. destruct (wf_ring _ Hwf) as [l Hr].
  rewrite (bget_eq _ _ l) by (apply Hwf || done). unfold bget_spec.
  destruct (first_such _ (is_ident dv sec) l) as [i|] eqn:E.
  - apply first_such_Some in E as (Hi & b & Hb & Hid). rewrite (ring_elem _ _ _ Hr) in Hi.
    unfold is_ident in Hid. apply andb_true_iff in Hid as [H1%Z.eqb_eq H2%Z.eqb_eq].
    assert (bkey b = (dv, sec)) as Hk by (unfold bkey; congruence).
    assert (dev b <> NODEV) as Hd.
    { change (dev b) with (bkey b).1. rewrite Hk. by eapply usable_nodev. }
    pose proof (entry_at_some _ _ _ Hi Hb Hd) as He. rewrite Hk in He.
    assert (cached (bufs s) (dv, sec) = Some (flags b, bdata b)) as Hc.
    { apply cached_Some; [apply Hwf|]. by exists i. }
    exists i, b. split_and!; [done|done|]. left. split_and!; [done|done|].
    rewrite Hb. simpl. unfold busyk in Hnb. rewrite Hc in Hnb.
    change (fbusy (flags b)) with (busy b) in Hnb. rewrite Hnb.
    by rewrite (set_bufs_insert _ _ b).
  - assert (cached (bufs s) (dv, sec) = None) as Hc.
    { apply cached_None. intros i e He. apply entry_at_inv in He as (b & Hi & Hb & _ & Hk & _).
      assert (is_ident dv sec b = false) as Hid.
      { eapply first_such_None; [apply E| |done]. by apply (ring_elem _ _ _ Hr). }
      injection Hk as -> ->. unfold is_ident in Hid. by rewrite !Z.eqb_refl in Hid. }
    destruct HL as [HL|HL]; [|unfold dirtyk in HL; by rewrite Hc in HL].
    destruct (free_exists s L Hwf Ho HL) as (i0 & b0 & Hi0 & Hb0 & Hf0).
    destruct (first_such _ is_free (rev l)) as [i|] eqn:E2.
    + apply first_such_Some in E2 as (Hi & b & Hb & Hf).
      rewrite list_elem_of_In, <-in_rev, <-list_elem_of_In, (ring_elem _ _ _ Hr) in Hi.
      unfold is_free in Hf. apply andb_true_iff in Hf as [H1%negb_true_iff H2%negb_true_iff].
      exists i, b. split_and!; [done|done|]. right. split_and!; [done..|].
      by rewrite (set_bufs_insert _ _ b).
    + exfalso. apply (first_such_None _ _ _ i0 b0) in E2; [congruence| |done].
      rewrite list_elem_of_In, <-in_rev, <-list_elem_of_In. by apply (ring_elem _ _ _ Hr).
Qed.

(** A step that overwrites buffer [i] with [b']. *)
Lemma swap_insert s i b b' d' : wf s -> (i < NBUF)%nat -> bufs s !! i = Some b ->
  next b' = next b -> prev b' = prev b -> usable d' (bkey b') ->
  (bkey b = bkey b' \/ (cached (bufs s) (bkey b') = None /\ busy b = false /\ dirty b = false)) ->
  swap s (Bcache false (<[i := b']> (bufs s)) d') i b b'.
Proof.
  intros Hwf Hi Hb Hn Hp Hu Hk. destruct (wf_ring _ Hwf) as [l Hr]. split; try done.
  - intros j Hj _. simpl. by rewrite list_lookup_insert_ne.
  - simpl. rewrite list_lookup_insert_eq; [done|]. by eapply lookup_lt_Some.
  - exists l. by eapply ring_insert.
Qed.

Definition bread_result (k : key) s s' (i : nat) : Prop := exists b b',
  swap s s' i b b' /\ bkey b' = k /\ busy b' = true /\ valid b' = true /\
  dirty b' = dirtyk s k /\ bdata b' = view s k /\ same_disk (disk s) (disk s').

(** The device part of [bread]: the buffer was just obtained and is not valid. *)
Lemma bread_fill dv sec s i b c : wf s -> usable (disk s) (dv, sec) -> (i < NBUF)%nat ->
  bufs s !! i = Some b -> bkey c = (dv, sec) -> next c = next b -> prev c = prev b ->
  busy c = true -> valid c = false -> dirty c = false -> dirtyk s (dv, sec) = false ->
  view s (dv, sec) = blocks (disk s) dv sec ->
  (bkey b = (dv, sec) \/ (cached (bufs s) (dv, sec) = None /\ busy b = false /\ dirty b = false)) ->
  wp (if GETDEVTYPE dv =? DEV_IDE then
        let! b' := zoom bcache_disk (iderw i c) in
        upd_buf i (fun _ => b') ;;; kret i
      else if GETDEVTYPE dv =? DEV_SATA then
        let! r := zoom bcache_disk (sata_read (GETDEVNUM dv) sec 1) in
        if negb (r.1 =? SATA_IO_SUCCESS) then panic "SATA I/O ERROR"
        else
          upd_buf i (set_bdata r.2) ;;;
          upd_buf i (fun b => set_flags (set (flags b) B_VALID) b) ;;;
          upd_buf i (fun b => set_flags (clr (flags b) B_DIRTY) b) ;;;
          wakeup (ChBuf i) ;;; kret i
      else panic "Unsupported device type")
    (Bcache false (<[i := c]> (bufs s)) (disk s))
    (fun j s' t => j = i /\ disk_writes t = [] /\ bread_result (dv, sec) s s' i).
Proof.
  intros Hwf Hu Hi Hb Hk Hn Hp Hbz Hv Hd Hdk Hvw Hold. pose proof Hu as [Hon Ht].
  simpl in Hon, Ht. pose proof (lookup_lt_Some _ _ _ Hb) as Hlt.
  set (c' := set_flags (clr (set (flags c) B_VALID) B_DIRTY) (set_bdata (blocks (disk s) dv sec) c)).
  assert (forall d', same_disk (disk s) d' ->
    bread_result (dv, sec) s (Bcache false (<[i := c']> (bufs s)) d') i) as Hfin.
  { intros d' Hd'. exists b, c'. rewrite Hdk, Hvw. split_and!; try done.
    - apply swap_insert; try done; change (bkey c') with (bkey c); rewrite Hk.
      + by eapply same_disk_usable.
      + done.
    - unfold c'. flag_simpl. done.
    - unfold c'. flag_simpl. done.
    - unfold c'. flag_simpl. done. }
  destruct (Z.eqb_spec (GETDEVTYPE dv) DEV_IDE) as [E|E].
  - apply wp_bind, wp_zoom. injection Hk as Hk1 Hk2.
    apply iderw_read; [by rewrite Hk1|by rewrite Hk1, Hk2|done..|].
    intros d' t Hd' Hw. apply wp_bind, wp_upd_buf, wp_ret. rewrite !app_nil_r.
    split_and!; [done|done|].
    cbn [bufs set_bufs bcache_disk lput set_disk b_lock disk].
    erewrite alter_insert by (by apply list_lookup_insert_eq).
    rewrite list_insert_insert_eq, Hk1, Hk2. by apply Hfin.
  - destruct Ht as [Ht|Ht]; [by destruct (E Ht)|]. rewrite Ht, Z.eqb_refl.
    apply wp_bind, wp_zoom. apply sata_read_ok; [done|done|].
    intros d' t Hd' Hw. cbn [fst negb]. rewrite Z.eqb_refl. cbn [negb].
    do 3 (apply wp_bind, wp_upd_buf). apply wp_bind. unfold wakeup. apply wp_emit, wp_ret. rewrite !app_nil_r, disk_writes_app, Hw.
    split_and!; [done|done|]. cbn [bufs set_bufs bcache_disk lput set_disk b_lock disk].
    rewrite !alter_alter. erewrite alter_insert by (by apply list_lookup_insert_eq).
    rewrite list_insert_insert_eq. by apply Hfin.
Qed.

Lemma bread_swap dv sec s L : wf s -> usable (disk s) (dv, sec) -> busyk s (dv, sec) = false ->
  only s L -> (length L < NBUF)%nat \/ dirtyk s (dv, sec) = true ->
  wp (bread dv sec) s
    (fun i s' t => disk_writes t = [] /\ bread_result (dv, sec) s s' i).
Proof.
  intros Hwf Hu Hnb Ho HL.
  destruct (bget_ok dv sec s L Hwf Hu Hnb Ho HL) as (i & b & Hi & Hb & Hcase).
  pose proof (lookup_lt_Some _ _ _ Hb) as Hlt. unfold bread. apply wp_bind.
  destruct Hcase as [(Hc & Hk & Hg)|(Hc & H1 & H2 & Hg)];
    (eapply wp_of_run; [apply Hg|]; cbv beta; apply wp_bind, wp_get_buf;
     [simpl; by rewrite length_insert|]);
    intros c; cbn [bufs set_bufs]; rewrite list_lookup_insert_eq by done; intros [= <-];
    unfold set_bufs; rewrite (wf_lock _ Hwf).
  - destruct (wf_entry _ Hwf _ _ Hc) as (_ & Hlen & Hvd & _). simpl in Hvd.
    unfold busyk in Hnb. rewrite Hc in Hnb.
    destruct (valid (set_flags (set (flags b) B_BUSY) b)) eqn:Hv; simpl negb; cbv iota.
    + apply wp_ret. split; [done|]. exists b, (set_flags (set (flags b) B_BUSY) b).
      assert (valid b = true) as Hvb by (revert Hv; by flag_simpl).
      split_and!; try done.
      * apply swap_insert; try done; [by rewrite <-Hk in Hu|by left].
      * by flag_simpl.
      * unfold dirtyk. rewrite Hc. by flag_simpl.
      * unfold view. rewrite Hc. change (fvalid (flags b)) with (valid b). by rewrite Hvb.
    + assert (fvalid (flags b) = false) as Hvb.
      { revert Hv. by flag_simpl. }
      assert (fdirty (flags b) = false) as Hdb.
      { destruct Hvd as [?|[_ ?]]; congruence. }
      eapply wp_mono; [eapply (bread_fill dv sec s i b)|]; try done.
      * by flag_simpl.
      * by flag_simpl.
      * unfold dirtyk. by rewrite Hc.
      * unfold view. by rewrite Hc, Hvb.
      * by left.
      * simpl. by intros ? ? ? (-> & ? & ?).
  - change (valid (set_flags B_BUSY (set_ident dv sec b))) with false. simpl negb. cbv iota.
    eapply wp_mono; [eapply (bread_fill dv sec s i b)|]; try done.
    + unfold dirtyk. by rewrite Hc.
    + unfold view. by rewrite Hc.
    + by right.
    + simpl. by intros ? ? ? (-> & ? & ?).
Qed.

(** ** The abstract cache *)

(** What a client knows: contents, disk, pinned sectors, and buffers held. *)
Record astate := AS {
  aV : key -> list Z;
  aW : key -> list Z;
  aD : list key;
  aH : list (nat * key);
}.

(** [s] is in abstract state [a], on a device that serves the sectors [U]. *)
Record abs (U : key -> Prop) s (a : astate) : Prop := {
  abs_wf : wf s;
  abs_usable : forall k, U k -> usable (disk s) k;
  abs_view : forall k, view s k = aV a k;
  abs_disk : forall k, on_disk s k = aW a k;
  abs_dirty : forall k, dirtyk s k = true <-> k ∈ aD a;
  abs_busy : forall k, busyk s k = true <-> k ∈ (aH a).*2;
  abs_holds : forall i k, (i, k) ∈ aH a -> holds s i k;
}.

Definition upd {A} (k : key) (v : A) (f : key -> A) : key -> A :=
  fun k' => if decide (k' = k) then v else f k'.

Lemma upd_same {A} k (v : A) f : upd k v f k = v.
Proof. unfold upd. by rewrite decide_True. Qed.
Lemma upd_other {A} k (v : A) f k' : k' <> k -> upd k v f k' = f k'.
Proof. intros. unfold upd. by rewrite decide_False. Qed.

Lemma abs_ext U s a a' : abs U s a ->
  (forall k, aV a' k = aV a k) -> (forall k, aW a' k = aW a k) ->
  (forall k, k ∈ aD a' <-> k ∈ aD a) -> (forall p, p ∈ aH a' <-> p ∈ aH a) -> abs U s a'.
Proof.
  intros [H1 H2 H3 H4 H5 H6 H7] E1 E2 E3 E4. split; try done.
  - intros k. by rewrite E1.
  - intros k. by rewrite E2.
  - intros k. by rewrite E3.
  - intros k. rewrite H6, !list_elem_of_fmap. by setoid_rewrite E4.
  - intros i k. rewrite E4. apply H7.
Qed.

(** A held sector is cached, busy and valid: its buffer. *)
Lemma holds_buf s i k : wf s -> holds s i k -> exists b,
  (i < NBUF)%nat /\ bufs s !! i = Some b /\ bkey b = k /\ busy b = true /\ valid b = true /\
  cached (bufs s) k = Some (flags b, bdata b) /\ bdata b = view s k /\
  length (bdata b) = SECTOR_SIZE /\ usable (disk s) k /\ dirty b = dirtyk s k.
Proof.
  intros Hwf (e & He & Hbz). destruct (entry_at_inv _ _ _ _ He) as (b & Hi & Hb & _ & -> & ->).
  assert (cached (bufs s) (bkey b) = Some (flags b, bdata b)) as Hc.
  { apply cached_Some; [apply Hwf|]. by exists i. }
  destruct (wf_entry _ Hwf _ _ Hc) as (Hu & Hlen & Hvd & _). simpl in *.
  assert (valid b = true) as Hv.
  { destruct Hvd as [H|[H _]]; [done|]. congruence. }
  exists b. unfold view, dirtyk. rewrite Hc. change (fvalid (flags b)) with (valid b).
  by rewrite Hv.
Qed.

(** A step that rewrites the buffer of one sector, from the client's side. *)
Lemma swap_abs U s s' i b b' a : abs U s a -> swap s s' i b b' ->
  valid b' = true -> length (bdata b') = SECTOR_SIZE ->
  (busy b' = false -> dirty b' = false -> bdata b' = on_disk s' (bkey b')) ->
  (forall k, usable (disk s) k -> usable (disk s') k) ->
  (forall k, k <> bkey b' -> on_disk s' k = on_disk s k) ->
  forall a', (forall k, aV a' k = upd (bkey b') (bdata b') (aV a) k) ->
  (forall k, aW a' k = on_disk s' k) ->
  (forall k, k ∈ aD a' <-> if decide (k = bkey b') then dirty b' = true else k ∈ aD a) ->
  (forall k, k ∈ (aH a').*2 <-> if decide (k = bkey b') then busy b' = true else k ∈ (aH a).*2) ->
  (forall j k, (j, k) ∈ aH a' -> (j = i /\ k = bkey b') \/ (j, k) ∈ aH a) ->
  abs U s' a'.
Proof.
  intros Ha Hs Hv Hlen Hcl Hu Hblk a' EV EW ED EH EJ. pose proof (abs_wf _ _ _ Ha) as Hwf.
  pose proof (swap_cached_same _ _ _ _ _ Hwf Hs) as Hc.
  assert (wf s') as Hwf'.
  { eapply swap_wf; try done. split_and!; [apply Hs|done|by left|]. intros _. apply Hcl. }
  split; try done.
  - intros k Hk. by apply Hu, (abs_usable _ _ _ Ha).
  - intros k. rewrite EV. unfold upd. destruct (decide _) as [->|Hne].
    + unfold view. rewrite Hc. change (fvalid (flags b')) with (valid b').
      by rewrite Hv.
    + rewrite <-(abs_view _ _ _ Ha). by eapply swap_other, Hblk.
  - intros k. rewrite ED. destruct (decide _) as [->|Hne].
    + unfold dirtyk. rewrite Hc. reflexivity.
    + rewrite <-(abs_dirty _ _ _ Ha). destruct (swap_other _ _ _ _ _ k Hwf Hs Hne) as (_ & -> & _).
      done.
  - intros k. rewrite EH. destruct (decide _) as [->|Hne].
    + unfold busyk. rewrite Hc. reflexivity.
    + rewrite <-(abs_busy _ _ _ Ha). destruct (swap_other _ _ _ _ _ k Hwf Hs Hne) as (-> & _ & _).
      done.
  - intros j k Hj. pose proof Hj as Hj'. apply EJ in Hj' as [[-> ->]|Hj'].
    + exists (flags b', bdata b'). split; [by eapply sw_i|].
      specialize (EH (bkey b')). rewrite decide_True in EH by done. apply EH.
      apply list_elem_of_fmap. by exists (i, bkey b').
    + apply (swap_holds s s' i b b'); [done|done|by apply (abs_holds _ _ _ Ha)|].
      intros ->. specialize (EH (bkey b')). rewrite decide_True in EH by done. apply EH.
      apply list_elem_of_fmap. by exists (j, bkey b').
Qed.

(** [bread] of a sector nobody holds, when a buffer is free or the sector is pinned. *)
Lemma bread_wp U dv sec s a Q : abs U s a -> U (dv, sec) -> (dv, sec) ∉ (aH a).*2 ->
  (length (aD a) + length (aH a) < NBUF)%nat \/ (dv, sec) ∈ aD a ->
  (forall i s' t, disk_writes t = [] ->
     abs U s' (AS (aV a) (aW a) (aD a) ((i, (dv, sec)) :: aH a)) -> Q i s' t) ->
  wp (bread dv sec) s Q.
Proof.
  intros Ha HU Hh HL HQ. pose proof (abs_wf _ _ _ Ha) as Hwf.
  eapply wp_mono; [apply (bread_swap dv sec s (aD a ++ (aH a).*2))|].
  - done.
  - by apply (abs_usable _ _ _ Ha).
  - destruct (busyk s (dv, sec)) eqn:E; [|done]. by apply (abs_busy _ _ _ Ha) in E.
  - intros k [Hk|Hk]; apply elem_of_app;
      [right; by apply (abs_busy _ _ _ Ha)|left; by apply (abs_dirty _ _ _ Ha)].
  - rewrite length_app, length_fmap. destruct HL as [HL|HL]; [by left|right].
    by apply (abs_dirty _ _ _ Ha).
  - cbv beta. intros i s' t [Ht (b & b' & Hs & Hk & Hbz & Hv & Hdt & Hda & [Hblk Hon])].
    apply HQ; [done|]. eapply swap_abs; try done; cbn [aV aW aD aH].
    + rewrite Hda. unfold view.
      destruct (cached (bufs s) (dv, sec)) as [[f d]|] eqn:E.
      * destruct (wf_entry _ Hwf _ _ E) as ((Ho & _) & Hlen & _). simpl in Hlen.
        destruct (fvalid f); [done|]. by apply online_block.
      * apply online_block. apply (abs_usable _ _ _ Ha) in HU. by destruct HU.
    + by rewrite Hbz.
    + intros k [Hu1 Hu2]. split; [by apply Hon|done].
    + intros k _. apply Hblk.
    + intros k. unfold upd. destruct (decide _) as [->|]; [|done].
      by rewrite Hda, Hk, (abs_view _ _ _ Ha).
    + intros k. rewrite <-(abs_disk _ _ _ Ha). symmetry. apply Hblk.
    + intros k. destruct (decide _) as [->|]; [|done].
      by rewrite Hdt, Hk, (abs_dirty _ _ _ Ha).
    + intros k. rewrite fmap_cons, elem_of_cons, Hk. cbn [snd].
      destruct (decide _) as [->|Hne]; [rewrite Hbz; tauto|]. tauto.
    + intros j k. rewrite elem_of_cons. intros [[= -> ->]|?]; [left|right]; [|done].
      by rewrite Hk.
Qed.

(** The buffer behind a held sector. *)
Lemma wp_held U s a i k Q : abs U s a -> (i, k) ∈ aH a ->
  (forall b, bufs s !! i = Some b -> (i < NBUF)%nat -> bkey b = k -> busy b = true ->
     valid b = true -> bdata b = aV a k -> length (bdata b) = SECTOR_SIZE ->
     (dirty b = true <-> k ∈ aD a) -> usable (disk s) k -> Q b s []) ->
  wp (get_buf i) s Q.
Proof.
  intros Ha Hi HQ. apply (abs_holds _ _ _ Ha) in Hi.
  destruct (holds_buf s i k (abs_wf _ _ _ Ha) Hi)
    as (b & H1 & H2 & H3 & H4 & H5 & _ & H6 & H7 & H8 & H9).
  apply wp_get_buf; [by eapply lookup_lt_Some|]. intros b' Hb'.
  rewrite H2 in Hb'. injection Hb' as <-. apply HQ; try done.
  - by rewrite H6, (abs_view _ _ _ Ha).
  - by rewrite H9, (abs_dirty _ _ _ Ha).
Qed.

(** [b->data] is changed by its holder. *)
Lemma set_data_wp U s a i k f Q : abs U s a -> (i, k) ∈ aH a ->
  length (f (aV a k)) = SECTOR_SIZE ->
  (forall s', abs U s' (AS (upd k (f (aV a k)) (aV a)) (aW a) (aD a) (aH a)) -> Q tt s' []) ->
  wp (upd_buf i (fun b => set_bdata (f (bdata b)) b)) s Q.
Proof.
  intros Ha Hi Hlen HQ. pose proof (abs_wf _ _ _ Ha) as Hwf. pose proof Hi as Hi'.
  apply (abs_holds _ _ _ Ha) in Hi.
  destruct (holds_buf s i k (abs_wf _ _ _ Ha) Hi)
    as (b & H1 & H2 & H3 & H4 & H5 & _ & H6 & H7 & H8 & H9).
  rewrite <-(abs_view _ _ _ Ha), <-H6 in Hlen.
  apply wp_upd_buf, HQ. rewrite (set_bufs_insert _ _ b) by done. unfold set_bufs.
  rewrite (wf_lock _ Hwf).
  eapply swap_abs; [done|apply swap_insert; try done|..]; try done; cbn [aV aW aD aH].
  - simpl. change (bkey (set_bdata _ b)) with (bkey b). by rewrite H3.
  - by left.
  - change (busy (set_bdata _ b)) with (busy b). by rewrite H4.
  - intros k'. change (bkey (set_bdata _ b)) with (bkey b). rewrite H3. simpl.
    unfold upd. by rewrite H6, (abs_view _ _ _ Ha).
  - intros k'. by rewrite <-(abs_disk _ _ _ Ha).
  - intros k'. change (bkey (set_bdata _ b)) with (bkey b). rewrite H3.
    destruct (decide _) as [->|]; [|done]. change (dirty (set_bdata _ b)) with (dirty b).
    by rewrite H9, (abs_dirty _ _ _ Ha).
  - intros k'. change (bkey (set_bdata _ b)) with (bkey b). rewrite H3.
    destruct (decide _) as [->|]; [|done]. change (busy (set_bdata _ b)) with (busy b).
    rewrite H4. split; [done|]. intros _. apply list_elem_of_fmap. by exists (i, k).
  - auto.
Qed.

(** Overwriting the flags of a held buffer, with the buffer still held and valid. *)
Lemma held_flags_abs U s a i k b f d' : abs U s a -> (i, k) ∈ aH a ->
  bufs s !! i = Some b -> fbusy f = true -> fvalid f = true ->
  (forall k, usable (disk s) k -> usable d' k) ->
  (forall k', k' <> k -> blocks d' k'.1 k'.2 = on_disk s k') ->
  forall a', (forall k, aV a' k = aV a k) -> (forall k, aW a' k = blocks d' k.1 k.2) ->
  (forall k', k' ∈ aD a' <-> if decide (k' = k) then fdirty f = true else k' ∈ aD a) ->
  aH a' = aH a ->
  abs U (Bcache false (<[i := set_flags f b]> (bufs s)) d') a'.
Proof.
  intros Ha Hi Hb Hbz Hv Hu Hblk a' EV EW ED EH. pose proof (abs_wf _ _ _ Ha) as Hwf.
  pose proof Hi as Hi'. apply (abs_holds _ _ _ Ha) in Hi'.
  destruct (holds_buf s i k (abs_wf _ _ _ Ha) Hi')
    as (b0 & H1 & H2 & H3 & H4 & H5 & _ & H6 & H7 & H8 & H9).
  rewrite Hb in H2. injection H2 as <-.
  assert (bkey (set_flags f b) = k) as Hk by done.
  eapply swap_abs; [done|apply swap_insert; try done|..]; try done; rewrite ?Hk; try done.
  - by apply Hu.
  - by left.
  - change (busy (set_flags f b)) with (fbusy f). by rewrite Hbz.
  - intros k'. rewrite EV. simpl. unfold upd. destruct (decide _) as [->|]; [|done].
    by rewrite H6, (abs_view _ _ _ Ha).
  - intros k'. rewrite EH. destruct (decide _) as [->|]; [|done].
    change (busy (set_flags f b)) with (fbusy f). rewrite Hbz. split; [done|].
    intros _. apply list_elem_of_fmap. by exists (i, k).
  - intros j k'. rewrite EH. auto.
Qed.

(** [log_write]'s last statement: pin the buffer. *)
Lemma mark_dirty_wp U s a i k Q : abs U s a -> (i, k) ∈ aH a ->
  (forall s', abs U s' (AS (aV a) (aW a) (k :: aD a) (aH a)) -> Q tt s' []) ->
  wp (upd_buf i (fun b => set_flags (set (flags b) B_DIRTY) b)) s Q.
Proof.
  intros Ha Hi HQ. pose proof (abs_wf _ _ _ Ha) as Hwf. pose proof Hi as Hi'.
  apply (abs_holds _ _ _ Ha) in Hi'.
  destruct (holds_buf s i k (abs_wf _ _ _ Ha) Hi')
    as (b & H1 & H2 & H3 & H4 & H5 & _ & H6 & H7 & H8 & H9).
  apply wp_upd_buf, HQ. rewrite (set_bufs_insert _ _ b) by done. unfold set_bufs.
  rewrite (wf_lock _ Hwf). unfold busy, valid in *.
  eapply held_flags_abs; try done; cbn [aV aW aD aH].
  - unfold fbusy. flag_simpl. done.
  - unfold fvalid. flag_simpl. done.
  - intros k'. by rewrite <-(abs_disk _ _ _ Ha).
  - intros k'. rewrite elem_of_cons. unfold fdirty. flag_simpl.
    destruct (decide _); tauto.
Qed.

Definition unpin (k : key) (l : list key) : list key := filter (fun k' => k' <> k) l.

(** [bwrite]: one sector is written, and is no longer pinned. *)
Lemma bwrite_wp U s a i dv sec Q : abs U s a -> (i, (dv, sec)) ∈ aH a ->
  (forall s' t, disk_writes t = [(dv, sec, aV a (dv, sec))] ->
     abs U s' (AS (aV a) (upd (dv, sec) (aV a (dv, sec)) (aW a)) (unpin (dv, sec) (aD a)) (aH a)) ->
     Q tt s' t) ->
  wp (bwrite i) s Q.
Proof.
  intros Ha Hi HQ. pose proof (abs_wf _ _ _ Ha) as Hwf. unfold bwrite.
  apply wp_bind. eapply wp_held; [done..|]. intros b Hb Hlt Hk Hbz Hv Hd Hlen _ Hu.
  rewrite Hbz. cbn [negb]. apply wp_bind, wp_upd_buf.
  rewrite (set_bufs_insert _ _ b) by done. unfold set_bufs. rewrite (wf_lock _ Hwf).
  set (c := set_flags (set (flags b) B_DIRTY) b). pose proof (lookup_lt_Some _ _ _ Hb) as Hll.
  apply wp_bind, wp_get_buf; [simpl; by rewrite length_insert|].
  intros c'. cbn [bufs]. rewrite list_lookup_insert_eq by done. intros [= <-].
  destruct Hu as [Hon Ht]. injection Hk as Hk1 Hk2. simpl in Hon, Ht.
  set (f := clr (set (flags c) B_VALID) B_DIRTY).
  assert (forall d', (forall k, usable (disk s) k -> usable d' k) ->
    (forall dv' sec', blocks d' dv' sec' = upd_block (blocks (disk s)) dv sec (bdata b) dv' sec') ->
    abs U (Bcache false (<[i := set_flags f b]> (bufs s)) d')
      (AS (aV a) (upd (dv, sec) (aV a (dv, sec)) (aW a)) (unpin (dv, sec) (aD a)) (aH a))) as Hfin.
  { intros d' Hu Hblk. eapply held_flags_abs; [done|apply Hi|done|..]; cbn [aV aW aD aH]; try done.
    - unfold f, c, fbusy. flag_simpl. done.
    - unfold f, c, fvalid. flag_simpl. done.
    - intros [d1 s1] Hne. simpl. rewrite Hblk. unfold upd_block, on_disk. simpl.
      destruct (Z.eqb_spec d1 dv), (Z.eqb_spec s1 sec); simpl; congruence.
    - intros [d1 s1]. simpl. rewrite Hblk. unfold upd_block, upd.
      destruct (Z.eqb_spec d1 dv), (Z.eqb_spec s1 sec); simpl;
        try (rewrite decide_True by congruence; congruence);
        rewrite decide_False by congruence; by rewrite <-(abs_disk _ _ _ Ha).
    - intros k'. unfold unpin. rewrite list_elem_of_filter. unfold f, c, fdirty. flag_simpl.
      destruct (decide _); [|tauto]. split; [tauto|done]. }
  assert (dev c = dv /\ sector c = sec /\ bdata c = bdata b) as (Ec1 & Ec2 & Ec3) by done.
  rewrite Ec1. destruct (Z.eqb_spec (GETDEVTYPE dv) DEV_IDE) as [E|E].
  - apply wp_bind, wp_zoom. apply iderw_write; rewrite ?Ec1, ?Ec2, ?Ec3; try done.
    + unfold c. flag_simpl. done.
    + unfold c. flag_simpl. done.
    + intros d' t Hblk Hu Hw. apply wp_upd_buf. rewrite app_nil_r. apply HQ; [by rewrite <-Hd|].
      cbn [bufs set_bufs bcache_disk lput set_disk b_lock disk].
      erewrite alter_insert by (by apply list_lookup_insert_eq).
      rewrite list_insert_insert_eq. apply Hfin; [|done].
      intros k [Hk Hk']. split; [by apply Hu|done].
  - destruct Ht as [Ht|Ht]; [by destruct (E Ht)|].
    rewrite Ec2, Ec3. apply wp_bind, wp_zoom. apply sata_write_ok; [done|done|done|].
    intros d' t Hblk Hu Hw. do 2 (apply wp_bind, wp_upd_buf). apply wp_bind. unfold wakeup.
    apply wp_emit. rewrite Z.eqb_refl. cbn [negb]. apply wp_ret. apply HQ.
    { rewrite !disk_writes_app, Hw, <-Hd. done. }
    cbn [bufs set_bufs bcache_disk lput set_disk b_lock disk].
    rewrite !alter_alter. erewrite alter_insert by (by apply list_lookup_insert_eq).
    rewrite list_insert_insert_eq. apply Hfin; [|done].
    intros k [Hk Hk']. split; [by apply Hu|done].
Qed.

Lemma move_front_info i bs j : (j < NBUF)%nat -> info <$> move_front i bs !! j = info <$> bs !! j.
Proof.
  intros Hj. unfold move_front.
  assert (forall f k (l : list buf), (forall b, info (f b) = info b) ->
            info <$> alter f k l !! j = info <$> l !! j) as Halt.
  { intros f k l Hf. destruct (decide (k = j)) as [->|Hne].
    - rewrite list_lookup_alter_eq. destruct (l !! j); simpl; [by rewrite Hf|done].
    - by rewrite list_lookup_alter_ne. }
  by rewrite !Halt.
Qed.

(** [brelse] of a buffer that is pinned or holds what the disk holds. *)
Lemma brelse_wp U s a i k H Q : abs U s a -> aH a = (i, k) :: H -> k ∉ H.*2 ->
  k ∈ aD a \/ aV a k = aW a k ->
  (forall s' t, disk_writes t = [] -> abs U s' (AS (aV a) (aW a) (aD a) H) -> Q tt s' t) ->
  wp (brelse i) s Q.
Proof.
  intros Ha EH Hk Hcl HQ. pose proof (abs_wf _ _ _ Ha) as Hwf.
  assert (holds s i k) as Hi.
  { apply (abs_holds _ _ _ Ha). rewrite EH. by apply elem_of_cons; left. }
  destruct (holds_buf s i k Hwf Hi)
    as (b & H1 & H2 & H3 & H4 & H5 & _ & H6 & H7 & H8 & H9).
  destruct (wf_ring _ Hwf) as [l Hr].
  eapply wp_of_run; [by eapply brelse_eq; [apply Hwf|..]|]. apply HQ; [done|].
  set (c := set_flags (clr (flags b) B_BUSY) b).
  pose proof (proj2 (ring_elem _ _ _ Hr) H1) as Hin.
  apply list_elem_of_split in Hin as (l1 & l2 & ->).
  pose proof (ring_move_front _ _ _ _ Hr) as Hr'.
  assert (exists m, move_front i (bufs s) !! i = Some m /\ info m = info b) as (m & Hm & Hmi).
  { pose proof (move_front_info i (bufs s) i H1) as Hm. rewrite H2 in Hm.
    apply fmap_Some in Hm as (m & ? & ?). by exists m. }
  injection Hmi as E1 E2 E3 E4.
  unfold set_bufs. rewrite (wf_lock _ Hwf), (alter_insert _ _ _ m) by done.
  set (m' := set_flags (clr (flags m) B_BUSY) m).
  assert (info m' = info c) as Hmc by (unfold m', c, info, bkey; simpl; congruence).
  assert (bkey c = k) as Hkc by done.
  eapply (swap_abs U s _ i b c); try done; rewrite ?Hkc; cbn [aV aW aD aH].
  - split; try done.
    + intros j Hj Hlt. simpl. rewrite list_lookup_insert_ne by done. by apply move_front_info.
    + simpl. rewrite list_lookup_insert_eq by (by eapply lookup_lt_Some). simpl. by rewrite Hmc.
    + exists (i :: l1 ++ l2). by eapply ring_insert.
    + by rewrite Hkc.
    + by left.
  - unfold c. flag_simpl. done.
  - intros _ Hd. destruct Hcl as [Hcl|Hcl].
    + apply (abs_dirty _ _ _ Ha) in Hcl. rewrite <-H9 in Hcl. revert Hd. unfold c.
      flag_simpl. unfold dirty in Hcl. congruence.
    + simpl. rewrite H6, (abs_view _ _ _ Ha), Hcl, <-(abs_disk _ _ _ Ha). done.
  - intros k'. simpl. unfold upd. destruct (decide _) as [->|]; [|done].
    by rewrite H6, (abs_view _ _ _ Ha).
  - intros k'. by rewrite <-(abs_disk _ _ _ Ha).
  - intros k'. destruct (decide _) as [->|]; [|done].
    rewrite <-(abs_dirty _ _ _ Ha), <-H9. unfold c. flag_simpl. done.
  - intros k'. rewrite EH. destruct (decide _) as [->|]; [unfold c; by flag_simpl|].
    rewrite fmap_cons, elem_of_cons. cbn [snd]. tauto.
  - intros j k' Hj. right. rewrite EH. by apply elem_of_cons; right.
Qed.

(** After [binit] on a machine just started (nothing busy or dirty), the cache is
    transparent. *)
Lemma binit_abs (U : key -> Prop) s : length (bufs s) = S NBUF ->
  (forall i b, bufs s !! i = Some b -> busy b = false /\ dirty b = false) ->
  (forall k, U k -> usable (disk s) k) ->
  wp binit s (fun _ s' t => t = [] /\ disk s' = disk s /\
    abs U s' (AS (on_disk s) (on_disk s) [] [])).
Proof.
  intros Hlen Hcl HU. eapply wp_mono; [by apply binit_eq|]. cbv beta.
  intros _ s' t (-> & Hl & Hd & Hlen' & Hp & Hb). split_and!; [done|done|].
  assert (forall i, entry_at (bufs s') i = None) as He.
  { intros i. unfold entry_at. destruct (decide (i < NBUF)%nat) as [Hi|]; [|done].
    destruct (bufs s' !! i) as [b|] eqn:E; [|done].
    destruct (Hb i b Hi E) as [Hdev _]. by rewrite Hdev, Z.eqb_refl by done. }
  assert (forall k, cached (bufs s') k = None) as Hc.
  { intros k. apply cached_None. intros i e. by rewrite He. }
  split; cbn [aV aW aD aH].
  - split; [done| | |intros k e; by rewrite Hc|].
    + exists (rev (seq 0 NBUF)). split; [done| |done]. symmetry. apply Permutation_rev.
    + intros i j k e e'. by rewrite He.
    + intros i b Hi E _. destruct (Hb i b Hi E) as [_ (b0 & E0 & Hf & _)].
      destruct (Hcl i b0 E0) as [G1 G2]. unfold busy, dirty in *. by rewrite Hf.
  - intros k Hk. rewrite Hd. by apply HU.
  - intros k. unfold view. rewrite Hc. unfold on_disk. by rewrite Hd.
  - intros k. unfold on_disk. by rewrite Hd.
  - intros k. unfold dirtyk. rewrite Hc. split; [done|]. by intros ?%not_elem_of_nil.
  - intros k. unfold busyk. rewrite Hc. split; [done|]. by intros ?%not_elem_of_nil.
  - intros i k ?%not_elem_of_nil. done.
Qed.

End spec.

(** * Claims *)

Section claims.
Context {D : Type} `{HD : Driver D} `{HS : !DriverSpec D}.
Implicit Types (s : bcache D).

(** [brelse] of a busy buffer [i] returns, wakes the processes waiting for it, marks
    it not busy, and moves it to the front of the ring; the other buffers keep their
    order, their contents and their flags. *)
Theorem brelse_moves_to_front i b l1 l2 s :
  b_lock s = false -> ring (bufs s) (l1 ++ i :: l2) -> bufs s !! i = Some b -> busy b = true ->
  wp (brelse i) s (fun _ s' t => t = [Wakeup (ChBuf i)] /\ b_lock s' = false /\
    disk s' = disk s /\ ring (bufs s') (i :: l1 ++ l2) /\
    info <$> bufs s' !! i = Some (bkey b, (clr (flags b) B_BUSY, bdata b)) /\
    forall j, j <> i -> (j < NBUF)%nat -> info <$> bufs s' !! j = info <$> bufs s !! j).
Proof.
  intros Hl Hr Hb Hbz. assert (i < NBUF)%nat as Hi.
  { apply (ring_elem _ _ _ Hr), elem_of_app. right. by apply elem_of_cons; left. }
  eapply wp_of_run; [by eapply brelse_eq|]. pose proof (ring_move_front _ _ _ _ Hr) as Hr'.
  pose proof (move_front_info i (bufs s) i Hi) as Hm. rewrite Hb in Hm.
  apply fmap_Some in Hm as (m & Hm & Hmi).
  cbn [bufs set_bufs b_lock disk]. rewrite (alter_insert _ _ _ m) by done.
  split_and!; try done.
  - by eapply ring_insert.
  - rewrite list_lookup_insert_eq by (by eapply lookup_lt_Some).
    injection Hmi as E1 E2 E3 E4. unfold info, bkey. by rewrite E1, E2, E3, E4.
  - intros j Hj Hjl. rewrite list_lookup_insert_ne by done. by apply move_front_info.
Qed.

(** [bread] returns the current contents.  For a sector of a working device that no
    process holds, with a buffer to spare (or the sector pinned in the cache), [bread]
    returns a buffer that holds the sector's current contents: the data last put in the
    cache, or the disk's when it is not cached; no sector is written, and no other sector's
    contents change, whichever buffer was recycled. *)
Theorem bread_current U dv sec s a : abs U s a -> U (dv, sec) -> (dv, sec) ∉ (aH a).*2 ->
  (length (aD a) + length (aH a) < NBUF)%nat \/ (dv, sec) ∈ aD a ->
  wp (bread dv sec) s (fun i s' t =>
    disk_writes t = [] /\
    (exists b, bufs s' !! i = Some b /\ dev b = dv /\ sector b = sec /\ busy b = true /\
       valid b = true /\ bdata b = aV a (dv, sec)) /\
    (forall k, view s' k = aV a k) /\ (forall k, on_disk s' k = aW a k) /\
    abs U s' (AS (aV a) (aW a) (aD a) ((i, (dv, sec)) :: aH a))).
Proof.
  intros Ha HU Hh HL. eapply bread_wp; [done..|]. intros i s' t Ht Ha'.
  split_and!; [done| |apply Ha'|apply Ha'|done].
  destruct (holds_buf s' i (dv, sec) (abs_wf _ _ _ Ha')) as (b & _ & H2 & H3 & H4 & H5 & _ & H6 & _).
  { apply (abs_holds _ _ _ Ha'). by apply elem_of_cons; left. }
  exists b. injection H3 as <- <-. split_and!; try done. rewrite H6.
  apply (abs_view _ _ _ Ha').
Qed.

(** [bwrite] of a held buffer writes its sector through to the disk, and that sector
    only; the sector is then no longer pinned and no contents change.  [brelse] afterwards
    gives the buffer back without losing them. *)
Theorem bwrite_through U i dv sec H s a : abs U s a -> aH a = (i, (dv, sec)) :: H ->
  (dv, sec) ∉ H.*2 ->
  wp (bwrite i ;;; brelse i) s (fun _ s' t =>
    disk_writes t = [(dv, sec, aV a (dv, sec))] /\
    abs U s' (AS (aV a) (upd (dv, sec) (aV a (dv, sec)) (aW a)) (unpin (dv, sec) (aD a)) H)).
Proof.
  intros Ha EH Hk. apply wp_bind. eapply bwrite_wp; [done|rewrite EH; by apply elem_of_cons; left|].
  intros s1 t1 Ht1 H1. eapply brelse_wp; [done|done|done| |].
  - right. cbn [aV aW]. by rewrite upd_same.
  - cbn [aV aW aD aH]. intros s2 t2 Ht2 H2. rewrite disk_writes_app, Ht1, Ht2. done.
Qed.
End claims.

(** ** A small machine

    An eight-sector memory disk of zeros behind an empty cache. *)

Definition demo_image : list Z := replicate (Z.to_nat 4096) 0.
Definition demo_cache : bcache memdisk :=
  Bcache false (replicate (S NBUF) (Buf 0 0 0 0 0 (replicate SECTOR_SIZE 0))) (Memdisk demo_image).
Definition demo_U (k : key) : Prop := k.1 = 1 /\ 0 <= k.2 < 8.
Definition demo_W (k : key) : list Z := mem_blocks (Memdisk demo_image) k.1 k.2.

Lemma demo_usable k : demo_U k -> usable (disk demo_cache) k.
Proof.
  intros [H1 H2]. assert (disksize (disk demo_cache) = 8) as E by (by vm_compute).
  split; [|left; by rewrite H1].
  change (mem_online (disk demo_cache) k.1 k.2). unfold mem_online. rewrite E. lia.
Qed.

Lemma demo_binit : wp binit demo_cache (fun _ s _ => abs demo_U s (AS demo_W demo_W [] [])).
Proof.
  eapply wp_mono; [apply (binit_abs demo_U demo_cache)|].
  - done.
  - intros i b Hb%list_elem_of_lookup_2. apply elem_of_replicate in Hb as [-> _]. done.
  - apply demo_usable.
  - cbv beta. by intros _ s' t (_ & _ & Ha).
Qed.
Definition demo_ready_cache : bcache memdisk := final (binit demo_cache).2.

Lemma demo_abs : abs demo_U demo_ready_cache (AS demo_W demo_W [] []).
Proof.
  unfold demo_ready_cache. destruct (wp_run _ _ _ demo_binit) as (u & s & t & E & Ha).
  by rewrite E.
Qed.

Lemma demo_ring : ring (bufs demo_ready_cache) (rev (seq 0 NBUF)).
Proof.
  destruct (wp_run _ _ _ (binit_eq demo_cache eq_refl)) as (u & s & t & E & _ & _ & _ & H1 & H2 & _).
  unfold demo_ready_cache. rewrite E. split; [done|symmetry; apply Permutation_rev|done].
Qed.

(** The ring after buffer 0 was taken. *)
Definition demo_taken : bcache memdisk := final (bget 1 3 demo_ready_cache).2.

Lemma demo_taken_ring : ring (bufs demo_taken) (rev (seq 1 29) ++ 0%nat :: []).
Proof.
  assert (bget 1 3 demo_ready_cache = bget_spec 1 3 (rev (seq 0 NBUF)) demo_ready_cache) as E.
  { apply bget_eq; [apply (wf_lock _ (abs_wf _ _ _ demo_abs))|apply demo_ring]. }
  unfold demo_taken. rewrite E. unfold bget_spec.
  replace (first_such (bufs demo_ready_cache) (is_ident 1 3) (rev (seq 0 NBUF))) with (@None nat)
    by (by vm_compute).
  replace (first_such (bufs demo_ready_cache) is_free (rev (rev (seq 0 NBUF)))) with (Some 0%nat)
    by (by vm_compute).
  cbn [snd final bufs set_bufs]. destruct (bufs demo_ready_cache !! 0%nat) as [b|] eqn:Eb.
  - rewrite (alter_insert _ _ _ b) by done. by eapply ring_insert; [apply demo_ring|..].
  - by vm_compute in Eb.
Qed.

Lemma brelse_moves_to_front_witness :
  wp (brelse 0) demo_taken (fun _ s' t => t = [Wakeup (ChBuf 0)] /\
    ring (bufs s') (0%nat :: rev (seq 1 29) ++ [])).
Proof.
  eapply wp_mono.
  - eapply (brelse_moves_to_front 0 _ (rev (seq 1 29)) [] demo_taken);
      [vm_compute; reflexivity|exact demo_taken_ring|vm_compute; reflexivity|vm_compute; reflexivity].
  - intros _ s' t (H1 & _ & _ & H2 & _). split; [exact H1|exact H2].
Defined.

Lemma bread_current_witness :
  wp (bread 1 3) demo_ready_cache (fun i s' t => disk_writes t = [] /\
    exists b, bufs s' !! i = Some b /\ bdata b = replicate SECTOR_SIZE 0).
Proof.
  eapply wp_mono.
  - apply (bread_current demo_U 1 3 demo_ready_cache (AS demo_W demo_W [] [])).
    + exact demo_abs.
    + split; simpl; lia.
    + apply not_elem_of_nil.
    + left. simpl. unfold NBUF. lia.
  - cbv beta. intros i s' t (H1 & (b & Hb & _ & _ & _ & _ & Hd) & _).
    split; [exact H1|]. exists b. split; [exact Hb|]. rewrite Hd. vm_compute. reflexivity.
Defined.

Lemma demo_held : exists i s, abs demo_U s (AS demo_W demo_W [] [(i, (1, 3))]).
Proof.
  assert (wp (bread 1 3) demo_ready_cache (fun i s' _ =>
    abs demo_U s' (AS demo_W demo_W [] [(i, (1, 3))]))) as Hw.
  { eapply bread_wp; [apply demo_abs|by split; simpl|apply not_elem_of_nil| |done].
    left. simpl. unfold NBUF. lia. }
  destruct (wp_run _ _ _ Hw) as (i & s & _ & _ & Ha). by exists i, s.
Qed.

Lemma bwrite_through_witness : exists i s, abs demo_U s (AS demo_W demo_W [] [(i, (1, 3))]) /\
  wp (bwrite i ;;; brelse i) s (fun _ s' t =>
    disk_writes t = [(1, 3, demo_W (1, 3))] /\
    abs demo_U s' (AS demo_W (upd (1, 3) (demo_W (1, 3)) demo_W) (unpin (1, 3) []) [])).
Proof.
  destruct demo_held as (i & s & Ha). exists i, s. split; [exact Ha|].
  apply (bwrite_through demo_U i 1 3 [] s (AS demo_W demo_W [] [(i, (1, 3))]) Ha).
  - reflexivity.
  - apply not_elem_of_nil.
Defined.
