(* ===== verification/Log.v ===== *)
(** * Write-ahead log: kernel/log.c

    A redo log over the buffer cache.  [log] is the in-memory record, [logsys] the
    record together with the cache below it.  The on-disk header block holds [n] at
    offset 0 and the sector numbers from offset 4, little endian. *)

From stdpp Require Import base list strings sets sorting.
From Stdlib Require Import ZArith Lia.
From S2P Require Import Prelude CString Bytes Spinlock Disk Bio Cache.
Open Scope Z_scope.

Definition MAXOPBLOCKS : Z := 10.
Definition LOGSIZE : Z := MAXOPBLOCKS * 3.
Definition BSIZE : nat := 512.

(** [struct log] with its [struct logheader]; the numbers are C ints. *)
Record log := Log {
  l_lock : bool;
  l_start : Z;
  l_size : Z;
  l_outstanding : Z;
  l_committing : Z;
  l_dev : Z;
  lh_n : Z;
  lh_sector : list Z;         (* sector[LOGSIZE] *)
}.

Definition set_l_lock (v : bool) (g : log) : log :=
  Log v (l_start g) (l_size g) (l_outstanding g) (l_committing g) (l_dev g) (lh_n g) (lh_sector g).
Definition set_geometry (st sz : Z) (g : log) : log :=
  Log (l_lock g) st sz (l_outstanding g) (l_committing g) (l_dev g) (lh_n g) (lh_sector g).
Definition set_outstanding (v : Z) (g : log) : log :=
  Log (l_lock g) (l_start g) (l_size g) v (l_committing g) (l_dev g) (lh_n g) (lh_sector g).
Definition set_committing (v : Z) (g : log) : log :=
  Log (l_lock g) (l_start g) (l_size g) (l_outstanding g) v (l_dev g) (lh_n g) (lh_sector g).
Definition set_l_dev (v : Z) (g : log) : log :=
  Log (l_lock g) (l_start g) (l_size g) (l_outstanding g) (l_committing g) v (lh_n g) (lh_sector g).
Definition set_n (v : Z) (g : log) : log :=
  Log (l_lock g) (l_start g) (l_size g) (l_outstanding g) (l_committing g) (l_dev g) v (lh_sector g).
Definition set_sector (v : list Z) (g : log) : log :=
  Log (l_lock g) (l_start g) (l_size g) (l_outstanding g) (l_committing g) (l_dev g) (lh_n g) v.

Record logsys (D : Type) := Logsys { lg : log; bc : bcache D }.
Arguments Logsys {D}.
Arguments lg {D}.
Arguments bc {D}.

Definition the_log {D} : lens (logsys D) log := Lens lg (fun g s => Logsys g (bc s)).
Definition the_cache {D} : lens (logsys D) (bcache D) := Lens bc (fun c s => Logsys (lg s) c).
Definition log_lock {D} : lens (logsys D) bool :=
  Lens (fun s => l_lock (lg s)) (fun b s => Logsys (set_l_lock b (lg s)) (bc s)).
Definition upd_log {D} (f : log -> log) : K (logsys D) unit :=
  kmod (fun s => Logsys (f (lg s)) (bc s)).

(** [log.lh.sector[i]] read and written; an index outside the array faults. *)
Definition get_sector {D} (i : nat) : K (logsys D) Z :=
  let! g := gets lg in
  match lh_sector g !! i with Some z => kret z | None => fault end.
Definition put_sector {D} (i : nat) (v : Z) : K (logsys D) unit :=
  let! g := gets lg in
  if decide (i < length (lh_sector g))%nat
  then upd_log (set_sector (<[i := v]> (lh_sector g))) else fault.

(** [for (i = 0; i < log.lh.n; i++)] *)
Definition for_n {D} (n : Z) (body : nat -> K (logsys D) unit) : K (logsys D) unit :=
  for_each (seq 0 (Z.to_nat n)) body.

Section ops.
Context {D : Type} `{HD : Driver D}.
Notation LK := (K (logsys D)).

Definition bread' (dv sec : Z) : LK nat := zoom the_cache (bread (u32 dv) (u32 sec)).
Definition bwrite' (i : nat) : LK unit := zoom the_cache (bwrite i).
Definition brelse' (i : nat) : LK unit := zoom the_cache (brelse i).
Definition get_buf' (i : nat) : LK buf := zoom the_cache (get_buf i).
(** [memmove(b->data, src, BSIZE)] *)
Definition copy_block (i : nat) (src : list Z) : LK unit :=
  zoom the_cache (upd_buf i (fun b => set_bdata (splice (bdata b) 0 (take BSIZE src)) b)).
(** A 32-bit store into the block of a buffer. *)
Definition store32 (i off : nat) (v : Z) : LK unit :=
  zoom the_cache (upd_buf i (fun b => set_bdata (put32 (bdata b) off v) b)).

Definition install_trans : LK unit :=
  let! g := gets lg in
  for_n (lh_n g) (fun tail =>
    let! lbuf := bread' (l_dev g) (l_start g + Z.of_nat tail + 1) in
    let! sec := get_sector tail in
    let! dbuf := bread' (l_dev g) sec in
    let! lb := get_buf' lbuf in
    copy_block dbuf (bdata lb) ;;;
    bwrite' dbuf ;;;
    brelse' lbuf ;;;
    brelse' dbuf).

Definition read_head : LK unit :=
  let! g := gets lg in
  let! i := bread' (l_dev g) (l_start g) in
  let! b := get_buf' i in
  let lh := bdata b in
  upd_log (set_n (i32 (get32 lh 0))) ;;;
  let! g := gets lg in
  for_n (lh_n g) (fun j => put_sector j (i32 (get32 lh (4 + 4 * j)))) ;;;
  brelse' i.

Definition write_head : LK unit :=
  let! g := gets lg in
  let! i := bread' (l_dev g) (l_start g) in
  store32 i 0 (lh_n g) ;;;
  for_n (lh_n g) (fun j => let! sec := get_sector j in store32 i (4 + 4 * j) sec) ;;;
  bwrite' i ;;;
  brelse' i.

Definition recover_from_log : LK unit :=
  read_head ;;;
  install_trans ;;;
  upd_log (set_n 0) ;;;
  write_head.

(** One pass of [begin_op]'s loop: it returns, or sleeps on the log and runs again. *)
Definition begin_op : LK unit :=
  acquire log_lock ;;;
  let! g := gets lg in
  if negb (l_committing g =? 0) then
    ksleep ChLog (lput log_lock false)
  else if LOGSIZE <? lh_n g + (l_outstanding g + 1) * MAXOPBLOCKS then
    ksleep ChLog (lput log_lock false)
  else
    upd_log (fun g => set_outstanding (l_outstanding g + 1) g) ;;;
    release log_lock.

Definition write_log : LK unit :=
  let! g := gets lg in
  for_n (lh_n g) (fun tail =>
    let! to := bread' (l_dev g) (l_start g + Z.of_nat tail + 1) in
    let! sec := get_sector tail in
    let! from := bread' (l_dev g) sec in
    let! fb := get_buf' from in
    copy_block to (bdata fb) ;;;
    bwrite' to ;;;
    brelse' from ;;;
    brelse' to).

Definition commit : LK unit :=
  let! g := gets lg in
  if 0 <? lh_n g then
    write_log ;;;
    write_head ;;;
    install_trans ;;;
    upd_log (set_n 0) ;;;
    write_head
  else kret tt.

Definition end_op : LK unit :=
  acquire log_lock ;;;
  upd_log (fun g => set_outstanding (l_outstanding g - 1) g) ;;;
  let! g := gets lg in
  if negb (l_committing g =? 0) then panic "log.committing"
  else
    let! do_commit :=
      (if l_outstanding g =? 0 then upd_log (set_committing 1) ;;; kret true
       else wakeup ChLog ;;; kret false) in
    release log_lock ;;;
    if do_commit : bool then
      commit ;;;
      acquire log_lock ;;;
      upd_log (set_committing 0) ;;;
      wakeup ChLog ;;;
      release log_lock
    else kret tt.

(** [for (i = 0; i < log.lh.n; i++) if (log.lh.sector[i] == b->sector) break;] *)
Fixpoint find_sector (l : list Z) (sec : Z) (n i : nat) : nat :=
  match n with
  | O => i
  | S n' => match l !! i with
            | Some x => if u32 x =? sec then i else find_sector l sec n' (S i)
            | None => i
            end
  end.

Definition log_write (i : nat) : LK unit :=
  let! g := gets lg in
  if (LOGSIZE <=? lh_n g) || (l_size g - 1 <=? lh_n g) then panic "too big a transaction"
  else if l_outstanding g <? 1 then panic "log_write outside of trans"
  else
    let! b := get_buf' i in
    let j := find_sector (lh_sector g) (sector b) (Z.to_nat (lh_n g)) 0 in
    put_sector j (i32 (sector b)) ;;;
    (if Z.of_nat j =? lh_n g then upd_log (fun g => set_n (lh_n g + 1) g) else kret tt) ;;;
    zoom the_cache (upd_buf i (fun b => set_flags (set (flags b) B_DIRTY) b)).
End ops.

(** * Specifications *)

(** ** Disks as functions, and sequences of sector writes *)

Definition wr : Type := Z * Z * list Z.

Fixpoint apply_writes (p : list wr) (W : key -> list Z) : key -> list Z :=
  match p with
  | [] => W
  | (d, x, b) :: p' => apply_writes p' (upd (d, x) b W)
  end.

Lemma apply_writes_app p q W k :
  apply_writes (p ++ q) W k = apply_writes q (apply_writes p W) k.
Proof. revert W. induction p as [|[[d x] b] p IH]; intros W; simpl; [done|]. by rewrite IH. Qed.

Lemma apply_writes_ext p W W' k :
  (forall k, W' k = W k) -> apply_writes p W' k = apply_writes p W k.
Proof.
  revert W W'. induction p as [|[[d x] b] p IH]; intros W W' H; simpl; [done|].
  apply IH. intros k'. unfold upd. destruct (decide _); [done|apply H].
Qed.

Definition wkey (w : wr) : key := w.1.

Lemma apply_writes_other p W k : k ∉ wkey <$> p -> apply_writes p W k = W k.
Proof.
  revert W. induction p as [|[[d x] b] p IH]; intros W Hk; simpl; [done|].
  rewrite fmap_cons, not_elem_of_cons in Hk. destruct Hk as [H1 H2].
  rewrite IH by done. by apply upd_other.
Qed.

(** With no sector written twice, a sector reads the one write to it. *)
Lemma apply_writes_in p W d x b : NoDup (wkey <$> p) -> (d, x, b) ∈ p ->
  apply_writes p W (d, x) = b.
Proof.
  revert W. induction p as [|[[d' x'] b'] p IH]; intros W Hnd Hin.
  - by apply not_elem_of_nil in Hin.
  - rewrite fmap_cons in Hnd. apply NoDup_cons in Hnd as [H1 H2].
    apply elem_of_cons in Hin as [[= -> -> ->]|Hin]; simpl; [|by apply IH].
    rewrite apply_writes_other by done. apply upd_same.
Qed.

Section lift.
Context {D : Type} `{HD : Driver D} `{HS : !DriverSpec D}.
Implicit Types (s : logsys D).

Lemma bread'_wp U dv sec s a Q : abs U (bc s) a ->
  0 <= dv < 2 ^ 32 -> 0 <= sec < 2 ^ 32 -> U (dv, sec) -> (dv, sec) ∉ (aH a).*2 ->
  (length (aD a) + length (aH a) < NBUF)%nat \/ (dv, sec) ∈ aD a ->
  (forall i s' t, disk_writes t = [] -> lg s' = lg s ->
     abs U (bc s') (AS (aV a) (aW a) (aD a) ((i, (dv, sec)) :: aH a)) -> Q i s' t) ->
  wp (bread' dv sec) s Q.
Proof.
  intros Ha H1 H2 HU Hh HL HQ. unfold bread'. apply wp_zoom.
  rewrite !u32_small by done. eapply bread_wp; [done..|]. intros i c t Ht Hc. by apply HQ.
Qed.

Lemma get_buf'_wp U s a i k Q : abs U (bc s) a -> (i, k) ∈ aH a ->
  (forall b, bkey b = k -> bdata b = aV a k -> length (aV a k) = SECTOR_SIZE ->
     Q b s []) -> wp (get_buf' i) s Q.
Proof.
  intros Ha Hi HQ. unfold get_buf'. apply wp_zoom. eapply wp_held; [done..|].
  intros b Hb _ Hk _ _ Hd Hl _ _. replace (lput the_cache (lget the_cache s) s) with s by (by destruct s).
  apply HQ; [done|done|by rewrite <-Hd].
Qed.

Lemma set_data'_wp U s a i k f Q : abs U (bc s) a -> (i, k) ∈ aH a ->
  length (f (aV a k)) = SECTOR_SIZE ->
  (forall s', lg s' = lg s ->
     abs U (bc s') (AS (upd k (f (aV a k)) (aV a)) (aW a) (aD a) (aH a)) -> Q tt s' []) ->
  wp (zoom the_cache (upd_buf i (fun b => set_bdata (f (bdata b)) b))) s Q.
Proof.
  intros Ha Hi Hl HQ. apply wp_zoom. eapply (set_data_wp U _ a i k f); [done..|].
  intros c Hc. by apply HQ.
Qed.

Lemma bwrite'_wp U s a i dv sec Q : abs U (bc s) a -> (i, (dv, sec)) ∈ aH a ->
  (forall s' t, disk_writes t = [(dv, sec, aV a (dv, sec))] -> lg s' = lg s ->
     abs U (bc s') (AS (aV a) (upd (dv, sec) (aV a (dv, sec)) (aW a))
                      (unpin (dv, sec) (aD a)) (aH a)) -> Q tt s' t) ->
  wp (bwrite' i) s Q.
Proof.
  intros Ha Hi HQ. apply wp_zoom. eapply bwrite_wp; [done..|]. intros c t Ht Hc. by apply HQ.
Qed.

Lemma brelse'_wp U s a i k H Q : abs U (bc s) a -> aH a = (i, k) :: H -> k ∉ H.*2 ->
  k ∈ aD a \/ aV a k = aW a k ->
  (forall s' t, disk_writes t = [] -> lg s' = lg s ->
     abs U (bc s') (AS (aV a) (aW a) (aD a) H) -> Q tt s' t) ->
  wp (brelse' i) s Q.
Proof.
  intros Ha Hi Hk Hc HQ. apply wp_zoom. eapply brelse_wp; [done..|].
  intros c t Ht Hc'. by apply HQ.
Qed.

Lemma get_sector_wp i v s Q : lh_sector (lg s) !! i = Some v -> Q v s [] -> wp (get_sector i) s Q.
Proof. intros H HQ. unfold get_sector. wp_steps. rewrite H. by wp_steps. Qed.

(** With nothing held, a sector that is not pinned reads as the disk. *)
Lemma abs_clean U (c : bcache D) a k : abs U c a -> aH a = [] -> k ∉ aD a -> aV a k = aW a k.
Proof.
  intros Ha Hh Hk. rewrite <-(abs_view _ _ _ Ha), <-(abs_disk _ _ _ Ha).
  assert (dirtyk c k = false) as Hd.
  { apply not_true_is_false. by rewrite (abs_dirty _ _ _ Ha). }
  assert (busyk c k = false) as Hb.
  { apply not_true_is_false. rewrite (abs_busy _ _ _ Ha), Hh. apply not_elem_of_nil. }
  unfold view, on_disk, dirtyk, busyk in *.
  destruct (cached (bufs c) k) as [[f d]|] eqn:E; [|done].
  destruct (fvalid f) eqn:Hv; [|done]. by apply (wf_entry _ (abs_wf _ _ _ Ha) _ _ E).
Qed.

Lemma abs_swap U (c : bcache D) V W P p q :
  abs U c (AS V W P [p; q]) -> abs U c (AS V W P [q; p]).
Proof.
  intros Ha. eapply abs_ext; [done|..]; cbn [aV aW aD aH]; try done.
  intros r. rewrite !elem_of_cons. tauto.
Qed.
End lift.

Lemma splice_full (d src : list Z) :
  length d = SECTOR_SIZE -> length src = SECTOR_SIZE -> splice d 0 (take BSIZE src) = src.
Proof.
  intros Hd Hs. unfold splice. rewrite (take_ge src) by (rewrite Hs; done).
  simpl. rewrite drop_ge by (rewrite Hd, Hs; done). apply app_nil_r.
Qed.

Lemma copy_block_wp {D} `{HD : Driver D} `{HS : !DriverSpec D} U (s : logsys D) a i k src Q :
  abs U (bc s) a -> (i, k) ∈ aH a -> length src = SECTOR_SIZE ->
  (forall s', lg s' = lg s ->
     abs U (bc s') (AS (upd k src (aV a)) (aW a) (aD a) (aH a)) -> Q tt s' []) ->
  wp (copy_block i src) s Q.
Proof.
  intros Ha Hi Hs HQ.
  assert (length (aV a k) = SECTOR_SIZE) as Hl.
  { rewrite <-(abs_view _ _ _ Ha). apply (abs_holds _ _ _ Ha) in Hi.
    destruct (holds_buf _ i k (abs_wf _ _ _ Ha) Hi) as (b & _ & _ & _ & _ & _ & _ & <- & ? & _).
    done. }
  eapply (set_data'_wp U s a i k (fun d => splice d 0 (take BSIZE src))); [done|done| |].
  - by rewrite splice_full.
  - rewrite splice_full by done. done.
Qed.

Lemma take_imap_S {A B} (f : nat -> A -> B) l k x : l !! k = Some x ->
  take (S k) (imap f l) = take k (imap f l) ++ [f k x].
Proof. intros H. apply take_S_r. by rewrite list_lookup_imap, H. Qed.

(** ** The transaction being committed *)

Section transaction.
Context {D : Type} `{HD : Driver D} `{HS : !DriverSpec D}.
Implicit Types (s : logsys D).
Context (U : key -> Prop) (dv start size : Z) (secs : list Z).

(** The log occupies [size] sectors from [start] of a device that serves them all; the
    transaction writes the distinct sectors [secs], none of them in the log, and fits
    both the log and the cache. *)
Record geom : Prop := {
  g_dev : 0 <= dv < 2 ^ 32;
  g_start : 0 <= start;
  g_end : start + size < 2 ^ 31;
  g_log : forall x, start <= x < start + size -> U (dv, x);
  g_home : forall x, x ∈ secs -> 0 <= x < 2 ^ 31 /\ U (dv, x) /\ ~ (start <= x < start + size);
  g_nodup : NoDup secs;
  g_room : Z.of_nat (length secs) + 1 <= size;
  g_bufs : (length secs < NBUF)%nat;
}.

(** The in-memory record of that transaction. *)
Record describes (g : log) : Prop := {
  d_dev : l_dev g = dv;
  d_start : l_start g = start;
  d_n : lh_n g = Z.of_nat (length secs);
  d_sec : forall i x, secs !! i = Some x -> lh_sector g !! i = Some x;
}.

Definition lkey (j : nat) : key := (dv, start + Z.of_nat j + 1).
Definition hkeys : list key := (fun x => (dv, x)) <$> secs.
Definition log_writes (V : key -> list Z) : list wr :=
  imap (fun j x => (lkey j, V (dv, x))) secs.
Definition home_writes (L : nat -> list Z) : list wr :=
  imap (fun j x => ((dv, x), L j)) secs.

Context (G : geom).

Lemma home_not_log x j : x ∈ secs -> (j < length secs)%nat -> (dv, x) <> lkey j.
Proof.
  intros Hx Hj [= E]. destruct (g_home G x Hx) as (_ & _ & Hn). apply Hn.
  pose proof (g_room G). lia.
Qed.

Lemma home_not_head x : x ∈ secs -> (dv, x) <> (dv, start).
Proof.
  intros Hx [= E]. destruct (g_home G x Hx) as (_ & _ & Hn). apply Hn.
  pose proof (g_room G). lia.
Qed.

Lemma lkey_U j : (j < length secs)%nat -> U (lkey j) /\ 0 <= (lkey j).2 < 2 ^ 32.
Proof.
  intros Hj. pose proof (g_room G). pose proof (g_start G). pose proof (g_end G).
  split; [apply (g_log G); lia|simpl; lia].
Qed.

Lemma hkeys_in x : x ∈ secs -> (dv, x) ∈ hkeys.
Proof. intros. apply list_elem_of_fmap. by exists x. Qed.

Lemma lkey_not_home j : (j < length secs)%nat -> lkey j ∉ hkeys.
Proof.
  intros Hj (x & Hx & Hin)%list_elem_of_fmap. symmetry in Hx. by eapply home_not_log.
Qed.

Lemma wkey_log_writes V k : k ∈ wkey <$> log_writes V ->
  exists j, (j < length secs)%nat /\ k = lkey j.
Proof.
  intros (w & -> & Hw)%list_elem_of_fmap. apply elem_of_lookup_imap in Hw as (j & x & -> & Hj).
  exists j. split; [by eapply lookup_lt_Some|done].
Qed.

Lemma wkey_take_log V m k : k ∈ wkey <$> take m (log_writes V) ->
  exists j, (j < length secs)%nat /\ k = lkey j.
Proof.
  intros Hk. apply (wkey_log_writes V). apply list_elem_of_fmap in Hk as (w & -> & Hw).
  apply list_elem_of_fmap. exists w. split; [done|]. by eapply elem_of_take in Hw as (i & ? & _);
    eapply list_elem_of_lookup_2.
Qed.

Lemma home_unlogged V m W x : x ∈ secs -> apply_writes (take m (log_writes V)) W (dv, x) = W (dv, x).
Proof.
  intros Hx. apply apply_writes_other. intros (j & Hj & E)%wkey_take_log.
  by apply (home_not_log x j).
Qed.

(** [write_log] copies the transaction's blocks into the log. *)
Lemma write_log_wp V W s : describes (lg s) -> abs U (bc s) (AS V W hkeys []) ->
  wp write_log s (fun _ s' t => lg s' = lg s /\ disk_writes t = log_writes V /\
    abs U (bc s') (AS (apply_writes (log_writes V) V) (apply_writes (log_writes V) W) hkeys [])).
Proof.
  intros Hg Ha. unfold write_log. apply wp_bind, wp_gets. unfold for_n.
  rewrite (d_n _ Hg), Nat2Z.id.
  eapply wp_mono; [apply (wp_for_each _ _ (fun k s' t =>
    lg s' = lg s /\ disk_writes t = take k (log_writes V) /\
    abs U (bc s') (AS (apply_writes (take k (log_writes V)) V)
                      (apply_writes (take k (log_writes V)) W) hkeys [])))|].
  - done.
  - intros k y s1 t1 Hy (Hlg & Ht1 & H1). apply lookup_seq in Hy as [-> Hk]. simpl in Hk.
    rewrite (d_dev _ Hg), (d_start _ Hg). change (0 + k)%nat with k.
    destruct (lookup_lt_is_Some_2 secs k Hk) as [x Hx].
    pose proof (list_elem_of_lookup_2 _ _ _ Hx) as Hin.
    destruct (g_home G x Hin) as (Hx1 & HxU & _). destruct (lkey_U k Hk) as [HlU Hl1].
    pose proof (g_dev G) as Hdv. pose proof (g_bufs G) as Hbuf.
    apply wp_bind. eapply (bread'_wp U dv (lkey k).2); [done..| | | |].
    { done. } { apply not_elem_of_nil. }
    { left. simpl. unfold hkeys. rewrite length_fmap. lia. }
    intros to s2 t2 Ht2 Hlg2 H2. cbn [aV aW aD aH] in H2.
    apply wp_bind. eapply get_sector_wp; [rewrite Hlg2, Hlg; by eapply d_sec|].
    apply wp_bind. eapply (bread'_wp U dv x); [done|done|lia|done| | |].
    { cbn [aH]. simpl. rewrite list_elem_of_singleton. by apply home_not_log. }
    { right. by apply hkeys_in. }
    intros from s3 t3 Ht3 Hlg3 H3. cbn [aV aW aD aH] in H3.
    apply wp_bind. eapply get_buf'_wp; [done|by apply elem_of_cons; left|].
    cbn [aV]. rewrite home_unlogged by done. intros fb _ -> Hlen.
    apply wp_bind. eapply copy_block_wp; [done| |done|].
    { apply elem_of_cons; right. by apply elem_of_cons; left. }
    intros s4 Hlg4 H4. cbn [aV aW aD aH] in H4.
    apply wp_bind. eapply (bwrite'_wp U _ _ _ dv (lkey k).2); [done| |].
    { apply elem_of_cons; right. by apply elem_of_cons; left. }
    intros s5 t5 Ht5 Hlg5 H5. cbn [aV aW aD aH] in H5, Ht5. change (dv, (lkey k).2) with (lkey k) in *.
    rewrite upd_same in H5, Ht5.
    apply wp_bind. eapply brelse'_wp; [done|done| | |].
    { simpl. rewrite list_elem_of_singleton. by apply home_not_log. }
    { left. cbn [aD]. apply list_elem_of_filter. split; [by apply home_not_log|by apply hkeys_in]. }
    intros s6 t6 Ht6 Hlg6 H6. cbn [aV aW aD aH] in H6.
    eapply brelse'_wp; [done|done|apply not_elem_of_nil| |].
    { right. cbn [aV aW]. by rewrite !upd_same. }
    intros s7 t7 Ht7 Hlg7 H7. cbn [aV aW aD aH] in H7.
    unfold log_writes. rewrite (take_imap_S _ _ _ _ Hx). fold (log_writes V).
    split_and!; [congruence| |].
    + rewrite !disk_writes_app, Ht1, Ht2, Ht3, Ht5, Ht6, Ht7. done.
    + eapply abs_ext; [done|..]; cbn [aV aW aD aH]; try done.
      * intros k'. by rewrite apply_writes_app.
      * intros k'. by rewrite apply_writes_app.
      * intros k'. unfold unpin. rewrite list_elem_of_filter.
        split; [|tauto]. intros Hk'. split; [|done]. intros ->. by apply (lkey_not_home k).
  - cbv beta. rewrite length_seq. intros _ s' t.
    by rewrite take_ge by (unfold log_writes; by rewrite length_imap).
Qed.

Lemma wkey_take_home L m k : k ∈ wkey <$> take m (home_writes L) -> k ∈ hkeys.
Proof.
  intros (w & -> & Hw)%list_elem_of_fmap. apply elem_of_take in Hw as (i & Hw & _).
  apply list_elem_of_lookup_2, elem_of_lookup_imap in Hw as (j & x & -> & Hj).
  apply hkeys_in. by eapply list_elem_of_lookup_2.
Qed.

Lemma log_uninstalled L m W j : (j < length secs)%nat ->
  apply_writes (take m (home_writes L)) W (lkey j) = W (lkey j).
Proof.
  intros Hj. apply apply_writes_other. intros Hk%wkey_take_home. by apply (lkey_not_home j).
Qed.

(** Unpinning the sectors of the transaction one after the other. *)
Lemma unpin_drop P k x k' : P = hkeys \/ P = [] -> secs !! k = Some x ->
  k' ∈ unpin (dv, x) (drop k P) <-> k' ∈ drop (S k) P.
Proof.
  intros [->| ->] Hx.
  2: { rewrite !drop_nil. unfold unpin. rewrite list_elem_of_filter. by split; [intros [_ ?]|intros ?%not_elem_of_nil]. }
  unfold unpin. rewrite list_elem_of_filter. unfold hkeys. rewrite <-!fmap_drop.
  rewrite (drop_S secs x k Hx), fmap_cons, elem_of_cons.
  split; [tauto|]. intros Hk. split; [|tauto]. intros ->.
  apply list_elem_of_fmap in Hk as (y & [= <-] & Hy).
  pose proof (g_nodup G) as Hnd. rewrite <-(take_drop_middle secs k x Hx) in Hnd.
  apply NoDup_app in Hnd as (_ & _ & Hnd). by apply NoDup_cons in Hnd as [? _].
Qed.

(** [install_trans] copies the log to the home sectors, whether they are still pinned
    (commit) or not (recovery). *)
Lemma install_trans_wp V W P s : P = hkeys \/ P = [] ->
  describes (lg s) -> abs U (bc s) (AS V W P []) ->
  let hw := home_writes (fun j => V (lkey j)) in
  wp install_trans s (fun _ s' t => lg s' = lg s /\ disk_writes t = hw /\
    abs U (bc s') (AS (apply_writes hw V) (apply_writes hw W) [] [])).
Proof.
  intros HP Hg Ha hw. unfold install_trans. apply wp_bind, wp_gets. unfold for_n.
  rewrite (d_n _ Hg), Nat2Z.id.
  assert (length P <= length secs)%nat as HPlen.
  { destruct HP as [->| ->]; [unfold hkeys; by rewrite length_fmap|simpl; lia]. }
  eapply wp_mono; [apply (wp_for_each _ _ (fun k s' t =>
    lg s' = lg s /\ disk_writes t = take k hw /\
    abs U (bc s') (AS (apply_writes (take k hw) V) (apply_writes (take k hw) W) (drop k P) [])))|].
  - rewrite drop_0. done.
  - intros k y s1 t1 Hy (Hlg & Ht1 & H1). apply lookup_seq in Hy as [-> Hk]. simpl in Hk.
    rewrite (d_dev _ Hg), (d_start _ Hg). change (0 + k)%nat with k.
    destruct (lookup_lt_is_Some_2 secs k Hk) as [x Hx].
    pose proof (list_elem_of_lookup_2 _ _ _ Hx) as Hin.
    destruct (g_home G x Hin) as (Hx1 & HxU & _). destruct (lkey_U k Hk) as [HlU Hl1].
    pose proof (g_dev G) as Hdv. pose proof (g_bufs G) as Hbuf.
    apply wp_bind. eapply (bread'_wp U dv (lkey k).2); [done..| | | |].
    { done. } { apply not_elem_of_nil. }
    { left. simpl. rewrite length_drop. lia. }
    intros l s2 t2 Ht2 Hlg2 H2. cbn [aV aW aD aH] in H2.
    apply wp_bind. eapply get_sector_wp; [rewrite Hlg2, Hlg; by eapply d_sec|].
    apply wp_bind. eapply (bread'_wp U dv x); [done|done|lia|done| | |].
    { cbn [aH]. simpl. rewrite list_elem_of_singleton. by apply home_not_log. }
    { cbn [aD aH]. destruct HP as [->| ->]; [right|left; rewrite drop_nil; simpl; unfold NBUF; lia].
      unfold hkeys. rewrite <-fmap_drop, (drop_S secs x k Hx). by apply elem_of_cons; left. }
    intros d s3 t3 Ht3 Hlg3 H3. cbn [aV aW aD aH] in H3.
    apply wp_bind. eapply get_buf'_wp; [done|apply elem_of_cons; right; by apply elem_of_cons; left|].
    cbn [aV]. change (dv, (lkey k).2) with (lkey k) in *. unfold hw. rewrite log_uninstalled by done.
    fold hw. intros lb _ -> Hlen.
    apply wp_bind. eapply copy_block_wp; [done|by apply elem_of_cons; left|done|].
    intros s4 Hlg4 H4. cbn [aV aW aD aH] in H4.
    apply wp_bind. eapply (bwrite'_wp U _ _ _ dv x); [done|by apply elem_of_cons; left|].
    intros s5 t5 Ht5 Hlg5 H5. cbn [aV aW aD aH] in H5, Ht5. rewrite upd_same in H5, Ht5.
    apply wp_bind. eapply brelse'_wp; [by apply abs_swap|done| | |].
    { simpl. rewrite list_elem_of_singleton. intros E. by eapply home_not_log. }
    { right. cbn [aV aW]. rewrite !upd_other by (intros E; symmetry in E; by eapply home_not_log).
      unfold hw. rewrite !log_uninstalled by done.
      apply (abs_clean U _ _ (lkey k) Ha); [done|].
      destruct HP as [->| ->]; [by apply lkey_not_home|apply not_elem_of_nil]. }
    intros s6 t6 Ht6 Hlg6 H6. cbn [aV aW aD aH] in H6.
    eapply brelse'_wp; [done|done|apply not_elem_of_nil| |].
    { right. cbn [aV aW]. by rewrite !upd_same. }
    intros s7 t7 Ht7 Hlg7 H7. cbn [aV aW aD aH] in H7.
    unfold hw. unfold home_writes. rewrite (take_imap_S _ _ _ _ Hx).
    fold (home_writes (fun j => V (lkey j))). fold hw.
    split_and!; [congruence| |].
    + rewrite !disk_writes_app, Ht1, Ht2, Ht3, Ht5, Ht6, Ht7. done.
    + eapply abs_ext; [done|..]; cbn [aV aW aD aH]; try done.
      * intros k'. by rewrite apply_writes_app.
      * intros k'. by rewrite apply_writes_app.
      * intros k'. symmetry. by apply unpin_drop.
  - cbv beta. rewrite length_seq. intros _ s' t.
    rewrite take_ge by (unfold hw, home_writes; by rewrite length_imap).
    by rewrite drop_ge by done.
Qed.
End transaction.

(** ** The header block *)

Fixpoint put_secs (d : list Z) (j : nat) (xs : list Z) : list Z :=
  match xs with
  | [] => d
  | x :: xs' => put_secs (put32 d (4 + 4 * j) x) (S j) xs'
  end.
(** The header block that [write_head] builds in the buffer [d]. *)
Definition head_bytes (d : list Z) (xs : list Z) : list Z :=
  put_secs (put32 d 0 (Z.of_nat (length xs))) 0 xs.
(** The sectors that [read_head] takes from the header block [d]. *)
Definition hdr_secs (d : list Z) : list Z :=
  (fun j => i32 (get32 d (4 + 4 * j))) <$> seq 0 (Z.to_nat (i32 (get32 d 0))).

Lemma length_put32 d off v : (off + 4 <= length d)%nat -> length (put32 d off v) = length d.
Proof. apply length_put_le. Qed.

Lemma length_put_secs xs : forall d j,
  (4 + 4 * (j + length xs) <= length d)%nat -> length (put_secs d j xs) = length d.
Proof.
  induction xs as [|x xs IH]; intros d j Hl; simpl in *; [done|].
  rewrite IH; rewrite length_put32; lia.
Qed.

Lemma put_secs_snoc xs : forall d j x,
  put_secs d j (xs ++ [x]) = put32 (put_secs d j xs) (4 + 4 * (j + length xs)) x.
Proof.
  induction xs as [|y xs IH]; intros d j x; cbn [app put_secs length].
  - by rewrite Nat.add_0_r.
  - rewrite IH. f_equal. lia.
Qed.

Lemma put_secs_before xs : forall d j off,
  (4 + 4 * (j + length xs) <= length d)%nat -> (off + 4 <= 4 + 4 * j)%nat ->
  get32 (put_secs d j xs) off = get32 d off.
Proof.
  induction xs as [|x xs IH]; intros d j off Hl Ho; simpl in *; [done|].
  rewrite IH by (rewrite ?length_put32; lia). apply get32_put32_other; lia.
Qed.

Lemma put_secs_at xs : forall d j i x,
  (4 + 4 * (j + length xs) <= length d)%nat -> xs !! i = Some x ->
  get32 (put_secs d j xs) (4 + 4 * (j + i)) = u32 x.
Proof.
  induction xs as [|y xs IH]; intros d j i x Hl Hi; [done|]. simpl in Hl.
  destruct i as [|i]; simpl in Hi.
  - injection Hi as ->. cbn [put_secs]. rewrite Nat.add_0_r, put_secs_before by (rewrite ?length_put32; lia).
    apply get32_put32. lia.
  - cbn [put_secs]. replace (j + S i)%nat with (S j + i)%nat by lia.
    apply IH; [rewrite length_put32; lia|done].
Qed.

Lemma length_head_bytes d xs : (4 + 4 * length xs <= length d)%nat ->
  length (head_bytes d xs) = length d.
Proof. intros. unfold head_bytes. rewrite length_put_secs; rewrite length_put32; lia. Qed.

(** What is written as header is what is read as header. *)
Lemma hdr_head d xs : (4 + 4 * length xs <= length d)%nat -> Z.of_nat (length d) < 2 ^ 31 ->
  Forall (fun x => 0 <= x < 2 ^ 31) xs -> hdr_secs (head_bytes d xs) = xs.
Proof.
  intros Hl Hd Hx. unfold hdr_secs, head_bytes.
  rewrite put_secs_before by (rewrite ?length_put32; lia).
  rewrite get32_put32 by lia. rewrite i32_u32_small, Nat2Z.id by lia.
  apply list_eq. intros i. rewrite list_lookup_fmap.
  destruct (xs !! i) as [x|] eqn:E.
  - pose proof (lookup_lt_Some _ _ _ E) as Hi. rewrite lookup_seq_lt by done. cbn [fmap option_fmap option_map].
    rewrite (put_secs_at _ _ _ _ x); [|rewrite length_put32; lia|done].
    f_equal. apply i32_u32_small. by eapply Forall_lookup_1 in Hx.
  - apply lookup_ge_None in E. by rewrite lookup_seq_ge.
Qed.

Section headers.
Context {D : Type} `{HD : Driver D} `{HS : !DriverSpec D}.
Implicit Types (s : logsys D).
Context (U : key -> Prop) (dv start : Z).
Context (Hdv : 0 <= dv < 2 ^ 32) (Hst : 0 <= start < 2 ^ 31) (HU : U (dv, start)).
Notation hd := (dv, start).

Lemma store32_wp s a i k off v Q : abs U (bc s) a -> (i, k) ∈ aH a -> (off + 4 <= SECTOR_SIZE)%nat ->
  (forall s', lg s' = lg s ->
     abs U (bc s') (AS (upd k (put32 (aV a k) off v) (aV a)) (aW a) (aD a) (aH a)) -> Q tt s' []) ->
  wp (store32 i off v) s Q.
Proof.
  intros Ha Hi Hl HQ. eapply (set_data'_wp U s a i k (fun d => put32 d off v)); [done|done| |done].
  assert (length (aV a k) = SECTOR_SIZE) as E.
  { rewrite <-(abs_view _ _ _ Ha). apply (abs_holds _ _ _ Ha) in Hi.
    destruct (holds_buf _ i k (abs_wf _ _ _ Ha) Hi) as (b & _ & _ & _ & _ & _ & _ & <- & ? & _).
    done. }
  rewrite length_put32; [done|]. by rewrite E.
Qed.

Lemma write_head_wp V W P xs s : abs U (bc s) (AS V W P []) ->
  l_dev (lg s) = dv -> l_start (lg s) = start -> lh_n (lg s) = Z.of_nat (length xs) ->
  (forall i x, xs !! i = Some x -> lh_sector (lg s) !! i = Some x) ->
  (length xs <= 100)%nat -> (length P < NBUF)%nat -> hd ∉ P ->
  let h := head_bytes (V hd) xs in
  wp write_head s (fun _ s' t => lg s' = lg s /\ disk_writes t = [(dv, start, h)] /\
    abs U (bc s') (AS (upd hd h V) (upd hd h W) P [])).
Proof.
  intros Ha Ed Es En Hsec Hxl HP Hhd h. unfold write_head.
  apply wp_bind, wp_gets. rewrite Ed, Es, En. unfold for_n. rewrite Nat2Z.id.
  apply wp_bind. eapply (bread'_wp U dv start); [done|done|lia|done|apply not_elem_of_nil| |].
  { left. simpl. lia. }
  intros i s1 t1 Ht1 Hlg1 H1. cbn [aV aW aD aH] in H1.
  apply wp_bind. eapply store32_wp; [done|by apply elem_of_cons; left|unfold SECTOR_SIZE; lia|].
  intros s2 Hlg2 H2. cbn [aV aW aD aH] in H2.
  apply wp_bind. eapply wp_mono; [apply (wp_for_each _ _ (fun k s' t =>
    lg s' = lg s /\ disk_writes t = [] /\
    abs U (bc s') (AS (upd hd (put_secs (put32 (V hd) 0 (Z.of_nat (length xs))) 0 (take k xs)) V)
                      W P [(i, hd)])))|].
  - simpl. split_and!; [congruence|done|done].
  - intros k y s3 t3 Hy (Hlg3 & Ht3 & H3). apply lookup_seq in Hy as [-> Hk].
    change (0 + k)%nat with k. destruct (lookup_lt_is_Some_2 xs k Hk) as [x Hx].
    apply wp_bind. eapply get_sector_wp; [rewrite Hlg3; by apply Hsec|].
    eapply store32_wp; [done|by apply elem_of_cons; left|unfold SECTOR_SIZE; lia|].
    intros s4 Hlg4 H4. cbn [aV aW aD aH] in H4. split_and!; [congruence|by rewrite !app_nil_r|].
    eapply abs_ext; [done|..]; cbn [aV aW aD aH]; try done.
    intros k'. unfold upd. destruct (decide (k' = hd)); [|done]. rewrite decide_True by done.
    rewrite (take_S_r _ _ _ Hx), put_secs_snoc, length_take.
    do 2 f_equal. lia.
  - cbv beta. rewrite length_seq, take_ge by done. intros _ s3 t3 (Hlg3 & Ht3 & H3).
    change (put_secs (put32 (V hd) 0 (Z.of_nat (length xs))) 0 xs) with h in H3.
    apply wp_bind. eapply (bwrite'_wp U _ _ _ dv start); [done|by apply elem_of_cons; left|].
    intros s4 t4 Ht4 Hlg4 H4. cbn [aV aW aD aH] in H4, Ht4. rewrite upd_same in H4, Ht4.
    eapply brelse'_wp; [done|done|apply not_elem_of_nil| |].
    { right. cbn [aV aW]. by rewrite !upd_same. }
    intros s5 t5 Ht5 Hlg5 H5. cbn [aV aW aD aH] in H5. split_and!; [congruence| |].
    + rewrite !disk_writes_app, Ht1, Ht3, Ht4, Ht5. done.
    + eapply abs_ext; [done|..]; cbn [aV aW aD aH]; try done.
      intros k'. unfold unpin. rewrite list_elem_of_filter. split; [|tauto].
      intros Hk'. split; [|done]. by intros ->.
Qed.

Lemma read_head_wp V W P s : abs U (bc s) (AS V W P []) ->
  l_dev (lg s) = dv -> l_start (lg s) = start -> (length P < NBUF)%nat -> hd ∉ P ->
  0 <= i32 (get32 (V hd) 0) -> (length (hdr_secs (V hd)) <= length (lh_sector (lg s)))%nat ->
  wp read_head s (fun _ s' t => disk_writes t = [] /\ abs U (bc s') (AS V W P []) /\
    l_dev (lg s') = dv /\ l_start (lg s') = start /\ l_size (lg s') = l_size (lg s) /\
    lh_n (lg s') = Z.of_nat (length (hdr_secs (V hd))) /\
    l_lock (lg s') = l_lock (lg s) /\ l_outstanding (lg s') = l_outstanding (lg s) /\
    l_committing (lg s') = l_committing (lg s) /\
    length (lh_sector (lg s')) = length (lh_sector (lg s)) /\
    (forall i x, hdr_secs (V hd) !! i = Some x -> lh_sector (lg s') !! i = Some x)).
Proof.
  intros Ha Ed Es HP Hhd Hn Hlen. unfold read_head.
  apply wp_bind, wp_gets. rewrite Ed, Es.
  apply wp_bind. eapply (bread'_wp U dv start); [done|done|lia|done|apply not_elem_of_nil| |].
  { left. simpl. lia. }
  intros i s1 t1 Ht1 Hlg1 H1. cbn [aV aW aD aH] in H1.
  apply wp_bind. eapply get_buf'_wp; [done|by apply elem_of_cons; left|]. cbn [aV].
  intros b _ -> Hblen. set (d := V hd) in *.
  apply wp_bind, wp_mod, wp_bind, wp_gets. cbn [lg lh_n set_n]. unfold for_n.
  set (n := Z.to_nat (i32 (get32 d 0))).
  assert (length (hdr_secs d) = n) as Hxs by (unfold hdr_secs; by rewrite length_fmap, length_seq).
  apply wp_bind. eapply wp_mono; [apply (wp_for_each _ _ (fun k s' t =>
    t = [] /\ abs U (bc s') (AS V W P [(i, hd)]) /\
    exists l, lg s' = set_sector l (set_n (i32 (get32 d 0)) (lg s)) /\
      length l = length (lh_sector (lg s)) /\
      forall j x, (j < k)%nat -> hdr_secs d !! j = Some x -> l !! j = Some x))|].
  - simpl. split_and!; [done|done|]. exists (lh_sector (lg s)). rewrite Hlg1.
    split_and!; [done|done|lia].
  - intros k y s3 t3 Hy (-> & H3 & l & Hlg3 & Hll & Hpre). apply lookup_seq in Hy as [-> Hk].
    change (0 + k)%nat with k. unfold put_sector. apply wp_bind, wp_gets.
    rewrite Hlg3. cbn [lh_sector set_sector]. rewrite decide_True by lia.
    apply wp_mod. cbn [lg bc]. split_and!; [done|done|].
    exists (<[k := i32 (get32 d (4 + 4 * k))]> l). rewrite Hlg3. split_and!; [done| |].
    + by rewrite length_insert.
    + intros j x Hj Hjx. destruct (decide (k = j)) as [<-|Hne].
      * rewrite list_lookup_insert_eq by lia. unfold hdr_secs in Hjx.
        rewrite list_lookup_fmap, lookup_seq_lt in Hjx by done. exact Hjx.
      * rewrite list_lookup_insert_ne by done. apply Hpre; [lia|done].
  - cbv beta. rewrite length_seq. intros _ s3 t3 (-> & H3 & l & Hlg3 & Hll & Hpre).
    eapply brelse'_wp; [done|done|apply not_elem_of_nil| |].
    { right. cbn [aV aW]. by apply (abs_clean U _ _ hd Ha). }
    intros s4 t4 Ht4 Hlg4 H4. cbn [aV aW aD aH] in H4. rewrite Hlg4, Hlg3.
    cbn [l_dev l_start l_size lh_n l_lock l_outstanding l_committing lh_sector set_sector set_n].
    split_and!; try done.
    + rewrite !disk_writes_app, Ht1, Ht4. done.
    + rewrite Hxs. unfold n. by rewrite Z2Nat.id.
    + intros j x Hjx. apply Hpre; [|done]. rewrite <-Hxs. by eapply lookup_lt_Some.
Qed.
End headers.

(** ** Commit and recovery *)

Section crash.
Context {D : Type} `{HD : Driver D} `{HS : !DriverSpec D}.
Implicit Types (s : logsys D).
Context (U : key -> Prop) (dv start size : Z).
Notation hd := (dv, start).

(** The file system a disk stands for: the committed transaction its log header names, if
    any, carried out.  This is what recovery makes of it. *)
Definition logical (W : key -> list Z) : key -> list Z :=
  apply_writes (home_writes dv (hdr_secs (W hd)) (fun j => W (lkey dv start j))) W.

(** A sector outside the log. *)
Definition outside (k : key) : Prop := k.1 <> dv \/ ~ (start <= k.2 < start + size).

(** The sectors [commit] writes, in order, for the transaction [secs] with the contents
    [V] over the disk [W]. *)
Definition commit_writes (secs : list Z) (V : key -> list Z) : list wr :=
  log_writes dv start secs V ++ [(dv, start, head_bytes (V hd) secs)] ++
  home_writes dv secs (fun j => V (dv, default 0 (secs !! j))) ++
  [(dv, start, head_bytes (head_bytes (V hd) secs) [])].

Lemma head_not_pinned secs : geom U dv start size secs -> hd ∉ hkeys dv secs.
Proof.
  intros G (x & E & Hx)%list_elem_of_fmap. symmetry in E. by eapply home_not_head.
Qed.

Lemma head_unlogged secs V W m : geom U dv start size secs ->
  apply_writes (take m (log_writes dv start secs V)) W hd = W hd.
Proof.
  intros G. apply apply_writes_other. intros Hk.
  apply wkey_take_log in Hk as (j & Hj & E).
  injection E as E. pose proof (g_start _ _ _ _ _ G). lia.
Qed.

Lemma log_block secs V W j x : geom U dv start size secs -> secs !! j = Some x ->
  apply_writes (log_writes dv start secs V) W (lkey dv start j) = V (dv, x).
Proof.
  intros G Hx. apply apply_writes_in.
  - unfold log_writes. apply NoDup_fmap_2_strong.
    + intros w1 w2 (j1 & x1 & -> & H1)%elem_of_lookup_imap (j2 & x2 & -> & H2)%elem_of_lookup_imap E.
      assert (j1 = j2) as -> by (injection E; lia). by rewrite H1 in H2; injection H2 as ->.
    + apply NoDup_alt. intros i i' w. rewrite !list_lookup_imap.
      destruct (secs !! i), (secs !! i'); simpl; try done.
      intros [= <-] [= E]. lia.
  - apply elem_of_lookup_imap. by exists j, x.
Qed.

Lemma home_writes_ext secs L L' :
  (forall j, (j < length secs)%nat -> L' j = L j) -> home_writes dv secs L' = home_writes dv secs L.
Proof.
  intros H. unfold home_writes. apply imap_ext. intros i x Hi.
  by rewrite H by (by eapply lookup_lt_Some).
Qed.

Lemma commit_wp secs V W s : geom U dv start size secs -> describes dv start secs (lg s) ->
  secs <> [] -> abs U (bc s) (AS V W (hkeys dv secs) []) ->
  wp commit s (fun _ s' t => lg s' = set_n 0 (lg s) /\ disk_writes t = commit_writes secs V /\
    exists V', abs U (bc s') (AS V' (apply_writes (commit_writes secs V) W) [] [])).
Proof.
  intros G Hg Hne Ha. unfold commit. apply wp_bind, wp_gets.
  rewrite (d_n _ _ _ _ Hg), (proj2 (Z.ltb_lt _ _)).
  2: { destruct secs; [done|simpl; lia]. }
  pose proof (g_bufs _ _ _ _ _ G) as Hb. pose proof (g_room _ _ _ _ _ G) as Hr.
  pose proof (g_start _ _ _ _ _ G) as Hst. pose proof (g_end _ _ _ _ _ G) as He.
  assert (U hd) as HU by (apply (g_log _ _ _ _ _ G); lia).
  assert (length secs <= 100)%nat as H100 by (unfold NBUF in Hb; lia).
  apply wp_bind. eapply wp_mono; [by eapply write_log_wp|]. cbv beta.
  intros _ s1 t1 (Hlg1 & Ht1 & H1).
  apply wp_bind. eapply wp_mono; [eapply (write_head_wp U dv start (g_dev _ _ _ _ _ G) ltac:(lia) HU _ _ _ secs)|].
  { apply H1. } { rewrite Hlg1. apply Hg. } { rewrite Hlg1. apply Hg. } { rewrite Hlg1. apply Hg. }
  { rewrite Hlg1. apply Hg. } { done. }
  { unfold hkeys. by rewrite length_fmap. } { by apply head_not_pinned. }
  cbv beta zeta. intros _ s2 t2 (Hlg2 & Ht2 & H2).
  assert (apply_writes (log_writes dv start secs V) V hd = V hd) as Ehd.
  { pose proof (head_unlogged secs V V (length secs) G) as E.
    by rewrite take_ge in E by (unfold log_writes; by rewrite length_imap). }
  rewrite Ehd in H2, Ht2.
  apply wp_bind. eapply wp_mono; [eapply install_trans_wp; [done|by left|by rewrite Hlg2, Hlg1|done]|].
  cbv beta zeta. intros _ s3 t3 (Hlg3 & Ht3 & H3).
  assert (home_writes dv secs (fun j => upd hd (head_bytes (V hd) secs)
            (apply_writes (log_writes dv start secs V) V) (lkey dv start j)) =
          home_writes dv secs (fun j => V (dv, default 0 (secs !! j)))) as Eh.
  { apply home_writes_ext. intros j Hj. rewrite upd_other by (intros [= E]; lia).
    destruct (lookup_lt_is_Some_2 secs j Hj) as [x Hx]. rewrite Hx. simpl. by apply log_block. }
  rewrite Eh in H3, Ht3.
  apply wp_bind, wp_mod.
  eapply wp_mono; [eapply (write_head_wp U dv start (g_dev _ _ _ _ _ G) ltac:(lia) HU _ _ _ [])|].
  { apply H3. } { simpl. rewrite Hlg3, Hlg2, Hlg1. apply Hg. }
  { simpl. rewrite Hlg3, Hlg2, Hlg1. apply Hg. } { done. } { done. }
  { simpl. lia. } { simpl. unfold NBUF. lia. } { apply not_elem_of_nil. }
  cbv beta zeta. intros _ s4 t4 (Hlg4 & Ht4 & H4).
  assert (forall W', apply_writes (home_writes dv secs (fun j => V (dv, default 0 (secs !! j)))) W' hd
            = W' hd) as Eh2.
  { intros W'. apply apply_writes_other. intros (w & E & Hw)%list_elem_of_fmap.
    apply elem_of_lookup_imap in Hw as (j & x & -> & Hx). eapply (home_not_head _ _ _ _ _ G x).
    - by eapply list_elem_of_lookup_2.
    - symmetry. exact E. }
  rewrite Eh2, upd_same in H4, Ht4. split_and!.
  - rewrite Hlg4. simpl. by rewrite Hlg3, Hlg2, Hlg1.
  - unfold commit_writes. rewrite !disk_writes_app, Ht1, Ht2, Ht3, Ht4. simpl. done.
  - eexists. eapply abs_ext; [apply H4|done|..]; cbn [aW aD aH]; try done.
    intros k. unfold commit_writes. rewrite !apply_writes_app. simpl. done.
Qed.

(** Recovery carries out the transaction the header names and clears the header. *)
Lemma recover_wp W s : let secs := hdr_secs (W hd) in
  geom U dv start size secs -> l_dev (lg s) = dv -> l_start (lg s) = start ->
  length (lh_sector (lg s)) = Z.to_nat LOGSIZE -> 0 <= i32 (get32 (W hd) 0) ->
  abs U (bc s) (AS W W [] []) ->
  let hw := home_writes dv secs (fun j => W (lkey dv start j)) ++
            [(dv, start, head_bytes (W hd) [])] in
  wp recover_from_log s (fun _ s' t => lh_n (lg s') = 0 /\ l_dev (lg s') = dv /\
    l_start (lg s') = start /\ disk_writes t = hw /\
    exists V', abs U (bc s') (AS V' (apply_writes hw W) [] [])).
Proof.
  intros secs G Ed Es Hl Hn Ha hw. unfold recover_from_log.
  pose proof (g_bufs _ _ _ _ _ G) as Hb. pose proof (g_room _ _ _ _ _ G) as Hr.
  pose proof (g_start _ _ _ _ _ G) as Hst. pose proof (g_end _ _ _ _ _ G) as He.
  assert (U hd) as HU by (apply (g_log _ _ _ _ _ G); lia).
  apply wp_bind. eapply wp_mono.
  { eapply (read_head_wp U dv start (g_dev _ _ _ _ _ G) ltac:(lia) HU W W []); try done.
    - simpl. unfold NBUF. lia.
    - apply not_elem_of_nil.
    - rewrite Hl. fold secs. unfold NBUF in Hb. change (Z.to_nat LOGSIZE) with 30%nat. lia. }
  cbv beta zeta. intros _ s1 t1 (Ht1 & H1 & Ed1 & Es1 & _ & En1 & _ & _ & _ & _ & Hsec1).
  apply wp_bind. eapply wp_mono; [eapply install_trans_wp; [done|by right|by split|done]|].
  cbv beta zeta. intros _ s2 t2 (Hlg2 & Ht2 & H2).
  apply wp_bind, wp_mod.
  eapply wp_mono; [eapply (write_head_wp U dv start (g_dev _ _ _ _ _ G) ltac:(lia) HU _ _ _ [])|].
  { apply H2. } { simpl. by rewrite Hlg2. } { simpl. by rewrite Hlg2. } { done. } { done. }
  { simpl. lia. } { simpl. unfold NBUF. lia. } { apply not_elem_of_nil. }
  cbv beta zeta. intros _ s3 t3 (Hlg3 & Ht3 & H3).
  assert (forall W' L, apply_writes (home_writes dv secs L) W' hd = W' hd) as Eh2.
  { intros W' L. apply apply_writes_other. intros (w & E & Hw)%list_elem_of_fmap.
    apply elem_of_lookup_imap in Hw as (j & x & -> & Hx). eapply (home_not_head _ _ _ _ _ G x).
    - by eapply list_elem_of_lookup_2.
    - symmetry. exact E. }
  fold secs in H2, H3, Ht2, Ht3. rewrite Eh2 in H3, Ht3.
  rewrite Hlg3. cbn [lg lh_n l_dev l_start set_n]. rewrite Hlg2.
  split_and!; [done|done|done| |].
  - unfold hw. rewrite !disk_writes_app, Ht1, Ht2, Ht3. simpl. done.
  - eexists. eapply abs_ext; [apply H3|done|..]; cbn [aW aD aH]; try done.
    intros k. unfold hw. rewrite !apply_writes_app. simpl. done.
Qed.

(** ** Crashes *)

Lemma prefix_app_cases {A} (p l1 l2 : list A) : p `prefix_of` l1 ++ l2 ->
  p `prefix_of` l1 \/ exists q, p = l1 ++ q /\ q `prefix_of` l2.
Proof.
  intros [r E]. destruct (app_eq_inv _ _ _ _ (eq_sym E)) as [(k & -> & ->)|(k & -> & ->)].
  - right. exists k. split; [done|]. by exists r.
  - left. by exists k.
Qed.

Lemma prefix_single {A} (p : list A) x : p `prefix_of` [x] -> p = [] \/ p = [x].
Proof.
  intros [r E]. destruct p as [|y p]; [by left|right]. injection E as <- E.
  by destruct p.
Qed.

Lemma take_prefix {A} (p l : list A) : p `prefix_of` l -> p = take (length p) l.
Proof. intros [r ->]. by rewrite take_app_length. Qed.

Section prefixes.
Context (secs : list Z) (G : geom U dv start size secs).

Lemma outside_log k j : outside k -> (j < length secs)%nat -> k <> lkey dv start j.
Proof.
  intros Ho Hj ->. pose proof (g_room _ _ _ _ _ G). pose proof (g_start _ _ _ _ _ G).
  destruct Ho as [Ho|Ho]; simpl in Ho; [done|lia].
Qed.

Lemma outside_head k : outside k -> k <> hd.
Proof.
  intros Ho ->. pose proof (g_room _ _ _ _ _ G).
  destruct Ho as [Ho|Ho]; simpl in Ho; [done|lia].
Qed.

Lemma home_in L k W j x : secs !! j = Some x -> k = (dv, x) ->
  apply_writes (home_writes dv secs L) W k = L j.
Proof.
  intros Hx ->. apply apply_writes_in.
  - unfold home_writes. apply NoDup_alt. intros i i' w.
    rewrite !list_lookup_fmap, !list_lookup_imap.
    destruct (secs !! i) as [y|] eqn:E1; [|done]. destruct (secs !! i') as [y'|] eqn:E2; [|done].
    simpl. intros [= <-] [= <-]. eapply NoDup_lookup; [apply (g_nodup _ _ _ _ _ G)|done|done].
  - apply elem_of_lookup_imap. by exists j, x.
Qed.

Lemma home_keys L m k : k ∈ wkey <$> take m (home_writes dv secs L) -> k ∈ hkeys dv secs.
Proof. by apply wkey_take_home. Qed.

(** A disk whose header names the transaction and whose log holds it. *)
Lemma logical_committed W V k : hdr_secs (W hd) = secs ->
  (forall j x, secs !! j = Some x -> W (lkey dv start j) = V (dv, x)) ->
  (k ∉ hkeys dv secs -> W k = V k) -> logical W k = V k.
Proof.
  intros Hh Hl Hk. unfold logical. rewrite Hh.
  destruct (decide (k ∈ hkeys dv secs)) as [Hin|Hout].
  - apply list_elem_of_fmap in Hin as (x & -> & Hx).
    apply list_elem_of_lookup in Hx as [j Hx]. rewrite (home_in _ _ _ j x) by done. by apply Hl.
  - rewrite apply_writes_other; [by apply Hk|]. intros Hin. apply Hout.
    eapply (home_keys _ (length secs)). rewrite take_ge; [done|].
    unfold home_writes. by rewrite length_imap.
Qed.

Lemma logical_ext W W' k : (forall k, W' k = W k) -> logical W' k = logical W k.
Proof.
  intros H. unfold logical. rewrite H.
  rewrite (home_writes_ext _ (fun j => W (lkey dv start j))) by (intros; apply H).
  by apply apply_writes_ext.
Qed.

Lemma logical_empty W k : hdr_secs (W hd) = [] -> logical W k = W k.
Proof. intros H. unfold logical. by rewrite H. Qed.

Lemma home_untouched L m W k : k ∉ hkeys dv secs ->
  apply_writes (take m (home_writes dv secs L)) W k = W k.
Proof. intros Hk. apply apply_writes_other. intros Hin%home_keys. done. Qed.

Lemma lkey_untouched L m W j : (j < length secs)%nat ->
  apply_writes (take m (home_writes dv secs L)) W (lkey dv start j) = W (lkey dv start j).
Proof. intros Hj. apply home_untouched. by eapply lkey_not_home. Qed.

Lemma home_lt (L : nat -> list Z) : length (home_writes dv secs L) = length secs.
Proof. unfold home_writes. by rewrite length_imap. Qed.

(** *** The phases of a commit *)

Section phases.
Context (V W : key -> list Z) (Hlen : length (V hd) = SECTOR_SIZE) (Hh : hdr_secs (W hd) = []).
Context (HVW : forall k, k ∉ hkeys dv secs -> V k = W k).
Let lw := log_writes dv start secs V.
Let hdr := head_bytes (V hd) secs.
Let hw := home_writes dv secs (fun j => V (dv, default 0 (secs !! j))).
(** The disk once the header is written. *)
Let W1 := upd hd hdr (apply_writes lw W).

Lemma hdr_names : hdr_secs hdr = secs.
Proof.
  pose proof (g_bufs _ _ _ _ _ G) as Hb. unfold NBUF in Hb.
  apply hdr_head; rewrite ?Hlen; [unfold SECTOR_SIZE; lia|done|].
  apply Forall_forall. intros x Hx. by apply (g_home _ _ _ _ _ G).
Qed.

Lemma hdr_cleared : hdr_secs (head_bytes hdr []) = [].
Proof.
  pose proof (g_bufs _ _ _ _ _ G) as Hb. unfold NBUF in Hb.
  apply hdr_head; unfold hdr; rewrite ?length_head_bytes; rewrite ?Hlen; try done;
    unfold SECTOR_SIZE; simpl; lia.
Qed.

Lemma length_lw : length lw = length secs.
Proof. unfold lw, log_writes. by rewrite length_imap. Qed.

(** Before the header is written nothing outside the log has changed. *)
Lemma commit_old p : p `prefix_of` lw ->
  apply_writes p W hd = W hd /\ forall k, outside k -> logical (apply_writes p W) k = W k.
Proof.
  intros Hp. assert (apply_writes p W hd = W hd) as E.
  { rewrite (take_prefix _ _ Hp). by apply head_unlogged. }
  split; [done|]. intros k Hk. rewrite logical_empty by (by rewrite E).
  rewrite (take_prefix _ _ Hp). apply apply_writes_other.
  intros (j & Hj & Ej)%wkey_take_log. by apply (outside_log k j).
Qed.

Lemma W1_log j x : secs !! j = Some x -> W1 (lkey dv start j) = V (dv, x).
Proof.
  intros Hx. unfold W1. rewrite upd_other by (intros [= E]; lia). by eapply log_block.
Qed.

Lemma W1_out k : outside k -> k ∉ hkeys dv secs -> W1 k = V k.
Proof.
  intros Ho Hk. unfold W1. rewrite upd_other by (by apply outside_head).
  rewrite apply_writes_other; [by rewrite HVW|].
  intros (j & Hj & E)%wkey_log_writes. by apply (outside_log k j).
Qed.

(** From the header on the transaction is decided. *)
Lemma commit_new r : r `prefix_of` hw ->
  apply_writes r W1 hd = hdr /\ forall k, outside k -> logical (apply_writes r W1) k = V k.
Proof.
  intros Hr. rewrite (take_prefix _ _ Hr). unfold hw.
  assert (forall m L, apply_writes (take m (home_writes dv secs L)) W1 hd = hdr) as E.
  { intros m L. rewrite home_untouched by (by eapply head_not_pinned). apply upd_same. }
  split; [apply E|]. intros k Hk. apply logical_committed.
  - rewrite E. apply hdr_names.
  - intros j x Hx. rewrite lkey_untouched by (by eapply lookup_lt_Some). by apply W1_log.
  - intros Hk'. rewrite home_untouched by done. by apply W1_out.
Qed.

(** Clearing the header forgets nothing: every sector is at home. *)
Lemma commit_done :
  let W2 := upd hd (head_bytes hdr []) (apply_writes hw W1) in
  W2 hd = head_bytes hdr [] /\ forall k, outside k -> logical W2 k = V k.
Proof.
  intros W2. split; [apply upd_same|]. intros k Hk.
  rewrite logical_empty by (unfold W2; rewrite upd_same; apply hdr_cleared).
  unfold W2. rewrite upd_other by (by apply outside_head).
  destruct (decide (k ∈ hkeys dv secs)) as [Hin|Hn].
  - apply list_elem_of_fmap in Hin as (x & -> & Hx).
    apply list_elem_of_lookup in Hx as [j Hx]. unfold hw.
    rewrite (home_in _ _ _ j x) by done. by rewrite Hx.
  - unfold hw. rewrite <-(firstn_all (home_writes _ _ _)), home_untouched by done. by apply W1_out.
Qed.

(** The header block and the file system after each prefix of [commit]'s writes. *)
Lemma commit_prefix p : p `prefix_of` commit_writes secs V ->
  if decide (length p <= length secs)%nat
  then apply_writes p W hd = W hd /\ forall k, outside k -> logical (apply_writes p W) k = W k
  else (apply_writes p W hd = hdr \/ apply_writes p W hd = head_bytes hdr []) /\
       forall k, outside k -> logical (apply_writes p W) k = V k.
Proof.
  intros Hp. unfold commit_writes in Hp. fold lw hw hdr in Hp.
  apply prefix_app_cases in Hp as [Hp|(q & -> & Hq)].
  { rewrite decide_True; [by apply commit_old|]. apply prefix_length in Hp. by rewrite length_lw in Hp. }
  apply prefix_app_cases in Hq as [[->| ->]%prefix_single|(r & -> & Hr)].
  - rewrite app_nil_r, decide_True; [by apply commit_old|]. by rewrite length_lw.
  - rewrite length_app, length_lw, decide_False by (simpl; lia).
    destruct (commit_new []) as [H1 H2]; [apply prefix_nil|].
    assert (forall k, apply_writes (lw ++ [(dv, start, hdr)]) W k = W1 k) as E.
    { intros k. by rewrite apply_writes_app. }
    rewrite E. split; [by left|]. intros k Hk. rewrite (logical_ext W1) by done. by apply H2.
  - rewrite !length_app, length_lw, decide_False by (simpl; lia).
    assert (forall r k, apply_writes (lw ++ [(dv, start, hdr)] ++ r) W k = apply_writes r W1 k) as E.
    { intros r' k. by rewrite !apply_writes_app. }
    rewrite E. setoid_rewrite (logical_ext (apply_writes r W1)); [|intros; apply E].
    apply prefix_app_cases in Hr as [Hr|(z & -> & [->| ->]%prefix_single)].
    + destruct (commit_new r Hr) as [H1 H2]. auto.
    + rewrite app_nil_r. destruct (commit_new hw) as [H1 H2]; [done|]. auto.
    + destruct commit_done as [H1 H2]. rewrite apply_writes_app. split; [by right|].
      intros k Hk. rewrite <-H2 by done. apply logical_ext. intros k'. by rewrite apply_writes_app.
Qed.
End phases.

(** Every prefix of recovery's writes leaves the same file system to recover. *)
Lemma recover_prefix W p : hdr_secs (W hd) = secs -> length (W hd) = SECTOR_SIZE ->
  p `prefix_of` home_writes dv secs (fun j => W (lkey dv start j)) ++
                [(dv, start, head_bytes (W hd) [])] ->
  (apply_writes p W hd = W hd \/ apply_writes p W hd = head_bytes (W hd) []) /\
  forall k, outside k -> logical (apply_writes p W) k = logical W k.
Proof.
  intros Hh Hlen Hp. set (L := fun j => W (lkey dv start j)).
  assert (forall k, logical W k = apply_writes (home_writes dv secs L) W k) as EL.
  { intros k. unfold logical. by rewrite Hh. }
  assert (forall m, let W' := apply_writes (take m (home_writes dv secs L)) W in
            W' hd = W hd /\ forall k, outside k -> logical W' k = logical W k) as Hmid.
  { intros m W'. assert (W' hd = W hd) as E.
    { unfold W'. by rewrite home_untouched by (by eapply head_not_pinned). }
    split; [done|]. intros k Hk.
    rewrite (logical_committed W' (fun k => logical W k)); [done|by rewrite E| |].
    - intros j x Hx. rewrite EL. unfold W'. rewrite lkey_untouched by (by eapply lookup_lt_Some).
      by rewrite (home_in _ _ _ j x).
    - intros Hk'. rewrite EL. unfold W'. rewrite home_untouched by done.
      rewrite <-(firstn_all (home_writes _ _ _)). by rewrite home_untouched. }
  apply prefix_app_cases in Hp as [Hp|(z & -> & [->| ->]%prefix_single)].
  - rewrite (take_prefix _ _ Hp). destruct (Hmid (length p)) as [H1 H2]. auto.
  - rewrite app_nil_r, <-(firstn_all (home_writes _ _ _)).
    destruct (Hmid (length (home_writes dv secs L))) as [H1 H2]. auto.
  - rewrite apply_writes_app. simpl. rewrite upd_same. split; [by right|]. intros k Hk.
    rewrite logical_empty.
    + rewrite apply_writes_app. simpl. rewrite upd_other by (by apply outside_head). by rewrite EL.
    + rewrite apply_writes_app. simpl. rewrite upd_same.
      apply hdr_head; rewrite ?Hlen; simpl; unfold SECTOR_SIZE; try lia. done.
Qed.
End prefixes.

(** ** Operations *)

(** The machine after a restart: nothing cached, the log record empty. *)
Record booted s (W : key -> list Z) : Prop := {
  bt_abs : abs U (bc s) (AS W W [] []);
  bt_dev : l_dev (lg s) = dv;
  bt_start : l_start (lg s) = start;
  bt_secs : length (lh_sector (lg s)) = Z.to_nat LOGSIZE;
}.

(** A disk recovery can work on: its header is in range and names a transaction that fits. *)
Definition recoverable (W : key -> list Z) : Prop :=
  geom U dv start size (hdr_secs (W hd)) /\ 0 <= i32 (get32 (W hd) 0) /\
  length (W hd) = SECTOR_SIZE.

(** What recovery leaves: an empty log, and the file system the disk stood for. *)
Definition recovered s (F : key -> list Z) : Prop :=
  lh_n (lg s) = 0 /\ exists V W, abs U (bc s) (AS V W [] []) /\ hdr_secs (W hd) = [] /\
    forall k, outside k -> W k = F k.

Lemma recover_ok W s : booted s W -> recoverable W ->
  wp recover_from_log s (fun _ s' t => recovered s' (logical W) /\
    disk_writes t = home_writes dv (hdr_secs (W hd)) (fun j => W (lkey dv start j)) ++
                    [(dv, start, head_bytes (W hd) [])]).
Proof.
  intros [Ha Ed Es Hl] (G & Hn & Hlen). eapply wp_mono; [by eapply recover_wp|].
  cbv beta zeta. intros _ s' t (En & _ & _ & Ht & V' & Ha'). split; [|done]. split; [done|].
  eexists _, _. split; [done|]. split.
  - rewrite apply_writes_app. simpl. rewrite upd_same.
    apply hdr_head; rewrite ?Hlen; simpl; unfold SECTOR_SIZE; try lia. done.
  - intros k Hk. rewrite apply_writes_app. simpl.
    by rewrite upd_other by (by eapply outside_head).
Qed.

Lemma recovered_ext s F F' : (forall k, outside k -> F' k = F k) -> recovered s F -> recovered s F'.
Proof.
  intros H (Hn & V & W & Ha & Hh & HF). split; [done|]. exists V, W. split_and!; [done|done|].
  intros k Hk. rewrite H by done. by apply HF.
Qed.

Lemma geom_nil secs : geom U dv start size secs -> geom U dv start size [].
Proof.
  intros [H1 H2 H3 H4 H5 H6 H7 H8]. split; try done.
  - intros x ?%not_elem_of_nil. done.
  - constructor.
  - simpl. lia.
  - simpl. unfold NBUF. lia.
Qed.

Lemma recoverable_hdr secs d (W : key -> list Z) : geom U dv start size secs ->
  length d = SECTOR_SIZE -> W hd = head_bytes d secs -> recoverable W.
Proof.
  intros G Hd E. pose proof (g_bufs _ _ _ _ _ G) as Hb. unfold NBUF in Hb.
  assert (4 + 4 * length secs <= length d)%nat as Hl by (rewrite Hd; unfold SECTOR_SIZE; lia).
  unfold recoverable. rewrite E. split_and!.
  - rewrite hdr_head; [done|done|by rewrite Hd|].
    apply Forall_forall. intros x Hx. by apply (g_home _ _ _ _ _ G).
  - unfold head_bytes. rewrite put_secs_before by (rewrite ?length_put32; lia).
    rewrite get32_put32 by lia. rewrite i32_u32_small; lia.
  - by rewrite length_head_bytes.
Qed.

(** The on-disk log before a commit: no transaction. *)
Definition log_empty (W : key -> list Z) : Prop :=
  hdr_secs (W hd) = [] /\ 0 <= i32 (get32 (W hd) 0) /\ length (W hd) = SECTOR_SIZE.

Lemma commit_prefix_recoverable secs V W p : geom U dv start size secs ->
  length (V hd) = SECTOR_SIZE -> log_empty W -> (forall k, k ∉ hkeys dv secs -> V k = W k) ->
  p `prefix_of` commit_writes secs V -> recoverable (apply_writes p W).
Proof.
  intros G HV (Hh & Hn & Hl) HVW Hp.
  pose proof (commit_prefix secs G V W HV Hh HVW p Hp) as Hc.
  destruct (decide _) as [_|_].
  - destruct Hc as [E _]. split; rewrite E; [rewrite Hh; by eapply geom_nil|done].
  - destruct Hc as [[E|E] _]; [by apply (recoverable_hdr secs (V hd))|].
    apply (recoverable_hdr [] (head_bytes (V hd) secs)); [by eapply geom_nil| |done].
    pose proof (g_bufs _ _ _ _ _ G) as Hb. unfold NBUF in Hb.
    by rewrite length_head_bytes by (rewrite HV; unfold SECTOR_SIZE; lia).
Qed.

(** A machine about to end its last operation: the transaction [secs] is pinned in the
    cache with contents [V], the disk [W] below it has an empty log. *)
Record ready (secs : list Z) (V W : key -> list Z) s : Prop := {
  r_geom : geom U dv start size secs;
  r_desc : describes dv start secs (lg s);
  r_lock : l_lock (lg s) = false;
  r_last : l_outstanding (lg s) = 1;
  r_idle : l_committing (lg s) = 0;
  r_some : secs <> [];
  r_abs : abs U (bc s) (AS V W (hkeys dv secs) []);
  r_empty : log_empty W;
}.

Lemma ready_clean secs V W s : ready secs V W s -> forall k, k ∉ hkeys dv secs -> V k = W k.
Proof. intros R k Hk. by apply (abs_clean U _ _ k (r_abs _ _ _ _ R)). Qed.

Lemma ready_hd secs V W s : ready secs V W s -> length (V hd) = SECTOR_SIZE.
Proof.
  intros R. rewrite (ready_clean _ _ _ _ R); [apply (r_empty _ _ _ _ R)|].
  eapply head_not_pinned, (r_geom _ _ _ _ R).
Qed.

Lemma end_op_wp secs V W s : ready secs V W s ->
  wp end_op s (fun _ s' t => disk_writes t = commit_writes secs V /\ lh_n (lg s') = 0 /\
    l_outstanding (lg s') = 0 /\ l_committing (lg s') = 0 /\ l_lock (lg s') = false /\
    exists V', abs U (bc s') (AS V' (apply_writes (commit_writes secs V) W) [] [])).
Proof.
  intros R. unfold end_op. apply wp_bind, wp_acquire; [apply R|].
  apply wp_bind, wp_mod, wp_bind, wp_gets.
  cbn [lg bc lput log_lock set_l_lock set_outstanding l_committing l_outstanding].
  rewrite (r_idle _ _ _ _ R), (r_last _ _ _ _ R).
  cbn [Z.eqb negb Z.sub Z.add Z.opp Z.pos_sub Pos.sub].
  apply wp_bind, wp_bind, wp_mod, wp_ret. apply wp_bind, wp_release; [done|].
  apply wp_bind. eapply wp_mono.
  { eapply commit_wp; [apply R| |apply R|].
    - destruct (r_desc _ _ _ _ R). by split.
    - apply (r_abs _ _ _ _ R). }
  cbv beta. intros _ s1 t1 (Hlg & Ht & V' & Ha).
  apply wp_bind, wp_acquire; [simpl; by rewrite Hlg|].
  apply wp_bind, wp_mod, wp_bind. unfold wakeup. apply wp_emit, wp_release; [done|].
  cbn [lg bc lput log_lock set_l_lock set_committing lh_n l_outstanding l_committing l_lock].
  rewrite Hlg. split_and!; try done.
  - rewrite !disk_writes_app, Ht. simpl. by rewrite !app_nil_r.
  - by exists V'.
Qed.
End crash.
