(* ===== verification/LogSafety.v ===== *)
(** * Crash safety and space reservation of the log

    The claims about kernel/log.c: an operation's writes reach the disk all or not at
    all, whatever point the machine stops at, recovery included; a write is absorbed
    into the transaction; and the reservation made by [begin_op]. *)

From stdpp Require Import base list strings sets sorting relations.
From Stdlib Require Import ZArith Lia.
From S2P Require Import Prelude CString Bytes Spinlock Disk Bio Cache Log.
Open Scope Z_scope.

(** ** [log_write] *)

Lemma find_sector_spec secs l x : (forall i y, secs !! i = Some y -> l !! i = Some y) ->
  Forall (fun y => 0 <= y < 2 ^ 31) secs -> forall n i, (i + n = length secs)%nat ->
  (forall j, (j < i)%nat -> secs !! j <> Some x) ->
  let r := find_sector l x n i in
  (r < length secs /\ secs !! r = Some x)%nat \/ (r = length secs /\ x ∉ secs).
Proof.
  intros Hl Hr. induction n as [|n IH]; intros i Hi Hpre; simpl.
  - right. split; [lia|]. intros [j Hj]%list_elem_of_lookup.
    apply (Hpre j); [|done]. apply lookup_lt_Some in Hj. lia.
  - destruct (lookup_lt_is_Some_2 secs i) as [y Hy]; [lia|]. rewrite (Hl _ _ Hy).
    eapply Forall_lookup_1 in Hr as Hy'; [|done]. rewrite u32_small by lia.
    destruct (Z.eqb_spec y x) as [->|Hne].
    + left. split; [lia|done].
    + apply IH; [lia|]. intros j Hj. destruct (decide (j = i)) as [->|Hji]; [congruence|].
      apply Hpre. lia.
Qed.

(** The transaction after a write to sector [x]: absorbed if already in. *)
Definition absorb (secs : list Z) (x : Z) : list Z :=
  if decide (x ∈ secs) then secs else secs ++ [x].

Section logwrite.
Context {D : Type} `{HD : Driver D} `{HS : !DriverSpec D}.
Implicit Types (s : logsys D).

Lemma log_write_wp U dv start secs x i a s Q :
  abs U (bc s) a -> (i, (dv, x)) ∈ aH a -> describes dv start secs (lg s) ->
  Forall (fun y => 0 <= y < 2 ^ 31) secs -> 0 <= x < 2 ^ 31 ->
  lh_n (lg s) < LOGSIZE -> lh_n (lg s) < l_size (lg s) - 1 -> 1 <= l_outstanding (lg s) ->
  length (lh_sector (lg s)) = Z.to_nat LOGSIZE ->
  (forall s', describes dv start (absorb secs x) (lg s') ->
     l_lock (lg s') = l_lock (lg s) -> l_outstanding (lg s') = l_outstanding (lg s) ->
     l_committing (lg s') = l_committing (lg s) -> l_size (lg s') = l_size (lg s) ->
     length (lh_sector (lg s')) = Z.to_nat LOGSIZE ->
     abs U (bc s') (AS (aV a) (aW a) ((dv, x) :: aD a) (aH a)) -> Q tt s' []) ->
  wp (log_write i) s Q.
Proof.
  intros Ha Hi Hg Hr Hx H1 H2 H3 Hll HQ. unfold log_write. apply wp_bind, wp_gets.
  rewrite (proj2 (Z.leb_gt _ _) H1), (proj2 (Z.leb_gt (l_size (lg s) - 1) _)) by lia. cbn [orb].
  rewrite (proj2 (Z.ltb_ge _ _) H3). apply wp_bind. eapply get_buf'_wp; [done..|].
  intros b Hb _ _. injection Hb as _ Hbs. rewrite Hbs.
  pose proof (d_n _ _ _ _ Hg) as Hn. rewrite Hn, Nat2Z.id.
  set (j := find_sector (lh_sector (lg s)) x (length secs) 0).
  assert ((j < length secs /\ secs !! j = Some x)%nat \/ (j = length secs /\ x ∉ secs)) as Hj.
  { apply find_sector_spec; [apply Hg|done|lia|lia]. }
  assert (j < length (lh_sector (lg s)))%nat as Hjl.
  { rewrite Hll. rewrite Hn in H1. destruct Hj as [[? _]|[? _]]; lia. }
  apply wp_bind. unfold put_sector. apply wp_bind, wp_gets. rewrite decide_True by done.
  apply wp_mod. rewrite (i32_small_id x Hx).
  assert (describes dv start (absorb secs x)
    (let g1 := set_sector (<[j := x]> (lh_sector (lg s))) (lg s) in
     if Z.of_nat j =? Z.of_nat (length secs) then set_n (Z.of_nat (length secs) + 1) g1 else g1)) as Hd.
  { destruct Hg as [G1 G2 G3 G4]. unfold absorb. destruct Hj as [[Hj1 Hj2]|[Hj1 Hj2]].
    - rewrite decide_True by (by eapply list_elem_of_lookup_2).
      rewrite (proj2 (Z.eqb_neq _ _)) by lia. split; try done.
      intros i' y Hy. cbn [lh_sector set_sector]. rewrite list_insert_id; [by apply G4|by apply G4].
    - rewrite decide_False by done. rewrite Hj1, Z.eqb_refl. split; try done.
      + cbn [lh_n set_n]. rewrite length_app. simpl. lia.
      + intros i' y Hy. cbn [lh_sector set_sector set_n].
        apply lookup_app_Some in Hy as [Hy|[Hy1 Hy2]].
        * rewrite list_lookup_insert_ne; [by apply G4|]. apply lookup_lt_Some in Hy. lia.
        * apply list_lookup_singleton_Some in Hy2 as [E ->].
          replace i' with (length secs) by lia. apply list_lookup_insert_eq. by rewrite <-Hj1. }
  apply wp_bind. destruct (Z.of_nat j =? Z.of_nat (length secs)) eqn:Ej; [apply wp_mod|apply wp_ret];
    apply wp_zoom; (eapply mark_dirty_wp; [done|done|]); intros c Hc;
    apply HQ; cbn [lg bc lput the_cache lh_n lh_sector set_n set_sector]; try done;
    try (by rewrite length_insert).
  rewrite Hn. exact Hd.
Qed.
End logwrite.

(** ** Atomicity *)

Section safety.
Context {D : Type} `{HD : Driver D} `{HS : !DriverSpec D}.
Implicit Types (s : logsys D).

(** Started on disk contents [W], recovery returns, with the log empty and every sector
    outside it as in [F]. *)
Definition recovers_to U dv start size (W F : key -> list Z) : Prop :=
  forall s0, booted U dv start s0 W ->
  wp recover_from_log s0 (fun _ s1 _ => recovered U dv start size s1 F).

(** C1. Crash atomicity of a file system operation.  When the last operation of a
    transaction ends, [end_op] returns with the transaction on the disk and the log empty;
    and if the machine stops after any number of the sector writes it makes (the prefix
    [p] of its writes), then on restart [recover_from_log] returns, leaves the log empty,
    and leaves every sector outside the log as before the transaction if the header had
    not been written, and as after it otherwise: never a mixture. *)
Theorem end_op_crash_atomic U dv start size secs V W s :
  ready U dv start size secs V W s ->
  wp end_op s (fun _ s' t =>
    lh_n (lg s') = 0 /\
    (forall k, outside dv start size k -> on_disk (bc s') k = V k) /\
    forall p, p `prefix_of` disk_writes t ->
    recovers_to U dv start size (apply_writes p W)
      (if decide (length p <= length secs)%nat then W else V)).
Proof.
  intros R. pose proof (ready_clean _ _ _ _ _ _ _ _ R) as HVW.
  pose proof (ready_hd _ _ _ _ _ _ _ _ R) as HV. pose proof (r_geom _ _ _ _ _ _ _ _ R) as G.
  destruct (r_empty _ _ _ _ _ _ _ _ R) as (Hh & Hn & Hl).
  eapply wp_mono; [by eapply end_op_wp|]. cbv beta.
  intros _ s' t (Ht & En & _ & _ & _ & V' & Ha). rewrite Ht.
  split_and!; [done| |].
  - intros k Hk. rewrite (abs_disk _ _ _ Ha). cbn [aW].
    destruct (commit_done U dv start size secs G V W HV HVW) as [E1 E2].
    pose proof (E2 k Hk) as E3.
    rewrite logical_empty in E3 by (rewrite E1; by eapply hdr_cleared).
    etransitivity; [|exact E3]. unfold commit_writes. by rewrite !apply_writes_app.
  - intros p Hp s0 Hs0.
    pose proof (commit_prefix U dv start size secs G V W HV Hh HVW p Hp) as Hc.
    eapply wp_mono; [apply (recover_ok _ _ _ size _ _ Hs0)|].
    { eapply commit_prefix_recoverable; [apply G|apply HV|by split|done|done]. }
    cbv beta. intros _ s1 t1 [Hr _]. eapply recovered_ext; [|apply Hr].
    intros k Hk. destruct (decide _); destruct Hc as [_ Hc]; symmetry; by apply Hc.
Qed.

(** C2. Crashes during recovery.  [recover_from_log] returns and leaves the file system the
    log stood for ([logical]); if the machine stops again after any prefix of its writes,
    the next recovery leaves that same file system. *)
Theorem recovery_crash_idempotent U dv start size W s :
  booted U dv start s W -> recoverable U dv start size W ->
  wp recover_from_log s (fun _ s' t =>
    recovered U dv start size s' (logical dv start W) /\
    forall p, p `prefix_of` disk_writes t ->
    recovers_to U dv start size (apply_writes p W) (logical dv start W)).
Proof.
  intros Hb Hr. eapply wp_mono; [by eapply recover_ok|]. cbv beta.
  intros _ s' t [H1 Ht]. split; [done|]. rewrite Ht. intros p Hp s0 Hs0.
  pose proof Hr as (G & Hn & Hl).
  destruct (recover_prefix U dv start size _ G W p eq_refl Hl Hp) as [Hh HL].
  eapply wp_mono; [apply (recover_ok _ _ _ size _ _ Hs0)|].
  { destruct Hh as [E|E].
    - unfold recoverable. by rewrite E.
    - apply (recoverable_hdr U dv start size [] (W (dv, start))); [by eapply geom_nil|done|done]. }
  cbv beta. intros _ s1 t1 [H2 _]. eapply recovered_ext; [|apply H2].
  intros k Hk. symmetry. by apply HL.
Qed.

End safety.

(** ** A small machine

    An eight-sector memory disk of zeros, with a log of three sectors at sector 5, and an
    operation that changes sector 2. *)

Definition demo_log : log := Log false 5 3 0 0 1 0 (replicate (Z.to_nat LOGSIZE) 0).
(** Start the cache, then begin an operation, change the sector and log the change. *)
Definition demo_boot : K (logsys memdisk) unit := zoom the_cache binit.
Definition demo_op : K (logsys memdisk) unit :=
  demo_boot ;;;
  begin_op ;;;
  let! i := bread' 1 2 in
  store32 i 0 7 ;;;
  log_write i ;;;
  brelse' i.

Lemma demo_boot_wp :
  wp demo_boot (Logsys demo_log demo_cache) (fun _ s t =>
    t = [] /\ lg s = demo_log /\ abs demo_U (bc s) (AS demo_W demo_W [] [])).
Proof.
  apply wp_zoom. eapply wp_mono; [apply (binit_abs demo_U demo_cache)|].
  - done.
  - intros i b Hb%list_elem_of_lookup_2. apply elem_of_replicate in Hb as [-> _]. done.
  - apply demo_usable.
  - cbv beta. by intros _ s' t (-> & _ & Ha).
Qed.

Lemma demo_geom secs : secs = [] \/ secs = [2] -> geom demo_U 1 5 3 secs.
Proof.
  intros Hs. split; try lia.
  - intros x Hx. split; simpl; lia.
  - intros x Hx. assert (x = 2) as ->.
    { destruct Hs as [-> | ->]; [by apply not_elem_of_nil in Hx|].
      by apply list_elem_of_singleton in Hx. }
    split_and!; [lia|lia| |lia]. by split; simpl.
  - destruct Hs as [-> | ->]; [constructor|apply NoDup_singleton].
  - destruct Hs as [-> | ->]; simpl; lia.
  - destruct Hs as [-> | ->]; simpl; unfold NBUF; lia.
Qed.

Lemma demo_log_empty : log_empty 1 5 demo_W.
Proof. split_and!; [by vm_compute|by vm_compute|by vm_compute]. Qed.

Lemma demo_op_wp : wp demo_op (Logsys demo_log demo_cache) (fun _ s _ =>
  ready demo_U 1 5 3 [2] (upd (1, 2) (put32 (demo_W (1, 2)) 0 7) demo_W) demo_W s).
Proof.
  unfold demo_op. apply wp_bind. eapply wp_mono; [apply demo_boot_wp|]. cbv beta.
  intros _ s1 t1 (_ & Hlg & Ha). destruct s1 as [g1 c1]. simpl in Hlg, Ha. subst g1.
  apply wp_bind. unfold begin_op. apply wp_bind, wp_acquire; [done|].
  apply wp_bind, wp_gets. cbn -[wp]. apply wp_bind, wp_mod, wp_release; [done|].
  apply wp_bind. eapply (bread'_wp demo_U); [apply Ha|lia|lia|by split; simpl|apply not_elem_of_nil| |].
  { left. simpl. unfold NBUF. lia. }
  intros i s2 t2 _ Hlg2 H2. cbn [aV aW aD aH] in H2. apply wp_bind.
  eapply store32_wp; [apply H2|by apply elem_of_cons; left|unfold SECTOR_SIZE; lia|].
  intros s3 Hlg3 H3. cbn [aV aW aD aH] in H3. apply wp_bind.
  rewrite Hlg2 in Hlg3. clear Hlg2 H2 s2.
  eapply (log_write_wp demo_U 1 5 [] 2); [apply H3|by apply elem_of_cons; left|..];
    rewrite ?Hlg3; try done.
  intros s4 Hd4 L1 L2 L3 L4 L5 H4. cbn [aV aW aD aH] in H4.
  eapply brelse'_wp; [apply H4|done|apply not_elem_of_nil|left; by apply elem_of_cons; left|].
  intros s5 t5 _ Hlg5 H5. cbn [aV aW aD aH] in H5. split; rewrite ?Hlg5; try done.
  apply demo_geom. by right.
Qed.

(** The state from which the claims' hypotheses hold. *)
Lemma demo_ready : exists s V, ready demo_U 1 5 3 [2] V demo_W s /\ V (1, 2) <> demo_W (1, 2).
Proof.
  destruct (wp_run _ _ _ demo_op_wp) as (_ & s & _ & _ & R). eexists s, _. split; [apply R|].
  rewrite upd_same. by vm_compute.
Qed.

Lemma end_op_crash_atomic_witness : exists s V,
  ready demo_U 1 5 3 [2] V demo_W s /\ V (1, 2) <> demo_W (1, 2) /\
  wp end_op s (fun _ s' t =>
    lh_n (lg s') = 0 /\
    (forall k, outside 1 5 3 k -> on_disk (bc s') k = V k) /\
    forall p, p `prefix_of` disk_writes t ->
    recovers_to demo_U 1 5 3 (apply_writes p demo_W)
      (if decide (length p <= 1)%nat then demo_W else V)).
Proof.
  destruct demo_ready as (s & V & R & HV). exists s, V. split; [exact R|]. split; [exact HV|].
  exact (end_op_crash_atomic demo_U 1 5 3 [2] V demo_W s R).
Defined.

Lemma demo_booted : exists s, booted demo_U 1 5 s demo_W.
Proof.
  destruct (wp_run _ _ _ demo_boot_wp) as (_ & s & _ & _ & _ & Hlg & Ha). exists s.
  split; [done|by rewrite Hlg..].
Qed.

Lemma recovery_crash_idempotent_witness : exists s, booted demo_U 1 5 s demo_W /\
  wp recover_from_log s (fun _ s' t =>
    recovered demo_U 1 5 3 s' (logical 1 5 demo_W) /\
    forall p, p `prefix_of` disk_writes t ->
    recovers_to demo_U 1 5 3 (apply_writes p demo_W) (logical 1 5 demo_W)).
Proof.
  destruct demo_booted as [s Hs]. exists s. split; [exact Hs|].
  apply (recovery_crash_idempotent demo_U 1 5 3 demo_W s Hs).
  destruct demo_log_empty as (H1 & H2 & H3). split_and!; [|exact H2|exact H3].
  rewrite H1. apply demo_geom. by left.
Defined.

(** ** Space reservation

    Several operations at once: [ops] lists the operations between their [begin_op] and
    their [end_op], each with the number of [log_write] calls it has made; an operation
    makes at most MAXOPBLOCKS of them.  Whatever else they do to the cache leaves the log
    record alone. *)

Section reservation.
Context {D : Type} `{HD : Driver D}.
Implicit Types (s : logsys D).

Inductive lstep : logsys D * list Z -> logsys D * list Z -> Prop :=
| ls_begin s ops t s' : begin_op s = (t, Ret tt s') -> lstep (s, ops) (s', 0 :: ops)
| ls_write s ops i c b t s' : ops !! i = Some c -> c < MAXOPBLOCKS ->
    log_write b s = (t, Ret tt s') -> lstep (s, ops) (s', <[i := c + 1]> ops)
| ls_end s ops i t s' : (i < length ops)%nat ->
    end_op s = (t, Ret tt s') -> lstep (s, ops) (s', delete i ops)
| ls_cache s ops c : lstep (s, ops) (Logsys (lg s) c, ops).

(** What the open operations may still log. *)
Fixpoint budget (ops : list Z) : Z :=
  match ops with [] => 0 | c :: ops' => (MAXOPBLOCKS - c) + budget ops' end.

Record reserved (st : logsys D * list Z) : Prop := {
  rs_out : l_outstanding (lg st.1) = Z.of_nat (length st.2);
  rs_idle : l_committing (lg st.1) = 0;
  rs_ops : Forall (fun c => 0 <= c <= MAXOPBLOCKS) st.2;
  rs_n : 0 <= lh_n (lg st.1);
  rs_room : lh_n (lg st.1) + budget st.2 <= LOGSIZE;
}.

Lemma budget_nonneg ops : Forall (fun c => 0 <= c <= MAXOPBLOCKS) ops -> 0 <= budget ops.
Proof. induction 1; simpl; lia. Qed.

Lemma budget_insert ops i c : ops !! i = Some c -> budget (<[i := c + 1]> ops) = budget ops - 1.
Proof.
  revert i. induction ops as [|d ops IH]; intros [|i] H; simpl in *; [done|done| |].
  - injection H as ->. lia.
  - rewrite (IH _ H). lia.
Qed.

Lemma budget_delete ops i : Forall (fun c => 0 <= c <= MAXOPBLOCKS) ops ->
  budget (delete i ops) <= budget ops.
Proof.
  revert i. induction ops as [|d ops IH]; intros [|i] H; simpl in *; inversion_clear H as [|??? H2];
    [lia|lia|lia|]. specialize (IH i H2). simpl in *. lia.
Qed.

Lemma budget_pos ops i c : Forall (fun c => 0 <= c <= MAXOPBLOCKS) ops ->
  ops !! i = Some c -> c < MAXOPBLOCKS -> 1 <= budget ops.
Proof.
  revert i. induction ops as [|d ops IH]; intros [|i] H Hi Hc; simpl in *; [done|done|..];
    inversion_clear H as [|??? H2].
  - injection Hi as ->. pose proof (budget_nonneg ops H2). lia.
  - specialize (IH i H2 Hi Hc). lia.
Qed.

(** Computations that return with the log record as it was. *)
Definition keeps {A} (m : K (logsys D) A) : Prop :=
  forall s t a s', m s = (t, Ret a s') -> lg s' = lg s.

Lemma keeps_bind {A B} (m : K (logsys D) A) (f : A -> K (logsys D) B) :
  keeps m -> (forall a, keeps (f a)) -> keeps (kbind m f).
Proof.
  intros Hm Hf s t b s' H. unfold kbind in H.
  destruct (m s) as [t1 [a s1|]] eqn:E1; [|done].
  destruct (f a s1) as [t2 [b' s2|]] eqn:E2; [|done]. injection H as _ _ <-.
  rewrite (Hf _ _ _ _ _ E2). by eapply Hm.
Qed.
Lemma keeps_zoom {A} (m : K (bcache D) A) : keeps (zoom the_cache m).
Proof.
  intros s t a s' H. unfold zoom in H. destruct (m _) as [t1 [a1 c|]]; [|done].
  by injection H as _ _ <-.
Qed.
Lemma keeps_gets {A} (f : logsys D -> A) : keeps (gets f).
Proof. intros s t a s' [= _ _ <-]. done. Qed.
Lemma keeps_get_sector i : keeps (get_sector (D:=D) i).
Proof.
  apply keeps_bind; [apply keeps_gets|]. intros g. destruct (_ !! i).
  - intros s t a s' [= _ _ <-]. done.
  - intros s t a s' H. done.
Qed.
Lemma keeps_for_n n (body : nat -> K (logsys D) unit) :
  (forall i, keeps (body i)) -> keeps (for_n n body).
Proof.
  intros Hb. unfold for_n. induction (seq 0 (Z.to_nat n)) as [|x l IH]; simpl.
  - intros s t a s' [= _ _ <-]. done.
  - apply keeps_bind; [apply Hb|done].
Qed.

#[local] Hint Resolve keeps_zoom keeps_gets keeps_get_sector : keeps.
(** Prove [keeps] by the structure of the computation. *)
Ltac keeps_tac :=
  repeat lazymatch goal with
         | |- keeps (kbind _ _) => apply keeps_bind
         | |- keeps (for_n _ _) => apply keeps_for_n
         | |- keeps _ => solve [eauto with keeps]
         | |- forall _, _ => intro
         end.

Lemma keeps_write_log : keeps (write_log (D:=D)).
Proof. unfold write_log, bread', get_buf', copy_block, bwrite', brelse'. keeps_tac. Qed.
Lemma keeps_install_trans : keeps (install_trans (D:=D)).
Proof. unfold install_trans, bread', get_buf', copy_block, bwrite', brelse'. keeps_tac. Qed.
Lemma keeps_write_head : keeps (write_head (D:=D)).
Proof. unfold write_head, bread', store32, bwrite', brelse'. keeps_tac. Qed.

(** A commit that returns has emptied the transaction, and changed nothing else. *)
Lemma commit_log s t s' : 0 <= lh_n (lg s) -> commit s = (t, Ret tt s') -> lg s' = set_n 0 (lg s).
Proof.
  intros Hn H. unfold commit, kbind, gets in H. simpl in H.
  destruct (Z.ltb_spec 0 (lh_n (lg s))) as [Hlt|Hge].
  - destruct (write_log s) as [t1 [[] s1|]] eqn:E1; [|done].
    destruct (write_head s1) as [t2 [[] s2|]] eqn:E2; [|done].
    destruct (install_trans s2) as [t3 [[] s3|]] eqn:E3; [|done].
    simpl in H. destruct (write_head (Logsys _ _)) as [t4 [[] s4|]] eqn:E4; [|done].
    simpl in H. injection H as _ <-. apply keeps_write_log in E1. apply keeps_write_head in E2.
    apply keeps_install_trans in E3. apply keeps_write_head in E4. simpl in E4. congruence.
  - simpl in H. injection H as _ <-. replace 0 with (lh_n (lg s)) by lia. by destruct (lg s).
Qed.

Lemma begin_op_inv s t s' : begin_op s = (t, Ret tt s') ->
  l_committing (lg s) = 0 /\ lh_n (lg s) + (l_outstanding (lg s) + 1) * MAXOPBLOCKS <= LOGSIZE /\
  lg s' = set_outstanding (l_outstanding (lg s) + 1) (set_l_lock false (lg s)).
Proof.
  unfold begin_op, acquire, release, ksleep, kbind, gets, kmod, upd_log. simpl.
  destruct (l_lock (lg s)); simpl; [done|].
  destruct (Z.eqb_spec (l_committing (lg s)) 0); simpl; [|done].
  destruct (Z.ltb_spec LOGSIZE (lh_n (lg s) + (l_outstanding (lg s) + 1) * MAXOPBLOCKS)); simpl; [done|].
  intros [= _ <-]. split_and!; [done|lia|done].
Qed.

Lemma log_write_inv b s t s' : log_write b s = (t, Ret tt s') ->
  l_outstanding (lg s') = l_outstanding (lg s) /\ l_committing (lg s') = l_committing (lg s) /\
  lh_n (lg s) <= lh_n (lg s') <= lh_n (lg s) + 1.
Proof.
  unfold log_write. intros H.
  destruct ((LOGSIZE <=? lh_n (lg s)) || (l_size (lg s) - 1 <=? lh_n (lg s)))%bool eqn:E1.
  { unfold kbind, gets in H. simpl in H. by rewrite E1 in H. }
  destruct (l_outstanding (lg s) <? 1) eqn:E2.
  { unfold kbind, gets in H. simpl in H. by rewrite E1, E2 in H. }
  erewrite kbind_pure in H by reflexivity. cbv beta in H. rewrite E1, E2 in H.
  unfold kbind in H.
  destruct (get_buf' b s) as [t1 [bb s1|]] eqn:G1; [|done].
  apply keeps_zoom in G1. unfold put_sector, kbind, gets in H. simpl in H.
  destruct (decide _) as [Hd|]; [|done]. unfold upd_log, kmod in H. simpl in H.
  destruct (_ =? lh_n (lg s)) eqn:E3; simpl in H; injection H as _ <-; simpl; rewrite G1;
    simpl; split_and!; try done; lia.
Qed.

Lemma end_op_inv s t s' : 0 <= lh_n (lg s) -> end_op s = (t, Ret tt s') ->
  l_outstanding (lg s') = l_outstanding (lg s) - 1 /\ l_committing (lg s) = 0 /\
  l_committing (lg s') = 0 /\
  lh_n (lg s') = if l_outstanding (lg s) =? 1 then 0 else lh_n (lg s).
Proof.
  intros Hn H. unfold end_op, acquire, release, kbind, gets, kmod, upd_log, wakeup, emit in H.
  simpl in H. destruct (l_lock (lg s)); simpl in H; [done|].
  destruct (Z.eqb_spec (l_committing (lg s)) 0) as [Hc|]; simpl in H; [|done].
  destruct (Z.eqb_spec (l_outstanding (lg s)) 1) as [Ho|Ho];
    [rewrite (proj2 (Z.eqb_eq (l_outstanding (lg s) - 1) 0)) in H by lia
    |rewrite (proj2 (Z.eqb_neq (l_outstanding (lg s) - 1) 0)) in H by lia]; simpl in H.
  - destruct (commit _) as [t1 [[] s1|]] eqn:E; [|done]. apply commit_log in E; [|done].
    simpl in H. rewrite E in H. simpl in H. injection H as _ <-. simpl.
    by rewrite E.
  - by injection H as _ <-.
Qed.

Lemma reserved_step st st' : lstep st st' -> reserved st -> reserved st'.
Proof.
  intros Hs [H1 H2 H3 H4 H5]. destruct Hs as [s ops t s' H|s ops i c b t s' Hi Hc H|s ops i t s' Hi H|];
    simpl in *.
  - apply begin_op_inv in H as (_ & Hr & E). split; simpl; rewrite ?E; simpl; try done.
    + lia.
    + constructor; [unfold MAXOPBLOCKS; lia|done].
    + clear -H1 H3 Hr. assert (budget ops <= MAXOPBLOCKS * Z.of_nat (length ops)).
      { clear -H3. induction H3; simpl; lia. }
      nia.
  - apply log_write_inv in H as (E1 & E2 & E3).
    pose proof (Forall_lookup_1 _ _ _ _ H3 Hi) as Hc'. simpl in Hc'.
    split; simpl; rewrite ?E1, ?E2; try done.
    + by rewrite length_insert.
    + apply Forall_insert; [done|lia].
    + lia.
    + rewrite budget_insert by done. lia.
  - apply end_op_inv in H as (E1 & E2 & E3 & E4); [|done]. split; simpl; rewrite ?E1, ?E3, ?E4; try done.
    + rewrite length_delete by (by apply lookup_lt_is_Some). lia.
    + by apply Forall_delete.
    + destruct (_ =? 1); lia.
    + pose proof (budget_delete ops i H3). destruct (Z.eqb_spec (l_outstanding (lg s)) 1) as [Ho|Ho]; [|lia].
      pose proof (budget_nonneg _ H3). lia.
  - by split.
Qed.

Lemma reserved_reachable st st' : rtc lstep st st' -> reserved st -> reserved st'.
Proof. induction 1; eauto using reserved_step. Qed.

(** A write the reservation covers is never refused for lack of space in a log of more
    than LOGSIZE sectors. *)
Lemma log_write_no_panic b s msg s' t : lh_n (lg s) < LOGSIZE -> LOGSIZE < l_size (lg s) ->
  1 <= l_outstanding (lg s) -> log_write b s <> (t, Stop (Panicked msg) s').
Proof.
  intros H1 H2 H3 H. unfold log_write in H. erewrite kbind_pure in H by reflexivity. cbv beta in H.
  rewrite (proj2 (Z.leb_gt _ _) H1), (proj2 (Z.leb_gt (l_size (lg s) - 1) _)) in H by lia.
  rewrite (proj2 (Z.ltb_ge _ _) H3) in H. simpl in H.
  cbv beta iota zeta delta [kbind get_buf' zoom get_buf gets put_sector upd_log upd_buf kmod kret
    fault kstop the_cache lget lput] in H.
  destruct (bufs (bc s) !! b); [|done]. destruct (decide _); [|done].
  by destruct (_ =? lh_n (lg s)).
Qed.

(** C3. Reservation.  However the operations of several processes interleave, the log
    record never counts more than LOGSIZE sectors, [log.outstanding] counts the open
    operations, and as long as no operation logs more than MAXOPBLOCKS blocks and the
    on-disk log has more than LOGSIZE sectors, no [log_write] panics. *)
Theorem reservation_bound s0 s ops :
  lh_n (lg s0) = 0 -> l_outstanding (lg s0) = 0 -> l_committing (lg s0) = 0 ->
  rtc lstep (s0, []) (s, ops) ->
  0 <= lh_n (lg s) <= LOGSIZE /\ l_outstanding (lg s) = Z.of_nat (length ops) /\
  forall i c b msg t s', ops !! i = Some c -> c < MAXOPBLOCKS -> LOGSIZE < l_size (lg s) ->
    log_write b s <> (t, Stop (Panicked msg) s').
Proof.
  intros H1 H2 H3 Hr. destruct (reserved_reachable _ _ Hr) as [E1 E2 E3 E4 E5].
  { split; simpl; rewrite ?H1, ?H2, ?H3; unfold LOGSIZE, MAXOPBLOCKS; try lia; done. }
  simpl in *. pose proof (budget_nonneg _ E3). split_and!; [lia|lia|done|].
  intros i c b msg t s' Hi Hc Hsz. pose proof (budget_pos _ _ _ E3 Hi Hc).
  apply log_write_no_panic; [lia|done|]. rewrite E1. apply lookup_lt_Some in Hi. lia.
Qed.
End reservation.

(** Three operations at once, each logging distinct blocks: the buffers of [crowd_cache] hold the
    sectors 0 to 29, and operation [2 - i / 10] logs buffer [i]. *)
Definition crowd_cache : bcache memdisk :=
  Bcache false ((fun i => Buf B_BUSY 1 (Z.of_nat i) 0 0 []) <$> seq 0 (S NBUF)) (Memdisk []).
Definition crowd_log (size : Z) : log := Log false 900 size 0 0 1 0 (replicate (Z.to_nat LOGSIZE) 0).

(** Run one step of an operation, when it returns. *)
Definition ran {A} (r : list event * outcome (logsys memdisk) A) (s : logsys memdisk) : logsys memdisk :=
  match r.2 with Ret _ s' => s' | Stop _ _ => s end.
Fixpoint crowd_writes (n : nat) (st : logsys memdisk * list Z) : logsys memdisk * list Z :=
  match n with
  | O => st
  | S n' =>
      let st1 := crowd_writes n' st in
      let op := (2 - n' / 10)%nat in
      (ran (log_write n' st1.1) st1.1, <[op := default 0 (st1.2 !! op) + 1]> st1.2)
  end.
Definition crowd_start (size : Z) : logsys memdisk * list Z :=
  let s1 := Logsys (crowd_log size) crowd_cache in
  let s2 := ran (begin_op s1) s1 in
  let s3 := ran (begin_op s2) s2 in
  (ran (begin_op s3) s3, [0; 0; 0]).

Lemma begin_ran s ops :
  (if (begin_op s).2 is Ret _ _ then true else false) = true ->
  lstep (s, ops) (ran (begin_op s) s, 0 :: ops).
Proof.
  intros H. unfold ran. destruct (begin_op s) as [t [[] s'|]] eqn:E; [|done].
  by eapply ls_begin.
Qed.

Lemma crowd_begins size : rtc lstep (Logsys (crowd_log size) crowd_cache, []) (crowd_start size).
Proof.
  unfold crowd_start. eapply rtc_l; [apply begin_ran; by vm_compute|].
  eapply rtc_l; [apply begin_ran; by vm_compute|].
  eapply rtc_l; [apply begin_ran; by vm_compute|]. apply rtc_refl.
Qed.

(** Each of those writes is a step, as checked by evaluation. *)
Definition write_ok (n' : nat) (st : logsys memdisk * list Z) : bool :=
  match (log_write n' st.1).2, st.2 !! (2 - n' / 10)%nat with
  | Ret _ _, Some c => c <? MAXOPBLOCKS
  | _, _ => false
  end.
Fixpoint writes_ok (n : nat) (st : logsys memdisk * list Z) : bool :=
  match n with
  | O => true
  | S n' => (writes_ok n' st && write_ok n' (crowd_writes n' st))%bool
  end.

Lemma crowd_steps n st : writes_ok n st = true -> rtc lstep st (crowd_writes n st).
Proof.
  induction n as [|n IH]; intros H; [done|]. cbn [writes_ok] in H.
  apply andb_true_iff in H as [H1 H2]. eapply rtc_r; [by apply IH|].
  unfold write_ok in H2. cbn [crowd_writes]. destruct (crowd_writes n st) as [s ops]. cbn [fst snd] in *.
  destruct (log_write n s) as [t [[] s'|]] eqn:E; [|done]. cbn [snd] in H2.
  destruct (ops !! (2 - n / 10)%nat) as [c|] eqn:Ec; [|done].
  exact (ls_write s ops _ c n t s' Ec (proj1 (Z.ltb_lt _ _) H2) E).
Qed.

Lemma reservation_bound_witness : exists s ops,
  rtc lstep (Logsys (crowd_log 31) crowd_cache, []) (s, ops) /\ lh_n (lg s) = 29 /\
  0 <= lh_n (lg s) <= LOGSIZE /\ l_outstanding (lg s) = Z.of_nat (length ops) /\
  forall i c b msg t s', ops !! i = Some c -> c < MAXOPBLOCKS -> LOGSIZE < l_size (lg s) ->
    log_write b s <> (t, Stop (Panicked msg) s').
Proof.
  assert (rtc lstep (Logsys (crowd_log 31) crowd_cache, [])
    ((crowd_writes 29 (crowd_start 31)).1, (crowd_writes 29 (crowd_start 31)).2)) as Hr.
  { etransitivity; [apply crowd_begins|]. rewrite <-surjective_pairing.
    apply crowd_steps. by vm_compute. }
  eexists _, _. split; [exact Hr|]. split; [by vm_compute|].
  exact (reservation_bound (Logsys (crowd_log 31) crowd_cache) _ _ eq_refl eq_refl eq_refl Hr).
Defined.

(** C4. The reservation exceeds the log that tools/mkfs.c formats.  mkfs gives the log
    LOGSIZE sectors, header included, so it holds LOGSIZE - 1 blocks while [begin_op]
    admits operations for LOGSIZE blocks: three operations that each keep to their
    MAXOPBLOCKS can reach a [log_write] that panics. *)
Theorem formatted_log_overflows : exists s ops i c b t s',
  rtc lstep (Logsys (crowd_log LOGSIZE) crowd_cache, []) (s, ops) /\
  ops !! i = Some c /\ c < MAXOPBLOCKS /\
  log_write b s = (t, Stop (Panicked "too big a transaction") s').
Proof.
  exists (crowd_writes 29 (crowd_start LOGSIZE)).1, (crowd_writes 29 (crowd_start LOGSIZE)).2.
  exists 0%nat, 9, 29%nat. eexists _, _. split_and!.
  - etransitivity; [apply crowd_begins|]. rewrite <-surjective_pairing.
    apply crowd_steps. by vm_compute.
  - by vm_compute.
  - done.
  - by vm_compute.
Qed.
