(* ===== verification/Proc.v ===== *)
(** * Processes and the scheduler: kernel/proc.c

    The process table is the list of its nodes in chain order; a [struct proc *] is an
    index into it.  What processes need from the rest of the kernel (pages, address
    spaces, open files, inodes, the log) is the interface [ProcEnv]. *)

From stdpp Require Import base list strings sets.
From Stdlib Require Import ZArith Lia.
From S2P Require Import Prelude CString Spinlock.
Open Scope Z_scope.

Definition NOFILE : nat := 16.
Definition KSTACKSIZE : Z := 4096.
Definition PROC_BLESSED : Z := 1.
Definition PROC_DAMNED : Z := 0.
Definition PROC_NO_BOOST_PRIORITY : Z := 10.
Definition PROC_DEFAULT_PRIORITY : Z := 128.
Definition PROC_MAX_PRIORITY : Z := 255.
Definition CPU_RESERVED_BLESS : Z := 1.
Definition CPU_DISABLED : Z := 2.

Inductive procstate := UNUSED | EMBRYO | SLEEPING | RUNNABLE | RUNNING | ZOMBIE.
#[export] Instance procstate_eq_dec : EqDecision procstate.
Proof. solve_decision. Defined.

Definition is_state (a b : procstate) : bool := bool_decide (a = b).

(** [struct proc]; [tf_eax] is the one field of the trap frame that fork changes, [tf]
    the rest of it. *)
Record proc := Proc {
  sz : Z;
  pgdir : Z;
  kstack : Z;
  state : procstate;
  pid : Z;
  parent : option nat;
  tf : list Z;
  tf_eax : Z;
  pchan : option chan;
  killed : Z;
  ofile : list (option nat);
  cwd : option nat;
  pname_ : list Z;
  blessed : Z;
  priority : Z;
  skipped : Z;
  rpipe : option nat;
  wpipe : option nat;
}.

(** A node of a zeroed page. *)
Definition zero_proc : proc :=
  Proc 0 0 0 UNUSED 0 None [] 0 None 0 (replicate NOFILE None) None (replicate 16 0) 0 0 0 None None.

Definition set_state (v : procstate) (p : proc) : proc :=
  Proc (sz p) (pgdir p) (kstack p) v (pid p) (parent p) (tf p) (tf_eax p) (pchan p) (killed p)
    (ofile p) (cwd p) (pname_ p) (blessed p) (priority p) (skipped p) (rpipe p) (wpipe p).
Definition set_sz (v : Z) (p : proc) : proc :=
  Proc v (pgdir p) (kstack p) (state p) (pid p) (parent p) (tf p) (tf_eax p) (pchan p) (killed p)
    (ofile p) (cwd p) (pname_ p) (blessed p) (priority p) (skipped p) (rpipe p) (wpipe p).
Definition set_pgdir (v : Z) (p : proc) : proc :=
  Proc (sz p) v (kstack p) (state p) (pid p) (parent p) (tf p) (tf_eax p) (pchan p) (killed p)
    (ofile p) (cwd p) (pname_ p) (blessed p) (priority p) (skipped p) (rpipe p) (wpipe p).
Definition set_kstack (v : Z) (p : proc) : proc :=
  Proc (sz p) (pgdir p) v (state p) (pid p) (parent p) (tf p) (tf_eax p) (pchan p) (killed p)
    (ofile p) (cwd p) (pname_ p) (blessed p) (priority p) (skipped p) (rpipe p) (wpipe p).
Definition set_pid (v : Z) (p : proc) : proc :=
  Proc (sz p) (pgdir p) (kstack p) (state p) v (parent p) (tf p) (tf_eax p) (pchan p) (killed p)
    (ofile p) (cwd p) (pname_ p) (blessed p) (priority p) (skipped p) (rpipe p) (wpipe p).
Definition set_parent (v : option nat) (p : proc) : proc :=
  Proc (sz p) (pgdir p) (kstack p) (state p) (pid p) v (tf p) (tf_eax p) (pchan p) (killed p)
    (ofile p) (cwd p) (pname_ p) (blessed p) (priority p) (skipped p) (rpipe p) (wpipe p).
Definition set_tf (v : list Z) (a : Z) (p : proc) : proc :=
  Proc (sz p) (pgdir p) (kstack p) (state p) (pid p) (parent p) v a (pchan p) (killed p)
    (ofile p) (cwd p) (pname_ p) (blessed p) (priority p) (skipped p) (rpipe p) (wpipe p).
Definition set_chan (v : option chan) (p : proc) : proc :=
  Proc (sz p) (pgdir p) (kstack p) (state p) (pid p) (parent p) (tf p) (tf_eax p) v (killed p)
    (ofile p) (cwd p) (pname_ p) (blessed p) (priority p) (skipped p) (rpipe p) (wpipe p).
Definition set_killed (v : Z) (p : proc) : proc :=
  Proc (sz p) (pgdir p) (kstack p) (state p) (pid p) (parent p) (tf p) (tf_eax p) (pchan p) v
    (ofile p) (cwd p) (pname_ p) (blessed p) (priority p) (skipped p) (rpipe p) (wpipe p).
Definition set_ofile (v : list (option nat)) (p : proc) : proc :=
  Proc (sz p) (pgdir p) (kstack p) (state p) (pid p) (parent p) (tf p) (tf_eax p) (pchan p) (killed p)
    v (cwd p) (pname_ p) (blessed p) (priority p) (skipped p) (rpipe p) (wpipe p).
Definition set_cwd (v : option nat) (p : proc) : proc :=
  Proc (sz p) (pgdir p) (kstack p) (state p) (pid p) (parent p) (tf p) (tf_eax p) (pchan p) (killed p)
    (ofile p) v (pname_ p) (blessed p) (priority p) (skipped p) (rpipe p) (wpipe p).
Definition set_name (v : list Z) (p : proc) : proc :=
  Proc (sz p) (pgdir p) (kstack p) (state p) (pid p) (parent p) (tf p) (tf_eax p) (pchan p) (killed p)
    (ofile p) (cwd p) v (blessed p) (priority p) (skipped p) (rpipe p) (wpipe p).
Definition set_blessed (v : Z) (p : proc) : proc :=
  Proc (sz p) (pgdir p) (kstack p) (state p) (pid p) (parent p) (tf p) (tf_eax p) (pchan p) (killed p)
    (ofile p) (cwd p) (pname_ p) v (priority p) (skipped p) (rpipe p) (wpipe p).
Definition set_priority (v : Z) (p : proc) : proc :=
  Proc (sz p) (pgdir p) (kstack p) (state p) (pid p) (parent p) (tf p) (tf_eax p) (pchan p) (killed p)
    (ofile p) (cwd p) (pname_ p) (blessed p) v (skipped p) (rpipe p) (wpipe p).
Definition set_skipped (v : Z) (p : proc) : proc :=
  Proc (sz p) (pgdir p) (kstack p) (state p) (pid p) (parent p) (tf p) (tf_eax p) (pchan p) (killed p)
    (ofile p) (cwd p) (pname_ p) (blessed p) (priority p) v (rpipe p) (wpipe p).
Definition set_pipes (r w : option nat) (p : proc) : proc :=
  Proc (sz p) (pgdir p) (kstack p) (state p) (pid p) (parent p) (tf p) (tf_eax p) (pchan p) (killed p)
    (ofile p) (cwd p) (pname_ p) (blessed p) (priority p) (skipped p) r w.

(** What process management calls in the rest of the kernel, on an environment [E]:
    kalloc.c, vm.c, file.c, the inode layer, log.c and pipe.c.  0 is the null pointer. *)
Class ProcEnv (E : Type) := {
  env_kalloc : K E Z;
  env_kfree : Z -> K E unit;
  env_copyuvm : Z -> Z -> K E Z;
  env_freevm : Z -> K E unit;
  env_allocuvm : Z -> Z -> Z -> K E Z;
  env_deallocuvm : Z -> Z -> Z -> K E Z;
  env_filedup : nat -> K E nat;
  env_fileclose : nat -> K E unit;
  env_idup : nat -> K E nat;
  env_iput : nat -> K E unit;
  env_begin_op : K E unit;
  env_end_op : K E unit;
  env_pipealloc : K E (option nat * option nat);      (* what is left in *f0 and *f1 *)
  env_setupkvm : K E Z;
  env_inituvm : Z -> K E unit;                        (* with the binary of initcode *)
  env_namei : list Z -> K E (option nat);
  env_initlog : K E unit;
}.

(** The process table, the per-CPU variables [proc] and [cpu] that this CPU uses, one other
    spin lock (the one a caller of [sleep] holds), and the environment. *)
Record ptable (E : Type) := Ptable {
  pt_lock : bool;
  ptab : list proc;
  nextpid : Z;
  initproc : option nat;
  cur : option nat;            (* proc *)
  ncli : Z;                    (* cpu->ncli *)
  intena : bool;               (* cpu->intena *)
  fl_if : bool;                (* interrupts enabled *)
  capabilities : Z;            (* cpu->capabilities *)
  lk_held : bool;              (* another lock *)
  penv : E;
}.
Arguments Ptable {E}.
Arguments pt_lock {E}.
Arguments ptab {E}.
Arguments nextpid {E}.
Arguments initproc {E}.
Arguments cur {E}.
Arguments ncli {E}.
Arguments intena {E}.
Arguments fl_if {E}.
Arguments capabilities {E}.
Arguments lk_held {E}.
Arguments penv {E}.

Section ops.
Context {E : Type}.
Notation PK := (K (ptable E)).
Implicit Types (s : ptable E).

Definition set_pt_lock (b : bool) s : ptable E :=
  Ptable b (ptab s) (nextpid s) (initproc s) (cur s) (ncli s) (intena s) (fl_if s)
    (capabilities s) (lk_held s) (penv s).
Definition set_ptab (l : list proc) s : ptable E :=
  Ptable (pt_lock s) l (nextpid s) (initproc s) (cur s) (ncli s) (intena s) (fl_if s)
    (capabilities s) (lk_held s) (penv s).
Definition set_nextpid (v : Z) s : ptable E :=
  Ptable (pt_lock s) (ptab s) v (initproc s) (cur s) (ncli s) (intena s) (fl_if s)
    (capabilities s) (lk_held s) (penv s).
Definition set_initproc (v : option nat) s : ptable E :=
  Ptable (pt_lock s) (ptab s) (nextpid s) v (cur s) (ncli s) (intena s) (fl_if s)
    (capabilities s) (lk_held s) (penv s).
Definition set_cur (v : option nat) s : ptable E :=
  Ptable (pt_lock s) (ptab s) (nextpid s) (initproc s) v (ncli s) (intena s) (fl_if s)
    (capabilities s) (lk_held s) (penv s).
Definition set_cli (n : Z) (i f : bool) s : ptable E :=
  Ptable (pt_lock s) (ptab s) (nextpid s) (initproc s) (cur s) n i f
    (capabilities s) (lk_held s) (penv s).
Definition set_lk_held (b : bool) s : ptable E :=
  Ptable (pt_lock s) (ptab s) (nextpid s) (initproc s) (cur s) (ncli s) (intena s) (fl_if s)
    (capabilities s) b (penv s).
Definition set_penv (e : E) s : ptable E :=
  Ptable (pt_lock s) (ptab s) (nextpid s) (initproc s) (cur s) (ncli s) (intena s) (fl_if s)
    (capabilities s) (lk_held s) e.

Definition ptable_lock : lens (ptable E) bool := Lens pt_lock set_pt_lock.
Definition other_lock : lens (ptable E) bool := Lens lk_held set_lk_held.
Definition in_env : lens (ptable E) E := Lens penv set_penv.

(** [pushcli] and [popcli] of kernel/spinlock.c on this CPU. *)
Definition push_cli : PK unit :=
  kmod (fun s => set_cli (ncli s + 1) (if ncli s =? 0 then fl_if s else intena s) false s).
Definition pop_cli : PK unit :=
  let! s := kget in
  if fl_if s then panic "popcli - interruptible"
  else if ncli s - 1 <? 0 then panic "popcli"
  else kmod (set_cli (ncli s - 1) (intena s) ((ncli s - 1 =? 0) && intena s)).

(** [acquire] and [release] on this CPU; the lock itself as in kernel/spinlock.c. *)
Definition lock_cli (l : lens (ptable E) bool) : PK unit := push_cli ;;; acquire l.
Definition unlock_cli (l : lens (ptable E) bool) : PK unit := release l ;;; pop_cli.

Definition get_proc (i : nat) : PK proc :=
  let! l := gets ptab in
  match l !! i with Some p => kret p | None => fault end.
Definition upd_proc (i : nat) (f : proc -> proc) : PK unit :=
  kmod (fun s => set_ptab (alter f i (ptab s)) s).
(** The variable [proc]; a null pointer faults when it is followed. *)
Definition myproc : PK nat :=
  let! c := gets cur in
  match c with Some i => kret i | None => fault end.

(** [for (EACH_PTABLE_NODE)]: the indices visited.  The loop stops at the node whose
    [next] is null, without visiting it; with no node at all it follows a null pointer. *)
Definition each_node : PK (list nat) :=
  let! l := gets ptab in
  match l with [] => fault | _ => kret (seq 0 (length l - 1)) end.

(** The first node visited that passes [test]. *)
Definition find_node (test : proc -> bool) : PK (option nat) :=
  let! ns := each_node in
  let! l := gets ptab in
  kret (List.find (fun i => from_option test false (l !! i)) ns).
End ops.

#[global] Arguments each_node : simpl never.

Section procs.
Context {E : Type} `{HE : ProcEnv E}.
Notation PK := (K (ptable E)).
Implicit Types (s : ptable E).

(** sizeof(struct ptable_node) is 264: a page holds 15 nodes. *)
Definition PTABLE_ALLOT : nat := Z.to_nat (u16 (4096 / 264)).

Definition growptable : PK Z :=
  let! ptr := zoom in_env env_kalloc in
  if ptr =? 0 then kret 0
  else
    (* memset(ptr, 0, 4096), then the nodes are chained after the last one *)
    kmod (fun s => set_ptab (ptab s ++ replicate PTABLE_ALLOT zero_proc) s) ;;;
    kret 1.

(** The retry after the table grew is a recursive call; two calls are enough. *)
Fixpoint allocproc (fuel : nat) : PK (option nat) :=
  match fuel with
  | O => kstop NoFuel
  | S fuel' =>
      lock_cli ptable_lock ;;;
      let! f := find_node (fun p => is_state (state p) UNUSED) in
      match f with
      | Some i =>
          let! np := gets nextpid in
          upd_proc i (set_state EMBRYO) ;;;
          upd_proc i (set_pid np) ;;;
          kmod (set_nextpid (i32 (np + 1))) ;;;
          upd_proc i (set_priority PROC_DEFAULT_PRIORITY) ;;;
          unlock_cli ptable_lock ;;;
          let! ks := zoom in_env env_kalloc in
          upd_proc i (set_kstack ks) ;;;
          if ks =? 0 then upd_proc i (set_state UNUSED) ;;; kret None
          else kret (Some i)
      | None =>
          let! g := growptable in
          if 0 <? g then unlock_cli ptable_lock ;;; allocproc fuel'
          else unlock_cli ptable_lock ;;; kret None
      end
  end.

Definition growproc (n : Z) : PK Z :=
  let! me := myproc in
  let! p := get_proc me in
  let sz0 := u32 (sz p) in
  let! r :=
    (if 0 <? n then zoom in_env (env_allocuvm (pgdir p) sz0 (u32 (sz0 + n)))
     else if n <? 0 then zoom in_env (env_deallocuvm (pgdir p) sz0 (u32 (sz0 + n)))
     else kret sz0) in
  if negb (n =? 0) && (u32 r =? 0) then kret (-1)
  else
    upd_proc me (set_sz (u32 r)) ;;;
    (* switchuvm(proc) *)
    (if pgdir p =? 0 then panic "switchuvm: no pgdir" else kret 0).

Definition _allocpipe (i : nat) : PK unit :=
  let! p := get_proc i in
  match rpipe p, wpipe p with
  | Some _, Some _ => kret tt
  | _, _ =>
      let! r := zoom in_env env_pipealloc in
      upd_proc i (set_pipes r.1 r.2)
  end.

Definition _deallocpipe (i : nat) : PK unit := upd_proc i (set_pipes None None).

(** [for (i = 0; i < NOFILE; i++) if (proc->ofile[i]) np->ofile[i] = filedup(...)] *)
Definition dup_files (me np : nat) : PK unit :=
  for_each (seq 0 NOFILE) (fun i =>
    let! p := get_proc me in
    match ofile p !! i with
    | Some (Some f) =>
        let! f' := zoom in_env (env_filedup f) in
        upd_proc np (fun q => set_ofile (<[i := Some f']> (ofile q)) q)
    | Some None => kret tt
    | None => fault
    end).

(** [safestrcpy(p->name, src, sizeof(p->name))] *)
Definition copy_name (i : nat) (src : list Z) : PK unit :=
  let! p := get_proc i in
  match sys_safestrcpy (pname_ p) src 16 with
  | Some b => upd_proc i (set_name b)
  | None => fault
  end.

Definition _fork (bl : Z) : PK Z :=
  let! a := allocproc 2 in
  match a with
  | None => kret (-1)
  | Some np =>
      let! me := myproc in
      let! p := get_proc me in
      let! d := zoom in_env (env_copyuvm (pgdir p) (u32 (sz p))) in
      upd_proc np (set_pgdir d) ;;;
      if d =? 0 then
        let! q := get_proc np in
        zoom in_env (env_kfree (kstack q)) ;;;
        upd_proc np (set_kstack 0) ;;;
        upd_proc np (set_state UNUSED) ;;;
        kret (-1)
      else
        upd_proc np (set_sz (sz p)) ;;;
        upd_proc np (set_parent (Some me)) ;;;
        upd_proc np (set_tf (tf p) (tf_eax p)) ;;;
        upd_proc np (fun q => set_tf (tf q) 0 q) ;;;
        dup_files me np ;;;
        let! c := (match cwd p with
                   | Some c => zoom in_env (env_idup c)
                   | None => fault end) in
        upd_proc np (set_cwd (Some c)) ;;;
        copy_name np (pname_ p) ;;;
        let! q := get_proc np in
        lock_cli ptable_lock ;;;
        upd_proc np (set_state RUNNABLE) ;;;
        upd_proc np (set_blessed bl) ;;;
        _allocpipe np ;;;
        unlock_cli ptable_lock ;;;
        kret (pid q)
  end.

(** The trap frame of the first process, after eax: all zero but cs, eflags, esp and ds. *)
Definition init_tf : list Z := replicate 17 0 ++ [35; 512; 4096; 43].

Definition pinit : PK unit :=
  kmod (set_pt_lock false) ;;;                  (* initlock *)
  let! _ := growptable in kret tt.

Definition userinit : PK unit :=
  let! a := allocproc 2 in
  kmod (set_initproc a) ;;;
  match a with
  | None => fault
  | Some i =>
      let! d := zoom in_env env_setupkvm in
      upd_proc i (set_pgdir d) ;;;
      if d =? 0 then panic "userinit: out of memory?"
      else
        zoom in_env (env_inituvm d) ;;;
        upd_proc i (set_sz 4096) ;;;
        upd_proc i (set_tf init_tf 0) ;;;
        copy_name i [105; 110; 105; 116; 99; 111; 100; 101; 0] ;;;      (* initcode *)
        let! c := zoom in_env (env_namei [47; 0]) in
        upd_proc i (set_cwd c) ;;;
        upd_proc i (set_blessed PROC_BLESSED) ;;;
        upd_proc i (set_priority PROC_MAX_PRIORITY) ;;;
        _allocpipe i ;;;
        upd_proc i (set_state RUNNABLE)
  end.

(** Where a new process starts, with the table locked; [first] is the static variable, and
    its new value is returned. *)
Definition forkret (first : bool) : PK bool :=
  unlock_cli ptable_lock ;;;
  kwhen first (zoom in_env env_initlog) ;;;
  kret false.

Definition fork : PK Z := _fork PROC_DAMNED.

Definition bfork : PK Z :=
  let! me := myproc in
  let! p := get_proc me in
  if negb (blessed p =? PROC_BLESSED) then kret 0 else _fork PROC_BLESSED.

(** Enter the scheduler: the checks, then [swtch]. *)
Definition sched {A} : PK A :=
  let! s := kget in
  if negb (pt_lock s) then panic "sched ptable.lock"
  else if negb (ncli s =? 1) then panic "sched locks"
  else
    let! me := myproc in
    let! p := get_proc me in
    if is_state (state p) RUNNING then panic "sched running"
    else if fl_if s then panic "sched interruptible"
    else kstop Switched.

Definition yield : PK unit :=
  lock_cli ptable_lock ;;;
  let! me := myproc in
  upd_proc me (set_state RUNNABLE) ;;;
  sched (A:=unit) ;;;
  unlock_cli ptable_lock.

Inductive lockarg := NoLock | PtableLock | OtherLock.

(** [sleep] up to the switch, and from the moment the process runs again. *)
Definition sleep_enter {A} (c : option chan) (lk : lockarg) : PK A :=
  let! m := gets cur in
  match m with
  | None => panic "sleep"
  | Some me =>
      match lk with
      | NoLock => panic "sleep without lk"
      | _ =>
          (match lk with
           | OtherLock => lock_cli ptable_lock ;;; unlock_cli other_lock
           | _ => kret tt
           end) ;;;
          upd_proc me (set_chan c) ;;;
          upd_proc me (set_state SLEEPING) ;;;
          sched
      end
  end.
Definition sleep_resume (lk : lockarg) : PK unit :=
  let! me := myproc in
  upd_proc me (set_chan None) ;;;
  match lk with
  | OtherLock => unlock_cli ptable_lock ;;; lock_cli other_lock
  | _ => kret tt
  end.

Definition sleeps_on (c : option chan) (p : proc) : bool :=
  is_state (state p) SLEEPING && bool_decide (pchan p = c).

Definition wakeup1 (c : option chan) : PK unit :=
  let! ns := each_node in
  for_each ns (fun i =>
    let! p := get_proc i in
    if sleeps_on c p then upd_proc i (set_state RUNNABLE) else kret tt).

Definition wakeup_chan (c : option chan) : PK unit :=
  lock_cli ptable_lock ;;; wakeup1 c ;;; unlock_cli ptable_lock.

(** The first half of [exit]: close the files and drop the current directory. *)
Definition exit_release (me : nat) : PK unit :=
  for_each (seq 0 NOFILE) (fun fd =>
    let! p := get_proc me in
    match ofile p !! fd with
    | Some (Some f) =>
        zoom in_env (env_fileclose f) ;;;
        upd_proc me (fun q => set_ofile (<[fd := None]> (ofile q)) q)
    | Some None => kret tt
    | None => fault
    end) ;;;
  zoom in_env env_begin_op ;;;
  let! p := get_proc me in
  (match cwd p with Some c => zoom in_env (env_iput c) | None => fault end) ;;;
  zoom in_env env_end_op ;;;
  upd_proc me (set_cwd None).

(** The second half, under [ptable.lock]: wake the parent, pass the children on to init,
    become a zombie and leave. *)
Definition exit_tail (me : nat) : PK unit :=
  let! s := kget in
  lock_cli ptable_lock ;;;
  let! p := get_proc me in
  wakeup1 (ChProc <$> parent p) ;;;
  let! ns := each_node in
  for_each ns (fun i =>
    let! q := get_proc i in
    if bool_decide (parent q = Some me) then
      upd_proc i (set_parent (initproc s)) ;;;
      (if is_state (state q) ZOMBIE then wakeup1 (ChProc <$> initproc s) else kret tt)
    else kret tt) ;;;
  upd_proc me (set_state ZOMBIE) ;;;
  sched (A:=unit) ;;;
  panic "zombie exit".

Definition exit : PK unit :=
  let! s := kget in
  if bool_decide (cur s = initproc s) then panic "init exiting"
  else let! me := myproc in exit_release me ;;; exit_tail me.

(** The scan of [wait] for a zombie child: its pid once it has been buried, or whether
    the process has children. *)
Fixpoint wait_scan (me : nat) (ns : list nat) (havekids : bool) : PK (bool + Z) :=
  match ns with
  | [] => kret (inl havekids)
  | i :: ns' =>
      let! p := get_proc i in
      if negb (bool_decide (parent p = Some me)) then wait_scan me ns' havekids
      else if is_state (state p) ZOMBIE then
        zoom in_env (env_kfree (kstack p)) ;;;
        upd_proc i (set_kstack 0) ;;;
        zoom in_env (env_freevm (pgdir p)) ;;;
        upd_proc i (set_state UNUSED) ;;;
        upd_proc i (set_pid 0) ;;;
        upd_proc i (set_parent None) ;;;
        upd_proc i (set_name []) ;;;
        upd_proc i (set_killed 0) ;;;
        unlock_cli ptable_lock ;;;
        kret (inr (pid p))
      else wait_scan me ns' true
  end.

(** One turn of [wait]'s loop; it starts with [ptable.lock] held. *)
Definition wait_turn : PK Z :=
  let! me := myproc in
  let! ns := each_node in
  let! r := wait_scan me ns false in
  match r with
  | inr pd => kret pd
  | inl havekids =>
      let! p := get_proc me in
      if negb havekids || negb (killed p =? 0) then unlock_cli ptable_lock ;;; kret (-1)
      else sleep_enter (Some (ChProc me)) PtableLock
  end.
Definition wait : PK Z := lock_cli ptable_lock ;;; wait_turn.

Definition kill (pd : Z) : PK Z :=
  lock_cli ptable_lock ;;;
  let! f := find_node (fun p => pid p =? pd) in
  match f with
  | Some i =>
      upd_proc i (set_killed 1) ;;;
      let! p := get_proc i in
      (if is_state (state p) SLEEPING then upd_proc i (set_state RUNNABLE) else kret tt) ;;;
      unlock_cli ptable_lock ;;;
      kret 0
  | None => unlock_cli ptable_lock ;;; kret (-1)
  end.

Definition pstate (pd : Z) : PK procstate :=
  let! f := find_node (fun p => pid p =? pd) in
  match f with
  | Some i => let! p := get_proc i in kret (state p)
  | None => kret UNUSED
  end.

(** [buf] is the memory from the pointer on; the result comes with what it holds then. *)
Definition pname (pd : Z) (buf : list Z) (n : Z) : PK (Z * list Z) :=
  let minsize := if n <? 16 then n else 16 in
  let! f := find_node (fun p => pid p =? pd) in
  match f with
  | Some i =>
      let! p := get_proc i in
      match sys_safestrcpy buf (pname_ p) minsize with
      | Some buf' => kret (0, buf')
      | None => fault
      end
  | None => kret (-1, buf)
  end.

Definition bless (pd : Z) : PK Z :=
  let! me := myproc in
  let! p := get_proc me in
  if negb (blessed p =? PROC_BLESSED) then kret 0
  else
    lock_cli ptable_lock ;;;
    let! f := find_node (fun p => pid p =? pd) in
    match f with
    | Some i =>
        upd_proc i (set_blessed PROC_BLESSED) ;;;
        _allocpipe i ;;;
        unlock_cli ptable_lock ;;;
        kret 1
    | None => unlock_cli ptable_lock ;;; kret 0
    end.

Definition damn (pd : Z) : PK Z :=
  let! me := myproc in
  let! p := get_proc me in
  if negb (blessed p =? PROC_BLESSED) then kret 0
  else
    lock_cli ptable_lock ;;;
    let! f := find_node (fun p => pid p =? pd) in
    match f with
    | Some i =>
        upd_proc i (set_blessed PROC_DAMNED) ;;;
        _deallocpipe i ;;;
        unlock_cli ptable_lock ;;;
        kret 1
    | None => unlock_cli ptable_lock ;;; kret 0
    end.

Definition isblessed (pd : Z) : PK Z :=
  let! f := find_node (fun p => pid p =? pd) in
  match f with
  | Some i => let! p := get_proc i in kret (blessed p)
  | None => kret 0
  end.

Definition getpriority (pd : Z) : PK Z :=
  let! f := find_node (fun p => pid p =? pd) in
  match f with
  | Some i => let! p := get_proc i in kret (priority p)
  | None => kret (-1)
  end.

(** [p->priority] is a uint8: the int given is truncated. *)
Definition setpriority (pd prio : Z) : PK Z :=
  let! f := find_node (fun p => pid p =? pd) in
  match f with
  | Some i => upd_proc i (set_priority (u8 prio)) ;;; kret 1
  | None => kret (-1)
  end.

(** ** The scheduler *)

(** May this CPU run [p]? *)
Definition eligible (caps : Z) (p : proc) : bool :=
  is_state (state p) RUNNABLE &&
  negb ((Z.land caps CPU_RESERVED_BLESS =? CPU_RESERVED_BLESS) &&
        negb (blessed p =? PROC_BLESSED)).

Definition effectivepriority (p : proc) : Z :=
  let e := if PROC_NO_BOOST_PRIORITY <? priority p then u32 (priority p + skipped p)
           else priority p in
  if PROC_MAX_PRIORITY <? e then PROC_MAX_PRIORITY else e.

Definition bump (p : proc) : proc := set_skipped (u32 (skipped p + 1)) p.

(** The loop over the table: the chosen node, and the table with the skips counted. *)
Fixpoint pick (caps : Z) (ns : list nat) (l : list proc) (bestp : option nat) (hp : Z)
    : option (list proc * option nat) :=
  match ns with
  | [] => Some (l, bestp)
  | i :: ns' =>
      match l !! i with
      | None => None
      | Some p =>
          if negb (eligible caps p) then pick caps ns' l bestp hp
          else
            let e := effectivepriority p in
            if hp <=? e then
              let l1 := match bestp with Some b => alter bump b l | None => l end in
              pick caps ns' l1 (Some i) (u8 e)
            else pick caps ns' (alter bump i l) bestp hp
      end
  end.

(** One turn of the scheduler's loop up to [swtch], which leaves [ptable.lock] held for the
    chosen process; and the rest of the turn, when a process has switched back. *)
Definition scheduler_turn : PK (option nat) :=
  kmod (fun s => set_cli (ncli s) (intena s) true s) ;;;        (* amd64_sti() *)
  let! s := kget in
  if Z.land (capabilities s) CPU_DISABLED =? CPU_DISABLED then kret None
  else
    lock_cli ptable_lock ;;;
    let! ns := each_node in
    let! l := gets ptab in
    match pick (capabilities s) ns l None 0 with
    | None => fault
    | Some (l1, bestp) =>
        kmod (set_ptab l1) ;;;
        match bestp with
        | Some i =>
            kmod (set_cur (Some i)) ;;;
            let! p := get_proc i in
            (if pgdir p =? 0 then panic "switchuvm: no pgdir" else kret tt) ;;;
            upd_proc i (set_state RUNNING) ;;;
            upd_proc i (set_skipped 0) ;;;
            kret (Some i)
        | None => unlock_cli ptable_lock ;;; kret None
        end
    end.
Definition scheduler_back : PK unit := kmod (set_cur None) ;;; unlock_cli ptable_lock.
End procs.
