(* ===== verification/Sched.v ===== *)
(** * What the scheduler guarantees

    The claims about the scheduling loop of kernel/proc.c: which process it picks, that a
    process is picked within a bounded number of turns when the priorities leave room for
    the boost, and that otherwise a process can be passed over for ever. *)

From stdpp Require Import base list strings sets.
From Stdlib Require Import ZArith Lia.
From S2P Require Import Prelude CString Spinlock Proc.
Open Scope Z_scope.

Definition elig (caps : Z) (l : list proc) (j : nat) : bool :=
  from_option (eligible caps) false (l !! j).
Definition eff (l : list proc) (j : nat) : Z := from_option effectivepriority 0 (l !! j).

(** The choice among the first [k] nodes: the last of those with the highest effective
    priority. *)
Record chosen (caps : Z) (l : list proc) (k i : nat) : Prop := {
  ch_lt : (i < k)%nat;
  ch_elig : elig caps l i = true;
  ch_best : forall j, (j < k)%nat -> elig caps l j = true ->
    eff l j < eff l i \/ (eff l j = eff l i /\ (j <= i)%nat);
}.

(** The table after the skips of a pass over the first [k] nodes are counted. *)
Definition counted (caps : Z) (l : list proc) (k : nat) (best : option nat) (j : nat) : option proc :=
  if decide ((j < k)%nat /\ elig caps l j = true /\ best <> Some j)
  then bump <$> l !! j else l !! j.

Record pass (caps : Z) (l0 : list proc) (k : nat) (l : list proc) (best : option nat) (hp : Z) : Prop := {
  pa_len : length l = length l0;
  pa_tab : forall j, l !! j = counted caps l0 k best j;
  pa_none : best = None -> hp = 0 /\ forall j, (j < k)%nat -> elig caps l0 j = false;
  pa_some : forall i, best = Some i -> chosen caps l0 k i /\ hp = eff l0 i;
}.

Lemma eff_range p : 0 <= priority p <= 255 -> 0 <= effectivepriority p <= 255.
Proof.
  intros Hp. unfold effectivepriority, PROC_MAX_PRIORITY.
  pose proof (u32_range (priority p + skipped p)).
  destruct (PROC_NO_BOOST_PRIORITY <? priority p).
  - destruct (Z.ltb_spec 255 (u32 (priority p + skipped p))); lia.
  - destruct (Z.ltb_spec 255 (priority p)); lia.
Qed.

Lemma counted_new caps l k best j : (k <= j)%nat -> counted caps l k best j = l !! j.
Proof. intros H. unfold counted. rewrite decide_False by (intros [? _]; lia). done. Qed.

(** One node of the pass. *)
Lemma pass_step caps l0 k l best hp p :
  pass caps l0 k l best hp -> l0 !! k = Some p -> 0 <= priority p <= 255 ->
  if negb (eligible caps p) then pass caps l0 (S k) l best hp
  else if hp <=? effectivepriority p then
    pass caps l0 (S k) (match best with Some b => alter bump b l | None => l end)
      (Some k) (u8 (effectivepriority p))
  else pass caps l0 (S k) (alter bump k l) best hp.
Proof.
  intros [Hlen Htab Hn Hs] Hp Hpr. pose proof (eff_range p Hpr) as He.
  assert (elig caps l0 k = eligible caps p) as Ek by (unfold elig; by rewrite Hp).
  assert (eff l0 k = effectivepriority p) as Ef by (unfold eff; by rewrite Hp).
  assert (forall i, best = Some i -> (i < k)%nat) as Hbk.
  { intros i Hi. by apply (ch_lt _ _ _ _ (proj1 (Hs i Hi))). }
  assert (forall i j, chosen caps l0 k i -> (j < S k)%nat -> elig caps l0 j = true ->
    elig caps l0 k = false \/ eff l0 k < eff l0 i ->
    eff l0 j < eff l0 i \/ (eff l0 j = eff l0 i /\ (j <= i)%nat)) as Hold.
  { intros i j Hc Hj Hej Hk. destruct (decide (j = k)) as [->|Hne].
    - left. destruct Hk as [Hk|Hk]; [congruence|done].
    - apply (ch_best _ _ _ _ Hc); [lia|done]. }
  destruct (eligible caps p) eqn:Hel; cbn [negb]; cbv iota.
  - destruct (Z.leb_spec hp (effectivepriority p)) as [Hle|Hgt].
    + split.
      * destruct best; [by rewrite length_alter|done].
      * intros j. unfold counted.
        destruct (decide (j = k)) as [->|Hjk].
        { rewrite decide_False by (intros (_ & _ & ?); done).
          destruct best as [b|]; [rewrite list_lookup_alter_ne by (pose proof (Hbk b eq_refl); lia)|];
            by rewrite Htab, counted_new. }
        destruct best as [b|].
        -- destruct (decide (b = j)) as [->|Hbj].
           ++ rewrite list_lookup_alter_eq, Htab. unfold counted.
              rewrite decide_False by (intros (_ & _ & ?); done).
              destruct (Hs j eq_refl) as [Hc _]. rewrite decide_True; [done|].
              split_and!; [destruct Hc; lia|by destruct Hc|congruence].
           ++ rewrite list_lookup_alter_ne by done. rewrite Htab. unfold counted.
              apply decide_ext. split; intros (H1 & H2 & H3); split_and!; try done; try lia; congruence.
        -- rewrite Htab. unfold counted.
           apply decide_ext. split; intros (H1 & H2 & H3); split_and!; try done; try lia; congruence.
      * done.
      * intros i [= <-]. rewrite u8_small by lia. split; [|done]. split; [lia|by rewrite Ek|].
        intros j Hj Hej. destruct (decide (j = k)) as [->|Hjk]; [right; lia|].
        destruct best as [b|].
        -- destruct (Hs b eq_refl) as [Hc Hhp].
           destruct (ch_best _ _ _ _ Hc j ltac:(lia) Hej); lia.
        -- destruct (Hn eq_refl) as [_ Hno]. rewrite Hno in Hej by lia. done.
    + split.
      * by rewrite length_alter.
      * intros j. destruct (decide (k = j)) as [<-|Hjk].
        -- rewrite list_lookup_alter_eq, Htab, counted_new by lia. unfold counted.
           rewrite decide_True; [done|]. split_and!; [lia|by rewrite Ek|].
           intros ->. specialize (Hbk k eq_refl). lia.
        -- rewrite list_lookup_alter_ne by done. rewrite Htab. unfold counted.
           apply decide_ext. split; intros (H1 & H2 & H3); split_and!; try done; lia.
      * intros ->. destruct (Hn eq_refl) as [-> _]. lia.
      * intros i Hi. destruct (Hs i Hi) as [Hc Hhp]. split; [|done].
        split; [destruct Hc; lia|by destruct Hc|]. intros j Hj Hej. apply Hold; try done.
        right. lia.
  - split; [done| | |].
    + intros j. rewrite Htab. unfold counted.
      apply decide_ext. split; intros (H1 & H2 & H3); split_and!; try done; try lia.
      destruct (decide (j = k)) as [->|]; [congruence|lia].
    + intros Hb. destruct (Hn Hb) as [-> Hno]. split; [done|]. intros j Hj.
      destruct (decide (j = k)) as [->|]; [done|]. apply Hno. lia.
    + intros i Hi. destruct (Hs i Hi) as [Hc Hhp]. split; [|done].
      split; [destruct Hc; lia|by destruct Hc|]. intros j Hj Hej. apply Hold; try done. by left.
Qed.

Definition priorities_ok (l : list proc) : Prop := Forall (fun p => 0 <= priority p <= 255) l.

Lemma pick_pass caps l0 m : forall k l best hp, priorities_ok l0 ->
  (k + m <= length l0)%nat -> pass caps l0 k l best hp ->
  exists l' best' hp', pick caps (seq k m) l best hp = Some (l', best') /\
    pass caps l0 (k + m) l' best' hp'.
Proof.
  induction m as [|m IH]; intros k l best hp Hpr Hk Hp; cbn [seq pick].
  - exists l, best, hp. rewrite Nat.add_0_r. done.
  - destruct (lookup_lt_is_Some_2 l0 k) as [p Hlk]; [lia|].
    assert (l !! k = Some p) as ->.
    { rewrite (pa_tab _ _ _ _ _ _ Hp). by rewrite counted_new. }
    pose proof (pass_step _ _ _ _ _ _ p Hp Hlk (Forall_lookup_1 _ _ _ _ Hpr Hlk)) as Hs.
    replace (k + S m)%nat with (S k + m)%nat by lia.
    destruct (eligible caps p); cbn [negb] in Hs |- *; [|apply IH; [done|lia|done]].
    destruct (hp <=? effectivepriority p); (apply IH; [done|lia|done]).
Qed.

Lemma pass_0 caps l : pass caps l 0 l None 0.
Proof.
  split; [done| | |done].
  - intros j. by rewrite counted_new by lia.
  - intros _. split; [done|]. lia.
Qed.

Lemma pick_spec caps l m : priorities_ok l -> (m <= length l)%nat ->
  exists l' best, pick caps (seq 0 m) l None 0 = Some (l', best) /\
    length l' = length l /\ (forall j, l' !! j = counted caps l m best j) /\
    match best with
    | Some i => chosen caps l m i
    | None => forall j, (j < m)%nat -> elig caps l j = false
    end.
Proof.
  intros Hpr Hm. destruct (pick_pass caps l m 0 l None 0 Hpr Hm (pass_0 caps l))
    as (l' & best & hp & Hp & [H1 H2 H3 H4]).
  exists l', best. split_and!; [done|done|done|].
  destruct best as [i|]; [apply (H4 i eq_refl)|apply H3; done].
Qed.

(** ** Turns

    A run of the machine as the scheduler sees it: the chosen process runs for a while
    and yields, so it is RUNNABLE again when the scheduler next looks. *)
Definition turn (caps : Z) (m : nat) (l : list proc) : list proc * option nat :=
  match pick caps (seq 0 m) l None 0 with
  | Some (l1, Some i) => (alter (fun p => set_skipped 0 p) i l1, Some i)
  | Some (l1, None) => (l1, None)
  | None => (l, None)
  end.

Fixpoint after (caps : Z) (m : nat) (l : list proc) (t : nat) : list proc :=
  match t with
  | O => l
  | S t' => (turn caps m (after caps m l t')).1
  end.
(** The process that runs in turn [t]. *)
Definition runs (caps : Z) (m : nat) (l : list proc) (t : nat) : option nat :=
  (turn caps m (after caps m l t)).2.

Section turns.
Context (caps : Z) (m : nat).

(** What a turn changes: only the skip counts of eligible processes. *)
Lemma turn_spec l : priorities_ok l -> (m <= length l)%nat ->
  let r := turn caps m l in
  length r.1 = length l /\
  (forall j p, l !! j = Some p -> exists p', r.1 !! j = Some p' /\
     priority p' = priority p /\ eligible caps p' = eligible caps p /\
     skipped p' = if decide (r.2 = Some j) then 0
                  else if decide ((j < m)%nat /\ eligible caps p = true)
                       then u32 (skipped p + 1) else skipped p) /\
  match r.2 with
  | Some i => chosen caps l m i
  | None => forall j, (j < m)%nat -> elig caps l j = false
  end.
Proof.
  intros Hpr Hm. destruct (pick_spec caps l m Hpr Hm) as (l1 & best & Hp & Hlen & Htab & Hb).
  unfold turn. rewrite Hp. destruct best as [i|]; cbn [fst snd].
  - split_and!; [by rewrite length_alter| |done]. intros j p Hj.
    destruct (decide (i = j)) as [<-|Hij].
    + rewrite list_lookup_alter_eq, Htab. unfold counted.
      rewrite decide_False by (intros (_ & _ & ?); done). rewrite Hj. simpl.
      eexists. split; [done|]. rewrite decide_True by done. done.
    + rewrite list_lookup_alter_ne by done. rewrite Htab. unfold counted, elig. rewrite Hj. simpl.
      rewrite (decide_False (P := Some i = Some j)) by congruence.
      destruct (decide ((j < m)%nat /\ eligible caps p = true)) as [[H1 H2]|Hn].
      * rewrite decide_True by (split_and!; [done|done|congruence]). by eexists.
      * rewrite decide_False by (intros (H1 & H2 & _); by apply Hn). by eexists.
  - split_and!; [done| |done]. intros j p Hj. rewrite Htab. unfold counted, elig. rewrite Hj. simpl.
    destruct (decide ((j < m)%nat /\ eligible caps p = true)) as [[H1 H2]|Hn].
    + specialize (Hb j H1). unfold elig in Hb. rewrite Hj in Hb. simpl in Hb. congruence.
    + rewrite decide_False by (intros (H1 & H2 & _); by apply Hn). by eexists.
Qed.

Lemma turn_priorities l : priorities_ok l -> (m <= length l)%nat -> priorities_ok (turn caps m l).1.
Proof.
  intros Hpr Hm. destruct (turn_spec l Hpr Hm) as (Hlen & Hs & _).
  apply Forall_lookup. intros j p' Hj.
  destruct (lookup_lt_is_Some_2 l j) as [p Hp].
  { rewrite <-Hlen. by eapply lookup_lt_Some. }
  destruct (Hs j p Hp) as (p1 & H1 & Hp1 & _). rewrite Hj in H1. injection H1 as <-.
  rewrite Hp1. by eapply Forall_lookup_1 in Hpr.
Qed.

(** ** The run *)

Context (l : list proc) (Hpr : priorities_ok l) (Hm : (m <= length l)%nat).
Notation tab t := (after caps m l t).

Lemma after_ok t : priorities_ok (tab t) /\ length (tab t) = length l.
Proof.
  induction t as [|t [IH1 IH2]]; [done|]. simpl.
  split; [apply turn_priorities; [done|lia]|].
  destruct (turn_spec (tab t) IH1 ltac:(lia)) as (Hlen & _). by rewrite Hlen.
Qed.

(** Priorities and eligibility are constant through the run. *)
Lemma after_const t j p : l !! j = Some p -> exists p', tab t !! j = Some p' /\
  priority p' = priority p /\ eligible caps p' = eligible caps p.
Proof.
  intros Hj. induction t as [|t (p' & H1 & H2 & H3)]; [by exists p|]. simpl.
  destruct (after_ok t) as [Ha Hb].
  destruct (turn_spec (tab t) Ha ltac:(lia)) as (_ & Hs & _).
  destruct (Hs j p' H1) as (q & Hq & E1 & E2 & _). exists q. split_and!; congruence.
Qed.

(** The skip count of process [j] at turn [t]. *)
Definition skips (t j : nat) : Z := from_option skipped 0 (tab t !! j).

Lemma skips_step t j : (j < m)%nat -> elig caps l j = true ->
  skips (S t) j = if decide (runs caps m l t = Some j) then 0 else u32 (skips t j + 1).
Proof.
  intros Hjm Hel. unfold elig in Hel. destruct (l !! j) as [p|] eqn:Hj; [|done]. simpl in Hel.
  destruct (after_const t j p Hj) as (p' & H1 & _ & H3). destruct (after_ok t) as [Ha Hb].
  destruct (turn_spec (tab t) Ha ltac:(lia)) as (_ & Hs & _).
  destruct (Hs j p' H1) as (q & Hq & _ & _ & Hk). unfold skips, runs. simpl. rewrite Hq, H1. simpl.
  rewrite Hk. destruct (decide _); [done|]. rewrite decide_True; [done|]. split; [done|congruence].
Qed.

(** Effective priority at turn [t], of an eligible process. *)
Lemma eff_after t j p : l !! j = Some p -> 10 < priority p -> 0 <= skips t j < 2 ^ 32 - 255 ->
  eff (tab t) j = Z.min 255 (priority p + skips t j).
Proof.
  intros Hj Hp Hs. destruct (after_const t j p Hj) as (p' & H1 & H2 & H3).
  unfold eff, skips in *. rewrite H1 in *. simpl in *. unfold effectivepriority.
  pose proof (Forall_lookup_1 _ _ _ _ Hpr Hj) as Hr. simpl in Hr.
  unfold PROC_NO_BOOST_PRIORITY, PROC_MAX_PRIORITY. rewrite H2.
  rewrite (proj2 (Z.ltb_lt 10 (priority p))) by lia. rewrite u32_small by lia.
  destruct (Z.ltb_spec 255 (priority p + skipped p')); lia.
Qed.

Lemma runs_chosen t i : runs caps m l t = Some i -> chosen caps (tab t) m i.
Proof.
  intros H. destruct (after_ok t) as [Ha Hb].
  destruct (turn_spec (tab t) Ha ltac:(lia)) as (_ & _ & Hc). unfold runs in H. by rewrite H in Hc.
Qed.

Lemma elig_after t j : elig caps (tab t) j = elig caps l j.
Proof.
  unfold elig. destruct (l !! j) as [p|] eqn:Hj.
  - destruct (after_const t j p Hj) as (p' & H1 & _ & H3). rewrite H1. simpl. done.
  - destruct (after_ok t) as [_ Hb]. rewrite lookup_ge_None_2; [done|].
    rewrite Hb. by apply lookup_ge_None.
Qed.

Lemma runs_some t i : (i < m)%nat -> elig caps l i = true -> exists j, runs caps m l t = Some j.
Proof.
  intros Hi Hel. destruct (after_ok t) as [Ha Hb].
  destruct (turn_spec (tab t) Ha ltac:(lia)) as (_ & _ & Hc). unfold runs.
  destruct (turn caps m (tab t)).2 as [j|]; [by exists j|].
  specialize (Hc i Hi). rewrite elig_after in Hc. congruence.
Qed.

(** ** Bounded waiting *)

(** The processes that compete for the CPU. *)
Definition competitors : list nat := filter (fun j => elig caps l j = true) (seq 0 m).

Section bounded.
Context (Hroom : forall j p, (j < m)%nat -> l !! j = Some p -> eligible caps p = true ->
  10 < priority p <= 255 - Z.of_nat (length competitors) /\ 0 <= skipped p <= 2 ^ 31).
Notation n := (length competitors).
Notation B := (245 + n)%nat.

Lemma competitor j : j ∈ competitors <-> (j < m)%nat /\ elig caps l j = true.
Proof. unfold competitors. rewrite list_elem_of_filter, elem_of_seq. split; [|naive_solver lia]. intros [? ?]. split; [lia|done]. Qed.

Lemma comp_proc j : j ∈ competitors -> exists p, l !! j = Some p /\ (j < m)%nat /\
  eligible caps p = true /\ 10 < priority p <= 255 - Z.of_nat n /\ 0 <= skipped p <= 2 ^ 31.
Proof.
  intros [Hj He]%competitor. unfold elig in He. destruct (l !! j) as [p|] eqn:Hp; [|done].
  exists p. destruct (Hroom j p Hj Hp He). done.
Qed.

Lemma n_small i : i ∈ competitors -> Z.of_nat n < 245.
Proof. intros (p & _ & _ & _ & Hp & _)%comp_proc. lia. Qed.

Lemma skips_0 j : j ∈ competitors -> 0 <= skips 0 j <= 2 ^ 31.
Proof. intros (p & Hp & _ & _ & _ & Hs)%comp_proc. unfold skips. simpl. by rewrite Hp. Qed.

Lemma skips_bound j t : j ∈ competitors -> Z.of_nat t <= 1000 ->
  0 <= skips t j <= 2 ^ 31 + Z.of_nat t.
Proof.
  intros Hj. induction t as [|t IH]; intros Ht.
  - pose proof (skips_0 j Hj). lia.
  - pose proof (proj1 (competitor j) Hj) as [Hm' He]. rewrite skips_step by done.
    specialize (IH ltac:(lia)). destruct (decide _); [lia|]. rewrite u32_small; lia.
Qed.

Lemma skips_next j t : j ∈ competitors -> Z.of_nat t <= 900 ->
  skips (S t) j = if decide (runs caps m l t = Some j) then 0 else skips t j + 1.
Proof.
  intros Hj Ht. pose proof (proj1 (competitor j) Hj) as [Hm' He]. rewrite skips_step by done.
  pose proof (skips_bound j t Hj ltac:(lia)). destruct (decide _); [done|].
  apply u32_small. lia.
Qed.

(** Passed over for [t] turns, a process has been boosted [t] times. *)
Lemma boosted i t : i ∈ competitors -> Z.of_nat t <= 900 ->
  (forall u, (u < t)%nat -> runs caps m l u <> Some i) -> Z.of_nat t <= skips t i.
Proof.
  intros Hi. induction t as [|t IH]; intros Ht Hno.
  - pose proof (skips_0 i Hi). simpl. lia.
  - rewrite skips_next by (done || lia). rewrite decide_False by (apply Hno; lia).
    specialize (IH ltac:(lia)). assert (Z.of_nat t <= skips t i); [|lia].
    apply IH. intros u Hu. apply Hno. lia.
Qed.

(** [d] turns after it ran, a process has been boosted less than [d] times. *)
Lemma rested j t d : j ∈ competitors -> runs caps m l t = Some j ->
  Z.of_nat (t + d) <= 800 -> skips (t + S d) j <= Z.of_nat d.
Proof.
  intros Hj Hr. induction d as [|d IH]; intros Hd.
  - replace (t + 1)%nat with (S t) by lia. rewrite skips_next by (done || lia).
    rewrite decide_True by done. lia.
  - replace (t + S (S d))%nat with (S (t + S d)) by lia. rewrite skips_next by (done || lia).
    specialize (IH ltac:(lia)). destruct (decide _); lia.
Qed.

(** Once [i] is fully boosted, whoever runs instead of it is fully boosted too. *)
Lemma rival i j t : i ∈ competitors -> (244 <= t)%nat -> Z.of_nat t <= 800 ->
  (forall u, (u < t)%nat -> runs caps m l u <> Some i) -> runs caps m l t = Some j ->
  j ∈ competitors /\ Z.of_nat n <= skips t j.
Proof.
  intros Hi Ht1 Ht2 Hno Hr. pose proof (runs_chosen t j Hr) as [Hc1 Hc2 Hc3].
  rewrite elig_after in Hc2. assert (j ∈ competitors) as Hj by (apply competitor; done).
  split; [done|]. pose proof (boosted i t Hi ltac:(lia) Hno) as Hbo.
  destruct (comp_proc i Hi) as (p & Hp & Him & Hpe & Hpp & _).
  destruct (comp_proc j Hj) as (q & Hq & _ & _ & Hqp & _).
  pose proof (skips_bound i t Hi ltac:(lia)). pose proof (skips_bound j t Hj ltac:(lia)).
  specialize (Hc3 i Him). rewrite elig_after in Hc3.
  assert (elig caps l i = true) as Hie by (by apply competitor in Hi as [_ ?]).
  specialize (Hc3 Hie). rewrite (eff_after t i p), (eff_after t j q) in Hc3 by (done || lia). lia.
Qed.

Lemma bounded_wait i : i ∈ competitors -> exists t, (t < B)%nat /\ runs caps m l t = Some i.
Proof.
  intros Hi. pose proof (n_small i Hi) as Hn.
  destruct (decide (Exists (fun t => runs caps m l t = Some i) (seq 0 B))) as [He|Hne].
  { apply Exists_exists in He as (t & Ht & Hr). apply elem_of_seq in Ht. exists t. split; [lia|done]. }
  exfalso. assert (forall u, (u < B)%nat -> runs caps m l u <> Some i) as Hno.
  { intros u Hu Hr. apply Hne, Exists_exists. exists u. split; [apply elem_of_seq; lia|done]. }
  set (js := (fun t => default 0%nat (runs caps m l t)) <$> seq 244 n).
  assert (forall t, t ∈ seq 244 n -> exists j, runs caps m l t = Some j /\ j ∈ competitors /\
    Z.of_nat n <= skips t j /\ j <> i) as Hall.
  { intros t Ht%elem_of_seq. apply competitor in Hi as Hi'.
    destruct (runs_some t i (proj1 Hi') (proj2 Hi')) as [j Hj]. exists j.
    destruct (rival i j t Hi ltac:(lia) ltac:(lia)) as [H1 H2]; [intros; apply Hno; lia|done|].
    split_and!; try done. intros ->. by apply (Hno t); [lia|]. }
  assert (NoDup js) as Hnd.
  { apply NoDup_fmap_2_strong; [|apply NoDup_seq]. intros t t' Ht Ht' E.
    destruct (Hall t Ht) as (j & Hj & Hjc & Hjs & _).
    destruct (Hall t' Ht') as (j' & Hj' & Hjc' & Hjs' & _).
    apply elem_of_seq in Ht, Ht'. rewrite Hj, Hj' in E. simpl in E. subst j'.
    destruct (decide (t < t')%nat).
    - pose proof (rested j t (t' - t - 1) Hjc Hj ltac:(lia)) as Hrest.
      replace (t + S (t' - t - 1))%nat with t' in Hrest by lia. lia.
    - destruct (decide (t' < t)%nat); [|lia].
      pose proof (rested j t' (t - t' - 1) Hjc Hj' ltac:(lia)) as Hrest.
      replace (t' + S (t - t' - 1))%nat with t in Hrest by lia. lia. }
  assert (NoDup (i :: js)) as Hnd'.
  { apply NoDup_cons. split; [|done]. intros (t & Ht & Hin)%list_elem_of_fmap.
    destruct (Hall t Hin) as (j & Hj & _ & _ & Hne'). rewrite Hj in Ht. simpl in Ht. congruence. }
  assert (i :: js ⊆ competitors) as Hsub.
  { intros j [->|(t & -> & Hin)%list_elem_of_fmap]%elem_of_cons; [done|].
    destruct (Hall t Hin) as (j & -> & Hj & _). done. }
  apply NoDup_submseteq in Hsub; [|done]. apply submseteq_length in Hsub.
  unfold js in Hsub. simpl in Hsub. rewrite length_fmap, length_seq in Hsub. lia.
Qed.
End bounded.
End turns.

(** * Claims *)

(** Eligible nodes are visited nodes: the last node of the chain never is. *)
Definition visited {E} (s : ptable E) : nat := length (ptab s) - 1.


Definition demo_procs : list proc :=
  [set_pgdir 1 (set_priority 128 (set_state RUNNABLE zero_proc));
   set_pgdir 1 (set_priority 255 (set_state RUNNABLE zero_proc)); set_pgdir 1 zero_proc].
Definition demo_ptable : ptable unit :=
  Ptable false demo_procs 3 (Some 0%nat) None 0 false false 0 false tt.

Lemma demo_priorities : priorities_ok demo_procs.
Proof. repeat constructor; simpl; lia. Qed.



(** Two processes, of priorities 128 and 200. *)
Definition fair_procs : list proc :=
  [set_priority 128 (set_state RUNNABLE zero_proc); set_priority 200 (set_state RUNNABLE zero_proc);
   zero_proc].


(** Starvation.  A runnable process of priority PROC_MAX_PRIORITY that comes after all
    other eligible processes in the table runs in every turn: no other process ever runs,
    whatever its priority and however often it was skipped. *)
Theorem scheduler_starves caps m l j p :
  priorities_ok l -> (m <= length l)%nat -> (j < m)%nat -> l !! j = Some p ->
  eligible caps p = true -> priority p = PROC_MAX_PRIORITY -> skipped p = 0 ->
  (forall i, (i < m)%nat -> elig caps l i = true -> (i <= j)%nat) ->
  forall t, runs caps m l t = Some j.
Proof.
  intros Hpr Hm Hj Hp He Hpri Hsk Hlast.
  assert (elig caps l j = true) as Hje by (unfold elig; by rewrite Hp).
  assert (forall t, skips caps m l t j = 0 -> runs caps m l t = Some j) as Hrun.
  { intros t Hs. destruct (runs_some caps m l Hpr Hm t j Hj Hje) as [i Hi].
    pose proof (runs_chosen caps m l Hpr Hm t i Hi) as [H1 H2 H3].
    rewrite elig_after in H2 by done. specialize (H3 j Hj). rewrite elig_after in H3 by done.
    specialize (H3 Hje). specialize (Hlast i H1 H2).
    rewrite (eff_after caps m l Hpr Hm t j p) in H3; [|done|rewrite Hpri; done|lia].
    assert (eff (after caps m l t) i <= 255).
    { unfold eff. destruct (after caps m l t !! i) as [q|] eqn:Eq; simpl; [|lia].
      apply eff_range. destruct (after_ok caps m l Hpr Hm t) as [Ha _]. by eapply Forall_lookup_1 in Ha. }
    rewrite Hs, Hpri in H3. unfold PROC_MAX_PRIORITY in H3.
    replace i with j in * by lia. done. }
  intros t. apply Hrun. induction t as [|t IH].
  - unfold skips. simpl. by rewrite Hp.
  - rewrite skips_step by done. by rewrite decide_True by (by apply Hrun).
Qed.

Lemma scheduler_starves_witness : runs 0 2 demo_procs 5 = Some 1%nat.
Proof.
  apply (scheduler_starves 0 2 demo_procs 1
           (set_pgdir 1 (set_priority 255 (set_state RUNNABLE zero_proc)))).
  - exact demo_priorities.
  - simpl; lia.
  - lia.
  - reflexivity.
  - reflexivity.
  - reflexivity.
  - reflexivity.
  - intros i Hi _. lia.
Defined.
