(* ===== verification/ProcLife.v ===== *)
(** * The life of a process: sleep, wakeup, exit, wait, kill

    The claims about the state changes of kernel/proc.c outside the scheduler. *)

From stdpp Require Import base list strings sets.
From Stdlib Require Import ZArith Lia.
From S2P Require Import Prelude CString Spinlock Proc.
Open Scope Z_scope.

Section lemmas.
Context {E : Type}.
Implicit Types (s : ptable E).

Lemma lock_run s : pt_lock s = false ->
  lock_cli ptable_lock s = ([], Ret tt (set_pt_lock true
    (set_cli (ncli s + 1) (if ncli s =? 0 then fl_if s else intena s) false s))).
Proof. intros H. unfold lock_cli. kstep. by apply acquire_run. Qed.

(** [release] of a lock taken with interrupts off. *)
Lemma unlock_run (l : lens (ptable E) bool) s :
  lget l s = true -> fl_if (lput l false s) = false -> 1 <= ncli (lput l false s) ->
  unlock_cli l s = ([], Ret tt (set_cli (ncli (lput l false s) - 1) (intena (lput l false s))
    ((ncli (lput l false s) - 1 =? 0) && intena (lput l false s)) (lput l false s))).
Proof.
  intros H1 H2 H3. unfold unlock_cli. rewrite (kbind_pure _ _ _ tt (lput l false s)) by (by apply release_run).
  unfold pop_cli. kstep. rewrite H2, (proj2 (Z.ltb_ge _ _)) by lia. done.
Qed.

Lemma get_proc_run i p s : ptab s !! i = Some p -> get_proc i s = ([], Ret p s).
Proof. intros H. unfold get_proc. kstep. by rewrite H. Qed.

Lemma each_node_run s : ptab s <> [] -> each_node s = ([], Ret (seq 0 (length (ptab s) - 1)) s).
Proof. intros H. unfold each_node. kstep. by destruct (ptab s). Qed.

Lemma myproc_run i s : cur s = Some i -> myproc s = ([], Ret i s).
Proof. intros H. unfold myproc. kstep. by rewrite H. Qed.

Lemma find_node_run test s : ptab s <> [] ->
  find_node test s = ([], Ret (List.find (fun i => from_option test false (ptab s !! i))
                                 (seq 0 (length (ptab s) - 1))) s).
Proof. intros H. unfold find_node. erewrite kbind_pure by (by apply each_node_run). by kstep. Qed.

(** A loop over the nodes that applies [f] to each. *)
Definition on_nodes (k : nat) (f : proc -> proc) (l : list proc) : list proc :=
  imap (fun j p => if decide (j < k)%nat then f p else p) l.

Lemma on_nodes_S k f l p : l !! k = Some p -> on_nodes (S k) f l = <[k := f p]> (on_nodes k f l).
Proof.
  intros Hp. apply list_eq. intros j. unfold on_nodes.
  destruct (decide (j = k)) as [->|Hne].
  - rewrite list_lookup_insert_eq by (rewrite length_imap; by eapply lookup_lt_Some).
    rewrite list_lookup_imap, Hp. simpl. by rewrite decide_True by lia.
  - rewrite list_lookup_insert_ne by done. rewrite !list_lookup_imap.
    destruct (l !! j); simpl; [|done]. f_equal.
    destruct (decide (j < k)%nat); [by rewrite decide_True by lia|by rewrite decide_False by lia].
Qed.

Lemma on_nodes_0 f l : on_nodes 0 f l = l.
Proof.
  apply list_eq. intros j. unfold on_nodes. rewrite list_lookup_imap.
  destruct (l !! j) as [p|]; [|done]. cbn [fmap option_fmap option_map].
  by destruct (decide (j < 0)%nat); [lia|].
Qed.

Lemma on_nodes_lookup k f l j : on_nodes k f l !! j =
  (fun p => if decide (j < k)%nat then f p else p) <$> l !! j.
Proof. unfold on_nodes. by rewrite list_lookup_imap. Qed.

Lemma for_nodes f (body : nat -> K (ptable E) unit) s :
  (forall i p s1, ptab s1 !! i = Some p -> body i s1 = ([], Ret tt (set_ptab (<[i := f p]> (ptab s1)) s1))) ->
  forall k, (k <= length (ptab s))%nat ->
  wp (for_each (seq 0 k) body) s (fun _ s' t => t = [] /\ s' = set_ptab (on_nodes k f (ptab s)) s).
Proof.
  intros Hbody k Hk. eapply wp_mono; [apply (wp_for_each _ _ (fun j s' t =>
    t = [] /\ s' = set_ptab (on_nodes j f (ptab s)) s))|].
  - rewrite on_nodes_0. by destruct s.
  - intros j x s1 t1 Hx [-> ->]. apply lookup_seq in Hx as [-> Hj]. simpl.
    destruct (lookup_lt_is_Some_2 (ptab s) j) as [p Hp]; [lia|].
    eapply wp_of_run; [apply (Hbody _ p)|].
    + simpl. rewrite on_nodes_lookup, Hp. simpl. by rewrite decide_False by lia.
    + split; [done|]. by rewrite (on_nodes_S j f (ptab s) p).
  - cbv beta. intros _ s' t. by rewrite length_seq.
Qed.

Definition wake1 (c : option chan) (p : proc) : proc :=
  if sleeps_on c p then set_state RUNNABLE p else p.

Lemma upd_proc_run i f p s : ptab s !! i = Some p ->
  upd_proc i f s = ([], Ret tt (set_ptab (<[i := f p]> (ptab s)) s)).
Proof.
  intros Hp. unfold upd_proc, kmod. do 3 f_equal. clear -Hp.
  revert i Hp. induction (ptab s) as [|q l IH]; intros [|i]; simpl; [done..|by intros [= ->]|].
  intros H. f_equal. by apply IH.
Qed.

Lemma wakeup1_wp c s : ptab s <> [] ->
  wp (wakeup1 c) s (fun _ s' t => t = [] /\
    s' = set_ptab (on_nodes (length (ptab s) - 1) (wake1 c) (ptab s)) s).
Proof.
  intros Hne. unfold wakeup1. apply wp_bind. eapply wp_of_run; [by apply each_node_run|].
  apply for_nodes; [|lia]. intros i p s1 Hp.
  rewrite (kbind_pure _ _ _ p s1) by (by apply get_proc_run). unfold wake1.
  destruct (sleeps_on c p); [by apply upd_proc_run|].
  unfold kret. do 2 f_equal. rewrite list_insert_id by done. by destruct s1.
Qed.

Lemma wakeup_wp c s : ptab s <> [] -> pt_lock s = false -> 0 <= ncli s ->
  wp (wakeup_chan c) s (fun _ s' t => t = [] /\
    ptab s' = on_nodes (length (ptab s) - 1) (wake1 c) (ptab s) /\ pt_lock s' = false /\
    cur s' = cur s /\ ncli s' = ncli s /\ penv s' = penv s /\ lk_held s' = lk_held s).
Proof.
  intros Hne Hl Hn. unfold wakeup_chan. apply wp_bind.
  eapply wp_of_run; [by apply lock_run|]. apply wp_bind.
  eapply wp_mono; [by apply wakeup1_wp|]. cbv beta. intros _ s1 t1 [-> ->].
  eapply wp_of_run; [apply unlock_run|]; simpl; try done; [lia|]. split_and!; try done. lia.
Qed.
End lemmas.

(** * Claims *)

(** A process that may call the scheduler: it is current, in the visited part of the table,
    and the CPU holds exactly [n] locks with interrupts off. *)
Record running {E} (s : ptable E) (me : nat) (p : proc) (n : Z) : Prop := {
  ru_cur : cur s = Some me;
  ru_proc : ptab s !! me = Some p;
  ru_lt : (S me < length (ptab s))%nat;
  ru_ncli : ncli s = n;
  ru_if : n <> 0 -> fl_if s = false;
}.

Lemma nonempty {A} (l : list A) i x : l !! i = Some x -> l <> [].
Proof. by intros H ->. Qed.

Lemma sched_run {E A} (s : ptable E) me p : running s me p 1 -> pt_lock s = true ->
  state p <> RUNNING -> sched (A:=A) s = ([], Stop Switched s).
Proof.
  intros [H1 H2 _ H4 H5] Hl Hst. unfold sched. kstep. rewrite Hl, H4. simpl.
  rewrite (kbind_pure _ _ _ me s) by (by apply myproc_run).
  rewrite (kbind_pure _ _ _ p s) by (by apply get_proc_run).
  unfold is_state. rewrite bool_decide_false by done. by rewrite H5.
Qed.


(** A table of four nodes: init (pid 1) asleep in [wait], its child (pid 2) running, a
    zombie child of that child (pid 3), and the last node. *)
Definition fam_init : proc :=
  set_chan (Some (ChProc 0)) (set_state SLEEPING (set_pid 1 zero_proc)).
Definition fam_child : proc := set_parent (Some 0%nat) (set_state RUNNING (set_pid 2 zero_proc)).
Definition fam_zombie : proc := set_parent (Some 1%nat) (set_state ZOMBIE (set_pid 3 zero_proc)).
Definition family (n : Z) (lk : bool) : ptable unit :=
  Ptable false [fam_init; fam_child; fam_zombie; zero_proc] 4 (Some 0%nat) (Some 1%nat)
    n true (n =? 0) 0 lk tt.


(** ** Exit *)

Section exit.
Context {E : Type}.
Implicit Types (s : ptable E).

(** Only [state] may differ, and only by waking a process that sleeps on [c]. *)
Definition maybe_woken (c : option chan) (p q : proc) : Prop := q = p \/ q = wake1 c p.

Lemma wake1_idem c p : wake1 c (wake1 c p) = wake1 c p.
Proof.
  unfold wake1. destruct (sleeps_on c p) eqn:E1; [|by rewrite E1].
  unfold sleeps_on, is_state. cbn [state set_state]. by rewrite bool_decide_false.
Qed.

Lemma wake1_parent c p o : wake1 c (set_parent o p) = set_parent o (wake1 c p).
Proof. unfold wake1, sleeps_on. simpl. by destruct (is_state _ _ && _)%bool. Qed.

Lemma wake1_keeps c p : parent (wake1 c p) = parent p /\ pid (wake1 c p) = pid p /\
  (state p <> SLEEPING -> wake1 c p = p) /\ (state (wake1 c p) = ZOMBIE <-> state p = ZOMBIE).
Proof.
  unfold wake1, sleeps_on, is_state. destruct (bool_decide_reflect (state p = SLEEPING)) as [Hs|Hs];
    simpl; [|by split_and!]. rewrite Hs.
  destruct (bool_decide _); simpl; split_and!; try done; by rewrite ?Hs.
Qed.

(** The node of a process after [k] nodes of [exit]'s loop over the children of [me]. *)
Definition passed_on (me : nat) (ini : option nat) (k j : nat) (p : proc) : proc :=
  if decide ((j < k)%nat /\ parent p = Some me) then set_parent ini p else p.

(** Is one of the first [k] nodes a zombie child of [me]? *)
Definition zombie_child (me : nat) (l : list proc) (k : nat) : Prop :=
  exists j p, (j < k)%nat /\ l !! j = Some p /\ parent p = Some me /\ state p = ZOMBIE.

Definition exit_loop (me : nat) (ini : option nat) (l : list proc) (k : nat) (l' : list proc) : Prop :=
  length l' = length l /\
  forall j p, l !! j = Some p -> exists q, l' !! j = Some q /\
    maybe_woken (ChProc <$> ini) (passed_on me ini k j p) q /\
    (zombie_child me l k -> (S j < length l)%nat -> q = wake1 (ChProc <$> ini) (passed_on me ini k j p)).

Lemma passed_on_S me ini k j p : j <> k -> passed_on me ini (S k) j p = passed_on me ini k j p.
Proof. intros H. unfold passed_on. apply decide_ext. split; intros [? ?]; split; lia || done. Qed.

Lemma exit_loop_step me ini l k l' p q : (S k < length l)%nat -> exit_loop me ini l k l' ->
  l !! k = Some p -> l' !! k = Some q ->
  exit_loop me ini l (S k)
    (if bool_decide (parent q = Some me) then
       let l1 := <[k := set_parent ini q]> l' in
       if is_state (state q) ZOMBIE
       then on_nodes (length l1 - 1) (wake1 (ChProc <$> ini)) l1 else l1
     else l').
Proof.
  intros Hk [Hlen Hl] Hp Hq. set (c := ChProc <$> ini).
  destruct (Hl k p Hp) as (q0 & Hq0 & Hmw & _). rewrite Hq in Hq0. injection Hq0 as <-.
  assert (passed_on me ini k k p = p) as Epk.
  { unfold passed_on. by rewrite decide_False by (intros [? _]; lia). }
  rewrite Epk in Hmw. fold c in Hmw.
  assert (parent q = parent p /\ (state q = ZOMBIE <-> state p = ZOMBIE)) as [Hqp Hqz].
  { destruct Hmw as [->| ->]; [done|]. split; apply wake1_keeps. }
  assert (forall j p', l !! j = Some p' -> j <> k ->
    zombie_child me l (S k) -> ~ (parent p = Some me /\ state p = ZOMBIE) -> zombie_child me l k) as Hzc.
  { intros j p' _ _ (i & r & Hi & Hr & Hrp & Hrz) Hn. exists i, r. split_and!; try done.
    destruct (decide (i = k)) as [->|]; [|lia]. rewrite Hp in Hr. injection Hr as <-. by destruct Hn. }
  destruct (bool_decide_reflect (parent q = Some me)) as [Hpar|Hpar].
  - assert (passed_on me ini (S k) k p = set_parent ini p) as Epk'.
    { unfold passed_on. rewrite decide_True by (split; [lia|congruence]). done. }
    assert (maybe_woken c (set_parent ini p) (set_parent ini q)) as Hmw'.
    { destruct Hmw as [->| ->]; [by left|right]. by rewrite wake1_parent. }
    unfold is_state. destruct (bool_decide_reflect (state q = ZOMBIE)) as [Hz|Hz].
    + split; [unfold on_nodes; by rewrite length_imap, length_insert|].
      intros j p' Hp'. rewrite on_nodes_lookup, length_insert.
      destruct (decide (j = k)) as [->|Hjk].
      * rewrite Hp in Hp'. injection Hp' as <-. rewrite list_lookup_insert_eq by lia. simpl.
        rewrite decide_True by lia. eexists. split; [done|]. rewrite Epk'.
        assert (wake1 c (set_parent ini q) = wake1 c (set_parent ini p)) as ->.
        { destruct Hmw' as [->| ->]; [done|]. apply wake1_idem. }
        split; [by right|done].
      * rewrite list_lookup_insert_ne by done. destruct (Hl j p' Hp') as (r & Hr & Hm & _).
        rewrite Hr. simpl. eexists. split; [done|]. rewrite passed_on_S by done.
        destruct (decide _) as [Hlt|Hge].
        -- assert (wake1 c r = wake1 c (passed_on me ini k j p')) as ->.
           { destruct Hm as [->| ->]; [done|]. apply wake1_idem. }
           split; [by right|done].
        -- split; [done|]. intros _ ?. lia.
    + split; [by rewrite length_insert|]. intros j p' Hp'. destruct (decide (j = k)) as [->|Hjk].
      * rewrite Hp in Hp'. injection Hp' as <-. rewrite list_lookup_insert_eq by lia.
        eexists. split; [done|]. rewrite Epk'. split; [done|]. intros Hzk _.
        destruct (Hl k p Hp) as (q1 & Hq1 & _ & Hw). rewrite Hq in Hq1. injection Hq1 as <-.
        rewrite Epk in Hw. fold c in Hw. rewrite wake1_parent. f_equal. apply Hw; [|lia].
        destruct Hzk as (i & r & Hi & Hr & Hrp & Hrz). exists i, r. split_and!; try done.
        destruct (decide (i = k)) as [->|]; [|lia]. rewrite Hp in Hr. injection Hr as <-.
        by destruct Hz; apply Hqz.
      * rewrite list_lookup_insert_ne by done. destruct (Hl j p' Hp') as (r & Hr & Hm & Hw).
        exists r. rewrite passed_on_S by done. split_and!; try done. intros Hzk Hlt.
        apply Hw; [|done]. eapply (Hzc j p'); try done. intros [_ ?]. by apply Hz, Hqz.
  - split; [done|]. intros j p' Hp'. destruct (Hl j p' Hp') as (r & Hr & Hm & Hw). exists r.
    assert (passed_on me ini (S k) j p' = passed_on me ini k j p') as ->.
    { destruct (decide (j = k)) as [->|]; [|by apply passed_on_S]. rewrite Hp in Hp'. injection Hp' as <-.
      unfold passed_on. rewrite !decide_False; [done|intros [? ?]; lia|]. intros [_ ?]. congruence. }
    split_and!; try done. intros (i & r' & Hi & Hr' & Hrp & Hrz) Hlt. apply Hw; [|done].
    exists i, r'. split_and!; try done. destruct (decide (i = k)) as [->|]; [|lia].
    rewrite Hp in Hr'. injection Hr' as <-. congruence.
Qed.
End exit.

Lemma maybe_woken_keeps c p q : maybe_woken c p q ->
  parent q = parent p /\ pid q = pid p /\ (state p <> SLEEPING -> state q = state p).
Proof.
  intros [->| ->]; [done|]. destruct (wake1_keeps c p) as (H1 & H2 & H3 & _).
  split_and!; [done|done|]. intros Hs. by rewrite H3.
Qed.

Lemma sleeps_wake1 c p : sleeps_on c p = true -> state (wake1 c p) = RUNNABLE.
Proof. unfold wake1. by intros ->. Qed.

Lemma wake1_runnable c p : state p = RUNNABLE -> state (wake1 c p) = RUNNABLE.
Proof. unfold wake1, sleeps_on, is_state. intros H. by rewrite bool_decide_false by (by rewrite H). Qed.

Lemma passed_on_facts me ini k j p : state (passed_on me ini k j p) = state p /\
  pchan (passed_on me ini k j p) = pchan p /\ pid (passed_on me ini k j p) = pid p.
Proof. unfold passed_on. by destruct (decide _). Qed.

(** Does a sleeper on [c] stay one through [wake1 c'] unless woken? *)
Lemma sleeps_on_passed me ini k j c p :
  sleeps_on c (passed_on me ini k j p) = sleeps_on c p.
Proof. destruct (passed_on_facts me ini k j p) as (H1 & H2 & _). unfold sleeps_on. by rewrite H1, H2. Qed.

(** What [exit] leaves of node [j], which was [p] (and is not the exiting process): its
    parent passed on, and woken if it slept on the exiting process's parent, or on init when
    init inherited a zombie. *)
Record survives (me : nat) (par ini : option nat) (inherits : Prop) (p q : proc) : Prop := {
  su_parent : parent q = if decide (parent p = Some me) then ini else parent p;
  su_pid : pid q = pid p;
  su_state : state p <> SLEEPING -> state q = state p;
  su_wake : sleeps_on (ChProc <$> par) p = true -> state q = RUNNABLE;
  su_init : inherits -> sleeps_on (ChProc <$> ini) p = true -> state q = RUNNABLE;
}.

Lemma survives_loop me par ini l k l' j p q : (S j < length l)%nat -> (j < k)%nat ->
  exit_loop me ini (on_nodes (length l - 1) (wake1 (ChProc <$> par)) l) k l' ->
  l !! j = Some p -> l' !! j = Some q ->
  survives me par ini (zombie_child me l k) p q.
Proof.
  intros Hj Hjk [Hlen Hl] Hp Hq. set (l1 := on_nodes _ _ l) in *.
  assert (length l1 = length l) as Hl1 by (unfold l1, on_nodes; by rewrite length_imap).
  assert (l1 !! j = Some (wake1 (ChProc <$> par) p)) as Hj1.
  { unfold l1. rewrite on_nodes_lookup, Hp. simpl. by rewrite decide_True by lia. }
  destruct (Hl j _ Hj1) as (q0 & Hq0 & Hm & Hw). rewrite Hq in Hq0. injection Hq0 as <-.
  destruct (wake1_keeps (ChProc <$> par) p) as (W1 & W2 & W3 & W4).
  set (p1 := wake1 (ChProc <$> par) p) in *.
  destruct (maybe_woken_keeps _ _ _ Hm) as (M1 & M2 & M3).
  destruct (passed_on_facts me ini k j p1) as (F1 & F2 & F3).
  assert (forall c r, state r = RUNNABLE -> maybe_woken c r q -> state q = RUNNABLE) as Hrun.
  { intros c r Hr [->| ->]; [done|by apply wake1_runnable]. }
  split.
  - rewrite M1. unfold passed_on. destruct (decide (parent p = Some me)) as [Hpm|Hpm].
    + by rewrite decide_True by (rewrite W1; done).
    + rewrite decide_False; [done|]. intros [_ ?]. congruence.
  - congruence.
  - intros Hs. pose proof (W3 Hs) as E1. rewrite M3; rewrite F1, E1; done.
  - intros Hs. eapply Hrun; [|apply Hm]. rewrite F1. by apply sleeps_wake1.
  - intros (i & r & Hi & Hr & Hrp & Hrz) Hs. rewrite Hw; [|
      exists i, (wake1 (ChProc <$> par) r)|lia].
    + destruct (sleeps_on (ChProc <$> ini) p1) eqn:Es.
      * apply sleeps_wake1. by rewrite sleeps_on_passed.
      * assert (p1 = p \/ state p1 = RUNNABLE) as [E1|E1].
        { unfold p1, wake1. destruct (sleeps_on (ChProc <$> par) p); [by right|by left]. }
        -- rewrite E1 in Es. congruence.
        -- apply wake1_runnable. by rewrite F1.
    + destruct (wake1_keeps (ChProc <$> par) r) as (R1 & R2 & R3 & R4).
      split_and!; [done| |congruence|by apply R4].
      unfold l1. rewrite on_nodes_lookup, Hr. simpl. destruct (decide _); [done|].
      f_equal. symmetry. apply R3. by rewrite Hrz.
Qed.

(** The loop of [exit] over the children. *)
Lemma exit_loop_wp {E} (s : ptable E) me ini : (0 < length (ptab s))%nat ->
  let n := (length (ptab s) - 1)%nat in
  wp (for_each (seq 0 n) (fun i =>
        let! q := get_proc i in
        if bool_decide (parent q = Some me) then
          upd_proc i (set_parent ini) ;;;
          (if is_state (state q) ZOMBIE then wakeup1 (ChProc <$> ini) else kret tt)
        else kret tt)) s
    (fun _ s' t => t = [] /\ exists l', s' = set_ptab l' s /\ exit_loop me ini (ptab s) n l').
Proof.
  intros Hne n. eapply wp_mono; [apply (wp_for_each _ _ (fun k s' t =>
    t = [] /\ exists l', s' = set_ptab l' s /\ exit_loop me ini (ptab s) k l'))|].
  - split; [done|]. exists (ptab s). split; [by destruct s|]. split; [done|].
    intros j p Hp. exists p. assert (passed_on me ini 0 j p = p) as ->.
    { unfold passed_on. by rewrite decide_False by (intros [? _]; lia). }
    split_and!; [done|by left|]. intros (i & r & Hi & _). lia.
  - intros k x s1 t1 Hx (-> & l' & -> & Hl). apply lookup_seq in Hx as [-> Hk]. simpl.
    destruct (lookup_lt_is_Some_2 (ptab s) k) as [p Hp]; [lia|].
    destruct (proj2 Hl k p Hp) as (q & Hq & _).
    pose proof (exit_loop_step me ini (ptab s) k l' p q ltac:(lia) Hl Hp Hq) as Hstep.
    apply wp_bind. eapply wp_of_run; [by apply get_proc_run|].
    destruct (bool_decide (parent q = Some me)).
    + apply wp_bind. eapply wp_of_run; [by apply upd_proc_run|]. simpl.
      destruct (is_state (state q) ZOMBIE).
      * eapply wp_mono; [apply wakeup1_wp|].
        -- simpl. intros Hn. apply (f_equal length) in Hn. rewrite length_insert in Hn.
           apply lookup_lt_Some in Hq. simpl in Hn. lia.
        -- cbv beta. intros _ s2 t2 [-> ->]. simpl. split; [done|]. by eexists.
      * apply wp_ret. split; [done|]. by eexists.
    + apply wp_ret. split; [done|]. by eexists.
  - cbv beta. intros _ s' t. by rewrite length_seq.
Qed.

(** Exit.  The second half of [exit] never returns: it switches to the scheduler holding
    [ptable.lock], with the process a ZOMBIE that keeps its pid; every child it had, zombie
    or not, now has init for parent; a parent asleep in [wait] is RUNNABLE, and so is init if
    it inherited a zombie; nothing else about the other processes changes. *)
Theorem exit_passes_children {E} (s : ptable E) me p :
  running s me p 0 -> pt_lock s = false ->
  stops (exit_tail me) s Switched (fun s' t => t = [] /\ pt_lock s' = true /\
    length (ptab s') = length (ptab s) /\
    (exists q, ptab s' !! me = Some q /\ state q = ZOMBIE /\ pid q = pid p) /\
    forall j p0, (S j < length (ptab s))%nat -> j <> me -> ptab s !! j = Some p0 ->
      exists q, ptab s' !! j = Some q /\
        survives me (parent p) (initproc s)
          (zombie_child me (ptab s) (length (ptab s) - 1)) p0 q).
Proof.
  intros [H1 H2 H3 H4 H5] Hpt. unfold exit_tail.
  apply stops_bind, wp_get, stops_bind. eapply wp_of_run; [by apply lock_run|].
  apply stops_bind. eapply wp_of_run; [by apply get_proc_run|].
  apply stops_bind. eapply wp_mono; [apply wakeup1_wp; by eapply nonempty|].
  cbv beta. intros _ s1 t1 [-> ->]. simpl.
  set (l1 := on_nodes (length (ptab s) - 1) (wake1 (ChProc <$> parent p)) (ptab s)).
  assert (length l1 = length (ptab s)) as Hl1 by (unfold l1, on_nodes; by rewrite length_imap).
  apply stops_bind. eapply wp_of_run; [apply each_node_run|].
  { simpl. intros Hn. apply (f_equal length) in Hn. fold l1 in Hn. rewrite Hl1 in Hn. simpl in Hn. lia. }
  apply stops_bind. eapply wp_mono; [apply exit_loop_wp; simpl; fold l1; lia|].
  cbv beta zeta. intros _ s2 t2 (-> & l2 & -> & Hl). simpl in Hl |- *. fold l1 in Hl |- *. rewrite Hl1 in Hl.
  pose proof (proj1 Hl) as Hl2. rewrite Hl1 in Hl2.
  destruct (lookup_lt_is_Some_2 l2 me) as [q Hq]; [lia|].
  assert (pid q = pid p) as Hpid.
  { eapply (survives_loop me (parent p) (initproc s) (ptab s)); [done| |exact Hl|done|done]. lia. }
  apply stops_bind. eapply wp_of_run; [by apply upd_proc_run|]. apply stops_bind_now.
  eapply stops_of_run; [apply (sched_run _ me (set_state ZOMBIE q))|]; try done.
  { split; simpl; try done; [apply list_lookup_insert_eq; lia|rewrite length_insert; lia|lia]. }
  simpl. rewrite length_insert. split_and!; try done.
  - exists (set_state ZOMBIE q). by rewrite list_lookup_insert_eq by lia.
  - intros j p0 Hj Hne Hp0. destruct (lookup_lt_is_Some_2 l2 j) as [q0 Hq0]; [lia|].
    exists q0. rewrite list_lookup_insert_ne by done. split; [done|].
    eapply survives_loop; [done| |exact Hl|done|done]. lia.
Qed.

Lemma exit_passes_children_witness :
  stops (exit_tail 1) (family 0 false) Switched (fun s' t => t = [] /\ pt_lock s' = true /\
    length (ptab s') = 4%nat /\
    (exists q, ptab s' !! 1%nat = Some q /\ state q = ZOMBIE /\ pid q = 2) /\
    forall j p0, (S j < 4)%nat -> j <> 1%nat -> ptab (family 0 false) !! j = Some p0 ->
      exists q, ptab s' !! j = Some q /\
        survives 1 (Some 0%nat) (Some 0%nat) (zombie_child 1 (ptab (family 0 false)) 3) p0 q).
Proof.
  apply (exit_passes_children (family 0 false) 1 fam_child).
  - split; [reflexivity|reflexivity|simpl; lia|reflexivity|intros []; reflexivity].
  - reflexivity.
Defined.

(** ** Wait *)

Section wait.
Context {E : Type} `{HE : ProcEnv E}.
Implicit Types (s : ptable E).

Definition child_of (me : nat) (l : list proc) (j : nat) : bool :=
  from_option (fun p => bool_decide (parent p = Some me)) false (l !! j).
Definition zombie_at (me : nat) (l : list proc) (j : nat) : bool :=
  from_option (fun p => bool_decide (parent p = Some me) && is_state (state p) ZOMBIE) false (l !! j).

(** The slot of a process that was waited for. *)
Definition buried (q : proc) : proc :=
  set_killed 0 (set_name [] (set_parent None (set_pid 0 (set_state UNUSED (set_kstack 0 q))))).

Lemma wait_scan_none me ns : forall hk s, Forall (fun i => (i < length (ptab s))%nat) ns ->
  forallb (fun i => negb (zombie_at me (ptab s) i)) ns = true ->
  wait_scan me ns hk s = ([], Ret (inl (hk || existsb (child_of me (ptab s)) ns)) s).
Proof.
  induction ns as [|i ns IH]; intros hk s Hin Hz; cbn [wait_scan existsb].
  - by rewrite orb_false_r.
  - inversion_clear Hin as [|?? Hi Hin']. apply andb_true_iff in Hz as [Hz1 Hz2].
    destruct (lookup_lt_is_Some_2 (ptab s) i Hi) as [p Hp].
    erewrite kbind_pure by (by apply get_proc_run).
    unfold child_of, zombie_at in *. rewrite Hp in *. simpl in *.
    destruct (bool_decide (parent p = Some me)); simpl in *; [|by apply IH].
    destruct (is_state (state p) ZOMBIE); [done|]. rewrite IH by done. by rewrite orb_true_r.
Qed.

Lemma wait_scan_zombie me pre i post q s hk (Q : bool + Z -> ptable E -> list event -> Prop) :
  Forall (fun i => (i < length (ptab s))%nat) pre ->
  forallb (fun i => negb (zombie_at me (ptab s) i)) pre = true ->
  ptab s !! i = Some q -> parent q = Some me -> state q = ZOMBIE ->
  pt_lock s = true -> fl_if s = false -> 1 <= ncli s ->
  wp (env_kfree (kstack q) ;;; env_freevm (pgdir q)) (penv s) (fun _ e t =>
    Q (inr (pid q)) (set_cli (ncli s - 1) (intena s) ((ncli s - 1 =? 0) && intena s)
       (set_pt_lock false (set_penv e (set_ptab (<[i := buried q]> (ptab s)) s)))) t) ->
  wp (wait_scan me (pre ++ i :: post) hk) s Q.
Proof.
  intros Hin Hz Hq Hpar Hzq Hl Hf Hn Hw. revert hk. induction pre as [|j pre IH]; intros hk.
  - cbn [app wait_scan]. apply wp_bind. eapply wp_of_run; [by apply get_proc_run|].
    rewrite bool_decide_true by done. cbn [negb]. unfold is_state. rewrite bool_decide_true by done.
    apply wp_run in Hw as (u & e & t & Hrun & HQ). unfold kbind in Hrun.
    destruct (env_kfree (kstack q) (penv s)) as [t1 [[] e1|]] eqn:Ek; [|done].
    destruct (env_freevm (pgdir q) e1) as [t2 [[] e2|]] eqn:Ev; [|done]. injection Hrun as <- _ <-.
    apply wp_bind, wp_zoom. eapply wp_of_run; [exact Ek|].
    apply wp_bind. eapply wp_of_run; [apply (upd_proc_run i _ q); done|].
    apply wp_bind, wp_zoom. eapply wp_of_run; [exact Ev|].
    do 5 (apply wp_bind; eapply wp_of_run; [eapply upd_proc_run; simpl; apply list_lookup_insert_eq;
      rewrite ?length_insert; by eapply lookup_lt_Some|]).
    simpl. rewrite !list_insert_insert_eq.
    apply wp_bind. eapply wp_of_run; [apply unlock_run; [done|done|simpl; lia]|]. apply wp_ret.
    rewrite !app_nil_r. simpl. exact HQ.
  - inversion_clear Hin as [|?? Hj Hin']. apply andb_true_iff in Hz as [Hz1 Hz2].
    destruct (lookup_lt_is_Some_2 (ptab s) j Hj) as [p Hp]. cbn [app wait_scan].
    apply wp_bind. eapply wp_of_run; [by apply get_proc_run|].
    unfold zombie_at in Hz1. rewrite Hp in Hz1. simpl in Hz1.
    destruct (bool_decide (parent p = Some me)); simpl in *; [|by apply IH].
    destruct (is_state (state p) ZOMBIE); [done|]. by apply IH.
Qed.
End wait.

(** Wait finds a zombie.  When a child has exited, [wait] returns the pid of the first
    zombie child in table order, has freed its kernel stack and its address space, and left
    its slot UNUSED with pid, parent, name and kill mark cleared; every other slot is as it
    was and [ptable.lock] is released. *)
Theorem wait_reaps_zombie {E} `{HE : ProcEnv E} (s : ptable E) me p i q :
  running s me p 0 -> pt_lock s = false -> (S i < length (ptab s))%nat ->
  ptab s !! i = Some q -> parent q = Some me -> state q = ZOMBIE ->
  (forall j, (j < i)%nat -> zombie_at me (ptab s) j = false) ->
  wp (env_kfree (kstack q) ;;; env_freevm (pgdir q)) (penv s) (fun _ _ _ => True) ->
  wp wait s (fun r s' t => r = pid q /\ ptab s' = <[i := buried q]> (ptab s) /\
    pt_lock s' = false /\ ncli s' = 0 /\ cur s' = Some me /\
    exists u, (env_kfree (kstack q) ;;; env_freevm (pgdir q)) (penv s) = (t, Ret u (penv s'))).
Proof.
  intros [H1 H2 H3 H4 H5] Hpt Hi Hq Hpar Hz Hfirst Henv.
  unfold wait. apply wp_bind. eapply wp_of_run; [by apply lock_run|].
  unfold wait_turn. apply wp_bind. eapply wp_of_run; [by apply (myproc_run me)|].
  apply wp_bind. eapply wp_of_run; [apply each_node_run; simpl; by eapply nonempty|]. simpl.
  replace (length (ptab s) - 1)%nat with (i + S (length (ptab s) - 2 - i))%nat by lia.
  rewrite seq_app. cbn [seq]. change (0 + i)%nat with i.
  apply wp_run in Henv as (u & e & t & Hrun & _).
  apply wp_bind. eapply (wait_scan_zombie me (seq 0 i) i _ q); simpl; try done.
  - apply Forall_forall. intros j Hj%elem_of_seq. lia.
  - apply forallb_forall. intros j Hj%in_seq. rewrite Hfirst by lia. done.
  - lia.
  - eapply wp_of_run; [exact Hrun|]. apply wp_ret. simpl. rewrite app_nil_r.
    split_and!; try done; [lia|]. by exists u.
Qed.

(** A kernel with memory to spare: kalloc returns page 4096 and the rest succeeds. *)
#[local] Instance roomy : ProcEnv unit := {
  env_kalloc := kret 4096; env_kfree _ := kret tt; env_copyuvm _ _ := kret 4096;
  env_freevm _ := kret tt; env_allocuvm _ _ n := kret n; env_deallocuvm _ _ n := kret n;
  env_filedup f := kret f; env_fileclose _ := kret tt; env_idup i := kret i;
  env_iput _ := kret tt; env_begin_op := kret tt; env_end_op := kret tt;
  env_pipealloc := kret (None, None); env_setupkvm := kret 4096; env_inituvm _ := kret tt;
  env_namei _ := kret (Some 0%nat); env_initlog := kret tt }.

Lemma wait_reaps_zombie_witness :
  wp wait (family 0 false) (fun r s' _ => r = 3 /\
    ptab s' = [fam_init; fam_child; buried fam_zombie; zero_proc] /\ pt_lock s' = false).
Proof.
  eapply wp_mono.
  - apply (wait_reaps_zombie (family 0 false) 1 fam_child 2 fam_zombie).
    + split; [reflexivity|reflexivity|simpl; lia|reflexivity|intros []; reflexivity].
    + reflexivity.
    + simpl; lia.
    + reflexivity.
    + reflexivity.
    + reflexivity.
    + intros [|[|j]] Hj; [reflexivity|reflexivity|lia].
    + exact I.
  - intros r s' t (H1 & H2 & H3 & _). split; [exact H1|]. split; [exact H2|exact H3].
Defined.

(** With no zombie child, [wait] reaches its decision with the table locked. *)
Lemma wait_scanned {E} `{HE : ProcEnv E} (s : ptable E) me p :
  running s me p 0 -> pt_lock s = false ->
  (forall j, (S j < length (ptab s))%nat -> zombie_at me (ptab s) j = false) ->
  wait s = (if negb (existsb (child_of me (ptab s)) (seq 0 (length (ptab s) - 1)))
               || negb (killed p =? 0)
            then unlock_cli ptable_lock ;;; kret (-1)
            else sleep_enter (Some (ChProc me)) PtableLock)
           (set_pt_lock true (set_cli 1 (fl_if s) false s)).
Proof.
  intros [H1 H2 H3 H4 H5] Hpt Hno. unfold wait.
  erewrite kbind_pure by (by apply lock_run). rewrite H4.
  unfold wait_turn. erewrite kbind_pure by (by apply (myproc_run me)).
  erewrite kbind_pure by (apply each_node_run; simpl; by eapply nonempty).
  erewrite kbind_pure.
  2: { apply wait_scan_none; simpl.
       - apply Forall_forall. intros j Hj%elem_of_seq. lia.
       - apply forallb_forall. intros j Hj%in_seq. rewrite Hno by lia. done. }
  cbv iota beta. erewrite kbind_pure by (by apply (get_proc_run me p)). done.
Qed.

(** Wait without a zombie.  With no zombie child, [wait] returns -1 and changes nothing
    when the process has no children or has been killed; otherwise the process switches to
    the scheduler SLEEPING on itself, the channel [exit] wakes. *)
Theorem wait_without_zombie {E} `{HE : ProcEnv E} (s : ptable E) me p :
  running s me p 0 -> pt_lock s = false ->
  (forall j, (S j < length (ptab s))%nat -> zombie_at me (ptab s) j = false) ->
  if existsb (child_of me (ptab s)) (seq 0 (length (ptab s) - 1)) && (killed p =? 0)
  then stops wait s Switched (fun s' t => t = [] /\ pt_lock s' = true /\
         ptab s' = <[me := set_state SLEEPING (set_chan (Some (ChProc me)) p)]> (ptab s))
  else wp wait s (fun r s' t => r = -1 /\ t = [] /\ ptab s' = ptab s /\ pt_lock s' = false).
Proof.
  intros Hr Hpt Hno. pose proof (wait_scanned s me p Hr Hpt Hno) as Hw. pose proof Hr as [H1 H2 H3 H4 H5].
  unfold wp, stops. rewrite Hw. clear Hw. rewrite <-negb_andb.
  destruct (existsb _ _ && (killed p =? 0))%bool; cbn [negb].
  - change (stops (sleep_enter (A:=Z) (Some (ChProc me)) PtableLock)
      (set_pt_lock true (set_cli 1 (fl_if s) false s)) Switched (fun s' t => t = [] /\ pt_lock s' = true /\
         ptab s' = <[me := set_state SLEEPING (set_chan (Some (ChProc me)) p)]> (ptab s))).
    unfold sleep_enter. apply stops_bind, wp_gets. simpl. rewrite H1.
    apply stops_bind, wp_ret, stops_bind. eapply wp_of_run; [by apply (upd_proc_run me _ p)|].
    apply stops_bind. eapply wp_of_run; [apply (upd_proc_run me _ (set_chan (Some (ChProc me)) p))|].
    { simpl. apply list_lookup_insert_eq. lia. }
    simpl. rewrite list_insert_insert_eq.
    eapply stops_of_run; [apply (sched_run _ me (set_state SLEEPING (set_chan (Some (ChProc me)) p)))|];
      try done.
    split; simpl; try done; [apply list_lookup_insert_eq; lia|by rewrite length_insert].
  - change (wp (unlock_cli ptable_lock ;;; kret (-1)) (set_pt_lock true (set_cli 1 (fl_if s) false s))
      (fun r s' t => r = -1 /\ t = [] /\ ptab s' = ptab s /\ pt_lock s' = false)).
    apply wp_bind. eapply wp_of_run; [by apply unlock_run|]. by apply wp_ret.
Qed.

Lemma wait_without_zombie_witness :
  stops wait (set_cur (Some 0%nat) (family 0 false)) Switched (fun s' t => t = [] /\ pt_lock s' = true /\
    ptab s' = [set_state SLEEPING (set_chan (Some (ChProc 0)) fam_init); fam_child; fam_zombie; zero_proc]).
Proof.
  apply (wait_without_zombie (set_cur (Some 0%nat) (family 0 false)) 0 fam_init).
  - split; [reflexivity|reflexivity|simpl; lia|reflexivity|intros []; reflexivity].
  - reflexivity.
  - intros [|[|[|j]]] Hj; [reflexivity|reflexivity|reflexivity|simpl in Hj; lia].
Defined.

(** ** Kill and allocation *)

(** Allocation of the first UNUSED slot [i], with a page for the kernel stack. *)
Lemma allocproc_wp {E} `{HE : ProcEnv E} fuel (s : ptable E) i p ks e t :
  pt_lock s = false -> 0 <= ncli s -> (S i < length (ptab s))%nat -> ptab s !! i = Some p ->
  state p = UNUSED ->
  (forall j q, (j < i)%nat -> ptab s !! j = Some q -> state q <> UNUSED) ->
  env_kalloc (penv s) = (t, Ret ks e) -> ks <> 0 ->
  wp (allocproc (S fuel)) s (fun r s' t' => t' = t /\ r = Some i /\ pt_lock s' = false /\
    ncli s' = ncli s /\ penv s' = e /\ nextpid s' = i32 (nextpid s + 1) /\
    ptab s' = <[i := set_kstack ks (set_priority PROC_DEFAULT_PRIORITY
                      (set_pid (nextpid s) (set_state EMBRYO p)))]> (ptab s)).
Proof.
  intros Hl Hn Hi Hp Hu Hfirst Hk Hks. cbn [allocproc]. apply wp_bind.
  eapply wp_of_run; [by apply lock_run|]. apply wp_bind.
  eapply wp_of_run; [apply find_node_run; simpl; by eapply nonempty|]. simpl.
  erewrite (find_seq_first _ _ i); [|lia| |].
  2: { rewrite Hp. simpl. unfold is_state. by rewrite bool_decide_true. }
  2: { intros j Hj. destruct (ptab s !! j) as [q|] eqn:Ej; [|done]. simpl.
       apply bool_decide_false. by eapply Hfirst. }
  apply wp_bind, wp_gets. simpl.
  apply wp_bind. eapply wp_of_run; [by apply upd_proc_run|]. simpl.
  apply wp_bind. eapply wp_of_run; [apply upd_proc_run; simpl; apply list_lookup_insert_eq; lia|].
  apply wp_bind, wp_mod.
  apply wp_bind. eapply wp_of_run; [apply upd_proc_run; simpl; apply list_lookup_insert_eq;
    rewrite length_insert; lia|].
  simpl. rewrite !list_insert_insert_eq.
  apply wp_bind. eapply wp_of_run; [apply unlock_run; [done|done|simpl; lia]|]. simpl.
  apply wp_bind, wp_zoom. eapply wp_of_run; [exact Hk|].
  apply wp_bind. eapply wp_of_run; [apply upd_proc_run; simpl; apply list_lookup_insert_eq; lia|].
  rewrite (proj2 (Z.eqb_neq _ _) Hks). apply wp_ret. simpl. rewrite list_insert_insert_eq, !app_nil_r.
  split_and!; try done. lia.
Qed.

(** Killing the process in the first node with that pid. *)
Lemma kill_wp {E} (s : ptable E) pd i p :
  pt_lock s = false -> 0 <= ncli s -> (S i < length (ptab s))%nat -> ptab s !! i = Some p ->
  pid p = pd -> (forall j q, (j < i)%nat -> ptab s !! j = Some q -> pid q <> pd) ->
  wp (kill pd) s (fun r s' t => r = 0 /\ t = [] /\ pt_lock s' = false /\ ncli s' = ncli s /\
    penv s' = penv s /\ nextpid s' = nextpid s /\
    ptab s' = <[i := set_state (if is_state (state p) SLEEPING then RUNNABLE else state p)
                       (set_killed 1 p)]> (ptab s)).
Proof.
  intros Hl Hn Hi Hp Hpd Hfirst. unfold kill. apply wp_bind.
  eapply wp_of_run; [by apply lock_run|]. apply wp_bind.
  eapply wp_of_run; [apply find_node_run; simpl; by eapply nonempty|]. simpl.
  erewrite (find_seq_first _ _ i); [|lia| |].
  2: { rewrite Hp. simpl. by apply Z.eqb_eq. }
  2: { intros j Hj. destruct (ptab s !! j) as [q|] eqn:Ej; [|done]. simpl.
       apply Z.eqb_neq. by eapply Hfirst. }
  apply wp_bind. eapply wp_of_run; [by apply upd_proc_run|].
  apply wp_bind. eapply wp_of_run; [apply get_proc_run; simpl; apply list_lookup_insert_eq; lia|].
  cbn [state set_killed]. apply wp_bind. destruct (is_state (state p) SLEEPING).
  - eapply wp_of_run; [apply upd_proc_run; simpl; apply list_lookup_insert_eq; lia|]. simpl.
    rewrite list_insert_insert_eq.
    apply wp_bind. eapply wp_of_run; [apply unlock_run; [done|done|simpl; lia]|].
    apply wp_ret. simpl. split_and!; try done. lia.
  - apply wp_ret, wp_bind. eapply wp_of_run; [apply unlock_run; [done|done|simpl; lia]|].
    apply wp_ret. split_and!; try done. simpl. lia.
Qed.

(** A kill of pid 0 marks a free slot.  Free slots have pid 0, so [kill(0)] succeeds on
    the first of them, and the process next allocated there starts out killed: [allocproc]
    does not clear the mark. *)
Theorem kill_zero_dooms_next_process {E} `{HE : ProcEnv E} (s : ptable E) i p ks e t :
  pt_lock s = false -> 0 <= ncli s -> (S i < length (ptab s))%nat -> ptab s !! i = Some p ->
  state p = UNUSED -> pid p = 0 ->
  (forall j q, (j < i)%nat -> ptab s !! j = Some q -> state q <> UNUSED /\ pid q <> 0) ->
  env_kalloc (penv s) = (t, Ret ks e) -> ks <> 0 ->
  wp (let! r := kill 0 in let! a := allocproc 2 in kret (r, a)) s (fun ra s' _ =>
    ra = (0, Some i) /\ exists q, ptab s' !! i = Some q /\ pid q = nextpid s /\ killed q = 1).
Proof.
  intros Hl Hn Hi Hp Hu Hpid Hfirst Hk Hks. apply wp_bind.
  eapply wp_mono; [apply (kill_wp s 0 i p); try done; intros; by eapply Hfirst|].
  cbv beta. intros r s1 t1 (-> & -> & L1 & L2 & L3 & L4 & L5). rewrite Hu in L5. simpl in L5.
  apply wp_bind. eapply wp_mono; [apply (allocproc_wp 1 s1 i (set_state UNUSED (set_killed 1 p)) ks e t)|];
    rewrite ?L5, ?length_insert, ?L2, ?L3; try done.
  - apply list_lookup_insert_eq. lia.
  - intros j q Hj. rewrite list_lookup_insert_ne by lia. intros Hq. by eapply Hfirst.
  - cbv beta. intros a s2 t2 (-> & -> & _ & _ & _ & _ & E2). apply wp_ret. split; [done|].
    rewrite E2, L4. eexists. split; [apply list_lookup_insert_eq; rewrite length_insert; lia|]. done.
Qed.

(** A table whose second node is free. *)
Definition half_empty : ptable unit :=
  Ptable false [set_state RUNNING (set_pid 1 zero_proc); zero_proc; zero_proc] 2 (Some 0%nat)
    (Some 0%nat) 0 false false 0 false tt.

Lemma kill_zero_dooms_next_process_witness :
  wp (let! r := kill 0 in let! a := allocproc 2 in kret (r, a)) half_empty (fun ra s' _ =>
    ra = (0, Some 1%nat) /\ exists q, ptab s' !! 1%nat = Some q /\ pid q = 2 /\ killed q = 1).
Proof.
  apply (kill_zero_dooms_next_process half_empty 1 zero_proc 4096 tt []).
  - reflexivity.
  - simpl; lia.
  - simpl; lia.
  - reflexivity.
  - reflexivity.
  - reflexivity.
  - intros [|j] q Hj; [|lia]. intros [= <-]. split; discriminate.
  - reflexivity.
  - discriminate.
Defined.

(** At boot the table grows by a page of nodes and the first of them becomes init: pid 1,
    runnable, blessed, of highest priority, in the root directory, about to run from address 0
    with its stack at the end of its page. *)
Theorem boot_makes_init :
  wp (pinit ;;; userinit) (Ptable true [] 1 None None 0 false true 0 false tt) (fun _ s' _ =>
    length (ptab s') = PTABLE_ALLOT /\ initproc s' = Some 0%nat /\ nextpid s' = 2 /\
    pt_lock s' = false /\
    exists p, ptab s' !! 0%nat = Some p /\ state p = RUNNABLE /\ pid p = 1 /\ sz p = 4096 /\
      blessed p = PROC_BLESSED /\ priority p = PROC_MAX_PRIORITY /\ cwd p = Some 0%nat /\
      tf p !! 16%nat = Some 0 /\ tf p !! 19%nat = Some 4096).
Proof. vm_compute. repeat split. eexists. repeat split. Qed.
