(* ===== verification/Store.v ===== *)
(** * The block store a file system runs on

    What kernel/fs/fs1.c uses of the layers below it: [bread], the data of a held buffer,
    [log_write] and [brelse], as a class of operations with laws.  The laws speak of the
    sectors of one device as the running operation sees them.  The buffer cache under the
    log is an instance, so what is proved of the file system against the class holds of
    it on that stack. *)

From stdpp Require Import base list strings sets.
From Stdlib Require Import ZArith Lia.
From S2P Require Import Prelude CString Bytes Spinlock Disk Bio Cache Log LogSafety.
Open Scope Z_scope.

Class BlockOps (S : Type) := {
  st_bread : Z -> Z -> K S nat;                     (* bread(dev, sector) *)
  st_data : nat -> K S (list Z);                    (* bp->data, read *)
  st_store : nat -> (list Z -> list Z) -> K S unit; (* bp->data, written *)
  st_log_write : nat -> K S unit;
  st_brelse : nat -> K S unit;
}.

(** The sectors of the device as they read now ([bV]) and on disk ([bW]), the sectors of
    the open transaction and the buffers held. *)
Record bstate := BS {
  bV : Z -> list Z;
  bW : Z -> list Z;
  bT : list Z;
  bH : list (nat * Z);
}.

Definition updb (x : Z) (b : list Z) (V : Z -> list Z) : Z -> list Z :=
  fun y => if decide (y = x) then b else V y.

Lemma updb_same x b V : updb x b V x = b.
Proof. unfold updb. by rewrite decide_True. Qed.
Lemma updb_other x b V y : y <> x -> updb x b V y = V y.
Proof. intros. unfold updb. by rewrite decide_False. Qed.

(** [rep cap dv U s a]: the device [dv], whose sectors [U] can be used, is in state [a];
    the open transaction has room for [cap] sectors. *)
Class BlockSpec (S : Type) `{BlockOps S} := {
  rep : nat -> Z -> (Z -> Prop) -> S -> bstate -> Prop;
  rep_len : forall cap dv U s a x, rep cap dv U s a -> U x -> length (bV a x) = SECTOR_SIZE;
  rep_range : forall cap dv U s a x, rep cap dv U s a -> U x -> 0 <= x < 2 ^ 31;
  rep_dev : forall cap dv U s a, rep cap dv U s a -> 0 <= dv < 2 ^ 32;
  rep_nodup : forall cap dv U s a, rep cap dv U s a -> NoDup (bT a);
  rep_clean : forall cap dv U s a x, rep cap dv U s a -> x ∉ bT a -> x ∉ (bH a).*2 ->
    bV a x = bW a x;
  st_bread_wp : forall cap dv U s a x Q, rep cap dv U s a -> U x -> x ∉ (bH a).*2 ->
    (length (bT a) + length (bH a) < NBUF)%nat ->
    (forall i s' t, rep cap dv U s' (BS (bV a) (bW a) (bT a) ((i, x) :: bH a)) -> Q i s' t) ->
    wp (st_bread dv x) s Q;
  st_data_wp : forall cap dv U s a i x Q, rep cap dv U s a -> (i, x) ∈ bH a ->
    Q (bV a x) s [] -> wp (st_data i) s Q;
  st_store_wp : forall cap dv U s a i x f Q, rep cap dv U s a -> (i, x) ∈ bH a ->
    length (f (bV a x)) = SECTOR_SIZE ->
    (forall s', rep cap dv U s' (BS (updb x (f (bV a x)) (bV a)) (bW a) (bT a) (bH a)) -> Q tt s' []) ->
    wp (st_store i f) s Q;
  st_log_write_wp : forall cap dv U s a i x Q, rep cap dv U s a -> (i, x) ∈ bH a -> U x ->
    (length (bT a) < cap)%nat ->
    (forall s', rep cap dv U s' (BS (bV a) (bW a) (absorb (bT a) x) (bH a)) -> Q tt s' []) ->
    wp (st_log_write i) s Q;
  st_brelse_wp : forall cap dv U s a i x H Q, rep cap dv U s a -> bH a = (i, x) :: H ->
    x ∉ H.*2 -> x ∈ bT a \/ bV a x = bW a x ->
    (forall s' t, rep cap dv U s' (BS (bV a) (bW a) (bT a) H) -> Q tt s' t) ->
    wp (st_brelse i) s Q;
}.

Lemma absorb_in T x : x ∈ absorb T x.
Proof.
  unfold absorb. destruct (decide _); [done|]. apply elem_of_app. right. by apply list_elem_of_singleton.
Qed.
Lemma absorb_sub T x y : y ∈ T -> y ∈ absorb T x.
Proof. intros. unfold absorb. destruct (decide _); [done|]. apply elem_of_app. by left. Qed.
Lemma absorb_length T x : (length (absorb T x) <= S (length T))%nat.
Proof. unfold absorb. destruct (decide _); [lia|]. rewrite length_app. simpl. lia. Qed.
Lemma absorb_elem T x y : y ∈ absorb T x <-> y = x \/ y ∈ T.
Proof.
  unfold absorb. destruct (decide _); [naive_solver|].
  rewrite elem_of_app, list_elem_of_singleton. naive_solver.
Qed.

(** ** The buffer cache under the log *)

#[export] Instance logsys_ops {D} `{HD : Driver D} : BlockOps (logsys D) := {
  st_bread dv x := bread' dv x;
  st_data i := let! b := get_buf' i in kret (bdata b);
  st_store i f := zoom the_cache (upd_buf i (fun b => set_bdata (f (bdata b)) b));
  st_log_write i := log_write i;
  st_brelse i := brelse' i;
}.

Section instance.
Context {D : Type} `{HD : Driver D} `{HS : !DriverSpec D}.
Implicit Types (s : logsys D).

Definition onto (dv : Z) (p : nat * Z) : nat * key := (p.1, (dv, p.2)).

(** The log has room for [cap] sectors and an operation is open. *)
Record log_rep (cap : nat) (dv : Z) (U : Z -> Prop) s (a : bstate) : Prop := {
  lr_dev : 0 <= dv < 2 ^ 32;
  lr_U : forall x, U x -> 0 <= x < 2 ^ 31;
  lr_T : forall x, x ∈ bT a -> U x;
  lr_nodup : NoDup (bT a);
  lr_desc : exists start, describes dv start (bT a) (lg s);
  lr_open : 1 <= l_outstanding (lg s);
  lr_cap : Z.of_nat cap <= LOGSIZE /\ Z.of_nat cap <= l_size (lg s) - 1;
  lr_arr : length (lh_sector (lg s)) = Z.to_nat LOGSIZE;
  lr_abs : exists V W, abs (fun k => k.1 = dv /\ U k.2) (bc s)
             (AS V W (hkeys dv (bT a)) (onto dv <$> bH a)) /\
    (forall x, V (dv, x) = bV a x) /\ (forall x, W (dv, x) = bW a x);
}.

Lemma onto_keys dv H : (onto dv <$> H).*2 = (fun x => (dv, x)) <$> H.*2.
Proof. rewrite <-!list_fmap_compose. done. Qed.

Lemma onto_elem dv x H : (dv, x) ∈ (onto dv <$> H).*2 <-> x ∈ H.*2.
Proof.
  rewrite onto_keys. split; [by intros (y & [= ->] & ?)%list_elem_of_fmap|].
  intros. apply list_elem_of_fmap. by exists x.
Qed.

Lemma hkeys_elem dv x T : (dv, x) ∈ hkeys dv T <-> x ∈ T.
Proof. unfold hkeys. rewrite list_elem_of_fmap. split; [by intros (y & [= ->] & ?)|]. intros. by exists x. Qed.

Lemma abs_unheld U (c : bcache D) a k : abs U c a -> k ∉ (aH a).*2 -> k ∉ aD a -> aV a k = aW a k.
Proof.
  intros Ha Hh Hk. rewrite <-(abs_view _ _ _ Ha), <-(abs_disk _ _ _ Ha).
  assert (dirtyk c k = false) as Hd by (apply not_true_is_false; by rewrite (abs_dirty _ _ _ Ha)).
  assert (busyk c k = false) as Hb by (apply not_true_is_false; by rewrite (abs_busy _ _ _ Ha)).
  unfold view, on_disk, busyk, dirtyk in *. destruct (cached (bufs c) k) as [[f d]|] eqn:Ec; [|done].
  destruct (fvalid f) eqn:Ev; [|done].
  destruct (wf_entry _ (abs_wf _ _ _ Ha) _ _ Ec) as (_ & _ & _ & Heq). by apply Heq.
Qed.

Lemma abs_len U (c : bcache D) a k : abs U c a -> U k -> length (aV a k) = SECTOR_SIZE.
Proof.
  intros Ha HU. rewrite <-(abs_view _ _ _ Ha). unfold view.
  pose proof (online_block (disk c) k.1 k.2 (proj1 (abs_usable _ _ _ Ha k HU))) as Hl.
  destruct (cached (bufs c) k) as [[f d]|] eqn:Ec; [|done].
  destruct (fvalid f) eqn:Ev; [|done].
  by destruct (wf_entry _ (abs_wf _ _ _ Ha) _ _ Ec) as (_ & ? & _).
Qed.

Lemma log_rep_abs cap dv U s s' V W T H V' W' T' H' (VV WW : key -> list Z) start :
  log_rep cap dv U s (BS V W T H) -> describes dv start T' (lg s') ->
  l_outstanding (lg s') = l_outstanding (lg s) -> l_size (lg s') = l_size (lg s) ->
  length (lh_sector (lg s')) = Z.to_nat LOGSIZE ->
  NoDup T' -> (forall x, x ∈ T' -> U x) ->
  abs (fun k => k.1 = dv /\ U k.2) (bc s') (AS VV WW (hkeys dv T') (onto dv <$> H')) ->
  (forall x, VV (dv, x) = V' x) -> (forall x, WW (dv, x) = W' x) ->
  log_rep cap dv U s' (BS V' W' T' H').
Proof.
  intros [R1 R2 R3 R4 R5 R6 R7 R8 R9] Hd Ho Hsz Hl Hn HT Ha HV HW.
  split; try done; [by exists start|by rewrite Ho|by rewrite Hsz|]. exists VV, WW. done.
Qed.

Lemma absorb_nodup T x : NoDup T -> NoDup (absorb T x).
Proof.
  intros. unfold absorb. destruct (decide _); [done|]. apply NoDup_app. split_and!; [done| |].
  - intros y Hy ->%list_elem_of_singleton. done.
  - apply NoDup_singleton.
Qed.

Lemma absorb_hkeys dv T x k : k ∈ hkeys dv (absorb T x) <-> k ∈ (dv, x) :: hkeys dv T.
Proof.
  unfold hkeys. rewrite elem_of_cons, !list_elem_of_fmap. setoid_rewrite absorb_elem. naive_solver.
Qed.

#[export] Program Instance logsys_spec : BlockSpec (logsys D) := {
  rep := log_rep;
}.
Next Obligation.
  intros cap dv U s a x R HU. destruct (lr_abs _ _ _ _ _ R) as (V & W & Ha & HV & _).
  rewrite <-HV. by eapply (abs_len _ _ _ _ Ha).
Qed.
Next Obligation. intros cap dv U s a x R HU. by eapply lr_U. Qed.
Next Obligation. intros cap dv U s a R. apply R. Qed.
Next Obligation. intros cap dv U s a R. apply R. Qed.
Next Obligation.
  intros cap dv U s a x R H1 H2. destruct (lr_abs _ _ _ _ _ R) as (V & W & Ha & HV & HW).
  rewrite <-HV, <-HW. apply (abs_unheld _ _ _ (dv, x) Ha); cbn [aH aD].
  - by rewrite onto_elem.
  - by rewrite hkeys_elem.
Qed.
Next Obligation.
  intros cap dv U s [V W T H] x Q R HU Hx Hr HQ. cbn [bV bW bT bH] in *.
  destruct (lr_abs _ _ _ _ _ R) as (VV & WW & Ha & HV & HW). cbn [bV bW bT bH] in *.
  destruct (lr_desc _ _ _ _ _ R) as [start Hd].
  eapply (bread'_wp _ dv x s _ Q Ha); cbn [aH aD].
  - apply R.
  - pose proof (lr_U _ _ _ _ _ R x HU). lia.
  - done.
  - by rewrite onto_elem.
  - left. unfold hkeys. by rewrite !length_fmap.
  - intros i s' t _ Hlg Ha'. apply HQ.
    eapply (log_rep_abs cap dv U s s' _ _ _ _ _ _ _ _ VV WW start R); rewrite ?Hlg; try done; apply R.
Qed.
Next Obligation.
  intros cap dv U s [V W T H] i x Q R Hi HQ. cbn [bV bW bT bH] in *.
  destruct (lr_abs _ _ _ _ _ R) as (VV & WW & Ha & HV & HW). cbn [bV bW bT bH] in *.
  apply wp_bind. eapply (get_buf'_wp _ s _ i (dv, x) _ Ha).
  - cbn [aH]. apply list_elem_of_fmap. by exists (i, x).
  - intros b _ -> _. apply wp_ret. cbn [aV]. by rewrite HV.
Qed.
Next Obligation.
  intros cap dv U s [V W T H] i x f Q R Hi Hl HQ. cbn [bV bW bT bH] in *.
  destruct (lr_abs _ _ _ _ _ R) as (VV & WW & Ha & HV & HW). cbn [bV bW bT bH] in *.
  destruct (lr_desc _ _ _ _ _ R) as [start Hd].
  eapply (set_data'_wp _ s _ i (dv, x) f _ Ha); cbn [aV aH].
  - apply list_elem_of_fmap. by exists (i, x).
  - by rewrite HV.
  - intros s' Hlg Ha'. apply HQ. cbn [aV aW aD aH] in Ha'.
    eapply (log_rep_abs cap dv U s s' _ _ _ _ _ _ _ _ _ WW start R); rewrite ?Hlg; try done;
      [apply R..|].
    intros y. unfold upd, updb. rewrite HV. destruct (decide (y = x)) as [->|Hne].
    + by rewrite decide_True.
    + rewrite decide_False by congruence. apply HV.
Qed.
Next Obligation.
  intros cap dv U s [V W T H] i x Q R Hi HU Hc HQ. cbn [bV bW bT bH] in *.
  destruct (lr_abs _ _ _ _ _ R) as (VV & WW & Ha & HV & HW). cbn [bV bW bT bH] in *.
  destruct (lr_desc _ _ _ _ _ R) as [start Hd]. pose proof (lr_cap _ _ _ _ _ R) as [C1 C2].
  pose proof (d_n _ _ _ _ Hd) as Hn. cbn [bT] in Hn.
  eapply (log_write_wp _ dv start T x i _ s _ Ha); cbn [aH].
  - apply list_elem_of_fmap. by exists (i, x).
  - done.
  - apply Forall_forall. intros y Hy. eapply lr_U; [done|]. by eapply lr_T.
  - by eapply lr_U.
  - lia.
  - lia.
  - apply R.
  - apply R.
  - intros s' Hd' _ Ho _ Hsz Hl Ha'. apply HQ. cbn [aV aW aD aH] in Ha'.
    eapply (log_rep_abs cap dv U s s' _ _ _ _ _ _ _ _ VV WW start R); try done.
    + apply absorb_nodup, R.
    + intros y [->|Hy]%absorb_elem; [done|]. by eapply lr_T.
    + eapply abs_ext; [exact Ha'|..]; cbn [aV aW aD aH]; try done. intros k. apply absorb_hkeys.
Qed.
Next Obligation.
  intros cap dv U s [V W T H] i x H' Q R Hh Hx Hc HQ. cbn [bV bW bT bH] in *. subst H.
  destruct (lr_abs _ _ _ _ _ R) as (VV & WW & Ha & HV & HW). cbn [bV bW bT bH] in *.
  destruct (lr_desc _ _ _ _ _ R) as [start Hd].
  eapply (brelse'_wp _ s _ i (dv, x) (onto dv <$> H') _ Ha).
  - done.
  - by rewrite onto_elem.
  - cbn [aV aW aD]. rewrite hkeys_elem, HV, HW. done.
  - intros s' t _ Hlg Ha'. apply HQ.
    eapply (log_rep_abs cap dv U s s' _ _ _ _ _ _ _ _ VV WW start R); rewrite ?Hlg; try done; apply R.
Qed.
End instance.

(** ** A machine to run on

    A memory disk of [n] sectors, the cache just started, and an operation open on a log
    of [size] sectors. *)

Section machine.
Context (img : list Z) (n : nat) (start size : Z).
Context (Himg : Z.of_nat (length img) = 512 * Z.of_nat n).
Context (Hn : Z.of_nat n < 2 ^ 22).

Definition machine_disk (x : Z) : list Z := mem_blocks (Memdisk img) 1 x.
Definition machine_U (x : Z) : Prop := 0 <= x < Z.of_nat n.
Definition machine_log : log := Log false start size 1 0 1 0 (replicate (Z.to_nat LOGSIZE) 0).
Definition machine_cache : bcache memdisk :=
  Bcache false (replicate (S NBUF) (Buf 0 0 0 0 0 (replicate SECTOR_SIZE 0))) (Memdisk img).

Lemma machine_usable k : k.1 = 1 /\ machine_U k.2 -> usable (disk machine_cache) k.
Proof.
  destruct k as [d x]. intros [Hd Hx]. simpl in Hd, Hx. subst d. split; [|by left]. cbn [fst snd].
  change (mem_online (Memdisk img) 1 x). unfold mem_online, disksize. cbn [image].
  rewrite Himg. unfold machine_U in Hx. split_and!; try done; lia_dm.
Qed.

Lemma machine_rep cap : Z.of_nat cap <= LOGSIZE -> Z.of_nat cap <= size - 1 ->
  exists s, rep cap 1 machine_U s (BS machine_disk machine_disk [] []).
Proof.
  intros Hc1 Hc2. destruct (wp_run _ _ _ (binit_abs (fun k => k.1 = 1 /\ machine_U k.2) machine_cache
    eq_refl ltac:(intros i b Hb%list_elem_of_lookup_2; apply elem_of_replicate in Hb as [-> _]; done)
    machine_usable)) as (_ & c & _ & _ & _ & _ & Ha).
  exists (Logsys machine_log c). split; cbn [bT bH bV bW lg bc l_outstanding l_size lh_sector machine_log].
  - lia.
  - unfold machine_U. lia.
  - intros x Hx. by apply not_elem_of_nil in Hx.
  - apply NoDup_nil_2.
  - exists start. split; try done. 
  - lia.
  - lia.
  - apply length_replicate.
  - eexists _, _. split; [exact Ha|done].
Qed.
End machine.
