(* ===== verification/Fs.v ===== *)
(** * The file system: kernel/fs/fs1.c and kernel/vfs.c

    The on-disk file system and the layer that dispatches to it, which call each other.
    The state [fsys] holds the two inode caches the source has (the array of fs1.c and the
    list of pages of vfs.c) and the block store below.  An inode pointer [iref] names an
    entry of one of the caches.

    What the caller's buffer receives is part of a result: [readi] returns the bytes it
    copied out, and [writei] is given the bytes it copies in.  kernel/fs/ext2.c's three
    working operations, the device switch and the page allocator are operations of the
    class [FsEnv]; the other ext2 operations panic, as they do in the source. *)

From stdpp Require Import base list strings.
From Stdlib Require Import ZArith Lia.
From S2P Require Import Prelude CString Bytes Spinlock Disk Store.
Open Scope Z_scope.

Definition BSIZE : Z := 512.
Definition NDIRECT : Z := 28.
Definition NINDIRECT : Z := BSIZE / 4.
Definition MAXFILE : Z := NDIRECT + NINDIRECT.
Definition DINODE_SIZE : Z := 128.
Definition IPB : Z := BSIZE / DINODE_SIZE.
Definition BPB : Z := BSIZE * 8.
Definition DIRSIZ : nat := 14.
Definition DIRENT_SIZE : Z := 16.
Definition NINODE : nat := 50.
Definition NDEV : Z := 10.
Definition ROOTINO : Z := 1.
Definition T_DIR : Z := 1.
Definition T_FILE : Z := 2.
Definition T_DEV : Z := 3.
Definition I_BUSY : Z := 1.
Definition I_VALID : Z := 2.
Definition FS_TYPE_FS1 : Z := 1.
Definition FS_TYPE_EXT2 : Z := 2.

Definition IBLOCK (i : Z) : Z := i / IPB + 2.
Definition BBLOCK (b ninodes : Z) : Z := b / BPB + ninodes / IPB + 3.

Record fs1_superblock := Superblock { sb_size : Z; sb_nblocks : Z; sb_ninodes : Z; sb_nlog : Z }.
Definition decode_sb (d : list Z) : fs1_superblock :=
  Superblock (get32 d 0) (get32 d 4) (get32 d 8) (get32 d 12).

(** The buffer [struct superblock] that either file system fills. *)
Inductive superblock := SbFs1 (sb : fs1_superblock) | SbExt2 (data : list Z).

(** [struct inode] of include/file.h *)
Record inode := Inode {
  i_dev : Z;
  i_inum : Z;
  i_ref : Z;
  i_flags : Z;
  i_type : Z;
  i_major : Z;
  i_minor : Z;
  i_nlink : Z;
  i_size : Z;
  i_addrs : list Z;
}.
Definition zero_inode : inode := Inode 0 0 0 0 0 0 0 0 0 (replicate 29 0).
Definition set_ref v (p : inode) := Inode (i_dev p) (i_inum p) v (i_flags p) (i_type p)
  (i_major p) (i_minor p) (i_nlink p) (i_size p) (i_addrs p).
Definition set_iflags v (p : inode) := Inode (i_dev p) (i_inum p) (i_ref p) v (i_type p)
  (i_major p) (i_minor p) (i_nlink p) (i_size p) (i_addrs p).
Definition set_type v (p : inode) := Inode (i_dev p) (i_inum p) (i_ref p) (i_flags p) v
  (i_major p) (i_minor p) (i_nlink p) (i_size p) (i_addrs p).
Definition set_size v (p : inode) := Inode (i_dev p) (i_inum p) (i_ref p) (i_flags p) (i_type p)
  (i_major p) (i_minor p) (i_nlink p) v (i_addrs p).
Definition set_nlink v (p : inode) := Inode (i_dev p) (i_inum p) (i_ref p) (i_flags p) (i_type p)
  (i_major p) (i_minor p) v (i_size p) (i_addrs p).
Definition set_addr k v (p : inode) := Inode (i_dev p) (i_inum p) (i_ref p) (i_flags p) (i_type p)
  (i_major p) (i_minor p) (i_nlink p) (i_size p) (<[k := v]> (i_addrs p)).
Definition set_meta ty ma mi nl sz ad (p : inode) :=
  Inode (i_dev p) (i_inum p) (i_ref p) (i_flags p) ty ma mi nl sz ad.
(** A recycled cache entry keeps what it cached; only its identity is new. *)
Definition recycle dv inum (p : inode) := Inode dv inum 1 0 (i_type p)
  (i_major p) (i_minor p) (i_nlink p) (i_size p) (i_addrs p).
Definition addr_at (p : inode) (k : nat) : Z := default 0 (i_addrs p !! k).

(** A [struct inode*]. *)
Inductive iref := Fs1Inode (i : nat) | VfsInode (i : nat).
#[export] Instance iref_eq_dec : EqDecision iref.
Proof. solve_decision. Defined.
Definition ichan (r : iref) : chan :=
  match r with Fs1Inode i => ChInode (2 * i) | VfsInode i => ChInode (2 * i + 1) end.

Record fsmap_t := Fsmap { fm_type : Z; fm_dev : Z; fm_used : Z }.

Record fsys (S : Type) := Fsys {
  fs1_lock : bool;
  fs1_icache : list inode;       (* fs1_icache.inode *)
  vfs_lock : bool;
  icache : list inode;           (* the nodes from icache.head on, in order *)
  unused_nodes : Z;              (* icache.unused_nodes *)
  fsmap : list fsmap_t;
  ROOT_DEV : Z;
  cwd : option iref;             (* proc->cwd *)
  store : S;
}.
Arguments Fsys {S}.
Arguments fs1_lock {S}.
Arguments fs1_icache {S}.
Arguments vfs_lock {S}.
Arguments icache {S}.
Arguments unused_nodes {S}.
Arguments fsmap {S}.
Arguments ROOT_DEV {S}.
Arguments cwd {S}.
Arguments store {S}.

Section state.
Context {S : Type}.
Implicit Types (s : fsys S).
Definition set_fs1_lock v s : fsys S := Fsys v (fs1_icache s) (vfs_lock s) (icache s)
  (unused_nodes s) (fsmap s) (ROOT_DEV s) (cwd s) (store s).
Definition set_fs1_icache v s : fsys S := Fsys (fs1_lock s) v (vfs_lock s) (icache s)
  (unused_nodes s) (fsmap s) (ROOT_DEV s) (cwd s) (store s).
Definition set_vfs_lock v s : fsys S := Fsys (fs1_lock s) (fs1_icache s) v (icache s)
  (unused_nodes s) (fsmap s) (ROOT_DEV s) (cwd s) (store s).
Definition set_icache v n s : fsys S := Fsys (fs1_lock s) (fs1_icache s) (vfs_lock s) v
  n (fsmap s) (ROOT_DEV s) (cwd s) (store s).
Definition set_fsmap v s : fsys S := Fsys (fs1_lock s) (fs1_icache s) (vfs_lock s) (icache s)
  (unused_nodes s) v (ROOT_DEV s) (cwd s) (store s).
Definition set_store v s : fsys S := Fsys (fs1_lock s) (fs1_icache s) (vfs_lock s) (icache s)
  (unused_nodes s) (fsmap s) (ROOT_DEV s) (cwd s) v.
Definition fs1_lk : lens (fsys S) bool := Lens fs1_lock set_fs1_lock.
Definition vfs_lk : lens (fsys S) bool := Lens vfs_lock set_vfs_lock.
Definition the_store : lens (fsys S) S := Lens store set_store.

Definition lookup_inode s (r : iref) : option inode :=
  match r with Fs1Inode i => fs1_icache s !! i | VfsInode i => icache s !! i end.
Definition alter_inode (f : inode -> inode) (r : iref) s : fsys S :=
  match r with
  | Fs1Inode i => set_fs1_icache (alter f i (fs1_icache s)) s
  | VfsInode i => set_icache (alter f i (icache s)) (unused_nodes s) s
  end.
(** [*ip] read and written. *)
Definition get_inode (r : iref) : K (fsys S) inode :=
  let! s := kget in match lookup_inode s r with Some p => kret p | None => fault end.
Definition upd_inode (r : iref) (f : inode -> inode) : K (fsys S) unit := kmod (alter_inode f r).
End state.

Class FsEnv (S : Type) := {
  env_kalloc : K (fsys S) Z;
  ext2_init_dev : Z -> Z -> K (fsys S) Z;
  ext2_readsb : Z -> Z -> K (fsys S) (list Z);
  ext2_readi : iref -> Z -> Z -> K (fsys S) (Z * list Z);
  ext2_readinode : iref -> K (fsys S) unit;
  devsw_read : Z -> option (iref -> Z -> K (fsys S) (Z * list Z));
  devsw_write : Z -> option (iref -> list Z -> Z -> K (fsys S) Z);
}.

Section fs1.
Context {S : Type} `{HB : BlockOps S} `{HE : FsEnv S}.
Notation FK := (K (fsys S)).

Definition bread (dv x : Z) : FK nat := zoom the_store (st_bread (u32 dv) (u32 x)).
Definition bdata (i : nat) : FK (list Z) := zoom the_store (st_data i).
Definition bstore (i : nat) (f : list Z -> list Z) : FK unit := zoom the_store (st_store i f).
Definition log_write (i : nat) : FK unit := zoom the_store (st_log_write i).
Definition brelse (i : nat) : FK unit := zoom the_store (st_brelse i).

(** ** Blocks *)

Definition fs1_readsb (dv : Z) : FK fs1_superblock :=
  let! bp := bread dv 1 in
  let! d := bdata bp in
  brelse bp ;;;
  kret (decode_sb d).

Definition fs1_bzero (dv bno : Z) : FK unit :=
  let! bp := bread dv bno in
  bstore bp (fun d => splice d 0 (replicate (Z.to_nat BSIZE) 0)) ;;;
  log_write bp ;;;
  brelse bp.

(** [bp->data[bi / 8]] and its bit [1 << (bi % 8)]. *)
Definition bit_byte (d : list Z) (bi : Z) : Z := default 0 (d !! Z.to_nat (bi / 8)).
Definition bit_mask (bi : Z) : Z := Z.shiftl 1 (bi mod 8).
Definition bit_free (d : list Z) (bi : Z) : bool := Z.land (bit_byte d bi) (bit_mask bi) =? 0.

(** The inner loop of [fs1_balloc]: the first clear bit among the first [n]. *)
Definition first_clear (d : list Z) (n : nat) : option nat :=
  List.find (fun bi => bit_free d (Z.of_nat bi)) (seq 0 n).

(** The loop over the bitmap blocks: the block allocated, if any. *)
Definition balloc_scan (dv : Z) (sb : fs1_superblock) : FK (option Z) :=
  for_return (seq 0 (Z.to_nat ((sb_size sb + BPB - 1) / BPB))) (fun k =>
    let b := Z.of_nat k * BPB in
    let! bp := bread dv (BBLOCK b (sb_ninodes sb)) in
    let! d := bdata bp in
    match first_clear d (Z.to_nat (Z.min BPB (sb_size sb - b))) with
    | Some bi =>
        let bi := Z.of_nat bi in
        bstore bp (fun d => <[Z.to_nat (bi / 8) := Z.lor (bit_byte d bi) (bit_mask bi)]> d) ;;;
        log_write bp ;;;
        brelse bp ;;;
        fs1_bzero dv (b + bi) ;;;
        kret (Some (b + bi))
    | None => brelse bp ;;; kret None
    end).

Definition fs1_balloc (dv : Z) : FK Z :=
  let! sb := fs1_readsb dv in
  let! r := balloc_scan dv sb in
  match r with Some b => kret b | None => panic "fs1_balloc: out of blocks" end.

Definition fs1_bfree (dv b : Z) : FK unit :=
  let! sb := fs1_readsb dv in
  let! bp := bread dv (BBLOCK b (sb_ninodes sb)) in
  let bi := b mod BPB in
  let! d := bdata bp in
  if bit_free d bi then panic "freeing free block"
  else
    bstore bp (fun d => <[Z.to_nat (bi / 8) := clr (bit_byte d bi) (bit_mask bi)]> d) ;;;
    log_write bp ;;;
    brelse bp.

(** ** Inodes *)

Definition fs1_iinit : FK unit := kmod (set_fs1_lock false).

(** [fs1_iget]'s loop over the cache: the entry in use for the inode, or the first empty
    slot seen. *)
Fixpoint iget_scan (dv inum : Z) (l : list inode) (i : nat) (empty : option nat) : nat + option nat :=
  match l with
  | [] => inr empty
  | ip :: l' =>
      if ((0 <? i_ref ip) && (i_dev ip =? dv) && (i_inum ip =? inum))%bool then inl i
      else iget_scan dv inum l' (i + 1)
             (match empty with
              | Some _ => empty
              | None => if i_ref ip =? 0 then Some i else None
              end)
  end.

Definition fs1_iget (dv inum : Z) : FK iref :=
  acquire fs1_lk ;;;
  let! l := gets fs1_icache in
  match iget_scan dv inum l 0 None with
  | inl i =>
      upd_inode (Fs1Inode i) (fun ip => set_ref (i32 (i_ref ip + 1)) ip) ;;;
      release fs1_lk ;;;
      kret (Fs1Inode i)
  | inr None => panic "fs1_iget: no inodes"
  | inr (Some i) =>
      upd_inode (Fs1Inode i) (recycle dv inum) ;;;
      release fs1_lk ;;;
      kret (Fs1Inode i)
  end.

Definition fs1_idup (ip : iref) : FK iref :=
  acquire fs1_lk ;;;
  let! _ := get_inode ip in
  upd_inode ip (fun p => set_ref (i32 (i_ref p + 1)) p) ;;;
  release fs1_lk ;;;
  kret ip.

(** [struct dinode] number [inum % IPB] of a block of inodes. *)
Definition dinode_off (inum : Z) : nat := Z.to_nat (DINODE_SIZE * (inum mod IPB)).
Definition dinode_type (d : list Z) (o : nat) : Z := i16 (get16 d o).
Definition put_dinode (ip : inode) (o : nat) (d : list Z) : list Z :=
  let d := put16 d o (i_type ip) in
  let d := put16 d (o + 2) (i_major ip) in
  let d := put16 d (o + 4) (i_minor ip) in
  let d := put16 d (o + 6) (i_nlink ip) in
  let d := put32 d (o + 8) (i_size ip) in
  splice d (o + 12) (concat (le_bytes 4 <$> i_addrs ip)).
Definition get_dinode (d : list Z) (o : nat) (ip : inode) : inode :=
  set_meta (i16 (get16 d o)) (i16 (get16 d (o + 2))) (i16 (get16 d (o + 4)))
    (i16 (get16 d (o + 6))) (get32 d (o + 8))
    ((fun k => get32 d (o + 12 + 4 * k)) <$> seq 0 29) ip.

Definition fs1_ialloc (dv ty : Z) : FK iref :=
  let! sb := fs1_readsb dv in
  let! r := for_return (seq 1 (Z.to_nat (sb_ninodes sb - 1))) (fun k =>
    let inum := Z.of_nat k in
    let! bp := bread dv (IBLOCK inum) in
    let! d := bdata bp in
    let o := dinode_off inum in
    if dinode_type d o =? 0 then
      bstore bp (fun d => put16 (splice d o (replicate (Z.to_nat DINODE_SIZE) 0)) o ty) ;;;
      log_write bp ;;;
      brelse bp ;;;
      let! ip := fs1_iget dv inum in
      kret (Some ip)
    else brelse bp ;;; kret None) in
  match r with Some ip => kret ip | None => panic "ialloc: no inodes" end.

Definition fs1_iupdate (r : iref) : FK unit :=
  let! ip := get_inode r in
  let! bp := bread (i_dev ip) (IBLOCK (i_inum ip)) in
  bstore bp (put_dinode ip (dinode_off (i_inum ip))) ;;;
  log_write bp ;;;
  brelse bp.

Definition fs1_readinode (r : iref) : FK unit :=
  let! ip := get_inode r in
  let! bp := bread (i_dev ip) (IBLOCK (i_inum ip)) in
  let! d := bdata bp in
  upd_inode r (get_dinode d (dinode_off (i_inum ip))) ;;;
  brelse bp.

(** ** Inode content *)

Definition fs1_bmap (r : iref) (bn : Z) : FK Z :=
  let! ip := get_inode r in
  if bn <? NDIRECT then
    let k := Z.to_nat bn in
    if addr_at ip k =? 0 then
      let! addr := fs1_balloc (i_dev ip) in
      upd_inode r (set_addr k addr) ;;;
      kret addr
    else kret (addr_at ip k)
  else
    let bn := bn - NDIRECT in
    if bn <? NINDIRECT then
      let! addr :=
        (if addr_at ip 28 =? 0 then
           let! addr := fs1_balloc (i_dev ip) in
           upd_inode r (set_addr 28 addr) ;;;
           kret addr
         else kret (addr_at ip 28)) in
      let! bp := bread (i_dev ip) addr in
      let! a := bdata bp in
      let o := Z.to_nat (4 * bn) in
      let! addr :=
        (if get32 a o =? 0 then
           let! addr := fs1_balloc (i_dev ip) in
           bstore bp (fun d => put32 d o addr) ;;;
           log_write bp ;;;
           kret addr
         else kret (get32 a o)) in
      brelse bp ;;;
      kret addr
    else panic "fs1_bmap: out of range".

(** ** The file system of a device: vfs.c *)

Definition getfstype (dv : Z) : FK Z :=
  let! m := gets fsmap in
  kret (match List.find (fun e => (fm_used e =? 1) && (fm_dev e =? dv))%bool m with
        | Some e => fm_type e
        | None => -1
        end).

(** The first unused entry of the map. *)
Fixpoint fsmap_insert (dv ty : Z) (m : list fsmap_t) : option (list fsmap_t) :=
  match m with
  | [] => None
  | e :: m' => if fm_used e =? 0 then Some (Fsmap ty dv 1 :: m')
               else cons e <$> fsmap_insert dv ty m'
  end.

Definition setfstype (dv ty : Z) : FK Z :=
  acquire vfs_lk ;;;
  let! m := gets fsmap in
  match fsmap_insert dv ty m with
  | Some m' => kmod (set_fsmap m') ;;; release vfs_lk ;;; kret 1
  | None => release vfs_lk ;;; kret (-1)
  end.

Definition unknown_fs {A} : FK A := panic "Unknown fs type".

(** The [if (t == FS_TYPE_EXT2) ... else if (t == FS_TYPE_FS1) ... else panic] of every
    operation of vfs.c. *)
Definition by_fstype {A} (dv : Z) (ext2 fs1 : FK A) : FK A :=
  let! t := getfstype dv in
  if t =? FS_TYPE_EXT2 then ext2 else if t =? FS_TYPE_FS1 then fs1 else unknown_fs.

Definition readsb (dv : Z) : FK superblock :=
  let! root := gets ROOT_DEV in
  by_fstype dv
    (let! d := ext2_readsb (GETDEVTYPE root) (GETDEVNUM root) in kret (SbExt2 d))
    (let! sb := fs1_readsb dv in kret (SbFs1 sb)).

Definition iupdate (r : iref) : FK unit :=
  let! ip := get_inode r in
  by_fstype (i_dev ip) (panic "ext2_iupdate not implemented yet") (fs1_iupdate r).

(** ** Truncation, reading and writing *)

Definition fs1_itrunc (r : iref) : FK unit :=
  for_each (seq 0 28) (fun i =>
    let! ip := get_inode r in
    kwhen (negb (addr_at ip i =? 0))
      (fs1_bfree (i_dev ip) (addr_at ip i) ;;; upd_inode r (set_addr i 0))) ;;;
  let! ip := get_inode r in
  kwhen (negb (addr_at ip 28 =? 0))
    (let! bp := bread (i_dev ip) (addr_at ip 28) in
     for_each (seq 0 128) (fun j =>
       let! a := bdata bp in
       kwhen (negb (get32 a (4 * j) =? 0)) (fs1_bfree (i_dev ip) (get32 a (4 * j)))) ;;;
     brelse bp ;;;
     fs1_bfree (i_dev ip) (addr_at ip 28) ;;;
     upd_inode r (set_addr 28 0)) ;;;
  upd_inode r (set_size 0) ;;;
  iupdate r.

Record stat := Stat { st_dev : Z; st_ino : Z; st_type : Z; st_nlink : Z; st_size : Z }.
Definition fs1_stati (r : iref) : FK stat :=
  let! ip := get_inode r in
  kret (Stat (i32 (i_dev ip)) (i_inum ip) (i_type ip) (i_nlink ip) (i_size ip)).

(** The loop of [fs1_readi]; the last argument is what [dst] received so far. *)
Fixpoint readi_loop (fuel : nat) (r : iref) (off n tot : Z) (dst : list Z) : FK (list Z) :=
  if tot <? n then
    match fuel with
    | O => kstop NoFuel
    | Datatypes.S fuel =>
        let! ip := get_inode r in
        let! blk := fs1_bmap r (off / BSIZE) in
        let! bp := bread (i_dev ip) blk in
        let m := Z.min (n - tot) (BSIZE - off mod BSIZE) in
        let! d := bdata bp in
        brelse bp ;;;
        readi_loop fuel r (u32 (off + m)) n (u32 (tot + m))
          (dst ++ slice d (Z.to_nat (off mod BSIZE)) (Z.to_nat m))
    end
  else kret dst.

Definition fs1_readi (r : iref) (off n : Z) : FK (Z * list Z) :=
  let! ip := get_inode r in
  if ((i_size ip <? off) || (u32 (off + n) <? off))%bool then kret (-1, [])
  else
    let n := if i_size ip <? u32 (off + n) then u32 (i_size ip - off) else n in
    let! dst := readi_loop (Z.to_nat n) r off n 0 [] in
    kret (i32 n, dst).

(** One turn of [fs1_writei]'s loop: the bytes [d] go into one block of the file. *)
Definition write_turn (r : iref) (off : Z) (d : list Z) : FK unit :=
  let! ip := get_inode r in
  let! blk := fs1_bmap r (off / BSIZE) in
  let! bp := bread (i_dev ip) blk in
  bstore bp (fun b => splice b (Z.to_nat (off mod BSIZE)) d) ;;;
  log_write bp ;;;
  brelse bp.

(** The loop of [fs1_writei]; it returns the final [off]. *)
Fixpoint writei_loop (fuel : nat) (r : iref) (off n tot : Z) (src : list Z) : FK Z :=
  if tot <? n then
    match fuel with
    | O => kstop NoFuel
    | Datatypes.S fuel =>
        let m := Z.min (n - tot) (BSIZE - off mod BSIZE) in
        write_turn r off (take (Z.to_nat m) src) ;;;
        writei_loop fuel r (u32 (off + m)) n (u32 (tot + m)) (drop (Z.to_nat m) src)
    end
  else kret off.

Definition fs1_writei (r : iref) (src : list Z) (off n : Z) : FK Z :=
  let! ip := get_inode r in
  if ((i_size ip <? off) || (u32 (off + n) <? off))%bool then kret (-1)
  else if MAXFILE * BSIZE <? u32 (off + n) then kret (-1)
  else
    let! off' := writei_loop (Z.to_nat n) r off n 0 src in
    let! ip := get_inode r in
    kwhen ((0 <? n) && (i_size ip <? off'))%bool
      (upd_inode r (set_size off') ;;; iupdate r) ;;;
    kret (i32 n).

Definition readi (r : iref) (off n : Z) : FK (Z * list Z) :=
  let! ip := get_inode r in
  if i_type ip =? T_DEV then
    if ((i_major ip <? 0) || (NDEV <=? i_major ip))%bool then kret (-1, [])
    else match devsw_read (i_major ip) with
         | Some rd => rd r (i32 n)
         | None => kret (-1, [])
         end
  else by_fstype (i_dev ip) (ext2_readi r off n) (fs1_readi r off n).

Definition writei (r : iref) (src : list Z) (off n : Z) : FK Z :=
  let! ip := get_inode r in
  if i_type ip =? T_DEV then
    if ((i_major ip <? 0) || (NDEV <=? i_major ip))%bool then kret (-1)
    else match devsw_write (i_major ip) with
         | Some wr => wr r src (i32 n)
         | None => kret (-1)
         end
  else by_fstype (i_dev ip) (panic "ext2_writei not implemented yet") (fs1_writei r src off n).

Definition stati (r : iref) : FK stat :=
  let! ip := get_inode r in
  by_fstype (i_dev ip) (panic "ext2_stati not implemented yet") (fs1_stati r).

(** ** Inode locks and references *)

Definition idup (r : iref) : FK iref :=
  let! ip := get_inode r in
  by_fstype (i_dev ip) (panic "ext2_idup not implemented yet") (fs1_idup r).

Definition ialloc (dv ty : Z) : FK iref :=
  by_fstype dv (panic "ext2_ialloc not implemented yet") (fs1_ialloc dv ty).

(** One pass of [ilock]'s waiting loop: it locks the inode, or sleeps on it. *)
Definition ilock (p : option iref) : FK unit :=
  match p with
  | None => panic "ilock"
  | Some r =>
      let! ip := get_inode r in
      if i_ref ip <? 1 then panic "ilock"
      else
        acquire vfs_lk ;;;
        if has (i_flags ip) I_BUSY then ksleep (ichan r) (lput vfs_lk false)
        else
          upd_inode r (fun ip => set_iflags (set (i_flags ip) I_BUSY) ip) ;;;
          release vfs_lk ;;;
          let! ip := get_inode r in
          kwhen (negb (has (i_flags ip) I_VALID))
            (by_fstype (i_dev ip) (ext2_readinode r) (fs1_readinode r) ;;;
             upd_inode r (fun ip => set_iflags (set (i_flags ip) I_VALID) ip) ;;;
             let! ip := get_inode r in
             kwhen (i_type ip =? 0) (panic "ilock: no type"))
  end.

Definition iput (r : iref) : FK unit :=
  acquire vfs_lk ;;;
  let! ip := get_inode r in
  kwhen ((i_ref ip =? 1) && has (i_flags ip) I_VALID && (i_nlink ip =? 0))%bool
    (if has (i_flags ip) I_BUSY then panic "iput busy"
     else
       upd_inode r (fun ip => set_iflags (set (i_flags ip) I_BUSY) ip) ;;;
       release vfs_lk ;;;
       by_fstype (i_dev ip) (panic "ext2_itrunc not implemented yet") (fs1_itrunc r) ;;;
       upd_inode r (set_type 0) ;;;
       iupdate r ;;;
       acquire vfs_lk ;;;
       upd_inode r (set_iflags 0) ;;;
       wakeup (ichan r)) ;;;
  upd_inode r (fun ip => set_ref (i32 (i_ref ip - 1)) ip) ;;;
  release vfs_lk.

Definition iunlock (p : option iref) : FK unit :=
  match p with
  | None => panic "iunlock"
  | Some r =>
      let! ip := get_inode r in
      if (negb (has (i_flags ip) I_BUSY) || (i_ref ip <? 1))%bool then panic "iunlock"
      else
        acquire vfs_lk ;;;
        upd_inode r (fun ip => set_iflags (clr (i_flags ip) I_BUSY) ip) ;;;
        wakeup (ichan r) ;;;
        release vfs_lk
  end.

Definition iunlockput (r : iref) : FK unit := iunlock (Some r) ;;; iput r.

(** ** Directories *)

(** A C string operation that runs off its buffer faults. *)
Definition or_fault {A} (o : option A) : FK A :=
  match o with Some a => kret a | None => fault end.

Definition namecmp (s t : list Z) : FK Z := or_fault (sys_strncmp s t DIRSIZ).
Definition fs1_namecmp (s t : list Z) : FK Z := or_fault (sys_strncmp s t DIRSIZ).

(** [struct dirent] *)
Definition de_inum (de : list Z) : Z := get16 de 0.
Definition de_name (de : list Z) : list Z := drop 2 de.
Definition make_dirent (inum : Z) (name : list Z) : list Z := le_bytes 2 inum ++ name.

(** The offsets of the entries of a directory of [size] bytes. *)
Definition entry_offs (size : Z) : list Z :=
  (fun k => Z.of_nat k * DIRENT_SIZE) <$> seq 0 (Z.to_nat ((size + DIRENT_SIZE - 1) / DIRENT_SIZE)).

(** The entry at [off]; a short read panics. *)
Definition read_dirent (dp : iref) (off : Z) : FK (list Z) :=
  let! (n, de) := readi dp off DIRENT_SIZE in
  if negb (n =? DIRENT_SIZE) then panic "dirlink read" else kret de.

(** Returns the inode found and what [*poff] was set to. *)
Definition fs1_dirlookup (dp : iref) (name : list Z) : FK (option (iref * Z)) :=
  let! d := get_inode dp in
  if negb (i_type d =? T_DIR) then panic "dirlookup not DIR"
  else
    for_return (entry_offs (i_size d)) (fun off =>
      let! de := read_dirent dp off in
      if de_inum de =? 0 then kret None
      else
        let! c := namecmp name (de_name de) in
        if c =? 0 then
          let! ip := fs1_iget (i_dev d) (de_inum de) in
          kret (Some (ip, off))
        else kret None).

Definition dirlookup (dp : iref) (name : list Z) : FK (option (iref * Z)) :=
  let! d := get_inode dp in
  by_fstype (i_dev d) (panic "ext2_dirlookup not implemented yet") (fs1_dirlookup dp name).

Definition fs1_dirlink (dp : iref) (name : list Z) (inum : Z) : FK Z :=
  let! found := dirlookup dp name in
  match found with
  | Some (ip, _) => iput ip ;;; kret (-1)
  | None =>
      let! d := get_inode dp in
      let! hole := for_return (entry_offs (i_size d)) (fun off =>
        let! de := read_dirent dp off in
        if de_inum de =? 0 then kret (Some off) else kret None) in
      let off := match hole with
                 | Some off => off
                 | None => Z.of_nat (length (entry_offs (i_size d))) * DIRENT_SIZE
                 end in
      let! nm := or_fault (sys_strncpy (replicate DIRSIZ 0) name (Z.of_nat DIRSIZ)) in
      let! n := writei dp (make_dirent (u16 inum) nm) off DIRENT_SIZE in
      if negb (n =? DIRENT_SIZE) then panic "dirlink" else kret 0
  end.

Definition dirlink (dp : iref) (name : list Z) (inum : Z) : FK Z :=
  let! d := get_inode dp in
  by_fstype (i_dev d) (panic "ext2_dirlink not implemented yet") (fs1_dirlink dp name inum).

(** ** The inode cache of vfs.c *)

(** sizeof(struct icache_node): the flag, the inode and the link, padded to 8. *)
Definition ICACHE_ALLOT : nat := Z.to_nat (u16 (4096 / 160)).

(** Zeroed nodes are appended to the list; [memset] faults on a null page. *)
Definition growicache : FK unit :=
  let! ptr := env_kalloc in
  if ptr =? 0 then fault
  else kmod (fun s => set_icache (icache s ++ replicate ICACHE_ALLOT zero_inode)
                        (u16 (unused_nodes s + Z.of_nat ICACHE_ALLOT)) s).

(** The loop stops at the node whose [next] is null, without looking at it; with no node
    at all it follows a null pointer.  Each recursive call follows a [growicache]. *)
Fixpoint iget (fuel : nat) (dv inum : Z) : FK iref :=
  match fuel with
  | O => kstop NoFuel
  | Datatypes.S fuel =>
      acquire vfs_lk ;;;
      let! l := gets icache in
      if decide (l = []) then fault
      else
        match iget_scan dv inum (take (length l - 1) l) 0 None with
        | inl i =>
            upd_inode (VfsInode i) (fun ip => set_ref (i32 (i_ref ip + 1)) ip) ;;;
            release vfs_lk ;;;
            kret (VfsInode i)
        | inr None => growicache ;;; release vfs_lk ;;; iget fuel dv inum
        | inr (Some i) =>
            upd_inode (VfsInode i) (recycle (u32 dv) inum) ;;;
            release vfs_lk ;;;
            kret (VfsInode i)
        end
  end.

Definition vfsinit : FK unit :=
  fs1_iinit ;;;
  kmod (set_vfs_lock false) ;;;
  growicache ;;;
  let! root := gets ROOT_DEV in
  let devtype := GETDEVTYPE root in
  let devnum := GETDEVNUM root in
  let! e := (if negb (devtype =? DEV_IDE) then ext2_init_dev devtype devnum else kret 0) in
  let! _ := setfstype root (if e =? 1 then FS_TYPE_EXT2 else FS_TYPE_FS1) in
  kret tt.
End fs1.

(** ** Paths *)

(** [while ( *path == '/') path++;] *)
Fixpoint skip_slashes (p : list Z) : option (list Z) :=
  match p with
  | [] => None
  | c :: p' => if c =? 47 then skip_slashes p' else Some p
  end.

(** [while ( *path != '/' && *path != 0) path++;]: the element and what follows it. *)
Fixpoint span_elem (p : list Z) : option (list Z * list Z) :=
  match p with
  | [] => None
  | c :: p' =>
      if ((c =? 47) || (c =? 0))%bool then Some ([], p)
      else span_elem p' ≫= fun r => Some (c :: r.1, r.2)
  end.

(** The new path pointer ([None] is null) and the contents of the [name] buffer. *)
Definition skipelem (path name : list Z) : option (option (list Z) * list Z) :=
  skip_slashes path ≫= fun s =>
  if bool_decide (head s = Some 0) then Some (None, name)
  else
    span_elem s ≫= fun '(e, rest) =>
    let name' := if decide (DIRSIZ <= length e)%nat then splice name 0 (take DIRSIZ e)
                 else splice name 0 (e ++ [0]) in
    skip_slashes rest ≫= fun p => Some (Some p, name').

Section namex.
Context {S : Type} `{HB : BlockOps S} `{HE : FsEnv S}.
Notation FK := (K (fsys S)).

(** The loop of [namex]; [name] is the caller's buffer.  It returns the inode ([None] is
    null) and the buffer. *)
Fixpoint namex_loop (fuel : nat) (ip : iref) (path : list Z) (nameiparent : bool) (name : list Z)
    : FK (option iref * list Z) :=
  let! (p, name) := or_fault (skipelem path name) in
  match p with
  | None =>
      if nameiparent then iput ip ;;; kret (None, name) else kret (Some ip, name)
  | Some path =>
      match fuel with
      | O => kstop NoFuel
      | Datatypes.S fuel =>
          ilock (Some ip) ;;;
          let! d := get_inode ip in
          if negb (i_type d =? T_DIR) then iunlockput ip ;;; kret (None, name)
          else if (nameiparent && bool_decide (head path = Some 0))%bool then
            iunlock (Some ip) ;;; kret (Some ip, name)
          else
            let! next := dirlookup ip name in
            match next with
            | None => iunlockput ip ;;; kret (None, name)
            | Some (next, _) => iunlockput ip ;;; namex_loop fuel next path nameiparent name
            end
      end
  end.

Definition namex (path : list Z) (nameiparent : bool) (name : list Z) : FK (option iref * list Z) :=
  let! ip := (if bool_decide (head path = Some 47) then
                let! root := gets ROOT_DEV in iget 2 root ROOTINO
              else
                let! c := gets cwd in
                match c with Some r => idup r | None => fault end) in
  namex_loop (length path) ip path nameiparent name.

Definition namei (path : list Z) : FK (option iref) :=
  let! (ip, _) := namex path false (replicate DIRSIZ 0) in kret ip.
Definition nameiparent (path name : list Z) : FK (option iref * list Z) := namex path true name.
End namex.
