(* ===== verification/FsBlocks.v ===== *)
(** * The block allocator of the file system

    [fs1_balloc] and [fs1_bfree] against the set of used blocks that the bitmap on disk
    stands for. *)

From stdpp Require Import base list strings.
From Stdlib Require Import ZArith Lia.
From S2P Require Import Prelude CString Bytes Spinlock Disk Bio Log LogSafety Store Fs.
Open Scope Z_scope.

(** ** Bits of a bitmap block *)

Lemma land_bit v k : 0 <= k -> (Z.land v (Z.shiftl 1 k) =? 0) = negb (Z.testbit v k).
Proof.
  intros Hk. rewrite Z.shiftl_1_l. destruct (Z.testbit v k) eqn:E; simpl.
  - apply Z.eqb_neq. intros H. assert (Z.testbit (Z.land v (2 ^ k)) k = false) as H2 by (rewrite H; apply Z.bits_0).
    rewrite Z.land_spec, E, Z.pow2_bits_true in H2 by done. done.
  - apply Z.eqb_eq, Z.bits_inj'. intros n Hn. rewrite Z.land_spec, Z.bits_0.
    destruct (decide (n = k)) as [->|Hne]; [by rewrite E|].
    rewrite Z.pow2_bits_false by done. apply andb_false_r.
Qed.

Lemma bit_free_test d bi : 0 <= bi -> bit_free d bi = negb (Z.testbit (bit_byte d bi) (bi mod 8)).
Proof. intros. unfold bit_free, bit_mask. apply land_bit. apply Z.mod_pos_bound. lia. Qed.

(** Changing the bit [bi] of a block by [op] at its byte. *)
Lemma bit_change d bi bj v : 0 <= bi < 4096 -> 0 <= bj < 4096 -> length d = 512%nat ->
  (forall k, 0 <= k -> k <> bi mod 8 -> Z.testbit v k = Z.testbit (bit_byte d bi) k) ->
  bit_free (<[Z.to_nat (bi / 8) := v]> d) bj =
    if decide (bj = bi) then negb (Z.testbit v (bi mod 8)) else bit_free d bj.
Proof.
  intros Hi Hj Hl Hv. rewrite !bit_free_test by lia. unfold bit_byte at 1.
  assert (0 <= bj mod 8 < 8 /\ 0 <= bi mod 8 < 8) as [? ?] by (split; apply Z.mod_pos_bound; lia).
  assert (0 <= bi / 8 < 512 /\ 0 <= bj / 8 < 512) as [? ?] by (split; split; [apply Z.div_pos|apply Z.div_lt_upper_bound|apply Z.div_pos|apply Z.div_lt_upper_bound]; lia).
  destruct (decide (bj / 8 = bi / 8)) as [E|E].
  - rewrite E, list_lookup_insert_eq by lia. simpl. destruct (decide (bj = bi)) as [->|Hne]; [done|].
    rewrite Hv by lia_dm. unfold bit_byte. by rewrite E.
  - rewrite list_lookup_insert_ne by lia. destruct (decide (bj = bi)) as [->|Hne]; [done|done].
Qed.

Lemma bit_set d bi bj : 0 <= bi < 4096 -> 0 <= bj < 4096 -> length d = 512%nat ->
  bit_free (<[Z.to_nat (bi / 8) := Z.lor (bit_byte d bi) (bit_mask bi)]> d) bj =
    if decide (bj = bi) then false else bit_free d bj.
Proof.
  intros Hi Hj Hl. assert (0 <= bi mod 8 < 8) by (apply Z.mod_pos_bound; lia).
  rewrite (bit_change d bi bj) by (try done; intros k Hk Hne; unfold bit_mask;
    rewrite Z.lor_spec, Z.shiftl_1_l, Z.pow2_bits_false by done; apply orb_false_r).
  destruct (decide (bj = bi)); [|done]. unfold bit_mask.
  rewrite Z.lor_spec, Z.shiftl_1_l, Z.pow2_bits_true by lia. by rewrite orb_true_r.
Qed.

Lemma bit_clear d bi bj : 0 <= bi < 4096 -> 0 <= bj < 4096 -> length d = 512%nat ->
  bit_free (<[Z.to_nat (bi / 8) := clr (bit_byte d bi) (bit_mask bi)]> d) bj =
    if decide (bj = bi) then true else bit_free d bj.
Proof.
  intros Hi Hj Hl. assert (0 <= bi mod 8 < 8) by (apply Z.mod_pos_bound; lia).
  rewrite (bit_change d bi bj) by (try done; intros k Hk Hne; unfold bit_mask, clr;
    rewrite Z.ldiff_spec, Z.shiftl_1_l, Z.pow2_bits_false by done; apply andb_true_r).
  destruct (decide (bj = bi)); [|done]. unfold bit_mask, clr.
  rewrite Z.ldiff_spec, Z.shiftl_1_l, Z.pow2_bits_true by lia. by rewrite andb_false_r.
Qed.

Lemma bytes_bit d k v : bytes d -> 0 <= v < 256 -> bytes (<[k := v]> d).
Proof. intros. by apply Forall_insert. Qed.

Lemma bit_byte_range d bi : bytes d -> 0 <= bit_byte d bi < 256.
Proof.
  intros Hd. unfold bit_byte. destruct (d !! Z.to_nat (bi / 8)) as [v|] eqn:E; simpl; [|lia].
  by eapply Forall_lookup_1 in Hd.
Qed.

Lemma byte_lor a b : 0 <= a < 256 -> 0 <= b < 256 -> 0 <= Z.lor a b < 256.
Proof.
  intros Ha Hb. assert (0 <= Z.lor a b) by (apply Z.lor_nonneg; lia). split; [done|].
  destruct (decide (Z.lor a b = 0)) as [->|Hz]; [lia|].
  change 256 with (2 ^ 8). apply Z.log2_lt_pow2; [lia|].
  rewrite Z.log2_lor by lia.
  assert (forall x, 0 <= x < 256 -> Z.log2 x < 8) as Hlog.
  { intros x Hx. destruct (decide (x = 0)) as [->|]; [done|]. apply Z.log2_lt_pow2; lia. }
  pose proof (Hlog a Ha). pose proof (Hlog b Hb). lia.
Qed.

Lemma byte_ldiff a b : 0 <= a < 256 -> 0 <= b -> 0 <= Z.ldiff a b < 256.
Proof.
  intros Ha Hb. assert (Z.ldiff a b = Z.ldiff a b mod 2 ^ 8) as ->; [|apply Z.mod_pos_bound; lia].
  apply Z.bits_inj'. intros n Hn. destruct (decide (n < 8)).
  - by rewrite Z.mod_pow2_bits_low by lia.
  - rewrite Z.mod_pow2_bits_high, Z.ldiff_spec by lia.
    rewrite <-(Z.mod_small a (2 ^ 8)), Z.mod_pow2_bits_high by lia. done.
Qed.

Lemma bit_mask_range bi : 0 <= bit_mask bi < 256.
Proof.
  unfold bit_mask. assert (0 <= bi mod 8 < 8) by (apply Z.mod_pos_bound; lia).
  rewrite Z.shiftl_1_l. split; [apply Z.pow_nonneg; lia|].
  change 256 with (2 ^ 8). apply Z.pow_lt_mono_r; lia.
Qed.

(** ** The layout of a disk *)

Definition bmstart (sb : fs1_superblock) : Z := sb_ninodes sb / IPB + 3.
Definition datastart (sb : fs1_superblock) : Z := bmstart sb + sb_size sb / BPB + 1.

(** Block [b] is marked in the bitmap. *)
Definition used (sb : fs1_superblock) (V : Z -> list Z) (b : Z) : bool :=
  negb (bit_free (V (BBLOCK b (sb_ninodes sb))) (b mod BPB)).

(** A well-formed disk: the superblock is [sb], the device serves all blocks, and the
    blocks before the data (boot, superblock, inodes, bitmap) are marked. *)
Record fs_ok (U : Z -> Prop) (sb : fs1_superblock) (V : Z -> list Z) : Prop := {
  fo_sb : decode_sb (V 1) = sb;
  fo_ninodes : 0 <= sb_ninodes sb;
  fo_size : datastart sb <= sb_size sb;
  fo_U : forall x, 1 <= x < sb_size sb -> U x;
  fo_bytes : forall x, U x -> bytes (V x);
  fo_meta : forall b, 0 <= b < datastart sb -> used sb V b = true;
}.

Definition zeros : list Z := replicate 512 0.

Section lifted.
Context {S : Type} `{HB : BlockOps S} `{HS : !BlockSpec S} `{HE : FsEnv S}.
Implicit Types (s : fsys S).

(** The store's laws, for the file system's calls. *)
Lemma fs_bread_wp cap dv U s a x Q : rep cap dv U (store s) a -> U x -> x ∉ (bH a).*2 ->
  (length (bT a) + length (bH a) < NBUF)%nat ->
  (forall i y t, rep cap dv U y (BS (bV a) (bW a) (bT a) ((i, x) :: bH a)) -> Q i (set_store y s) t) ->
  wp (bread dv x) s Q.
Proof.
  intros Ha HU Hx Hr HQ. pose proof (rep_dev _ _ _ _ _ Ha). pose proof (rep_range _ _ _ _ _ _ Ha HU).
  unfold bread. rewrite !u32_small by lia. apply wp_zoom. eapply st_bread_wp; [done..|].
  intros i y t Hy. by apply HQ.
Qed.

Lemma set_store_same s : set_store (store s) s = s.
Proof. by destruct s. Qed.

Lemma bdata_wp cap dv U s a i x Q : rep cap dv U (store s) a -> (i, x) ∈ bH a ->
  Q (bV a x) s [] -> wp (bdata i) s Q.
Proof.
  intros Ha Hi HQ. unfold bdata. apply wp_zoom. eapply st_data_wp; [done..|].
  change (lget the_store s) with (store s). change (lput the_store) with (@set_store S).
  by rewrite set_store_same.
Qed.

Lemma bstore_wp cap dv U s a i x f Q : rep cap dv U (store s) a -> (i, x) ∈ bH a ->
  length (f (bV a x)) = SECTOR_SIZE ->
  (forall y, rep cap dv U y (BS (updb x (f (bV a x)) (bV a)) (bW a) (bT a) (bH a)) ->
     Q tt (set_store y s) []) ->
  wp (bstore i f) s Q.
Proof.
  intros Ha Hi Hl HQ. unfold bstore. apply wp_zoom. eapply st_store_wp; [done..|].
  intros y Hy. by apply HQ.
Qed.

Lemma fs_log_write_wp cap dv U s a i x Q : rep cap dv U (store s) a -> (i, x) ∈ bH a -> U x ->
  (length (bT a) < cap)%nat ->
  (forall y, rep cap dv U y (BS (bV a) (bW a) (absorb (bT a) x) (bH a)) -> Q tt (set_store y s) []) ->
  wp (log_write i) s Q.
Proof.
  intros Ha Hi HU Hc HQ. unfold log_write. apply wp_zoom. eapply st_log_write_wp; [done..|].
  intros y Hy. by apply HQ.
Qed.

Lemma fs_brelse_wp cap dv U s a i x H Q : rep cap dv U (store s) a -> bH a = (i, x) :: H ->
  x ∉ H.*2 -> x ∈ bT a \/ bV a x = bW a x ->
  (forall y t, rep cap dv U y (BS (bV a) (bW a) (bT a) H) -> Q tt (set_store y s) t) ->
  wp (brelse i) s Q.
Proof.
  intros Ha Hh Hx Hc HQ. unfold brelse. apply wp_zoom. eapply st_brelse_wp; [done..|].
  intros y t Hy. by apply HQ.
Qed.

(** Releasing a block that was only read. *)
Lemma brelse_read_wp cap dv U s V W T i x H Q : rep cap dv U (store s) (BS V W T ((i, x) :: H)) ->
  x ∉ H.*2 -> (x ∉ T -> V x = W x) ->
  (forall y t, rep cap dv U y (BS V W T H) -> Q tt (set_store y s) t) ->
  wp (brelse i) s Q.
Proof.
  intros Ha Hx Hc HQ. eapply fs_brelse_wp; [done|done|done| |done].
  cbn [bT bV bW]. destruct (decide (x ∈ T)); [by left|right; by apply Hc].
Qed.

Lemma readsb_wp cap dv U s V W T H sb Q : rep cap dv U (store s) (BS V W T H) -> U 1 ->
  1 ∉ H.*2 -> (length T + length H < NBUF)%nat -> decode_sb (V 1) = sb ->
  (forall y t, rep cap dv U y (BS V W T H) -> Q sb (set_store y s) t) ->
  wp (fs1_readsb dv) s Q.
Proof.
  intros Ha HU Hx Hr Hsb HQ. unfold fs1_readsb. apply wp_bind.
  eapply fs_bread_wp; [done..|]. cbn [bV bW bT bH]. intros i y t H1.
  apply wp_bind. eapply bdata_wp; [exact H1|by apply elem_of_cons; left|]. cbn [bV].
  apply wp_bind. eapply (brelse_read_wp _ _ _ (set_store y s)); [exact H1|done| |].
  - intros Hn. by apply (rep_clean _ _ _ _ _ 1 Ha).
  - intros y2 t2 H2. apply wp_ret. rewrite Hsb. by apply (HQ y2).
Qed.

(** [bp = bread(dev, x); change bp->data; log_write(bp); brelse(bp)] *)
Lemma fs_log_block_wp cap dv U s V W T H x f Q : rep cap dv U (store s) (BS V W T H) -> U x ->
  x ∉ H.*2 -> (length T + length H < NBUF)%nat -> (length T < cap)%nat ->
  length (f (V x)) = SECTOR_SIZE ->
  (forall y t, rep cap dv U y (BS (updb x (f (V x)) V) W (absorb T x) H) ->
     Q tt (set_store y s) t) ->
  wp (let! bp := bread dv x in bstore bp f ;;; log_write bp ;;; brelse bp) s Q.
Proof.
  intros Ha HU Hx Hr Hc Hl HQ. apply wp_bind.
  eapply fs_bread_wp; [done..|]. cbn [bV bW bT bH]. intros i y t H1.
  apply wp_bind. eapply (bstore_wp _ _ _ (set_store y s)); [exact H1|by apply elem_of_cons; left|done|].
  cbn [bV bW bT bH]. intros y2 H2.
  apply wp_bind. eapply fs_log_write_wp; [exact H2|by apply elem_of_cons; left|done|done|].
  cbn [bV bW bT bH]. intros y3 H3.
  eapply fs_brelse_wp; [exact H3|done|done|left; apply absorb_in|].
  cbn [bV bW bT bH]. intros y4 t4 H4. by apply (HQ y4).
Qed.

Lemma bzero_wp cap dv U s V W T H x Q : rep cap dv U (store s) (BS V W T H) -> U x ->
  x ∉ H.*2 -> (length T + length H < NBUF)%nat -> (length T < cap)%nat ->
  (forall y t, rep cap dv U y (BS (updb x zeros V) W (absorb T x) H) -> Q tt (set_store y s) t) ->
  wp (fs1_bzero dv x) s Q.
Proof.
  intros Ha HU Hx Hr Hc HQ. pose proof (rep_len _ _ _ _ _ _ Ha HU : length (V x) = 512%nat) as Hl.
  assert (splice (V x) 0 (replicate (Z.to_nat BSIZE) 0) = zeros) as Hz.
  { unfold splice. rewrite length_replicate. simpl take. cbn [app].
    rewrite drop_ge by (by rewrite Hl). by rewrite app_nil_r. }
  unfold fs1_bzero. eapply fs_log_block_wp; [done..| |]; by rewrite Hz.
Qed.
End lifted.

(** ** Allocation *)

Lemma first_clear_spec d n :
  match first_clear d n with
  | Some bi => (bi < n)%nat /\ bit_free d (Z.of_nat bi) = true /\
      forall j, (j < bi)%nat -> bit_free d (Z.of_nat j) = false
  | None => forall j, (j < n)%nat -> bit_free d (Z.of_nat j) = false
  end.
Proof.
  unfold first_clear. destruct (List.find _ _) as [bi|] eqn:E.
  - apply find_from in E as (H1 & H2 & H3). split_and!; [lia|done|]. intros j Hj. apply H3. lia.
  - intros j Hj. eapply List.find_none in E; [exact E|]. apply in_seq. lia.
Qed.

(** The view after block [b] is marked and zeroed. *)
Definition mark (sb : fs1_superblock) (b : Z) (V : Z -> list Z) : Z -> list Z :=
  let x := BBLOCK b (sb_ninodes sb) in
  let bi := b mod BPB in
  updb x (<[Z.to_nat (bi / 8) := Z.lor (bit_byte (V x) bi) (bit_mask bi)]> (V x)) V.
Definition allocated (sb : fs1_superblock) (b : Z) (V : Z -> list Z) : Z -> list Z :=
  updb b zeros (mark sb b V).

Lemma bblock_range sb b : 0 <= sb_ninodes sb -> 0 <= b < sb_size sb ->
  bmstart sb <= BBLOCK b (sb_ninodes sb) < datastart sb.
Proof. unfold datastart, bmstart, BBLOCK, BPB, IPB, BSIZE, DINODE_SIZE. intros. lia_dm. Qed.

Lemma bmstart_range sb : 0 <= sb_ninodes sb -> 3 <= bmstart sb.
Proof. unfold bmstart, IPB, BSIZE, DINODE_SIZE. intros. lia_dm. Qed.

Lemma layout U sb V : fs_ok U sb V -> 3 <= bmstart sb < datastart sb /\ datastart sb <= sb_size sb.
Proof.
  intros Hok. pose proof (bmstart_range sb (fo_ninodes _ _ _ Hok)). pose proof (fo_size _ _ _ Hok).
  unfold datastart, BPB, BSIZE in *. lia_dm.
Qed.

Lemma bblock_U U sb V b : fs_ok U sb V -> 0 <= b < sb_size sb -> U (BBLOCK b (sb_ninodes sb)).
Proof.
  intros Hok Hb. apply (fo_U _ _ _ Hok).
  pose proof (bblock_range sb b (fo_ninodes _ _ _ Hok) Hb).
  pose proof (bmstart_range sb (fo_ninodes _ _ _ Hok)). pose proof (fo_size _ _ _ Hok). lia.
Qed.

Lemma data_U U sb V b : fs_ok U sb V -> datastart sb <= b < sb_size sb -> U b.
Proof.
  intros Hok Hb. apply (fo_U _ _ _ Hok). pose proof (bmstart_range sb (fo_ninodes _ _ _ Hok)).
  pose proof (fo_size _ _ _ Hok). unfold datastart, BPB, BSIZE in *. lia_dm.
Qed.

Section alloc.
Context {S : Type} `{HB : BlockOps S} `{HS : !BlockSpec S} `{HE : FsEnv S}.
Context (cap : nat) (dv : Z) (U : Z -> Prop) (sb : fs1_superblock) (V W : Z -> list Z)
  (T : list Z) (H : list (nat * Z)).
Implicit Types (s : fsys S).
Context (Hok : fs_ok U sb V) (Hheld : forall y, y ∈ H.*2 -> used sb V y = true /\ datastart sb <= y)
  (Hcap : (length T + 2 <= cap)%nat) (Hbufs : (length T + length H + 1 < NBUF)%nat).

Lemma meta_free x : x < datastart sb -> x ∉ H.*2.
Proof. intros Hx Hin. apply Hheld in Hin as [_ ?]. lia. Qed.

(** What the loop over the bitmap leaves. *)
Definition scanned s (r : option Z) s' : Prop :=
  match r with
  | Some b => exists y, s' = set_store y s /\ 0 <= b < sb_size sb /\ used sb V b = false /\
      (forall c, 0 <= c < b -> used sb V c = true) /\
      rep cap dv U y (BS (allocated sb b V) W (absorb (absorb T (BBLOCK b (sb_ninodes sb))) b) H)
  | None => exists y, s' = set_store y s /\ rep cap dv U y (BS V W T H) /\
      (forall c, 0 <= c < sb_size sb -> used sb V c = true)
  end.

Lemma balloc_turn s k : rep cap dv U (store s) (BS V W T H) -> 0 <= Z.of_nat k * BPB < sb_size sb ->
  (forall c, 0 <= c < Z.of_nat k * BPB -> used sb V c = true) ->
  wp (let b := Z.of_nat k * BPB in
      let! bp := bread dv (BBLOCK b (sb_ninodes sb)) in
      let! d := bdata bp in
      match first_clear d (Z.to_nat (Z.min BPB (sb_size sb - b))) with
      | Some bi =>
          let bi := Z.of_nat bi in
          bstore bp (fun d => <[Z.to_nat (bi / 8) := Z.lor (bit_byte d bi) (bit_mask bi)]> d) ;;;
          log_write bp ;;; brelse bp ;;; fs1_bzero dv (b + bi) ;;; kret (Some (b + bi))
      | None => brelse bp ;;; kret None
      end) s (fun r s' _ =>
    match r with
    | Some b => scanned s (Some b) s'
    | None => exists y, s' = set_store y s /\ rep cap dv U y (BS V W T H) /\
        (forall c, 0 <= c < Z.min (sb_size sb) (Z.of_nat (Datatypes.S k) * BPB) -> used sb V c = true)
    end).
Proof.
  intros Hr Hk Hpre. cbv zeta. set (b := Z.of_nat k * BPB) in *. set (x := BBLOCK b (sb_ninodes sb)).
  pose proof (bblock_range sb b (fo_ninodes _ _ _ Hok) Hk) as Hxr. fold x in Hxr.
  pose proof (fo_size _ _ _ Hok) as Hds.
  assert (U x) as HUx by (by apply (bblock_U U sb V)). assert (x ∉ H.*2) as Hxh by (apply meta_free; lia).
  assert (forall j, 0 <= j < BPB -> BBLOCK (b + j) (sb_ninodes sb) = x /\ (b + j) mod BPB = j) as Hj.
  { intros j Hj. unfold x, BBLOCK, b, BPB, BSIZE in *. split; lia_dm. }
  assert (forall e, b <= e < b + BPB -> bit_free (V x) (Z.of_nat (Z.to_nat (e - b))) = false ->
    used sb V e = true) as Hused.
  { intros e He Hf. rewrite Z2Nat.id in Hf by lia. destruct (Hj (e - b)) as [E1 E2]; [lia|].
    replace (b + (e - b)) with e in * by lia. unfold used. by rewrite E1, E2, Hf. }
  apply wp_bind. eapply fs_bread_wp; [done..|cbn [bT bH]; lia|]. cbn [bV bW bT bH]. intros i y t H1.
  apply wp_bind. eapply bdata_wp; [exact H1|by apply elem_of_cons; left|]. cbn [bV].
  pose proof (first_clear_spec (V x) (Z.to_nat (Z.min BPB (sb_size sb - b)))) as Hf.
  destruct (first_clear _ _) as [bi|].
  - destruct Hf as (F1 & F2 & F3). assert (0 <= Z.of_nat bi < BPB) as Hbi by (unfold BPB, BSIZE in *; lia).
    destruct (Hj _ Hbi) as [Ex Em]. set (c := b + Z.of_nat bi) in *.
    assert (used sb V c = false) as Hc by (unfold used; by rewrite Ex, Em, F2).
    assert (~ c < datastart sb) as Hcd.
    { intros Hlt. rewrite (fo_meta _ _ _ Hok) in Hc; [done|]. unfold c. lia. }
    assert (mark sb c V = updb x (<[Z.to_nat (Z.of_nat bi / 8) :=
      Z.lor (bit_byte (V x) (Z.of_nat bi)) (bit_mask (Z.of_nat bi))]> (V x)) V) as Hmark.
    { unfold mark. by rewrite Ex, Em. }
    apply wp_bind. eapply (bstore_wp _ _ _ (set_store y s)); [exact H1|by apply elem_of_cons; left| |].
    { rewrite length_insert. by apply (rep_len _ _ _ _ _ _ H1). }
    cbn [bV bW bT bH]. rewrite <-Hmark. intros y2 H2.
    apply wp_bind. eapply fs_log_write_wp; [exact H2|by apply elem_of_cons; left|done|cbn [bT]; lia|].
    cbn [bV bW bT bH]. intros y3 H3.
    apply wp_bind. eapply fs_brelse_wp; [exact H3|done|done|left; apply absorb_in|].
    cbn [bV bW bT bH]. intros y4 t4 H4.
    pose proof (absorb_length T x) as Hlen.
    assert (0 <= c < sb_size sb) as Hcr by (unfold c; lia).
    assert (U c) as HUc by (apply (data_U U sb V); [done|lia]).
    apply wp_bind. eapply bzero_wp; [exact H4|done| |lia|lia|].
    { intros Hin. apply Hheld in Hin as [Hin _]. congruence. }
    intros y5 t5 H5. apply wp_ret. exists y5. split_and!; try done; [lia|lia| |by rewrite Ex].
    intros e He. destruct (decide (e < b)); [apply Hpre; lia|].
    apply (Hused e); [lia|]. apply F3. lia.
  - apply wp_bind. eapply (brelse_read_wp _ _ _ (set_store y s)); [exact H1|done| |].
    + intros Hn. by apply (rep_clean _ _ _ _ _ x Hr).
    + intros y2 t2 H2. apply wp_ret. exists y2. split_and!; [done|done|].
      intros e He. destruct (decide (e < b)); [apply Hpre; lia|].
      apply (Hused e); [unfold b, BPB, BSIZE in *; lia|]. apply Hf. unfold b, BPB, BSIZE in *. lia.
Qed.

Lemma balloc_scan_wp s : rep cap dv U (store s) (BS V W T H) ->
  wp (balloc_scan dv sb) s (fun r s' _ => scanned s r s').
Proof.
  intros Hr. unfold balloc_scan.
  assert (0 <= sb_size sb) as Hsz.
  { pose proof (fo_size _ _ _ Hok). pose proof (bmstart_range sb (fo_ninodes _ _ _ Hok)).
    unfold datastart, BPB, BSIZE in *. lia_dm. }
  apply (wp_for_return _ _ (fun k s' => exists y, s' = set_store y s /\ rep cap dv U y (BS V W T H) /\
    (forall c, 0 <= c < Z.min (sb_size sb) (Z.of_nat k * BPB) -> used sb V c = true))).
  - exists (store s). split_and!; [by rewrite set_store_same|done|]. intros c Hc. lia.
  - intros k x s1 Hx (y & -> & Hy & Hpre). apply lookup_seq in Hx as [-> Hk]. rewrite Nat.add_0_l.
    assert (Z.of_nat k * BPB < sb_size sb) as Hlt by (unfold BPB, BSIZE in *; lia_dm).
    eapply wp_mono; [apply (balloc_turn (set_store y s) k); [done|unfold BPB, BSIZE in *; lia|]|].
    + intros c Hc. apply Hpre. lia.
    + intros [b|] s2 t2; [|done]. intros (y2 & -> & H2). by exists y2.
  - intros s1 (y & -> & Hy & Hall). exists y. split_and!; [done|done|].
    intros c Hc. apply Hall. rewrite length_seq. unfold BPB, BSIZE in *. lia_dm.
Qed.

Lemma sb_free : U 1 /\ 1 ∉ H.*2.
Proof.
  pose proof (bmstart_range sb (fo_ninodes _ _ _ Hok)). pose proof (fo_size _ _ _ Hok).
  assert (1 < datastart sb /\ 1 < sb_size sb) by (unfold datastart, BPB, BSIZE in *; lia_dm).
  split; [apply (fo_U _ _ _ Hok); lia|]. apply meta_free. lia.
Qed.

(** Allocation when some block is free. *)
Lemma balloc_wp s Q : rep cap dv U (store s) (BS V W T H) ->
  (exists b, 0 <= b < sb_size sb /\ used sb V b = false) ->
  (forall b y t, 0 <= b < sb_size sb -> used sb V b = false ->
     (forall c, 0 <= c < b -> used sb V c = true) ->
     rep cap dv U y (BS (allocated sb b V) W (absorb (absorb T (BBLOCK b (sb_ninodes sb))) b) H) ->
     Q b (set_store y s) t) ->
  wp (fs1_balloc dv) s Q.
Proof.
  intros Hr (b0 & Hb0 & Hu0) HQ. unfold fs1_balloc. apply wp_bind. destruct sb_free as [HU1 Hh1].
  eapply readsb_wp; [done|done|done|lia|apply Hok|]. intros y t Hy.
  apply wp_bind. eapply wp_mono; [by apply (balloc_scan_wp (set_store y s))|].
  cbv beta. intros [b|] s1 t1.
  - intros (y1 & -> & H1 & H2 & H3 & H4). apply wp_ret. by apply (HQ b y1).
  - intros (y1 & _ & _ & Hall). rewrite Hall in Hu0 by done. done.
Qed.

Lemma balloc_full s : rep cap dv U (store s) (BS V W T H) ->
  (forall b, 0 <= b < sb_size sb -> used sb V b = true) ->
  stops (fs1_balloc dv) s (Panicked "fs1_balloc: out of blocks") (fun _ _ => True).
Proof.
  intros Hr Hall. unfold fs1_balloc. apply stops_bind. destruct sb_free as [HU1 Hh1].
  eapply readsb_wp; [done|done|done|lia|apply Hok|]. intros y t Hy.
  apply stops_bind. eapply wp_mono; [by apply (balloc_scan_wp (set_store y s))|].
  cbv beta. intros [b|] s1 t1; [|done]. intros (y1 & _ & H1 & H2 & _). by rewrite Hall in H2.
Qed.
End alloc.

(** ** The bitmap as a set *)

Section marking.
Context (U : Z -> Prop) (sb : fs1_superblock) (V : Z -> list Z).
Context (Hok : fs_ok U sb V) (Hlen : forall x, U x -> length (V x) = 512%nat).

Lemma same_bit b c : 0 <= b < sb_size sb -> 0 <= c < sb_size sb ->
  BBLOCK c (sb_ninodes sb) = BBLOCK b (sb_ninodes sb) -> (c mod BPB = b mod BPB <-> c = b).
Proof. unfold BBLOCK, BPB, BSIZE. intros. split; [|by intros ->]. lia_dm. Qed.

(** Changing the bit of [b] to [v] in the bitmap. *)
Lemma used_change b c d (v : bool) : 0 <= b < sb_size sb -> 0 <= c < sb_size sb ->
  (forall bj, 0 <= bj < 4096 -> bit_free d bj =
     if decide (bj = b mod BPB) then negb v else bit_free (V (BBLOCK b (sb_ninodes sb))) bj) ->
  used sb (updb (BBLOCK b (sb_ninodes sb)) d V) c = if decide (c = b) then v else used sb V c.
Proof.
  intros Hb Hc Hd. unfold used, updb.
  destruct (decide (BBLOCK c (sb_ninodes sb) = BBLOCK b (sb_ninodes sb))) as [E|E].
  - rewrite Hd by (unfold BPB, BSIZE; apply Z.mod_pos_bound; lia).
    pose proof (same_bit b c Hb Hc E) as Hiff.
    destruct (decide (c mod BPB = b mod BPB)) as [Em|Em].
    + rewrite decide_True by (by apply Hiff). apply negb_involutive.
    + rewrite decide_False by (by intros ->). by rewrite E.
  - rewrite decide_False by (by intros ->). done.
Qed.

Lemma bm_range b : 0 <= b mod BPB < 4096.
Proof. unfold BPB, BSIZE. apply Z.mod_pos_bound. lia. Qed.

Lemma used_mark b c : 0 <= b < sb_size sb -> 0 <= c < sb_size sb ->
  used sb (mark sb b V) c = if decide (c = b) then true else used sb V c.
Proof.
  intros Hb Hc. unfold mark. apply used_change; [done|done|]. intros bj Hbj.
  apply bit_set; [apply bm_range|done|]. apply Hlen. by eapply bblock_U.
Qed.

(** The view after block [b] is unmarked. *)
Definition unmark (b : Z) : Z -> list Z :=
  let x := BBLOCK b (sb_ninodes sb) in
  let bi := b mod BPB in
  updb x (<[Z.to_nat (bi / 8) := clr (bit_byte (V x) bi) (bit_mask bi)]> (V x)) V.

Lemma used_unmark b c : 0 <= b < sb_size sb -> 0 <= c < sb_size sb ->
  used sb (unmark b) c = if decide (c = b) then false else used sb V c.
Proof.
  intros Hb Hc. unfold unmark. apply used_change; [done|done|]. intros bj Hbj.
  apply bit_clear; [apply bm_range|done|]. apply Hlen. by eapply bblock_U.
Qed.

Lemma used_zeroed b c Vm : datastart sb <= b -> 0 <= c < sb_size sb ->
  used sb (updb b zeros Vm) c = used sb Vm c.
Proof.
  intros Hb Hc. unfold used. rewrite updb_other; [done|].
  pose proof (bblock_range sb c (fo_ninodes _ _ _ Hok) Hc). lia.
Qed.

Lemma free_data b : 0 <= b -> used sb V b = false -> datastart sb <= b.
Proof.
  intros Hb Hu. destruct (decide (b < datastart sb)); [|lia].
  rewrite (fo_meta _ _ _ Hok) in Hu by lia. done.
Qed.

Lemma used_allocated b c : 0 <= b < sb_size sb -> used sb V b = false -> 0 <= c < sb_size sb ->
  used sb (allocated sb b V) c = if decide (c = b) then true else used sb V c.
Proof.
  intros Hb Hu Hc. unfold allocated. rewrite used_zeroed; [by apply used_mark| |done].
  apply free_data; [lia|done].
Qed.

Lemma allocated_same b : allocated sb b V b = zeros.
Proof. apply updb_same. Qed.

(** Allocation leaves every block alone but the block and the bitmap. *)
Lemma allocated_other b x : x <> b -> x <> BBLOCK b (sb_ninodes sb) -> allocated sb b V x = V x.
Proof. intros H1 H2. unfold allocated, mark. by rewrite !updb_other. Qed.

Lemma fs_ok_change Vn : decode_sb (Vn 1) = sb ->
  (forall x, U x -> bytes (Vn x)) ->
  (forall b, 0 <= b < datastart sb -> used sb Vn b = true) -> fs_ok U sb Vn.
Proof. intros. destruct Hok. by split. Qed.

Lemma bytes_marked x k v : U x -> 0 <= v < 256 -> bytes (<[k := v]> (V x)).
Proof. intros HU Hv. apply bytes_bit; [by apply (fo_bytes _ _ _ Hok)|done]. Qed.

Lemma fs_ok_allocated b : 0 <= b < sb_size sb -> used sb V b = false -> fs_ok U sb (allocated sb b V).
Proof.
  intros Hb Hu. pose proof (free_data b (proj1 Hb) Hu) as Hd.
  pose proof (bblock_range sb b (fo_ninodes _ _ _ Hok) Hb) as Hr.
  pose proof (bmstart_range sb (fo_ninodes _ _ _ Hok)) as H3. apply fs_ok_change.
  - rewrite allocated_other by lia. apply Hok.
  - intros x Hx. unfold allocated, mark, updb. destruct (decide (x = b)).
    { apply Forall_replicate. lia. }
    destruct (decide _) as [->|]; [|by apply (fo_bytes _ _ _ Hok)].
    apply bytes_marked; [done|]. apply byte_lor; [|apply bit_mask_range].
    apply bit_byte_range. by apply (fo_bytes _ _ _ Hok).
  - intros c Hc. pose proof (fo_size _ _ _ Hok). rewrite used_allocated by (done || lia).
    destruct (decide _); [done|]. by apply (fo_meta _ _ _ Hok).
Qed.

Lemma fs_ok_unmark b : datastart sb <= b < sb_size sb -> fs_ok U sb (unmark b).
Proof.
  intros Hb. pose proof (bmstart_range sb (fo_ninodes _ _ _ Hok)) as H3.
  assert (0 <= b < sb_size sb) as Hb0.
  { unfold datastart in Hb. pose proof (fo_size _ _ _ Hok). unfold datastart, BPB, BSIZE in *. lia_dm. }
  pose proof (bblock_range sb b (fo_ninodes _ _ _ Hok) Hb0) as Hr. apply fs_ok_change.
  - unfold unmark. rewrite updb_other by lia. apply Hok.
  - intros x Hx. unfold unmark, updb. destruct (decide _) as [->|]; [|by apply (fo_bytes _ _ _ Hok)].
    apply bytes_marked; [done|]. apply byte_ldiff; [|apply bit_mask_range].
    apply bit_byte_range. by apply (fo_bytes _ _ _ Hok).
  - intros c Hc. pose proof (fo_size _ _ _ Hok). rewrite used_unmark by lia.
    rewrite decide_False by lia. by apply (fo_meta _ _ _ Hok).
Qed.
End marking.

(** ** Freeing *)

Section freeing.
Context {S : Type} `{HB : BlockOps S} `{HS : !BlockSpec S} `{HE : FsEnv S}.
Implicit Types (s : fsys S).

Lemma bfree_read cap dv U sb V W T H s b : rep cap dv U (store s) (BS V W T H) -> fs_ok U sb V ->
  0 <= b < sb_size sb -> 1 ∉ H.*2 -> BBLOCK b (sb_ninodes sb) ∉ H.*2 -> (length T + length H < NBUF)%nat ->
  wp (let! sb := fs1_readsb dv in bread dv (BBLOCK b (sb_ninodes sb))) s (fun i s' _ =>
    exists y, s' = set_store y s /\
      rep cap dv U y (BS V W T ((i, BBLOCK b (sb_ninodes sb)) :: H))).
Proof.
  intros Hr Hok Hb H1 Hx Hbufs. pose proof (bblock_U _ _ _ _ Hok Hb) as HUx.
  assert (U 1) as HU1.
  { apply (fo_U _ _ _ Hok). pose proof (bmstart_range sb (fo_ninodes _ _ _ Hok)).
    pose proof (bblock_range sb b (fo_ninodes _ _ _ Hok) Hb). pose proof (fo_size _ _ _ Hok). lia. }
  apply wp_bind. eapply readsb_wp; [done|done|done|done|apply Hok|]. intros y t Hy.
  eapply fs_bread_wp; [done..|]. cbn [bV bW bT bH]. intros i y2 t2 H2. by exists y2.
Qed.

Lemma bfree_wp cap dv U sb V W T H s b Q : rep cap dv U (store s) (BS V W T H) -> fs_ok U sb V ->
  0 <= b < sb_size sb -> used sb V b = true -> 1 ∉ H.*2 -> BBLOCK b (sb_ninodes sb) ∉ H.*2 ->
  (length T < cap)%nat -> (length T + length H < NBUF)%nat ->
  (forall y t, rep cap dv U y (BS (unmark sb V b) W (absorb T (BBLOCK b (sb_ninodes sb))) H) ->
     Q tt (set_store y s) t) ->
  wp (fs1_bfree dv b) s Q.
Proof.
  intros Hr Hok Hb Hu H1 Hx Hcap Hbufs HQ. pose proof (bblock_U _ _ _ _ Hok Hb) as HUx.
  assert (U 1) as HU1.
  { apply (fo_U _ _ _ Hok). pose proof (bmstart_range sb (fo_ninodes _ _ _ Hok)).
    pose proof (bblock_range sb b (fo_ninodes _ _ _ Hok) Hb). pose proof (fo_size _ _ _ Hok). lia. }
  unfold fs1_bfree. apply wp_bind. eapply readsb_wp; [done|done|done|done|apply Hok|]. intros y t Hy.
  apply wp_bind. eapply fs_bread_wp; [done..|]. cbn [bV bW bT bH]. intros i y2 t2 H2.
  apply wp_bind. eapply bdata_wp; [exact H2|by apply elem_of_cons; left|]. cbn [bV].
  apply negb_true_iff in Hu. rewrite Hu.
  apply wp_bind. eapply (bstore_wp _ _ _ (set_store y2 s)); [exact H2|by apply elem_of_cons; left| |].
  { rewrite length_insert. by apply (rep_len _ _ _ _ _ _ H2). }
  cbn [bV bW bT bH]. intros y3 H3.
  apply wp_bind. eapply fs_log_write_wp; [exact H3|by apply elem_of_cons; left|done|done|].
  cbn [bV bW bT bH]. intros y4 H4.
  eapply fs_brelse_wp; [exact H4|done|done|left; apply absorb_in|].
  cbn [bV bW bT bH]. intros y5 t5 H5. by apply (HQ y5).
Qed.

(** Block allocation.  [fs1_balloc] returns the lowest-numbered free block, marks it and
    zeroes it; the marks of all other blocks, and the contents of every other block but the
    bitmap, stay as they were, and nothing reaches the disk before the transaction
    commits.  When every block is in use it panics. *)
Theorem balloc_lowest_free cap dv U sb V W T s :
  rep cap dv U (store s) (BS V W T []) -> fs_ok U sb V -> (length T + 2 <= cap)%nat ->
  (length T + 1 < NBUF)%nat ->
  ((exists b, 0 <= b < sb_size sb /\ used sb V b = false) ->
     wp (fs1_balloc dv) s (fun b s' _ => datastart sb <= b < sb_size sb /\ used sb V b = false /\
       (forall c, 0 <= c < b -> used sb V c = true) /\
       exists y V' T', s' = set_store y s /\ rep cap dv U y (BS V' W T' []) /\ fs_ok U sb V' /\
         V' b = zeros /\
         (forall c, 0 <= c < sb_size sb -> used sb V' c = if decide (c = b) then true else used sb V c) /\
         (forall x, x <> b -> x <> BBLOCK b (sb_ninodes sb) -> V' x = V x))) /\
  ((forall b, 0 <= b < sb_size sb -> used sb V b = true) ->
     stops (fs1_balloc dv) s (Panicked "fs1_balloc: out of blocks") (fun _ _ => True)).
Proof.
  intros Hr Hok Hcap Hbufs.
  assert (forall y, y ∈ ([] : list (nat * Z)).*2 -> used sb V y = true /\ datastart sb <= y) as Hh.
  { intros y Hy. by apply not_elem_of_nil in Hy. }
  split; intros Hex; [|eapply balloc_full; [exact Hok|exact Hh|done|simpl; lia|done|done]].
  eapply (balloc_wp _ _ _ _ _ _ _ _ Hok Hh); [done|simpl; lia|done|done|].
  intros b y t Hb Hu Hlow Hy. pose proof (free_data _ _ _ Hok b (proj1 Hb) Hu) as Hd.
  assert (forall x, U x -> length (V x) = 512%nat) as Hlen by (intros x; by apply (rep_len _ _ _ _ _ _ Hr)).
  split_and!; [done|lia|done|done|].
  eexists y, _, _. split_and!; [done|exact Hy|by apply fs_ok_allocated|apply updb_same| |].
  - intros c Hc. by eapply used_allocated.
  - intros x H1 H2. by apply allocated_other.
Qed.

(** Freeing a block.  [fs1_bfree] clears the mark of an allocated data block and nothing
    else, so that allocation and release are inverse on the set of used blocks; freeing a
    block that is free panics. *)
Theorem bfree_frees cap dv U sb V W T s b :
  rep cap dv U (store s) (BS V W T []) -> fs_ok U sb V -> (length T < cap)%nat ->
  (length T < NBUF)%nat -> datastart sb <= b < sb_size sb ->
  if used sb V b
  then wp (fs1_bfree dv b) s (fun _ s' _ =>
    exists y V' T', s' = set_store y s /\ rep cap dv U y (BS V' W T' []) /\ fs_ok U sb V' /\
      (forall c, 0 <= c < sb_size sb -> used sb V' c = if decide (c = b) then false else used sb V c) /\
      (forall x, x <> BBLOCK b (sb_ninodes sb) -> V' x = V x))
  else stops (fs1_bfree dv b) s (Panicked "freeing free block") (fun _ _ => True).
Proof.
  intros Hr Hok Hcap Hbufs Hb.
  assert (0 <= b < sb_size sb) as Hb0.
  { pose proof (bmstart_range sb (fo_ninodes _ _ _ Hok)). pose proof (fo_size _ _ _ Hok).
    unfold datastart, BPB, BSIZE in *. lia_dm. }
  assert (forall x, U x -> length (V x) = 512%nat) as Hlen by (intros x; by apply (rep_len _ _ _ _ _ _ Hr)).
  destruct (used sb V b) eqn:Hu.
  - eapply (bfree_wp cap dv U sb V W T [] s b); [done|done|done|done|apply not_elem_of_nil|
      apply not_elem_of_nil|done|simpl; lia|].
    intros y t Hy. eexists y, _, _. split_and!; [done|exact Hy|by apply fs_ok_unmark| |].
    + intros c Hc. by eapply used_unmark.
    + intros x Hx. unfold unmark. by rewrite updb_other.
  - assert (wp (let! sb := fs1_readsb dv in bread dv (BBLOCK b (sb_ninodes sb))) s (fun i s' _ =>
      exists y, s' = set_store y s /\ rep cap dv U y (BS V W T [(i, BBLOCK b (sb_ninodes sb))]))) as Hw.
    { apply (bfree_read _ _ _ _ _ _ _ _ _ _ Hr Hok Hb0); [apply not_elem_of_nil..|simpl; lia]. }
    unfold fs1_bfree. unfold wp, stops, kbind in *.
    destruct (fs1_readsb dv s) as [t1 [sb1 s1|]]; [|done].
    destruct (bread dv _ s1) as [t2 [i s2|]]; [|done]. destruct Hw as (y & -> & Hy).
    assert (wp (bdata i) (set_store y s) (fun d s' _ => d = V (BBLOCK b (sb_ninodes sb)))) as Hd.
    { eapply bdata_wp; [exact Hy|by apply elem_of_cons; left|done]. }
    unfold wp in Hd. destruct (bdata i _) as [t3 [d s3|]]; [|done]. subst d.
    apply negb_false_iff in Hu. rewrite Hu. done.
Qed.
End freeing.

(** ** A small file system

    Forty sectors: the superblock, eight inodes, the bitmap at sector 5, data from sector 6
    on and a log of sixteen sectors at the end.  Blocks 0 to 6 are marked; the root
    directory (inode 1) is in block 6 and holds "." and "..". *)

Definition demo_sb : fs1_superblock := Superblock 40 18 8 16.
Definition demo_entry (inum : Z) (name : list Z) : list Z :=
  le_bytes 2 inum ++ take 14 (name ++ replicate 14 0).
Definition demo_block (x : nat) : list Z :=
  match x with
  | 1%nat => splice zeros 0 (concat (le_bytes 4 <$> [40; 18; 8; 16]))
  | 2%nat => put_dinode (Inode 1 1 0 0 T_DIR 0 0 1 32 (6 :: replicate 28 0)) 128 zeros
  | 5%nat => splice zeros 0 [127]
  | 6%nat => splice zeros 0 (demo_entry 1 [46] ++ demo_entry 1 [46; 46])
  | _ => zeros
  end.
Definition fs_image : list Z := concat (demo_block <$> seq 0 40).

Lemma fs_image_len : Z.of_nat (length fs_image) = 512 * Z.of_nat 40.
Proof. vm_compute. reflexivity. Qed.

Notation demo_disk := (machine_disk fs_image).
Notation demo_dev := (machine_U 40).

Definition block_ok (d : list Z) : bool := forallb (fun b => (0 <=? b) && (b <? 256)) d.

Lemma block_ok_bytes d : block_ok d = true -> bytes d.
Proof.
  intros H. apply Forall_forall. intros b Hb. unfold block_ok in H.
  rewrite forallb_forall in H. apply list_elem_of_In in Hb. apply H in Hb. lia.
Qed.

Lemma demo_fs_ok : fs_ok demo_dev demo_sb demo_disk.
Proof.
  split.
  - by vm_compute.
  - simpl; lia.
  - change (6 <= 40). lia.
  - intros x Hx. unfold machine_U. simpl in Hx. lia.
  - intros x Hx. apply block_ok_bytes.
    assert (forallb (fun k => block_ok (demo_disk (Z.of_nat k))) (seq 0 40) = true) as H by (vm_compute; reflexivity).
    rewrite forallb_forall in H. specialize (H (Z.to_nat x)). unfold machine_U in Hx.
    rewrite Z2Nat.id in H by lia. apply H, in_seq. lia.
  - intros b Hb. change (datastart demo_sb) with 6 in Hb.
    assert (forallb (fun k => used demo_sb demo_disk (Z.of_nat k)) (seq 0 6) = true) as H by (vm_compute; reflexivity).
    rewrite forallb_forall in H. specialize (H (Z.to_nat b)).
    rewrite Z2Nat.id in H by lia. apply H, in_seq. lia.
Qed.

Lemma demo_rep : exists x : logsys memdisk, rep 15 1 demo_dev x (BS demo_disk demo_disk [] []).
Proof.
  apply (machine_rep fs_image 40 24 16 fs_image_len); [lia|unfold LOGSIZE, MAXOPBLOCKS; lia|lia].
Qed.

(** No other device, no other file system, and a page for the inode cache. *)
#[export] Instance demo_env : FsEnv (logsys memdisk) := {
  env_kalloc := kret 4096;
  ext2_init_dev _ _ := kret 0;
  ext2_readsb _ _ := kret [];
  ext2_readi _ _ _ := kret (1, []);
  ext2_readinode _ := kret tt;
  devsw_read _ := None;
  devsw_write _ := None;
}.

(** The file system mounted, with empty inode caches. *)
Definition demo_fsys (x : logsys memdisk) : fsys (logsys memdisk) :=
  Fsys false (replicate NINODE zero_inode) false (replicate ICACHE_ALLOT zero_inode) 25
    [Fsmap FS_TYPE_FS1 1 1] 1 None x.

Lemma balloc_lowest_free_witness : exists x,
  wp (fs1_balloc 1) (demo_fsys x) (fun b s' _ => used demo_sb demo_disk b = false /\ 6 <= b /\
    (forall c, 0 <= c < b -> used demo_sb demo_disk c = true)).
Proof.
  destruct demo_rep as [x Hx]. exists x. eapply wp_mono.
  - apply (balloc_lowest_free 15 1 demo_dev demo_sb demo_disk demo_disk [] (demo_fsys x)).
    + exact Hx.
    + exact demo_fs_ok.
    + simpl; lia.
    + simpl; unfold NBUF; lia.
    + exists 7. split; [simpl; lia|vm_compute; reflexivity].
  - cbv beta. intros b s' t (H1 & H2 & H3 & _). split; [exact H2|]. split; [apply H1|exact H3].
Defined.

Lemma bfree_frees_witness : exists x,
  wp (fs1_bfree 1 6) (demo_fsys x) (fun _ s' _ => exists y V' T', s' = set_store y (demo_fsys x) /\
    rep 15 1 demo_dev y (BS V' demo_disk T' []) /\ used demo_sb V' 6 = false).
Proof.
  destruct demo_rep as [x Hx]. exists x. eapply wp_mono.
  - apply (bfree_frees 15 1 demo_dev demo_sb demo_disk demo_disk [] (demo_fsys x) 6).
    + exact Hx.
    + exact demo_fs_ok.
    + simpl; lia.
    + simpl; unfold NBUF; lia.
    + change (6 <= 6 < 40). lia.
  - cbv beta. intros _ s' t (y & V' & T' & H1 & H2 & _ & H4 & _). exists y, V', T'.
    split; [exact H1|]. split; [exact H2|]. rewrite H4; [reflexivity|]. simpl; lia.
Defined.

(** The small file system just booted, with an operation open. *)
Definition boot_store : logsys memdisk :=
  Logsys (machine_log 24 16) (final (binit (machine_cache fs_image)).2).

(** The disk as mkfs leaves it once its data blocks are full: the blocks before the log are
    marked, those of the log are not. *)
Definition full_image : list Z :=
  concat ((fun x => if decide (x = 5%nat) then splice zeros 0 [255; 255; 255] else demo_block x) <$> seq 0 40).
Definition full_store : logsys memdisk :=
  Logsys (machine_log 24 16) (final (binit (machine_cache full_image)).2).

(** The next allocation takes the header block of the log. *)
Theorem balloc_takes_log_block :
  wp (fs1_balloc 1) (demo_fsys full_store) (fun b s' _ => b = l_start (lg (store s'))).
Proof. vm_compute. reflexivity. Qed.
