(* ===== verification/FsFile.v ===== *)
(** * Files: inodes on disk, block maps, reading and writing

    The contents of a file as the blocks its inode points to, directly or through its
    indirect block, and [fs1_bmap], [fs1_readi], [fs1_writei], [fs1_iupdate] and
    [fs1_readinode] against them. *)

From stdpp Require Import base list strings.
From Stdlib Require Import ZArith Lia.
From S2P Require Import Prelude CString Bytes Spinlock Disk Bio Cache Log LogSafety Store Fs FsBlocks.
Open Scope Z_scope.

(** ** One inode and the store *)

Section put.
Context {S : Type}.
Implicit Types (s : fsys S).

(** The state [s] with inode [r] and the store replaced. *)
Definition put s (r : iref) (ip : inode) (y : S) : fsys S := alter_inode (fun _ => ip) r (set_store y s).

Lemma alter_same {A} i (l : list A) x : l !! i = Some x -> alter (fun _ => x) i l = l.
Proof. intros H. rewrite (alter_insert _ _ _ x) by done. by apply list_insert_id. Qed.

Lemma put_store s r ip y : store (put s r ip y) = y.
Proof. by destruct r. Qed.

Lemma set_store_put s r ip y y' : set_store y' (put s r ip y) = put s r ip y'.
Proof. by destruct r. Qed.

Lemma put_put s r ip y ip' y' : put (put s r ip y) r ip' y' = put s r ip' y'.
Proof. destruct r as [i|i]; unfold put; simpl; rewrite alter_alter; done. Qed.

Lemma put_lookup s r ip0 ip y : lookup_inode s r = Some ip0 -> lookup_inode (put s r ip y) r = Some ip.
Proof. destruct r as [i|i]; simpl; intros H; rewrite list_lookup_alter_eq, H; done. Qed.

Lemma put_other s r ip y r' : r' <> r -> lookup_inode (put s r ip y) r' = lookup_inode s r'.
Proof. destruct r as [i|i], r' as [j|j]; simpl; intros H; try done; apply list_lookup_alter_ne; congruence. Qed.

Lemma put_same s r ip : lookup_inode s r = Some ip -> put s r ip (store s) = s.
Proof.
  destruct r as [i|i], s; unfold put; simpl; intros H; rewrite (alter_same _ _ _ H); done.
Qed.

Lemma put_store_eq s r ip y : lookup_inode s r = Some ip -> set_store y s = put s r ip y.
Proof. intros H. by rewrite <-(put_same s r ip H), set_store_put, put_put. Qed.

Lemma upd_inode_wp s r ip y f (Q : unit -> fsys S -> list event -> Prop) :
  Q tt (put s r (f ip) y) [] -> wp (upd_inode r f) (put s r ip y) Q.
Proof.
  intros HQ. unfold upd_inode. apply wp_mod. revert HQ. unfold put.
  destruct r as [i|i]; simpl; by rewrite alter_alter.
Qed.

Lemma get_inode_wp s r ip (Q : inode -> fsys S -> list event -> Prop) :
  lookup_inode s r = Some ip -> Q ip s [] -> wp (get_inode r) s Q.
Proof. intros H HQ. unfold get_inode. apply wp_bind, wp_get. rewrite H. by apply wp_ret. Qed.
End put.

(** ** The blocks of a file *)

(** The [k]th entry of an indirect block. *)
Definition ind_entry (d : list Z) (k : nat) : Z := get32 d (4 * k).

(** The address of block [bn] of a file, 0 if it has none. *)
Definition faddr (V : Z -> list Z) (ip : inode) (bn : Z) : Z :=
  if bn <? NDIRECT then addr_at ip (Z.to_nat bn)
  else if addr_at ip 28 =? 0 then 0
  else ind_entry (V (addr_at ip 28)) (Z.to_nat (bn - NDIRECT)).

(** Its contents: a block never allocated reads as zeros. *)
Definition fblock (V : Z -> list Z) (ip : inode) (bn : Z) : list Z :=
  if faddr V ip bn =? 0 then zeros else V (faddr V ip bn).

(** The block addresses stored for a file: the 29 of the inode, and those of its indirect
    block. *)
Definition ind_entries (V : Z -> list Z) (ip : inode) : list Z :=
  if addr_at ip 28 =? 0 then [] else ind_entry (V (addr_at ip 28)) <$> seq 0 128.
Definition slots (V : Z -> list Z) (ip : inode) : list Z := i_addrs ip ++ ind_entries V ip.
Definition owned (V : Z -> list Z) (ip : inode) : list Z := filter (fun a => a <> 0) (slots V ip).

(** A well-formed file: its blocks are distinct, marked data blocks. *)
Record file_ok (sb : fs1_superblock) (V : Z -> list Z) (ip : inode) : Prop := {
  fi_addrs : length (i_addrs ip) = 29%nat;
  fi_nodup : NoDup (owned V ip);
  fi_used : forall b, b ∈ owned V ip -> datastart sb <= b < sb_size sb /\ used sb V b = true;
}.

(** What changing a file leaves of the rest of the disk: everything before the bitmap, and
    the data blocks in use by others. *)
Record preserves (sb : fs1_superblock) (own : list Z) (V V' : Z -> list Z) : Prop := {
  pr_meta : forall x, x < bmstart sb -> V' x = V x;
  pr_data : forall x, datastart sb <= x < sb_size sb -> used sb V x = true -> x ∉ own -> V' x = V x;
  pr_used : forall x, 0 <= x < sb_size sb -> used sb V x = true -> used sb V' x = true;
}.

Lemma addr_at_elem ip k : addr_at ip k <> 0 -> addr_at ip k ∈ i_addrs ip.
Proof.
  unfold addr_at. destruct (i_addrs ip !! k) as [a|] eqn:E; simpl; [|done].
  intros _. by eapply list_elem_of_lookup_2.
Qed.

Lemma owned_elem V ip b : b ∈ owned V ip <-> b <> 0 /\ b ∈ slots V ip.
Proof. unfold owned. by rewrite list_elem_of_filter. Qed.

Lemma owned_addr V ip k : addr_at ip k <> 0 -> addr_at ip k ∈ owned V ip.
Proof. intros H. apply owned_elem. split; [done|]. apply elem_of_app. left. by apply addr_at_elem. Qed.

Lemma ind_entry_elem V ip k : addr_at ip 28 <> 0 -> (k < 128)%nat ->
  ind_entry (V (addr_at ip 28)) k ∈ ind_entries V ip.
Proof.
  intros H Hk. unfold ind_entries. rewrite (proj2 (Z.eqb_neq _ _) H).
  apply list_elem_of_fmap. exists k. split; [done|]. apply elem_of_seq. lia.
Qed.

Lemma owned_faddr V ip bn : 0 <= bn < MAXFILE -> faddr V ip bn <> 0 -> faddr V ip bn ∈ owned V ip.
Proof.
  intros Hb. change MAXFILE with 156 in Hb. unfold faddr.
  destruct (Z.ltb_spec bn NDIRECT); [apply owned_addr|].
  destruct (Z.eqb_spec (addr_at ip 28) 0) as [E|E]; [done|]. intros Hn. apply owned_elem.
  split; [done|]. apply elem_of_app. right. apply ind_entry_elem; [done|].
  change NDIRECT with 28 in *. lia.
Qed.

(** ** Adding a block to a file *)

Lemma filter_insert_zero (l : list Z) k b : l !! k = Some 0 -> b <> 0 ->
  filter (fun a => a <> 0) (<[k := b]> l) ≡ₚ b :: filter (fun a => a <> 0) l.
Proof.
  intros Hk Hb. rewrite (insert_take_drop l k b) by (by eapply lookup_lt_Some).
  rewrite <-(take_drop_middle l k 0 Hk) at 3. rewrite !filter_app, !filter_cons.
  rewrite (decide_True (P := b <> 0)) by done. rewrite (decide_False (P := 0 <> 0)) by lia.
  symmetry. apply Permutation_middle.
Qed.

(** Two slots with the same address other than 0 are the same slot. *)
Lemma slot_inj (l : list Z) i j a : NoDup (filter (fun a => a <> 0) l) -> a <> 0 ->
  l !! i = Some a -> l !! j = Some a -> i = j.
Proof.
  revert i j. induction l as [|x l IH]; intros i j Hn Ha Hi Hj; [done|].
  rewrite filter_cons in Hn.
  assert (forall k, l !! k = Some a -> a ∈ filter (fun a => a <> 0) l) as Hin.
  { intros k Hk. apply list_elem_of_filter. split; [done|]. by eapply list_elem_of_lookup_2. }
  destruct i as [|i], j as [|j]; simpl in *; [done| | |].
  - injection Hi as ->. rewrite decide_True in Hn by done. inversion_clear Hn as [|?? H1 H2].
    by apply Hin in Hj.
  - injection Hj as ->. rewrite decide_True in Hn by done. inversion_clear Hn as [|?? H1 H2].
    by apply Hin in Hi.
  - f_equal. apply IH; [|done..]. destruct (decide (x <> 0)); [by inversion Hn|done].
Qed.

Lemma ind_entry_zeros k : (k < 128)%nat -> ind_entry zeros k = 0.
Proof.
  intros Hk. unfold ind_entry, get32, get_le, zeros, slice.
  rewrite drop_replicate, take_replicate. replace (4 `min` (512 - 4 * k))%nat with 4%nat by lia. done.
Qed.

Lemma ind_entry_put d j b k : length d = 512%nat -> (j < 128)%nat -> (k < 128)%nat -> 0 <= b < 2 ^ 32 ->
  ind_entry (put32 d (4 * j) b) k = if decide (k = j) then b else ind_entry d k.
Proof.
  intros Hd Hj Hk Hb. unfold ind_entry. destruct (decide (k = j)) as [->|Hne].
  - rewrite get32_put32 by lia. by apply u32_small.
  - apply get32_put32_other; lia.
Qed.

Section grow.
Context (U : Z -> Prop) (sb : fs1_superblock) (V : Z -> list Z) (ip : inode).
Context (Hok : fs_ok U sb V) (Hlen : forall x, U x -> length (V x) = 512%nat) (Hf : file_ok sb V ip).

Lemma data_pos b : datastart sb <= b -> 3 < b.
Proof.
  intros Hb. pose proof (layout _ _ _ Hok). lia.
Qed.

Lemma owned_range b : b ∈ owned V ip -> datastart sb <= b < sb_size sb /\ 0 <= b < sb_size sb.
Proof. intros H. destruct (fi_used _ _ _ Hf b H) as [Hr _]. pose proof (data_pos b). lia. Qed.

Lemma ind_owned : addr_at ip 28 <> 0 -> addr_at ip 28 ∈ owned V ip.
Proof. apply owned_addr. Qed.

(** A block in use keeps its contents when another is allocated. *)
Lemma owned_stable b x : 0 <= b < sb_size sb -> used sb V b = false ->
  datastart sb <= x -> used sb V x = true -> allocated sb b V x = V x.
Proof.
  intros Hb Hu Hx Hux. apply allocated_other; [congruence|].
  pose proof (bblock_range sb b (fo_ninodes _ _ _ Hok) Hb). lia.
Qed.

Lemma owned_kept b x : 0 <= b < sb_size sb -> used sb V b = false -> x ∈ owned V ip ->
  allocated sb b V x = V x.
Proof. intros Hb Hu Hx. destruct (fi_used _ _ _ Hf x Hx) as [? ?]. apply owned_stable; [done|done|lia|done]. Qed.

Lemma allocated_preserves b own : 0 <= b < sb_size sb -> used sb V b = false ->
  preserves sb own V (allocated sb b V).
Proof.
  intros Hb Hu. pose proof (free_data _ _ _ Hok b (proj1 Hb) Hu) as Hd. split.
  - intros x Hx. pose proof (bblock_range sb b (fo_ninodes _ _ _ Hok) Hb).
    pose proof (layout _ _ _ Hok). apply allocated_other; lia.
  - intros x Hx Hux _. apply owned_stable; [done|done|lia|done].
  - intros x Hx Hux. rewrite (used_allocated U) by done. by destruct (decide _).
Qed.

Lemma free_not_owned b : used sb V b = false -> b ∉ owned V ip.
Proof. intros Hu Hb. destruct (fi_used _ _ _ Hf b Hb) as [_ ?]. congruence. Qed.

Lemma file_ok_perm V' ip' b : length (i_addrs ip') = 29%nat ->
  owned V' ip' ≡ₚ b :: owned V ip -> datastart sb <= b < sb_size sb -> used sb V b = false ->
  (forall c, 0 <= c < sb_size sb -> used sb V' c = if decide (c = b) then true else used sb V c) ->
  file_ok sb V' ip'.
Proof.
  intros Ha Hp Hb Hu Hu'. split; [done| |].
  - rewrite Hp. apply NoDup_cons. split; [by apply free_not_owned|apply Hf].
  - intros c Hc. rewrite Hp in Hc. pose proof (data_pos b). rewrite Hu'.
    + apply elem_of_cons in Hc as [->|Hc]; [by rewrite decide_True|].
      destruct (fi_used _ _ _ Hf c Hc) as [? ?]. split; [done|]. by destruct (decide _).
    + apply elem_of_cons in Hc as [->|Hc]; [lia|]. by apply owned_range.
Qed.

(** *** Where the addresses are kept *)

Definition slot_of (bn : Z) : nat := if bn <? NDIRECT then Z.to_nat bn else Z.to_nat (bn + 1).

Lemma addr_lookup k : (k < 29)%nat -> i_addrs ip !! k = Some (addr_at ip k).
Proof.
  intros Hk. destruct (lookup_lt_is_Some_2 (i_addrs ip) k) as [a Ha].
  { by rewrite (fi_addrs _ _ _ Hf). }
  unfold addr_at. by rewrite Ha.
Qed.

Lemma slots_addr k : (k < 29)%nat -> slots V ip !! k = Some (addr_at ip k).
Proof.
  intros Hk. unfold slots. rewrite lookup_app_l by (by rewrite (fi_addrs _ _ _ Hf)). by apply addr_lookup.
Qed.

Lemma slots_faddr bn : 0 <= bn < MAXFILE -> faddr V ip bn <> 0 ->
  slots V ip !! slot_of bn = Some (faddr V ip bn).
Proof.
  intros Hb Hn. change MAXFILE with 156 in Hb. unfold faddr, slot_of in *. change NDIRECT with 28 in *.
  destruct (Z.ltb_spec bn 28); [apply slots_addr; lia|].
  destruct (Z.eqb_spec (addr_at ip 28) 0) as [E|E]; [done|].
  unfold slots, ind_entries. rewrite (proj2 (Z.eqb_neq _ _) E).
  rewrite lookup_app_r by (rewrite (fi_addrs _ _ _ Hf); lia). rewrite (fi_addrs _ _ _ Hf).
  rewrite list_lookup_fmap, lookup_seq_lt by lia. simpl. do 3 f_equal. lia.
Qed.

Lemma faddr_not_ind bn : 0 <= bn < MAXFILE -> faddr V ip bn <> 0 -> faddr V ip bn <> addr_at ip 28.
Proof.
  intros Hb Hn E. change MAXFILE with 156 in Hb.
  pose proof (slots_faddr bn Hb Hn) as H1. pose proof (slots_addr 28 ltac:(lia)) as H2. rewrite <-E in H2.
  pose proof (slot_inj _ _ _ _ (fi_nodup _ _ _ Hf) Hn H1 H2) as Hs.
  unfold slot_of in Hs. change NDIRECT with 28 in Hs. destruct (Z.ltb_spec bn 28); lia.
Qed.

Lemma faddr_inj bn bn' : 0 <= bn < MAXFILE -> 0 <= bn' < MAXFILE -> faddr V ip bn <> 0 ->
  faddr V ip bn' = faddr V ip bn -> bn' = bn.
Proof.
  intros Hb Hb' Hn E. change MAXFILE with 156 in *.
  pose proof (slots_faddr bn Hb Hn) as H1. pose proof (slots_faddr bn' Hb') as H2.
  rewrite E in H2. specialize (H2 Hn).
  pose proof (slot_inj _ _ _ _ (fi_nodup _ _ _ Hf) Hn H1 H2) as Hs.
  unfold slot_of in Hs. change NDIRECT with 28 in Hs.
  destruct (Z.ltb_spec bn 28), (Z.ltb_spec bn' 28); lia.
Qed.

(** *** A new address in the inode *)

Lemma addr_at_set k b j : (k < 29)%nat -> addr_at (set_addr k b ip) j = if decide (j = k) then b else addr_at ip j.
Proof.
  intros Hk. unfold addr_at, set_addr. simpl. destruct (decide (j = k)) as [->|Hne].
  - rewrite list_lookup_insert_eq; [done|]. by rewrite (fi_addrs _ _ _ Hf).
  - by rewrite list_lookup_insert_ne.
Qed.

Section addr.
Context (k : nat) (b : Z) (Hk : (k < 29)%nat) (Hz : addr_at ip k = 0)
  (Hb : 0 <= b < sb_size sb) (Hu : used sb V b = false).
Local Notation V1 := (allocated sb b V).
Local Notation ip1 := (set_addr k b ip).

Lemma new_pos : b <> 0.
Proof. pose proof (data_pos b (free_data _ _ _ Hok b (proj1 Hb) Hu)). lia. Qed.

Lemma ind_entries_addr :
  filter (fun a => a <> 0) (ind_entries V1 ip1) = filter (fun a => a <> 0) (ind_entries V ip).
Proof.
  unfold ind_entries. rewrite addr_at_set by done. pose proof new_pos as Hbz.
  destruct (decide (28%nat = k)) as [<-|Hne].
  - rewrite Hz, (proj2 (Z.eqb_neq _ _) Hbz). rewrite Z.eqb_refl, allocated_same.
    assert (Forall (fun a => a = 0) (ind_entry zeros <$> seq 0 128)) as Hall.
    { apply Forall_fmap, Forall_forall. intros j Hj%elem_of_seq. apply ind_entry_zeros. lia. }
    revert Hall. generalize (ind_entry zeros <$> seq 0 128). intros l Hl.
    induction Hl as [|a l -> _ IH]; [done|]. rewrite filter_cons, decide_False by lia. exact IH.
  - destruct (Z.eqb_spec (addr_at ip 28) 0) as [E|E]; [done|].
    by rewrite owned_kept by (try done; by apply ind_owned).
Qed.

Lemma owned_addr_new : owned V1 ip1 ≡ₚ b :: owned V ip.
Proof.
  unfold owned, slots. rewrite !filter_app, ind_entries_addr. simpl i_addrs.
  rewrite filter_insert_zero; [done| |apply new_pos]. by rewrite addr_lookup, Hz.
Qed.

Lemma file_ok_addr : file_ok sb V1 ip1.
Proof.
  eapply file_ok_perm; [|apply owned_addr_new| |done|].
  - simpl. rewrite length_insert. apply Hf.
  - split; [apply (free_data _ _ _ Hok); [lia|done]|apply Hb].
  - intros c Hc. by apply (used_allocated U).
Qed.

Lemma faddr_addr bn : 0 <= bn < MAXFILE -> faddr V1 ip1 bn =
  if decide (bn = Z.of_nat k /\ bn < NDIRECT) then b else faddr V ip bn.
Proof.
  intros Hbn. change MAXFILE with 156 in Hbn. unfold faddr. change NDIRECT with 28.
  rewrite !addr_at_set by done. pose proof new_pos as Hbz.
  destruct (Z.ltb_spec bn 28).
  - destruct (decide (Z.to_nat bn = k)); destruct (decide (bn = Z.of_nat k /\ bn < 28)); lia || done.
  - rewrite (decide_False (P := bn = Z.of_nat k /\ bn < 28)) by lia.
    destruct (decide (28%nat = k)) as [<-|Hne].
    + rewrite Hz, (proj2 (Z.eqb_neq _ _) Hbz), Z.eqb_refl, allocated_same. apply ind_entry_zeros. lia.
    + destruct (Z.eqb_spec (addr_at ip 28) 0) as [E|E]; [done|].
      by rewrite owned_kept by (try done; by apply ind_owned).
Qed.

Lemma fblock_addr bn : 0 <= bn < MAXFILE -> fblock V1 ip1 bn = fblock V ip bn.
Proof.
  intros Hbn. unfold fblock. rewrite faddr_addr by done. pose proof new_pos as Hbz.
  destruct (decide _) as [[E Hd]|Hn].
  - rewrite (proj2 (Z.eqb_neq _ _) Hbz), allocated_same.
    unfold faddr. rewrite (proj2 (Z.ltb_lt _ _) Hd), E, Nat2Z.id, Hz. done.
  - destruct (Z.eqb_spec (faddr V ip bn) 0) as [E|E]; [done|].
    apply owned_kept; [done|done|]. by apply owned_faddr.
Qed.
End addr.

(** *** A new entry in the indirect block *)

Section entry.
Context (j : nat) (b : Z) (Hj : (j < 128)%nat) (Hi : addr_at ip 28 <> 0)
  (Hz : ind_entry (V (addr_at ip 28)) j = 0) (Hb : 0 <= b < sb_size sb) (Hb31 : b < 2 ^ 31)
  (Hu : used sb V b = false).
Local Notation ind := (addr_at ip 28).
Local Notation V1 := (allocated sb b V).
Local Notation V2 := (updb ind (put32 (V1 ind) (4 * j) b) V1).

Lemma ind_facts : b <> 0 /\ b <> ind /\ V1 ind = V ind /\ length (V ind) = 512%nat.
Proof.
  pose proof (data_pos b (free_data _ _ _ Hok b (proj1 Hb) Hu)) as Hp. pose proof (ind_owned Hi) as Ho.
  split_and!; [lia| | |].
  - intros E. by apply (free_not_owned b Hu); rewrite E.
  - by apply owned_kept.
  - apply Hlen. apply (data_U _ _ _ _ Hok). by apply owned_range.
Qed.

Lemma ind_entry_new m : (m < 128)%nat ->
  ind_entry (V2 ind) m = if decide (m = j) then b else ind_entry (V ind) m.
Proof.
  intros Hm. destruct ind_facts as (_ & _ & E & El). rewrite updb_same, E. apply ind_entry_put; [done..|lia].
Qed.

Lemma used_entry c : 0 <= c < sb_size sb ->
  used sb V2 c = if decide (c = b) then true else used sb V c.
Proof.
  intros Hc. rewrite <-(used_allocated U sb V Hok Hlen b c Hb Hu Hc). unfold used.
  rewrite updb_other; [done|]. pose proof (bblock_range sb c (fo_ninodes _ _ _ Hok) Hc).
  pose proof (owned_range _ (ind_owned Hi)). lia.
Qed.

Lemma slots_entry : slots V2 ip = <[(29 + j)%nat := b]> (slots V ip).
Proof.
  unfold slots, ind_entries. rewrite (proj2 (Z.eqb_neq _ _) Hi).
  replace (29 + j)%nat with (length (i_addrs ip) + j)%nat by (rewrite (fi_addrs _ _ _ Hf); lia).
  rewrite insert_app_r. f_equal. apply list_eq. intros m. destruct (decide (m < 128)%nat) as [Hm|Hm].
  - rewrite list_lookup_fmap, lookup_seq_lt by done. cbn [fmap option_fmap option_map].
    rewrite Nat.add_0_l, ind_entry_new by done. destruct (decide (m = j)) as [->|Hne].
    + rewrite list_lookup_insert_eq; [done|]. by rewrite length_fmap, length_seq.
    + rewrite list_lookup_insert_ne, list_lookup_fmap, lookup_seq_lt by done. done.
  - rewrite !lookup_ge_None_2; [done| |]; rewrite ?length_insert, length_fmap, length_seq; lia.
Qed.

Lemma slot_entry_zero : slots V ip !! (29 + j)%nat = Some 0.
Proof.
  unfold slots, ind_entries. rewrite (proj2 (Z.eqb_neq _ _) Hi).
  replace (29 + j)%nat with (length (i_addrs ip) + j)%nat by (rewrite (fi_addrs _ _ _ Hf); lia).
  rewrite lookup_app_r by lia. replace (length (i_addrs ip) + j - length (i_addrs ip))%nat with j by lia.
  rewrite list_lookup_fmap, lookup_seq_lt by done. simpl. by rewrite Hz.
Qed.

Lemma owned_entry : owned V2 ip ≡ₚ b :: owned V ip.
Proof.
  unfold owned. rewrite slots_entry. apply filter_insert_zero; [apply slot_entry_zero|apply ind_facts].
Qed.

Lemma file_ok_entry : file_ok sb V2 ip.
Proof.
  eapply file_ok_perm; [apply Hf|apply owned_entry| |done|apply used_entry].
  split; [apply (free_data _ _ _ Hok); [lia|done]|apply Hb].
Qed.

Lemma faddr_entry bn : 0 <= bn < MAXFILE -> faddr V2 ip bn =
  if decide (bn = 28 + Z.of_nat j) then b else faddr V ip bn.
Proof.
  intros Hbn. change MAXFILE with 156 in Hbn. unfold faddr. change NDIRECT with 28.
  destruct (Z.ltb_spec bn 28); [by rewrite decide_False by lia|].
  rewrite (proj2 (Z.eqb_neq _ _) Hi), ind_entry_new by lia.
  destruct (decide (Z.to_nat (bn - 28) = j)), (decide (bn = 28 + Z.of_nat j)); lia || done.
Qed.

Lemma fblock_entry bn : 0 <= bn < MAXFILE -> fblock V2 ip bn = fblock V ip bn.
Proof.
  intros Hbn. unfold fblock. rewrite faddr_entry by done. destruct ind_facts as (Hbz & Hbi & E & _).
  destruct (decide _) as [Eb|Hn].
  - rewrite (proj2 (Z.eqb_neq _ _) Hbz), updb_other, allocated_same by done.
    unfold faddr. change NDIRECT with 28. destruct (Z.ltb_spec bn 28); [lia|].
    rewrite (proj2 (Z.eqb_neq _ _) Hi). replace (Z.to_nat (bn - 28)) with j by lia. by rewrite Hz.
  - destruct (Z.eqb_spec (faddr V ip bn) 0) as [E0|E0]; [done|].
    rewrite updb_other by (by apply faddr_not_ind). apply owned_kept; [done|done|]. by apply owned_faddr.
Qed.

Lemma entry_preserves : preserves sb (owned V ip) V V2.
Proof.
  destruct (allocated_preserves b (owned V ip) Hb Hu) as [P1 P2 P3]. pose proof (owned_range _ (ind_owned Hi)) as Hr.
  split.
  - intros x Hx. rewrite updb_other; [by apply P1|].
    pose proof (layout _ _ _ Hok). lia.
  - intros x Hx Hux Ho. rewrite updb_other; [by apply P2|]. intros ->. by apply Ho, ind_owned.
  - intros x Hx Hux. rewrite used_entry by done. by destruct (decide _).
Qed.

Lemma fs_ok_entry : fs_ok U sb V2.
Proof.
  pose proof (fs_ok_allocated U sb V Hok Hlen b Hb Hu) as H1. pose proof (owned_range _ (ind_owned Hi)) as Hr.
  pose proof (data_pos ind) as Hp. apply (fs_ok_change U sb V Hok).
  - rewrite updb_other by lia. apply H1.
  - intros x Hx. unfold updb. destruct (decide _) as [->|]; [|by apply (fo_bytes _ _ _ H1)].
    apply bytes_put_le. by apply (fo_bytes _ _ _ H1).
  - intros c Hc. pose proof (fo_size _ _ _ Hok). rewrite used_entry by lia.
    destruct (decide _); [done|]. by apply (fo_meta _ _ _ Hok).
Qed.
End entry.

(** *** New contents for a block of the file *)

Section contents.
Context (bn : Z) (d : list Z) (Hbn : 0 <= bn < MAXFILE) (Ha : faddr V ip bn <> 0).
Local Notation a := (faddr V ip bn).
Local Notation V3 := (updb a d V).

Lemma a_range : datastart sb <= a < sb_size sb.
Proof. apply owned_range. by apply owned_faddr. Qed.

Lemma used_contents c : 0 <= c < sb_size sb -> used sb V3 c = used sb V c.
Proof.
  intros Hc. unfold used. rewrite updb_other; [done|]. pose proof a_range.
  pose proof (bblock_range sb c (fo_ninodes _ _ _ Hok) Hc). lia.
Qed.

Lemma ind_contents : addr_at ip 28 <> 0 -> V3 (addr_at ip 28) = V (addr_at ip 28).
Proof. intros Hi. rewrite updb_other; [done|]. intros E. symmetry in E. by apply faddr_not_ind in E. Qed.

Lemma faddr_contents bn' : faddr V3 ip bn' = faddr V ip bn'.
Proof.
  unfold faddr at 1 3. destruct (bn' <? NDIRECT); [done|].
  destruct (Z.eqb_spec (addr_at ip 28) 0); [done|]. by rewrite ind_contents.
Qed.

Lemma owned_contents : owned V3 ip = owned V ip.
Proof.
  unfold owned, slots, ind_entries. destruct (Z.eqb_spec (addr_at ip 28) 0); [done|].
  by rewrite ind_contents.
Qed.

Lemma file_ok_contents : file_ok sb V3 ip.
Proof.
  split; [apply Hf|rewrite owned_contents; apply Hf|]. rewrite owned_contents. intros c Hc.
  destruct (fi_used _ _ _ Hf c Hc) as [? ?]. split; [done|]. rewrite used_contents; [done|].
  by apply owned_range.
Qed.

Lemma fblock_contents bn' : 0 <= bn' < MAXFILE ->
  fblock V3 ip bn' = if decide (bn' = bn) then d else fblock V ip bn'.
Proof.
  intros Hbn'. unfold fblock. rewrite faddr_contents. destruct (decide (bn' = bn)) as [->|Hne].
  - by rewrite (proj2 (Z.eqb_neq _ _) Ha), updb_same.
  - destruct (Z.eqb_spec (faddr V ip bn') 0); [done|]. rewrite updb_other; [done|].
    intros E. by apply faddr_inj in E.
Qed.

Lemma contents_preserves : preserves sb (owned V ip) V V3.
Proof.
  pose proof a_range as Hr. split.
  - intros x Hx. rewrite updb_other; [done|]. pose proof (layout _ _ _ Hok). lia.
  - intros x Hx Hux Ho. rewrite updb_other; [done|]. intros ->. by apply Ho, owned_faddr.
  - intros x Hx Hux. by rewrite used_contents.
Qed.

Lemma fs_ok_contents : bytes d -> fs_ok U sb V3.
Proof.
  intros Hd. pose proof a_range as Hr. pose proof (data_pos a). apply (fs_ok_change U sb V Hok).
  - rewrite updb_other by lia. apply Hok.
  - intros x Hx. unfold updb. destruct (decide _); [done|]. by apply (fo_bytes _ _ _ Hok).
  - intros c Hc. pose proof (fo_size _ _ _ Hok). rewrite used_contents by lia. by apply (fo_meta _ _ _ Hok).
Qed.
End contents.
End grow.

Lemma preserves_trans sb own own' V V' V'' : preserves sb own V V' -> preserves sb own' V' V'' ->
  0 <= datastart sb -> (forall x, x ∈ own' -> x ∈ own \/ used sb V x = false) -> preserves sb own V V''.
Proof.
  intros [A1 A2 A3] [B1 B2 B3] Hd Hown. split.
  - intros x Hx. by rewrite B1, A1.
  - intros x Hx Hu Ho. rewrite B2; [by apply A2|done|apply A3; [lia|done]|].
    intros [H|H]%Hown; [done|congruence].
  - intros x Hx Hu. apply B3; [done|]. by apply A3.
Qed.

Lemma preserves_refl sb own V : preserves sb own V V.
Proof. by split. Qed.

(** ** Counting free blocks *)

Definition nfree (sb : fs1_superblock) (V : Z -> list Z) : nat :=
  length (filter (fun k => used sb V (Z.of_nat k) = false) (seq 0 (Z.to_nat (sb_size sb)))).

Lemma filter_one_less (P P' : nat -> Prop) `{!forall x, Decision (P x)} `{!forall x, Decision (P' x)} k l :
  NoDup l -> k ∈ l -> P k -> (forall x, x ∈ l -> P' x <-> P x /\ x <> k) ->
  length (filter P l) = S (length (filter P' l)).
Proof.
  induction l as [|x l IH]; intros Hn Hk HP Hiff; [by apply not_elem_of_nil in Hk|].
  apply NoDup_cons in Hn as [Hx Hn]. rewrite !filter_cons.
  assert (forall y, y ∈ l -> P' y <-> P y /\ y <> k) as Hiff'.
  { intros y Hy. apply Hiff. by apply elem_of_cons; right. }
  assert (P' x <-> P x /\ x <> k) as Hxi by (apply Hiff; by apply elem_of_cons; left).
  apply elem_of_cons in Hk as [->|Hk].
  - rewrite (decide_True (P := P x)) by done. rewrite (decide_False (P := P' x)) by tauto. simpl. f_equal.
    clear IH Hxi Hiff. induction l as [|y l IH]; [done|]. rewrite !filter_cons.
    apply not_elem_of_cons in Hx as [Hxy Hx]. apply NoDup_cons in Hn as [_ Hn].
    assert (P' y <-> P y /\ y <> x) as Hy by (apply Hiff'; by apply elem_of_cons; left).
    assert (length (filter P l) = length (filter P' l)) as IH'.
    { apply IH; [done|done|]. intros z Hz. apply Hiff'. by apply elem_of_cons; right. }
    destruct (decide (P y)), (decide (P' y)); simpl; rewrite ?IH'; try done; exfalso; naive_solver.
  - specialize (IH Hn Hk HP Hiff'). assert (x <> k) by (by intros ->).
    destruct (decide (P x)), (decide (P' x)); simpl; rewrite ?IH; try done; exfalso; tauto.
Qed.

Lemma nfree_alloc sb V V' b : 0 <= b < sb_size sb -> used sb V b = false ->
  (forall c, 0 <= c < sb_size sb -> used sb V' c = if decide (c = b) then true else used sb V c) ->
  nfree sb V = S (nfree sb V').
Proof.
  intros Hb Hu Hu'. unfold nfree. apply (filter_one_less _ _ (Z.to_nat b)).
  - apply NoDup_seq.
  - apply elem_of_seq. lia.
  - by rewrite Z2Nat.id by lia.
  - intros x Hx%elem_of_seq. rewrite Hu' by lia. destruct (decide (Z.of_nat x = b)); split; try done.
    + intros [_ ?]. lia.
    + intros ?. split; [done|lia].
    + by intros [? _].
Qed.

Lemma nfree_pos sb V : (0 < nfree sb V)%nat -> exists b, 0 <= b < sb_size sb /\ used sb V b = false.
Proof.
  unfold nfree. destruct (filter _ _) as [|k l] eqn:E; simpl; [lia|]. intros _.
  assert (k ∈ k :: l) as Hk by (by apply elem_of_cons; left). rewrite <-E in Hk.
  apply list_elem_of_filter in Hk as [Hu Hk%elem_of_seq]. exists (Z.of_nat k). split; [lia|done].
Qed.

Lemma filter_ext_in {A} (P P' : A -> Prop) `{!forall x, Decision (P x)} `{!forall x, Decision (P' x)} (l : list A) :
  (forall x, x ∈ l -> P' x <-> P x) -> filter P' l = filter P l.
Proof.
  induction l as [|x l IH]; intros Hi; [done|]. rewrite !filter_cons.
  assert (P' x <-> P x) as Hx by (apply Hi; by apply elem_of_cons; left).
  rewrite IH by (intros y Hy; apply Hi; by apply elem_of_cons; right).
  destruct (decide (P x)), (decide (P' x)); tauto.
Qed.

Lemma nfree_ext sb V V' : (forall c, 0 <= c < sb_size sb -> used sb V' c = used sb V c) ->
  nfree sb V' = nfree sb V.
Proof.
  intros H. unfold nfree. f_equal. apply filter_ext_in. intros k Hk%elem_of_seq.
  by rewrite H by lia.
Qed.

(** ** [fs1_bmap] *)

Definition same_file (ip ip' : inode) : Prop :=
  ip' = set_meta (i_type ip) (i_major ip) (i_minor ip) (i_nlink ip) (i_size ip) (i_addrs ip') ip.

(** From [V] and [ip] to [V'] and [ip']: blocks may have been added to the file, whose
    contents read as before, and nobody else's data changed. *)
Record grown (U : Z -> Prop) (sb : fs1_superblock) (V : Z -> list Z) (ip : inode)
    (V' : Z -> list Z) (ip' : inode) : Prop := {
  gr_ok : fs_ok U sb V';
  gr_file : file_ok sb V' ip';
  gr_same : same_file ip ip';
  gr_block : forall bn, 0 <= bn < MAXFILE -> fblock V' ip' bn = fblock V ip bn;
  gr_pres : preserves sb (owned V ip) V V';
  gr_own : forall x, x ∈ owned V' ip' -> x ∈ owned V ip \/ used sb V x = false;
  gr_addr : forall bn, 0 <= bn < MAXFILE -> faddr V ip bn <> 0 -> faddr V' ip' bn = faddr V ip bn;
  gr_ind : addr_at ip 28 <> 0 -> addr_at ip' 28 = addr_at ip 28;
}.

Lemma grown_refl U sb V ip : fs_ok U sb V -> file_ok sb V ip -> grown U sb V ip V ip.
Proof.
  intros H1 H2. split; try done; [by destruct ip|]. intros x Hx. by left.
Qed.

Lemma grown_trans U sb V ip V1 ip1 V2 ip2 : fs_ok U sb V -> grown U sb V ip V1 ip1 ->
  grown U sb V1 ip1 V2 ip2 -> grown U sb V ip V2 ip2.
Proof.
  intros Hok [A1 A2 A3 A4 A5 A6 A7 A8] [B1 B2 B3 B4 B5 B6 B7 B8]. pose proof (layout _ _ _ Hok) as HL.
  split; try done.
  - unfold same_file in *. rewrite B3, A3. by destruct ip.
  - intros bn Hbn. by rewrite B4, A4.
  - eapply preserves_trans; [done|done|lia|]. intros x Hx. by apply A6.
  - intros x Hx. destruct (B6 x Hx) as [H|H]; [by apply A6|]. right.
    apply not_true_is_false. intros Hu. destruct (decide (0 <= x < sb_size sb)) as [Hr|Hr].
    + by rewrite (pr_used _ _ _ _ A5) in H.
    + apply Hr. apply (owned_range U sb V2 ip2); done.
  - intros bn Hbn Hn. rewrite <-A7 by done. apply B7; [done|]. by rewrite A7.
  - intros Hi. rewrite <-A8 by done. apply B8. by rewrite A8.
Qed.

Lemma grown_addr U sb V ip k b : fs_ok U sb V -> (forall x, U x -> length (V x) = 512%nat) ->
  file_ok sb V ip -> (k < 29)%nat -> addr_at ip k = 0 -> 0 <= b < sb_size sb -> used sb V b = false ->
  grown U sb V ip (allocated sb b V) (set_addr k b ip).
Proof.
  intros Hok Hlen Hf Hk Hz Hb Hu. split.
  - by apply fs_ok_allocated.
  - by apply (file_ok_addr U).
  - done.
  - intros bn Hbn. by apply (fblock_addr U).
  - by apply (allocated_preserves U).
  - intros x. rewrite (owned_addr_new U sb V ip Hok Hf k b Hk Hz Hb Hu).
    intros [->|H]%elem_of_cons; [by right|by left].
  - intros bn Hbn Hn. rewrite (faddr_addr U sb V ip) by done. rewrite decide_False; [done|].
    intros [E Hd]. apply Hn. unfold faddr. by rewrite (proj2 (Z.ltb_lt _ _) Hd), E, Nat2Z.id.
  - intros Hi. rewrite (addr_at_set sb V ip Hf) by done. rewrite decide_False; [done|]. congruence.
Qed.

Lemma grown_entry U sb V ip j b : fs_ok U sb V -> (forall x, U x -> length (V x) = 512%nat) ->
  file_ok sb V ip -> (j < 128)%nat -> addr_at ip 28 <> 0 -> ind_entry (V (addr_at ip 28)) j = 0 ->
  0 <= b < sb_size sb -> b < 2 ^ 31 -> used sb V b = false ->
  grown U sb V ip (updb (addr_at ip 28) (put32 (allocated sb b V (addr_at ip 28)) (4 * j) b) (allocated sb b V)) ip.
Proof.
  intros Hok Hlen Hf Hj Hi Hz Hb Hb31 Hu. split.
  - by apply fs_ok_entry.
  - by apply (file_ok_entry U).
  - by destruct ip.
  - intros bn Hbn. by apply (fblock_entry U).
  - by apply (entry_preserves U).
  - intros x. rewrite (owned_entry U sb V ip Hok Hlen Hf j b Hj Hi Hz Hb Hb31 Hu).
    intros [->|H]%elem_of_cons; [by right|by left].
  - intros bn Hbn Hn. rewrite (faddr_entry U sb V ip) by done. rewrite decide_False; [done|].
    intros E. apply Hn. unfold faddr. change NDIRECT with 28. rewrite (proj2 (Z.ltb_ge _ _)) by lia.
    rewrite (proj2 (Z.eqb_neq _ _) Hi). replace (Z.to_nat (bn - 28)) with j by lia. done.
  - done.
Qed.

(** What a step on a file may log besides [T]: bitmap blocks, the indirect block, and the
    blocks [lo] to [hi] of the file. *)
Definition may_log (sb : fs1_superblock) (T : list Z) (V : Z -> list Z) (ip : inode) (lo hi x : Z) : Prop :=
  x ∈ T \/ bmstart sb <= x < datastart sb \/ (x <> 0 /\ x = addr_at ip 28) \/
  (exists bn, lo <= bn < hi /\ x <> 0 /\ x = faddr V ip bn).

(** Such a transaction is at most this much longer. *)
Definition log_cost (sb : fs1_superblock) (lo hi : Z) : nat :=
  Z.to_nat (sb_size sb / BPB + 1) + 1 + Z.to_nat (hi - lo).

Lemma may_log_length sb T T' V ip lo hi : NoDup T' -> (forall x, x ∈ T' -> may_log sb T V ip lo hi x) ->
  (length T' <= length T + log_cost sb lo hi)%nat.
Proof.
  intros Hn Hsub.
  assert (T' ⊆+ T ++ ((fun k => bmstart sb + Z.of_nat k) <$> seq 0 (Z.to_nat (sb_size sb / BPB + 1))) ++
    [addr_at ip 28] ++ ((fun k => faddr V ip (lo + Z.of_nat k)) <$> seq 0 (Z.to_nat (hi - lo)))) as Hs.
  { apply NoDup_submseteq; [done|]. intros x Hx.
    destruct (Hsub x Hx) as [H|[H|[[_ ->]|(bn & Hb & _ & ->)]]].
    - apply elem_of_app. by left.
    - do 1 (apply elem_of_app; right). apply elem_of_app. left. apply list_elem_of_fmap.
      exists (Z.to_nat (x - bmstart sb)). unfold datastart in H. split; [lia|apply elem_of_seq; lia].
    - do 2 (apply elem_of_app; right). apply elem_of_app. left. by apply list_elem_of_singleton.
    - do 3 (apply elem_of_app; right). apply list_elem_of_fmap. exists (Z.to_nat (bn - lo)).
      split; [f_equal; lia|apply elem_of_seq; lia]. }
  apply submseteq_length in Hs. rewrite !length_app, !length_fmap, !length_seq in Hs.
  unfold log_cost. simpl in Hs. lia.
Qed.

Section bmap.
Context {S : Type} `{HB : BlockOps S} `{HS : !BlockSpec S} `{HE : FsEnv S}.
Implicit Types (s : fsys S).

(** The block exists: nothing changes. *)
Lemma bmap_found cap dv U sb V W T s r ip bn Q :
  rep cap dv U (store s) (BS V W T []) -> fs_ok U sb V -> lookup_inode s r = Some ip ->
  i_dev ip = dv -> file_ok sb V ip -> 0 <= bn < MAXFILE -> faddr V ip bn <> 0 ->
  (length T < NBUF)%nat ->
  (forall y t, rep cap dv U y (BS V W T []) -> Q (faddr V ip bn) (put s r ip y) t) ->
  wp (fs1_bmap r bn) s Q.
Proof.
  intros Hr Hok Hl Hd Hf Hbn Ha HT HQ. change MAXFILE with 156 in Hbn. unfold fs1_bmap.
  apply wp_bind. eapply get_inode_wp; [done|]. unfold faddr in Ha.
  destruct (bn <? NDIRECT) eqn:Eb.
  { rewrite (proj2 (Z.eqb_neq _ _) Ha). apply wp_ret.
    rewrite <-(put_same s r ip Hl) at 1. unfold faddr in HQ. rewrite Eb in HQ. by apply HQ. }
  change NDIRECT with 28 in *. apply Z.ltb_ge in Eb.
  rewrite (proj2 (Z.ltb_lt (bn - 28) NINDIRECT)) by (change NINDIRECT with 128; lia).
  destruct (Z.eqb_spec (addr_at ip 28) 0) as [Ei|Ei]; [done|].
  apply wp_bind, wp_ret. rewrite Hd. apply wp_bind.
  pose proof (owned_range U sb V ip Hok Hf _ (ind_owned V ip Ei)) as Hir.
  eapply fs_bread_wp; [done|apply (data_U _ _ _ _ Hok); apply Hir|apply not_elem_of_nil|simpl; lia|].
  cbn [bV bW bT bH]. intros i y t H1.
  apply wp_bind. eapply bdata_wp; [exact H1|by apply elem_of_cons; left|]. cbn [bV].
  replace (Z.to_nat (4 * (bn - 28))) with (4 * Z.to_nat (bn - 28))%nat by lia.
  change (get32 ?d (4 * ?k)) with (ind_entry d k).
  rewrite (proj2 (Z.eqb_neq _ _) Ha). apply wp_bind, wp_ret.
  apply wp_bind. eapply (brelse_read_wp _ _ _ (set_store y s)); [exact H1|apply not_elem_of_nil| |].
  - intros Hn. apply (rep_clean _ _ _ _ _ _ Hr); [done|apply not_elem_of_nil].
  - intros y2 t2 H2. apply wp_ret. unfold faddr in HQ. change NDIRECT with 28 in HQ.
    rewrite (proj2 (Z.ltb_ge bn 28)), (proj2 (Z.eqb_neq (addr_at ip 28) 0)) in HQ by done.
    change (set_store y2 (set_store y s)) with (set_store y2 s).
    rewrite (put_store_eq s r ip y2 Hl). by apply HQ.
Qed.

(** Allocating a block for the file, with the buffers [H] held. *)
Lemma balloc_for cap dv U sb V W T H s Q : rep cap dv U (store s) (BS V W T H) -> fs_ok U sb V ->
  (forall y, y ∈ H.*2 -> used sb V y = true /\ datastart sb <= y) ->
  (length T + 2 <= cap)%nat -> (length T + length H + 1 < NBUF)%nat -> (0 < nfree sb V)%nat ->
  (forall b y T' t, 0 <= b < sb_size sb -> b < 2 ^ 31 -> used sb V b = false -> b <> 0 ->
     (length T' <= length T + 2)%nat ->
     (forall x, x ∈ T' -> x ∈ T \/ bmstart sb <= x < datastart sb \/ x = b) ->
     rep cap dv U y (BS (allocated sb b V) W T' H) ->
     nfree sb V = Datatypes.S (nfree sb (allocated sb b V)) -> Q b (set_store y s) t) ->
  wp (fs1_balloc dv) s Q.
Proof.
  intros Hr Hok Hh Hc Hb Hn HQ. pose proof (nfree_pos _ _ Hn) as Hex.
  assert (forall x, U x -> length (V x) = 512%nat) as Hlen by (intros x; by apply (rep_len _ _ _ _ _ _ Hr)).
  eapply (balloc_wp cap dv U sb V W T H); [done|done|done|done|done|done|].
  intros b y t Hb' Hu _ Hy. pose proof (free_data _ _ _ Hok b (proj1 Hb') Hu) as Hd.
  pose proof (data_pos U sb V Hok b Hd) as Hp.
  apply (HQ b y (absorb (absorb T (BBLOCK b (sb_ninodes sb))) b)); try done.
  - apply (rep_range _ _ _ _ _ _ Hr). apply (data_U _ _ _ _ Hok). lia.
  - lia.
  - pose proof (absorb_length T (BBLOCK b (sb_ninodes sb))).
    pose proof (absorb_length (absorb T (BBLOCK b (sb_ninodes sb))) b). lia.
  - intros x [->|[->|Hx]%absorb_elem]%absorb_elem; [by right; right| |by left].
    right; left. by apply bblock_range; [apply Hok|].
  - apply (nfree_alloc sb V _ b Hb' Hu). intros c Hc'. by apply (used_allocated U).
Qed.

(** What [fs1_bmap] promises its caller. *)
Definition bmap_post cap dv U sb V W (T : list Z) s r ip bn (Q : Z -> fsys S -> list event -> Prop) : Prop :=
  forall b y V' T' ip' t, rep cap dv U y (BS V' W T' []) -> grown U sb V ip V' ip' ->
    faddr V' ip' bn = b -> b <> 0 -> (forall x, x ∈ T' -> may_log sb T V' ip' bn (bn + 1) x) ->
    (nfree sb V <= nfree sb V' + 2)%nat -> Q b (put s r ip' y) t.

(** The indirect block exists and has no entry for the block. *)
Lemma bmap_entry cap dv U sb V W T s r ip bn Q :
  rep cap dv U (store s) (BS V W T []) -> fs_ok U sb V -> lookup_inode s r = Some ip ->
  i_dev ip = dv -> file_ok sb V ip -> NDIRECT <= bn < MAXFILE -> addr_at ip 28 <> 0 ->
  faddr V ip bn = 0 -> (length T + 3 <= cap)%nat -> (length T + 2 < NBUF)%nat -> (0 < nfree sb V)%nat ->
  (forall b y V' T' t, rep cap dv U y (BS V' W T' []) -> grown U sb V ip V' ip ->
     faddr V' ip bn = b -> b <> 0 ->
     (forall x, x ∈ T' -> x ∈ T \/ bmstart sb <= x < datastart sb \/ x = addr_at ip 28 \/ x = b) ->
     nfree sb V = Datatypes.S (nfree sb V') -> Q b (put s r ip y) t) ->
  wp (let! bp := bread dv (addr_at ip 28) in
      let! a := bdata bp in
      let o := Z.to_nat (4 * (bn - NDIRECT)) in
      let! addr :=
        (if get32 a o =? 0 then
           let! addr := fs1_balloc dv in
           bstore bp (fun d => put32 d o addr) ;;; log_write bp ;;; kret addr
         else kret (get32 a o)) in
      brelse bp ;;; kret addr) s Q.
Proof.
  intros Hr Hok Hl Hd Hf Hbn Hi Hz Hcap Hbufs Hn HQ. change MAXFILE with 156 in Hbn.
  assert (forall x, U x -> length (V x) = 512%nat) as Hlen by (intros x; by apply (rep_len _ _ _ _ _ _ Hr)).
  assert (0 <= bn < MAXFILE) as Hbn0 by (change MAXFILE with 156; change NDIRECT with 28 in *; lia).
  set (ind := addr_at ip 28) in *. pose proof (ind_owned V ip Hi) as Hio. fold ind in Hio.
  pose proof (owned_range U sb V ip Hok Hf _ Hio) as [Hir _]. destruct (fi_used _ _ _ Hf _ Hio) as [_ Hiu].
  assert (U ind) as HUi by (by apply (data_U _ _ _ _ Hok)).
  set (j := Z.to_nat (bn - NDIRECT)). assert (j < 128)%nat as Hj by (unfold j; change NDIRECT with 28 in *; lia).
  assert (ind_entry (V ind) j = 0) as Hzj.
  { unfold faddr in Hz. rewrite (proj2 (Z.ltb_ge _ _)) in Hz by lia.
    fold ind in Hz. by rewrite (proj2 (Z.eqb_neq _ _) Hi) in Hz. }
  replace (Z.to_nat (4 * (bn - NDIRECT))) with (4 * j)%nat by (unfold j; change NDIRECT with 28 in *; lia).
  apply wp_bind. eapply fs_bread_wp; [done|done|apply not_elem_of_nil|simpl; lia|].
  cbn [bV bW bT bH]. intros i y t H1.
  apply wp_bind. eapply bdata_wp; [exact H1|by apply elem_of_cons; left|]. cbn [bV]. cbv zeta.
  change (get32 (V ind) (4 * j)) with (ind_entry (V ind) j). rewrite Hzj, Z.eqb_refl.
  apply wp_bind, wp_bind. eapply (balloc_for cap dv U sb V W T [(i, ind)]); [exact H1|done| |lia|simpl; lia|done|].
  { intros x Hx%list_elem_of_singleton. simpl in Hx. subst x. split; [done|lia]. }
  intros b y2 T2 t2 Hb Hb31 Hu Hbz HT2 Hsub H2 Hnf.
  apply wp_bind. eapply (bstore_wp _ _ _ (set_store y2 (set_store y s)) _ _ _ (fun d => put32 d (4 * j) b));
    [exact H2|by apply elem_of_cons; left| |].
  { rewrite length_put32; [by apply (rep_len _ _ _ _ _ _ H2)|].
    pose proof (rep_len _ _ _ _ _ _ H2 HUi) as E. cbn [bV] in *. rewrite E. unfold SECTOR_SIZE. lia. }
  cbn [bV bW bT bH]. intros y3 H3.
  apply wp_bind. eapply fs_log_write_wp; [exact H3|by apply elem_of_cons; left|done|cbn [bT]; lia|].
  cbn [bV bW bT bH]. intros y4 H4. apply wp_ret.
  apply wp_bind. eapply fs_brelse_wp; [exact H4|done|apply not_elem_of_nil|left; apply absorb_in|].
  cbn [bV bW bT bH]. intros y5 t5 H5. apply wp_ret.
  change (set_store y5 _) with (set_store y5 s). rewrite (put_store_eq s r ip y5 Hl).
  eapply (HQ b y5 _ _); [exact H5|by apply grown_entry| |done| |].
  - rewrite (faddr_entry U sb V ip Hok Hlen Hf j b) by done.
    rewrite decide_True; [done|]. unfold j. change NDIRECT with 28 in *. lia.
  - intros x [->|Hx]%absorb_elem; [by right; right; left|]. apply Hsub in Hx. tauto.
  - apply (nfree_alloc sb V _ b Hb Hu). intros c Hc. by apply (used_entry U).
Qed.

(** A new address in the inode: what [balloc] then [upd_inode] leave. *)
Lemma alloc_addr_wp cap dv U sb V W T s r ip k Q :
  rep cap dv U (store s) (BS V W T []) -> fs_ok U sb V -> lookup_inode s r = Some ip ->
  file_ok sb V ip -> (k < 29)%nat -> addr_at ip k = 0 ->
  (length T + 2 <= cap)%nat -> (length T + 1 < NBUF)%nat -> (0 < nfree sb V)%nat ->
  (forall b y T' t, rep cap dv U y (BS (allocated sb b V) W T' []) ->
     grown U sb V ip (allocated sb b V) (set_addr k b ip) -> 0 <= b < sb_size sb -> b <> 0 ->
     used sb V b = false -> (length T' <= length T + 2)%nat ->
     (forall x, x ∈ T' -> x ∈ T \/ bmstart sb <= x < datastart sb \/ x = b) ->
     nfree sb V = Datatypes.S (nfree sb (allocated sb b V)) ->
     Q b (put s r (set_addr k b ip) y) t) ->
  wp (let! addr := fs1_balloc dv in upd_inode r (set_addr k addr) ;;; kret addr) s Q.
Proof.
  intros Hr Hok Hl Hf Hk Hz Hcap Hbufs Hn HQ.
  assert (forall x, U x -> length (V x) = 512%nat) as Hlen by (intros x; by apply (rep_len _ _ _ _ _ _ Hr)).
  apply wp_bind. eapply (balloc_for cap dv U sb V W T []); [done|done| |done|simpl; lia|done|].
  { intros x Hx. by apply not_elem_of_nil in Hx. }
  intros b y T' t Hb Hb31 Hu Hbz HT' Hsub Hy Hnf. rewrite (put_store_eq s r ip y Hl).
  apply wp_bind, upd_inode_wp, wp_ret. apply (HQ b y T'); try done.
  by apply grown_addr.
Qed.

Lemma bmap_wp cap dv U sb V W T s r ip bn Q :
  rep cap dv U (store s) (BS V W T []) -> fs_ok U sb V -> lookup_inode s r = Some ip ->
  i_dev ip = dv -> file_ok sb V ip -> 0 <= bn < MAXFILE ->
  (length T + 5 <= cap)%nat -> (length T + 4 < NBUF)%nat -> (2 <= nfree sb V)%nat ->
  bmap_post cap dv U sb V W T s r ip bn Q -> wp (fs1_bmap r bn) s Q.
Proof.
  intros Hr Hok Hl Hd Hf Hbn Hcap Hbufs Hn HQ.
  assert (forall x, U x -> length (V x) = 512%nat) as Hlen by (intros x; by apply (rep_len _ _ _ _ _ _ Hr)).
  destruct (decide (faddr V ip bn = 0)) as [Hz|Hz].
  2: { eapply (bmap_found cap dv U sb V W T s r ip bn); [done..|lia|].
       intros y t Hy. eapply (HQ _ y V T ip); [done|by apply grown_refl|done|done|by left|lia]. }
  unfold fs1_bmap. apply wp_bind. eapply get_inode_wp; [done|]. unfold faddr in Hz.
  change MAXFILE with 156 in Hbn.
  destruct (Z.ltb_spec bn NDIRECT) as [Hlt|Hge]; change NDIRECT with 28 in *.
  { rewrite Hz, Z.eqb_refl, Hd. eapply (alloc_addr_wp cap dv U sb V W T s r ip (Z.to_nat bn));
      [done..|lia|done|lia|lia|lia|].
    intros b y T' t Hy Hg Hb Hbz Hu HT' Hsub Hnf.
    assert (faddr (allocated sb b V) (set_addr (Z.to_nat bn) b ip) bn = b) as Hfa.
    { rewrite (faddr_addr U sb V ip Hok Hf (Z.to_nat bn) b) by (done || (change MAXFILE with 156; lia)).
      rewrite decide_True; [done|]. change NDIRECT with 28. lia. }
    eapply (HQ b y); [done|done|done|done| |lia].
    intros x Hx. destruct (Hsub x Hx) as [H|[H| ->]]; [by left|by right; left|].
    right; right; right. exists bn. split_and!; [lia|lia|done|done]. }
  rewrite (proj2 (Z.ltb_lt (bn - 28) NINDIRECT)) by (change NINDIRECT with 128; lia).
  destruct (Z.eqb_spec (addr_at ip 28) 0) as [Ei|Ei]; apply wp_bind.
  - rewrite Hd. eapply (alloc_addr_wp cap dv U sb V W T s r ip 28); [done..|lia|done|lia|lia|lia|].
    intros ind y T1 t Hy Hg Hb Hbz Hu HT1 Hsub Hnf.
    pose proof (put_lookup s r ip (set_addr 28 ind ip) y Hl) as Hl1.
    assert (addr_at (set_addr 28 ind ip) 28 = ind) as Ea.
    { rewrite (addr_at_set sb V ip Hf) by lia. by rewrite decide_True. }
    rewrite <-Ea at 1. eapply (bmap_entry cap dv U sb (allocated sb ind V) W T1 _ r (set_addr 28 ind ip) bn).
    + by rewrite put_store.
    + apply Hg.
    + done.
    + done.
    + apply Hg.
    + change MAXFILE with 156. change NDIRECT with 28. lia.
    + by rewrite Ea.
    + rewrite (faddr_addr U sb V ip Hok Hf 28 ind) by (done || lia || (change MAXFILE with 156; lia)).
      change NDIRECT with 28. rewrite decide_False by lia. unfold faddr. change NDIRECT with 28.
      by rewrite (proj2 (Z.ltb_ge bn 28)), Ei by lia.
    + lia.
    + lia.
    + lia.
    + intros b y2 V2 T2 t2 H2 Hg2 Hfa Hbz2 HT2 Hnf2. rewrite put_put.
      eapply (HQ b y2); [done|by eapply grown_trans|done|done| |lia].
      intros x Hx. destruct (HT2 x Hx) as [H|[H|[->| ->]]].
      * destruct (Hsub x H) as [H'|[H'| ->]]; [by left|by right; left|].
        right; right; left. by rewrite Ea.
      * by right; left.
      * right; right; left. by rewrite Ea.
      * right; right; right. exists bn. split_and!; [lia|lia|done|done].
  - apply wp_ret. rewrite Hd. eapply (bmap_entry cap dv U sb V W T s r ip bn); [done..| |done| |lia|lia|lia|].
    + change MAXFILE with 156. change NDIRECT with 28. lia.
    + unfold faddr. change NDIRECT with 28. rewrite (proj2 (Z.ltb_ge bn 28)) by lia.
      by rewrite (proj2 (Z.eqb_neq _ _) Ei).
    + intros b y2 V2 T2 t2 H2 Hg2 Hfa Hbz2 HT2 Hnf2.
      eapply (HQ b y2); [done|done|done|done| |lia].
      intros x Hx. destruct (HT2 x Hx) as [H|[H|[->| ->]]]; [by left|by right; left|by right; right; left|].
      right; right; right. exists bn. split_and!; [lia|lia|done|done].
Qed.
End bmap.
