(* ===== verification/FsRw.v ===== *)
(** * Inodes on disk, reading and writing files

    The on-disk form of an inode and its round trip through [fs1_iupdate] and
    [fs1_readinode]; the bytes of a file, what [fs1_readi] returns of them and what
    [fs1_writei] makes of them. *)

From stdpp Require Import base list strings.
From Stdlib Require Import ZArith Lia.
From S2P Require Import Prelude CString Bytes Spinlock Disk Bio Cache Log LogSafety Store Fs FsBlocks FsFile.
Open Scope Z_scope.

(** ** [struct dinode] *)

Lemma slice_splice_in m a d j n : (a + length d <= length m)%nat -> (j + n <= length d)%nat ->
  slice (splice m a d) (a + j) n = slice d j n.
Proof.
  intros Hm Hj. apply list_eq. intros k. destruct (decide (k < n)%nat).
  - rewrite !lookup_slice, lookup_splice_in by lia. f_equal. lia.
  - rewrite !lookup_ge_None_2; [done| |]; rewrite length_slice; rewrite ?length_splice; lia.
Qed.

Lemma length_words l : length (concat (le_bytes 4 <$> l)) = (4 * length l)%nat.
Proof. induction l as [|x l IH]; [done|]. cbn [fmap list_fmap concat]. rewrite length_app, IH, length_le_bytes. simpl. lia. Qed.

Lemma slice_words l k x : l !! k = Some x -> slice (concat (le_bytes 4 <$> l)) (4 * k) 4 = le_bytes 4 x.
Proof.
  revert k. induction l as [|y l IH]; intros [|k]; simpl lookup; [done..| |].
  - intros [= ->]. unfold slice. cbn [fmap list_fmap concat]. rewrite drop_0, take_app_le by (by rewrite length_le_bytes).
    by rewrite take_ge by (by rewrite length_le_bytes).
  - intros H. rewrite <-(IH k H). unfold slice. cbn [fmap list_fmap concat].
    rewrite drop_app_ge by (rewrite length_le_bytes; lia). rewrite length_le_bytes. do 2 f_equal. lia.
Qed.

Lemma signed_range w z : 0 < w -> - 2 ^ (w - 1) <= z < 2 ^ (w - 1) -> signed w z = z.
Proof.
  intros Hw Hz. unfold signed. assert (2 ^ w = 2 * 2 ^ (w - 1)) as E.
  { rewrite <-Z.pow_succ_r by lia. f_equal. lia. }
  assert (0 < 2 ^ (w - 1)) by (apply Z.pow_pos_nonneg; lia).
  destruct (decide (0 <= z)).
  - rewrite Z.mod_small by lia. rewrite (proj2 (Z.ltb_lt _ _)) by lia. done.
  - assert (z mod 2 ^ w = z + 2 ^ w) as ->.
    { symmetry. apply (Z.mod_unique_pos _ _ (-1)); lia. }
    rewrite (proj2 (Z.ltb_ge _ _)) by lia. lia.
Qed.

Lemma i16_u16 z : - 2 ^ 15 <= z < 2 ^ 15 -> i16 (z mod 2 ^ 16) = z.
Proof.
  intros Hz. unfold i16. rewrite <-(signed_range 16 z) at 2 by lia. unfold signed. by rewrite Z.mod_mod by lia.
Qed.

(** The fields of an inode fit their C types. *)
Record inode_ok (ip : inode) : Prop := {
  io_type : - 2 ^ 15 <= i_type ip < 2 ^ 15;
  io_major : - 2 ^ 15 <= i_major ip < 2 ^ 15;
  io_minor : - 2 ^ 15 <= i_minor ip < 2 ^ 15;
  io_nlink : - 2 ^ 15 <= i_nlink ip < 2 ^ 15;
  io_size : 0 <= i_size ip < 2 ^ 32;
  io_addrs : length (i_addrs ip) = 29%nat;
  io_addr : Forall (fun a => 0 <= a < 2 ^ 32) (i_addrs ip);
}.

Lemma length_put16 d o v : (o + 2 <= length d)%nat -> length (put16 d o v) = length d.
Proof. intros. by apply length_put_le. Qed.

Lemma length_put_dinode ip o d : length (i_addrs ip) = 29%nat -> (o + 128 <= length d)%nat ->
  length (put_dinode ip o d) = length d.
Proof.
  intros Ha Ho. unfold put_dinode.
  set (d1 := put16 d o (i_type ip)). set (d2 := put16 d1 (o + 2) (i_major ip)).
  set (d3 := put16 d2 (o + 4) (i_minor ip)). set (d4 := put16 d3 (o + 6) (i_nlink ip)).
  assert (length d1 = length d) as L1 by (apply length_put16; lia).
  assert (length d2 = length d) as L2 by (unfold d2; rewrite length_put16; lia).
  assert (length d3 = length d) as L3 by (unfold d3; rewrite length_put16; lia).
  assert (length d4 = length d) as L4 by (unfold d4; rewrite length_put16; lia).
  rewrite length_splice; rewrite ?length_words, ?Ha, length_put32; lia.
Qed.

Lemma get_splice_out d a x o n : (a + length x <= length d)%nat -> (o + n <= a \/ a + length x <= o)%nat ->
  get_le (splice d a x) o n = get_le d o n.
Proof. intros. unfold get_le. by rewrite slice_splice_other. Qed.

Lemma get_dinode_put ip o d q : inode_ok ip -> (o + 128 <= length d)%nat ->
  get_dinode (put_dinode ip o d) o q =
    set_meta (i_type ip) (i_major ip) (i_minor ip) (i_nlink ip) (i_size ip) (i_addrs ip) q.
Proof.
  intros [H1 H2 H3 H4 H5 H6 H7] Ho. unfold get_dinode, put_dinode.
  assert (length (concat (le_bytes 4 <$> i_addrs ip)) = 116%nat) as Hw by (by rewrite length_words, H6).
  set (d1 := put16 d o (i_type ip)). set (d2 := put16 d1 (o + 2) (i_major ip)).
  set (d3 := put16 d2 (o + 4) (i_minor ip)). set (d4 := put16 d3 (o + 6) (i_nlink ip)).
  set (d5 := put32 d4 (o + 8) (i_size ip)).
  assert (length d1 = length d) as L1 by (apply length_put16; lia).
  assert (length d2 = length d) as L2 by (unfold d2; rewrite length_put16; lia).
  assert (length d3 = length d) as L3 by (unfold d3; rewrite length_put16; lia).
  assert (length d4 = length d) as L4 by (unfold d4; rewrite length_put16; lia).
  assert (length d5 = length d) as L5 by (unfold d5; rewrite length_put32; lia).
  assert (((fun k => get32 (splice d5 (o + 12) (concat (le_bytes 4 <$> i_addrs ip))) (o + 12 + 4 * k)) <$> seq 0 29)
    = i_addrs ip) as ->.
  { apply list_eq. intros k. destruct (decide (k < 29)%nat) as [Hk|Hk].
    - destruct (lookup_lt_is_Some_2 (i_addrs ip) k) as [a Ha]; [by rewrite H6|].
      rewrite list_lookup_fmap, lookup_seq_lt, Ha by done. cbn [fmap option_fmap option_map]. f_equal.
      unfold get32, get_le. rewrite Nat.add_0_l, slice_splice_in by (rewrite Hw, ?L5; lia).
      rewrite (slice_words _ _ _ Ha), le_int_bytes. change (256 ^ Z.of_nat 4) with (2 ^ 32).
      apply Z.mod_small. by eapply Forall_lookup_1 in H7.
    - rewrite !lookup_ge_None_2; [done|lia|]. rewrite length_fmap, length_seq. lia. }
  unfold get16, get32. rewrite !get_splice_out by (rewrite Hw, ?L5; lia). unfold d5, put32.
  rewrite !(get_put_other d4) by lia. rewrite (get_put_same d4) by lia. unfold d4, put16.
  rewrite !(get_put_other d3) by lia. rewrite (get_put_same d3) by lia. unfold d3, put16.
  rewrite !(get_put_other d2) by lia. rewrite (get_put_same d2) by lia. unfold d2, put16.
  rewrite !(get_put_other d1) by lia. rewrite (get_put_same d1) by lia. unfold d1, put16.
  rewrite (get_put_same d) by lia. change (256 ^ Z.of_nat 2) with (2 ^ 16). change (256 ^ Z.of_nat 4) with (2 ^ 32).
  by rewrite !i16_u16, Z.mod_small by done.
Qed.

(** The other inodes of the block are as they were. *)
Lemma slice_put_dinode ip o d o' n : length (i_addrs ip) = 29%nat -> (o + 128 <= length d)%nat ->
  (o' + n <= o \/ o + 128 <= o')%nat -> slice (put_dinode ip o d) o' n = slice d o' n.
Proof.
  intros Ha Ho Hd. unfold put_dinode, put16, put32, put_le.
  repeat (rewrite slice_splice_other; [| |rewrite ?length_words, ?length_le_bytes, ?Ha; lia]);
    [done|..]; rewrite ?length_words, ?length_le_bytes, ?Ha; repeat rewrite length_splice;
    repeat rewrite length_splice; rewrite ?length_le_bytes; try lia;
    repeat rewrite length_splice; rewrite ?length_le_bytes; lia.
Qed.

Lemma get_dinode_other ip o d o' q : length (i_addrs ip) = 29%nat -> (o + 128 <= length d)%nat ->
  (o' + 128 <= o \/ o + 128 <= o')%nat -> get_dinode (put_dinode ip o d) o' q = get_dinode d o' q.
Proof.
  intros Ha Ho Hd. unfold get_dinode, get16, get32, get_le. rewrite !slice_put_dinode by (try done; lia).
  f_equal. apply list_fmap_ext. intros j k [-> Hk]%lookup_seq. by rewrite slice_put_dinode by (try done; lia).
Qed.

Lemma bytes_put_dinode ip o d : bytes d -> bytes (put_dinode ip o d).
Proof.
  intros Hd. unfold put_dinode. apply bytes_splice; [by repeat apply bytes_put_le|].
  induction (i_addrs ip) as [|a l IH]; [by constructor|]. cbn [fmap list_fmap concat].
  apply Forall_app. split; [apply le_bytes_range|done].
Qed.

Lemma dinode_off_range inum : (dinode_off inum + 128 <= 512)%nat.
Proof. unfold dinode_off, DINODE_SIZE, IPB, BSIZE, DINODE_SIZE. lia_dm. Qed.

Lemma dinode_off_other i j : 0 <= i -> 0 <= j -> i <> j -> IBLOCK i = IBLOCK j ->
  (dinode_off j + 128 <= dinode_off i \/ dinode_off i + 128 <= dinode_off j)%nat.
Proof.
  unfold IBLOCK, dinode_off, DINODE_SIZE, IPB, BSIZE, DINODE_SIZE. change (512 / 128) with 4. intros. lia_dm.
Qed.

Lemma iblock_range U sb V i : fs_ok U sb V -> 0 <= i < sb_ninodes sb -> 2 <= IBLOCK i < bmstart sb.
Proof.
  intros Hok Hi. unfold bmstart, IBLOCK, IPB, BSIZE, DINODE_SIZE. change (512 / 128) with 4. lia_dm.
Qed.

(** Changing a block of inodes changes no mark and no data. *)
Lemma fs_ok_inode U sb V x d : fs_ok U sb V -> 2 <= x < bmstart sb -> bytes d -> fs_ok U sb (updb x d V).
Proof.
  intros Hok Hx Hd. pose proof (layout _ _ _ Hok) as HL. apply (fs_ok_change U sb V Hok).
  - rewrite updb_other by lia. apply Hok.
  - intros y Hy. unfold updb. destruct (decide _); [done|]. by apply (fo_bytes _ _ _ Hok).
  - intros b Hb. unfold used. rewrite updb_other; [by apply (fo_meta _ _ _ Hok)|].
    pose proof (bblock_range sb b (fo_ninodes _ _ _ Hok) ltac:(lia)). lia.
Qed.

Section inodes.
Context {S : Type} `{HB : BlockOps S} `{HS : !BlockSpec S} `{HE : FsEnv S}.
Implicit Types (s : fsys S).

Lemma iupdate_wp cap dv U sb V W T s r ip Q :
  rep cap dv U (store s) (BS V W T []) -> fs_ok U sb V -> lookup_inode s r = Some ip ->
  i_dev ip = dv -> 0 <= i_inum ip < sb_ninodes sb -> length (i_addrs ip) = 29%nat ->
  (length T < cap)%nat -> (length T < NBUF)%nat ->
  (forall y t, rep cap dv U y (BS (updb (IBLOCK (i_inum ip))
       (put_dinode ip (dinode_off (i_inum ip)) (V (IBLOCK (i_inum ip)))) V) W
       (absorb T (IBLOCK (i_inum ip))) []) -> Q tt (put s r ip y) t) ->
  wp (fs1_iupdate r) s Q.
Proof.
  intros Hr Hok Hl Hd Hi Ha Hcap Hbufs HQ. unfold fs1_iupdate. apply wp_bind.
  eapply get_inode_wp; [done|]. rewrite Hd.
  pose proof (iblock_range _ _ _ _ Hok Hi) as Hx. pose proof (layout _ _ _ Hok) as HL.
  assert (U (IBLOCK (i_inum ip))) as HU by (apply (fo_U _ _ _ Hok); lia).
  eapply fs_log_block_wp; [done|done|apply not_elem_of_nil|simpl; lia|done| |].
  - rewrite length_put_dinode; [by apply (rep_len _ _ _ _ _ _ Hr)|done|].
    pose proof (rep_len _ _ _ _ _ _ Hr HU) as E. cbn [bV] in E. rewrite E. apply dinode_off_range.
  - intros y t Hy. rewrite (put_store_eq s r ip y Hl). by apply HQ.
Qed.

Lemma readinode_wp cap dv U sb V W T s r ip Q :
  rep cap dv U (store s) (BS V W T []) -> fs_ok U sb V -> lookup_inode s r = Some ip ->
  i_dev ip = dv -> 0 <= i_inum ip < sb_ninodes sb -> (length T < NBUF)%nat ->
  (forall y t, rep cap dv U y (BS V W T []) ->
     Q tt (put s r (get_dinode (V (IBLOCK (i_inum ip))) (dinode_off (i_inum ip)) ip) y) t) ->
  wp (fs1_readinode r) s Q.
Proof.
  intros Hr Hok Hl Hd Hi Hbufs HQ. unfold fs1_readinode. apply wp_bind.
  eapply get_inode_wp; [done|]. rewrite Hd.
  pose proof (iblock_range _ _ _ _ Hok Hi) as Hx. pose proof (layout _ _ _ Hok) as HL.
  assert (U (IBLOCK (i_inum ip))) as HU by (apply (fo_U _ _ _ Hok); lia).
  apply wp_bind. eapply fs_bread_wp; [done|done|apply not_elem_of_nil|simpl; lia|].
  cbn [bV bW bT bH]. intros i y t H1.
  apply wp_bind. eapply bdata_wp; [exact H1|by apply elem_of_cons; left|]. cbn [bV].
  rewrite (put_store_eq s r ip y Hl). apply wp_bind, upd_inode_wp.
  eapply (brelse_read_wp cap dv U); [rewrite put_store; exact H1|apply not_elem_of_nil| |].
  - intros Hn. apply (rep_clean _ _ _ _ _ _ Hr); [done|apply not_elem_of_nil].
  - intros y2 t2 H2. rewrite set_store_put. by apply HQ.
Qed.

(** Inodes on disk.  After [fs1_iupdate] writes an inode, reading that inode back into
    any cache entry gives the same type, device numbers, link count, size and block
    addresses; no other inode and no other block of the disk changes. *)
Theorem inode_roundtrip cap dv U sb V W T s r ip r' q :
  rep cap dv U (store s) (BS V W T []) -> fs_ok U sb V ->
  lookup_inode s r = Some ip -> lookup_inode s r' = Some q -> r' <> r ->
  i_dev ip = dv -> i_dev q = dv -> i_inum q = i_inum ip -> 0 <= i_inum ip < sb_ninodes sb ->
  inode_ok ip -> (length T < cap)%nat -> (length T + 1 < NBUF)%nat ->
  wp (fs1_iupdate r ;;; fs1_readinode r') s (fun _ s' _ =>
    lookup_inode s' r' = Some (set_meta (i_type ip) (i_major ip) (i_minor ip) (i_nlink ip)
      (i_size ip) (i_addrs ip) q) /\
    exists V' T', rep cap dv U (store s') (BS V' W T' []) /\ fs_ok U sb V' /\
      (forall x, x <> IBLOCK (i_inum ip) -> V' x = V x) /\
      (forall j p, 0 <= j < sb_ninodes sb -> j <> i_inum ip ->
         get_dinode (V' (IBLOCK j)) (dinode_off j) p = get_dinode (V (IBLOCK j)) (dinode_off j) p)).
Proof.
  intros Hr Hok Hl Hl' Hne Hd Hd' Hin Hi Hio Hcap Hbufs.
  pose proof (iblock_range _ _ _ _ Hok Hi) as Hx. pose proof (layout _ _ _ Hok) as HL.
  assert (U (IBLOCK (i_inum ip))) as HU by (apply (fo_U _ _ _ Hok); lia).
  pose proof (rep_len _ _ _ _ _ _ Hr HU) as Hlen. cbn [bV] in Hlen. unfold SECTOR_SIZE in Hlen.
  pose proof (dinode_off_range (i_inum ip)) as Ho.
  apply wp_bind. eapply (iupdate_wp cap dv U sb V W T s r ip); try done; [apply Hio|lia|]. intros y t Hy.
  set (x := IBLOCK (i_inum ip)) in *. set (d := put_dinode ip (dinode_off (i_inum ip)) (V x)) in *.
  assert (fs_ok U sb (updb x d V)) as Hok'.
  { apply fs_ok_inode; [done|done|]. apply bytes_put_dinode. by apply (fo_bytes _ _ _ Hok). }
  eapply (readinode_wp cap dv U sb _ W _ _ r' q); [by rewrite put_store|done|by rewrite put_other|done| | |].
  - by rewrite Hin.
  - pose proof (absorb_length T x). lia.
  - intros y2 t2 H2. rewrite Hin. fold x. rewrite updb_same. unfold d.
    rewrite get_dinode_put by (try done; by rewrite Hlen). split.
    + by erewrite put_lookup by (by rewrite put_other).
    + rewrite put_store. eexists _, _. split_and!; [exact H2|done| |].
      * intros z Hz. by apply updb_other.
      * intros j p Hj Hji. unfold updb. destruct (decide (IBLOCK j = x)) as [E|E]; [|done]. rewrite E.
        apply get_dinode_other; [apply Hio|by rewrite Hlen|].
        apply dinode_off_other; [lia|lia|done|by rewrite E].
Qed.
End inodes.

(** ** The bytes of a file *)

Definition MAXBYTES : Z := MAXFILE * BSIZE.
Definition fbyte (V : Z -> list Z) (ip : inode) (o : Z) : Z :=
  default 0 (fblock V ip (o / BSIZE) !! Z.to_nat (o mod BSIZE)).
(** The [n] bytes from offset [o] on. *)
Definition content (V : Z -> list Z) (ip : inode) (o : Z) (n : nat) : list Z :=
  (fun k => fbyte V ip (o + Z.of_nat k)) <$> seq 0 n.

(** Every block up to the file's size has been allocated. *)
Definition dense (V : Z -> list Z) (ip : inode) (size : Z) : Prop :=
  forall bn, 0 <= bn -> bn * BSIZE < size -> faddr V ip bn <> 0.

Lemma length_content V ip o n : length (content V ip o n) = n.
Proof. unfold content. by rewrite length_fmap, length_seq. Qed.

Lemma lookup_content V ip o n k : (k < n)%nat -> content V ip o n !! k = Some (fbyte V ip (o + Z.of_nat k)).
Proof. intros Hk. unfold content. rewrite list_lookup_fmap, lookup_seq_lt by done. done. Qed.

Lemma content_app V ip o n m : content V ip o (n + m) = content V ip o n ++ content V ip (o + Z.of_nat n) m.
Proof.
  apply list_eq. intros k. destruct (decide (k < n)%nat) as [Hk|Hk].
  - rewrite lookup_app_l by (by rewrite length_content). by rewrite !lookup_content by lia.
  - rewrite lookup_app_r; rewrite length_content; [|lia]. destruct (decide (k < n + m)%nat) as [Hm|Hm].
    + rewrite !lookup_content by lia. do 2 f_equal. lia.
    + rewrite !lookup_ge_None_2; [done| |]; rewrite length_content; lia.
Qed.

Lemma length_fblock U sb V ip bn : fs_ok U sb V -> (forall x, U x -> length (V x) = 512%nat) ->
  file_ok sb V ip -> 0 <= bn < MAXFILE -> length (fblock V ip bn) = 512%nat.
Proof.
  intros Hok Hlen Hf Hbn. unfold fblock. destruct (Z.eqb_spec (faddr V ip bn) 0); [apply length_replicate|].
  apply Hlen, (data_U _ _ _ _ Hok). apply (owned_range U sb V ip Hok Hf). by apply owned_faddr.
Qed.

(** The part of a block that a turn of the read loop copies. *)
Lemma slice_fblock V ip o m : 0 <= o -> (Z.to_nat (o mod BSIZE) + m <= 512)%nat ->
  length (fblock V ip (o / BSIZE)) = 512%nat ->
  slice (fblock V ip (o / BSIZE)) (Z.to_nat (o mod BSIZE)) m = content V ip o m.
Proof.
  intros Ho Hm Hl. apply list_eq. intros k. destruct (decide (k < m)%nat) as [Hk|Hk].
  - rewrite lookup_slice, lookup_content by done. unfold fbyte, BSIZE in *.
    assert ((o + Z.of_nat k) / 512 = o / 512) as -> by lia_dm.
    replace (Z.to_nat ((o + Z.of_nat k) mod 512)) with (Z.to_nat (o mod 512) + k)%nat by lia_dm.
    destruct (lookup_lt_is_Some_2 (fblock V ip (o / 512)) (Z.to_nat (o mod 512) + k)) as [b Hb]; [lia|].
    by rewrite Hb.
  - rewrite !lookup_ge_None_2; [done| |]; rewrite ?length_content, ?length_slice; lia.
Qed.

Section reading.
Context {S : Type} `{HB : BlockOps S} `{HS : !BlockSpec S} `{HE : FsEnv S}.
Implicit Types (s : fsys S).
Context (cap : nat) (dv : Z) (U : Z -> Prop) (sb : fs1_superblock) (V W : Z -> list Z) (T : list Z).
Context (r : iref) (ip : inode).
Context (Hok : fs_ok U sb V) (Hlen : forall x, U x -> length (V x) = 512%nat) (Hd : i_dev ip = dv)
  (Hf : file_ok sb V ip) (Hsz : 0 <= i_size ip <= MAXBYTES) (Hdense : dense V ip (i_size ip))
  (HT : (length T < NBUF)%nat).

Lemma readi_loop_wp n fuel : forall s off tot dst, rep cap dv U (store s) (BS V W T []) ->
  lookup_inode s r = Some ip -> 0 <= tot <= n -> n < 2 ^ 32 -> 0 <= off -> off + (n - tot) <= i_size ip ->
  n - tot <= Z.of_nat fuel ->
  wp (readi_loop fuel r off n tot dst) s (fun d s' _ =>
    d = dst ++ content V ip off (Z.to_nat (n - tot)) /\
    exists y, s' = put s r ip y /\ rep cap dv U y (BS V W T [])).
Proof.
  change MAXBYTES with 79872 in Hsz.
  induction fuel as [|fuel IH]; intros s off tot dst Hr Hl Htot Hn Ho He Hfu; cbn [readi_loop].
  - rewrite (proj2 (Z.ltb_ge _ _)) by lia. apply wp_ret. replace (n - tot) with 0 by lia. simpl.
    split; [by rewrite app_nil_r|]. exists (store s). by rewrite put_same.
  - destruct (Z.ltb_spec tot n) as [Hlt|Hge].
    2: { apply wp_ret. replace (n - tot) with 0 by lia. simpl.
         split; [by rewrite app_nil_r|]. exists (store s). by rewrite put_same. }
    assert (0 <= off / BSIZE < MAXFILE) as Hbn by (change MAXFILE with 156; unfold BSIZE; lia_dm).
    assert (faddr V ip (off / BSIZE) <> 0) as Hfa by (apply Hdense; unfold BSIZE; lia_dm).
    assert (fblock V ip (off / BSIZE) = V (faddr V ip (off / BSIZE))) as Hfb.
    { unfold fblock. by rewrite (proj2 (Z.eqb_neq _ _) Hfa). }
    apply wp_bind. eapply get_inode_wp; [done|].
    apply wp_bind. eapply (bmap_found cap dv U sb V W T s r ip); [done..|]. intros y1 t1 H1.
    pose proof (owned_range U sb V ip Hok Hf _ (owned_faddr V ip _ Hbn Hfa)) as [Har _].
    rewrite Hd. apply wp_bind. eapply (fs_bread_wp cap dv U); [rewrite put_store; exact H1| | | |].
    { by apply (data_U _ _ _ _ Hok). } { apply not_elem_of_nil. } { simpl. lia. }
    cbn [bV bW bT bH]. intros i y2 t2 H2. rewrite set_store_put.
    set (m := Z.min (n - tot) (BSIZE - off mod BSIZE)).
    assert (0 < m <= n - tot /\ off mod BSIZE + m <= 512) as Hm by (unfold m, BSIZE; lia_dm).
    apply wp_bind. eapply (bdata_wp cap dv U); [rewrite put_store; exact H2|by apply elem_of_cons; left|]. cbn [bV].
    apply wp_bind. eapply (brelse_read_wp cap dv U); [rewrite put_store; exact H2|apply not_elem_of_nil| |].
    { intros Hn'. apply (rep_clean _ _ _ _ _ _ Hr); [done|apply not_elem_of_nil]. }
    intros y3 t3 H3. rewrite set_store_put.
    rewrite !u32_small by lia. eapply wp_mono.
    + apply (IH (put s r ip y3) (off + m) (tot + m)); [by rewrite put_store|by eapply put_lookup|lia..].
    + cbv beta. intros d s' t (-> & y4 & -> & H4). split; [|exists y4; by rewrite put_put].
      rewrite <-app_assoc. f_equal. rewrite <-Hfb, slice_fblock; [|lia| |by eapply length_fblock].
      2: { assert (0 <= off mod BSIZE) by (apply Z.mod_pos_bound; unfold BSIZE; lia). lia. }
      replace (Z.to_nat (n - tot)) with (Z.to_nat m + Z.to_nat (n - (tot + m)))%nat by lia.
      rewrite content_app. do 2 f_equal. lia.
Qed.

(** A read within the file. *)
Lemma readi_wp s off n :
  rep cap dv U (store s) (BS V W T []) -> lookup_inode s r = Some ip ->
  0 <= off -> 0 <= n -> off <= i_size ip ->
  let m := Z.min n (i_size ip - off) in off + n < 2 ^ 32 ->
  wp (fs1_readi r off n) s (fun '(ret, dst) s' _ =>
    ret = m /\ dst = content V ip off (Z.to_nat m) /\
    exists y, s' = set_store y s /\ rep cap dv U y (BS V W T [])).
Proof.
  intros Hr Hl Hoff Hn Hle m Hw. unfold fs1_readi. apply wp_bind. eapply get_inode_wp; [done|].
  change MAXBYTES with 79872 in Hsz. rewrite u32_small by lia.
  assert (((i_size ip <? off) || (off + n <? off))%bool = false) as ->.
  { apply orb_false_iff. rewrite !Z.ltb_ge. lia. }
  assert ((if i_size ip <? off + n then u32 (i_size ip - off) else n) = m) as ->.
  { unfold m. destruct (Z.ltb_spec (i_size ip) (off + n)); [rewrite u32_small by lia|]; lia. }
  apply wp_bind. eapply wp_mono; [apply (readi_loop_wp m (Z.to_nat m) s off 0 []); try done; lia|].
  cbv beta. intros d s' t (-> & y & -> & Hy). apply wp_ret. rewrite Z.sub_0_r.
  split_and!; [apply signed_range; lia|done|]. exists y. split; [|done].
  by rewrite (put_store_eq s r ip y Hl).
Qed.

(** C13. Reading a file.  [fs1_readi] returns -1 for an offset past the end or a range that
    wraps around; otherwise it returns the number of bytes it copies, [n] cut off at the end
    of the file, and copies exactly the bytes of the file from [off] on, changing neither
    the inode nor any block. *)
Theorem readi_reads s off n :
  rep cap dv U (store s) (BS V W T []) -> lookup_inode s r = Some ip ->
  0 <= off < 2 ^ 32 -> 0 <= n < 2 ^ 32 ->
  wp (fs1_readi r off n) s (fun '(ret, dst) s' _ =>
    if decide (i_size ip < off \/ 2 ^ 32 <= off + n) then ret = -1 /\ dst = [] /\ s' = s
    else let m := Z.min n (i_size ip - off) in
      ret = m /\ dst = content V ip off (Z.to_nat m) /\
      exists y, s' = set_store y s /\ rep cap dv U y (BS V W T [])).
Proof.
  intros Hr Hl Hoff Hn. destruct (decide _) as [Hbad|Hgood]; [|apply readi_wp; try done; lia].
  unfold fs1_readi. apply wp_bind. eapply get_inode_wp; [done|].
  assert (((i_size ip <? off) || (u32 (off + n) <? off))%bool = true) as ->; [|by apply wp_ret].
  apply orb_true_iff. rewrite !Z.ltb_lt. destruct (decide (2 ^ 32 <= off + n)); [right|left; lia].
  assert (u32 (off + n) = off + n - 2 ^ 32) as ->; [|lia].
  unfold u32. symmetry. apply (Z.mod_unique_pos _ _ 1); lia.
Qed.
End reading.

(** ** Writing *)

(** The bytes [f] with [d] written at [off]. *)
Definition patched (f : Z -> Z) (off : Z) (d : list Z) (o : Z) : Z :=
  if decide (off <= o < off + Z.of_nat (length d)) then default 0 (d !! Z.to_nat (o - off)) else f o.

Lemma patched_app f off d1 d2 o :
  patched (patched f off d1) (off + Z.of_nat (length d1)) d2 o = patched f off (d1 ++ d2) o.
Proof.
  unfold patched. rewrite length_app.
  destruct (decide (off + Z.of_nat (length d1) <= o < _)) as [H2|H2].
  - rewrite decide_True by lia. rewrite lookup_app_r by lia. do 2 f_equal. lia.
  - destruct (decide (off <= o < off + Z.of_nat (length d1))) as [H1|H1].
    + rewrite decide_True by lia. rewrite lookup_app_l by lia. done.
    + rewrite decide_False by lia. done.
Qed.

Lemma patched_nil f off o : patched f off [] o = f o.
Proof. unfold patched. by rewrite decide_False by (simpl; lia). Qed.

(** From [V] and [ip] to [V'] and [ip'], the bytes [d] were written at [off] in the file and
    nothing else changed. *)
Record written (U : Z -> Prop) (sb : fs1_superblock) (V : Z -> list Z) (ip : inode)
    (V' : Z -> list Z) (ip' : inode) (off : Z) (d : list Z) : Prop := {
  wr_ok : fs_ok U sb V';
  wr_file : file_ok sb V' ip';
  wr_same : same_file ip ip';
  wr_bytes : forall o, 0 <= o < MAXBYTES -> fbyte V' ip' o = patched (fbyte V ip) off d o;
  wr_pres : preserves sb (owned V ip) V V';
  wr_own : forall x, x ∈ owned V' ip' -> x ∈ owned V ip \/ used sb V x = false;
  wr_addr : forall bn, 0 <= bn < MAXFILE -> faddr V ip bn <> 0 -> faddr V' ip' bn = faddr V ip bn;
  wr_ind : addr_at ip 28 <> 0 -> addr_at ip' 28 = addr_at ip 28;
  wr_alloc : forall bn, 0 <= bn -> off < (bn + 1) * BSIZE -> bn * BSIZE < off + Z.of_nat (length d) ->
    d <> [] -> faddr V' ip' bn <> 0;
}.

Lemma written_nil U sb V ip off : fs_ok U sb V -> file_ok sb V ip -> written U sb V ip V ip off [].
Proof.
  intros H1 H2. split; try done; [by destruct ip|intros; by rewrite patched_nil|]. intros x Hx. by left.
Qed.

Lemma patched_ext f g off d o : f o = g o -> patched f off d o = patched g off d o.
Proof. intros H. unfold patched. by rewrite H. Qed.

Lemma written_app U sb V ip V1 ip1 V2 ip2 off d1 d2 : fs_ok U sb V -> 0 <= off ->
  off + Z.of_nat (length d1) + Z.of_nat (length d2) <= MAXBYTES ->
  written U sb V ip V1 ip1 off d1 -> written U sb V1 ip1 V2 ip2 (off + Z.of_nat (length d1)) d2 ->
  written U sb V ip V2 ip2 off (d1 ++ d2).
Proof.
  intros Hok Hoff Hmax [A1 A2 A3 A4 A5 A6 A7 A8 A9] [B1 B2 B3 B4 B5 B6 B7 B8 B9].
  pose proof (layout _ _ _ Hok) as HL. split; try done.
  - unfold same_file in *. rewrite B3, A3. by destruct ip.
  - intros o Ho. rewrite B4 by done. rewrite <-patched_app. apply patched_ext. by apply A4.
  - eapply preserves_trans; [done|done|lia|]. intros x Hx. by apply A6.
  - intros x Hx. destruct (B6 x Hx) as [H|H]; [by apply A6|]. right.
    apply not_true_is_false. intros Hu. destruct (decide (0 <= x < sb_size sb)) as [Hr|Hr].
    + by rewrite (pr_used _ _ _ _ A5) in H.
    + apply Hr. apply (owned_range U sb V2 ip2); done.
  - intros bn Hbn Hn. rewrite <-A7 by done. apply B7; [done|]. by rewrite A7.
  - intros Hi. rewrite <-A8 by done. apply B8. by rewrite A8.
  - intros bn H0 H1 H2 H3. rewrite length_app in H2. change MAXBYTES with 79872 in Hmax. unfold BSIZE in *.
    destruct (decide (bn * 512 < off + Z.of_nat (length d1) /\ d1 <> [])) as [[Hl Hne]|Hr].
    + assert (faddr V1 ip1 bn <> 0) as Hf by (apply A9; [done|done|done|done]).
      rewrite B7; [done| |done]. change MAXFILE with 156. lia.
    + destruct d2 as [|x d2].
      { rewrite app_nil_r in H3. simpl in H2. exfalso. apply Hr. split; [lia|done]. }
      apply B9; [done| |simpl in *; lia|done].
      destruct d1 as [|y d1]; [simpl; lia|]. destruct (decide (bn * 512 < off + Z.of_nat (length (y :: d1)))); [|lia].
      exfalso. by apply Hr.
Qed.

(** One block of a write: [fs1_bmap] grew the file to [V1], [ip1]; then the data went in. *)
Lemma written_block U sb V ip V1 ip1 off d :
  fs_ok U sb V -> (forall x, U x -> length (V1 x) = 512%nat) -> grown U sb V ip V1 ip1 ->
  0 <= off < MAXBYTES -> off mod BSIZE + Z.of_nat (length d) <= BSIZE -> d <> [] -> bytes d ->
  faddr V1 ip1 (off / BSIZE) <> 0 ->
  written U sb V ip (updb (faddr V1 ip1 (off / BSIZE))
    (splice (V1 (faddr V1 ip1 (off / BSIZE))) (Z.to_nat (off mod BSIZE)) d) V1) ip1 off d.
Proof.
  intros Hok Hlen [G1 G2 G3 G4 G5 G6 G7 G8] Hoff Hfit Hne Hd Ha.
  set (bn := off / BSIZE) in *. change MAXBYTES with 79872 in *.
  assert (0 <= bn < MAXFILE) as Hbn by (change MAXFILE with 156; unfold bn, BSIZE in *; lia_dm).
  pose proof (a_range U sb V1 ip1 G1 G2 bn Hbn Ha) as Har. pose proof (layout _ _ _ Hok) as HL.
  assert (length (V1 (faddr V1 ip1 bn)) = 512%nat) as Hl by (apply Hlen; by apply (data_U _ _ _ _ G1)).
  assert (0 <= off mod BSIZE < BSIZE) as Hm by (apply Z.mod_pos_bound; unfold BSIZE; lia).
  assert (Z.to_nat (off mod BSIZE) + length d <= 512)%nat as Hfit' by (unfold BSIZE in *; lia).
  split.
  - apply (fs_ok_contents U sb V1 ip1); [done|done|done|done|].
    apply bytes_splice; [|done]. apply (fo_bytes _ _ _ G1). by apply (data_U _ _ _ _ G1).
  - by apply (file_ok_contents U).
  - done.
  - intros o Ho. change MAXBYTES with 79872 in Ho. unfold fbyte. rewrite (fblock_contents sb V1 ip1) by (try done; change MAXFILE with 156; unfold BSIZE; lia_dm).
    unfold patched. destruct (decide (o / BSIZE = bn)) as [Eb|Eb].
    + destruct (decide (off <= o < _)) as [Hin|Hout].
      * rewrite lookup_splice_in; [|lia|unfold bn, BSIZE in *; lia_dm]. do 2 f_equal. unfold bn, BSIZE in *. lia_dm.
      * rewrite lookup_splice_out; [|lia|unfold bn, BSIZE in *; lia_dm]. unfold fbyte. rewrite Eb.
        rewrite <-(G4 bn Hbn). unfold fblock at 1. by rewrite (proj2 (Z.eqb_neq _ _) Ha).
    + rewrite decide_False by (unfold bn, BSIZE in *; lia_dm). unfold fbyte. rewrite G4; [done|].
      change MAXFILE with 156; unfold BSIZE; lia_dm.
  - eapply preserves_trans; [done|by apply (contents_preserves U)|lia|done].
  - intros x. rewrite (owned_contents sb V1 ip1 G2 bn _ Hbn Ha). apply G6.
  - intros bn' Hb' Hn. rewrite (faddr_contents sb V1 ip1 G2 bn _ Hbn Ha). by apply G7.
  - done.
  - intros bn' H0 H1 H2 _. rewrite (faddr_contents sb V1 ip1 G2 bn _ Hbn Ha).
    replace bn' with bn; [done|]. unfold bn, BSIZE in *. lia_dm.
Qed.

Lemma may_log_mono sb T0 V ip V' ip' lo hi x : 0 <= lo -> hi <= MAXFILE ->
  (addr_at ip 28 <> 0 -> addr_at ip' 28 = addr_at ip 28) ->
  (forall bn, 0 <= bn < MAXFILE -> faddr V ip bn <> 0 -> faddr V' ip' bn = faddr V ip bn) ->
  may_log sb T0 V ip lo hi x -> may_log sb T0 V' ip' lo hi x.
Proof.
  intros Hlo Hhi Hi Ha [H|[H|[[H1 ->]|(bn & H1 & H2 & ->)]]]; [by left|by right; left| |].
  - right; right; left. by rewrite Hi.
  - right; right; right. exists bn. split_and!; [lia|lia|done|]. rewrite Ha; [done|lia|done].
Qed.

(** The blocks that [n] bytes from [off] on touch. *)
Definition blocks_of (off n : Z) : nat :=
  if n <=? 0 then 0 else Z.to_nat ((off + n - 1) / BSIZE - off / BSIZE + 1).

Section writing.
Context {S : Type} `{HB : BlockOps S} `{HS : !BlockSpec S} `{HE : FsEnv S}.
Implicit Types (s : fsys S).
Context (cap : nat) (dv : Z) (U : Z -> Prop) (sb : fs1_superblock) (W : Z -> list Z) (r : iref).
Context (T0 : list Z) (lo hi : Z) (Hlo : 0 <= lo) (Hhi : hi <= MAXFILE).
Context (Hcap : (length T0 + log_cost sb lo hi + 5 <= cap)%nat)
  (Hbufs : (length T0 + log_cost sb lo hi + 4 < NBUF)%nat).

(** One turn: map the block, copy, log. *)
Lemma write_turn_wp V ip T s off d Q :
  rep cap dv U (store s) (BS V W T []) -> fs_ok U sb V -> lookup_inode s r = Some ip ->
  i_dev ip = dv -> file_ok sb V ip -> 0 <= off < MAXBYTES ->
  off mod BSIZE + Z.of_nat (length d) <= BSIZE -> d <> [] -> bytes d ->
  lo <= off / BSIZE < hi -> (forall x, x ∈ T -> may_log sb T0 V ip lo hi x) -> (2 <= nfree sb V)%nat ->
  (forall y V' T' ip' t, rep cap dv U y (BS V' W T' []) -> written U sb V ip V' ip' off d ->
     (forall x, x ∈ T' -> may_log sb T0 V' ip' lo hi x) -> (nfree sb V <= nfree sb V' + 2)%nat ->
     Q tt (put s r ip' y) t) ->
  wp (write_turn r off d) s Q.
Proof.
  intros Hr Hok Hl Hdv Hf Hoff Hfit Hne Hd Hbn HT Hn HQ.
  pose proof (may_log_length sb T0 T V ip lo hi (rep_nodup _ _ _ _ _ Hr) HT) as HTl.
  assert (0 <= off / BSIZE < MAXFILE) as Hbn0 by lia.
  unfold write_turn. apply wp_bind. eapply get_inode_wp; [done|]. rewrite Hdv.
  apply wp_bind. eapply (bmap_wp cap dv U sb V W T s r ip); [done..|lia|lia|done|].
  intros b y V1 T1 ip1 t H1 Hg Hfa Hbz HT1 Hnf. subst b.
  assert (forall x, x ∈ T1 -> may_log sb T0 V1 ip1 lo hi x) as HT1'.
  { intros x Hx. destruct (HT1 x Hx) as [H|[H|[H|(bn & Hb & H)]]].
    - eapply may_log_mono; [done|done|apply Hg|apply Hg|by apply HT].
    - by right; left.
    - by right; right; left.
    - right; right; right. exists bn. split; [lia|done]. }
  pose proof (may_log_length sb T0 T1 V1 ip1 lo hi (rep_nodup _ _ _ _ _ H1) HT1') as HTl1.
  pose proof (a_range U sb V1 ip1 (gr_ok _ _ _ _ _ _ Hg) (gr_file _ _ _ _ _ _ Hg) _ Hbn0 Hbz) as Har.
  assert (U (faddr V1 ip1 (off / BSIZE))) as HUa by (by apply (data_U _ _ _ _ (gr_ok _ _ _ _ _ _ Hg))).
  assert (forall x, U x -> length (V1 x) = 512%nat) as Hlen by (intros x; by apply (rep_len _ _ _ _ _ _ H1)).
  eapply (fs_log_block_wp cap dv U); [rewrite put_store; exact H1|done|apply not_elem_of_nil|simpl; lia|lia| |].
  - rewrite length_splice; rewrite (Hlen _ HUa); [done|]. unfold BSIZE in *.
    assert (0 <= off mod 512) by (apply Z.mod_pos_bound; lia). lia.
  - intros y2 t2 H2. rewrite set_store_put.
    assert (written U sb V ip (updb (faddr V1 ip1 (off / BSIZE))
      (splice (V1 (faddr V1 ip1 (off / BSIZE))) (Z.to_nat (off mod BSIZE)) d) V1) ip1 off d) as Hw.
    { by apply written_block. }
    eapply (HQ y2); [exact H2|done| |].
    + assert (forall x, may_log sb T0 V1 ip1 lo hi x -> may_log sb T0 (updb (faddr V1 ip1 (off / BSIZE))
        (splice (V1 (faddr V1 ip1 (off / BSIZE))) (Z.to_nat (off mod BSIZE)) d) V1) ip1 lo hi x) as Hmono.
      { intros x. apply may_log_mono; [done|done|done|]. intros bn _ _.
        by apply (faddr_contents sb V1 ip1 (gr_file _ _ _ _ _ _ Hg)). }
      intros x [->|Hx]%absorb_elem; apply Hmono; [|by apply HT1'].
      right; right; right. by exists (off / BSIZE).
    + etransitivity; [exact Hnf|]. apply Nat.add_le_mono_r. apply Nat.eq_le_incl. symmetry. apply nfree_ext.
      intros c Hc. by apply (used_contents U sb V1 ip1 (gr_ok _ _ _ _ _ _ Hg) (gr_file _ _ _ _ _ _ Hg)).
Qed.

Lemma writei_loop_wp n fuel : forall V ip T s off tot src,
  rep cap dv U (store s) (BS V W T []) -> fs_ok U sb V -> lookup_inode s r = Some ip ->
  i_dev ip = dv -> file_ok sb V ip -> 0 <= tot <= n -> n < 2 ^ 32 -> 0 <= off ->
  off + (n - tot) <= hi * BSIZE -> lo <= off / BSIZE -> n - tot <= Z.of_nat fuel ->
  n - tot <= Z.of_nat (length src) -> bytes src ->
  (forall x, x ∈ T -> may_log sb T0 V ip lo hi x) -> (2 * blocks_of off (n - tot) <= nfree sb V)%nat ->
  wp (writei_loop fuel r off n tot src) s (fun off' s' _ => off' = off + (n - tot) /\
    exists y V' T' ip', s' = put s r ip' y /\ rep cap dv U y (BS V' W T' []) /\
      written U sb V ip V' ip' off (take (Z.to_nat (n - tot)) src) /\
      (forall x, x ∈ T' -> may_log sb T0 V' ip' lo hi x)).
Proof.
  change MAXFILE with 156 in Hhi.
  induction fuel as [|fuel IH]; intros V ip T s off tot src Hr Hok Hl Hdv Hf Htot Hn Ho He Hlo' Hfu Hsrc Hby HT Hnf;
    cbn [writei_loop].
  { rewrite (proj2 (Z.ltb_ge _ _)) by lia. apply wp_ret. replace (n - tot) with 0 by lia. simpl.
    split; [lia|]. exists (store s), V, T, ip. rewrite put_same by done.
    split_and!; [done|done|rewrite take_0; by apply written_nil|done]. }
  destruct (Z.ltb_spec tot n) as [Hlt|Hge].
  2: { apply wp_ret. replace (n - tot) with 0 by lia. simpl.
       split; [lia|]. exists (store s), V, T, ip. rewrite put_same by done.
       split_and!; [done|done|rewrite take_0; by apply written_nil|done]. }
  set (m := Z.min (n - tot) (BSIZE - off mod BSIZE)).
  assert (0 < m <= n - tot /\ off mod BSIZE + m <= BSIZE) as [Hm Hfit] by (unfold m, BSIZE; lia_dm).
  assert (length (take (Z.to_nat m) src) = Z.to_nat m) as Hlm by (rewrite length_take; lia).
  apply wp_bind. unfold BSIZE in *.
  eapply (write_turn_wp V ip T s off (take (Z.to_nat m) src)); [done..| | | | | |done| |].
  - change MAXBYTES with 79872. lia.
  - unfold BSIZE. lia.
  - intros E. rewrite E in Hlm. simpl in Hlm. lia.
  - by apply Forall_take.
  - unfold BSIZE. lia_dm.
  - unfold blocks_of, BSIZE in Hnf. rewrite (proj2 (Z.leb_gt _ _)) in Hnf by lia. lia_dm.
  - intros y V1 T1 ip1 t H1 Hw HT1 Hnf1. rewrite !u32_small by lia_dm. eapply wp_mono.
    + apply (IH V1 ip1 T1 (put s r ip1 y) (off + m) (tot + m) (drop (Z.to_nat m) src)).
      * by rewrite put_store.
      * apply Hw.
      * by eapply put_lookup.
      * by rewrite (wr_same _ _ _ _ _ _ _ _ Hw).
      * apply Hw.
      * lia.
      * done.
      * lia.
      * lia.
      * lia_dm.
      * lia.
      * rewrite length_drop. lia.
      * by apply Forall_drop.
      * done.
      * unfold blocks_of, BSIZE in *. rewrite (proj2 (Z.leb_gt (n - tot) _)) in Hnf by lia.
        destruct (Z.leb_spec (n - (tot + m)) 0); [lia|]. unfold m in *. lia_dm.
    + cbv beta. intros off' s' t' (-> & y2 & V2 & T2 & ip2 & -> & H2 & Hw2 & HT2). split; [lia|].
      exists y2, V2, T2, ip2. rewrite put_put. split_and!; [done|done| |done].
      replace (Z.to_nat (n - tot)) with (Z.to_nat m + Z.to_nat (n - (tot + m)))%nat by lia.
      rewrite <-(take_drop (Z.to_nat m) src) at 1. rewrite take_app_add'; [|by rewrite Hlm].
      eapply written_app; [done|done| |done|]; rewrite ?Hlm.
      * rewrite length_take, length_drop. change MAXBYTES with 79872. lia.
      * by rewrite Z2Nat.id by lia.
Qed.
End writing.

(** ** Other files *)

Lemma file_ok_agree sb V V' jp : file_ok sb V jp ->
  (forall x, x ∈ owned V jp -> V' x = V x /\ used sb V' x = true) ->
  file_ok sb V' jp /\ owned V' jp = owned V jp /\ (forall bn, 0 <= bn < MAXFILE ->
    faddr V' jp bn = faddr V jp bn /\ fblock V' jp bn = fblock V jp bn).
Proof.
  intros Hf Hag.
  assert (addr_at jp 28 <> 0 -> V' (addr_at jp 28) = V (addr_at jp 28)) as Hi.
  { intros H. apply Hag. by apply ind_owned. }
  assert (owned V' jp = owned V jp) as Ho.
  { unfold owned, slots, ind_entries. destruct (Z.eqb_spec (addr_at jp 28) 0); [done|]. by rewrite Hi. }
  assert (forall bn, faddr V' jp bn = faddr V jp bn) as Hfa.
  { intros bn. unfold faddr. destruct (bn <? NDIRECT); [done|].
    destruct (Z.eqb_spec (addr_at jp 28) 0); [done|]. by rewrite Hi. }
  split_and!; [|done|].
  - split; [apply Hf|rewrite Ho; apply Hf|]. rewrite Ho. intros b Hb.
    split; [by apply (fi_used _ _ _ Hf)|by apply Hag].
  - intros bn Hbn. split; [done|]. unfold fblock. rewrite Hfa.
    destruct (Z.eqb_spec (faddr V jp bn) 0); [done|]. apply Hag. by apply owned_faddr.
Qed.

(** A file that shares no block with the one changed. *)
Lemma preserves_file U sb V V' own jp : fs_ok U sb V -> preserves sb own V V' -> file_ok sb V jp ->
  (forall x, x ∈ owned V jp -> x ∉ own) ->
  file_ok sb V' jp /\ owned V' jp = owned V jp /\ (forall bn, 0 <= bn < MAXFILE ->
    faddr V' jp bn = faddr V jp bn /\ fblock V' jp bn = fblock V jp bn).
Proof.
  intros Hok [_ P2 P3] Hf Hdis. apply file_ok_agree; [done|]. intros x Hx.
  destruct (fi_used _ _ _ Hf x Hx) as [Hr Hu]. pose proof (layout _ _ _ Hok).
  split; [apply P2; [done|done|by apply Hdis]|apply P3; [lia|done]].
Qed.

Lemma used_inode U sb V x d b : fs_ok U sb V -> x < bmstart sb -> 0 <= b < sb_size sb ->
  used sb (updb x d V) b = used sb V b.
Proof.
  intros Hok Hx Hb. unfold used. rewrite updb_other; [done|].
  pose proof (bblock_range sb b (fo_ninodes _ _ _ Hok) Hb). lia.
Qed.

(** A block of inodes is no part of any file. *)
Lemma inode_block_file U sb V x d jp : fs_ok U sb V -> x < bmstart sb -> file_ok sb V jp ->
  file_ok sb (updb x d V) jp /\ owned (updb x d V) jp = owned V jp /\ (forall bn, 0 <= bn < MAXFILE ->
    faddr (updb x d V) jp bn = faddr V jp bn /\ fblock (updb x d V) jp bn = fblock V jp bn).
Proof.
  intros Hok Hx Hf. apply file_ok_agree; [done|]. intros y Hy.
  destruct (fi_used _ _ _ Hf y Hy) as [Hr Hu]. pose proof (layout _ _ _ Hok).
  split; [apply updb_other; lia|]. by rewrite (used_inode U) by (done || lia).
Qed.

(** Only the addresses count for the blocks of a file. *)
Lemma set_size_file sb V ip n : file_ok sb V ip ->
  file_ok sb V (set_size n ip) /\ (forall bn, faddr V (set_size n ip) bn = faddr V ip bn /\
    fblock V (set_size n ip) bn = fblock V ip bn) /\ owned V (set_size n ip) = owned V ip.
Proof. by intros [H1 H2 H3]. Qed.

(** What a successful write of [d] at [off] in the file of inode [ip] leaves. *)
Record write_result (U : Z -> Prop) (sb : fs1_superblock) (V : Z -> list Z) (ip : inode)
    (V' : Z -> list Z) (ip' : inode) (off : Z) (d : list Z) : Prop := {
  wi_ok : fs_ok U sb V';
  wi_file : file_ok sb V' ip';
  wi_same : ip' = set_meta (i_type ip) (i_major ip) (i_minor ip) (i_nlink ip)
              (Z.max (i_size ip) (off + Z.of_nat (length d))) (i_addrs ip') ip;
  wi_bytes : forall o, 0 <= o < MAXBYTES -> fbyte V' ip' o = patched (fbyte V ip) off d o;
  wi_dense : dense V ip (i_size ip) -> dense V' ip' (i_size ip');
  wi_inode : i_size ip < off + Z.of_nat (length d) -> forall q,
    get_dinode (V' (IBLOCK (i_inum ip))) (dinode_off (i_inum ip)) q =
      set_meta (i_type ip') (i_major ip') (i_minor ip') (i_nlink ip') (i_size ip') (i_addrs ip') q;
  wi_inodes : forall j q, 0 <= j < sb_ninodes sb -> j <> i_inum ip ->
    get_dinode (V' (IBLOCK j)) (dinode_off j) q = get_dinode (V (IBLOCK j)) (dinode_off j) q;
  wi_files : forall jp, file_ok sb V jp -> (forall x, x ∈ owned V jp -> x ∉ owned V ip) ->
    file_ok sb V' jp /\ owned V' jp = owned V jp /\
    forall bn, 0 <= bn < MAXFILE -> fblock V' jp bn = fblock V jp bn;
}.

Lemma written_dense U sb V ip V' ip' off d : written U sb V ip V' ip' off d ->
  0 <= off <= i_size ip -> off + Z.of_nat (length d) <= MAXBYTES -> i_size ip <= MAXBYTES ->
  dense V ip (i_size ip) -> dense V' ip' (Z.max (i_size ip) (off + Z.of_nat (length d))).
Proof.
  intros Hw Hoff Hmax Hsz Hd bn H0 H1. change MAXBYTES with 79872 in *. unfold BSIZE in *.
  destruct (decide (bn * 512 < i_size ip)) as [Hl|Hl].
  - rewrite (wr_addr _ _ _ _ _ _ _ _ Hw); [by apply Hd|change MAXFILE with 156; lia|by apply Hd].
  - apply (wr_alloc _ _ _ _ _ _ _ _ Hw); [done|unfold BSIZE; lia|unfold BSIZE; lia|].
    intros ->. simpl in *. lia.
Qed.

(** The write without growth of the file. *)
Lemma written_result U sb V ip V' ip' off d : fs_ok U sb V -> written U sb V ip V' ip' off d ->
  0 <= off <= i_size ip -> off + Z.of_nat (length d) <= i_size ip -> i_size ip <= MAXBYTES ->
  write_result U sb V ip V' ip' off d.
Proof.
  intros Hok Hw Hoff Hle Hsz. pose proof (wr_same _ _ _ _ _ _ _ _ Hw) as Hs. unfold same_file in Hs.
  assert (i_size ip' = i_size ip) as Esz by (by rewrite Hs). split.
  - apply Hw.
  - apply Hw.
  - rewrite Z.max_l by lia. exact Hs.
  - apply Hw.
  - intros Hd. rewrite Esz, <-(Z.max_l (i_size ip) (off + Z.of_nat (length d))) by lia.
    apply (written_dense U sb V ip V' ip' off d Hw); [lia|lia|lia|done].
  - lia.
  - intros j q Hj _. pose proof (iblock_range _ _ _ _ Hok Hj).
    rewrite (pr_meta _ _ _ _ (wr_pres _ _ _ _ _ _ _ _ Hw)); [done|lia].
  - intros jp Hf Hdis. destruct (preserves_file U sb V V' _ jp Hok (wr_pres _ _ _ _ _ _ _ _ Hw) Hf Hdis)
      as (A & B & C). split_and!; [done|done|]. intros bn Hbn. by apply C.
Qed.

Lemma written_inode_ok U sb V ip V' ip' off d n : written U sb V ip V' ip' off d -> inode_ok ip ->
  (forall x, U x -> 0 <= x < 2 ^ 31) -> 0 <= n < 2 ^ 32 -> inode_ok (set_size n ip').
Proof.
  intros Hw [H1 H2 H3 H4 H5 H6 H7] HU Hn. pose proof (wr_same _ _ _ _ _ _ _ _ Hw) as Hs. unfold same_file in Hs.
  pose proof (wr_file _ _ _ _ _ _ _ _ Hw) as Hf.
  split; cbn [i_type i_major i_minor i_nlink i_size i_addrs set_size]; try (by rewrite Hs); [done|apply Hf|].
  apply Forall_forall. intros a Ha. destruct (decide (a = 0)) as [->|Hz]; [lia|].
  assert (a ∈ owned V' ip') as Ho by (apply owned_elem; split; [done|]; apply elem_of_app; by left).
  destruct (fi_used _ _ _ Hf a Ho) as [Hr _].
  pose proof (HU a (data_U _ _ _ _ (wr_ok _ _ _ _ _ _ _ _ Hw) Hr)). lia.
Qed.

(** The write that makes the file longer: the size is set and the inode written back. *)
Lemma written_longer U sb V ip V1 ip1 off d : fs_ok U sb V -> written U sb V ip V1 ip1 off d ->
  0 <= off <= i_size ip -> i_size ip < off + Z.of_nat (length d) <= MAXBYTES ->
  inode_ok ip -> (forall x, U x -> 0 <= x < 2 ^ 31) -> (forall x, U x -> length (V1 x) = 512%nat) ->
  0 <= i_inum ip < sb_ninodes sb ->
  let ip2 := set_size (off + Z.of_nat (length d)) ip1 in
  let x := IBLOCK (i_inum ip) in
  write_result U sb V ip (updb x (put_dinode ip2 (dinode_off (i_inum ip)) (V1 x)) V1) ip2 off d.
Proof.
  intros Hok Hw Hoff Hlen Hio HU31 Hl1 Hin ip2 x. change MAXBYTES with 79872 in Hlen.
  pose proof (wr_ok _ _ _ _ _ _ _ _ Hw) as Hok1. pose proof (wr_file _ _ _ _ _ _ _ _ Hw) as Hf1.
  pose proof (wr_same _ _ _ _ _ _ _ _ Hw) as Hs. unfold same_file in Hs.
  pose proof (iblock_range _ _ _ _ Hok Hin) as Hx. fold x in Hx. pose proof (layout _ _ _ Hok) as HL.
  assert (U x) as HUx by (apply (fo_U _ _ _ Hok); lia).
  assert (inode_ok ip2) as Hio2 by (eapply written_inode_ok; [done..|lia]).
  destruct (set_size_file sb V1 ip1 (off + Z.of_nat (length d)) Hf1) as (Hf2 & Hfa2 & Ho2). fold ip2 in Hf2, Hfa2, Ho2.
  set (d2 := put_dinode ip2 (dinode_off (i_inum ip)) (V1 x)).
  destruct (inode_block_file U sb V1 x d2 ip2 Hok1 ltac:(lia) Hf2) as (Hf3 & Ho3 & Hfa3).
  pose proof (dinode_off_range (i_inum ip)) as Hdo.
  assert (fs_ok U sb (updb x d2 V1)) as Hok2.
  { apply fs_ok_inode; [done|done|]. apply bytes_put_dinode. by apply (fo_bytes _ _ _ Hok1). }
  split; try done.
  - unfold ip2. cbn [i_addrs set_size]. rewrite Hs at 1. by rewrite Z.max_r by lia.
  - intros o Ho. rewrite <-(wr_bytes _ _ _ _ _ _ _ _ Hw o Ho). unfold fbyte. change MAXBYTES with 79872 in Ho.
    destruct (Hfa3 (o / BSIZE)) as [_ ->]; [change MAXFILE with 156; unfold BSIZE; lia_dm|].
    by destruct (Hfa2 (o / BSIZE)) as [_ ->].
  - intros Hd. pose proof (written_dense U sb V ip V1 ip1 off d Hw) as Hd1. change MAXBYTES with 79872 in Hd1.
    specialize (Hd1 ltac:(lia) ltac:(lia) ltac:(lia) Hd). rewrite Z.max_r in Hd1 by lia.
    intros bn H0 H1. cbn [i_size set_size ip2] in H1.
    destruct (Hfa3 bn) as [-> _]; [change MAXFILE with 156; unfold BSIZE in *; lia|].
    destruct (Hfa2 bn) as [-> _]. by apply Hd1.
  - intros _ q. fold x. rewrite updb_same. unfold d2. rewrite get_dinode_put by (try done; by rewrite (Hl1 _ HUx)). done.
  - intros j q Hj Hji. pose proof (iblock_range _ _ _ _ Hok Hj).
    rewrite <-(pr_meta _ _ _ _ (wr_pres _ _ _ _ _ _ _ _ Hw) (IBLOCK j)) by lia.
    unfold updb. destruct (decide (IBLOCK j = x)) as [E|E]; [|done]. rewrite E.
    apply get_dinode_other; [apply Hio2|by rewrite (Hl1 _ HUx)|]. apply dinode_off_other; [lia|lia|done|by rewrite E].
  - intros jp Hf Hdis. destruct (preserves_file U sb V V1 _ jp Hok (wr_pres _ _ _ _ _ _ _ _ Hw) Hf Hdis)
      as (A & B & C). destruct (inode_block_file U sb V1 x d2 jp Hok1 ltac:(lia) A) as (A2 & B2 & C2).
    split_and!; [done|by rewrite B2|]. intros bn Hbn. destruct (C2 bn Hbn) as [_ ->]. by apply C.
Qed.

(** The device is mounted as fs1. *)
Definition mounted {S} (s : fsys S) (dv : Z) : Prop :=
  match List.find (fun e => (fm_used e =? 1) && (fm_dev e =? dv))%bool (fsmap s) with
  | Some e => fm_type e
  | None => -1
  end = FS_TYPE_FS1.

Section writei.
Context {S : Type} `{HB : BlockOps S} `{HS : !BlockSpec S} `{HE : FsEnv S}.
Implicit Types (s : fsys S).

Lemma mounted_put s r ip y dv : mounted s dv -> mounted (put s r ip y) dv.
Proof. by destruct r. Qed.

Lemma by_fstype_wp {A} s dv (e f : K (fsys S) A) Q : mounted s dv -> wp f s Q -> wp (by_fstype dv e f) s Q.
Proof.
  intros Hm Hf. unfold by_fstype, getfstype. apply wp_bind, wp_bind, wp_gets, wp_ret.
  unfold mounted in Hm. rewrite Hm. exact Hf.
Qed.

(** The arguments [fs1_writei] rejects. *)
Lemma writei_reject s r ip src off n : lookup_inode s r = Some ip -> 0 <= off < 2 ^ 32 -> 0 <= n < 2 ^ 32 ->
  0 <= i_size ip < 2 ^ 32 -> i_size ip < off \/ MAXBYTES < off + n ->
  fs1_writei r src off n s = ([], Ret (-1) s).
Proof.
  intros Hl Hoff Hn Hsz Hbad. unfold fs1_writei, get_inode.
  erewrite kbind_pure; [|unfold kbind, kget; by rewrite Hl].
  destruct (Z.ltb_spec (i_size ip) off); [done|]. change MAXBYTES with 79872 in Hbad.
  change (MAXFILE * BSIZE) with 79872. destruct (decide (2 ^ 32 <= off + n)).
  - assert (u32 (off + n) = off + n - 2 ^ 32) as -> by (unfold u32; symmetry; apply (Z.mod_unique_pos _ _ 1); lia).
    by rewrite (proj2 (Z.ltb_lt (off + n - 2 ^ 32) off)) by lia.
  - rewrite u32_small by lia. rewrite (proj2 (Z.ltb_ge (off + n) off)) by lia. cbn [orb].
    by rewrite (proj2 (Z.ltb_lt 79872 _)) by lia.
Qed.

(** The write that succeeds. *)
Lemma writei_wp cap dv U sb V W T s r ip src off n :
  rep cap dv U (store s) (BS V W T []) -> fs_ok U sb V -> lookup_inode s r = Some ip ->
  i_dev ip = dv -> mounted s dv -> 0 <= i_inum ip < sb_ninodes sb -> inode_ok ip -> file_ok sb V ip ->
  i_size ip <= MAXBYTES -> 0 <= off < 2 ^ 32 -> 0 <= n < 2 ^ 31 -> n <= Z.of_nat (length src) -> bytes src ->
  off <= i_size ip -> off + n <= MAXBYTES ->
  (length T + log_cost sb (off / BSIZE) ((off + n + BSIZE - 1) / BSIZE) + 6 <= cap)%nat ->
  (length T + log_cost sb (off / BSIZE) ((off + n + BSIZE - 1) / BSIZE) + 5 < NBUF)%nat ->
  (2 * blocks_of off n <= nfree sb V)%nat ->
  wp (fs1_writei r src off n) s (fun ret s' _ => ret = n /\
    exists y V' T' ip', s' = put s r ip' y /\ rep cap dv U y (BS V' W T' []) /\
      (length T' <= length T + log_cost sb (off / BSIZE) ((off + n + BSIZE - 1) / BSIZE) + 1)%nat /\
      write_result U sb V ip V' ip' off (take (Z.to_nat n) src)).
Proof.
  intros Hr Hok Hl Hd Hm Hin Hio Hf Hsz Hoff Hn Hsrc Hby Hgood1 Hgood2 Hcap Hbufs Hnf.
  pose proof (io_size _ Hio) as Hsz0.
  change MAXBYTES with 79872 in *.
  set (lo := off / BSIZE) in *. set (hi := (off + n + BSIZE - 1) / BSIZE) in *.
  assert (0 <= lo /\ hi <= MAXFILE /\ off + n <= hi * BSIZE) as (Hlo & Hhi & He).
  { unfold lo, hi, BSIZE. change MAXFILE with 156. lia_dm. }
  assert (length (take (Z.to_nat n) src) = Z.to_nat n) as Hlt by (rewrite length_take; lia).
  unfold fs1_writei. apply wp_bind. eapply get_inode_wp; [done|]. rewrite u32_small by lia.
  rewrite (proj2 (Z.ltb_ge (i_size ip) off)), (proj2 (Z.ltb_ge (off + n) off)) by lia. cbn [orb].
  change (MAXFILE * BSIZE) with 79872. rewrite (proj2 (Z.ltb_ge 79872 _)) by lia.
  apply wp_bind. eapply wp_mono.
  { apply (writei_loop_wp cap dv U sb W r T lo hi Hlo Hhi ltac:(lia) ltac:(lia) n (Z.to_nat n) V ip T s off 0 src);
      rewrite ?Z.sub_0_r; try done; try lia. intros x Hx. by left. }
  cbv beta. rewrite Z.sub_0_r. intros off' s1 t1 (-> & y & V1 & T1 & ip1 & -> & H1 & Hw & HT1).
  pose proof (may_log_length sb T T1 V1 ip1 lo hi (rep_nodup _ _ _ _ _ H1) HT1) as HTl.
  pose proof (wr_same _ _ _ _ _ _ _ _ Hw) as Hs. unfold same_file in Hs.
  assert (i_size ip1 = i_size ip) as Esz by (by rewrite Hs).
  assert (i_dev ip1 = dv) as Edv by (by rewrite Hs). assert (i_inum ip1 = i_inum ip) as Ein by (by rewrite Hs).
  pose proof (put_lookup s r ip ip1 y Hl) as Hl1.
  assert (i32 n = n) as Hi32 by (apply signed_range; lia).
  apply wp_bind. eapply get_inode_wp; [done|]. rewrite Esz. apply wp_bind.
  destruct ((0 <? n) && (i_size ip <? off + n))%bool eqn:Eg.
  - apply andb_true_iff in Eg as [Eg1%Z.ltb_lt Eg2%Z.ltb_lt].
    unfold kwhen. apply wp_bind, upd_inode_wp. unfold iupdate.
    set (ip2 := set_size (off + n) ip1).
    pose proof (put_lookup s r ip ip2 y Hl) as Hl2.
    apply wp_bind. eapply get_inode_wp; [exact Hl2|]. cbn [i_dev set_size ip2]. rewrite Edv.
    apply by_fstype_wp; [by apply mounted_put|].
    assert (forall x, U x -> length (V1 x) = 512%nat) as Hlen by (intros x; by apply (rep_len _ _ _ _ _ _ H1)).
    eapply (iupdate_wp cap dv U sb V1 W T1 _ r ip2); [by rewrite put_store|apply Hw|done|done| | |lia|lia|].
    { cbn [i_inum set_size ip2]. by rewrite Ein. }
    { apply (wr_file _ _ _ _ _ _ _ _ Hw). }
    intros y2 t2 H2. apply wp_ret. split; [done|]. rewrite put_put. cbn [i_inum set_size ip2] in H2.
    eexists y2, _, _, ip2. split_and!; [done|exact H2| |].
    { pose proof (absorb_length T1 (IBLOCK (i_inum ip1))). lia. }
    rewrite Ein.
    pose proof (written_longer U sb V ip V1 ip1 off (take (Z.to_nat n) src) Hok Hw) as Hlong.
    rewrite Hlt, Z2Nat.id in Hlong by lia. apply Hlong; [lia|change MAXBYTES with 79872; lia|done| |done|done].
    intros x. apply (rep_range _ _ _ _ _ _ Hr).
  - unfold kwhen. apply wp_ret, wp_ret. split; [done|]. eexists y, V1, T1, ip1. split_and!; [done|done|lia|].
    assert (off + n <= i_size ip).
    { apply andb_false_iff in Eg as [Eg%Z.ltb_ge|Eg%Z.ltb_ge]; lia. }
    apply written_result; [done|done|lia|rewrite Hlt; lia|done].
Qed.
(** C14. Writing a file.  [fs1_writei] rejects an offset past the end and a write beyond the
    largest file, changing nothing.  Otherwise, when the transaction has room for the blocks
    it may log and enough blocks are free, it returns [n]; the file then reads as before
    with the [n] bytes in place at [off], its size has grown to their end if that is
    larger, the inode on disk has the new size and addresses, every block up to the size is
    allocated, and no other inode and no file that shares no block with it has changed. *)
Theorem writei_writes cap dv U sb V W T s r ip src off n :
  rep cap dv U (store s) (BS V W T []) -> fs_ok U sb V -> lookup_inode s r = Some ip ->
  i_dev ip = dv -> mounted s dv -> 0 <= i_inum ip < sb_ninodes sb -> inode_ok ip -> file_ok sb V ip ->
  i_size ip <= MAXBYTES -> 0 <= off < 2 ^ 32 -> 0 <= n < 2 ^ 31 -> n <= Z.of_nat (length src) -> bytes src ->
  if decide (i_size ip < off \/ MAXBYTES < off + n)
  then fs1_writei r src off n s = ([], Ret (-1) s)
  else
    let cost := log_cost sb (off / BSIZE) ((off + n + BSIZE - 1) / BSIZE) in
    (length T + cost + 6 <= cap)%nat -> (length T + cost + 5 < NBUF)%nat ->
    (2 * blocks_of off n <= nfree sb V)%nat ->
    wp (fs1_writei r src off n) s (fun ret s' _ => ret = n /\
      exists y V' T' ip', s' = put s r ip' y /\ rep cap dv U y (BS V' W T' []) /\
        write_result U sb V ip V' ip' off (take (Z.to_nat n) src)).
Proof.
  intros Hr Hok Hl Hd Hm Hin Hio Hf Hsz Hoff Hn Hsrc Hby. pose proof (io_size _ Hio) as Hsz0.
  destruct (decide _) as [Hbad|Hgood]; [by apply (writei_reject s r ip); [done|done|lia|..]|].
  cbv zeta. intros Hcap Hbufs Hnf.
  eapply wp_mono; [apply (writei_wp cap dv U sb V W T); try done; lia|].
  cbv beta. intros ret s' t (H1 & y & V' & T' & ip' & H2 & H3 & _ & H4). split; [done|]. by exists y, V', T', ip'.
Qed.
End writei.

(** ** The small file system: its root directory as a file *)

Definition demo_ip : inode := Inode 1 1 1 3 T_DIR 0 0 1 32 (6 :: replicate 28 0).
Definition demo_state (x : logsys memdisk) : fsys (logsys memdisk) :=
  set_fs1_icache (demo_ip :: set_ref 1 (set_type T_FILE (recycle 1 1 zero_inode)) ::
    replicate 48 zero_inode) (demo_fsys x).

Lemma demo_file_ok : file_ok demo_sb demo_disk demo_ip.
Proof.
  split.
  - reflexivity.
  - change (NoDup [6]). apply NoDup_singleton.
  - change (owned demo_disk demo_ip) with [6]. intros b ->%list_elem_of_singleton.
    split; [change (6 <= 6 < 40); lia|vm_compute; reflexivity].
Qed.

Lemma demo_dense : dense demo_disk demo_ip 32.
Proof. intros bn H0 H1. unfold BSIZE in H1. replace bn with 0 by lia. discriminate. Qed.

Lemma demo_inode_ok : inode_ok demo_ip.
Proof. split; try (simpl; unfold T_DIR; lia). repeat constructor; lia. Qed.

Lemma demo_len x y : rep 15 1 demo_dev x (BS demo_disk demo_disk [] []) -> demo_dev y ->
  length (demo_disk y) = 512%nat.
Proof. intros Hx Hy. exact (rep_len _ _ _ _ _ _ Hx Hy). Qed.

Lemma inode_roundtrip_witness : exists x,
  wp (fs1_iupdate (Fs1Inode 0) ;;; fs1_readinode (Fs1Inode 1)) (demo_state x) (fun _ s' _ =>
    exists q, lookup_inode s' (Fs1Inode 1) = Some q /\ i_type q = T_DIR /\ i_size q = 32 /\ addr_at q 0 = 6).
Proof.
  destruct demo_rep as [x Hx]. exists x. eapply wp_mono.
  - eapply (inode_roundtrip 15 1 demo_dev demo_sb demo_disk demo_disk [] (demo_state x) (Fs1Inode 0) demo_ip
      (Fs1Inode 1)).
    + exact Hx.
    + exact demo_fs_ok.
    + reflexivity.
    + reflexivity.
    + discriminate.
    + reflexivity.
    + reflexivity.
    + reflexivity.
    + simpl; lia.
    + exact demo_inode_ok.
    + simpl; lia.
    + simpl; unfold NBUF; lia.
  - cbv beta. intros _ s' t [H _]. eexists. split; [exact H|]. split; [reflexivity|]. split; reflexivity.
Defined.

Lemma readi_reads_witness : exists x,
  wp (fs1_readi (Fs1Inode 0) 16 100) (demo_state x) (fun '(n, d) _ _ =>
    n = 16 /\ d = content demo_disk demo_ip 16 16).
Proof.
  destruct demo_rep as [x Hx]. exists x. eapply wp_mono.
  - apply (readi_reads 15 1 demo_dev demo_sb demo_disk demo_disk [] (Fs1Inode 0) demo_ip).
    + exact demo_fs_ok.
    + intros y Hy. exact (demo_len x y Hx Hy).
    + reflexivity.
    + exact demo_file_ok.
    + change (0 <= 32 <= 79872). lia.
    + exact demo_dense.
    + simpl; unfold NBUF; lia.
    + exact Hx.
    + reflexivity.
    + lia.
    + lia.
  - cbv beta. intros [n d] s' t. rewrite decide_False by (simpl; lia). intros (H1 & H2 & _).
    split; [exact H1|exact H2].
Defined.

Lemma writei_writes_witness : exists x,
  wp (fs1_writei (Fs1Inode 0) [1; 2; 3] 32 3) (demo_state x) (fun ret s' _ => ret = 3 /\
    exists y V' T' ip', s' = put (demo_state x) (Fs1Inode 0) ip' y /\
      rep 15 1 demo_dev y (BS V' demo_disk T' []) /\ i_size ip' = 35 /\ fbyte V' ip' 33 = 2).
Proof.
  destruct demo_rep as [x Hx]. exists x.
  assert (Hw := writei_writes 15 1 demo_dev demo_sb demo_disk demo_disk [] (demo_state x) (Fs1Inode 0) demo_ip
    [1; 2; 3] 32 3 Hx demo_fs_ok eq_refl eq_refl eq_refl ltac:(simpl; lia) demo_inode_ok demo_file_ok
    ltac:(change (32 <= 79872); lia) ltac:(lia) ltac:(lia) ltac:(simpl; lia) ltac:(repeat constructor; lia)).
  rewrite decide_False in Hw by (change MAXBYTES with 79872; simpl; lia).
  eapply wp_mono.
  - apply Hw; vm_compute; repeat constructor.
  - cbv beta. intros ret s' t (H1 & y & V' & T' & ip' & H2 & H3 & H4). split; [exact H1|].
    exists y, V', T', ip'. split; [exact H2|]. split; [exact H3|]. split.
    + rewrite (wi_same _ _ _ _ _ _ _ _ H4). reflexivity.
    + rewrite (wi_bytes _ _ _ _ _ _ _ _ H4) by (change MAXBYTES with 79872; lia). reflexivity.
Defined.
