(* ===== verification/Mkfs.v ===== *)
(** * Formatting a disk: tools/mkfs.c

    The tool that lays out the file system that [Fs] works on, and copies files into it.  Its
    state is the image, as a list of sectors, and its counters.  [exit(1)] and a failing
    assertion end it.  The structures it writes are those of kernel/fs/fs1.h, which it repeats:
    the definitions of [Fs] are used for both. *)

From stdpp Require Import base list strings.
From Stdlib Require Import ZArith Lia.
From S2P Require Import Prelude CString Bytes Disk Store Log Fs FsBlocks FsFile FsRw.
Open Scope Z_scope.

Definition FREESPACE : Z := 3000.
Definition nblocks : Z := 995 - LOGSIZE + FREESPACE.
Definition nlog : Z := LOGSIZE.
Definition ninodes : Z := 200.
Definition size : Z := 1024 + FREESPACE + 25.
Definition MAX_PATH_LEN : nat := 2048.

Record mkfs := Mkfs {
  img : list (list Z);         (* the file fsfd *)
  freeblock : Z;
  usedblocks : Z;
  freeinode : Z;
}.
Definition set_img v (s : mkfs) : mkfs := Mkfs v (freeblock s) (usedblocks s) (freeinode s).
Definition set_blocks f u (s : mkfs) : mkfs := Mkfs (img s) f u (freeinode s).
Definition set_freeinode v (s : mkfs) : mkfs := Mkfs (img s) (freeblock s) (usedblocks s) v.
Notation MK := (K mkfs).
Definition exit1 {A} : MK A := panic "exit(1)".
Definition check (b : bool) : MK unit := if b then kret tt else panic "assert".

(** The value in memory whose bytes are those of [x] in Intel order. *)
Definition xshort (x : Z) : Z := le_int (le_bytes 2 x).
Definition xint (x : Z) : Z := le_int (le_bytes 4 x).

(** ** Sectors and inodes *)

(** Behind the end of a file there are zeros up to where one writes, and nothing to read. *)
Definition wsect (sec : Z) (buf : list Z) : MK unit :=
  let! s := kget in
  let k := Z.to_nat sec in
  kmod (set_img (if decide (k < length (img s))%nat then <[k := buf]> (img s)
                 else img s ++ replicate (k - length (img s)) zeros ++ [buf])).
Definition rsect (sec : Z) : MK (list Z) :=
  let! s := kget in
  match img s !! Z.to_nat sec with Some b => kret b | None => exit1 end.
Definition i2b (inum : Z) : Z := inum / IPB + 2.
Definition winode (inum : Z) (ip : inode) : MK unit :=
  let bn := i2b inum in
  let! buf := rsect bn in
  wsect bn (put_dinode ip (dinode_off inum) buf).
Definition rinode (inum : Z) : MK inode :=
  let bn := i2b inum in
  let! buf := rsect bn in
  kret (get_dinode buf (dinode_off inum) zero_inode).
Definition ialloc (type : Z) : MK Z :=
  let! s := kget in
  let inum := freeinode s in
  kmod (set_freeinode (u32 (inum + 1))) ;;;
  winode inum (set_meta (xshort type) 0 0 (xshort 1) (xint 0) (replicate 29 0) zero_inode) ;;;
  kret inum.
(** [buf[i/8] = buf[i/8] | (0x1 << (i%8));] for every [i] below [used]. *)
Fixpoint mark_bits (i : nat) (buf : list Z) : list Z :=
  match i with
  | O => buf
  | S i =>
      let buf := mark_bits i buf in
      let bi := Z.of_nat i in
      <[Z.to_nat (bi / 8) := Z.lor (bit_byte buf bi) (bit_mask bi)]> buf
  end.
Definition balloc (used : Z) : MK unit :=
  check (used <? 512 * 8) ;;;
  wsect (ninodes / IPB + 3) (mark_bits (Z.to_nat used) (replicate 512 0)).

(** ** Appending *)

(** [xint(freeblock++)], with [usedblocks++]. *)
Definition newblock : MK Z :=
  let! s := kget in
  kmod (set_blocks (u32 (freeblock s + 1)) (u32 (usedblocks s + 1))) ;;;
  kret (xint (freeblock s)).
(** [din.addrs[k]], allocated if it is 0. *)
Definition inode_slot (k : nat) (din : inode) : MK inode :=
  if xint (addr_at din k) =? 0 then let! b := newblock in kret (set_addr k b din) else kret din.
(** The block [fbn] of the file, and its inode with it. *)
Definition file_block (fbn : Z) (din : inode) : MK (inode * Z) :=
  if fbn <? NDIRECT then
    let! din := inode_slot (Z.to_nat fbn) din in
    kret (din, xint (addr_at din (Z.to_nat fbn)))
  else
    let! din := inode_slot (Z.to_nat NDIRECT) din in
    let ind := xint (addr_at din (Z.to_nat NDIRECT)) in
    let o := (4 * Z.to_nat (fbn - NDIRECT))%nat in
    let! indirect := rsect ind in
    let! indirect :=
      (if get32 indirect o =? 0 then
         let! b := newblock in
         let indirect := put32 indirect o b in
         wsect ind indirect ;;;
         kret indirect
       else kret indirect) in
    kret (din, xint (get32 indirect o)).
(** [while (n > 0) { ... }], [p] being the bytes left. *)
Fixpoint iappend_loop (fuel : nat) (din : inode) (off : Z) (p : list Z) : MK (inode * Z) :=
  match p with
  | [] => kret (din, off)
  | _ =>
      match fuel with
      | O => kstop NoFuel
      | S fuel =>
          let fbn := off / 512 in
          check (fbn <? MAXFILE) ;;;
          let! (din, x) := file_block fbn din in
          let n1 := Z.min (Z.of_nat (length p)) ((fbn + 1) * 512 - off) in
          let! buf := rsect x in
          wsect x (splice buf (Z.to_nat (off - fbn * 512)) (take (Z.to_nat n1) p)) ;;;
          iappend_loop fuel din (u32 (off + n1)) (drop (Z.to_nat n1) p)
      end
  end.
Definition iappend (inum : Z) (xp : list Z) : MK unit :=
  let! din := rinode inum in
  let! (din, off) := iappend_loop (length xp) din (xint (i_size din)) xp in
  winode inum (Fs.set_size (xint off) din).

(** ** Directories *)

(** A [struct dirent] with a name that [strcpy] or [strncpy] put there. *)
Definition dirent_of (inum : Z) (name : list Z) : list Z := le_bytes 2 (xshort inum) ++ padn DIRSIZ name.
Definition dot : list Z := [46].
Definition dotdot : list Z := [46; 46].
Definition mkdir (dirname : list Z) (parentdir : Z) : MK Z :=
  let! dirino := ialloc T_DIR in
  iappend parentdir (dirent_of dirino dirname) ;;;
  iappend dirino (dirent_of dirino dot) ;;;
  iappend dirino (dirent_of parentdir dotdot) ;;;
  kret dirino.
(** The size of a directory, rounded up to blocks. *)
Definition fix_size (inum : Z) : MK unit :=
  let! din := rinode inum in
  let off := xint (i_size din) in
  let off := u32 ((off / BSIZE + 1) * BSIZE) in
  winode inum (Fs.set_size (xint off) din).

(** ** main *)

Definition slash : Z := 47.
(** [strrchr(name, '/')] as an index. *)
Fixpoint last_slash (l : list Z) : option nat :=
  match l with
  | [] => None
  | c :: l => match last_slash l with Some k => Some (S k) | None => if c =? slash then Some 0%nat else None end
  end.
(** An argument that begins with "fs/", from its slash on. *)
Definition strip_fs (arg : list Z) : list Z := if decide (take 3 arg = [102; 115; slash]) then drop 2 arg else arg.
(** [name] and [localpath] of an argument. *)
Definition split_arg (arg : list Z) : list Z * list Z :=
  let name := strip_fs arg in
  match last_slash name with
  | Some k => (drop (k + 1) name, take (k + 1) name)
  | None => (name, name)
  end.
Definition str_dev : list Z := [100; 101; 118].
Definition str_bin : list Z := [98; 105; 110].
Definition str_kexts : list Z := [107; 101; 120; 116; 115].
Definition parent_of (localpath : list Z) (rootino binino kextino : Z) : Z :=
  if decide (localpath = [slash]) then rootino
  else if decide (localpath = slash :: str_kexts ++ [slash]) then kextino
  else binino.
(** What successive calls of [read(fd, buf, 512)] return. *)
Fixpoint pieces (fuel : nat) (l : list Z) : list (list Z) :=
  match fuel with
  | O => []
  | S fuel => match l with [] => [] | _ => take 512 l :: pieces fuel (drop 512 l) end
  end.
Definition copy_file (rootino binino kextino : Z) (f : list Z * option (list Z)) : MK unit :=
  let '(arg, data) := f in
  let '(name, localpath) := split_arg arg in
  if decide (MAX_PATH_LEN < length (strip_fs arg))%nat then fault
  else
    match data with
    | None => exit1
    | Some data =>
        let! inum := ialloc T_FILE in
        iappend (parent_of localpath rootino binino kextino) (dirent_of inum name) ;;;
        for_each (pieces (length data) data) (iappend inum)
    end.
Definition sb_block : list Z :=
  let b := put32 (replicate 512 0) 0 (xint size) in
  let b := put32 b 4 (xint nblocks) in
  let b := put32 b 8 (xint ninodes) in
  put32 b 12 (xint nlog).
(** The empty file system. *)
Definition format : MK Z :=
  let bitblocks := size / (512 * 8) + 1 in
  let used := ninodes / IPB + 3 + bitblocks in
  kmod (set_blocks used used) ;;;
  check (nblocks + used + nlog =? size) ;;;
  for_each (seq 0 (Z.to_nat (nblocks + used + nlog))) (fun i => wsect (Z.of_nat i) (replicate 512 0)) ;;;
  wsect 1 sb_block ;;;
  let! rootino := ialloc T_DIR in
  check (rootino =? ROOTINO) ;;;
  iappend rootino (dirent_of rootino dot) ;;;
  iappend rootino (dirent_of rootino dotdot) ;;;
  kret rootino.
(** [main], on the files named by its arguments; a file that cannot be opened is [None]. *)
Definition main (files : list (list Z * option (list Z))) : MK unit :=
  let! rootino := format in
  mkdir str_dev rootino ;;;
  let! binino := mkdir str_bin rootino in
  let! kextino := mkdir str_kexts rootino in
  for_each files (copy_file rootino binino kextino) ;;;
  fix_size binino ;;;
  fix_size rootino ;;;
  let! s := kget in
  balloc (i32 (usedblocks s)).
Definition start : mkfs := Mkfs [] 0 0 1.
