(* ===== verification/MkfsOk.v ===== *)
(** * The disks that mkfs makes

    While mkfs works the bitmap is not on the image yet: [balloc] writes it last.  The proofs
    relate the image to a view [V] of the disk in which the blocks handed out so far are already marked, so that
    what [FsFile] and [FsRw] prove of growing and writing a file applies to mkfs as it does to the
    kernel.  A directory of contents, [list (Z * list Z)], the type and the bytes of each inode
    from 1 on, is what the image refines; [mkfs_makes_files] says that the image ends as a disk
    on which the kernel finds exactly these files. *)

From stdpp Require Import base list strings.
From Stdlib Require Import ZArith Lia.
From S2P Require Import Prelude CString Bytes Disk Cache Store Log Fs FsBlocks FsFile FsRw Mkfs.
Open Scope Z_scope.

Definition msb : fs1_superblock := Superblock size nblocks ninodes nlog.
Definition mU (x : Z) : Prop := 0 <= x < size.
Lemma msb_layout : bmstart msb = 53 /\ datastart msb = 54 /\ sb_size msb = 4049 /\ size = 4049 /\ sb_ninodes msb = 200.
Proof. by split_and!. Qed.
Lemma msb_bblock c : 0 <= c < size -> BBLOCK c (sb_ninodes msb) = 53.
Proof.
  change size with 4049. unfold BBLOCK, BPB, BSIZE. intros Hc. rewrite Z.div_small by lia. done.
Qed.
Lemma xint_small x : 0 <= x < 2 ^ 32 -> xint x = x.
Proof. intros Hx. unfold xint. rewrite le_int_bytes. by apply Z.mod_small. Qed.
Lemma xshort_small x : 0 <= x < 2 ^ 16 -> xshort x = x.
Proof. intros Hx. unfold xshort. rewrite le_int_bytes. by apply Z.mod_small. Qed.

(** ** The image and the view *)

Record mrep (s : mkfs) (V : Z -> list Z) : Prop := {
  mr_length : length (img s) = Z.to_nat size;
  mr_img : forall x, 0 <= x < size -> x <> 53 -> img s !! Z.to_nat x = Some (V x);
  mr_ok : fs_ok mU msb V;
  mr_sector : forall x, mU x -> length (V x) = 512%nat;
  mr_free : 54 <= freeblock s <= size;
  mr_used : usedblocks s = freeblock s;
  mr_bits : forall c, 0 <= c < size -> used msb V c = bool_decide (c < freeblock s);
  mr_zero : forall c, freeblock s <= c < size -> V c = zeros;
}.

Lemma rsect_wp s V x Q : mrep s V -> 0 <= x < size -> x <> 53 -> Q (V x) s [] -> wp (rsect x) s Q.
Proof. intros Hm Hx Hn HQ. unfold rsect. apply wp_bind, wp_get. rewrite (mr_img _ _ Hm) by done. by apply wp_ret. Qed.

Lemma wsect_wp s V x d Q : mrep s V -> 0 <= x < freeblock s -> x <> 53 -> length d = 512%nat -> fs_ok mU msb (updb x d V) ->
  (forall s', mrep s' (updb x d V) -> freeblock s' = freeblock s -> freeinode s' = freeinode s -> Q tt s' []) -> wp (wsect x d) s Q.
Proof.
  intros Hm Hx Hn Hd Hok HQ. pose proof (mr_free _ _ Hm) as Hf. unfold wsect. apply wp_bind, wp_get, wp_mod.
  rewrite decide_True by (rewrite (mr_length _ _ Hm); lia). apply HQ; [|done..]. destruct Hm. split; try done; cbn [img set_img freeblock].
  - by rewrite length_insert.
  - intros y Hy Hn'. unfold updb. destruct (decide (y = x)) as [->|Hyx].
    + rewrite list_lookup_insert_eq; [done|]. lia.
    + rewrite list_lookup_insert_ne by lia. auto.
  - intros y Hy. unfold updb. destruct (decide (y = x)); auto.
  - intros c Hc. unfold used. rewrite msb_bblock, updb_other by done. rewrite <-mr_bits0 by done. unfold used. by rewrite msb_bblock.
  - intros c Hc. rewrite updb_other by lia. auto.
Qed.

Lemma newblock_wp s V Q : mrep s V -> freeblock s < size ->
  (forall s', mrep s' (allocated msb (freeblock s) V) -> freeblock s' = freeblock s + 1 -> freeinode s' = freeinode s -> Q (freeblock s) s' []) ->
  wp newblock s Q.
Proof.
  intros Hm Hlt HQ. pose proof (mr_free _ _ Hm) as Hf. change size with 4049 in *.
  assert (Hu : used msb V (freeblock s) = false) by (rewrite (mr_bits _ _ Hm) by (change size with 4049; lia); apply bool_decide_eq_false_2; lia).
  assert (Hb : 0 <= freeblock s < sb_size msb) by (change (sb_size msb) with 4049; lia).
  unfold newblock. apply wp_bind, wp_get, wp_bind, wp_mod, wp_ret. rewrite xint_small by lia.
  apply HQ; [|cbn; rewrite u32_small by lia; done|done].
  destruct Hm. split; try done; cbn [img set_blocks freeblock usedblocks]; rewrite ?mr_used0, ?u32_small by lia.
  - intros x Hx Hn. rewrite mr_img0 by done. f_equal. destruct (decide (x = freeblock s)) as [->|Hne].
    + rewrite allocated_same. apply mr_zero0. change size with 4049. lia.
    + symmetry. apply allocated_other; [done|]. by rewrite msb_bblock by (change size with 4049; lia).
  - by apply fs_ok_allocated.
  - intros x Hx. unfold allocated, mark, updb. destruct (decide (x = freeblock s)); [apply length_replicate|].
    destruct (decide _); [rewrite length_insert|]; auto. subst. apply mr_sector0. rewrite msb_bblock by (change size with 4049; lia). unfold mU. change size with 4049. lia.
  - change size with 4049. lia.
  - done.
  - intros c Hc. rewrite (used_allocated mU msb V mr_ok0 mr_sector0 (freeblock s) c Hb Hu Hc), mr_bits0 by done.
    destruct (decide (c = freeblock s)) as [->|Hne]; [symmetry; apply bool_decide_eq_true_2; lia|]. apply bool_decide_ext. lia.
  - intros c Hc. change size with 4049 in Hc. rewrite allocated_other; [apply mr_zero0; change size with 4049; lia|lia|].
    rewrite msb_bblock by (change size with 4049; lia). lia.
Qed.

(** ** The block of a file *)

Definition one_if (b : bool) : Z := if b then 1 else 0.

Section file.
Context (s : mkfs) (V : Z -> list Z) (ip : inode) (Hm : mrep s V) (Hf : file_ok msb V ip).

Lemma owned_low x : x ∈ owned V ip -> 54 <= x < freeblock s.
Proof.
  intros Hx. destruct (fi_used _ _ _ Hf x Hx) as [Hr Hu]. change (datastart msb) with 54 in Hr. change (sb_size msb) with 4049 in Hr.
  rewrite (mr_bits _ _ Hm) in Hu by (change size with 4049; lia). apply bool_decide_eq_true_1 in Hu. lia.
Qed.
Lemma addr_range k : addr_at ip k = 0 \/ 54 <= addr_at ip k < freeblock s.
Proof. destruct (decide (addr_at ip k = 0)) as [E|E]; [by left|right]. by apply owned_low, owned_addr. Qed.
Lemma xint_addr k : xint (addr_at ip k) = addr_at ip k.
Proof. pose proof (mr_free _ _ Hm) as H1. change size with 4049 in H1. destruct (addr_range k); apply xint_small; lia. Qed.
Lemma faddr_range bn : 0 <= bn < MAXFILE -> faddr V ip bn <> 0 -> 54 <= faddr V ip bn < freeblock s.
Proof. intros Hb Hn. by apply owned_low, owned_faddr. Qed.

Lemma inode_slot_wp k Q : (k < 29)%nat -> freeblock s + one_if (addr_at ip k =? 0) <= size ->
  (forall s' V' ip', mrep s' V' -> grown mU msb V ip V' ip' -> addr_at ip' k <> 0 ->
     freeblock s' = freeblock s + one_if (addr_at ip k =? 0) -> freeinode s' = freeinode s ->
     (forall j, j <> k -> addr_at ip' j = addr_at ip j) ->
     (forall bn, 0 <= bn < MAXFILE -> bn <> Z.of_nat k \/ NDIRECT <= bn -> faddr V' ip' bn = faddr V ip bn) -> Q ip' s' []) ->
  wp (inode_slot k ip) s Q.
Proof.
  intros Hk Hroom HQ. pose proof (mr_free _ _ Hm) as Hfree. unfold inode_slot. rewrite xint_addr.
  destruct (Z.eqb_spec (addr_at ip k) 0) as [E|E]; cbn [one_if] in *.
  - assert (Hu : used msb V (freeblock s) = false).
    { rewrite (mr_bits _ _ Hm) by (change size with 4049 in *; lia). apply bool_decide_eq_false_2. lia. }
    assert (Hb : 0 <= freeblock s < sb_size msb) by (change (sb_size msb) with size; lia).
    pose proof (mr_ok _ _ Hm) as Hok. pose proof (mr_sector _ _ Hm) as Hlen.
    apply wp_bind. apply (newblock_wp s V); [done|lia|]. intros s' Hm' Hf' Hi'. apply wp_ret. eapply (HQ s' _ (set_addr k (freeblock s) ip)).
    + done.
    + by apply grown_addr.
    + rewrite (addr_at_set msb V ip Hf) by done. rewrite decide_True by done. lia.
    + done.
    + done.
    + intros j Hj. rewrite (addr_at_set msb V ip Hf) by done. by rewrite decide_False.
    + intros bn Hbn Hne. rewrite (faddr_addr mU msb V ip) by done. rewrite decide_False; [done|]. lia.
  - apply wp_ret. eapply (HQ s V ip); try done; [apply grown_refl; [apply Hm|done]|lia].
Qed.
End file.

(** How many blocks a call allocates. *)
Definition missing (V : Z -> list Z) (ip : inode) (fbn : Z) : Z :=
  one_if (faddr V ip fbn =? 0) + one_if ((NDIRECT <=? fbn) && (addr_at ip 28 =? 0)).
(** The entry of the indirect block. *)
Lemma ind_slot_wp s V ip fbn Q : mrep s V -> file_ok msb V ip -> NDIRECT <= fbn < MAXFILE -> addr_at ip 28 <> 0 ->
  freeblock s + one_if (faddr V ip fbn =? 0) <= size ->
  (forall s' V', mrep s' V' -> grown mU msb V ip V' ip -> faddr V' ip fbn <> 0 ->
     freeblock s' = freeblock s + one_if (faddr V ip fbn =? 0) -> freeinode s' = freeinode s ->
     (forall bn, 0 <= bn < MAXFILE -> bn <> fbn -> faddr V' ip bn = faddr V ip bn) -> Q (ip, faddr V' ip fbn) s' []) ->
  wp (let! indirect := rsect (addr_at ip 28) in
      let! indirect :=
        (if get32 indirect (4 * Z.to_nat (fbn - NDIRECT)) =? 0 then
           let! b := newblock in
           let indirect := put32 indirect (4 * Z.to_nat (fbn - NDIRECT)) b in
           wsect (addr_at ip 28) indirect ;;; kret indirect
         else kret indirect) in
      kret (ip, xint (get32 indirect (4 * Z.to_nat (fbn - NDIRECT))))) s Q.
Proof.
  intros Hm Hf Hbn Hi Hroom HQ. change MAXFILE with 156 in Hbn. change NDIRECT with 28 in *. set (j := Z.to_nat (fbn - 28)).
  pose proof (mr_free _ _ Hm) as Hfree. pose proof (addr_range s V ip Hm Hf 28) as [|Hr]; [done|]. change size with 4049 in *.
  assert (E : faddr V ip fbn = get32 (V (addr_at ip 28)) (4 * j)).
  { unfold faddr. change NDIRECT with 28. by rewrite (proj2 (Z.ltb_ge _ _)), (proj2 (Z.eqb_neq _ _) Hi) by lia. }
  assert (Hj : (j < 128)%nat) by (unfold j; lia). assert (Hl : length (V (addr_at ip 28)) = 512%nat) by (apply (mr_sector _ _ Hm); unfold mU; change size with 4049; lia).
  apply wp_bind. apply (rsect_wp s V); [done|change size with 4049; lia|lia|]. rewrite <-E.
  destruct (Z.eqb_spec (faddr V ip fbn) 0) as [Ez|Ez]; cbn [one_if] in *.
  - assert (Hu : used msb V (freeblock s) = false).
    { rewrite (mr_bits _ _ Hm) by (change size with 4049 in *; lia). apply bool_decide_eq_false_2. lia. }
    assert (Hb : 0 <= freeblock s < sb_size msb) by (change (sb_size msb) with 4049; lia).
    pose proof (mr_ok _ _ Hm) as Hok. pose proof (mr_sector _ _ Hm) as Hlen. rewrite E in Ez. change (get32 ?d (4 * ?k)) with (ind_entry d k) in Ez.
    assert (Hg : grown mU msb V ip (updb (addr_at ip 28) (put32 (allocated msb (freeblock s) V (addr_at ip 28)) (4 * j) (freeblock s)) (allocated msb (freeblock s) V)) ip)
      by (apply grown_entry; try done; lia).
    destruct (ind_facts mU msb V ip Hok Hlen Hf j (freeblock s) Hj Hi Hb Hu) as (_ & _ & Ek & _). rewrite Ek in Hg.
    apply wp_bind, wp_bind. apply (newblock_wp s V); [done|change size with 4049; lia|]. intros s1 Hm1 Hf1 Hi1. apply wp_bind.
    apply (wsect_wp s1 (allocated msb (freeblock s) V)); [done|lia|lia|by rewrite length_put32 by lia|apply Hg|].
    intros s2 Hm2 Hf2 Hi2. apply wp_ret, wp_ret. rewrite get32_put32, u32_small, xint_small by lia.
    assert (Efa : forall bn, 0 <= bn < MAXFILE -> faddr (updb (addr_at ip 28) (put32 (V (addr_at ip 28)) (4 * j) (freeblock s)) (allocated msb (freeblock s) V)) ip bn =
      if decide (bn = 28 + Z.of_nat j) then freeblock s else faddr V ip bn).
    { intros bn Hbb. rewrite <-Ek. apply (faddr_entry mU); try done; lia. }
    assert (E2 := Efa fbn ltac:(change MAXFILE with 156; lia)). rewrite decide_True in E2 by (unfold j; lia).
    rewrite <-E2 at 1. apply HQ; try done; [rewrite E2; lia|lia|lia|]. intros bn Hbb Hne. rewrite Efa by done. rewrite decide_False; [done|unfold j; lia].
  - apply wp_bind, wp_ret, wp_ret. rewrite <-E. assert (Hfr : 54 <= faddr V ip fbn < freeblock s) by (apply (faddr_range s V ip Hm Hf); [change MAXFILE with 156; lia|done]).
    rewrite xint_small by lia. apply HQ; try done; [|lia]. apply grown_refl; [apply Hm|done].
Qed.
Lemma file_block_wp s V ip fbn Q : mrep s V -> file_ok msb V ip -> 0 <= fbn < MAXFILE -> freeblock s + missing V ip fbn <= size ->
  (forall s' V' ip', mrep s' V' -> grown mU msb V ip V' ip' -> faddr V' ip' fbn <> 0 ->
     freeblock s' = freeblock s + missing V ip fbn -> freeinode s' = freeinode s ->
     (forall bn, 0 <= bn < MAXFILE -> bn <> fbn -> faddr V' ip' bn = faddr V ip bn) ->
     (fbn < NDIRECT -> addr_at ip' 28 = addr_at ip 28) -> Q (ip', faddr V' ip' fbn) s' []) ->
  wp (file_block fbn ip) s Q.
Proof.
  intros Hm Hf Hbn Hroom HQ. change MAXFILE with 156 in Hbn. unfold file_block, missing in *. change NDIRECT with 28 in *.
  destruct (Z.ltb_spec fbn 28) as [Hlt|Hge].
  - assert (E : faddr V ip fbn = addr_at ip (Z.to_nat fbn)) by (unfold faddr; change NDIRECT with 28; by rewrite (proj2 (Z.ltb_lt _ _)) by lia).
    rewrite (proj2 (Z.leb_gt 28 fbn)) in Hroom, HQ by lia. cbn [andb one_if] in Hroom, HQ. rewrite E, Z.add_0_r in Hroom, HQ.
    apply wp_bind. apply (inode_slot_wp s V ip Hm Hf (Z.to_nat fbn)); [lia|done|].
    intros s' V' ip' Hm' Hg Hn Hfr Hin Hj Hbs. apply wp_ret. rewrite (xint_addr s' V' ip' Hm' (gr_file _ _ _ _ _ _ Hg)).
    assert (E' : faddr V' ip' fbn = addr_at ip' (Z.to_nat fbn)) by (unfold faddr; change NDIRECT with 28; by rewrite (proj2 (Z.ltb_lt _ _)) by lia).
    rewrite <-E'. apply HQ; try done; [by rewrite E'| |].
    + intros bn Hb Hne. apply Hbs; [done|]. left. lia.
    + intros _. apply Hj. lia.
  - rewrite (proj2 (Z.leb_le 28 fbn)) in Hroom, HQ by lia. cbn [andb] in Hroom, HQ.
    assert (0 <= one_if (faddr V ip fbn =? 0)) by (destruct (_ =? _); cbn; lia).
    apply wp_bind. apply (inode_slot_wp s V ip Hm Hf 28); [lia|lia|].
    intros s1 V1 ip1 Hm1 Hg Hn Hfr Hin Hj Hbs. change (Z.to_nat 28) with 28%nat. rewrite (xint_addr s1 V1 ip1 Hm1 (gr_file _ _ _ _ _ _ Hg)).
    assert (E1 : faddr V1 ip1 fbn = faddr V ip fbn) by (apply Hbs; [change MAXFILE with 156; lia|right; change NDIRECT with 28; lia]).
    apply (ind_slot_wp s1 V1 ip1 fbn); [done|apply Hg|change MAXFILE with 156; change NDIRECT with 28; lia|done|rewrite E1; lia|].
    intros s2 V2 Hm2 Hg2 Hn2 Hf2 Hi2 Ho2. rewrite E1 in Hf2.
    apply HQ; try done; [eapply grown_trans; [apply Hm|done|done]|lia|lia| |lia].
    intros bn Hb Hne. rewrite Ho2, Hbs; try done. change NDIRECT with 28. lia.
Qed.

(** ** Files and their bytes *)

(** The blocks, the indirect one included, that [n] bytes take. *)
Definition nb (n : Z) : Z := (n + 511) / 512 + one_if (28 * 512 <? n).
Lemma nb_mono m n : 0 <= m <= n -> nb m <= nb n.
Proof. intros Hmn. unfold nb, one_if. destruct (Z.ltb_spec (28 * 512) m), (Z.ltb_spec (28 * 512) n); lia_dm. Qed.
(** The file of [ip] on [V] is [data], and owns no more than it needs. *)
Record holds (V : Z -> list Z) (ip : inode) (data : list Z) : Prop := {
  ho_file : file_ok msb V ip;
  ho_dense : dense V ip (Z.of_nat (length data));
  ho_tight : forall bn, 0 <= bn < MAXFILE -> Z.of_nat (length data) <= bn * BSIZE -> faddr V ip bn = 0;
  ho_ind : Z.of_nat (length data) <= 28 * 512 -> addr_at ip 28 = 0;
  ho_bytes : forall o, 0 <= o < MAXBYTES -> fbyte V ip o = default 0 (data !! Z.to_nat o);
}.

Lemma holds_missing V ip data : holds V ip data -> Z.of_nat (length data) < MAXBYTES -> forall n, 0 < n ->
  Z.of_nat (length data) + n <= (Z.of_nat (length data) / 512 + 1) * 512 ->
  missing V ip (Z.of_nat (length data) / 512) = nb (Z.of_nat (length data) + n) - nb (Z.of_nat (length data)).
Proof.
  intros H Hmax n Hn Hfit. set (off := Z.of_nat (length data)) in *. change MAXBYTES with 79872 in Hmax. assert (0 <= off) by lia.
  assert (Hbn : 0 <= off / 512 < MAXFILE) by (change MAXFILE with 156; lia_dm).
  unfold missing, nb. change NDIRECT with 28.
  assert (E1 : (faddr V ip (off / 512) =? 0) = (off mod 512 =? 0)).
  { destruct (Z.eqb_spec (off mod 512) 0) as [E|E].
    - apply Z.eqb_eq. apply (ho_tight _ _ _ H); [done|]. fold off. unfold BSIZE. lia_dm.
    - apply Z.eqb_neq. apply (ho_dense _ _ _ H); [lia|]. fold off. unfold BSIZE. lia_dm. }
  assert (E2 : ((28 <=? off / 512) && (addr_at ip 28 =? 0))%bool = (off =? 28 * 512)).
  { destruct (Z.leb_spec 28 (off / 512)) as [Hle|Hgt]; cbn; [|symmetry; apply Z.eqb_neq; lia_dm].
    destruct (Z.eqb_spec off (28 * 512)) as [E|E].
    - apply Z.eqb_eq. apply (ho_ind _ _ _ H). fold off. lia.
    - apply Z.eqb_neq. intros Ei. assert (faddr V ip 28 <> 0) as Hd.
      { apply (ho_dense _ _ _ H); [lia|]. fold off. unfold BSIZE. lia_dm. }
      apply Hd. unfold faddr. change NDIRECT with 28. by rewrite Z.ltb_irrefl, Ei. }
  rewrite E1, E2. unfold one_if.
  destruct (Z.eqb_spec (off mod 512) 0), (Z.eqb_spec off (28 * 512)), (Z.ltb_spec (28 * 512) (off + n)), (Z.ltb_spec (28 * 512) off); lia_dm.
Qed.

(** One block: [file_block] found or made it, and the bytes [d] went in. *)
Lemma holds_block V ip V1 ip1 data d (off := Z.of_nat (length data)) (fbn := off / 512) :
  fs_ok mU msb V -> (forall x, mU x -> length (V1 x) = 512%nat) -> holds V ip data -> grown mU msb V ip V1 ip1 ->
  off < MAXBYTES -> off + Z.of_nat (length d) <= (fbn + 1) * 512 -> d <> [] -> bytes d -> faddr V1 ip1 fbn <> 0 ->
  (forall bn, 0 <= bn < MAXFILE -> bn <> fbn -> faddr V1 ip1 bn = faddr V ip bn) ->
  (fbn < NDIRECT -> addr_at ip1 28 = addr_at ip 28) ->
  let V2 := updb (faddr V1 ip1 fbn) (splice (V1 (faddr V1 ip1 fbn)) (Z.to_nat (off - fbn * 512)) d) V1 in
  written mU msb V ip V2 ip1 off d /\ holds V2 ip1 (data ++ d).
Proof.
  intros Hok Hlen H Hg Hmax Hfit Hne Hd Ha Hother Hind V2. change MAXBYTES with 79872 in Hmax. assert (0 <= off) by lia.
  assert (Hbn : 0 <= fbn < MAXFILE) by (change MAXFILE with 156; unfold fbn; lia_dm).
  assert (Hw : written mU msb V ip V2 ip1 off d).
  { unfold V2. replace (off - fbn * 512) with (off mod BSIZE) by (unfold fbn, BSIZE; lia_dm).
    apply written_block; try done. unfold BSIZE, fbn in *. lia_dm. }
  split; [done|]. assert (Ef : forall bn, faddr V2 ip1 bn = faddr V1 ip1 bn) by (intros bn; apply (faddr_contents msb V1 ip1 (gr_file _ _ _ _ _ _ Hg) fbn _ Hbn Ha)).
  split.
  - apply Hw.
  - intros bn Hb Hlt. rewrite Ef, length_app in *. unfold BSIZE in Hlt. destruct (decide (bn = fbn)) as [->|Hn]; [done|].
    assert (bn < fbn) by (unfold fbn in *; fold off in Hlt; lia_dm).
    rewrite Hother by (change MAXFILE with 156 in *; lia). apply (ho_dense _ _ _ H); [done|]. fold off. unfold BSIZE, fbn in *. lia_dm.
  - intros bn Hb Hge. rewrite Ef, length_app in *. unfold BSIZE in Hge. assert (0 < length d)%nat by (destruct d; [done|cbn; lia]).
    assert (fbn < bn) by (unfold fbn in *; fold off in Hge; lia_dm). rewrite Hother by (done || lia). apply (ho_tight _ _ _ H); [done|]. fold off. unfold BSIZE. lia_dm.
  - intros Hle. rewrite length_app in Hle. assert (0 < length d)%nat by (destruct d; [done|cbn; lia]). fold off in Hle.
    rewrite Hind by (change NDIRECT with 28; unfold fbn; lia_dm). apply (ho_ind _ _ _ H). fold off. lia.
  - intros o Ho. rewrite (wr_bytes _ _ _ _ _ _ _ _ Hw o Ho). unfold patched. destruct (decide _) as [Hin|Hout].
    + rewrite lookup_app_r by lia. do 2 f_equal. lia.
    + rewrite (ho_bytes _ _ _ H o Ho). f_equal. destruct (decide (o < off)) as [Hlt|Hge]; [by rewrite lookup_app_l by lia|].
      rewrite !lookup_ge_None_2; [done|rewrite ?length_app; lia..].
Qed.

Lemma iappend_loop_wp fuel : forall s V ip data p Q, mrep s V -> holds V ip data -> (length p <= fuel)%nat -> bytes p ->
  Z.of_nat (length data + length p) <= MAXBYTES ->
  freeblock s + nb (Z.of_nat (length data + length p)) - nb (Z.of_nat (length data)) <= size ->
  (forall s' V' ip', mrep s' V' -> written mU msb V ip V' ip' (Z.of_nat (length data)) p -> holds V' ip' (data ++ p) ->
     freeblock s' = freeblock s + nb (Z.of_nat (length data + length p)) - nb (Z.of_nat (length data)) ->
     freeinode s' = freeinode s -> Q (ip', Z.of_nat (length data + length p)) s' []) ->
  wp (iappend_loop fuel ip (Z.of_nat (length data)) p) s Q.
Proof.
  induction fuel as [|fuel IH]; intros s V ip data p Q Hm H Hfuel Hp Hmax Hroom HQ; destruct p as [|c p0] eqn:Ep; cbn [length] in Hfuel; try lia;
    try (apply wp_ret; rewrite <-(Nat.add_0_r (length data)) at 1; apply (HQ s V ip); [done|apply written_nil; [apply Hm|apply H]|by rewrite app_nil_r|rewrite Nat.add_0_r; lia|done]).
  cbn [iappend_loop]. rewrite <-Ep in *. set (off := Z.of_nat (length data)) in *. change MAXBYTES with 79872 in Hmax.
  assert (Hlp : (length p = S (length p0))%nat) by (by rewrite Ep).
  set (n1 := Z.min (Z.of_nat (length p)) ((off / 512 + 1) * 512 - off)).
  assert (Hn1 : 0 < n1 <= Z.of_nat (length p)) by (unfold n1; lia_dm). assert (Hfit : off + n1 <= (off / 512 + 1) * 512) by (unfold n1; lia).
  set (d := take (Z.to_nat n1) p). assert (Hd : length d = Z.to_nat n1) by (unfold d; rewrite length_take; lia).
  assert (Hmono : nb (off + n1) <= nb (off + Z.of_nat (length p))) by (apply nb_mono; lia).
  rewrite Nat2Z.inj_add in Hroom. fold off in Hroom.
  assert (Hbn : 0 <= off / 512 < MAXFILE) by (change MAXFILE with 156; lia_dm).
  assert (Hmiss : missing V ip (off / 512) = nb (off + n1) - nb off) by (apply holds_missing; [done|change MAXBYTES with 79872; lia|lia|done]).
  apply wp_bind. unfold check. rewrite (proj2 (Z.ltb_lt _ _)) by lia. apply wp_ret, wp_bind.
  apply (file_block_wp s V ip); [done|apply H|done|lia|]. intros s1 V1 ip1 Hm1 Hg Ha Hf1 Hi1 Hother Hind.
  destruct (holds_block V ip V1 ip1 data d) as [Hw Hh]; try done.
  { apply Hm. } { apply Hm1. } { change MAXBYTES with 79872. lia. } { rewrite Hd. fold off. lia. } { intros E. rewrite E in Hd. cbn in Hd. lia. } { by apply Forall_take. }
  fold off in Hw, Hh. pose proof (faddr_range s1 V1 ip1 Hm1 (gr_file _ _ _ _ _ _ Hg) _ Hbn Ha) as Hr. pose proof (mr_free _ _ Hm1) as Hfr.
  apply wp_bind. apply (rsect_wp s1 V1); [done|lia|lia|]. fold n1.
  apply wp_bind. apply (wsect_wp s1 V1); [done|lia|lia| |apply Hw|].
  { rewrite length_splice; [apply (mr_sector _ _ Hm1); unfold mU; lia|]. fold d. rewrite Hd, (mr_sector _ _ Hm1) by (unfold mU; lia). lia_dm. }
  intros s2 Hm2 Hf2 Hi2. rewrite u32_small by lia. assert (El : off + n1 = Z.of_nat (length (data ++ d))) by (rewrite length_app; lia).
  assert (Et : Z.of_nat (length (data ++ d) + length (drop (Z.to_nat n1) p)) = off + Z.of_nat (length p)) by (rewrite length_app, length_drop; lia).
  rewrite El. apply IH with (V := updb (faddr V1 ip1 (off / 512)) (splice (V1 (faddr V1 ip1 (off / 512))) (Z.to_nat (off - off / 512 * 512)) d) V1);
    [done|done|rewrite length_drop; lia|by apply Forall_drop|rewrite Et; change MAXBYTES with 79872; lia|rewrite Et, <-El; lia|].
  intros s3 V3 ip3 Hm3 Hw3 Hh3 Hf3 Hi3. rewrite Et in *. rewrite <-El in *.
  assert (Epd : p = d ++ drop (Z.to_nat n1) p) by (unfold d; by rewrite take_drop).
  replace (off + Z.of_nat (length p)) with (Z.of_nat (length data + length p)) by lia. apply (HQ s3 V3 ip3).
  - done.
  - rewrite Epd. eapply written_app; [apply Hm|lia|rewrite Hd, length_drop; change MAXBYTES with 79872; lia|exact Hw|].
    replace (off + Z.of_nat (length d)) with (off + n1) by lia. done.
  - rewrite <-app_assoc, <-Epd in Hh3. done.
  - rewrite Nat2Z.inj_add. fold off. lia.
  - lia.
Qed.

(** ** The inodes of an image *)

Notation contents := (list (Z * list Z)).
Definition inode_at (V : Z -> list Z) (i : nat) : inode := get_dinode (V (IBLOCK (Z.of_nat i + 1))) (dinode_off (Z.of_nat i + 1)) zero_inode.
Definition blocks_needed (fs : contents) : Z := foldr (fun f n => nb (Z.of_nat (length f.2)) + n) 0 fs.
(** What an inode says of itself. *)
Definition describes (ip : inode) (f : Z * list Z) : Prop :=
  0 <= f.1 < 2 ^ 15 /\ ip = set_meta f.1 0 0 1 (Z.of_nat (length f.2)) (i_addrs ip) zero_inode.
(** The image holds the files [fs]: every inode has its file, and no two share a block. *)
Record image (s : mkfs) (V : Z -> list Z) (fs : contents) : Prop := {
  im_rep : mrep s V;
  im_inodes : freeinode s = Z.of_nat (length fs) + 1;
  im_max : Z.of_nat (length fs) < ninodes;
  im_blocks : freeblock s = 54 + blocks_needed fs;
  im_file : forall i f, fs !! i = Some f -> holds V (inode_at V i) f.2 /\ describes (inode_at V i) f;
  im_disjoint : forall i j x, (i < length fs)%nat -> (j < length fs)%nat -> i <> j ->
    x ∈ owned V (inode_at V i) -> x ∉ owned V (inode_at V j);
}.

Lemma holds_same V V' ip ip' d : i_addrs ip' = i_addrs ip -> (forall x, x ∈ owned V ip -> V' x = V x /\ used msb V' x = true) ->
  holds V ip d -> holds V' ip' d /\ owned V' ip' = owned V ip.
Proof.
  intros Ea Hx [H1 H2 H3 H4 H5]. assert (Eat : forall k, addr_at ip' k = addr_at ip k) by (intros k; unfold addr_at; by rewrite Ea).
  assert (Ei : addr_at ip 28 <> 0 -> V' (addr_at ip 28) = V (addr_at ip 28)) by (intros Hi; apply Hx; by apply owned_addr).
  assert (Ef : forall bn, faddr V' ip' bn = faddr V ip bn).
  { intros bn. unfold faddr. rewrite !Eat. destruct (bn <? NDIRECT); [done|]. destruct (Z.eqb_spec (addr_at ip 28) 0); [done|]. by rewrite Ei. }
  assert (Eo : owned V' ip' = owned V ip).
  { unfold owned, slots, ind_entries. rewrite Ea, Eat. destruct (Z.eqb_spec (addr_at ip 28) 0); [done|]. by rewrite Ei. }
  split; [|done]. split.
  - split; [rewrite Ea; apply H1|rewrite Eo; apply H1|]. intros b. rewrite Eo. intros Hb. split; [by apply (fi_used _ _ _ H1 b)|by apply Hx].
  - intros bn Hb Hl. rewrite Ef. by apply H2.
  - intros bn Hb Hl. rewrite Ef. by apply H3.
  - intros Hl. rewrite Eat. by apply H4.
  - intros o Ho. rewrite <-H5 by done. unfold fbyte, fblock. rewrite Ef. destruct (Z.eqb_spec (faddr V ip (o / BSIZE)) 0) as [E|E]; [done|].
    destruct (Hx (faddr V ip (o / BSIZE))) as [-> _]; [|done]. apply owned_faddr; [|done]. change MAXBYTES with 79872 in Ho. change MAXFILE with 156. unfold BSIZE. lia_dm.
Qed.

(** The inode [i] on [V'] after it was written there. *)
Definition with_inode (i : nat) (ip : inode) (V : Z -> list Z) : Z -> list Z :=
  updb (IBLOCK (Z.of_nat i + 1)) (put_dinode ip (dinode_off (Z.of_nat i + 1)) (V (IBLOCK (Z.of_nat i + 1)))) V.
Lemma iblock_low i : Z.of_nat i + 1 < ninodes -> 2 <= IBLOCK (Z.of_nat i + 1) < 53.
Proof. unfold IBLOCK, ninodes, IPB, BSIZE, DINODE_SIZE. change (512 / 128) with 4. intros. lia_dm. Qed.
Lemma describes_ok ip f s V : mrep s V -> holds V ip f.2 -> Z.of_nat (length f.2) <= MAXBYTES -> describes ip f -> inode_ok ip.
Proof.
  intros Hm H Hl [H1 H2]. pose proof (fi_addrs _ _ _ (ho_file _ _ _ H)) as Ha. change MAXBYTES with 79872 in Hl. pose proof (mr_free _ _ Hm) as Hfr. change size with 4049 in Hfr.
  rewrite H2. split; cbn [i_type i_major i_minor i_nlink i_size i_addrs set_meta]; try lia. apply Forall_lookup. intros k a Hk.
  destruct (addr_range s V ip Hm (ho_file _ _ _ H) k) as [E|E]; unfold addr_at in E; rewrite Hk in E; cbn in E; lia.
Qed.
Lemma describes_set_meta ip f q : describes ip f -> q = zero_inode -> set_meta (i_type ip) (i_major ip) (i_minor ip) (i_nlink ip) (i_size ip) (i_addrs ip) q = ip.
Proof. intros [_ H] ->. rewrite H at 7. rewrite H. done. Qed.

Section with_inode.
Context (s : mkfs) (V : Z -> list Z) (i : nat) (ip : inode) (Hm : mrep s V) (Hi : Z.of_nat i + 1 < ninodes) (Hip : inode_ok ip).
Lemma iblock_length : length (V (IBLOCK (Z.of_nat i + 1))) = 512%nat.
Proof. apply (mr_sector _ _ Hm). unfold mU. pose proof (iblock_low i Hi). change size with 4049. lia. Qed.
Lemma inode_at_same f : describes ip f -> inode_at (with_inode i ip V) i = ip.
Proof.
  intros Hd. unfold inode_at, with_inode. rewrite updb_same, get_dinode_put; [by apply (describes_set_meta ip f)|done|].
  rewrite iblock_length. apply dinode_off_range.
Qed.
Lemma inode_at_other j : Z.of_nat j + 1 < ninodes -> j <> i -> inode_at (with_inode i ip V) j = inode_at V j.
Proof.
  intros Hj Hne. unfold inode_at, with_inode, updb. destruct (decide _) as [E|E]; [|done]. rewrite <-E. rewrite E.
  apply get_dinode_other; [apply Hip|rewrite iblock_length; apply dinode_off_range|]. apply dinode_off_other; [lia|lia|lia|by rewrite E].
Qed.
Lemma winode_wp Q : (forall s', mrep s' (with_inode i ip V) -> freeblock s' = freeblock s -> freeinode s' = freeinode s -> Q tt s' []) ->
  wp (winode (Z.of_nat i + 1) ip) s Q.
Proof.
  intros HQ. pose proof (iblock_low i Hi) as Hb. pose proof (mr_free _ _ Hm). change size with 4049 in *. unfold winode. change (i2b ?n) with (IBLOCK n).
  apply wp_bind. apply (rsect_wp s V); [done|change size with 4049; lia|lia|].
  apply (wsect_wp s V); [done|lia|lia| |apply fs_ok_inode; [apply Hm|change (bmstart msb) with 53; lia|apply bytes_put_dinode]|].
  - rewrite length_put_dinode; [apply iblock_length|apply Hip|]. rewrite iblock_length. apply dinode_off_range.
  - apply (fo_bytes _ _ _ (mr_ok _ _ Hm)). unfold mU. change size with 4049. lia.
  - apply HQ.
Qed.
End with_inode.

(** One inode and its blocks change. *)
Lemma image_write s V fs i ip f fs' s1 V1 s' : image s V fs -> mrep s1 V1 -> mrep s' (with_inode i ip V1) ->
  Z.of_nat i + 1 < ninodes -> holds V1 ip f.2 -> describes ip f -> Z.of_nat (length f.2) <= MAXBYTES ->
  (forall x, x < 53 -> V1 x = V x) ->
  (forall j x, (j < length fs)%nat -> j <> i -> x ∈ owned V (inode_at V j) -> V1 x = V x /\ x ∉ owned V1 ip) ->
  freeblock s <= freeblock s1 -> freeblock s' = freeblock s1 -> fs' !! i = Some f -> (forall j, j <> i -> fs' !! j = fs !! j) ->
  Z.of_nat (length fs') < ninodes -> freeinode s' = Z.of_nat (length fs') + 1 -> freeblock s' = 54 + blocks_needed fs' ->
  image s' (with_inode i ip V1) fs'.
Proof.
  intros Him Hm1 Hm' Hi Hh Hd Hl Hlow Hkeep Hfree Hfs Hfi Hfj Hmax Hin Hbl.
  pose proof (describes_ok ip f s1 V1 Hm1 Hh Hl Hd) as Hok.
  assert (Hsame : forall x, 54 <= x -> with_inode i ip V1 x = V1 x) by (intros x Hx; apply updb_other; pose proof (iblock_low i Hi); lia).
  assert (Hused : forall x, 54 <= x < freeblock s' -> used msb (with_inode i ip V1) x = true).
  { intros x Hx. pose proof (mr_free _ _ Hm'). rewrite (mr_bits _ _ Hm') by lia. apply bool_decide_eq_true_2. lia. }
  assert (Ei : inode_at (with_inode i ip V1) i = ip) by (by apply (inode_at_same s1 V1 i ip Hm1 Hi Hok f)).
  assert (Hi' : holds (with_inode i ip V1) ip f.2 /\ owned (with_inode i ip V1) ip = owned V1 ip).
  { apply (holds_same V1); [done| |done]. intros x Hx. pose proof (owned_low s1 V1 ip Hm1 (ho_file _ _ _ Hh) x Hx) as Hr1.
    split; [apply Hsame; lia|]. apply Hused. lia. }
  assert (Ej : forall j, j <> i -> (j < length fs')%nat -> inode_at (with_inode i ip V1) j = inode_at V j /\ (j < length fs)%nat).
  { intros j Hne Hj. rewrite (inode_at_other s1 V1 i ip Hm1 Hi Hok j) by (done || lia). unfold inode_at.
    rewrite Hlow by (pose proof (iblock_low j); lia). split; [done|]. apply lookup_lt_is_Some. rewrite <-Hfj by done. by apply lookup_lt_is_Some. }
  assert (Hj' : forall j g, j <> i -> fs' !! j = Some g -> holds (with_inode i ip V1) (inode_at V j) g.2 /\
      owned (with_inode i ip V1) (inode_at V j) = owned V (inode_at V j)).
  { intros j g Hne Hg. destruct (Ej j Hne (lookup_lt_Some _ _ _ Hg)) as [_ Hlt]. rewrite Hfj in Hg by done. destruct (im_file _ _ _ Him j g Hg) as [Hhj _].
    apply (holds_same V); [done| |done]. intros x Hx. pose proof (owned_low s V _ (im_rep _ _ _ Him) (ho_file _ _ _ Hhj) x Hx).
    split; [rewrite Hsame by lia; by apply (Hkeep j)|apply Hused; lia]. }
  split; try done.
  - intros j g Hg. destruct (decide (j = i)) as [->|Hne]; [rewrite Hfi in Hg; injection Hg as <-; rewrite Ei; split; [apply Hi'|done]|].
    destruct (Ej j Hne (lookup_lt_Some _ _ _ Hg)) as [-> _]. split; [by apply (Hj' j)|]. rewrite Hfj in Hg by done. by apply (im_file _ _ _ Him j g).
  - intros j k x Hj Hk Hne Hx. apply lookup_lt_is_Some in Hj as [g Hg], Hk as [g' Hg'].
    destruct (decide (j = i)) as [->|Hji]; [|destruct (decide (k = i)) as [->|Hki]].
    + rewrite Ei, (proj2 Hi') in Hx. destruct (Ej k (not_eq_sym Hne) (lookup_lt_Some _ _ _ Hg')) as [-> Hlt].
      rewrite (proj2 (Hj' k g' (not_eq_sym Hne) Hg')). intros Hin'. by apply (Hkeep k x).
    + rewrite Ei, (proj2 Hi'). destruct (Ej j Hji (lookup_lt_Some _ _ _ Hg)) as [E Hlt]. rewrite E, (proj2 (Hj' j g Hji Hg)) in Hx. by apply (Hkeep j x).
    + destruct (Ej j Hji (lookup_lt_Some _ _ _ Hg)) as [E Hlt]. rewrite E, (proj2 (Hj' j g Hji Hg)) in Hx.
      destruct (Ej k Hki (lookup_lt_Some _ _ _ Hg')) as [-> Hlt']. rewrite (proj2 (Hj' k g' Hki Hg')). by apply (im_disjoint _ _ _ Him j k x).
Qed.

Lemma blocks_needed_insert fs i f g : fs !! i = Some f ->
  blocks_needed (<[i := g]> fs) = blocks_needed fs + nb (Z.of_nat (length g.2)) - nb (Z.of_nat (length f.2)).
Proof.
  revert i. induction fs as [|h fs IH]; intros [|i]; cbn [lookup list_lookup insert list_insert]; [done..| |].
  - intros [= ->]. unfold blocks_needed. cbn [foldr]. lia.
  - intros H. etrans; [exact (f_equal (Z.add (nb (Z.of_nat (length h.2)))) (IH i H))|]. unfold blocks_needed. cbn [foldr]. lia.
Qed.
Lemma blocks_needed_app fs f : blocks_needed (fs ++ [f]) = blocks_needed fs + nb (Z.of_nat (length f.2)).
Proof. induction fs as [|h fs IH]; cbn; [lia|]. unfold blocks_needed in IH. rewrite IH. lia. Qed.

(** ** The operations on an image *)

Definition append (i : nat) (p : list Z) (fs : contents) : contents := alter (fun f => (f.1, f.2 ++ p)) i fs.
Definition new_file (type : Z) (fs : contents) : contents := fs ++ [(type, [])].
(** The image can hold them. *)
Definition fits (fs : contents) : Prop :=
  Z.of_nat (length fs) < ninodes /\ Forall (fun f => Z.of_nat (length f.2) <= MAXBYTES) fs /\ 54 + blocks_needed fs <= size.

Lemma rinode_wp s V fs i f Q : image s V fs -> fs !! i = Some f -> Q (inode_at V i) s [] -> wp (rinode (Z.of_nat i + 1)) s Q.
Proof.
  intros Him Hf HQ. pose proof (im_max _ _ _ Him). apply lookup_lt_Some in Hf. pose proof (iblock_low i ltac:(lia)).
  unfold rinode. change (i2b ?n) with (IBLOCK n). apply wp_bind. apply (rsect_wp s V); [apply Him|change size with 4049; lia|lia|]. by apply wp_ret.
Qed.
(** A size and the addresses as they are. *)
Lemma resized ip ip' f n : describes ip f -> same_file ip ip' -> describes (Fs.set_size (Z.of_nat n) ip') (f.1, replicate n 0).
Proof. intros [H1 H2] Hs. split; [done|]. unfold same_file in Hs. rewrite H2 in Hs. rewrite Hs. cbn. by rewrite length_replicate. Qed.
Lemma describes_length ip f g : describes ip f -> g.1 = f.1 -> length g.2 = length f.2 -> describes ip g.
Proof. unfold describes. by intros H -> ->. Qed.
Lemma set_size_addrs V ip n d : holds V ip d -> holds V (Fs.set_size n ip) d.
Proof. intros [[A1 A2 A3] H2 H3 H4 H5]. by split. Qed.

Lemma iappend_wp s V fs i f p Q : image s V fs -> fs !! i = Some f -> bytes p -> fits (append i p fs) ->
  (forall s' V', image s' V' (append i p fs) -> Q tt s' []) -> wp (iappend (Z.of_nat i + 1) p) s Q.
Proof.
  intros Him Hf Hp (F1 & F2 & F3) HQ. destruct f as [ty d]. destruct (im_file _ _ _ Him i _ Hf) as [Hh Hd]. cbn [fst snd] in *.
  set (f' := (ty, d ++ p)). assert (Ea : append i p fs = <[i := f']> fs) by (unfold append; by rewrite (alter_insert _ _ _ _ Hf)).
  rewrite Ea in *. assert (Hi : (i < length fs)%nat) by (by eapply lookup_lt_Some). pose proof (im_max _ _ _ Him) as Hmax. pose proof (im_rep _ _ _ Him) as Hm.
  assert (Hl : Z.of_nat (length (d ++ p)) <= MAXBYTES).
  { eapply (Forall_lookup_1 _ _ i f') in F2; [done|]. by apply list_lookup_insert_eq. }
  rewrite length_app in Hl. pose proof (blocks_needed_insert fs i _ f' Hf) as Hb. cbn [fst snd f'] in Hb. rewrite length_app in Hb. pose proof (im_blocks _ _ _ Him) as Hfb.
  change MAXBYTES with 79872 in Hl. change size with 4049 in F3.
  unfold iappend. apply wp_bind. apply (rinode_wp s V fs i _ _ Him Hf). assert (Esz : i_size (inode_at V i) = Z.of_nat (length d)) by (rewrite (proj2 Hd); done).
  rewrite Esz, xint_small by lia. apply wp_bind.
  apply (iappend_loop_wp (length p) s V (inode_at V i) d p); [done|done|lia|done|change MAXBYTES with 79872; lia|change size with 4049; lia|].
  intros s1 V1 ip1 Hm1 Hw Hh1 Hf1 Hi1. rewrite xint_small by lia. pose proof (resized _ ip1 _ (length d + length p) Hd (wr_same _ _ _ _ _ _ _ _ Hw)) as Hd1.
  apply (describes_length _ _ f') in Hd1; [|done|cbn; by rewrite length_replicate, length_app]. apply (set_size_addrs _ _ (Z.of_nat (length d + length p))) in Hh1.
  apply (winode_wp s1 V1 i _ Hm1); [lia|eapply (describes_ok _ f'); [exact Hm1|done|cbn; rewrite length_app; change MAXBYTES with 79872; lia|done]|].
  intros s' Hm' Hf' Hi'. eapply HQ. apply (image_write s V fs i _ f' _ s1 V1 s' Him Hm1 Hm'); try done; try lia.
  - cbn. rewrite length_app. change MAXBYTES with 79872. lia.
  - intros x Hx. by apply (pr_meta _ _ _ _ (wr_pres _ _ _ _ _ _ _ _ Hw)).
  - intros j x Hj Hne Hx. destruct (lookup_lt_is_Some_2 _ _ Hj) as [g Hg]. destruct (im_file _ _ _ Him j g Hg) as [Hhj _].
    destruct (fi_used _ _ _ (ho_file _ _ _ Hhj) x Hx) as [Hr Hu]. pose proof (im_disjoint _ _ _ Him j i x Hj Hi Hne Hx) as Hni. split.
    + by apply (pr_data _ _ _ _ (wr_pres _ _ _ _ _ _ _ _ Hw)).
    + intros Hin. destruct (wr_own _ _ _ _ _ _ _ _ Hw x Hin); [done|congruence].
  - pose proof (nb_mono (Z.of_nat (length d)) (Z.of_nat (length d + length p)) ltac:(lia)). lia.
  - by apply list_lookup_insert_eq.
  - intros j Hj. by rewrite list_lookup_insert_ne.
  - rewrite length_insert. pose proof (im_inodes _ _ _ Him). lia.
Qed.

(** A new inode. *)
Definition fresh_inode (type : Z) : inode := set_meta type 0 0 1 0 (replicate 29 0) zero_inode.
Lemma fresh_addr type k : addr_at (fresh_inode type) k = 0.
Proof. unfold addr_at, fresh_inode. cbn [i_addrs set_meta]. destruct (replicate 29 0 !! k) as [a|] eqn:E; [|done]. by apply lookup_replicate in E as [-> _]. Qed.
Lemma fresh_owned V type : owned V (fresh_inode type) = [].
Proof. unfold owned, slots, ind_entries. rewrite fresh_addr. done. Qed.
Lemma fresh_faddr V type bn : faddr V (fresh_inode type) bn = 0.
Proof. unfold faddr. rewrite !fresh_addr. by destruct (bn <? NDIRECT). Qed.
Lemma fresh_holds V type : holds V (fresh_inode type) [].
Proof.
  split.
  - split; [done|rewrite fresh_owned; constructor|rewrite fresh_owned; by intros b Hb%not_elem_of_nil].
  - intros bn Hb Hl. cbn in Hl. unfold BSIZE in Hl. lia.
  - intros bn _ _. apply fresh_faddr.
  - intros _. apply fresh_addr.
  - intros o Ho. unfold fbyte, fblock. rewrite fresh_faddr, Z.eqb_refl. unfold zeros. destruct (replicate 512 0 !! _) as [a|] eqn:E; [|done]. by apply lookup_replicate in E as [-> _].
Qed.

Lemma ialloc_wp s V fs type Q : image s V fs -> 0 <= type < 2 ^ 15 -> fits (new_file type fs) ->
  (forall s' V', image s' V' (new_file type fs) -> Q (Z.of_nat (length fs) + 1) s' []) -> wp (ialloc type) s Q.
Proof.
  intros Him Ht (F1 & F2 & F3) HQ. unfold new_file in *. pose proof (im_rep _ _ _ Him) as Hm. pose proof (im_inodes _ _ _ Him) as Hin.
  rewrite length_app in F1. cbn [length] in F1. assert (Hn : Z.of_nat (length fs) + 1 < ninodes) by lia. unfold ninodes in *.
  unfold ialloc. apply wp_bind, wp_get, wp_bind, wp_mod. rewrite Hin, u32_small, xint_small, !xshort_small by lia. change (set_meta type 0 0 1 0 (replicate 29 0) zero_inode) with (fresh_inode type).
  assert (Hd : describes (fresh_inode type) (type, [])) by done.
  assert (Hm0 : mrep (set_freeinode (Z.of_nat (length fs) + 1 + 1) s) V) by (destruct Hm; by split).
  apply wp_bind. apply (winode_wp _ V (length fs) (fresh_inode type) Hm0); [done|eapply (describes_ok _ (type, [])); [exact Hm0|apply fresh_holds|cbn; change MAXBYTES with 79872; lia|done]|].
  intros s' Hm' Hf' Hi'. apply wp_ret. eapply HQ. apply (image_write s V fs (length fs) _ (type, []) _ _ V s' Him Hm0 Hm'); try done.
  - apply fresh_holds.
  - intros j x Hj Hne Hx. split; [done|]. rewrite fresh_owned. apply not_elem_of_nil.
  - by rewrite lookup_app_r, Nat.sub_diag by lia.
  - intros j Hj. destruct (decide (j < length fs)%nat) as [Hlt|Hge]; [by rewrite lookup_app_l|]. rewrite !lookup_ge_None_2; [done|lia|rewrite length_app; cbn; lia].
  - rewrite length_app. cbn. unfold ninodes. lia.
  - rewrite Hi', length_app. cbn. lia.
  - rewrite Hf', blocks_needed_app. cbn [freeblock set_freeinode]. rewrite (im_blocks _ _ _ Him). change (nb (Z.of_nat (length (type, @nil Z).2))) with 0. lia.
Qed.

(** The size of a directory, which the zeros behind its entries fill up. *)
Definition padding (d : list Z) : list Z := replicate (Z.to_nat (512 - Z.of_nat (length d) mod 512)) 0.
Lemma nb_block n m : 0 <= n <= m -> m <= (n / 512 + 1) * 512 -> n mod 512 <> 0 -> nb m = nb n.
Proof. intros H1 H2 H3. unfold nb, one_if. destruct (Z.ltb_spec (28 * 512) m), (Z.ltb_spec (28 * 512) n); lia_dm. Qed.
Lemma holds_padding V ip d n : holds V ip d -> Z.of_nat (length d) mod 512 <> 0 -> Z.of_nat (length d + n) <= (Z.of_nat (length d) / 512 + 1) * 512 -> holds V ip (d ++ replicate n 0).
Proof.
  intros [H1 H2 H3 H4 H5] Hm Hn. assert (El : length (d ++ replicate n 0) = (length d + n)%nat) by (by rewrite length_app, length_replicate).
  split; [done|..]; rewrite ?El.
  - intros bn Hb Hl. apply H2; [done|]. unfold BSIZE in *. lia_dm.
  - intros bn Hb Hl. apply H3; [done|]. unfold BSIZE in *. lia.
  - intros Hl. apply H4. lia.
  - intros o Ho. rewrite H5 by done. destruct (decide (Z.to_nat o < length d)%nat) as [Hlt|Hge]; [by rewrite lookup_app_l|].
    rewrite (lookup_ge_None_2 d), lookup_app_r by lia. destruct (replicate n 0 !! _) as [a|] eqn:E; [|done]. by apply lookup_replicate in E as [-> _].
Qed.
Lemma fix_size_wp s V fs i f Q : image s V fs -> fs !! i = Some f -> Z.of_nat (length f.2) mod 512 <> 0 -> Z.of_nat (length f.2) <= MAXBYTES ->
  (forall s' V', image s' V' (append i (padding f.2) fs) -> Q tt s' []) -> wp (fix_size (Z.of_nat i + 1)) s Q.
Proof.
  intros Him Hf Hmod Hl HQ. destruct f as [ty d]. cbn [snd] in *. destruct (im_file _ _ _ Him i _ Hf) as [Hh Hd]. cbn [fst snd] in *. change MAXBYTES with 79872 in Hl.
  pose proof (im_rep _ _ _ Him) as Hm. pose proof (im_max _ _ _ Him) as Hmax. assert (Hi : (i < length fs)%nat) by (by eapply lookup_lt_Some).
  set (n := Z.to_nat (512 - Z.of_nat (length d) mod 512)). set (f' := (ty, d ++ padding d)).
  assert (Elen : length (d ++ padding d) = (length d + n)%nat) by (unfold padding; by rewrite length_app, length_replicate).
  assert (Esz : u32 ((Z.of_nat (length d) / BSIZE + 1) * BSIZE) = Z.of_nat (length d + n)) by (unfold BSIZE, n; rewrite u32_small by lia_dm; lia_dm).
  assert (Hn : Z.of_nat (length d + n) <= (Z.of_nat (length d) / 512 + 1) * 512) by (unfold n; lia_dm). assert (Hl' : Z.of_nat (length d + n) <= 79872) by (unfold n in *; lia_dm).
  unfold fix_size. apply wp_bind. apply (rinode_wp s V fs i _ _ Him Hf). assert (E1 : i_size (inode_at V i) = Z.of_nat (length d)) by (rewrite (proj2 Hd); done).
  rewrite E1, (xint_small (Z.of_nat (length d))), Esz, xint_small by lia.
  pose proof (resized _ (inode_at V i) _ (length d + n) Hd (gr_same _ _ _ _ _ _ (grown_refl _ _ _ _ (mr_ok _ _ Hm) (ho_file _ _ _ Hh)))) as Hd1.
  apply (describes_length _ _ f') in Hd1; [|done|cbn [f' snd]; by rewrite length_replicate, Elen].
  assert (Hh1 : holds V (Fs.set_size (Z.of_nat (length d + n)) (inode_at V i)) f'.2) by (apply set_size_addrs, holds_padding; done).
  apply (winode_wp s V i _ Hm); [lia|eapply (describes_ok _ f'); [exact Hm|done|cbn [f' snd]; rewrite Elen; change MAXBYTES with 79872; lia|done]|].
  intros s' Hm' Hf' Hi'. eapply HQ. unfold append. rewrite (alter_insert _ _ _ _ Hf). cbn [fst snd]. change (ty, d ++ padding d) with f'.
  apply (image_write s V fs i _ f' _ s V s' Him Hm Hm'); try done; try lia.
  - cbn [f' snd]. rewrite Elen. change MAXBYTES with 79872. lia.
  - intros j x Hj Hne Hx. split; [done|]. by apply (im_disjoint _ _ _ Him j i x).
  - by apply list_lookup_insert_eq.
  - intros j Hj. by rewrite list_lookup_insert_ne.
  - by rewrite length_insert.
  - rewrite length_insert, Hi'. apply Him.
  - rewrite Hf', (blocks_needed_insert fs i _ f' Hf), (im_blocks _ _ _ Him). cbn [f' snd]. rewrite Elen, (nb_block (Z.of_nat (length d)) (Z.of_nat (length d + n))); lia.
Qed.

(** ** The empty disk *)

Lemma mark_bits_spec n : (n <= 4096)%nat -> length (mark_bits n (replicate 512 0)) = 512%nat /\ bytes (mark_bits n (replicate 512 0)) /\
  forall c, 0 <= c < 4096 -> bit_free (mark_bits n (replicate 512 0)) c = negb (bool_decide (c < Z.of_nat n)).
Proof.
  induction n as [|n IH]; intros Hn.
  - split_and!; [done|by apply Forall_replicate|]. intros c Hc. rewrite bool_decide_eq_false_2 by lia. unfold bit_free, bit_byte.
    cbn [mark_bits]. destruct (replicate 512 0 !! _) as [a|] eqn:E; [apply lookup_replicate in E as [-> _]|]; by rewrite Z.land_0_l.
  - destruct (IH ltac:(lia)) as (H1 & H2 & H3). cbn [mark_bits]. split_and!.
    + by rewrite length_insert.
    + apply bytes_bit; [done|]. apply byte_lor; [by apply bit_byte_range|apply bit_mask_range].
    + intros c Hc. rewrite bit_set by (done || lia). destruct (decide (c = Z.of_nat n)) as [->|Hne].
      * symmetry. rewrite bool_decide_eq_true_2; [done|lia].
      * rewrite H3 by done. f_equal. apply bool_decide_ext. lia.
Qed.
(** A disk whose bitmap marks the first [n] blocks. *)
Definition marked (n : Z) (V : Z -> list Z) : Z -> list Z := updb 53 (mark_bits (Z.to_nat n) (replicate 512 0)) V.
Lemma used_marked n V c : 0 <= n <= 4096 -> 0 <= c < size -> used msb (marked n V) c = bool_decide (c < n).
Proof.
  intros Hn Hc. unfold used, marked. rewrite msb_bblock, updb_same by done. change size with 4049 in Hc. unfold BPB, BSIZE. rewrite Z.mod_small by lia.
  rewrite (proj2 (proj2 (mark_bits_spec (Z.to_nat n) ltac:(lia)))), negb_involutive by lia. by rewrite Z2Nat.id by lia.
Qed.
Definition empty_disk : Z -> list Z := marked 54 (fun x => if decide (x = 1) then sb_block else zeros).
Definition formatted : mkfs := Mkfs (<[1%nat := sb_block]> (replicate (Z.to_nat size) zeros)) 54 54 1.
Lemma sb_block_ok : length sb_block = 512%nat /\ bytes sb_block /\ decode_sb sb_block = msb.
Proof.
  split_and!; [by vm_compute| |by vm_compute]. apply Forall_forall. intros x Hx. assert (Hb : forallb (fun b => (0 <=? b) && (b <? 256)) sb_block = true) by (by vm_compute).
  rewrite forallb_forall in Hb. apply list_elem_of_In, Hb in Hx. lia.
Qed.
Lemma formatted_rep : mrep formatted empty_disk.
Proof.
  destruct sb_block_ok as (B1 & B2 & B3). destruct (mark_bits_spec 54 ltac:(lia)) as (M1 & M2 & _).
  assert (Hb : forall x, length (empty_disk x) = 512%nat /\ bytes (empty_disk x)).
  { intros x. unfold empty_disk, marked, updb. destruct (decide _); [done|]. destruct (decide _); [done|]. split; [done|]. by apply Forall_replicate. }
  split; cbn [formatted img freeblock usedblocks].
  - by rewrite length_insert, length_replicate.
  - intros x Hx Hn. unfold empty_disk, marked. rewrite updb_other by done. destruct (decide (x = 1)) as [->|H1].
    + apply list_lookup_insert_eq. rewrite length_replicate. change size with 4049. lia.
    + rewrite list_lookup_insert_ne by lia. apply lookup_replicate. split; [done|lia].
  - split; try done; [by intros x Hx; unfold mU; change (sb_size msb) with size in Hx; lia|by intros x _; apply Hb|].
    intros b Hbb. change (datastart msb) with 54 in Hbb. unfold empty_disk. rewrite used_marked by (change size with 4049; lia). apply bool_decide_eq_true_2. lia.
  - intros x _. apply Hb.
  - change size with 4049. lia.
  - done.
  - intros c Hc. apply used_marked; [lia|done].
  - intros c Hc. unfold empty_disk, marked. rewrite updb_other by lia. by rewrite decide_False by lia.
Qed.
Lemma formatted_image : image formatted empty_disk [].
Proof. split; [apply formatted_rep|done|done|done|by intros i f|]. intros i j x Hi. cbn in Hi. lia. Qed.
Lemma zero_loop n k s Q : length (img s) = k ->
  Q tt (set_img (img s ++ replicate n zeros) s) [] -> wp (for_each (seq k n) (fun i => wsect (Z.of_nat i) (replicate 512 0))) s Q.
Proof.
  revert k s Q. induction n as [|n IH]; intros k s Q Hk HQ; cbn [seq for_each].
  - apply wp_ret. revert HQ. cbn. rewrite app_nil_r. by destruct s.
  - apply wp_bind. unfold wsect. apply wp_bind, wp_get, wp_mod. rewrite Nat2Z.id, decide_False by lia. rewrite Hk, Nat.sub_diag. cbn [replicate app].
    apply IH; [cbn [img set_img]; rewrite length_app; cbn [length]; lia|]. cbn [img set_img]. rewrite <-app_assoc. exact HQ.
Qed.

(** ** What is on the disk *)

(** A directory with its two entries. *)
Definition spec_mkdir (name : list Z) (parent : nat) (fs : contents) : contents :=
  let i := length fs in
  let fs := append parent (dirent_of (Z.of_nat i + 1) name) (new_file T_DIR fs) in
  append i (dirent_of (Z.of_nat parent + 1) dotdot) (append i (dirent_of (Z.of_nat i + 1) dot) fs).
Definition ROOT : nat := 0.
Definition BIN : nat := 2.
Definition KEXTS : nat := 3.
Definition spec_root : contents :=
  append ROOT (dirent_of 1 dotdot) (append ROOT (dirent_of 1 dot) (new_file T_DIR [])).
Definition spec_tree : contents :=
  spec_mkdir str_kexts ROOT (spec_mkdir str_bin ROOT (spec_mkdir str_dev ROOT spec_root)).
Definition parent_index (arg : list Z) : nat :=
  let localpath := (split_arg arg).2 in
  if decide (localpath = [slash]) then ROOT else if decide (localpath = slash :: str_kexts ++ [slash]) then KEXTS else BIN.
Definition spec_copy (fs : contents) (f : list Z * list Z) : contents :=
  let i := length fs in
  append i f.2 (append (parent_index f.1) (dirent_of (Z.of_nat i + 1) (split_arg f.1).1) (new_file T_FILE fs)).
Definition spec_files (files : list (list Z * list Z)) : contents := foldl spec_copy spec_tree files.
Definition bytes_of (i : nat) (fs : contents) : list Z := default [] (snd <$> fs !! i).
Definition spec_fix (i : nat) (fs : contents) : contents := append i (padding (bytes_of i fs)) fs.
Definition spec_main (files : list (list Z * list Z)) : contents := spec_fix ROOT (spec_fix BIN (spec_files files)).

(** Contents that grew. *)
Definition grew (fs fs' : contents) : Prop :=
  forall i f, fs !! i = Some f -> exists f', fs' !! i = Some f' /\ (length f.2 <= length f'.2)%nat.
Lemma grew_trans fs1 fs2 fs3 : grew fs1 fs2 -> grew fs2 fs3 -> grew fs1 fs3.
Proof. intros H1 H2 i f Hf. destruct (H1 i f Hf) as (f2 & E2 & L2). destruct (H2 i f2 E2) as (f3 & E3 & L3). exists f3. split; [done|lia]. Qed.
Lemma grew_refl fs : grew fs fs.
Proof. intros i f Hf. by exists f. Qed.
Lemma grew_append i p fs : grew fs (append i p fs).
Proof.
  intros j f Hf. unfold append. destruct (decide (i = j)) as [->|Hne].
  - rewrite list_lookup_alter_eq, Hf. eexists. split; [done|]. cbn. rewrite length_app. lia.
  - rewrite list_lookup_alter_ne by done. by exists f.
Qed.
Lemma grew_new_file ty fs : grew fs (new_file ty fs).
Proof. intros j f Hf. exists f. split; [|done]. unfold new_file. rewrite lookup_app_l; [done|]. by eapply lookup_lt_Some. Qed.
Lemma grew_blocks fs fs' : grew fs fs' -> blocks_needed fs <= blocks_needed fs'.
Proof.
  revert fs'. induction fs as [|f fs IH]; intros fs' H.
  - clear H. induction fs' as [|g fs' IH']; [done|]. unfold blocks_needed in *. cbn [foldr] in *. assert (0 <= nb (Z.of_nat (length g.2))) by (unfold nb, one_if; destruct (_ <? _); lia_dm). lia.
  - destruct (H 0%nat f eq_refl) as (g & E & Hl). destruct fs' as [|g' fs']; [done|]. injection E as ->.
    assert (grew fs fs') as Hg by (intros i x Hx; apply (H (S i) x Hx)). specialize (IH fs' Hg). unfold blocks_needed in *. cbn [foldr]. pose proof (nb_mono (Z.of_nat (length f.2)) (Z.of_nat (length g.2)) ltac:(lia)). lia.
Qed.
Lemma fits_grew fs fs' : fits fs' -> grew fs fs' -> fits fs.
Proof.
  intros (F1 & F2 & F3) H. split_and!.
  - destruct (decide (length fs <= length fs')%nat) as [|Hgt]; [lia|]. destruct (lookup_lt_is_Some_2 fs (length fs')) as [f Hf]; [lia|].
    destruct (H _ _ Hf) as (f' & E & _). by apply lookup_lt_Some, Nat.lt_irrefl in E.
  - apply Forall_lookup. intros i f Hf. destruct (H i f Hf) as (f' & E & Hl). eapply Forall_lookup_1 in F2; [|exact E]. cbn in F2. lia.
  - pose proof (grew_blocks _ _ H). lia.
Qed.
Lemma grew_mkdir name parent fs : grew fs (spec_mkdir name parent fs).
Proof. unfold spec_mkdir. repeat (eapply grew_trans; [|apply grew_append]). apply grew_new_file. Qed.
Lemma grew_copy fs f : grew fs (spec_copy fs f).
Proof. unfold spec_copy. repeat (eapply grew_trans; [|apply grew_append]). apply grew_new_file. Qed.
Lemma grew_files fs files : grew fs (foldl spec_copy fs files).
Proof. revert fs. induction files as [|f files IH]; intros fs; [apply grew_refl|]. cbn. eapply grew_trans; [apply grew_copy|apply IH]. Qed.
#[local] Hint Resolve grew_refl grew_append grew_new_file grew_mkdir grew_copy grew_files : core.

Lemma length_append i p fs : length (append i p fs) = length fs.
Proof. apply length_alter. Qed.
Lemma length_new_file ty fs : length (new_file ty fs) = S (length fs).
Proof. unfold new_file. rewrite length_app. cbn. lia. Qed.
Lemma has_file i (fs : contents) : (i < length fs)%nat -> exists f, fs !! i = Some f.
Proof. intros H. by apply lookup_lt_is_Some. Qed.
Lemma dirent_bytes inum name : bytes name -> bytes (dirent_of inum name).
Proof. intros H. apply Forall_app. split; [apply le_bytes_range|by apply bytes_padn]. Qed.
Lemma append_at s V fs i p Q : image s V fs -> (i < length fs)%nat -> bytes p -> fits (append i p fs) ->
  (forall s' V', image s' V' (append i p fs) -> Q tt s' []) -> wp (iappend (Z.of_nat i + 1) p) s Q.
Proof. intros Him Hi. destruct (has_file i fs Hi) as [f Hf]. by apply (iappend_wp s V fs i f). Qed.

Lemma mkdir_wp s V fs name parent fs' Q : image s V fs -> (parent < length fs)%nat -> bytes name -> fits fs' -> grew (spec_mkdir name parent fs) fs' ->
  (forall s' V', image s' V' (spec_mkdir name parent fs) -> Q (Z.of_nat (length fs) + 1) s' []) -> wp (mkdir name (Z.of_nat parent + 1)) s Q.
Proof.
  intros Him Hp Hn Hfit Hg HQ. unfold mkdir, spec_mkdir in *. cbv zeta in *. pose proof (fits_grew _ _ Hfit Hg) as F4.
  pose proof (fits_grew _ _ F4 (grew_append _ _ _)) as F3. pose proof (fits_grew _ _ F3 (grew_append _ _ _)) as F2. pose proof (fits_grew _ _ F2 (grew_append _ _ _)) as F1.
  apply wp_bind. apply (ialloc_wp s V fs T_DIR); [done|unfold T_DIR; lia|done|]. intros s1 V1 H1.
  apply wp_bind. apply (append_at s1 V1 _ parent _ _ H1); [rewrite length_new_file; lia|by apply dirent_bytes|done|]. intros s2 V2 H2.
  apply wp_bind. apply (append_at s2 V2 _ (length fs) _ _ H2); [rewrite length_append, length_new_file; lia|apply dirent_bytes; by repeat constructor|done|]. intros s3 V3 H3.
  apply wp_bind. apply (append_at s3 V3 _ (length fs) _ _ H3); [rewrite !length_append, length_new_file; lia|apply dirent_bytes; by repeat constructor|done|]. intros s4 V4 H4.
  apply wp_ret. by apply (HQ s4 V4).
Qed.

Lemma append_nil i fs : append i [] fs = fs.
Proof. unfold append. apply list_alter_id. intros [t d]. cbn. by rewrite app_nil_r. Qed.
Lemma append_append i p q fs : append i q (append i p fs) = append i (p ++ q) fs.
Proof. unfold append. rewrite list_alter_alter_eq. apply list_alter_ext; [|done]. intros [t d] _. cbn. by rewrite app_assoc. Qed.
Lemma appends_wp ps : forall s V fs i Q, image s V fs -> (i < length fs)%nat -> Forall bytes ps -> fits (append i (concat ps) fs) ->
  (forall s' V', image s' V' (append i (concat ps) fs) -> Q tt s' []) -> wp (for_each ps (iappend (Z.of_nat i + 1))) s Q.
Proof.
  induction ps as [|p ps IH]; intros s V fs i Q Him Hi Hb Hfit HQ; cbn [concat for_each] in *.
  - apply wp_ret. apply (HQ s V). by rewrite append_nil.
  - apply Forall_cons in Hb as [Hp Hb]. rewrite <-append_append in *. apply wp_bind.
    apply (append_at s V fs i p _ Him Hi Hp); [by eapply fits_grew; [exact Hfit|apply grew_append]|]. intros s1 V1 H1.
    apply (IH s1 V1 _ i _ H1); [by rewrite length_append|done|done|]. exact HQ.
Qed.
Lemma pieces_concat n l : (length l <= n)%nat -> concat (pieces n l) = l.
Proof.
  revert l. induction n as [|n IH]; intros [|c l] Hl; cbn [length] in Hl; [done|lia|done|].
  change (concat (pieces (S n) (c :: l))) with (take 512 (c :: l) ++ concat (pieces n (drop 512 (c :: l)))). rewrite IH, take_drop; [done|]. rewrite length_drop. cbn [length]. lia.
Qed.
Lemma pieces_bytes n l : bytes l -> Forall bytes (pieces n l).
Proof.
  revert l. induction n as [|n IH]; intros l Hl; cbn [pieces]; [constructor|]. destruct l as [|c l]; [constructor|].
  constructor; [by apply Forall_take|]. apply IH. by apply Forall_drop.
Qed.
Lemma name_bytes arg : bytes arg -> bytes (split_arg arg).1.
Proof.
  intros H. unfold split_arg. assert (Hn : bytes (strip_fs arg)) by (unfold strip_fs; destruct (decide _); [by apply Forall_drop|done]).
  destruct (last_slash _); cbn; [by apply Forall_drop|done].
Qed.
(** The files named on the command line can be read. *)
Definition readable_file (f : list Z * list Z) : Prop := bytes f.1 /\ (length f.1 <= MAX_PATH_LEN)%nat /\ bytes f.2.
Definition given (f : list Z * list Z) : list Z * option (list Z) := (f.1, Some f.2).

Lemma copy_wp s V fs f fs' Q : image s V fs -> (3 < length fs)%nat -> readable_file f -> fits fs' -> grew (spec_copy fs f) fs' ->
  (forall s' V', image s' V' (spec_copy fs f) -> Q tt s' []) -> wp (copy_file 1 3 4 (given f)) s Q.
Proof.
  intros Him Hlen (B1 & B2 & B3) Hfit Hg HQ. pose proof (fits_grew _ _ Hfit Hg) as F3. unfold spec_copy in *. cbv zeta in *.
  pose proof (fits_grew _ _ F3 (grew_append _ _ _)) as F2. pose proof (fits_grew _ _ F2 (grew_append _ _ _)) as F1.
  destruct f as [arg data]. cbn [fst snd] in *. unfold copy_file, given. cbn [fst snd]. destruct (split_arg arg) as [name localpath] eqn:Es.
  rewrite decide_False by (unfold strip_fs; destruct (decide _); rewrite ?length_drop; lia).
  assert (Ep : parent_of localpath 1 3 4 = Z.of_nat (parent_index arg) + 1 /\ (parent_index arg < 4)%nat).
  { unfold parent_of, parent_index. rewrite Es. cbn [snd]. unfold ROOT, KEXTS, BIN. destruct (decide _); [split; [done|lia]|]. destruct (decide _); split; try done; lia. }
  destruct Ep as [Ep Hp]. rewrite Ep. pose proof (name_bytes arg B1) as Hn. rewrite Es in Hn. cbn [fst] in *.
  apply wp_bind. apply (ialloc_wp s V fs T_FILE); [done|unfold T_FILE; lia|done|]. intros s1 V1 H1.
  apply wp_bind. apply (append_at s1 V1 _ (parent_index arg) _ _ H1); [rewrite length_new_file; lia|by apply dirent_bytes|done|]. intros s2 V2 H2.
  apply (appends_wp _ s2 V2 _ (length fs) _ H2); rewrite ?length_append, ?length_new_file, ?pieces_concat by lia; [lia|by apply pieces_bytes|done|]. exact HQ.
Qed.
Lemma length_copy fs f : length (spec_copy fs f) = S (length fs).
Proof. unfold spec_copy. by rewrite !length_append, length_new_file. Qed.
Lemma length_mkdir name parent fs : length (spec_mkdir name parent fs) = S (length fs).
Proof. unfold spec_mkdir. by rewrite !length_append, length_new_file. Qed.
Lemma copies_wp files : forall s V fs fs' Q, image s V fs -> (3 < length fs)%nat -> Forall readable_file files -> fits fs' -> grew (foldl spec_copy fs files) fs' ->
  (forall s' V', image s' V' (foldl spec_copy fs files) -> Q tt s' []) -> wp (for_each (given <$> files) (copy_file 1 3 4)) s Q.
Proof.
  induction files as [|f files IH]; intros s V fs fs' Q Him Hl Hf Hfit Hg HQ; cbn [fmap list_fmap for_each foldl] in *; [by apply wp_ret, (HQ s V)|].
  apply Forall_cons in Hf as [Hf1 Hf]. apply wp_bind. apply (copy_wp s V fs f fs' _ Him Hl Hf1 Hfit); [by eapply grew_trans; [apply grew_files|]|].
  intros s1 V1 H1. apply (IH s1 V1 _ fs' _ H1); [rewrite length_copy; lia|done|done|done|]. exact HQ.
Qed.

Lemma format_wp fs' Q : fits fs' -> grew spec_root fs' -> (forall s' V', image s' V' spec_root -> Q 1 s' []) -> wp format start Q.
Proof.
  intros Hfit Hg HQ. unfold format. cbv zeta. pose proof (fits_grew _ _ Hfit Hg) as F3. unfold spec_root in F3.
  pose proof (fits_grew _ _ F3 (grew_append _ _ _)) as F2. pose proof (fits_grew _ _ F2 (grew_append _ _ _)) as F1.
  apply wp_bind, wp_mod, wp_bind. unfold check. change (nblocks + _ + nlog =? size) with true. apply wp_ret, wp_bind. cbv iota.
  apply zero_loop; [done|]. cbn [img set_blocks start app set_img]. apply wp_bind. unfold wsect. apply wp_bind, wp_get, wp_mod.
  rewrite decide_True by (cbn [img set_img]; rewrite length_replicate; vm_compute; lia).
  match goal with |- wp _ ?s _ => change s with formatted end.
  apply wp_bind. apply (ialloc_wp formatted empty_disk []); [apply formatted_image|unfold T_DIR; lia|done|]. intros s1 V1 H1.
  cbn [length]. change (Z.of_nat 0 + 1) with 1. apply wp_bind. change (1 =? ROOTINO) with true. apply wp_ret. cbv iota.
  apply wp_bind. apply (append_at s1 V1 _ 0 _ _ H1); [rewrite length_new_file; lia|apply dirent_bytes; by repeat constructor|done|]. intros s2 V2 H2.
  apply wp_bind. apply (append_at s2 V2 _ 0 _ _ H2); [rewrite length_append, length_new_file; lia|apply dirent_bytes; by repeat constructor|done|]. intros s3 V3 H3.
  apply wp_ret. by apply (HQ s3 V3).
Qed.

(** ** The finished disk *)

Definition disk (s : mkfs) (x : Z) : list Z := default [] (img s !! Z.to_nat x).
(** The disk [D], of which the first [n] blocks are in use, is a file system with the files [fs]. *)
Record file_system (D : Z -> list Z) (n : Z) (fs : contents) : Prop := {
  fsys_ok : fs_ok mU msb D;
  fsys_used : forall c, 0 <= c < size -> used msb D c = bool_decide (c < n);
  fsys_inode : forall i f, fs !! i = Some f -> describes (inode_at D i) f;
  fsys_file : forall i f, fs !! i = Some f -> file_ok msb D (inode_at D i) /\ dense D (inode_at D i) (i_size (inode_at D i)) /\
    content D (inode_at D i) 0 (length f.2) = f.2;
  fsys_disjoint : forall i j x, (i < length fs)%nat -> (j < length fs)%nat -> i <> j ->
    x ∈ owned D (inode_at D i) -> x ∉ owned D (inode_at D j);
}.

Lemma holds_content V ip d : holds V ip d -> Z.of_nat (length d) <= MAXBYTES -> content V ip 0 (length d) = d.
Proof.
  intros H Hl. apply list_eq. intros k. destruct (decide (k < length d)%nat) as [Hk|Hk].
  - rewrite lookup_content by done. rewrite (ho_bytes _ _ _ H) by lia. destruct (lookup_lt_is_Some_2 _ _ Hk) as [a Ha].
    replace (Z.to_nat (0 + Z.of_nat k)) with k by lia. by rewrite Ha.
  - rewrite !lookup_ge_None_2; [done|lia|rewrite length_content; lia].
Qed.
Lemma finished s V fs D : image s V fs -> Forall (fun f => Z.of_nat (length f.2) <= MAXBYTES) fs ->
  (forall x, 0 <= x < size -> D x = marked (freeblock s) V x) -> file_system D (freeblock s) fs.
Proof.
  intros Him Hl HD. pose proof (im_rep _ _ _ Him) as Hm. pose proof (mr_free _ _ Hm) as Hfr. pose proof (mr_ok _ _ Hm) as Hok. pose proof (im_max _ _ _ Him) as Hmax.
  assert (HV : forall x, 0 <= x < size -> x <> 53 -> D x = V x) by (intros x Hx Hn; rewrite HD by done; by apply updb_other).
  assert (Hu : forall c, 0 <= c < size -> used msb D c = bool_decide (c < freeblock s)).
  { intros c Hc. change size with 4049 in *. rewrite <-(used_marked (freeblock s) V c) by (change size with 4049; lia). unfold used. rewrite msb_bblock by (change size with 4049; lia). by rewrite HD by (change size with 4049; lia). }
  assert (Hin : forall i, (i < length fs)%nat -> inode_at D i = inode_at V i).
  { intros i Hi. unfold inode_at. pose proof (iblock_low i ltac:(lia)). rewrite HV; [done|change size with 4049; lia|lia]. }
  assert (Hfile : forall i f, fs !! i = Some f -> holds D (inode_at D i) f.2 /\ owned D (inode_at D i) = owned V (inode_at V i)).
  { intros i f Hf. rewrite Hin by (by eapply lookup_lt_Some). destruct (im_file _ _ _ Him i f Hf) as [Hh _]. apply (holds_same V); [done| |done].
    intros x Hx. pose proof (owned_low s V _ Hm (ho_file _ _ _ Hh) x Hx). split; [apply HV; lia|]. rewrite Hu by lia. apply bool_decide_eq_true_2. lia. }
  split.
  - apply (fs_ok_change mU msb V Hok).
    + rewrite HV by (done || (change size with 4049; lia)). apply Hok.
    + intros x Hx. destruct (decide (x = 53)) as [->|Hn]; [|rewrite HV by done; by apply (fo_bytes _ _ _ Hok)].
      rewrite HD by done. unfold marked. rewrite updb_same. change size with 4049 in *. apply (mark_bits_spec (Z.to_nat (freeblock s))). lia.
    + intros b Hb. change (datastart msb) with 54 in Hb. rewrite Hu by (change size with 4049; lia). apply bool_decide_eq_true_2. lia.
  - done.
  - intros i f Hf. rewrite Hin by (by eapply lookup_lt_Some). by apply (im_file _ _ _ Him).
  - intros i f Hf. destruct (Hfile i f Hf) as [Hh _]. split; [apply Hh|]. split; [|apply holds_content; [done|by eapply (Forall_lookup_1 _ _ i f) in Hl]].
    assert (Hd : describes (inode_at D i) f) by (rewrite Hin by (by eapply lookup_lt_Some); by apply (im_file _ _ _ Him)).
    replace (i_size (inode_at D i)) with (Z.of_nat (length f.2)) by (rewrite (proj2 Hd); done). apply Hh.
  - intros i j x Hi Hj Hne. destruct (has_file i fs Hi) as [f Hf], (has_file j fs Hj) as [g Hg].
    rewrite (proj2 (Hfile i f Hf)), (proj2 (Hfile j g Hg)). by apply (im_disjoint _ _ _ Him).
Qed.

Lemma mark_used_wp s V fs Q : image s V fs -> (forall s', (forall x, 0 <= x < size -> disk s' x = marked (freeblock s) V x) -> Q tt s' []) ->
  wp (balloc (i32 (usedblocks s))) s Q.
Proof.
  intros Him HQ. pose proof (im_rep _ _ _ Him) as Hm. pose proof (mr_free _ _ Hm) as Hfr. pose proof (mr_length _ _ Hm) as Hl. change size with 4049 in *.
  rewrite (mr_used _ _ Hm), i32_small_id by lia. unfold balloc, check. change (512 * 8) with 4096. rewrite (proj2 (Z.ltb_lt _ _)) by lia.
  apply wp_bind, wp_ret. change (ninodes / IPB + 3) with 53. unfold wsect. apply wp_bind, wp_get, wp_mod. rewrite decide_True by (rewrite Hl; lia).
  apply HQ. intros x Hx. unfold disk, marked, updb. cbn [img set_img]. destruct (decide (x = 53)) as [->|Hn].
  - rewrite list_lookup_insert_eq; [done|]. rewrite Hl. lia.
  - rewrite list_lookup_insert_ne by lia. by rewrite (mr_img _ _ Hm) by done.
Qed.
Lemma fix_wp s V fs i Q : image s V fs -> (i < length fs)%nat -> Z.of_nat (length (bytes_of i fs)) mod 512 <> 0 -> fits fs ->
  (forall s' V', image s' V' (spec_fix i fs) -> Q tt s' []) -> wp (fix_size (Z.of_nat i + 1)) s Q.
Proof.
  intros Him Hi Hmod (_ & F2 & _) HQ. destruct (has_file i fs Hi) as [f Hf]. unfold spec_fix, bytes_of in *. rewrite Hf in *. cbn in *.
  apply (fix_size_wp s V fs i f); [done|done|done|by eapply (Forall_lookup_1 _ _ i f) in F2|done].
Qed.


(** The files "fs/hi" and "bin/cat". *)
Definition demo_files : list (list Z * list Z) := [([102; 115; 47; 104; 105], [1; 2; 3]); ([98; 105; 110; 47; 99; 97; 116], replicate 600 7)].

(** A directory that ends at the end of a block: its padded size has a block that does not exist. *)
Lemma fix_size_gap :
  let dir := set_meta T_DIR 0 0 1 512 (60 :: replicate 28 0) zero_inode in
  exists s ip, (let! _ := fix_size 1 in rinode 1) (Mkfs [zeros; zeros; put_dinode dir 128 zeros] 61 61 2) = ([], Ret ip s) /\
    i_size ip = 1024 /\ addr_at ip 1 = 0.
Proof. eexists _, _. split; [vm_compute; reflexivity|]. split; vm_compute; reflexivity. Qed.
