(* ===== verification/FsDir.v ===== *)
(** * Directories and the inode cache

    [fs1_iget] as a search of the cache, [fs1_dirlookup] as a search of the entries of a
    directory, and [fs1_dirlink] followed by [fs1_dirlookup]. *)

From stdpp Require Import base list strings.
From Stdlib Require Import ZArith Lia.
From S2P Require Import Prelude CString Bytes Spinlock Disk Bio Cache Log LogSafety Store Fs FsBlocks FsFile FsRw.
Open Scope Z_scope.

(** ** The inode cache *)

(** The entry is in use for inode [inum] of device [dv]. *)
Definition caches (dv inum : Z) (ip : inode) : bool := (0 <? i_ref ip) && (i_dev ip =? dv) && (i_inum ip =? inum).

Definition first_index {A} (test : A -> bool) (l : list A) : option nat :=
  List.find (fun i => from_option test false (l !! i)) (seq 0 (length l)).

(** What [fs1_iget]'s scan finds: the entry of the inode, or else the first free slot. *)
Lemma iget_scan_from dv inum l i e :
  iget_scan dv inum l i e =
  match List.find (fun k => from_option (caches dv inum) false (l !! (k - i)%nat)) (seq i (length l)) with
  | Some k => inl k
  | None => inr (match e with
                 | Some _ => e
                 | None => List.find (fun k => from_option (fun ip => i_ref ip =? 0) false (l !! (k - i)%nat)) (seq i (length l))
                 end)
  end.
Proof.
  revert i e. induction l as [|ip l IH]; intros i e; [by destruct e|].
  cbn [iget_scan length seq List.find]. rewrite Nat.sub_diag. cbn [lookup list_lookup from_option].
  fold (caches dv inum ip). destruct (caches dv inum ip); [done|].
  assert (forall (t : inode -> bool), List.find (fun k => from_option t false ((ip :: l) !! (k - i)%nat)) (seq (i + 1) (length l)) =
    List.find (fun k => from_option t false (l !! (k - (i + 1))%nat)) (seq (i + 1) (length l))) as Hsh.
  { intros t. assert (forall k, k ∈ seq (i + 1) (length l) ->
      from_option t false ((ip :: l) !! (k - i)%nat) = from_option t false (l !! (k - (i + 1))%nat)) as Heq.
    { intros k Hk%elem_of_seq. replace (k - i)%nat with (S (k - (i + 1))) by lia. done. }
    revert Heq. generalize (seq (i + 1) (length l)). intros ks. induction ks as [|k ks IHk]; intros Heq; [done|].
    cbn [List.find]. rewrite Heq by (by apply elem_of_cons; left). destruct (from_option t false _); [done|].
    apply IHk. intros k' Hk'. apply Heq. by apply elem_of_cons; right. }
  replace (S i) with (i + 1)%nat by lia. rewrite !Hsh, IH. destruct (List.find _ (seq (i + 1) (length l))); [done|].
  f_equal. destruct e; [done|]. destruct (i_ref ip =? 0); [done|]. done.
Qed.

Lemma iget_scan_spec dv inum l : iget_scan dv inum l 0 None =
  match first_index (caches dv inum) l with
  | Some k => inl k
  | None => inr (first_index (fun ip => i_ref ip =? 0) l)
  end.
Proof.
  rewrite iget_scan_from. unfold first_index.
  assert (forall (t : inode -> bool), List.find (fun k => from_option t false (l !! (k - 0)%nat)) (seq 0 (length l)) =
    List.find (fun i => from_option t false (l !! i)) (seq 0 (length l))) as Hz.
  { intros t. generalize (seq 0 (length l)). intros ks. induction ks as [|k ks IH]; [done|].
    cbn [List.find]. rewrite Nat.sub_0_r, IH. done. }
  by rewrite !Hz.
Qed.

Lemma first_index_some {A} (t : A -> bool) l k : first_index t l = Some k ->
  exists x, l !! k = Some x /\ t x = true /\ forall j y, (j < k)%nat -> l !! j = Some y -> t y = false.
Proof.
  unfold first_index. intros H%find_from. destruct H as (H1 & H2 & H3).
  destruct (l !! k) as [x|] eqn:E; [|done]. exists x. split_and!; [done|done|].
  intros j y Hj Hy. specialize (H3 j). rewrite Hy in H3. apply H3. lia.
Qed.

Lemma first_index_none {A} (t : A -> bool) l : first_index t l = None -> forall j y, l !! j = Some y -> t y = false.
Proof.
  unfold first_index. intros H j y Hy. eapply List.find_none in H; [by rewrite Hy in H|].
  apply in_seq. apply lookup_lt_Some in Hy. lia.
Qed.

(** No inode is in use in two entries. *)
Definition icache_uniq (l : list inode) : Prop := forall i j p q, l !! i = Some p -> l !! j = Some q ->
  0 < i_ref p -> 0 < i_ref q -> i_dev p = i_dev q -> i_inum p = i_inum q -> i = j.

(** The cache after a successful [fs1_iget] of an inode, and the entry it returns. *)
Definition iget_pure (dv inum : Z) (l : list inode) : option (nat * list inode) :=
  match first_index (caches dv inum) l with
  | Some k => Some (k, alter (fun ip => set_ref (i32 (i_ref ip + 1)) ip) k l)
  | None => first_index (fun ip => i_ref ip =? 0) l ≫= fun k => Some (k, alter (recycle dv inum) k l)
  end.

Section iget.
Context {S : Type} `{HB : BlockOps S} `{HE : FsEnv S}.
Implicit Types (s : fsys S).

Lemma fs1_iget_run s dv inum k l : fs1_lock s = false -> iget_pure dv inum (fs1_icache s) = Some (k, l) ->
  fs1_iget dv inum s = ([], Ret (Fs1Inode k) (set_fs1_icache l s)).
Proof.
  intros Hlk Hp. unfold fs1_iget. erewrite kbind_pure by (by apply acquire_run).
  erewrite kbind_pure by reflexivity. cbn [lput fs1_lk fs1_icache set_fs1_lock].
  rewrite iget_scan_spec. unfold iget_pure in Hp. destruct (first_index (caches dv inum) _) as [j|].
  - injection Hp as <- <-. kstep. kstep. by destruct s; simpl in *; subst.
  - destruct (first_index _ (fs1_icache s)) as [j|]; [|done]. injection Hp as <- <-.
    kstep. kstep. by destruct s; simpl in *; subst.
Qed.

Lemma fs1_iget_full s dv inum : fs1_lock s = false -> iget_pure dv inum (fs1_icache s) = None ->
  stops (fs1_iget dv inum) s (Panicked "fs1_iget: no inodes") (fun _ _ => True).
Proof.
  intros Hlk Hp. unfold fs1_iget. apply stops_bind. eapply wp_of_run; [by apply acquire_run|].
  apply stops_bind, wp_gets. cbn [lput fs1_lk fs1_icache set_fs1_lock].
  rewrite iget_scan_spec. unfold iget_pure in Hp. destruct (first_index (caches dv inum) _); [done|].
  by destruct (first_index _ (fs1_icache s)).
Qed.
End iget.

(** What the pure search guarantees. *)
Lemma iget_pure_spec dv inum l k l' : iget_pure dv inum l = Some (k, l') ->
  Forall (fun p => 0 <= i_ref p < 2 ^ 31 - 1) l ->
  exists p p', l !! k = Some p /\ l' !! k = Some p' /\
    (forall j, j <> k -> l' !! j = l !! j) /\ i_dev p' = dv /\ i_inum p' = inum /\ i_ref p' = i_ref p + 1 /\
    (i_ref p = 0 \/ (i_dev p = dv /\ i_inum p = inum /\ 0 < i_ref p)) /\
    (i_ref p = 0 -> i_flags p' = 0) /\
    (i_ref p = 0 -> forall j q, l !! j = Some q -> 0 < i_ref q -> ~ (i_dev q = dv /\ i_inum q = inum)).
Proof.
  unfold iget_pure. intros Hp Hr. destruct (first_index (caches dv inum) l) as [j|] eqn:Ef.
  - injection Hp as <- <-. apply first_index_some in Ef as (p & Hpj & Hc & _).
    eapply Forall_lookup_1 in Hr as Hrj; [|done]. simpl in Hrj.
    unfold caches in Hc. apply andb_true_iff in Hc as [[H1%Z.ltb_lt H2%Z.eqb_eq]%andb_true_iff H3%Z.eqb_eq].
    exists p, (set_ref (i32 (i_ref p + 1)) p). split_and!; try done.
    + rewrite list_lookup_alter_eq, Hpj. done.
    + intros j' Hj'. by apply list_lookup_alter_ne.
    + simpl. apply signed_range; lia.
    + by right.
    + lia.
    + lia.
  - destruct (first_index (fun ip => i_ref ip =? 0) l) as [j|] eqn:Ee; [|done]. injection Hp as <- <-.
    apply first_index_some in Ee as (p & Hpj & Hc%Z.eqb_eq & _).
    exists p, (recycle dv inum p). split_and!; try done.
    + rewrite list_lookup_alter_eq, Hpj. done.
    + intros j' Hj'. by apply list_lookup_alter_ne.
    + simpl. lia.
    + by left.
    + intros _ j' q Hq Hqr [E1 E2]. pose proof (first_index_none _ _ Ef j' q Hq) as Hn. unfold caches in Hn.
      rewrite (proj2 (Z.ltb_lt _ _) Hqr), E1, E2, !Z.eqb_refl in Hn. done.
Qed.

(** The inode cache.  [fs1_iget] returns an entry for the inode asked for and adds one
    reference to it: the entry that already caches the inode, or else the first unused one,
    given to the inode with its flags cleared.  No other entry changes and no inode comes
    to be in use in two entries.  With no entry for the inode and none unused it panics. *)
Theorem iget_finds_or_recycles {S} `{HB : BlockOps S} `{HE : FsEnv S} (s : fsys S) dv inum :
  fs1_lock s = false -> icache_uniq (fs1_icache s) ->
  Forall (fun p => 0 <= i_ref p < 2 ^ 31 - 1) (fs1_icache s) ->
  match iget_pure dv inum (fs1_icache s) with
  | Some (k, l') =>
      fs1_iget dv inum s = ([], Ret (Fs1Inode k) (set_fs1_icache l' s)) /\ icache_uniq l' /\
      exists p p', fs1_icache s !! k = Some p /\ l' !! k = Some p' /\
        (forall j, j <> k -> l' !! j = fs1_icache s !! j) /\
        i_dev p' = dv /\ i_inum p' = inum /\ i_ref p' = i_ref p + 1 /\ (i_ref p = 0 -> i_flags p' = 0)
  | None => stops (fs1_iget dv inum) s (Panicked "fs1_iget: no inodes") (fun _ _ => True)
  end.
Proof.
  intros Hlk Hu Hr. destruct (iget_pure dv inum (fs1_icache s)) as [[k l']|] eqn:Ep; [|by apply fs1_iget_full].
  split; [by apply fs1_iget_run|].
  destruct (iget_pure_spec _ _ _ _ _ Ep Hr) as (p & p' & H1 & H2 & H3 & H4 & H5 & H6 & H7 & H8 & H9).
  split; [|exists p, p'; done].
  assert (forall j q, j <> k -> l' !! j = Some q -> 0 < i_ref q -> ~ (i_dev q = dv /\ i_inum q = inum)) as Hno.
  { intros j q Hj Hq Hqr. rewrite H3 in Hq by done. destruct H7 as [E|(E1 & E2 & E3)].
    - by eapply H9.
    - intros [F1 F2]. apply Hj. eapply (Hu j k q p); [done|done|done|done|congruence|congruence]. }
  intros i j a b Ha Hb Hra Hrb Hd Hi. destruct (decide (i = k)) as [->|Hik], (decide (j = k)) as [->|Hjk]; try done.
  - rewrite H2 in Ha. injection Ha as <-. exfalso. apply (Hno j b); [done|done|done|]. split; congruence.
  - rewrite H2 in Hb. injection Hb as <-. exfalso. apply (Hno i a); [done|done|done|]. split; congruence.
  - rewrite H3 in Ha, Hb by done. by eapply (Hu i j a b).
Qed.

Definition demo_inodes : list inode := [recycle 1 1 zero_inode; zero_inode; zero_inode].
Lemma iget_finds_or_recycles_witness : exists x : logsys memdisk,
  fs1_iget 1 7 (set_fs1_icache demo_inodes (demo_fsys x)) =
    ([], Ret (Fs1Inode 1) (set_fs1_icache [recycle 1 1 zero_inode; recycle 1 7 zero_inode; zero_inode]
                             (set_fs1_icache demo_inodes (demo_fsys x)))).
Proof.
  destruct demo_rep as [x _]. exists x.
  apply (iget_finds_or_recycles (set_fs1_icache demo_inodes (demo_fsys x)) 1 7).
  - reflexivity.
  - intros [|[|[|i]]] [|[|[|j]]] p q Hp Hq Hr1 Hr2; simpl in Hp, Hq; try discriminate Hp; try discriminate Hq;
      injection Hp as <-; injection Hq as <-; simpl in *; lia.
  - repeat constructor; simpl; lia.
Defined.

(** ** Directory entries *)

Definition dirent (V : Z -> list Z) (ip : inode) (k : nat) : list Z := content V ip (16 * Z.of_nat k) 16.

(** The entry is in use for [name]. *)
Definition matches (name de : list Z) : bool :=
  negb (de_inum de =? 0) && match sys_strncmp name (de_name de) DIRSIZ with Some c => c =? 0 | None => false end.

Definition entries_of (ip : inode) : nat := Z.to_nat (i_size ip / 16).
Definition dir_find (V : Z -> list Z) (ip : inode) (name : list Z) : option nat :=
  List.find (fun k => matches name (dirent V ip k)) (seq 0 (entries_of ip)).

Definition name_ok (name : list Z) : Prop := bytes name /\ readable DIRSIZ name.

(** A well-formed directory. *)
Record dir_ok (sb : fs1_superblock) (V : Z -> list Z) (ip : inode) : Prop := {
  do_type : i_type ip = T_DIR;
  do_size : 0 <= i_size ip <= MAXBYTES;
  do_align : i_size ip mod 16 = 0;
  do_file : file_ok sb V ip;
  do_dense : dense V ip (i_size ip);
}.

Lemma bytes_content U sb V ip o n : fs_ok U sb V -> file_ok sb V ip -> 0 <= o ->
  o + Z.of_nat n <= MAXBYTES -> bytes (content V ip o n).
Proof.
  intros Hok Hf Ho Hn. apply Forall_forall. intros b Hb. unfold content in Hb.
  apply list_elem_of_fmap in Hb as (k & -> & Hk%elem_of_seq). change MAXBYTES with 79872 in Hn.
  unfold fbyte. destruct (fblock V ip _ !! _) as [c|] eqn:E; simpl; [|lia].
  revert E. unfold fblock. destruct (Z.eqb_spec (faddr V ip ((o + Z.of_nat k) / BSIZE)) 0) as [E0|E0].
  - intros H%list_elem_of_lookup_2. apply elem_of_replicate in H as [-> _]. lia.
  - intros H. assert (bytes (V (faddr V ip ((o + Z.of_nat k) / BSIZE)))) as Hb.
    { apply (fo_bytes _ _ _ Hok), (data_U _ _ _ _ Hok). apply (a_range U sb V ip Hok Hf); [|done].
      change MAXFILE with 156. unfold BSIZE. lia_dm. }
    by eapply Forall_lookup_1 in Hb.
Qed.

Lemma strncmp_entry name de : name_ok name -> bytes de -> length de = 16%nat ->
  exists c, sys_strncmp name (de_name de) DIRSIZ = Some c /\ (c = 0 <-> cstrn DIRSIZ name = cstrn DIRSIZ (de_name de)).
Proof.
  intros [Hb Hr] Hd Hl. apply strncmp_zero; [done|by apply Forall_drop|done|].
  left. unfold de_name. rewrite length_drop, Hl. unfold DIRSIZ. lia.
Qed.

Lemma dir_entries sb V ip : dir_ok sb V ip -> i_size ip = 16 * Z.of_nat (entries_of ip) /\
  entry_offs (i_size ip) = (fun k => 16 * Z.of_nat k) <$> seq 0 (entries_of ip).
Proof.
  intros [_ Hs Ha _ _]. change MAXBYTES with 79872 in Hs. unfold entries_of. split; [lia_dm|].
  unfold entry_offs, DIRENT_SIZE. replace ((i_size ip + 16 - 1) / 16) with (i_size ip / 16) by lia_dm.
  apply list_fmap_ext. intros. lia.
Qed.

Section dirs.
Context {S : Type} `{HB : BlockOps S} `{HS : !BlockSpec S} `{HE : FsEnv S}.
Implicit Types (s : fsys S).
Context (cap : nat) (dv : Z) (U : Z -> Prop) (sb : fs1_superblock) (V W : Z -> list Z) (T : list Z).
Context (dp : iref) (ip : inode).
Context (Hok : fs_ok U sb V) (Hlen : forall x, U x -> length (V x) = 512%nat) (Hd : i_dev ip = dv)
  (Hdir : dir_ok sb V ip) (HT : (length T < NBUF)%nat).

(** The state after the block store was read. *)
Definition after_read s s' : Prop := exists y, s' = set_store y s /\ rep cap dv U y (BS V W T []).

Lemma read_dirent_wp s k : rep cap dv U (store s) (BS V W T []) -> lookup_inode s dp = Some ip ->
  mounted s dv -> (k < entries_of ip)%nat ->
  wp (read_dirent dp (16 * Z.of_nat k)) s (fun de s' _ => de = dirent V ip k /\ after_read s s').
Proof.
  intros Hr Hl Hm Hk. destruct (dir_entries _ _ _ Hdir) as [Hsz _]. unfold read_dirent. apply wp_bind.
  unfold readi. apply wp_bind. eapply get_inode_wp; [done|]. rewrite (do_type _ _ _ Hdir).
  change (T_DIR =? T_DEV) with false. cbv iota. rewrite Hd. apply by_fstype_wp; [done|].
  pose proof (do_size _ _ _ Hdir) as Hs. change MAXBYTES with 79872 in Hs. unfold DIRENT_SIZE.
  eapply wp_mono; [apply (readi_wp cap dv U sb V W T dp ip Hok Hlen Hd); try done; try apply Hdir; lia|].
  cbv beta. intros [n d] s' t (-> & -> & y & -> & Hy).
  replace (Z.min 16 (i_size ip - 16 * Z.of_nat k)) with 16 by lia. apply wp_ret.
  split; [done|]. by exists y.
Qed.

Lemma dirent_ok k : (k < entries_of ip)%nat -> bytes (dirent V ip k) /\ length (dirent V ip k) = 16%nat.
Proof.
  intros Hk. destruct (dir_entries _ _ _ Hdir) as [Hsz _]. pose proof (do_size _ _ _ Hdir) as Hs. split.
  - apply (bytes_content U sb); [done|apply Hdir|lia|lia].
  - apply length_content.
Qed.

(** The search: what [fs1_dirlookup] returns, from the entries of the directory. *)
Lemma dirlookup_wp s name : rep cap dv U (store s) (BS V W T []) -> lookup_inode s dp = Some ip ->
  mounted s dv -> fs1_lock s = false -> name_ok name ->
  (forall k, dir_find V ip name = Some k -> iget_pure dv (de_inum (dirent V ip k)) (fs1_icache s) <> None) ->
  wp (dirlookup dp name) s (fun res s' _ => exists y, rep cap dv U y (BS V W T []) /\
    match dir_find V ip name with
    | None => res = None /\ s' = set_store y s
    | Some k => exists j l, iget_pure dv (de_inum (dirent V ip k)) (fs1_icache s) = Some (j, l) /\
        res = Some (Fs1Inode j, 16 * Z.of_nat k) /\ s' = set_fs1_icache l (set_store y s)
    end).
Proof.
  intros Hr Hl Hm Hlk Hname Hig. unfold dirlookup. apply wp_bind. eapply get_inode_wp; [done|].
  rewrite Hd. apply by_fstype_wp; [done|]. unfold fs1_dirlookup. apply wp_bind. eapply get_inode_wp; [done|].
  rewrite (do_type _ _ _ Hdir). cbn [negb T_DIR Z.eqb Pos.eqb].
  destruct (dir_entries _ _ _ Hdir) as [Hsz Hoffs]. rewrite Hoffs.
  apply (wp_for_return _ _ (fun k s' => after_read s s' /\
    forall j, (j < k)%nat -> matches name (dirent V ip j) = false)
    (fun res s' => exists y, rep cap dv U y (BS V W T []) /\ match dir_find V ip name with
      | None => res = None /\ s' = set_store y s
      | Some k => exists j l, iget_pure dv (de_inum (dirent V ip k)) (fs1_icache s) = Some (j, l) /\
          res = Some (Fs1Inode j, 16 * Z.of_nat k) /\ s' = set_fs1_icache l (set_store y s)
      end)).
  - split; [|lia]. exists (store s). by rewrite set_store_same.
  - intros k x s1 Hx [(y & -> & Hy) Hpre]. rewrite list_lookup_fmap in Hx.
    destruct (seq 0 (entries_of ip) !! k) as [k'|] eqn:Ek; [|done]. apply lookup_seq in Ek as [-> Hk].
    injection Hx as <-. rewrite ?Nat.add_0_l. apply wp_bind.
    eapply wp_mono; [apply (read_dirent_wp (set_store y s) k); [done|by destruct dp|by destruct s|done]|].
    cbv beta. intros de s2 t2 (-> & y2 & -> & H2). change (set_store y2 (set_store y s)) with (set_store y2 s).
    destruct (dirent_ok k Hk) as [Hby Hl16].
    destruct (strncmp_entry name _ Hname Hby Hl16) as (c & Hc & _).
    assert (matches name (dirent V ip k) = negb (de_inum (dirent V ip k) =? 0) && (c =? 0)) as Hmt.
    { unfold matches. by rewrite Hc. }
    assert (matches name (dirent V ip k) = false -> forall j, (j < Datatypes.S k)%nat -> matches name (dirent V ip j) = false) as Hnext.
    { intros Hf j Hj. destruct (decide (j = k)) as [->|]; [done|]. apply Hpre. lia. }
    destruct (de_inum (dirent V ip k) =? 0) eqn:Ei.
    { apply wp_ret. split; [by exists y2|]. by apply Hnext. }
    unfold namecmp. rewrite Hc. cbn [or_fault]. apply wp_bind, wp_ret. destruct (c =? 0) eqn:Ec.
    2: { apply wp_ret. split; [by exists y2|]. by apply Hnext. }
    assert (dir_find V ip name = Some k) as Hfind by (apply find_seq_first; done).
    specialize (Hig k Hfind). destruct (iget_pure dv (de_inum (dirent V ip k)) (fs1_icache s)) as [[j l]|] eqn:Ep; [|done].
    rewrite Hd. apply wp_bind. eapply wp_of_run; [apply (fs1_iget_run (set_store y2 s) _ _ j l); [exact Hlk|exact Ep]|]. apply wp_ret.
    exists y2. split; [done|]. rewrite Hfind. exists j, l. done.
  - intros s1 [(y & -> & Hy) Hall]. exists y. split; [done|]. rewrite length_fmap, length_seq in Hall.
    assert (dir_find V ip name = None) as ->; [|done].
    unfold dir_find. destruct (List.find _ _) as [k|] eqn:Ef; [|done].
    apply find_from in Ef as (H1 & H2 & _). rewrite Hall in H2 by lia. done.
Qed.

(** The first unused entry, or the end of the directory. *)
Definition dir_hole : nat :=
  default (entries_of ip) (List.find (fun k => de_inum (dirent V ip k) =? 0) (seq 0 (entries_of ip))).

Lemma hole_wp s : rep cap dv U (store s) (BS V W T []) -> lookup_inode s dp = Some ip -> mounted s dv ->
  wp (for_return (entry_offs (i_size ip)) (fun off =>
        let! de := read_dirent dp off in
        if de_inum de =? 0 then kret (Some off) else kret None)) s
    (fun res s' _ => after_read s s' /\
       16 * Z.of_nat dir_hole = match res with
                                | Some off => off
                                | None => Z.of_nat (length (entry_offs (i_size ip))) * DIRENT_SIZE
                                end).
Proof.
  intros Hr Hl Hm. destruct (dir_entries _ _ _ Hdir) as [Hsz Hoffs]. rewrite Hoffs.
  apply (wp_for_return _ _ (fun k s' => after_read s s' /\
    forall j, (j < k)%nat -> (de_inum (dirent V ip j) =? 0) = false)
    (fun res s' => after_read s s' /\ 16 * Z.of_nat dir_hole = match res with
       | Some off => off
       | None => Z.of_nat (length ((fun k => 16 * Z.of_nat k) <$> seq 0 (entries_of ip))) * DIRENT_SIZE
       end)).
  - split; [|lia]. exists (store s). by rewrite set_store_same.
  - intros k x s1 Hx [(y & -> & Hy) Hpre]. rewrite list_lookup_fmap in Hx.
    destruct (seq 0 (entries_of ip) !! k) as [k'|] eqn:Ek; [|done]. apply lookup_seq in Ek as [-> Hk].
    injection Hx as <-. rewrite ?Nat.add_0_l. apply wp_bind.
    eapply wp_mono; [apply (read_dirent_wp (set_store y s) k); [done|by destruct dp|by destruct s|done]|].
    cbv beta. intros de s2 t2 (-> & y2 & -> & H2). change (set_store y2 (set_store y s)) with (set_store y2 s).
    destruct (de_inum (dirent V ip k) =? 0) eqn:Ei; apply wp_ret.
    + split; [by exists y2|]. unfold dir_hole.
      rewrite (find_seq_first _ _ k); [done|done|done|done].
    + split; [by exists y2|]. intros j Hj. destruct (decide (j = k)) as [->|]; [done|]. apply Hpre. lia.
  - intros s1 [Ha Hall]. split; [done|]. rewrite length_fmap, length_seq in *. unfold dir_hole, DIRENT_SIZE.
    destruct (List.find _ _) as [k|] eqn:Ef; [|simpl; lia].
    apply find_from in Ef as (H1 & H2 & _). rewrite Hall in H2 by lia. done.
Qed.
End dirs.

(** ** Adding an entry *)

Section linked.
Context (U : Z -> Prop) (sb : fs1_superblock) (V V' : Z -> list Z) (ip ip' : inode) (k0 : nat) (d : list Z).
Context (Hok : fs_ok U sb V) (Hdir : dir_ok sb V ip) (Hld : length d = 16%nat) (Hk0 : (k0 <= entries_of ip)%nat)
  (Hmax : 16 * Z.of_nat k0 + 16 <= MAXBYTES)
  (Hw : write_result U sb V ip V' ip' (16 * Z.of_nat k0) d).

Lemma linked_size : i_size ip' = Z.max (i_size ip) (16 * Z.of_nat k0 + 16).
Proof. rewrite (wi_same _ _ _ _ _ _ _ _ Hw), Hld. done. Qed.

Lemma linked_entries : entries_of ip' = Nat.max (entries_of ip) (S k0).
Proof.
  destruct (dir_entries _ _ _ Hdir) as [Hsz _]. unfold entries_of at 1. rewrite linked_size, Hsz. lia_dm.
Qed.

Lemma linked_dir_ok : dir_ok sb V' ip'.
Proof.
  destruct (dir_entries _ _ _ Hdir) as [Hsz _]. pose proof (do_size _ _ _ Hdir) as Hs. split.
  - rewrite (wi_same _ _ _ _ _ _ _ _ Hw). apply Hdir.
  - rewrite linked_size. lia.
  - rewrite linked_size, Hsz. lia_dm.
  - apply Hw.
  - apply Hw, Hdir.
Qed.

Lemma dirent_eq k (f : Z -> Z) (g : nat -> Z) : (forall j, (j < 16)%nat -> f (16 * Z.of_nat k + Z.of_nat j) = g j) ->
  ((fun i => f (16 * Z.of_nat k + Z.of_nat i)) <$> seq 0 16) = g <$> seq 0 16.
Proof. intros H. apply list_fmap_ext. intros i x [-> Hx]%lookup_seq. by apply H. Qed.

Lemma linked_new : dirent V' ip' k0 = d.
Proof.
  unfold dirent, content. rewrite (dirent_eq k0 (fbyte V' ip') (fun j => default 0 (d !! j))).
  - apply list_eq. intros j. destruct (decide (j < 16)%nat) as [Hj|Hj].
    + rewrite list_lookup_fmap, lookup_seq_lt by done. simpl.
      destruct (lookup_lt_is_Some_2 d j) as [b Hb]; [lia|]. by rewrite Hb.
    + rewrite !lookup_ge_None_2; [done|lia|]. rewrite length_fmap, length_seq. lia.
  - intros j Hj. change MAXBYTES with 79872 in Hmax.
    rewrite (wi_bytes _ _ _ _ _ _ _ _ Hw) by (change MAXBYTES with 79872; lia).
    unfold patched. rewrite decide_True by (rewrite Hld; lia). do 2 f_equal. lia.
Qed.

Lemma linked_old k : (k < entries_of ip)%nat -> k <> k0 -> dirent V' ip' k = dirent V ip k.
Proof.
  intros Hk Hne. destruct (dir_entries _ _ _ Hdir) as [Hsz _]. pose proof (do_size _ _ _ Hdir) as Hs.
  change MAXBYTES with 79872 in *. unfold dirent, content.
  apply (dirent_eq k (fbyte V' ip') (fun j => fbyte V ip (16 * Z.of_nat k + Z.of_nat j))).
  intros j Hj. rewrite (wi_bytes _ _ _ _ _ _ _ _ Hw) by (change MAXBYTES with 79872; lia).
  unfold patched. rewrite decide_False by (rewrite Hld; lia). done.
Qed.

(** The new name is found where it was put; every other name as before. *)
Lemma linked_find name inum : name_ok name -> dir_find V ip name = None ->
  ((k0 < entries_of ip)%nat -> de_inum (dirent V ip k0) = 0) ->
  de_inum d = inum -> inum <> 0 -> bytes d -> cstrn DIRSIZ (de_name d) = cstrn DIRSIZ name ->
  dir_find V' ip' name = Some k0 /\
  forall u, name_ok u -> cstrn DIRSIZ u <> cstrn DIRSIZ name ->
    dir_find V' ip' u = dir_find V ip u /\
    (forall k, dir_find V ip u = Some k -> dirent V' ip' k = dirent V ip k).
Proof.
  intros Hname Hnone Hfree Hinum Hnz Hbd Hcs.
  assert (forall u, name_ok u -> matches u d = true <-> cstrn DIRSIZ u = cstrn DIRSIZ name) as Hmd.
  { intros u Hu. destruct (strncmp_entry u d Hu Hbd Hld) as (c & Hc & Hc0). unfold matches.
    rewrite Hinum, (proj2 (Z.eqb_neq _ _) Hnz), Hc. cbn [negb andb]. rewrite Z.eqb_eq, Hc0, Hcs. done. }
  split.
  - apply find_seq_first.
    + rewrite linked_entries. lia.
    + rewrite linked_new. by apply Hmd.
    + intros j Hj. rewrite linked_old by lia. unfold dir_find in Hnone.
      eapply (List.find_none _ _ Hnone j). apply in_seq. lia.
  - intros u Hu Hne.
    assert (matches u d = false) as Hud by (apply not_true_is_false; by rewrite Hmd).
    assert (forall k, (k < entries_of ip)%nat -> matches u (dirent V' ip' k) = matches u (dirent V ip k)) as Heq.
    { intros k Hk. destruct (decide (k = k0)) as [->|Hk'].
      - rewrite linked_new, Hud. unfold matches. rewrite Hfree by done. done.
      - by rewrite linked_old. }
    destruct (dir_find V ip u) as [k|] eqn:Ef.
    + pose proof Ef as (H1 & H2 & H3)%find_from. split.
      * apply find_seq_first; [rewrite linked_entries; lia|rewrite Heq by lia; done|].
        intros j Hj. rewrite Heq by lia. apply H3. lia.
      * intros k' [= <-]. apply linked_old; [lia|]. intros ->.
        unfold matches in H2. rewrite Hfree in H2 by lia. done.
    + split; [|done]. unfold dir_find. destruct (List.find _ _) as [k|] eqn:Ef'; [|done].
      apply find_from in Ef' as (H1 & H2 & _). rewrite linked_entries in H1.
      destruct (decide (k < entries_of ip)%nat) as [Hk|Hk].
      * rewrite Heq in H2 by done. unfold dir_find in Ef.
        assert (matches u (dirent V ip k) = false) by (apply (List.find_none _ _ Ef k); apply in_seq; lia). congruence.
      * replace k with k0 in H2 by lia. rewrite linked_new, Hud in H2. done.
Qed.
End linked.

Lemma make_dirent_ok name inum : name_ok name -> 0 <= inum < 2 ^ 16 ->
  let d := make_dirent inum (padn DIRSIZ name) in
  length d = 16%nat /\ bytes d /\ de_inum d = inum /\ cstrn DIRSIZ (de_name d) = cstrn DIRSIZ name.
Proof.
  intros [Hb Hr] Hi d. unfold d, make_dirent. split_and!.
  - rewrite length_app, length_le_bytes, length_padn. done.
  - apply Forall_app. split; [apply le_bytes_range|by apply bytes_padn].
  - unfold de_inum, get16, get_le, slice. rewrite drop_0, take_app_le by (by rewrite length_le_bytes).
    rewrite take_ge by (by rewrite length_le_bytes). rewrite le_int_bytes. by apply Z.mod_small.
  - unfold de_name. rewrite drop_app_ge by (by rewrite length_le_bytes). rewrite length_le_bytes. simpl.
    apply cstrn_padn.
Qed.

Lemma entry_cost sb k : log_cost sb (16 * Z.of_nat k / BSIZE) ((16 * Z.of_nat k + 16 + BSIZE - 1) / BSIZE) =
    (Z.to_nat (sb_size sb / BPB + 1) + 2)%nat /\ blocks_of (16 * Z.of_nat k) 16 = 1%nat.
Proof.
  unfold log_cost, blocks_of, BSIZE. cbn [Z.leb Z.compare]. split.
  - assert ((16 * Z.of_nat k + 16 + 512 - 1) / 512 - 16 * Z.of_nat k / 512 = 1) as -> by lia_dm. lia.
  - assert ((16 * Z.of_nat k + 16 - 1) / 512 - 16 * Z.of_nat k / 512 + 1 = 1) as -> by lia_dm. done.
Qed.

(** The cache has an entry for the inode or an unused one. *)
Definition has_room (dv inum : Z) (l : list inode) : Prop :=
  exists k p, l !! k = Some p /\ (caches dv inum p = true \/ i_ref p = 0).

Lemma room_iget dv inum l : has_room dv inum l -> exists j l', iget_pure dv inum l = Some (j, l').
Proof.
  intros (k & p & Hk & Hp). unfold iget_pure.
  destruct (first_index (caches dv inum) l) as [j|] eqn:E1; [by eexists _, _|].
  destruct (first_index (fun ip => i_ref ip =? 0) l) as [j|] eqn:E2; [by eexists _, _|]. exfalso.
  pose proof (first_index_none _ _ E1 k p Hk) as H1. pose proof (first_index_none _ _ E2 k p Hk) as H2%Z.eqb_neq.
  destruct Hp; congruence.
Qed.

Lemma room_put {S} (s : fsys S) r ip ip' y dv inum : lookup_inode s r = Some ip ->
  i_ref ip' = i_ref ip -> i_dev ip' = i_dev ip -> i_inum ip' = i_inum ip ->
  has_room dv inum (fs1_icache s) -> has_room dv inum (fs1_icache (put s r ip' y)).
Proof.
  intros Hl H1 H2 H3 (k & p & Hk & Hp). destruct r as [i|i]; [|by exists k, p].
  simpl in *. exists k. destruct (decide (k = i)) as [->|Hne].
  - exists ip'. rewrite list_lookup_alter_eq, Hk. split; [done|]. rewrite Hl in Hk. injection Hk as ->.
    unfold caches in *. by rewrite H1, H2, H3.
  - exists p. by rewrite list_lookup_alter_ne.
Qed.

Section link.
Context {S : Type} `{HB : BlockOps S} `{HS : !BlockSpec S} `{HE : FsEnv S}.
Implicit Types (s : fsys S).
Context (cap : nat) (dv : Z) (U : Z -> Prop) (sb : fs1_superblock) (V W : Z -> list Z) (T : list Z).
Context (dp : iref) (ip : inode).

(** A directory that can take another entry: the transaction has room, two blocks are free
    and the file can grow. *)
Record linkable s : Prop := {
  lk_rep : rep cap dv U (store s) (BS V W T []);
  lk_ok : fs_ok U sb V;
  lk_ip : lookup_inode s dp = Some ip;
  lk_dev : i_dev ip = dv;
  lk_mounted : mounted s dv;
  lk_unlocked : fs1_lock s = false;
  lk_inum : 0 <= i_inum ip < sb_ninodes sb;
  lk_inode : inode_ok ip;
  lk_dir : dir_ok sb V ip;
  lk_cap : (length T + Z.to_nat (sb_size sb / BPB + 1) + 8 <= cap)%nat;
  lk_bufs : (length T + Z.to_nat (sb_size sb / BPB + 1) + 7 < NBUF)%nat;
  lk_free : (2 <= nfree sb V)%nat;
  lk_max : 16 * Z.of_nat (dir_hole V ip) + 16 <= MAXBYTES;
}.

Lemma hole_range : (dir_hole V ip <= entries_of ip)%nat /\
  ((dir_hole V ip < entries_of ip)%nat -> de_inum (dirent V ip (dir_hole V ip)) = 0).
Proof.
  unfold dir_hole. destruct (List.find _ _) as [k|] eqn:E; simpl; [|lia].
  apply find_from in E as (H1 & H2 & _). split; [lia|]. intros _. by apply Z.eqb_eq.
Qed.

Lemma dirlink_wp s name inum : linkable s -> name_ok name -> dir_find V ip name = None -> 0 < inum < 2 ^ 16 ->
  wp (dirlink dp name inum) s (fun ret s' _ => ret = 0 /\
    exists y V' T' ip', s' = put s dp ip' y /\ rep cap dv U y (BS V' W T' []) /\
      (length T' < NBUF)%nat /\
      write_result U sb V ip V' ip' (16 * Z.of_nat (dir_hole V ip)) (make_dirent inum (padn DIRSIZ name))).
Proof.
  intros [Hr Hok Hl Hd Hm Hlk Hin Hio Hdir Hcap Hbufs Hnf Hmax] Hname Hnone Hinum.
  assert (forall x, U x -> length (V x) = 512%nat) as Hlen by (intros x; by apply (rep_len _ _ _ _ _ _ Hr)).
  destruct (entry_cost sb (dir_hole V ip)) as [Hcost Hblk]. destruct hole_range as [Hh _].
  destruct (dir_entries _ _ _ Hdir) as [Hsz _]. pose proof (do_size _ _ _ Hdir) as Hs. change MAXBYTES with 79872 in *.
  destruct (make_dirent_ok name inum Hname ltac:(lia)) as (Hd1 & Hd2 & _).
  unfold dirlink. apply wp_bind. eapply get_inode_wp; [done|]. rewrite Hd. apply by_fstype_wp; [done|].
  unfold fs1_dirlink. apply wp_bind. eapply wp_mono.
  { apply (dirlookup_wp cap dv U sb V W T dp ip Hok Hlen Hd Hdir ltac:(lia) s name); try done.
    rewrite Hnone. done. }
  cbv beta. intros res s1 t1 (y1 & H1 & Hres). rewrite Hnone in Hres. destruct Hres as [-> ->].
  assert (lookup_inode (set_store y1 s) dp = Some ip) as Hl1 by (by destruct dp).
  apply wp_bind. eapply get_inode_wp; [exact Hl1|].
  apply wp_bind. eapply wp_mono.
  { apply (hole_wp cap dv U sb V W T dp ip Hok Hlen Hd Hdir ltac:(lia) (set_store y1 s)); [done|done|by destruct s]. }
  cbv beta. intros hole s2 t2 [(y2 & -> & H2) Hhole]. change (set_store y2 (set_store y1 s)) with (set_store y2 s).
  cbv zeta. rewrite <-Hhole.
  assert (sys_strncpy (replicate DIRSIZ 0) name (Z.of_nat DIRSIZ) = Some (padn DIRSIZ name)) as Hcpy.
  { rewrite strncpy_spec by (done || apply Hname). by rewrite drop_replicate, Nat.sub_diag, app_nil_r. }
  rewrite Hcpy. cbn [or_fault]. apply wp_bind, wp_ret. unfold u16. rewrite Z.mod_small by lia.
  apply wp_bind. assert (lookup_inode (set_store y2 s) dp = Some ip) as Hl2 by (by destruct dp).
  unfold writei. apply wp_bind. eapply get_inode_wp; [exact Hl2|]. rewrite (do_type _ _ _ Hdir).
  change (T_DIR =? T_DEV) with false. cbv iota. rewrite Hd. apply by_fstype_wp; [by destruct s|].
  unfold DIRENT_SIZE. rewrite (put_store_eq s dp ip y2 Hl).
  assert (lookup_inode (put s dp ip y2) dp = Some ip) as Hl3 by (by eapply put_lookup).
  eapply wp_mono.
  { eapply (writei_wp cap dv U sb V W T (put s dp ip y2) dp ip (make_dirent inum (padn DIRSIZ name))
      (16 * Z.of_nat (dir_hole V ip)) 16); rewrite ?put_store, ?Hcost, ?Hblk, ?Hd1; try done; try lia;
      [by apply mounted_put|apply Hdir|change MAXBYTES with 79872; lia..]. }
  cbv beta. rewrite Hcost. intros ret s3 t3 (-> & y3 & V3 & T3 & ip3 & -> & H3 & HT3 & Hw).
  rewrite put_put. apply wp_ret. split; [done|]. exists y3, V3, T3, ip3. split_and!; [done|done|lia|].
  rewrite take_ge in Hw by (by rewrite Hd1). done.
Qed.

End link.

Lemma demo_dir_ok : dir_ok demo_sb demo_disk demo_ip.
Proof.
  split; [reflexivity|change (0 <= 32 <= 79872); lia|reflexivity|exact demo_file_ok|exact demo_dense].
Qed.

Lemma demo_linkable x : rep 15 1 demo_dev x (BS demo_disk demo_disk [] []) ->
  linkable 15 1 demo_dev demo_sb demo_disk demo_disk [] (Fs1Inode 0) demo_ip (demo_state x).
Proof.
  intros Hx. split.
  - exact Hx.
  - exact demo_fs_ok.
  - reflexivity.
  - reflexivity.
  - reflexivity.
  - reflexivity.
  - simpl; lia.
  - exact demo_inode_ok.
  - exact demo_dir_ok.
  - vm_compute. lia.
  - vm_compute. lia.
  - vm_compute. repeat constructor.
  - vm_compute. discriminate.
Qed.

