(* ===== verification/Path.v ===== *)
(** * Path names: kernel/vfs.c

    [skipelem] against the splitting of a path at its slashes, and path resolution on the
    small file system. *)

From stdpp Require Import base list strings.
From Stdlib Require Import ZArith Lia.
From S2P Require Import Prelude CString Bytes Spinlock Disk Log Store Fs FsBlocks.
Open Scope Z_scope.

(** ** The elements of a path *)

(** The pieces between slashes, empty ones included. *)
Fixpoint split_slash (s : list Z) : list (list Z) :=
  match s with
  | [] => [[]]
  | c :: s' =>
      if c =? 47 then [] :: split_slash s'
      else match split_slash s' with w :: ws => (c :: w) :: ws | [] => [[c]] end
  end.
Definition elems (s : list Z) : list (list Z) := filter (fun w => w <> []) (split_slash s).

Lemma split_slash_cons s : exists w ws, split_slash s = w :: ws.
Proof.
  destruct s as [|c s]; simpl; [by eexists _, _|]. destruct (c =? 47); [by eexists _, _|].
  destruct (split_slash s); by eexists _, _.
Qed.

Lemma elems_slash s : elems (47 :: s) = elems s.
Proof. unfold elems. simpl. by rewrite filter_cons_False by (intros H; by apply H). Qed.

(** A path without leading slash: its first element and the rest. *)
Lemma elems_first e s : e <> [] -> Forall (fun c => c <> 47) e -> (s = [] \/ head s = Some 47) ->
  elems (e ++ s) = e :: elems s.
Proof.
  intros Hne He Hs. assert (exists ws, split_slash (e ++ s) = e :: ws /\ filter (fun w => w <> []) ws = elems s) as (ws & E1 & E2).
  { clear Hne. induction He as [|c e Hc _ IH]; simpl.
    - destruct Hs as [->|Hs]; [by exists []|]. destruct s as [|c s]; [done|]. injection Hs as ->.
      simpl. exists (split_slash s). split; [done|]. symmetry. apply elems_slash.
    - destruct IH as (ws & IH & Hf). rewrite (proj2 (Z.eqb_neq _ _) Hc), IH. by exists ws. }
  unfold elems. rewrite E1, filter_cons_True by done. by rewrite E2.
Qed.

(** ** The loops of [skipelem] *)

Lemma cstr_cons c s : cstr (c :: s) = if c =? 0 then [] else c :: cstr s.
Proof. done. Qed.

Lemma skip_slashes_spec p : 0 ∈ p -> exists q, skip_slashes p = Some q /\ 0 ∈ q /\
  elems (cstr q) = elems (cstr p) /\ head q <> Some 47 /\ (length q <= length p)%nat.
Proof.
  induction p as [|c p IH]; intros Hz; [by apply not_elem_of_nil in Hz|]. simpl skip_slashes.
  destruct (Z.eqb_spec c 47) as [->|Hc].
  - apply elem_of_cons in Hz as [Hz|Hz]; [done|]. destruct (IH Hz) as (q & H1 & H2 & H3 & H4 & H5).
    exists q. split_and!; [done|done| |done|simpl; lia]. rewrite H3, cstr_cons. simpl. by rewrite elems_slash.
  - exists (c :: p). split_and!; [done|done|done| |done]. simpl. congruence.
Qed.

Lemma span_elem_spec p : 0 ∈ p -> exists e rest, span_elem p = Some (e, rest) /\ p = e ++ rest /\
  Forall (fun c => c <> 47 /\ c <> 0) e /\ (head rest = Some 47 \/ head rest = Some 0) /\ 0 ∈ rest.
Proof.
  induction p as [|c p IH]; intros Hz; [by apply not_elem_of_nil in Hz|]. simpl span_elem.
  destruct (Z.eqb_spec c 47) as [->|Hc]; cbn [orb].
  { exists [], (47 :: p). split_and!; try done. by left. }
  destruct (Z.eqb_spec c 0) as [->|Hc0]; cbn [orb].
  { exists [], (0 :: p). split_and!; try done. by right. }
  apply elem_of_cons in Hz as [Hz|Hz]; [done|]. destruct (IH Hz) as (e & rest & H1 & -> & H3 & H4 & H5).
  exists (c :: e), rest. rewrite H1. split_and!; try done. by constructor.
Qed.

Lemma cstr_app e s : Forall (fun c => c <> 47 /\ c <> 0) e -> cstr (e ++ s) = e ++ cstr s.
Proof. intros He. apply cstr_nonzero_app. eapply Forall_impl; [done|]. by intros c [_ ?]. Qed.

Lemma name_set name e : length name = DIRSIZ -> Forall (fun c => c <> 47 /\ c <> 0) e ->
  let name' := if decide (DIRSIZ <= length e)%nat then splice name 0 (take DIRSIZ e) else splice name 0 (e ++ [0]) in
  length name' = DIRSIZ /\ cstrn DIRSIZ name' = take DIRSIZ e.
Proof.
  intros Hn He name'. unfold name', cstrn. destruct (decide (DIRSIZ <= length e)%nat) as [Hl|Hl].
  - assert (length (take DIRSIZ e) = DIRSIZ) as Ht by (rewrite length_take; lia).
    unfold splice. rewrite take_0, drop_ge, app_nil_r by (rewrite Ht, Hn; lia). split; [done|].
    simpl app. rewrite (take_ge (take DIRSIZ e)) by (rewrite Ht; lia).
    rewrite <-(app_nil_r (take DIRSIZ e)) at 1. rewrite cstr_app by (by apply Forall_take). apply app_nil_r.
  - rewrite length_splice by (rewrite length_app, Hn; simpl; lia). split; [done|].
    rewrite (take_ge (splice _ _ _)) by (rewrite length_splice; rewrite ?length_app, Hn; simpl; lia).
    unfold splice. rewrite take_0. simpl app. rewrite <-app_assoc, cstr_app by done. simpl.
    by rewrite app_nil_r, take_ge by lia.
Qed.

(** Path elements.  On a terminated path [skipelem] returns null, leaving the name
    buffer alone, exactly when the path has no element; otherwise it puts the first element,
    cut to DIRSIZ characters, into the buffer and returns a shorter path that has exactly
    the remaining elements, starts with no slash and is empty only when none remain. *)
Theorem skipelem_splits path name :
  0 ∈ path -> length name = DIRSIZ ->
  match elems (cstr path) with
  | [] => skipelem path name = Some (None, name)
  | e :: es => exists p name', skipelem path name = Some (Some p, name') /\
      length name' = DIRSIZ /\ cstrn DIRSIZ name' = take DIRSIZ e /\
      0 ∈ p /\ elems (cstr p) = es /\ head p <> Some 47 /\ (head p = Some 0 <-> es = []) /\
      (length p < length path)%nat
  end.
Proof.
  intros Hz Hn. destruct (skip_slashes_spec path Hz) as (q & H1 & H2 & H3 & H4 & H5).
  unfold skipelem. rewrite H1, <-H3. cbn [mbind option_bind].
  destruct q as [|c q]; [by apply not_elem_of_nil in H2|]. simpl head in *.
  destruct (decide (c = 0)) as [->|Hc].
  { rewrite bool_decide_eq_true_2 by done. done. }
  rewrite bool_decide_eq_false_2 by (simpl; congruence).
  destruct (span_elem_spec (c :: q) H2) as (e & rest & E1 & E2 & E3 & E4 & E5). rewrite E1.
  cbn [mbind option_bind].
  assert (e <> []) as Hne.
  { intros ->. rewrite app_nil_l in E2. subst rest. simpl in E4, H4. destruct E4; congruence. }
  destruct (skip_slashes_spec rest E5) as (p & G1 & G2 & G3 & G4 & G5). rewrite G1. cbn [mbind option_bind].
  rewrite E2, cstr_app by done. rewrite elems_first; [|done| |].
  2: { eapply Forall_impl; [exact E3|]. by intros x [? _]. }
  2: { destruct rest as [|x rest]; [by left|]. destruct E4 as [[= ->]|[= ->]]; [by right|by left]. }
  destruct (name_set name e Hn E3) as [N1 N2].
  eexists p, _. split_and!; [done|exact N1|exact N2|done|done|done| |].
  - rewrite <-G3. destruct p as [|x p]; [by apply not_elem_of_nil in G2|]. rewrite cstr_cons.
    cbn [head] in G4 |- *. destruct (Z.eqb_spec x 0) as [->|Hx]; [done|].
    split; [intros [= ->]; done|]. intros Hel. exfalso.
    assert (x <> 47) as Hx47 by (intros ->; by apply G4). unfold elems in Hel. cbn [split_slash] in Hel.
    rewrite (proj2 (Z.eqb_neq _ _) Hx47) in Hel.
    destruct (split_slash_cons (cstr p)) as (w & ws & Hsp). rewrite Hsp, filter_cons_True in Hel by done. done.
  - apply (f_equal length) in E2. rewrite length_app in E2. destruct e; [done|]. simpl in E2, H5. lia.
Qed.

(** "//usr/bin" *)
Lemma skipelem_splits_witness : exists p name',
  skipelem [47; 47; 117; 115; 114; 47; 98; 105; 110; 0] (replicate 14 1) = Some (Some p, name') /\
  cstrn DIRSIZ name' = [117; 115; 114] /\ elems (cstr p) = [[98; 105; 110]].
Proof.
  destruct (skipelem_splits [47; 47; 117; 115; 114; 47; 98; 105; 110; 0] (replicate 14 1))
    as (p & name' & H1 & H2 & H3 & H4 & H5 & H6).
  - do 9 apply list_elem_of_further. apply list_elem_of_here.
  - reflexivity.
  - exists p, name'. split; [exact H1|]. split; [exact H3|exact H5].
Defined.

(** ** Two caches for one inode *)

(** Resolve "/" and "/.", and lock both inodes. *)
Definition lock_root_twice : K (fsys (logsys memdisk)) (option iref * option iref) :=
  let! a := namei [47; 0] in
  let! b := namei [47; 46; 0] in
  ilock a ;;; ilock b ;;; kret (a, b).

(** The root directory as [namex] starts from it is in the cache of vfs.c, and as
    [dirlookup] finds it, in the cache of fs1.c: two copies of one inode, whose locks do not
    exclude each other. *)
Theorem root_inode_twice :
  wp lock_root_twice (demo_fsys boot_store) (fun '(a, b) s' _ =>
    a = Some (VfsInode 0) /\ b = Some (Fs1Inode 0) /\
    exists p q, lookup_inode s' (VfsInode 0) = Some p /\ lookup_inode s' (Fs1Inode 0) = Some q /\
      i_dev p = i_dev q /\ i_inum p = i_inum q /\
      has (i_flags p) I_BUSY = true /\ has (i_flags q) I_BUSY = true).
Proof. vm_compute. split; [done|]. split; [done|]. by eexists _, _. Qed.
