(* ===== verification/File.v ===== *)
(** * Open files: kernel/file.c, and pipealloc of kernel/pipe.c

    The system-wide table of open files, each with a reference count and a pipe, an
    inode or a socket behind it.  A [struct file *] is an index into the table.  The
    state is the table, the pipes by their page's address, the page allocator and the
    file system.  Transactions and sockets (which are C++ code) are operations of a
    class; the log is the instance for transactions. *)

From stdpp Require Import base list gmap strings.
From Stdlib Require Import ZArith Lia.
From S2P Require Import Prelude CString Bytes Spinlock Kalloc Pipe Disk Bio Cache Log LogSafety Store Fs.
Open Scope Z_scope.

Definition NFILE : nat := 100.

Inductive ftype := FD_NONE | FD_PIPE | FD_INODE | FD_SOCKET.
#[export] Instance ftype_eq_dec : EqDecision ftype.
Proof. solve_decision. Defined.

Record file := File {
  f_type : ftype;
  f_ref : Z;
  f_readable : Z;
  f_writable : Z;
  f_pipe : Z;               (* address of the pipe *)
  f_ip : option iref;
  f_off : Z;
  f_sock : Z * Z;           (* Socket.Type and Socket.Desc *)
}.

Definition zero_file : file := File FD_NONE 0 0 0 0 None 0 (0, 0).
Definition set_fref v (f : file) : file :=
  File (f_type f) v (f_readable f) (f_writable f) (f_pipe f) (f_ip f) (f_off f) (f_sock f).
Definition set_ftype v (f : file) : file :=
  File v (f_ref f) (f_readable f) (f_writable f) (f_pipe f) (f_ip f) (f_off f) (f_sock f).
Definition set_foff v (f : file) : file :=
  File (f_type f) (f_ref f) (f_readable f) (f_writable f) (f_pipe f) (f_ip f) v (f_sock f).
Definition set_fpipe r w p (f : file) : file :=
  File FD_PIPE (f_ref f) r w p (f_ip f) (f_off f) (f_sock f).
Definition set_finode r w ip (f : file) : file :=
  File FD_INODE (f_ref f) r w (f_pipe f) ip 0 (f_sock f).

Record kern (S : Type) := Kern {
  f_lock : bool;             (* ftable.lock *)
  ftab : list file;          (* ftable.file *)
  pipes : gmap Z pipe;       (* the pipes in use, by address *)
  kpages : kmem;
  kfs : fsys S;
}.
Arguments Kern {S}.
Arguments f_lock {S}.
Arguments ftab {S}.
Arguments pipes {S}.
Arguments kpages {S}.
Arguments kfs {S}.

Section state.
Context {S : Type}.
Implicit Types (s : kern S).
Definition set_f_lock v s : kern S := Kern v (ftab s) (pipes s) (kpages s) (kfs s).
Definition set_ftab v s : kern S := Kern (f_lock s) v (pipes s) (kpages s) (kfs s).
Definition set_pipes v s : kern S := Kern (f_lock s) (ftab s) v (kpages s) (kfs s).
Definition set_kpages v s : kern S := Kern (f_lock s) (ftab s) (pipes s) v (kfs s).
Definition set_kfs v s : kern S := Kern (f_lock s) (ftab s) (pipes s) (kpages s) v.
Definition ftable_lk : lens (kern S) bool := Lens f_lock set_f_lock.
Definition the_pages : lens (kern S) kmem := Lens kpages set_kpages.
Definition the_fs : lens (kern S) (fsys S) := Lens kfs set_kfs.

(** [*f] read and written. *)
Definition get_file (i : nat) : K (kern S) file :=
  let! s := kget in match ftab s !! i with Some f => kret f | None => fault end.
Definition upd_file (i : nat) (g : file -> file) : K (kern S) unit :=
  kmod (fun s => set_ftab (alter g i (ftab s)) s).

(** A computation on the pipe at [pa]. *)
Definition on_pipe {A} (pa : Z) (m : K pipe A) : K (kern S) A := fun s =>
  match pipes s !! pa with
  | None => ([], Stop Faulted s)
  | Some p =>
      match m p with
      | (t, Ret a p') => (t, Ret a (set_pipes (<[pa := p']> (pipes s)) s))
      | (t, Stop r p') => (t, Stop r (set_pipes (<[pa := p']> (pipes s)) s))
      end
  end.
End state.

(** Transactions on the store. *)
Class TxOps (S : Type) := {
  st_begin_op : K S unit;
  st_end_op : K S unit;
}.
#[export] Instance logsys_tx {D} `{HD : Driver D} : TxOps (logsys D) := {
  st_begin_op := begin_op;
  st_end_op := end_op;
}.

(** The socket operations of USocket.cc. *)
Class SockOps (S : Type) := {
  DestorySocket : file -> K (kern S) unit;
  SocketRead : nat -> Z -> K (kern S) (Z * list Z);
  SocketWrite : nat -> list Z -> Z -> K (kern S) Z;
}.

Section file.
Context {S : Type} `{HB : BlockOps S} `{HE : FsEnv S} `{HT : TxOps S} `{HK : SockOps S}.
(** The end of the kernel image; whether a pipe's lock is obtained in time; and
    [proc->killed]. *)
Context (kend : Z) (got : Z -> bool) (killed : bool).
Notation KK := (K (kern S)).

Definition kbegin_op : KK unit := zoom the_fs (zoom the_store st_begin_op).
Definition kend_op : KK unit := zoom the_fs (zoom the_store st_end_op).

Definition fileinit : KK unit := kmod (set_f_lock false).

(** The first file that is free. *)
Definition filealloc : KK (option nat) :=
  acquire ftable_lk ;;;
  let! r := for_return (seq 0 NFILE) (fun i =>
    let! f := get_file i in
    if f_ref f =? 0 then
      upd_file i (set_fref 1) ;;;
      release ftable_lk ;;;
      kret (Some i)
    else kret None) in
  match r with
  | Some i => kret (Some i)
  | None => release ftable_lk ;;; kret None
  end.

Definition filedup (i : nat) : KK nat :=
  acquire ftable_lk ;;;
  let! f := get_file i in
  if f_ref f <? 1 then panic "filedup"
  else
    upd_file i (fun f => set_fref (i32 (f_ref f + 1)) f) ;;;
    release ftable_lk ;;;
    kret i.

Definition fileclose (i : nat) : KK unit :=
  acquire ftable_lk ;;;
  let! f := get_file i in
  if f_ref f <? 1 then panic "fileclose"
  else
    upd_file i (fun f => set_fref (i32 (f_ref f - 1)) f) ;;;
    let! ff := get_file i in
    if 0 <? f_ref ff then release ftable_lk
    else
      upd_file i (set_fref 0) ;;;
      upd_file i (set_ftype FD_NONE) ;;;
      release ftable_lk ;;;
      match f_type ff with
      | FD_PIPE =>
          let! gone := on_pipe (f_pipe ff) (pipeclose (f_pipe ff) (negb (f_writable ff =? 0))) in
          kwhen gone
            (kmod (fun s => set_pipes (delete (f_pipe ff) (pipes s)) s) ;;;
             zoom the_pages (kfree kend (f_pipe ff)))
      | FD_INODE =>
          kbegin_op ;;;
          match f_ip ff with
          | Some r => zoom the_fs (iput r)
          | None => fault
          end ;;;
          kend_op
      | FD_SOCKET => DestorySocket ff
      | FD_NONE => kret tt
      end.

Definition inode_of (f : file) : KK iref :=
  match f_ip f with Some r => kret r | None => fault end.

Definition filestat (i : nat) : KK (Z * option stat) :=
  let! f := get_file i in
  match f_type f with
  | FD_INODE =>
      let! r := inode_of f in
      let! st := zoom the_fs (stati r) in
      kret (0, Some st)
  | _ => kret (-1, None)
  end.

(** The result and the bytes stored at [addr]. *)
Definition fileread (i : nat) (n : Z) : KK (Z * list Z) :=
  let! f := get_file i in
  if f_readable f =? 0 then kret (-1, [])
  else match f_type f with
       | FD_PIPE => on_pipe (f_pipe f) (piperead (f_pipe f) killed (got (f_pipe f)) n)
       | FD_INODE =>
           zoom the_fs (ilock (f_ip f)) ;;;
           let! r := inode_of f in
           let! f := get_file i in
           let! (k, d) := zoom the_fs (readi r (f_off f) (u32 n)) in
           kwhen (0 <? k) (upd_file i (fun f => set_foff (u32 (f_off f + k)) f)) ;;;
           zoom the_fs (iunlock (f_ip f)) ;;;
           kret (k, d)
       | FD_SOCKET => SocketRead i n
       | FD_NONE => panic "fileread"
       end.

Definition fileseek (i : nat) (offset : Z) : KK Z :=
  let! f := get_file i in
  if f_readable f =? 0 then kret (-1)
  else match f_type f with
       | FD_PIPE => kret (-2)
       | FD_INODE =>
           upd_file i (fun f => set_foff (u32 (f_off f + offset)) f) ;;;
           let! f := get_file i in
           kret (i32 (f_off f))
       | _ => panic "fileseek"
       end.

(** At most this much in one transaction. *)
Definition WRITE_MAX : Z := (LOGSIZE - 1 - 1 - 2) / 2 * 512.

(** [while (i < n)]; [Some r] is a [return r] inside the loop, [None] a [break] or the
    end of the loop with the counter. *)
Fixpoint filewrite_loop (fuel : nat) (i : nat) (addr : list Z) (n k : Z) : KK (option Z * Z) :=
  if k <? n then
    match fuel with
    | O => kstop NoFuel
    | Datatypes.S fuel' =>
        let n1 := if WRITE_MAX <? n - k then WRITE_MAX else n - k in
        kbegin_op ;;;
        let! f := get_file i in
        zoom the_fs (ilock (f_ip f)) ;;;
        let! r := inode_of f in
        let! w := zoom the_fs (writei r (drop (Z.to_nat k) addr) (f_off f) (u32 n1)) in
        kwhen (0 <? w) (upd_file i (fun f => set_foff (u32 (f_off f + w)) f)) ;;;
        zoom the_fs (iunlock (f_ip f)) ;;;
        kend_op ;;;
        if w <? 0 then kret (None, k)
        else if negb (w =? n1) then kret (Some w, k)
        else filewrite_loop fuel' i addr n (k + w)
    end
  else kret (None, k).

(** [addr] is the bytes from the caller's pointer on. *)
Definition filewrite (i : nat) (addr : list Z) (n : Z) : KK Z :=
  let! f := get_file i in
  if f_writable f =? 0 then kret (-1)
  else match f_type f with
       | FD_PIPE => on_pipe (f_pipe f) (pipewrite (f_pipe f) killed (got (f_pipe f)) addr n)
       | FD_INODE =>
           let! (r, k) := filewrite_loop (Z.to_nat n) i addr n 0 in
           match r with
           | Some v => kret v
           | None => kret (if k =? n then n else -1)
           end
       | FD_SOCKET =>
           let! _ := SocketWrite i addr n in
           panic "filewrite"
       | FD_NONE => panic "filewrite"
       end.

(** ** pipealloc *)

(** [bad:] with the page and the files obtained so far. *)
Definition pipealloc_bad (p : Z) (f0 f1 : option nat) : KK (Z * (option nat * option nat)) :=
  kwhen (negb (p =? 0)) (zoom the_pages (kfree kend p)) ;;;
  match f0 with Some i => fileclose i | None => kret tt end ;;;
  match f1 with Some i => fileclose i | None => kret tt end ;;;
  kret (-1, (f0, f1)).

(** The result, and what is left in the caller's two pointers.  [junk] is the contents
    of the new page's data area. *)
Definition pipealloc (junk : list Z) : KK (Z * (option nat * option nat)) :=
  let! f0 := filealloc in
  match f0 with
  | None => pipealloc_bad 0 None None
  | Some i0 =>
      let! f1 := filealloc in
      match f1 with
      | None => pipealloc_bad 0 (Some i0) None
      | Some i1 =>
          let! p := zoom the_pages kalloc in
          if p =? 0 then pipealloc_bad 0 (Some i0) (Some i1)
          else
            kmod (fun s => set_pipes (<[p := pipe_init junk]> (pipes s)) s) ;;;
            upd_file i0 (set_fpipe 1 0 p) ;;;
            upd_file i1 (set_fpipe 0 1 p) ;;;
            kret (0, (Some i0, Some i1))
      end
  end.
End file.
