(* ===== verification/FilePipe.v ===== *)
(** * Pipes as files: how long a pipe lives

    The table of open files, the pipes and the page allocator together, against an
    abstract table of reference counts and ends of byte queues.  A pipe's page is in use
    exactly while some slot of the table is an end of it; the last close of an end shuts
    that end, and the last close of the second end gives the page back. *)

From stdpp Require Import base list gmap strings.
From Stdlib Require Import ZArith Lia.
From S2P Require Import Prelude CString Bytes Spinlock Kalloc Pipe Disk Bio Cache Log LogSafety Store Fs FsBlocks File.
Open Scope Z_scope.

(** ** The abstract table *)

(** What a slot refers to: nothing, the read ([false]) or write ([true]) end of the pipe
    at an address, or an inode or socket. *)
Inductive aobj := ANone | AEnd (pa : Z) (w : bool) | AOther.
#[export] Instance aobj_eq_dec : EqDecision aobj.
Proof. solve_decision. Defined.

Record amach := AM {
  a_tab : list (nat * aobj);      (* references, and what they refer to *)
  a_q : gmap Z (list Z);          (* the bytes in each pipe *)
  a_free : list Z;                (* the free pages *)
}.
Definition set_atab v (a : amach) : amach := AM v (a_q a) (a_free a).
Definition set_slot i e (a : amach) : amach := set_atab (<[i := e]> (a_tab a)) a.

(** Some slot is the end [w] of the pipe at [pa]. *)
Definition objs (a : amach) : list aobj := (a_tab a).*2.
Definition is_open (a : amach) (pa : Z) (w : bool) : bool := bool_decide (AEnd pa w ∈ objs a).

Definition aalloc (a : amach) : option (nat * amach) :=
  match list_find (fun e => e.1 = 0%nat) (a_tab a) with
  | Some (i, _) => Some (i, set_slot i (1%nat, ANone) a)
  | None => None
  end.

Definition adup (a : amach) (i : nat) : option amach :=
  match a_tab a !! i with
  | Some (S n, o) =>
      if decide (Z.of_nat (S (S n)) < 2 ^ 31) then Some (set_slot i (S (S n), o) a) else None
  | _ => None
  end.

Definition aclose (a : amach) (i : nat) : option amach :=
  match a_tab a !! i with
  | Some (S (S n), o) => Some (set_slot i (S n, o) a)
  | Some (1%nat, ANone) => Some (set_slot i (0%nat, ANone) a)
  | Some (1%nat, AEnd pa w) =>
      let a1 := set_slot i (0%nat, ANone) a in
      Some (if is_open a1 pa (negb w) then a1
            else AM (a_tab a1) (delete pa (a_q a1)) (pa :: a_free a1))
  | _ => None
  end.

Definition apipe (a : amach) : (Z * list Z) * amach :=
  match aalloc a with
  | None => (-1, [], a)
  | Some (i0, a1) =>
      match aalloc a1 with
      | None => (-1, [], a)
      | Some (i1, a2) =>
          match a_free a with
          | [] => (-1, [], a)
          | pa :: l =>
              (0, [Z.of_nat i0; Z.of_nat i1],
               AM (<[i1 := (1%nat, AEnd pa true)]> (<[i0 := (1%nat, AEnd pa false)]> (a_tab a2)))
                 (<[pa := []]> (a_q a)) l)
          end
      end
  end.

Section ops.
Context (got : Z -> bool) (killed : bool).

Definition awrite (a : amach) (i : nat) (bs : list Z) : option (Z * amach) :=
  match a_tab a !! i with
  | Some (_, AEnd pa true) =>
      match a_q a !! pa with
      | Some q =>
          if got pa then
            Some (if decide (length bs <= 512 - length q)%nat then Z.of_nat (length bs)
                  else if negb (is_open a pa false) || killed then F_ERROR else FNOT_READY,
                  AM (a_tab a) (<[pa := q ++ take (512 - length q) bs]> (a_q a)) (a_free a))%bool
          else Some (FNOT_READY, a)
      | None => None
      end
  | Some (_, AEnd _ false) => Some (F_ERROR, a)
  | _ => None
  end.

Definition aread (a : amach) (i n : nat) : option ((Z * list Z) * amach) :=
  match a_tab a !! i with
  | Some (_, AEnd pa false) =>
      match a_q a !! pa with
      | Some q =>
          if got pa then
            Some (match q with
                  | [] => (if negb (is_open a pa true) then 0
                           else if killed then F_ERROR else FNOT_READY, [])
                  | _ => (Z.of_nat (length (take n q)), take n q)
                  end, AM (a_tab a) (<[pa := drop n q]> (a_q a)) (a_free a))
          else Some (FNOT_READY, [], a)
      | None => None
      end
  | Some (_, AEnd _ true) => Some (F_ERROR, [], a)
  | _ => None
  end.
End ops.

(** A client's calls; [None] is a client error (a slot that is not held, or is not a
    pipe's), which the theorems exclude. *)
Inductive fop := FPipe | FDup (i : nat) | FClose (i : nat) | FWrite (i : nat) (bs : list Z) | FRead (i n : nat).

Definition aop got killed (o : fop) (a : amach) : option ((Z * list Z) * amach) :=
  match o with
  | FPipe => Some (apipe a)
  | FDup i => a' ← adup a i; Some (Z.of_nat i, [], a')
  | FClose i => a' ← aclose a i; Some (0, [], a')
  | FWrite i bs => '(r, a') ← awrite got killed a i bs; Some (r, [], a')
  | FRead i n => aread got killed a i n
  end.

Fixpoint aops got killed (os : list fop) (a : amach) : option (list (Z * list Z) * amach) :=
  match os with
  | [] => Some ([], a)
  | o :: os' =>
      '(r, a1) ← aop got killed o a;
      '(rs, a2) ← aops got killed os' a1;
      Some (r :: rs, a2)
  end.

(** ** The table represents the abstract one *)

Definition slot_rep (f : file) (e : nat * aobj) : Prop :=
  f_ref f = Z.of_nat e.1 /\ (e.1 = 0%nat -> e.2 = ANone) /\ Z.of_nat e.1 < 2 ^ 31 /\
  match e.2 with
  | ANone => f_type f = FD_NONE
  | AEnd pa w => f_type f = FD_PIPE /\ f_pipe f = pa /\
                 f_readable f = b2z (negb w) /\ f_writable f = b2z w
  | AOther => f_type f = FD_INODE \/ f_type f = FD_SOCKET
  end.

Record pipe_rep kend (a : amach) (pa : Z) (p : pipe) (q : list Z) : Prop := {
  pr_repr : repr p q;
  pr_lock : p_lock p = false;
  pr_read : readopen p = b2z (is_open a pa false);
  pr_write : writeopen p = b2z (is_open a pa true);
  pr_page : page_ok kend pa;
  pr_used : pa ∉ a_free a;
  pr_held : is_open a pa false = true \/ is_open a pa true = true;
}.

Record frep {S} kend (s : kern S) (a : amach) : Prop := {
  fr_lock : f_lock s = false;
  fr_tab : Forall2 slot_rep (ftab s) (a_tab a);
  fr_len : length (a_tab a) = NFILE;
  fr_free : free_pages kend (kpages s) (a_free a);
  fr_pipes : forall pa, match pipes s !! pa, a_q a !! pa with
                        | Some p, Some q => pipe_rep kend a pa p q
                        | None, None => True
                        | _, _ => False
                        end;
  fr_live : forall pa w, is_open a pa w = true -> is_Some (a_q a !! pa);
  fr_one : forall i j pa w, objs a !! i = Some (AEnd pa w) ->
             objs a !! j = Some (AEnd pa w) -> i = j;
}.

(** ** Lemmas *)

Lemma objs_set_slot i e a : objs (set_slot i e a) = <[i := e.2]> (objs a).
Proof. unfold objs. simpl. by rewrite list_fmap_insert. Qed.

Lemma objs_lookup a i n o : a_tab a !! i = Some (n, o) -> objs a !! i = Some o.
Proof. intros H. unfold objs. by rewrite list_lookup_fmap, H. Qed.

Lemma objs_same i n m o a : a_tab a !! i = Some (n, o) -> objs (set_slot i (m, o) a) = objs a.
Proof. intros H. rewrite objs_set_slot. apply list_insert_id. by eapply objs_lookup. Qed.

Lemma slot_of {S} kend (s : kern S) a i n o : frep kend s a -> a_tab a !! i = Some (n, o) ->
  exists f, ftab s !! i = Some f /\ slot_rep f (n, o).
Proof.
  intros Hr He. destruct (Forall2_lookup_r _ _ _ _ _ (fr_tab _ _ _ Hr) He) as (f & Hf & Hs). eauto.
Qed.

Lemma pipe_of {S} kend (s : kern S) a pa q : frep kend s a -> a_q a !! pa = Some q ->
  exists p, pipes s !! pa = Some p /\ pipe_rep kend a pa p q.
Proof.
  intros Hr Hq. pose proof (fr_pipes _ _ _ Hr pa) as H. rewrite Hq in H.
  destruct (pipes s !! pa) as [p|]; [eauto|done].
Qed.

Lemma pipe_rep_objs kend a a' pa p q :
  objs a' = objs a -> a_free a' = a_free a -> pipe_rep kend a pa p q -> pipe_rep kend a' pa p q.
Proof. intros Ho Hf []. unfold is_open in *. split; unfold is_open; by rewrite ?Ho, ?Hf. Qed.

(** A slot's count changes, and the table is written accordingly. *)
Lemma frep_count {S} kend (s s' : kern S) a i n m o f' :
  frep kend s a -> a_tab a !! i = Some (n, o) -> slot_rep f' (m, o) ->
  f_lock s' = false -> ftab s' = <[i := f']> (ftab s) -> pipes s' = pipes s ->
  kpages s' = kpages s -> frep kend s' (set_slot i (m, o) a).
Proof.
  intros Hr Hi Hs Hl Ht Hp Hk. pose proof (objs_same i n m o a Hi) as Ho. split.
  - done.
  - rewrite Ht. simpl. apply Forall2_insert; [by destruct Hr|done].
  - simpl. rewrite length_insert. by destruct Hr.
  - rewrite Hk. by destruct Hr.
  - intros pa. rewrite Hp. pose proof (fr_pipes _ _ _ Hr pa) as H. simpl.
    destruct (pipes s !! pa), (a_q a !! pa); try done. by apply (pipe_rep_objs _ a).
  - intros pa w. unfold is_open. rewrite Ho. apply (fr_live _ _ _ Hr).
  - rewrite Ho. apply (fr_one _ _ _ Hr).
Qed.

Section wp.
Context {S : Type} `{HB : BlockOps S} `{HE : FsEnv S} `{HT : TxOps S} `{HK : SockOps S}.
Context (kend : Z) (got : Z -> bool) (killed : bool).
Implicit Types (s : kern S) (a : amach).

Lemma get_file_wp i f s Q : ftab s !! i = Some f -> Q f s [] -> wp (get_file i) s Q.
Proof. intros Hf HQ. unfold get_file. wp_steps. rewrite Hf. by wp_steps. Qed.

Lemma lock_unlock s v : f_lock s = false -> set_f_lock false (set_f_lock v s) = s.
Proof. destruct s; simpl. by intros ->. Qed.

Lemma filealloc_wp s Q :
  f_lock s = false -> length (ftab s) = NFILE ->
  match list_find (fun f => f_ref f = 0) (ftab s) with
  | Some (i, f) => Q (Some i) (set_ftab (<[i := set_fref 1 f]> (ftab s)) s) : Prop
  | None => Q None s
  end ->
  wp filealloc s (fun r s' _ => Q r s').
Proof.
  intros Hl Hlen HQ. unfold filealloc. wp_steps. apply wp_acquire; [done|]. wp_steps.
  eapply wp_mono; [eapply (wp_for_return _ _
    (fun k s1 => s1 = set_f_lock true s /\ forall j f, (j < k)%nat -> ftab s !! j = Some f -> f_ref f <> 0)
    (fun r s1 => match r with
       | Some i => Q (Some i) s1
       | None => s1 = set_f_lock true s /\ list_find (fun f => f_ref f = 0) (ftab s) = None end))|].
  - split; [done|lia].
  - intros k x s1 Hx [-> Hk]. apply lookup_seq in Hx as [-> Hlt]. simpl.
    destruct (lookup_lt_is_Some_2 (ftab s) k) as [f Hf]; [lia|].
    wp_steps. apply (get_file_wp _ f); [done|]. wp_steps.
    destruct (Z.eqb_spec (f_ref f) 0) as [E|E].
    + unfold upd_file. wp_steps. apply wp_release; [done|]. wp_steps.
      assert (list_find (fun f => f_ref f = 0) (ftab s) = Some (k, f)) as Hfind.
      { apply list_find_Some. split; [done|]. split; [done|]. intros j g Hg Hj. by eapply Hk. }
      rewrite Hfind in HQ. destruct s as [l tb pp kp fs]; simpl in *. subst l.
      by rewrite (alter_as_insert (set_fref 1) tb k f).
    + wp_steps. split; [done|]. intros j g Hj Hg. destruct (decide (j = k)) as [->|]; [congruence|].
      apply (Hk j); [lia|done].
  - intros s1 [-> Hk]. split; [done|]. apply list_find_None, Forall_lookup. intros j g Hg.
    apply (Hk j); [|done]. rewrite length_seq, <-Hlen. by eapply lookup_lt_Some.
  - intros [i|] s1 t H1; wp_steps; [done|]. destruct H1 as [-> Hn]. rewrite Hn in HQ.
    apply wp_release; [done|]. wp_steps. simpl. by rewrite lock_unlock.
Qed.

Lemma find_rep l t : Forall2 slot_rep l t ->
  match list_find (fun f => f_ref f = 0) l, list_find (fun e => e.1 = 0%nat) t with
  | Some (i, f), Some (j, e) => i = j /\ l !! i = Some f /\ t !! i = Some e /\ slot_rep f e /\ e.1 = 0%nat
  | None, None => True
  | _, _ => False
  end.
Proof.
  induction 1 as [|f e l t Hfe _ IH]; simpl; [done|]. pose proof Hfe as (Href & _).
  destruct (decide (f_ref f = 0)), (decide (e.1 = 0%nat)); try lia; [done|].
  destruct (list_find _ l) as [[i g]|], (list_find _ t) as [[j d]|]; simpl; try done.
  destruct IH as (-> & ? & ? & ? & ?). eauto.
Qed.

Lemma filealloc_rep s a : frep kend s a ->
  wp filealloc s (fun r s' _ =>
    match aalloc a with
    | Some (i, a') => r = Some i /\ frep kend s' a'
    | None => r = None /\ frep kend s' a
    end).
Proof.
  intros Hr. pose proof (find_rep _ _ (fr_tab _ _ _ Hr)) as Hf. unfold aalloc.
  match goal with |- wp _ _ (fun r s' _ => @?P r s') => apply (filealloc_wp s P) end.
  - apply Hr.
  - rewrite (Forall2_length _ _ _ (fr_tab _ _ _ Hr)). apply Hr.
  - destruct (list_find _ (ftab s)) as [[i f]|], (list_find _ (a_tab a)) as [[j [n o]]|]; try done.
    destruct Hf as (<- & Hi & Hj & (Href & Ho & Hlt & Hty) & Hn). simpl in *. subst n.
    rewrite (Ho eq_refl) in *. split; [done|].
    apply (frep_count kend s _ a i 0 1 ANone (set_fref 1 f)); try done. by apply Hr.
Qed.

Lemma filedup_rep s a i a' : frep kend s a -> adup a i = Some a' ->
  wp (filedup i) s (fun r s' _ => r = i /\ frep kend s' a').
Proof.
  intros Hr Ha. unfold adup in Ha.
  destruct (a_tab a !! i) as [[[|n] o]|] eqn:Hi; try done. case_decide as Hb; simplify_eq.
  destruct (slot_of _ _ _ _ _ _ Hr Hi) as (f & Hf & Href & H0 & Hlt & Hty).
  unfold filedup. wp_steps. apply wp_acquire; [apply Hr|]. wp_steps.
  apply (get_file_wp _ f); [done|]. simpl in Href, H0, Hlt.
  destruct (Z.ltb_spec (f_ref f) 1); [lia|]. unfold upd_file. wp_steps.
  apply wp_release; [done|]. wp_steps. split; [done|].
  apply (frep_count kend s _ a i (Datatypes.S n) _ o
    (set_fref (i32 (f_ref f + 1)) f)); try done.
  - rewrite Href, i32_small_id by lia. split; [simpl; lia|done].
  - simpl. by rewrite (alter_as_insert _ _ _ f).
Qed.

Lemma on_pipe_wp {A} pa p (m : K pipe A) s (Q : A -> kern S -> list event -> Prop) :
  pipes s !! pa = Some p ->
  wp m p (fun x p' t => Q x (set_pipes (<[pa := p']> (pipes s)) s) t) -> wp (on_pipe pa m) s Q.
Proof. intros Hp H. unfold on_pipe, wp in *. rewrite Hp. by destruct (m p) as [t [x p'|]]. Qed.

(** [pipeclose] shuts one end. *)
Definition shut (w : bool) (p : pipe) : pipe := if w then set_writeopen 0 p else set_readopen 0 p.

Lemma pipeclose_wp pa (w : bool) p (Q : bool -> pipe -> list event -> Prop) :
  p_lock p = false ->
  (forall t, Q (if w then readopen p =? 0 else writeopen p =? 0) (shut w p) t) ->
  wp (pipeclose pa w) p Q.
Proof.
  intros Hl HQ. unfold pipeclose. wp_steps. apply wp_acquire; [done|]. wp_steps.
  destruct p as [l d nr nw ro wo]. simpl in Hl. subst l.
  destruct w; wp_steps; (apply wp_release; [done|]); wp_steps; simpl;
    rewrite ?andb_true_r; apply HQ.
Qed.

Lemma repr_shut w p q : repr p q -> repr (shut w p) q.
Proof. intros []. by destruct w; split. Qed.

Lemma is_open_iff a pa w : is_open a pa w = true <-> exists i, objs a !! i = Some (AEnd pa w).
Proof. unfold is_open. by rewrite bool_decide_eq_true, list_elem_of_lookup. Qed.

(** The slot [i], the end [w] of the pipe at [pa], is cleared. *)
Section drop_end.
Context (a : amach) (i n : nat) (pa : Z) (w : bool).
Context (Hi : a_tab a !! i = Some (n, AEnd pa w)).
Context (Hone : forall i j pa w, objs a !! i = Some (AEnd pa w) -> objs a !! j = Some (AEnd pa w) -> i = j).
Let a1 := set_slot i (0%nat, ANone) a.

Lemma drop_lookup j pa' w' :
  objs a1 !! j = Some (AEnd pa' w') <-> objs a !! j = Some (AEnd pa' w') /\ j <> i.
Proof using.
  unfold a1. rewrite objs_set_slot. simpl. rewrite list_lookup_insert_Some.
  split; [intros [(_ & ? & _)|[]]; [done|eauto]|]. intros []. right. eauto.
Qed.

Lemma drop_open pa' w' :
  is_open a1 pa' w' = if decide ((pa', w') = (pa, w)) then false else is_open a pa' w'.
Proof using Hi Hone.
  apply Bool.eq_iff_eq_true. rewrite is_open_iff. setoid_rewrite drop_lookup.
  case_decide as E.
  - split; [|done]. simplify_eq. intros (j & Hj & Hne). destruct Hne.
    apply (Hone j i pa w); [done|by eapply objs_lookup].
  - rewrite is_open_iff. split; [intros (j & ? & _); eauto|]. intros (j & Hj). exists j.
    split; [done|]. intros ->. apply objs_lookup in Hi. congruence.
Qed.
End drop_end.

(** Closing an end for the last time, while the other is open and when it is not. *)
Lemma frep_shut s s' a i n pa w p q f' :
  frep kend s a -> a_tab a !! i = Some (n, AEnd pa w) -> slot_rep f' (0%nat, ANone) ->
  a_q a !! pa = Some q -> pipe_rep kend a pa p q ->
  is_open (set_slot i (0%nat, ANone) a) pa (negb w) = true ->
  f_lock s' = false -> ftab s' = <[i := f']> (ftab s) ->
  pipes s' = <[pa := shut w p]> (pipes s) -> kpages s' = kpages s ->
  frep kend s' (set_slot i (0%nat, ANone) a).
Proof.
  intros Hr Hi Hs Hq Hp Hopen Hl Ht Hps Hk.
  pose proof (drop_open a i n pa w Hi (fr_one _ _ _ Hr)) as Hd. split.
  - done.
  - rewrite Ht. simpl. apply Forall2_insert; [by destruct Hr|done].
  - simpl. rewrite length_insert. by destruct Hr.
  - rewrite Hk. by destruct Hr.
  - intros pa'. rewrite Hps. pose proof (fr_pipes _ _ _ Hr pa') as H. simpl.
    destruct (decide (pa' = pa)) as [->|Hne].
    + rewrite lookup_insert_eq, Hq. destruct Hp. split; try done; [by apply repr_shut|..].
      * by destruct w.
      * destruct w; simpl; rewrite Hd; case_decide; by simplify_eq.
      * destruct w; simpl; rewrite Hd; case_decide; by simplify_eq.
      * destruct w; eauto.
    + rewrite lookup_insert_ne by done.
      destruct (pipes s !! pa'), (a_q a !! pa'); try done.
      destruct H. by split; rewrite ?Hd, ?decide_False by congruence.
  - intros pa' w'. rewrite Hd. case_decide; [done|]. apply (fr_live _ _ _ Hr).
  - intros j j' pa' w' [? _]%drop_lookup [? _]%drop_lookup. by eapply (fr_one _ _ _ Hr).
Qed.

Lemma frep_gone s s' a i n pa w f' :
  frep kend s a -> a_tab a !! i = Some (n, AEnd pa w) -> slot_rep f' (0%nat, ANone) ->
  is_open (set_slot i (0%nat, ANone) a) pa (negb w) = false ->
  f_lock s' = false -> ftab s' = <[i := f']> (ftab s) ->
  pipes s' = delete pa (pipes s) -> free_pages kend (kpages s') (pa :: a_free a) ->
  frep kend s' (AM (a_tab (set_slot i (0%nat, ANone) a)) (delete pa (a_q a)) (pa :: a_free a)).
Proof.
  intros Hr Hi Hs Hshut Hl Ht Hps Hk.
  pose proof (drop_open a i n pa w Hi (fr_one _ _ _ Hr)) as Hd.
  assert (Hno : forall w', is_open (set_slot i (0%nat, ANone) a) pa w' = false).
  { intros w'. destruct (decide (w' = negb w)) as [->|Hw]; [done|]. rewrite Hd.
    rewrite decide_True; [done|]. by destruct w, w'. }
  split; unfold is_open, objs in *; simpl in *.
  - done.
  - rewrite Ht. apply Forall2_insert; [by destruct Hr|done].
  - rewrite length_insert. by destruct Hr.
  - done.
  - intros pa'. rewrite Hps. pose proof (fr_pipes _ _ _ Hr pa') as H.
    destruct (decide (pa' = pa)) as [->|Hne]; [by rewrite !lookup_delete_eq|].
    rewrite !lookup_delete_ne by done. destruct (pipes s !! pa'), (a_q a !! pa'); try done.
    destruct H. unfold is_open, objs in *.
    split; unfold is_open, objs; simpl; rewrite ?Hd, ?decide_False by congruence; try done.
    by apply not_elem_of_cons.
  - intros pa' w' Ho. destruct (decide (pa' = pa)) as [->|Hne]; [by rewrite Hno in Ho|].
    rewrite lookup_delete_ne by done. rewrite Hd, decide_False in Ho by congruence.
    by apply (fr_live _ _ _ Hr) in Ho.
  - intros j j' pa' w' Hj Hj'. eapply (fr_one _ _ _ Hr);
      [exact (proj1 (proj1 (drop_lookup a i j pa' w') Hj))|
       exact (proj1 (proj1 (drop_lookup a i j' pa' w') Hj'))].
Qed.

(** The last close of an end. *)
Lemma close_end_rep s a i pa w f' :
  frep kend s a -> a_tab a !! i = Some (1%nat, AEnd pa w) -> slot_rep f' (0%nat, ANone) ->
  wp (let! gone := on_pipe pa (pipeclose pa w) in
      kwhen gone (kmod (fun s => set_pipes (delete pa (pipes s)) s) ;;;
                  zoom the_pages (kfree kend pa)))
    (set_ftab (<[i := f']> (ftab s)) s)
    (fun _ s' _ =>
       let a1 := set_slot i (0%nat, ANone) a in
       frep kend s' (if is_open a1 pa (negb w) then a1
                     else AM (a_tab a1) (delete pa (a_q a1)) (pa :: a_free a1))).
Proof.
  intros Hr Hi Hf'.
  assert (is_open a pa w = true) as [q Hq]%(fr_live _ _ _ Hr).
  { apply is_open_iff. exists i. by eapply objs_lookup. }
  destruct (pipe_of _ _ _ _ _ Hr Hq) as (p & Hp & Hpr).
  assert (Hgone : (if w then readopen p =? 0 else writeopen p =? 0) =
                  negb (is_open (set_slot i (0%nat, ANone) a) pa (negb w))).
  { rewrite (drop_open a i 1 pa w Hi (fr_one _ _ _ Hr)), decide_False by (by destruct w).
    destruct Hpr. destruct w; cbn [negb]; [rewrite pr_read0|rewrite pr_write0].
    - by destruct (is_open a pa false).
    - by destruct (is_open a pa true). }
  wp_steps. eapply on_pipe_wp; [done|]. apply pipeclose_wp; [by destruct Hpr|]. intros t.
  rewrite Hgone. cbn zeta. destruct (is_open (set_slot _ _ _) _ _) eqn:Ho; cbn [negb kwhen]; wp_steps.
  - eapply (frep_shut s _ a i); try done. apply Hr.
  - apply (kfree_wp _ _ (a_free a)); [apply Hr|by destruct Hpr|by destruct Hpr|].
    intros k Hk _ _. eapply (frep_gone s _ a i); try done; [apply Hr|].
    simpl. apply delete_insert_eq.
Qed.

Lemma fileclose_rep s a i a' : frep kend s a -> aclose a i = Some a' ->
  wp (fileclose kend i) s (fun _ s' _ => frep kend s' a').
Proof.
  intros Hr Ha. unfold aclose in Ha.
  destruct (a_tab a !! i) as [[n o]|] eqn:Hi; [|done].
  destruct (slot_of _ _ _ _ _ _ Hr Hi) as (f & Hf & Href & H0 & Hlt & Hty). simpl in Href, H0, Hlt, Hty.
  unfold fileclose. wp_steps. apply wp_acquire; [apply Hr|]. wp_steps.
  apply (get_file_wp _ f); [done|]. destruct n as [|n]; [done|].
  destruct (Z.ltb_spec (f_ref f) 1); [lia|]. unfold upd_file. wp_steps. cbn [ftab set_ftab set_f_lock].
  rewrite (alter_as_insert _ _ _ f Hf), Href, i32_small_id by lia.
  set (f1 := set_fref _ f). assert (Hlen : (i < length (ftab s))%nat) by (by eapply lookup_lt_Some).
  apply (get_file_wp _ f1); [by apply list_lookup_insert_eq|].
  destruct (Z.ltb_spec 0 (f_ref f1)) as [Hp|Hp]; simpl in Hp; destruct n as [|n]; try lia.
  - simplify_eq. apply wp_release; [done|].
    apply (frep_count kend s _ a i (Datatypes.S (Datatypes.S n)) _ o f1); try done.
    split; [simpl; lia|]. split; [done|]. split; [simpl; lia|done].
  - wp_steps. cbn [ftab set_ftab]. apply wp_release; [done|]. wp_steps.
    rewrite !alter_inserted. set (f2 := set_ftype _ _).
    assert (Hf2 : slot_rep f2 (0%nat, ANone)) by by repeat split.
    match goal with |- wp _ ?x _ => change x with (set_f_lock false (set_f_lock true (set_ftab (<[i := f2]> (ftab s)) s))) end.
    rewrite (lock_unlock (set_ftab _ s)) by apply Hr.
    destruct o as [|pa w|]; simplify_eq; cbn [f_type f_pipe f_writable set_fref f1].
    + rewrite Hty. wp_steps. apply (frep_count kend s _ a i 1 0 ANone f2); try done. apply Hr.
    + destruct Hty as (-> & -> & _ & ->). replace (negb (b2z w =? 0)) with w by by destruct w.
      by apply close_end_rep.
Qed.

(** The pipe at [pa] holds [q'] instead of [q]. *)
Lemma frep_queue s a pa p p' q q' :
  frep kend s a -> a_q a !! pa = Some q -> pipe_rep kend a pa p q ->
  readopen p' = readopen p -> writeopen p' = writeopen p -> p_lock p' = false -> repr p' q' ->
  frep kend (set_pipes (<[pa := p']> (pipes s)) s) (AM (a_tab a) (<[pa := q']> (a_q a)) (a_free a)).
Proof.
  intros Hr Hq Hp H1 H2 H3 H4. destruct Hr as [? ? ? ? Hps Hlive Hone].
  split; try done; simpl.
  - intros pa'. destruct (decide (pa' = pa)) as [->|].
    + rewrite !lookup_insert_eq. destruct Hp. by split; rewrite ?H1, ?H2.
    + rewrite !lookup_insert_ne by done. specialize (Hps pa').
      destruct (pipes s !! pa'), (a_q a !! pa'); try done. by destruct Hps.
  - intros pa' w Ho. destruct (decide (pa' = pa)) as [->|]; [by rewrite lookup_insert_eq|].
    rewrite lookup_insert_ne by done. by apply (Hlive pa' w).
Qed.

Lemma frep_same s a pa p q : frep kend s a -> a_q a !! pa = Some q -> pipes s !! pa = Some p ->
  frep kend (set_pipes (<[pa := p]> (pipes s)) s) a.
Proof. intros Hr Hq Hp. rewrite insert_id by done. by destruct Hr. Qed.

Lemma filewrite_rep s a i bs r a' : frep kend s a -> awrite got killed a i bs = Some (r, a') ->
  wp (filewrite got killed i bs (Z.of_nat (length bs))) s (fun r' s' _ => r' = r /\ frep kend s' a').
Proof.
  intros Hr Ha. unfold awrite in Ha. destruct (a_tab a !! i) as [[n [|pa w|]]|] eqn:Hi; try done.
  destruct (slot_of _ _ _ _ _ _ Hr Hi) as (f & Hf & _ & _ & _ & Hty). simpl in Hty.
  destruct Hty as (Ht & Hpa & _ & Hw). unfold filewrite. wp_steps. apply (get_file_wp _ f); [done|].
  rewrite Ht, Hpa, Hw. destruct w; cbn [b2z Z.eqb]; [|wp_steps; by simplify_eq].
  destruct (a_q a !! pa) as [q|] eqn:Hq; [|done].
  destruct (pipe_of _ _ _ _ _ Hr Hq) as (p & Hp & Hpr). apply (on_pipe_wp _ p); [done|].
  destruct (got pa).
  - injection Ha as <- <-. apply (pipewrite_wp _ _ p q); [by destruct Hpr..| |].
    + intros p' t H1 H2 H3 Hfit H4. rewrite decide_True by done. split; [done|].
      rewrite take_ge by done. by eapply frep_queue.
    + intros p' t H1 H2 H3 Hfit H4. rewrite decide_False by lia. split; [|by eapply frep_queue].
      unfold full_result. destruct Hpr. rewrite pr_read0. by destruct (is_open a pa false).
  - injection Ha as <- <-. unfold pipewrite. cbn [negb]. wp_steps. split; [done|]. by eapply frep_same.
Qed.

Lemma fileread_rep s a i n r a' : frep kend s a -> aread got killed a i n = Some (r, a') ->
  wp (fileread got killed i (Z.of_nat n)) s (fun r' s' _ => r' = r /\ frep kend s' a').
Proof.
  intros Hr Ha. unfold aread in Ha. destruct (a_tab a !! i) as [[m [|pa w|]]|] eqn:Hi; try done.
  destruct (slot_of _ _ _ _ _ _ Hr Hi) as (f & Hf & _ & _ & _ & Hty). simpl in Hty.
  destruct Hty as (Ht & Hpa & Hw & _). unfold fileread. wp_steps. apply (get_file_wp _ f); [done|].
  rewrite Ht, Hpa, Hw. destruct w; cbn [negb b2z Z.eqb]; [wp_steps; by simplify_eq|].
  destruct (a_q a !! pa) as [q|] eqn:Hq; [|done].
  destruct (pipe_of _ _ _ _ _ Hr Hq) as (p & Hp & Hpr). apply (on_pipe_wp _ p); [done|].
  destruct (got pa).
  - injection Ha as <- <-. apply (piperead_wp _ _ p q); [by destruct Hpr..|].
    intros p' t H1 H2 H3 H4. split; [|by eapply frep_queue].
    unfold read_result. destruct q; [|done]. destruct Hpr. rewrite pr_write0.
    destruct (is_open a pa true); [by destruct killed|done].
  - injection Ha as <- <-. unfold piperead. cbn [negb]. wp_steps. split; [done|]. by eapply frep_same.
Qed.

Lemma aalloc_slot s a i a1 : frep kend s a -> aalloc a = Some (i, a1) ->
  a_tab a !! i = Some (0%nat, ANone) /\ a1 = set_slot i (1%nat, ANone) a.
Proof.
  intros Hr Ha. unfold aalloc in Ha.
  destruct (list_find _ _) as [[j [n o]]|] eqn:E; simplify_eq. split; [|done].
  apply list_find_Some in E as (Hj & Hn & _). simpl in Hn. subst n.
  destruct (slot_of _ _ _ _ _ _ Hr Hj) as (f & _ & _ & H0 & _). simpl in H0. by rewrite Hj, H0.
Qed.

Lemma aclose_new a i o : a_tab a !! i = Some (0%nat, ANone) ->
  o = ANone -> aclose (set_slot i (1%nat, o) a) i = Some a.
Proof.
  intros Hi ->. unfold aclose. simpl. rewrite list_lookup_insert_eq by (by eapply lookup_lt_Some).
  f_equal. unfold set_slot. simpl. rewrite list_insert_insert_eq, list_insert_id by done. by destruct a.
Qed.

Lemma set_slot_comm a i j x y : i <> j ->
  set_slot i x (set_slot j y a) = set_slot j y (set_slot i x a).
Proof. intros. unfold set_slot, set_atab. simpl. by rewrite list_insert_insert_ne. Qed.

(** Two slots become the ends of a pipe in a fresh page. *)
Section new_pipe.
Context (a : amach) (i0 i1 n0 n1 : nat) (pa : Z) (l : list Z).
Context (H0 : a_tab a !! i0 = Some (n0, ANone)) (H1 : a_tab a !! i1 = Some (n1, ANone)).
Context (Hne : i0 <> i1).
Let a3 := AM (<[i1 := (1%nat, AEnd pa true)]> (<[i0 := (1%nat, AEnd pa false)]> (a_tab a)))
  (<[pa := []]> (a_q a)) l.

Lemma new_lookup j pa' w :
  objs a3 !! j = Some (AEnd pa' w) <->
  (pa' = pa /\ j = if w then i1 else i0) \/ (j <> i0 /\ j <> i1 /\ objs a !! j = Some (AEnd pa' w)).
Proof using Hne H0 H1.
  assert (Hl0 : (i0 < length (objs a))%nat) by (eapply lookup_lt_Some, objs_lookup; eassumption).
  assert (Hl1 : (i1 < length (objs a))%nat) by (eapply lookup_lt_Some, objs_lookup; eassumption).
  unfold objs, a3. simpl. rewrite !list_fmap_insert. simpl. fold (objs a).
  rewrite list_lookup_insert_Some, length_insert, list_lookup_insert_Some.
  clear -Hl0 Hl1 Hne. destruct w; naive_solver.
Qed.

Lemma new_open pa' w : is_open a3 pa' w = if decide (pa' = pa) then true else is_open a pa' w.
Proof using Hne H0 H1.
  apply Bool.eq_iff_eq_true. rewrite is_open_iff. setoid_rewrite new_lookup. case_decide as E.
  - split; [done|]. intros _. exists (if w then i1 else i0). by left.
  - rewrite is_open_iff. split; [intros (j & [[? ?]|(_ & _ & ?)]); [done|eauto]|].
    intros (j & Hj). exists j. right.
    split_and!; [intros ->; apply objs_lookup in H0; congruence|
                 intros ->; apply objs_lookup in H1; congruence|done].
Qed.
End new_pipe.

Lemma frep_new s s' a i0 i1 n0 n1 pa l f0 f1 junk :
  frep kend s a -> a_tab a !! i0 = Some (n0, ANone) -> a_tab a !! i1 = Some (n1, ANone) -> i0 <> i1 ->
  a_free a = pa :: l -> length junk = 512%nat ->
  slot_rep f0 (1%nat, AEnd pa false) -> slot_rep f1 (1%nat, AEnd pa true) ->
  f_lock s' = false -> ftab s' = <[i1 := f1]> (<[i0 := f0]> (ftab s)) ->
  pipes s' = <[pa := pipe_init junk]> (pipes s) -> free_pages kend (kpages s') l ->
  frep kend s' (AM (<[i1 := (1%nat, AEnd pa true)]> (<[i0 := (1%nat, AEnd pa false)]> (a_tab a)))
                 (<[pa := []]> (a_q a)) l).
Proof.
  intros Hr H0 H1 Hne Hf Hjunk Hs0 Hs1 Hl Ht Hps Hk.
  pose proof (new_open a i0 i1 n0 n1 pa l H0 H1 Hne) as Ho.
  pose proof (fr_free _ _ _ Hr) as Hfree. rewrite Hf in Hfree. destruct Hfree as [_ Hnd Hok _].
  apply NoDup_cons in Hnd as [Hnl _]. inversion_clear Hok as [|? ? Hpa _].
  assert (Hother : forall pa' w, is_open a pa' w = true -> pa' <> pa).
  { intros pa' w [q Hq]%(fr_live _ _ _ Hr) ->.
    destruct (pipe_of _ _ _ _ _ Hr Hq) as (p & _ & []). rewrite Hf in *. by destruct pr_used0; left. }
  split.
  - done.
  - rewrite Ht. simpl. do 2 (apply Forall2_insert; [|done]). by destruct Hr.
  - simpl. rewrite !length_insert. by destruct Hr.
  - done.
  - intros pa'. rewrite Hps. cbn [a_q]. destruct (decide (pa' = pa)) as [->|Hn].
    + rewrite !lookup_insert_eq. split; rewrite ?Ho, ?decide_True by done; try done; [|by left].
      split; simpl; try done; lia.
    + rewrite !lookup_insert_ne by done. pose proof (fr_pipes _ _ _ Hr pa') as H.
      destruct (pipes s !! pa'), (a_q a !! pa'); try done. destruct H.
      split; rewrite ?Ho, ?decide_False by done; try done.
      rewrite Hf in *. cbn [a_free]. by apply not_elem_of_cons in pr_used0 as [].
  - intros pa' w. rewrite Ho. cbn [a_q]. case_decide as E; [subst; by rewrite lookup_insert_eq|].
    intros H. rewrite lookup_insert_ne by (by intros ->). by eapply (fr_live _ _ _ Hr).
  - intros j j' pa' w Hj Hj'.
    apply (new_lookup a i0 i1 n0 n1 pa l H0 H1 Hne) in Hj, Hj'.
    destruct Hj as [[-> ->]|(_ & _ & Hj)], Hj' as [[? ->]|(_ & _ & Hj')]; try done.
    + destruct (Hother pa w); [|done]. apply is_open_iff. eauto.
    + subst. destruct (Hother pa w); [|done]. apply is_open_iff. eauto.
    + by eapply (fr_one _ _ _ Hr).
Qed.

Lemma pipealloc_rep s a junk : frep kend s a -> length junk = 512%nat ->
  wp (pipealloc kend junk) s (fun r s' _ =>
    let '(v, slots, a') := apipe a in
    r.1 = v /\ frep kend s' a' /\
    (v = 0 -> exists i0 i1, r.2 = (Some i0, Some i1) /\ slots = [Z.of_nat i0; Z.of_nat i1])).
Proof.
  intros Hr Hjunk. unfold pipealloc, apipe. wp_steps.
  eapply wp_mono; [by apply filealloc_rep|]. intros r s1 t1 H1.
  destruct (aalloc a) as [[i0 a1]|] eqn:Ha1; destruct H1 as [-> Hr1].
  2: { unfold pipealloc_bad. cbn [Z.eqb negb kwhen]. by wp_steps. }
  destruct (aalloc_slot _ _ _ _ Hr Ha1) as [Hi0 ->].
  wp_steps. eapply wp_mono; [by apply filealloc_rep|]. intros r s2 t2 H2.
  destruct (aalloc (set_slot i0 (1%nat, ANone) a)) as [[i1 a2]|] eqn:Ha2; destruct H2 as [-> Hr2].
  2: { unfold pipealloc_bad. cbn [Z.eqb negb kwhen]. wp_steps.
       eapply wp_mono; [apply (fileclose_rep _ _ _ a Hr2)|intros; by wp_steps]. by apply aclose_new. }
  destruct (aalloc_slot _ _ _ _ Hr1 Ha2) as [Hi1 ->].
  assert (Hne : i0 <> i1).
  { intros ->. simpl in Hi1. rewrite list_lookup_insert_eq in Hi1; [done|]. by eapply lookup_lt_Some. }
  set (a1 := set_slot i0 _ a) in *. set (a2 := set_slot i1 _ a1) in *.
  assert (Hs0 : a_tab a2 !! i0 = Some (1%nat, ANone)).
  { simpl. rewrite list_lookup_insert_ne, list_lookup_insert_eq; [done| |done]. by eapply lookup_lt_Some. }
  assert (Hs1 : a_tab a2 !! i1 = Some (1%nat, ANone)).
  { simpl. apply list_lookup_insert_eq. by eapply lookup_lt_Some. }
  wp_steps. pose proof (fr_free _ _ _ Hr2) as Hfp. apply (kalloc_wp _ _ _ _ Hfp).
  intros k _ _ Hk. cbn [a_free a2 a1 set_slot set_atab] in Hk |- *.
  destruct (a_free a) as [|pa l] eqn:Hf.
  - unfold pipealloc_bad. cbn [Z.eqb negb kwhen]. wp_steps.
    assert (Hr3 : frep kend (lput the_pages k s2) a2).
    { destruct Hr2. split; try done. simpl. by rewrite Hf. }
    eapply wp_mono; [apply (fileclose_rep _ _ _ (set_slot i1 (1%nat, ANone) a) Hr3)|].
    { unfold a2, a1. rewrite set_slot_comm by done. apply aclose_new; [|done].
      simpl. by rewrite list_lookup_insert_ne. }
    intros ? s4 t4 Hr4. wp_steps. eapply wp_mono; [apply (fileclose_rep _ _ _ a Hr4)|intros; by wp_steps].
    apply aclose_new; [|done]. simpl in Hi1. by rewrite list_lookup_insert_ne in Hi1.
  - simpl in Hfp. rewrite Hf in Hfp. pose proof (fp_ok _ _ _ Hfp) as Hok.
    inversion_clear Hok as [|? ? (_ & _ & _ & Hpos) _]. destruct (Z.eqb_spec pa 0); [lia|].
    destruct (slot_of _ _ _ _ _ _ Hr2 Hs0) as (f0 & Hf0 & Hrf0 & _).
    destruct (slot_of _ _ _ _ _ _ Hr2 Hs1) as (f1 & Hf1 & Hrf1 & _).
    unfold upd_file. wp_steps. split; [done|]. split; [|eauto].
    apply (frep_new s2 _ a2 i0 i1 1 1 pa l (set_fpipe 1 0 pa f0) (set_fpipe 0 1 pa f1) junk);
      try done; [apply Hr2|].
    simpl. rewrite (alter_as_insert _ (ftab s2) i0 f0 Hf0), (alter_as_insert _ _ i1 f1); [done|].
    by rewrite list_lookup_insert_ne.
Qed.

(** ** Properties *)

(** The calls on the table. *)
Definition file_op (junk : list Z) (o : fop) : K (kern S) (Z * list Z) :=
  match o with
  | FPipe =>
      let! (r, fs) := pipealloc kend junk in
      kret (r, match fs with
               | (Some i0, Some i1) => if r =? 0 then [Z.of_nat i0; Z.of_nat i1] else []
               | _ => []
               end)
  | FDup i => let! j := filedup i in kret (Z.of_nat j, [])
  | FClose i => fileclose kend i ;;; kret (0, [])
  | FWrite i bs => let! r := filewrite got killed i bs (Z.of_nat (length bs)) in kret (r, [])
  | FRead i n => fileread got killed i (Z.of_nat n)
  end.

Fixpoint file_ops (junk : list Z) (os : list fop) : K (kern S) (list (Z * list Z)) :=
  match os with
  | [] => kret []
  | o :: os' => let! r := file_op junk o in let! rs := file_ops junk os' in kret (r :: rs)
  end.

Lemma file_op_rep junk o s a r a' :
  frep kend s a -> length junk = 512%nat -> aop got killed o a = Some (r, a') ->
  wp (file_op junk o) s (fun r' s' _ => r' = r /\ frep kend s' a').
Proof.
  intros Hr Hjunk Ha. destruct o as [|i|i|i bs|i n]; simpl in Ha |- *.
  - wp_steps. eapply wp_mono; [by apply (pipealloc_rep s a)|]. injection Ha as Ha.
    intros [v [o0 o1]] s1 t1 H. destruct (apipe a) as [[v' slots] a1] eqn:E.
    destruct H as (Hv & Hr' & Hs). simpl in Hv, Hs. simplify_eq. wp_steps. split; [|done].
    destruct (Z.eqb_spec v' 0) as [->|Hv].
    + destruct (Hs eq_refl) as (i0 & i1 & ? & ->). by simplify_eq.
    + unfold apipe in E. repeat case_match; simplify_eq; done.
  - destruct (adup a i) as [a1|] eqn:E; simplify_eq/=. wp_steps.
    eapply wp_mono; [by apply (filedup_rep s a)|]. intros ? s1 t1 [-> H]. by wp_steps.
  - destruct (aclose a i) as [a1|] eqn:E; simplify_eq/=. wp_steps.
    eapply wp_mono; [by apply (fileclose_rep s a)|]. intros ? s1 t1 H. by wp_steps.
  - destruct (awrite got killed a i bs) as [[v a1]|] eqn:E; simplify_eq/=. wp_steps.
    eapply wp_mono; [by apply (filewrite_rep s a)|]. intros ? s1 t1 [-> H]. by wp_steps.
  - by apply (fileread_rep s a).
Qed.

(** C17. Files and pipes, together with the page allocator, implement an abstract table of
    reference counts and byte queues: over any sequence of pipealloc, filedup, fileclose,
    filewrite and fileread on descriptors that are held, every call returns what the
    abstract table says - a new pipe in the two lowest free slots and a free page, or -1
    with everything given back; bytes in order; end of file, errors when an end is used
    the wrong way or the other is closed - and a pipe's page is in use exactly while a
    slot refers to one of its ends: it is freed by the last close, not before, and once. *)
Theorem files_refine junk os s a rs a' :
  frep kend s a -> length junk = 512%nat -> aops got killed os a = Some (rs, a') ->
  wp (file_ops junk os) s (fun rs' s' _ => rs' = rs /\ frep kend s' a').
Proof.
  intros Hr Hjunk. revert s a rs Hr. induction os as [|o os IH]; intros s a rs Hr Ha; simpl in *.
  - simplify_eq. by wp_steps.
  - destruct (aop got killed o a) as [[r a1]|] eqn:E1; simplify_eq/=.
    destruct (aops got killed os a1) as [[rs1 a2]|] eqn:E2; simplify_eq/=.
    wp_steps. eapply wp_mono; [by apply (file_op_rep junk o s a)|]. intros ? s1 t1 [-> Hr1].
    wp_steps. eapply wp_mono; [by apply (IH s1 a1)|]. intros ? s2 t2 [-> Hr2]. by wp_steps.
Qed.
End wp.

(** The table after boot, with sockets that do nothing. *)
#[export] Instance demo_sock : SockOps (logsys memdisk) := {
  DestorySocket _ := kret tt;
  SocketRead _ _ := kret (-1, []);
  SocketWrite _ _ _ := kret (-1);
}.
Definition demo_kern : kern (logsys memdisk) :=
  Kern false (replicate NFILE zero_file) ∅ demo_kmem (demo_fsys boot_store).
Definition demo_pages : list Z := rev (page_range demo_p2 4) ++ rev (page_range demo_p1 6).
Definition demo_am : amach := AM (replicate NFILE (0%nat, ANone)) ∅ demo_pages.

Lemma demo_frep : frep demo_kend demo_kern demo_am.
Proof.
  split.
  - done.
  - apply Forall2_replicate. by repeat split.
  - done.
  - exact demo_free.
  - intros pa. simpl. by rewrite !lookup_empty.
  - intros pa w [i Hi]%is_open_iff. unfold objs, demo_am in Hi. cbn [a_tab] in Hi.
    rewrite fmap_replicate in Hi. by apply lookup_replicate in Hi as [? _].
  - intros i j pa w Hi. unfold objs, demo_am in Hi. cbn [a_tab] in Hi.
    rewrite fmap_replicate in Hi. by apply lookup_replicate in Hi as [? _].
Qed.

(** A pipe is made, used, and closed: its page is free again at the end. *)
Lemma files_refine_witness :
  wp (file_ops demo_kend (fun _ => true) false (replicate 512 0)
        [FPipe; FWrite 1 [7; 8; 9]; FRead 0 2; FDup 0; FClose 0; FClose 1; FRead 0 5; FRead 0 5; FClose 0])
    demo_kern (fun rs s' _ =>
      rs = [(0, [0; 1]); (3, []); (2, [7; 8]); (0, []); (0, []); (0, []); (1, [9]); (0, []); (0, [])] /\
      frep demo_kend s' demo_am).
Proof.
  refine (files_refine demo_kend (fun _ => true) false (replicate 512 0) _ demo_kern demo_am _ _ demo_frep _ _).
  - reflexivity.
  - vm_compute. reflexivity.
Defined.
