(* ===== verification/Syscall.v ===== *)
(** * System calls and their arguments: kernel/syscall.c

    The state is the process table over the rest of the kernel: the memory of the
    current process (the bytes from address 0 on), the kernel's files, and the lines the
    dispatcher printed.  Arguments come from the registers saved in the trap frame; an
    access to user memory that is not there faults. *)

From stdpp Require Import base list gmap strings.
From Stdlib Require Import ZArith Lia.
From S2P Require Import Prelude CString Bytes Spinlock Proc Kalloc Pipe Disk Bio Cache Log Store Fs File.
Open Scope Z_scope.

Record uenv (S : Type) := Uenv {
  umem : list Z;                          (* memory of the current process *)
  ker : kern S;
  ticks : Z;
  lastsyscall : Z;                        (* proc->lastsyscall *)
  printed : list (Z * list Z * Z);        (* pid, name and number of unknown calls *)
}.
Arguments Uenv {S}.
Arguments umem {S}.
Arguments ker {S}.
Arguments ticks {S}.
Arguments lastsyscall {S}.
Arguments printed {S}.

Section state.
Context {S : Type}.
Notation St := (ptable (uenv S)).
Notation UK := (K (ptable (uenv S))).
Implicit Types (s : ptable (uenv S)) (e : uenv S).

Definition set_umem v e : uenv S := Uenv v (ker e) (ticks e) (lastsyscall e) (printed e).
Definition set_ker v e : uenv S := Uenv (umem e) v (ticks e) (lastsyscall e) (printed e).
Definition set_lastsyscall v e : uenv S := Uenv (umem e) (ker e) (ticks e) v (printed e).
Definition set_printed v e : uenv S := Uenv (umem e) (ker e) (ticks e) (lastsyscall e) v.
Definition on_env (f : uenv S -> uenv S) s : St := set_penv (f (penv s)) s.
Definition the_kern : lens St (kern S) :=
  Lens (fun s => ker (penv s)) (fun k s => on_env (set_ker k) s).

(** [*proc] *)
Definition me : UK proc := let! i := myproc in get_proc i.
Definition upd_me (f : proc -> proc) : UK unit := let! i := myproc in upd_proc i f.

(** [n] bytes of user memory at [a], read and written. *)
Definition read_user (a : Z) (n : nat) : UK (list Z) :=
  let! s := kget in
  let m := umem (penv s) in
  if decide (0 <= a /\ (Z.to_nat a + n <= length m)%nat) then kret (slice m (Z.to_nat a) n) else fault.
Definition write_user (a : Z) (d : list Z) : UK unit :=
  let! s := kget in
  let m := umem (penv s) in
  if decide (d = []) then kret tt
  else if decide (0 <= a /\ (Z.to_nat a + length d <= length m)%nat) then
    kmod (on_env (set_umem (splice m (Z.to_nat a) d)))
  else fault.
(** The memory from the pointer [a] on. *)
Definition user_from (a : Z) : UK (list Z) :=
  let! s := kget in kret (drop (Z.to_nat a) (umem (penv s))).

(** ** Fetching *)

(** The result is the value stored in [*ip]; [None] is the return value -1. *)
Definition fetchint (addr : Z) : UK (option Z) :=
  let! p := me in
  if ((sz p <=? addr) || (sz p <? u64 (addr + 4)))%bool then kret None
  else let! d := read_user addr 4 in kret (Some (i32 (le_int d))).

Definition fetchuintp (addr : Z) : UK (option Z) :=
  let! p := me in
  if ((sz p <=? addr) || (sz p <? u64 (addr + 8)))%bool then kret None
  else let! d := read_user addr 8 in kret (Some (le_int d)).

(** [for (s = *pp; s < ep; s++) if ( *s == 0) return s - *pp]; there are [fuel] bytes
    before [ep]. *)
Fixpoint fetchstr_loop (fuel : nat) (s : Z) (pp ep : Z) : UK Z :=
  if s <? ep then
    match fuel with
    | O => kstop NoFuel
    | Datatypes.S fuel' =>
        let! d := read_user s 1 in
        if bool_decide (d = [0]) then kret (i32 (s - pp)) else fetchstr_loop fuel' (s + 1) pp ep
    end
  else kret (-1).

(** Returns the length of the string, or -1; [*pp] is [addr]. *)
Definition fetchstr (addr : Z) : UK Z :=
  let! p := me in
  if sz p <=? addr then kret (-1)
  else fetchstr_loop (Z.to_nat (sz p - addr)) addr addr (sz p).

(** [tf] holds the registers of the trap frame after eax: rbx, rcx, rdx, rbp, rsi, rdi, r8,
    r9, ... *)
Definition tf_reg (k : nat) : UK Z :=
  let! p := me in match tf p !! k with Some v => kret v | None => fault end.

Definition fetcharg (n : nat) : UK Z :=
  match n with
  | 0%nat => tf_reg 5          (* rdi *)
  | 1%nat => tf_reg 4          (* rsi *)
  | 2%nat => tf_reg 2          (* rdx *)
  | 3%nat => tf_reg 1          (* rcx *)
  | 4%nat => tf_reg 6          (* r8 *)
  | 5%nat => tf_reg 7          (* r9 *)
  | _ => panic "invalid fetcharg parameter"
  end.

Definition argint (n : nat) : UK Z := let! v := fetcharg n in kret (i32 v).
Definition arglong (n : nat) : UK Z := let! v := fetcharg n in kret (i64 v).
Definition arguintp (n : nat) : UK Z := fetcharg n.

(** The pointer, when it passes the check. *)
Definition argptr (n : nat) (size : Z) : UK (option Z) :=
  let! i := arguintp n in
  let! p := me in
  if ((sz p <=? i) || (sz p <? u64 (i + size)))%bool then kret None else kret (Some i).

(** The result of [fetchstr] and the pointer. *)
Definition argstr (n : nat) : UK (Z * Z) :=
  let! addr := arguintp n in
  let! r := fetchstr addr in
  kret (r, addr).

(** ** Dispatch *)

(** [syscalls] is the table; the handlers return int, which the assignment to the unsigned
    long eax extends. *)
Definition syscall (syscalls : list (option (UK Z))) : UK unit :=
  let! p := me in
  let num := i32 (tf_eax p) in
  match (if (0 <? num) && (num <? Z.of_nat (length syscalls))
         then mjoin (syscalls !! Z.to_nat num) else None)%bool with
  | Some handler =>
      kmod (on_env (set_lastsyscall num)) ;;;
      let! r := handler in
      upd_me (fun p => set_tf (tf p) (u64 (i32 r)) p)
  | None =>
      kmod (on_env (fun e => set_printed (printed e ++ [(pid p, pname_ p, num)]) e)) ;;;
      upd_me (fun p => set_tf (tf p) (u64 (-1)) p)
  end.
End state.

(** ** Lemmas *)

(** The process [p] at index [i] is the current one. *)
Definition running {E} (s : ptable E) (i : nat) (p : proc) : Prop :=
  cur s = Some i /\ ptab s !! i = Some p.

(** The value of argument [n] of the call of [p]. *)
Definition arg_reg (p : proc) (n : nat) : option Z :=
  k ← [5; 4; 2; 1; 6; 7]%nat !! n; tf p !! k.

(** No NUL before the end of the process's memory. *)
Definition unterminated (m : list Z) (a ep : Z) : Prop :=
  forall k, a <= k < ep -> m !! Z.to_nat k <> Some 0.

Section wp.
Context {S : Type}.
Implicit Types (s : ptable (uenv S)).

Lemma me_wp s i p (Q : proc -> ptable (uenv S) -> list event -> Prop) :
  running s i p -> Q p s [] -> wp me s Q.
Proof.
  intros [Hc Hp] HQ. unfold me, myproc, get_proc. wp_steps. rewrite Hc. wp_steps. rewrite Hp. by wp_steps.
Qed.

Lemma upd_me_wp s i p f (Q : unit -> ptable (uenv S) -> list event -> Prop) :
  running s i p -> Q tt (set_ptab (alter f i (ptab s)) s) [] -> wp (upd_me f) s Q.
Proof. intros [Hc Hp] HQ. unfold upd_me, myproc, upd_proc. wp_steps. rewrite Hc. by wp_steps. Qed.

Lemma fetcharg_wp s i p n v (Q : Z -> ptable (uenv S) -> list event -> Prop) :
  running s i p -> arg_reg p n = Some v -> Q v s [] -> wp (fetcharg n) s Q.
Proof.
  intros Hr Hv HQ. unfold arg_reg in Hv.
  do 6 (destruct n as [|n]; [simpl in Hv |- *; unfold tf_reg; wp_steps; apply (me_wp s i p); [done|];
    rewrite Hv; by wp_steps|]).
  done.
Qed.

Lemma argint_wp s i p n v (Q : Z -> ptable (uenv S) -> list event -> Prop) :
  running s i p -> arg_reg p n = Some v -> Q (i32 v) s [] -> wp (argint n) s Q.
Proof. intros Hr Hv HQ. unfold argint. wp_steps. apply (fetcharg_wp s i p n v); [done|done|]. by wp_steps. Qed.

Lemma argptr_wp s i p n v size (Q : option Z -> ptable (uenv S) -> list event -> Prop) :
  running s i p -> arg_reg p n = Some v -> 0 <= v < 2 ^ 64 -> 0 <= size < 2 ^ 31 -> sz p < 2 ^ 31 ->
  Q (if decide (v < sz p /\ v + size <= sz p) then Some v else None) s [] -> wp (argptr n size) s Q.
Proof.
  intros Hr Hv Hv64 Hsize Hsz HQ. unfold argptr, arguintp. wp_steps.
  apply (fetcharg_wp s i p n v); [done|done|]. wp_steps. apply (me_wp s i p); [done|].
  destruct (Z.leb_spec (sz p) v) as [H|H]; simpl.
  - wp_steps. by rewrite decide_False in HQ by lia.
  - rewrite u64_small by lia. destruct (Z.ltb_spec (sz p) (v + size)); wp_steps.
    + by rewrite decide_False in HQ by lia.
    + by rewrite decide_True in HQ by lia.
Qed.

Lemma read_byte_wp s a c (Q : list Z -> ptable (uenv S) -> list event -> Prop) :
  0 <= a -> umem (penv s) !! Z.to_nat a = Some c -> Q [c] s [] -> wp (read_user a 1) s Q.
Proof.
  intros Ha Hc HQ. unfold read_user. wp_steps. pose proof (lookup_lt_Some _ _ _ Hc).
  rewrite decide_True by lia. wp_steps. unfold slice.
  by rewrite (drop_S _ c).
Qed.

(** The scan from [x] on: [fetchstr]'s answer in terms of the memory. *)
Lemma fetchstr_loop_wp fuel s x pp ep (Q : Z -> ptable (uenv S) -> list event -> Prop) :
  0 <= pp <= x -> ep - x <= Z.of_nat fuel -> ep < 2 ^ 31 -> ep <= Z.of_nat (length (umem (penv s))) ->
  (unterminated (umem (penv s)) x ep -> Q (-1) s []) ->
  (forall k, x <= k < ep -> umem (penv s) !! Z.to_nat k = Some 0 -> unterminated (umem (penv s)) x k ->
     Q (k - pp) s []) ->
  wp (fetchstr_loop fuel x pp ep) s Q.
Proof.
  revert x. induction fuel as [|fuel IH]; intros x Hx Hf Hep Hlen Hno Hyes; cbn [fetchstr_loop];
    destruct (Z.ltb_spec x ep) as [Hlt|Hge]; try lia.
  1,3: wp_steps; apply Hno; intros k Hk; lia.
  destruct (lookup_lt_is_Some_2 (umem (penv s)) (Z.to_nat x)) as [c Hc]; [lia|].
  wp_steps. apply (read_byte_wp s x c); [lia|done|]. case_bool_decide as E.
  - simplify_eq. wp_steps. rewrite i32_small_id by lia. apply Hyes; [lia|done|]. intros k Hk. lia.
  - assert (Hhere : forall k, k = x -> umem (penv s) !! Z.to_nat k <> Some 0) by (intros k ->; congruence).
    apply IH; try lia.
    + intros Hu. apply Hno. intros k Hk. destruct (decide (k = x)); [by apply Hhere|]. apply Hu. lia.
    + intros k Hk H0 Hu. apply Hyes; [lia|done|]. intros j Hj.
      destruct (decide (j = x)); [by apply Hhere|]. apply Hu. lia.
Qed.

(** ** Properties *)

(** C18. The checks on the arguments of a system call are right, for a process of less than
    2 GB whose memory is there: an int argument is the low 32 bits of its register; a
    pointer to [size] bytes is accepted exactly when all of them lie below the size of the
    process (no 64-bit overflow slips through); a string is accepted exactly when it ends
    within the process, with its length, and no byte beyond the end of the process is read.
    Nothing is changed. *)
Theorem arguments_checked s i p n v size :
  running s i p -> arg_reg p n = Some v -> 0 <= v < 2 ^ 64 -> 0 <= size < 2 ^ 31 ->
  0 <= sz p < 2 ^ 31 -> sz p = Z.of_nat (length (umem (penv s))) ->
  wp (argint n) s (fun r s' _ => s' = s /\ r = i32 v) /\
  wp (argptr n size) s (fun r s' _ => s' = s /\
    r = if decide (v < sz p /\ v + size <= sz p) then Some v else None) /\
  wp (argstr n) s (fun r s' _ => s' = s /\ r.2 = v /\
    ((r.1 = -1 /\ unterminated (umem (penv s)) v (sz p)) \/
     (0 <= r.1 /\ v + r.1 < sz p /\ umem (penv s) !! Z.to_nat (v + r.1) = Some 0 /\
      unterminated (umem (penv s)) v (v + r.1)))).
Proof.
  intros Hr Hv Hv64 Hsize Hsz Hlen. split_and!.
  - by apply (argint_wp s i p n v).
  - apply (argptr_wp s i p n v); done || lia.
  - unfold argstr, arguintp. wp_steps. apply (fetcharg_wp s i p n v); [done|done|]. wp_steps.
    unfold fetchstr. wp_steps. apply (me_wp s i p); [done|]. destruct (Z.leb_spec (sz p) v).
    + wp_steps. split; [done|]. split; [done|]. left. split; [done|]. intros k Hk. lia.
    + apply fetchstr_loop_wp; try lia.
      * intros Hu. wp_steps. split; [done|]. split; [done|]. by left.
      * intros k Hk H0 Hu. wp_steps. split; [done|]. split; [done|]. right. simpl.
        replace (v + (k - v)) with k by lia. split_and!; try done; lia.
Qed.

(** A system call runs the handler its number selects, once, with the number recorded
    in the process, and the handler's result, extended to 64 bits, in eax; a number that
    selects no handler is reported and answered with -1, and nothing else changes. *)
Theorem syscall_dispatches s i p table num :
  running s i p -> i32 (tf_eax p) = num ->
  (forall h Q, 0 < num -> table !! Z.to_nat num = Some (Some h) ->
    wp h (on_env (set_lastsyscall num) s) (fun r s' t => exists p', running s' i p' /\
      Q (set_ptab (<[i := set_tf (tf p') (u64 (i32 r)) p']> (ptab s')) s') t) ->
    wp (syscall table) s (fun _ s' t => Q s' t)) /\
  ((num <= 0 \/ mjoin (table !! Z.to_nat num) = None) ->
    wp (syscall table) s (fun _ s' t => t = [] /\
      s' = set_ptab (<[i := set_tf (tf p) (2 ^ 64 - 1) p]> (ptab s))
             (on_env (fun e => set_printed (printed e ++ [(pid p, pname_ p, num)]) e) s))).
Proof.
  intros Hr Hnum. split.
  - intros h Q Hpos Hh Hwp. unfold syscall. wp_steps. apply (me_wp s i p); [done|]. rewrite Hnum.
    pose proof (lookup_lt_Some _ _ _ Hh).
    rewrite (proj2 (Z.ltb_lt 0 num)), (proj2 (Z.ltb_lt num _)) by lia. cbn [andb]. rewrite Hh. cbn [mjoin option_join].
    wp_steps. eapply wp_mono; [exact Hwp|]. intros r s' t (p' & Hr' & HQ). cbn beta.
    apply (upd_me_wp s' i p'); [done|]. destruct Hr' as [_ Hp'].
    rewrite (alter_as_insert _ _ _ p' Hp'), app_nil_r. exact HQ.
  - intros Hno. unfold syscall. wp_steps. apply (me_wp s i p); [done|]. rewrite Hnum.
    match goal with |- wp (match ?x with Some _ => _ | None => _ end) _ _ => replace x with (@None (K (ptable (uenv S)) Z)) end.
    + wp_steps. eapply upd_me_wp; [exact Hr|]. split; [done|].
      by rewrite (alter_as_insert _ _ _ p (proj2 Hr)).
    + destruct Hno as [Hle| ->]; [|by case_match]. by rewrite (proj2 (Z.ltb_ge 0 num)).
Qed.
End wp.

(** A negative size passes the check when the sum wraps: the pointer 16 with size -8 is
    accepted, and so is any size above -16. *)
Theorem argptr_negative_size {S} (s : ptable (uenv S)) i p n v size :
  running s i p -> arg_reg p n = Some v -> 0 <= v < sz p -> sz p < 2 ^ 31 -> - v <= size < 0 ->
  wp (argptr n size) s (fun r s' _ => s' = s /\ r = Some v).
Proof.
  intros Hr Hv Hlt Hsz Hsize. unfold argptr, arguintp. wp_steps.
  apply (fetcharg_wp s i p n v); [done|done|]. wp_steps. apply (me_wp s i p); [done|].
  rewrite (proj2 (Z.leb_gt _ _)), u64_small, (proj2 (Z.ltb_ge _ _)) by lia. by wp_steps.
Qed.

(** A process of 64 bytes with the string hi at address 16, which is its first argument. *)
Definition demo_uproc : proc :=
  Proc 64 4096 8192 RUNNING 3 None [0; 0; 0; 0; 70; 16; 0; 0] 11 None 0 (replicate NOFILE None) None
    [105; 110; 105; 116] 0 128 0 None None.
Definition demo_uenv : uenv unit :=
  Uenv (splice (replicate 64 7) 16 [104; 105; 0])
    (Kern false [] ∅ demo_kmem0 (Fsys false [] false [] 0 [] 1 None tt)) 0 0 [].
Definition demo_user : ptable (uenv unit) :=
  Ptable false [demo_uproc; zero_proc] 4 None (Some 0%nat) 0 false true 0 false demo_uenv.

Lemma demo_running : running demo_user 0 demo_uproc.
Proof. done. Qed.

Lemma arguments_checked_witness :
  wp (argint 0) demo_user (fun r s' _ => s' = demo_user /\ r = i32 16) /\
  wp (argptr 0 48) demo_user (fun r s' _ => s' = demo_user /\
    r = if decide (16 < 64 /\ 16 + 48 <= 64) then Some 16 else None) /\
  wp (argstr 0) demo_user (fun r s' _ => s' = demo_user /\ r.2 = 16 /\
    ((r.1 = -1 /\ unterminated (umem (penv demo_user)) 16 64) \/
     (0 <= r.1 /\ 16 + r.1 < 64 /\ umem (penv demo_user) !! Z.to_nat (16 + r.1) = Some 0 /\
      unterminated (umem (penv demo_user)) 16 (16 + r.1)))).
Proof.
  refine (arguments_checked demo_user 0 demo_uproc 0 16 48 demo_running _ _ _ _ _).
  - reflexivity.
  - lia.
  - lia.
  - simpl. lia.
  - reflexivity.
Defined.

(** Call 11 is getpid; call 2 is not in the table. *)
Definition demo_table : list (option (K (ptable (uenv unit)) Z)) :=
  replicate 11 None ++ [Some (let! p := me in kret (pid p))].

Lemma syscall_dispatches_witness :
  wp (syscall demo_table) demo_user (fun _ s' t =>
    tf_eax <$> ptab s' !! 0%nat = Some 3 /\ lastsyscall (penv s') = 11).
Proof.
  refine (proj1 (syscall_dispatches demo_user 0 demo_uproc demo_table 11 demo_running _)
            _ (fun s' t => tf_eax <$> ptab s' !! 0%nat = Some 3 /\ lastsyscall (penv s') = 11) _ eq_refl _).
  - reflexivity.
  - lia.
  - vm_compute. eexists. split; [split; reflexivity|]. split; reflexivity.
Defined.
