(* ===== verification/SysFile.v ===== *)
(** * File system calls: kernel/sysfile.c

    The handlers of the system calls on files, over the file table, the inode layer and
    the log.  [proc->cwd] is the field of the file system's state. *)

From stdpp Require Import base list gmap strings.
From Stdlib Require Import ZArith Lia.
From S2P Require Import Prelude CString Bytes Spinlock Proc Kalloc Pipe Disk Bio Cache Log Store Fs File Syscall.
Open Scope Z_scope.

Definition O_RDONLY : Z := Z.shiftl 1 1.
Definition O_WRONLY : Z := Z.shiftl 1 2.
Definition O_RDWR : Z := Z.shiftl 1 3.
Definition O_CREATE : Z := Z.shiftl 1 4.
Definition LOOP0 : Z := 3.
Definition MAXARG : nat := 32.

(** [struct stat] as it lies in memory: type, dev, ino, nlink and size at 0, 4, 8, 12 and 16,
    with padding that is not written. *)
Definition stat_fields (st : stat) : list (Z * list Z) :=
  [(0, le_bytes 2 (st_type st)); (4, le_bytes 4 (st_dev st)); (8, le_bytes 4 (st_ino st));
   (12, le_bytes 2 (st_nlink st)); (16, le_bytes 4 (st_size st))].

Section sysfile.
Context {S : Type} `{HB : BlockOps S} `{HE : FsEnv S} `{HT : TxOps S} `{HK : SockOps S}.
(** The end of the kernel image; whether a pipe's lock is obtained in time; the contents of
    fresh memory (a page, and the name buffers on the stack); and exec. *)
Context (kend : Z) (got : Z -> bool) (page_junk name_junk : list Z).
Context (exec : list Z -> list Z -> K (ptable (uenv S)) Z).
Notation UK := (K (ptable (uenv S))).

Definition kop {A} (m : K (kern S) A) : UK A := zoom the_kern m.
Definition fsop {A} (m : K (fsys S) A) : UK A := kop (zoom the_fs m).
Definition ubegin_op : UK unit := kop kbegin_op.
Definition uend_op : UK unit := kop kend_op.
Definition was_killed : UK bool := let! p := me in kret (negb (killed p =? 0)).

(** ** Descriptors *)

(** The descriptor and its file. *)
Definition argfd (n : nat) : UK (option (Z * nat)) :=
  let! fd := argint n in
  if ((fd <? 0) || (Z.of_nat NOFILE <=? fd))%bool then kret None
  else
    let! p := me in
    match mjoin (ofile p !! Z.to_nat fd) with
    | Some f => kret (Some (fd, f))
    | None => kret None
    end.

Definition set_fd (fd : nat) (f : option nat) : UK unit :=
  upd_me (fun p => set_ofile (<[fd := f]> (ofile p)) p).

Definition fdalloc (f : nat) : UK Z :=
  let! r := for_return (seq 0 NOFILE) (fun fd =>
    let! p := me in
    match mjoin (ofile p !! fd) with
    | None => set_fd fd (Some f) ;;; kret (Some (Z.of_nat fd))
    | Some _ => kret None
    end) in
  kret (default (-1) r).

Definition sys_dup : UK Z :=
  let! a := argfd 0 in
  match a with
  | None => kret (-1)
  | Some (_, f) =>
      let! fd := fdalloc f in
      if fd <? 0 then kret (-1) else kop (filedup f) ;;; kret fd
  end.

Definition sys_read : UK Z :=
  let! a := argfd 0 in
  match a with
  | None => kret (-1)
  | Some (_, f) =>
      let! n := argint 2 in
      let! p := argptr 1 n in
      match p with
      | None => kret (-1)
      | Some p =>
          let! k := was_killed in
          let! (r, d) := kop (fileread got k f n) in
          write_user p d ;;;
          kret r
      end
  end.

Definition sys_seek : UK Z :=
  let! a := argfd 0 in
  match a with
  | None => kret (-666)
  | Some (_, f) => let! offset := argint 1 in kop (fileseek f offset)
  end.

Definition sys_write : UK Z :=
  let! a := argfd 0 in
  match a with
  | None => kret (-1)
  | Some (_, f) =>
      let! n := argint 2 in
      let! p := argptr 1 n in
      match p with
      | None => kret (-1)
      | Some p =>
          let! k := was_killed in
          let! src := user_from p in
          kop (filewrite got k f src n)
      end
  end.

Definition sys_close : UK Z :=
  let! a := argfd 0 in
  match a with
  | None => kret (-1)
  | Some (fd, f) => set_fd (Z.to_nat fd) None ;;; kop (fileclose kend f) ;;; kret 0
  end.

Definition sys_fstat : UK Z :=
  let! a := argfd 0 in
  match a with
  | None => kret (-1)
  | Some (_, f) =>
      let! p := argptr 1 20 in
      match p with
      | None => kret (-1)
      | Some p =>
          let! (r, st) := kop (filestat f) in
          match st with
          | Some st => for_each (stat_fields st) (fun '(o, d) => write_user (p + o) d)
          | None => kret tt
          end ;;;
          kret r
      end
  end.

(** ** Links and directories *)

Definition add_nlink (d : Z) (p : inode) : inode := set_nlink (i16 (i_nlink p + d)) p.
Definition set_devnums (major minor : Z) (p : inode) : inode :=
  Inode (i_dev p) (i_inum p) (i_ref p) (i_flags p) (i_type p) (i16 major) (i16 minor)
    (i_nlink p) (i_size p) (i_addrs p).
Definition set_fscwd (v : option iref) (s : fsys S) : fsys S :=
  Fsys (fs1_lock s) (fs1_icache s) (vfs_lock s) (icache s) (unused_nodes s) (fsmap s) (ROOT_DEV s)
    v (store s).

(** [bad:] of [sys_link]: the link counted in advance is taken back. *)
Definition link_bad (ip : iref) : UK Z :=
  fsop (ilock (Some ip) ;;;
        upd_inode ip (add_nlink (-1)) ;;;
        iupdate ip ;;;
        iunlockput ip) ;;;
  uend_op ;;;
  kret (-1).

Definition sys_link : UK Z :=
  let! (r0, old) := argstr 0 in
  if r0 <? 0 then kret (-1)
  else
    let! (r1, new) := argstr 1 in
    if r1 <? 0 then kret (-1)
    else
      ubegin_op ;;;
      let! old_path := user_from old in
      let! found := fsop (namei old_path) in
      match found with
      | None => uend_op ;;; kret (-1)
      | Some ip =>
          fsop (ilock (Some ip)) ;;;
          let! p := fsop (get_inode ip) in
          if i_type p =? T_DIR then
            fsop (iunlockput ip) ;;; uend_op ;;; kret (-1)
          else
            fsop (upd_inode ip (add_nlink 1) ;;; iupdate ip ;;; iunlock (Some ip)) ;;;
            let! new_path := user_from new in
            let! (parent, name) := fsop (nameiparent new_path name_junk) in
            match parent with
            | None => link_bad ip
            | Some dp =>
                fsop (ilock (Some dp)) ;;;
                let! d := fsop (get_inode dp) in
                let! p := fsop (get_inode ip) in
                let! r := (if negb (i_dev d =? i_dev p) then kret (-1)
                           else fsop (dirlink dp name (i_inum p))) in
                if r <? 0 then fsop (iunlockput dp) ;;; link_bad ip
                else fsop (iunlockput dp ;;; iput ip) ;;; uend_op ;;; kret 0
            end
      end.

Definition isdirempty (dp : iref) : K (fsys S) bool :=
  let! d := get_inode dp in
  let! r := for_return (drop 2 (entry_offs (i_size d))) (fun off =>
    let! (n, de) := readi dp off DIRENT_SIZE in
    if negb (n =? DIRENT_SIZE) then panic "isdirempty: readi"
    else if negb (de_inum de =? 0) then kret (Some false)
    else kret None) in
  kret (default true r).

Definition DOT : list Z := [46; 0].
Definition DOTDOT : list Z := [46; 46; 0].

(** [bad:] of [sys_unlink]. *)
Definition unlink_bad (dp : iref) : UK Z := fsop (iunlockput dp) ;;; uend_op ;;; kret (-1).

Definition sys_unlink : UK Z :=
  let! (r0, addr) := argstr 0 in
  if r0 <? 0 then kret (-1)
  else
    ubegin_op ;;;
    let! path := user_from addr in
    let! (parent, name) := fsop (nameiparent path name_junk) in
    match parent with
    | None => uend_op ;;; kret (-1)
    | Some dp =>
        fsop (ilock (Some dp)) ;;;
        let! c1 := fsop (namecmp name DOT) in
        let! c2 := (if c1 =? 0 then kret 0 else fsop (namecmp name DOTDOT)) in
        if c2 =? 0 then unlink_bad dp
        else
          let! found := fsop (dirlookup dp name) in
          match found with
          | None => unlink_bad dp
          | Some (ip, off) =>
              fsop (ilock (Some ip)) ;;;
              let! p := fsop (get_inode ip) in
              if i_nlink p <? 1 then panic "unlink: nlink < 1"
              else
                let! keep := (if i_type p =? T_DIR then
                                let! e := fsop (isdirempty ip) in kret (negb e)
                              else kret false) in
                if keep then fsop (iunlockput ip) ;;; unlink_bad dp
                else
                  let! w := fsop (writei dp (replicate (Z.to_nat DIRENT_SIZE) 0) off DIRENT_SIZE) in
                  if negb (w =? DIRENT_SIZE) then panic "unlink: writei"
                  else
                    let! p := fsop (get_inode ip) in
                    kwhen (i_type p =? T_DIR)
                      (fsop (upd_inode dp (add_nlink (-1)) ;;; iupdate dp)) ;;;
                    fsop (iunlockput dp) ;;;
                    fsop (upd_inode ip (add_nlink (-1)) ;;; iupdate ip ;;; iunlockput ip) ;;;
                    uend_op ;;;
                    kret 0
          end
    end.

Definition create (path : list Z) (ty major minor : Z) : K (fsys S) (option iref) :=
  let! (parent, name) := nameiparent path name_junk in
  match parent with
  | None => kret None
  | Some dp =>
      ilock (Some dp) ;;;
      let! found := dirlookup dp name in
      match found with
      | Some (ip, _) =>
          iunlockput dp ;;;
          ilock (Some ip) ;;;
          let! p := get_inode ip in
          if ((ty =? T_FILE) && (i_type p =? T_FILE))%bool then kret (Some ip)
          else iunlockput ip ;;; kret None
      | None =>
          let! d := get_inode dp in
          let! ip := ialloc (i_dev d) ty in
          ilock (Some ip) ;;;
          upd_inode ip (fun p => set_nlink 1 (set_devnums major minor p)) ;;;
          iupdate ip ;;;
          kwhen (ty =? T_DIR)
            (upd_inode dp (add_nlink 1) ;;;
             iupdate dp ;;;
             let! p := get_inode ip in
             let! r := dirlink ip DOT (i_inum p) in
             let! d := get_inode dp in
             let! r := (if r <? 0 then kret r else dirlink ip DOTDOT (i_inum d)) in
             if r <? 0 then panic "create dots" else kret tt) ;;;
          let! p := get_inode ip in
          let! r := dirlink dp name (i_inum p) in
          if r <? 0 then panic "create: dirlink"
          else iunlockput dp ;;; kret (Some ip)
      end
  end.

(** The inode to open, locked; [None] after [end_op]. *)
Definition open_inode (path : list Z) (omode : Z) : UK (option iref) :=
  if has omode O_CREATE then
    let! r := fsop (create path T_FILE 0 0) in
    match r with
    | None => uend_op ;;; kret None
    | Some ip => kret (Some ip)
    end
  else
    let! r := fsop (namei path) in
    match r with
    | None => uend_op ;;; kret None
    | Some ip =>
        fsop (ilock (Some ip)) ;;;
        let! p := fsop (get_inode ip) in
        if ((i_type p =? T_DIR) && negb (omode =? O_RDONLY))%bool then
          fsop (iunlockput ip) ;;; uend_op ;;; kret None
        else kret (Some ip)
    end.

Definition open_bad (ip : iref) (f : option nat) : UK Z :=
  match f with Some f => kop (fileclose kend f) | None => kret tt end ;;;
  fsop (iunlockput ip) ;;;
  uend_op ;;;
  kret (-1).

Definition sys_open : UK Z :=
  let! (r0, addr) := argstr 0 in
  if r0 <? 0 then kret (-1)
  else
    let! omode := argint 1 in
    ubegin_op ;;;
    let! path := user_from addr in
    let! r := open_inode path omode in
    match r with
    | None => kret (-1)
    | Some ip =>
        let! f := kop filealloc in
        match f with
        | None => open_bad ip None
        | Some f =>
            let! fd := fdalloc f in
            if fd <? 0 then open_bad ip (Some f)
            else
              fsop (iunlock (Some ip)) ;;;
              uend_op ;;;
              kop (upd_file f (set_finode (b2z (negb (has omode O_WRONLY)))
                     (b2z (has omode O_WRONLY || has omode O_RDWR)) (Some ip))) ;;;
              kret fd
        end
    end.

(** What mkdir, mknod and mkvdev share once the arguments are fetched. *)
Definition create_node (mk : UK (option iref)) : UK Z :=
  ubegin_op ;;;
  let! r := mk in
  match r with
  | None => uend_op ;;; kret (-1)
  | Some ip => fsop (iunlockput ip) ;;; uend_op ;;; kret 0
  end.

Definition create_at (ty : Z) (nums : UK (Z * Z)) : UK (option iref) :=
  let! (r0, addr) := argstr 0 in
  if r0 <? 0 then kret None
  else
    let! (major, minor) := nums in
    let! path := user_from addr in
    fsop (create path ty (i16 major) (i16 minor)).

Definition sys_mkdir : UK Z := create_node (create_at T_DIR (kret (0, 0))).

Definition sys_mknod : UK Z :=
  create_node (create_at T_DEV
    (let! major := argint 1 in let! minor := argint 2 in kret (major, minor))).

Definition sys_mkvdev : UK Z :=
  let! p := me in
  if negb (blessed p =? PROC_BLESSED) then kret (-1)
  else create_node (create_at T_DEV (kret (LOOP0, pid p))).

Definition sys_chdir : UK Z :=
  ubegin_op ;;;
  let! (r0, addr) := argstr 0 in
  let! found := (if r0 <? 0 then kret None
                 else let! path := user_from addr in fsop (namei path)) in
  match found with
  | None => uend_op ;;; kret (-1)
  | Some ip =>
      fsop (ilock (Some ip)) ;;;
      let! p := fsop (get_inode ip) in
      if negb (i_type p =? T_DIR) then fsop (iunlockput ip) ;;; uend_op ;;; kret (-1)
      else
        fsop (iunlock (Some ip)) ;;;
        let! c := fsop (gets cwd) in
        match c with Some c => fsop (iput c) | None => fault end ;;;
        uend_op ;;;
        fsop (kmod (set_fscwd (Some ip))) ;;;
        kret 0
  end.

(** The loop of [sys_exec] at argument [MAXARG - left]: the pointers of the arguments. *)
Fixpoint exec_args (left : nat) (uargv : Z) : UK (option (list Z)) :=
  match left with
  | O => kret None
  | Datatypes.S left' =>
      let! v := fetchuintp (u64 (uargv + 8 * Z.of_nat (MAXARG - left))) in
      match v with
      | None => kret None
      | Some uarg =>
          if uarg =? 0 then kret (Some [])
          else
            let! r := fetchstr uarg in
            if r <? 0 then kret None
            else
              let! rest := exec_args left' uargv in
              kret (match rest with Some l => Some (uarg :: l) | None => None end)
      end
  end.

Definition sys_exec : UK Z :=
  let! (r0, addr) := argstr 0 in
  if r0 <? 0 then kret (-1)
  else
    let! uargv := arguintp 1 in
    let! args := exec_args MAXARG uargv in
    match args with
    | None => kret (-1)
    | Some argv => let! path := user_from addr in exec path argv
    end.

Definition sys_pipe : UK Z :=
  let! a := argptr 0 8 in
  match a with
  | None => kret (-1)
  | Some fd =>
      let! (r, fs) := kop (pipealloc kend page_junk) in
      match fs with
      | (Some rf, Some wf) =>
          if r <? 0 then kret (-1)
          else
            let! fd0 := fdalloc rf in
            let! fd1 := (if fd0 <? 0 then kret (-1) else fdalloc wf) in
            if fd1 <? 0 then
              kwhen (0 <=? fd0) (set_fd (Z.to_nat fd0) None) ;;;
              kop (fileclose kend rf) ;;;
              kop (fileclose kend wf) ;;;
              kret (-1)
            else
              write_user fd (le_bytes 4 fd0) ;;;
              write_user (fd + 4) (le_bytes 4 fd1) ;;;
              kret 0
      | _ => kret (-1)
      end
  end.
End sysfile.
