(* ===== verification/SysPipe.v ===== *)
(** * Descriptors: dup, close and pipe

    The system calls that make and drop descriptors, over the abstract table of open
    files of [FilePipe]. *)

From stdpp Require Import base list gmap strings.
From Stdlib Require Import ZArith Lia.
From S2P Require Import Prelude CString Bytes Spinlock Proc Kalloc Pipe Disk Bio Cache Log LogSafety Store Fs FsBlocks File FilePipe Syscall SysFile.
Open Scope Z_scope.

(** The lowest free descriptor. *)
Definition free_fd (p : proc) : option nat :=
  match list_find (fun o => o = None) (ofile p) with Some (fd, _) => Some fd | None => None end.
Definition with_fd (fd : nat) (f : option nat) (p : proc) : proc :=
  set_ofile (<[fd := f]> (ofile p)) p.

(** The process [p] at index [i] runs, with all its descriptors, and the open files are [a]. *)
Record urep {S} kend (s : ptable (uenv S)) (i : nat) (p : proc) (a : amach) : Prop := {
  ur_run : running s i p;
  ur_fds : length (ofile p) = NOFILE;
  ur_files : frep kend (ker (penv s)) a;
}.

Section descriptors.
Context {S : Type} `{HB : BlockOps S} `{HE : FsEnv S} `{HT : TxOps S} `{HK : SockOps S}.
Context (kend : Z) (got : Z -> bool) (page_junk : list Z).
Implicit Types (s : ptable (uenv S)) (a : amach).

(** The process changes. *)
Definition put_proc (i : nat) (p : proc) s : ptable (uenv S) := set_ptab (<[i := p]> (ptab s)) s.

Lemma running_put s i p p' : running s i p -> running (put_proc i p' s) i p'.
Proof. intros [Hc Hp]. split; [done|]. simpl. apply list_lookup_insert_eq. by eapply lookup_lt_Some. Qed.

Lemma put_proc_twice i p p' s : put_proc i p (put_proc i p' s) = put_proc i p s.
Proof. unfold put_proc, set_ptab. simpl. by rewrite list_insert_insert_eq. Qed.

Lemma put_proc_same i p s : running s i p -> put_proc i p s = s.
Proof. intros [_ Hp]. unfold put_proc, set_ptab. rewrite list_insert_id by done. by destruct s. Qed.

Lemma set_fd_wp s i p fd f (Q : unit -> ptable (uenv S) -> list event -> Prop) :
  running s i p -> Q tt (put_proc i (with_fd fd f p) s) [] -> wp (set_fd fd f) s Q.
Proof.
  intros Hr HQ. unfold set_fd. apply (upd_me_wp s i p); [done|].
  by rewrite (alter_as_insert _ _ _ p (proj2 Hr)).
Qed.

Lemma fdalloc_wp s i p f (Q : Z -> ptable (uenv S) -> Prop) :
  running s i p -> length (ofile p) = NOFILE ->
  match free_fd p with
  | Some fd => Q (Z.of_nat fd) (put_proc i (with_fd fd (Some f) p) s)
  | None => Q (-1) s
  end ->
  wp (fdalloc f) s (fun r s' _ => Q r s').
Proof.
  intros Hr Hlen HQ. unfold fdalloc. wp_steps.
  eapply wp_mono; [eapply (wp_for_return _ _
    (fun k s1 => s1 = s /\ forall j, (j < k)%nat -> mjoin (ofile p !! j) <> None)
    (fun r s1 => match r with
       | Some fd => Q fd s1
       | None => s1 = s /\ free_fd p = None end))|].
  - split; [done|lia].
  - intros k x s1 Hx [-> Hk]. apply lookup_seq in Hx as [-> Hlt]. simpl.
    wp_steps. apply (me_wp s i p); [done|].
    destruct (mjoin (ofile p !! k)) as [g|] eqn:E.
    + wp_steps. split; [done|]. intros j Hj. destruct (decide (j = k)) as [->|]; [by rewrite E|].
      apply Hk. lia.
    + wp_steps. apply (set_fd_wp s i p); [done|]. wp_steps.
      assert (free_fd p = Some k) as Hfree; [|by rewrite Hfree in HQ].
      unfold free_fd. destruct (lookup_lt_is_Some_2 (ofile p) k) as [o Ho]; [lia|].
      rewrite Ho in E. simpl in E. subst o.
      rewrite (proj2 (list_find_Some _ _ k None)); [done|]. split_and!; [done|done|].
      intros j y Hy Hj ->. specialize (Hk j Hj). by rewrite Hy in Hk.
  - intros s1 [-> Hk]. split; [done|]. unfold free_fd.
    rewrite (proj2 (list_find_None _ _)); [done|]. apply Forall_lookup. intros j o Hj ->.
    apply (Hk j); [rewrite length_seq, <-Hlen; by eapply lookup_lt_Some|by rewrite Hj].
  - intros [fd|] s1 t H1; wp_steps; [done|]. destruct H1 as [-> Hn]. by rewrite Hn in HQ.
Qed.

Lemma argfd_wp s i p v (Q : option (Z * nat) -> ptable (uenv S) -> list event -> Prop) :
  running s i p -> arg_reg p 0 = Some v -> length (ofile p) = NOFILE ->
  Q (if decide (0 <= i32 v) then
       match mjoin (ofile p !! Z.to_nat (i32 v)) with Some f => Some (i32 v, f) | None => None end
     else None) s [] ->
  wp (argfd 0) s Q.
Proof.
  intros Hr Hv Hlen HQ. unfold argfd. wp_steps. apply (argint_wp s i p 0 v); [done|done|].
  destruct (Z.ltb_spec (i32 v) 0); simpl.
  { wp_steps. by rewrite decide_False in HQ by lia. }
  rewrite decide_True in HQ by lia. change (Z.of_nat NOFILE) with 16. destruct (Z.leb_spec 16 (i32 v)).
  { wp_steps. rewrite lookup_ge_None_2 in HQ by (rewrite Hlen; unfold NOFILE; lia). exact HQ. }
  wp_steps. apply (me_wp s i p); [done|]. by destruct (mjoin _); wp_steps.
Qed.

Lemma urep_files s i p a k a' : urep kend s i p a -> frep kend k a' -> urep kend (lput the_kern k s) i p a'.
Proof. intros [] Hk. by split. Qed.

Lemma urep_fd s i p a fd f : urep kend s i p a -> urep kend (put_proc i (with_fd fd f p) s) i (with_fd fd f p) a.
Proof.
  intros [Hr Hl Hf]. split; [by eapply running_put| |done]. simpl. by rewrite length_insert.
Qed.

Lemma free_fd_lt p fd : free_fd p = Some fd -> ofile p !! fd = Some None.
Proof.
  unfold free_fd. destruct (list_find _ _) as [[j o]|] eqn:E; [|done]. intros [= <-].
  apply list_find_Some in E as (Hj & -> & _). done.
Qed.

Lemma free_fd_any p d f g :
  free_fd (with_fd d (Some f) p) = None -> free_fd (with_fd d (Some g) p) = None.
Proof.
  unfold free_fd. simpl.
  destruct (list_find _ (<[d := Some f]> _)) as [[]|] eqn:E; [done|]. intros _.
  apply list_find_None in E. rewrite (proj2 (list_find_None _ _)); [done|].
  rewrite Forall_lookup in E |- *. intros j o [(-> & <- & _)|[Hne Hj]]%list_lookup_insert_Some; [done|].
  apply (E j). by rewrite list_lookup_insert_ne.
Qed.

(** A pipe just made is undone by closing its two ends. *)
Lemma apipe_close (k : kern S) a f0 f1 a' :
  frep kend k a -> apipe a = (0, [Z.of_nat f0; Z.of_nat f1], a') ->
  exists b, aclose a' f0 = Some b /\ aclose b f1 = Some a.
Proof.
  intros Hr Ha. unfold apipe in Ha.
  destruct (aalloc a) as [[i0 a1]|] eqn:H0; [|done].
  destruct (aalloc a1) as [[i1 a2]|] eqn:H1; [|done].
  destruct (a_free a) as [|pa l] eqn:Hf; [done|]. injection Ha as Hz0 Hz1 <-.
  apply Nat2Z.inj in Hz0, Hz1. subst i0 i1.
  destruct (aalloc_slot kend k a _ _ Hr H0) as [Hi0 ->].
  assert (Hl0 : (f0 < length (a_tab a))%nat) by (by eapply lookup_lt_Some).
  unfold aalloc in H1. destruct (list_find _ _) as [[j [n o]]|] eqn:E; [|done]. injection H1 as -> <-.
  apply list_find_Some in E as (Hj & Hn & _). simpl in Hj, Hn. subst n.
  destruct (decide (f0 = f1)) as [->|Hne]; [by rewrite list_lookup_insert_eq in Hj|].
  rewrite list_lookup_insert_ne in Hj by done.
  assert (Hl1 : (f1 < length (a_tab a))%nat) by (by eapply lookup_lt_Some).
  destruct (slot_of _ _ _ _ _ _ Hr Hj) as (g & _ & _ & Ho & _). simpl in Ho. rewrite (Ho eq_refl) in Hj.
  assert (Hnone : a_q a !! pa = None).
  { destruct (a_q a !! pa) as [q|] eqn:Hq; [|done].
    destruct (pipe_of _ _ _ _ _ Hr Hq) as (pp & _ & []). rewrite Hf in pr_used. by destruct pr_used; left. }
  set (t := <[f0 := (1%nat, AEnd pa false)]> (<[f1 := (1%nat, AEnd pa true)]> (a_tab a))).
  match goal with |- exists b, aclose (AM ?x _ _) _ = _ /\ _ => assert (Ht : x = t) end.
  { unfold t. simpl. rewrite (list_insert_insert_ne (<[f1 := _]> _) f1 f0) by done.
    rewrite list_insert_insert_eq, (list_insert_insert_ne (a_tab a) f1 f0) by done.
    by rewrite list_insert_insert_eq. }
  rewrite Ht. clear Ht.
  exists (AM (<[f1 := (1%nat, AEnd pa true)]> (a_tab a)) (<[pa := []]> (a_q a)) l). split.
  - unfold aclose, t. simpl. rewrite list_lookup_insert_eq by (by rewrite length_insert).
    unfold set_slot, set_atab. simpl.
    rewrite list_insert_insert_eq, (list_insert_id (<[f1 := _]> _)) by (by rewrite list_lookup_insert_ne by congruence).
    replace (is_open _ pa true) with true; [done|]. symmetry. apply is_open_iff. exists f1.
    eapply objs_lookup. by apply list_lookup_insert_eq.
  - unfold aclose. simpl. rewrite list_lookup_insert_eq by done. unfold set_slot, set_atab. simpl.
    rewrite list_insert_insert_eq, list_insert_id by done.
    replace (is_open _ pa false) with false.
    + rewrite delete_insert_id by done. rewrite <-Hf. by destruct a.
    + symmetry. apply not_true_is_false. intros Ho'.
      assert (is_open a pa false = true) as [q Hq]%(fr_live _ _ _ Hr) by exact Ho'. congruence.
Qed.

(** ** Properties *)

(** dup and close keep descriptors and reference counts together, for a descriptor that
    may be bad: dup returns the lowest free descriptor, referring to the same file with one
    more reference, or -1 with nothing changed when the descriptor is not open or none is
    free; close frees the descriptor and drops one reference (the last one also shuts the
    pipe's end and may free the pipe), or returns -1. *)
Theorem dup_close_count s i p a v :
  urep kend s i p a -> arg_reg p 0 = Some v ->
  let fd := i32 v in
  let open := if decide (0 <= fd) then mjoin (ofile p !! Z.to_nat fd) else None in
  (forall f new a', open = Some f -> free_fd p = Some new -> adup a f = Some a' ->
    wp sys_dup s (fun r s' _ => r = Z.of_nat new /\ urep kend s' i (with_fd new (Some f) p) a')) /\
  (open = None \/ free_fd p = None -> wp sys_dup s (fun r s' _ => r = -1 /\ s' = s)) /\
  (forall f a', open = Some f -> aclose a f = Some a' ->
    wp (sys_close kend) s (fun r s' _ => r = 0 /\ urep kend s' i (with_fd (Z.to_nat fd) None p) a')) /\
  (open = None -> wp (sys_close kend) s (fun r s' _ => r = -1 /\ s' = s)).
Proof.
  intros Hu Hv fd open.
  assert (Harg : (if decide (0 <= i32 v) then
       match mjoin (ofile p !! Z.to_nat (i32 v)) with Some f => Some (i32 v, f) | None => None end
     else None) = match open with Some f => Some (fd, f) | None => None end).
  { unfold open, fd. by case_decide. }
  assert (Hfd : forall Q : option (Z * nat) -> ptable (uenv S) -> list event -> Prop,
    Q (match open with Some f => Some (fd, f) | None => None end) s [] -> wp (argfd 0) s Q).
  { intros Q HQ. apply (argfd_wp s i p v); [apply Hu|done|apply Hu|]. by rewrite Harg. }
  clearbody open fd. clear Harg.
  split_and!.
  - intros f new a' -> Hnew Ha. unfold sys_dup. wp_steps. apply Hfd. wp_steps.
    match goal with |- wp _ _ (fun r s' _ => @?P r s') => apply (fdalloc_wp s i p f P) end;
      [apply Hu|apply Hu|]. rewrite Hnew, (proj2 (Z.ltb_ge _ _)) by lia. unfold kop. wp_steps.
    eapply wp_mono; [apply (filedup_rep kend _ a); [apply Hu|done]|]. intros r k t [-> Hk]. wp_steps.
    split; [done|]. apply (urep_files _ _ _ a); [by apply urep_fd|done].
  - intros Hno. unfold sys_dup. wp_steps. apply Hfd. destruct open as [f|]; [|by wp_steps].
    destruct Hno as [|Hno]; [done|]. wp_steps.
    match goal with |- wp _ _ (fun r s' _ => @?P r s') => apply (fdalloc_wp s i p f P) end;
      [apply Hu|apply Hu|]. rewrite Hno. by wp_steps.
  - intros f a' -> Ha. unfold sys_close. wp_steps. apply Hfd. wp_steps.
    apply (set_fd_wp s i p); [apply Hu|]. unfold kop. wp_steps.
    eapply wp_mono; [apply (fileclose_rep kend _ a); [apply Hu|done]|]. intros ? k t Hk. wp_steps.
    split; [done|]. apply (urep_files _ _ _ a); [by apply urep_fd|done].
  - intros ->. unfold sys_close. wp_steps. apply Hfd. by wp_steps.
Qed.

(** Two closes give back the ends of the pipe just made. *)
Lemma close_both_wp s i p a f0 f1 a' x (Q : Z -> ptable (uenv S) -> Prop) :
  urep kend s i p a' -> (exists b, aclose a' f0 = Some b /\ aclose b f1 = Some a) ->
  (forall k, frep kend k a -> Q x (lput the_kern k s)) ->
  wp (kop (fileclose kend f0) ;;; kop (fileclose kend f1) ;;; kret x) s (fun r s' _ => Q r s').
Proof.
  intros Hu (b & Hb & Ha) HQ. unfold kop. wp_steps.
  eapply wp_mono; [apply (fileclose_rep kend _ a' f0 b); [apply Hu|done]|]. intros ? k0 t0 Hk0. wp_steps.
  eapply wp_mono; [apply (fileclose_rep kend _ b f1 a); [done|done]|]. intros ? k1 t1 Hk1.
  wp_steps. apply (HQ k1 Hk1).
Qed.

Lemma write_fds_wp s v d0 d1 x (Q : Z -> ptable (uenv S) -> Prop) :
  0 <= v -> (Z.to_nat v + 8 <= length (umem (penv s)))%nat ->
  Q x (on_env (set_umem (splice (umem (penv s)) (Z.to_nat v) (le_bytes 4 d0 ++ le_bytes 4 d1))) s) ->
  wp (write_user v (le_bytes 4 d0) ;;; write_user (v + 4) (le_bytes 4 d1) ;;; kret x) s (fun r s' _ => Q r s').
Proof.
  intros Hv Hl HQ. unfold write_user. wp_steps.
  rewrite decide_False, decide_True by (rewrite ?length_le_bytes; (done || lia)). wp_steps.
  cbn [penv on_env set_penv umem set_umem].
  rewrite decide_False, decide_True
    by (rewrite ?length_splice, ?length_le_bytes; (done || rewrite ?length_le_bytes; lia)).
  wp_steps. replace (Z.to_nat (v + 4)) with (Z.to_nat v + length (le_bytes 4 d0))%nat
    by (rewrite length_le_bytes; lia).
  rewrite splice_app by (rewrite !length_le_bytes; lia). exact HQ.
Qed.

(** C19. pipe is all or nothing.  When it returns 0 the process has two new descriptors, the
    lowest free ones, for the read and the write end of a new pipe, and their numbers are in
    the two ints at the address it was given, which lie within the process.  Otherwise it
    returns -1 and descriptors, memory, files, pipes and free pages are as before: the
    address was bad, files or pages ran out, or fewer than two descriptors were free, in
    which case the new pipe was closed again. *)
Theorem sys_pipe_all_or_nothing s i p a v :
  urep kend s i p a -> arg_reg p 0 = Some v -> 0 <= v < 2 ^ 64 -> length page_junk = 512%nat ->
  sz p = Z.of_nat (length (umem (penv s))) -> sz p < 2 ^ 31 ->
  wp (sys_pipe kend page_junk) s (fun r s' _ =>
    (exists f0 f1 d0 d1 a', r = 0 /\ v + 8 <= sz p /\
       apipe a = (0, [Z.of_nat f0; Z.of_nat f1], a') /\
       free_fd p = Some d0 /\ free_fd (with_fd d0 (Some f0) p) = Some d1 /\
       urep kend s' i (with_fd d1 (Some f1) (with_fd d0 (Some f0) p)) a' /\
       umem (penv s') = splice (umem (penv s)) (Z.to_nat v)
                          (le_bytes 4 (Z.of_nat d0) ++ le_bytes 4 (Z.of_nat d1))) \/
    (r = -1 /\ urep kend s' i p a /\ umem (penv s') = umem (penv s) /\
       (sz p < v + 8 \/ (apipe a).1.1 = -1 \/
        forall d0 f, free_fd p = Some d0 -> free_fd (with_fd d0 (Some f) p) = None))).
Proof.
  intros Hu Hv Hv64 Hjunk Hsz Hlt. unfold sys_pipe. wp_steps.
  apply (argptr_wp s i p 0 v); [apply Hu|done|done|lia|done|].
  case_decide as Hin; [|wp_steps; right; split_and!; [done|done|done|]; left; lia].
  unfold kop at 1. wp_steps. eapply wp_mono; [apply (pipealloc_rep kend _ a); [apply Hu|done]|].
  intros [r fs] k t Hp. destruct (apipe a) as [[v' slots] a'] eqn:Ha. simpl in Hp.
  destruct Hp as (-> & Hk & Hslots). pose proof (urep_files _ _ _ _ _ _ Hu Hk) as Hu1.
  destruct (decide (v' = 0)) as [->|Hv'].
  2: { assert (v' = -1 /\ a' = a) as [-> ->].
       { unfold apipe in Ha. repeat case_match; by simplify_eq. }
       assert (wp (kret (-1)) (lput the_kern k s) (fun r s' (_ : list event) =>
         r = -1 /\ urep kend s' i p a /\ umem (penv s') = umem (penv s) /\
         (sz p < v + 8 \/ -1 = -1 \/
          forall d0 f, free_fd p = Some d0 -> free_fd (with_fd d0 (Some f) p) = None))) as Hbad.
       { wp_steps. split_and!; [done|done|done|]. by right; left. }
       destruct fs as [[?|] [?|]]; simpl; (eapply wp_mono; [exact Hbad|intros; by right]). }
  destruct (Hslots eq_refl) as (f0 & f1 & -> & ->). cbn [Z.ltb Z.compare]. wp_steps.
  match goal with |- wp _ _ (fun r s' _ => @?P r s') => apply (fdalloc_wp _ i p f0 P) end;
    [apply Hu1|apply Hu1|].
  destruct (free_fd p) as [d0|] eqn:Hd0.
  2: { cbn [Z.ltb Z.compare Z.leb kwhen]. wp_steps. cbn [Z.ltb Z.compare]. apply wp_bind, wp_ret.
       match goal with |- wp _ _ (fun r s' _ => @?P r s') => apply (close_both_wp _ i p a f0 f1 a' _ P) end;
         [done|by eapply apipe_close; [apply Hu|]|].
       intros k' Hk'. right. split_and!; [done|by apply (urep_files _ _ _ a')|done|]. by right; right. }
  rewrite (proj2 (Z.ltb_ge _ _)) by lia. wp_steps.
  pose proof (urep_fd _ _ _ _ d0 (Some f0) Hu1) as Hu2.
  match goal with |- wp _ _ (fun r s' _ => @?P r s') => apply (fdalloc_wp _ i (with_fd d0 (Some f0) p) f1 P) end;
    [apply Hu2|apply Hu2|].
  destruct (free_fd (with_fd d0 (Some f0) p)) as [d1|] eqn:Hd1.
  - rewrite (proj2 (Z.ltb_ge _ _)) by lia.
    match goal with |- wp _ _ (fun r s' _ => @?P r s') => apply (write_fds_wp _ v _ _ _ P) end;
      [lia|simpl; lia|]. left. exists f0, f1, d0, d1, a'. split_and!; try done; [lia|].
    pose proof (urep_fd _ _ _ _ d1 (Some f1) Hu2) as []. by split.
  - cbn [Z.ltb Z.compare]. rewrite (proj2 (Z.leb_le 0 _)) by lia. cbn [kwhen]. wp_steps.
    apply (set_fd_wp _ i (with_fd d0 (Some f0) p)); [apply Hu2|]. rewrite put_proc_twice.
    assert (Hback : with_fd d0 None (with_fd d0 (Some f0) p) = p).
    { destruct p. unfold with_fd, set_ofile. simpl in *. rewrite list_insert_insert_eq, list_insert_id; [done|].
      by apply free_fd_lt in Hd0. }
    rewrite Nat2Z.id, Hback, put_proc_same by apply Hu1.
    match goal with |- wp _ _ (fun r s' _ => @?P r s') => apply (close_both_wp _ i p a f0 f1 a' _ P) end;
      [done|by eapply apipe_close; [apply Hu|]|].
    intros k' Hk'. right. split_and!; [done|by apply (urep_files _ _ _ a')|done|]. right; right.
    intros d f [= <-]. by eapply free_fd_any.
Qed.
End descriptors.

(** A process of 64 bytes with no descriptors, and then with the two of a pipe. *)
Definition demo_caller (arg : Z) (fds : list (option nat)) : proc :=
  Proc 64 4096 8192 RUNNING 3 None [0; 0; 0; 0; 0; arg; 0; 0] 4 None 0
    (fds ++ replicate (NOFILE - length fds) None) None [115; 104] 0 128 0 None None.
Definition demo_call (arg : Z) (fds : list (option nat)) (k : kern (logsys memdisk)) :
    ptable (uenv (logsys memdisk)) :=
  Ptable false [demo_caller arg fds; zero_proc] 4 None (Some 0%nat) 0 false true 0 false
    (Uenv (replicate 64 7) k 0 0 []).

Lemma sys_pipe_all_or_nothing_witness :
  let s := demo_call 16 [] demo_kern in
  wp (sys_pipe demo_kend (replicate 512 0)) s (fun r s' _ =>
    (exists f0 f1 d0 d1 a', r = 0 /\ 16 + 8 <= 64 /\
       apipe demo_am = (0, [Z.of_nat f0; Z.of_nat f1], a') /\
       free_fd (demo_caller 16 []) = Some d0 /\ free_fd (with_fd d0 (Some f0) (demo_caller 16 [])) = Some d1 /\
       urep demo_kend s' 0 (with_fd d1 (Some f1) (with_fd d0 (Some f0) (demo_caller 16 []))) a' /\
       umem (penv s') = splice (umem (penv s)) (Z.to_nat 16)
                          (le_bytes 4 (Z.of_nat d0) ++ le_bytes 4 (Z.of_nat d1))) \/
    (r = -1 /\ urep demo_kend s' 0 (demo_caller 16 []) demo_am /\ umem (penv s') = umem (penv s) /\
       (64 < 16 + 8 \/ (apipe demo_am).1.1 = -1 \/
        forall d0 f, free_fd (demo_caller 16 []) = Some d0 ->
          free_fd (with_fd d0 (Some f) (demo_caller 16 [])) = None))).
Proof.
  refine (sys_pipe_all_or_nothing demo_kend (replicate 512 0) (demo_call 16 [] demo_kern) 0
            (demo_caller 16 []) demo_am 16 _ _ _ _ _ _).
  - split; [split; reflexivity|reflexivity|exact demo_frep].
  - reflexivity.
  - lia.
  - reflexivity.
  - reflexivity.
  - simpl. lia.
Defined.

(** The first file is free: descriptor 0 refers to it with one reference. *)
Definition demo_held : kern (logsys memdisk) :=
  set_ftab (<[0%nat := set_fref 1 zero_file]> (ftab demo_kern)) demo_kern.
Definition demo_held_am : amach := set_slot 0 (1%nat, ANone) demo_am.

Lemma held_rep {S} kend (k : kern S) a : frep kend k a -> a_tab a !! 0%nat = Some (0%nat, ANone) ->
  frep kend (set_ftab (<[0%nat := set_fref 1 zero_file]> (ftab k)) k) (set_slot 0 (1%nat, ANone) a).
Proof.
  intros Hr H0. by apply (frep_count kend k _ a 0 0 1 ANone (set_fref 1 zero_file)); try done; apply Hr.
Qed.

Lemma demo_held_rep : frep demo_kend demo_held demo_held_am.
Proof. exact (held_rep demo_kend demo_kern demo_am demo_frep eq_refl). Qed.

Lemma dup_close_count_witness :
  wp sys_dup (demo_call 0 [Some 0%nat] demo_held) (fun r s' _ => r = 1 /\
    urep demo_kend s' 0 (with_fd 1 (Some 0%nat) (demo_caller 0 [Some 0%nat]))
      (set_slot 0 (2%nat, ANone) demo_held_am)).
Proof.
  refine (proj1 (dup_close_count demo_kend (demo_call 0 [Some 0%nat] demo_held) 0 (demo_caller 0 [Some 0%nat])
            demo_held_am 0 _ _) 0%nat 1%nat _ _ _ _).
  - split; [split; reflexivity|reflexivity|exact demo_held_rep].
  - reflexivity.
  - reflexivity.
  - reflexivity.
  - reflexivity.
Defined.
