(* ===== verification/SysProc.v ===== *)
(** * Process system calls: kernel/sysproc.c

    The handlers of the system calls on processes, and the table of syscall.c that selects
    every handler.  The kernel services that process management uses are the class
    [ProcEnv] on the rest of the kernel. *)

From stdpp Require Import base list gmap strings.
From Stdlib Require Import ZArith Lia.
From S2P Require Import Prelude CString Bytes Spinlock Proc Kalloc Pipe Disk Bio Cache Log Store Fs File Syscall SysFile.
Open Scope Z_scope.

Definition state_number (st : procstate) : Z :=
  match st with UNUSED => 0 | EMBRYO => 1 | SLEEPING => 2 | RUNNABLE => 3 | RUNNING => 4 | ZOMBIE => 5 end.

Section sysproc.
Context {S : Type} `{HP : ProcEnv (uenv S)}.
Notation UK := (K (ptable (uenv S))).

Definition sys_fork : UK Z := fork.
Definition sys_procexit : UK Z := exit ;;; kret 0.
Definition sys_wait : UK Z := wait.
Definition sys_kill : UK Z := let! pd := argint 0 in kill pd.
Definition sys_getpid : UK Z := let! p := me in kret (pid p).

Definition sys_sbrk : UK Z :=
  let! n := arguintp 0 in
  let! p := me in
  let! r := growproc (i32 n) in
  if r <? 0 then kret (-1) else kret (sz p).

(** One pass of the loop of [sys_sleep]: it ends, or gives the CPU away. *)
Definition sleep_turn (n ticks0 : Z) : UK Z :=
  let! s := kget in
  if u32 (ticks (penv s) - ticks0) <? u32 n then
    let! p := me in
    if negb (killed p =? 0) then unlock_cli other_lock ;;; kret (-1)
    else sleep_enter (Some ChTicks) OtherLock
  else unlock_cli other_lock ;;; kret 0.

Definition sys_sleep : UK Z :=
  let! n := argint 0 in
  lock_cli other_lock ;;;
  let! s := kget in
  sleep_turn n (ticks (penv s)).

(** Where [sys_sleep] goes on when it runs again. *)
Definition sys_sleep_resume (n ticks0 : Z) : UK Z :=
  sleep_resume OtherLock ;;; sleep_turn n ticks0.

Definition sys_ticks : UK Z :=
  lock_cli other_lock ;;;
  let! s := kget in
  unlock_cli other_lock ;;;
  kret (ticks (penv s)).

Definition sys_getppid : UK Z :=
  let! p := me in
  match parent p with
  | Some i => let! q := get_proc i in kret (pid q)
  | None => fault
  end.

Definition sys_bless : UK Z := let! pd := argint 0 in bless pd.
Definition sys_damn : UK Z := let! pd := argint 0 in damn pd.
Definition sys_isblessed : UK Z := let! pd := argint 0 in isblessed pd.
Definition sys_amblessed : UK Z := let! p := me in kret (blessed p).
Definition sys_bfork : UK Z := bfork.

(** The processor stops until the next interrupt; the void function leaves [junk] as its
    result. *)
Definition sys_cpuhalt (hlt : UK unit) (junk : Z) : UK Z :=
  let! p := me in
  kwhen (negb (blessed p =? 0)) hlt ;;;
  kret junk.

Definition sys_pstate : UK Z :=
  let! pd := argint 0 in
  let! st := pstate pd in
  kret (state_number st).

Definition sys_pname : UK Z :=
  let! pd := argint 0 in
  let! (r, buf) := argstr 1 in
  if r <? 0 then kret (-1)
  else
    let! n := argint 2 in
    let! old := user_from buf in
    let! (v, new) := pname pd old n in
    write_user buf new ;;;
    kret v.

Definition sys_getpriority : UK Z := let! pd := argint 0 in getpriority pd.
Definition sys_setpriority : UK Z :=
  let! pd := argint 0 in
  let! prio := argint 1 in
  setpriority pd prio.

(** ** The table of syscall.c *)

Section table.
Context `{HB : BlockOps S} `{HE : FsEnv S} `{HT : TxOps S} `{HK : SockOps S}.
Context (kend : Z) (got : Z -> bool) (page_junk name_junk : list Z).
Context (exec : list Z -> list Z -> UK Z) (hlt : UK unit) (junk : Z).
(** reboot, kconsole_info, halt, info and nprocs; and the calls on the network and on
    sockets, by number, which are C++ code. *)
Context (sys_reboot sys_kconsole_info sys_halt sys_info sys_nprocs : UK Z).
Context (net : nat -> UK Z).

Definition syscalls : list (option (UK Z)) :=
  [None; Some sys_fork; Some sys_procexit; Some sys_wait; Some (sys_pipe kend page_junk);
   Some (sys_read got); Some sys_kill; Some (sys_exec exec); Some sys_fstat;
   Some sys_chdir; Some sys_dup; Some sys_getpid; Some sys_sbrk; Some sys_sleep; Some sys_amblessed;
   Some (sys_open kend name_junk); Some (sys_write got); Some (sys_mknod name_junk);
   Some (sys_unlink name_junk); Some (sys_link name_junk); Some (sys_mkdir name_junk);
   Some (sys_close kend); Some sys_reboot; Some sys_kconsole_info; Some sys_seek; Some sys_getppid;
   Some sys_bless; Some sys_damn; Some sys_isblessed; Some sys_bfork; Some (sys_mkvdev name_junk);
   Some sys_pstate; Some sys_pname; Some sys_ticks; Some sys_halt; Some sys_info; Some sys_nprocs;
   Some (sys_cpuhalt hlt junk); Some sys_getpriority; Some sys_setpriority] ++
  ((fun k => Some (net k)) <$> seq 40 9) ++ [None] ++ ((fun k => Some (net k)) <$> seq 50 8).

Definition do_syscall : UK unit := syscall syscalls.
End table.
End sysproc.
