(* ===== verification/Exec.v ===== *)
(** * Program images: kernel/exec.c

    [exec] over the machine with its page tables, the file system and the current process.
    An ELF header and the program headers are read as bytes; a [char *] argument is the
    bytes from the pointer on. *)

From stdpp Require Import base list gmap strings.
From Stdlib Require Import ZArith Lia.
From S2P Require Import Prelude CString Bytes Spinlock Proc Kalloc Vm VmSpace VmUser Vm64 Pipe Disk Bio Cache Log Store Fs FsBlocks File Syscall SysFile.
Open Scope Z_scope.

Record xst (S : Type) := Xst { xm : machine; xfs : fsys S; xproc : proc }.
Arguments Xst {S}.
Arguments xm {S}.
Arguments xfs {S}.
Arguments xproc {S}.

(** ** ELF: include/elf.h *)

Definition ELF_MAGIC : Z := 1179403647.          (* 0x464C457F *)
Definition ELF_PROG_LOAD : Z := 1.
Definition ELFHDR_SIZE : Z := 64.
Definition PROGHDR_SIZE : Z := 56.
Definition elf_magic (d : list Z) : Z := get_le d 0 4.
Definition elf_entry (d : list Z) : Z := get_le d 24 8.
Definition elf_phoff (d : list Z) : Z := get_le d 32 8.
Definition elf_phnum (d : list Z) : Z := get_le d 56 2.
Definition ph_type (d : list Z) : Z := get_le d 0 4.
Definition ph_off (d : list Z) : Z := get_le d 8 8.
Definition ph_vaddr (d : list Z) : Z := get_le d 16 8.
Definition ph_filesz (d : list Z) : Z := get_le d 32 8.
Definition ph_memsz (d : list Z) : Z := get_le d 40 8.

(** Registers of the trap frame, in the list [tf]. *)
Definition TF_RSI : nat := 4.
Definition TF_RDI : nat := 5.
Definition TF_EIP : nat := 16.
Definition TF_ESP : nat := 19.
Definition put_reg (k : nat) (v : Z) (p : proc) : proc := set_tf (<[k := v]> (tf p)) (tf_eax p) p.

(** [for (last = s = path; *s; s++) if ( *s == '/') last = s + 1]: the bytes from [last] on. *)
Fixpoint last_elem (s last : list Z) : option (list Z) :=
  match s with
  | [] => None
  | c :: s' => if c =? 0 then Some last else last_elem s' (if c =? 47 then s' else last)
  end.

Section exec.
Context {S : Type} `{HB : BlockOps S} `{HE : FsEnv S} `{HT : TxOps S}.
(** The end of the kernel image, and what the stack held where the headers are read. *)
Context (kend : Z) (junk : list Z).
Notation XK := (K (xst S)).
Implicit Types (s : xst S).

Definition set_xm v s : xst S := Xst v (xfs s) (xproc s).
Definition set_xfs v s : xst S := Xst (xm s) v (xproc s).
Definition set_xproc v s : xst S := Xst (xm s) (xfs s) v.
Definition x_mach : lens (xst S) machine := Lens xm set_xm.
Definition x_mem : lens (xst S) memory := Lens (fun s => mm (xm s)) (fun m s => set_xm (set_mm m (xm s)) s).
Definition x_fs : lens (xst S) (fsys S) := Lens xfs set_xfs.
Definition x_both : lens (xst S) (memory * fsys S) :=
  Lens (fun s => (mm (xm s), xfs s)) (fun x s => set_xfs x.2 (set_xm (set_mm x.1 (xm s)) s)).
Definition upd_xproc (f : proc -> proc) : XK unit := kmod (fun s => set_xproc (f (xproc s)) s).
Definition xbegin_op : XK unit := zoom x_fs (zoom the_store st_begin_op).
Definition xend_op : XK unit := zoom x_fs (zoom the_store st_end_op).

(** [readi] of [n] bytes at [off] into a buffer that held [junk]: the result and the buffer. *)
Definition read_hdr (ip : iref) (off n : Z) : XK (Z * list Z) :=
  let! (r, d) := zoom x_fs (readi ip (u32 off) n) in
  kret (r, d ++ drop (length d) junk).

(** [bad:]; [ip] is null once it has been released. *)
Definition exec_bad {A} (pgdir : Z) (ip : option iref) : XK (option A) :=
  kwhen (negb (pgdir =? 0)) (zoom x_mem (freevm kend pgdir)) ;;;
  match ip with
  | Some r => zoom x_fs (iunlockput r) ;;; xend_op
  | None => kret tt
  end ;;;
  kret None.

(** The loop over the program headers; [n] are left.  [None] is [goto bad]. *)
Fixpoint load_segments (n : nat) (pgdir : Z) (ip : iref) (off sz : Z) : XK (option Z) :=
  match n with
  | O => kret (Some sz)
  | Datatypes.S n' =>
      let! (r, ph) := read_hdr ip off PROGHDR_SIZE in
      if negb (u64 r =? PROGHDR_SIZE) then kret None
      else if negb (ph_type ph =? ELF_PROG_LOAD) then
        load_segments n' pgdir ip (i32 (off + PROGHDR_SIZE)) sz
      else if ph_memsz ph <? ph_filesz ph then kret None
      else
        let! r := zoom x_mem (allocuvm kend pgdir sz (u64 (ph_vaddr ph + ph_memsz ph))) in
        let sz := u64 r in
        if sz =? 0 then kret None
        else
          let! l := zoom x_both (loaduvm (readi ip) pgdir (ph_vaddr ph) (ph_off ph) (ph_filesz ph)) in
          if l <? 0 then kret None
          else load_segments n' pgdir ip (i32 (off + PROGHDR_SIZE)) sz
  end.

(** The loop over the arguments: [sp] after the strings, and the pointers to them. *)
Fixpoint push_args (argv : list (list Z)) (pgdir argc sp : Z) (ptrs : list Z) : XK (option (Z * list Z)) :=
  match argv with
  | [] => kret (Some (sp, ptrs))
  | a :: argv' =>
      if Z.of_nat MAXARG <=? argc then kret None
      else
        match sys_strlen a with
        | None => fault
        | Some n =>
            let sp := Z.ldiff (u64 (sp - (n + 1))) 7 in
            let! r := zoom x_mem (copyout pgdir sp (take (Z.to_nat (n + 1)) a)) in
            if r <? 0 then kret None
            else push_args argv' pgdir (argc + 1) sp (ptrs ++ [sp])
        end
  end.

(** The new image in memory: its page directory, size, entry point and stack pointer.  [None]
    when the function returned -1. *)
Definition load_image (path : list Z) (argv : list (list Z)) : XK (option (Z * Z * Z * Z)) :=
  xbegin_op ;;;
  let! found := zoom x_fs (namei path) in
  match found with
  | None => xend_op ;;; kret None
  | Some ip =>
      zoom x_fs (ilock (Some ip)) ;;;
      let! (r, elf) := read_hdr ip 0 ELFHDR_SIZE in
      (* the int is converted to the unsigned type of sizeof *)
      if u64 r <? ELFHDR_SIZE then exec_bad 0 (Some ip)
      else if negb (elf_magic elf =? ELF_MAGIC) then exec_bad 0 (Some ip)
      else
        let! pgdir := zoom x_mem setupkvm in
        if pgdir =? 0 then exec_bad 0 (Some ip)
        else
          let! r := load_segments (Z.to_nat (elf_phnum elf)) pgdir ip (i32 (elf_phoff elf)) 0 in
          match r with
          | None => exec_bad pgdir (Some ip)
          | Some sz =>
              zoom x_fs (iunlockput ip) ;;;
              xend_op ;;;
              let sz := PGROUNDUP sz in
              let! r := zoom x_mem (allocuvm kend pgdir sz (u64 (sz + 2 * PGSIZE))) in
              let sz := u64 r in
              if sz =? 0 then exec_bad pgdir None
              else
                zoom x_mem (clearpteu pgdir (u64 (sz - 2 * PGSIZE))) ;;;
                let! r := push_args argv pgdir 0 sz [] in
                match r with
                | None => exec_bad pgdir None
                | Some (sp, ptrs) =>
                    let argc := Z.of_nat (length ptrs) in
                    let av := u64 (sp - (argc + 1) * 8) in
                    let ustack := [4294967295; argc; av] ++ ptrs ++ [0] in
                    upd_xproc (put_reg TF_RDI argc) ;;;
                    upd_xproc (put_reg TF_RSI av) ;;;
                    let sp := u64 (sp - (3 + argc + 1) * 8) in
                    let! r := zoom x_mem (copyout pgdir sp (concat (le_bytes 8 <$> ustack))) in
                    if r <? 0 then exec_bad pgdir None
                    else kret (Some (pgdir, sz, elf_entry elf, sp))
                end
          end
  end.

(** From the saving of the name on; oldpgdir is the caller's page directory. *)
Definition exec_commit (path : list Z) (pgdir sz entry sp : Z) : XK Z :=
  let! p := gets xproc in
  match last_elem path path ≫= (fun last => sys_safestrcpy (pname_ p) last 16) with
  | None => fault
  | Some name =>
      upd_xproc (set_name name) ;;;
      let oldpgdir := Proc.pgdir p in
      upd_xproc (set_pgdir pgdir) ;;;
      upd_xproc (set_sz sz) ;;;
      upd_xproc (put_reg TF_EIP entry) ;;;
      upd_xproc (put_reg TF_ESP sp) ;;;
      zoom x_mach (switchuvm pgdir (kstack p)) ;;;
      zoom x_mem (freevm kend oldpgdir) ;;;
      kret 0
  end.

Definition exec (path : list Z) (argv : list (list Z)) : XK Z :=
  let! r := load_image path argv in
  match r with
  | None => kret (-1)
  | Some (pgdir, sz, entry, sp) => exec_commit path pgdir sz entry sp
  end.

(** ** A failed exec *)

(** [p'] is [p] but for the registers rdi and rsi of the trap frame. *)
Definition same_image (p p' : proc) : Prop :=
  set_tf [] 0 p' = set_tf [] 0 p /\ tf_eax p' = tf_eax p /\
  forall k, k <> TF_RSI -> k <> TF_RDI -> tf p' !! k = tf p !! k.

(** The process of [s], its current address space and the processor's registers are those of [s0]. *)
Definition untouched (s0 s : xst S) : Prop :=
  same_image (xproc s0) (xproc s) /\ hw (xm s) = hw (xm s0) /\ lockcpu (xm s) = lockcpu (xm s0).

Section pres.
Context (P : xst S -> Prop).
Context (Pmem : forall m s, P s -> P (lput x_mem m s)).
Context (Pfs : forall f s, P s -> P (lput x_fs f s)).

Lemma both_pres x s : P s -> P (lput x_both x s).
Proof using Pmem Pfs. intros Hs. apply (Pfs x.2 (lput x_mem x.1 s)). by apply Pmem. Qed.

Ltac keep :=
  repeat first
    [ apply pres_bind; [|intros ?]
    | apply pres_ret | apply pres_stop | apply pres_gets
    | apply pres_zoom; first [exact Pmem|exact Pfs|exact both_pres]
    | apply pres_when
    | progress cbn beta
    | match goal with
      | |- pres _ (match ?x with _ => _ end) => destruct x
      end ].

Lemma read_hdr_pres ip off n : pres P (read_hdr ip off n).
Proof using Pfs. unfold read_hdr. keep. Qed.

Lemma exec_bad_pres {A} pgdir ip : pres P (exec_bad (A := A) pgdir ip).
Proof using Pmem Pfs. unfold exec_bad, xend_op. keep. Qed.

Lemma load_segments_pres n pgdir ip off sz : pres P (load_segments n pgdir ip off sz).
Proof using Pmem Pfs.
  revert off sz. induction n as [|n IH]; intros off sz; cbn [load_segments]; [keep|].
  apply pres_bind; [apply read_hdr_pres|]. intros [r ph]. keep; apply IH.
Qed.

Lemma push_args_pres argv pgdir argc sp ptrs : pres P (push_args argv pgdir argc sp ptrs).
Proof using Pmem Pfs.
  revert argc sp ptrs. induction argv as [|a argv IH]; intros argc sp ptrs; cbn [push_args]; keep. apply IH.
Qed.

Context (Pregs : forall k v s, k = TF_RSI \/ k = TF_RDI -> P s ->
  P (set_xproc (put_reg k v (xproc s)) s)).

Lemma load_image_pres path argv : pres P (load_image path argv).
Proof using Pmem Pfs Pregs.
  unfold load_image, xbegin_op, xend_op, upd_xproc.
  repeat first
    [ progress keep
    | apply read_hdr_pres | apply exec_bad_pres | apply load_segments_pres | apply push_args_pres
    | apply pres_mod; intros s Hs; apply Pregs; [auto|exact Hs] ].
Qed.
End pres.

Lemma untouched_mem s0 m s : untouched s0 s -> untouched s0 (lput x_mem m s).
Proof. by intros (? & ? & ?). Qed.
Lemma untouched_fs s0 f s : untouched s0 s -> untouched s0 (lput x_fs f s).
Proof. by intros (? & ? & ?). Qed.
Lemma untouched_reg s0 k v s : k = TF_RSI \/ k = TF_RDI -> untouched s0 s ->
  untouched s0 (set_xproc (put_reg k v (xproc s)) s).
Proof.
  intros Hk ((H1 & H2 & H3) & H4 & H5). split; [|done]. split_and!; [done|done|].
  intros j Hj1 Hj2. simpl. rewrite list_lookup_insert_ne by (by destruct Hk as [-> | ->]; auto).
  by apply H3.
Qed.

Lemma bind_ret {A B} (m : XK A) (f : A -> XK B) s t r s' :
  kbind m f s = (t, Ret r s') -> exists a s1 t2, (m s).2 = Ret a s1 /\ f a s1 = (t2, Ret r s').
Proof.
  unfold kbind. destruct (m s) as [t1 [a s1|]]; [|done].
  destruct (f a s1) as [t2 o] eqn:E. intros [= _ ->]. eauto.
Qed.

Lemma zoom_ret {T A} (l : lens (xst S) T) (m : K T A) s a s1 :
  (zoom l m s).2 = Ret a s1 -> exists x, s1 = lput l x s.
Proof. unfold zoom. destruct (m (lget l s)) as [t [b x|r x]]; intros [= _ <-]. eauto. Qed.

(** The process that runs the new image. *)
Definition new_image (p : proc) (pgdir sz entry sp : Z) (name : list Z) : proc :=
  put_reg TF_ESP sp (put_reg TF_EIP entry (set_sz sz (set_pgdir pgdir (set_name name p)))).

Lemma exec_commit_ret path pgdir sz entry sp s t r s' :
  exec_commit path pgdir sz entry sp s = (t, Ret r s') ->
  r = 0 /\ exists last name, last_elem path path = Some last /\
    sys_safestrcpy (pname_ (xproc s)) last 16 = Some name /\
    xproc s' = new_image (xproc s) pgdir sz entry sp name.
Proof.
  unfold exec_commit. intros H. apply bind_ret in H as (p & s1 & t1 & [= <- <-] & H).
  destruct (last_elem path path) as [last|] eqn:Hl; [|done]. cbn [mbind option_bind] in H.
  destruct (sys_safestrcpy _ _ _) as [name|] eqn:Hn; [|done].
  do 5 (apply bind_ret in H as (? & ? & ? & [= <- <-] & H)).
  apply bind_ret in H as (? & ? & ? & [m1 ->]%zoom_ret & H).
  apply bind_ret in H as (? & ? & ? & [m2 ->]%zoom_ret & H).
  injection H as _ <- <-. split; [done|]. by exists last, name.
Qed.

(** ** Properties *)

End exec.

(** exec of a file that does not exist, in the root directory of the small file system. *)
Definition demo_xst : xst (logsys memdisk) :=
  Xst demo_boot (demo_fsys boot_store) demo_uproc.
Definition exec_result {S} (o : list event * outcome (xst S) Z) : option Z :=
  match o.2 with Ret r _ => Some r | Stop _ _ => None end.

