(* ===== verification/Boot.v ===== *)
(** * Starting the log and the loop device

    [initlog] of kernel/log.c, which finds the log through the superblock and recovers, and
    the device of kernel/proc.c through which a process talks to another's pipes. *)

From stdpp Require Import base list gmap strings.
From Stdlib Require Import ZArith Lia.
From S2P Require Import Prelude CString Bytes Spinlock Proc Kalloc Pipe Disk Bio Cache Log LogSafety Store Fs FsBlocks File Syscall SysFile.
Open Scope Z_scope.

Section initlog.
Context {D : Type} `{HD : Driver D} `{HE : FsEnv (logsys D)}.

(** sizeof(struct logheader): the count and LOGSIZE sector numbers. *)
Definition LOGHEADER_SIZE : Z := 4 + 4 * LOGSIZE.

Definition initlog : K (fsys (logsys D)) unit :=
  if 512 <=? LOGHEADER_SIZE then panic "initlog: too big logheader"
  else
    zoom the_store (upd_log (set_l_lock false)) ;;;
    let! root := gets ROOT_DEV in
    let! r := ext2_init_dev (GETDEVTYPE root) (GETDEVNUM root) in
    (if r =? 1 then kret tt
     else
       let! sb := fs1_readsb root in
       zoom the_store (upd_log (set_geometry (i32 (sb_size sb - sb_nlog sb)) (i32 (sb_nlog sb))))) ;;;
    zoom the_store (upd_log (set_l_dev (i32 root))) ;;;
    zoom the_store recover_from_log.
End initlog.

(** On the small file system the log is found in its last sectors, and is empty. *)
Theorem initlog_finds_log :
  wp initlog (demo_fsys (Logsys (Log true 0 0 0 0 0 0 (replicate (Z.to_nat LOGSIZE) 0))
                          (final (binit (machine_cache fs_image)).2)))
    (fun _ s' _ => let g := lg (store s') in
       l_start g = 24 /\ l_size g = 16 /\ l_dev g = 1 /\ lh_n g = 0 /\ l_lock g = false).
Proof. vm_compute. repeat split. Qed.

Section procloop.
Context {S : Type} `{HB : BlockOps S} `{HE : FsEnv S} `{HT : TxOps S} `{HK : SockOps S}.
(** Whether a pipe's lock is obtained in time, and what the local variable [tp] held: it is
    not initialised. *)
Context (got : Z -> bool) (tp0 : option nat).
Notation UK := (K (ptable (uenv S))).

(** The process whose pid is the device's minor number. *)
Definition loop_target (minor : Z) : UK (option nat) :=
  lock_cli ptable_lock ;;;
  let! f := find_node (fun p => pid p =? minor) in
  unlock_cli ptable_lock ;;;
  kret (match f with Some i => Some i | None => tp0 end).

Definition procloopread (minor n : Z) : UK (Z * list Z) :=
  let! tp := loop_target minor in
  match tp with
  | None => kret (0, [])
  | Some i =>
      let! p := get_proc i in
      let! k := was_killed in
      match rpipe p with
      | Some f => kop (fileread got k f n)
      | None => fault
      end
  end.

Definition procloopwrite (minor : Z) (buf : list Z) (n : Z) : UK Z :=
  let! tp := loop_target minor in
  match tp with
  | None => kret 0
  | Some i =>
      let! p := get_proc i in
      let! k := was_killed in
      match wpipe p with
      | Some f => kop (filewrite got k f buf n)
      | None => fault
      end
  end.
End procloop.
