(* ===== verification/Umalloc.v ===== *)
(** * The user heap: ulib/umalloc.c (and its copy in ulib/unix/stdlib.c)

    The allocator of the C library of user programs: free blocks in a circular list in
    order of address, found by a roving first fit, merged with their neighbours when they
    are freed, and grown with sbrk.

    The memory is the two words of every header that was written: [hptr] and [hsize], by
    address.  Addresses are bytes, a header is 16 of them.  [base] is the address of the
    static header.  The system call sbrk is an operation of a class, with its law. *)

From stdpp Require Import base list gmap sorting strings.
From Stdlib Require Import ZArith Lia.
From S2P Require Import Prelude.
Open Scope Z_scope.

Definition HDR : Z := 16.                (* sizeof(Header) *)

Record heap (E : Type) := Heap {
  hptr : gmap Z Z;         (* p->s.ptr *)
  hsize : gmap Z Z;        (* p->s.size *)
  freep : Z;
  henv : E;                (* the rest of the process *)
}.
Arguments Heap {E}.
Arguments hptr {E}.
Arguments hsize {E}.
Arguments freep {E}.
Arguments henv {E}.

(** [sbrk n] returns the address of [n] more bytes, or -1; [brk_at e b]: the process's
    memory ends at [b]. *)
Class Sbrk (E : Type) := {
  sbrk : Z -> K E Z;
  brk_at : E -> Z -> Prop;
}.
(** What usys.S and the kernel promise: new memory starts where the old one ended. *)
Class SbrkSpec (E : Type) `{Sbrk E} := {
  sbrk_grows : forall e b n, brk_at e b -> 0 < n < 2 ^ 31 ->
    wp (sbrk n) e (fun r e' _ => (r = -1 /\ brk_at e' b) \/ (r = b /\ b + n < 2 ^ 31 /\ brk_at e' (b + n)));
}.

Section umalloc.
Context {E : Type} `{HS : Sbrk E} (base : Z).
Notation HK := (K (heap E)).
Implicit Types (h : heap E).

Definition set_hptr p v h : heap E := Heap (<[p := v]> (hptr h)) (hsize h) (freep h) (henv h).
Definition set_hsize p v h : heap E := Heap (hptr h) (<[p := v]> (hsize h)) (freep h) (henv h).
Definition set_freep v h : heap E := Heap (hptr h) (hsize h) v (henv h).
Definition set_henv v h : heap E := Heap (hptr h) (hsize h) (freep h) v.
Definition the_env : lens (heap E) E := Lens henv set_henv.

(** [p->s.ptr] and [p->s.size]; a header that was never written, the null pointer among
    them, faults. *)
Definition get_ptr (p : Z) : HK Z :=
  let! h := kget in match hptr h !! p with Some v => kret v | None => fault end.
Definition get_size (p : Z) : HK Z :=
  let! h := kget in match hsize h !! p with Some v => kret v | None => fault end.
Definition put_ptr (p v : Z) : HK unit := kmod (set_hptr p v).
Definition put_size (p v : Z) : HK unit := kmod (set_hsize p v).

(** [for (p = freep; !(bp > p && bp < p->s.ptr); p = p->s.ptr) ...]: the block after which
    [bp] belongs. *)
Fixpoint find_prev (fuel : nat) (bp p : Z) : HK Z :=
  let! q := get_ptr p in
  if ((p <? bp) && (bp <? q))%bool then kret p
  else if ((q <=? p) && ((p <? bp) || (bp <? q)))%bool then kret p
  else match fuel with
       | O => kstop NoFuel
       | S fuel' => find_prev fuel' bp q
       end.

(** [bp] takes in the block [q] that follows it in memory, or points to it. *)
Definition merge_next (bp q : Z) : HK unit :=
  let! n := get_size bp in
  if bp + HDR * n =? q then
    let! m := get_size q in
    put_size bp (u32 (n + m)) ;;;
    let! r := get_ptr q in
    put_ptr bp r
  else put_ptr bp q.

(** [p] takes in the block [bp] that follows it in memory, or points to it. *)
Definition merge_prev (p bp : Z) : HK unit :=
  let! k := get_size p in
  if p + HDR * k =? bp then
    let! n := get_size bp in
    put_size p (u32 (k + n)) ;;;
    let! r := get_ptr bp in
    put_ptr p r
  else put_ptr p bp.

Definition free (ap : Z) : HK unit :=
  let bp := ap - HDR in
  let! h := kget in
  let! p := find_prev (size (hptr h)) bp (freep h) in
  let! q := get_ptr p in
  merge_next bp q ;;;
  merge_prev p bp ;;;
  kmod (set_freep p).

Definition morecore (nu : Z) : HK Z :=
  let nu := if nu <? 4096 then 4096 else nu in
  let! p := zoom the_env (sbrk (i32 (nu * HDR))) in
  if p =? -1 then kret 0
  else
    put_size p nu ;;;
    free (p + HDR) ;;;
    gets freep.

(** The block at [p], of [n >= nunits] units, follows [prevp] in the list: all of it or its
    tail is taken. *)
Definition take_block (nunits prevp p n : Z) : HK Z :=
  let! r :=
    (if n =? nunits then
       let! q := get_ptr p in
       put_ptr prevp q ;;;
       kret p
     else
       put_size p (u32 (n - nunits)) ;;;
       let! n' := get_size p in
       let p' := p + HDR * n' in
       put_size p' nunits ;;;
       kret p') in
  kmod (set_freep prevp) ;;;
  kret (r + HDR).

(** [for (p = prevp->s.ptr; ; prevp = p, p = p->s.ptr) {...}] *)
Fixpoint malloc_loop (fuel : nat) (nunits prevp p : Z) : HK Z :=
  let! n := get_size p in
  if nunits <=? n then take_block nunits prevp p n
  else
    let! f := gets freep in
    let! c := (if p =? f then
                 let! p := morecore nunits in
                 kret (if p =? 0 then None else Some p)
               else kret (Some p)) in
    match c with
    | None => kret 0
    | Some p =>
        match fuel with
        | O => kstop NoFuel
        | S fuel' => let! q := get_ptr p in malloc_loop fuel' nunits p q
        end
    end.

Definition malloc (nbytes : Z) : HK Z :=
  let nunits := u32 ((nbytes + HDR - 1) / HDR + 1) in
  let! f := gets freep in
  (if f =? 0 then
     kmod (set_freep base) ;;;
     put_ptr base base ;;;
     put_size base 0
   else kret tt) ;;;
  let! prevp := gets freep in
  let! p := get_ptr prevp in
  let! h := kget in
  malloc_loop (2 * size (hptr h) + 2) nunits prevp p.

(** ** The abstract heap *)

(** A block: its address, and its size in units with the header. *)
Notation block := (Z * Z)%type.
Definition in_block (b : block) (z : Z) : Prop := b.1 <= z < b.1 + HDR * b.2.
Definition free_at (F : list block) (z : Z) : Prop := exists b, b ∈ F /\ in_block b z.

(** In order of address above [lo], with a gap between one and the next. *)
Fixpoint sorted (lo : Z) (F : list block) : Prop :=
  match F with
  | [] => True
  | (a, n) :: F' => lo < a /\ 0 < n /\ sorted (a + HDR * n) F'
  end.

Fixpoint apart (A : list block) : Prop :=
  match A with
  | [] => True
  | b :: A' => (forall c z, c ∈ A' -> in_block b z -> in_block c z -> False) /\ apart A'
  end.

(** Put the block in order among the free ones, and join it to those it touches. *)
Definition join_right (a n : Z) (F : list block) : Z * list block :=
  match F with
  | (c, k) :: F' => if a + HDR * n =? c then (n + k, F') else (n, F)
  | [] => (n, [])
  end.
Fixpoint give (a n : Z) (F : list block) : list block :=
  match F with
  | (b, m) :: F' =>
      if a <? b then let '(n', R) := join_right a n F in (a, n') :: R
      else if b + HDR * m =? a then let '(n', R) := join_right a n F' in (b, m + n') :: R
      else (b, m) :: give a n F'
  | [] => [(a, n)]
  end.

(** ** The headers represent it *)

Definition hd_addr (F : list block) (q : Z) : Z := match F with (a, _) :: _ => a | [] => q end.
Definition lastp (p : Z) (F : list block) : Z := default p (last F.*1).

(** From [p] the links go through the blocks [F] to [q]. *)
Fixpoint lseg h (p : Z) (F : list block) (q : Z) : Prop :=
  match F with
  | [] => hptr h !! p = Some q
  | (a, n) :: F' => hptr h !! p = Some a /\ hsize h !! a = Some n /\ lseg h a F' q
  end.

(** The free blocks are [F] and the allocated ones [A], in memory that ends at [top]; before
    the first call there are none. *)
Record heap_ok h (F A : list block) (top : Z) : Prop := {
  hk_ring : (freep h = 0 /\ F = [] /\ A = []) \/
            (freep h ∈ base :: F.*1 /\ hsize h !! base = Some 0 /\ lseg h base F base);
  hk_sorted : sorted base F;
  hk_sizes : forall a n, (a, n) ∈ A -> hsize h !! a = Some n /\ 0 < n;
  hk_apart : apart A;
  hk_disj : forall b z, b ∈ A -> in_block b z -> ~ free_at F z;
  hk_bounds : forall z, free_at F z \/ (exists b, b ∈ A /\ in_block b z) -> base + HDR <= z < top;
  hk_align : top mod HDR = 0 /\ forall b, b ∈ F \/ b ∈ A -> b.1 mod HDR = 0;
  hk_top : brk_at (henv h) top /\ 0 < base /\ base + HDR <= top < 2 ^ 31;
}.

(** ** Lists of blocks *)

Lemma sorted_app lo F1 F2 :
  sorted lo (F1 ++ F2) <-> sorted lo F1 /\ sorted (match last F1 with Some b => b.1 + HDR * b.2 | None => lo end) F2.
Proof.
  revert lo. induction F1 as [|[a n] F1 IH]; intros lo; simpl; [tauto|]. rewrite IH.
  destruct F1 as [|b F1]; simpl; [tauto|]. destruct (last (b :: F1)) eqn:El; [tauto|].
  by apply last_None in El.
Qed.

Lemma sorted_le lo lo' F : lo' <= lo -> sorted lo F -> sorted lo' F.
Proof. destruct F as [|[a n] F]; simpl; [done|]. intros ? (? & ? & ?). split_and!; [lia|done|done]. Qed.

Lemma sorted_elem lo F a n : sorted lo F -> (a, n) ∈ F -> lo < a /\ 0 < n.
Proof.
  revert lo. induction F as [|[b m] F IH]; intros lo Hs Hin; [by apply not_elem_of_nil in Hin|].
  destruct Hs as (H1 & H2 & H3). apply elem_of_cons in Hin as [[= <- <-]|Hin]; [done|].
  apply (IH _ H3) in Hin. unfold HDR in *. lia.
Qed.

Lemma sorted_nodes lo F x : sorted lo F -> x ∈ F.*1 -> lo < x.
Proof. intros Hs ([a n] & -> & Hin)%list_elem_of_fmap. by apply (sorted_elem lo F a n) in Hin as []. Qed.

Lemma sorted_nodup lo F : sorted lo F -> NoDup (lo :: F.*1).
Proof.
  revert lo. induction F as [|[a n] F IH]; intros lo Hs; [apply NoDup_singleton|].
  pose proof Hs as (H1 & H2 & H3). apply NoDup_cons. split.
  - intros Hin. apply (sorted_nodes lo _ lo Hs) in Hin. lia.
  - simpl. apply IH. apply (sorted_le (a + HDR * n)); [unfold HDR; lia|done].
Qed.

Lemma free_at_app F1 F2 z : free_at (F1 ++ F2) z <-> free_at F1 z \/ free_at F2 z.
Proof. unfold free_at. setoid_rewrite elem_of_app. naive_solver. Qed.
Lemma free_at_cons b F z : free_at (b :: F) z <-> in_block b z \/ free_at F z.
Proof. unfold free_at. setoid_rewrite elem_of_cons. naive_solver. Qed.
Lemma free_at_nil z : ~ free_at [] z.
Proof. intros (b & Hb & _). by apply not_elem_of_nil in Hb. Qed.

(** A block that is none of the free ones lies before, between or after them. *)
Lemma split_at lo F a : sorted lo F -> (forall m, (a, m) ∉ F) ->
  exists F1 F2, F = F1 ++ F2 /\ (forall x, x ∈ F1.*1 -> x < a) /\ (forall x, x ∈ F2.*1 -> a < x).
Proof.
  revert lo. induction F as [|[b m] F IH]; intros lo Hs Hn.
  - exists [], []. split_and!; [done|intros x Hx; by apply not_elem_of_nil in Hx..].
  - destruct Hs as (H1 & H2 & H3). destruct (Z.lt_trichotomy a b) as [Hlt|[->|Hlt]].
    + exists [], ((b, m) :: F). split_and!; [done|intros x Hx; by apply not_elem_of_nil in Hx|].
      intros x [->|Hx]%elem_of_cons; [done|]. apply (sorted_nodes _ _ _ H3) in Hx. unfold HDR in *. lia.
    + by destruct (Hn m); left.
    + destruct (IH _ H3) as (F1 & F2 & -> & HF1 & HF2); [intros k Hk; apply (Hn k); by right|].
      exists ((b, m) :: F1), F2. split_and!; [done| |done].
      intros x [->|Hx]%elem_of_cons; [done|by apply HF1].
Qed.

(** [give] in terms of that split. *)
Definition give_split (a n : Z) (F1 F2 : list block) : list block :=
  let '(n', R) := join_right a n F2 in
  match last F1 with
  | Some (b, m) => if b + HDR * m =? a then take (length F1 - 1) F1 ++ (b, m + n') :: R
                   else F1 ++ (a, n') :: R
  | None => (a, n') :: R
  end.

Lemma give_eq lo a n F1 F2 : sorted lo (F1 ++ F2) ->
  (forall x, x ∈ F1.*1 -> x < a) -> (forall x, x ∈ F2.*1 -> a < x) ->
  give a n (F1 ++ F2) = give_split a n F1 F2.
Proof.
  revert lo. induction F1 as [|[b m] F1 IH]; intros lo Hs H1 H2.
  - unfold give_split. simpl. destruct F2 as [|[c k] F2]; [done|]. simpl.
    assert (a < c) by (apply H2; left). rewrite (proj2 (Z.ltb_lt _ _)) by done. by case_match.
  - destruct Hs as (Hb & Hm & Hs). simpl.
    assert (b < a) by (apply H1; left). rewrite (proj2 (Z.ltb_ge a b)) by lia.
    destruct F1 as [|[b' m'] F1].
    + unfold give_split. simpl. destruct (Z.eqb_spec (b + HDR * m) a); [done|].
      destruct F2 as [|[c k] F2]; [done|]. simpl.
      assert (a < c) by (apply H2; left). rewrite (proj2 (Z.ltb_lt _ _)) by done. by repeat case_match.
    + assert (b' < a) by (apply H1; right; left).
      pose proof Hs as (Hb' & _). rewrite (proj2 (Z.eqb_neq (b + HDR * m) a)) by lia.
      cbn [app] in IH |- *. rewrite (IH (b + HDR * m)); [|done|intros x Hx; apply H1; by right|done].
      unfold give_split. destruct (join_right a n F2) as [n' R]. cbn [last].
      change (last ((b, m) :: (b', m') :: F1)) with (last ((b', m') :: F1)).
      destruct (last ((b', m') :: F1)) as [[c k]|] eqn:El; [|by apply last_None in El].
      case_match; [|done]. simpl. by rewrite Nat.sub_0_r.
Qed.

Lemma last_split (F1 : list block) b m : last F1 = Some (b, m) -> F1 = take (length F1 - 1) F1 ++ [(b, m)].
Proof.
  intros Hl. apply last_Some in Hl as [P ->]. rewrite length_app. simpl.
  replace (length P + 1 - 1)%nat with (length P) by lia. by rewrite take_app_length.
Qed.

Lemma join_right_free a n F n' R : join_right a n F = (n', R) -> 0 < n -> Forall (fun b => 0 < b.2) F ->
  forall z, free_at ((a, n') :: R) z <-> in_block (a, n) z \/ free_at F z.
Proof.
  unfold join_right. intros Hj Hn HF z. destruct F as [|[c k] F]; simplify_eq; [by rewrite free_at_cons|].
  inversion_clear HF as [|? ? Hk _]. simpl in Hk.
  destruct (Z.eqb_spec (a + HDR * n) c) as [<-|]; simplify_eq; rewrite !free_at_cons; [|tauto].
  unfold in_block, HDR. simpl. intuition lia.
Qed.

Lemma join_right_size a n F n' R K : join_right a n F = (n', R) -> 0 < n < K ->
  (forall b, b ∈ F -> 0 < b.2 < K) -> 0 < n' < 2 * K.
Proof.
  unfold join_right. intros Hj Hn HF. destruct F as [|[c k] F]; [simplify_eq; lia|].
  pose proof (HF (c, k) ltac:(left)) as Hk. simpl in Hk. case_match; simplify_eq; lia.
Qed.

Lemma give_free a n F1 F2 : 0 < n -> Forall (fun b => 0 < b.2) (F1 ++ F2) ->
  forall z, free_at (give_split a n F1 F2) z <-> in_block (a, n) z \/ free_at (F1 ++ F2) z.
Proof.
  intros Hn [HF1 HF2]%Forall_app z. unfold give_split. destruct (join_right a n F2) as [n' R] eqn:Hj.
  pose proof (join_right_free a n F2 n' R Hj Hn HF2 z) as Hz.
  assert (0 < n') as Hn'.
  { unfold join_right in Hj. destruct F2 as [|[c k] F2]; [by simplify_eq|].
    inversion_clear HF2. simpl in *. case_match; simplify_eq; lia. }
  rewrite free_at_app. rewrite free_at_cons in Hz. destruct (last F1) as [[b m]|] eqn:Hl.
  - pose proof (last_split F1 b m Hl) as HP. set (P := take (length F1 - 1) F1) in *. clearbody P.
    assert (~ free_at [] z) as Hnil by apply free_at_nil. assert (0 < m) as Hm.
    { rewrite HP in HF1. apply Forall_app in HF1 as [_ Hm]. by inversion_clear Hm. }
    assert (Hz1 : free_at F1 z <-> free_at P z \/ in_block (b, m) z).
    { rewrite HP, free_at_app, free_at_cons. tauto. }
    destruct (Z.eqb_spec (b + HDR * m) a) as [Ha|Ha]; rewrite free_at_app, free_at_cons; [|tauto].
    assert (in_block (b, m + n') z <-> in_block (b, m) z \/ in_block (a, n') z) as ->
      by (unfold in_block, HDR in *; simpl; intuition lia).
    tauto.
  - apply last_None in Hl as ->. rewrite free_at_cons. assert (~ free_at [] z) by apply free_at_nil. tauto.
Qed.

Lemma join_right_sorted a n F n' R lo : join_right a n F = (n', R) -> 0 < n -> lo < a ->
  sorted lo F -> (forall x, x ∈ F.*1 -> a + HDR * n <= x) -> sorted lo ((a, n') :: R) /\ n <= n'.
Proof.
  unfold join_right. intros Hj Hn Ha Hs HF. destruct F as [|[c k] F]; simplify_eq; [simpl; auto with lia|].
  destruct Hs as (H1 & H2 & H3).
  destruct (Z.eqb_spec (a + HDR * n) c) as [<-|Hc]; simplify_eq; simpl.
  - split; [|lia]. split_and!; [done|lia|]. apply (sorted_le (a + HDR * n + HDR * k)); [unfold HDR; lia|done].
  - specialize (HF c ltac:(left)). split; [|lia]. split_and!; try done; lia.
Qed.

Lemma give_sorted lo a n F1 F2 : 0 < n -> lo < a -> sorted lo (F1 ++ F2) ->
  (forall b m, (b, m) ∈ F1 -> b + HDR * m <= a) -> (forall x, x ∈ F2.*1 -> a + HDR * n <= x) ->
  sorted lo (give_split a n F1 F2).
Proof.
  intros Hn Ha Hs H1 H2. apply sorted_app in Hs as [Hs1 Hs2]. unfold give_split.
  destruct (join_right a n F2) as [n' R] eqn:Hj. destruct (last F1) as [[b m]|] eqn:Hl.
  - pose proof (last_split F1 b m Hl) as HF1. simpl in Hs2.
    assert ((b, m) ∈ F1) as Hin by (apply last_Some_elem_of; done). specialize (H1 _ _ Hin).
    destruct (Z.eqb_spec (b + HDR * m) a) as [Heq|Hneq].
    + assert (sorted (a - 1) F2) as Hs2' by (apply (sorted_le a); [lia|by rewrite <-Heq]).
      destruct (join_right_sorted a n F2 n' R (a - 1) Hj Hn ltac:(lia) Hs2' H2) as [(_ & Hn' & HR) _].
      rewrite HF1 in Hs1. apply sorted_app in Hs1 as [Hs1 Hb]. apply sorted_app. split; [done|].
      destruct Hb as (Hb & Hm & _). simpl. split_and!; [done|lia|].
      replace (b + HDR * (m + n')) with (a + HDR * n') by (unfold HDR in *; lia). done.
    + destruct (join_right_sorted a n F2 n' R (b + HDR * m) Hj Hn ltac:(lia) Hs2 H2) as [HR _].
      apply sorted_app. split; [done|]. by rewrite Hl.
  - apply last_None in Hl as ->. by destruct (join_right_sorted a n F2 n' R lo Hj Hn Ha Hs2 H2).
Qed.

Lemma give_elem a n F1 F2 x : x ∈ give_split a n F1 F2 ->
  (exists k, x = (a, k)) \/ x.1 ∈ (F1 ++ F2).*1.
Proof.
  unfold give_split. destruct (join_right a n F2) as [n' R] eqn:Hj.
  assert (forall y, y ∈ R -> y ∈ F2) as HR.
  { unfold join_right in Hj. destruct F2 as [|[c k] F2]; [by simplify_eq|].
    case_match; simplify_eq; [intros; by right|done]. }
  rewrite fmap_app, elem_of_app. destruct (last F1) as [[b m]|] eqn:Hl.
  - pose proof (last_split F1 b m Hl) as HF1.
    case_match; rewrite elem_of_app, elem_of_cons; intros [Hx|[->|Hx]]; eauto.
    + right. left. rewrite HF1. apply list_elem_of_fmap_2. apply elem_of_app. by left.
    + right. left. rewrite HF1, fmap_app. apply elem_of_app. right. by left.
    + right. right. apply list_elem_of_fmap_2. by apply HR.
    + right. left. by apply list_elem_of_fmap_2.
    + right. right. apply list_elem_of_fmap_2. by apply HR.
  - rewrite elem_of_cons. intros [->|Hx]; eauto. right. right. apply list_elem_of_fmap_2. by apply HR.
Qed.

(** The block given, alone or joined to others, is there. *)
Lemma give_big a n F1 F2 : Forall (fun b => 0 < b.2) (F1 ++ F2) ->
  exists b, b ∈ give_split a n F1 F2 /\ n <= b.2.
Proof.
  intros [HF1 HF2]%Forall_app. unfold give_split. destruct (join_right a n F2) as [n' R] eqn:Hj.
  assert (n <= n').
  { unfold join_right in Hj. destruct F2 as [|[c k] F2]; [by simplify_eq|].
    inversion_clear HF2. simpl in *. case_match; simplify_eq; lia. }
  destruct (last F1) as [[b m]|] eqn:Hl; [case_match|].
  - rewrite (last_split F1 b m Hl) in HF1. apply Forall_app in HF1 as [_ Hm]. inversion_clear Hm. simpl in *.
    exists (b, m + n'). split; [|simpl; lia]. apply elem_of_app. right. by left.
  - exists (a, n'). split; [|done]. apply elem_of_app. right. by left.
  - exists (a, n'). split; [by left|done].
Qed.

(** ** Linked segments *)

Lemma lastp_nil p : lastp p [] = p.
Proof. done. Qed.
Lemma lastp_cons p a n F : lastp p ((a, n) :: F) = lastp a F.
Proof. unfold lastp. rewrite fmap_cons, last_cons. by destruct (last F.*1). Qed.
Lemma lastp_snoc p F b m : lastp p (F ++ [(b, m)]) = b.
Proof. unfold lastp. rewrite fmap_app. cbn [fmap list_fmap fst]. by rewrite last_snoc. Qed.
Lemma lastp_app p F1 F2 : lastp p (F1 ++ F2) = lastp (lastp p F1) F2.
Proof.
  revert p. induction F1 as [|[a n] F1 IH]; intros p; [done|]. cbn [app]. by rewrite !lastp_cons, IH.
Qed.
Lemma lastp_in p F : lastp p F ∈ p :: F.*1.
Proof.
  revert p. induction F as [|[a n] F IH]; intros p; [left|]. rewrite lastp_cons. right. apply IH.
Qed.

Lemma lseg_hd h p F q : lseg h p F q -> hptr h !! p = Some (hd_addr F q).
Proof. destruct F as [|[a n] F]; simpl; [done|by intros []]. Qed.

Lemma lseg_app h p F1 F2 q :
  lseg h p (F1 ++ F2) q <-> lseg h p F1 (hd_addr F2 q) /\ lseg h (lastp p F1) F2 q.
Proof.
  revert p. induction F1 as [|[a n] F1 IH]; intros p; cbn [app lseg].
  - rewrite lastp_nil. split; [|by intros []]. intros H. split; [by apply lseg_hd|done].
  - rewrite IH, lastp_cons. tauto.
Qed.

Lemma lseg_ext h h' p F q : lseg h p F q ->
  (forall x, x ∈ p :: F.*1 -> hptr h' !! x = hptr h !! x) ->
  (forall x, x ∈ F.*1 -> hsize h' !! x = hsize h !! x) -> lseg h' p F q.
Proof.
  revert p. induction F as [|[a n] F IH]; intros p Hs Hp Hz; cbn [lseg] in *.
  - rewrite Hp; [done|left].
  - destruct Hs as (H1 & H2 & H3). split_and!; [rewrite Hp; [done|left]|rewrite Hz; [done|left]|].
    apply IH; [done| |]; intros x Hx; [apply Hp|apply Hz]; by right.
Qed.

(** Another start, or another end. *)
Lemma lseg_start h h' p p' F q : lseg h p F q -> hptr h' !! p' = Some (hd_addr F q) ->
  (forall x, x ∈ F.*1 -> hptr h' !! x = hptr h !! x /\ hsize h' !! x = hsize h !! x) -> lseg h' p' F q.
Proof.
  intros Hs Hp Hx. destruct F as [|[a n] F]; cbn [lseg hd_addr] in *; [done|].
  destruct Hs as (_ & H2 & H3). split_and!; [done|by destruct (Hx a) as [_ ->]; [left|]|].
  apply (lseg_ext h); [done| |]; intros x Hin; apply Hx; [done|by right].
Qed.

Lemma lseg_end h h' p F q q' : lseg h p F q -> NoDup (p :: F.*1) ->
  hptr h' !! lastp p F = Some q' ->
  (forall x, x ∈ p :: F.*1 -> x <> lastp p F -> hptr h' !! x = hptr h !! x) ->
  (forall x, x ∈ F.*1 -> hsize h' !! x = hsize h !! x) -> lseg h' p F q'.
Proof.
  revert p. induction F as [|[a n] F IH]; intros p Hs Hnd Hl Hp Hz; cbn [lseg] in *.
  - by rewrite lastp_nil in Hl.
  - destruct Hs as (H1 & H2 & H3). cbn [fmap list_fmap fst] in Hnd. apply NoDup_cons in Hnd as [Hn Hnd].
    rewrite lastp_cons in *. split_and!; [rewrite Hp; [done|left|]|rewrite Hz; [done|left]|].
    + intros ->. apply Hn. apply lastp_in.
    + apply IH; [done|done|done| |]; intros x Hx; [apply Hp|apply Hz]; by right.
Qed.

Lemma lseg_resize h h' p X b m m' Y q : lseg h p (X ++ (b, m) :: Y) q -> hptr h' = hptr h ->
  hsize h' !! b = Some m' -> (forall x, x ∈ X.*1 ++ Y.*1 -> hsize h' !! x = hsize h !! x) ->
  lseg h' p (X ++ (b, m') :: Y) q.
Proof.
  intros [HX (Hb & Hm & HY)]%lseg_app Hp Hm' Hx. apply lseg_app. cbn [lseg hd_addr] in *.
  split_and!; [|by rewrite Hp|done|]; (eapply lseg_ext; [done|by rewrite Hp|]); intros x Hin; apply Hx, elem_of_app; auto.
Qed.

Lemma lseg_node h p F q a n : lseg h p F q -> (a, n) ∈ F -> hsize h !! a = Some n.
Proof.
  revert p. induction F as [|[b m] F IH]; intros p Hs Hin; [by apply not_elem_of_nil in Hin|].
  destruct Hs as (_ & H2 & H3). apply elem_of_cons in Hin as [[= <- <-]|Hin]; [done|by eapply IH].
Qed.

Lemma lseg_size h p F q : lseg h p F q -> NoDup (p :: F.*1) -> (length F < size (hptr h))%nat.
Proof.
  intros Hs Hnd.
  assert (Hsub : p :: F.*1 ⊆+ elements (dom (hptr h))).
  { apply NoDup_submseteq; [done|]. intros x Hx. apply elem_of_elements, elem_of_dom.
    clear Hnd. revert p Hs Hx. induction F as [|[a n] F IH]; intros p Hs Hx; cbn [lseg] in Hs.
    - apply elem_of_cons in Hx as [->|Hx]; [eauto|by apply not_elem_of_nil in Hx].
    - destruct Hs as (H1 & _ & H3). apply elem_of_cons in Hx as [->|Hx]; [eauto|by apply (IH a)]. }
  apply submseteq_length in Hsub. simpl in Hsub. rewrite length_fmap in Hsub.
  change (length (elements (dom (hptr h)))) with (size (dom (hptr h))) in Hsub. rewrite size_dom in Hsub. lia.
Qed.

(** ** free *)

Lemma get_ptr_wp h p v (Q : Z -> heap E -> list event -> Prop) :
  hptr h !! p = Some v -> Q v h [] -> wp (get_ptr p) h Q.
Proof. intros Hp HQ. unfold get_ptr. wp_steps. rewrite Hp. by wp_steps. Qed.
Lemma get_size_wp h p v (Q : Z -> heap E -> list event -> Prop) :
  hsize h !! p = Some v -> Q v h [] -> wp (get_size p) h Q.
Proof. intros Hp HQ. unfold get_size. wp_steps. rewrite Hp. by wp_steps. Qed.

(** The search for the place of [a], upwards through blocks below it. *)
Lemma find_prev_up fuel h p F q a (Q : Z -> heap E -> list event -> Prop) :
  lseg h p F q -> sorted p F -> p < a -> (forall x, x ∈ F.*1 -> x < a) ->
  a < q \/ q <= p -> (length F <= fuel)%nat -> Q (lastp p F) h [] -> wp (find_prev fuel a p) h Q.
Proof.
  revert p fuel. induction F as [|[c m] F IH]; intros p fuel Hs Ho Hp HF Hq Hf HQ.
  - cbn [lseg] in Hs.
    assert (wp (let! q' := get_ptr p in
                if ((p <? a) && (a <? q'))%bool then kret p
                else if ((q' <=? p) && ((p <? a) || (a <? q')))%bool then kret p
                else match fuel with O => kstop NoFuel | S f => find_prev f a q' end) h Q) as Hw.
    { wp_steps. apply (get_ptr_wp _ _ q); [done|]. rewrite (proj2 (Z.ltb_lt p a)) by done. cbn [andb orb].
      destruct (Z.ltb_spec a q); [by wp_steps|]. rewrite (proj2 (Z.leb_le q p)) by lia. by wp_steps. }
    by destruct fuel.
  - destruct Hs as (H1 & H2 & H3), Ho as (Ho1 & Ho2 & Ho3). assert (c < a) by (apply HF; left).
    destruct fuel as [|fuel]; [simpl in Hf; lia|]. cbn [find_prev]. wp_steps.
    apply (get_ptr_wp _ _ c); [done|].
    rewrite (proj2 (Z.ltb_lt p a)), (proj2 (Z.ltb_ge a c)), (proj2 (Z.leb_gt c p)) by lia. cbn [andb].
    apply IH; try done.
    + apply (sorted_le (c + HDR * m)); [unfold HDR; lia|done].
    + intros x Hx. apply HF. by right.
    + destruct Hq; [by left|right; lia].
    + simpl in Hf. lia.
    + by rewrite lastp_cons in HQ.
Qed.

(** From a block above it, on to the start of the list. *)
Lemma find_prev_round fuel h p F a (Q : Z -> heap E -> list event -> Prop) :
  lseg h p F base -> sorted p F -> a < p -> base < a ->
  (S (length F) <= fuel)%nat -> wp (find_prev (fuel - S (length F)) a base) h Q -> wp (find_prev fuel a p) h Q.
Proof.
  revert p fuel. induction F as [|[c m] F IH]; intros p fuel Hs Ho Hp Hb Hf HQ;
    (destruct fuel as [|fuel]; [lia|]); cbn [find_prev]; wp_steps; cbn [lseg] in Hs.
  - apply (get_ptr_wp _ _ base); [done|].
    rewrite (proj2 (Z.ltb_ge p a)), (proj2 (Z.ltb_ge a base)) by lia. cbn [andb orb].
    rewrite andb_false_r. simpl in HQ. by rewrite Nat.sub_0_r in HQ.
  - destruct Hs as (H1 & H2 & H3), Ho as (Ho1 & Ho2 & Ho3). apply (get_ptr_wp _ _ c); [done|].
    rewrite (proj2 (Z.ltb_ge p a)), (proj2 (Z.leb_gt c p)) by lia. cbn [andb].
    apply IH; try done; [|lia|simpl in Hf; lia].
    apply (sorted_le (c + HDR * m)); [unfold HDR; lia|done].
Qed.

(** A node's place in the list. *)
Lemma node_split (F : list block) p : p ∈ F.*1 -> exists X m Y, F = X ++ (p, m) :: Y.
Proof.
  intros ([p' m] & -> & Hin)%list_elem_of_fmap. apply list_elem_of_split in Hin as (X & Y & ->). eauto.
Qed.

Lemma sorted_tail lo X b m Y : sorted lo (X ++ (b, m) :: Y) -> sorted b Y.
Proof.
  intros [_ (_ & H2 & H3)]%sorted_app. apply (sorted_le (b + HDR * m)); [unfold HDR; lia|done].
Qed.

Lemma find_prev_wp fuel h F1 F2 a p (Q : Z -> heap E -> list event -> Prop) :
  lseg h base (F1 ++ F2) base -> sorted base (F1 ++ F2) -> base < a ->
  (forall x, x ∈ F1.*1 -> x < a) -> (forall x, x ∈ F2.*1 -> a < x) ->
  p ∈ base :: (F1 ++ F2).*1 -> (length (F1 ++ F2) < fuel)%nat ->
  Q (lastp base F1) h [] -> wp (find_prev fuel a p) h Q.
Proof.
  intros Hs Ho Hb H1 H2 Hp Hf HQ. rewrite length_app in Hf.
  pose proof (proj1 (lseg_app _ _ _ _ _) Hs) as [Hs1 Hs2]. pose proof (proj1 (sorted_app _ _ _) Ho) as [Ho1 _].
  assert (Hend : forall p', p' < a -> base <= p' -> a < hd_addr F2 base \/ hd_addr F2 base <= p').
  { intros p' _ Hp'. destruct F2 as [|[c k] F2]; [by right|left]. apply H2. left. }
  assert (Hbase : forall f, (length F1 <= f)%nat -> wp (find_prev f a base) h Q).
  { intros f Hf'. apply (find_prev_up f h base F1 (hd_addr F2 base)); try done. apply Hend; lia. }
  rewrite fmap_app in Hp. apply elem_of_cons in Hp as [->|[Hp|Hp]%elem_of_app]; [apply Hbase; lia| |].
  - pose proof (H1 _ Hp) as Hpa. pose proof (sorted_nodes _ _ _ Ho1 Hp) as Hpb.
    apply node_split in Hp as (X & m & Y & ->).
    pose proof (proj1 (lseg_app _ _ _ _ _) Hs1) as [_ (_ & _ & Hs3)].
    apply (find_prev_up fuel h p Y (hd_addr F2 base)); try done.
    + by apply (sorted_tail base X p m).
    + intros x Hx. apply H1. rewrite fmap_app. apply elem_of_app. right. by right.
    + apply Hend; lia.
    + rewrite length_app in Hf. simpl in Hf. lia.
    + by rewrite lastp_app, lastp_cons in HQ.
  - pose proof (H2 _ Hp) as Hpa. apply node_split in Hp as (X & m & Y & ->).
    pose proof (proj1 (lseg_app _ _ _ _ _) Hs2) as [_ (_ & _ & Hs3)].
    rewrite length_app in Hf. simpl in Hf.
    apply (find_prev_round fuel h p Y); try done; [|lia|apply Hbase; lia].
    rewrite app_assoc in Ho. by apply (sorted_tail base (F1 ++ X) p m).
Qed.

(** The first merge: the block's header then has the size and the link of [join_right]. *)
Lemma merge_next_wp h p F2 a n n' R (Q : unit -> heap E -> list event -> Prop) :
  lseg h p F2 base -> base < a -> hsize h !! a = Some n -> (forall b, b ∈ F2 -> 0 < b.2 < 2 ^ 28) -> 0 < n < 2 ^ 28 ->
  (forall x, x ∈ F2.*1 -> a < x) -> join_right a n F2 = (n', R) ->
  Q tt (set_hptr a (hd_addr R base) (set_hsize a n' h)) [] -> wp (merge_next a (hd_addr F2 base)) h Q.
Proof.
  intros Hs Ha Hn HF Hn0 Hx Hj HQ. unfold merge_next. wp_steps. apply (get_size_wp _ _ n); [done|].
  assert (Hid : set_hsize a n h = h) by (destruct h; unfold set_hsize; simpl in *; by rewrite insert_id).
  unfold join_right in Hj. destruct F2 as [|[c k] F2]; cbn [hd_addr].
  - simplify_eq. rewrite (proj2 (Z.eqb_neq _ _)) by (unfold HDR; lia). unfold put_ptr. wp_steps. by rewrite Hid in HQ.
  - destruct Hs as (_ & Hk & Hs). assert (a < c) by (apply Hx; left).
    pose proof (HF (c, k) ltac:(left)) as Hk0. simpl in Hk0.
    destruct (Z.eqb_spec (a + HDR * n) c) as [Hc|Hc]; simplify_eq.
    + wp_steps. apply (get_size_wp _ _ k); [done|]. unfold put_size. wp_steps.
      apply (get_ptr_wp _ _ (hd_addr R base)); [by apply lseg_hd in Hs|]. unfold put_ptr. wp_steps.
      by rewrite u32_small by lia.
    + unfold put_ptr. wp_steps. by rewrite Hid in HQ.
Qed.

(** The second: the ring is that of [give]. *)
Lemma merge_prev_wp h F1 a n' R (Q : unit -> heap E -> list event -> Prop) :
  lseg h a R base -> hsize h !! a = Some n' -> hsize h !! base = Some 0 -> base < a ->
  (forall b m, last F1 = Some (b, m) -> hsize h !! b = Some m /\ 0 < m < 2 ^ 28) -> 0 < n' < 2 ^ 29 ->
  Q tt (match last F1 with
        | Some (b, m) => if b + HDR * m =? a then set_hptr b (hd_addr R base) (set_hsize b (m + n') h)
                         else set_hptr b a h
        | None => set_hptr base a h
        end) [] ->
  wp (merge_prev (lastp base F1) a) h Q.
Proof.
  intros Hs Hn Hb Ha Hl Hn0 HQ. unfold merge_prev. wp_steps. unfold lastp. rewrite fmap_last.
  destruct (last F1) as [[b m]|] eqn:El; cbn [fmap option_fmap option_map default fst from_option id].
  - destruct (Hl b m eq_refl) as [Hm Hm0]. apply (get_size_wp _ _ m); [done|].
    destruct (b + HDR * m =? a); [|by unfold put_ptr; wp_steps].
    wp_steps. apply (get_size_wp _ _ n'); [done|]. unfold put_size. wp_steps.
    apply (get_ptr_wp _ _ (hd_addr R base)); [by apply lseg_hd in Hs|]. unfold put_ptr. wp_steps.
    by rewrite u32_small by lia.
  - apply (get_size_wp _ _ 0); [done|]. rewrite (proj2 (Z.eqb_neq _ _)) by lia. by unfold put_ptr; wp_steps.
Qed.

(** What the first merge writes leaves the links from the block on. *)
Lemma merge_next_seg h p F2 a n n' R : lseg h p F2 base -> (forall x, x ∈ F2.*1 -> a < x) ->
  join_right a n F2 = (n', R) ->
  (forall x, x ∈ R.*1 -> x ∈ F2.*1) /\ lseg (set_hptr a (hd_addr R base) (set_hsize a n' h)) a R base.
Proof.
  intros Hs H2 Hj.
  assert (HR : (forall x, x ∈ R.*1 -> x ∈ F2.*1) /\ exists p', lseg h p' R base).
  { unfold join_right in Hj. destruct F2 as [|[c k] F2]; [simplify_eq; by eauto|].
    case_match; simplify_eq; [|by eauto]. destruct Hs as (_ & _ & ?). split; [intros; by right|eauto]. }
  destruct HR as [HR [p' Hp']]. split; [done|].
  apply (lseg_start h _ p'); [done|simpl; by rewrite lookup_insert_eq|].
  intros x Hx. apply HR, H2 in Hx. simpl. by rewrite !lookup_insert_ne by lia.
Qed.

(** The second one, when the block stays apart from the one before it... *)
Lemma merge_prev_apart h h1 F1 q a n' R :
  lseg h base F1 q -> NoDup (base :: F1.*1) -> (forall x, x ∈ R.*1 -> x ∉ base :: F1.*1) -> a ∉ base :: F1.*1 ->
  lseg h1 a R base -> hsize h1 !! a = Some n' ->
  (forall x, x <> a -> hptr h1 !! x = hptr h !! x /\ hsize h1 !! x = hsize h !! x) ->
  lseg (set_hptr (lastp base F1) a h1) base (F1 ++ (a, n') :: R) base.
Proof.
  intros Hs Hnd HR Ha HaR Hn Hx. pose proof (lastp_in base F1) as Hin.
  assert (forall x, x ∈ base :: F1.*1 -> x <> a) as Hne by (by intros x Hx' ->).
  apply lseg_app. cbn [hd_addr lseg]. split_and!.
  - apply (lseg_end h _ _ _ q); [done|done|simpl; by rewrite lookup_insert_eq| |].
    + intros x Hx' Hl. simpl. rewrite lookup_insert_ne by done. by apply Hx, Hne.
    + intros x Hx'. simpl. apply Hx, Hne. by right.
  - simpl. by rewrite lookup_insert_eq.
  - done.
  - apply (lseg_ext h1); [done| |done]. intros x Hx'. simpl. rewrite lookup_insert_ne; [done|]. intros <-.
    apply elem_of_cons in Hx' as [Hx'|Hx']; [by apply (Hne _ Hin)|by apply (HR _ Hx')].
Qed.

(** ... and when it is joined to it. *)
Lemma merge_prev_join h h1 P b m a n' R :
  (exists q, lseg h base (P ++ [(b, m)]) q) -> NoDup (base :: (P ++ [(b, m)]).*1) ->
  (forall x, x ∈ R.*1 -> x ∉ base :: (P ++ [(b, m)]).*1) -> a ∉ base :: (P ++ [(b, m)]).*1 ->
  lseg h1 a R base ->
  (forall x, x <> a -> hptr h1 !! x = hptr h !! x /\ hsize h1 !! x = hsize h !! x) ->
  lseg (set_hptr b (hd_addr R base) (set_hsize b (m + n') h1)) base (P ++ (b, m + n') :: R) base.
Proof.
  intros [q Hs] Hnd HR Ha HaR Hx.
  rewrite fmap_app in Hnd, HR, Ha. cbn [fmap list_fmap fst] in Hnd, HR, Ha. rewrite app_comm_cons in Hnd, HR, Ha.
  apply lseg_app in Hs as [HsP (Hb1 & _)]. apply NoDup_app in Hnd as (_ & Hnd & _).
  assert (forall x, x ∈ base :: P.*1 -> x <> a /\ x <> b) as Hne.
  { intros x Hx'. split; intros ->; [|by apply (Hnd b Hx'); left]. apply Ha, elem_of_app. by left. }
  apply lseg_app. cbn [hd_addr lseg]. split_and!.
  - apply (lseg_ext h); [done| |]; intros x Hx'; simpl.
    + destruct (Hne x Hx'). rewrite lookup_insert_ne by done. by apply Hx.
    + destruct (Hne x) as [? ?]; [by right|]. rewrite lookup_insert_ne by done. by apply Hx.
  - destruct (Hne _ (lastp_in base P)). simpl. rewrite lookup_insert_ne by done. by destruct (Hx (lastp base P)) as [-> _].
  - simpl. by rewrite lookup_insert_eq.
  - apply (lseg_start h1 _ a); [done|simpl; by rewrite lookup_insert_eq|]. intros x Hx'. simpl.
    rewrite !lookup_insert_ne; [done|..]; intros <-; apply (HR b Hx'), elem_of_app; right; left.
Qed.

(** Together they make the ring of [give]. *)
Lemma merge_ring h F1 F2 a n n' R :
  lseg h base (F1 ++ F2) base -> sorted base (F1 ++ F2) -> base < a ->
  (forall x, x ∈ F1.*1 -> x < a) -> (forall x, x ∈ F2.*1 -> a < x) -> join_right a n F2 = (n', R) ->
  let h1 := set_hptr a (hd_addr R base) (set_hsize a n' h) in
  lseg (match last F1 with
        | Some (b, m) => if b + HDR * m =? a then set_hptr b (hd_addr R base) (set_hsize b (m + n') h1)
                         else set_hptr b a h1
        | None => set_hptr base a h1
        end) base (give_split a n F1 F2) base.
Proof.
  intros Hs Ho Ha H1 H2 Hj h1. apply lseg_app in Hs as [Hs1 Hs2].
  pose proof (sorted_nodup _ _ Ho) as Hnd. rewrite fmap_app, app_comm_cons in Hnd.
  apply NoDup_app in Hnd as (Hnd1 & Hnd & _).
  destruct (merge_next_seg _ _ _ _ _ _ _ Hs2 H2 Hj) as [HR HaR].
  assert (HR' : forall x, x ∈ R.*1 -> x ∉ base :: F1.*1) by (intros x Hx Hx'; by apply (Hnd x Hx'), HR).
  assert (Hne : a ∉ base :: F1.*1).
  { intros [->|Hx]%elem_of_cons; [lia|]. apply H1 in Hx. lia. }
  assert (Hx : forall x, x <> a -> hptr h1 !! x = hptr h !! x /\ hsize h1 !! x = hsize h !! x).
  { intros x Hx. unfold h1. simpl. by rewrite !lookup_insert_ne. }
  assert (Hn' : hsize h1 !! a = Some n') by (unfold h1; simpl; by rewrite lookup_insert_eq).
  pose proof (merge_prev_apart h h1 F1 _ a n' R Hs1 Hnd1 HR' Hne HaR Hn' Hx) as Hap.
  unfold give_split. rewrite Hj. destruct (last F1) as [[b m]|] eqn:Hl.
  - pose proof (last_split F1 b m Hl) as HP. set (P := take (length F1 - 1) F1) in *. clearbody P. subst F1.
    case_match; [|by rewrite lastp_snoc in Hap].
    apply (merge_prev_join h h1 P b m a); eauto.
  - by apply last_None in Hl as ->.
Qed.

(** ** Heaps *)

Lemma block_bounds h F A top b : heap_ok h F A top -> b ∈ F \/ b ∈ A ->
  0 < b.2 /\ base + HDR <= b.1 /\ b.1 + HDR * b.2 <= top.
Proof.
  intros H Hb. destruct b as [a n].
  assert (0 < n) as Hn.
  { destruct Hb as [Hb|Hb]; [by destruct (sorted_elem _ _ _ _ (hk_sorted _ _ _ _ H) Hb)|by destruct (hk_sizes _ _ _ _ H _ _ Hb)]. }
  assert (Hz : forall z, in_block (a, n) z -> base + HDR <= z < top).
  { intros z Hz. apply (hk_bounds _ _ _ _ H). destruct Hb as [Hb|Hb]; [left|right]; by exists (a, n). }
  simpl. pose proof (Hz a) as H1. pose proof (Hz (a + HDR * n - 1)) as H2.
  unfold in_block, HDR in *. simpl in *. lia.
Qed.

Lemma block_pos h F A top : heap_ok h F A top -> Forall (fun b => 0 < b.2) F.
Proof. intros H. apply Forall_forall. intros b Hb. by apply (block_bounds h F A top b H (or_introl Hb)). Qed.

(** Where an allocated block lies among the free ones. *)
Lemma alloc_place h F a n A top : heap_ok h F ((a, n) :: A) top ->
  exists F1 F2, F = F1 ++ F2 /\ (forall x, x ∈ F1.*1 -> x < a) /\ (forall x, x ∈ F2.*1 -> a < x) /\
    (forall b m, (b, m) ∈ F1 -> b + HDR * m <= a) /\ (forall x, x ∈ F2.*1 -> a + HDR * n <= x).
Proof.
  intros H. pose proof (block_bounds _ _ _ _ (a, n) H ltac:(right; left)) as (Hn & _ & _). simpl in Hn.
  pose proof (hk_disj _ _ _ _ H (a, n)) as Hd.
  assert (Ha : forall b m, (b, m) ∈ F -> b <> a /\ (b < a -> b + HDR * m <= a) /\ (a < b -> a + HDR * n <= b)).
  { intros b m Hb. pose proof (block_bounds _ _ _ _ (b, m) H (or_introl Hb)) as (Hm & _ & _). simpl in Hm.
    pose proof (Hd a ltac:(left)) as Hda. pose proof (Hd b ltac:(left)) as Hdb.
    assert (free_at F a -> False) as Hda' by (apply Hda; unfold in_block, HDR; simpl; lia).
    assert (in_block (b, m) a -> False) by (intros Hi; apply Hda'; by exists (b, m)).
    assert (in_block (a, n) b -> False).
    { intros Hi. apply (Hdb Hi). exists (b, m). split; [done|]. unfold in_block, HDR. simpl. lia. }
    unfold in_block, HDR in *. simpl in *. lia. }
  destruct (split_at base F a (hk_sorted _ _ _ _ H)) as (F1 & F2 & -> & H1 & H2).
  { intros m Hm. by apply Ha in Hm as [? _]. }
  exists F1, F2. split_and!; try done.
  - intros b m Hb. apply (Ha b m); [apply elem_of_app; by left|]. apply H1. by apply (list_elem_of_fmap_2 fst) in Hb.
  - intros x Hx. pose proof (H2 x Hx). apply list_elem_of_fmap in Hx as ([b m] & -> & Hx).
    apply (Ha b m); [apply elem_of_app; by right|done].
Qed.

Lemma heap_init h F b A top : heap_ok h F (b :: A) top ->
  freep h ∈ base :: F.*1 /\ hsize h !! base = Some 0 /\ lseg h base F base.
Proof. intros H. by destruct (hk_ring _ _ _ _ H) as [(_ & _ & ?)|?]. Qed.

(** The address of an allocated block is that of no node. *)
Lemma alloc_not_node h F A top c k : heap_ok h F A top -> (c, k) ∈ A -> c ∉ base :: F.*1.
Proof.
  intros H Hc. pose proof (block_bounds _ _ _ _ _ H (or_intror Hc)) as (Hk & Hb & _). simpl in *.
  intros [->|Hx]%elem_of_cons; [unfold HDR in *; lia|]. apply list_elem_of_fmap in Hx as ([b m] & -> & Hx).
  apply (hk_disj _ _ _ _ H _ b Hc); [unfold in_block, HDR; simpl; lia|]. exists (b, m). split; [done|].
  pose proof (block_bounds _ _ _ _ _ H (or_introl Hx)) as (? & _). unfold in_block, HDR. simpl in *. lia.
Qed.

(** The state after the two merges. *)
Lemma merged_heap h F1 F2 a n A top h' :
  heap_ok h (F1 ++ F2) ((a, n) :: A) top ->
  (forall x, x ∈ F1.*1 -> x < a) -> (forall b m, (b, m) ∈ F1 -> b + HDR * m <= a) ->
  (forall x, x ∈ F2.*1 -> a + HDR * n <= x) ->
  lseg h' base (give_split a n F1 F2) base -> freep h' = lastp base F1 -> henv h' = henv h ->
  (forall x, x <> a -> x ∉ F1.*1 -> hsize h' !! x = hsize h !! x) ->
  heap_ok h' (give_split a n F1 F2) A top.
Proof.
  intros H Hx1 H1 H2 Hs Hfr He Hz. destruct (heap_init _ _ _ _ _ H) as (_ & Hb & _).
  pose proof (block_bounds _ _ _ _ (a, n) H ltac:(right; left)) as (Hn & Hab & _). simpl in Hn, Hab.
  assert (base < a) by (unfold HDR in *; lia).
  pose proof (give_free a n F1 F2 Hn (block_pos _ _ _ _ H)) as Hf.
  assert (HF1 : forall x, x ∈ F1.*1 -> x ∈ base :: (F1 ++ F2).*1).
  { intros x Hx. right. rewrite fmap_app. apply elem_of_app. by left. }
  split.
  - right. split_and!; [|rewrite Hz; [done|lia|]|done].
    + rewrite Hfr. unfold give_split. destruct (join_right a n F2) as [n' R]. unfold lastp. rewrite fmap_last.
      destruct (last F1) as [[b m]|] eqn:Hl; [|left]. right. simpl.
      pose proof (last_split F1 b m Hl) as HP. case_match; rewrite fmap_app; apply elem_of_app; [right; left|left].
      rewrite HP, fmap_app. apply elem_of_app. right. left.
    + intros Hx. apply (sorted_nodes base F1) in Hx; [lia|]. by apply hk_sorted, sorted_app in H as [? _].
  - apply give_sorted; [done|done|apply (hk_sorted _ _ _ _ H)|done|done].
  - intros c k Hc. rewrite Hz; [apply (hk_sizes _ _ _ _ H); by right| |].
    + intros ->. destruct (hk_apart _ _ _ _ H) as [Hap _]. apply (Hap _ a Hc); unfold in_block; simpl; [unfold HDR; lia|].
      destruct (hk_sizes _ _ _ _ H a k) as [_ ?]; [by right|]. unfold HDR. lia.
    + intros Hx. apply HF1 in Hx. revert Hx. apply (alloc_not_node h _ _ top c k H). by right.
  - by destruct (hk_apart _ _ _ _ H).
  - intros b z Hbin Hi [Hz'|Hz']%Hf.
    + destruct (hk_apart _ _ _ _ H) as [Hap _]. by apply (Hap b z Hbin).
    + apply (hk_disj _ _ _ _ H b z); [by right|done|done].
  - intros z [[Hi|Hi]%Hf|(b & Hbin & Hi)]; apply (hk_bounds _ _ _ _ H); [right|by left|right].
    + exists (a, n). split; [left|done].
    + exists b. split; [by right|done].
  - destruct (hk_align _ _ _ _ H) as [Ht Hal]. split; [done|]. intros b [Hbin|Hbin]; [|apply Hal; right; by right].
    apply give_elem in Hbin as [[k ->]|Hbin]; [apply (Hal (a, n)); right; left|].
    apply list_elem_of_fmap in Hbin as (c & -> & Hc). apply Hal. by left.
  - rewrite He. apply (hk_top _ _ _ _ H).
Qed.

(** [free] of an allocated block, or of one that sbrk just gave. *)
Lemma free_wp h F a n A top (Q : unit -> heap E -> list event -> Prop) :
  heap_ok h F ((a, n) :: A) top ->
  (forall h', heap_ok h' (give a n F) A top -> freep h' <> 0 -> Q tt h' []) -> wp (free (a + HDR)) h Q.
Proof.
  intros H HQ. destruct (alloc_place _ _ _ _ _ _ H) as (F1 & F2 & -> & Hx1 & Hx2 & H1 & H2).
  destruct (heap_init _ _ _ _ _ H) as (Hfr & Hb & Hs). pose proof (hk_sorted _ _ _ _ H) as Ho.
  pose proof (block_bounds _ _ _ _ (a, n) H ltac:(right; left)) as (Hn & Hab & Ht). simpl in Hn, Hab, Ht.
  destruct (hk_sizes _ _ _ _ H a n ltac:(left)) as [Hsz _]. destruct (hk_top _ _ _ _ H) as (_ & Hb0 & Htop).
  assert (base < a) by (unfold HDR in *; lia).
  assert (Hsm : forall b, b ∈ F1 ++ F2 -> 0 < b.2 < 2 ^ 28).
  { intros b Hin. pose proof (block_bounds _ _ _ _ b H (or_introl Hin)) as (? & ? & ?). unfold HDR in *. lia. }
  unfold free. replace (a + HDR - HDR) with a by lia. wp_steps.
  apply (find_prev_wp _ h F1 F2); try done; [apply (lseg_size h base _ base Hs (sorted_nodup _ _ Ho))|].
  pose proof (proj1 (lseg_app _ _ _ _ _) Hs) as [Hs1 Hs2].
  wp_steps. apply (get_ptr_wp _ _ (hd_addr F2 base)); [by apply lseg_hd in Hs2|]. wp_steps.
  destruct (join_right a n F2) as [n' R] eqn:Hj.
  assert (HF2 : forall b, b ∈ F2 -> 0 < b.2 < 2 ^ 28) by (intros b Hin; apply Hsm, elem_of_app; by right).
  apply (merge_next_wp h (lastp base F1) F2 a n n' R); try done; [unfold HDR in *; lia|]. wp_steps.
  pose proof (merge_ring h F1 F2 a n n' R Hs Ho ltac:(done) Hx1 Hx2 Hj) as Hring.
  destruct (merge_next_seg _ _ _ _ _ _ _ Hs2 Hx2 Hj) as [_ HaR].
  assert (Hlast : forall b m, last F1 = Some (b, m) -> (b, m) ∈ F1 /\ b ∈ F1.*1).
  { intros b m Hl%last_Some_elem_of. split; [done|]. by apply (list_elem_of_fmap_2 fst) in Hl. }
  apply (merge_prev_wp _ F1 a n' R); try done.
  - simpl. by rewrite lookup_insert_eq.
  - simpl. by rewrite lookup_insert_ne by lia.
  - intros b m [Hin Hin']%Hlast. assert ((b, m) ∈ F1 ++ F2) as Hin2 by (apply elem_of_app; by left).
    split; [|by apply (Hsm (b, m))]. simpl. apply Hx1 in Hin'. rewrite lookup_insert_ne by lia.
    by apply (lseg_node h base (F1 ++ F2) base).
  - apply (join_right_size a n F2 n' R (2 ^ 28)); [done|unfold HDR in *; lia|done].
  - wp_steps. rewrite (give_eq base) in HQ by done. apply HQ.
    + apply (merged_heap h); try done.
      * apply (lseg_ext _ _ _ _ _ Hring); by repeat case_match.
      * simpl. by repeat case_match.
      * intros x Hxa HxF. simpl. repeat case_match; simpl; rewrite ?lookup_insert_ne; try done.
        intros ->. by destruct (Hlast x z0).
    + simpl. pose proof (lastp_in base F1) as [->|Hin]%elem_of_cons; [lia|].
      apply sorted_app in Ho as [Ho _]. apply (sorted_nodes _ _ _ Ho) in Hin. lia.
Qed.

Lemma apart_perm A A' : A ≡ₚ A' -> apart A -> apart A'.
Proof.
  induction 1 as [|b A A' HP IH|b c A|A A' A'' _ IH1 _ IH2]; simpl; [done| | |by auto].
  - intros [H1 H2]. split; [|by apply IH]. intros c z Hc. rewrite <-HP in Hc. by apply H1.
  - intros (H1 & H2 & H3). split_and!; [|intros d z Hd; apply H1; by right|done].
    intros d z [->|Hd]%elem_of_cons Hc Hd'; [apply (H1 b z); [left|done|done]|by apply (H2 d z)].
Qed.

Lemma heap_ok_perm h F A A' top : A ≡ₚ A' -> heap_ok h F A top -> heap_ok h F A' top.
Proof.
  intros HP []. split; try done.
  - destruct hk_ring0 as [(? & ? & ->)|?]; [left|by right]. apply Permutation_nil in HP as ->. done.
  - intros a n Hin. rewrite <-HP in Hin. auto.
  - by apply (apart_perm A).
  - intros b z Hin. rewrite <-HP in Hin. by apply hk_disj0.
  - intros z Hz. apply hk_bounds0. destruct Hz as [?|(b & Hb & ?)]; [by left|right]. exists b. by rewrite HP.
  - destruct hk_align0 as [? Hal]. split; [done|]. intros b. rewrite <-HP. apply Hal.
Qed.

(** ** malloc *)

(** Part of the free space becomes a block. *)
Lemma take_heap h h' F F' A a nu top : heap_ok h F A top -> 0 < nu ->
  (forall z, free_at F z <-> in_block (a, nu) z \/ free_at F' z) -> (forall z, in_block (a, nu) z -> ~ free_at F' z) ->
  sorted base F' -> (forall b, b ∈ F' -> b.1 ∈ F.*1) -> a mod HDR = 0 ->
  freep h' ∈ base :: F'.*1 -> lseg h' base F' base -> henv h' = henv h ->
  hsize h' !! base = Some 0 -> hsize h' !! a = Some nu ->
  (forall c k, (c, k) ∈ A -> hsize h' !! c = hsize h !! c) -> heap_ok h' F' ((a, nu) :: A) top.
Proof.
  intros H Hnu Hf Hnf Ho Hsub Hal Hfr Hs He Hb Ha HA. split.
  - by right.
  - done.
  - intros c k [[= -> ->]|Hc]%elem_of_cons; [done|]. rewrite (HA c k) by done. by apply (hk_sizes _ _ _ _ H).
  - split; [|apply (hk_apart _ _ _ _ H)]. intros c z Hc Hz Hz'. apply (hk_disj _ _ _ _ H c z Hc Hz'), Hf. by left.
  - intros b z [->|Hb']%elem_of_cons Hz; [by apply Hnf|]. intros Hz'. apply (hk_disj _ _ _ _ H b z Hb' Hz), Hf. by right.
  - intros z [Hz|(b & [->|Hb']%elem_of_cons & Hz)]; apply (hk_bounds _ _ _ _ H).
    + left. apply Hf. by right.
    + left. apply Hf. by left.
    + right. by exists b.
  - destruct (hk_align _ _ _ _ H) as [Ht Hal']. split; [done|].
    intros b [Hin|[->|Hin]%elem_of_cons]; [|done|apply Hal'; by right].
    apply Hsub, list_elem_of_fmap in Hin as (c & -> & Hc). apply Hal'. by left.
  - rewrite He. apply (hk_top _ _ _ _ H).
Qed.

(** What [malloc] promises when it takes a block from the free list [F]. *)
Definition taken (nu : Z) (F A : list block) (top : Z) (r : Z) h' : Prop :=
  exists a F', r = a + HDR /\ heap_ok h' F' ((a, nu) :: A) top /\
    forall z, free_at F z <-> in_block (a, nu) z \/ free_at F' z.

Lemma sorted_apart lo X b R z : sorted lo (X ++ b :: R) -> in_block b z -> ~ free_at (X ++ R) z.
Proof.
  intros Hs Hz. destruct b as [p n]. rewrite free_at_app. apply sorted_app in Hs as [HsX Hs].
  intros [([c k] & Hc & Hcz)|([c k] & Hc & Hcz)].
  - destruct Hs as (Hlt & _). destruct (last X) as [[d m]|] eqn:Hl; [|apply last_None in Hl as ->; by apply not_elem_of_nil in Hc].
    pose proof (last_split X d m Hl) as HX. rewrite HX in HsX, Hc.
    assert (c + HDR * k <= d + HDR * m); [|unfold in_block in *; simpl in *; lia].
    apply elem_of_app in Hc as [Hc|[[= -> ->]|Hc]%elem_of_cons]; [|lia|by apply not_elem_of_nil in Hc].
    apply list_elem_of_split in Hc as (X1 & X2 & HX1). rewrite HX1, <-app_assoc in HsX.
    apply sorted_app in HsX as [_ (_ & _ & HsX)].
    apply (sorted_elem _ _ d m) in HsX; [unfold HDR in *; lia|]. apply elem_of_app. right. left.
  - destruct Hs as (_ & _ & Hs). apply (sorted_elem _ _ c k) in Hs; [|done]. unfold in_block in *. simpl in *. lia.
Qed.

(** A block of exactly the size wanted. *)
Lemma take_all_wp h P p n R A top (Q : Z -> heap E -> list event -> Prop) :
  heap_ok h (P ++ (p, n) :: R) A top -> lseg h base (P ++ (p, n) :: R) base -> hsize h !! base = Some 0 ->
  (forall r h', taken n (P ++ (p, n) :: R) A top r h' -> Q r h' []) ->
  wp (take_block n (lastp base P) p n) h Q.
Proof.
  intros H Hs Hb HQ. unfold take_block. rewrite Z.eqb_refl. wp_steps.
  pose proof (hk_sorted _ _ _ _ H) as Ho. pose proof (sorted_nodup _ _ Ho) as Hnd.
  pose proof (proj1 (lseg_app _ _ _ _ _) Hs) as [HsP (Hp1 & Hp2 & HsR)]. cbn [hd_addr] in HsP.
  apply (get_ptr_wp _ _ (hd_addr R base)); [by apply lseg_hd in HsR|]. unfold put_ptr. wp_steps. apply HQ.
  assert (Hin : (p, n) ∈ P ++ (p, n) :: R) by (apply elem_of_app; right; left).
  rewrite fmap_app, app_comm_cons in Hnd. apply NoDup_app in Hnd as (HndP & Hnd & _).
  exists p, (P ++ R). split; [done|].
  assert (Hf : forall z, free_at (P ++ (p, n) :: R) z <-> in_block (p, n) z \/ free_at (P ++ R) z).
  { intros z. rewrite !free_at_app, free_at_cons. tauto. }
  split; [|done]. apply (take_heap h _ (P ++ (p, n) :: R)); try done.
  - by apply (block_bounds _ _ _ _ _ H (or_introl Hin)).
  - intros z Hz. by apply (sorted_apart base P (p, n) R z Ho).
  - apply sorted_app in Ho as [HoP (Hlo & Hn0 & HoR)]. apply sorted_app. split; [done|].
    apply (sorted_le (p + HDR * n)); [unfold HDR in *; lia|done].
  - intros b Hbin. apply (list_elem_of_fmap_2 fst). rewrite elem_of_app in Hbin |- *. rewrite elem_of_cons. tauto.
  - by apply (proj2 (hk_align _ _ _ _ H) (p, n)), or_introl.
  - simpl. rewrite fmap_app, app_comm_cons. apply elem_of_app. left. apply lastp_in.
  - apply lseg_app. split.
    + apply (lseg_end h _ _ _ p); [done|done|simpl; by rewrite lookup_insert_eq| |done].
      intros x _ Hx. simpl. by rewrite lookup_insert_ne.
    + apply (lseg_start h _ p); [done|simpl; by rewrite lookup_insert_eq|].
      intros x Hx. simpl. rewrite lookup_insert_ne; [done|]. intros <-. apply (Hnd _ (lastp_in base P)). by right.
Qed.

(** No header lies within a free block. *)
Lemma inner_not_node h P p n R A top a : heap_ok h (P ++ (p, n) :: R) A top -> in_block (p, n) a -> a <> p ->
  a ∉ base :: (P ++ (p, n) :: R).*1 /\ (forall c k, (c, k) ∈ A -> c <> a).
Proof.
  intros H Ha Hpa. assert (Hin : (p, n) ∈ P ++ (p, n) :: R) by (apply elem_of_app; right; left).
  pose proof (block_bounds _ _ _ _ _ H (or_introl Hin)) as (_ & Hlo & _).
  assert (Hhd : forall b, b ∈ P ++ (p, n) :: R \/ b ∈ A -> in_block b b.1).
  { intros b Hb. pose proof (block_bounds _ _ _ _ _ H Hb) as (? & _). unfold in_block, HDR. lia. }
  split; [intros [->|Hx]%elem_of_cons|intros c k Hc ->].
  - unfold in_block, HDR in *. simpl in *. lia.
  - apply list_elem_of_fmap in Hx as (b & -> & Hx).
    apply (sorted_apart base P (p, n) R b.1 (hk_sorted _ _ _ _ H) Ha). exists b. split; [|by apply Hhd; left].
    apply elem_of_app in Hx as [Hx|[->|Hx]%elem_of_cons]; [|done|]; apply elem_of_app; auto.
  - apply (hk_disj _ _ _ _ H _ a Hc); [by apply (Hhd (a, k)); right|by exists (p, n)].
Qed.

Lemma sorted_once lo P p n R : sorted lo (P ++ (p, n) :: R) -> p ∉ lo :: P.*1 /\ p ∉ R.*1.
Proof.
  intros Ho%sorted_nodup. rewrite fmap_app, app_comm_cons in Ho. apply NoDup_app in Ho as (_ & Hd & HR).
  apply NoDup_cons in HR as [HR _]. split; [|done]. intros Hx. apply (Hd p Hx). left.
Qed.

(** The tail of a block that is larger. *)
Lemma take_tail_wp h P p n R A top nu (Q : Z -> heap E -> list event -> Prop) :
  heap_ok h (P ++ (p, n) :: R) A top -> lseg h base (P ++ (p, n) :: R) base -> hsize h !! base = Some 0 ->
  0 < nu < n ->
  (forall r h', taken nu (P ++ (p, n) :: R) A top r h' -> Q r h' []) ->
  wp (take_block nu (lastp base P) p n) h Q.
Proof.
  intros H Hs Hb Hnu HQ. unfold take_block. rewrite (proj2 (Z.eqb_neq n nu)) by lia.
  assert (Hin : (p, n) ∈ P ++ (p, n) :: R) by (apply elem_of_app; right; left).
  pose proof (block_bounds _ _ _ _ _ H (or_introl Hin)) as (_ & Hlo & Hhi). simpl in Hlo, Hhi.
  destruct (hk_top _ _ _ _ H) as (_ & Hb0 & Htop). unfold put_size. wp_steps. rewrite u32_small by (unfold HDR in *; lia).
  apply (get_size_wp _ _ (n - nu)); [simpl; by rewrite lookup_insert_eq|]. wp_steps. apply HQ.
  pose proof (hk_sorted _ _ _ _ H) as Ho. set (a := p + HDR * (n - nu)).
  assert (Hpa : p < a) by (unfold a, HDR; lia).
  assert (Hf1 : forall z, in_block (p, n) z <-> in_block (a, nu) z \/ in_block (p, n - nu) z).
  { intros z. unfold in_block, a, HDR. simpl. lia. }
  assert (Ha : in_block (p, n) a) by (unfold in_block, a, HDR; simpl; lia).
  destruct (inner_not_node h P p n R A top a H Ha ltac:(lia)) as [Hapart HapA].
  destruct (sorted_once base P p n R Ho) as [Hnp1 Hnp2].
  exists a, (P ++ (p, n - nu) :: R). split; [done|].
  split; [|intros z; rewrite !free_at_app, !free_at_cons, Hf1; tauto].
  apply (take_heap h _ (P ++ (p, n) :: R)); try done.
  - lia.
  - intros z. rewrite !free_at_app, !free_at_cons, Hf1. tauto.
  - intros z Hz Hz'. rewrite free_at_app, free_at_cons in Hz'.
    assert (in_block (p, n - nu) z) as Hz1.
    { assert (~ free_at (P ++ R) z) as Hn'; [apply (sorted_apart base P (p, n) R z Ho), Hf1; by left|].
      rewrite free_at_app in Hn'. tauto. }
    unfold in_block, a, HDR in *. simpl in *. lia.
  - apply sorted_app in Ho as [HoP (Hl & Hn0 & HoR)]. apply sorted_app. simpl. split_and!; try done; [lia|].
    apply (sorted_le (p + HDR * n)); [unfold HDR; lia|done].
  - intros b. rewrite elem_of_app, elem_of_cons, fmap_app. intros Hbin. apply elem_of_app.
    destruct Hbin as [Hbin|[->|Hbin]]; [left; by apply list_elem_of_fmap_2|right; left|].
    right. right. by apply list_elem_of_fmap_2.
  - unfold a. rewrite Z.mul_comm, Z.mod_add by done. by apply (proj2 (hk_align _ _ _ _ H) (p, n)), or_introl.
  - simpl. rewrite fmap_app, app_comm_cons. apply elem_of_app. left. apply lastp_in.
  - apply (lseg_resize h _ _ P p n); [done|done|simpl; by rewrite lookup_insert_ne, lookup_insert_eq by lia|].
    intros x Hx. simpl. assert (x <> p) by (intros ->; apply elem_of_app in Hx as [Hx|Hx]; [apply Hnp1; by right|done]).
    rewrite !lookup_insert_ne; [done|done|]. intros <-. apply Hapart. right. rewrite fmap_app, fmap_cons, elem_of_app, elem_of_cons.
    apply elem_of_app in Hx. tauto.
  - simpl. unfold HDR in *. by rewrite !lookup_insert_ne by lia.
  - simpl. by rewrite lookup_insert_eq.
  - intros c k Hc. simpl. pose proof (alloc_not_node _ _ _ _ _ _ H Hc) as Hnc.
    rewrite !lookup_insert_ne; [done| |].
    + intros <-. apply Hnc. right. rewrite fmap_app. apply elem_of_app. right. left.
    + by apply not_eq_sym, (HapA c k).
Qed.

Lemma take_wp h P p n R A top nu (Q : Z -> heap E -> list event -> Prop) :
  heap_ok h (P ++ (p, n) :: R) A top -> freep h <> 0 -> 0 < nu <= n ->
  (forall r h', taken nu (P ++ (p, n) :: R) A top r h' -> Q r h' []) ->
  wp (take_block nu (lastp base P) p n) h Q.
Proof.
  intros H Hf Hnu HQ. destruct (hk_ring _ _ _ _ H) as [(? & _)|(_ & Hb & Hs)]; [done|].
  destruct (Z.eq_dec nu n) as [->|]; [by apply (take_all_wp h P p n R A top)|].
  apply (take_tail_wp h P p n R A top); try done. lia.
Qed.

(** *** The search *)

Section search.
Context h (F A : list block) (top nu : Z) (Q : Z -> heap E -> list event -> Prop).
Hypothesis Hok : heap_ok h F A top.
Hypothesis Hfr : freep h <> 0.
Hypothesis Hnu : 0 < nu.
Hypothesis HT : forall r h', taken nu F A top r h' -> Q r h' [].

Lemma visit_big fuel P p n R : F = P ++ (p, n) :: R -> nu <= n -> wp (malloc_loop fuel nu (lastp base P) p) h Q.
Proof.
  intros HF Hn. destruct (hk_ring _ _ _ _ Hok) as [(? & _)|(_ & _ & Hs)]; [done|].
  assert (Hp : hsize h !! p = Some n).
  { apply (lseg_node h base F base); [done|]. rewrite HF. apply elem_of_app. right. left. }
  destruct fuel as [|fuel]; cbn [malloc_loop]; wp_steps; (apply (get_size_wp _ _ n); [done|]);
    rewrite (proj2 (Z.leb_le nu n)) by done; subst F; by apply (take_wp h P p n R A top).
Qed.

Lemma visit_small fuel prevp p n q : hsize h !! p = Some n -> n < nu -> p <> freep h -> hptr h !! p = Some q ->
  wp (malloc_loop fuel nu p q) h Q -> wp (malloc_loop (S fuel) nu prevp p) h Q.
Proof.
  intros Hp Hn Hpf Hq HQ. cbn [malloc_loop]. wp_steps. apply (get_size_wp _ _ n); [done|].
  rewrite (proj2 (Z.leb_gt nu n)) by lia. wp_steps. rewrite (proj2 (Z.eqb_neq _ _)) by done. wp_steps.
  by apply (get_ptr_wp _ _ q).
Qed.

(** A stretch of the list: one of its blocks is taken, or none is large enough. *)
Lemma scan fuel P Y Z : F = P ++ Y ++ Z -> freep h ∉ Y.*1 -> (length Y <= fuel)%nat ->
  (Forall (fun b => b.2 < nu) Y ->
   wp (malloc_loop (fuel - length Y) nu (lastp base (P ++ Y)) (hd_addr Z base)) h Q) ->
  wp (malloc_loop fuel nu (lastp base P) (hd_addr (Y ++ Z) base)) h Q.
Proof.
  revert fuel P. induction Y as [|[p n] Y IH]; intros fuel P HF Hf Hl HE.
  - rewrite app_nil_r in HE. simpl in HE. rewrite Nat.sub_0_r in HE. by apply HE, Forall_nil.
  - cbn [app hd_addr]. destruct (Z.le_gt_cases nu n) as [Hn|Hn]; [by apply (visit_big fuel P p n (Y ++ Z))|].
    destruct fuel as [|fuel]; [simpl in Hl; lia|].
    destruct (hk_ring _ _ _ _ Hok) as [(? & _)|(_ & Hb & Hs)]; [done|]. rewrite HF in Hs.
    pose proof (proj1 (lseg_app _ _ _ _ _) Hs) as [_ (_ & Hp & HsY)]. 
    apply (visit_small fuel _ p n (hd_addr (Y ++ Z) base)); try done.
    + intros ->. apply Hf. left.
    + by apply lseg_hd in HsY.
    + replace p with (lastp base (P ++ [(p, n)])) by apply lastp_snoc. apply IH.
      * by rewrite <-app_assoc.
      * intros Hx. apply Hf. by right.
      * simpl in Hl. lia.
      * intros HY. rewrite <-app_assoc. apply HE. by constructor.
Qed.

(** Once around from the last place: the search comes back there only when no block is large
    enough. *)
Lemma search fuel q : hptr h !! freep h = Some q -> (length F <= fuel)%nat ->
  (forall prevp, Forall (fun b => b.2 < nu) F -> wp (malloc_loop (fuel - length F) nu prevp (freep h)) h Q) ->
  wp (malloc_loop fuel nu (freep h) q) h Q.
Proof.
  intros Hq Hl HE. destruct (hk_ring _ _ _ _ Hok) as [(? & _)|(Hin & Hb & Hs)]; [done|].
  pose proof (hk_sorted _ _ _ _ Hok) as Ho. apply elem_of_cons in Hin as [Hin|Hin].
  - pose proof (lseg_hd _ _ _ _ Hs) as Hhd. rewrite <-Hin in Hhd. rewrite Hq in Hhd. injection Hhd as ->.
    rewrite Hin. replace F with (F ++ []) at 1 by apply app_nil_r.
    apply (scan fuel [] F []); [by rewrite app_nil_r| |done|].
    + rewrite Hin. intros Hx. apply (sorted_nodes base F) in Hx; [lia|done].
    + intros HF. cbn [hd_addr]. rewrite <-Hin. by apply HE.
  - apply node_split in Hin as (X & m & Y & HF). pose proof Hs as Hs'. rewrite HF in Hs'.
    apply lseg_app in Hs' as [HsX (_ & Hm & HsY)].
    rewrite (lseg_hd _ _ _ _ HsY) in Hq. injection Hq as <-.
    pose proof Ho as Ho'. rewrite HF in Ho'. apply sorted_once in Ho' as [HfX HfY].
    rewrite HF, length_app in Hl. simpl in Hl.
    replace (freep h) with (lastp base (X ++ [(freep h, m)])) at 1 by apply lastp_snoc.
    replace Y with (Y ++ []) at 1 by apply app_nil_r.
    apply scan; [by rewrite <-app_assoc, app_nil_r|done|lia|]. intros HY. cbn [hd_addr].
    replace (fuel - length Y)%nat with (S (fuel - length Y - 1)) by lia.
    apply (visit_small _ _ _ 0 (hd_addr F base)); [done|lia| |by apply lseg_hd|].
    { intros Heq. apply HfX. rewrite <-Heq. left. }
    rewrite HF at 1. apply (scan _ [] X ((freep h, m) :: Y)); [done| |lia|].
    { intros Hx. apply HfX. by right. }
    intros HX. cbn [hd_addr app]. destruct (Z.le_gt_cases nu m) as [Hbig|Hsmall]; [by apply (visit_big _ X (freep h) m Y)|].
    replace (fuel - length Y - 1 - length X)%nat with (fuel - length F)%nat; [|rewrite HF, length_app; simpl; lia].
    apply HE. rewrite HF. apply Forall_app. split; [done|]. by constructor.
Qed.
End search.

(** *** morecore *)

Lemma give_length a n F : (length (give a n F) <= S (length F))%nat.
Proof.
  assert (HJ : forall n F n' R, join_right a n F = (n', R) -> (length R <= length F)%nat).
  { intros n1 F1 n' R. unfold join_right. destruct F1 as [|[c k] F1]; [by intros [= <- <-]|].
    case_match; intros [= <- <-]; simpl; lia. }
  induction F as [|[b m] F IH]; cbn [give]; [done|].
  destruct (a <? b); [|destruct (b + HDR * m =? a)].
  - destruct (join_right a n ((b, m) :: F)) as [n' R] eqn:Hj. apply HJ in Hj. simpl in *. lia.
  - destruct (join_right a n F) as [n' R] eqn:Hj. apply HJ in Hj. simpl in *. lia.
  - simpl. lia.
Qed.

Context `{!SbrkSpec E}.

(** The memory sbrk gave is a block of its own. *)
Lemma grown_heap h F A top nu e : heap_ok h F A top -> freep h <> 0 -> 0 < nu ->
  top + nu * HDR < 2 ^ 31 -> brk_at e (top + nu * HDR) ->
  heap_ok (set_hsize top nu (set_henv e h)) F ((top, nu) :: A) (top + nu * HDR).
Proof.
  intros H Hf Hnu Hlt He. destruct (hk_ring _ _ _ _ H) as [(? & _)|(Hfr & Hb & Hs)]; [done|].
  destruct (hk_top _ _ _ _ H) as (_ & Hb0 & Htop). destruct (hk_align _ _ _ _ H) as [Hal Hal'].
  assert (Hne : forall b, b ∈ F \/ b ∈ A -> b.1 <> top).
  { intros b Hbin. pose proof (block_bounds _ _ _ _ _ H Hbin) as (? & ? & ?). unfold HDR in *. lia. }
  assert (Hin : forall z, free_at F z \/ (exists b, b ∈ A /\ in_block b z) -> z < top).
  { intros z Hz. by apply (hk_bounds _ _ _ _ H). }
  split; simpl.
  - right. split_and!; [done|rewrite lookup_insert_ne; [done|unfold HDR in *; lia]|].
    apply (lseg_ext h); [done|done|]. intros x Hx. apply list_elem_of_fmap in Hx as (b & -> & Hx). simpl.
    rewrite lookup_insert_ne; [done|]. by apply not_eq_sym, Hne; left.
  - apply (hk_sorted _ _ _ _ H).
  - intros a n [[= -> ->]|Ha]%elem_of_cons; [by rewrite lookup_insert_eq|].
    rewrite lookup_insert_ne; [by apply (hk_sizes _ _ _ _ H)|]. by apply not_eq_sym, (Hne (a, n)); right.
  - split; [|apply (hk_apart _ _ _ _ H)]. intros c z Hc [Hz _] Hz'. simpl in Hz.
    enough (z < top) by lia. apply Hin. eauto.
  - intros b z [->|Hb']%elem_of_cons Hz Hz'; [|by apply (hk_disj _ _ _ _ H b z)].
    destruct Hz as [Hz _]. simpl in Hz. enough (z < top) by lia. apply Hin. by left.
  - intros z [Hz|(b & [->|Hb']%elem_of_cons & Hz)].
    + pose proof (hk_bounds _ _ _ _ H z (or_introl Hz)). unfold HDR in *. lia.
    + unfold in_block, HDR in *. simpl in *. lia.
    + pose proof (hk_bounds _ _ _ _ H z ltac:(eauto)). unfold HDR in *. lia.
  - split; [by rewrite Z.mod_add|]. intros b [Hb'|[->|Hb']%elem_of_cons]; auto.
  - split_and!; [done|done|unfold HDR in *; lia|done].
Qed.

Definition chunk (nu : Z) : Z := if nu <? 4096 then 4096 else nu.

(** New memory goes after every free block. *)
Lemma give_top h F A top n : heap_ok h F A top -> give top n F = give_split top n F [].
Proof.
  intros H. rewrite <-(app_nil_r F) at 1. apply (give_eq base).
  - rewrite app_nil_r. apply (hk_sorted _ _ _ _ H).
  - intros x Hx. apply list_elem_of_fmap in Hx as (b & -> & Hx).
    pose proof (block_bounds _ _ _ _ _ H (or_introl Hx)) as (? & ? & ?). unfold HDR in *. lia.
  - intros x Hx. by apply not_elem_of_nil in Hx.
Qed.

Lemma give_top_big h F A top n : heap_ok h F A top -> exists b, b ∈ give top n F /\ n <= b.2.
Proof.
  intros H. rewrite (give_top h F A top n H). apply give_big. rewrite app_nil_r. by apply (block_pos h F A top).
Qed.

Lemma give_top_free h F A top n : heap_ok h F A top -> 0 < n ->
  forall z, free_at (give top n F) z <-> free_at F z \/ top <= z < top + n * HDR.
Proof.
  intros H Hn z. rewrite (give_top h F A top n H), give_free; [|done|rewrite app_nil_r; by apply (block_pos h F A top)].
  rewrite app_nil_r. unfold in_block, HDR. simpl. rewrite (Z.mul_comm n). tauto.
Qed.

Lemma morecore_wp h F A top nu (Q : Z -> heap E -> list event -> Prop) :
  heap_ok h F A top -> freep h <> 0 -> 0 < nu -> nu * HDR < 2 ^ 31 ->
  (forall h' t, heap_ok h' F A top -> Q 0 h' t) ->
  (forall h' t, heap_ok h' (give top (chunk nu) F) A (top + chunk nu * HDR) -> freep h' <> 0 -> Q (freep h') h' t) ->
  wp (morecore nu) h Q.
Proof.
  intros H Hf Hnu Hlt H0 H1. unfold morecore. fold (chunk nu).
  assert (0 < chunk nu /\ chunk nu * HDR < 2 ^ 31) as [Hc Hc'] by (unfold chunk, HDR in *; case_match; lia).
  destruct (hk_top _ _ _ _ H) as (Hbrk & Hb0 & Htop). wp_steps.
  rewrite i32_small_id by (unfold HDR in *; lia).
  eapply wp_mono; [apply (sbrk_grows (henv h) top); [done|unfold HDR in *; lia]|].
  intros r e t [[-> He]|(-> & Hlt' & He)]; cbn beta.
  - rewrite Z.eqb_refl. wp_steps. apply H0. destruct H. split; try done.
    destruct hk_ring0 as [?|(? & ? & ?)]; [by left|right]. split_and!; [done|done|]. by apply (lseg_ext h).
  - rewrite (proj2 (Z.eqb_neq _ _)) by (unfold HDR in *; lia). unfold put_size. wp_steps.
    apply (free_wp _ F top (chunk nu) A (top + chunk nu * HDR)).
    + by apply grown_heap.
    + intros h' Hok Hf'. wp_steps. by apply H1.
Qed.

(** ** The theorems *)

(** The units of a request: its bytes and a header. *)
Definition units (nbytes : Z) : Z := u32 ((nbytes + HDR - 1) / HDR + 1).

Lemma units_fit nbytes : 0 <= nbytes < 2 ^ 31 - 32 ->
  nbytes <= HDR * (units nbytes - 1) < nbytes + HDR /\ 0 < units nbytes /\ units nbytes * HDR < 2 ^ 31.
Proof. intros Hn. unfold units, HDR. rewrite u32_small by lia_dm. lia_dm. Qed.

Lemma freep_next h F A top : heap_ok h F A top -> freep h <> 0 -> exists q, hptr h !! freep h = Some q.
Proof.
  intros H Hf. destruct (hk_ring _ _ _ _ H) as [(? & _)|(Hin & _ & Hs)]; [done|].
  apply elem_of_cons in Hin as [->|Hin]; [eexists; by apply lseg_hd in Hs|].
  apply node_split in Hin as (X & m & Y & HF). rewrite HF in Hs. apply lseg_app in Hs as [_ (_ & _ & HsY)].
  eexists. by apply lseg_hd in HsY.
Qed.

Lemma freep_small h F A top nu : heap_ok h F A top -> freep h <> 0 -> 0 < nu -> Forall (fun b => b.2 < nu) F ->
  exists n, hsize h !! freep h = Some n /\ n < nu.
Proof.
  intros H Hf Hnu HF. destruct (hk_ring _ _ _ _ H) as [(? & _)|(Hin & Hb & Hs)]; [done|].
  apply elem_of_cons in Hin as [->|Hin]; [by exists 0|]. apply list_elem_of_fmap in Hin as ([c k] & Hc & Hin).
  simpl in Hc. exists k. split; [rewrite Hc; by apply (lseg_node h base F base)|].
  by apply (proj1 (Forall_forall _ _) HF (c, k)).
Qed.

(** The loop from the place where the last one ended. *)
Lemma malloc_loop_wp h F A top nu q (Q : Z -> heap E -> list event -> Prop) fuel :
  heap_ok h F A top -> freep h <> 0 -> 0 < nu -> nu * HDR < 2 ^ 31 ->
  hptr h !! freep h = Some q -> (2 * length F + 2 <= fuel)%nat ->
  (forall h' t, Forall (fun b => b.2 < nu) F -> heap_ok h' F A top -> Q 0 h' t) ->
  (forall r h' t, taken nu F A top r h' -> Q r h' t) ->
  (forall r h' t, taken nu (give top (chunk nu) F) A (top + chunk nu * HDR) r h' -> Q r h' t) ->
  wp (malloc_loop fuel nu (freep h) q) h Q.
Proof.
  intros H Hf Hnu Hlt Hq Hfuel H0 H1 H2. apply (search h F A top nu Q H Hf Hnu); [by auto|done|lia|].
  intros prevp HF. destruct (freep_small _ _ _ _ nu H Hf Hnu HF) as (n & Hn & Hn').
  destruct (fuel - length F)%nat as [|fuel'] eqn:Ef; [lia|]. cbn [malloc_loop]. wp_steps.
  apply (get_size_wp _ _ n); [done|]. rewrite (proj2 (Z.leb_gt nu n)) by done. wp_steps. rewrite Z.eqb_refl. wp_steps.
  apply (morecore_wp h F A top); try done.
  - intros h' t Hok. wp_steps. by apply H0.
  - intros h' t Hok Hf'. wp_steps. rewrite (proj2 (Z.eqb_neq _ _)) by done. wp_steps.
    destruct (freep_next _ _ _ _ Hok Hf') as [q' Hq']. apply (get_ptr_wp _ _ q'); [done|].
    apply (search h' _ A _ nu _ Hok Hf' Hnu); [intros; by apply H2|done| |].
    + pose proof (give_length top (chunk nu) F). lia.
    + intros prevp' HF'. exfalso. destruct (give_top_big h F A top (chunk nu) H) as (b & Hb & Hbn).
      apply (proj1 (Forall_forall _ _) HF') in Hb. unfold chunk in Hbn. case_match; lia.
Qed.

(** The first call makes the list of one header, of no units. *)
Lemma first_call h F A top : heap_ok h F A top -> freep h = 0 ->
  F = [] /\ A = [] /\ heap_ok (set_hsize base 0 (set_hptr base base (set_freep base h))) [] [] top.
Proof.
  intros H Hf. destruct (hk_top _ _ _ _ H) as (Hbrk & Hb0 & Htop). destruct (hk_ring _ _ _ _ H) as [(_ & -> & ->)|(Hin & _)].
  - split_and!; try done. destruct H. split; try done. right. simpl.
    split_and!; [left|by rewrite lookup_insert_eq..].
    intros a n Ha. by apply not_elem_of_nil in Ha.
  - exfalso. rewrite Hf in Hin. apply elem_of_cons in Hin as [?|Hin]; [lia|].
    apply (sorted_nodes _ _ _ (hk_sorted _ _ _ _ H)) in Hin. lia.
Qed.

(** C21. malloc returns for every request under 2 GB, whatever the free list and wherever the
    last search ended.  It returns an address with at least [nbytes] bytes behind it, in a
    block that overlaps no other allocated block and nothing that is still free, and the free
    space with the block is what was free before and what sbrk added; the list stays sorted
    and merged.  Or it returns 0, with the heap as it was, and then no free block was large
    enough. *)
Theorem malloc_allocates h F A top nbytes :
  heap_ok h F A top -> 0 <= nbytes < 2 ^ 31 - 32 ->
  wp (malloc nbytes) h (fun r h' _ =>
    (r = 0 /\ heap_ok h' F A top /\ Forall (fun b => b.2 < units nbytes) F) \/
    (exists a F' top', r = a + HDR /\ nbytes <= HDR * (units nbytes - 1) /\ top <= top' /\
       heap_ok h' F' ((a, units nbytes) :: A) top' /\
       forall z, in_block (a, units nbytes) z \/ free_at F' z <-> free_at F z \/ top <= z < top')).
Proof.
  intros H Hn. destruct (units_fit nbytes Hn) as (Hfit & Hnu & Hlt). unfold malloc. fold (units nbytes). wp_steps.
  match goal with |- wp ?m h ?R => enough (forall h0, heap_ok h0 F A top -> freep h0 <> 0 -> R tt h0 []) as Hgo end.
  { cbn beta in Hgo. destruct (Z.eqb_spec (freep h) 0) as [Hf|Hf]; [|apply wp_ret; by apply Hgo].
    destruct (first_call h F A top H Hf) as (-> & -> & Hok). unfold put_ptr, put_size.
    do 2 (apply wp_bind, wp_mod). apply wp_mod. apply Hgo; [done|]. simpl. destruct (hk_top _ _ _ _ H) as (_ & ? & _). lia. }
  intros h0 Hok Hf. wp_steps. destruct (freep_next _ _ _ _ Hok Hf) as [q Hq]. apply (get_ptr_wp _ _ q); [done|]. wp_steps.
  apply (malloc_loop_wp h0 F A top); try done.
  - destruct (hk_ring _ _ _ _ Hok) as [(? & _)|(_ & _ & Hs)]; [done|].
    pose proof (lseg_size h0 base F base Hs (sorted_nodup _ _ (hk_sorted _ _ _ _ Hok))). lia.
  - intros h' t HF Hok'. by left.
  - intros r h' t (a & F' & -> & Hok' & Hsp). right. exists a, F', top. split_and!; try done; try lia.
    intros z. rewrite <-Hsp. intuition lia.
  - intros r h' t (a & F' & -> & Hok' & Hsp). right. exists a, F', (top + chunk (units nbytes) * HDR).
    assert (0 < chunk (units nbytes)) as Hc by (unfold chunk; case_match; lia).
    split_and!; try done; try (unfold HDR in *; lia).
    intros z. by rewrite <-Hsp, (give_top_free h0 F A top).
Qed.

(** C22. free of any allocated block returns, and the free list is then the old one with the
    block put in order of address and joined with the free blocks it touches: exactly its bytes
    become free, the other allocated blocks keep theirs and their headers, and no two blocks of
    the list overlap or touch. *)
Theorem free_merges h F A A' a n top :
  heap_ok h F A top -> A ≡ₚ (a, n) :: A' ->
  wp (free (a + HDR)) h (fun _ h' _ =>
    heap_ok h' (give a n F) A' top /\ forall z, free_at (give a n F) z <-> in_block (a, n) z \/ free_at F z).
Proof.
  intros H HP. apply (heap_ok_perm h F A _ top HP) in H. apply (free_wp h F a n A' top _ H). intros h' Hok _.
  split; [done|]. destruct (alloc_place _ _ _ _ _ _ H) as (F1 & F2 & -> & Hx1 & Hx2 & _ & _). intros z.
  rewrite (give_eq base a n F1 F2 (hk_sorted _ _ _ _ H) Hx1 Hx2). apply give_free; [|by apply (block_pos _ _ _ _ H)].
  by apply (block_bounds _ _ _ _ (a, n) H ltac:(right; left)).
Qed.
End umalloc.

(** ** A process with a limit on its memory *)

Module Demo.
(** The break and its limit. *)
Definition env : Type := Z * Z.

Definition env_sbrk (n : Z) : K env Z :=
  let! e := kget in
  if e.1 + n <=? e.2 then kmod (fun e => (e.1 + n, e.2)) ;;; kret e.1 else kret (-1).

#[export] Instance env_Sbrk : Sbrk env := {|
  sbrk := env_sbrk;
  brk_at e b := e.1 = b /\ e.2 < 2 ^ 31;
|}.

#[export] Instance env_SbrkSpec : SbrkSpec env.
Proof.
  split. intros [b lim] b' n [<- Hl] Hn. unfold sbrk. cbn [env_Sbrk]. unfold env_sbrk. wp_steps. simpl in *.
  destruct (Z.leb_spec (b + n) lim); wp_steps; [right|by left]. simpl. split_and!; [done|lia|done|done].
Qed.

Definition fresh : heap env := Heap ∅ ∅ 0 (4096, 100000).
(** After one request for all that one call of sbrk gives. *)
Definition full : heap env := Heap {[64 := 64]} {[64 := 0; 4096 := 4096]} 64 (69632, 100000).

Lemma fresh_ok : heap_ok 64 fresh [] [] 4096.
Proof.
  assert (forall b : Z * Z, b ∈ [] -> False) as Hn by (intros b; apply not_elem_of_nil).
  split; try done.
  - by left.
  - intros a n Ha. by apply Hn in Ha.
  - intros b z Hb. by apply Hn in Hb.
  - intros z [Hz|(b & Hb & _)]; [by apply free_at_nil in Hz|by apply Hn in Hb].
  - split; [done|]. intros b [Hb|Hb]; by apply Hn in Hb.
Qed.

Lemma full_ok : heap_ok 64 full [] [(4096, 4096)] 69632.
Proof.
  assert (forall b : Z * Z, b ∈ [(4096, 4096)] -> b = (4096, 4096)) as H1.
  { intros b [->|Hb]%elem_of_cons; [done|by apply not_elem_of_nil in Hb]. }
  split; try done.
  - right. split_and!; [left|done|done].
  - intros a n Ha. apply H1 in Ha. by simplify_eq.
  - split; [|done]. intros c z Hc. by apply not_elem_of_nil in Hc.
  - intros b z _ _ Hz. by apply free_at_nil in Hz.
  - intros z [Hz|(b & Hb & Hz)]; [by apply free_at_nil in Hz|]. apply H1 in Hb as ->. unfold in_block, HDR in *. simpl in *. lia.
  - split; [done|]. intros b [Hb|Hb]; [by apply not_elem_of_nil in Hb|by apply H1 in Hb as ->].
Qed.

Lemma malloc_allocates_witness :
  wp (malloc 64 100) fresh (fun r h' _ =>
    (r = 0 /\ heap_ok 64 h' [] [] 4096 /\ Forall (fun b : Z * Z => b.2 < 8) []) \/
    (exists a F' top', r = a + HDR /\ 100 <= HDR * (8 - 1) /\ 4096 <= top' /\
       heap_ok 64 h' F' [(a, 8)] top' /\
       forall z, in_block (a, 8) z \/ free_at F' z <-> free_at [] z \/ 4096 <= z < top')).
Proof. apply (malloc_allocates 64 fresh [] [] 4096 100 fresh_ok). split; [done|reflexivity]. Defined.

Lemma free_merges_witness :
  wp (free (4096 + HDR)) full (fun _ h' _ =>
    heap_ok 64 h' [(4096, 4096)] [] 69632 /\
    forall z, free_at [(4096, 4096)] z <-> in_block (4096, 4096) z \/ free_at [] z).
Proof. apply (free_merges 64 full [] [(4096, 4096)] [] 4096 4096 69632 full_ok). reflexivity. Defined.

(** The first block is the tail of the chunk, the next one lies before it; a request for more
    than the limit allows returns 0. *)
Example malloc_runs :
  match (let! a := malloc 64 100 in
         let! b := malloc 64 1 in
         free a ;;;
         free b ;;;
         let! c := malloc 64 65520 in
         let! d := malloc 64 100000 in
         kret (a, b, c, d)) fresh with
  | (_, Ret r _) => Some r
  | _ => None
  end = Some (69520, 69488, 4112, 0).
Proof. vm_compute. reflexivity. Qed.

(** From 2 GB on the number of bytes does not fit sbrk's int: a request for almost 4 GB shrinks
    the process by 16 bytes, and an address is returned all the same. *)
Example malloc_huge :
  match malloc 64 (2 ^ 32 - 32) fresh with
  | (_, Ret r h) => Some (r, henv h)
  | _ => None
  end = Some (4112, (4080, 100000)).
Proof. vm_compute. reflexivity. Qed.
End Demo.
