(* ===== verification/Printf.v ===== *)
(** * Formatted output of the kernel: printnum, strnlen and vprintfmt of kernel/console.c

    The functions take the routine [putch] that prints one character.  A format is the list
    of its bytes up to the NUL; the variable arguments are a list of 64-bit words, and taking
    one more than there are faults.  [cstr] reads the string at an address.  A flag is the
    character or number the C code keeps. *)

From stdpp Require Import base list strings.
From Stdlib Require Import ZArith Lia.
From S2P Require Import Prelude.
Open Scope Z_scope.

(** The characters of a literal. *)
Definition chars (x : string) : list Z := (fun a => Z.of_N (Ascii.N_of_ascii a)) <$> String.list_ascii_of_string x.
Definition digit_chars : list Z := Eval vm_compute in chars "0123456789abcdef".
Definition null_text : list Z := Eval vm_compute in chars "(null)".

Section printf.
Context {S : Type} (putch : Z -> K S unit) (cstr : Z -> option (list Z)).

(** [while (--width > 0) putch(padc, putdat)], [n] times. *)
Fixpoint pad (n : nat) (padc : Z) : K S unit :=
  match n with
  | O => kret tt
  | Datatypes.S n' => putch padc ;;; pad n' padc
  end.

Definition put_digit (d : Z) : K S unit :=
  match digit_chars !! Z.to_nat d with Some c => putch c | None => fault end.

Fixpoint printnum (fuel : nat) (num base width padc : Z) : K S unit :=
  (if base <=? num then
     match fuel with
     | O => kstop NoFuel
     | Datatypes.S fuel' => printnum fuel' (num / base) base (width - 1) padc
     end
   else pad (Z.to_nat (width - 1)) padc) ;;;
  put_digit (num mod base).

(** A 64-bit number has at most 64 digits in any base. *)
Definition print_number (num base width padc : Z) : K S unit := printnum 64 num base width padc.

(** The string [s] up to its NUL. *)
Fixpoint strnlen (x : list Z) (size : Z) : Z :=
  match x with
  | [] => 0
  | _ :: x' => if 0 <? size then 1 + strnlen x' (size - 1) else 0
  end.

Record flags := Flags {
  padc : Z;
  width : Z;
  precision : Z;
  lflag : Z;
  altflag : bool;
}.

(** [for (precision = 0; ; ++fmt) {...}]: the number that starts with the digit [ch]; the
    rest starts at the first other character. *)
Fixpoint number_at (prec ch : Z) (fmt : list Z) : Z * list Z :=
  let prec := i32 (prec * 10 + ch - 48) in
  match fmt with
  | c :: fmt' => if ((c <? 48) || (57 <? c))%bool then (prec, fmt) else number_at prec c fmt'
  | [] => (prec, [])
  end.

(** [process_precision:] *)
Definition process_precision (p : Z) (f : flags) : flags :=
  if width f <? 0 then Flags (padc f) p (-1) (lflag f) (altflag f)
  else Flags (padc f) (width f) p (lflag f) (altflag f).

(** [for (; (ch = *p++) != 0 && (precision < 0 || --precision >= 0); width--)]; the result
    is the width that is left. *)
Fixpoint put_string (x : list Z) (prec width : Z) (alt : bool) : K S Z :=
  match x with
  | [] => kret width
  | b :: x' =>
      let ch := i8 b in
      if ((prec <? 0) || (0 <=? prec - 1))%bool then
        (if (alt && ((ch <? 32) || (126 <? ch)))%bool then putch 63 else putch ch) ;;;
        put_string x' (if prec <? 0 then prec else prec - 1) (width - 1) alt
      else kret width
  end.

(** [case 's'] *)
Definition conv_string (p : Z) (f : flags) : K S unit :=
  match (if p =? 0 then Some null_text else cstr p) with
  | None => fault
  | Some x =>
      let! w :=
        (if ((0 <? width f) && negb (padc f =? 45))%bool then
           let w := width f - strnlen x (precision f) in
           pad (Z.to_nat w) (padc f) ;;;
           kret (if 0 <? w then 0 else w)
         else kret (width f)) in
      let! w := put_string x (precision f) w (altflag f) in
      pad (Z.to_nat w) 32
  end.

(** The value of a signed or an unsigned argument word. *)
Definition getint (f : flags) (w : Z) : Z := if 0 <? lflag f then u64 w else u64 (i32 w).
Definition getuint (f : flags) (w : Z) : Z := if 0 <? lflag f then u64 w else u32 w.

Definition conv_decimal (w : Z) (f : flags) : K S unit :=
  let num := getint f w in
  let! num := (if i64 num <? 0 then putch 45 ;;; kret (u64 (- i64 num)) else kret num) in
  print_number num 10 (width f) (padc f).

Definition arg (args : list Z) : K S (Z * list Z) :=
  match args with [] => fault | w :: args' => kret (w, args') end.

(** [reswitch:] the rest [fmt] of an escape sequence that began at [start]; the result is the
    rest of the format and of the arguments. *)
Fixpoint conv (fuel : nat) (start fmt : list Z) (f : flags) (args : list Z) : K S (list Z * list Z) :=
  let literal := putch 37 ;;; kret (start, args) in
  match fmt with
  | [] => literal
  | ch :: fmt =>
      let again f fmt args :=
        match fuel with O => kstop NoFuel | Datatypes.S fuel' => conv fuel' start fmt f args end in
      if ch =? 45 then again (Flags 45 (width f) (precision f) (lflag f) (altflag f)) fmt args
      else if ch =? 48 then again (Flags 48 (width f) (precision f) (lflag f) (altflag f)) fmt args
      else if ((49 <=? ch) && (ch <=? 57))%bool then
        let '(p, fmt) := number_at 0 ch fmt in again (process_precision p f) fmt args
      else if ch =? 42 then
        let! (w, args) := arg args in again (process_precision (i32 w) f) fmt args
      else if ch =? 46 then
        again (Flags (padc f) (if width f <? 0 then 0 else width f) (precision f) (lflag f) (altflag f)) fmt args
      else if ch =? 35 then again (Flags (padc f) (width f) (precision f) (lflag f) true) fmt args
      else if ch =? 108 then again (Flags (padc f) (width f) (precision f) (lflag f + 1) (altflag f)) fmt args
      else if ch =? 99 then let! (w, args) := arg args in putch (i32 w) ;;; kret (fmt, args)
      else if ch =? 115 then let! (w, args) := arg args in conv_string w f ;;; kret (fmt, args)
      else if ch =? 100 then let! (w, args) := arg args in conv_decimal w f ;;; kret (fmt, args)
      else if ch =? 117 then
        let! (w, args) := arg args in print_number (getuint f w) 10 (width f) (padc f) ;;; kret (fmt, args)
      else if ch =? 111 then putch 88 ;;; putch 88 ;;; putch 88 ;;; kret (fmt, args)
      else if ch =? 112 then
        putch 48 ;;; putch 120 ;;;
        let! (w, args) := arg args in print_number (u64 w) 16 (width f) (padc f) ;;; kret (fmt, args)
      else if ch =? 120 then
        let! (w, args) := arg args in print_number (getuint f w) 16 (width f) (padc f) ;;; kret (fmt, args)
      else if ch =? 37 then putch ch ;;; kret (fmt, args)
      else literal
  end.

Definition no_flags : flags := Flags 32 (-1) (-1) 0 false.

Fixpoint vprintfmt_loop (fuel : nat) (fmt args : list Z) : K S unit :=
  match fmt with
  | [] => kret tt
  | ch :: fmt =>
      match fuel with
      | O => kstop NoFuel
      | Datatypes.S fuel' =>
          if ch =? 37 then
            let! (fmt, args) := conv (length fmt) fmt fmt no_flags args in
            vprintfmt_loop fuel' fmt args
          else putch ch ;;; vprintfmt_loop fuel' fmt args
      end
  end.

Definition vprintfmt (fmt args : list Z) : K S unit := vprintfmt_loop (length fmt) fmt args.
End printf.

(** ** What a computation prints

    [prints m cs r]: on any device, [m] prints the characters [cs] one after the other and
    nothing else, and then returns the value of [r], or faults when there is none. *)

Definition printer (A : Type) : Type := forall S, (Z -> K S unit) -> K S A.
Definition result {S A} (r : option A) : K S A := match r with Some a => kret a | None => fault end.
Definition prints {A} (m : printer A) (cs : list Z) (r : option A) : Prop :=
  forall S (putch : Z -> K S unit), m S putch ≡ₖ (for_each cs putch ;;; result r).

(** It prints something and its value, if it has one, is in [P]. *)
Definition shows {A} (P : A -> Prop) (m : printer A) : Prop :=
  exists cs r, prints m cs r /\ (forall a, r = Some a -> P a).

Lemma prints_ret {A} (a : A) : prints (fun S putch => kret a) [] (Some a).
Proof. intros S putch. cbn [for_each]. by rewrite kbind_ret_l. Qed.
Lemma prints_fault {A} : prints (fun S putch => fault) [] (@None A).
Proof. intros S putch. cbn [for_each]. by rewrite kbind_ret_l. Qed.
Lemma prints_putch c : prints (fun S putch => putch c) [c] (Some tt).
Proof. intros S putch. cbn [for_each result]. by rewrite !kbind_unit_r. Qed.

Lemma prints_bind {A B} (m : printer A) (f : A -> printer B) cs a cs' r :
  prints m cs (Some a) -> prints (f a) cs' r -> prints (fun S putch => let! x := m S putch in f x S putch) (cs ++ cs') r.
Proof.
  intros Hm Hf S putch. rewrite (Hm S putch), kbind_assoc. cbn [result].
  rewrite for_each_app, kbind_assoc. f_equiv. intros []. rewrite kbind_ret_l. apply Hf.
Qed.
Lemma prints_stop {A B} (m : printer A) (f : A -> printer B) cs :
  prints m cs None -> prints (fun S putch => let! x := m S putch in f x S putch) cs None.
Proof. intros Hm S putch. rewrite (Hm S putch), kbind_assoc. f_equiv. by intros [] s. Qed.

Lemma shows_prints {A} (P : A -> Prop) m cs a : prints m cs (Some a) -> P a -> shows P m.
Proof. intros Hm Ha. exists cs, (Some a). split; [done|]. by intros ? [= <-]. Qed.
Lemma shows_ret {A} (P : A -> Prop) (a : A) : P a -> shows P (fun S putch => kret a).
Proof. apply (shows_prints _ _ []), prints_ret. Qed.
Lemma shows_fault {A} (P : A -> Prop) : shows P (fun S putch => fault).
Proof. exists [], None. split; [apply prints_fault|done]. Qed.
Lemma shows_putch (P : unit -> Prop) c : P tt -> shows P (fun S putch => putch c).
Proof. apply (shows_prints _ _ [c]), prints_putch. Qed.
Lemma shows_bind {A B} (P : A -> Prop) (Q : B -> Prop) (m : printer A) (f : A -> printer B) :
  shows P m -> (forall a, P a -> shows Q (f a)) -> shows Q (fun S putch => let! x := m S putch in f x S putch).
Proof.
  intros (cs & [a|] & Hm & HP) Hf.
  - destruct (Hf a (HP a eq_refl)) as (cs' & r & Hr & HQ). exists (cs ++ cs'), r. split; [|done].
    by apply (prints_bind m f cs a).
  - exists cs, None. split; [|done]. by apply prints_stop.
Qed.
Lemma shows_weaken {A} (P Q : A -> Prop) m : shows P m -> (forall a, P a -> Q a) -> shows Q m.
Proof. intros (cs & r & Hm & HP) HQ. exists cs, r. split; [done|]. intros a Ha. by apply HQ, HP. Qed.

(** ** Numbers *)

Definition digit_char (d : Z) : Z := nth (Z.to_nat d) digit_chars 0.
(** The value of a list of digits, the most significant first. *)
Definition value (base : Z) (ds : list Z) : Z := foldl (fun v d => v * base + d) 0 ds.

Lemma pad_prints n c : prints (fun S putch => pad putch n c) (replicate n c) (Some tt).
Proof.
  induction n as [|n IH]; [apply prints_ret|]. cbn [pad replicate].
  apply (prints_bind (fun S putch => putch c) (fun _ S putch => pad putch n c) [c] tt); [apply prints_putch|apply IH].
Qed.

Lemma put_digit_prints d : 0 <= d < 16 -> prints (fun S putch => put_digit putch d) [digit_char d] (Some tt).
Proof.
  intros Hd S putch. unfold put_digit, digit_char.
  assert (exists c, digit_chars !! Z.to_nat d = Some c) as [c Hc].
  { apply lookup_lt_is_Some. unfold digit_chars. simpl. lia. }
  rewrite (nth_lookup_Some _ _ _ _ Hc), Hc. apply prints_putch.
Qed.

Lemma printnum_digits fuel num base width padc : 2 <= base <= 16 -> 0 <= num < base ^ (Z.of_nat fuel + 1) ->
  exists ds, Forall (fun d => 0 <= d < base) ds /\ value base ds = num /\ ds <> [] /\
    (head ds = Some 0 -> ds = [0]) /\
    prints (fun S putch => printnum putch fuel num base width padc)
      (replicate (Z.to_nat (width - Z.of_nat (length ds))) padc ++ (digit_char <$> ds)) (Some tt).
Proof.
  intros Hb. revert num width. induction fuel as [|fuel IH]; intros num width Hn;
    (destruct (Z.leb_spec base num) as [Hle|Hlt]; [|
       exists [num]; split_and!; [by repeat constructor; lia|done|done|by intros [= ->]|];
       cbn [printnum]; rewrite (proj2 (Z.leb_gt base num)) by lia;
       apply (prints_bind (fun S putch => pad putch (Z.to_nat (width - 1)) padc)
                (fun _ S putch => put_digit putch (num mod base)) _ tt);
       [apply pad_prints|rewrite Z.mod_small by lia; apply put_digit_prints; lia]]).
  - simpl in Hn. lia.
  - destruct (IH (num / base) (width - 1)) as (ds & Hd & Hv & Hne & Hz & Hp).
    { split; [apply Z.div_pos; lia|]. apply Z.div_lt_upper_bound; [lia|]. rewrite <-Z.pow_succ_r by lia.
      replace (Z.succ (Z.of_nat fuel + 1)) with (Z.of_nat (S fuel) + 1) by lia. lia. }
    exists (ds ++ [num mod base]). pose proof (Z.mod_pos_bound num base ltac:(lia)) as Hm. split_and!.
    + apply Forall_app. split; [done|]. by constructor.
    + unfold value. rewrite foldl_app. fold (value base ds). rewrite Hv. simpl.
      rewrite (Z.div_mod num base) at 3 by lia. lia.
    + by destruct ds.
    + destruct ds as [|d ds]; [done|]. simpl. intros [= ->]. specialize (Hz eq_refl). injection Hz as ->.
      exfalso. unfold value in Hv. simpl in Hv. assert (1 <= num / base); [|lia].
      apply Z.div_le_lower_bound; lia.
    + cbn [printnum]. rewrite (proj2 (Z.leb_le base num)) by lia.
      rewrite fmap_app, app_assoc. replace (width - Z.of_nat (length (ds ++ [num mod base]))) with (width - 1 - Z.of_nat (length ds))
        by (rewrite length_app; simpl; lia).
      apply (prints_bind (fun S putch => printnum putch fuel (num / base) base (width - 1) padc)
               (fun _ S putch => put_digit putch (num mod base)) _ tt); [done|].
      apply put_digit_prints. lia.
Qed.

(** printnum prints a number of 64 bits in any base up to 16 as its digits, the most
    significant first and with no zero before them, whose value in that base is the number;
    before them it prints the pad character as often as the width asks for, whatever the
    device. *)
Theorem printnum_roundtrip num base width padc : 2 <= base <= 16 -> 0 <= num < 2 ^ 64 ->
  exists ds, Forall (fun d => 0 <= d < base) ds /\ value base ds = num /\ (head ds = Some 0 -> ds = [0]) /\
    prints (fun S putch => print_number putch num base width padc)
      (replicate (Z.to_nat (width - Z.of_nat (length ds))) padc ++ (digit_char <$> ds)) (Some tt).
Proof.
  intros Hb Hn. destruct (printnum_digits 64 num base width padc Hb) as (ds & ? & ? & _ & ? & ?); [|by exists ds].
  split; [lia|]. apply (Z.lt_le_trans _ (2 ^ 65)); [lia|]. change (Z.of_nat 64 + 1) with 65. apply Z.pow_le_mono_l. lia.
Qed.

Lemma printnum_roundtrip_witness : exists ds, Forall (fun d => 0 <= d < 16) ds /\ value 16 ds = 51966 /\
  (head ds = Some 0 -> ds = [0]) /\
  prints (fun S putch => print_number putch 51966 16 8 48)
    (replicate (Z.to_nat (8 - Z.of_nat (length ds))) 48 ++ (digit_char <$> ds)) (Some tt).
Proof. apply (printnum_roundtrip 51966 16 8 48); lia. Defined.

(** ** Formats *)

(** One step of a computation that prints, with [P] for its value. *)
Ltac show_bind P :=
  lazymatch goal with
  | |- shows ?Q (fun S putch => kbind (@?M S putch) (@?F S putch)) =>
      apply (shows_bind P Q M (fun a S putch => F S putch a)); cbn beta
  end.

Lemma pad_shows n c : shows (fun _ => True) (fun S putch => pad putch n c).
Proof. by apply (shows_prints _ _ _ tt (pad_prints n c)). Qed.

Lemma number_shows num base width padc : 2 <= base <= 16 -> 0 <= num < 2 ^ 64 ->
  shows (fun _ => True) (fun S putch => print_number putch num base width padc).
Proof.
  intros Hb Hn. destruct (printnum_digits 64 num base width padc Hb) as (ds & _ & _ & _ & _ & Hp).
  - split; [lia|]. apply (Z.lt_le_trans _ (2 ^ 65)); [lia|]. change (Z.of_nat 64 + 1) with 65. apply Z.pow_le_mono_l. lia.
  - by apply (shows_prints _ _ _ tt Hp).
Qed.

Lemma put_string_shows x prec width alt :
  shows (fun _ => True) (fun S putch => put_string putch x prec width alt).
Proof.
  revert prec width. induction x as [|b x IH]; intros prec width; cbn [put_string]; [by apply shows_ret|].
  destruct ((prec <? 0) || (0 <=? prec - 1))%bool; [|by apply shows_ret].
  show_bind (fun _ : unit => True); [case_match; by apply shows_putch|]. intros; apply IH.
Qed.

Section formats.
Context (cstr : Z -> option (list Z)).

Lemma conv_string_shows p f : shows (fun _ => True) (fun S putch => conv_string putch cstr p f).
Proof.
  unfold conv_string. destruct (if p =? 0 then Some null_text else cstr p) as [x|]; [|apply shows_fault].
  show_bind (fun _ : Z => True).
  { case_match; [|by apply shows_ret]. show_bind (fun _ : unit => True); [apply pad_shows|]. intros; by apply shows_ret. }
  intros w _. show_bind (fun _ : Z => True); [apply put_string_shows|]. intros w' _. apply pad_shows.
Qed.

Lemma conv_decimal_shows w f : shows (fun _ => True) (fun S putch => conv_decimal putch w f).
Proof.
  unfold conv_decimal. show_bind (fun n => 0 <= n < 2 ^ 64); [|intros n Hn; apply number_shows; [lia|done]].
  case_match.
  - show_bind (fun _ : unit => True); [by apply shows_putch|]. intros. apply shows_ret. apply u64_range.
  - apply shows_ret. unfold getint. case_match; apply u64_range.
Qed.

Lemma getuint_range f w : 0 <= getuint f w < 2 ^ 64.
Proof. unfold getuint. pose proof (u64_range w). pose proof (u32_range w). case_match; lia. Qed.

Lemma arg_shows args : shows (fun _ => True) (fun S (putch : Z -> K S unit) => arg args).
Proof. unfold arg. destruct args; [apply shows_fault|by apply shows_ret]. Qed.

Lemma number_at_rest prec ch fmt : (length (number_at prec ch fmt).2 <= length fmt)%nat.
Proof.
  revert prec ch. induction fmt as [|c fmt IH]; intros prec ch; [done|]. cbn [number_at].
  case_match; [done|]. etrans; [apply IH|]. simpl. lia.
Qed.

(** An escape sequence: what is left of the format is no longer than the sequence was. *)
Lemma conv_shows fuel start fmt f args : (length fmt <= fuel)%nat -> (length fmt <= length start)%nat ->
  shows (fun r => (length r.1 <= length start)%nat) (fun S putch => conv putch cstr fuel start fmt f args).
Proof.
  revert fmt f args. induction fuel as [|fuel IH]; intros fmt f args Hf Hs.
  all: destruct fmt as [|ch fmt]; cbn [conv]; [show_bind (fun _ : unit => True); [by apply shows_putch|]; intros; by apply shows_ret|].
  all: simpl in Hf, Hs; try lia.
  assert (Hgo : forall f' args', shows (fun r => (length r.1 <= length start)%nat)
            (fun S putch => conv putch cstr fuel start fmt f' args')) by (intros; apply IH; lia).
  assert (Hret : forall args' : list Z, shows (fun r => (length r.1 <= length start)%nat)
            (fun S (putch : Z -> K S unit) => kret (fmt, args'))) by (intros; apply shows_ret; simpl; lia).
  assert (Hlit : shows (fun r => (length r.1 <= length start)%nat)
            (fun S (putch : Z -> K S unit) => putch 37 ;;; kret (start, args))).
  { show_bind (fun _ : unit => True); [by apply shows_putch|]. intros. by apply shows_ret. }
  repeat lazymatch goal with
  | |- shows _ (fun S putch => if ?b then _ else _) => destruct b
  | |- shows _ (fun S putch => let (_, _) := number_at 0 ch fmt in _) =>
      pose proof (number_at_rest 0 ch fmt); destruct (number_at 0 ch fmt); apply IH; simpl in *; lia
  | |- shows _ (fun S putch => conv _ _ _ _ _ _ _) => apply Hgo
  | |- shows _ (fun S putch => kbind (arg _) _) => show_bind (fun _ : Z * list Z => True); [apply arg_shows|intros [w args'] _]
  | |- shows _ (fun S putch => kbind (putch 37) (fun _ => kret (start, _))) => apply Hlit
  | |- shows _ (fun S putch => kbind _ _) => show_bind (fun _ : unit => True); [|intros _ _]
  | |- shows _ (fun S putch => kret _) => apply Hret
  | |- shows _ (fun S putch => putch _) => by apply shows_putch
  end; eauto using conv_string_shows, conv_decimal_shows, number_shows, getuint_range, u64_range with lia.
Qed.

(** For every format and any arguments vprintfmt ends: it prints a text that depends on the
    format and the arguments alone, not on the device, and then returns; or it faults after
    that text, when an argument is missing or is no address of a string. *)
Theorem vprintfmt_text fmt args :
  exists cs r, prints (fun S putch => vprintfmt putch cstr fmt args) cs r.
Proof.
  enough (forall fuel fmt args, (length fmt <= fuel)%nat ->
            shows (fun _ => True) (fun S putch => vprintfmt_loop putch cstr fuel fmt args)) as Hgo.
  { destruct (Hgo (length fmt) fmt args (le_n _)) as (cs & r & Hp & _). by exists cs, r. }
  clear fmt args. induction fuel as [|fuel IH]; intros fmt args Hf.
  all: destruct fmt as [|ch fmt]; cbn [vprintfmt_loop]; [by apply shows_ret|]; simpl in Hf; try lia.
  destruct (ch =? 37).
  - show_bind (fun r : list Z * list Z => (length r.1 <= length fmt)%nat); [by apply conv_shows|].
    intros [fmt' args'] Hr. apply IH. simpl in Hr. lia.
  - show_bind (fun _ : unit => True); [by apply shows_putch|]. intros. apply IH. lia.
Qed.

(** More fuel than the length of the format changes nothing. *)
Lemma loop_fuel fuel fuel' fmt args S (putch : Z -> K S unit) :
  (length fmt <= fuel)%nat -> (length fmt <= fuel')%nat ->
  vprintfmt_loop putch cstr fuel fmt args ≡ₖ vprintfmt_loop putch cstr fuel' fmt args.
Proof.
  revert fuel' fmt args. induction fuel as [|fuel IH]; intros fuel' fmt args H1 H2;
    (destruct fmt as [|ch fmt]; [by destruct fuel'|]); simpl in H1, H2; [lia|].
  destruct fuel' as [|fuel']; [lia|]. cbn [vprintfmt_loop]. destruct (ch =? 37); [|f_equiv; intros []; apply IH; lia].
  destruct (conv_shows (length fmt) fmt fmt no_flags args (le_n _) (le_n _)) as (cs & r & Hp & Hr).
  rewrite (Hp S putch), !kbind_assoc. f_equiv. intros []. destruct r as [[fmt' args']|]; [|done].
  specialize (Hr _ eq_refl). simpl in Hr. cbn [result]. rewrite !kbind_ret_l. apply IH; lia.
Qed.

(** A directive that prints [ds] and leaves the rest of the format. *)
Lemma directive fmt rest args args' ds cs r :
  prints (fun S putch => conv putch cstr (length fmt) fmt fmt no_flags args) ds (Some (rest, args')) ->
  (length rest <= length fmt)%nat -> prints (fun S putch => vprintfmt putch cstr rest args') cs r ->
  prints (fun S putch => vprintfmt putch cstr (37 :: fmt) args) (ds ++ cs) r.
Proof.
  intros Hd Hl Hr. unfold vprintfmt. cbn [vprintfmt_loop length]. change (37 =? 37) with true. cbn iota.
  apply (prints_bind (fun S putch => conv putch cstr (length fmt) fmt fmt no_flags args)
           (fun fa S putch => let '(f, a) := fa in vprintfmt_loop putch cstr (length fmt) f a) ds (rest, args')); [done|].
  intros S putch. rewrite (loop_fuel (length fmt) (length rest)) by done. apply Hr.
Qed.

Lemma prints_app_nil {A} (m : printer A) cs r : prints m (cs ++ []) r -> prints m cs r.
Proof. by rewrite app_nil_r. Qed.

Lemma with_arg_prints (g : Z -> printer unit) w args (fmt : list Z) ds :
  prints (g w) ds (Some tt) ->
  prints (fun S putch => let! (w, a) := arg (w :: args) in g w S putch ;;; kret (fmt, a)) ds (Some (fmt, args)).
Proof.
  intros Hg. apply (prints_bind (fun S putch => kret (w, args))
    (fun wa S putch => let '(w, a) := wa in g w S putch ;;; kret (fmt, a)) [] (w, args)); [apply prints_ret|].
  apply prints_app_nil, (prints_bind (g w) (fun _ S putch => kret (fmt, args)) ds tt); [done|apply prints_ret].
Qed.

Lemma string_prints x width : width <= 0 -> prints (fun S putch => let! w := put_string putch x (-1) width false in pad putch (Z.to_nat w) 32)
  (i8 <$> x) (Some tt).
Proof.
  intros Hw. apply prints_app_nil.
  apply (prints_bind (fun S putch => put_string putch x (-1) width false)
           (fun w S putch => pad putch (Z.to_nat w) 32) (i8 <$> x) (width - Z.of_nat (length x))).
  - clear Hw. revert width. induction x as [|b x IH]; intros width; cbn [put_string].
    + rewrite Z.sub_0_r. apply prints_ret.
    + change (((-1) <? 0) || _)%bool with true. cbn [andb]. cbn iota. cbn [fmap list_fmap].
      replace (width - Z.of_nat (length (b :: x))) with (width - 1 - Z.of_nat (length x)) by (simpl; lia).
      apply (prints_bind (fun S putch => putch (i8 b)) (fun _ S putch => put_string putch x (-1) (width - 1) false) [i8 b] tt);
        [apply prints_putch|apply IH].
  - replace (Z.to_nat _) with O by lia. apply prints_ret.
Qed.

Lemma decimal_prints w : exists ds, Forall (fun d => 0 <= d < 10) ds /\ value 10 ds = Z.abs (i32 w) /\
  prints (fun S putch => conv_decimal putch w no_flags)
    ((if i32 w <? 0 then [45] else []) ++ (digit_char <$> ds)) (Some tt).
Proof.
  assert (Hw : - 2 ^ 31 <= i32 w < 2 ^ 31).
  { unfold i32, signed. pose proof (Z.mod_pos_bound w (2 ^ 32)). case_match; lia. }
  destruct (printnum_digits 64 (Z.abs (i32 w)) 10 (-1) 32) as (ds & Hd & Hv & _ & _ & Hp); [lia|lia|].
  exists ds. split_and!; [done|done|]. unfold conv_decimal, getint. change (0 <? lflag no_flags) with false. cbn iota.
  assert (Hi : i64 (u64 (i32 w)) = i32 w).
  { unfold i64, signed, u64. rewrite Z.mod_mod by lia. case_match; Z.div_mod_to_equations; lia. }
  rewrite Hi. replace (Z.to_nat (-1 - Z.of_nat (length ds))) with O in Hp by lia.
  destruct (Z.ltb_spec (i32 w) 0) as [Hneg|Hpos].
  - apply (prints_bind (fun S putch => putch 45 ;;; kret (u64 (- i32 w)))
             (fun num S putch => print_number putch num 10 (-1) 32) [45] (Z.abs (i32 w))).
    + replace (u64 (- i32 w)) with (Z.abs (i32 w)) by (rewrite u64_small; lia).
      apply prints_app_nil, (prints_bind (fun S putch => putch 45) (fun _ S putch => kret (Z.abs (i32 w))) [45] tt);
        [apply prints_putch|apply prints_ret].
    + done.
  - apply (prints_bind (fun S putch => kret (u64 (i32 w)))
             (fun num S putch => print_number putch num 10 (-1) 32) [] (Z.abs (i32 w))); [|done].
    rewrite u64_small, Z.abs_eq by lia. apply prints_ret.
Qed.

(** What each kind of directive prints, before the text [cs] of the rest of the format. *)
Theorem printf_directives fmt args cs r : prints (fun S putch => vprintfmt putch cstr fmt args) cs r ->
  let text fmt args cs := prints (fun S putch => vprintfmt putch cstr fmt args) cs r in
  (forall ch, ch <> 37 -> text (ch :: fmt) args (ch :: cs)) /\
  text (chars "%%" ++ fmt) args (37 :: cs) /\
  (forall p x, p <> 0 -> cstr p = Some x -> text (chars "%s" ++ fmt) (p :: args) ((i8 <$> x) ++ cs)) /\
  (forall w, exists ds, Forall (fun d => 0 <= d < 10) ds /\ value 10 ds = Z.abs (i32 w) /\
     text (chars "%d" ++ fmt) (w :: args) ((if i32 w <? 0 then [45] else []) ++ (digit_char <$> ds) ++ cs)) /\
  (forall w, exists ds, Forall (fun d => 0 <= d < 16) ds /\ value 16 ds = u64 w /\
     text (chars "%p" ++ fmt) (w :: args) (chars "0x" ++ (digit_char <$> ds) ++ cs)).
Proof.
  intros Hr text. split_and!.
  - intros ch Hch. unfold text, vprintfmt. cbn [vprintfmt_loop length]. rewrite (proj2 (Z.eqb_neq _ _)) by done.
    apply (prints_bind (fun S putch => putch ch) (fun _ S putch => vprintfmt_loop putch cstr (length fmt) fmt args) [ch] tt);
      [apply prints_putch|done].
  - apply (directive (37 :: fmt) fmt args args [37]); [|simpl; lia|done].
    apply (prints_bind (fun S putch => putch 37) (fun _ S putch => kret (fmt, args)) [37] tt);
      [apply prints_putch|apply prints_ret].
  - intros p x Hp Hx. apply (directive (115 :: fmt) fmt (p :: args) args (i8 <$> x)); [|simpl; lia|done].
    apply (with_arg_prints (fun w S putch => conv_string putch cstr w no_flags)).
    unfold conv_string. rewrite (proj2 (Z.eqb_neq _ _)), Hx by done.
    apply (prints_bind (fun S putch => kret (-1)) (fun w S putch => let! w0 := put_string putch x (-1) w false in pad putch (Z.to_nat w0) 32) [] (-1));
      [apply prints_ret|by apply string_prints].
  - intros w. destruct (decimal_prints w) as (ds & Hd & Hv & Hp). exists ds. split_and!; [done|done|].
    rewrite app_assoc. apply (directive (100 :: fmt) fmt (w :: args) args); [|simpl; lia|done].
    by apply (with_arg_prints (fun w S putch => conv_decimal putch w no_flags)).
  - intros w. pose proof (u64_range w) as Hw.
    destruct (printnum_digits 64 (u64 w) 16 (-1) 32) as (ds & Hd & Hv & _ & _ & Hp); [lia|lia|].
    replace (Z.to_nat (-1 - Z.of_nat (length ds))) with O in Hp by lia.
    exists ds. split_and!; [done|done|]. rewrite app_assoc.
    apply (directive (112 :: fmt) fmt (w :: args) args); [|simpl; lia|done].
    apply (prints_bind (fun S putch => putch 48) (fun _ S putch => putch 120 ;;; let! (w, a) := arg (w :: args) in
             print_number putch (u64 w) 16 (-1) 32 ;;; kret (fmt, a)) [48] tt); [apply prints_putch|].
    apply (prints_bind (fun S putch => putch 120) (fun _ S putch => let! (w, a) := arg (w :: args) in
             print_number putch (u64 w) 16 (-1) 32 ;;; kret (fmt, a)) [120] tt); [apply prints_putch|].
    by apply (with_arg_prints (fun w S putch => print_number putch (u64 w) 16 (-1) 32)).
Qed.
End formats.

(** ** Examples

    A width applies to a number; a string is padded without regard to its length, and the
    flag for padding on the right makes a number of dashes. *)
Definition collect (c : Z) : K (list Z) unit := kmod (fun out => out ++ [c]).
Definition demo_str (p : Z) : option (list Z) := if p =? 4096 then Some (chars "abc") else None.

Example prints_number : vprintfmt collect demo_str (chars "n=%4d, %x") [-42; 255] [] = ([], Ret tt (chars "n=-  42, ff")).
Proof. vm_compute. reflexivity. Qed.
Example pads_string : vprintfmt collect demo_str (chars "%5s|%-5s|%-5d") [4096; 4096; 7] [] =
  ([], Ret tt (chars "     abc|abc  |----7")).
Proof. vm_compute. reflexivity. Qed.
Example literal_escape : vprintfmt collect demo_str (chars "100%l!") [] [] = ([], Ret tt (chars "100%l!")).
Proof. vm_compute. reflexivity. Qed.
