(* ===== verification/Console.v ===== *)
(** * The console: kernel/console.c, kernel/uart.c and kernel/kbd.c

    Output goes to the screen (the text memory and the cursor of the display adapter) and to
    the serial port; input comes from the keyboard or the serial port, is edited in a ring of
    128 bytes with three counters, and is read a line at a time.

    The devices are part of the state: [crt] the cells of the text memory, [cursor] the two
    cursor registers, [tx] what was sent on the serial line, [rx] and [keys] the bytes and
    scan codes that wait to be read.  A busy-wait for the transmitter has no other effect
    and is left out.  [cenv] is the rest of the kernel, reached through the class [ConEnv]. *)

From stdpp Require Import base list strings.
From Stdlib Require Import ZArith Lia.
From S2P Require Import Prelude Spinlock Printf.
Open Scope Z_scope.

Definition DEFAULT_CONSOLE_COLOR : Z := 7.
Definition TAB_SIZE : Z := 8.
Definition COLUMNS : Z := 80.
Definition BACKSPACE : Z := 256.
Definition INPUT_BUF : Z := 128.
(** [C(x)]: control and a key. *)
Definition Ctl (x : Z) : Z := x - 64.

Record con (E : Type) := Con {
  panicked : bool;
  cons_lock : bool;
  cons_locking : bool;
  crt : list Z;           (* cells of 16 bits *)
  cursor : Z;
  uart : bool;            (* is there a uart? *)
  tx : list Z;
  rx : list Z;
  keys : list Z;
  shift : Z;              (* the modifiers of kbdgetc *)
  idt_loaded : bool;
  in_lock : bool;
  ibuf : list Z;
  ir : Z;
  iw : Z;
  ie : Z;
  cenv : E;
}.
Arguments Con {E}.
Arguments panicked {E}.
Arguments cons_lock {E}.
Arguments cons_locking {E}.
Arguments crt {E}.
Arguments cursor {E}.
Arguments uart {E}.
Arguments tx {E}.
Arguments rx {E}.
Arguments keys {E}.
Arguments shift {E}.
Arguments idt_loaded {E}.
Arguments in_lock {E}.
Arguments ibuf {E}.
Arguments ir {E}.
Arguments iw {E}.
Arguments ie {E}.
Arguments cenv {E}.

(** What the console uses of the inode layer and of the current process. *)
Class ConEnv (E : Type) := {
  iunlock : Z -> K E unit;
  ilock : Z -> K E unit;
  killed : E -> bool;
}.

Section setters.
Context {E : Type}.
Implicit Types (s : con E).
Definition set_panicked v s : con E :=
  Con v (cons_lock s) (cons_locking s) (crt s) (cursor s) (uart s) (tx s) (rx s) (keys s) (shift s) (idt_loaded s) (in_lock s) (ibuf s) (ir s) (iw s) (ie s) (cenv s).
Definition set_cons_lock v s : con E :=
  Con (panicked s) v (cons_locking s) (crt s) (cursor s) (uart s) (tx s) (rx s) (keys s) (shift s) (idt_loaded s) (in_lock s) (ibuf s) (ir s) (iw s) (ie s) (cenv s).
Definition set_crt v s : con E :=
  Con (panicked s) (cons_lock s) (cons_locking s) v (cursor s) (uart s) (tx s) (rx s) (keys s) (shift s) (idt_loaded s) (in_lock s) (ibuf s) (ir s) (iw s) (ie s) (cenv s).
Definition set_cursor v s : con E :=
  Con (panicked s) (cons_lock s) (cons_locking s) (crt s) v (uart s) (tx s) (rx s) (keys s) (shift s) (idt_loaded s) (in_lock s) (ibuf s) (ir s) (iw s) (ie s) (cenv s).
Definition set_tx v s : con E :=
  Con (panicked s) (cons_lock s) (cons_locking s) (crt s) (cursor s) (uart s) v (rx s) (keys s) (shift s) (idt_loaded s) (in_lock s) (ibuf s) (ir s) (iw s) (ie s) (cenv s).
Definition set_rx v s : con E :=
  Con (panicked s) (cons_lock s) (cons_locking s) (crt s) (cursor s) (uart s) (tx s) v (keys s) (shift s) (idt_loaded s) (in_lock s) (ibuf s) (ir s) (iw s) (ie s) (cenv s).
Definition set_keys v s : con E :=
  Con (panicked s) (cons_lock s) (cons_locking s) (crt s) (cursor s) (uart s) (tx s) (rx s) v (shift s) (idt_loaded s) (in_lock s) (ibuf s) (ir s) (iw s) (ie s) (cenv s).
Definition set_shift v s : con E :=
  Con (panicked s) (cons_lock s) (cons_locking s) (crt s) (cursor s) (uart s) (tx s) (rx s) (keys s) v (idt_loaded s) (in_lock s) (ibuf s) (ir s) (iw s) (ie s) (cenv s).
Definition set_idt_loaded v s : con E :=
  Con (panicked s) (cons_lock s) (cons_locking s) (crt s) (cursor s) (uart s) (tx s) (rx s) (keys s) (shift s) v (in_lock s) (ibuf s) (ir s) (iw s) (ie s) (cenv s).
Definition set_in_lock v s : con E :=
  Con (panicked s) (cons_lock s) (cons_locking s) (crt s) (cursor s) (uart s) (tx s) (rx s) (keys s) (shift s) (idt_loaded s) v (ibuf s) (ir s) (iw s) (ie s) (cenv s).
Definition set_ibuf v s : con E :=
  Con (panicked s) (cons_lock s) (cons_locking s) (crt s) (cursor s) (uart s) (tx s) (rx s) (keys s) (shift s) (idt_loaded s) (in_lock s) v (ir s) (iw s) (ie s) (cenv s).
Definition set_ir v s : con E :=
  Con (panicked s) (cons_lock s) (cons_locking s) (crt s) (cursor s) (uart s) (tx s) (rx s) (keys s) (shift s) (idt_loaded s) (in_lock s) (ibuf s) v (iw s) (ie s) (cenv s).
Definition set_iw v s : con E :=
  Con (panicked s) (cons_lock s) (cons_locking s) (crt s) (cursor s) (uart s) (tx s) (rx s) (keys s) (shift s) (idt_loaded s) (in_lock s) (ibuf s) (ir s) v (ie s) (cenv s).
Definition set_ie v s : con E :=
  Con (panicked s) (cons_lock s) (cons_locking s) (crt s) (cursor s) (uart s) (tx s) (rx s) (keys s) (shift s) (idt_loaded s) (in_lock s) (ibuf s) (ir s) (iw s) v (cenv s).
Definition set_cenv v s : con E :=
  Con (panicked s) (cons_lock s) (cons_locking s) (crt s) (cursor s) (uart s) (tx s) (rx s) (keys s) (shift s) (idt_loaded s) (in_lock s) (ibuf s) (ir s) (iw s) (ie s) v.
Definition set_cons_locking v s : con E :=
  Con (panicked s) (cons_lock s) v (crt s) (cursor s) (uart s) (tx s) (rx s) (keys s) (shift s) (idt_loaded s) (in_lock s) (ibuf s) (ir s) (iw s) (ie s) (cenv s).
End setters.

Section console.
Context {E : Type} `{HE : ConEnv E}.
Notation CK := (K (con E)).
Implicit Types (s : con E).

Definition cons_lk : lens (con E) bool := Lens cons_lock set_cons_lock.
Definition in_lk : lens (con E) bool := Lens in_lock set_in_lock.
Definition con_env : lens (con E) E := Lens cenv set_cenv.

(** ** uart.c *)

Definition uartputc (c : Z) : CK unit :=
  let! u := gets uart in
  if u : bool then kmod (fun s => set_tx (tx s ++ [u8 c]) s) else kret tt.

Definition uartgetc : CK Z :=
  let! s := kget in
  if uart s then
    match rx s with
    | [] => kret (-1)
    | c :: rx' => kmod (set_rx rx') ;;; kret (u8 c)
    end
  else kret (-1).

(** ** The screen *)

(** [crt[pos] = v] *)
Definition put_cell (pos v : Z) : CK unit :=
  let! s := kget in
  if ((0 <=? pos) && (pos <? Z.of_nat (length (crt s))))%bool
  then kmod (set_crt (<[Z.to_nat pos := v]> (crt s)))
  else fault.

(** [memmove(crt, crt + COLUMNS, sizeof(crt[0]) * 23 * COLUMNS)] *)
Definition move_up : CK unit :=
  let! s := kget in
  if Z.of_nat (length (crt s)) <? 24 * COLUMNS then fault
  else kmod (set_crt (take 1840 (drop 80 (crt s)) ++ drop 1840 (crt s))).

(** [memset(crt + pos, 0, sizeof(crt[0]) * (24 * COLUMNS - pos))]; the size is unsigned. *)
Definition clear_from (pos : Z) : CK unit :=
  let! s := kget in
  if ((pos <? 0) || (24 * COLUMNS <? pos) || (Z.of_nat (length (crt s)) <? 24 * COLUMNS))%bool then fault
  else kmod (set_crt (take (Z.to_nat pos) (crt s) ++ replicate (Z.to_nat (24 * COLUMNS - pos)) 0
                      ++ drop 1920 (crt s))).

Definition cgaputc (c color : Z) : CK unit :=
  let! pos := gets cursor in
  let! pos :=
    (if c =? 10 then kret (pos + (COLUMNS - pos mod COLUMNS))
     else if c =? BACKSPACE then kret (if 0 <? pos then pos - 1 else pos)
     else if c =? 9 then kret (pos + (TAB_SIZE - pos mod TAB_SIZE))
     else put_cell pos (u16 (Z.lor (Z.land c 255) (Z.shiftl color 8))) ;;; kret (pos + 1)) in
  let! pos :=
    (if 24 <=? pos / COLUMNS then
       move_up ;;;
       let pos := pos - COLUMNS in
       clear_from pos ;;;
       kret pos
     else kret pos) in
  kmod (set_cursor (u16 pos)) ;;;
  put_cell pos (Z.lor 32 1792).

Definition consputc (c color : Z) : CK unit :=
  let! p := gets panicked in
  if p : bool then kstop Halted
  else
    (if c =? BACKSPACE then uartputc 8 ;;; uartputc 32 ;;; uartputc 8 else uartputc c) ;;;
    cgaputc c color.

Definition halt {A} : CK A := kmod (set_panicked true) ;;; kstop Halted.

(** ** Printing *)

(** [(void)*cnt++] moves the local pointer, so nothing is counted. *)
Definition putch (ch : Z) : CK unit := consputc ch DEFAULT_CONSOLE_COLOR.

Section strings.
Context (cstr : Z -> option (list Z)).

Definition vcprintf (fmt args : list Z) : CK Z := vprintfmt putch cstr fmt args ;;; kret 0.

Definition cprintf (fmt args : list Z) : CK unit :=
  let! locking := gets cons_locking in
  (if locking : bool then acquire cons_lk else kret tt) ;;;
  vcprintf fmt args ;;;
  (if locking then release cons_lk else kret tt).

(** The frames of a back trace, up to ten or the first null address. *)
Fixpoint print_frames (n : nat) (i : Z) (pcs : list Z) : CK unit :=
  match n, pcs with
  | S n', pc :: pcs' =>
      if pc =? 0 then kret tt
      else cprintf (chars " [%d] %p" ++ [10]) [i; pc] ;;; print_frames n' (i + 1) pcs'
  | _, _ => kret tt
  end.

(** [id] the processor, [msg] the message, [current] the name and the last system call of the
    process that runs, [pcs] the return addresses on the stack. *)
Definition con_panic {A} (id : Z) (msg : list Z) (current : option (Z * Z)) (pcs : list Z) : CK A :=
  kmod (set_cons_locking false) ;;;
  cprintf ([10; 10] ++ chars "PANIC on cpu %d" ++ [10; 32]) [id] ;;;
  cprintf msg [] ;;;
  match current with
  | Some (name, call) =>
      cprintf ([10] ++ chars "PROC: %s" ++ [10]) [name] ;;;
      cprintf ([9] ++ chars "last sys call: %d" ++ [10]) [call]
  | None => kret tt
  end ;;;
  cprintf ([10] ++ chars "STACK:" ++ [10]) [] ;;;
  print_frames 10 0 pcs ;;;
  cprintf (chars "HLT" ++ [10]) [] ;;;
  halt.
End strings.

(** ** kbd.c and the tables of kbd.h *)

Definition SHIFT : Z := 1.
Definition CTL : Z := 2.
Definition ALT : Z := 4.
Definition CAPSLOCK : Z := 8.
Definition NUMLOCK : Z := 16.
Definition SCROLLLOCK : Z := 32.
Definition E0ESC : Z := 64.

(** A table of 256 entries: the first ones in order, then some by index. *)
Definition table (row : list Z) (at_index : list (Z * Z)) : list Z :=
  foldl (fun t kv => <[Z.to_nat kv.1 := kv.2]> t) (row ++ replicate (256 - length row) 0) at_index.

Definition shiftcode : list Z := table [] [(29, CTL); (42, SHIFT); (54, SHIFT); (56, ALT); (157, CTL); (184, ALT)].
Definition togglecode : list Z := table [] [(58, CAPSLOCK); (69, NUMLOCK); (70, SCROLLLOCK)].
(** The keys of the pad and the arrows; [enter] and [slash] are those of the pad. *)
Definition escaped (enter slash : Z) : list (Z * Z) :=
  [(156, enter); (181, slash); (200, 226); (208, 227); (201, 230); (209, 231); (203, 228); (205, 229);
   (151, 224); (207, 225); (210, 232); (211, 233)].
Definition keypad : list Z := replicate 13 0 ++ chars "789-456+1230." ++ [0; 0; 0; 0].

Definition normalmap : list Z :=
  table ([0; 27] ++ chars "1234567890-=" ++ [8; 9] ++ chars "qwertyuiop[]" ++ [10; 0]
         ++ chars "asdfghjkl;'`" ++ [0] ++ chars "\zxcvbnm,./" ++ [0; 42; 0; 32] ++ keypad) (escaped 10 47).
Definition shiftmap : list Z :=
  table ([0; 27] ++ chars "!@#$%^&*()_+" ++ [8; 9] ++ chars "QWERTYUIOP{}" ++ [10; 0]
         ++ chars "ASDFGHJKL:" ++ [34] ++ chars "~" ++ [0] ++ chars "|ZXCVBNM<>?" ++ [0; 42; 0; 32] ++ keypad) (escaped 10 47).
Definition ctlmap : list Z :=
  table (replicate 16 0 ++ (Ctl <$> chars "QWERTYUIOP") ++ [0; 0; 13; 0]
         ++ (Ctl <$> chars "ASDFGHJKL") ++ [0; 0; 0; 0] ++ (Ctl <$> chars "\ZXCVBNM") ++ [0; 0; u8 (Ctl 47); 0; 0])
        (escaped 13 (u8 (Ctl 47))).

Definition charcode (i : Z) : list Z := if i =? 0 then normalmap else if i =? 1 then shiftmap else ctlmap.

(** [t[i]] for a table of 256 bytes. *)
Definition entry (t : list Z) (i : Z) : CK Z :=
  match t !! Z.to_nat i with Some v => kret v | None => fault end.

Definition caps (c : Z) : Z :=
  if ((97 <=? c) && (c <=? 122))%bool then c - 32
  else if ((65 <=? c) && (c <=? 90))%bool then c + 32 else c.

Definition kbdgetc : CK Z :=
  let! s := kget in
  match keys s with
  | [] => kret (-1)
  | k :: keys' =>
      kmod (set_keys keys') ;;;
      let data := u8 k in
      let sh := shift s in
      if data =? 224 then kmod (set_shift (set sh E0ESC)) ;;; kret 0
      else if has data 128 then
        let data := if has sh E0ESC then data else Z.land data 127 in
        let! m := entry shiftcode data in
        kmod (set_shift (clr sh (set m E0ESC))) ;;; kret 0
      else
        let data := if has sh E0ESC then set data 128 else data in
        let sh := if has sh E0ESC then clr sh E0ESC else sh in
        let! m := entry shiftcode data in
        let! g := entry togglecode data in
        let sh := Z.lxor (set sh m) g in
        kmod (set_shift sh) ;;;
        let! c := entry (charcode (Z.land sh (set CTL SHIFT))) data in
        kret (if has sh CAPSLOCK then caps c else c)
  end.

(** ** Input *)

Section input.
Context (procdump : CK unit).

(** [input.buf[i % INPUT_BUF]] *)
Definition ibuf_at (i : Z) s : Z := nth (Z.to_nat (i mod INPUT_BUF)) (ibuf s) 0.

(** [while (input.e != input.w && ...)]: at most as many turns as the buffer is long. *)
Fixpoint kill_line (fuel : nat) : CK unit :=
  let! s := kget in
  if ((ie s =? iw s) || (ibuf_at (u32 (ie s - 1)) s =? 10))%bool then kret tt
  else match fuel with
       | O => kstop NoFuel
       | S fuel' =>
           kmod (set_ie (u32 (ie s - 1))) ;;;
           consputc BACKSPACE DEFAULT_CONSOLE_COLOR ;;;
           kill_line fuel'
       end.

(** The body of the loop of [consoleintr]. *)
Definition input_char (c : Z) : CK unit :=
  if c =? Ctl 90 then kmod (set_idt_loaded false)              (* ^Z: lidt(0, 0) *)
  else if c =? Ctl 81 then halt                                (* ^Q *)
  else if c =? Ctl 80 then procdump                            (* ^P *)
  else if c =? Ctl 85 then kill_line (Z.to_nat INPUT_BUF)      (* ^U *)
  else if ((c =? Ctl 72) || (c =? 127))%bool then              (* ^H, delete *)
    let! s := kget in
    if ie s =? iw s then kret tt
    else kmod (set_ie (u32 (ie s - 1))) ;;; consputc BACKSPACE DEFAULT_CONSOLE_COLOR
  else
    let! s := kget in
    if (negb (c =? 0) && (u32 (ie s - ir s) <? INPUT_BUF))%bool then
      let c := if c =? 13 then 10 else c in
      kmod (fun s => set_ie (u32 (ie s + 1))
                       (set_ibuf (<[Z.to_nat (ie s mod INPUT_BUF) := u8 c]> (ibuf s)) s)) ;;;
      consputc c DEFAULT_CONSOLE_COLOR ;;;
      let! s := kget in
      if ((c =? 10) || (c =? Ctl 68) || (ie s =? u32 (ir s + INPUT_BUF)))%bool
      then kmod (set_iw (ie s)) ;;; wakeup ChInput
      else kret tt
    else kret tt.

Fixpoint input_loop (fuel : nat) (getc : CK Z) : CK unit :=
  let! c := getc in
  if c <? 0 then kret tt
  else match fuel with
       | O => kstop NoFuel
       | S fuel' => input_char c ;;; input_loop fuel' getc
       end.

Definition consoleintr (fuel : nat) (getc : CK Z) : CK unit :=
  acquire in_lk ;;;
  input_loop fuel getc ;;;
  release in_lk.

Definition uartintr : CK unit :=
  let! s := kget in
  consoleintr (length (rx s)) uartgetc.

Definition kbdintr : CK unit :=
  let! s := kget in
  consoleintr (length (keys s)) kbdgetc.
End input.

(** The loop of [consoleread]: it stops with a sleep when all was read, and runs again from
    there.  [dst] is what was read before. *)
Inductive stepped := Done (dst : list Z) (n : Z) | Killed.

Fixpoint read_loop (fuel : nat) (target : Z) (dst : list Z) (n : Z) : CK stepped :=
  if 0 <? n then
    let! s := kget in
    if ir s =? iw s then
      if killed (cenv s) then kret Killed
      else ksleep ChInput (set_in_lock false)
    else
      let c := ibuf_at (ir s) s in
      kmod (set_ir (u32 (ir s + 1))) ;;;
      if c =? Ctl 68 then
        (if u32 n <? target then kmod (fun s => set_ir (u32 (ir s - 1)) s) else kret tt) ;;;
        kret (Done dst n)
      else if c =? 10 then kret (Done (dst ++ [c]) (n - 1))
      else match fuel with
           | O => kstop NoFuel
           | S fuel' => read_loop fuel' target (dst ++ [c]) (n - 1)
           end
  else kret (Done dst n).

(** The rest of [consoleread] once the lock is held. *)
Definition read_rest (ip target : Z) (dst : list Z) (n : Z) : CK (Z * list Z) :=
  let! r := read_loop (Z.to_nat INPUT_BUF) target dst n in
  match r with
  | Killed =>
      release in_lk ;;;
      zoom con_env (ilock ip) ;;;
      kret (-1, dst)
  | Done dst n' =>
      release in_lk ;;;
      zoom con_env (ilock ip) ;;;
      kret (i32 (target - n'), dst)
  end.

Definition consoleread (ip n : Z) : CK (Z * list Z) :=
  zoom con_env (iunlock ip) ;;;
  acquire in_lk ;;;
  read_rest ip (u32 n) [] n.

(** After a wakeup: [dst] was read, [n] bytes are still wanted. *)
Definition consoleread_resume (ip target : Z) (dst : list Z) (n : Z) : CK (Z * list Z) :=
  acquire in_lk ;;;
  read_rest ip target dst n.

Definition consolewrite (ip : Z) (buf : list Z) (n : Z) : CK Z :=
  zoom con_env (iunlock ip) ;;;
  acquire cons_lk ;;;
  for_each (take (Z.to_nat n) buf) (fun b => consputc b DEFAULT_CONSOLE_COLOR) ;;;
  release cons_lk ;;;
  zoom con_env (ilock ip) ;;;
  kret n.

(** ** The screen, abstractly

    24 rows of 80 cells and a position in them: a character goes to the position, newline and
    tab move it to the next multiple of 80 or 8, and past the last row all rows move up by
    one.  The cell under the cursor is blank. *)
Definition place (c color : Z) (sp : list Z * Z) : list Z * Z :=
  let '(scr, pos) := sp in
  if c =? 10 then (scr, (pos / 80 + 1) * 80)
  else if c =? BACKSPACE then (scr, Z.max 0 (pos - 1))
  else if c =? 9 then (scr, (pos / 8 + 1) * 8)
  else (<[Z.to_nat pos := u16 (Z.lor (Z.land c 255) (Z.shiftl color 8))]> scr, pos + 1).
Definition settle (sp : list Z * Z) : list Z * Z :=
  let '(scr, pos) := if sp.2 =? 1920 then (drop 80 sp.1 ++ replicate 80 0, 1840) else sp in
  (<[Z.to_nat pos := Z.lor 32 1792]> scr, pos).
Definition draw (c color : Z) (sp : list Z * Z) : list Z * Z := settle (place c color sp).

Record screen_ok s : Prop := {
  sc_cells : (1920 <= length (crt s))%nat;
  sc_cursor : 0 <= cursor s < 1920;
}.
Definition screen s : list Z * Z := (take 1920 (crt s), cursor s).

Lemma put_cell_wp pos v s (Q : unit -> con E -> list event -> Prop) : (1920 <= length (crt s))%nat -> 0 <= pos < 1920 ->
  Q tt (set_crt (<[Z.to_nat pos := v]> (take 1920 (crt s)) ++ drop 1920 (crt s)) s) [] -> wp (put_cell pos v) s Q.
Proof.
  intros Hl Hp HQ. unfold put_cell. wp_steps.
  rewrite (proj2 (Z.leb_le 0 pos)), (proj2 (Z.ltb_lt _ _)) by lia. cbn [andb]. wp_steps.
  rewrite <-insert_app_l in HQ by (rewrite length_take; lia). by rewrite take_drop in HQ.
Qed.

(** One row up. *)
Lemma scroll_wp s (Q : Z -> con E -> list event -> Prop) : (1920 <= length (crt s))%nat ->
  Q 1840 (set_crt ((drop 80 (take 1920 (crt s)) ++ replicate 80 0) ++ drop 1920 (crt s)) s) [] ->
  wp (move_up ;;; clear_from 1840 ;;; kret 1840) s Q.
Proof.
  intros Hl HQ. unfold move_up, clear_from. wp_steps. rewrite (proj2 (Z.ltb_ge _ _)) by (unfold COLUMNS; lia). wp_steps.
  simpl crt. rewrite length_app, length_take, length_drop, length_drop.
  rewrite (proj2 (Z.ltb_ge _ (24 * COLUMNS))) by (unfold COLUMNS; lia). cbn [orb Z.ltb Z.compare]. wp_steps.
  assert (Heq : take (Z.to_nat 1840) (take 1840 (drop 80 (crt s)) ++ drop 1840 (crt s)) ++
            replicate (Z.to_nat (24 * COLUMNS - 1840)) 0 ++ drop 1920 (take 1840 (drop 80 (crt s)) ++ drop 1840 (crt s)) =
            (drop 80 (take 1920 (crt s)) ++ replicate 80 0) ++ drop 1920 (crt s)).
  { change (Z.to_nat 1840) with 1840%nat. change (Z.to_nat (24 * COLUMNS - 1840)) with 80%nat.
    rewrite take_app_le, take_take, Nat.min_id by (rewrite length_take, length_drop; lia).
    rewrite drop_app_ge, drop_drop by (rewrite length_take, length_drop; lia).
    rewrite length_take, length_drop, Nat.min_l by lia. rewrite <-app_assoc. f_equal.
    by rewrite take_drop_commute. }
  cbn [crt set_crt]. rewrite Heq. exact HQ.
Qed.

(** From where the character is in place: scroll, then move the cursor. *)
Lemma settle_wp s scr pos rest (Q : unit -> con E -> list event -> Prop) :
  crt s = scr ++ rest -> length scr = 1920%nat -> 0 <= pos <= 1920 ->
  (length (settle (scr, pos)).1 = 1920%nat -> 0 <= (settle (scr, pos)).2 < 1920 ->
   Q tt (set_cursor (settle (scr, pos)).2 (set_crt ((settle (scr, pos)).1 ++ rest) s)) []) ->
  wp (let! pos := (if 24 <=? pos / COLUMNS then
                     move_up ;;; (let pos := pos - COLUMNS in clear_from pos ;;; kret pos)
                   else kret pos) in
      kmod (set_cursor (u16 pos)) ;;; put_cell pos (Z.lor 32 1792)) s Q.
Proof.
  intros Hcrt Hl Hp HQ. wp_step. unfold settle in HQ. cbn [fst snd] in HQ.
  assert (Ht : take 1920 (crt s) = scr) by (rewrite Hcrt; by apply take_app_length').
  assert (Hd : drop 1920 (crt s) = rest) by (rewrite Hcrt; by apply drop_app_length').
  assert (Hlen : (1920 <= length (crt s))%nat) by (rewrite Hcrt, length_app; lia).
  unfold COLUMNS. destruct (Z.eqb_spec pos 1920) as [->|Hne].
  - change (24 <=? 1920 / 80) with true. cbn iota. change (1920 - 80) with 1840. apply scroll_wp; [done|].
    rewrite Ht, Hd. wp_steps. rewrite u16_small by lia. apply put_cell_wp; [cbn [crt set_cursor set_crt]|lia|].
    { rewrite !length_app, length_drop, length_replicate. lia. }
    cbn [crt set_cursor set_crt]. rewrite take_app_length' by (rewrite length_app, length_drop, length_replicate; lia).
    rewrite drop_app_length' by (rewrite length_app, length_drop, length_replicate; lia). apply HQ; cbn [fst snd]; [|lia].
    rewrite length_insert, length_app, length_drop, length_replicate. lia.
  - rewrite (proj2 (Z.leb_gt 24 _)) by lia_dm. wp_steps. rewrite u16_small by lia.
    apply put_cell_wp; [done|lia|]. cbn [crt set_cursor set_crt]. rewrite Ht, Hd. apply HQ; cbn [fst snd]; [|lia].
    by rewrite length_insert.
Qed.

(** The first part puts the character in place. *)
Lemma place_wp c color s (Q : Z -> con E -> list event -> Prop) : screen_ok s ->
  (length (place c color (screen s)).1 = 1920%nat -> 0 <= (place c color (screen s)).2 <= 1920 ->
   Q (place c color (screen s)).2 (set_crt ((place c color (screen s)).1 ++ drop 1920 (crt s)) s) []) ->
  wp (let pos := cursor s in
      if c =? 10 then kret (pos + (COLUMNS - pos mod COLUMNS))
      else if c =? BACKSPACE then kret (if 0 <? pos then pos - 1 else pos)
      else if c =? 9 then kret (pos + (TAB_SIZE - pos mod TAB_SIZE))
      else put_cell pos (u16 (Z.lor (Z.land c 255) (Z.shiftl color 8))) ;;; kret (pos + 1)) s Q.
Proof.
  intros [Hl Hc] HQ. assert (Hlt : length (take 1920 (crt s)) = 1920%nat) by (rewrite length_take; lia).
  assert (Hid : set_crt (take 1920 (crt s) ++ drop 1920 (crt s)) s = s) by (rewrite take_drop; by destruct s).
  unfold place, screen in HQ. cbn iota zeta. unfold COLUMNS, TAB_SIZE.
  destruct (c =? 10); [|destruct (c =? BACKSPACE); [|destruct (c =? 9)]]; cbn [fst snd] in HQ; wp_steps.
  1-3: rewrite Hid in HQ.
  - replace (cursor s + (80 - cursor s mod 80)) with ((cursor s / 80 + 1) * 80) by lia_dm. apply HQ; [done|lia_dm].
  - replace (if 0 <? cursor s then cursor s - 1 else cursor s) with (Z.max 0 (cursor s - 1)); [apply HQ; [done|lia]|].
    destruct (Z.ltb_spec 0 (cursor s)); lia.
  - replace (cursor s + (8 - cursor s mod 8)) with ((cursor s / 8 + 1) * 8) by lia_dm. apply HQ; [done|lia_dm].
  - apply put_cell_wp; [done|done|]. wp_steps. apply HQ; [by rewrite length_insert|lia].
Qed.

Lemma cgaputc_wp c color s (Q : unit -> con E -> list event -> Prop) : screen_ok s ->
  (forall s', screen_ok s' -> screen s' = draw c color (screen s) ->
     s' = set_cursor (cursor s') (set_crt (take 1920 (crt s') ++ drop 1920 (crt s)) s) -> Q tt s' []) ->
  wp (cgaputc c color) s Q.
Proof.
  intros Hok HQ. unfold cgaputc. do 3 wp_step. apply (place_wp c color s); [done|].
  intros H1 H2. destruct (place c color (screen s)) as [scr pos] eqn:Hp. cbn [fst snd] in *.
  apply (settle_wp _ scr pos (drop 1920 (crt s))); [done|done|done|]. intros H3 H4.
  assert (Hd : draw c color (screen s) = settle (scr, pos)) by (unfold draw; by rewrite Hp).
  apply HQ; rewrite ?Hd; unfold screen; cbn [crt cursor set_cursor set_crt]; rewrite ?take_app_length' by done.
  - split; cbn [crt cursor set_cursor set_crt]; [rewrite length_app; lia|done].
  - by destruct (settle (scr, pos)).
  - done.
Qed.

(** The display driver draws every character as the abstract screen says, from any position
    on the screen: it stays within the 24 rows, and the rest of the text memory and of the
    state is untouched. *)
Theorem cgaputc_draws c color s : screen_ok s ->
  wp (cgaputc c color) s (fun _ s' t => t = [] /\ screen_ok s' /\ screen s' = draw c color (screen s) /\
    s' = set_cursor (cursor s') (set_crt (take 1920 (crt s') ++ drop 1920 (crt s)) s)).
Proof. intros Hok. by apply cgaputc_wp. Qed.

(** ** Printing *)

(** Only the screen and the serial line differ. *)
Definition out_only s s' : Prop := exists c p t, s' = set_tx t (set_cursor p (set_crt c s)).
(** What a character is on the serial line. *)
Definition uart_text (c : Z) : list Z := if c =? BACKSPACE then [8; 32; 8] else [u8 c].

Lemma out_only_refl s : out_only s s.
Proof. exists (crt s), (cursor s), (tx s). by destruct s. Qed.
Lemma out_only_trans s1 s2 s3 : out_only s1 s2 -> out_only s2 s3 -> out_only s1 s3.
Proof. intros (c & p & t & ->) (c' & p' & t' & ->). by exists c', p', t'. Qed.

Lemma uartputc_wp c s (Q : unit -> con E -> list event -> Prop) :
  Q tt (set_tx (if uart s then tx s ++ [u8 c] else tx s) s) [] -> wp (uartputc c) s Q.
Proof.
  intros HQ. unfold uartputc. wp_steps. destruct (uart s); wp_steps; [done|]. by destruct s.
Qed.

Lemma consputc_wp c color s (Q : unit -> con E -> list event -> Prop) : screen_ok s -> panicked s = false ->
  (forall s', screen_ok s' -> screen s' = draw c color (screen s) ->
     tx s' = (if uart s then tx s ++ uart_text c else tx s) -> out_only s s' -> Q tt s' []) ->
  wp (consputc c color) s Q.
Proof.
  intros Hok Hp HQ. unfold consputc. wp_steps. rewrite Hp. wp_steps.
  assert (Hgo : forall t, t = (if uart s then tx s ++ uart_text c else tx s) -> wp (cgaputc c color) (set_tx t s) Q).
  { intros t Ht. apply cgaputc_wp; [by destruct Hok|]. intros s' Hok' Hs' Hf. apply HQ; try done.
    - rewrite Hf. exact Ht.
    - rewrite Hf. by eexists _, _, _. }
  unfold uart_text in Hgo. destruct (c =? BACKSPACE); wp_steps; repeat (apply uartputc_wp; wp_steps); apply Hgo; [|done].
  simpl. destruct (uart s); [by rewrite <-!app_assoc|done].
Qed.

(** A text on the screen. *)
Definition draw_text (cs : list Z) (sp : list Z * Z) : list Z * Z :=
  foldl (fun sp c => draw c DEFAULT_CONSOLE_COLOR sp) sp cs.

Lemma text_wp cs s (Q : unit -> con E -> list event -> Prop) : screen_ok s -> panicked s = false ->
  (forall s', screen_ok s' -> screen s' = draw_text cs (screen s) ->
     tx s' = (if uart s then tx s ++ (cs ≫= uart_text) else tx s) -> out_only s s' -> Q tt s' []) ->
  wp (for_each cs putch) s Q.
Proof.
  revert s. induction cs as [|c cs IH]; intros s Hok Hp HQ; cbn [for_each]; wp_steps.
  - apply HQ; [done|done| |apply out_only_refl]. simpl. rewrite app_nil_r. by destruct (uart s).
  - unfold putch at 1. apply consputc_wp; [done|done|]. intros s1 Hok1 Hs1 Ht1 Ho1.
    pose proof Ho1 as (? & ? & ? & Hs1').
    apply IH; [done|by rewrite Hs1'|]. intros s2 Hok2 Hs2 Ht2 Ho2. apply HQ; [done| | |by apply (out_only_trans _ s1)].
    + by rewrite Hs2, Hs1.
    + rewrite Ht2, Ht1. replace (uart s1) with (uart s) by by rewrite Hs1'.
      destruct (uart s); [|done]. by rewrite <-app_assoc.
Qed.

End console.

(** ** A blank screen *)

Module Blank.
#[export] Instance env : ConEnv unit := {|
  iunlock _ := kret tt;
  ilock _ := kret tt;
  killed _ := false;
|}.
Definition blank : con unit :=
  Con false false true (replicate 2000 0) 0 true [] [] [] 0 true false (replicate 128 0) 0 0 0 tt.

Lemma blank_ok : screen_ok blank.
Proof. split; unfold blank; cbn [crt cursor]; [rewrite length_replicate|]; lia. Qed.

Lemma ok_text : prints (fun S putch => vprintfmt putch demo_str (chars "ok") []) (chars "ok") (Some tt).
Proof.
  apply (prints_bind (fun S putch => putch 111) (fun _ S putch => putch 107 ;;; kret tt) [111] tt); [apply prints_putch|].
  apply (prints_bind (fun S putch => putch 107) (fun _ S putch => kret tt) [107] tt); [apply prints_putch|apply prints_ret].
Qed.


(** In text: the cells hold the characters with their colour, and the blank under the cursor. *)
Example ok_on_screen : take 3 (draw_text (chars "ok") (screen blank)).1 = [1903; 1899; 1824].
Proof. vm_compute. reflexivity. Qed.
End Blank.
