(* ===== verification/ConsoleLine.v ===== *)
(** * The line editor of the console

    The input side of kernel/console.c refines an editor of lines: what was typed and is
    complete ([ready]) can be read; what is still being typed ([edit]) can be changed.  The
    ring of 128 bytes and its three free-running counters represent both. *)

From stdpp Require Import base list strings.
From Stdlib Require Import ZArith Lia.
From S2P Require Import Prelude Spinlock Printf Console.
Open Scope Z_scope.

(** ** The editor *)

Record line := Line {
  ready : list Z;
  edit : list Z;
}.

Definition used (L : line) : nat := length (ready L ++ edit L).

(** Does the character complete what was typed before it? *)
Definition completes (c : Z) (L : line) : bool := ((c =? 10) || (c =? Ctl 68) || (used L =? 127)%nat)%bool.

Definition type_char (L : line) (c : Z) : line :=
  if ((c =? Ctl 90) || (c =? Ctl 80))%bool then L
  else if c =? Ctl 85 then Line (ready L) []
  else if ((c =? Ctl 72) || (c =? 127))%bool then Line (ready L) (removelast (edit L))
  else if (negb (c =? 0) && (used L <? 128)%nat)%bool then
    let c := if c =? 13 then 10 else c in
    if completes c L then Line (ready L ++ edit L ++ [c]) [] else Line (ready L) (edit L ++ [c])
  else L.

(** What a reader of at most [n] bytes gets and what it leaves; [None] when it has to wait. A
    control-D ends what is read; it is consumed when it comes first. *)
Fixpoint read_chars (first : bool) (n : nat) (q : list Z) : option (list Z * list Z) :=
  match n with
  | O => Some ([], q)
  | S n' =>
      match q with
      | [] => None
      | c :: q' =>
          if c =? Ctl 68 then Some ([], if first then q' else q)
          else if c =? 10 then Some ([c], q')
          else match read_chars false n' q' with
               | Some (out, rest) => Some (c :: out, rest)
               | None => None
               end
      end
  end.

Lemma read_chars_length first n q out rest : read_chars first n q = Some (out, rest) -> (length out <= n)%nat.
Proof.
  revert first q out. induction n as [|n IH]; intros first q out; cbn [read_chars]; [by intros [= <- _]|].
  destruct q as [|c q]; [done|]. destruct (c =? Ctl 68); [intros [= <- _]; simpl; lia|].
  destruct (c =? 10); [intros [= <- _]; simpl; lia|].
  destruct (read_chars false n q) as [[o r]|] eqn:Er; [|done]. intros [= <- <-]. apply IH in Er. simpl. lia.
Qed.

Section line.
Context {E : Type} `{HE : ConEnv E}.
Implicit Types (s : con E) (L : line).

(** ** The ring represents it *)

Record in_ok s L : Prop := {
  io_len : length (ibuf s) = 128%nat;
  io_r : 0 <= ir s < 2 ^ 32;
  io_w : iw s = u32 (ir s + Z.of_nat (length (ready L)));
  io_e : ie s = u32 (ir s + Z.of_nat (used L));
  io_room : (used L <= 128)%nat;
  io_at : forall i c, (ready L ++ edit L) !! i = Some c -> ibuf_at (ir s + Z.of_nat i) s = c;
  io_line : 10 ∉ edit L;
}.

Lemma used_eq L : used L = (length (ready L) + length (edit L))%nat.
Proof. apply length_app. Qed.

(** The part of the state that neither typing nor printing changes. *)
Definition outside s := (panicked s, cons_lock s, cons_locking s, uart s, rx s, keys s, shift s, in_lock s, cenv s).
(** The part the ring lives in. *)
Definition ring s := (ibuf s, ir s, iw s, ie s).

Lemma in_ok_ring s s' L : ring s' = ring s -> in_ok s L -> in_ok s' L.
Proof.
  unfold ring. intros [= Hb Hr Hw He] [? ? ? ? ? Hat ?]. split; rewrite ?Hb, ?Hr, ?Hw, ?He; try done.
  intros i c Hi. rewrite <-(Hat i c Hi). unfold ibuf_at. by rewrite Hb.
Qed.

Lemma out_only_ring s s' : out_only s s' -> ring s' = ring s /\ outside s' = outside s.
Proof. by intros (c & p & t & ->). Qed.

Lemma u32_eq a i j : 0 <= i < 2 ^ 32 -> 0 <= j < 2 ^ 32 -> u32 (a + i) = u32 (a + j) -> i = j.
Proof.
  intros Hi Hj H. unfold u32 in H. assert (Hd : (a + i - (a + j)) mod 2 ^ 32 = 0).
  { rewrite Zminus_mod, H, Z.sub_diag. done. }
  apply Z.mod_divide in Hd as [k Hk]; [|lia]. assert (k = 0); lia.
Qed.

Lemma edit_empty s L : in_ok s L -> (ie s =? iw s) = bool_decide (edit L = []).
Proof.
  intros []. rewrite io_w0, io_e0. pose proof (used_eq L) as Hu. destruct (edit L) as [|c l] eqn:El.
  - simpl in Hu. rewrite Hu, Nat.add_0_r. by rewrite Z.eqb_refl.
  - rewrite bool_decide_eq_false_2 by done. apply Z.eqb_neq. intros H%u32_eq; simpl in *; lia.
Qed.

Lemma edit_room s L : in_ok s L -> u32 (ie s - ir s) = Z.of_nat (used L).
Proof.
  intros []. rewrite io_e0, u32_sub_l. replace (ir s + Z.of_nat (used L) - ir s) with (Z.of_nat (used L)) by lia.
  apply u32_small. lia.
Qed.

Lemma ibuf_at_u32 s i : ibuf_at (u32 i) s = ibuf_at i s.
Proof. unfold ibuf_at, INPUT_BUF. by rewrite u32_mod_dvd; [|lia|exists (2 ^ 25)]. Qed.

(** ** Changing the line *)

Lemma drop_last_ok s L l c : in_ok s L -> edit L = l ++ [c] ->
  in_ok (set_ie (u32 (ie s - 1)) s) (Line (ready L) l).
Proof.
  intros [] Hl. assert (Hu : used L = S (used (Line (ready L) l))).
  { rewrite !used_eq, Hl, length_app. simpl. lia. }
  split; simpl; try done.
  - rewrite io_e0, u32_sub_l. f_equal. lia.
  - lia.
  - intros i x Hi. change (ibuf_at (ir s + Z.of_nat i) s = x). apply io_at0. rewrite Hl, app_assoc.
    by apply lookup_app_l_Some.
  - intros Hin. apply io_line0. rewrite Hl. apply elem_of_app. by left.
Qed.

(** The state after [input.buf[input.e++ % INPUT_BUF] = c]. *)
Definition pushed (c : Z) s : con E :=
  set_ie (u32 (ie s + 1)) (set_ibuf (<[Z.to_nat (ie s mod INPUT_BUF) := u8 c]> (ibuf s)) s).

Lemma pushed_at s L c : in_ok s L -> (used L < 128)%nat -> 0 <= c < 256 ->
  forall i x, (ready L ++ edit L ++ [c]) !! i = Some x -> ibuf_at (ir s + Z.of_nat i) (pushed c s) = x.
Proof.
  intros H Hu Hc i x Hi. rewrite app_assoc in Hi. destruct H.
  assert (Hpos : ie s mod INPUT_BUF = (ir s + Z.of_nat (used L)) mod INPUT_BUF).
  { rewrite io_e0. unfold INPUT_BUF. by rewrite u32_mod_dvd; [|lia|exists (2 ^ 25)]. }
  pose proof (lookup_lt_Some _ _ _ Hi) as Hlt. rewrite length_app in Hlt. simpl in Hlt.
  assert (Hix : (i < used L)%nat /\ (ready L ++ edit L) !! i = Some x \/ i = used L /\ x = c).
  { apply lookup_snoc_Some in Hi as [[? ?]|[-> ->]]; [by left|by right]. }
  change (length (ready L ++ edit L)) with (used L) in Hlt.
  unfold ibuf_at, pushed. cbn [ibuf set_ie set_ibuf]. rewrite Hpos. unfold INPUT_BUF.
  pose proof (Z.mod_pos_bound (ir s + Z.of_nat (used L)) 128 ltac:(lia)).
  pose proof (Z.mod_pos_bound (ir s + Z.of_nat i) 128 ltac:(lia)).
  destruct Hix as [[Hlt' Hi']|[-> ->]].
  - assert ((ir s + Z.of_nat (used L)) mod 128 <> (ir s + Z.of_nat i) mod 128) as Hne by lia_dm.
    rewrite <-(io_at0 i x Hi'). unfold ibuf_at, INPUT_BUF.
    rewrite !nth_lookup, list_lookup_insert_ne; [done|lia].
  - rewrite nth_lookup, list_lookup_insert_eq by lia. by apply u8_small.
Qed.

Lemma push_ok s L c : in_ok s L -> (used L < 128)%nat -> 0 <= c < 256 -> c <> 10 ->
  in_ok (pushed c s) (Line (ready L) (edit L ++ [c])).
Proof.
  intros H Hu Hc Hn. pose proof (pushed_at s L c H Hu Hc) as Hat. destruct H.
  assert (Hu' : used (Line (ready L) (edit L ++ [c])) = S (used L)) by (rewrite !used_eq; simpl; rewrite length_app; simpl; lia).
  split; simpl; try done.
  - by rewrite length_insert.
  - rewrite io_e0, u32_add_l. f_equal. lia.
  - lia.
  - intros [Hin|Hin%list_elem_of_singleton]%elem_of_app; [done|by subst].
Qed.

Lemma commit_ok s L c : in_ok s L -> (used L < 128)%nat -> 0 <= c < 256 ->
  in_ok (set_iw (ie (pushed c s)) (pushed c s)) (Line (ready L ++ edit L ++ [c]) []).
Proof.
  intros H Hu Hc. pose proof (pushed_at s L c H Hu Hc) as Hat. destruct H.
  assert (Hu' : length (ready L ++ edit L ++ [c]) = S (used L)) by (rewrite used_eq, !length_app; simpl; lia).
  assert (Hu'' : used (Line (ready L ++ edit L ++ [c]) []) = S (used L)) by (unfold used; simpl; by rewrite app_nil_r).
  split; simpl; try done.
  - by rewrite length_insert.
  - rewrite io_e0, u32_add_l, Hu'. f_equal. lia.
  - rewrite io_e0, u32_add_l. f_equal. lia.
  - lia.
  - rewrite app_nil_r. apply Hat.
  - apply not_elem_of_nil.
Qed.

Lemma pop_ok s c q l : in_ok s (Line (c :: q) l) ->
  ibuf_at (ir s) s = c /\ in_ok (set_ir (u32 (ir s + 1)) s) (Line q l).
Proof.
  intros []. assert (Hu : used (Line (c :: q) l) = S (used (Line q l))) by done. split.
  - specialize (io_at0 O c eq_refl). by rewrite Z.add_0_r in io_at0.
  - split; simpl; try done.
    + apply u32_range.
    + rewrite io_w0, u32_add_l. f_equal. simpl. lia.
    + rewrite io_e0, u32_add_l. f_equal. lia.
    + lia.
    + intros i x Hi. specialize (io_at0 (S i) x Hi). rewrite <-io_at0.
      rewrite <-ibuf_at_u32, u32_add_l, ibuf_at_u32. unfold ibuf_at. simpl ibuf. do 3 f_equal. lia.
Qed.

Lemma ready_empty s L : in_ok s L -> (ir s =? iw s) = bool_decide (ready L = []).
Proof.
  intros []. rewrite io_w0. pose proof (used_eq L) as Hu. destruct (ready L) as [|c l] eqn:El.
  - simpl. rewrite Z.add_0_r, u32_small by lia. by rewrite Z.eqb_refl.
  - rewrite bool_decide_eq_false_2 by done. apply Z.eqb_neq. intros H.
    rewrite <-(Z.add_0_r (ir s)) in H at 1. rewrite <-(u32_small (ir s + 0)) in H at 1 by lia.
    apply u32_eq in H; simpl in *; lia.
Qed.

(** ** Typing *)

Lemma screen_ok_ie s v : screen_ok s -> screen_ok (set_ie v s).
Proof. by intros []. Qed.

(** A state the editor leaves: the line, the screen, and nothing outside changed. *)
Definition typed s L s' : Prop := in_ok s' L /\ screen_ok s' /\ outside s' = outside s.

Lemma typed_trans s1 s2 s3 L L' : typed s1 L s2 -> typed s2 L' s3 -> typed s1 L' s3.
Proof. intros (_ & _ & H1) (H2 & H3 & H4). split_and!; [done|done|by rewrite H4]. Qed.

Lemma not_panicked s s' : outside s' = outside s -> panicked s = false -> panicked s' = false.
Proof. unfold outside. intros [= -> _ _ _ _ _ _ _ _] ?. done. Qed.

(** Printing keeps the line. *)
Lemma echo_wp c s s0 L (Q : unit -> con E -> list event -> Prop) : in_ok s L -> screen_ok s -> panicked s = false ->
  outside s = outside s0 -> (forall s', typed s0 L s' -> ring s' = ring s -> Q tt s' []) -> wp (consputc c DEFAULT_CONSOLE_COLOR) s Q.
Proof.
  intros Hi Hs Hp Ho HQ. apply consputc_wp; [done|done|]. intros s' Hs' _ _ Hout.
  destruct (out_only_ring _ _ Hout) as [Hr Ho']. apply HQ; [|done].
  split_and!; [by apply (in_ok_ring s)|done|by rewrite Ho'].
Qed.

(** Take the last character back. *)
Lemma erase_wp s L l c (Q : unit -> con E -> list event -> Prop) : in_ok s L -> screen_ok s -> panicked s = false ->
  edit L = l ++ [c] -> (forall s', typed s (Line (ready L) l) s' -> Q tt s' []) ->
  wp (consputc BACKSPACE DEFAULT_CONSOLE_COLOR) (set_ie (u32 (ie s - 1)) s) Q.
Proof.
  intros Hi Hs Hp Hl HQ. apply (echo_wp _ _ s (Line (ready L) l)); [by apply (drop_last_ok s L l c)|by apply screen_ok_ie|done|done|].
  intros s' Ht _. by apply HQ.
Qed.

Lemma snoc_case {A} (l : list A) : l = [] \/ exists l' c, l = l' ++ [c].
Proof. induction l using rev_ind; eauto. Qed.

Lemma line_eta s L : in_ok s L -> screen_ok s -> edit L = [] -> typed s (Line (ready L) []) s.
Proof. intros Hi Hs He. destruct L as [r e]. simpl in *. by subst. Qed.

(** The character before the end of the line that is edited. *)
Lemma last_char s L l c : in_ok s L -> edit L = l ++ [c] -> ibuf_at (u32 (ie s - 1)) s = c.
Proof.
  intros Hi El. pose proof (used_eq L) as Hu. rewrite El, length_app in Hu. simpl in Hu. destruct Hi.
  rewrite io_e0, u32_sub_l, ibuf_at_u32.
  replace (ir s + Z.of_nat (used L) - 1) with (ir s + Z.of_nat (used L - 1)) by lia. apply io_at0.
  rewrite El, app_assoc. apply lookup_snoc_Some. right. rewrite length_app. split; [lia|done].
Qed.

Lemma kill_line_wp fuel s L (Q : unit -> con E -> list event -> Prop) : in_ok s L -> screen_ok s -> panicked s = false ->
  (length (edit L) <= fuel)%nat -> (forall s', typed s (Line (ready L) []) s' -> Q tt s' []) -> wp (kill_line fuel) s Q.
Proof.
  revert s L. induction fuel as [|fuel IH]; intros s L Hi Hs Hp Hf HQ;
    (destruct (snoc_case (edit L)) as [El|(l & c & El)];
      [cbn [kill_line]; wp_steps; rewrite (edit_empty _ _ Hi), El; cbn [orb]; wp_steps; by apply HQ, line_eta|]);
    rewrite El, length_app in Hf; simpl in Hf; [lia|].
  cbn [kill_line]. wp_step. wp_step. rewrite (edit_empty _ _ Hi), El, bool_decide_eq_false_2 by (by destruct l).
  rewrite (last_char s L l c Hi El), (proj2 (Z.eqb_neq c 10)).
  2:{ intros ->. apply (io_line _ _ Hi). rewrite El. apply elem_of_app. right. by left. }
  cbn [orb]. wp_steps. apply (erase_wp s L l c); [done|done|done|done|]. intros s1 Ht1. pose proof Ht1 as (Hi1 & Hs1 & Ho1).
  apply (IH s1 _ Hi1 Hs1); [by apply (not_panicked s)|simpl; lia|]. intros s2 Ht2. apply HQ. by apply (typed_trans s s1 s2 _ _ Ht1).
Qed.

Section typing.
Context (procdump : K (con E) unit).
(** procdump only prints. *)
Hypothesis procdump_prints : forall s (Q : unit -> con E -> list event -> Prop), screen_ok s -> panicked s = false ->
  (forall s', screen_ok s' -> out_only s s' -> Q tt s' []) -> wp procdump s Q.

(** Is somebody woken? *)
Definition wakes (L : line) (c : Z) : bool :=
  negb ((c =? Ctl 90) || (c =? Ctl 80) || (c =? Ctl 85) || (c =? Ctl 72) || (c =? 127) || (c =? 0))%bool
  && (used L <? 128)%nat && completes (if c =? 13 then 10 else c) L.
Definition woken (b : bool) : list event := if b then [Wakeup ChInput] else [].

(** An ordinary character. *)
Lemma store_wp c s L (Q : unit -> con E -> list event -> Prop) : in_ok s L -> screen_ok s -> panicked s = false ->
  0 < c < 256 -> c <> 13 ->
  (forall s', typed s (if (used L <? 128)%nat then
                         if completes c L then Line (ready L ++ edit L ++ [c]) [] else Line (ready L) (edit L ++ [c])
                       else L) s' ->
     Q tt s' (woken ((used L <? 128)%nat && completes c L))) ->
  wp (let! s := kget in
      if u32 (ie s - ir s) <? INPUT_BUF then
        kmod (pushed c) ;;;
        consputc c DEFAULT_CONSOLE_COLOR ;;;
        let! s := kget in
        if ((c =? 10) || (c =? Ctl 68) || (ie s =? u32 (ir s + INPUT_BUF)))%bool
        then kmod (set_iw (ie s)) ;;; wakeup ChInput
        else kret tt
      else kret tt) s Q.
Proof.
  intros Hi Hs Hp Hc H13 HQ. wp_step. wp_step. rewrite (edit_room _ _ Hi).
  unfold INPUT_BUF at 1. destruct (Nat.ltb_spec (used L) 128) as [Hu|Hu].
  2:{ rewrite (proj2 (Z.ltb_ge _ _)) by lia. wp_steps. by apply HQ. }
  rewrite (proj2 (Z.ltb_lt _ _)) by lia. wp_steps. apply consputc_wp; [by destruct Hs|done|]. intros s1 Hs1 _ _ Hout.
  destruct (out_only_ring _ _ Hout) as [Hr1 Ho1]. wp_steps. pose proof Hr1 as Hr1'. unfold ring in Hr1'. injection Hr1' as Hb Hir Hiw Hie.
  assert (Heq : (ie s1 =? u32 (ir s1 + INPUT_BUF)) = (used L =? 127)%nat).
  { rewrite Hie, Hir. simpl. rewrite (io_e _ _ Hi), u32_add_l. destruct (Nat.eqb_spec (used L) 127) as [Hf|Hf].
    - apply Z.eqb_eq. f_equal. unfold INPUT_BUF. lia.
    - apply Z.eqb_neq. rewrite <-Z.add_assoc. intros H%u32_eq; unfold INPUT_BUF in *; lia. }
  rewrite Heq. fold (completes c L). destruct (completes c L) eqn:Hcm.
  - wp_steps. apply wp_emit. apply HQ. split_and!.
    + apply (in_ok_ring (set_iw (ie (pushed c s)) (pushed c s))); [|apply commit_ok; [done|done|lia]].
      unfold ring. simpl. by rewrite Hb, Hir, Hie.
    + by destruct Hs1.
    + change (outside s1 = outside s). by rewrite Ho1.
  - wp_steps. apply HQ. split_and!.
    + apply (in_ok_ring (pushed c s)); [done|]. apply push_ok; [done|done|lia|]. intros ->. by unfold completes in Hcm.
    + done.
    + by rewrite Ho1.
Qed.

Lemma input_char_wp c s L (Q : unit -> con E -> list event -> Prop) : in_ok s L -> screen_ok s -> panicked s = false ->
  0 <= c < 256 -> c <> Ctl 81 ->
  (forall s', typed s (type_char L c) s' -> Q tt s' (woken (wakes L c))) -> wp (input_char procdump c) s Q.
Proof.
  intros Hi Hs Hp Hc HQ81 HQ. unfold input_char. unfold type_char, wakes in HQ.
  destruct (Z.eqb_spec c (Ctl 90)) as [->|H90].
  { wp_steps. apply HQ. split_and!; [by apply (in_ok_ring s)|by destruct Hs|done]. }
  rewrite (proj2 (Z.eqb_neq c (Ctl 81))) by done.
  destruct (Z.eqb_spec c (Ctl 80)) as [->|H80].
  { apply procdump_prints; [done|done|]. intros s' Hs' Hout. destruct (out_only_ring _ _ Hout) as [Hr Ho].
    apply HQ. split_and!; [by apply (in_ok_ring s)|done|done]. }
  destruct (Z.eqb_spec c (Ctl 85)) as [->|H85].
  { apply (kill_line_wp _ s L); try done. pose proof (io_room _ _ Hi). pose proof (used_eq L). unfold INPUT_BUF. lia. }
  destruct ((c =? Ctl 72) || (c =? 127))%bool eqn:Hdel.
  { assert (Hw : woken (negb (false || (c =? Ctl 72) || (c =? 127) || (c =? 0)) && (used L <? 128)%nat && completes (if c =? 13 then 10 else c) L) = []).
    { cbn [orb]. by rewrite Hdel. }
    cbn [orb] in HQ, Hw. rewrite Hw in HQ. wp_step. wp_step. rewrite (edit_empty _ _ Hi).
    destruct (snoc_case (edit L)) as [El|(l & x & El)]; rewrite El in HQ |- *.
    - wp_steps. by apply HQ, line_eta.
    - rewrite bool_decide_eq_false_2 by (by destruct l). wp_steps.
      rewrite removelast_last in HQ. by apply (erase_wp s L l x). }
  apply orb_false_iff in Hdel as [H72 H127]. rewrite H72, H127 in HQ. cbn [orb andb] in HQ.
  destruct (Z.eqb_spec c 0) as [->|H0]; [wp_steps; by apply HQ|]. cbn [negb andb] in HQ |- *.
  destruct (Z.eqb_spec c 13) as [->|H13].
  - eapply (store_wp 10 s L); try done.
  - eapply (store_wp c s L); try done. lia.
Qed.

(** *** A device that delivers characters *)

(** What reading a character leaves alone. *)
Definition kept s := (ring s, crt s, cursor s, tx s, (panicked s, cons_lock s, cons_locking s, uart s, in_lock s, cenv s)).

Definition queues s := (uart s, rx s, keys s, shift s).
Lemma outside_queues s s' : outside s' = outside s -> queues s' = queues s.
Proof. unfold outside, queues. congruence. Qed.

(** [getc] delivers the characters [src] of the state and then -1. *)
Record delivers (getc : K (con E) Z) (src : con E -> list Z) : Prop := {
  dv_local : forall s s', queues s' = queues s -> src s' = src s;
  dv_empty : forall s (Q : Z -> con E -> list event -> Prop), src s = [] -> Q (-1) s [] -> wp getc s Q;
  dv_next : forall s c cs (Q : Z -> con E -> list event -> Prop), src s = c :: cs ->
    (forall s', src s' = cs -> kept s' = kept s -> 0 <= c < 256 -> Q c s' []) -> wp getc s Q;
}.

Fixpoint wake_log L (cs : list Z) : list event :=
  match cs with
  | [] => []
  | c :: cs' => woken (wakes L c) ++ wake_log (type_char L c) cs'
  end.

Lemma outside_kept s s' s0 : outside s' = outside s -> kept s = kept s0 ->
  (panicked s', cons_lock s', cons_locking s', uart s', in_lock s', cenv s') =
  (panicked s0, cons_lock s0, cons_locking s0, uart s0, in_lock s0, cenv s0).
Proof. unfold outside, kept. congruence. Qed.

Lemma input_loop_wp fuel getc src s L (Q : unit -> con E -> list event -> Prop) :
  delivers getc src -> in_ok s L -> screen_ok s -> panicked s = false ->
  Ctl 81 ∉ src s -> (length (src s) <= fuel)%nat ->
  (forall s', in_ok s' (foldl type_char L (src s)) -> screen_ok s' -> src s' = [] ->
     (panicked s', cons_lock s', cons_locking s', uart s', in_lock s', cenv s') =
     (panicked s, cons_lock s, cons_locking s, uart s, in_lock s, cenv s) -> Q tt s' (wake_log L (src s))) ->
  wp (input_loop procdump fuel getc) s Q.
Proof.
  intros Hd. revert s L Q. induction fuel as [|fuel IH]; intros s L Q Hi Hs Hp H81 Hf HQ;
    destruct (src s) as [|c cs] eqn:Hsrc; simpl in Hf; try lia.
  - cbn [input_loop]. wp_step. apply (dv_empty _ _ Hd); [done|]. wp_steps. by apply HQ.
  - cbn [input_loop]. wp_step. apply (dv_empty _ _ Hd); [done|]. wp_steps. by apply HQ.
  - cbn [input_loop]. wp_step. apply (dv_next _ _ Hd _ _ _ _ Hsrc). intros s1 Hs1 Hk1 Hc.
    rewrite (proj2 (Z.ltb_ge c 0)) by lia. wp_step.
    assert (Hp1 : panicked s1 = false) by (unfold kept in Hk1; congruence).
    apply (input_char_wp c s1 L).
    + apply (in_ok_ring s); [|done]. unfold kept in Hk1. congruence.
    + destruct Hs. unfold kept in Hk1. assert (crt s1 = crt s /\ cursor s1 = cursor s) as [Hcrt Hcur] by (split; congruence).
      split; [by rewrite Hcrt|by rewrite Hcur].
    + done.
    + done.
    + intros ->. apply H81. left.
    + intros s2 (Hi2 & Hs2 & Ho2). apply (IH s2 (type_char L c)); try done.
      * by apply (not_panicked s1).
      * rewrite (dv_local _ _ Hd _ _ (outside_queues _ _ Ho2)), Hs1. intros Hin. apply H81. by right.
      * rewrite (dv_local _ _ Hd _ _ (outside_queues _ _ Ho2)), Hs1. lia.
      * rewrite (dv_local _ _ Hd _ _ (outside_queues _ _ Ho2)), Hs1. intros s3 Hi3 Hs3 Hsrc3 Hf3. apply HQ; [done|done|done|].
        rewrite Hf3. by apply (outside_kept s1).
Qed.

(** An interrupt of the device: all it holds is typed, and the lock is free again. *)
Lemma consoleintr_wp fuel getc src s L (Q : unit -> con E -> list event -> Prop) :
  delivers getc src -> in_ok s L -> screen_ok s -> panicked s = false -> in_lock s = false ->
  Ctl 81 ∉ src s -> (length (src s) <= fuel)%nat ->
  (forall s', in_ok s' (foldl type_char L (src s)) -> screen_ok s' -> src s' = [] ->
     (panicked s', cons_lock s', cons_locking s', uart s', in_lock s', cenv s') =
     (panicked s, cons_lock s, cons_locking s, uart s, in_lock s, cenv s) -> Q tt s' (wake_log L (src s))) ->
  wp (consoleintr procdump fuel getc) s Q.
Proof.
  intros Hd Hi Hs Hp Hl H81 Hf HQ. unfold consoleintr. wp_step. apply wp_acquire; [done|]. wp_step.
  set (s1 := lput in_lk true s). assert (Hq : src s1 = src s) by (by apply (dv_local _ _ Hd)).
  apply (input_loop_wp fuel getc src s1 L); try done.
  - by apply (in_ok_ring s).
  - by destruct Hs.
  - by rewrite Hq.
  - by rewrite Hq.
  - rewrite Hq. intros s2 Hi2 Hs2 Hsrc2 Hk2.
    apply wp_release; [simpl in *; congruence|]. cbn [app]. rewrite app_nil_r. apply HQ.
    + by apply (in_ok_ring s2).
    + by destruct Hs2.
    + rewrite <-Hsrc2. by apply (dv_local _ _ Hd).
    + simpl in *. congruence.
Qed.

(** *** The serial line and the keyboard *)

Lemma uart_delivers : delivers uartgetc (fun s => if uart s then u8 <$> rx s else []).
Proof.
  split.
  - unfold queues. intros s s' [= -> -> _ _]. done.
  - intros s Q Hs HQ. unfold uartgetc. wp_steps. destruct (uart s); [|by wp_steps].
    destruct (rx s); [by wp_steps|done].
  - intros s c cs Q Hs HQ. unfold uartgetc. wp_steps. destruct (uart s) eqn:Hu; [|done].
    destruct (rx s) as [|x xs]; [done|]. injection Hs as <- <-. wp_steps. apply HQ; simpl; [by rewrite Hu|done|apply u8_range].
Qed.

(** One scan code: the new modifiers and the character. *)
Definition kbd_step (sh data : Z) : Z * Z :=
  if data =? 224 then (set sh E0ESC, 0)
  else if has data 128 then
    (clr sh (set (nth (Z.to_nat (if has sh E0ESC then data else Z.land data 127)) shiftcode 0) E0ESC), 0)
  else
    let data := if has sh E0ESC then set data 128 else data in
    let sh := if has sh E0ESC then clr sh E0ESC else sh in
    let sh := Z.lxor (set sh (nth (Z.to_nat data) shiftcode 0)) (nth (Z.to_nat data) togglecode 0) in
    let c := nth (Z.to_nat data) (charcode (Z.land sh (set CTL SHIFT))) 0 in
    (sh, if has sh CAPSLOCK then caps c else c).

Fixpoint decode (sh : Z) (ks : list Z) : list Z :=
  match ks with
  | [] => []
  | k :: ks' => let '(sh', c) := kbd_step sh (u8 k) in c :: decode sh' ks'
  end.

Definition byte_table (t : list Z) : Prop :=
  length t = 256%nat /\ forallb (fun v => (0 <=? v) && (v <? 256))%bool t = true.
Lemma tables_ok : byte_table shiftcode /\ byte_table togglecode /\ forall i, byte_table (charcode i).
Proof.
  split_and!; [by split|by split|]. intros i. unfold charcode. repeat case_match; by split.
Qed.

Lemma entry_wp t i s (Q : Z -> con E -> list event -> Prop) : byte_table t -> 0 <= i < 256 ->
  (0 <= nth (Z.to_nat i) t 0 < 256 -> Q (nth (Z.to_nat i) t 0) s []) -> wp (entry t i) s Q.
Proof.
  intros [Hl Ht] Hi HQ. unfold entry. destruct (lookup_lt_is_Some_2 t (Z.to_nat i)) as [v Hv]; [lia|].
  rewrite Hv. wp_steps. rewrite (nth_lookup_Some _ _ _ _ Hv) in HQ. apply HQ.
  rewrite forallb_forall in Ht. specialize (Ht v (proj1 (list_elem_of_In _ _) (list_elem_of_lookup_2 _ _ _ Hv))).
  cbn beta in Ht. lia.
Qed.

(** What holds of every byte, by trying all of them. *)
Lemma all_bytes (P : Z -> bool) d : forallb P (seqZ 0 256) = true -> 0 <= d < 256 -> P d = true.
Proof.
  rewrite forallb_forall. intros H Hd. apply H. apply list_elem_of_In, elem_of_seqZ. lia.
Qed.

Lemma make_code d : 0 <= d < 256 -> has d 128 = false -> d < 128 /\ set d 128 = d + 128.
Proof.
  intros Hd Hh. pose proof (all_bytes (fun d => has d 128 || ((d <? 128) && (set d 128 =? d + 128)))%bool d) as H.
  cbn beta in H. rewrite Hh in H. cbn [orb] in H. specialize (H ltac:(by vm_compute) Hd). lia.
Qed.
Lemma low_bits d : 0 <= d < 256 -> 0 <= Z.land d 127 < 128.
Proof.
  intros Hd. pose proof (all_bytes (fun d => (0 <=? Z.land d 127) && (Z.land d 127 <? 128))%bool d ltac:(by vm_compute) Hd) as H.
  cbn beta in H. lia.
Qed.

Lemma caps_byte c : 0 <= c < 256 -> 0 <= caps c < 256.
Proof. intros Hc. unfold caps. repeat case_match; lia. Qed.

(** kbdgetc is [kbd_step]. *)
Lemma kbdgetc_wp s k ks (Q : Z -> con E -> list event -> Prop) : keys s = k :: ks ->
  (forall sh c, kbd_step (shift s) (u8 k) = (sh, c) -> 0 <= c < 256 -> Q c (set_shift sh (set_keys ks s)) []) ->
  wp kbdgetc s Q.
Proof.
  intros Hk HQ. unfold kbdgetc. wp_step. wp_step. rewrite Hk. wp_step. wp_step. unfold kbd_step in HQ.
  pose proof (u8_range k) as Hu. change (2 ^ 8) with 256 in Hu. generalize dependent (u8 k). intros d HQ Hd.
  destruct tables_ok as (Hsc & Htc & Hcc). destruct (d =? 224); [wp_steps; by apply HQ|].
  destruct (has d 128) eqn:Hh.
  - wp_step. apply entry_wp; [done|case_match; [lia|pose proof (low_bits d Hd); lia]|]. intros _. wp_steps. by apply HQ.
  - destruct (make_code d Hd Hh) as [Hlt Hset].
    set (e := if has (shift s) E0ESC then set d 128 else d) in *.
    assert (0 <= e < 256) by (unfold e; case_match; lia). clearbody e.
    wp_step. apply entry_wp; [done|done|]. intros _. wp_step. apply entry_wp; [done|done|]. intros _. wp_steps.
    apply entry_wp; [done|done|]. intros Hc. wp_steps. apply HQ; [done|]. destruct (has _ CAPSLOCK); [by apply caps_byte|done].
Qed.

Lemma kbd_delivers : delivers kbdgetc (fun s => decode (shift s) (keys s)).
Proof.
  split.
  - unfold queues. intros s s' [= _ _ -> ->]. done.
  - intros s Q Hs HQ. unfold kbdgetc. wp_steps. destruct (keys s) as [|k ks]; [by wp_steps|].
    cbn [decode] in Hs. by destruct (kbd_step (shift s) (u8 k)).
  - intros s c cs Q Hs HQ. destruct (keys s) as [|k ks] eqn:Hk; [done|]. cbn [decode] in Hs.
    apply (kbdgetc_wp s k ks); [done|]. intros sh x Hst Hx. rewrite Hst in Hs. injection Hs as -> <-.
    by apply HQ.
Qed.

Lemma decode_length sh ks : length (decode sh ks) = length ks.
Proof. revert sh. induction ks as [|k ks IH]; intros sh; [done|]. cbn [decode]. destruct (kbd_step sh (u8 k)). simpl. by rewrite IH. Qed.

End typing.

(** ** Reading *)

(** How the loop ends, from the outcome of [read_chars]. *)
Definition read_outcome s (dst : list Z) (n : Z) (r : option (list Z * list Z)) (s' : con E) : outcome (con E) stepped :=
  match r with
  | Some (out, _) => Ret (Done (dst ++ out) (n - Z.of_nat (length out))) s'
  | None => if killed (cenv s) then Ret Killed s' else Stop (Sleeping ChInput) (set_in_lock false s')
  end.
Definition left_over (r : option (list Z * list Z)) : list Z := match r with Some (_, rest) => rest | None => [] end.

Lemma set_ir_id s : set_ir (ir s) s = s.
Proof. by destruct s. Qed.

(** Nothing wanted, or nothing there. *)
Lemma read_loop_end fuel target dst n q l s : in_ok s (Line q l) -> n <= 0 \/ q = [] -> 0 <= n ->
  read_loop fuel target dst n s = ([], read_outcome s dst n (read_chars (n =? target) (Z.to_nat n) q) s) /\
  left_over (read_chars (n =? target) (Z.to_nat n) q) = q.
Proof.
  intros Hi Hq Hn. assert (read_loop fuel target dst n s =
    (if 0 <? n then if ir s =? iw s then if killed (cenv s) then kret Killed else ksleep ChInput (set_in_lock false)
                    else fault else kret (Done dst n)) s) as ->.
  { destruct (Z.ltb_spec 0 n) as [Hlt|Hge].
    - destruct Hq as [?| ->]; [lia|].
      destruct fuel; cbn [read_loop]; rewrite (proj2 (Z.ltb_lt 0 n)) by lia; unfold kbind at 1; cbn [kget];
        rewrite (ready_empty _ _ Hi); cbn [ready]; by case_match.
    - destruct fuel; cbn [read_loop]; by rewrite (proj2 (Z.ltb_ge 0 n)) by lia. }
  destruct (Z.ltb_spec 0 n) as [Hlt|Hge].
  - destruct Hq as [?| ->]; [lia|]. rewrite (ready_empty _ _ Hi). destruct (Z.to_nat n) eqn:En; [lia|]. cbn [read_chars ready].
    rewrite bool_decide_eq_true_2 by done. split; [|done]. unfold read_outcome. by case_match.
  - assert (n = 0) as -> by lia. change (Z.to_nat 0) with O. cbn [read_chars left_over]. unfold read_outcome. by rewrite app_nil_r.
Qed.

Lemma read_loop_stop fuel target dst n q l s : in_ok s (Line q l) -> n <= 0 \/ q = [] -> 0 <= n ->
  exists r', let rd := read_chars (n =? target) (Z.to_nat n) q in
    read_loop fuel target dst n s = ([], read_outcome s dst n rd (set_ir r' s)) /\
    in_ok (set_ir r' s) (Line (left_over rd) l).
Proof.
  intros Hi Hq Hn. exists (ir s). rewrite set_ir_id. cbn zeta.
  destruct (read_loop_end fuel target dst n q l s Hi Hq Hn) as [Hr ->]. by split.
Qed.

Lemma read_loop_run fuel target dst n q l s : in_ok s (Line q l) -> 0 <= n <= target -> target < 2 ^ 31 ->
  (length q <= fuel)%nat ->
  exists r', let rd := read_chars (n =? target) (Z.to_nat n) q in
    read_loop fuel target dst n s = ([], read_outcome s dst n rd (set_ir r' s)) /\
    in_ok (set_ir r' s) (Line (left_over rd) l).
Proof.
  revert s q dst n. induction fuel as [|fuel IH]; intros s q dst n Hi Hn Ht Hf.
  all: destruct (Z.leb_spec n 0) as [Hn0|Hn0]; [by apply read_loop_stop; auto with lia|].
  all: destruct q as [|c q]; [by apply read_loop_stop; auto with lia|]; simpl in Hf.
  1: lia.
  destruct (pop_ok _ _ _ _ Hi) as [Hc Hpop]. cbn [read_loop]. rewrite (proj2 (Z.ltb_lt 0 n)) by lia.
  unfold kbind at 1; cbn [kget]. rewrite (ready_empty _ _ Hi). cbn [ready]. rewrite bool_decide_eq_false_2, Hc by done.
  destruct (Z.to_nat n) as [|n'] eqn:En; [lia|]. cbn [read_chars]. unfold kbind at 1. cbn [kmod].
  destruct (c =? Ctl 68) eqn:E4; [|destruct (c =? 10) eqn:E10].
  - rewrite u32_small by lia. destruct (Z.eqb_spec n target) as [Heq|Hne].
    + rewrite (proj2 (Z.ltb_ge n target)) by lia. exists (u32 (ir s + 1)). cbn [left_over]. split; [|done].
      unfold read_outcome. simpl. by rewrite app_nil_r, Z.sub_0_r.
    + rewrite (proj2 (Z.ltb_lt n target)) by lia. exists (ir s). rewrite set_ir_id. cbn [left_over]. split; [|done].
      unfold read_outcome. simpl. rewrite app_nil_r, Z.sub_0_r. do 2 f_equal.
      rewrite u32_sub_l. replace (ir s + 1 - 1) with (ir s) by lia. rewrite u32_small by apply Hi. exact (set_ir_id s).
  - exists (u32 (ir s + 1)). by split.
  - destruct (IH _ q (dst ++ [c]) (n - 1) Hpop) as (r' & Hr & Hl); [lia|done|lia|].
    rewrite (proj2 (Z.eqb_neq _ target)) in Hr, Hl by lia. replace (Z.to_nat (n - 1)) with n' in Hr, Hl by lia.
    exists r'. cbn zeta in *. unfold read_outcome in Hr |- *.
    destruct (read_chars false n' q) as [[out rest]|]; cbn [left_over] in Hl |- *; (split; [|done]).
    + unfold kbind. cbn [kmod]. rewrite Hr. cbn [app length]. rewrite <-app_assoc.
      by replace (n - Z.of_nat (S (length out))) with (n - 1 - Z.of_nat (length out)) by lia.
    + unfold kbind. cbn [kmod]. rewrite Hr. cbn [cenv set_ir]. by destruct (killed (cenv s)).
Qed.

(** The rest of a read, from any point: [dst] was read before. *)
Lemma read_rest_run ip target dst n q l s e' : in_ok s (Line q l) -> 0 <= n <= target -> target < 2 ^ 31 ->
  in_lock s = true -> ilock ip (cenv s) = ([], Ret tt e') ->
  let rd := read_chars (n =? target) (Z.to_nat n) q in
  exists s', in_ok s' (Line (left_over rd) l) /\ in_lock s' = false /\
    read_rest ip target dst n s =
      ([], match rd with
           | Some (out, _) => Ret (target - n + Z.of_nat (length out), dst ++ out) s'
           | None => if killed (cenv s) then Ret (-1, dst) s' else Stop (Sleeping ChInput) s'
           end) /\
    cenv s' = (if rd then e' else if killed (cenv s) then e' else cenv s).
Proof.
  intros Hi Hn Ht Hl He rd. unfold read_rest.
  assert (Hf : (length q <= Z.to_nat INPUT_BUF)%nat).
  { pose proof (io_room _ _ Hi) as Hr. rewrite used_eq in Hr. simpl in Hr. unfold INPUT_BUF. lia. }
  destruct (read_loop_run _ target dst n q l s Hi Hn Ht Hf) as (r' & Hr & Hok). fold rd in Hr, Hok.
  set (s1 := set_ir r' s) in *. assert (Hend : forall (v : Z * list Z),
    (release in_lk ;;; zoom con_env (ilock ip) ;;; kret v) s1 = ([], Ret v (set_cenv e' (set_in_lock false s1)))).
  { intros v. kstep_by ltac:(by apply release_run). unfold kbind, zoom. cbn [lget con_env cenv lput in_lk].
    change (cenv (set_in_lock false s1)) with (cenv s). by rewrite He. }
  unfold kbind at 1. rewrite Hr. unfold read_outcome.
  destruct rd as [[out rest]|] eqn:Hrd; [|destruct (killed (cenv s))].
  - exists (set_cenv e' (set_in_lock false s1)). split_and!; [by apply (in_ok_ring s1)|done| |done].
    rewrite Hend. cbn [app]. pose proof (read_chars_length _ _ _ _ _ Hrd) as Hlen.
    do 3 f_equal. rewrite i32_small_id; lia.
  - exists (set_cenv e' (set_in_lock false s1)). split_and!; [by apply (in_ok_ring s1)|done| |done].
    by rewrite Hend.
  - exists (set_in_lock false s1). split_and!; [by apply (in_ok_ring s1)|done|done|done].
Qed.

(** consoleread returns the complete input: up to [n] bytes of it, to the end of the first
    line, or to a control-D, which is left for the next reader when bytes come before it.  When
    that needs more input it consumes what there is and sleeps, without the lock, or gives up
    with -1 in a process that was killed; woken again, it goes on from there. *)
Theorem consoleread_reads ip n s L e1 e2 : in_ok s L -> in_lock s = false -> 0 <= n < 2 ^ 31 ->
  iunlock ip (cenv s) = ([], Ret tt e1) -> ilock ip e1 = ([], Ret tt e2) ->
  match read_chars true (Z.to_nat n) (ready L) with
  | Some (out, rest) =>
      wp (consoleread ip n) s (fun r s' t => r = (Z.of_nat (length out), out) /\ t = [] /\
        in_ok s' (Line rest (edit L)) /\ in_lock s' = false /\ cenv s' = e2)
  | None =>
      if killed e1 then wp (consoleread ip n) s (fun r s' t => r.1 = -1 /\ in_ok s' (Line [] (edit L)) /\ in_lock s' = false)
      else stops (consoleread ip n) s (Sleeping ChInput) (fun s' t => t = [] /\ in_lock s' = false /\
        in_ok s' (Line [] (edit L)) /\ cenv s' = e1)
  end.
Proof.
  intros Hi Hl Hn H1 H2. destruct L as [q l]. cbn [ready edit].
  assert (Hrun : consoleread ip n s = read_rest ip n [] n (set_in_lock true (set_cenv e1 s))).
  { unfold consoleread. rewrite u32_small by lia. unfold kbind at 1, zoom. cbn [lget con_env cenv lput]. rewrite H1.
    unfold kbind. rewrite acquire_run by done. cbn [lput in_lk]. by destruct (read_rest _ _ _ _ _). }
  destruct (read_rest_run ip n [] n q l (set_in_lock true (set_cenv e1 s)) e2) as (s' & Hok & Hl' & Hr & He); try done; [|lia|lia|].
  { by apply (in_ok_ring s). }
  rewrite Z.eqb_refl in *. unfold wp, stops. rewrite Hrun, Hr. simpl cenv in *.
  destruct (read_chars true (Z.to_nat n) q) as [[out rest]|]; [|destruct (killed e1)].
  - split_and!; try done. by rewrite Z.sub_diag.
  - done.
  - by split_and!.
Qed.

(** consolewrite draws the bytes, whatever they are, and returns their number. *)
Theorem consolewrite_draws ip buf s e1 e2 : screen_ok s -> panicked s = false -> cons_lock s = false ->
  iunlock ip (cenv s) = ([], Ret tt e1) -> ilock ip e1 = ([], Ret tt e2) ->
  wp (consolewrite ip buf (Z.of_nat (length buf))) s (fun r s' _ => r = Z.of_nat (length buf) /\
    screen_ok s' /\ screen s' = draw_text buf (screen s) /\ ring s' = ring s /\ cons_lock s' = false /\ cenv s' = e2).
Proof.
  intros Hs Hp Hl H1 H2. unfold consolewrite. wp_step. apply wp_zoom. unfold wp at 1. cbn [lget con_env]. rewrite H1.
  wp_step. apply wp_acquire; [done|]. wp_step. rewrite Nat2Z.id, take_ge by done.
  apply (text_wp buf); [by destruct Hs|done|]. intros s' Hs' Hscr _ Hout. pose proof Hout as (? & ? & ? & Heq).
  wp_step. apply wp_release; [by rewrite Heq|]. wp_step. apply wp_zoom. unfold wp at 1. cbn [lget con_env].
  change (cenv (lput cons_lk false s')) with (cenv s'). replace (cenv s') with e1 by (by rewrite Heq).
  rewrite H2. apply wp_ret. split_and!; [done|by destruct Hs'|done| |done|done].
  destruct (out_only_ring _ _ Hout) as [Hr _]. exact Hr.
Qed.
End line.

(** ** A console at work *)

Module Demo.
#[export] Instance env : ConEnv bool := {|
  iunlock _ := kret tt;
  ilock _ := kret tt;
  killed e := e;
|}.
Definition no_dump : K (con bool) unit := kret tt.
Lemma no_dump_prints : forall s (Q : unit -> con bool -> list event -> Prop), screen_ok s -> panicked s = false ->
  (forall s', screen_ok s' -> out_only s s' -> Q tt s' []) -> wp no_dump s Q.
Proof. intros s Q Hs _ HQ. apply wp_ret. by apply HQ, out_only_refl. Qed.

(** Shift down, h, shift up, i, x, backspace, enter. *)
Definition scan_codes : list Z := [42; 35; 170; 23; 45; 14; 28].
Definition start : con bool :=
  Con false false true (replicate 2000 0) 0 true [] [] scan_codes 0 true false (replicate 128 0) 4294967290 4294967290 4294967290 false.
Definition typed_hi : con bool :=
  Con false false true (replicate 2000 0) 0 true [] [] [] 0 true false
    (chars "hi" ++ [10] ++ replicate 125 0) 0 3 3 false.

Lemma start_ok : in_ok start (Line [] []) /\ screen_ok start.
Proof. split; split; try done; simpl; try (unfold used; simpl; lia). apply not_elem_of_nil. Qed.

Lemma typed_hi_ok : in_ok typed_hi (Line (chars "hi" ++ [10]) []).
Proof.
  split; try done; simpl; try (unfold used; simpl; lia); [|apply not_elem_of_nil].
  intros i c Hi. by do 3 (destruct i as [|i]; [by injection Hi as <-|]).
Qed.

Lemma decoded : decode 0 scan_codes = [0; 72; 0; 105; 120; 8; 10].
Proof. vm_compute. reflexivity. Qed.


Lemma consoleread_reads_witness :
  wp (consoleread 1 100) typed_hi (fun r s' t => r = (3, chars "hi" ++ [10]) /\ t = [] /\
    in_ok s' (Line [] []) /\ in_lock s' = false /\ cenv s' = false).
Proof.
  pose proof (consoleread_reads 1 100 typed_hi (Line (chars "hi" ++ [10]) []) false false typed_hi_ok eq_refl
           ltac:(split; [done|reflexivity]) eq_refl eq_refl) as H.
  assert (Hr : read_chars true (Z.to_nat 100) (ready (Line (chars "hi" ++ [10]) [])) = Some (chars "hi" ++ [10], [])) by reflexivity.
  rewrite Hr in H. exact H.
Defined.
End Demo.
