(* ===== verification/Trap.v ===== *)
(** * Traps: kernel/trap.c

    Every interrupt, exception and system call enters the kernel through [trap].  The state
    is the clock, the table of registered handlers, the process table with its environment
    ([Proc]) and the devices, whose interrupt routines are operations of a class.  The system
    call dispatcher is an argument ([Syscall] models it over its own environment). *)

From stdpp Require Import base list strings.
From Stdlib Require Import ZArith Lia.
From S2P Require Import Prelude Spinlock Proc ProcLife.
Open Scope Z_scope.

Definition T_PGFLT : Z := 14.
Definition T_IRQ0 : Z := 32.
Definition T_SYSCALL : Z := 64.
Definition IRQ_TIMER : Z := 0.
Definition IRQ_KBD : Z := 1.
Definition IRQ_COM1 : Z := 4.
Definition Intel8254xInterruptCode : Z := 11.
Definition IRQ_IDE1 : Z := 14.
Definition IRQ_IDE2 : Z := 15.
Definition IRQ_SPURIOUS : Z := 31.
Definition MAX_IRQS : Z := 32.
Definition DPL_USER : Z := 3.

(** The parts of the trap frame that [trap] looks at, and the registers. *)
Record trapframe := Trapframe {
  trapno : Z;
  tf_cs : Z;
  tf_rest : list Z;      (* the registers but eax *)
  tf_rax : Z;
}.

(** The interrupt routines of the devices, the messages printed, and the handlers that can be
    registered, by number. *)
Class TrapDev (D : Type) := {
  lapiceoi : K D unit;
  uartintr : K D unit;
  kbdintr : K D unit;
  ideintr : K D unit;
  Intel8254xInterrupt : K D unit;
  report : Z -> K D unit;                 (* cprintf, about the trap of this number *)
  irqhandler : Z -> Z -> K D unit;
}.

Record traps (E D : Type) := Traps {
  tickslock : bool;
  ticks : Z;
  irqHandlersLock : bool;
  irqHandlers : list (option Z);
  cpu_id : Z;
  procs : ptable E;
  dev : D;
}.
Arguments Traps {E D}.
Arguments tickslock {E D}.
Arguments ticks {E D}.
Arguments irqHandlersLock {E D}.
Arguments irqHandlers {E D}.
Arguments cpu_id {E D}.
Arguments procs {E D}.
Arguments dev {E D}.

Section trap.
Context {E D : Type} `{HE : ProcEnv E} `{HD : TrapDev D} (syscall : K (ptable E) unit).
Notation TK := (K (traps E D)).
Implicit Types (s : traps E D).

Definition set_tickslock v s : traps E D :=
  Traps v (ticks s) (irqHandlersLock s) (irqHandlers s) (cpu_id s) (procs s) (dev s).
Definition set_ticks v s : traps E D :=
  Traps (tickslock s) v (irqHandlersLock s) (irqHandlers s) (cpu_id s) (procs s) (dev s).
Definition set_irqlock v s : traps E D :=
  Traps (tickslock s) (ticks s) v (irqHandlers s) (cpu_id s) (procs s) (dev s).
Definition set_irqHandlers v s : traps E D :=
  Traps (tickslock s) (ticks s) (irqHandlersLock s) v (cpu_id s) (procs s) (dev s).
Definition set_procs v s : traps E D :=
  Traps (tickslock s) (ticks s) (irqHandlersLock s) (irqHandlers s) (cpu_id s) v (dev s).
Definition set_dev v s : traps E D :=
  Traps (tickslock s) (ticks s) (irqHandlersLock s) (irqHandlers s) (cpu_id s) (procs s) v.

Definition ticks_lk : lens (traps E D) bool := Lens tickslock set_tickslock.
Definition irq_lk : lens (traps E D) bool := Lens irqHandlersLock set_irqlock.
Definition in_procs : lens (traps E D) (ptable E) := Lens procs set_procs.
Definition in_dev : lens (traps E D) D := Lens dev set_dev.

Definition trapinit : TK unit := kmod (fun s => set_irqlock false (set_tickslock false s)).

(** ** Registered handlers *)

Definition irq_register_handler (irq handler : Z) : TK Z :=
  if MAX_IRQS <=? irq then kret 0
  else
    acquire irq_lk ;;;
    kmod (fun s => set_irqHandlers (<[Z.to_nat irq := Some handler]> (irqHandlers s)) s) ;;;
    release irq_lk ;;;
    kret 1.

Definition get_registered_handler (irq : Z) : TK (option Z) :=
  if irq <? MAX_IRQS then
    acquire irq_lk ;;;
    let! s := kget in
    release irq_lk ;;;
    kret (mjoin (irqHandlers s !! Z.to_nat irq))
  else kret None.

(** ** The trap handler *)

(** [proc], which may be null. *)
Definition current : TK (option proc) :=
  let! s := kget in
  match cur (procs s) with
  | None => kret None
  | Some i => match ptab (procs s) !! i with Some p => kret (Some p) | None => fault end
  end.

(** [if (proc && proc->killed && ...) exit()] *)
Definition exit_if_killed (b : bool) : TK unit :=
  let! p := current in
  match p with
  | Some p => if (negb (killed p =? 0) && b)%bool then zoom in_procs exit else kret tt
  | None => kret tt
  end.

(** System calls run for a process: [proc] is not null. *)
Definition trap_syscall (t : trapframe) : TK unit :=
  let! p := current in
  match p with
  | None => fault
  | Some _ =>
      exit_if_killed true ;;;
      zoom in_procs (let! me := myproc in upd_proc me (set_tf (tf_rest t) (tf_rax t))) ;;;
      zoom in_procs syscall ;;;
      exit_if_killed true
  end.

(** [case T_IRQ0 + IRQ_TIMER:] with POLL_UART *)
Definition clock_tick : TK unit :=
  let! s := kget in
  (if cpu_id s =? 0 then
     acquire ticks_lk ;;;
     kmod (fun s => set_ticks (u32 (ticks s + 1)) s) ;;;
     wakeup ChTicks ;;;
     let! s := kget in
     (if ticks s mod 100 =? 0 then kret tt else zoom in_dev uartintr) ;;;
     release ticks_lk
   else kret tt) ;;;
  zoom in_dev lapiceoi.

Definition from_user (t : trapframe) : bool := Z.land (tf_cs t) 3 =? DPL_USER.

(** [default:] a registered handler, a mistake of the kernel, or one of a process. *)
Definition trap_default (t : trapframe) : TK unit :=
  let! h := get_registered_handler (u16 (trapno t)) in
  match h with
  | Some h => zoom in_dev (irqhandler h (u16 (trapno t))) ;;; zoom in_dev lapiceoi
  | None =>
      let! p := current in
      if (bool_decide (p = None) || (Z.land (tf_cs t) 3 =? 0))%bool then
        if trapno t =? T_PGFLT then panic "PAGE FAULT"
        else zoom in_dev (report (trapno t)) ;;; panic "trap"
      else
        zoom in_dev (report (trapno t)) ;;;
        zoom in_procs (let! me := myproc in upd_proc me (set_killed 1))
  end.

Definition dispatch (t : trapframe) : TK unit :=
  let n := trapno t in
  if n =? T_IRQ0 + IRQ_TIMER then clock_tick
  else if n =? T_IRQ0 + IRQ_IDE1 then zoom in_dev ideintr ;;; zoom in_dev lapiceoi
  else if n =? T_IRQ0 + IRQ_IDE2 then zoom in_dev ideintr ;;; zoom in_dev lapiceoi
  else if n =? T_IRQ0 + IRQ_KBD then zoom in_dev kbdintr ;;; zoom in_dev lapiceoi
  else if n =? T_IRQ0 + IRQ_COM1 then zoom in_dev uartintr ;;; zoom in_dev lapiceoi
  else if ((n =? T_IRQ0 + 7) || (n =? T_IRQ0 + IRQ_SPURIOUS))%bool then
    zoom in_dev (report n) ;;; zoom in_dev lapiceoi
  else if n =? T_IRQ0 + Intel8254xInterruptCode then zoom in_dev Intel8254xInterrupt ;;; zoom in_dev lapiceoi
  else trap_default t.

(** [yield] switches away; [trap_resume] is what the process does when it runs again. *)
Definition trap (t : trapframe) : TK unit :=
  if trapno t =? T_SYSCALL then trap_syscall t
  else
    dispatch t ;;;
    exit_if_killed (from_user t) ;;;
    let! p := current in
    (match p with
     | Some p =>
         if (is_state (state p) RUNNING && (trapno t =? T_IRQ0 + IRQ_TIMER))%bool
         then zoom in_procs yield else kret tt
     | None => kret tt
     end) ;;;
    exit_if_killed (from_user t).

Definition trap_resume (t : trapframe) : TK unit :=
  zoom in_procs (unlock_cli ptable_lock) ;;;
  exit_if_killed (from_user t).

(** ** Killed processes *)

Lemma exit_never : never (@exit E HE).
Proof.
  unfold exit. apply never_bind. intros s. case_match; [apply never_stop|]. apply never_bind. intros i. apply never_bind.
  intros _. unfold exit_tail. repeat (apply never_bind; intros ?). apply never_stop.
Qed.

(** The current process was not killed. *)
Definition alive s : Prop := forall i p, cur (procs s) = Some i -> ptab (procs s) !! i = Some p -> killed p = 0.

Lemma exit_if_killed_returns s tr s' : exit_if_killed true s = (tr, Ret tt s') -> alive s'.
Proof.
  unfold exit_if_killed. intros (p & s1 & t1 & t2 & H1 & H2 & _)%kbind_returns.
  assert (Hp : s1 = s /\ (cur (procs s) = None \/ exists i q, cur (procs s) = Some i /\ ptab (procs s) !! i = Some q /\ p = Some q)).
  { unfold current, kbind in H1. cbn [kget] in H1. destruct (cur (procs s)) as [i|]; [|injection H1 as _ <- <-; by auto].
    destruct (ptab (procs s) !! i) as [q|] eqn:Hq; [|done]. injection H1 as _ <- <-. split; [done|]. right. by exists i, q. }
  destruct Hp as [-> [Hc|(i & q & Hc & Hq & ->)]].
  - destruct p as [q|]; [|injection H2 as _ <-; intros i p Hi; congruence].
    destruct (negb (killed q =? 0) && true)%bool; [|injection H2 as _ <-; intros i p Hi; congruence].
    by apply (never_zoom in_procs _ exit_never) in H2.
  - rewrite andb_true_r in H2. destruct (Z.eqb_spec (killed q) 0) as [Hk|Hk]; cbn [negb] in H2.
    + injection H2 as _ <-. intros j p Hj Hp. congruence.
    + by apply (never_zoom in_procs _ exit_never) in H2.
Qed.

(** C25. No killed process goes back to user code: whatever the devices, the handlers and the
    system call do, when [trap] returns from a system call, an interrupt or an exception that
    came from user mode, or a process that gave up the processor in it runs again, then the
    current process has not been killed. *)
Theorem no_killed_return t s tr s' : from_user t = true \/ trapno t = T_SYSCALL ->
  trap t s = (tr, Ret tt s') \/ (from_user t = true /\ trap_resume t s = (tr, Ret tt s')) -> alive s'.
Proof.
  intros Hu [H|[Hf H]].
  - unfold trap in H. destruct (Z.eqb_spec (trapno t) T_SYSCALL) as [Hn|Hn].
    + unfold trap_syscall in H. apply kbind_returns in H as (p & s1 & t1 & t2 & _ & H & _). destruct p; [|done].
      do 3 (apply kbind_returns in H as ([] & ? & ? & ? & _ & H & _)). by apply exit_if_killed_returns in H.
    + assert (Hf : from_user t = true) by tauto. rewrite Hf in H.
      do 2 (apply kbind_returns in H as ([] & ? & ? & ? & _ & H & _)).
      apply kbind_returns in H as (p & ? & ? & ? & _ & H & _).
      apply kbind_returns in H as ([] & ? & ? & ? & _ & H & _). by apply exit_if_killed_returns in H.
  - unfold trap_resume in H. rewrite Hf in H.
    apply kbind_returns in H as ([] & ? & ? & ? & _ & H & _). by apply exit_if_killed_returns in H.
Qed.

(** ** Unexpected traps *)

(** No case of the switch, and no handler. *)
Definition unexpected (t : trapframe) s : Prop :=
  trapno t <> T_SYSCALL /\
  Forall (fun k => trapno t <> T_IRQ0 + k) [IRQ_TIMER; IRQ_IDE1; IRQ_IDE2; IRQ_KBD; IRQ_COM1; 7; IRQ_SPURIOUS; Intel8254xInterruptCode] /\
  (u16 (trapno t) < MAX_IRQS -> mjoin (irqHandlers s !! Z.to_nat (u16 (trapno t))) = None).

Lemma no_handler t s : unexpected t s -> irqHandlersLock s = false ->
  get_registered_handler (u16 (trapno t)) s = ([], Ret None s).
Proof.
  intros (_ & _ & Hh) Hl. unfold get_registered_handler. destruct (Z.ltb_spec (u16 (trapno t)) MAX_IRQS) as [Hlt|]; [|done].
  kstep_by ltac:(by apply acquire_run). kstep. kstep_by ltac:(by apply release_run).
  change (irqHandlers (lput irq_lk true s)) with (irqHandlers s). rewrite (Hh Hlt). destruct s. simpl in *. by subst.
Qed.

Lemma unexpected_dispatch t s : unexpected t s -> trapno t =? T_SYSCALL = false /\ dispatch t s = trap_default t s.
Proof.
  intros (H1 & H2 & _). split; [by apply Z.eqb_neq|].
  repeat (apply Forall_cons in H2 as [? H2]). unfold dispatch.
  by repeat (rewrite (proj2 (Z.eqb_neq _ _)) by done; cbn [orb]).
Qed.

(** A fault of user code ends in [exit], with the process marked as killed and nothing else
    changed; it does not stop the kernel. *)
Theorem user_fault_exits t s i p d' : unexpected t s -> from_user t = true ->
  cur (procs s) = Some i -> ptab (procs s) !! i = Some p -> irqHandlersLock s = false ->
  report (trapno t) (dev s) = ([], Ret tt d') ->
  trap t s = zoom in_procs exit (set_procs (set_ptab (<[i := set_killed 1 p]> (ptab (procs s))) (procs s)) (set_dev d' s)).
Proof.
  intros Hun Hf Hc Hp Hl Hr. destruct (unexpected_dispatch t s Hun) as [Hn Hd].
  assert (Hcur : forall s0, cur (procs s0) = Some i -> forall q, ptab (procs s0) !! i = Some q -> current s0 = ([], Ret (Some q) s0)).
  { intros s0 H0 q Hq. unfold current. kstep. by rewrite H0, Hq. }
  assert (Hcs : Z.land (tf_cs t) 3 =? 0 = false).
  { unfold from_user, DPL_USER in Hf. apply Z.eqb_eq in Hf. apply Z.eqb_neq. lia. }
  set (s1 := set_procs (set_ptab (<[i := set_killed 1 p]> (ptab (procs s))) (procs s)) (set_dev d' s)).
  assert (Hdef : trap_default t s = ([], Ret tt s1)).
  { unfold trap_default. kstep_by ltac:(by apply no_handler). cbn iota. kstep_by ltac:(by apply Hcur).
    rewrite bool_decide_eq_false_2, Hcs by done. cbn [orb].
    assert (Hk : (let! me := myproc in upd_proc me (set_killed 1)) (procs s) =
                 ([], Ret tt (set_ptab (<[i := set_killed 1 p]> (ptab (procs s))) (procs s)))).
    { kstep_by ltac:(by apply myproc_run). by apply upd_proc_run. }
    rewrite (kbind_pure _ _ _ tt (set_dev d' s)); [|unfold zoom; cbn [lget in_dev lput]; by rewrite Hr].
    unfold zoom. change (lget in_procs (set_dev d' s)) with (procs s). by rewrite Hk. }
  unfold trap. rewrite Hn. rewrite (kbind_pure _ _ _ tt s1) by (by rewrite Hd).
  assert (Hlt : (i < length (ptab (procs s)))%nat) by by apply lookup_lt_Some in Hp.
  assert (Hexit : exit_if_killed (from_user t) s1 = zoom in_procs exit s1).
  { unfold exit_if_killed. kstep_by ltac:(apply Hcur; [done|simpl; by apply list_lookup_insert_eq]).
    simpl killed. by rewrite Hf. }
  unfold kbind at 1. rewrite Hexit. destruct (zoom in_procs exit s1) as [t1 [a s2|]] eqn:Hz; [|done].
  by apply (never_zoom in_procs _ exit_never) in Hz.
Qed.

(** The same trap in the kernel, or with no process, is a panic. *)
Theorem kernel_fault_panics t s p d' : unexpected t s -> Z.land (tf_cs t) 3 = 0 ->
  current s = ([], Ret p s) -> irqHandlersLock s = false -> report (trapno t) (dev s) = ([], Ret tt d') ->
  exists msg s', trap t s = ([], Stop (Panicked msg) s').
Proof.
  intros Hun Hcs Hc Hl Hr. destruct (unexpected_dispatch t s Hun) as [Hn Hd].
  unfold trap. rewrite Hn. unfold kbind at 1. rewrite Hd. unfold trap_default. kstep_by ltac:(by apply no_handler).
  cbn iota. kstep_by ltac:(done). rewrite Hcs, orb_true_r. destruct (trapno t =? T_PGFLT); [by eexists _, _|].
  unfold kbind, zoom. cbn [lget in_dev lput]. rewrite Hr. by eexists _, _.
Qed.

(** ** Registered handlers *)

(** A handler that is registered is found again... *)
Theorem register_then_get irq handler s : 0 <= irq < MAX_IRQS -> irqHandlersLock s = false ->
  length (irqHandlers s) = Z.to_nat MAX_IRQS ->
  wp (let! r := irq_register_handler irq handler in
      let! h := get_registered_handler irq in kret (r, h)) s
     (fun rh s' _ => rh = (1, Some handler) /\ irqHandlersLock s' = false).
Proof.
  intros Hi Hl Hlen. unfold irq_register_handler, get_registered_handler.
  rewrite (proj2 (Z.leb_gt MAX_IRQS irq)), (proj2 (Z.ltb_lt irq MAX_IRQS)) by lia.
  do 2 wp_step. apply wp_acquire; [done|]. wp_steps. apply wp_release; [done|]. wp_steps.
  apply wp_acquire; [done|]. wp_steps. apply wp_release; [done|]. wp_steps. split; [|done]. simpl.
  rewrite list_lookup_insert_eq by (unfold MAX_IRQS in *; lia). done.
Qed.

(** ... but a device interrupt has a number from 32 on, for which none is ever found: the
    interrupt counts as unexpected, whatever was registered. *)
Theorem device_handler_ignored irq s :
  0 <= irq < 2 ^ 16 - T_IRQ0 -> get_registered_handler (T_IRQ0 + irq) s = ([], Ret None s).
Proof.
  intros Hi. unfold get_registered_handler. by rewrite (proj2 (Z.ltb_ge _ MAX_IRQS)) by (unfold T_IRQ0, MAX_IRQS in *; lia).
Qed.
End trap.

(** ** Interrupts of a small system *)

Module Demo.
#[local] Instance quiet : TrapDev unit := {|
  lapiceoi := kret tt;
  uartintr := kret tt;
  kbdintr := kret tt;
  ideintr := kret tt;
  Intel8254xInterrupt := kret tt;
  report _ := kret tt;
  irqhandler _ _ := kret tt;
|}.
#[local] Existing Instance roomy.

(** The family of [ProcLife], the child with a current directory. *)
Definition system : traps unit unit :=
  Traps false 41 false (replicate 32 None) 0
    (set_ptab [fam_init; set_cwd (Some 0%nat) fam_child; fam_zombie; zero_proc] (family 0 false)) tt.
(** A key, in user mode; a division by zero. *)
Definition key : trapframe := Trapframe 33 35 [] 0.
Definition divide : trapframe := Trapframe 0 35 [] 0.

Lemma no_killed_return_witness : alive system.
Proof.
  apply (no_killed_return (kret tt) key system [] system).
  - left. reflexivity.
  - left. vm_compute. reflexivity.
Defined.

(** The division by zero of the process with pid 2 leaves a zombie; its zombie child goes to init,
    which is woken, as the parent is. *)
Example divide_exits :
  match trap (kret tt) divide system with
  | (_, Stop Switched s) => (fun p => (state p, killed p, pid p)) <$> ptab (procs s)
  | _ => []
  end = [(RUNNABLE, 0, 1); (ZOMBIE, 1, 2); (ZOMBIE, 0, 3); (UNUSED, 0, 0)].
Proof. vm_compute. reflexivity. Qed.
End Demo.
