(* ===== verification/ArrayList.v ===== *)
(** * Array lists: include/UArrayList.tcc

    [ArrayList<Tp, MaxNm>]: an array of [MaxNm] elements of which the first [CurrentSize] are in
    use, with the algorithms the network code runs over iterators.  An iterator is an index;
    reading or writing outside the array is a fault.

    [find_if], [push_back] and [erase] do what their names say.  [partition] steps over the first
    element that fails the predicate instead of filling its place, and [qsort] recurses on a
    range that is never empty: it does not return ([qsort_diverges]). *)

From stdpp Require Import base list.
From Stdlib Require Import Lia.
From S2P Require Import Prelude.
Open Scope nat_scope.

Section array_list.
Context {A : Type}.

Record alist := AList { elems : list A; csize : nat }.

(** The elements in use. *)
Definition live (a : alist) : list A := take (csize a) (elems a).
Definition al_ok (max : nat) (a : alist) : Prop := length (elems a) = max /\ csize a <= max.

Definition push_back {S} (x : A) (a : alist) : K S alist :=
  if decide (csize a < length (elems a)) then kret (AList (<[csize a := x]> (elems a)) (csize a + 1))
  else fault.

(** [for (; position != end(); ++position) *position = *(position + 1);] for [n] positions. *)
Fixpoint shift_down (pos n : nat) (l : list A) : list A :=
  match n with
  | O => l
  | S n' => shift_down (pos + 1) n' (match l !! (pos + 1) with Some x => <[pos := x]> l | None => l end)
  end.
(** [erase(position)]; [v] is [value_type()]. *)
Definition erase (v : A) (pos : nat) (a : alist) : alist :=
  let n := csize a - 1 in
  AList (<[n := v]> (shift_down pos (n - pos) (elems a))) n.

(** [resize]: the elements given up are reset to [v]. *)
Definition resize (v : A) (n : nat) (a : alist) : alist :=
  AList (if decide (n < csize a) then take n (elems a) ++ replicate (csize a - n) v ++ drop (csize a) (elems a)
         else elems a) n.

(** [find_if(First, Last, Pr)] over [l]: the first index from [i] on that satisfies [p], or [last]. *)
Fixpoint find_if {S} (p : A -> bool) (l : list A) (fuel i last : nat) : K S nat :=
  if decide (i = last) then kret i
  else
    match l !! i with
    | None => fault
    | Some x => if p x then kret i
                else match fuel with O => kstop NoFuel | S f => find_if p l f (i + 1) last end
    end.

Definition find_if_not {S} (p : A -> bool) (l : list A) (fuel i last : nat) : K S nat :=
  find_if (fun x => negb (p x)) l fuel i last.

(** The loop of [partition]: [i] runs to [last], [first] is where the next element goes. *)
Fixpoint partition_loop {S} (p : A -> bool) (l : list A) (n i first : nat) : K S (nat * list A) :=
  match n with
  | O => kret (first, l)
  | S n' =>
      match l !! i, l !! first with
      | Some x, Some y =>
          if p x then partition_loop p (<[first := x]> (<[i := y]> l)) n' (i + 1) (first + 1)
          else partition_loop p l n' (i + 1) first
      | _, _ => fault
      end
  end.
Definition partition {S} (p : A -> bool) (l : list A) (first last : nat) : K S (nat * list A) :=
  let! first := find_if_not p l (last - first) first last in
  if decide (first = last) then kret (first, l)
  else
    let first := first + 1 in      (* auto i = ++First *)
    partition_loop p l (last - first) first first.

(** [depth] calls fit on the stack. *)
Fixpoint qsort {S} (depth : nat) (lt : A -> A -> bool) (l : list A) (first last : nat) : K S (list A) :=
  if decide (first = last) then kret l
  else
    match l !! (first + (last - first) / 2) with
    | None => fault
    | Some pivot =>
        let! r1 := partition (fun x => lt x pivot) l first last in
        let '(mid1, l) := r1 in
        let! r2 := partition (fun x => negb (lt pivot x)) l mid1 last in
        let '(mid2, l) := r2 in
        match depth with
        | O => kstop NoFuel
        | S d => let! l := qsort d lt l first mid1 in qsort d lt l mid2 last
        end
    end.

(** ** The list operations *)

Lemma live_length max a : al_ok max a -> length (live a) = csize a.
Proof. intros [H1 H2]. unfold live. rewrite length_take. lia. Qed.

Lemma live_lookup a i : i < csize a -> live a !! i = elems a !! i.
Proof. intros Hi. unfold live. by rewrite lookup_take_lt. Qed.

Lemma push_back_run {S} max a x (s : S) : al_ok max a -> csize a < max ->
  exists a', push_back x a s = ([], Ret a' s) /\ al_ok max a' /\ live a' = live a ++ [x].
Proof.
  intros [H1 H2] Hlt. unfold push_back. rewrite decide_True by lia.
  eexists. split; [reflexivity|]. split; [split; simpl; [by rewrite length_insert|lia]|].
  unfold live. simpl. rewrite Nat.add_1_r. rewrite (take_S_r _ _ x) by (apply list_lookup_insert_eq; lia).
  by rewrite take_insert_ge.
Qed.

(** A full array: the element would be written past its end. *)
Lemma push_back_full {S} max a x (s : S) : al_ok max a -> csize a = max -> push_back x a s = ([], Stop Faulted s).
Proof. intros [H1 _] H. unfold push_back. by rewrite decide_False by lia. Qed.

Lemma shift_down_lookup n pos l i : pos + n < length l ->
  shift_down pos n l !! i = (if decide (pos <= i < pos + n) then l !! (i + 1) else l !! i).
Proof.
  revert pos l. induction n as [|n IH]; intros pos l Hl; cbn [shift_down].
  { rewrite decide_False by lia. done. }
  destruct (l !! (pos + 1)) as [x|] eqn:Ex; [|apply lookup_ge_None in Ex; lia].
  rewrite IH by (rewrite length_insert; lia). destruct (decide (pos + 1 <= i < pos + 1 + n)) as [Hi|Hi].
  - rewrite decide_True by lia. rewrite list_lookup_insert_ne by lia. done.
  - destruct (decide (i = pos)) as [->|Hne].
    + rewrite list_lookup_insert_eq by lia. rewrite decide_True by lia. done.
    + rewrite list_lookup_insert_ne by done. by rewrite decide_False by lia.
Qed.

Lemma length_shift_down n pos l : length (shift_down pos n l) = length l.
Proof.
  revert pos l. induction n as [|n IH]; intros pos l; cbn [shift_down]; [done|]. rewrite IH.
  case_match; by rewrite ?length_insert.
Qed.

(** [erase] takes one element out. *)
Lemma erase_live max v pos a : al_ok max a -> pos < csize a ->
  al_ok max (erase v pos a) /\ live (erase v pos a) = delete pos (live a).
Proof.
  intros [H1 H2] Hp. unfold erase. split; [split; simpl; [by rewrite length_insert, length_shift_down|lia]|].
  unfold live at 1. simpl. rewrite take_insert_ge by lia. apply list_eq. intros i.
  destruct (decide (i < csize a - 1)) as [Hi|Hi].
  - rewrite lookup_take_lt by lia. rewrite shift_down_lookup by lia.
    destruct (decide (i < pos)) as [Hip|Hip].
    + rewrite decide_False by lia. rewrite list_lookup_delete_lt by lia. by rewrite live_lookup by lia.
    + rewrite decide_True by lia. rewrite list_lookup_delete_ge by lia. rewrite live_lookup by lia.
      by replace (S i) with (i + 1) by lia.
  - rewrite lookup_take_ge by lia. symmetry. apply lookup_ge_None. rewrite length_delete.
    + rewrite (live_length max) by (by split). lia.
    + rewrite live_lookup by lia. apply lookup_lt_is_Some. lia.
Qed.

(** [find_if] over the elements in use. *)
Lemma find_if_run {S} p l fuel i last (s : S) : last <= length l -> i <= last -> last - i <= fuel ->
  exists k, find_if p l fuel i last s = ([], Ret k s) /\ i <= k <= last /\
    (forall j x, i <= j < k -> l !! j = Some x -> p x = false) /\
    (k < last -> exists x, l !! k = Some x /\ p x = true).
Proof.
  intros Hl. revert i. induction fuel as [|fuel IH]; intros i Hi Hf; cbn [find_if].
  - replace i with last by lia. rewrite decide_True by done. exists last. split_and!; [done|lia|lia|lia..].
  - destruct (decide (i = last)) as [->|Hne]; [exists last; split_and!; [done|lia|lia|lia..]|].
    destruct (lookup_lt_is_Some_2 l i) as [x Hx]; [lia|]. rewrite Hx. destruct (p x) eqn:Hp.
    + exists i. split_and!; [done|lia|lia|lia|]. intros _. by exists x.
    + destruct (IH (i + 1)) as (k & Hk & Hr & Hno & Hyes); [lia|lia|]. exists k. split_and!; [done|lia|lia| |done].
      intros j y Hj Hy. destruct (decide (j = i)) as [->|]; [congruence|]. apply (Hno j); [lia|done].
Qed.

Lemma partition_loop_run {S} p n l i first (s : S) : first <= i -> i + n <= length l ->
  exists k l', partition_loop p l n i first s = ([], Ret (k, l') s) /\ first <= k <= first + n /\ length l' = length l.
Proof.
  revert l i first. induction n as [|n IH]; intros l i first Hfi Hl; cbn [partition_loop].
  { exists first, l. split_and!; [done|lia|lia|done]. }
  destruct (lookup_lt_is_Some_2 l i) as [x Hx]; [lia|]. destruct (lookup_lt_is_Some_2 l first) as [y Hy]; [lia|].
  rewrite Hx, Hy. destruct (p x).
  - destruct (IH (<[first := x]> (<[i := y]> l)) (i + 1) (first + 1)) as (k & l' & -> & Hk & Hl'); [lia|by rewrite !length_insert; lia|].
    exists k, l'. rewrite !length_insert in Hl'. split_and!; [done|lia|lia|done].
  - destruct (IH l (i + 1) first) as (k & l' & -> & Hk & Hl'); [lia|lia|]. exists k, l'. split_and!; [done|lia|lia|done].
Qed.

(** The place [partition] returns is past an element that fails the predicate, if there is one. *)
Lemma partition_run {S} p l first last (s : S) : first <= last <= length l ->
  exists k l', partition p l first last s = ([], Ret (k, l') s) /\ first <= k <= last /\ length l' = length l /\
    ((exists i x, first <= i < last /\ l !! i = Some x /\ p x = false) -> first < k).
Proof.
  intros [Hfl Hl]. unfold partition, find_if_not.
  destruct (find_if_run (fun x => negb (p x)) l (last - first) first last s) as (f & Hf & Hr & Hno & Hyes); [lia..|].
  erewrite kbind_pure by exact Hf. destruct (decide (f = last)) as [->|Hne].
  - exists last, l. split_and!; [done|lia|lia|done|]. intros (i & x & Hi & _). lia.
  - destruct (partition_loop_run p (last - (f + 1)) l (f + 1) (f + 1) s) as (k & l' & -> & Hk & Hl'); [lia..|].
    exists k, l'. split_and!; [done|lia|lia|done|]. intros _. lia.
Qed.

(** [qsort] on a range that is not empty does not return, however deep the stack: an element is
    not smaller than itself, so the first part always contains it. *)
Lemma qsort_diverges {S} depth lt l first last (s : S) : (forall x, lt x x = false) ->
  first < last <= length l -> qsort depth lt l first last s = ([], Stop NoFuel s).
Proof.
  intros Hirr. revert l first last. induction depth as [|depth IH]; intros l first last Hr; cbn [qsort];
    (rewrite decide_False by lia).
  all: assert (Hmid : first <= first + (last - first) / 2 < last)
    by (pose proof (Nat.div_lt (last - first) 2 ltac:(lia) ltac:(lia)); lia).
  all: destruct (lookup_lt_is_Some_2 l (first + (last - first) / 2)) as [pivot Hp]; [lia|]; rewrite Hp.
  all: destruct (partition_run (fun x => lt x pivot) l first last s) as (m1 & l1 & H1 & Hm1 & Hl1 & Hgt); [lia|].
  all: erewrite kbind_pure by exact H1.
  all: destruct (partition_run (fun x => negb (lt pivot x)) l1 m1 last s) as (m2 & l2 & H2 & Hm2 & Hl2 & _); [lia|].
  all: erewrite kbind_pure by exact H2.
  { done. }
  apply kbind_stop, IH. split; [|lia]. apply Hgt. exists (first + (last - first) / 2), pivot. auto.
Qed.
End array_list.
Arguments alist A : clear implicits.
