(* ===== verification/Frame.v ===== *)
(** * Ethernet frames: kernel/UEtherFrame.cc, include/UEtherFrame.hh

    A frame is an array of [MaxFrameSize] bytes and the number of them in use.  The protocols
    read and write it through fields: [GetDataAs] and [SetDataFrom] take an integer from, or put
    it at, an offset of the payload, most significant byte first when [Reverse] is set.

    Fields are read and written inside the array wherever a header may be ([field_in_array]), so
    they are total functions here; a block of data ([SetData], [GetData]) may reach beyond the
    array, and is [None] then. *)

From stdpp Require Import base list.
From Stdlib Require Import ZArith Lia.
From S2P Require Import Prelude CString Bytes.
Open Scope Z_scope.

Definition HeaderSize : Z := 14.
Definition MinDataSize : Z := 46.
Definition MinFrameSize : Z := 64.
Definition MaxFrameSize : Z := 1518.
Definition Payload : nat := 14.

Record frame := Frame { Data : list Z; FrameSize : Z }.

(** What a page just allocated holds. *)
Class Fresh := { junk : nat -> Z; junk_byte : forall i, 0 <= junk i < 256 }.

Definition DataSize (f : frame) : Z := FrameSize f - HeaderSize.

(** The size after a write that ends at [e]. *)
Definition grow (e s : Z) : Z :=
  let s := if s <? e then e else s in
  if s <? MinFrameSize then MinFrameSize else s.

(** [src] written at position [p] of the array. *)
Definition put (p : nat) (src : list Z) (f : frame) : frame :=
  Frame (splice (Data f) p src) (grow (Z.of_nat (p + length src)) (FrameSize f)).

Definition SetData (src : list Z) (Start : Z) (f : frame) : option frame :=
  let p := 14 + Start in
  let n := Z.of_nat (length src) in
  if ((n =? 0) || ((0 <=? p) && (p + n <=? MaxFrameSize)))%bool then Some (put (Z.to_nat p) src f) else None.

Definition GetData (Start Size : Z) (f : frame) : option (list Z) :=
  let p := 14 + Start in
  if Size <=? 0 then Some []
  else if ((0 <=? p) && (p + Size <=? MaxFrameSize))%bool then Some (slice (Data f) (Z.to_nat p) (Z.to_nat Size))
  else None.

(** The bytes of an [n]-byte integer, as the union and the swaps of [SetDataFrom] order them. *)
Definition enc (n : nat) (Reverse : bool) (v : Z) : list Z :=
  if Reverse then rev (le_bytes n v) else le_bytes n v.
Definition dec (Reverse : bool) (l : list Z) : Z := le_int (if Reverse then rev l else l).

(** The integer at position [p] of the array, and storing one there. *)
Definition get_at (n : nat) (Reverse : bool) (p : nat) (f : frame) : Z := dec Reverse (slice (Data f) p n).
Definition set_at (n : nat) (Reverse : bool) (p : nat) (v : Z) (f : frame) : frame := put p (enc n Reverse v) f.

Definition SetDataFrom (n : nat) (v : Z) (Start : nat) (Reverse : bool) (f : frame) : frame :=
  set_at n Reverse (Payload + Start) v f.
Definition GetDataAs (n : nat) (Start : nat) (Reverse : bool) (f : frame) : Z :=
  get_at n Reverse (Payload + Start) f.

(** Bytes of the Ethernet header are stored without touching the size. *)
Definition put_header (p : nat) (src : list Z) (f : frame) : frame := Frame (splice (Data f) p src) (FrameSize f).
Definition get_bytes (p n : nat) (f : frame) : list Z := slice (Data f) p n.

Definition SetEtherType (Type_ : Z) (f : frame) : frame := put_header 12 (enc 2 true Type_) f.
Definition GetEtherType (f : frame) : Z := get_at 2 true 12 f.
Definition SetDestination (mac : list Z) (f : frame) : frame := put_header 0 (take 6 mac) f.
Definition SetSource (mac : list Z) (f : frame) : frame := put_header 6 (take 6 mac) f.
Definition GetDestination (f : frame) : list Z := get_bytes 0 6 f.
Definition GetSource (f : frame) : list Z := get_bytes 6 6 f.

Definition BroadcastAddr : list Z := replicate 6 255.
Definition IsBroadcast (f : frame) : bool := bool_decide (GetDestination f = BroadcastAddr).
Definition Broadcast (f : frame) : frame := SetDestination BroadcastAddr f.

(** [for (int i = a; i < b; ++i) Data[i] = 0;] *)
Definition zero_range (a b : Z) (f : frame) : option frame :=
  if b <=? a then Some f
  else if ((0 <=? a) && (b <=? MaxFrameSize))%bool
  then Some (Frame (splice (Data f) (Z.to_nat a) (replicate (Z.to_nat (b - a)) 0)) (FrameSize f))
  else None.
Definition shrink (n : Z) (f : frame) : frame :=
  Frame (Data f) (if FrameSize f - n <? MinFrameSize then MinFrameSize else FrameSize f - n).

Definition InsertData (src : list Z) (Start : Z) (f : frame) : option frame :=
  let n := Z.of_nat (length src) in
  let rest := FrameSize f - Start in
  GetData Start rest f ≫= fun Buffer =>
  SetData Buffer (Start + n) f ≫= SetData src Start.

Definition EraseData (Start Size : Z) (f : frame) : option frame :=
  if Start + Size =? FrameSize f then shrink Size <$> zero_range Start Size f
  else
    let n := FrameSize f - Start + Size in
    GetData (Start + Size) n f ≫= fun Buffer =>
    SetData Buffer Start f ≫= fun f =>
    shrink Size <$> zero_range (Start + Size) (FrameSize f) f.

Definition Resize (NewSize : Z) (f : frame) : option frame :=
  if FrameSize f <? NewSize then Some (Frame (Data f) NewSize)
  else EraseData NewSize (FrameSize f - NewSize) f.

Section fresh.
Context `{Fresh}.

(** [ClearData] zeroes the payload; the size given is [MinDataSize]. *)
Definition EthernetFrame : frame :=
  Frame (map junk (seq 0 14) ++ replicate 1504 0) MinDataSize.

(** A frame that came from the adapter: [Size] bytes of [bs]. *)
Definition FromDevice (bs : list Z) (Size : Z) : option frame :=
  if ((0 <=? Size) && (Size <=? MaxFrameSize))%bool
  then Some (Frame (take (Z.to_nat Size) bs ++ map junk (seq (Z.to_nat Size) (1518 - Z.to_nat Size)))
                   (if MinFrameSize <=? Size then Size else MinFrameSize))
  else None.

(** [CopyTo]: the bytes in use. *)
Definition CopyTo (dst src : frame) : frame :=
  Frame (splice (Data dst) 0 (take (Z.to_nat (FrameSize src)) (Data src))) (FrameSize src).
Definition Clear (f : frame) : frame := EthernetFrame.
End fresh.

(** ** The shape of a frame *)

Record frame_ok (f : frame) : Prop := {
  fo_length : length (Data f) = 1518%nat;
  fo_bytes : bytes (Data f);
  fo_size : MinDataSize <= FrameSize f <= MaxFrameSize;
}.

Lemma enc_length n r v : length (enc n r v) = n.
Proof. unfold enc. destruct r; by rewrite ?length_rev, length_le_bytes. Qed.
Lemma enc_bytes n r v : bytes (enc n r v).
Proof. unfold enc. destruct r; [apply Forall_rev|]; apply le_bytes_range. Qed.
Lemma dec_enc n r v : dec r (enc n r v) = v mod 256 ^ Z.of_nat n.
Proof. unfold dec, enc. destruct r; rewrite ?rev_involutive; apply le_int_bytes. Qed.
Lemma dec_range r l : bytes l -> 0 <= dec r l < 256 ^ Z.of_nat (length l).
Proof.
  intros Hb. unfold dec. destruct r; [|by apply le_int_range].
  rewrite <-(length_rev l). apply le_int_range. by apply Forall_rev.
Qed.
Lemma enc_dec r l : bytes l -> enc (length l) r (dec r l) = l.
Proof.
  intros Hb. unfold enc, dec. destruct r; [|by apply le_bytes_int].
  rewrite <-(length_rev l) at 1. rewrite le_bytes_int by (by apply Forall_rev). apply rev_involutive.
Qed.

(** A header ends before byte 14 + 60 + 60 of the frame. *)
Lemma field_in_array ihl doff k n : (ihl <= 15)%nat -> (doff <= 15)%nat -> (k + n <= 1384)%nat ->
  (Payload + 4 * ihl + 4 * doff + k + n <= 1518)%nat.
Proof. unfold Payload. lia. Qed.

Lemma grow_bounds e s : e <= MaxFrameSize -> s <= MaxFrameSize -> MinFrameSize <= grow e s <= MaxFrameSize.
Proof. unfold grow, MinFrameSize, MaxFrameSize. intros. destruct (s <? e); case_match; lia. Qed.
Lemma grow_small e s : e <= s -> MinFrameSize <= s -> grow e s = s.
Proof. unfold grow. intros. rewrite (proj2 (Z.ltb_ge s e)), (proj2 (Z.ltb_ge _ _)) by lia. done. Qed.

Lemma put_ok p src f : frame_ok f -> bytes src -> (p + length src <= 1518)%nat -> frame_ok (put p src f).
Proof.
  intros [Hl Hb Hs] Hsrc Hp. split; cbn [Data FrameSize put].
  - by rewrite length_splice by lia.
  - by apply bytes_splice.
  - pose proof (grow_bounds (Z.of_nat (p + length src)) (FrameSize f)). unfold MinFrameSize, MaxFrameSize, MinDataSize in *. lia.
Qed.

Lemma set_at_ok n r p v f : frame_ok f -> (p + n <= 1518)%nat -> frame_ok (set_at n r p v f).
Proof. intros. apply put_ok; [done|apply enc_bytes|]. by rewrite enc_length. Qed.

Lemma get_at_range n r p f : frame_ok f -> (p + n <= 1518)%nat -> 0 <= get_at n r p f < 256 ^ Z.of_nat n.
Proof.
  intros [Hl Hb _] Hp. unfold get_at. pose proof (dec_range r (slice (Data f) p n)) as Hr.
  rewrite length_slice in Hr by lia. apply Hr. by apply Forall_take, Forall_drop.
Qed.

(** A field read back. *)
Lemma get_set_same n r p v f : length (Data f) = 1518%nat -> (p + n <= 1518)%nat ->
  get_at n r p (set_at n r p v f) = v mod 256 ^ Z.of_nat n.
Proof.
  intros Hl Hp. unfold get_at, set_at, put. cbn [Data].
  replace (slice (splice (Data f) p (enc n r v)) p n) with (enc n r v); [apply dec_enc|].
  rewrite <-(enc_length n r v) at 3. symmetry. apply slice_splice_same. rewrite enc_length. lia.
Qed.

(** Storing what is there. *)
Lemma set_get_id n r p f : frame_ok f -> (p + n <= 1518)%nat -> Data (set_at n r p (get_at n r p f) f) = Data f.
Proof.
  intros [Hl Hb _] Hp. unfold set_at, get_at, put. cbn [Data].
  assert (Hln : length (slice (Data f) p n) = n) by (apply length_slice; lia).
  pose proof (enc_dec r (slice (Data f) p n)) as He. rewrite Hln in He. rewrite He by (by apply Forall_take, Forall_drop).
  unfold splice. rewrite Hln. unfold slice. rewrite <-drop_drop, take_drop. apply take_drop.
Qed.

(** A field elsewhere. *)
Lemma get_put_at n r p q src f : length (Data f) = 1518%nat -> (q + length src <= 1518)%nat ->
  (p + n <= q \/ q + length src <= p)%nat -> get_at n r p (put q src f) = get_at n r p f.
Proof. intros Hl Hq Hd. unfold get_at, put. cbn [Data]. by rewrite slice_splice_other by (try lia; done). Qed.

Lemma get_set_other n r p m r' q v f : length (Data f) = 1518%nat -> (q + m <= 1518)%nat ->
  (p + n <= q \/ q + m <= p)%nat -> get_at n r p (set_at m r' q v f) = get_at n r p f.
Proof. intros. apply get_put_at; by rewrite ?enc_length. Qed.

Lemma length_put p src f : length (Data f) = 1518%nat -> (p + length src <= 1518)%nat ->
  length (Data (put p src f)) = 1518%nat.
Proof. intros. cbn [Data put]. by rewrite length_splice by lia. Qed.
Lemma length_set_at n r p v f : length (Data f) = 1518%nat -> (p + n <= 1518)%nat ->
  length (Data (set_at n r p v f)) = 1518%nat.
Proof. intros. apply length_put; by rewrite ?enc_length. Qed.
Lemma size_set_at n r p v f : FrameSize (set_at n r p v f) = grow (Z.of_nat (p + n)) (FrameSize f).
Proof. unfold set_at, put. cbn [FrameSize]. by rewrite enc_length. Qed.

(** [SetDataFrom] is [SetData] of the bytes. *)
Lemma SetDataFrom_SetData n v Start r f : (Payload + Start + n <= 1518)%nat ->
  SetData (enc n r v) (Z.of_nat Start) f = Some (SetDataFrom n v Start r f).
Proof.
  unfold Payload. intros Hn. unfold SetData, SetDataFrom, set_at, Payload. rewrite enc_length.
  replace (Z.to_nat (14 + Z.of_nat Start)) with (14 + Start)%nat by lia.
  rewrite (proj2 (Z.leb_le 0 _)), (proj2 (Z.leb_le _ MaxFrameSize)) by (unfold MaxFrameSize; lia). by rewrite orb_true_r.
Qed.

Lemma SetData_in src Start f : 0 <= Start -> 14 + Start + Z.of_nat (length src) <= MaxFrameSize ->
  SetData src Start f = Some (put (Z.to_nat (14 + Start)) src f).
Proof.
  intros H1 H2. unfold SetData. rewrite (proj2 (Z.leb_le 0 _)), (proj2 (Z.leb_le _ MaxFrameSize)) by lia.
  by rewrite orb_true_r.
Qed.

(** A block of data read back. *)
Lemma GetData_SetData src Start f f' : length (Data f) = 1518%nat -> 0 <= Start -> SetData src Start f = Some f' ->
  GetData Start (Z.of_nat (length src)) f' = Some src.
Proof.
  intros Hl H0 H. unfold GetData. destruct (Z.leb_spec (Z.of_nat (length src)) 0) as [Hz|Hz].
  { destruct src; [done|simpl in Hz; lia]. }
  unfold SetData in H. rewrite (proj2 (Z.eqb_neq _ 0)) in H by lia. cbn [orb] in H.
  destruct ((0 <=? 14 + Start) && _)%bool eqn:E; [|done]. injection H as <-.
  apply andb_true_iff in E as [_ E2%Z.leb_le]. unfold MaxFrameSize in *. cbn [Data put].
  rewrite Nat2Z.id, slice_splice_same by lia. done.
Qed.

(** ** Bytes, and the Ethernet header *)

Lemma put_header_ok p src f : frame_ok f -> bytes src -> (p + length src <= 1518)%nat -> frame_ok (put_header p src f).
Proof.
  intros [Hl Hb Hs] Hsrc Hp. split; cbn [Data FrameSize put_header]; [by rewrite length_splice by lia|by apply bytes_splice|done].
Qed.
Lemma length_put_header p src f : length (Data f) = 1518%nat -> (p + length src <= 1518)%nat ->
  length (Data (put_header p src f)) = 1518%nat.
Proof. intros. cbn [Data put_header]. by rewrite length_splice by lia. Qed.
Lemma get_put_header n r p q src f : length (Data f) = 1518%nat -> (q + length src <= 1518)%nat ->
  (p + n <= q \/ q + length src <= p)%nat -> get_at n r p (put_header q src f) = get_at n r p f.
Proof. intros Hl Hq Hd. unfold get_at, put_header. cbn [Data]. by rewrite slice_splice_other by (try lia; done). Qed.
Lemma get_header_same n r p v f : length (Data f) = 1518%nat -> (p + n <= 1518)%nat ->
  get_at n r p (put_header p (enc n r v) f) = v mod 256 ^ Z.of_nat n.
Proof. intros Hl Hp. apply (get_set_same n r p v f Hl Hp). Qed.

Lemma bytes_same p src f : length (Data f) = 1518%nat -> (p + length src <= 1518)%nat ->
  get_bytes p (length src) (put p src f) = src.
Proof. intros Hl Hp. unfold get_bytes. cbn [Data put]. apply slice_splice_same. lia. Qed.
Lemma bytes_put p n q src f : length (Data f) = 1518%nat -> (q + length src <= 1518)%nat ->
  (p + n <= q \/ q + length src <= p)%nat -> get_bytes p n (put q src f) = get_bytes p n f.
Proof. intros Hl Hq Hd. unfold get_bytes. cbn [Data put]. by rewrite slice_splice_other by (try lia; done). Qed.
Lemma bytes_set_at p n m r q v f : length (Data f) = 1518%nat -> (q + m <= 1518)%nat ->
  (p + n <= q \/ q + m <= p)%nat -> get_bytes p n (set_at m r q v f) = get_bytes p n f.
Proof. intros. apply bytes_put; by rewrite ?enc_length. Qed.
Lemma bytes_header_same p src f : length (Data f) = 1518%nat -> (p + length src <= 1518)%nat ->
  get_bytes p (length src) (put_header p src f) = src.
Proof. intros Hl Hp. unfold get_bytes. cbn [Data put_header]. apply slice_splice_same. lia. Qed.
Lemma bytes_put_header p n q src f : length (Data f) = 1518%nat -> (q + length src <= 1518)%nat ->
  (p + n <= q \/ q + length src <= p)%nat -> get_bytes p n (put_header q src f) = get_bytes p n f.
Proof. intros Hl Hq Hd. unfold get_bytes. cbn [Data put_header]. by rewrite slice_splice_other by (try lia; done). Qed.
Lemma get_bytes_length p n f : length (Data f) = 1518%nat -> (p + n <= 1518)%nat -> length (get_bytes p n f) = n.
Proof. intros. apply length_slice. lia. Qed.
Lemma get_bytes_bytes p n f : frame_ok f -> bytes (get_bytes p n f).
Proof. intros [_ Hb _]. by apply Forall_take, Forall_drop. Qed.

Lemma EthernetFrame_ok `{Fresh} : frame_ok EthernetFrame.
Proof.
  split; cbn [Data FrameSize EthernetFrame].
  - by rewrite length_app, length_map, length_seq, length_replicate.
  - apply Forall_app. split; [|by apply Forall_replicate]. apply Forall_map, Forall_forall. intros i _. apply junk_byte.
  - unfold MinDataSize, MaxFrameSize. lia.
Qed.

(** The shape, decided. *)
Lemma checked_ok f : ((length (Data f) =? 1518)%nat && forallb (fun z => (0 <=? z) && (z <? 256)) (Data f) &&
  (MinDataSize <=? FrameSize f) && (FrameSize f <=? MaxFrameSize))%bool = true -> frame_ok f.
Proof.
  intros [[[H1%Nat.eqb_eq H2]%andb_true_iff H3%Z.leb_le]%andb_true_iff H4%Z.leb_le]%andb_true_iff.
  split; [done| |done]. apply Forall_forall. intros z Hz%list_elem_of_In. rewrite forallb_forall in H2. specialize (H2 z Hz).
  apply andb_true_iff in H2 as [E1%Z.leb_le E2%Z.ltb_lt]. lia.
Qed.

(** ** Automation: fields of a frame after stores elsewhere in it *)

Create HintDb frames.
Create HintDb offsets.
#[export] Hint Resolve fo_length set_at_ok put_ok put_header_ok enc_bytes EthernetFrame_ok get_bytes_bytes : frames.
#[export] Hint Unfold Payload : offsets.

(** Arithmetic on positions: the offsets are numbers, and blocks have the lengths known. *)
Ltac offset_lia :=
  autounfold with offsets; rewrite ?enc_length, ?length_take;
  repeat match goal with H : length _ = _ |- _ => rewrite H end; lia.
Ltac frame_length :=
  lazymatch goal with
  | |- length (Data (set_at _ _ _ _ _)) = _ => apply length_set_at; [frame_length|offset_lia]
  | |- length (Data (put _ _ _)) = _ => apply length_put; [frame_length|offset_lia]
  | |- length (Data (put_header _ _ _)) = _ => apply length_put_header; [frame_length|offset_lia]
  | H : frame_ok ?f |- length (Data ?f) = _ => apply (fo_length f H)
  | |- _ => first [assumption | by eauto with frames]
  end.
Ltac frame_field :=
  first [rewrite get_set_same; [|frame_length|offset_lia]
        |rewrite get_header_same; [|frame_length|offset_lia]
        |rewrite get_set_other; [|frame_length|offset_lia|offset_lia]
        |rewrite get_put_at; [|frame_length|offset_lia|offset_lia]
        |rewrite get_put_header; [|frame_length|offset_lia|offset_lia]
        |rewrite bytes_set_at; [|frame_length|offset_lia|offset_lia]
        |rewrite bytes_put; [|frame_length|offset_lia|offset_lia]
        |rewrite bytes_put_header; [|frame_length|offset_lia|offset_lia]].
Ltac frame_fields := repeat frame_field.

(** ** Frames keep their shape *)

(** The operations of [EthernetFrame], with their arguments. *)
Inductive fop :=
| OSetData (src : list Z) (Start : Z) | OStore (n : nat) (v : Z) (Start : nat) (Reverse : bool)
| OInsert (src : list Z) (Start : Z) | OErase (Start Size : Z) | OResize (NewSize : Z)
| OEtherType (v : Z) | ODestination (mac : list Z) | OSource (mac : list Z) | OBroadcast | OCopyTo (src : frame).
Definition fstep (op : fop) (f : frame) : option frame :=
  match op with
  | OSetData src Start => SetData src Start f
  | OStore n v Start r => Some (SetDataFrom n v Start r f)
  | OInsert src Start => InsertData src Start f
  | OErase Start Size => EraseData Start Size f
  | OResize n => Resize n f
  | OEtherType v => Some (SetEtherType v f)
  | ODestination mac => Some (SetDestination mac f)
  | OSource mac => Some (SetSource mac f)
  | OBroadcast => Some (Broadcast f)
  | OCopyTo src => Some (CopyTo f src)
  end.
Definition frun (ops : list fop) (f : frame) : option frame := foldl (fun r op => r ≫= fstep op) (Some f) ops.
(** Arguments that lie within the array by themselves. *)
Definition within (op : fop) : Prop :=
  match op with
  | OSetData src Start | OInsert src Start => bytes src /\ 0 <= Start /\ 14 + Start + Z.of_nat (length src) <= MaxFrameSize
  | OStore n _ Start _ => (Payload + Start + n <= 1518)%nat
  | OErase Start Size => 0 <= Start /\ 0 <= Size /\ 14 + Start <= MaxFrameSize
  | OResize n => 0 <= n <= MaxFrameSize - 14
  | ODestination mac | OSource mac => bytes mac
  | OCopyTo src => frame_ok src
  | OEtherType _ | OBroadcast => True
  end.
(** When moving the rest of the frame leaves the array. *)
Definition erase_overruns (Start Size : Z) (f : frame) : bool :=
  negb (Start + Size =? FrameSize f) && (0 <? FrameSize f - Start + Size) && (MaxFrameSize <? 14 + FrameSize f + 2 * Size).
Definition overruns (op : fop) (f : frame) : bool :=
  match op with
  | OInsert src Start => (Start <? FrameSize f) && (MaxFrameSize <? 14 + FrameSize f + Z.of_nat (length src))
  | OErase Start Size => erase_overruns Start Size f
  | OResize n => negb (FrameSize f <? n) && erase_overruns n (FrameSize f - n) f
  | _ => false
  end.

Lemma SetData_typed src Start f : frame_ok f -> bytes src -> 0 <= Start -> 14 + Start + Z.of_nat (length src) <= MaxFrameSize ->
  exists g, SetData src Start f = Some g /\ frame_ok g.
Proof.
  intros Hf Hb H0 H1. eexists. split; [by apply SetData_in|]. apply put_ok; [done|done|]. unfold MaxFrameSize in *. lia.
Qed.
Lemma GetData_typed Start Size f : frame_ok f -> 0 <= Start -> 14 + Start + Size <= MaxFrameSize ->
  exists D, GetData Start Size f = Some D /\ bytes D /\ Z.of_nat (length D) = Z.max 0 Size.
Proof.
  intros [Hl Hb Hs] H0 H1. unfold GetData. destruct (Z.leb_spec Size 0); [exists []; split_and!; [done|constructor|cbn; lia]|].
  rewrite (proj2 (Z.leb_le 0 _)), (proj2 (Z.leb_le _ MaxFrameSize)) by lia. eexists. split_and!; [done|by apply Forall_take, Forall_drop|].
  rewrite length_slice; unfold MaxFrameSize in *; lia.
Qed.
Lemma GetData_outside Start Size f : 0 < Size -> MaxFrameSize < 14 + Start + Size -> GetData Start Size f = None.
Proof. intros H1 H2. unfold GetData. rewrite (proj2 (Z.leb_gt _ _)), (proj2 (Z.leb_gt (14 + Start + Size) _)) by lia. by rewrite andb_false_r. Qed.
Lemma SetData_outside src Start f : 0 < Z.of_nat (length src) -> MaxFrameSize < 14 + Start + Z.of_nat (length src) -> SetData src Start f = None.
Proof.
  intros H1 H2. unfold SetData. rewrite (proj2 (Z.eqb_neq _ 0)), (proj2 (Z.leb_gt (14 + Start + _) _)) by lia. by rewrite andb_false_r.
Qed.
Lemma zero_typed a b n f : frame_ok f -> 0 <= a -> b <= MaxFrameSize -> 0 <= n -> exists g, shrink n <$> zero_range a b f = Some g /\ frame_ok g.
Proof.
  intros [Hl Hb Hs] Ha Hb' Hn. unfold zero_range.
  assert (Hsh : forall g, frame_ok g -> frame_ok (shrink n g)).
  { intros g [G1 G2 G3]. split; [done|done|]. cbn. unfold MinFrameSize, MinDataSize, MaxFrameSize in *. case_match; lia. }
  destruct (Z.leb_spec b a); [eexists; split; [done|by apply Hsh]|].
  rewrite (proj2 (Z.leb_le 0 _)), (proj2 (Z.leb_le _ MaxFrameSize)) by lia. eexists. split; [done|]. apply Hsh.
  unfold MaxFrameSize in *. split; cbn [Data FrameSize]; [|apply bytes_splice; [done|by apply Forall_replicate]|done].
  rewrite length_splice; [done|rewrite length_replicate; lia].
Qed.
Lemma Erase_typed Start Size f : frame_ok f -> 0 <= Start -> 0 <= Size -> 14 + Start <= MaxFrameSize ->
  if erase_overruns Start Size f then EraseData Start Size f = None else exists g, EraseData Start Size f = Some g /\ frame_ok g.
Proof.
  intros Hf H0 H1 H2. pose proof (fo_size _ Hf) as Hs. unfold erase_overruns, EraseData.
  destruct (Z.eqb_spec (Start + Size) (FrameSize f)); cbn [negb andb]; [apply zero_typed; try done; unfold MaxFrameSize in *; lia|].
  destruct (Z.ltb_spec 0 (FrameSize f - Start + Size)); cbn [andb].
  - destruct (Z.ltb_spec MaxFrameSize (14 + FrameSize f + 2 * Size)); [by rewrite GetData_outside by lia|].
    destruct (GetData_typed (Start + Size) (FrameSize f - Start + Size) f) as (D & -> & HD & HL); [done|lia|lia|]. cbn [mbind option_bind].
    destruct (SetData_typed D Start f) as (g & -> & Hg); [done|done|done|lia|]. cbn [mbind option_bind].
    apply zero_typed; [done|lia|apply Hg|done].
  - unfold GetData. rewrite (proj2 (Z.leb_le _ 0)) by lia. cbn [mbind option_bind].
    destruct (SetData_typed [] Start f) as (g & -> & Hg); [done|constructor|done|cbn; lia|]. cbn [mbind option_bind].
    apply zero_typed; [done|lia|apply Hg|done].
Qed.
Lemma Insert_typed src Start f : frame_ok f -> bytes src -> 0 <= Start -> 14 + Start + Z.of_nat (length src) <= MaxFrameSize ->
  if overruns (OInsert src Start) f then InsertData src Start f = None else exists g, InsertData src Start f = Some g /\ frame_ok g.
Proof.
  intros Hf Hb H0 H1. pose proof (fo_size _ Hf) as Hs. unfold overruns, InsertData. destruct (Z.ltb_spec Start (FrameSize f)); cbn [andb].
  - destruct (Z.ltb_spec MaxFrameSize (14 + FrameSize f + Z.of_nat (length src))) as [Ho|Ho].
    + destruct (Z.le_gt_cases (14 + FrameSize f) MaxFrameSize) as [Hi|Hi]; [|by rewrite GetData_outside by lia].
      destruct (GetData_typed Start (FrameSize f - Start) f) as (D & -> & HD & HL); [done|lia|lia|]. cbn [mbind option_bind].
      by rewrite SetData_outside by lia.
    + destruct (GetData_typed Start (FrameSize f - Start) f) as (D & -> & HD & HL); [done|lia|lia|]. cbn [mbind option_bind].
      destruct (SetData_typed D (Start + Z.of_nat (length src)) f) as (g & -> & Hg); [done|done|lia|lia|]. cbn [mbind option_bind]. by apply SetData_typed.
  - unfold GetData. rewrite (proj2 (Z.leb_le _ 0)) by lia. cbn [mbind option_bind].
    destruct (SetData_typed [] (Start + Z.of_nat (length src)) f) as (g & -> & Hg); [done|constructor|lia|cbn; lia|]. cbn [mbind option_bind]. by apply SetData_typed.
Qed.
Lemma CopyTo_typed f src : frame_ok f -> frame_ok src -> frame_ok (CopyTo f src).
Proof.
  intros [F1 F2 F3] [S1 S2 S3]. unfold MaxFrameSize in *. split; cbn [Data FrameSize CopyTo]; [|apply bytes_splice; [done|by apply Forall_take]|done].
  rewrite length_splice; [done|]. rewrite length_take. lia.
Qed.

(** One operation: a frame of the same shape, or the move leaves the array. *)
Lemma fstep_typed op f : frame_ok f -> within op -> if overruns op f then fstep op f = None else exists g, fstep op f = Some g /\ frame_ok g.
Proof.
  intros Hf Hw. destruct op; cbn [overruns fstep within] in *.
  - destruct Hw as (? & ? & ?). by apply SetData_typed.
  - eexists. split; [done|]. by apply set_at_ok.
  - destruct Hw as (? & ? & ?). by apply Insert_typed.
  - destruct Hw as (? & ? & ?). by apply Erase_typed.
  - pose proof (fo_size _ Hf) as Hs. unfold Resize. destruct (Z.ltb_spec (FrameSize f) NewSize); cbn [negb andb].
    + eexists. split; [done|]. destruct Hf. split; [done|done|]. cbn. unfold MaxFrameSize, MinDataSize in *. lia.
    + apply Erase_typed; [done|lia|lia|lia].
  - eexists. split; [done|]. apply put_header_ok; [done|apply enc_bytes|rewrite enc_length; lia].
  - eexists. split; [done|]. apply put_header_ok; [done|by apply Forall_take|rewrite length_take; lia].
  - eexists. split; [done|]. apply put_header_ok; [done|by apply Forall_take|rewrite length_take; lia].
  - eexists. split; [done|]. apply put_header_ok; [done|apply Forall_take, Forall_replicate; lia|cbn; lia].
  - eexists. split; [done|]. by apply CopyTo_typed.
Qed.


(** Data, an insertion and a cut. *)
Definition ones : Fresh.
Proof. refine {| junk := fun _ => 1 |}. intros. lia. Defined.
Definition typed_ops : list fop := [OSetData [1; 2; 3; 4] 0; OInsert [5; 6] 2; OErase 40 10; OResize 60].
