(* ===== verification/Checksum.v ===== *)
(** * The internet checksum

    [VerifyChecksum] of IPv4, ICMP, UDP and TCP (kernel/UProtocols.cc, include/UProtocols4.tcc):
    the sum of 16-bit words in a 32-bit counter, its carries folded back until none is left, and
    complemented.  With [ComputeOnly] the word of the checksum itself is left out.

    The sum stored in a packet makes the sum over the whole packet zero
    ([checksum_verifies]). *)

From stdpp Require Import base list.
From Stdlib Require Import ZArith Lia.
From S2P Require Import Prelude.
Open Scope Z_scope.

(** [while (x >> 16) x = (x & 0xFFFF) + (x >> 16);] *)
Fixpoint fold_carries (fuel : nat) (x : Z) : Z :=
  if Z.shiftr x 16 =? 0 then x
  else match fuel with
       | O => x
       | S f => fold_carries f (u32 (Z.land x 65535 + Z.shiftr x 16))
       end.

(** The words [rd 0], ..., [rd (n - 1)] added to [init], but the one at [skip]. *)
Definition sum_words (rd : nat -> Z) (skip : option nat) (n : nat) (init : Z) : Z :=
  foldl (fun acc i => if bool_decide (skip = Some i) then acc else u32 (acc + rd i)) init (seq 0 n).

(** Two rounds always suffice. *)
Definition complement (x : Z) : Z := u16 (Z.lnot (fold_carries 2 x)).

(** ** Folding *)

Lemma fold_step x : 0 <= x < 2 ^ 32 -> u32 (Z.land x 65535 + Z.shiftr x 16) = x - 65535 * (x / 2 ^ 16).
Proof.
  intros Hx. rewrite Z.shiftr_div_pow2 by lia. change 65535 with (Z.ones 16) at 1. rewrite Z.land_ones by lia.
  rewrite u32_small by lia_dm. lia_dm.
Qed.

Lemma shiftr_zero x : 0 <= x -> Z.shiftr x 16 = 0 <-> x < 2 ^ 16.
Proof. intros Hx. rewrite Z.shiftr_div_pow2 by lia. split; intros; lia_dm. Qed.

(** The loop has ended, and has kept the value modulo 65535. *)
Lemma fold_carries_spec x : 0 <= x < 2 ^ 32 ->
  exists k, fold_carries 2 x = x - 65535 * k /\ 0 <= fold_carries 2 x < 2 ^ 16 /\ (0 < x -> 0 < fold_carries 2 x).
Proof.
  assert (Hstep : forall x, 2 ^ 16 <= x < 2 ^ 32 -> 0 < x - 65535 * (x / 2 ^ 16) <= 131070 /\ x - 65535 * (x / 2 ^ 16) < x) by (intros; lia_dm).
  intros Hx. cbn [fold_carries]. destruct (Z.eqb_spec (Z.shiftr x 16) 0) as [E|E].
  { rewrite shiftr_zero in E by lia. exists 0. lia. }
  rewrite shiftr_zero in E by lia. rewrite fold_step by lia.
  pose proof (Hstep x ltac:(lia)) as [H1 H2]. set (y := x - 65535 * (x / 2 ^ 16)) in *.
  destruct (Z.eqb_spec (Z.shiftr y 16) 0) as [E2|E2].
  { rewrite shiftr_zero in E2 by lia. exists (x / 2 ^ 16). lia. }
  rewrite shiftr_zero in E2 by lia. rewrite fold_step by lia.
  assert (Hy : 0 < y - 65535 * (y / 2 ^ 16) < 2 ^ 16) by lia_dm. set (w := y - 65535 * (y / 2 ^ 16)) in *.
  exists (x / 2 ^ 16 + y / 2 ^ 16). destruct (Z.shiftr w 16 =? 0); lia.
Qed.

(** More rounds change nothing. *)
Lemma fold_carries_done fuel x : 0 <= x < 2 ^ 16 -> fold_carries fuel x = x.
Proof. intros Hx. destruct fuel; cbn [fold_carries]; by rewrite (proj2 (shiftr_zero x ltac:(lia))) by lia. Qed.

Lemma complement_spec x : 0 <= x < 2 ^ 32 -> complement x = 65535 - fold_carries 2 x.
Proof.
  intros Hx. destruct (fold_carries_spec x Hx) as (k & _ & Hr & _). unfold complement, u16, Z.lnot. lia_dm.
Qed.

Lemma complement_range x : 0 <= x < 2 ^ 32 -> 0 <= complement x < 2 ^ 16.
Proof. intros Hx. rewrite complement_spec by done. destruct (fold_carries_spec x Hx) as (k & _ & Hr & _). lia. Qed.

(** The complement added to the sum leaves nothing. *)
Lemma complement_cancels x : 0 <= x < 2 ^ 32 - 2 ^ 16 -> complement (x + complement x) = 0.
Proof.
  intros Hx. pose proof (complement_range x ltac:(lia)) as Hc.
  rewrite (complement_spec (x + complement x)) by lia. rewrite complement_spec in * by lia.
  destruct (fold_carries_spec x ltac:(lia)) as (k & Hk & Hr & Hpos).
  destruct (fold_carries_spec (x + (65535 - fold_carries 2 x)) ltac:(lia)) as (k' & Hk' & Hr' & Hpos').
  assert (0 < fold_carries 2 (x + (65535 - fold_carries 2 x))).
  { apply Hpos'. destruct (decide (x = 0)) as [->|]; [|lia]. rewrite fold_carries_done by lia. lia. }
  lia.
Qed.

(** ** Sums *)

Lemma sum_words_app rd skip n init : sum_words rd skip (S n) init =
  (let acc := sum_words rd skip n init in if bool_decide (skip = Some n) then acc else u32 (acc + rd n)).
Proof. unfold sum_words. rewrite seq_S, foldl_app. done. Qed.

Lemma sum_words_ext rd rd' skip n init : (forall i, (i < n)%nat -> rd' i = rd i) -> sum_words rd' skip n init = sum_words rd skip n init.
Proof.
  induction n as [|n IH]; intros H; [done|]. rewrite !sum_words_app. rewrite IH by (intros; apply H; lia). by rewrite H by lia.
Qed.

(** The sum as integers, when it fits. *)
Fixpoint total (rd : nat -> Z) (skip : option nat) (n : nat) : Z :=
  match n with
  | O => 0
  | S n' => total rd skip n' + (if bool_decide (skip = Some n') then 0 else rd n')
  end.

Lemma total_bounds rd skip n : (forall i, (i < n)%nat -> 0 <= rd i < 2 ^ 16) -> 0 <= total rd skip n <= 65535 * Z.of_nat n.
Proof.
  induction n as [|n IH]; intros H; cbn [total]; [lia|]. pose proof (IH ltac:(intros; apply H; lia)). pose proof (H n ltac:(lia)).
  case_bool_decide; lia.
Qed.

Lemma sum_words_total rd skip n init : (forall i, (i < n)%nat -> 0 <= rd i < 2 ^ 16) -> 0 <= init ->
  init + 65535 * Z.of_nat n < 2 ^ 32 -> sum_words rd skip n init = init + total rd skip n.
Proof.
  induction n as [|n IH]; intros H H0 Hb; [unfold sum_words; simpl; lia|]. rewrite sum_words_app.
  rewrite IH by (try lia; intros; apply H; lia). cbn [total]. pose proof (total_bounds rd skip n ltac:(intros; apply H; lia)).
  pose proof (H n ltac:(lia)). case_bool_decide; [lia|]. rewrite u32_small by lia. lia.
Qed.

Lemma total_skip rd rd' k n : (k < n)%nat -> (forall i, (i < n)%nat -> i <> k -> rd' i = rd i) ->
  total rd' None n = total rd (Some k) n + rd' k.
Proof.
  intros Hk H. assert (Hlow : forall m, (m <= k)%nat -> total rd' None m = total rd (Some k) m).
  { induction m as [|m IH]; intros Hm; cbn [total]; [done|]. rewrite IH by lia. rewrite (bool_decide_eq_false_2 (None = Some m)) by done.
    rewrite (bool_decide_eq_false_2 (Some k = Some m)) by (intros E; injection E; lia). rewrite H by lia. done. }
  induction n as [|n IH]; [lia|]. cbn [total]. rewrite (bool_decide_eq_false_2 (None = Some n)) by done.
  destruct (decide (n = k)) as [->|Hne].
  - rewrite Hlow by lia. rewrite bool_decide_eq_true_2 by done. lia.
  - rewrite IH by (try lia; intros; apply H; lia). rewrite (bool_decide_eq_false_2 (Some k = Some n)) by (intros E; injection E; lia).
    rewrite (H n) by lia. lia.
Qed.

(** The checksum computed without its own word, and stored there, verifies. *)
Lemma checksum_verifies rd rd' k n init : (k < n)%nat -> 0 <= init -> init + 65535 * Z.of_nat n < 2 ^ 32 - 2 ^ 16 ->
  (forall i, (i < n)%nat -> 0 <= rd i < 2 ^ 16) ->
  (forall i, (i < n)%nat -> i <> k -> rd' i = rd i) -> rd' k = complement (sum_words rd (Some k) n init) ->
  complement (sum_words rd' None n init) = 0.
Proof.
  intros Hk H0 Hb Hrd Hoth Hck.
  pose proof (total_bounds rd (Some k) n Hrd) as Ht.
  rewrite (sum_words_total rd) in Hck by (try done; lia).
  assert (Hc : 0 <= rd' k < 2 ^ 16) by (rewrite Hck; apply complement_range; lia).
  rewrite sum_words_total; [|intros i Hi; destruct (decide (i = k)) as [->|]; [done|rewrite Hoth by done; by apply Hrd]|done|lia].
  rewrite (total_skip rd rd' k n Hk Hoth), Hck, Z.add_assoc. apply complement_cancels. lia.
Qed.
