(* ===== verification/Random.v ===== *)
(** * The random number generator: include/URandom.tcc

    [mt19937l], the 32-bit instance of [MersenneTwisterEngineLite], which makes the
    identifications of IP packets and the initial sequence numbers of TCP. *)

From stdpp Require Import base list.
From Stdlib Require Import ZArith Lia.
From S2P Require Import Prelude.
Open Scope Z_scope.

Definition WordSize : Z := 32.
Definition DegOfRecurrence : nat := 624.
Definition MiddleWord : nat := 397.
Definition SeparationPoint : Z := 31.
Definition TwisterMatCoeffs : Z := 2567483615.        (* 0x9908B0DF *)
Definition TGFSRMaskB : Z := 2636928640.              (* 0x9D2C5680 *)
Definition TGFSRMaskC : Z := 4022730752.              (* 0xEFC60000 *)
Definition AdditionalMask : Z := 4294967295.
Definition InitMultiplyer : Z := 1812433253.          (* 0x6C078965 *)
Definition DefaultSeed : Z := 5489.

Record engine := Engine { MT : list Z; Index : nat }.

Fixpoint init_from (n : nat) (i prev : Z) : list Z :=
  match n with
  | O => []
  | S n' =>
      let x := u32 (InitMultiplyer * Z.lxor prev (Z.shiftr prev (WordSize - 2)) + i) in
      x :: init_from n' (i + 1) x
  end.
Definition Init (Seed : Z) : engine := Engine (u32 Seed :: init_from (DegOfRecurrence - 1) 1 (u32 Seed)) 0.

Definition Gen (e : engine) : Z * engine :=
  let at_ i := nth i (MT e) 0 in
  let Index2 := ((Index e + 1) mod DegOfRecurrence)%nat in
  let Mask := 2 ^ SeparationPoint - 1 in
  let Yp := Z.lor (Z.ldiff (at_ (Index e)) Mask) (Z.land (at_ Index2) Mask) in
  let Index3 := ((Index e + MiddleWord) mod DegOfRecurrence)%nat in
  let x := u32 (Z.lxor (Z.lxor (at_ Index3) (Z.shiftr Yp 1)) (TwisterMatCoeffs * Z.land Yp 1)) in
  let z := Z.lxor x (Z.land (Z.shiftr x 11) AdditionalMask) in
  let z := Z.lxor z (Z.land (u64 (Z.shiftl z 7)) TGFSRMaskB) in
  let z := Z.lxor z (Z.land (u64 (Z.shiftl z 15)) TGFSRMaskC) in
  (u32 (Z.lxor z (Z.shiftr z 18)), Engine (<[Index e := x]> (MT e)) Index2).

(** [mt19937l(seed).Gen()]: the one value the network code takes from each engine. *)
Definition first_value (Seed : Z) : Z := (Gen (Init Seed)).1.

Lemma first_value_range Seed : 0 <= first_value Seed < 2 ^ 32.
Proof. unfold first_value, Gen. cbn [fst]. apply u32_range. Qed.

(** The [n]-th value. *)
Fixpoint draw (n : nat) (e : engine) : Z :=
  match n with O => (Gen e).1 | S n' => draw n' (Gen e).2 end.

(** The engine is the one of the C++ standard: its first value, and the ten-thousandth, by which
    the standard fixes it. *)
Theorem mt19937_conforms : draw 0 (Init DefaultSeed) = 3499211612 /\ draw (Z.to_nat 9999) (Init DefaultSeed) = 4123659995.
Proof. split; vm_compute; reflexivity. Qed.
