(* ===== verification/Ipv4.v ===== *)
(** * The IPv4 header: class IPv4 of kernel/UProtocols.cc

    The fields of the header, its checksum and the test a received packet has to pass.  The
    accessors of the class hide those of the frame: [GetDataAs] and [SetData] here are relative
    to the end of the header, whose length is read from the packet each time; [SetData] also
    brings the total length up to date.

    The setters of fields narrower than their byte or word read the old value with the hiding
    accessor, that is, from the payload instead of the header. *)

From stdpp Require Import base list.
From Stdlib Require Import ZArith Lia.
From S2P Require Import Prelude CString Bytes Frame Checksum.
Open Scope Z_scope.

Definition EtherType : Z := 2048.             (* 0x0800 *)
Definition HeaderSizeMin : Z := 20.
Definition Identification : nat := 4.
Definition Flags : nat := 6.
Definition FragmentOffset : nat := 6.
Definition TimeToLive : nat := 8.
Definition Protocol : nat := 9.
Definition HeaderChecksum : nat := 10.
Definition SourceAddress : nat := 12.
Definition DestinationAddress : nat := 16.
Definition Options : Z := 20.
#[export] Hint Unfold Identification Flags FragmentOffset TimeToLive Protocol HeaderChecksum SourceAddress
  DestinationAddress : offsets.

Definition GetVersion (f : frame) : Z := Z.shiftr (Z.land (Frame.GetDataAs 1 0 true f) 240) 4.
Definition GetInternetHeaderLength (f : frame) : Z := Z.land (Frame.GetDataAs 1 0 true f) 15.
Definition GetDifferentiatedServicesCodePoint (f : frame) : Z := Z.shiftr (Z.land (Frame.GetDataAs 1 1 true f) 252) 2.
Definition GetExplicitCongestionNotification (f : frame) : Z := Z.land (Frame.GetDataAs 1 1 true f) 3.
Definition GetTotalLength (f : frame) : Z := Frame.GetDataAs 2 2 true f.
Definition GetIdentification (f : frame) : Z := Frame.GetDataAs 2 Identification true f.
Definition GetFlags (f : frame) : Z := u8 (Z.shiftr (Z.land (Frame.GetDataAs 2 Flags true f) 57344) 13).
Definition GetFragmentOffset (f : frame) : Z := Z.land (Frame.GetDataAs 2 FragmentOffset true f) 8191.
Definition GetTimeToLive (f : frame) : Z := Frame.GetDataAs 1 TimeToLive true f.
Definition GetProtocol (f : frame) : Z := Frame.GetDataAs 1 Protocol true f.
Definition GetHeaderChecksum (f : frame) : Z := Frame.GetDataAs 2 HeaderChecksum true f.
Definition GetSourceAddress (f : frame) : Z := Frame.GetDataAs 4 SourceAddress false f.
Definition GetSourceAddressBE (f : frame) : Z := Frame.GetDataAs 4 SourceAddress true f.
Definition GetDestinationAddress (f : frame) : Z := Frame.GetDataAs 4 DestinationAddress false f.
Definition GetDestinationAddressBE (f : frame) : Z := Frame.GetDataAs 4 DestinationAddress true f.

(** The length of the header, [GetInternetHeaderLength() * sizeof(DWORD)]. *)
Definition header (f : frame) : Z := GetInternetHeaderLength f * 4.
(** Where the data of the packet are in the array. *)
Definition data_at (f : frame) (Start : nat) : nat := Payload + Z.to_nat (header f) + Start.

Definition GetOptions (f : frame) : option (list Z) := Frame.GetData Options (header f - HeaderSizeMin) f.
Definition GetData (Start Size : Z) (f : frame) : option (list Z) := Frame.GetData (header f + Start) Size f.
Definition GetDataAs (n Start : nat) (Reverse : bool) (f : frame) : Z := get_at n Reverse (data_at f Start) f.

Definition DataSize (f : frame) : Z := GetTotalLength f - header f.

Definition SetTotalLength (v : Z) (f : frame) : frame := Frame.SetDataFrom 2 v 2 true f.
Definition SetData (src : list Z) (Start : Z) (f : frame) : option frame :=
  (fun f => SetTotalLength (Frame.DataSize f) f) <$> Frame.SetData src (header f + Start) f.
Definition SetDataFrom (n : nat) (v : Z) (Start : nat) (Reverse : bool) (f : frame) : frame :=
  let f := set_at n Reverse (data_at f Start) v f in SetTotalLength (Frame.DataSize f) f.

Definition SetVersion (v : Z) (f : frame) : frame :=
  let Field := GetDataAs 1 0 true f in
  Frame.SetDataFrom 1 (Z.lor (Z.ldiff Field 240) (Z.land (u8 (Z.shiftl v 4)) 240)) 0 true f.
Definition SetInternetHeaderLength (v : Z) (f : frame) : frame :=
  let Field := GetDataAs 1 0 true f in
  Frame.SetDataFrom 1 (Z.lor (Z.ldiff Field 15) (Z.land v 15)) 0 true f.
(** These two store at the offset of the version. *)
Definition SetDifferentiatedServicesCodePoint (v : Z) (f : frame) : frame :=
  let Field := GetDataAs 1 1 true f in
  Frame.SetDataFrom 1 (Z.lor (Z.ldiff Field 252) (Z.land (u8 (Z.shiftl v 2)) 252)) 0 true f.
Definition SetExplicitCongestionNotification (v : Z) (f : frame) : frame :=
  let Field := GetDataAs 1 1 true f in
  Frame.SetDataFrom 1 (Z.lor (Z.ldiff Field 3) (Z.land v 3)) 0 true f.
Definition SetIdentification (v : Z) (f : frame) : frame := Frame.SetDataFrom 2 v Identification true f.
Definition SetFlags (v : Z) (f : frame) : frame :=
  let Field := GetDataAs 2 Flags true f in
  Frame.SetDataFrom 2 (Z.lor (Z.ldiff Field 57344) (Z.land (u16 (Z.shiftl v 13)) 57344)) Flags true f.
Definition SetFragmentOffset (v : Z) (f : frame) : frame :=
  let Field := GetDataAs 2 FragmentOffset true f in
  Frame.SetDataFrom 2 (Z.lor (Z.ldiff Field 8191) (Z.land v 8191)) FragmentOffset true f.
Definition SetTimeToLive (v : Z) (f : frame) : frame := Frame.SetDataFrom 1 v TimeToLive true f.
Definition SetProtocol (v : Z) (f : frame) : frame := Frame.SetDataFrom 1 v Protocol true f.
Definition SetHeaderChecksum (v : Z) (f : frame) : frame := Frame.SetDataFrom 2 v HeaderChecksum true f.
Definition SetSourceAddress (v : Z) (f : frame) : frame := Frame.SetDataFrom 4 v SourceAddress false f.
Definition SetDestinationAddress (v : Z) (f : frame) : frame := Frame.SetDataFrom 4 v DestinationAddress false f.

Definition SetOptions (src : list Z) (f : frame) : option frame :=
  let RemoveSize := header f - HeaderSizeMin in
  let n := HeaderSizeMin + Z.of_nat (length src) in
  (if RemoveSize =? 0 then Some f else EraseData Options RemoveSize f) ≫= fun f =>
  (fun f => SetInternetHeaderLength (if n mod 4 =? 0 then n / 4 else n / 4 + 1) f) <$> InsertData src Options f.

(** The ten words of a header without options. *)
Definition VerifyChecksum (ComputeOnly : bool) (f : frame) : Z :=
  complement (sum_words (fun i => Frame.GetDataAs 2 (i * 2) true f)
                (if ComputeOnly then Some (HeaderChecksum / 2)%nat else None) 10 0).

Definition IsValid (f : frame) : bool :=
  let DataLength := Frame.DataSize f in
  ((20 <=? DataLength) && (VerifyChecksum false f =? 0) && (GetVersion f =? 4) && (header f <=? DataLength) &&
   (GetTotalLength f <=? DataLength) && negb (GetTimeToLive f =? 0))%bool.

Definition Resize (NewSize : Z) (f : frame) : option frame :=
  SetTotalLength NewSize <$> Frame.Resize (HeaderSize + NewSize) f.

(** The constructor.  The total length is set before there is one to compute it from. *)
Definition IPv4 `{Fresh} : frame :=
  let f := SetEtherType EtherType EthernetFrame in
  let f := SetVersion 4 f in
  let f := SetInternetHeaderLength 5 f in
  let f := SetFlags 2 f in
  SetTotalLength (DataSize f) f.

Definition IPSplit (Addr : Z) : list Z := le_bytes 4 Addr.

(** [while (Mask) { Mask >>= 1; ++N; }]: a mask has 32 bits. *)
Fixpoint mask_bits (fuel : nat) (Mask N : Z) : Z :=
  if Mask =? 0 then N else match fuel with O => N | S f => mask_bits f (Z.shiftr Mask 1) (N + 1) end.
Definition MaskToNum (Mask : Z) : Z := if Mask =? 0 then 32 else mask_bits 32 Mask 0.
Definition GetNetAddress (Addr Mask : Z) : Z := Z.land Addr Mask.
Definition GetBroadcastAddress (Addr Mask : Z) : Z := Z.lor Addr (u32 (Z.lnot Mask)).

(** ** The header checksum *)

Lemma word_range i f : frame_ok f -> (i < 700)%nat -> 0 <= Frame.GetDataAs 2 (i * 2) true f < 2 ^ 16.
Proof. intros Hf Hi. apply (get_at_range 2); [done|unfold Payload; lia]. Qed.

Lemma VerifyChecksum_range b f : frame_ok f -> 0 <= VerifyChecksum b f < 2 ^ 16.
Proof.
  intros Hf. apply complement_range.
  assert (Hw : forall i, (i < 10)%nat -> 0 <= Frame.GetDataAs 2 (i * 2) true f < 2 ^ 16) by (intros; apply word_range; [done|lia]).
  rewrite sum_words_total by (first [exact Hw|lia]). pose proof (total_bounds _ (if b then Some (HeaderChecksum / 2)%nat else None) 10 Hw). lia.
Qed.

(** A header whose checksum has been computed verifies. *)
Lemma header_verifies f : frame_ok f -> VerifyChecksum false (SetHeaderChecksum (VerifyChecksum true f) f) = 0.
Proof.
  intros Hf. unfold VerifyChecksum at 1, SetHeaderChecksum, Frame.SetDataFrom.
  apply (checksum_verifies (fun i => Frame.GetDataAs 2 (i * 2) true f) _ 5).
  - lia.
  - lia.
  - lia.
  - intros i Hi. apply word_range; [done|lia].
  - intros i Hi Hne. unfold Frame.GetDataAs. by frame_field.
  - unfold Frame.GetDataAs. change (5 * 2)%nat with HeaderChecksum. frame_field.
    pose proof (VerifyChecksum_range true f Hf). change (256 ^ Z.of_nat 2) with (2 ^ 16).
    rewrite Z.mod_small by done. done.
Qed.

(** ** The length of the header *)

Lemma header_range f : frame_ok f -> 0 <= header f <= 60.
Proof.
  intros Hf. unfold header, GetInternetHeaderLength. change 15 with (Z.ones 4). rewrite Z.land_ones by lia. lia_dm.
Qed.

Lemma header_set_at n r p v f : length (Data f) = 1518%nat -> (15 <= p)%nat -> (p + n <= 1518)%nat ->
  header (set_at n r p v f) = header f.
Proof.
  intros Hl Hp Hn. unfold header, GetInternetHeaderLength, Frame.GetDataAs. by frame_field.
Qed.
Lemma header_put p src f : length (Data f) = 1518%nat -> (15 <= p)%nat -> (p + length src <= 1518)%nat ->
  header (put p src f) = header f.
Proof. intros Hl Hp Hn. unfold header, GetInternetHeaderLength, Frame.GetDataAs. by frame_field. Qed.

(** ** Masks *)

Lemma mask_bits_spec fuel m n : 0 <= m < 2 ^ Z.of_nat fuel ->
  mask_bits fuel m n = n + (if m =? 0 then 0 else Z.log2 m + 1).
Proof.
  revert m n. induction fuel as [|fuel IH]; intros m n Hm; cbn [mask_bits].
  { assert (m = 0) as -> by (simpl in Hm; lia). cbn. lia. }
  destruct (Z.eqb_spec m 0) as [->|Hne]; [lia|]. rewrite IH.
  2: { rewrite Z.shiftr_div_pow2 by lia. rewrite Nat2Z.inj_succ, Z.pow_succ_r in Hm by lia. lia_dm. }
  destruct (Z.eqb_spec (Z.shiftr m 1) 0) as [E|E].
  - rewrite Z.shiftr_div_pow2 in E by lia. assert (m = 1) as -> by lia_dm. cbn. lia.
  - rewrite Z.log2_shiftr by lia. assert (0 < Z.log2 m).
    { apply Z.log2_pos. rewrite Z.shiftr_div_pow2 in E by lia. lia_dm. } lia.
Qed.

(** The mask of an [n]-bit network, first address byte in the low bits. *)
Lemma MaskToNum_prefix n : 1 <= n <= 32 -> MaskToNum (2 ^ n - 1) = n.
Proof.
  intros Hn. unfold MaskToNum. assert (2 ^ 1 <= 2 ^ n) by (apply Z.pow_le_mono_r; lia).
  assert (2 ^ n <= 2 ^ 32) by (apply Z.pow_le_mono_r; lia).
  rewrite (proj2 (Z.eqb_neq _ 0)) by lia. rewrite mask_bits_spec by lia. rewrite (proj2 (Z.eqb_neq _ 0)) by lia.
  change (2 ^ n - 1) with (Z.pred (2 ^ n)). rewrite Z.log2_pred_pow2 by lia. lia.
Qed.
