(* ===== verification/Net.v ===== *)
(** * The state of the network layer, addresses and routes: class IPv4 of kernel/UProtocols.cc

    The tables the protocols share (addresses of the adapters, routes, the ARP table), the
    adapters themselves and what they have sent.  A [NetworkAdapter*] is an index into
    [NetworkAdapterList].

    [RouteTableMatch] walks the table with [find_if], and steps past the end when the last route
    does not match; with two or more matches it calls [qsort].  It gives a route only when
    the last one is the only match ([route_match]). *)

From stdpp Require Import base list.
From Stdlib Require Import ZArith Lia.
From S2P Require Import Prelude Spinlock CString Bytes ArrayList Frame Ipv4.
Open Scope Z_scope.

Record ARPTableItem := ARPItem {
  Address : Z;
  HWType : Z;
  AFlags : Z;
  MACAddress : list Z;
  Adapter : nat;
}.
Record AdapterIPAddressItem := IPItem {
  IPAdapter : option nat;                (* None: a null pointer *)
  IPAddress : Z;
  SubnetMask : Z;
}.
Record RouteTableItem := Route {
  Destination : Z;
  Gateway : Z;
  Genmask : Z;
  RFlags : Z;
  Metric : Z;
  Ref : Z;
  Use : Z;
  Iface : option nat;
}.

(** The static members of PingEcho. *)
Record pings := Pings {
  IsTesting : bool;
  IsReceived : bool;
  CurrentID : Z;
  CurrentSN : Z;
}.

Record netif := Netif {
  ARPTable : alist ARPTableItem;
  ARPLock : bool;
  IPTable : alist AdapterIPAddressItem;
  RouteTable : alist RouteTableItem;
  macs : list (list Z);                (* NetworkAdapterList: the addresses of the adapters *)
  sent : list (nat * frame);           (* what each adapter transmitted, the last first *)
  nticks : Z;
  arping : bool * bool;                (* ARPingIsTesting, ARPingIsReceived *)
  ping : pings;
}.
Definition set_ARPTable v (s : netif) : netif := Netif v (ARPLock s) (IPTable s) (RouteTable s) (macs s) (sent s) (nticks s) (arping s) (ping s).
Definition set_ARPLock v (s : netif) : netif := Netif (ARPTable s) v (IPTable s) (RouteTable s) (macs s) (sent s) (nticks s) (arping s) (ping s).
Definition set_IPTable v (s : netif) : netif := Netif (ARPTable s) (ARPLock s) v (RouteTable s) (macs s) (sent s) (nticks s) (arping s) (ping s).
Definition set_RouteTable v (s : netif) : netif := Netif (ARPTable s) (ARPLock s) (IPTable s) v (macs s) (sent s) (nticks s) (arping s) (ping s).
Definition set_sent v (s : netif) : netif := Netif (ARPTable s) (ARPLock s) (IPTable s) (RouteTable s) (macs s) v (nticks s) (arping s) (ping s).
Definition set_arping v (s : netif) : netif := Netif (ARPTable s) (ARPLock s) (IPTable s) (RouteTable s) (macs s) (sent s) (nticks s) v (ping s).
Definition set_ping v (s : netif) : netif := Netif (ARPTable s) (ARPLock s) (IPTable s) (RouteTable s) (macs s) (sent s) (nticks s) (arping s) v.
Definition arp_lk : lens netif bool := Lens ARPLock set_ARPLock.

Notation NK := (K netif).

Definition ARPTableSize : nat := Z.to_nat 4096.
Definition IPTableSize : nat := 100.
Definition RouteTableSize : nat := 30.

(** [find_if(begin(), end(), p)]: the index found, [None] for [end()]. *)
Definition find_item {S A} (p : A -> bool) (a : alist A) : K S (option nat) :=
  let! k := find_if p (elems a) (csize a) 0 (csize a) in
  kret (if decide (k = csize a) then None else Some k).
Definition item {S A} (a : alist A) (k : nat) : K S A :=
  match elems a !! k with Some x => kret x | None => fault end.

(** ** Addresses of the adapters *)

Definition IPFind (Adapter : option nat) : NK (option AdapterIPAddressItem) :=
  let! s := kget in
  let! k := find_item (fun v => bool_decide (IPAdapter v = Adapter)) (IPTable s) in
  match k with Some k => let! x := item (IPTable s) k in kret (Some x) | None => kret None end.
Definition IPFindAddr (Addr : Z) : NK (option AdapterIPAddressItem) :=
  let! s := kget in
  let! k := find_item (fun v => Addr =? IPAddress v) (IPTable s) in
  match k with Some k => let! x := item (IPTable s) k in kret (Some x) | None => kret None end.

Definition IPAllocate (Adapter : option nat) (Addr Mask : Z) : NK unit :=
  let! s := kget in
  let! t := push_back (IPItem Adapter Addr Mask) (IPTable s) in
  kmod (set_IPTable t).
Definition IPDelete (Adapter : option nat) : NK unit :=
  let! s := kget in
  let! k := find_item (fun v => bool_decide (IPAdapter v = Adapter)) (IPTable s) in
  match k with
  | None => kret tt                                   (* cprintf: cannot find device *)
  | Some k => kmod (set_IPTable (erase (IPItem None 0 0) k (IPTable s)))
  end.

(** ** Routes *)

Definition RouteTableAdd (NewItem : RouteTableItem) : NK unit :=
  let! s := kget in
  let! t := push_back NewItem (RouteTable s) in
  kmod (set_RouteTable t).

Definition route_matches (Target : Z) (r : RouteTableItem) : bool :=
  Z.land (Destination r) (Genmask r) =? Z.land Target (Genmask r).

(** [for (; First != Last; ++First) { First = find_if(First, Last, ...); if (First != Last)
    MatchTable.push_back(First); }] *)
Fixpoint match_loop (fuel : nat) (p : RouteTableItem -> bool) (l : list RouteTableItem) (First Last : nat)
    (MatchTable : list nat) : NK (list nat) :=
  if decide (First = Last) then kret MatchTable
  else
    let! k := find_if p l (length l) First Last in
    let! m := (if decide (k = Last) then kret MatchTable
               else if decide (length MatchTable < RouteTableSize)%nat then kret (MatchTable ++ [k]) else fault) in
    match fuel with O => kstop NoFuel | S f => match_loop f p l (k + 1) Last m end.

(** Longer mask, and smaller metric. *)
Definition route_before (l : list RouteTableItem) (v1 v2 : nat) : bool :=
  match l !! v1, l !! v2 with
  | Some r1, Some r2 => (MaskToNum (Genmask r2) <=? MaskToNum (Genmask r1)) && (Metric r1 <? Metric r2)
  | _, _ => false
  end%bool.

(** The kernel stack has room for [depth] calls of [qsort]. *)
Definition RouteTableMatchIn (depth : nat) (Target : Z) : NK (option nat) :=
  let! s := kget in
  let a := RouteTable s in
  let! m := match_loop (length (elems a) + 2) (route_matches Target) (elems a) 0 (csize a) [] in
  match m with
  | [] => kret None
  | [k] => kret (Some k)
  | _ =>
      let! m := qsort depth (route_before (elems a)) m 0 (length m) in
      kret (head m)
  end.
Definition stack_depth : nat := 64.
Definition RouteTableMatch : Z -> NK (option nat) := RouteTableMatchIn stack_depth.

(** ** Sending *)

(** [Device.Transmit]: the adapter sends the bytes in use. *)
Definition Transmit (dev : nat) (f : frame) : NK Z :=
  kmod (fun s => set_sent ((dev, f) :: sent s) s) ;;;
  kret (u16 (FrameSize f)).
Definition GetMACAddress (dev : nat) : NK (list Z) :=
  let! s := kget in
  match macs s !! dev with Some m => kret m | None => fault end.

(** [EthernetFrame::ToDevice]. *)
Definition EthToDevice (dev : nat) (f : frame) : NK Z :=
  let! m := GetMACAddress dev in
  Transmit dev (SetSource m f).

(** [time()] of UDef.hh. *)
Definition time : NK Z := let! s := kget in kret (nticks s / 100).

(** ** The other processors

    A loop that waits does so while the interrupt handlers of other processors run. *)

Record net_ok (s : netif) : Prop := {
  no_arp : al_ok ARPTableSize (ARPTable s);
  no_lock : ARPLock s = false;
  no_ip : al_ok IPTableSize (IPTable s);
  no_route : al_ok RouteTableSize (RouteTable s);
  no_macs : Forall (fun m => length m = 6%nat /\ bytes m) (macs s);
}.

Class Peers := {
  while_waiting : netif -> netif;
  waiting_ok : forall s, net_ok s -> net_ok (while_waiting s);
  waiting_keeps : forall s, IPTable (while_waiting s) = IPTable s /\ macs (while_waiting s) = macs s;
  waiting_sent : forall s, sent s `suffix_of` sent (while_waiting s);
}.

(** ** Finding *)

(** What [find_item] gives: the first item in use that satisfies the predicate. *)
Lemma find_item_spec {S A} (p : A -> bool) max (a : alist A) (s : S) : al_ok max a ->
  (find_item p a s = ([], Ret None s) /\ forall x, x ∈ live a -> p x = false) \/
  exists k x, find_item p a s = ([], Ret (Some k) s) /\ (k < csize a)%nat /\ elems a !! k = Some x /\ p x = true /\
    forall j y, (j < k)%nat -> elems a !! j = Some y -> p y = false.
Proof.
  intros [Hl Hc]. unfold find_item.
  destruct (find_if_run p (elems a) (csize a) 0 (csize a) s) as (k & Hk & Hr & Hno & Hyes); [lia..|].
  erewrite kbind_pure by exact Hk. destruct (decide (k = csize a)) as [->|Hne].
  - left. split; [done|]. intros x (j & Hj)%list_elem_of_lookup. unfold live in Hj.
    apply lookup_take_Some in Hj as [Hj Hlt]. apply (Hno j x); [lia|done].
  - right. destruct Hyes as (x & Hx & Hp); [lia|]. exists k, x. split_and!; [done|lia|done|done|]. intros j y Hj. apply Hno. lia.
Qed.

Lemma find_first {A} (p : A -> bool) l k x : l !! k = Some x -> p x = true ->
  (forall j y, (j < k)%nat -> l !! j = Some y -> p y = false) -> List.find p l = Some x.
Proof.
  revert k. induction l as [|y l IH]; intros [|k] Hk Hp Hno; [done..| |].
  - injection Hk as ->. cbn. by rewrite Hp.
  - cbn. rewrite (Hno O y) by (try done; lia). apply (IH k); [done|done|]. intros j z Hj. apply (Hno (S j)). lia.
Qed.
Lemma find_nothing {A} (p : A -> bool) l : (forall x, x ∈ l -> p x = false) -> List.find p l = None.
Proof.
  induction l as [|y l IH]; intros Hno; [done|]. cbn. rewrite (Hno y) by left. apply IH. intros x Hx. apply Hno. by right.
Qed.

(** [find_item], then the item. *)
Lemma find_item_live {S A} (p : A -> bool) max (a : alist A) (s : S) : al_ok max a ->
  (let! k := find_item p a in match k with Some k => let! x := item a k in kret (Some x) | None => kret None end) s
  = ([], Ret (List.find p (live a)) s).
Proof.
  intros Hok. destruct (find_item_spec p _ a s Hok) as [[E Hno]|(k & x & E & Hk & Hx & Hp & Hno)];
    (erewrite kbind_pure by exact E).
  - by rewrite find_nothing.
  - cbv iota. erewrite kbind_pure; [|unfold item; by rewrite Hx]. rewrite (find_first p (live a) k x); [done| |done|].
    + by rewrite live_lookup.
    + intros j y Hj Hy. rewrite live_lookup in Hy by lia. by apply (Hno j).
Qed.

(** The address of an adapter. *)
Definition address_of (dev : nat) (s : netif) : option AdapterIPAddressItem :=
  List.find (fun v => bool_decide (IPAdapter v = Some dev)) (live (IPTable s)).

Lemma IPFind_run dev s : al_ok IPTableSize (IPTable s) -> IPFind (Some dev) s = ([], Ret (address_of dev s) s).
Proof. intros Hok. unfold IPFind. kstep. by apply (find_item_live _ IPTableSize). Qed.

Lemma IPFindAddr_run Addr s : al_ok IPTableSize (IPTable s) ->
  IPFindAddr Addr s = ([], Ret (List.find (fun v => Addr =? IPAddress v) (live (IPTable s))) s).
Proof. intros Hok. unfold IPFindAddr. kstep. by apply (find_item_live _ IPTableSize). Qed.

Lemma GetMACAddress_run dev mac s : macs s !! dev = Some mac -> GetMACAddress dev s = ([], Ret mac s).
Proof. intros E. unfold GetMACAddress. kstep. by rewrite E. Qed.
Lemma EthToDevice_run dev mac f s : macs s !! dev = Some mac ->
  EthToDevice dev f s = ([], Ret (u16 (FrameSize f)) (set_sent ((dev, SetSource mac f) :: sent s) s)).
Proof. intros E. unfold EthToDevice. erewrite kbind_pure by (by apply GetMACAddress_run). done. Qed.

(** An address given to an adapter is found; taken away, it is not, if the adapter had one only. *)
Lemma IPAllocate_then_find dev Addr Mask s : net_ok s -> (csize (IPTable s) < IPTableSize)%nat -> address_of dev s = None ->
  exists s', IPAllocate (Some dev) Addr Mask s = ([], Ret tt s') /\ net_ok s' /\ address_of dev s' = Some (IPItem (Some dev) Addr Mask).
Proof.
  intros Hok Hroom Hno. unfold IPAllocate. kstep.
  destruct (push_back_run IPTableSize (IPTable s) (IPItem (Some dev) Addr Mask) s (no_ip _ Hok) Hroom) as (a & Ha & Hok' & Hlive).
  erewrite kbind_pure by exact Ha. eexists. split; [reflexivity|]. split; [by destruct Hok; split|].
  unfold address_of. cbn [IPTable set_IPTable]. rewrite Hlive. unfold address_of in Hno.
  revert Hno. generalize (live (IPTable s)). intros l. induction l as [|x l IH]; cbn; [by rewrite bool_decide_true|].
  by destruct (bool_decide (IPAdapter x = Some dev)).
Qed.

(** ** The route table *)

(** Past the end, [find_if] finds an entry that is not in use, or runs out of the array. *)
Lemma find_if_off {A S} (p : A -> bool) l fuel i last (s : S) : (last < i)%nat -> (length l <= i + fuel)%nat ->
  find_if p l fuel i last s = ([], Stop Faulted s) \/
  exists k, find_if p l fuel i last s = ([], Ret k s) /\ (i <= k < length l)%nat.
Proof.
  revert i. induction fuel as [|fuel IH]; intros i Hi Hf; cbn [find_if]; rewrite decide_False by lia.
  - rewrite lookup_ge_None_2 by lia. by left.
  - destruct (l !! i) as [x|] eqn:Hx; [|by left]. apply lookup_lt_Some in Hx. destruct (p x).
    + right. exists i. split; [done|lia].
    + destruct (IH (i + 1)%nat) as [E|(k & E & Hk)]; [lia|lia|by left|]. right. exists k. split; [done|lia].
Qed.

Lemma match_loop_off p l fuel First Last m s : (Last < First)%nat -> (length l + 1 <= First + fuel)%nat ->
  (fuel <> 0)%nat -> match_loop fuel p l First Last m s = ([], Stop Faulted s).
Proof.
  revert First m. induction fuel as [|fuel IH]; intros First m Hlt Hf Hz; [done|]. cbn [match_loop].
  rewrite decide_False by lia.
  destruct (find_if_off p l (length l) First Last s) as [E|(k & E & Hk)]; [lia|lia| |].
  - by apply kbind_stop.
  - erewrite kbind_pure by exact E. rewrite decide_False by lia. case_decide.
    + erewrite kbind_pure; [|done]. apply IH; [lia|lia|]. lia.
    + erewrite kbind_stop; done.
Qed.

Lemma filter_none {A} (P : A -> Prop) `{forall x, Decision (P x)} (l : list A) : (forall x, x ∈ l -> ~ P x) -> filter P l = [].
Proof.
  induction l as [|x l IH]; intros Hn; [done|]. rewrite filter_cons, decide_False by (apply Hn; left).
  apply IH. intros y Hy. apply Hn. by right.
Qed.

(** The indices of the routes that match, from [First] on. *)
Definition matches (p : RouteTableItem -> bool) (l : list RouteTableItem) (First Last : nat) : list nat :=
  filter (fun i => match l !! i with Some r => p r | None => false end = true) (seq First (Last - First)).

Lemma matches_none p l First k Last : (First <= k <= Last)%nat ->
  (forall j x, (First <= j < k)%nat -> l !! j = Some x -> p x = false) -> matches p l First Last = matches p l k Last.
Proof.
  intros Hr Hno. unfold matches. replace (Last - First)%nat with ((k - First) + (Last - k))%nat by lia.
  rewrite seq_app, filter_app. replace (First + (k - First))%nat with k by lia.
  replace (filter _ (seq First (k - First))) with (@nil nat); [done|]. symmetry. apply filter_none.
  intros j Hj%elem_of_seq. destruct (l !! j) as [x|] eqn:Hx; [|done]. rewrite (Hno j x); [done|lia|done].
Qed.

Lemma matches_cons p l k Last x : (k < Last)%nat -> l !! k = Some x -> p x = true ->
  matches p l k Last = k :: matches p l (k + 1) Last.
Proof.
  intros Hk Hx Hp. unfold matches. replace (Last - k)%nat with (S (Last - (k + 1))) by lia. cbn [seq].
  rewrite filter_cons, Hx, Hp. cbn. rewrite decide_True by done. by rewrite Nat.add_1_r.
Qed.

(** When the last route matches, the loop gathers the matches; otherwise it leaves the table. *)
Lemma match_loop_spec p l fuel First Last m s : (First <= Last <= length l)%nat ->
  (length l <= RouteTableSize)%nat -> (length m <= First)%nat -> (length l + 2 <= First + fuel)%nat ->
  match_loop fuel p l First Last m s =
    (if decide (First = Last) then ([], Ret m s)
     else match l !! (Last - 1)%nat with
          | Some r => if p r then ([], Ret (m ++ matches p l First Last) s) else ([], Stop Faulted s)
          | None => ([], Stop Faulted s)
          end).
Proof.
  revert First m. induction fuel as [|fuel IH]; intros First m Hr Hcap Hm Hf; [lia|]. cbn [match_loop].
  destruct (decide (First = Last)) as [->|Hne]; [done|].
  destruct (find_if_run p l (length l) First Last s) as (k & Hk & Hkr & Hno & Hyes); [lia..|].
  erewrite kbind_pure by exact Hk. destruct (lookup_lt_is_Some_2 l (Last - 1)) as [r Hlast]; [lia|].
  rewrite Hlast. destruct (decide (k = Last)) as [->|Hkne].
  - erewrite kbind_pure; [|done]. rewrite (Hno (Last - 1)%nat r) by (try done; lia). apply match_loop_off; lia.
  - destruct Hyes as (x & Hx & Hp); [lia|]. rewrite decide_True by (unfold RouteTableSize in *; lia).
    erewrite kbind_pure; [|done]. rewrite IH by (rewrite ?length_app; simpl; lia).
    rewrite (matches_none p l First k Last) by (try done; lia). rewrite (matches_cons p l k Last x) by (try done; lia).
    destruct (decide ((k + 1)%nat = Last)) as [Heq|Hne'].
    + rewrite <-Heq in Hlast. replace (k + 1 - 1)%nat with k in Hlast by lia. rewrite Hx in Hlast. injection Hlast as <-. rewrite Hp.
      unfold matches. replace (Last - (k + 1))%nat with O by lia. done.
    + rewrite Hlast. destruct (p r); [|done]. by rewrite <-app_assoc.
Qed.

Lemma route_before_irrefl l v : route_before l v v = false.
Proof. unfold route_before. destruct (l !! v); [|done]. by rewrite Z.ltb_irrefl, andb_false_r. Qed.

(** One match, the last route. *)
Lemma only_route Target l r s : al_ok RouteTableSize (RouteTable s) -> live (RouteTable s) = l ++ [r] ->
  route_matches Target r = true -> Forall (fun r' => route_matches Target r' = false) l ->
  RouteTableMatch Target s = ([], Ret (Some (length l)) s) /\ elems (RouteTable s) !! length l = Some r.
Proof.
  intros Hok Hlive Hr Hl. pose proof (live_length _ _ Hok) as Hn. rewrite Hlive, length_app in Hn. cbn in Hn.
  assert (Hlook : forall i, (i < csize (RouteTable s))%nat -> elems (RouteTable s) !! i = (l ++ [r]) !! i)
    by (intros; rewrite <-Hlive; symmetry; by apply live_lookup).
  destruct Hok as [Hlen Hc]. assert (Hlast : elems (RouteTable s) !! length l = Some r)
    by (rewrite Hlook by lia; by rewrite lookup_app_r, Nat.sub_diag by lia).
  split; [|done]. unfold RouteTableMatch, RouteTableMatchIn. kstep. unfold kbind at 1.
  rewrite match_loop_spec by (simpl; unfold RouteTableSize in *; lia). rewrite decide_False by lia.
  replace (csize (RouteTable s) - 1)%nat with (length l) by lia. rewrite Hlast, Hr. cbn [app].
  rewrite (matches_none _ _ 0 (length l)), (matches_cons _ _ _ _ r); [|lia|done|done|lia|].
  - unfold matches. replace (csize (RouteTable s) - (length l + 1))%nat with O by lia. done.
  - intros j x Hj Hx. rewrite Hlook, lookup_app_l in Hx by lia. rewrite Forall_lookup in Hl. by apply (Hl j).
Qed.

(** C35. [RouteTableMatch], whatever the size of the stack: with no routes there is no match; when
    the last route of the table matches and no other does, it is the result; when others match
    too, the call never returns (the sort recurses for ever); when the last route does not
    match, the search runs past the end of the table and faults. *)
Theorem route_match depth Target s : al_ok RouteTableSize (RouteTable s) ->
  let l := live (RouteTable s) in
  let n := length l in
  RouteTableMatchIn depth Target s =
    match last l with
    | None => ([], Ret None s)
    | Some r =>
        if route_matches Target r then
          if decide (Forall (fun r' => route_matches Target r' = false) (take (n - 1) l)) then ([], Ret (Some (n - 1)%nat) s)
          else ([], Stop NoFuel s)
        else ([], Stop Faulted s)
    end.
Proof.
  intros Hok l n. pose proof (live_length _ _ Hok) as Hn. destruct Hok as [Hl Hc]. fold l n in Hn.
  unfold RouteTableMatchIn. kstep. set (e := elems (RouteTable s)) in *. set (c := csize (RouteTable s)) in *.
  set (p := route_matches Target).
  assert (Hlook : forall i, (i < c)%nat -> l !! i = e !! i) by (intros; by apply live_lookup).
  assert (Hlast : last l = if decide (c = 0)%nat then None else e !! (c - 1)%nat).
  { rewrite last_lookup. fold n. rewrite Hn. case_decide as H0.
    - rewrite H0. apply lookup_ge_None_2. fold n. lia.
    - replace (pred c) with (c - 1)%nat by lia. apply Hlook. lia. }
  rewrite Hlast. clear Hlast. unfold kbind at 1. rewrite match_loop_spec by (simpl; unfold RouteTableSize in *; lia).
  destruct (decide (0 = c)%nat) as [H0|H0]; [by rewrite decide_True by lia|]. rewrite decide_False by lia.
  destruct (lookup_lt_is_Some_2 e (c - 1)) as [r Hr]; [lia|]. rewrite Hr. fold p. destruct (p r) eqn:Hp; [|done].
  cbn [app]. assert (Hsplit : matches p e 0 c = matches p e 0 (c - 1) ++ [(c - 1)%nat]).
  { unfold matches. replace (c - 0)%nat with ((c - 1 - 0) + 1)%nat by lia. rewrite seq_app, filter_app. f_equal. cbn [seq].
    replace (0 + (c - 1 - 0))%nat with (c - 1)%nat by lia. rewrite filter_cons, Hr, Hp, decide_True by done. done. }
  rewrite Hsplit. case_decide as Hall.
  - assert (matches p e 0 (c - 1) = []) as ->; [|by rewrite Hn].
    unfold matches. apply filter_none. intros j Hj%elem_of_seq.
    destruct (e !! j) as [r'|] eqn:Hj'; [|done]. rewrite Forall_forall in Hall. rewrite Hall; [done|].
    apply list_elem_of_lookup. exists j. rewrite lookup_take_lt by lia. rewrite Hlook by lia. done.
  - destruct (matches p e 0 (c - 1)) as [|k m] eqn:Em.
    { exfalso. apply Hall. apply Forall_forall. intros r' (j & Hj)%list_elem_of_lookup.
      apply lookup_take_Some in Hj as [Hj Hlt]. rewrite Hlook in Hj by lia.
      destruct (route_matches Target r') eqn:Hr'; [|done]. exfalso. unfold matches in Em.
      eapply (filter_nil_not_elem_of _ _ j Em); [by rewrite Hj|]. apply elem_of_seq. lia. }
    destruct m as [|k' m]; cbn [app].
    all: unfold kbind; rewrite qsort_diverges; [done|intros v; apply route_before_irrefl|simpl; rewrite ?length_app; simpl; lia].
Qed.

(** A table with a default route only. *)
Definition no_route_item : RouteTableItem := Route 0 0 0 0 0 0 0 None.
Definition table {A} (max : nat) (d : A) (l : list A) : alist A := AList (l ++ replicate (max - length l) d) (length l).
Lemma table_ok {A} max (d : A) l : (length l <= max)%nat -> al_ok max (table max d l).
Proof. intros Hl. split; simpl; [|done]. rewrite length_app, length_replicate. lia. Qed.
Lemma table_live {A} max (d : A) l : live (table max d l) = l.
Proof. unfold live. simpl. by rewrite take_app_length. Qed.

Definition default_route : RouteTableItem := Route 0 16885952 0 3 0 0 0 (Some 0%nat).
Definition demo_net : netif :=
  Netif (table ARPTableSize (ARPItem 0 0 0 [] 0) []) false
    (table IPTableSize (IPItem None 0 0) [IPItem (Some 0%nat) 251766976 16777215])
    (table RouteTableSize no_route_item [default_route])
    [[82; 84; 0; 18; 52; 86]] [] 4200 (false, false) (Pings false false 0 0).

Lemma demo_net_ok : net_ok demo_net.
Proof.
  split; [apply table_ok; unfold ARPTableSize; simpl; lia|done|apply table_ok; unfold IPTableSize; simpl; lia|
    apply table_ok; unfold RouteTableSize; simpl; lia|].
  constructor; [|constructor]. split; [done|]. repeat (constructor; [lia|]). constructor.
Qed.

Lemma route_match_witness : RouteTableMatchIn 5 134744072 demo_net = ([], Ret (Some 0%nat) demo_net).
Proof.
  pose proof (route_match 5 134744072 demo_net (no_route _ demo_net_ok)) as H. vm_compute in H. exact H.
Defined.
