(* ===== verification/Arp.v ===== *)
(** * ARP: class ARP of kernel/UProtocols.cc

    The fields of an ARP packet, the table of neighbours, the request that fills it
    ([RequestFrom]), the handler of packets that arrive ([Main]) and the [arping] test. *)

From stdpp Require Import base list.
From Stdlib Require Import ZArith Lia.
From S2P Require Import Prelude Spinlock CString Bytes ArrayList Frame Ipv4 Net.
Open Scope Z_scope.

Definition ArpEtherType : Z := 2054.            (* 0x0806 *)
Definition Operation : nat := 6.
Definition SenderHardwareAddr : nat := 8.
Definition SenderProtocolAddr : nat := 14.
Definition TargetHardwareAddr : nat := 18.
Definition TargetProtocolAddr : nat := 24.
#[export] Hint Unfold Operation SenderHardwareAddr SenderProtocolAddr TargetHardwareAddr TargetProtocolAddr : offsets.

Definition Request : Z := 1.
Definition Reply : Z := 2.
Definition COM : Z := 2.

Definition GetHardwareType (f : frame) : Z := Frame.GetDataAs 2 0 true f.
Definition GetProtocolType (f : frame) : Z := Frame.GetDataAs 2 2 true f.
Definition GetHardwareLength (f : frame) : Z := Frame.GetDataAs 1 4 true f.
Definition GetProtocolLength (f : frame) : Z := Frame.GetDataAs 1 5 true f.
Definition GetOperation (f : frame) : Z := Frame.GetDataAs 2 Operation true f.
Definition GetSenderHardwareAddress (f : frame) : list Z := get_bytes (Payload + SenderHardwareAddr) 6 f.
Definition GetSenderProtocolAddress (f : frame) : Z := Frame.GetDataAs 4 SenderProtocolAddr false f.
Definition GetTargetHardwareAddress (f : frame) : list Z := get_bytes (Payload + TargetHardwareAddr) 6 f.
Definition GetTargetProtocolAddress (f : frame) : Z := Frame.GetDataAs 4 TargetProtocolAddr false f.

Definition SetHardwareType (v : Z) (f : frame) : frame := Frame.SetDataFrom 2 v 0 true f.
Definition SetProtocolType (v : Z) (f : frame) : frame := Frame.SetDataFrom 2 v 2 true f.
Definition SetHardwareLength (v : Z) (f : frame) : frame := Frame.SetDataFrom 1 v 4 true f.
Definition SetProtocolLength (v : Z) (f : frame) : frame := Frame.SetDataFrom 1 v 5 true f.
Definition SetOperation (v : Z) (f : frame) : frame := Frame.SetDataFrom 2 v Operation true f.
Definition SetSenderHardwareAddress (mac : list Z) (f : frame) : frame := put (Payload + SenderHardwareAddr) (take 6 mac) f.
Definition SetSenderProtocolAddress (v : Z) (f : frame) : frame := Frame.SetDataFrom 4 v SenderProtocolAddr false f.
Definition SetTargetHardwareAddress (mac : list Z) (f : frame) : frame := put (Payload + TargetHardwareAddr) (take 6 mac) f.
Definition SetTargetProtocolAddress (v : Z) (f : frame) : frame := Frame.SetDataFrom 4 v TargetProtocolAddr false f.

Definition IsValid (f : frame) : bool :=
  ((28 <? Frame.DataSize f) && (GetHardwareType f =? 1) && (GetProtocolType f =? EtherType) &&
   (GetHardwareLength f =? 6) && (GetProtocolLength f =? 4))%bool.

Definition Prepare (Op : Z) (f : frame) : frame :=
  let f := SetEtherType ArpEtherType f in
  let f := SetHardwareType 1 f in
  let f := SetProtocolType EtherType f in
  let f := SetHardwareLength 6 f in
  let f := SetProtocolLength 4 f in
  SetOperation Op f.

Section arp.
Context `{Fresh} `{Peers}.

Definition ARP : frame := SetEtherType ArpEtherType EthernetFrame.

(** ** The table *)

Definition ARPTableFind (IP : Z) : NK (option nat) :=
  let! s := kget in find_item (fun v => Address v =? IP) (ARPTable s).
Definition ARPTableAdd (NewItem : ARPTableItem) : NK unit :=
  let! s := kget in
  let! t := push_back NewItem (ARPTable s) in
  kmod (set_ARPTable t).
Definition ARPTableRemove (IP : Z) : NK unit :=
  let! k := ARPTableFind IP in
  match k with
  | None => kret tt
  | Some k => kmod (fun s => set_ARPTable (erase (ARPItem 0 0 0 [] 0) k (ARPTable s)) s)
  end.
Definition store_item (k : nat) (x : ARPTableItem) : NK unit :=
  kmod (fun s => set_ARPTable (AList (<[k := x]> (elems (ARPTable s))) (csize (ARPTable s))) s).
Definition ARPTableUpdate (IP : Z) (NewItem : ARPTableItem) : NK unit :=
  let! k := ARPTableFind IP in
  match k with None => kret tt | Some k => store_item k NewItem end.

(** ** Asking for an address *)

Definition request_for (mac : list Z) (ip IP : Z) : frame :=
  let f := Prepare Request ARP in
  let f := SetSenderHardwareAddress mac f in
  let f := SetSenderProtocolAddress ip f in
  let f := SetTargetProtocolAddress IP f in
  Broadcast f.

Definition RequestFrom (dev : nat) (IP : Z) : NK (option (list Z)) :=
  let! me := IPFind (Some dev) in
  match me with
  | None => kret None
  | Some me =>
      let! k := ARPTableFind IP in
      let! k :=
        (match k with
         | Some k => kret (Some k)
         | None =>
             let! mac := GetMACAddress dev in
             let! _ := EthToDevice dev (request_for mac (IPAddress me) IP) in
             kmod while_waiting ;;;              (* while (Delay) ... *)
             ARPTableFind IP
         end) in
      match k with
      | None => kret None
      | Some k => let! s := kget in let! x := item (ARPTable s) k in kret (Some (MACAddress x))
      end
  end.

(** ** Packets that arrive *)

Definition reply_to (mac : list Z) (ip : Z) (f : frame) : frame :=
  let r := Prepare Reply ARP in
  let r := SetSenderHardwareAddress mac r in
  let r := SetSenderProtocolAddress ip r in
  let r := SetTargetHardwareAddress (GetSenderHardwareAddress f) r in
  let r := SetTargetProtocolAddress (GetSenderProtocolAddress f) r in
  SetDestination (GetSenderHardwareAddress f) r.

(** Check and update if exist; the entry found. *)
Definition refresh_entry (ip : Z) (mac : list Z) : NK (option nat) :=
  let! k := ARPTableFind ip in
  (match k with
   | Some k =>
       let! s := kget in
       let! x := item (ARPTable s) k in
       store_item k (ARPItem (Address x) (HWType x) (AFlags x) mac (Adapter x))
   | None => kret tt
   end) ;;;
  kret k.

Definition check_existing (f : frame) : NK (option nat) :=
  acquire arp_lk ;;;
  let! k := refresh_entry (GetSenderProtocolAddress f) (GetSenderHardwareAddress f) in
  release arp_lk ;;;
  kret k.
Definition add_sender (dev : nat) (f : frame) : NK unit :=
  acquire arp_lk ;;;
  ARPTableAdd (ARPItem (GetSenderProtocolAddress f) (GetHardwareType f) COM (GetSenderHardwareAddress f) dev) ;;;
  release arp_lk.

Definition Main (dev : nat) (f : frame) : NK unit :=
  if negb (IsValid f) then kret tt                       (* cprintf: invalid ARP frame *)
  else
    kmod (fun s => if ((arping s).1 && (GetOperation f =? Reply))%bool then set_arping ((arping s).1, true) s else s) ;;;
    let! k := check_existing f in
    (* ARP packet handle *)
    let! me := IPFind (Some dev) in
    match me with
    | None => kret tt
    | Some me =>
        if negb (IPAddress me =? GetTargetProtocolAddress f) then kret tt
        else
          (match k with Some _ => kret tt | None => add_sender dev f end) ;;;
          if GetOperation f =? Request then
            let! mac := GetMACAddress dev in
            let! _ := EthToDevice dev (reply_to mac (IPAddress me) f) in
            kret tt
          else kret tt
    end.

(** ** [ARP::Tester::ARPing]: 0 when answered, 1 when there is no route or address, 2 when not
    answered.  The flag that says a test is running stays set when there is no route. *)
Definition ARPing (Target : Z) : NK Z :=
  kmod (set_arping (true, false)) ;;;
  let! r := RouteTableMatch Target in
  match r with
  | None => kret 1
  | Some k =>
      let! s := kget in
      let! r := item (RouteTable s) k in
      match Iface r with
      | None => fault
      | Some dev =>
          let! me := IPFind (Some dev) in
          match me with
          | None => kret 1
          | Some me =>
              let! mac := GetMACAddress dev in
              let! _ := EthToDevice dev (request_for mac (IPAddress me) Target) in
              kmod while_waiting ;;;
              let! s := kget in
              kmod (set_arping (false, false)) ;;;
              kret (if (arping s).2 then 0 else 2)
          end
      end
  end.
End arp.

(** ** What the handler promises *)

Section arp_spec.
Context `{Fresh} `{Peers}.

Definition known (ip : Z) (l : list ARPTableItem) : bool := existsb (fun v => Address v =? ip) l.
(** The first entry for [ip] gets the address [mac]. *)
Fixpoint refresh (ip : Z) (mac : list Z) (l : list ARPTableItem) : list ARPTableItem :=
  match l with
  | [] => []
  | x :: l' => if Address x =? ip then ARPItem (Address x) (HWType x) (AFlags x) mac (Adapter x) :: l'
               else x :: refresh ip mac l'
  end.
(** The table after a packet from [ip] at [mac]. *)
Definition learned (mine : bool) (new : ARPTableItem) (l : list ARPTableItem) : list ARPTableItem :=
  if known (Address new) l then refresh (Address new) (MACAddress new) l
  else if mine then l ++ [new] else l.

Definition sender_item (dev : nat) (f : frame) : ARPTableItem :=
  ARPItem (GetSenderProtocolAddress f) (GetHardwareType f) COM (GetSenderHardwareAddress f) dev.

Lemma refresh_at ip mac l k x : l !! k = Some x -> Address x = ip ->
  (forall j y, (j < k)%nat -> l !! j = Some y -> Address y =? ip = false) ->
  refresh ip mac l = <[k := ARPItem (Address x) (HWType x) (AFlags x) mac (Adapter x)]> l.
Proof.
  revert k. induction l as [|y l IH]; intros [|k] Hk Hx Hno; [done..| |]; cbn [refresh].
  - injection Hk as ->. by rewrite Hx, Z.eqb_refl.
  - rewrite (Hno O y) by (try done; lia). cbn. f_equal. apply IH; [done|done|]. intros j z Hj. apply (Hno (S j)). lia.
Qed.

Lemma known_lookup ip l k x : l !! k = Some x -> Address x = ip -> known ip l = true.
Proof.
  intros Hk Hx. apply existsb_exists. exists x. split; [apply list_elem_of_In; by eapply list_elem_of_lookup_2|by apply Z.eqb_eq].
Qed.

(** Looking up what was learned. *)
Lemma find_learned mine new l : known (Address new) l = true \/ mine = true ->
  exists x, List.find (fun v => Address v =? Address new) (learned mine new l) = Some x /\ MACAddress x = MACAddress new.
Proof.
  unfold learned. destruct (known (Address new) l) eqn:Hk.
  - intros _. induction l as [|y l IH]; [done|]. cbn [refresh]. cbn in Hk.
    destruct (Address y =? Address new) eqn:E; cbn; rewrite E; [eauto|]. apply IH. done.
  - intros [Hc| ->]; [done|]. exists new. split; [|done]. induction l as [|y l IH]; cbn; [by rewrite Z.eqb_refl|].
    cbn in Hk. apply orb_false_iff in Hk as [-> Hk]. by apply IH.
Qed.

Lemma learned_nodup mine new l : NoDup (Address <$> l) -> NoDup (Address <$> learned mine new l).
Proof.
  intros Hnd. unfold learned. destruct (known (Address new) l) eqn:Hk.
  - replace (Address <$> refresh (Address new) (MACAddress new) l) with (Address <$> l); [done|].
    clear. induction l as [|y l IH]; cbn; [done|]. case_match; cbn; by rewrite <-?IH.
  - destruct mine; [|done]. rewrite fmap_app. apply NoDup_app. split_and!; [done| |by apply NoDup_singleton].
    intros a Ha Ha'%list_elem_of_singleton. subst a. apply list_elem_of_fmap in Ha as (x & Hx & Hin).
    apply not_true_iff_false in Hk. apply Hk. apply existsb_exists. exists x. split; [by apply list_elem_of_In|]. by apply Z.eqb_eq.
Qed.

(** The lookup under the lock, and the store. *)
Lemma refresh_entry_run ip mac s : al_ok ARPTableSize (ARPTable s) -> exists s' k,
  refresh_entry ip mac s = ([], Ret k s') /\
  s' = set_ARPTable (ARPTable s') s /\ al_ok ARPTableSize (ARPTable s') /\ csize (ARPTable s') = csize (ARPTable s) /\
  live (ARPTable s') = refresh ip mac (live (ARPTable s)) /\
  (k = None <-> known ip (live (ARPTable s)) = false).
Proof.
  intros Hok. unfold refresh_entry, ARPTableFind.
  destruct (find_item_spec (fun v => Address v =? ip) _ (ARPTable s) s Hok)
    as [[E Hno]|(k & x & E & Hk & Hx & Hp & Hno)].
  - exists s, None. split.
    { unfold kbind at 1. kstep. rewrite E. done. }
    split_and!; [by destruct s|apply Hok|done| |].
    + symmetry. clear E. induction (live (ARPTable s)) as [|y l IH]; [done|]. cbn [refresh]. rewrite (Hno y) by left. f_equal.
      apply IH. intros z Hz. apply Hno. by right.
    + split; [|done]. intros _. apply not_true_iff_false. intros (y & Hy%list_elem_of_In & Ey)%existsb_exists. by rewrite Hno in Ey.
  - apply Z.eqb_eq in Hp.
    eexists _, (Some k). split.
    { unfold kbind at 1. kstep. rewrite E. unfold item, store_item, kbind, kget, kmod, kret. rewrite Hx. reflexivity. }
    cbn [ARPTable set_ARPTable csize]. split_and!; [by destruct s|split; cbn; [by rewrite length_insert; apply Hok|apply Hok]|done| |].
    + rewrite (refresh_at ip mac (live (ARPTable s)) k x); [|by rewrite live_lookup|done|].
      * unfold live. cbn [elems csize]. by rewrite take_insert_lt.
      * intros j y Hj Hy. rewrite live_lookup in Hy by lia. by apply (Hno j).
    + split; [done|]. intros Hkn. exfalso. rewrite (known_lookup ip _ k x) in Hkn; [done|by rewrite live_lookup|done].
Qed.
(** A well-formed ARP packet. *)
Record is_arp (r : frame) (op : Z) (sha : list Z) (spa : Z) (tpa : Z) : Prop := {
  ia_valid : IsValid r = true;
  ia_type : GetEtherType r = ArpEtherType;
  ia_op : GetOperation r = op;
  ia_sha : GetSenderHardwareAddress r = sha;
  ia_spa : GetSenderProtocolAddress r = spa;
  ia_tpa : GetTargetProtocolAddress r = tpa;
}.

Ltac arp_unfold :=
  unfold request_for, reply_to, Prepare, ARP, SetSenderHardwareAddress, SetSenderProtocolAddress, SetTargetHardwareAddress,
    SetTargetProtocolAddress, SetHardwareType, SetProtocolType, SetHardwareLength, SetProtocolLength, SetOperation,
    GetHardwareType, GetProtocolType, GetHardwareLength, GetProtocolLength, GetOperation, GetTargetProtocolAddress,
    GetTargetHardwareAddress, Frame.SetDataFrom, Frame.GetDataAs, GetEtherType, SetEtherType, SetDestination, SetSource,
    GetDestination, GetSource, Broadcast.

(** The first six steps of a packet, common to requests and replies. *)
Definition prepared (op : Z) : frame := Prepare op ARP.
Lemma prepared_fields op : 0 <= op < 2 ^ 16 ->
  frame_ok (prepared op) /\ FrameSize (prepared op) = 64 /\ GetEtherType (prepared op) = ArpEtherType /\
  GetHardwareType (prepared op) = 1 /\ GetProtocolType (prepared op) = EtherType /\
  GetHardwareLength (prepared op) = 6 /\ GetProtocolLength (prepared op) = 4 /\ GetOperation (prepared op) = op.
Proof.
  intros Hop. unfold prepared. split.
  { arp_unfold. repeat (apply set_at_ok; [|offset_lia]). repeat (apply put_header_ok; [|apply enc_bytes|rewrite enc_length; lia]).
    apply EthernetFrame_ok. }
  split; [done|]. arp_unfold. split_and!; frame_fields; try done. rewrite Z.mod_small; lia.
Qed.

(** The addresses filled in. *)
Lemma filled_fields op f sha spa tha tpa : frame_ok f -> f = prepared op -> 0 <= op < 2 ^ 16 ->
  length sha = 6%nat -> bytes sha -> length tha = 6%nat -> bytes tha -> 0 <= spa < 2 ^ 32 -> 0 <= tpa < 2 ^ 32 ->
  let g := SetTargetProtocolAddress tpa (SetTargetHardwareAddress tha (SetSenderProtocolAddress spa (SetSenderHardwareAddress sha f))) in
  frame_ok g /\ is_arp g op sha spa tpa.
Proof.
  intros Hf Ef Hop Hls Hbs Hlt Hbt Hspa Htpa g. unfold g. clear g. destruct (prepared_fields op Hop) as (_ & Hsz & H1 & H2 & H3 & H4 & H5 & H6).
  rewrite <-Ef in *. clear Ef. split.
  { arp_unfold. apply set_at_ok; [|offset_lia]. apply put_ok; [|by apply Forall_take|offset_lia].
    apply set_at_ok; [|offset_lia]. apply put_ok; [done|by apply Forall_take|offset_lia]. }
  assert (Hsh : take 6 sha = sha) by (apply take_ge; lia). assert (Hth : take 6 tha = tha) by (apply take_ge; lia).
  unfold GetHardwareType, GetProtocolType, GetHardwareLength, GetProtocolLength, GetOperation, GetEtherType, Frame.GetDataAs in *.
  split.
  - unfold IsValid. arp_unfold. rewrite !Hsh, !Hth. frame_fields. rewrite H2, H3, H4, H5.
    unfold Frame.DataSize. rewrite size_set_at. unfold put, set_at. cbn [FrameSize]. rewrite ?enc_length, ?size_set_at, !Hls, !Hlt; unfold put; cbn [FrameSize]; rewrite ?Hls, Hsz. done.
  - arp_unfold. rewrite !Hsh, !Hth. frame_fields. done.
  - arp_unfold. rewrite !Hsh, !Hth. frame_fields. done.
  - unfold GetSenderHardwareAddress. arp_unfold. rewrite !Hsh, !Hth. frame_fields.
    rewrite <-Hls at 1. apply bytes_same; [frame_length|offset_lia].
  - unfold GetSenderProtocolAddress. arp_unfold. rewrite !Hsh, !Hth. frame_fields. rewrite Z.mod_small; [done|]. lia.
  - arp_unfold. rewrite !Hsh, !Hth. frame_fields. rewrite Z.mod_small; [done|]. lia.
Qed.

Lemma refresh_unknown ip mac l : known ip l = false -> refresh ip mac l = l.
Proof.
  induction l as [|y l IH]; [done|]. cbn. intros [-> Hk]%orb_false_iff. by rewrite IH.
Qed.

(** The table part of [Main]: the lock is free again, the table has learned the sender. *)
Lemma arp_learns dev f s : net_ok s -> (csize (ARPTable s) < ARPTableSize)%nat -> exists s' k,
  check_existing f s = ([], Ret k s') /\
  s' = set_ARPTable (ARPTable s') s /\ net_ok s' /\ (csize (ARPTable s') < ARPTableSize)%nat /\
  live (ARPTable s') = learned false (sender_item dev f) (live (ARPTable s)) /\
  (k = None <-> known (GetSenderProtocolAddress f) (live (ARPTable s)) = false).
Proof.
  intros Hok Hroom. destruct (refresh_entry_run (GetSenderProtocolAddress f) (GetSenderHardwareAddress f) (set_ARPLock true s))
    as (s1 & k & E & Hs1 & Hal & Hcs & Hl & Hk); [apply Hok|].
  cbn [ARPTable set_ARPLock] in *. exists (set_ARPLock false s1), k. split.
  { unfold check_existing. kstep_by ltac:(apply acquire_run, Hok). erewrite kbind_pure by exact E.
    erewrite kbind_pure by (apply release_run; by rewrite Hs1). done. }
  rewrite Hs1. cbn. split_and!; [by destruct s, Hok as [_ ? _ _ _]; simpl in *; subst| |by rewrite Hcs| |done].
  - destruct Hok. by split.
  - rewrite Hl. unfold learned. cbn [Address MACAddress sender_item]. destruct (known _ _) eqn:Hkn; [done|]. by apply refresh_unknown.
Qed.

Lemma add_sender_run dev f s : net_ok s -> (csize (ARPTable s) < ARPTableSize)%nat -> exists s',
  add_sender dev f s = ([], Ret tt s') /\ s' = set_ARPTable (ARPTable s') s /\ net_ok s' /\
  live (ARPTable s') = live (ARPTable s) ++ [sender_item dev f].
Proof.
  intros Hok Hroom. destruct (push_back_run ARPTableSize (ARPTable s) (sender_item dev f) (set_ARPLock true s) (no_arp _ Hok) Hroom)
    as (a & E & Hal & Hl).
  exists (set_ARPTable a s). split.
  { unfold add_sender. kstep_by ltac:(apply acquire_run, Hok). unfold ARPTableAdd.
    erewrite kbind_pure; [|kstep; cbn [ARPTable set_ARPLock lput arp_lk]; erewrite kbind_pure by exact E; done].
    rewrite release_run by done. destruct s, Hok as [_ ? _ _ _]; simpl in *; by subst. }
  split_and!; [done|destruct Hok; by split|done].
Qed.

(** A table entry answers [RequestFrom] without a packet. *)
Lemma RequestFrom_known dev ip me x s : net_ok s -> address_of dev s = Some me ->
  List.find (fun v => Address v =? ip) (live (ARPTable s)) = Some x ->
  RequestFrom dev ip s = ([], Ret (Some (MACAddress x)) s).
Proof.
  intros Hok Hme Hx. unfold RequestFrom. erewrite kbind_pure by (apply IPFind_run, Hok). rewrite Hme.
  destruct (find_item_spec (fun v => Address v =? ip) _ (ARPTable s) s (no_arp _ Hok))
    as [[E Hno]|(k & y & E & Hk & Hy & Hp & Hno)].
  { by rewrite find_nothing in Hx. }
  erewrite kbind_pure by (unfold ARPTableFind; kstep; exact E). cbv iota. erewrite kbind_pure; [|done]. cbv iota. kstep.
  erewrite kbind_pure by (unfold item; by rewrite Hy).
  rewrite (find_first _ _ k y) in Hx; [by injection Hx as ->|by rewrite live_lookup|done|].
  intros j z Hj Hz. rewrite live_lookup in Hz by lia. by apply (Hno j).
Qed.

Lemma reply_fields mac ip f : frame_ok f -> length mac = 6%nat -> bytes mac -> 0 <= ip < 2 ^ 32 ->
  let r := SetSource mac (reply_to mac ip f) in
  is_arp r Reply mac ip (GetSenderProtocolAddress f) /\ GetDestination r = GetSenderHardwareAddress f /\ GetSource r = mac.
Proof.
  intros Hf Hl Hb Hip r. destruct (prepared_fields Reply) as (Hp & _); [unfold Reply; lia|].
  set (sha := GetSenderHardwareAddress f). assert (Hls : length sha = 6%nat) by (apply get_bytes_length; [apply Hf|offset_lia]).
  assert (Hbs : bytes sha) by (by apply get_bytes_bytes).
  assert (Hspa : 0 <= GetSenderProtocolAddress f < 2 ^ 32) by (apply (get_at_range 4); [done|offset_lia]).
  destruct (filled_fields Reply (prepared Reply) mac ip sha (GetSenderProtocolAddress f) Hp eq_refl) as [Hg [H1 H2 H3 H4 H5 H6]];
    try done.
  unfold reply_to, prepared in *. fold sha in r. set (g := SetTargetProtocolAddress _ _) in *. clearbody g.
  assert (Hsh : take 6 sha = sha) by (apply take_ge; lia). assert (Hm : take 6 mac = mac) by (apply take_ge; lia).
  unfold r, SetSource, SetDestination. rewrite Hsh, Hm. split_and!.
  - unfold IsValid, GetHardwareType, GetProtocolType, GetHardwareLength, GetProtocolLength, GetOperation, GetEtherType,
      GetTargetProtocolAddress, GetSenderProtocolAddress, GetSenderHardwareAddress, Frame.GetDataAs in *.
    split; try (unfold IsValid, GetHardwareType, GetProtocolType, GetHardwareLength, GetProtocolLength, GetOperation, GetEtherType,
      GetTargetProtocolAddress, GetSenderProtocolAddress, GetSenderHardwareAddress, Frame.GetDataAs); frame_fields; done.
  - unfold GetDestination. frame_fields. pose proof (bytes_header_same 0 sha g) as Hx. rewrite Hls in Hx. apply Hx; [frame_length|lia].
  - unfold GetSource. pose proof (bytes_header_same 6 mac (put_header 0 sha g)) as Hx. rewrite Hl in Hx. apply Hx; [frame_length|lia].
Qed.

End arp_spec.

Section arp_more.
Context `{Fresh} `{Peers}.

(** A packet for somebody else only refreshes an entry there is already. *)
Lemma arp_overheard dev f s : net_ok s -> IsValid f = true ->
  (forall me, address_of dev s = Some me -> IPAddress me <> GetTargetProtocolAddress f) -> (csize (ARPTable s) < ARPTableSize)%nat ->
  exists s', Main dev f s = ([], Ret tt s') /\ net_ok s' /\ sent s' = sent s /\
    live (ARPTable s') = learned false (sender_item dev f) (live (ARPTable s)).
Proof.
  intros Hok Hv Hno Hroom.
  set (s0 := if ((arping s).1 && (GetOperation f =? Reply))%bool then set_arping ((arping s).1, true) s else s).
  assert (Hz : net_ok s0 /\ ARPTable s0 = ARPTable s /\ IPTable s0 = IPTable s /\ sent s0 = sent s).
  { unfold s0. case_match; split_and!; try done. by destruct Hok. }
  destruct Hz as (Hok0 & Ha0 & Hi0 & Hs0).
  destruct (arp_learns dev f s0 Hok0) as (s1 & k & E1 & Es1 & Hok1 & Hr1 & Hl1 & Hk1); [by rewrite Ha0|]. rewrite Ha0 in *.
  exists s1. split_and!; [|done|by rewrite Es1|done].
  unfold Main. rewrite Hv. cbn [negb]. erewrite kbind_pure; [|done]. fold s0. erewrite kbind_pure by exact E1.
  erewrite kbind_pure by (apply IPFind_run, Hok1). assert (address_of dev s1 = address_of dev s) as ->.
  { unfold address_of. rewrite Es1. cbn. by rewrite Hi0. }
  destruct (address_of dev s) as [me|]; [|done]. rewrite (proj2 (Z.eqb_neq _ _)); [done|]. by apply Hno.
Qed.

(** The table is full: the entry of a new neighbour is written past its end. *)
Theorem arp_table_overflows dev f s : al_ok ARPTableSize (ARPTable s) -> ARPLock s = false -> csize (ARPTable s) = ARPTableSize ->
  add_sender dev f s = ([], Stop Faulted (set_ARPLock true s)).
Proof.
  intros Hal Hlk Hfull. unfold add_sender. kstep_by ltac:(by apply acquire_run). apply kbind_stop. unfold ARPTableAdd. kstep.
  apply kbind_stop. by apply (push_back_full ARPTableSize).
Qed.
End arp_more.

(** ** An example: a request for the address of [demo_net] *)

#[export] Instance demo_fresh : Fresh.
Proof. refine {| junk := fun _ => 1 |}. intros. lia. Defined.
#[export] Instance demo_peers : Peers.
Proof. refine {| while_waiting := fun s => s |}; done. Defined.

Definition peer_mac : list Z := [82; 85; 10; 0; 2; 2].
Definition peer_request : frame := SetSource peer_mac (request_for peer_mac 33685514 251766976).
Lemma peer_request_ok : frame_ok peer_request.
Proof. apply checked_ok. vm_compute. reflexivity. Qed.

