(* ===== verification/IpSend.v ===== *)
(** * Sending a packet: IPv4::ToDevice of kernel/UProtocols.cc

    The hardware address of the destination is asked for, the header completed and its checksum
    computed.  Packets that leave this way pass the test of a receiver ([ip_sends_valid]). *)

From stdpp Require Import base list.
From Stdlib Require Import ZArith Lia.
From S2P Require Import Prelude Spinlock CString Bytes ArrayList Frame Checksum Random Ipv4 Net Arp.
Open Scope Z_scope.

(** From [SetSourceAddress] to [SetHeaderChecksum]; [now] seeds the engine that makes the first
    identification. *)
Definition complete_header (ip : Z) (mac : list Z) (now ResizeTo : Z) (f : frame) : option frame :=
  let f := SetSourceAddress ip f in
  let f := SetDestination mac f in
  let f := SetIdentification (if GetIdentification f =? 0 then first_value now else GetIdentification f + 1) f in
  let f := SetTimeToLive 128 f in
  (if ResizeTo =? 0 then Some f
   else Resize (if ResizeTo <? header f then header f else ResizeTo) f) ≫= fun f =>
  Some (SetHeaderChecksum (VerifyChecksum true f) f).

Definition ToDevice `{Fresh} `{Peers} (dev : nat) (ResizeTo : Z) (f : frame) : NK (Z * frame) :=
  let! it := IPFind (Some dev) in
  match it with
  | None => kret (-1, f)                               (* no available addresses *)
  | Some it =>
      let! DstMACAddr := RequestFrom dev (GetDestinationAddress f) in
      match DstMACAddr with
      | None => kret (-2, f)                           (* no hardware address *)
      | Some mac =>
          let! now := time in
          match complete_header (IPAddress it) mac now ResizeTo f with
          | None => fault
          | Some f =>
              let! r := EthToDevice dev f in
              let! m := GetMACAddress dev in
              kret (r, SetSource m f)
          end
      end
  end.

(** ** The header *)

(** A packet that only lacks what [ToDevice] fills in. *)
Record ip_sound (f : frame) : Prop := {
  is_ok : frame_ok f;
  is_version : GetVersion f = 4;
  is_header : 20 <= header f <= Frame.DataSize f;
  is_total : GetTotalLength f <= Frame.DataSize f;
  is_min : MinFrameSize <= FrameSize f;
}.

(** Two frames with the same bytes from [a] to [b]. *)
Definition same_bytes (a b : nat) (f g : frame) : Prop :=
  forall p n, (a <= p)%nat -> (p + n <= b)%nat -> get_bytes p n g = get_bytes p n f.

Lemma same_get a b f g n r p : same_bytes a b f g -> (a <= p)%nat -> (p + n <= b)%nat -> get_at n r p g = get_at n r p f.
Proof. intros H H1 H2. unfold get_at. f_equal. by apply H. Qed.
Lemma same_trans a b f g h : same_bytes a b f g -> same_bytes a b g h -> same_bytes a b f h.
Proof. intros H1 H2 p n Hp Hn. rewrite H2 by done. by apply H1. Qed.
Lemma same_weaken a b a' b' f g : same_bytes a b f g -> (a <= a')%nat -> (b' <= b)%nat -> same_bytes a' b' f g.
Proof. intros H Ha Hb p n Hp Hn. apply H; lia. Qed.

Lemma size_small n r p v f : MinFrameSize <= FrameSize f -> (p + n <= 64)%nat -> FrameSize (set_at n r p v f) = FrameSize f.
Proof. intros H Hp. rewrite size_set_at. apply grow_small; [|done]. unfold MinFrameSize in H. lia. Qed.

(** The fields stored before the resize. *)
Definition addressed (ip : Z) (mac : list Z) (now : Z) (f : frame) : frame :=
  let f := SetSourceAddress ip f in
  let f := SetDestination mac f in
  let f := SetIdentification (if GetIdentification f =? 0 then first_value now else GetIdentification f + 1) f in
  SetTimeToLive 128 f.

Lemma addressed_fields ip mac now f : ip_sound f -> length mac = 6%nat -> bytes mac -> 0 <= ip < 2 ^ 32 ->
  let g := addressed ip mac now f in
  ip_sound g /\ FrameSize g = FrameSize f /\ header g = header f /\ GetTotalLength g = GetTotalLength f /\ GetTimeToLive g = 128 /\
  GetSourceAddress g = ip /\ GetDestinationAddress g = GetDestinationAddress f /\ GetProtocol g = GetProtocol f /\
  GetDestination g = mac /\ same_bytes 30 1518 f g.
Proof.
  intros [Hf Hv Hh Ht Hm] Hl Hb Hip g. unfold g, addressed, SetDestination.
  assert (Hmac : take 6 mac = mac) by (apply take_ge; lia). rewrite Hmac.
  generalize (if GetIdentification (put_header 0 mac (SetSourceAddress ip f)) =? 0 then first_value now
              else GetIdentification (put_header 0 mac (SetSourceAddress ip f)) + 1). intros id.
  unfold SetTimeToLive, SetIdentification, SetSourceAddress, Frame.SetDataFrom. clear g.
  set (f1 := set_at 4 false (Payload + SourceAddress) ip f). set (f2 := put_header 0 mac f1).
  assert (Hf2 : frame_ok f2) by (apply put_header_ok; [apply set_at_ok; [done|offset_lia]|done|lia]).
  assert (Hsz1 : FrameSize f1 = FrameSize f) by (apply size_small; [done|offset_lia]).
  assert (Hsz : FrameSize (set_at 1 true (Payload + TimeToLive) 128 (set_at 2 true (Payload + Identification) id f2)) = FrameSize f).
  { rewrite !size_small; [exact Hsz1| | | |]; try (change (FrameSize f2) with (FrameSize f1); rewrite Hsz1; done); try offset_lia.
    rewrite size_small; [change (FrameSize f2) with (FrameSize f1); by rewrite Hsz1| |offset_lia].
    change (FrameSize f2) with (FrameSize f1). by rewrite Hsz1. }
  set (g := set_at 1 true (Payload + TimeToLive) 128 (set_at 2 true (Payload + Identification) id f2)) in *.
  assert (Hg : frame_ok g) by (apply set_at_ok; [apply set_at_ok; [done|offset_lia]|offset_lia]).
  assert (Hhd : GetVersion g = GetVersion f /\ header g = header f /\ GetTotalLength g = GetTotalLength f).
  { unfold header, GetVersion, GetInternetHeaderLength, GetTotalLength, Frame.GetDataAs, g, f2, f1. frame_fields. done. }
  destruct Hhd as (H1 & H2 & H3).
  split_and!; try done.
  - split; [done|by rewrite H1| | |by rewrite Hsz]; unfold Frame.DataSize; rewrite ?H2, ?H3, Hsz; done.
  - unfold GetTimeToLive, Frame.GetDataAs, g. by frame_field.
  - unfold GetSourceAddress, Frame.GetDataAs, g, f2, f1. frame_fields. rewrite Z.mod_small; lia.
  - unfold GetDestinationAddress, Frame.GetDataAs, g, f2, f1. by frame_fields.
  - unfold GetProtocol, Frame.GetDataAs, g, f2, f1. by frame_fields.
  - assert (Hlf1 : length (Data f1) = 1518%nat) by (unfold f1; frame_length).
    unfold GetDestination, g, f2. frame_fields. pose proof (bytes_header_same 0 mac f1) as Hx. rewrite Hl in Hx.
    apply Hx; [done|lia].
  - intros p n Hp Hn. unfold g, f2, f1. by frame_fields.
Qed.

(** ** Resizing *)

(** [Resize] leaves the header and the bytes kept; the size is the one asked for, or the least. *)
Lemma Resize_fields n f : ip_sound f -> header f <= n -> HeaderSize + n <= MaxFrameSize ->
  exists g, Resize n f = Some g /\ ip_sound g /\ header g = header f /\ GetTotalLength g = n /\
    FrameSize g = Z.max MinFrameSize (HeaderSize + n) /\
    same_bytes 0 16 f g /\ same_bytes 18 (Z.to_nat (HeaderSize + n)) f g.
Proof.
  intros [Hf Hv Hh Ht Hm] Hn Hmax. unfold HeaderSize, MaxFrameSize, MinFrameSize in *.
  assert (Hsz : exists h, Frame.Resize (HeaderSize + n) f = Some h /\ frame_ok h /\ FrameSize h = Z.max 64 (14 + n) /\
    same_bytes 0 (Z.to_nat (14 + n)) f h).
  { unfold Frame.Resize, HeaderSize. destruct (Z.ltb_spec (FrameSize f) (14 + n)) as [Hlt|Hge].
    - eexists. split; [done|]. destruct Hf as [Hl Hb Hs]. split_and!; [split; cbn; [done|done|unfold MinDataSize, MaxFrameSize; lia]|cbn; lia|].
      intros p k _ _. done.
    - unfold EraseData. replace (14 + n + (FrameSize f - (14 + n))) with (FrameSize f) by lia. rewrite Z.eqb_refl.
      set (h := if (FrameSize f - (14 + n)) <=? (14 + n) then f
                else Frame (splice (Data f) (Z.to_nat (14 + n)) (replicate (Z.to_nat (FrameSize f - (14 + n) - (14 + n))) 0)) (FrameSize f)).
      assert (Hz : zero_range (14 + n) (FrameSize f - (14 + n)) f = Some h).
      { unfold zero_range, h. case_match; [done|].
        destruct Hf as [_ _ [_ Hs]]. unfold MaxFrameSize in Hs.
        rewrite (proj2 (Z.leb_le 0 (14 + n))), (proj2 (Z.leb_le _ MaxFrameSize)) by (unfold MaxFrameSize; lia). done. }
      assert (Hh' : frame_ok h /\ FrameSize h = FrameSize f /\ same_bytes 0 (Z.to_nat (14 + n)) f h).
      { unfold h. destruct (Z.leb_spec (FrameSize f - (14 + n)) (14 + n)) as [Hle|Hgt]; [split_and!; [done|done|by intros p k _ _]|].
        destruct Hf as [Hl Hb [Hs1 Hs2]]. unfold MaxFrameSize in Hs2. split_and!; [|done|].
        - split; cbn; [rewrite length_splice; rewrite ?length_replicate; lia|apply bytes_splice; [done|by apply Forall_replicate]|done].
        - intros p k Hp Hk. apply slice_splice_other; rewrite ?length_replicate; lia. }
      destruct Hh' as (Hok & Hs & Hsame). rewrite Hz. eexists. split; [reflexivity|]. unfold shrink. destruct Hok as [Hl Hb Hsz].
      split_and!; [split; cbn; [done|done|] |cbn; unfold MinFrameSize|done]; rewrite ?Hs; unfold MinFrameSize, MinDataSize, MaxFrameSize in *;
        destruct (Z.ltb_spec (FrameSize f - (FrameSize f - (14 + n))) 64); lia. }
  destruct Hsz as (h & Hr & Hhok & Hhs & Hhb). unfold Resize. unfold HeaderSize in Hr |- *. rewrite Hr. eexists. split; [reflexivity|].
  pose proof (header_range f Hf) as Hhr. assert (Hn0 : 20 <= n < 2 ^ 16) by lia.
  assert (Hsize : FrameSize (SetTotalLength n h) = FrameSize h).
  { apply size_small; [rewrite Hhs; unfold MinFrameSize; lia|offset_lia]. }
  assert (Hlow : forall p k r, (p + k <= 16 \/ (18 <= p /\ p + k <= Z.to_nat (14 + n)))%nat ->
    get_at k r p (SetTotalLength n h) = get_at k r p f).
  { intros p k r Hp. unfold SetTotalLength, Frame.SetDataFrom. frame_field. apply (same_get 0 (Z.to_nat (14 + n))); [done|lia|lia]. }
  assert (Hv' : GetVersion (SetTotalLength n h) = GetVersion f) by (unfold GetVersion, Frame.GetDataAs; rewrite Hlow by offset_lia; done).
  assert (Hd' : header (SetTotalLength n h) = header f)
    by (unfold header, GetInternetHeaderLength, Frame.GetDataAs; rewrite Hlow by offset_lia; done).
  assert (Ht' : GetTotalLength (SetTotalLength n h) = n).
  { unfold GetTotalLength, SetTotalLength, Frame.GetDataAs, Frame.SetDataFrom. frame_field. rewrite Z.mod_small; [done|]. lia. }
  split_and!; [|done|done|by rewrite Hsize| |].
  - split; [apply set_at_ok; [done|offset_lia]|congruence| | |]; unfold Frame.DataSize, HeaderSize, MinFrameSize;
      rewrite ?Hd', ?Ht', Hsize, Hhs; lia.
  - intros p k _ Hk. unfold SetTotalLength, Frame.SetDataFrom. frame_field. apply Hhb; lia.
  - intros p k Hp Hk. unfold SetTotalLength, Frame.SetDataFrom. frame_field. apply Hhb; lia.
Qed.

(** ** The packet that leaves *)

(** What a packet [g], sent for [f] from [ip] to the hardware address [mac], looks like. *)
Record packet (f g : frame) (ip : Z) (mac : list Z) (total : Z) (kept : nat) : Prop := {
  pk_sound : ip_sound g;
  pk_valid : Ipv4.IsValid g = true;
  pk_source : GetSourceAddress g = ip;
  pk_dest : GetDestinationAddress g = GetDestinationAddress f;
  pk_mac : GetDestination g = mac;
  pk_header : header g = header f;
  pk_total : GetTotalLength g = total;
  pk_proto : GetProtocol g = GetProtocol f;
  pk_data : same_bytes 34 kept f g;
}.

(** The total length after [ToDevice(Device, ResizeTo)]. *)
Definition total_after (ResizeTo : Z) (f : frame) : Z :=
  if ResizeTo =? 0 then GetTotalLength f else Z.max ResizeTo (header f).

(** The bytes of the array that [ToDevice] keeps. *)
Definition kept_after (ResizeTo : Z) (f : frame) : nat :=
  if ResizeTo =? 0 then 1518 else Z.to_nat (HeaderSize + total_after ResizeTo f).

Lemma kept_after_min n f : ip_sound f -> (34 <= kept_after n f)%nat.
Proof.
  intros [_ _ [H20 _] _ _]. unfold kept_after, total_after, HeaderSize. destruct (Z.eqb_spec n 0); lia.
Qed.

(** Storing the checksum makes a sound packet valid. *)
Lemma checksum_valid f : ip_sound f -> GetTimeToLive f = 128 ->
  ip_sound (SetHeaderChecksum (VerifyChecksum true f) f) /\ Ipv4.IsValid (SetHeaderChecksum (VerifyChecksum true f) f) = true /\
  FrameSize (SetHeaderChecksum (VerifyChecksum true f) f) = FrameSize f /\
  header (SetHeaderChecksum (VerifyChecksum true f) f) = header f /\
  GetTotalLength (SetHeaderChecksum (VerifyChecksum true f) f) = GetTotalLength f.
Proof.
  intros [Hf Hv Hh Ht Hm] Httl. pose proof (header_verifies f Hf) as Hck. revert Hck. generalize (VerifyChecksum true f). intros c Hck.
  assert (Hsz : FrameSize (SetHeaderChecksum c f) = FrameSize f) by (apply size_small; [done|offset_lia]).
  assert (Hfs : GetVersion (SetHeaderChecksum c f) = GetVersion f /\ header (SetHeaderChecksum c f) = header f /\
    GetTotalLength (SetHeaderChecksum c f) = GetTotalLength f /\ GetTimeToLive (SetHeaderChecksum c f) = GetTimeToLive f).
  { unfold GetVersion, header, GetInternetHeaderLength, GetTotalLength, GetTimeToLive, SetHeaderChecksum, Frame.GetDataAs, Frame.SetDataFrom.
    frame_fields. done. }
  destruct Hfs as (H1 & H2 & H3 & H4). split_and!; [|..|done|done|done].
  - split; [apply set_at_ok; [done|offset_lia]|by rewrite H1| | |by rewrite Hsz]; unfold Frame.DataSize; rewrite ?H2, ?H3, Hsz; done.
  - unfold Ipv4.IsValid. rewrite H1, H2, H3, H4, Hv, Httl, Hck. unfold Frame.DataSize in *. rewrite Hsz.
    rewrite (proj2 (Z.leb_le 20 _)), (proj2 (Z.leb_le (header f) _)), (proj2 (Z.leb_le (GetTotalLength f) _)) by lia. done.
Qed.

Lemma complete_header_spec ip mac now n f : ip_sound f -> length mac = 6%nat -> bytes mac -> 0 <= ip < 2 ^ 32 ->
  HeaderSize + n <= MaxFrameSize -> exists g, complete_header ip mac now n f = Some g /\ packet f g ip mac (total_after n f) (kept_after n f) /\
    FrameSize g = (if n =? 0 then FrameSize f else Z.max MinFrameSize (HeaderSize + total_after n f)).
Proof.
  intros Hf Hl Hb Hip Hn. destruct (addressed_fields ip mac now f Hf Hl Hb Hip) as (H1 & H2 & H3 & H4 & H5 & H6 & H7 & H8 & H9 & H10).
  unfold complete_header. fold (addressed ip mac now f). set (g := addressed ip mac now f) in *. clearbody g.
  pose proof (header_range f (is_ok _ Hf)) as Hhr.
  assert (Hmid : exists h, (if n =? 0 then Some g else Resize (if n <? header g then header g else n) g) = Some h /\
    ip_sound h /\ GetTimeToLive h = 128 /\ header h = header f /\ GetTotalLength h = total_after n f /\
    same_bytes 0 16 g h /\ same_bytes 18 (kept_after n f) g h /\
    FrameSize h = (if n =? 0 then FrameSize f else Z.max MinFrameSize (HeaderSize + total_after n f))).
  { unfold kept_after, total_after. destruct (Z.eqb_spec n 0) as [->|Hne].
    - exists g. split_and!; [done|done|done|done|done|by intros p k _ _|by intros p k _ _|done].
    - replace (if n <? header g then header g else n) with (Z.max n (header f)).
      2: { rewrite H3. destruct (Z.ltb_spec n (header f)); lia. }
      destruct (Resize_fields (Z.max n (header f)) g H1) as (h & Hr & Hs & Hhd & Htl & Hfs & Hb1 & Hb2);
        [rewrite H3; lia|unfold HeaderSize, MaxFrameSize in *; lia|].
      exists h. split_and!; [done|done| |by rewrite Hhd|done|done|done|done].
      unfold GetTimeToLive, Frame.GetDataAs. rewrite (same_get _ _ g h _ _ _ Hb2); [done|offset_lia|].
      destruct Hf as [_ _ [Hh20 _] _ _]. unfold HeaderSize. offset_lia. }
  destruct Hmid as (h & -> & Hs & Httl & Hhd & Htl & Hb1 & Hb2 & Hfs). cbn [mbind option_bind]. eexists. split; [reflexivity|].
  destruct (checksum_valid h Hs Httl) as (K1 & K2 & K3 & K4 & K5). revert K1 K2 K3 K4 K5. generalize (VerifyChecksum true h). intros c K1 K2 K3 K4 K5.
  pose proof (is_ok _ Hs) as Hok.
  pose proof (kept_after_min n f Hf) as Hkept.
  assert (Hbk : forall p k r, (p + k <= 16 \/ 18 <= p)%nat -> (p + k <= 34)%nat -> get_at k r p h = get_at k r p g).
  { intros p k r [Hp|Hp] Hk; [apply (same_get 0 16); [done|lia|lia]|]. apply (same_get _ _ g h _ _ _ Hb2); [done|lia]. }
  assert (Hck : forall p k r, (p + k <= 24 \/ 26 <= p)%nat -> (p + k <= 1518)%nat -> get_at k r p (SetHeaderChecksum c h) = get_at k r p h).
  { intros p k r Hp Hk. unfold SetHeaderChecksum, Frame.SetDataFrom. by frame_field. }
  split; [split|by rewrite K3]; try done.
  - unfold GetSourceAddress, Frame.GetDataAs. rewrite Hck, Hbk by offset_lia. done.
  - unfold GetDestinationAddress, Frame.GetDataAs. rewrite Hck, Hbk by offset_lia. done.
  - unfold GetDestination, SetHeaderChecksum, Frame.SetDataFrom. frame_field. rewrite Hb1 by lia. done.
  - by rewrite K4.
  - by rewrite K5.
  - unfold GetProtocol, Frame.GetDataAs. rewrite Hck, Hbk by offset_lia. done.
  - intros p k Hp Hk. assert (kept_after n f <= 1518)%nat by (unfold kept_after, total_after; case_match; unfold HeaderSize, MaxFrameSize in *; lia).
    unfold SetHeaderChecksum, Frame.SetDataFrom. frame_field. rewrite Hb2 by lia. apply H10; lia.
Qed.

(** ** Checksums over the data of a packet

    ICMP, UDP and TCP sum the words of the data; a last odd byte counts with the byte after it. *)

Definition data_word (f : frame) (i : nat) : Z := Ipv4.GetDataAs 2 (i * 2) true f.
Definition word_count (TotalSize : Z) : nat :=
  Z.to_nat (if Z.rem TotalSize 2 =? 1 then Z.quot TotalSize 2 + 1 else Z.quot TotalSize 2).

(** A packet as long as its frame, as [IPv4::SetData] leaves it. *)
Record full (f : frame) : Prop := {
  fu_ok : frame_ok f;
  fu_min : MinFrameSize <= FrameSize f;
  fu_header : 20 <= header f <= Frame.DataSize f;
  fu_total : GetTotalLength f = Frame.DataSize f;
}.

Lemma full_sound f : full f -> GetVersion f = 4 -> ip_sound f.
Proof. intros [H1 H2 H3 H4] Hv. split; [done|done|done|lia|done]. Qed.

(** A field of the data stored inside the frame. *)
Lemma set_data_full n v Start r f : frame_ok f -> MinFrameSize <= FrameSize f -> 20 <= header f <= Frame.DataSize f ->
  Z.of_nat (data_at f Start + n) <= FrameSize f ->
  let g := Ipv4.SetDataFrom n v Start r f in
  full g /\ FrameSize g = FrameSize f /\ header g = header f /\ Ipv4.GetDataAs n Start r g = v mod 256 ^ Z.of_nat n /\
  (forall m r' p, (p + m <= 16 \/ 18 <= p)%nat -> (p + m <= data_at f Start \/ data_at f Start + n <= p)%nat -> get_at m r' p g = get_at m r' p f) /\
  (forall m p, (p + m <= 16 \/ 18 <= p)%nat -> (p + m <= data_at f Start \/ data_at f Start + n <= p)%nat -> get_bytes p m g = get_bytes p m f).
Proof.
  intros Hok Hmin Hh Hp g. assert (HFS : FrameSize f <= 1518) by apply Hok.
  assert (H34 : (34 <= data_at f Start)%nat) by (unfold data_at, Payload; lia).
  unfold Ipv4.SetDataFrom in g. set (p0 := data_at f Start) in *. set (f1 := set_at n r p0 v f) in *.
  assert (Hl : length (Data f) = 1518%nat) by apply Hok.
  assert (Hf1 : frame_ok f1) by (apply set_at_ok; [done|lia]).
  assert (Hs1 : FrameSize f1 = FrameSize f) by (unfold f1; rewrite size_set_at; apply grow_small; [lia|done]).
  assert (Hg0 : g = set_at 2 true 16 (FrameSize f - 14) f1) by (unfold g, SetTotalLength, Frame.SetDataFrom, Frame.DataSize; by rewrite Hs1).
  assert (Hok' : frame_ok g) by (rewrite Hg0; apply set_at_ok; [done|lia]).
  assert (Hs : FrameSize g = FrameSize f).
  { rewrite Hg0, size_set_at, Hs1. apply grow_small; [|done]. unfold MinFrameSize in Hmin. lia. }
  assert (Hget : forall m r' p, (p + m <= 16 \/ 18 <= p)%nat -> (p + m <= p0 \/ p0 + n <= p)%nat -> get_at m r' p g = get_at m r' p f).
  { intros m r' p H1 H2. rewrite Hg0. unfold f1. by frame_fields. }
  assert (Hhd : header g = header f) by (unfold header, GetInternetHeaderLength, Frame.GetDataAs; by rewrite Hget by offset_lia).
  assert (Htg : GetTotalLength g = FrameSize f - 14).
  { unfold GetTotalLength, Frame.GetDataAs. rewrite Hg0. change (Payload + 2)%nat with 16%nat. frame_field. apply Z.mod_small.
    unfold MinFrameSize in Hmin. lia. }
  split_and!; try done.
  - split; [done|by rewrite Hs| |]; unfold Frame.DataSize; rewrite ?Hhd, ?Htg, Hs; done.
  - unfold Ipv4.GetDataAs. replace (data_at g Start) with p0 by (unfold p0, data_at; by rewrite Hhd).
    rewrite Hg0. unfold f1. by frame_fields.
  - intros m p H1 H2. rewrite Hg0. unfold f1. by frame_fields.
Qed.

(** Bytes stored in the data: the frame grows to hold them. *)
Lemma set_list_full src Start f : frame_ok f -> MinFrameSize <= FrameSize f -> 20 <= header f <= Frame.DataSize f ->
  bytes src -> Z.of_nat (data_at f Start + length src) <= MaxFrameSize ->
  exists g, Ipv4.SetData src (Z.of_nat Start) f = Some g /\ full g /\
  FrameSize g = Z.max (FrameSize f) (Z.of_nat (data_at f Start + length src)) /\ header g = header f /\
  get_bytes (data_at f Start) (length src) g = src /\
  (forall m r' p, (p + m <= 16 \/ 18 <= p)%nat -> (p + m <= data_at f Start \/ data_at f Start + length src <= p)%nat ->
     get_at m r' p g = get_at m r' p f).
Proof.
  intros Hok Hmin Hh Hb Hp. assert (HFS : FrameSize f <= 1518) by apply Hok. unfold MaxFrameSize in Hp.
  assert (H34 : (34 <= data_at f Start)%nat) by (unfold data_at, Payload; lia).
  assert (Hpos : Z.to_nat (14 + (header f + Z.of_nat Start)) = data_at f Start) by (unfold data_at, Payload; lia).
  unfold Ipv4.SetData, Frame.SetData. rewrite (proj2 (Z.leb_le 0 _)), (proj2 (Z.leb_le _ MaxFrameSize)), orb_true_r
    by (unfold MaxFrameSize, data_at, Payload in *; lia).
  rewrite Hpos. set (p0 := data_at f Start) in *. set (f1 := put p0 src f) in *. cbn [fmap option_fmap option_map].
  assert (Hl : length (Data f) = 1518%nat) by apply Hok.
  assert (Hf1 : frame_ok f1) by (apply put_ok; [done|done|lia]).
  assert (Hs1 : FrameSize f1 = Z.max (FrameSize f) (Z.of_nat (p0 + length src))).
  { unfold f1, put, grow. cbn [FrameSize]. unfold MinFrameSize in *.
    destruct (Z.ltb_spec (FrameSize f) (Z.of_nat (p0 + length src))); rewrite (proj2 (Z.ltb_ge _ 64)) by lia; lia. }
  set (g := SetTotalLength (Frame.DataSize f1) f1). exists g. split; [done|].
  assert (Hg0 : g = set_at 2 true 16 (FrameSize f1 - 14) f1) by done.
  assert (Hok' : frame_ok g) by (rewrite Hg0; apply set_at_ok; [done|lia]).
  assert (Hs : FrameSize g = FrameSize f1).
  { rewrite Hg0, size_set_at. apply grow_small; unfold MinFrameSize in *; lia. }
  assert (Hget : forall m r' p, (p + m <= 16 \/ 18 <= p)%nat -> (p + m <= p0 \/ p0 + length src <= p)%nat -> get_at m r' p g = get_at m r' p f).
  { intros m r' p H1 H2. rewrite Hg0. unfold f1. by frame_fields. }
  assert (Hhd : header g = header f) by (unfold header, GetInternetHeaderLength, Frame.GetDataAs; by rewrite Hget by offset_lia).
  assert (Htg : GetTotalLength g = FrameSize f1 - 14).
  { unfold GetTotalLength, Frame.GetDataAs. rewrite Hg0. change (Payload + 2)%nat with 16%nat. frame_field. apply Z.mod_small.
    unfold MinFrameSize in Hmin. change (256 ^ Z.of_nat 2) with 65536. lia. }
  split_and!; [|by rewrite Hs|done| |done].
  - split; [done|rewrite Hs, Hs1; lia| |]; unfold Frame.DataSize, HeaderSize in *; rewrite ?Hhd, ?Htg, Hs; [lia|done].
  - rewrite Hg0. rewrite bytes_set_at; [|frame_length|lia|lia]. apply bytes_same; [done|lia].
Qed.

(** A field of the header after the length stored. *)
Lemma set_header_full n v p r f : full f -> (18 <= p)%nat -> (p + n <= 34)%nat ->
  let g := set_at n r p v f in
  full g /\ FrameSize g = FrameSize f /\ header g = header f /\ Ipv4.DataSize g = Ipv4.DataSize f /\
  (forall m r' q, (q + m <= p \/ p + n <= q)%nat -> get_at m r' q g = get_at m r' q f).
Proof.
  intros [Hok Hmin Hh Ht] Hp Hn g.
  assert (Hget : forall m r' q, (q + m <= p \/ p + n <= q)%nat -> get_at m r' q g = get_at m r' q f).
  { intros m r' q Hq. unfold g. by frame_field. }
  assert (Hs : FrameSize g = FrameSize f) by (apply size_small; [done|lia]).
  assert (Hhd : header g = header f) by (unfold header, GetInternetHeaderLength, Frame.GetDataAs; by rewrite Hget by offset_lia).
  assert (Htg : GetTotalLength g = GetTotalLength f) by (unfold GetTotalLength, Frame.GetDataAs; by rewrite Hget by offset_lia).
  split_and!; [|done|done|unfold Ipv4.DataSize; by rewrite Htg, Hhd|done].
  split; [apply set_at_ok; [done|lia]|by rewrite Hs| |]; unfold Frame.DataSize; rewrite ?Hhd, ?Htg, Hs; done.
Qed.

Lemma word_count_bound f : full f -> DataSize f = Frame.DataSize f - header f /\
  (forall i, (i < word_count (DataSize f))%nat -> (data_at f (i * 2) + 2 <= 1518)%nat) /\ (word_count (DataSize f) <= 752)%nat.
Proof.
  intros [Hf Hm Hh Ht]. assert (HD : DataSize f = Frame.DataSize f - header f) by (unfold DataSize; by rewrite Ht).
  split; [done|]. destruct Hf as [_ _ [_ Hs]]. unfold MaxFrameSize in Hs. rewrite HD. unfold word_count, data_at, Payload.
  assert (Hh4 : exists q, header f = 4 * q) by (exists (GetInternetHeaderLength f); unfold header; lia). destruct Hh4 as [q Hq].
  unfold Frame.DataSize, HeaderSize in *. rewrite Z.rem_mod_nonneg, Z.quot_div_nonneg by lia.
  split.
  - intros i Hi. destruct (Z.eqb_spec ((FrameSize f - 14 - header f) mod 2) 1); lia_dm.
  - destruct (Z.eqb_spec ((FrameSize f - 14 - header f) mod 2) 1); lia_dm.
Qed.

(** Storing a word of the data. *)
Lemma store_word k c f : full f -> Z.of_nat (2 * k + 2) <= DataSize f ->
  let g := Ipv4.SetDataFrom 2 c (k * 2) true f in
  full g /\ FrameSize g = FrameSize f /\ header g = header f /\ DataSize g = DataSize f /\ data_word g k = u16 c /\
  (forall n r p, (34 <= p)%nat -> (p + n <= 1518)%nat -> (p + n <= data_at f (k * 2) \/ data_at f (k * 2) + 2 <= p)%nat ->
     get_at n r p g = get_at n r p f) /\
  (forall n r p, (p + n <= 34)%nat -> get_at n r p g = get_at n r p f).
Proof.
  intros Hf Hk g. destruct (word_count_bound f Hf) as (HD & _ & _). destruct Hf as [Hok Hmin Hh Ht].
  pose proof (header_range f Hok) as Hhr. assert (HFS : FrameSize f <= 1518) by apply Hok.
  assert (Hp0 : (34 <= data_at f (k * 2))%nat /\ Z.of_nat (data_at f (k * 2) + 2) <= FrameSize f).
  { unfold data_at, Payload. rewrite HD in Hk. unfold Frame.DataSize, HeaderSize in *. lia. }
  unfold Ipv4.SetDataFrom in g. set (p0 := data_at f (k * 2)) in *. set (f1 := set_at 2 true p0 c f) in *.
  assert (Hl : length (Data f) = 1518%nat) by apply Hok.
  assert (Hf1 : frame_ok f1) by (apply set_at_ok; [done|lia]).
  assert (Hs1 : FrameSize f1 = FrameSize f) by (unfold f1; rewrite size_set_at; apply grow_small; [lia|done]).
  assert (Hg0 : g = set_at 2 true 16 (FrameSize f - 14) f1) by (unfold g, SetTotalLength, Frame.SetDataFrom, Frame.DataSize; by rewrite Hs1).
  assert (Hok' : frame_ok g) by (rewrite Hg0; apply set_at_ok; [done|lia]).
  assert (Hs : FrameSize g = FrameSize f).
  { rewrite Hg0, size_set_at, Hs1. apply grow_small; [|done]. unfold MinFrameSize in Hmin. lia. }
  assert (Ht1 : get_at 2 true 16 f1 = FrameSize f - 14).
  { unfold f1. frame_field. unfold GetTotalLength, Frame.GetDataAs, Frame.DataSize, HeaderSize in Ht. exact Ht. }
  assert (Hdata : Data g = Data f1) by (rewrite Hg0, <-Ht1; apply set_get_id; [done|lia]).
  assert (Hget : forall n r p, get_at n r p g = get_at n r p f1) by (intros; unfold get_at; by rewrite Hdata).
  assert (Hlow : forall n r p, (p + n <= 34)%nat -> get_at n r p g = get_at n r p f) by (intros; rewrite Hget; unfold f1; by frame_field).
  assert (Hhd : header g = header f) by (unfold header, GetInternetHeaderLength, Frame.GetDataAs; by rewrite Hlow by offset_lia).
  assert (Htg : GetTotalLength g = GetTotalLength f) by (unfold GetTotalLength, Frame.GetDataAs; by rewrite Hlow by offset_lia).
  split_and!; try done.
  - split; [done|by rewrite Hs| |]; unfold Frame.DataSize; rewrite ?Hhd, ?Htg, Hs; done.
  - unfold DataSize. by rewrite Htg, Hhd.
  - unfold data_word, Ipv4.GetDataAs. replace (data_at g (k * 2)) with p0 by (unfold p0, data_at; by rewrite Hhd).
    rewrite Hget. unfold f1. by frame_field.
  - intros n r p Hp Hn Hd. rewrite Hget. unfold f1. by frame_field.
Qed.

(** The checksum word of the data: computed without itself and stored, it verifies, with any pseudo
    header [init] that does not depend on it. *)
Lemma data_verifies init k f : full f -> Z.of_nat (2 * k + 2) <= DataSize f -> 0 <= init < 2 ^ 20 ->
  let c := complement (sum_words (data_word f) (Some k) (word_count (DataSize f)) init) in
  let g := Ipv4.SetDataFrom 2 c (k * 2) true f in
  complement (sum_words (data_word g) None (word_count (DataSize g)) init) = 0.
Proof.
  intros Hf Hk Hi c g. destruct (word_count_bound f Hf) as (HD & Hpos & Hcnt).
  destruct (store_word k c f Hf Hk) as (Hg & _ & Hhd & Hds & Hw & Hoth & _). fold g in Hg, Hhd, Hds, Hw, Hoth.
  assert (Hrd : forall i, (i < word_count (DataSize f))%nat -> 0 <= data_word f i < 2 ^ 16).
  { intros i Hlt. apply (get_at_range 2); [apply Hf|]. by apply Hpos. }
  assert (Hkn : (k < word_count (DataSize f))%nat).
  { unfold word_count. rewrite Z.rem_mod_nonneg, Z.quot_div_nonneg by lia. case_match; lia_dm. }
  rewrite Hds. apply (checksum_verifies (data_word f) (data_word g) k); [done|lia|lia|done| |].
  - intros i Hlt Hne. unfold data_word, Ipv4.GetDataAs, data_at. rewrite Hhd. pose proof (Hpos i Hlt) as Hp. unfold data_at in Hp.
    destruct (fu_header _ Hf). apply Hoth; [unfold Payload; lia|lia|unfold data_at; lia].
  - rewrite Hw. apply u16_small. apply complement_range. pose proof (total_bounds (data_word f) (Some k) _ Hrd).
    rewrite sum_words_total by (try done; lia). lia.
Qed.

Section send.
Context `{Fresh} `{Peers}.

Lemma packet_from f g ip mac total kept m : packet f g ip mac total kept -> length m = 6%nat -> bytes m ->
  packet f (SetSource m g) ip mac total kept /\ GetSource (SetSource m g) = m.
Proof.
  intros [[Hok Hv Hh Ht Hm] Hva Hs Hd Hmac Hhd Htot Hp Hdata] Hl Hb. unfold SetSource. assert (Htk : take 6 m = m) by (apply take_ge; lia).
  rewrite Htk. assert (Hg : frame_ok (put_header 6 m g)) by (apply put_header_ok; [done|done|lia]).
  assert (Hget : forall p k r, (12 <= p)%nat -> (p + k <= 1518)%nat -> get_at k r p (put_header 6 m g) = get_at k r p g).
  { intros p k r Hp' Hk. by frame_field. }
  split; [split|].
  - split; [done|by unfold GetVersion, Frame.GetDataAs; rewrite Hget by offset_lia| | |done];
      unfold header, GetInternetHeaderLength, GetTotalLength, Frame.GetDataAs; rewrite Hget by offset_lia; done.
  - revert Hva. unfold Ipv4.IsValid, header, GetInternetHeaderLength, GetTotalLength, GetVersion, GetTimeToLive, VerifyChecksum, Frame.GetDataAs.
    rewrite !Hget by offset_lia. by rewrite (sum_words_ext (fun i => get_at 2 true (Payload + i * 2) g)
      (fun i => get_at 2 true (Payload + i * 2) (put_header 6 m g))) by (intros; apply Hget; offset_lia).
  - unfold GetSourceAddress, Frame.GetDataAs. by rewrite Hget by offset_lia.
  - unfold GetDestinationAddress, Frame.GetDataAs. by rewrite Hget by offset_lia.
  - unfold GetDestination. by frame_field.
  - unfold header, GetInternetHeaderLength, Frame.GetDataAs. by rewrite Hget by offset_lia.
  - unfold GetTotalLength, Frame.GetDataAs. by rewrite Hget by offset_lia.
  - unfold GetProtocol, Frame.GetDataAs. by rewrite Hget by offset_lia.
  - intros p k Hp' Hk. rewrite <-(Hdata p k Hp' Hk). by frame_field.
  - unfold GetSource. pose proof (bytes_header_same 6 m g) as Hx. rewrite Hl in Hx. apply Hx; [apply Hok|lia].
Qed.

(** [ToDevice], once the hardware address is known. *)
Lemma ToDevice_run dev n f me mac dmac s s1 : net_ok s -> ip_sound f -> HeaderSize + n <= MaxFrameSize ->
  address_of dev s = Some me -> 0 <= IPAddress me < 2 ^ 32 ->
  RequestFrom dev (GetDestinationAddress f) s = ([], Ret (Some dmac) s1) -> length dmac = 6%nat -> bytes dmac ->
  macs s1 !! dev = Some mac -> length mac = 6%nat -> bytes mac ->
  exists g, ToDevice dev n f s = ([], Ret (u16 (FrameSize g), g) (set_sent ((dev, g) :: sent s1) s1)) /\
    packet f g (IPAddress me) dmac (total_after n f) (kept_after n f) /\ GetSource g = mac /\
    FrameSize g = (if n =? 0 then FrameSize f else Z.max MinFrameSize (HeaderSize + total_after n f)).
Proof.
  intros Hok Hf Hn Hme Hip Hreq Hdl Hdb Hmac Hml Hmb.
  destruct (complete_header_spec (IPAddress me) dmac (nticks s1 / 100) n f Hf Hdl Hdb Hip Hn) as (g & Hg & Hpk & Hsz).
  destruct (packet_from _ _ _ _ _ _ mac Hpk Hml Hmb) as [Hpk' Hsrc].
  exists (SetSource mac g). split_and!; [|done|done|done].
  unfold ToDevice. erewrite kbind_pure by (apply IPFind_run, Hok). rewrite Hme. erewrite kbind_pure by exact Hreq. cbv iota.
  erewrite kbind_pure; [|unfold time; kstep; done]. rewrite Hg. erewrite kbind_pure by (by apply EthToDevice_run).
  erewrite kbind_pure by (by apply GetMACAddress_run). done.
Qed.

(** Without an address of its own, or without the hardware address, nothing is sent. *)
Lemma ToDevice_no_address dev n f s : net_ok s -> address_of dev s = None -> ToDevice dev n f s = ([], Ret (-1, f) s).
Proof. intros Hok Hno. unfold ToDevice. erewrite kbind_pure by (apply IPFind_run, Hok). by rewrite Hno. Qed.
Lemma ToDevice_unresolved dev n f me s s1 : net_ok s -> address_of dev s = Some me ->
  RequestFrom dev (GetDestinationAddress f) s = ([], Ret None s1) -> ToDevice dev n f s = ([], Ret (-2, f) s1).
Proof.
  intros Hok Hme Hreq. unfold ToDevice. erewrite kbind_pure by (apply IPFind_run, Hok). rewrite Hme.
  by erewrite kbind_pure by exact Hreq.
Qed.

(** A packet to a neighbour in the ARP table leaves once, on the adapter asked for, and would
    be accepted by a receiver: version, lengths, time to live and header checksum pass
    [IPv4::IsValid]; it carries the adapter's own addresses and the neighbour's hardware
    address, and the protocol, the destination and the data as they were put in it. *)
Theorem ip_sends_valid dev n f me mac x s : net_ok s -> ip_sound f -> HeaderSize + n <= MaxFrameSize ->
  address_of dev s = Some me -> 0 <= IPAddress me < 2 ^ 32 -> macs s !! dev = Some mac ->
  List.find (fun v => Address v =? GetDestinationAddress f) (live (ARPTable s)) = Some x ->
  length (MACAddress x) = 6%nat -> bytes (MACAddress x) ->
  exists g, ToDevice dev n f s = ([], Ret (u16 (FrameSize g), g) (set_sent ((dev, g) :: sent s) s)) /\
    Ipv4.IsValid g = true /\ GetSourceAddress g = IPAddress me /\ GetDestinationAddress g = GetDestinationAddress f /\
    GetDestination g = MACAddress x /\ GetSource g = mac /\ GetProtocol g = GetProtocol f /\
    GetTotalLength g = total_after n f /\ same_bytes 34 (kept_after n f) f g.
Proof.
  intros Hok Hf Hn Hme Hip Hmac Hx Hxl Hxb.
  assert (Hmm : Forall (fun m => length m = 6%nat /\ bytes m) (macs s)) by apply Hok.
  rewrite Forall_lookup in Hmm. destruct (Hmm dev mac Hmac) as [Hlm Hbm].
  destruct (ToDevice_run dev n f me mac (MACAddress x) s s) as (g & Hg & Hpk & Hsrc & _); try done; [by eapply RequestFrom_known|].
  exists g. split; [done|]. destruct Hpk. split_and!; done.
Qed.
End send.

(** A packet to the neighbour of [peer_request]. *)
Definition demo_known : netif := final (Main 0 peer_request demo_net).2.
Definition demo_packet : frame := SetDestinationAddress 33685514 (SetProtocol 17 (Ipv4.SetDataFrom 4 305419896 0 true IPv4)).

Lemma demo_known_ok : net_ok demo_known.
Proof.
  split.
  - split; [vm_compute; reflexivity|apply Nat.leb_le; vm_compute; reflexivity].
  - vm_compute. reflexivity.
  - split; [vm_compute; reflexivity|apply Nat.leb_le; vm_compute; reflexivity].
  - split; [vm_compute; reflexivity|apply Nat.leb_le; vm_compute; reflexivity].
  - assert (macs demo_known = macs demo_net) as -> by (vm_compute; reflexivity). apply demo_net_ok.
Qed.

Lemma ip_sends_valid_witness : exists g, (ToDevice 0 0 demo_packet demo_known).2 =
    Ret (u16 (FrameSize g), g) (set_sent ((0%nat, g) :: sent demo_known) demo_known) /\
  Ipv4.IsValid g = true /\ GetDestination g = peer_mac.
Proof.
  destruct (ip_sends_valid 0 0 demo_packet (IPItem (Some 0%nat) 251766976 16777215) [82; 84; 0; 18; 52; 86]
    (ARPItem 33685514 1 2 peer_mac 0) demo_known) as (g & H1 & H2 & _ & _ & H3 & _).
  - exact demo_known_ok.
  - split; [apply checked_ok; vm_compute; reflexivity|vm_compute; reflexivity|vm_compute; split; discriminate|vm_compute; discriminate|vm_compute; discriminate].
  - vm_compute. discriminate.
  - vm_compute. reflexivity.
  - simpl. lia.
  - vm_compute. reflexivity.
  - vm_compute. reflexivity.
  - reflexivity.
  - repeat (constructor; [lia|]). constructor.
  - exists g. rewrite H1. split; [reflexivity|split; [exact H2|exact H3]].
Defined.
