(* ===== verification/Icmp.v ===== *)
(** * ICMP: class ICMPv4 and the controllers of kernel/UProtocols.cc

    The fields of an ICMP message, the controllers that name them, the handler that answers
    echo requests, and [Ping]. *)

From stdpp Require Import base list.
From Stdlib Require Import ZArith Lia.
From S2P Require Import Prelude Spinlock CString Bytes ArrayList Frame Checksum Random Ipv4 Net Arp IpSend.
Open Scope Z_scope.

Definition TEchoReply : Z := 0.
Definition TEchoRequest : Z := 8.

Definition GetType (f : frame) : Z := Ipv4.GetDataAs 1 0 true f.
Definition GetCode (f : frame) : Z := Ipv4.GetDataAs 1 1 true f.
Definition GetChecksum (f : frame) : Z := Ipv4.GetDataAs 2 2 true f.
Definition RestOfHeader : nat := 4.
Definition GetData (Start Size : Z) (f : frame) : option (list Z) := Ipv4.GetData (4 + Start) Size f.
Definition GetDataAs (n Start : nat) (Reverse : bool) (f : frame) : Z := Ipv4.GetDataAs n (RestOfHeader + Start) Reverse f.
Definition SetType (v : Z) (f : frame) : frame := Ipv4.SetDataFrom 1 v 0 true f.
Definition SetCode (v : Z) (f : frame) : frame := Ipv4.SetDataFrom 1 v 1 true f.
Definition SetChecksum (v : Z) (f : frame) : frame := Ipv4.SetDataFrom 2 v 2 true f.
Definition SetData (src : list Z) (Start : Z) (f : frame) : option frame := Ipv4.SetData src (4 + Start) f.
Definition SetDataFrom (n : nat) (v : Z) (Start : nat) (Reverse : bool) (f : frame) : frame :=
  Ipv4.SetDataFrom n v (RestOfHeader + Start) Reverse f.

Definition VerifyChecksum (ComputeOnly : bool) (f : frame) : Z :=
  complement (sum_words (data_word f) (if ComputeOnly then Some 1%nat else None) (word_count (DataSize f)) 0).
Definition IsValid (f : frame) : bool := VerifyChecksum false f =? 0.

(** ** The controllers *)

Module Echo.
Definition GetIdentifier (f : frame) : Z := GetDataAs 2 0 true f.
Definition SetIdentifier (v : Z) (f : frame) : frame := SetDataFrom 2 v 0 true f.
Definition GetSequenceNumber (f : frame) : Z := GetDataAs 2 2 true f.
Definition SetSequenceNumber (v : Z) (f : frame) : frame := SetDataFrom 2 v 2 true f.
Definition GetData (Start Size : Z) (f : frame) : option (list Z) := Icmp.GetData (4 + Start) Size f.
Definition SetData (src : list Z) (Start : Z) (f : frame) : option frame := Icmp.SetData src (4 + Start) f.
End Echo.

(** Source quench, redirect, time exceeded and destination unreachable quote a datagram. *)
Module Quote.
Definition GetIPData (Start Size : Z) (f : frame) : option (list Z) := GetData (4 + Start) Size f.
Definition SetIPData (src : list Z) (Start : Z) (f : frame) : option frame := SetData src (4 + Start) f.
Definition GetIPAddress (f : frame) : Z := GetDataAs 4 0 true f.
Definition SetIPAddress (v : Z) (f : frame) : frame := SetDataFrom 4 v 0 true f.
Definition GetLength (f : frame) : Z := GetDataAs 1 1 true f.
Definition SetLength (v : Z) (f : frame) : frame := SetDataFrom 1 v 1 true f.
Definition GetNextHopMTU (f : frame) : Z := GetDataAs 2 2 true f.
Definition SetNextHopMTU (v : Z) (f : frame) : frame := SetDataFrom 2 v 2 true f.
End Quote.

(** Timestamps; the address mask is where the first of them is. *)
Module Stamp.
Definition GetOriginateTime (f : frame) : Z := GetDataAs 4 4 true f.
Definition SetOriginateTime (v : Z) (f : frame) : frame := SetDataFrom 4 v 4 true f.
Definition GetReceiveTime (f : frame) : Z := GetDataAs 4 8 true f.
Definition SetReceiveTime (v : Z) (f : frame) : frame := SetDataFrom 4 v 8 true f.
Definition GetTransmitTime (f : frame) : Z := GetDataAs 4 12 true f.
Definition SetTransmitTime (v : Z) (f : frame) : frame := SetDataFrom 4 v 12 true f.
Definition GetSubnetMask (f : frame) : Z := GetDataAs 4 4 true f.
Definition SetSubnetMask (v : Z) (f : frame) : frame := SetDataFrom 4 v 4 true f.
End Stamp.

(** ** Sending and receiving *)

Section icmp.
Context `{Fresh} `{Peers}.

Definition ICMP : frame := SetProtocol 1 IPv4.

Definition ToDevice (dev : nat) (f : frame) : NK (Z * frame) :=
  IpSend.ToDevice dev 0 (SetChecksum (VerifyChecksum true f) f).

(** The reply to an echo request: the request itself, turned around. *)
Definition response (f : frame) : frame := SetDestinationAddress (GetSourceAddress f) (SetType TEchoReply f).

Definition Main (dev : nat) (f : frame) : NK unit :=
  if negb (IsValid f) then kret tt                        (* cprintf: invalid ICMP frame *)
  else if GetType f =? TEchoReply then
    kmod (fun s =>
      let p := ping s in
      if (IsTesting p && (Echo.GetIdentifier f =? CurrentID p) && (Echo.GetSequenceNumber f =? CurrentSN p))%bool
      then set_ping (Pings (IsTesting p) true (CurrentID p) (CurrentSN p)) s else s)
  else if GetType f =? TEchoRequest then
    let! _ := ToDevice dev (response f) in kret tt
  else kret tt.

(** [Ping]: the characters from space to 7 and the end of the string, then whatever follows it in
    memory, up to 40 bytes. *)
Definition DefaultDataUNIX : list Z := seqZ 32 24 ++ [0].
Definition ping_data : list Z := DefaultDataUNIX ++ map junk (seq 0 15).

Fixpoint ping_loop (n : nat) (i : Z) (dev : nat) (f : frame) (got : Z) : NK Z :=
  match n with
  | O => kret got
  | S n' =>
      kmod (fun s => set_ping (Pings (IsTesting (ping s)) (IsReceived (ping s)) (CurrentID (ping s)) (i + 1)) s) ;;;
      let! r := ToDevice dev (Echo.SetSequenceNumber (i + 1) f) in
      kmod while_waiting ;;;
      let! s := kget in
      let p := ping s in
      kmod (set_ping (Pings (IsTesting p) false (CurrentID p) (CurrentSN p))) ;;;
      ping_loop n' (i + 1) dev r.2 (if IsReceived p then got + 1 else got)
  end.

(** How many of how many were answered; (0, 0) when there is no route. *)
Definition Ping (Target : Z) : NK (Z * Z) :=
  kmod (fun s => set_ping (Pings true false (CurrentID (ping s)) (CurrentSN (ping s))) s) ;;;
  let! now := time in
  let! r :=
    (let! r := RouteTableMatch Target in
     match r with
     | None => kret (0, 0)
     | Some k =>
         let! s := kget in
         let! r := item (RouteTable s) k in
         match Iface r with
         | None => fault
         | Some dev =>
             let! me := IPFind (Some dev) in
             match me with
             | None => kret (0, 0)
             | Some _ =>
                 let id := u16 (first_value now) in
                 kmod (fun s => set_ping (Pings (IsTesting (ping s)) (IsReceived (ping s)) id (CurrentSN (ping s))) s) ;;;
                 match Echo.SetData ping_data 0 (Echo.SetIdentifier id (SetType TEchoRequest (SetCode 0 ICMP))) with
                 | None => fault
                 | Some f =>
                     let! got := ping_loop 5 0 dev (SetDestinationAddress Target f) 0 in
                     kret (got, 5)
                 end
             end
         end
     end) in
  kmod (fun s => set_ping (Pings false false (CurrentID (ping s)) (CurrentSN (ping s))) s) ;;;
  kret r.
End icmp.

(** ** The echo *)

Section echo.
Context `{Fresh} `{Peers}.

(** The response, before its checksum. *)
Lemma response_fields f : ip_sound f -> header f + 8 <= Frame.DataSize f ->
  let g := response f in
  full g /\ GetVersion g = 4 /\ FrameSize g = FrameSize f /\ header g = header f /\ GetType g = TEchoReply /\
  GetDestinationAddress g = GetSourceAddress f /\
  (forall n r p, (Z.of_nat p >= 15 + header f) -> (p + n <= 1518)%nat -> get_at n r p g = get_at n r p f) /\
  (forall n p, (Z.of_nat p >= 15 + header f) -> (p + n <= 1518)%nat -> get_bytes p n g = get_bytes p n f).
Proof.
  intros [Hok Hv Hh Ht Hm] H8 g. unfold Frame.DataSize, HeaderSize in *.
  assert (Hpos : Z.of_nat (data_at f 0) = 14 + header f) by (unfold data_at, Payload; lia).
  destruct (set_data_full 1 TEchoReply 0 true f Hok Hm Hh) as (Hg & Hs & Hhd & Hty & Hget & Hbytes); [lia|].
  unfold g, response, SetType. set (f1 := Ipv4.SetDataFrom 1 TEchoReply 0 true f) in *.
  assert (Hsrc : 0 <= GetSourceAddress f < 2 ^ 32) by (apply (get_at_range 4); [done|offset_lia]).
  destruct Hg as [Hok1 Hm1 Hh1 Ht1].
  assert (Hset : forall n r p, (p + n <= 30 \/ 34 <= p)%nat -> get_at n r p (SetDestinationAddress (GetSourceAddress f) f1) = get_at n r p f1).
  { intros n r p Hp. unfold SetDestinationAddress, Frame.SetDataFrom. by frame_field. }
  assert (Hs2 : FrameSize (SetDestinationAddress (GetSourceAddress f) f1) = FrameSize f1) by (apply size_small; [done|offset_lia]).
  assert (Hhd2 : header (SetDestinationAddress (GetSourceAddress f) f1) = header f1)
    by (unfold header, GetInternetHeaderLength, Frame.GetDataAs; by rewrite Hset by offset_lia).
  split_and!.
  - split; [apply set_at_ok; [done|offset_lia]|by rewrite Hs2| |].
    + unfold Frame.DataSize, HeaderSize. rewrite Hhd2, Hs2, Hhd, Hs. lia.
    + unfold GetTotalLength, Frame.GetDataAs. rewrite Hset by offset_lia. unfold Frame.DataSize. rewrite Hs2. exact Ht1.
  - unfold GetVersion, Frame.GetDataAs. rewrite Hset, Hget by (rewrite ?Hpos; offset_lia). exact Hv.
  - by rewrite Hs2.
  - by rewrite Hhd2.
  - unfold GetType, Ipv4.GetDataAs, data_at. rewrite Hhd2, Hset by (unfold Payload; lia). exact Hty.
  - unfold GetDestinationAddress, SetDestinationAddress, Frame.GetDataAs, Frame.SetDataFrom. frame_field. by rewrite Z.mod_small by lia.
  - intros n r p Hp Hn. rewrite Hset, Hget by lia. done.
  - intros n p Hp Hn. unfold SetDestinationAddress, Frame.SetDataFrom. frame_field. apply Hbytes; lia.
Qed.

Lemma data_same f g a : header g = header f -> DataSize g = DataSize f -> full f -> same_bytes 34 1518 f g ->
  VerifyChecksum a g = VerifyChecksum a f.
Proof.
  intros Hh Hd Hf Hs. destruct (word_count_bound f Hf) as (_ & Hpos & _). unfold VerifyChecksum. rewrite Hd. f_equal.
  apply sum_words_ext. intros i Hi. unfold data_word, Ipv4.GetDataAs. pose proof (Hpos i Hi) as Hp. unfold data_at in *. rewrite Hh.
  apply (same_get 34 1518); [done|destruct (fu_header _ Hf); unfold Payload; lia|lia].
Qed.

End echo.

(** An echo request from the neighbour of [demo_known]. *)
Definition demo_echo : frame :=
  let f := Echo.SetSequenceNumber 1 (Echo.SetIdentifier 4660 (SetType TEchoRequest ICMP)) in
  let f := SetDestinationAddress 251766976 (SetSourceAddress 33685514 f) in
  SetChecksum (VerifyChecksum true f) f.

