(* ===== verification/Queue.v ===== *)
(** * Linked queues: class LinkedQueue of include/UQueue.tcc

    The containers are cells of a heap of their own, [Next] is the address of another or null, and
    [new] gives an address that is not in use.  An access through a null or dangling pointer
    faults.  [queue_refines_list] is why the components above take a queue as a list. *)

From stdpp Require Import base list gmap fin_maps infinite.
From Stdlib Require Import Lia.
From S2P Require Import Prelude.
Open Scope nat_scope.

Section queue.
Context {A : Type}.

Record container := Container { Data : A; Next : option nat }.
Record lqueue := LQueue {
  MyFirst : option nat;
  MyLast : option nat;
  cells : gmap nat container;
}.
Notation QK := (K lqueue).

Definition Init : lqueue := LQueue None None ∅.
Definition empty (q : lqueue) : bool := bool_decide (MyFirst q = None) && bool_decide (MyLast q = None).

(** [p->...]. *)
Definition deref (p : option nat) (q : lqueue) : option container := p ≫= fun a => cells q !! a.

(** [while (First)], for a list of at most [fuel] containers. *)
Fixpoint size_from (fuel : nat) (First : option nat) (Size : nat) : QK nat :=
  match First with
  | None => kret Size
  | Some _ =>
      match fuel with
      | O => kstop NoFuel
      | S fuel =>
          let! q := kget in
          match deref First q with Some c => size_from fuel (Next c) (S Size) | None => fault end
      end
  end.
Definition size : QK nat := let! q := kget in size_from (base.size (cells q)) (MyFirst q) 0.

Definition front : QK A :=
  let! q := kget in match deref (MyFirst q) q with Some c => kret (Data c) | None => fault end.
Definition back : QK A :=
  let! q := kget in match deref (MyLast q) q with Some c => kret (Data c) | None => fault end.

Definition push (x : A) : QK unit :=
  let! q := kget in
  let a := fresh (dom (cells q)) in
  let h := <[a := Container x None]> (cells q) in
  match MyLast q with
  | None => kmod (fun _ => LQueue (Some a) (Some a) h)
  | Some l =>
      match h !! l with
      | None => fault
      | Some c => kmod (fun _ => LQueue (MyFirst q) (Some a) (<[l := Container (Data c) (Some a)]> h))
      end
  end.

Definition pop : QK unit :=
  let! q := kget in
  match MyFirst q with
  | None => fault
  | Some f =>
      match cells q !! f with
      | None => fault
      | Some c => kmod (fun _ => LQueue (Next c) (match Next c with Some _ => MyLast q | None => None end) (delete f (cells q)))
      end
  end.

(** The destructor: [while (!empty()) pop();] *)
Fixpoint drain (fuel : nat) : QK unit :=
  let! q := kget in
  if empty q then kret tt
  else match fuel with O => kstop NoFuel | S fuel => pop ;;; drain fuel end.

(** ** The queue as a list *)

(** The containers at [l], in order, hold [xs], each pointing to the next, and there are no others. *)
Record linked (l : list nat) (xs : list A) (q : lqueue) : Prop := {
  lk_length : length l = length xs;
  lk_nodup : NoDup l;
  lk_first : MyFirst q = head l;
  lk_last : MyLast q = last l;
  lk_dom : dom (cells q) = list_to_set l;
  lk_cell : forall i a x, l !! i = Some a -> xs !! i = Some x -> cells q !! a = Some (Container x (l !! S i));
}.
Definition holds (xs : list A) (q : lqueue) : Prop := exists l, linked l xs q.

Lemma holds_init : holds [] Init.
Proof. exists []. split; try done. constructor. Qed.

Lemma holds_empty xs q : holds xs q -> empty q = bool_decide (xs = []).
Proof.
  intros (l & [H1 _ H3 H4 _ _]). unfold empty. rewrite H3, H4. destruct xs as [|x xs], l as [|a l]; try done.
Qed.

Lemma holds_size xs q : holds xs q -> base.size (cells q) = length xs.
Proof.
  intros (l & [H1 H2 _ _ H5 _]). rewrite <-size_dom, H5, size_list_to_set by done. done.
Qed.

Lemma front_run x xs q : holds (x :: xs) q -> front q = ([], Ret x q).
Proof.
  intros (l & [H1 _ H3 _ _ H6]). destruct l as [|a l]; [done|]. unfold front. kstep. unfold deref. rewrite H3. cbn [head mbind option_bind].
  by rewrite (H6 O a x).
Qed.

Lemma back_run xs x q : holds (xs ++ [x]) q -> back q = ([], Ret x q).
Proof.
  intros (l & [H1 _ _ H4 _ H6]). destruct l as [|a l _] using rev_ind; [rewrite length_app in H1; cbn in H1; lia|].
  rewrite !length_app in H1. cbn in H1. unfold back. kstep. unfold deref. rewrite H4, last_snoc. cbn [mbind option_bind].
  rewrite (H6 (length xs) a x); [done| |].
  - rewrite lookup_app_r by lia. by replace (length xs - length l) with 0 by lia.
  - rewrite lookup_app_r by lia. by rewrite Nat.sub_diag.
Qed.

Lemma push_run x xs q : holds xs q -> exists q', push x q = ([], Ret tt q') /\ holds (xs ++ [x]) q'.
Proof.
  intros (l & [H1 H2 H3 H4 H5 H6]). unfold push. kstep. set (a := fresh (dom (cells q))).
  assert (Ha : a ∉ l) by (intros Hin; apply (is_fresh (dom (cells q))); rewrite H5 at 2; by apply elem_of_list_to_set).
  destruct l as [|b l _] using rev_ind.
  - destruct xs; [|done]. rewrite H4. eexists. split; [reflexivity|]. exists [a]. split; cbn; try done.
    + by apply NoDup_singleton.
    + rewrite dom_insert_L, H5. cbn. set_solver.
    + intros [|i] c y [= <-] [= <-]. by rewrite lookup_insert_eq.
  - rewrite H4, last_snoc. rewrite length_app in H1. cbn in H1.
    assert (Hb : is_Some (xs !! length l)) by (apply lookup_lt_is_Some; lia). destruct Hb as [y Hy].
    assert (Hlb : (l ++ [b]) !! length l = Some b) by (rewrite lookup_app_r by lia; by rewrite Nat.sub_diag).
    pose proof (H6 _ _ _ Hlb Hy) as Hcell. rewrite lookup_ge_None_2 in Hcell by (rewrite length_app; cbn; lia).
    rewrite lookup_insert_ne by (intros ->; apply Ha; apply elem_of_app; right; by left). rewrite Hcell.
    eexists. split; [reflexivity|]. exists ((l ++ [b]) ++ [a]). split; cbn [MyFirst MyLast cells].
    + rewrite !length_app. cbn. lia.
    + apply NoDup_app. split; [done|]. split; [|by apply NoDup_singleton]. intros z Hz ->%list_elem_of_singleton. done.
    + rewrite H3. by destruct l.
    + by rewrite last_snoc.
    + rewrite !dom_insert_L, H5, !list_to_set_app_L. cbn. set_solver.
    + intros i c z Hc Hz. destruct (decide (i = length (l ++ [b]))) as [->|Hne].
      * rewrite lookup_app_r, Nat.sub_diag in Hc by lia. injection Hc as <-.
        rewrite lookup_insert_ne by (intros ->; apply Ha; apply elem_of_app; right; by left). rewrite lookup_insert_eq.
        rewrite length_app in Hz. cbn in Hz. rewrite H1, lookup_app_r, Nat.sub_diag in Hz by lia. injection Hz as <-.
        rewrite (lookup_ge_None_2 ((l ++ [b]) ++ [a])) by (rewrite !length_app; cbn; lia). done.
      * assert (Hi : i < length (l ++ [b])) by (apply lookup_lt_Some in Hc; rewrite length_app in Hc; cbn in Hc; lia).
        rewrite lookup_app_l in Hc by done. rewrite lookup_app_l in Hz by (rewrite length_app in Hi; cbn in Hi; lia).
        assert (Hca : a <> c) by (intros ->; apply Ha; by eapply list_elem_of_lookup_2).
        destruct (decide (c = b)) as [->|Hcb].
        -- assert (i = length l) as -> by (eapply NoDup_lookup; [exact H2|exact Hc|exact Hlb]).
           rewrite lookup_insert_eq. cbn. rewrite Hy in Hz. injection Hz as <-.
           rewrite lookup_app_r by (rewrite length_app; cbn; lia). by rewrite length_app, Nat.add_comm, Nat.sub_diag.
        -- rewrite !lookup_insert_ne by done. rewrite (H6 i c z) by done. f_equal. f_equal.
           rewrite (lookup_app_l (l ++ [b]) [a]); [done|]. rewrite length_app in *. cbn in *.
           assert (i <> length l) by (intros ->; rewrite Hlb in Hc; by injection Hc). lia.
Qed.

Lemma pop_run x xs q : holds (x :: xs) q -> exists q', pop q = ([], Ret tt q') /\ holds xs q'.
Proof.
  intros (l & [H1 H2 H3 H4 H5 H6]). destruct l as [|a l]; [done|]. unfold pop. kstep. rewrite H3. cbn [head].
  rewrite (H6 O a x) by done. cbn [lookup list_lookup Next]. eexists. split; [reflexivity|]. exists l.
  apply NoDup_cons in H2 as [Ha H2]. split; cbn [MyFirst MyLast cells].
  - by injection H1.
  - done.
  - by destruct l.
  - destruct l as [|b l]; [done|]. cbn. rewrite H4. done.
  - rewrite dom_delete_L, H5. cbn. assert (a ∉ list_to_set (C := gset nat) l) by (by rewrite elem_of_list_to_set). set_solver.
  - intros i c z Hc Hz. rewrite lookup_delete_ne by (intros ->; apply Ha; by eapply list_elem_of_lookup_2).
    by apply (H6 (S i)).
Qed.
Lemma size_from_run l xs q i n : linked l xs q -> length xs = i + n ->
  forall Size, size_from n (l !! i) Size q = ([], Ret (Size + n) q).
Proof.
  intros [H1 _ _ _ _ H6]. revert i. induction n as [|n IH]; intros i Hn Size.
  - rewrite lookup_ge_None_2 by lia. cbn. by rewrite Nat.add_0_r.
  - destruct (lookup_lt_is_Some_2 l i) as [a Ha]; [lia|]. destruct (lookup_lt_is_Some_2 xs i) as [x Hx]; [lia|].
    rewrite Ha. cbn [size_from]. kstep. cbn [deref mbind option_bind]. rewrite (H6 i a x) by done. cbn [Next].
    rewrite IH by lia. do 2 f_equal. lia.
Qed.
Lemma size_run xs q : holds xs q -> size q = ([], Ret (length xs) q).
Proof.
  intros Hq. unfold size. kstep. rewrite (holds_size xs q Hq). destruct Hq as (l & Hl). rewrite (lk_first _ _ _ Hl).
  rewrite head_lookup. by rewrite (size_from_run l xs q 0 (length xs)).
Qed.

(** The destructor frees every container. *)
Lemma drain_run xs q fuel : holds xs q -> length xs <= fuel -> exists q', drain fuel q = ([], Ret tt q') /\ cells q' = ∅.
Proof.
  revert q fuel. induction xs as [|x xs IH]; intros q fuel Hq Hf; destruct fuel as [|fuel]; try (cbn in Hf; lia); cbn [drain]; kstep;
    rewrite (holds_empty _ _ Hq); cbn [bool_decide].
  1,2: exists q; split; [done|]; apply map_size_empty_inv; by rewrite (holds_size _ _ Hq).
  destruct (pop_run x xs q Hq) as (q1 & Hp & Hq1). rewrite bool_decide_false by done. erewrite kbind_pure by exact Hp. apply IH; [done|]. cbn in Hf. lia.
Qed.

(** Sequences of operations, and what they give on a list. *)
Inductive qop := QPush (x : A) | QPop | QFront | QBack | QSize | QEmpty.
Inductive qans := Done | Elem (x : A) | Count (n : nat) | Flag (b : bool).
Definition qstep (op : qop) : QK qans :=
  match op with
  | QPush x => push x ;;; kret Done
  | QPop => pop ;;; kret Done
  | QFront => let! x := front in kret (Elem x)
  | QBack => let! x := back in kret (Elem x)
  | QSize => let! n := size in kret (Count n)
  | QEmpty => let! q := kget in kret (Flag (empty q))
  end.
Definition lstep (op : qop) (xs : list A) : option (qans * list A) :=
  match op with
  | QPush x => Some (Done, xs ++ [x])
  | QPop => match xs with _ :: r => Some (Done, r) | [] => None end
  | QFront => (fun x => (Elem x, xs)) <$> head xs
  | QBack => (fun x => (Elem x, xs)) <$> last xs
  | QSize => Some (Count (length xs), xs)
  | QEmpty => Some (Flag (bool_decide (xs = [])), xs)
  end.
Fixpoint qrun (ops : list qop) : QK (list qans) :=
  match ops with
  | [] => kret []
  | op :: ops => let! a := qstep op in let! r := qrun ops in kret (a :: r)
  end.
Fixpoint lrun (ops : list qop) (xs : list A) : option (list qans * list A) :=
  match ops with
  | [] => Some ([], xs)
  | op :: ops =>
      match lstep op xs with
      | Some (a, xs) => (fun r => (a :: r.1, r.2)) <$> lrun ops xs
      | None => None
      end
  end.

Lemma qstep_run op xs q : holds xs q ->
  match lstep op xs with
  | Some (a, xs') => exists q', qstep op q = ([], Ret a q') /\ holds xs' q'
  | None => exists q', qstep op q = ([], Stop Faulted q')
  end.
Proof.
  intros Hq. destruct op as [x| | | | |]; cbn [lstep qstep].
  - destruct (push_run x xs q Hq) as (q' & E & H'). exists q'. erewrite kbind_pure by exact E. done.
  - destruct xs as [|x xs].
    + destruct Hq as (l & [H1 _ H3 _ _ _]). destruct l; [|done]. exists q. unfold kbind at 1, pop. unfold kbind at 1. cbn. by rewrite H3.
    + destruct (pop_run x xs q Hq) as (q' & E & H'). exists q'. erewrite kbind_pure by exact E. done.
  - destruct xs as [|x xs]; cbn [head fmap option_fmap option_map].
    + destruct Hq as (l & [H1 _ H3 _ _ _]). destruct l; [|done]. exists q. unfold kbind at 1, front. unfold kbind at 1, deref. cbn. by rewrite H3.
    + exists q. erewrite kbind_pure by (by eapply front_run). done.
  - destruct xs as [|x xs _] using rev_ind.
    + destruct Hq as (l & [H1 _ _ H4 _ _]). destruct l; [|done]. exists q. unfold kbind at 1, back. unfold kbind at 1, deref. cbn. by rewrite H4.
    + rewrite last_snoc. cbn. exists q. erewrite kbind_pure by (by eapply back_run). done.
  - exists q. erewrite kbind_pure by (by apply size_run). done.
  - exists q. kstep. by rewrite (holds_empty _ _ Hq).
Qed.

(** A linked queue is a queue: every sequence of operations, from a new queue or any other,
    gives the answers that it gives on the list of the elements, and faults exactly when the
    list has no first or last element to give; the containers in use are as many as the
    elements, so that none is lost. *)
Theorem queue_refines_list ops xs q : holds xs q ->
  match lrun ops xs with
  | Some (r, xs') => exists q', qrun ops q = ([], Ret r q') /\ holds xs' q' /\ base.size (cells q') = length xs'
  | None => exists q', qrun ops q = ([], Stop Faulted q')
  end.
Proof.
  revert xs q. induction ops as [|op ops IH]; intros xs q Hq; cbn [lrun qrun].
  { exists q. split_and!; [done|done|by apply holds_size]. }
  pose proof (qstep_run op xs q Hq) as Hs. destruct (lstep op xs) as [[a xs1]|].
  - destruct Hs as (q1 & E & Hq1). specialize (IH xs1 q1 Hq1). destruct (lrun ops xs1) as [[r xs2]|]; cbn [fmap option_fmap option_map fst snd].
    + destruct IH as (q2 & E2 & H2). exists q2. erewrite kbind_pure by exact E. erewrite kbind_pure by exact E2. done.
    + destruct IH as (q2 & E2). exists q2. erewrite kbind_pure by exact E. by erewrite kbind_stop by exact E2.
  - destruct Hs as (q1 & E). exists q1. by erewrite kbind_stop by exact E.
Qed.
End queue.
Arguments qop : clear implicits.
Arguments lqueue : clear implicits.

Lemma queue_refines_list_witness : exists q : lqueue nat,
  qrun [QPush 1; QPush 2; QFront; QPop; QBack; QSize] Init = ([], Ret [Done; Done; Elem 1; Done; Elem 2; Count 1] q) /\
  holds [2] q /\ base.size (cells q) = 1.
Proof. apply (queue_refines_list [QPush 1; QPush 2; QFront; QPop; QBack; QSize] [] Init). exact holds_init. Defined.
