(* ===== verification/Udp.v ===== *)
(** * UDP: classes UDP and UDPController of include/UProtocols4.tcc

    The fields of a datagram, its checksum over the pseudo header, the table of controllers
    (one per open socket) and their operations.  The blocks of the table are indexed as the
    code does: [Index > size()] is the only test, so that the index [UDPTableSize] leaves the
    array.  [Receive] sleeps in the middle: [Receive_resume] is the rest of it once woken.
    A buffer with its size is a list of bytes. *)

From stdpp Require Import base list.
From Stdlib Require Import ZArith Lia.
From S2P Require Import Prelude Spinlock CString Bytes ArrayList Frame Checksum Random Ipv4 Net Arp IpSend.
Open Scope Z_scope.

Definition ProtocolNumber : Z := 17.
Definition UDPTableSize : nat := 16.
Definition UdpHeader : Z := 8.
Definition SourcePort : nat := 0.
Definition DestinationPort : nat := 2.
Definition Length : nat := 4.
Definition ChecksumAt : nat := 6.

Definition GetSourcePort (f : frame) : Z := Ipv4.GetDataAs 2 SourcePort true f.
Definition GetDestinationPort (f : frame) : Z := Ipv4.GetDataAs 2 DestinationPort true f.
Definition GetLength (f : frame) : Z := Ipv4.GetDataAs 2 Length true f.
Definition GetChecksum (f : frame) : Z := Ipv4.GetDataAs 2 ChecksumAt true f.
Definition DataSize (f : frame) : Z := GetLength f - UdpHeader.
Definition GetData (Start Size : Z) (f : frame) : option (list Z) := Ipv4.GetData (UdpHeader + Start) Size f.
Definition SetSourcePort (v : Z) (f : frame) : frame := Ipv4.SetDataFrom 2 v SourcePort true f.
Definition SetDestinationPort (v : Z) (f : frame) : frame := Ipv4.SetDataFrom 2 v DestinationPort true f.
Definition SetLength (v : Z) (f : frame) : frame := Ipv4.SetDataFrom 2 v Length true f.
Definition SetChecksum (v : Z) (f : frame) : frame := Ipv4.SetDataFrom 2 v ChecksumAt true f.
Definition SetData (src : list Z) (Start : Z) (f : frame) : option frame := Ipv4.SetData src (UdpHeader + Start) f.

(** Addresses, protocol and length, as the checksum of a datagram sums them. *)
Definition PseudoHeader (proto : Z) (f : frame) : Z :=
  Z.land (Z.shiftr (GetSourceAddressBE f) 16) 65535 + Z.land (GetSourceAddressBE f) 65535 +
  Z.land (Z.shiftr (GetDestinationAddressBE f) 16) 65535 + Z.land (GetDestinationAddressBE f) 65535 +
  proto + u16 (Ipv4.DataSize f).
Definition VerifyChecksum (ComputeOnly : bool) (f : frame) : Z :=
  complement (sum_words (data_word f) (if ComputeOnly then Some 3%nat else None) (word_count (Ipv4.DataSize f))
    (PseudoHeader ProtocolNumber f)).
Definition IsValid (f : frame) : bool := VerifyChecksum false f =? 0.

(** ** Controllers *)

Record udpc := Udpc {
  Started : bool;
  Iface : option nat;                  (* None: a null pointer *)
  UFrame : frame;
  ReceiveQueue : list frame;           (* the front first *)
}.
Record udps := Udps {
  unet : netif;
  UDPLock : bool;
  UDPTable : alist udpc;
}.
Definition set_unet v (s : udps) : udps := Udps v (UDPLock s) (UDPTable s).
Definition set_UDPLock v (s : udps) : udps := Udps (unet s) v (UDPTable s).
Definition set_UDPTable v (s : udps) : udps := Udps (unet s) (UDPLock s) v.
Definition un : lens udps netif := Lens unet set_unet.
Definition udp_lk : lens udps bool := Lens UDPLock set_UDPLock.
Notation UK := (K udps).

Definition block (Index : Z) : UK udpc :=
  let! s := kget in
  if Index <? 0 then fault else item (UDPTable s) (Z.to_nat Index).
Definition put_block (Index : Z) (b : udpc) : UK unit :=
  kmod (fun s => set_UDPTable (AList (<[Z.to_nat Index := b]> (elems (UDPTable s))) (csize (UDPTable s))) s).
Definition size : UK Z := gets (fun s => Z.of_nat (csize (UDPTable s))).

Section udp.
Context `{Fresh} `{Peers}.

Definition UDP : frame := SetLength UdpHeader (SetProtocol ProtocolNumber IPv4).
Definition UDPController : udpc := Udpc false None UDP [].

(** [UDP<4>::ToDevice].  Through a null reference the search for an address still runs; the virtual
    call that follows does not. *)
Definition ToDevice (Device : option nat) (f : frame) : NK (Z * frame) :=
  let! it := IPFind Device in
  match it with
  | None => kret (-1, f)                               (* cprintf: no available addresses *)
  | Some it =>
      let f := SetSourceAddress (IPAddress it) f in
      let f := SetChecksum (VerifyChecksum true f) f in
      match Device with
      | None => fault
      | Some dev => IpSend.ToDevice dev 0 f
      end
  end.

Definition ClearFrame (f : frame) : option frame :=
  if DataSize f =? 0 then Some f else EraseData (header f + UdpHeader) (DataSize f) f.

(** The adapter of the route to the destination of [f]; [Iface] stays when there is none. *)
Definition UpdateRouteData (f : frame) (Iface : option nat) : NK (option nat) :=
  let! k := RouteTableMatch (GetDestinationAddress f) in
  match k with
  | None => kret Iface
  | Some k => let! s := kget in let! r := item (RouteTable s) k in kret (Net.Iface r)
  end.

Definition SendData (Index : Z) (Destination DestiPort : Z) (Data : list Z) : UK Z :=
  if ((Destination =? 0) || (DestiPort =? 0))%bool then kret (-1)
  else
    let! b := block Index in
    match SetData Data 0 (SetDestinationPort DestiPort (SetDestinationAddress Destination (UFrame b))) with
    | None => fault
    | Some f =>
        let! dev := (match Iface b with Some d => kret (Some d) | None => zoom un (UpdateRouteData f None) end) in
        let! r := zoom un (ToDevice dev f) in
        match ClearFrame r.2 with
        | None => fault
        | Some f => put_block Index (Udpc (Started b) dev f (ReceiveQueue b)) ;;; kret (Z.of_nat (length Data))
        end
    end.

(** ** Operations of a socket *)

Definition Open : UK Z :=
  acquire udp_lk ;;;
  let! s := kget in
  let! k := find_item (fun b => negb (Started b)) (UDPTable s) in
  match k with
  | Some k =>
      let! b := block (Z.of_nat k) in
      put_block (Z.of_nat k) (Udpc true (Iface b) (UFrame b) (ReceiveQueue b)) ;;;
      release udp_lk ;;; kret (Z.of_nat k)
  | None => release udp_lk ;;; kret (-1)
  end.

(** [Clear]: a new controller in its place; the old frame and queue are never freed. *)
Definition Close (Index : Z) : UK Z :=
  let! n := size in
  if n <? Index then kret (-1)
  else
    acquire udp_lk ;;;
    let! b := block Index in
    if negb (Started b) then release udp_lk ;;; kret (-2)
    else put_block Index UDPController ;;; release udp_lk ;;; kret 0.

(** The test of the loop of [Bind], over the blocks from [i] on: another controller has the port, on
    all adapters or on the one that [ad] gives. *)
Fixpoint port_taken (l : list udpc) (i Index : Z) (ad : UK (option nat)) (Port : Z) : UK bool :=
  match l with
  | [] => kret false
  | b :: l =>
      let next := port_taken l (i + 1) Index ad Port in
      if (Started b && negb (i =? Index))%bool then
        let! here := (match Iface b with
                      | None => kret true
                      | Some d => let! a := ad in kret (bool_decide (a = Some d))
                      end) in
        if (here && (Port =? GetSourcePort (UFrame b)))%bool then kret true else next
      else next
  end.

Definition Localhost : Z := 127.
Definition LocalhostMask : Z := 255.

(** [IPAddr->Adapter], where [IPAddr] is what [IPFind] gave, [end()] included. *)
Definition adapter_at (k : option nat) : UK (option nat) :=
  let! s := kget in
  let! x := item (IPTable (unet s)) (default (csize (IPTable (unet s))) k) in
  kret (IPAdapter x).

Definition Bind (Index Address Port : Z) : UK Z :=
  let! n := size in
  if n <? Index then kret (-1)
  else if Z.land Address LocalhostMask =? Localhost then kret (-2)
  else
    acquire udp_lk ;;;
    let! b := block Index in
    if negb (Started b) then release udp_lk ;;; kret (-3)
    else
      put_block Index (Udpc (Started b) (Iface b) (SetSourceAddress Address (UFrame b)) (ReceiveQueue b)) ;;;
      let! s := kget in
      let! k := find_item (fun v => Address =? IPAddress v) (IPTable (unet s)) in
      if (negb (Address =? 0) && bool_decide (k = None))%bool then release udp_lk ;;; kret (-4)
      else
        let! taken := port_taken (live (UDPTable s)) 0 Index (adapter_at k) Port in
        if taken : bool then release udp_lk ;;; kret (-5)
        else
          let! dev := (if Address =? 0 then kret None else adapter_at k) in
          let! b := block Index in
          put_block Index (Udpc (Started b) dev (SetSourcePort Port (UFrame b)) (ReceiveQueue b)) ;;;
          release udp_lk ;;; kret 0.

(** The other [Bind], to an adapter. *)
Definition BindAdapter (Index : Z) (Adapter : option nat) (Port : Z) : UK Z :=
  let! n := size in
  if n <? Index then kret (-1)
  else
    acquire udp_lk ;;;
    let! b := block Index in
    if negb (Started b) then release udp_lk ;;; kret (-2)
    else
      let! s := kget in
      let! taken := port_taken (live (UDPTable s)) 0 Index (kret Adapter) Port in
      if taken : bool then release udp_lk ;;; kret (-3)
      else
        put_block Index (Udpc (Started b) Adapter (SetSourcePort Port (UFrame b)) (ReceiveQueue b)) ;;;
        release udp_lk ;;; kret 0.

(** What [Receive] hands over: the result, [*DestiAddress], [*DestiPort] and the bytes. *)
Record datagram := Datagram { d_size : Z; d_address : Z; d_port : Z; d_bytes : list Z }.
Definition deliver (Size : Z) (f : frame) : UK datagram :=
  let TrueSize := if Size <? DataSize f then Size else DataSize f in
  match GetData 0 TrueSize f with
  | None => fault
  | Some d => kret (Datagram TrueSize (GetSourceAddress f) (GetSourcePort f) d)
  end.

(** A turn of [while (1)], with the lock held. *)
Definition receive_turn (Index Size : Z) : UK datagram :=
  let! b := block Index in
  match ReceiveQueue b with
  | [] => ksleep (ChUdp (Z.to_nat Index)) (set_UDPLock false)
  | f :: q => put_block Index (Udpc (Started b) (Iface b) (UFrame b) q) ;;; release udp_lk ;;; deliver Size f
  end.
Definition failed (code : Z) : datagram := Datagram code 0 0 [].
Definition Receive (Index Size : Z) : UK datagram :=
  let! n := size in
  if n <? Index then kret (failed (-1))
  else
    acquire udp_lk ;;;
    let! b := block Index in
    if negb (Started b) then release udp_lk ;;; kret (failed (-2)) else receive_turn Index Size.
Definition Receive_resume (Index Size : Z) : UK datagram := acquire udp_lk ;;; receive_turn Index Size.

Definition Transmit (Index DestiAddress DestiPort : Z) (Data : list Z) : UK Z :=
  let! n := size in
  if n <? Index then kret (-1)
  else
    acquire udp_lk ;;;
    let! _ := SendData Index DestiAddress DestiPort Data in
    release udp_lk ;;; kret (Z.of_nat (length Data)).

(** ** The protocol *)

Definition Register (s : udps) : udps :=
  Udps (unet s) false (AList (map (fun b => Udpc (Started b) (Iface b) UDP (ReceiveQueue b)) (elems (UDPTable s))) UDPTableSize).

Definition accepts (dev : nat) (Port : Z) (b : udpc) : bool :=
  Started b && (bool_decide (Iface b = None) || bool_decide (Iface b = Some dev)) && (GetSourcePort (UFrame b) =? Port).

(** A wrong checksum is only reported. *)
Definition Main (dev : nat) (f : frame) : UK unit :=
  acquire udp_lk ;;;
  let! s := kget in
  let! k := find_item (accepts dev (GetDestinationPort f)) (UDPTable s) in
  match k with
  | Some k =>
      let! b := block (Z.of_nat k) in
      put_block (Z.of_nat k) (Udpc (Started b) (Iface b) (UFrame b) (ReceiveQueue b ++ [f])) ;;;
      wakeup (ChUdp k) ;;;
      release udp_lk
  | None => release udp_lk
  end.
End udp.

(** ** Sockets as queues of datagrams

    What the operations on arriving datagrams promise, over the list of the queues alone. *)

(** The index of the first element that satisfies [p]. *)
Fixpoint first_at {A} (p : A -> bool) (l : list A) : option nat :=
  match l with
  | [] => None
  | x :: l => if p x then Some O else S <$> first_at p l
  end.

Lemma first_at_lookup {A} (p : A -> bool) l k x : l !! k = Some x -> p x = true ->
  (forall j y, (j < k)%nat -> l !! j = Some y -> p y = false) -> first_at p l = Some k.
Proof.
  revert k. induction l as [|y l IH]; intros [|k] Hk Hp Hno; [done..| |].
  - injection Hk as ->. cbn. by rewrite Hp.
  - cbn. rewrite (Hno O y) by (try done; lia). rewrite (IH k); [done|done|done|]. intros j z Hj. apply (Hno (S j)). lia.
Qed.
Lemma first_at_none {A} (p : A -> bool) l : (forall x, x ∈ l -> p x = false) -> first_at p l = None.
Proof.
  induction l as [|y l IH]; intros Hno; [done|]. cbn. rewrite (Hno y) by left. rewrite IH; [done|]. intros x Hx. apply Hno. by right.
Qed.
Lemma first_at_some {A} (p : A -> bool) l k : first_at p l = Some k -> exists x, l !! k = Some x /\ p x = true.
Proof.
  revert k. induction l as [|y l IH]; intros k; [done|]. cbn. destruct (p y) eqn:Hp; [intros [= <-]; by exists y|].
  intros (j & Hj & ->)%fmap_Some. by apply IH.
Qed.
Lemma first_at_map {A B} (g : A -> B) (p : B -> bool) l : first_at p (g <$> l) = first_at (fun x => p (g x)) l.
Proof. induction l as [|y l IH]; [done|]. cbn. destruct (p (g y)); [done|]. by rewrite IH. Qed.

Lemma find_item_first {S A} (p : A -> bool) max (a : alist A) (s : S) : al_ok max a ->
  find_item p a s = ([], Ret (first_at p (live a)) s).
Proof.
  intros Hok. destruct (find_item_spec p _ a s Hok) as [[E Hno]|(k & x & E & Hk & Hx & Hp & Hno)]; rewrite E.
  - by rewrite first_at_none.
  - rewrite (first_at_lookup p _ k x); [done| |done|].
    + by rewrite live_lookup.
    + intros j y Hj Hy. rewrite live_lookup in Hy by lia. by apply (Hno j).
Qed.

(** A datagram whose length field stays inside the array. *)
Definition readable (f : frame) : Prop := frame_ok f /\ HeaderSize + header f + GetLength f <= MaxFrameSize.
Definition blocks (s : udps) : list udpc := elems (UDPTable s).
Record udp_ok (s : udps) : Prop := {
  uo_table : length (blocks s) = UDPTableSize;
  uo_size : csize (UDPTable s) = UDPTableSize;
  uo_lock : UDPLock s = false;
  uo_queues : Forall (fun b => Forall readable (ReceiveQueue b)) (blocks s);
}.

Lemma udp_al s : udp_ok s -> al_ok UDPTableSize (UDPTable s) /\ live (UDPTable s) = blocks s.
Proof.
  intros [H1 H2 _ _]. split; [split; [done|by rewrite H2]|]. unfold live, blocks in *. apply take_ge. by rewrite H1, H2.
Qed.

(** The datagram as [Receive] shows it. *)
Definition view (Size : Z) (f : frame) : datagram :=
  let n := if Size <? DataSize f then Size else DataSize f in
  Datagram n (GetSourceAddress f) (GetSourcePort f) (get_bytes (data_at f 8) (Z.to_nat n) f).

Lemma deliver_run Size f s : readable f -> deliver Size f s = ([], Ret (view Size f) s).
Proof.
  intros [Hf Hr]. unfold deliver, view. set (n := if Size <? DataSize f then Size else DataSize f).
  pose proof (header_range f Hf) as Hh. unfold GetData, Ipv4.GetData, Frame.GetData, UdpHeader, HeaderSize, MaxFrameSize in *.
  assert (Hn : n <= GetLength f - 8) by (unfold n, DataSize, UdpHeader; destruct (Z.ltb_spec Size (GetLength f - 8)); lia).
  destruct (Z.leb_spec n 0).
  - replace (Z.to_nat n) with O by lia. unfold get_bytes, slice. done.
  - rewrite (proj2 (Z.leb_le _ _)), (proj2 (Z.leb_le _ _)) by lia. cbn [andb]. unfold kret. do 4 f_equal.
    unfold get_bytes. f_equal. unfold data_at, Payload. lia.
Qed.

(** The promise: one queue for each block; a datagram goes to the queue of the first block that is
    bound to its port on the adapter it came from. *)
Inductive uop :=
| Arrive (dev : nat) (f : frame)           (* UDP::Main *)
| Recv (Index Size : Z)                    (* Receive *)
| Resume (Index Size : Z).                 (* a Receive that was woken *)
Inductive reply :=
| Queued (woken : option nat)
| Delivered (d : datagram)
| Waits.

Definition binding : Type := bool * option nat * frame.
Definition setup (s : udps) : list binding := (fun b => (Started b, Iface b, UFrame b)) <$> blocks s.
Definition bound (st : list binding) (dev : nat) (Port : Z) : option nat :=
  first_at (fun b => let '(st, ifc, f) := b in accepts dev Port (Udpc st ifc f [])) st.
Definition take_front (i : nat) (Size : Z) (q : list (list frame)) : reply * list (list frame) :=
  match q !! i with
  | Some (f :: r) => (Delivered (view Size f), <[i := r]> q)
  | _ => (Waits, q)
  end.
Definition spec_step (st : list binding) (op : uop) (q : list (list frame)) : reply * list (list frame) :=
  match op with
  | Arrive dev f =>
      let k := bound st dev (GetDestinationPort f) in
      (Queued k, match k with Some k => alter (fun r => r ++ [f]) k q | None => q end)
  | Recv i Size | Resume i Size => take_front (Z.to_nat i) Size q
  end.
Fixpoint spec_run (st : list binding) (ops : list uop) (q : list (list frame)) : list reply * list (list frame) :=
  match ops with
  | [] => ([], q)
  | op :: ops => let '(r, q) := spec_step st op q in let '(rs, q) := spec_run st ops q in (r :: rs, q)
  end.

(** The operations themselves, and what comes of them. *)
Definition received (i : nat) (r : list event * outcome udps datagram) : option (reply * udps) :=
  match r with
  | ([], Ret d s) => Some (Delivered d, s)
  | ([], Stop (Sleeping c) s) => if decide (c = ChUdp i) then Some (Waits, s) else None
  | _ => None
  end.
Definition ustep (op : uop) (s : udps) : option (reply * udps) :=
  match op with
  | Arrive dev f =>
      match Main dev f s with
      | ([], Ret _ s) => Some (Queued None, s)
      | ([Wakeup (ChUdp k)], Ret _ s) => Some (Queued (Some k), s)
      | _ => None
      end
  | Recv i Size => received (Z.to_nat i) (Receive i Size s)
  | Resume i Size => received (Z.to_nat i) (Receive_resume i Size s)
  end.
Fixpoint urun (ops : list uop) (s : udps) : option (list reply * udps) :=
  match ops with
  | [] => Some ([], s)
  | op :: ops =>
      match ustep op s with
      | Some (r, s) => match urun ops s with Some (rs, s) => Some (r :: rs, s) | None => None end
      | None => None
      end
  end.

(** What the callers keep to: open sockets, and frames that hold what their length field says. *)
Definition legal (st : list binding) (op : uop) : Prop :=
  match op with
  | Arrive _ f => readable f
  | Recv i _ | Resume i _ => 0 <= i /\ exists b, st !! Z.to_nat i = Some b /\ b.1.1 = true
  end.
Definition queues (s : udps) : list (list frame) := ReceiveQueue <$> blocks s.

(** A block whose queue changes. *)
Lemma requeue_ok s k b q : udp_ok s -> blocks s !! k = Some b -> Forall readable q ->
  let s' := set_UDPLock false (set_UDPTable (AList (<[k := Udpc (Started b) (Iface b) (UFrame b) q]> (elems (UDPTable s))) (csize (UDPTable s))) s) in
  udp_ok s' /\ setup s' = setup s /\ queues s' = <[k := q]> (queues s).
Proof.
  intros [H1 H2 H3 H4] Hb Hq s'. unfold setup, queues, blocks in *. cbn. split_and!.
  - split; unfold blocks; cbn; [by rewrite length_insert|done|done|]. by apply Forall_insert.
  - rewrite list_fmap_insert. cbn. apply list_insert_id. by rewrite list_lookup_fmap, Hb.
  - by rewrite list_fmap_insert.
Qed.

(** With the lock held, the table as it was. *)
Lemma locked_block s k b : blocks s !! k = Some b -> block (Z.of_nat k) (set_UDPLock true s) = ([], Ret b (set_UDPLock true s)).
Proof.
  intros Hb. unfold block. kstep. rewrite (proj2 (Z.ltb_ge _ 0)) by lia. rewrite Nat2Z.id. unfold item, blocks in *. cbn. by rewrite Hb.
Qed.

Lemma receive_turn_step s i Size b : udp_ok s -> blocks s !! i = Some b ->
  exists r s', received i (receive_turn (Z.of_nat i) Size (set_UDPLock true s)) = Some (r, s') /\
    udp_ok s' /\ setup s' = setup s /\ (r, queues s') = take_front i Size (queues s).
Proof.
  intros Hok Hb. unfold receive_turn. erewrite kbind_pure by (by apply locked_block).
  assert (Hq : queues s !! i = Some (ReceiveQueue b)) by (unfold queues; by rewrite list_lookup_fmap, Hb).
  unfold take_front. rewrite Hq.
  assert (Hall : Forall readable (ReceiveQueue b)) by (destruct Hok as [_ _ _ H4]; rewrite Forall_lookup in H4; by apply (H4 i)).
  destruct (ReceiveQueue b) as [|f q] eqn:Eq.
  - unfold ksleep, received. rewrite Nat2Z.id, decide_True by done. eexists _, _. split; [done|].
    destruct Hok as [H1 H2 H3 H4]. split; [by split|done].
  - apply Forall_cons in Hall as [Hf Hall]. destruct (requeue_ok s i b q Hok Hb Hall) as (K1 & K2 & K3).
    unfold put_block. kstep. rewrite Nat2Z.id. erewrite kbind_pure by (apply release_run; done).
    rewrite deliver_run by done. eexists _, _. split; [reflexivity|]. split; [exact K1|]. split; [exact K2|]. by rewrite <-K3.
Qed.

Lemma arrive_step s dev f : udp_ok s -> readable f -> exists s',
  ustep (Arrive dev f) s = Some (Queued (bound (setup s) dev (GetDestinationPort f)), s') /\
  udp_ok s' /\ setup s' = setup s /\ (spec_step (setup s) (Arrive dev f) (queues s)).2 = queues s'.
Proof.
  intros Hok Hf. destruct (udp_al s Hok) as [Hal Hlive]. unfold ustep, Main. pose proof (uo_lock _ Hok) as Hlk.
  erewrite kbind_pure by (by apply acquire_run). kstep. cbn [lput udp_lk].
  erewrite kbind_pure by (apply (find_item_first _ UDPTableSize); exact Hal). cbn [set_UDPLock UDPTable]. rewrite Hlive.
  assert (Hbd : bound (setup s) dev (GetDestinationPort f) = first_at (accepts dev (GetDestinationPort f)) (blocks s)).
  { unfold bound, setup. by rewrite first_at_map. }
  cbn [spec_step snd]. rewrite Hbd. destruct (first_at _ (blocks s)) as [k|] eqn:Ek.
  - destruct (first_at_some _ _ _ Ek) as (b & Hb & _).
    erewrite kbind_pure by (by apply locked_block).
    assert (Hall : Forall readable (ReceiveQueue b ++ [f])).
    { apply Forall_app. split; [|by apply Forall_singleton]. destruct Hok as [_ _ _ H4]. rewrite Forall_lookup in H4. by apply (H4 k). }
    destruct (requeue_ok s k b _ Hok Hb Hall) as (K1 & K2 & K3). unfold put_block. kstep. rewrite Nat2Z.id.
    unfold wakeup, emit, kbind at 1. rewrite release_run by done. eexists. split; [reflexivity|]. split; [exact K1|]. split; [exact K2|].
    rewrite (alter_as_insert (fun r => r ++ [f]) _ k (ReceiveQueue b)); [symmetry; exact K3|].
    unfold queues. by rewrite list_lookup_fmap, Hb.
  - rewrite release_run by done. eexists. split; [reflexivity|]. destruct Hok as [H1 H2 H3 H4]. split; [by split|done].
Qed.

Lemma recv_step s i Size : udp_ok s -> legal (setup s) (Recv i Size) -> exists b,
  0 <= i /\ i = Z.of_nat (Z.to_nat i) /\ blocks s !! Z.to_nat i = Some b /\ Started b = true /\ i < Z.of_nat UDPTableSize.
Proof.
  intros Hok (H0 & [[st ifc] f] & Hb & Hst). cbn in Hst. subst st. unfold setup in Hb.
  apply list_lookup_fmap_Some in Hb as (b & E & Hb). injection E as E1 E2 E3. exists b. split_and!; [done|lia|done|done|].
  apply lookup_lt_Some in Hb. rewrite (uo_table _ Hok) in Hb. lia.
Qed.

Lemma udp_step s op : udp_ok s -> legal (setup s) op -> exists r s',
  ustep op s = Some (r, s') /\ udp_ok s' /\ setup s' = setup s /\ (r, queues s') = spec_step (setup s) op (queues s).
Proof.
  intros Hok Hl. destruct op as [dev f|i Size|i Size].
  - destruct (arrive_step s dev f Hok Hl) as (s' & H1 & H2 & H3 & H4). eexists _, s'. split_and!; [exact H1|done|done|]. by rewrite <-H4.
  - destruct (recv_step s i Size Hok Hl) as (b & H0 & Hi & Hb & Hst & Hlt). cbn [ustep spec_step]. unfold Receive, size. kstep.
    rewrite (uo_size _ Hok), (proj2 (Z.ltb_ge _ i)) by lia. erewrite kbind_pure by (apply acquire_run; apply Hok).
    revert Hi Hb. generalize (Z.to_nat i). intros k -> Hb. erewrite kbind_pure by (by apply locked_block). rewrite Hst. cbn [negb].
    by apply (receive_turn_step s _ _ b).
  - destruct (recv_step s i Size Hok Hl) as (b & H0 & Hi & Hb & _). cbn [ustep spec_step]. unfold Receive_resume.
    erewrite kbind_pure by (apply acquire_run; apply Hok). revert Hi Hb. generalize (Z.to_nat i). intros k -> Hb.
    by apply (receive_turn_step s _ _ b).
Qed.


(** A socket open and bound to port 5000 of the adapter of [demo_known]. *)
Definition demo_start : udps := Register (Udps demo_known false (AList (replicate UDPTableSize UDPController) 0)).
Definition demo_sock : udps := final (Bind 0 251766976 5000 (final (Open demo_start).2)).2.
Definition demo_dgram : frame :=
  let f := SetSourceAddress 33685514 (SetDestinationPort 5000 (SetSourcePort 53 UDP)) in
  default f (SetData [1; 2; 3; 4] 0 (SetLength 12 f)).

Lemma empty_queues l : forallb (fun b => match ReceiveQueue b with [] => true | _ => false end) l = true ->
  Forall (fun b => Forall readable (ReceiveQueue b)) l.
Proof.
  induction l as [|b l IH]; cbn [forallb]; intros Hl; [constructor|]. apply andb_true_iff in Hl as [Hb Hl].
  constructor; [|by apply IH]. by destruct (ReceiveQueue b).
Qed.
Lemma demo_sock_ok : udp_ok demo_sock.
Proof.
  split; [vm_compute; reflexivity|vm_compute; reflexivity|vm_compute; reflexivity|]. apply empty_queues. vm_compute. reflexivity.
Qed.
Lemma demo_dgram_readable : readable demo_dgram.
Proof. split; [apply checked_ok; vm_compute; reflexivity|vm_compute; discriminate]. Qed.

Definition demo_ops : list uop := [Recv 0 100; Arrive 0 demo_dgram; Resume 0 3; Recv 0 100].
