(* ===== verification/UdpSend.v ===== *)
(** * Sending datagrams: [UDPController::Transmit], over Udp and IpSend

    What a datagram looks like when it leaves, and what comes of it at a receiver that runs the
    same code. *)

From stdpp Require Import base list.
From Stdlib Require Import ZArith Lia.
From S2P Require Import Prelude Spinlock CString Bytes ArrayList Frame Checksum Random Ipv4 Net Arp IpSend Udp.
Open Scope Z_scope.

Section udp_send.
Context `{Fresh} `{Peers}.

(** A datagram under construction, as the constructor makes it and every send leaves it. *)
Record ready (f : frame) : Prop := {
  rd_full : full f;
  rd_version : GetVersion f = 4;
  rd_header : header f = 20;
  rd_proto : GetProtocol f = ProtocolNumber;
  rd_length : GetLength f = UdpHeader;
}.

Lemma udp_pos f k : header f = 20 -> data_at f k = (34 + k)%nat.
Proof. intros Hh. unfold data_at, Payload. by rewrite Hh. Qed.

(** The fields at their places in the array. *)
Lemma ready_at f g : ready f -> full g -> header g = header f ->
  get_at 1 true 14 g = get_at 1 true 14 f -> get_at 1 true 23 g = get_at 1 true 23 f -> get_at 2 true 38 g = get_at 2 true 38 f -> ready g.
Proof.
  intros [H1 H2 H3 H4 H5] Hg Hh E1 E2 E3. split; [done| |congruence| |].
  - rewrite <-H2. unfold GetVersion, Frame.GetDataAs. change (Payload + 0)%nat with 14%nat. by rewrite E1.
  - rewrite <-H4. unfold GetProtocol, Frame.GetDataAs. exact E2.
  - rewrite <-H5. unfold GetLength, Ipv4.GetDataAs, Length. rewrite !udp_pos by congruence. exact E3.
Qed.

Lemma UDP_ready : ready UDP.
Proof.
  assert (Hok : frame_ok (SetProtocol ProtocolNumber IPv4)).
  { unfold SetProtocol, IPv4, SetTotalLength, Ipv4.SetFlags, SetInternetHeaderLength, SetVersion, SetEtherType, Frame.SetDataFrom.
    repeat (apply set_at_ok; [|offset_lia]). apply put_header_ok; [apply EthernetFrame_ok|apply enc_bytes|offset_lia]. }
  assert (Hh : header (SetProtocol ProtocolNumber IPv4) = 20) by (vm_compute; reflexivity).
  assert (Hs : FrameSize (SetProtocol ProtocolNumber IPv4) = 64) by (vm_compute; reflexivity).
  unfold UDP, SetLength. destruct (set_data_full 2 UdpHeader Length true (SetProtocol ProtocolNumber IPv4)) as (H1 & H2 & H3 & H4 & _);
    [done|rewrite Hs; done|unfold Frame.DataSize; rewrite Hh, Hs; done|rewrite udp_pos, Hs by done; done|].
  split; [done|vm_compute; reflexivity|congruence|vm_compute; reflexivity|]. unfold GetLength. by rewrite H4.
Qed.

Lemma filled u D P Data : ready u -> bytes Data -> Z.of_nat (42 + length Data) <= MaxFrameSize -> 0 <= D < 2 ^ 32 -> 0 <= P < 2 ^ 16 ->
  exists f, SetData Data 0 (SetDestinationPort P (SetDestinationAddress D u)) = Some f /\ ready f /\
    FrameSize f = Z.max (FrameSize u) (Z.of_nat (42 + length Data)) /\
    GetDestinationAddress f = D /\ GetDestinationPort f = P /\ GetSourcePort f = GetSourcePort u /\ get_bytes 42 (length Data) f = Data.
Proof.
  intros Hu Hb Hmax HD HP.
  destruct (set_header_full 4 D 30 false u (rd_full _ Hu)) as (F1 & S1 & E1 & _ & G1); [lia|lia|].
  change (set_at 4 false 30 D u) with (SetDestinationAddress D u) in *.
  assert (R1 : ready (SetDestinationAddress D u)) by (apply (ready_at u); [done|done|done|apply G1; lia|apply G1; lia|apply G1; lia]).
  assert (Hd1 : GetDestinationAddress (SetDestinationAddress D u) = D).
  { unfold GetDestinationAddress, SetDestinationAddress, Frame.GetDataAs, Frame.SetDataFrom.
    assert (Hfu : frame_ok u) by apply Hu. frame_field. rewrite Z.mod_small; lia. }
  set (f1 := SetDestinationAddress D u) in *.
  assert (Hh1 : header f1 = 20) by apply R1. pose proof (rd_full _ R1) as [Ho1 Hm1 Hr1 _].
  destruct (set_data_full 2 P DestinationPort true f1 Ho1 Hm1 Hr1) as (F2 & S2 & E2 & V2 & G2 & _);
    [rewrite udp_pos by done; unfold MinFrameSize in Hm1; unfold DestinationPort; lia|].
  change (Ipv4.SetDataFrom 2 P DestinationPort true f1) with (SetDestinationPort P f1) in *.
  rewrite (udp_pos f1 DestinationPort Hh1) in G2. unfold DestinationPort in G2. cbn [Nat.add] in G2.
  assert (R2 : ready (SetDestinationPort P f1)) by (apply (ready_at f1); [done|done|done|apply G2; lia|apply G2; lia|apply G2; lia]).
  set (f2 := SetDestinationPort P f1) in *.
  assert (Hh2 : header f2 = 20) by apply R2. pose proof (rd_full _ R2) as [Ho2 Hm2 Hr2 _].
  destruct (set_list_full Data 8 f2 Ho2 Hm2 Hr2 Hb) as (f & E & F3 & S3 & E3 & V3 & G3); [by rewrite udp_pos|].
  rewrite udp_pos in V3, G3, S3 by done. cbn [Nat.add] in V3, G3, S3.
  exists f. assert (Hhf : header f = 20) by congruence. split_and!; [exact E| |by rewrite S3, S2, S1| | | |exact V3].
  - apply (ready_at f2); [done|done|done|apply G3; lia|apply G3; lia|apply G3; lia].
  - unfold GetDestinationAddress, Frame.GetDataAs in *. rewrite G3, G2 by offset_lia. exact Hd1.
  - unfold GetDestinationPort, Ipv4.GetDataAs in *. rewrite udp_pos, G3 by (try done; unfold DestinationPort; lia).
    rewrite udp_pos in V2 by done. rewrite V2. rewrite Z.mod_small; [done|exact HP].
  - unfold GetSourcePort, Ipv4.GetDataAs. rewrite !udp_pos by (try done; apply Hu). unfold SourcePort. cbn [Nat.add].
    rewrite G3, G2, G1 by lia. done.
Qed.

(** Equal integers are made of equal bytes. *)
Lemma get_at_bytes n p f g : frame_ok f -> frame_ok g -> (p + n <= 1518)%nat -> get_at n false p g = get_at n false p f ->
  get_bytes p n g = get_bytes p n f.
Proof.
  intros Hf Hg Hn E. unfold get_at in E. pose proof (get_bytes_length p n f (fo_length _ Hf) Hn) as L1. pose proof (get_bytes_length p n g (fo_length _ Hg) Hn) as L2.
  pose proof (get_bytes_bytes p n f Hf) as B1. pose proof (get_bytes_bytes p n g Hg) as B2. unfold get_bytes in *.
  rewrite <-(enc_dec false (slice (Data f) p n) B1), <-(enc_dec false (slice (Data g) p n) B2), L1, L2. by rewrite E.
Qed.
(** Both orders of the bytes of an address. *)
Lemma swapped n p f g : frame_ok f -> frame_ok g -> (p + n <= 1518)%nat -> get_at n false p g = get_at n false p f ->
  get_at n true p g = get_at n true p f.
Proof. intros Hf Hg Hn E. unfold get_at. f_equal. by apply get_at_bytes. Qed.

(** The checksum depends on the addresses, the length and the data. *)
Lemma checksum_same proto f g a k : full f -> header g = header f -> Ipv4.DataSize g = Ipv4.DataSize f ->
  get_at 4 true 26 g = get_at 4 true 26 f -> get_at 4 true 30 g = get_at 4 true 30 f ->
  same_bytes 34 1518 f g ->
  sum_words (data_word g) (if a : bool then Some k else None) (word_count (Ipv4.DataSize g)) (PseudoHeader proto g) =
  sum_words (data_word f) (if a then Some k else None) (word_count (Ipv4.DataSize f)) (PseudoHeader proto f).
Proof.
  intros Hf Hh Hd Ea Eb Hs. destruct (word_count_bound f Hf) as (_ & Hpos & _).
  unfold PseudoHeader, GetSourceAddressBE, GetDestinationAddressBE, Frame.GetDataAs.
  change (Payload + SourceAddress)%nat with 26%nat. change (Payload + DestinationAddress)%nat with 30%nat.
  rewrite Hd, Ea, Eb. apply sum_words_ext. intros i Hi. unfold data_word, Ipv4.GetDataAs. pose proof (Hpos i Hi) as Hp. unfold data_at in *.
  rewrite Hh. apply (same_get 34 1518); [done|destruct (fu_header _ Hf); unfold Payload; lia|lia].
Qed.

Lemma pseudo_range proto f : frame_ok f -> 0 <= proto < 256 -> 0 <= PseudoHeader proto f < 2 ^ 20.
Proof.
  intros Hf Hp. unfold PseudoHeader. pose proof (u16_range (Ipv4.DataSize f)).
  assert (Hl : forall x, 0 <= Z.land x 65535 < 2 ^ 16) by (intros x; change 65535 with (Z.ones 16); rewrite Z.land_ones by lia; lia_dm).
  pose proof (Hl (Z.shiftr (GetSourceAddressBE f) 16)). pose proof (Hl (GetSourceAddressBE f)).
  pose proof (Hl (Z.shiftr (GetDestinationAddressBE f) 16)). pose proof (Hl (GetDestinationAddressBE f)). lia.
Qed.
(** [UDP<4>::ToDevice] up to the call of [IPv4::ToDevice]: valid, with the address of the adapter. *)
Lemma summed ip f : ready f -> 0 <= ip < 2 ^ 32 ->
  let h := SetSourceAddress ip f in let g := SetChecksum (VerifyChecksum true h) h in
  ready g /\ IsValid g = true /\ FrameSize g = FrameSize f /\ GetSourceAddress g = ip /\
  (forall n r p, (p + n <= 26 \/ 30 <= p)%nat -> (p + n <= 34 \/ 42 <= p \/ (34 <= p /\ p + n <= 40))%nat -> (p + n <= 1518)%nat ->
     get_at n r p g = get_at n r p f).
Proof.
  intros Hf Hip h g. destruct (set_header_full 4 ip 26 false f (rd_full _ Hf)) as (F1 & S1 & E1 & D1 & G1); [lia|lia|].
  change (set_at 4 false 26 ip f) with h in *.
  assert (R1 : ready h) by (apply (ready_at f); [done|done|done|apply G1; lia|apply G1; lia|apply G1; lia]).
  assert (Hh : header h = 20) by apply R1.
  assert (Hds : 8 <= Ipv4.DataSize h).
  { destruct (word_count_bound h F1) as (-> & _). unfold Frame.DataSize, HeaderSize. pose proof (fu_min _ F1) as Hm. unfold MinFrameSize in Hm. lia. }
  pose proof (pseudo_range ProtocolNumber h (fu_ok _ F1)) as Hps.
  pose proof (data_verifies (PseudoHeader ProtocolNumber h) 3 h F1) as Hck. cbv zeta in Hck.
  destruct (store_word 3 (VerifyChecksum true h) h F1) as (F2 & S2 & E2 & D2 & _ & Hhi & Hlo); [lia|].
  change (Ipv4.SetDataFrom 2 (VerifyChecksum true h) (3 * 2) true h) with g in *. rewrite udp_pos in Hhi by done. cbn [Nat.mul Nat.add] in Hhi.
  assert (Hps2 : PseudoHeader ProtocolNumber g = PseudoHeader ProtocolNumber h).
  { unfold PseudoHeader, GetSourceAddressBE, GetDestinationAddressBE, Frame.GetDataAs. rewrite D2, !Hlo by offset_lia. done. }
  assert (R2 : ready g) by (apply (ready_at h); [done|done|done|apply Hlo; lia|apply Hlo; lia|apply Hhi; lia]).
  split_and!; [done| |by rewrite S2, S1| |].
  - unfold IsValid, VerifyChecksum. rewrite Hps2. apply Z.eqb_eq. apply Hck; [lia|]. apply Hps. done.
  - unfold GetSourceAddress, Frame.GetDataAs. rewrite Hlo by offset_lia. unfold h, SetSourceAddress, Frame.SetDataFrom.
    assert (Hfo : frame_ok f) by apply Hf. frame_field. rewrite Z.mod_small; lia.
  - intros n r p H1 H2 H3. destruct H2 as [H2|H2]; [rewrite Hlo by lia|rewrite Hhi by lia]; apply G1; lia.
Qed.

(** The whole of a packet on its way out keeps the datagram. *)
Lemma packet_datagram f g ip mac : ready f -> IsValid f = true -> GetSourceAddress f = ip ->
  packet f g ip mac (GetTotalLength f) 1518 -> FrameSize g = FrameSize f -> ready g /\ IsValid g = true /\
  GetDestinationPort g = GetDestinationPort f /\ GetSourcePort g = GetSourcePort f /\ same_bytes 34 1518 f g.
Proof.
  intros Hf Hv Hip [K1 K2 K3 K4 K5 K6 K7 K8 K9] Hs. pose proof (rd_full _ Hf) as Hff. pose proof (rd_header _ Hf) as Hh.
  assert (Hg : full g).
  { destruct K1 as [Ko Kv Kh Kt Km]. split; [done|done|done|]. rewrite K7, (fu_total _ Hff). unfold Frame.DataSize. by rewrite Hs. }
  assert (Hds : Ipv4.DataSize g = Ipv4.DataSize f) by (unfold Ipv4.DataSize; congruence).
  assert (Hat : forall n r p, (34 <= p)%nat -> (p + n <= 1518)%nat -> get_at n r p g = get_at n r p f) by (intros; by apply (same_get 34 1518)).
  split_and!; [split|..]; try done.
  - apply K1.
  - congruence.
  - rewrite K8. apply Hf.
  - rewrite <-(rd_length _ Hf). unfold GetLength, Ipv4.GetDataAs, Length. rewrite !udp_pos by congruence. apply Hat; lia.
  - unfold IsValid, VerifyChecksum in *. rewrite (checksum_same ProtocolNumber f g false 3); [exact Hv|done|done|done| | |done].
    + apply swapped; [apply Hff|apply Hg|lia|]. change (GetSourceAddress g = GetSourceAddress f). congruence.
    + apply swapped; [apply Hff|apply Hg|lia|]. exact K4.
  - unfold GetDestinationPort, Ipv4.GetDataAs, DestinationPort. rewrite !udp_pos by congruence. apply Hat; lia.
  - unfold GetSourcePort, Ipv4.GetDataAs, SourcePort. rewrite !udp_pos by congruence. apply Hat; lia.
Qed.

(** The state after a transmission through block [k]. *)
Definition after_send (s : udps) (k : nat) (b : udpc) (dev : nat) (g : frame) : udps :=
  Udps (set_sent ((dev, g) :: sent (unet s)) (unet s)) false
    (AList (<[k := Udpc (Started b) (Iface b) g (ReceiveQueue b)]> (elems (UDPTable s))) (csize (UDPTable s))).

(** A datagram sent to a known neighbour through a bound socket leaves once and is valid, as an
    IPv4 packet and as a UDP datagram, with the addresses, the ports and the data it was given,
    and any bytes a longer one before it left behind.  But its length field is 8 always: a
    receiver that runs the same code hands no data at all to its reader. *)
Theorem udp_sends k D P Data b dev me mac x s : udp_ok s -> net_ok (unet s) ->
  blocks s !! k = Some b -> Iface b = Some dev -> ready (UFrame b) ->
  0 < D < 2 ^ 32 -> 0 < P < 2 ^ 16 -> bytes Data -> Z.of_nat (42 + length Data) <= MaxFrameSize ->
  address_of dev (unet s) = Some me -> 0 <= IPAddress me < 2 ^ 32 -> macs (unet s) !! dev = Some mac ->
  List.find (fun v => Address v =? D) (live (ARPTable (unet s))) = Some x -> length (MACAddress x) = 6%nat -> bytes (MACAddress x) ->
  exists g, Transmit (Z.of_nat k) D P Data s = ([], Ret (Z.of_nat (length Data)) (after_send s k b dev g)) /\
    ready g /\ Ipv4.IsValid g = true /\ IsValid g = true /\
    GetSourceAddress g = IPAddress me /\ GetDestinationAddress g = D /\ GetDestination g = MACAddress x /\
    GetSourcePort g = GetSourcePort (UFrame b) /\ GetDestinationPort g = P /\ GetData 0 (Z.of_nat (length Data)) g = Some Data /\
    FrameSize g = Z.max (FrameSize (UFrame b)) (Z.of_nat (42 + length Data)) /\
    (forall Size, 0 <= Size -> view Size g = Datagram 0 (IPAddress me) (GetSourcePort (UFrame b)) []).
Proof.
  intros Hok Hnet Hb Hif Hu HD HP Hbd Hmax Hme Hip Hmac Hx Hxl Hxb.
  destruct (filled (UFrame b) D P Data) as (f & Ef & Rf & Sf & Df & Pf & Qf & Vf); [done|done|done|lia|lia|].
  destruct (summed (IPAddress me) f Rf Hip) as (R2 & V2 & S2 & A2 & G2).
  set (h := SetChecksum (VerifyChecksum true (SetSourceAddress (IPAddress me) f)) (SetSourceAddress (IPAddress me) f)) in *.
  pose proof (fu_ok _ (rd_full _ R2)) as Hho. pose proof (rd_header _ R2) as Hhh. pose proof (rd_header _ Rf) as Hhf.
  assert (Hdh : GetDestinationAddress h = D) by (unfold GetDestinationAddress, Frame.GetDataAs in *; rewrite G2 by offset_lia; exact Df).
  assert (Hmm : Forall (fun m => length m = 6%nat /\ bytes m) (macs (unet s))) by apply Hnet.
  rewrite Forall_lookup in Hmm. destruct (Hmm dev mac Hmac) as [Hlm Hbm].
  destruct (ToDevice_run dev 0 h me mac (MACAddress x) (unet s) (unet s)) as (g & Hg & Hpk & _ & Hgs); try done.
  { apply full_sound; apply R2. }
  { rewrite Hdh. by eapply RequestFrom_known. }
  unfold total_after, kept_after in Hpk. cbn [Z.eqb] in Hpk, Hgs.
  destruct (packet_datagram h g _ _ R2 V2 A2 Hpk Hgs) as (Rg & Vg & Pg & Qg & Hsb). pose proof (rd_header _ Rg) as Hhg.
  destruct Hpk as [_ K2 K3 K4 K5 _ _ _ _].
  assert (HQ : GetSourcePort h = GetSourcePort (UFrame b)).
  { rewrite <-Qf. unfold GetSourcePort, Ipv4.GetDataAs, SourcePort. rewrite !udp_pos by done. apply G2; lia. }
  exists g. split_and!; try done; [|congruence|congruence| | |by rewrite Hgs, S2|].
  - unfold Transmit, size. kstep. pose proof (lookup_lt_Some _ _ _ Hb) as Hlt. rewrite (uo_table _ Hok) in Hlt.
    rewrite (uo_size _ Hok), (proj2 (Z.ltb_ge _ (Z.of_nat k))) by lia. erewrite kbind_pure by (apply acquire_run; apply Hok).
    assert (Hsend : SendData (Z.of_nat k) D P Data (set_UDPLock true s) =
      ([], Ret (Z.of_nat (length Data)) (set_UDPLock true (after_send s k b dev g)))).
    { unfold SendData. rewrite (proj2 (Z.eqb_neq D 0)), (proj2 (Z.eqb_neq P 0)) by lia. cbn [orb].
      erewrite kbind_pure by (by apply locked_block). rewrite Ef, Hif. kstep.
      erewrite kbind_pure; [|unfold zoom, ToDevice; cbn [lget un set_UDPLock unet];
        erewrite kbind_pure by (apply IPFind_run, Hnet); rewrite Hme; fold h; rewrite Hg; reflexivity].
      cbn [snd]. unfold ClearFrame, DataSize. rewrite (rd_length _ Rg), Z.sub_diag. cbn [Z.eqb].
      unfold put_block. kstep. rewrite Nat2Z.id. unfold after_send. rewrite Hif. done. }
    erewrite kbind_pure by exact Hsend. erewrite kbind_pure by (apply release_run; done). done.
  - rewrite Pg, <-Pf. unfold GetDestinationPort, Ipv4.GetDataAs, DestinationPort. rewrite !udp_pos by done. apply G2; lia.
  - unfold MaxFrameSize in Hmax. unfold GetData, Ipv4.GetData, Frame.GetData. rewrite Hhg.
    destruct (Z.leb_spec (Z.of_nat (length Data)) 0) as [Hz|Hz]; [destruct Data; [done|cbn in Hz; lia]|].
    rewrite (proj2 (Z.leb_le 0 _)), (proj2 (Z.leb_le _ MaxFrameSize)) by (unfold MaxFrameSize, UdpHeader; lia). cbn [andb]. f_equal.
    change (slice (Frame.Data g) (Z.to_nat (14 + (20 + (UdpHeader + 0)))) (Z.to_nat (Z.of_nat (length Data))) = Data).
    rewrite Nat2Z.id. change (get_bytes 42 (length Data) g = Data). rewrite Hsb by lia. rewrite <-Vf at 2.
    apply get_at_bytes; [apply Rf|done|lia|]. apply G2; lia.
  - intros Size HSz. unfold view, DataSize. rewrite (rd_length _ Rg), Z.sub_diag.
    replace (if Size <? 0 then Size else 0) with 0 by (destruct (Z.ltb_spec Size 0); lia). rewrite K3, Qg, HQ. done.
Qed.
End udp_send.

(** The socket of [demo_sock] sends three bytes to the neighbour. *)
Lemma udp_sends_witness : exists g s', Transmit 0 33685514 53 [7; 8; 9] demo_sock = ([], Ret 3 s') /\
  sent (unet s') = (0%nat, g) :: sent (unet demo_sock) /\ IsValid g = true /\ GetData 0 3 g = Some [7; 8; 9] /\
  view 100 g = Datagram 0 251766976 5000 [].
Proof.
  destruct (blocks demo_sock !! 0%nat) as [b|] eqn:Hb; [|exfalso; revert Hb; vm_compute; discriminate].
  assert (Hf : (fun b => (Iface b, GetSourcePort (UFrame b), GetVersion (UFrame b), header (UFrame b), GetProtocol (UFrame b),
      GetLength (UFrame b), FrameSize (UFrame b), GetTotalLength (UFrame b),
      ((length (Frame.Data (UFrame b)) =? 1518)%nat && forallb (fun z => (0 <=? z) && (z <? 256)) (Frame.Data (UFrame b)))%bool)) <$>
    (blocks demo_sock !! 0%nat) = Some (Some 0%nat, 5000, 4, 20, 17, 8, 64, 50, true)) by (vm_compute; reflexivity).
  rewrite Hb in Hf. cbn [fmap option_fmap option_map] in Hf. injection Hf as F1 F2 F3 F4 F5 F6 F7 F8 F9.
  destruct (udp_sends 0 33685514 53 [7; 8; 9] b 0 (IPItem (Some 0%nat) 251766976 16777215) [82; 84; 0; 18; 52; 86]
    (ARPItem 33685514 1 2 peer_mac 0) demo_sock demo_sock_ok) as (g & H1 & H2 & H3 & H4 & H5 & H6 & H7 & H8 & H9 & H10 & H11 & H12).
  - replace (unet demo_sock) with demo_known by (vm_compute; reflexivity). exact demo_known_ok.
  - exact Hb.
  - exact F1.
  - split; [split|..]; try assumption.
    + apply checked_ok. rewrite F7, F9. reflexivity.
    + rewrite F7. vm_compute. discriminate.
    + unfold Frame.DataSize. rewrite F4, F7. vm_compute. split; discriminate.
    + unfold Frame.DataSize. rewrite F7, F8. reflexivity.
  - lia.
  - lia.
  - repeat (constructor; [lia|]). constructor.
  - vm_compute. discriminate.
  - vm_compute. reflexivity.
  - simpl. lia.
  - vm_compute. reflexivity.
  - vm_compute. reflexivity.
  - reflexivity.
  - repeat (constructor; [lia|]). constructor.
  - exists g, (after_send demo_sock 0 b 0 g). split; [exact H1|]. split; [reflexivity|]. split; [exact H4|]. split; [exact H10|].
    rewrite F2 in H12. apply H12. lia.
Defined.
