(* ===== verification/Tcp.v ===== *)
(** * TCP: classes TCP and TCB of include/UProtocols4.tcc

    The fields of a segment, the transmission control blocks and their table, the operations of
    a socket and the handler of arriving segments.  A [TCB*] is an index into [TCBTable]; the
    members of the block that the code never reads are left out.  [Accept], [Receive] and
    [Close] sleep in the middle: the definitions that end in [_resume] are the rest of them
    once woken.  Memory that the code does not initialise has the bytes of [junk]. *)

From stdpp Require Import base list.
From Stdlib Require Import ZArith Lia.
From S2P Require Import Prelude Spinlock CString Bytes ArrayList Frame Checksum Random Ipv4 Net Arp IpSend Udp.
Open Scope Z_scope.

Definition ProtocolNumber : Z := 6.
Definition TCBTableSize : nat := 16.
Definition HeaderSizeMin : Z := 20.
Definition SourcePort : nat := 0.
Definition DestinationPort : nat := 2.
Definition SequenceNumber : nat := 4.
Definition AcknowledgementNumber : nat := 8.
Definition DataOffset : nat := 12.
Definition FlagsAt : nat := 13.
Definition WindowAt : nat := 14.
Definition ChecksumAt : nat := 16.
Definition UrgentPointer : nat := 18.
Definition OptionsAt : Z := 20.

Definition FIN : Z := 1.
Definition SYN : Z := 2.
Definition RST : Z := 4.
Definition PSH : Z := 8.
Definition ACK : Z := 16.
(** [Flags & mask], as a condition. *)
Definition has (Flags mask : Z) : bool := negb (Z.land Flags mask =? 0).

Definition GetSourcePort (f : frame) : Z := Ipv4.GetDataAs 2 SourcePort true f.
Definition GetDestinationPort (f : frame) : Z := Ipv4.GetDataAs 2 DestinationPort true f.
Definition GetSequenceNumber (f : frame) : Z := Ipv4.GetDataAs 4 SequenceNumber true f.
Definition GetAcknowledgementNumber (f : frame) : Z := Ipv4.GetDataAs 4 AcknowledgementNumber true f.
Definition GetDataOffset (f : frame) : Z := Z.shiftr (Ipv4.GetDataAs 1 DataOffset true f) 4.
Definition GetFlags (f : frame) : Z := Ipv4.GetDataAs 1 FlagsAt true f.
Definition GetWindow (f : frame) : Z := Ipv4.GetDataAs 2 WindowAt true f.
Definition GetChecksum (f : frame) : Z := Ipv4.GetDataAs 2 ChecksumAt true f.
Definition GetUrgentPointer (f : frame) : Z := Ipv4.GetDataAs 2 UrgentPointer true f.
Definition DataSize (f : frame) : Z := Ipv4.DataSize f - GetDataOffset f * 4.
Definition GetOptions (f : frame) : option (list Z) := Ipv4.GetData OptionsAt (GetDataOffset f * 4 - HeaderSizeMin) f.
Definition GetData (Start Size : Z) (f : frame) : option (list Z) := Ipv4.GetData (GetDataOffset f * 4 + Start) Size f.

Definition SetSourcePort (v : Z) (f : frame) : frame := Ipv4.SetDataFrom 2 v SourcePort true f.
Definition SetDestinationPort (v : Z) (f : frame) : frame := Ipv4.SetDataFrom 2 v DestinationPort true f.
Definition SetSequenceNumber (v : Z) (f : frame) : frame := Ipv4.SetDataFrom 4 v SequenceNumber true f.
Definition SetAcknowledgementNumber (v : Z) (f : frame) : frame := Ipv4.SetDataFrom 4 v AcknowledgementNumber true f.
Definition SetFlags (v : Z) (f : frame) : frame := Ipv4.SetDataFrom 1 v FlagsAt true f.
Definition SetWindow (v : Z) (f : frame) : frame := Ipv4.SetDataFrom 2 v WindowAt true f.
Definition SetUrgentPointer (v : Z) (f : frame) : frame := Ipv4.SetDataFrom 2 v UrgentPointer true f.
Definition SetChecksum (v : Z) (f : frame) : frame := Ipv4.SetDataFrom 2 v ChecksumAt true f.
Definition SetData (src : list Z) (Start : Z) (f : frame) : option frame := Ipv4.SetData src (GetDataOffset f * 4 + Start) f.
Definition SetDataOffset (v : Z) (f : frame) : frame :=
  Ipv4.SetDataFrom 1 (Z.lor (Z.land (Ipv4.GetDataAs 1 DataOffset true f) 15) (Z.land (Z.shiftl v 4) 240)) DataOffset true f.

Definition SetOptions (src : list Z) (f : frame) : option frame :=
  let RemoveSize := GetDataOffset f * 4 - HeaderSizeMin in
  let OptionsPad := header f + OptionsAt in
  let Size := Z.of_nat (length src) in
  (if RemoveSize =? 0 then Some f else EraseData OptionsPad RemoveSize f) ≫= fun f =>
  (if Size =? 0 then Some f else InsertData src OptionsPad f) ≫= fun f =>
  Some (SetDataOffset ((HeaderSizeMin + Size) / 4 + (if (HeaderSizeMin + Size) mod 4 =? 0 then 0 else 1)) f).

Definition VerifyChecksum (ComputeOnly : bool) (f : frame) : Z :=
  complement (sum_words (data_word f) (if ComputeOnly then Some 8%nat else None) (word_count (Ipv4.DataSize f))
    (PseudoHeader ProtocolNumber f)).
Definition IsValid (f : frame) : bool := VerifyChecksum false f =? 0.

(** ** Control blocks *)

Inductive tcb_state :=
| CLOSED | LISTEN | SYN_SENT | SYN_RECEIVED | ESTABLISHED | FIN_WAIT_1 | FIN_WAIT_2 | CLOSE_WAIT | CLOSING | LAST_ACK | TIME_WAIT.
#[export] Instance tcb_state_eq_dec : EqDecision tcb_state.
Proof. solve_decision. Defined.

Definition DefWindowSize : Z := 2000.

Record tcb := Tcb {
  ParentBody : option nat;
  Started : bool;
  State : tcb_state;
  Iface : option nat;
  TFrame : frame;
  Window : list Z;                     (* the page of received data *)
  Unacknowledged : Z;                  (* SendSequence *)
  SNext : Z;
  InitialSend : Z;
  RNext : Z;                           (* ReceiveSequence *)
  RWindow : Z;
  InitialReceive : Z;
  ReceiveQueue : list nat;             (* connections to accept, the front first *)
}.
Definition set_State v (b : tcb) : tcb := Tcb (ParentBody b) (Started b) v (Iface b) (TFrame b) (Window b) (Unacknowledged b) (SNext b) (InitialSend b) (RNext b) (RWindow b) (InitialReceive b) (ReceiveQueue b).
Definition set_sender dev f (b : tcb) : tcb := Tcb (ParentBody b) (Started b) (State b) dev f (Window b) (Unacknowledged b) (SNext b) (InitialSend b) (RNext b) (RWindow b) (InitialReceive b) (ReceiveQueue b).
Definition set_TFrame f (b : tcb) : tcb := set_sender (Iface b) f b.
Definition set_send una nxt iss (b : tcb) : tcb := Tcb (ParentBody b) (Started b) (State b) (Iface b) (TFrame b) (Window b) una nxt iss (RNext b) (RWindow b) (InitialReceive b) (ReceiveQueue b).
Definition set_recv nxt irs (b : tcb) : tcb := Tcb (ParentBody b) (Started b) (State b) (Iface b) (TFrame b) (Window b) (Unacknowledged b) (SNext b) (InitialSend b) nxt (RWindow b) irs (ReceiveQueue b).
Definition set_window w v (b : tcb) : tcb := Tcb (ParentBody b) (Started b) (State b) (Iface b) (TFrame b) w (Unacknowledged b) (SNext b) (InitialSend b) (RNext b) v (InitialReceive b) (ReceiveQueue b).
Definition set_queue q (b : tcb) : tcb := Tcb (ParentBody b) (Started b) (State b) (Iface b) (TFrame b) (Window b) (Unacknowledged b) (SNext b) (InitialSend b) (RNext b) (RWindow b) (InitialReceive b) q.
Definition start (b : tcb) : tcb := Tcb (ParentBody b) true (State b) (Iface b) (TFrame b) (Window b) (Unacknowledged b) (SNext b) (InitialSend b) (RNext b) (RWindow b) (InitialReceive b) (ReceiveQueue b).
Definition set_parent p (b : tcb) : tcb := Tcb p (Started b) (State b) (Iface b) (TFrame b) (Window b) (Unacknowledged b) (SNext b) (InitialSend b) (RNext b) (RWindow b) (InitialReceive b) (ReceiveQueue b).

Record tcps := Tcps {
  tnet : netif;
  TCPLock : bool;
  TCBTable : alist tcb;
}.
Definition set_tnet v (s : tcps) : tcps := Tcps v (TCPLock s) (TCBTable s).
Definition set_TCPLock v (s : tcps) : tcps := Tcps (tnet s) v (TCBTable s).
Definition set_TCBTable v (s : tcps) : tcps := Tcps (tnet s) (TCPLock s) v.
Definition tn : lens tcps netif := Lens tnet set_tnet.
Definition tcp_lk : lens tcps bool := Lens TCPLock set_TCPLock.
Notation TK := (K tcps).

(** The block [this]. *)
Definition this (i : nat) : TK tcb := let! s := kget in item (TCBTable s) i.
Definition upd (i : nat) (g : tcb -> tcb) : TK unit :=
  kmod (fun s => set_TCBTable (AList (alter g i (elems (TCBTable s))) (csize (TCBTable s))) s).
Definition SetState (i : nat) (v : tcb_state) : TK unit := upd i (set_State v).
(** [&TCBTable[Index]]. *)
Definition block (Index : Z) : TK tcb := if Index <? 0 then fault else this (Z.to_nat Index).
Definition size : TK Z := gets (fun s => Z.of_nat (csize (TCBTable s))).

Definition IsReadyForReception (b : tcb) : bool :=
  match State b with ESTABLISHED | FIN_WAIT_1 | FIN_WAIT_2 => true | _ => false end.
Definition IsReadyForTransmission (b : tcb) : bool :=
  match State b with ESTABLISHED | CLOSE_WAIT => true | _ => false end.

Section tcp.
Context `{Fresh} `{Peers}.

Definition TCP : frame := SetDataOffset 5 (SetProtocol ProtocolNumber IPv4).
Definition page : list Z := map junk (seq 0 (Z.to_nat 4096)).
Definition junk32 (k : nat) : Z := le_int (map junk (seq k 4)).
(** A new block: [TCB()]. *)
Definition TCB : tcb :=
  Tcb None false CLOSED None TCP page (junk32 0) (junk32 4) (junk32 8) (junk32 12) (u16 (junk32 16)) (junk32 20) [].

Definition ToDevice (Device : option nat) (HeaderOnly : bool) (f : frame) : NK (Z * frame) :=
  let! it := IPFind Device in
  match it, Device with
  | None, _ => kret (-1, f)                            (* cprintf: no available addresses *)
  | Some _, None => fault
  | Some it, Some dev =>
      let f := SetSourceAddress (IPAddress it) f in
      let TCPLength := if HeaderOnly then GetDataOffset f * 4 else 0 in
      if TCPLength =? 0 then IpSend.ToDevice dev 0 (SetChecksum (VerifyChecksum true f) f)
      else
        let TCPLength := TCPLength + header f in
        match Resize TCPLength f with
        | None => fault
        | Some f => IpSend.ToDevice dev TCPLength (SetChecksum (VerifyChecksum true f) f)
        end
  end.

Definition ClearFrame (f : frame) : option frame :=
  (if DataSize f =? 0 then Some f else EraseData (header f + GetDataOffset f * 4) (DataSize f) f) ≫= SetOptions [].

(** [TCB::UpdateRouteData] is the code of [UDPController::UpdateRouteData]. *)
Definition UpdateRouteData (f : frame) (Iface : option nat) : NK (option nat) := Udp.UpdateRouteData f Iface.

Definition SYNOptions : list Z := [2; 4; 5; 180].

Definition SendControl (i : nat) (Sequence Acknowledge Flags : Z) : TK Z :=
  let! b := this i in
  let f := SetSequenceNumber Sequence (TFrame b) in
  let f := SetAcknowledgementNumber Acknowledge f in
  let f := SetFlags Flags f in
  let f := SetWindow (RWindow b) f in
  match (if has Flags SYN then SetOptions SYNOptions f else Some f) with
  | None => fault
  | Some f =>
      let! dev := zoom tn (UpdateRouteData f (Iface b)) in
      let! r := (match dev with Some _ => zoom tn (ToDevice dev true f) | None => kret (-1, f) end) in
      match (if has Flags SYN then SetOptions [] r.2 else Some r.2) with
      | None => fault
      | Some f => upd i (set_sender dev f) ;;; kret r.1
      end
  end.

Definition SendData (i : nat) (Data : list Z) : TK Z :=
  let! b := this i in
  let f := SetSequenceNumber (SNext b) (TFrame b) in
  let f := SetAcknowledgementNumber (RNext b) f in
  let f := SetFlags (Z.lor ACK PSH) f in
  match SetData Data 0 f with
  | None => fault
  | Some f =>
      let! dev := zoom tn (UpdateRouteData f (Iface b)) in
      let! r := zoom tn (ToDevice dev false f) in
      match ClearFrame r.2 with
      | None => fault
      | Some f => upd i (set_sender dev f) ;;; kret (Z.of_nat (length Data))
      end
  end.

(** [Clear]: a new block in its place; the old frame, page and queue are never freed. *)
Definition Clear (i : nat) : TK unit := upd i (fun _ => TCB).

(** ** Segments that arrive *)

Definition DoClosed (i : nat) (f : frame) : TK unit :=
  if has (GetFlags f) RST then kret tt
  else
    let '(Sequence, Acknowledge) :=
      if has (GetFlags f) ACK then (GetAcknowledgementNumber f, 0)
      else (0, u32 (GetSequenceNumber f + (if has (GetFlags f) SYN then 1 else 0) + DataSize f +
                    (if has (GetFlags f) FIN then 1 else 0))) in
    SendControl i Sequence Acknowledge RST ;;; kret tt.

Definition DoListen (i : nat) (f : frame) : TK unit :=
  if has (GetFlags f) RST then kret tt
  else if has (GetFlags f) ACK then SendControl i (GetAcknowledgementNumber f) 0 RST ;;; kret tt
  else if has (GetFlags f) SYN then
    let! now := zoom tn time in
    let iss := first_value now in
    let nxt := u32 (GetSequenceNumber f + 1) in
    upd i (fun b => set_send (Unacknowledged b) (SNext b) iss (set_recv nxt (GetSequenceNumber f) b)) ;;;
    SendControl i iss nxt (Z.lor SYN ACK) ;;;
    upd i (set_send iss (u32 (iss + 1)) iss) ;;;
    SetState i SYN_RECEIVED
  else kret tt.

Definition DoSynSent (i : nat) (f : frame) : TK unit :=
  let! b := this i in
  let ack := GetAcknowledgementNumber f in
  if (has (GetFlags f) ACK && ((ack <=? InitialSend b) || (SNext b <? ack)))%bool then
    (if negb (has (GetFlags f) RST) then SendControl i ack 0 RST ;;; kret tt else kret tt)
  else if has (GetFlags f) RST then kret tt
  else if has (GetFlags f) SYN then
    let nxt := u32 (GetSequenceNumber f + 1) in
    upd i (set_recv nxt (GetSequenceNumber f)) ;;;
    if has (GetFlags f) ACK then
      upd i (set_send ack (SNext b) (InitialSend b)) ;;;
      if InitialSend b <? ack then
        SetState i ESTABLISHED ;;;
        SendControl i (SNext b) nxt ACK ;;;
        wakeup (ChTcp i)
      else kret tt
    else SendControl i (InitialSend b) nxt ACK ;;; kret tt
  else kret tt.

Definition DoSynReceived (i : nat) (f : frame) : TK unit :=
  let! b := this i in
  let ack := GetAcknowledgementNumber f in
  if ((Unacknowledged b <=? ack) && (ack <=? SNext b))%bool then
    SetState i ESTABLISHED ;;;
    match ParentBody b with
    | None => fault
    | Some p =>
        let! _ := this p in
        upd p (fun b => set_queue (ReceiveQueue b ++ [i]) b) ;;;
        wakeup (ChTcp p)
    end
  else SendControl i ack 0 RST ;;; kret tt.

(** [DoClosing], with [DoFinWait1] in it; [true] ends the handling of the segment. *)
Definition DoFinWait1 (i : nat) (f : frame) : TK unit :=
  let! b := this i in
  if GetAcknowledgementNumber f =? SNext b then SetState i FIN_WAIT_2 else kret tt.
Definition DoClosing (i : nat) (f : frame) : TK bool :=
  let! b := this i in
  let ack := GetAcknowledgementNumber f in
  let! stop :=
    (if ((Unacknowledged b <? ack) && (ack <=? SNext b))%bool
     then upd i (set_send ack (SNext b) (InitialSend b)) ;;; kret false
     else if SNext b <? ack then SendControl i (SNext b) (RNext b) ACK ;;; kret true
     else kret false) in
  if stop : bool then kret true
  else
    match State b with
    | FIN_WAIT_1 => DoFinWait1 i f ;;; kret false
    | CLOSING =>
        (if ack =? SNext b then SetState i TIME_WAIT ;;; wakeup (ChTcp i) else kret tt) ;;; kret true
    | _ => kret false
    end.

Definition DoLastAck (i : nat) : TK unit := wakeup (ChTcp i) ;;; Clear i.

(** The data go to the end of what is in the page; only the page itself bounds them. *)
Definition StoreData (i : nat) (f : frame) : TK unit :=
  let! b := this i in
  let d := DataSize f in
  let at_ := DefWindowSize - RWindow b in
  match GetData 0 d f with
  | None => fault
  | Some Data =>
      if (negb (bool_decide (Data = [])) && ((at_ <? 0) || (4096 <? at_ + d)))%bool then fault
      else
        upd i (fun b => set_window (splice (Window b) (Z.to_nat at_) Data) (u16 (RWindow b - d))
                          (set_recv (u32 (GetSequenceNumber f + d)) (InitialReceive b) b)) ;;;
        SendControl i (SNext b) (u32 (GetSequenceNumber f + d)) ACK ;;;
        wakeup (ChTcp i)
  end.

Definition Terminate (i : nat) : TK unit :=
  let! b := this i in
  upd i (fun b => set_recv (u32 (RNext b + 1)) (InitialReceive b) b) ;;;
  SendControl i (SNext b) (u32 (RNext b + 1)) ACK ;;;
  match State b with
  | SYN_RECEIVED | ESTABLISHED => SetState i CLOSE_WAIT ;;; wakeup (ChTcp i)
  | FIN_WAIT_1 => SetState i FIN_WAIT_2
  | FIN_WAIT_2 => SetState i TIME_WAIT ;;; wakeup (ChTcp i)
  | _ => kret tt
  end.

(** The two [if]s at the end of [TCB::Main]. *)
Definition text_and_fin (i : nat) (f : frame) : TK unit :=
  (if (has (GetFlags f) PSH && negb (DataSize f =? 0))%bool
   then let! b := this i in if IsReadyForReception b then StoreData i f else kret tt
   else kret tt) ;;;
  if has (GetFlags f) FIN then Terminate i else kret tt.

(** [TCB::Main]; the case of SYN_RECEIVED falls through to the next. *)
Definition BlockMain (i : nat) (f : frame) : TK unit :=
  let! b := this i in
  match State b with
  | LISTEN => DoListen i f
  | SYN_SENT => DoSynSent i f
  | CLOSED => DoClosed i f
  | _ =>
      if negb (GetSequenceNumber f =? RNext b) then kret tt
      else if has (GetFlags f) (Z.lor RST SYN) then kret tt
      else if negb (has (GetFlags f) ACK) then kret tt
      else
        match State b with
        | LAST_ACK => DoLastAck i
        | TIME_WAIT => text_and_fin i f
        | _ =>
            (if decide (State b = SYN_RECEIVED) then DoSynReceived i f else kret tt) ;;;
            let! r := DoClosing i f in
            if r : bool then kret tt else text_and_fin i f
        end
  end.

(** The search of [TCP::Main]: the block of the connection, else the first free one and the first
    that listens. *)
Fixpoint demux (l : list tcb) (k : nat) (dev : nat) (f : frame) (AppF AppL : option nat) : option nat * option nat * option nat :=
  match l with
  | [] => (None, AppF, AppL)
  | b :: l =>
      if negb (Started b) then demux l (k + 1) dev f (match AppF with Some _ => AppF | None => Some k end) AppL
      else if ((bool_decide (Iface b = None) || bool_decide (Iface b = Some dev)) &&
               (GetSourcePort (TFrame b) =? GetDestinationPort f))%bool then
        if ((GetDestinationAddress (TFrame b) =? GetSourceAddress f) && (GetDestinationPort (TFrame b) =? GetSourcePort f))%bool
        then (Some k, AppF, AppL)
        else demux l (k + 1) dev f AppF
               (match AppL with Some _ => AppL | None => if decide (State b = LISTEN) then Some k else None end)
      else demux l (k + 1) dev f AppF AppL
  end.

Definition Fork (i parent : nat) (dev : nat) (f : frame) : TK unit :=
  let! p := this parent in
  upd i start ;;;
  upd i (set_State (State p)) ;;;
  upd i (fun b => set_sender (Some dev) (SetDestinationPort (GetSourcePort f)
                    (SetDestinationAddress (GetSourceAddress f) (SetSourcePort (GetSourcePort (TFrame p)) (TFrame b)))) b) ;;;
  upd i (fun b => set_window (Window b) DefWindowSize b) ;;;
  upd i (set_parent (Some parent)).

(** [TCP::Main]; a wrong checksum is only reported. *)
Definition Main (dev : nat) (f : frame) : TK unit :=
  acquire tcp_lk ;;;
  let! s := kget in
  match demux (live (TCBTable s)) 0 dev f None None with
  | (Some k, _, _) => BlockMain k f ;;; release tcp_lk
  | (None, Some k, Some p) =>
      if has (GetFlags f) SYN then Fork k p dev f ;;; BlockMain k f ;;; release tcp_lk else release tcp_lk
  | (None, _, _) => release tcp_lk
  end.

Definition Register (s : tcps) : tcps :=
  Tcps (tnet s) false (AList (map (fun b => set_TFrame TCP (set_window page (RWindow b) b)) (elems (TCBTable s))) TCBTableSize).

(** ** Operations of a socket *)

Definition Open : TK Z :=
  acquire tcp_lk ;;;
  let! s := kget in
  let! k := find_item (fun b => negb (Started b)) (TCBTable s) in
  match k with
  | Some k => upd k start ;;; release tcp_lk ;;; kret (Z.of_nat k)
  | None => release tcp_lk ;;; kret (-1)
  end.

Definition Close_resume (i : nat) : TK Z := acquire tcp_lk ;;; Clear i ;;; release tcp_lk ;;; kret 0.
(** [SendControl], the new state and the sequence number of the FIN, then [sleep]. *)
Definition send_fin (i : nat) (st : tcb_state) : TK Z :=
  let! b := this i in
  SendControl i (SNext b) (RNext b) (Z.lor FIN ACK) ;;;
  SetState i st ;;;
  upd i (fun b => set_send (Unacknowledged b) (u32 (SNext b + 1)) (InitialSend b) b) ;;;
  ksleep (ChTcp i) (set_TCPLock false).
Definition Close (Index : Z) : TK Z :=
  let! n := size in
  if n <? Index then kret (-1)
  else
    acquire tcp_lk ;;;
    let! b := block Index in
    if negb (Started b) then release tcp_lk ;;; kret (-2)
    else
      match State b with
      | SYN_RECEIVED | ESTABLISHED => send_fin (Z.to_nat Index) FIN_WAIT_1
      | CLOSE_WAIT => send_fin (Z.to_nat Index) LAST_ACK
      | _ => Clear (Z.to_nat Index) ;;; release tcp_lk ;;; kret 0
      end.

Definition Bind (Index Port : Z) : TK Z :=
  let! n := size in
  if n <? Index then kret (-1)
  else
    acquire tcp_lk ;;;
    let! s := kget in
    if existsb (fun b => GetSourcePort (TFrame b) =? Port) (live (TCBTable s)) then release tcp_lk ;;; kret (-2)
    else
      let! b := block Index in
      if (negb (Started b) || negb (bool_decide (State b = CLOSED)))%bool then release tcp_lk ;;; kret (-3)
      else upd (Z.to_nat Index) (fun b => set_TFrame (SetSourcePort Port (TFrame b)) b) ;;; release tcp_lk ;;; kret 0.

Definition Listen (Index : Z) : TK Z :=
  let! n := size in
  if n <? Index then kret (-1)
  else
    acquire tcp_lk ;;;
    let! b := block Index in
    if (negb (Started b) || negb (bool_decide (State b = CLOSED)) || (GetSourcePort (TFrame b) =? 0))%bool
    then release tcp_lk ;;; kret (-3)
    else SetState (Z.to_nat Index) LISTEN ;;; release tcp_lk ;;; kret 0.

(** [Connect] is still to be written in the source. *)
Definition Connect (Index DestinationAddress DestinationPort : Z) : TK Z := kret 0.

(** The connection that [Accept] returns, and what it stores through its two pointers, which the
    message after the loop reads whether or not they are null. *)
Record accepted := Accepted { a_index : Z; a_address : Z; a_port : Z }.
Definition accept_turn (i : nat) (pointers : bool) : TK accepted :=
  let! b := this i in
  match ReceiveQueue b with
  | [] => ksleep (ChTcp i) (set_TCPLock false)
  | k :: q =>
      upd i (set_queue q) ;;;
      let! c := this k in
      if negb pointers then fault
      else release tcp_lk ;;;
           kret (Accepted (Z.of_nat k) (GetDestinationAddress (TFrame c)) (GetDestinationPort (TFrame c)))
  end.
Definition Accept (Index : Z) (pointers : bool) : TK accepted :=
  let! n := size in
  if n <? Index then kret (Accepted (-1) 0 0)
  else
    acquire tcp_lk ;;;
    let! b := block Index in
    if (negb (Started b) || negb (bool_decide (State b = LISTEN)))%bool then release tcp_lk ;;; kret (Accepted (-3) 0 0)
    else accept_turn (Z.to_nat Index) pointers.
Definition Accept_resume (i : nat) (pointers : bool) : TK accepted := acquire tcp_lk ;;; accept_turn i pointers.

(** A turn of the loop of [Receive], and what follows it: the result and the bytes. *)
Definition receive_turn (i : nat) (Size : Z) : TK (Z * list Z) :=
  let! b := this i in
  let TotalSize := DefWindowSize - RWindow b in
  if TotalSize =? 0 then
    if negb (IsReadyForReception b) then release tcp_lk ;;; kret (0, []) else ksleep (ChTcp i) (set_TCPLock false)
  else
    let n := if Size <? TotalSize then Size else TotalSize in
    if n <? 0 then fault
    else
      upd i (fun b => set_window (splice (Window b) 0 (slice (Window b) (Z.to_nat n) (Z.to_nat (TotalSize - n)))) (u16 (RWindow b + n)) b) ;;;
      release tcp_lk ;;;
      kret (n, slice (Window b) 0 (Z.to_nat n)).
Definition Receive (Index Size : Z) : TK (Z * list Z) :=
  let! n := size in
  if n <? Index then kret (-1, [])
  else
    acquire tcp_lk ;;;
    let! _ := block Index in
    receive_turn (Z.to_nat Index) Size.
Definition Receive_resume (i : nat) (Size : Z) : TK (Z * list Z) := acquire tcp_lk ;;; receive_turn i Size.

Definition Transmit (Index : Z) (Data : list Z) : TK Z :=
  let! n := size in
  if n <? Index then kret (-1)
  else
    acquire tcp_lk ;;;
    let! b := block Index in
    if (negb (Started b) || negb (IsReadyForTransmission b))%bool then release tcp_lk ;;; kret (-3)
    else
      SendData (Z.to_nat Index) Data ;;;
      upd (Z.to_nat Index) (fun b => set_send (Unacknowledged b) (u32 (SNext b + Z.of_nat (length Data))) (InitialSend b) b) ;;;
      release tcp_lk ;;; kret 0.
End tcp.
