(* ===== verification/TcpSend.v ===== *)
(** * Segments that leave: [TCP::ToDevice] and [TCB::SendControl], over Tcp and IpSend

    A control segment to a known neighbour leaves once and is valid; the frame of the block is
    fit for the next one.  The offsets of EraseData and InsertData, which count from the payload
    in one place and from the frame in another, are followed byte by byte. *)

From stdpp Require Import base list.
From Stdlib Require Import ZArith Lia.
From S2P Require Import Prelude Spinlock CString Bytes ArrayList Frame Checksum Random Ipv4 Net Arp IpSend Udp UdpSend Tcp.
Open Scope Z_scope.

(** ** The frame of a block *)

(** A frame of a block between two segments: a header without options. *)
Record idle (f : frame) : Prop := {
  id_ok : frame_ok f;
  id_min : MinFrameSize <= FrameSize f;
  id_version : GetVersion f = 4;
  id_header : header f = 20;
  id_proto : GetProtocol f = ProtocolNumber;
  id_offset : get_at 1 true 46 f = 80;
}.

(** Where a connection goes, as [TCP::Main] looks for it. *)
Record peer := Peer { p_address : Z; p_sport : Z; p_dport : Z }.
Definition peer_of (f : frame) : peer := Peer (GetDestinationAddress f) (GetSourcePort f) (GetDestinationPort f).

(** The fields of a segment, at their places in the array. *)
Record at_places (f : frame) : Prop := {
  ap_dst : GetDestinationAddress f = get_at 4 false 30 f;
  ap_sport : GetSourcePort f = get_at 2 true 34 f;
  ap_dport : GetDestinationPort f = get_at 2 true 36 f;
  ap_seq : GetSequenceNumber f = get_at 4 true 38 f;
  ap_ack : GetAcknowledgementNumber f = get_at 4 true 42 f;
  ap_off : GetDataOffset f = Z.shiftr (get_at 1 true 46 f) 4;
  ap_flags : GetFlags f = get_at 1 true 47 f;
  ap_window : GetWindow f = get_at 2 true 48 f;
}.
Lemma places f : header f = 20 -> at_places f.
Proof.
  intros Hh. split; try done; unfold GetSourcePort, GetDestinationPort, GetSequenceNumber, GetAcknowledgementNumber, GetDataOffset, GetFlags,
    GetWindow, Ipv4.GetDataAs; by rewrite udp_pos.
Qed.
Lemma peer_same f g : header f = 20 -> header g = 20 -> get_at 4 false 30 g = get_at 4 false 30 f ->
  get_at 2 true 34 g = get_at 2 true 34 f -> get_at 2 true 36 g = get_at 2 true 36 f -> peer_of g = peer_of f.
Proof.
  intros Hf Hg E1 E2 E3. destruct (places f Hf) as [F1 F2 F3 _ _ _ _ _]. destruct (places g Hg) as [G1 G2 G3 _ _ _ _ _].
  unfold peer_of. by rewrite G1, G2, G3, F1, F2, F3, E1, E2, E3.
Qed.

Lemma idle_at f g : idle f -> frame_ok g -> MinFrameSize <= FrameSize g ->
  get_at 1 true 14 g = get_at 1 true 14 f -> get_at 1 true 23 g = get_at 1 true 23 f -> get_at 1 true 46 g = 80 -> idle g.
Proof.
  intros [H1 H2 H3 H4 H5 H6] Ho Hm E1 E2 E3. split; try done.
  - rewrite <-H3. unfold GetVersion, Frame.GetDataAs. change (Payload + 0)%nat with 14%nat. by rewrite E1.
  - rewrite <-H4. unfold header, GetInternetHeaderLength, Frame.GetDataAs. change (Payload + 0)%nat with 14%nat. by rewrite E1.
  - rewrite <-H5. unfold GetProtocol, Frame.GetDataAs. exact E2.
Qed.
Lemma idle_fits f : idle f -> 20 <= header f <= Frame.DataSize f.
Proof. intros [_ Hm _ Hh _ _]. unfold Frame.DataSize, HeaderSize, MinFrameSize in *. rewrite Hh. lia. Qed.

(** A field of the header of the segment stored. *)
Lemma store_field n v k r f : frame_ok f -> MinFrameSize <= FrameSize f -> header f = 20 -> (34 + k + n <= 64)%nat ->
  let g := Ipv4.SetDataFrom n v k r f in
  full g /\ FrameSize g = FrameSize f /\ header g = 20 /\ get_at n r (34 + k) g = v mod 256 ^ Z.of_nat n /\
  (forall m r' p, (p + m <= 16 \/ 18 <= p)%nat -> (p + m <= 34 + k \/ 34 + k + n <= p)%nat -> get_at m r' p g = get_at m r' p f).
Proof.
  intros Ho Hm Hh Hk g. assert (Hfit : 20 <= header f <= Frame.DataSize f) by (unfold Frame.DataSize, HeaderSize, MinFrameSize in *; lia).
  destruct (set_data_full n v k r f Ho Hm Hfit) as (H1 & H2 & H3 & H4 & H5 & _).
  { rewrite udp_pos by done. unfold MinFrameSize in Hm. lia. }
  rewrite udp_pos in H5 by done. unfold Ipv4.GetDataAs in H4. rewrite udp_pos in H4 by (by rewrite H3).
  split_and!; [exact H1|exact H2|by rewrite <-Hh|exact H4|exact H5].
Qed.

(** The four fields that every control segment sets. *)
Definition control (seq ack flags win : Z) (f : frame) : frame :=
  SetWindow win (SetFlags flags (SetAcknowledgementNumber ack (SetSequenceNumber seq f))).
Record numbered (seq ack flags win : Z) (g : frame) : Prop := {
  nu_seq : get_at 4 true 38 g = u32 seq;
  nu_ack : get_at 4 true 42 g = u32 ack;
  nu_flags : get_at 1 true 47 g = u8 flags;
  nu_win : get_at 2 true 48 g = u16 win;
}.
Lemma control_fields seq ack flags win f : idle f ->
  let g := control seq ack flags win f in
  idle g /\ full g /\ FrameSize g = FrameSize f /\ numbered seq ack flags win g /\
  (forall m r p, (p + m <= 16 \/ 18 <= p)%nat -> (p + m <= 38 \/ 50 <= p)%nat -> get_at m r p g = get_at m r p f).
Proof.
  intros Hf g. pose proof (id_ok _ Hf) as H0. pose proof (id_min _ Hf) as M0. pose proof (id_header _ Hf) as E0.
  destruct (store_field 4 seq SequenceNumber true f) as (F1 & S1 & E1 & V1 & G1); [done|done|done|unfold SequenceNumber; lia|].
  set (f1 := SetSequenceNumber seq f) in *. change (Ipv4.SetDataFrom 4 seq SequenceNumber true f) with f1 in *.
  destruct (store_field 4 ack AcknowledgementNumber true f1) as (F2 & S2 & E2 & V2 & G2);
    [apply F1|apply F1|done|unfold AcknowledgementNumber; lia|].
  set (f2 := SetAcknowledgementNumber ack f1) in *. change (Ipv4.SetDataFrom 4 ack AcknowledgementNumber true f1) with f2 in *.
  destruct (store_field 1 flags FlagsAt true f2) as (F3 & S3 & E3 & V3 & G3); [apply F2|apply F2|done|unfold FlagsAt; lia|].
  set (f3 := SetFlags flags f2) in *. change (Ipv4.SetDataFrom 1 flags FlagsAt true f2) with f3 in *.
  destruct (store_field 2 win WindowAt true f3) as (F4 & S4 & E4 & V4 & G4); [apply F3|apply F3|done|unfold WindowAt; lia|].
  change (Ipv4.SetDataFrom 2 win WindowAt true f3) with g in *.
  unfold SequenceNumber, AcknowledgementNumber, FlagsAt, WindowAt in *. cbn [Nat.add] in *.
  assert (Hget : forall m r p, (p + m <= 16 \/ 18 <= p)%nat -> (p + m <= 38 \/ 50 <= p)%nat -> get_at m r p g = get_at m r p f).
  { intros m r p Hp Hq. rewrite G4, G3, G2, G1 by lia. done. }
  split_and!; [|exact F4|congruence| |exact Hget].
  - apply (idle_at f); [done|apply F4|apply F4|apply Hget; lia|apply Hget; lia|].
    rewrite G4, G3, G2, G1 by lia. apply Hf.
  - split.
    + rewrite G4, G3, G2 by lia. exact V1.
    + rewrite G4, G3 by lia. exact V2.
    + rewrite G4 by lia. exact V3.
    + exact V4.
Qed.

(** ** The neighbour *)

(** The last route, and only it, leads to [dst] through the adapter [dev], whose address is known,
    and the neighbour is in the ARP table. *)
Record reach (n : netif) (dst : Z) (dev : nat) (me : AdapterIPAddressItem) (mac : list Z) (x : ARPTableItem) : Prop := {
  re_ok : net_ok n;
  re_route : exists l r, live (RouteTable n) = l ++ [r] /\ route_matches dst r = true /\
    Forall (fun r' => route_matches dst r' = false) l /\ Net.Iface r = Some dev;
  re_me : address_of dev n = Some me;
  re_ip : 0 <= IPAddress me < 2 ^ 32;
  re_mac : macs n !! dev = Some mac;
  re_arp : List.find (fun v => Address v =? dst) (live (ARPTable n)) = Some x;
  re_length : length (MACAddress x) = 6%nat;
  re_bytes : bytes (MACAddress x);
}.
Lemma reach_sent n dst dev me mac x l : reach n dst dev me mac x -> reach (set_sent l n) dst dev me mac x.
Proof. intros [[H1 H2 H3 H4 H5] ? ? ? ? ? ? ?]. split; try done. Qed.

(** ** Options *)

Lemma offset_byte v b : 0 <= v < 16 -> Z.land b 15 = 0 -> Z.lor (Z.land b 15) (Z.land (Z.shiftl v 4) 240) = 16 * v.
Proof.
  intros Hv ->. rewrite Z.lor_0_l. change 240 with (Z.shiftl 15 4). rewrite <-Z.shiftl_land. change 15 with (Z.ones 4).
  rewrite Z.land_ones, Z.mod_small, Z.shiftl_mul_pow2 by lia. lia.
Qed.

(** [SetDataOffset] of a header whose lower half of the byte is clear. *)
Lemma SetDataOffset_fields v f : frame_ok f -> MinFrameSize <= FrameSize f -> header f = 20 -> 0 <= v < 16 -> Z.land (get_at 1 true 46 f) 15 = 0 ->
  let g := SetDataOffset v f in
  full g /\ FrameSize g = FrameSize f /\ header g = 20 /\ get_at 1 true 46 g = 16 * v /\
  (forall m r' p, (p + m <= 16 \/ 18 <= p)%nat -> (p + m <= 46 \/ 47 <= p)%nat -> get_at m r' p g = get_at m r' p f).
Proof.
  intros Ho Hm Hh Hv Hb g. unfold g, SetDataOffset. assert (Hat : Ipv4.GetDataAs 1 DataOffset true f = get_at 1 true 46 f)
    by (unfold Ipv4.GetDataAs; by rewrite udp_pos).
  rewrite Hat, offset_byte by done.
  destruct (store_field 1 (16 * v) DataOffset true f Ho Hm Hh) as (F & S & E & V & G); [unfold DataOffset; lia|].
  split_and!; [exact F|exact S|exact E| |exact G]. rewrite Z.mod_small in V; [exact V|]. change (256 ^ Z.of_nat 1) with 256. lia.
Qed.

Lemma with_options f : idle f -> FrameSize f <= 1400 ->
  exists g, SetOptions SYNOptions f = Some g /\ full g /\ FrameSize g = FrameSize f + 18 /\ header g = 20 /\ get_at 1 true 46 g = 96 /\
    get_bytes 54 4 g = SYNOptions /\
    (forall m r p, (p + m <= 16 \/ 18 <= p)%nat -> (p + m <= 46 \/ (47 <= p /\ p + m <= 54))%nat -> get_at m r p g = get_at m r p f).
Proof.
  intros [Ho Hm Hv Hh Hp H46] Hsz. unfold MinFrameSize in Hm. assert (Hl : length (Data f) = 1518%nat) by apply Ho.
  unfold SetOptions. rewrite (ap_off _ (places f Hh)), H46, Hh. change (Z.shiftr 80 4 * 4 - HeaderSizeMin =? 0) with true.
  cbn [mbind option_bind]. change (Z.of_nat (length SYNOptions)) with 4. change (4 =? 0) with false. unfold InsertData, OptionsAt. change (Z.of_nat (length SYNOptions)) with 4.
  unfold Frame.GetData. rewrite (proj2 (Z.leb_gt _ 0)), (proj2 (Z.leb_le 0 _)), (proj2 (Z.leb_le _ MaxFrameSize)) by (unfold MaxFrameSize; lia).
  cbn [andb mbind option_bind]. change (Z.to_nat (14 + (20 + 20))) with 54%nat.
  set (buf := slice (Data f) 54 (Z.to_nat (FrameSize f - (20 + 20)))).
  assert (Hbl : length buf = Z.to_nat (FrameSize f - 40)) by (unfold buf; rewrite length_slice; lia).
  assert (Hbb : bytes buf) by (unfold buf; apply get_bytes_bytes; done).
  unfold Frame.SetData at 2. rewrite Hbl, (proj2 (Z.leb_le 0 _)), (proj2 (Z.leb_le _ MaxFrameSize)), orb_true_r
    by (unfold MaxFrameSize; lia).
  cbn [mbind option_bind]. change (Z.to_nat (14 + (20 + 20 + 4))) with 58%nat.
  set (f1 := put 58 buf f). assert (Hf1 : frame_ok f1) by (apply put_ok; [done|done|lia]).
  assert (Hs1 : FrameSize f1 = FrameSize f + 18).
  { unfold f1, put, grow, MinFrameSize. cbn [FrameSize]. rewrite Hbl, (proj2 (Z.ltb_lt (FrameSize f) _)), (proj2 (Z.ltb_ge _ 64)) by lia. lia. }
  unfold Frame.SetData. change (Z.of_nat (length SYNOptions)) with 4. change ((4 =? 0) || ((0 <=? 14 + (20 + 20)) && (14 + (20 + 20) + 4 <=? MaxFrameSize)))%bool with true.
  cbn iota. cbn [mbind option_bind]. change (Z.to_nat (14 + (20 + 20))) with 54%nat.
  change SYNOptions with [2; 4; 5; 180]. set (f2 := put 54 [2; 4; 5; 180] f1).
  assert (Hf2 : frame_ok f2) by (apply put_ok; [done|repeat (constructor; [lia|]); constructor|cbn; lia]).
  assert (Hs2 : FrameSize f2 = FrameSize f + 18).
  { unfold f2, put. cbn [FrameSize length]. rewrite Hs1. apply grow_small; unfold MinFrameSize; lia. }
  assert (G2 : forall m r p, (p + m <= 54)%nat -> get_at m r p f2 = get_at m r p f).
  { intros m r p Hpm. unfold f2. rewrite get_put_at; [|apply Hf1|cbn; lia|cbn; lia]. unfold f1. rewrite get_put_at; [done|done|lia|lia]. }
  assert (Hh2 : header f2 = 20) by (rewrite <-Hh; unfold header, GetInternetHeaderLength, Frame.GetDataAs; by rewrite G2 by offset_lia).
  destruct (SetDataOffset_fields 6 f2 Hf2) as (F3 & S3 & E3 & V3 & G3); [rewrite Hs2; unfold MinFrameSize; lia|done|lia|by rewrite G2, H46 by lia|].
  eexists. split; [reflexivity|]. split_and!; [exact F3| |exact E3|exact V3| |].
  - etrans; [exact S3|]. exact Hs2.
  - transitivity (get_bytes 54 4 f2); [apply get_at_bytes; [done|apply F3|lia|apply G3; lia]|].
    apply (bytes_same 54 [2; 4; 5; 180] f1); [apply Hf1|cbn; lia].
  - intros m r p H1 H2. rewrite <-G2 by lia. apply G3; lia.
Qed.

Lemma without_options h : frame_ok h -> FrameSize h = 64 -> GetVersion h = 4 -> header h = 20 -> GetProtocol h = ProtocolNumber ->
  get_at 1 true 46 h = 96 ->
  exists g, SetOptions [] h = Some g /\ idle g /\ FrameSize g = 78 /\ peer_of g = peer_of h.
Proof.
  intros Ho Hs Hv Hh Hp H46. assert (Hl : length (Data h) = 1518%nat) by apply Ho.
  unfold SetOptions. rewrite (ap_off _ (places h Hh)), H46, Hh. change (Z.shiftr 96 4 * 4 - HeaderSizeMin) with 4. cbn [Z.eqb].
  unfold EraseData, OptionsAt. rewrite Hs. change (20 + 20 + 4 =? 64) with false. cbn iota. change (64 - (20 + 20) + 4) with 28.
  unfold Frame.GetData. change (28 <=? 0) with false. change ((0 <=? 14 + (20 + 20 + 4)) && (14 + (20 + 20 + 4) + 28 <=? MaxFrameSize))%bool with true.
  cbn [mbind option_bind]. change (Z.to_nat (14 + (20 + 20 + 4))) with 58%nat. change (Z.to_nat 28) with 28%nat.
  set (buf := slice (Data h) 58 28). assert (Hbl : length buf = 28%nat) by (unfold buf; rewrite length_slice; lia).
  assert (Hbb : bytes buf) by exact (get_bytes_bytes 58 28 h Ho).
  unfold Frame.SetData. rewrite Hbl. change ((Z.of_nat 28 =? 0) || ((0 <=? 14 + (20 + 20)) && (14 + (20 + 20) + Z.of_nat 28 <=? MaxFrameSize)))%bool with true.
  cbn [mbind option_bind]. change (Z.to_nat (14 + (20 + 20))) with 54%nat. set (f1 := put 54 buf h).
  assert (Hf1 : frame_ok f1) by (apply put_ok; [done|done|lia]).
  assert (Hs1 : FrameSize f1 = 82) by (unfold f1, put; cbn [FrameSize]; by rewrite Hbl, Hs).
  unfold zero_range. rewrite Hs1. change (82 <=? 20 + 20 + 4) with false.
  change ((0 <=? 20 + 20 + 4) && (82 <=? MaxFrameSize))%bool with true. cbn iota. cbn [fmap option_fmap option_map].
  change (Z.to_nat (20 + 20 + 4)) with 44%nat. change (Z.to_nat (82 - (20 + 20 + 4))) with 38%nat. unfold shrink. cbn [Data FrameSize].
  change (82 - 4 <? MinFrameSize) with false. cbn iota.
  set (f2 := Frame (splice (Data f1) 44 (replicate 38 0)) (82 - 4)). change (Z.of_nat (length []) =? 0) with true. cbn [mbind option_bind].
  assert (Hf2 : frame_ok f2).
  { destruct Hf1 as [L1 B1 _]. split; cbn [Data FrameSize f2]; [rewrite length_splice; rewrite ?length_replicate; lia|apply bytes_splice; [done|by apply Forall_replicate]|
      unfold MinDataSize, MaxFrameSize; lia]. }
  assert (G2 : forall m r p, (p + m <= 44)%nat -> get_at m r p f2 = get_at m r p h).
  { intros m r p Hpm. transitivity (get_at m r p f1); [|unfold f1; by frame_field]. unfold get_at, f2. cbn [Data].
    rewrite slice_splice_other; [done|rewrite length_replicate; destruct Hf1; lia|lia]. }
  assert (Hz : get_at 1 true 46 f2 = 0).
  { unfold get_at. replace (slice (Data f2) 46 1) with (slice (slice (Data f2) 44 38) 2 1).
    - unfold f2. cbn [Data]. pose proof (slice_splice_same (Data f1) 44 (replicate 38 0)) as Hx. rewrite length_replicate in Hx. rewrite Hx; [done|destruct Hf1; lia].
    - unfold slice. rewrite skipn_firstn_comm, firstn_firstn, skipn_skipn. done. }
  assert (Hh2 : header f2 = 20) by (rewrite <-Hh; unfold header, GetInternetHeaderLength, Frame.GetDataAs; by rewrite G2 by offset_lia).
  destruct (SetDataOffset_fields 5 f2 Hf2) as (F3 & S3 & E3 & V3 & G3); [unfold MinFrameSize; cbn; lia|done|lia|by rewrite Hz|].
  exists (SetDataOffset 5 f2). split; [reflexivity|]. split_and!.
  - split; [apply F3|apply F3| |exact E3| |exact V3].
    + rewrite <-Hv. unfold GetVersion, Frame.GetDataAs. rewrite G3, G2 by offset_lia. done.
    + rewrite <-Hp. unfold GetProtocol, Frame.GetDataAs. rewrite G3, G2 by offset_lia. done.
  - exact S3.
  - apply peer_same; [done|exact E3|rewrite G3, G2 by lia; done|rewrite G3, G2 by lia; done|rewrite G3, G2 by lia; done].
Qed.

Section tcp_send.
Context `{Fresh} `{Peers}.

Lemma UpdateRouteData_run f ifc n dev me mac x : reach n (GetDestinationAddress f) dev me mac x ->
  UpdateRouteData f ifc n = ([], Ret (Some dev) n).
Proof.
  intros [Hok (l & r & Hl & Hr & Hno & Hif) _ _ _ _ _ _]. destruct (only_route _ l r n (no_route _ Hok) Hl Hr Hno) as [E1 E2].
  unfold UpdateRouteData, Udp.UpdateRouteData. erewrite kbind_pure by exact E1. cbv iota. kstep. erewrite kbind_pure; [|unfold item; by rewrite E2]. by rewrite Hif.
Qed.

(** ** A segment without data *)

(** What the segment [h], made of [g] with a header of [o] words, looks like. *)
Record segment (g h : frame) (o : Z) (ip : Z) (mac : list Z) : Prop := {
  sg_ip : Ipv4.IsValid h = true;
  sg_tcp : IsValid h = true;
  sg_source : GetSourceAddress h = ip;
  sg_mac : GetDestination h = mac;
  sg_total : GetTotalLength h = 20 + 4 * o;
  sg_peer : peer_of h = peer_of g;
  sg_kept : forall m r p, (38 <= p)%nat -> (p + m <= 50 \/ 52 <= p)%nat -> (Z.of_nat (p + m) <= 34 + 4 * o) -> get_at m r p h = get_at m r p g;
  sg_ok : frame_ok h;
  sg_size : FrameSize h = 64;
  sg_version : GetVersion h = 4;
  sg_header : header h = 20;
  sg_proto : GetProtocol h = GetProtocol g;
}.

(** The source address, the length and the checksum, up to [IPv4::ToDevice]. *)
Lemma checksummed g ip o : full g -> GetVersion g = 4 -> header g = 20 -> o = 5 \/ o = 6 -> 0 <= ip < 2 ^ 32 ->
  exists f2, Resize (o * 4 + 20) (SetSourceAddress ip g) = Some f2 /\
    let f3 := SetChecksum (VerifyChecksum true f2) f2 in
    full f3 /\ FrameSize f3 = 64 /\ header f3 = 20 /\ GetVersion f3 = 4 /\ Ipv4.DataSize f2 = 4 * o /\ frame_ok f2 /\ header f2 = 20 /\
    GetSourceAddress f2 = ip /\ GetSourceAddress f3 = ip /\ get_at 2 true 50 f3 = VerifyChecksum true f2 /\
    (forall m r p, (p + m <= 16 \/ 18 <= p)%nat -> (p + m <= 50 \/ 52 <= p)%nat -> get_at m r p f3 = get_at m r p f2) /\
    (forall m r p, (p + m <= 16 \/ 18 <= p)%nat -> (p + m <= 26 \/ 30 <= p)%nat -> (Z.of_nat (p + m) <= 34 + 4 * o) -> get_at m r p f2 = get_at m r p g).
Proof.
  intros Hg Hv Hh Ho Hip. destruct (set_header_full 4 ip 26 false g Hg) as (F1 & S1 & E1 & _ & G1); [lia|lia|].
  change (set_at 4 false 26 ip g) with (SetSourceAddress ip g) in *. set (f1 := SetSourceAddress ip g) in *.
  assert (Hs1 : GetSourceAddress f1 = ip).
  { unfold GetSourceAddress, f1, SetSourceAddress, Frame.GetDataAs, Frame.SetDataFrom. assert (Hgo : frame_ok g) by apply Hg. frame_field.
    rewrite Z.mod_small; lia. }
  assert (Hv1 : GetVersion f1 = 4) by (rewrite <-Hv; unfold GetVersion, Frame.GetDataAs; by rewrite G1 by offset_lia).
  destruct (Resize_fields (o * 4 + 20) f1) as (f2 & R2 & I2 & E2 & T2 & S2 & B2 & B2');
    [by apply full_sound|rewrite E1, Hh; lia|unfold HeaderSize, MaxFrameSize; lia|].
  exists f2. split; [exact R2|]. unfold HeaderSize, MinFrameSize in S2, B2'.
  assert (Hsz : FrameSize f2 = 64) by lia. assert (Hh2 : header f2 = 20) by congruence.
  assert (G2 : forall m r p, (p + m <= 16 \/ 18 <= p)%nat -> Z.of_nat (p + m) <= 34 + 4 * o -> get_at m r p f2 = get_at m r p f1).
  { intros m r p [Hp|Hp] Hm; [by apply (same_get 0 16); try done; lia|]. apply (same_get _ _ f1 f2 _ _ _ B2'); [done|lia]. }
  destruct (store_field 2 (VerifyChecksum true f2) ChecksumAt true f2) as (F3 & S3 & E3 & V3 & G3);
    [apply I2|apply I2|done|unfold ChecksumAt; lia|].
  change (Ipv4.SetDataFrom 2 (VerifyChecksum true f2) ChecksumAt true f2) with (SetChecksum (VerifyChecksum true f2) f2) in *.
  unfold ChecksumAt in V3, G3. cbn [Nat.add] in V3, G3.
  assert (Hc : 0 <= VerifyChecksum true f2 < 2 ^ 16).
  { unfold VerifyChecksum. apply complement_range.
    assert (Hd2 : Ipv4.DataSize f2 = 4 * o) by (unfold Ipv4.DataSize; rewrite T2, Hh2; lia). rewrite Hd2.
    pose proof (pseudo_range ProtocolNumber f2 (is_ok _ I2)) as Hp. unfold ProtocolNumber in *.
    assert (Hw : (word_count (4 * o) <= 12)%nat) by (destruct Ho as [-> | ->]; vm_compute; lia).
    assert (Hrd : forall i, (i < word_count (4 * o))%nat -> 0 <= data_word f2 i < 2 ^ 16).
    { intros i Hi. apply (get_at_range 2); [apply I2|]. rewrite udp_pos by done. lia. }
    rewrite sum_words_total by (try done; lia). pose proof (total_bounds (data_word f2) (Some 8%nat) _ Hrd). lia. }
  assert (Hs2 : GetSourceAddress f2 = ip) by (rewrite <-Hs1; unfold GetSourceAddress, Frame.GetDataAs; apply G2; offset_lia).
  cbv zeta. split_and!; try done.
  - rewrite S3. exact Hsz.
  - rewrite <-(is_version _ I2). unfold GetVersion, Frame.GetDataAs. by rewrite G3 by offset_lia.
  - unfold Ipv4.DataSize. rewrite T2, Hh2. lia.
  - apply I2.
  - rewrite <-Hs2. unfold GetSourceAddress, Frame.GetDataAs. apply G3; offset_lia.
  - rewrite V3. apply Z.mod_small. exact Hc.
  - intros m r p H1 H2 H3. rewrite G2 by lia. apply G1. lia.
Qed.

Lemma segment_sent g o n dev me mac x : full g -> GetVersion g = 4 -> header g = 20 ->
  get_at 1 true 46 g = 16 * o -> o = 5 \/ o = 6 -> reach n (GetDestinationAddress g) dev me mac x ->
  exists r h, ToDevice (Some dev) true g n = ([], Ret (r, h) (set_sent ((dev, h) :: sent n) n)) /\ segment g h o (IPAddress me) (MACAddress x).
Proof.
  intros Hg Hv Hh Hoff Ho [Rok Rrt Rme Rip Rmac Rarp Rl Rb].
  destruct (checksummed g (IPAddress me) o Hg Hv Hh Ho Rip) as (f2 & R2 & F3 & S3 & E3 & V3 & D2 & O2 & E2 & A2 & A3 & C3 & G3 & G2).
  set (f3 := SetChecksum (VerifyChecksum true f2) f2) in *.
  assert (Hmm : Forall (fun m => length m = 6%nat /\ bytes m) (macs n)) by apply Rok.
  rewrite Forall_lookup in Hmm. destruct (Hmm dev mac Rmac) as [Hlm Hbm].
  assert (Hdst : GetDestinationAddress f3 = GetDestinationAddress g).
  { unfold GetDestinationAddress, Frame.GetDataAs. rewrite G3, G2 by offset_lia. done. }
  destruct (ToDevice_run dev (o * 4 + 20) f3 me mac (MACAddress x) n n) as (h & Hsend & Hpk & _ & Hgs); try done.
  { by apply full_sound. }
  { unfold HeaderSize, MaxFrameSize. lia. }
  { rewrite Hdst. by eapply RequestFrom_known. }
  assert (Hne : (o * 4 + 20 =? 0) = false) by (apply Z.eqb_neq; lia).
  unfold total_after, kept_after, total_after, HeaderSize, MinFrameSize in *. rewrite Hne, E3 in *.
  replace (Z.max (o * 4 + 20) 20) with (o * 4 + 20) in * by lia.
  destruct Hpk as [K1 K2 K3 K4 K5 K6 K7 K8 K9].
  assert (Hhh : header h = 20) by congruence.
  assert (Hkeep : forall m r p, (34 <= p)%nat -> Z.of_nat (p + m) <= 34 + 4 * o -> get_at m r p h = get_at m r p f3).
  { intros m r p Hp Hm. apply (same_get _ _ f3 h _ _ _ K9); [done|lia]. }
  exists (u16 (FrameSize h)), h. split.
  - unfold ToDevice. erewrite kbind_pure by (apply IPFind_run, Rok). rewrite Rme.
    assert (Hof : GetDataOffset (SetSourceAddress (IPAddress me) g) = o).
    { destruct (set_header_full 4 (IPAddress me) 26 false g Hg) as (_ & _ & E1 & _ & G1); [lia|lia|].
      change (set_at 4 false 26 (IPAddress me) g) with (SetSourceAddress (IPAddress me) g) in *.
      rewrite (ap_off _ (places (SetSourceAddress (IPAddress me) g) ltac:(congruence))), G1, Hoff by lia.
      rewrite Z.shiftr_div_pow2 by lia. change (2 ^ 4) with 16. rewrite Z.mul_comm, Z.div_mul by lia. done. }
    assert (Hhd1 : header (SetSourceAddress (IPAddress me) g) = 20).
    { destruct (set_header_full 4 (IPAddress me) 26 false g Hg) as (_ & _ & E1 & _); [lia|lia|]. rewrite <-Hh. exact E1. }
    rewrite Hof, Hhd1. rewrite (proj2 (Z.eqb_neq (o * 4) 0)) by lia. rewrite R2. exact Hsend.
  - split; try done.
    + unfold IsValid. apply Z.eqb_eq. unfold VerifyChecksum.
      assert (Hdh : Ipv4.DataSize h = Ipv4.DataSize f2) by (unfold Ipv4.DataSize in *; rewrite K7, Hhh; lia).
      assert (Hps : PseudoHeader ProtocolNumber h = PseudoHeader ProtocolNumber f2).
      { unfold PseudoHeader, GetSourceAddressBE, GetDestinationAddressBE, Frame.GetDataAs. rewrite Hdh.
        rewrite (swapped 4 (Payload + SourceAddress) f2 h), (swapped 4 (Payload + DestinationAddress) f2 h); try done; try apply K1; try offset_lia.
        - change (GetDestinationAddress h = GetDestinationAddress f2). rewrite K4, Hdst. unfold GetDestinationAddress, Frame.GetDataAs.
          symmetry. apply G2; offset_lia.
        - change (GetSourceAddress h = GetSourceAddress f2). congruence. }
      assert (Hw : word_count (Ipv4.DataSize f2) = Z.to_nat (2 * o)) by (rewrite D2; destruct Ho as [-> | ->]; reflexivity).
      rewrite Hdh, Hps, Hw. pose proof (pseudo_range ProtocolNumber f2 O2) as Hp. unfold ProtocolNumber in *.
      apply (checksum_verifies (data_word f2) (data_word h) 8); [lia|lia|lia| | |].
      * intros i Hi. apply (get_at_range 2); [done|]. rewrite udp_pos by done. lia.
      * intros i Hi Hne'. unfold data_word, Ipv4.GetDataAs. rewrite !udp_pos by done. rewrite Hkeep, G3 by lia. done.
      * unfold data_word at 1, Ipv4.GetDataAs. rewrite udp_pos by done. cbn [Nat.mul Nat.add]. rewrite Hkeep, C3 by lia.
        unfold VerifyChecksum. by rewrite Hw.
    + rewrite K7. lia.
    + apply peer_same; [done|done| | |].
      * change (GetDestinationAddress h = GetDestinationAddress g). congruence.
      * rewrite Hkeep, G3, G2 by lia. done.
      * rewrite Hkeep, G3, G2 by lia. done.
    + intros m r p Hp Hq Hm. rewrite Hkeep, G3, G2 by lia. done.
    + apply K1.
    + rewrite Hgs. lia.
    + apply K1.
    + rewrite K8. unfold GetProtocol, Frame.GetDataAs. rewrite G3, G2 by offset_lia. done.
Qed.
(** ** Control segments *)

(** A segment [h] without data to the peer of [f]. *)
Record control_segment (f h : frame) (seq ack flags win ip : Z) (mac : list Z) : Prop := {
  cs_ip : Ipv4.IsValid h = true;
  cs_tcp : IsValid h = true;
  cs_source : GetSourceAddress h = ip;
  cs_mac : GetDestination h = mac;
  cs_peer : peer_of h = peer_of f;
  cs_seq : GetSequenceNumber h = u32 seq;
  cs_ack : GetAcknowledgementNumber h = u32 ack;
  cs_flags : GetFlags h = u8 flags;
  cs_window : GetWindow h = u16 win;
  cs_empty : DataSize h = 0;
}.

Lemma segment_control f g h o seq ack flags win ip mac : o = 5 \/ o = 6 -> header g = 20 -> peer_of g = peer_of f ->
  numbered seq ack flags win g -> get_at 1 true 46 g = 16 * o -> segment g h o ip mac -> control_segment f h seq ack flags win ip mac.
Proof.
  intros Ho Hg Hp [N1 N2 N3 N4] Hoff [K1 K2 K3 K4 K5 K6 K7 K8 K9 K10 K11 K12]. destruct (places h K11) as [_ _ _ E1 E2 E3 E4 E5].
  split; try done.
  - congruence.
  - rewrite E1, K7 by lia. exact N1.
  - rewrite E2, K7 by lia. exact N2.
  - rewrite E4, K7 by lia. exact N3.
  - rewrite E5, K7 by lia. exact N4.
  - unfold DataSize, Ipv4.DataSize. rewrite K5, K11, E3, K7, Hoff by lia. rewrite Z.shiftr_div_pow2 by lia. change (2 ^ 4) with 16.
    rewrite (Z.mul_comm 16 o), Z.div_mul by lia. lia.
Qed.

(** The state after block [i] sent [h] through [dev] and kept the frame [g]. *)
Definition sending (s : tcps) (i dev : nat) (h g : frame) : tcps :=
  Tcps (set_sent ((dev, h) :: sent (tnet s)) (tnet s)) (TCPLock s)
    (AList (alter (set_sender (Some dev) g) i (elems (TCBTable s))) (csize (TCBTable s))).

(** A control segment leaves, and the block can send the next. *)
Lemma SendControl_run i b seq ack flags s dev me mac x : elems (TCBTable s) !! i = Some b -> idle (TFrame b) ->
  FrameSize (TFrame b) <= 1400 -> reach (tnet s) (GetDestinationAddress (TFrame b)) dev me mac x ->
  exists r h g, SendControl i seq ack flags s = ([], Ret r (sending s i dev h g)) /\
    control_segment (TFrame b) h seq ack flags (RWindow b) (IPAddress me) (MACAddress x) /\
    idle g /\ peer_of g = peer_of (TFrame b) /\ FrameSize g <= 82.
Proof.
  intros Hb Hf Hsz Hre. unfold SendControl. erewrite kbind_pure; [|unfold this; kstep; unfold item; by rewrite Hb].
  change (SetWindow (RWindow b) (SetFlags flags (SetAcknowledgementNumber ack (SetSequenceNumber seq (TFrame b)))))
    with (control seq ack flags (RWindow b) (TFrame b)).
  destruct (control_fields seq ack flags (RWindow b) (TFrame b) Hf) as (I1 & F1 & S1 & N1 & G1).
  set (f1 := control seq ack flags (RWindow b) (TFrame b)) in *. pose proof (id_header _ I1) as E1. pose proof (id_header _ Hf) as E0.
  assert (P1 : peer_of f1 = peer_of (TFrame b)) by (apply peer_same; [done|done|apply G1; lia|apply G1; lia|apply G1; lia]).
  destruct (has flags SYN).
  - destruct (with_options f1 I1) as (f2 & O2 & F2 & S2 & E2 & V2 & _ & G2); [lia|]. rewrite O2.
    assert (P2 : peer_of f2 = peer_of (TFrame b)) by (rewrite <-P1; apply peer_same; [done|done|apply G2; lia|apply G2; lia|apply G2; lia]).
    assert (Hd2 : GetDestinationAddress f2 = GetDestinationAddress (TFrame b)) by (injection P2; done).
    assert (V2' : GetVersion f2 = 4) by (rewrite <-(id_version _ I1); unfold GetVersion, Frame.GetDataAs; by rewrite G2 by offset_lia).
    assert (N2 : numbered seq ack flags (RWindow b) f2) by (destruct N1; split; rewrite G2 by lia; done).
    rewrite <-Hd2 in Hre.
    erewrite kbind_pure; [|unfold zoom; cbn [lget tn]; rewrite (UpdateRouteData_run _ _ _ _ _ _ _ Hre); reflexivity].
    destruct (segment_sent f2 6 (tnet s) dev me mac x F2 V2' E2 V2) as (r & h & Hs & Hseg); [lia|done|].
    erewrite kbind_pure; [|unfold zoom; cbn [lget lput tn set_tnet tnet]; rewrite Hs; reflexivity]. cbn [snd fst].
    destruct (without_options h) as (g & O3 & I3 & S3 & P3); [apply Hseg|apply Hseg|apply Hseg|apply Hseg| | |].
    { rewrite (sg_proto _ _ _ _ _ Hseg), <-(id_proto _ I1). unfold GetProtocol, Frame.GetDataAs. by rewrite G2 by offset_lia. }
    { by rewrite (sg_kept _ _ _ _ _ Hseg) by lia. }
    rewrite O3. exists r, h, g. split_and!; [done| |done| |by rewrite S3].
    + by apply (segment_control _ f2 h 6); try done; lia.
    + rewrite P3, (sg_peer _ _ _ _ _ Hseg). exact P2.
  - assert (Hd1 : GetDestinationAddress f1 = GetDestinationAddress (TFrame b)) by (injection P1; done). rewrite <-Hd1 in Hre.
    erewrite kbind_pure; [|unfold zoom; cbn [lget tn]; rewrite (UpdateRouteData_run _ _ _ _ _ _ _ Hre); reflexivity].
    destruct (segment_sent f1 5 (tnet s) dev me mac x F1 (id_version _ I1) E1 (id_offset _ I1)) as (r & h & Hs & Hseg); [lia|done|].
    erewrite kbind_pure; [|unfold zoom; cbn [lget lput tn set_tnet tnet]; rewrite Hs; reflexivity]. cbn [snd fst].
    exists r, h, h. split_and!; [done| | | |by rewrite (sg_size _ _ _ _ _ Hseg)].
    + apply (segment_control _ f1 h 5); try done; [lia|]. apply I1.
    + split; try apply Hseg.
      * rewrite (sg_size _ _ _ _ _ Hseg). done.
      * rewrite (sg_proto _ _ _ _ _ Hseg). apply I1.
      * rewrite (sg_kept _ _ _ _ _ Hseg) by lia. apply I1.
    + rewrite (sg_peer _ _ _ _ _ Hseg). exact P1.
Qed.
End tcp_send.
