(* ===== verification/TcpState.v ===== *)
(** * The states of connections: the diagram of include/UProtocols4.tcc as an invariant

    All operations of Tcp interleave: segments arrive on any adapter, processes call, sleep and
    are woken.  [tcp_follows_diagram] follows every control block through such a run.  What a
    segment that is sent looks like plays no part here, nor whether it can be sent: only that
    sending leaves the state of the blocks alone. *)

From stdpp Require Import base list relations.
From Stdlib Require Import ZArith Lia.
From S2P Require Import Prelude Spinlock CString Bytes ArrayList Frame Checksum Random Ipv4 Net Arp IpSend Udp Tcp.
Open Scope Z_scope.

(** ** The part of the state that the diagram is about *)

Record view := View { v_started : bool; v_state : tcb_state; v_parent : option nat }.
Definition view_of (b : tcb) : view := View (Started b) (State b) (ParentBody b).
Record cview := CView { c_size : nat; c_blocks : list view }.
Definition cview_of (s : tcps) : cview := CView (csize (TCBTable s)) (view_of <$> elems (TCBTable s)).

(** ** Whatever the outcome

    [ends m s Q]: whether [m] returns or stops, the view it leaves satisfies [Q]. *)

Definition ends {A} (m : TK A) (s : tcps) (Q : cview -> Prop) : Prop := Q (cview_of (final (m s).2)).
Definition keeps {A} (m : TK A) : Prop := forall s, cview_of (final (m s).2) = cview_of s.

Lemma ends_bind {A B} (m : TK A) (f : A -> TK B) s Q : keeps m -> Q (cview_of s) ->
  (forall a s1, cview_of s1 = cview_of s -> ends (f a) s1 Q) -> ends (kbind m f) s Q.
Proof.
  intros Hm HQ Hf. unfold ends, kbind. specialize (Hm s). destruct (m s) as [t [a s1|r s1]]; cbn in Hm; [|cbn; by rewrite Hm].
  specialize (Hf a s1 Hm). unfold ends in Hf. by destruct (f a s1).
Qed.
Lemma ends_mod {A} g (f : unit -> TK A) s Q : ends (f tt) (g s) Q -> ends (kbind (kmod g) f) s Q.
Proof. unfold ends, kbind. cbn. by destruct (f tt (g s)). Qed.
Lemma ends_this {A} i (f : tcb -> TK A) s Q : Q (cview_of s) -> (forall b, elems (TCBTable s) !! i = Some b -> ends (f b) s Q) ->
  ends (kbind (this i) f) s Q.
Proof.
  intros HQ Hf. unfold ends, kbind, this, item, kbind. cbn. destruct (elems (TCBTable s) !! i) as [b|] eqn:Hb; [|exact HQ].
  cbn. specialize (Hf b eq_refl). unfold ends in Hf. by destruct (f b s).
Qed.
Lemma ends_pure {A B} (m : TK A) (f : A -> TK B) s Q a s1 : m s = ([], Ret a s1) -> ends (f a) s1 Q -> ends (kbind m f) s Q.
Proof. intros Hm Hf. unfold ends. by rewrite (kbind_pure _ _ _ a s1). Qed.
Lemma ends_keeps {A} (m : TK A) s Q : keeps m -> Q (cview_of s) -> ends m s Q.
Proof. intros Hm HQ. unfold ends. by rewrite Hm. Qed.
Lemma ends_mono {A} (m : TK A) s (Q Q' : cview -> Prop) : ends m s Q -> (forall v, Q v -> Q' v) -> ends m s Q'.
Proof. intros H1 H2. by apply H2. Qed.
Lemma ends_seq {A B} (m : TK A) (f : A -> TK B) s Q Q1 : ends m s Q1 -> (forall v, Q1 v -> Q v) ->
  (forall a s1, Q1 (cview_of s1) -> ends (f a) s1 Q) -> ends (kbind m f) s Q.
Proof.
  intros Hm HQ Hf. unfold ends, kbind in *. destruct (m s) as [t [a s1|r s1]]; cbn in Hm; [|cbn; by apply HQ].
  specialize (Hf a s1 Hm). by destruct (f a s1).
Qed.

Lemma ends_then_ret {A B} (m : TK A) (x : B) s Q : ends m s Q -> ends (m ;;; kret x) s Q.
Proof. unfold ends, kbind. by destruct (m s) as [t [a s1|r s1]]. Qed.

Lemma keeps_ret {A} (a : A) : keeps (kret a).
Proof. by intros s. Qed.
Lemma keeps_stop {A} r : keeps (kstop (A := A) r).
Proof. by intros s. Qed.
Lemma keeps_fault {A} : keeps (fault (A := A)).
Proof. by intros s. Qed.
Lemma keeps_this i : keeps (this i).
Proof. intros s. unfold this, item, kbind. cbn. by destruct (elems (TCBTable s) !! i). Qed.
Lemma keeps_wakeup c : keeps (wakeup c).
Proof. by intros s. Qed.
Lemma view_keeps_zoom {A} (m : NK A) : keeps (zoom tn m).
Proof. intros s. unfold zoom. destruct (m (lget tn s)) as [t [a x|r x]]; done. Qed.
Lemma view_keeps_bind {A B} (m : TK A) (f : A -> TK B) : keeps m -> (forall a, keeps (f a)) -> keeps (kbind m f).
Proof. intros Hm Hf s. apply ends_bind; [done|done|]. intros a s1 E. unfold ends. by rewrite Hf, E. Qed.

(** The views after an update of block [i], when the update acts on the view as [h]. *)
Definition at_block (i : nat) (h : view -> view) (v : cview) : cview := CView (c_size v) (alter h i (c_blocks v)).
Lemma cview_upd i g h s : (forall b, view_of (g b) = h (view_of b)) ->
  cview_of (set_TCBTable (AList (alter g i (elems (TCBTable s))) (csize (TCBTable s))) s) = at_block i h (cview_of s).
Proof. intros Hg. unfold cview_of, at_block. cbn. f_equal. apply list_fmap_alter. by apply Forall_true. Qed.
Lemma alter_id {A} (l : list A) i : alter (fun x => x) i l = l.
Proof. apply list_eq. intros j. destruct (decide (i = j)) as [<-|Hne]; [rewrite list_lookup_alter_eq|by rewrite list_lookup_alter_ne]. by destruct (l !! i). Qed.
Lemma keeps_upd i g : (forall b, view_of (g b) = view_of b) -> keeps (upd i g).
Proof.
  intros Hg s. cbn. rewrite (cview_upd i g (fun v => v)) by done. unfold at_block, cview_of. cbn. by rewrite alter_id.
Qed.
Lemma keeps_acquire : keeps (acquire tcp_lk).
Proof. intros s. unfold acquire, kbind. cbn. by destruct (TCPLock s). Qed.
Lemma keeps_release : keeps (release tcp_lk).
Proof. intros s. unfold release, kbind. cbn. by destruct (TCPLock s). Qed.
Lemma keeps_block Index : keeps (block Index).
Proof. unfold block. destruct (Index <? 0); [by intros s|apply keeps_this]. Qed.
Lemma view_keeps_gets {A} (g : tcps -> A) : keeps (gets g).
Proof. by intros s. Qed.
Lemma keeps_get : keeps kget.
Proof. by intros s. Qed.
Lemma keeps_sleep {A} c : keeps (ksleep (A := A) c (set_TCPLock false)).
Proof. by intros s. Qed.
#[export] Hint Resolve keeps_ret keeps_stop keeps_fault keeps_this keeps_wakeup view_keeps_zoom keeps_acquire keeps_release keeps_block
  view_keeps_gets keeps_get keeps_sleep : keeps.

(** Sending and other code that only updates fields outside the view. *)
Ltac keeps_step :=
  cbv zeta;
  first [solve [eauto with keeps] | (apply keeps_upd; done) | (apply view_keeps_bind; [|intros ?]) | case_match].

Section diagram.
Context `{Fresh} `{Peers}.

(** Sending leaves the states of the blocks alone. *)
Lemma keeps_SendControl i seq ack flags : keeps (SendControl i seq ack flags).
Proof. unfold SendControl. repeat keeps_step. Qed.
Lemma keeps_SendData i Data : keeps (SendData i Data).
Proof. unfold SendData. repeat keeps_step. Qed.
End diagram.
#[export] Hint Resolve keeps_SendControl keeps_SendData : keeps.

(** ** The diagram *)

(** The edges that a segment can take: those of the diagram, two of them in one step when it carries
    an acknowledgement and a FIN. *)
Definition segment_edge (a b : tcb_state) : bool :=
  match a, b with
  | LISTEN, SYN_RECEIVED
  | SYN_SENT, ESTABLISHED
  | SYN_RECEIVED, (ESTABLISHED | CLOSE_WAIT)
  | ESTABLISHED, CLOSE_WAIT
  | FIN_WAIT_1, (FIN_WAIT_2 | TIME_WAIT)
  | FIN_WAIT_2, TIME_WAIT
  | CLOSING, TIME_WAIT => true
  | _, _ => bool_decide (a = b)
  end.

(** Block [i] in another state, or new. *)
Definition moved (i : nat) (st : tcb_state) (v : cview) : cview := at_block i (fun w => View (v_started w) st (v_parent w)) v.
Definition cleared (i : nat) (v : cview) : cview := at_block i (fun _ => View false CLOSED None) v.

Inductive result_of (i : nat) (st : tcb_state) (v : cview) : cview -> Prop :=
| Moved st' : segment_edge st st' = true -> result_of i st v (moved i st' v)
| Acked : st = LAST_ACK -> result_of i st v (cleared i v).

Lemma moved_moved i a b v : moved i a (moved i b v) = moved i a v.
Proof. unfold moved, at_block. cbn. by rewrite alter_alter. Qed.
Lemma cleared_moved i a v : cleared i (moved i a v) = cleared i v.
Proof. unfold cleared, moved, at_block. cbn. by rewrite alter_alter. Qed.
Lemma moved_here i s b : elems (TCBTable s) !! i = Some b -> moved i (State b) (cview_of s) = cview_of s.
Proof.
  intros Hb. unfold moved, at_block, cview_of. cbn. f_equal. apply list_eq. intros j.
  destruct (decide (i = j)) as [<-|Hne]; [|by rewrite list_lookup_alter_ne].
  by rewrite list_lookup_alter_eq, list_lookup_fmap, Hb.
Qed.

Section walk.
Context (i : nat) (v0 : cview).
Notation At st s := (cview_of s = moved i st v0).

Lemma at_state st s b : At st s -> elems (TCBTable s) !! i = Some b -> State b = st.
Proof.
  intros E Hb. assert (Hv : c_blocks (cview_of s) !! i = Some (view_of b)) by (cbn; by rewrite list_lookup_fmap, Hb).
  rewrite E in Hv. cbn in Hv. rewrite list_lookup_alter_eq in Hv. destruct (c_blocks v0 !! i); [|done]. cbn in Hv. by injection Hv.
Qed.
Lemma at_set st st' s : At st s -> At st' (set_TCBTable (AList (alter (set_State st') i (elems (TCBTable s))) (csize (TCBTable s))) s).
Proof.
  intros E. rewrite (cview_upd i _ (fun w => View (v_started w) st' (v_parent w))) by done. rewrite E. apply moved_moved.
Qed.
Lemma e_keep {A B} (m : TK A) (f : A -> TK B) s st Q : At st s -> keeps m -> Q (moved i st v0) ->
  (forall a s1, At st s1 -> ends (f a) s1 Q) -> ends (kbind m f) s Q.
Proof. intros E Hm HQ Hf. apply ends_bind; [done|by rewrite E|]. intros a s1 E1. apply Hf. by rewrite E1. Qed.
Lemma e_last {A} (m : TK A) s st Q : At st s -> keeps m -> Q (moved i st v0) -> ends m s Q.
Proof. intros E Hm HQ. apply ends_keeps; [done|by rewrite E]. Qed.
Lemma e_set {A} st' (f : unit -> TK A) s st Q : At st s -> (forall s1, At st' s1 -> ends (f tt) s1 Q) -> ends (kbind (SetState i st') f) s Q.
Proof. intros E Hf. apply ends_mod, Hf. by eapply at_set. Qed.
Lemma e_set_last st' s st Q : At st s -> Q (moved i st' v0) -> ends (SetState i st') s Q.
Proof. intros E HQ. unfold ends. cbn. by rewrite (at_set _ st' _ E). Qed.
Lemma e_this {A} (f : tcb -> TK A) s st Q : At st s -> Q (moved i st v0) ->
  (forall b, State b = st -> ends (f b) s Q) -> ends (kbind (this i) f) s Q.
Proof. intros E HQ Hf. apply ends_this; [by rewrite E|]. intros b Hb. apply Hf. by eapply at_state. Qed.
End walk.

Ltac keeps_now := solve [repeat keeps_step].
(** One step through a handler; [tac] closes the goals that a possible end leaves. *)
Ltac ends_with tac :=
  repeat (cbv zeta; lazymatch goal with
  | |- ends (if _ then _ else _) _ _ => case_match
  | |- ends (match ParentBody ?b with _ => _ end) _ _ => destruct (ParentBody b)
  | |- ends (match GetData _ _ ?f with _ => _ end) _ _ => case_match
  | |- ends (kbind (this ?i) _) _ _ =>
      first [eapply (e_this i); [eassumption|tac|intros ? ?] | eapply e_keep; [eassumption|keeps_now|tac|intros ? ? ?]]
  | |- ends (kbind (SetState _ _) _) _ _ => eapply e_set; [eassumption|intros ? ?]
  | |- ends (SetState _ _) _ _ => eapply e_set_last; [eassumption|tac]
  | |- ends (kbind _ _) _ _ => eapply e_keep; [eassumption|keeps_now|tac|intros ? ? ?]
  | |- ends _ _ _ => eapply e_last; [eassumption|keeps_now|tac]
  end).

Section handlers.
Context `{Fresh} `{Peers} (i : nat) (v0 : cview).
Notation At st s := (cview_of s = moved i st v0).
Notation Out a := (result_of i a v0).

Lemma DoClosed_ends f s : At CLOSED s -> ends (DoClosed i f) s (Out CLOSED).
Proof. intros E. unfold DoClosed. case_match; [|destruct (has (GetFlags f) ACK)]; ends_with ltac:(by apply Moved). Qed.
Lemma DoListen_ends f s : At LISTEN s -> ends (DoListen i f) s (Out LISTEN).
Proof. intros E. unfold DoListen. ends_with ltac:(by apply Moved). Qed.
Lemma DoSynSent_ends f s : At SYN_SENT s -> ends (DoSynSent i f) s (Out SYN_SENT).
Proof. intros E. unfold DoSynSent. ends_with ltac:(by apply Moved). Qed.
Lemma StoreData_ends a st f s : At st s -> segment_edge a st = true -> ends (StoreData i f) s (Out a).
Proof. intros E Ha. unfold StoreData. ends_with ltac:(by apply Moved). Qed.

(** The state after a FIN. *)
Definition fin_state (st : tcb_state) : tcb_state :=
  match st with SYN_RECEIVED | ESTABLISHED => CLOSE_WAIT | FIN_WAIT_1 => FIN_WAIT_2 | FIN_WAIT_2 => TIME_WAIT | _ => st end.
Lemma Terminate_ends a st s : At st s -> segment_edge a st = true -> segment_edge a (fin_state st) = true -> ends (Terminate i) s (Out a).
Proof.
  intros E H1 H2. unfold Terminate. eapply (e_this i); [eassumption|by apply Moved|intros b Hb]. rewrite Hb.
  eapply e_keep; [eassumption|keeps_now|by apply Moved|intros ? ? ?]. eapply e_keep; [eassumption|keeps_now|by apply Moved|intros ? ? ?].
  destruct st; ends_with ltac:(by apply Moved).
Qed.
Lemma text_and_fin_ends a st f s : At st s -> segment_edge a st = true -> segment_edge a (fin_state st) = true ->
  ends (text_and_fin i f) s (Out a).
Proof.
  intros E H1 H2. unfold text_and_fin. apply (ends_seq _ _ _ _ (fun v => v = moved i st v0)).
  - case_match; [|by eapply e_last; [eassumption|keeps_now|]]. eapply (e_this i); [eassumption|done|intros b Hb].
    case_match; [unfold StoreData; ends_with idtac; done|by eapply e_last; [eassumption|keeps_now|]].
  - intros v ->. by apply Moved.
  - intros _ s1 E1. case_match; [by eapply Terminate_ends|by eapply e_last; [eassumption|keeps_now|apply Moved]].
Qed.

Lemma DoSynReceived_ends f s : At SYN_RECEIVED s ->
  ends (DoSynReceived i f) s (fun v => exists st, segment_edge SYN_RECEIVED st = true /\ segment_edge SYN_RECEIVED (fin_state st) = true /\
    (st = SYN_RECEIVED \/ st = ESTABLISHED) /\ v = moved i st v0).
Proof. intros E. unfold DoSynReceived. ends_with ltac:(by (eexists; split_and!; [| | |reflexivity]; auto)). Qed.
Lemma DoClosing_ends st f s : At st s ->
  ends (DoClosing i f) s (fun v => exists st', (st' = st \/ (st = FIN_WAIT_1 /\ st' = FIN_WAIT_2) \/ (st = CLOSING /\ st' = TIME_WAIT)) /\ v = moved i st' v0).
Proof.
  intros E. unfold DoClosing. eapply (e_this i); [eassumption|by exists st; auto|intros b Hb]. cbv zeta.
  eapply e_keep; [eassumption|keeps_now|by exists st; auto|intros stop s1 E1]. case_match; [by eapply e_last; [eassumption|keeps_now|exists st; auto]|].
  rewrite Hb. destruct st; unfold DoFinWait1; try apply ends_then_ret; ends_with ltac:(by (eexists; split; [|reflexivity]; auto)).
Qed.

(** [TCB::Main] moves its own block only, along an edge. *)
Lemma BlockMain_ends f s b : cview_of s = v0 -> elems (TCBTable s) !! i = Some b -> ends (BlockMain i f) s (Out (State b)).
Proof.
  intros Hv Hb. pose proof (moved_here i s b Hb) as E. rewrite Hv in E at 1. symmetry in E.
  assert (Hstay : Out (State b) (moved i (State b) v0)) by (apply Moved; by destruct (State b)).
  unfold BlockMain. eapply (e_this i); [eassumption|done|intros b' Hb'].
  destruct (State b) eqn:Est; rewrite Hb'; [by apply DoClosed_ends|by apply DoListen_ends|by apply DoSynSent_ends|..];
    (case_match; [by eapply e_last; [eassumption|keeps_now|]|]); (case_match; [by eapply e_last; [eassumption|keeps_now|]|]);
    (case_match; [by eapply e_last; [eassumption|keeps_now|]|]); try (by eapply text_and_fin_ends).
  2-6: eapply e_keep; [eassumption|keeps_now|done|intros ? s1 E1];
    (eapply ends_seq; [by apply DoClosing_ends| |]; [intros v (st' & [-> |[[? ->]|[? ->]]] & ->); try done; by apply Moved|]);
    intros r s2 (st' & Hst & E2); (case_match; [eapply e_last; [eassumption|keeps_now|]|eapply text_and_fin_ends; [eassumption|..]]);
    destruct Hst as [-> |[[? ->]|[? ->]]]; try done; by apply Moved.
  - eapply ends_seq; [by apply DoSynReceived_ends| |]; [intros v (st & K1 & _ & _ & ->); by apply Moved|].
    intros _ s1 (st & K1 & K2 & K3 & E1).
    eapply ends_seq; [by apply DoClosing_ends| |].
    + intros v (st' & [-> |[[-> ->]|[-> ->]]] & ->); [by apply Moved|by destruct K3|by destruct K3].
    + intros r s2 (st' & [-> |[[-> _]|[-> _]]] & E2); [|by destruct K3|by destruct K3].
      case_match; [by eapply e_last; [eassumption|keeps_now|apply Moved]|by eapply text_and_fin_ends].
  - unfold DoLastAck. eapply e_keep; [eassumption|keeps_now|done|intros ? s1 E1]. unfold ends, Clear. cbn.
    rewrite (cview_upd i _ (fun _ => View false CLOSED None)) by done. rewrite E1. change (at_block i (fun _ => View false CLOSED None)) with (cleared i).
    rewrite cleared_moved. by apply Acked.
Qed.
End handlers.

(** ** Calls *)

Inductive call :=
| CMain (dev : nat) (f : frame)
| COpen | CClose (Index : Z) | CClose_resume (i : nat)
| CBind (Index Port : Z) | CListen (Index : Z) | CConnect (Index Address Port : Z)
| CAccept (Index : Z) (pointers : bool) | CAccept_resume (i : nat) (pointers : bool)
| CReceive (Index Size : Z) | CReceive_resume (i : nat) (Size : Z)
| CTransmit (Index : Z) (Data : list Z).

(** The diagram, with the operations that take its edges. *)
Definition edge (c : call) (a b : tcb_state) : bool :=
  bool_decide (a = b) ||
  match c, a, b with
  | CMain _ _, CLOSED, (LISTEN | SYN_RECEIVED)           (* a SYN for a listening block makes a new one *)
  | CMain _ _, LAST_ACK, CLOSED
  | CListen _, CLOSED, LISTEN
  | CClose _, (SYN_RECEIVED | ESTABLISHED), FIN_WAIT_1
  | CClose _, CLOSE_WAIT, LAST_ACK
  | CClose _, (LISTEN | FIN_WAIT_1 | FIN_WAIT_2 | LAST_ACK | TIME_WAIT), CLOSED
  | CClose_resume _, _, CLOSED => true
  | CMain _ _, _, _ => segment_edge a b
  | _, _, _ => false
  end.
(** The block that an operation is for. *)
Definition acts_on (c : call) (i : nat) : bool :=
  match c with
  | CMain _ _ | COpen => true
  | CClose k | CBind k _ | CListen k | CConnect k _ _ | CAccept k _ | CReceive k _ | CTransmit k _ => (i =? Z.to_nat k)%nat
  | CClose_resume k | CAccept_resume k _ | CReceive_resume k _ => (i =? k)%nat
  end.

(** ** Runs *)

(** No operation makes a block that waits for a SYN of its own or closes at the same time as its
    peer, and a block that is not open is closed. *)
Definition good (w : view) : Prop := v_state w <> SYN_SENT /\ v_state w <> CLOSING /\ (v_started w = false -> v_state w = CLOSED).
Definition all_good (v : cview) : Prop := Forall good (c_blocks v).
(** At most one block changes, along an edge. *)
Definition allowed (c : call) (v v' : cview) : Prop :=
  v' = v \/ exists i w w', c_blocks v !! i = Some w /\ acts_on c i = true /\ edge c (v_state w) (v_state w') = true /\ good w' /\
    v' = CView (c_size v) (<[i := w']> (c_blocks v)).

Lemma allowed_good c v v' : all_good v -> allowed c v v' -> all_good v'.
Proof. intros Hg [->|(i & w & w' & _ & _ & _ & Hw & ->)]; [done|]. by apply Forall_insert. Qed.
Lemma allowed_at c i h w v : c_blocks v !! i = Some w -> acts_on c i = true -> edge c (v_state w) (v_state (h w)) = true -> good (h w) ->
  allowed c v (at_block i h v).
Proof. intros Hi Ha He Hw. right. exists i, w, (h w). unfold at_block. by rewrite (alter_as_insert _ _ _ w). Qed.
Lemma at_none i h v : c_blocks v !! i = None -> at_block i h v = v.
Proof.
  intros Hi. destruct v as [n l]. unfold at_block. cbn in *. f_equal. apply list_eq. intros j.
  destruct (decide (i = j)) as [<-|Hne]; [by rewrite list_lookup_alter_eq, Hi|by rewrite list_lookup_alter_ne].
Qed.
Lemma edge_refl c a : edge c a a = true.
Proof. unfold edge. by rewrite bool_decide_eq_true_2. Qed.

(** ** Every operation *)

Lemma demux_found l k dev f aF aL j rF rL : demux l k dev f aF aL = (Some j, rF, rL) ->
  (k <= j)%nat /\ exists b, l !! (j - k)%nat = Some b /\ Started b = true.
Proof.
  revert k aF aL. induction l as [|b l IH]; intros k aF aL; cbn [demux]; [done|].
  assert (Hrec : forall aF aL, demux l (k + 1) dev f aF aL = (Some j, rF, rL) ->
    (k <= j)%nat /\ exists b', (b :: l) !! (j - k)%nat = Some b' /\ Started b' = true).
  { intros aF' aL' E. destruct (IH _ _ _ E) as (Hk & b' & Hb' & Hs). split; [lia|]. exists b'. split; [|done].
    by replace (j - k)%nat with (S (j - (k + 1))) by lia. }
  destruct (Started b) eqn:Es; cbn [negb]; [|apply Hrec].
  case_match; [|apply Hrec]. case_match; [|apply Hrec]. intros [= <- _ _]. split; [done|]. exists b. by replace (k - k)%nat with 0%nat by lia.
Qed.
(** The free block and the listening one, when no connection was found. *)
Definition spot (P : tcb -> Prop) (l : list tcb) (k : nat) (before : option nat) (j : nat) : Prop :=
  before = Some j \/ (k <= j)%nat /\ exists b, l !! (j - k)%nat = Some b /\ P b.
Lemma spot_cons (P : tcb -> Prop) b l k before j : spot P l (k + 1) before j -> spot P (b :: l) k before j.
Proof.
  intros [Hb|(Hk & b' & Hb' & HP)]; [by left|right]. split; [lia|]. exists b'. split; [|done].
  by replace (j - k)%nat with (S (j - (k + 1))) by lia.
Qed.
Lemma spot_here (P : tcb -> Prop) b l k before j : P b ->
  spot P l (k + 1) (match before with Some _ => before | None => Some k end) j -> spot P (b :: l) k before j.
Proof.
  intros HP [Hb|Hr]; [|by apply spot_cons; right]. destruct before as [x|]; [by left|]. injection Hb as <-. right. split; [done|].
  exists b. by replace (k - k)%nat with 0%nat by lia.
Qed.
Lemma demux_new l k dev f aF aL jF jL : demux l k dev f aF aL = (None, Some jF, Some jL) ->
  spot (fun b => Started b = false) l k aF jF /\
  spot (fun b => Started b = true /\ State b = LISTEN /\ GetSourcePort (TFrame b) = GetDestinationPort f) l k aL jL.
Proof.
  revert k aF aL. induction l as [|b l IH]; intros k aF aL; cbn [demux]; [intros [= -> ->]; by split; left|].
  destruct (Started b) eqn:Es; cbn [negb].
  - destruct (_ && _)%bool eqn:Em; [case_match; [done|]|]; intros E; apply IH in E as [E1 E2]; (split; [by apply spot_cons|]); [|by apply spot_cons].
    destruct (decide (State b = LISTEN)); [|apply spot_cons; by destruct aL]. apply spot_here; [|done].
    apply andb_true_iff in Em as [_ Em]. by apply Z.eqb_eq in Em.
  - intros E. apply IH in E as [E1 E2]. split; [by apply spot_here|by apply spot_cons].
Qed.

Lemma view_at s i b : elems (TCBTable s) !! i = Some b -> c_blocks (cview_of s) !! i = Some (view_of b).
Proof. intros Hb. cbn. by rewrite list_lookup_fmap, Hb. Qed.
Lemma live_block s i b : live (TCBTable s) !! i = Some b -> elems (TCBTable s) !! i = Some b.
Proof. intros Hb. by apply lookup_take_Some in Hb as [Hb _]. Qed.
Lemma good_at s i b : all_good (cview_of s) -> elems (TCBTable s) !! i = Some b -> good (view_of b).
Proof. intros Hg Hb. apply view_at in Hb. unfold all_good in Hg. rewrite Forall_lookup in Hg. by apply (Hg i). Qed.
Lemma keeps_find_item {A} (p : A -> bool) a : keeps (find_item p a).
Proof.
  apply view_keeps_bind; [|intros k; apply keeps_ret]. generalize (csize a) at 1 as fuel. generalize 0%nat as k.
  intros k fuel. revert k. induction fuel as [|fuel IH]; intros k; cbn [find_if]; repeat keeps_step; apply IH.
Qed.
#[export] Hint Resolve keeps_find_item : keeps.

Section operations.
Context `{Fresh} `{Peers}.
Definition after {A} (m : TK A) (s : tcps) : tcps := final (m s).2.
Definition perform (c : call) (s : tcps) : tcps :=
  match c with
  | CMain dev f => after (Main dev f) s
  | COpen => after Open s
  | CClose k => after (Close k) s
  | CClose_resume i => after (Close_resume i) s
  | CBind k p => after (Bind k p) s
  | CListen k => after (Listen k) s
  | CConnect k a p => after (Connect k a p) s
  | CAccept k ptr => after (Accept k ptr) s
  | CAccept_resume i ptr => after (Accept_resume i ptr) s
  | CReceive k n => after (Receive k n) s
  | CReceive_resume i n => after (Receive_resume i n) s
  | CTransmit k d => after (Transmit k d) s
  end.

(** The calls that leave the diagram alone. *)
Lemma keeps_Bind k p : keeps (Bind k p).
Proof. unfold Bind, size. repeat keeps_step. Qed.
Lemma keeps_accept_turn i ptr : keeps (accept_turn i ptr).
Proof. unfold accept_turn. repeat keeps_step. Qed.
Lemma keeps_receive_turn i n : keeps (receive_turn i n).
Proof. unfold receive_turn. repeat keeps_step. Qed.
Hint Resolve keeps_accept_turn keeps_receive_turn : keeps.
Lemma keeps_Accept k ptr : keeps (Accept k ptr).
Proof. unfold Accept, size. repeat keeps_step. Qed.
Lemma keeps_Receive k n : keeps (Receive k n).
Proof. unfold Receive, size. repeat keeps_step. Qed.
Lemma keeps_Transmit k d : keeps (Transmit k d).
Proof. unfold Transmit, size. repeat keeps_step. Qed.

Section one.
Context (c : call) (v : cview) (Hg : all_good v).
Notation Ok := (allowed c v).
(** A step of a call that keeps the view; a call that clears a block. *)
Lemma ok_bind {A B} (m : TK A) (f : A -> TK B) s : cview_of s = v -> keeps m ->
  (forall a s1, cview_of s1 = v -> ends (f a) s1 Ok) -> ends (kbind m f) s Ok.
Proof. intros Ev Hm Hf. apply ends_bind; [done|by rewrite Ev; left|]. intros a s1 E. apply Hf. by rewrite E. Qed.
Lemma ok_keeps {A} (m : TK A) s : cview_of s = v -> keeps m -> ends m s Ok.
Proof. intros Ev Hm. apply ends_keeps; [done|by rewrite Ev; left]. Qed.
(** An update of block [i], the rest of the call leaving the view alone. *)
Lemma ok_upd {A} i g h (m : TK A) s b : cview_of s = v -> elems (TCBTable s) !! i = Some b -> (forall b, view_of (g b) = h (view_of b)) ->
  acts_on c i = true -> edge c (State b) (v_state (h (view_of b))) = true -> good (h (view_of b)) -> keeps m ->
  ends (upd i g ;;; m) s Ok.
Proof.
  intros Ev Hb Hh Ha He Hw Hm. apply ends_mod, ends_keeps; [done|]. rewrite (cview_upd i g h) by done. rewrite Ev.
  apply (allowed_at _ _ _ (view_of b)); [rewrite <-Ev; by apply view_at|done..].
Qed.
Lemma ok_block {A} Index (f : tcb -> TK A) s : cview_of s = v ->
  (forall b, elems (TCBTable s) !! Z.to_nat Index = Some b -> good (view_of b) -> ends (f b) s Ok) -> ends (kbind (block Index) f) s Ok.
Proof.
  intros Ev Hf. unfold block. case_match; [unfold ends; cbn; by rewrite Ev; left|]. apply ends_this; [by rewrite Ev; left|]. intros b Hb.
  apply Hf; [done|]. eapply good_at; [by rewrite Ev|done].
Qed.
End one.

Lemma Open_ends s : all_good (cview_of s) -> ends Open s (allowed COpen (cview_of s)).
Proof.
  intros Hg. unfold Open. apply ok_bind; [done|auto with keeps|intros _ sa ?]. apply ok_bind; [done|auto with keeps|intros sg sb ?].
  apply ok_bind; [done|auto with keeps|]. intros [k|] s1 E1; [|apply ok_keeps; [done|keeps_now]].
  destruct (elems (TCBTable s1) !! k) as [b|] eqn:Hb.
  - eapply (ok_upd _ _ _ _ (fun w => View true (v_state w) (v_parent w))); [done|exact Hb|done|done|apply edge_refl| |keeps_now].
    assert (good (view_of b)) as (G1 & G2 & _) by (eapply good_at; [by rewrite E1|done]). by split_and!.
  - apply ends_mod, ends_keeps; [keeps_now|]. rewrite (cview_upd k start (fun w => View true (v_state w) (v_parent w))) by done.
    rewrite at_none, E1; [by left|]. cbn. by rewrite list_lookup_fmap, Hb.
Qed.
Lemma Listen_ends k s : all_good (cview_of s) -> ends (Listen k) s (allowed (CListen k) (cview_of s)).
Proof.
  intros Hg. unfold Listen, size. apply ok_bind; [done|auto with keeps|intros n s1 E1]. case_match; [apply ok_keeps; [done|keeps_now]|].
  apply ok_bind; [done|auto with keeps|intros _ s2 E2]. apply ok_block; [done|done|]. intros b Hb _.
  destruct (Started b) eqn:Es; cbn [negb orb]; [|apply ok_keeps; [done|keeps_now]].
  destruct (decide (State b = CLOSED)) as [Ec|Ec];
    [rewrite bool_decide_eq_true_2 by done|rewrite bool_decide_eq_false_2 by done; apply ok_keeps; [done|keeps_now]].
  cbn [negb orb]. case_match; [apply ok_keeps; [done|keeps_now]|].
  eapply (ok_upd _ _ _ _ (fun w => View (v_started w) LISTEN (v_parent w))); [done|exact Hb|done|apply Nat.eqb_refl|by rewrite Ec| |keeps_now].
  split_and!; [done|done|]. cbn. by rewrite Es.
Qed.
(** [send_fin] and [Clear]. *)
Lemma send_fin_ends k st s b : all_good (cview_of s) -> elems (TCBTable s) !! Z.to_nat k = Some b -> Started b = true ->
  edge (CClose k) (State b) st = true -> st = FIN_WAIT_1 \/ st = LAST_ACK ->
  ends (send_fin (Z.to_nat k) st) s (allowed (CClose k) (cview_of s)).
Proof.
  intros Hg Hb Hs He Hst. unfold send_fin. apply ok_bind; [done|auto with keeps|intros b0 s0 E0].
  apply ok_bind; [done|auto with keeps|intros _ s1 E1].
  destruct (elems (TCBTable s1) !! Z.to_nat k) as [b'|] eqn:Hb'.
  2: { apply view_at in Hb. rewrite <-E1 in Hb. cbn in Hb. by rewrite list_lookup_fmap, Hb' in Hb. }
  assert (Ev : view_of b' = view_of b).
  { apply view_at in Hb, Hb'. rewrite E1 in Hb'. congruence. }
  assert (Es : Started b' = true) by (by injection Ev as -> _ _). assert (Est : State b' = State b) by (by injection Ev).
  eapply (ok_upd _ _ _ _ (fun w => View (v_started w) st (v_parent w))); [done|exact Hb'|done|apply Nat.eqb_refl|by rewrite Est| |keeps_now].
  unfold good. cbn. rewrite Es. by destruct Hst as [->| ->].
Qed.
Lemma Clear_ends {A} c i (m : TK A) s b : elems (TCBTable s) !! i = Some b -> acts_on c i = true -> edge c (State b) CLOSED = true -> keeps m ->
  ends (Clear i ;;; m) s (allowed c (cview_of s)).
Proof. intros Hb Ha He Hm. by eapply (ok_upd _ _ _ _ (fun _ => View false CLOSED None)). Qed.
Lemma Close_ends k s : all_good (cview_of s) -> ends (Close k) s (allowed (CClose k) (cview_of s)).
Proof.
  intros Hg. unfold Close, size. apply ok_bind; [done|auto with keeps|intros n s1 E1]. case_match; [apply ok_keeps; [done|keeps_now]|].
  apply ok_bind; [done|auto with keeps|intros _ s2 E2]. apply ok_block; [done|done|]. intros b Hb (G1 & G2 & _).
  destruct (Started b) eqn:Es; cbn [negb]; [|apply ok_keeps; [done|keeps_now]].
  rewrite <-E2 in *. destruct (State b) eqn:Est; try done;
    try (eapply send_fin_ends; [done|done|done|by rewrite Est|by auto]); (eapply Clear_ends; [exact Hb|apply Nat.eqb_refl|by rewrite Est|keeps_now]).
Qed.
Lemma Close_resume_ends i s : all_good (cview_of s) -> ends (Close_resume i) s (allowed (CClose_resume i) (cview_of s)).
Proof.
  intros Hg. unfold Close_resume. apply ok_bind; [done|auto with keeps|intros _ s1 E1].
  destruct (elems (TCBTable s1) !! i) as [b|] eqn:Hb.
  - rewrite <-E1. eapply Clear_ends; [exact Hb|apply Nat.eqb_refl|by destruct (State b)|keeps_now].
  - apply ends_mod, ends_keeps; [keeps_now|]. rewrite (cview_upd i _ (fun _ => View false CLOSED None)) by done.
    rewrite at_none, E1; [by left|]. cbn. by rewrite list_lookup_fmap, Hb.
Qed.
(** A segment for a block that is open. *)
Lemma allowed_result dev f i v v' w : all_good v -> c_blocks v !! i = Some w -> v_started w = true -> result_of i (v_state w) v v' ->
  allowed (CMain dev f) v v'.
Proof.
  intros Hg Hi Hs Ho. assert (good w) as (G1 & G2 & _) by (unfold all_good in Hg; rewrite Forall_lookup in Hg; by apply (Hg i)).
  destruct Ho as [st' He|El].
  - eapply allowed_at; [exact Hi|done|cbn; by destruct (v_state w), st'|].
    unfold good. cbn. rewrite Hs. destruct (v_state w), st'; done.
  - eapply allowed_at; [exact Hi|done|by rewrite El|done].
Qed.
(** The new block is a copy of the listening one in its state. *)
Lemma Fork_view k p dev f s b : elems (TCBTable s) !! p = Some b ->
  exists s', Fork k p dev f s = ([], Ret tt s') /\ cview_of s' = at_block k (fun _ => View true (State b) (Some p)) (cview_of s).
Proof.
  intros Hb. unfold Fork. rewrite (kbind_pure _ _ _ b s) by (unfold this, item, kbind; cbn; by rewrite Hb). eexists. split; [done|].
  erewrite (cview_upd k (set_parent (Some p)) (fun w => View (v_started w) (v_state w) (Some p))) by done.
  erewrite (cview_upd k (fun b => set_window (Window b) DefWindowSize b) (fun w => w)) by done.
  erewrite (cview_upd k _ (fun w => w)) by done.
  erewrite (cview_upd k (set_State (State b)) (fun w => View (v_started w) (State b) (v_parent w))) by done.
  erewrite (cview_upd k start (fun w => View true (v_state w) (v_parent w))) by done.
  unfold at_block. cbn. by rewrite !alter_alter.
Qed.
(** A block that was forked a moment ago, after the SYN that it was forked for. *)
Lemma fork_result dev f k p v v' w : all_good v -> c_blocks v !! k = Some w -> v_started w = false ->
  result_of k LISTEN (at_block k (fun _ => View true LISTEN (Some p)) v) v' -> allowed (CMain dev f) v v'.
Proof.
  intros Hg Hi Hs Ho. assert (good w) as (_ & _ & G3) by (unfold all_good in Hg; rewrite Forall_lookup in Hg; by apply (Hg k)).
  specialize (G3 Hs). inversion Ho as [st' He|El]; [|done]. unfold moved, at_block. cbn. rewrite alter_alter. cbn.
  apply (allowed_at _ k (fun _ => View true st' (Some p)) w); [done|done|rewrite G3; by destruct st'|]. unfold good. by destruct st'.
Qed.
(** The two ways of a segment: to the block of its connection, or to a new block. *)
Lemma Main_known dev f k s b : all_good (cview_of s) -> elems (TCBTable s) !! k = Some b -> Started b = true ->
  ends (BlockMain k f) s (allowed (CMain dev f) (cview_of s)).
Proof.
  intros Hg Hb Hs. eapply ends_mono; [by eapply BlockMain_ends|]. intros v.
  apply (allowed_result _ _ k _ _ (view_of b)); [done|by apply view_at|done].
Qed.
Lemma Main_forks dev f k p s b q : all_good (cview_of s) -> elems (TCBTable s) !! k = Some b -> Started b = false ->
  elems (TCBTable s) !! p = Some q -> State q = LISTEN ->
  exists s', Fork k p dev f s = ([], Ret tt s') /\ ends (BlockMain k f) s' (allowed (CMain dev f) (cview_of s)).
Proof.
  intros Hg Hb Hs Hq Hl. destruct (Fork_view k p dev f s q Hq) as (s2 & EF & Ev). exists s2. split; [done|]. rewrite Hl in Ev.
  apply view_at in Hb. assert (Hk : c_blocks (cview_of s2) !! k = Some (View true LISTEN (Some p)))
    by (rewrite Ev; cbn [at_block c_blocks]; by rewrite list_lookup_alter_eq, Hb).
  cbn in Hk. rewrite list_lookup_fmap in Hk. destruct (elems (TCBTable s2) !! k) as [b2|] eqn:Hb2; [|done]. injection Hk as _ Hst _.
  eapply ends_mono; [by apply (BlockMain_ends k _ f s2 b2 Ev)|]. intros v. rewrite Hst. by apply (fork_result _ _ _ _ _ _ (view_of b)).
Qed.
Lemma Main_ends dev f s : all_good (cview_of s) -> ends (Main dev f) s (allowed (CMain dev f) (cview_of s)).
Proof.
  intros Hg. unfold Main. apply ok_bind; [done|auto with keeps|intros _ s1 E1]. rewrite <-E1 in *.
  assert (Hrel : forall A (m : TK A) x, ends m x (allowed (CMain dev f) (cview_of s1)) ->
    ends (m ;;; release tcp_lk) x (allowed (CMain dev f) (cview_of s1))).
  { intros A m x Hm. eapply ends_seq; [exact Hm|done|]. intros a s2 H2. apply ends_keeps; [auto with keeps|done]. }
  eapply ends_pure; [done|].
  destruct (demux (live (TCBTable s1)) 0 dev f None None) as [[[k|] [kF|]] [p|]] eqn:Ed; try (apply ok_keeps; [done|keeps_now]).
  1-4: apply demux_found in Ed as (_ & b & Hb & Hs); rewrite Nat.sub_0_r in Hb; apply live_block in Hb; apply Hrel; by eapply Main_known.
  case_match; [|apply ok_keeps; [done|keeps_now]].
  apply demux_new in Ed as [[?|(_ & b & Hb & Hs)] [?|(_ & q & Hq & _ & Hl & _)]]; try done. rewrite Nat.sub_0_r in Hb, Hq. apply live_block in Hb, Hq.
  destruct (Main_forks dev f kF p s1 b q Hg Hb Hs Hq Hl) as (s2 & EF & Hend). eapply ends_pure; [exact EF|]. by apply Hrel.
Qed.
Lemma perform_allowed c s : all_good (cview_of s) -> allowed c (cview_of s) (cview_of (perform c s)).
Proof.
  intros Hg. destruct c; cbn [perform].
  - by apply Main_ends.
  - by apply Open_ends.
  - by apply Close_ends.
  - by apply Close_resume_ends.
  - apply ok_keeps; [done|apply keeps_Bind].
  - by apply Listen_ends.
  - by left.
  - apply ok_keeps; [done|apply keeps_Accept].
  - apply ok_keeps; [done|unfold Accept_resume; apply view_keeps_bind; [auto with keeps|intros _; apply keeps_accept_turn]].
  - apply ok_keeps; [done|apply keeps_Receive].
  - apply ok_keeps; [done|unfold Receive_resume; apply view_keeps_bind; [auto with keeps|intros _; apply keeps_receive_turn]].
  - apply ok_keeps; [done|apply keeps_Transmit].
Qed.

(** From the start of the protocol on. *)
Definition registered (n : netif) : tcps := Register (Tcps n false (AList (replicate TCBTableSize TCB) 0)).
Definition run (cs : list call) (s : tcps) : tcps := foldl (fun s c => perform c s) s cs.
Lemma run_good cs s : all_good (cview_of s) -> all_good (cview_of (run cs s)).
Proof.
  revert s. induction cs as [|c cs IH]; intros s Hg; [done|]. apply IH. eapply allowed_good; [exact Hg|by apply perform_allowed].
Qed.
Lemma registered_good n : all_good (cview_of (registered n)).
Proof. unfold all_good. cbn -[page]. repeat constructor; done. Qed.

End operations.

(** A client of the neighbour of [demo_known] connects to port 80, and the server closes. *)
Definition demo_seg (flags seqn ackn : Z) : frame :=
  let f := SetSourceAddress 33685514 (SetDestinationAddress 251766976 (SetDestinationPort 80 (SetSourcePort 5000 TCP))) in
  let f := SetTotalLength 40 (SetFlags flags (SetSequenceNumber seqn (SetAcknowledgementNumber ackn f))) in
  SetTotalLength 40 (SetChecksum (VerifyChecksum true f) f).
Definition demo_open : list call := [COpen; CBind 0 80; CListen 0; CAccept 0 true; CMain 0 (demo_seg SYN 100 0)].
(** The acknowledgement of the number that the machine chose. *)
Definition demo_isn : Z := match elems (TCBTable (run demo_open (registered demo_known))) !! 1%nat with Some b => SNext b | None => 0 end.
Definition demo_calls : list call := demo_open ++ [CMain 0 (demo_seg ACK 101 demo_isn); CAccept_resume 0 true].
Definition states (s : tcps) : list tcb_state := take 3 (v_state <$> c_blocks (cview_of s)).

