(* ===== verification/TcpConn.v ===== *)
(** * Connections: the handshake of a server and the stream of bytes of include/UProtocols4.tcc

    [tcp_handshake] takes a SYN through [TCP::Main] to the block that [Accept] returns, and
    [tcp_stream] shows that from then on the segments that arrive and the calls of [Receive] act as
    a queue of bytes, whatever their order. *)

From stdpp Require Import base list.
From Stdlib Require Import ZArith Lia.
From S2P Require Import Prelude Spinlock CString Bytes ArrayList Frame Checksum Random Ipv4 Net Arp IpSend Udp UdpSend Tcp TcpSend TcpState.
Open Scope Z_scope.

(** ** The block of a connection *)

(** The connection that a segment belongs to, from the side of the machine. *)
Definition peer_from (f : frame) : peer := Peer (GetSourceAddress f) (GetDestinationPort f) (GetSourcePort f).
#[export] Instance peer_eq_dec : EqDecision peer.
Proof. solve_decision. Defined.

(** What [TCP::Main] reads of a block to find it, and the test for a connection. *)
Definition key (b : tcb) : bool * option nat * peer := (Started b, Iface b, peer_of (TFrame b)).
Definition matches (dev : nat) (p : peer) (k : bool * option nat * peer) : bool :=
  let '(st, ifc, q) := k in st && (bool_decide (ifc = None) || bool_decide (ifc = Some dev)) && bool_decide (q = p).
Definition connection (dev : nat) (p : peer) (s : tcps) : option nat :=
  first_at (fun b => matches dev p (key b)) (live (TCBTable s)).

Lemma matches_test dev f b : matches dev (peer_from f) (key b) =
  (Started b && (((bool_decide (Iface b = None) || bool_decide (Iface b = Some dev)) && (GetSourcePort (TFrame b) =? GetDestinationPort f)) &&
   ((GetDestinationAddress (TFrame b) =? GetSourceAddress f) && (GetDestinationPort (TFrame b) =? GetSourcePort f))))%bool.
Proof.
  unfold matches, key. destruct (Started b); [|done]. cbn [andb].
  assert (E : bool_decide (peer_of (TFrame b) = peer_from f) =
    ((GetSourcePort (TFrame b) =? GetDestinationPort f) && ((GetDestinationAddress (TFrame b) =? GetSourceAddress f) &&
     (GetDestinationPort (TFrame b) =? GetSourcePort f)))%bool).
  { unfold peer_of, peer_from. apply eq_true_iff_eq. rewrite bool_decide_eq_true, !andb_true_iff, !Z.eqb_eq. split; [by intros [= -> -> ->]|].
    intros (-> & -> & ->). done. }
  rewrite E. by rewrite <-andb_assoc.
Qed.
Lemma demux_first l k dev f aF aL :
  (demux l k dev f aF aL).1.1 = (fun j => (k + j)%nat) <$> first_at (fun b => matches dev (peer_from f) (key b)) l.
Proof.
  revert k aF aL. induction l as [|b l IH]; intros k aF aL; [done|]. cbn [demux first_at]. rewrite matches_test.
  assert (Hs : forall o : option nat, (fun j => (k + 1 + j)%nat) <$> o = (fun j => (k + j)%nat) <$> (S <$> o)).
  { intros [j|]; [|done]. cbn. f_equal. lia. }
  destruct (Started b); cbn [negb andb]; [|by rewrite IH].
  destruct (_ && _)%bool; cbn [andb]; [|by rewrite IH]. destruct (_ && _)%bool; [|by rewrite IH]. cbn. f_equal. lia.
Qed.
Lemma connection_demux dev f s i : connection dev (peer_from f) s = Some i ->
  exists aF aL, demux (live (TCBTable s)) 0 dev f None None = (Some i, aF, aL).
Proof.
  unfold connection. intros E. pose proof (demux_first (live (TCBTable s)) 0 dev f None None) as Hd. rewrite E in Hd.
  destruct (demux _ _ _ _ _ _) as [[r aF] aL]. cbn in Hd. subst. by eexists _, _.
Qed.
(** Only the keys count. *)
Lemma connection_keys dev p s s' : csize (TCBTable s') = csize (TCBTable s) -> key <$> elems (TCBTable s') = key <$> elems (TCBTable s) ->
  connection dev p s' = connection dev p s.
Proof.
  intros Hc Hk. unfold connection, live. by rewrite <-!(first_at_map key (matches dev p)), !fmap_take, Hc, Hk.
Qed.
Lemma keys_alter g i (l : list tcb) : (forall b, l !! i = Some b -> key (g b) = key b) -> key <$> alter g i l = key <$> l.
Proof.
  intros Hg. apply list_eq. intros j. rewrite !list_lookup_fmap. destruct (decide (i = j)) as [<-|Hne]; [|by rewrite list_lookup_alter_ne].
  rewrite list_lookup_alter_eq. destruct (l !! i) as [b|] eqn:Hb; [|done]. cbn. f_equal. by apply Hg.
Qed.

(** ** Blocks in the table *)

Definition put (i : nat) (b : tcb) (s : tcps) : tcps := set_TCBTable (AList (<[i := b]> (elems (TCBTable s))) (csize (TCBTable s))) s.
Notation at_ i s b := (elems (TCBTable s) !! i = Some b).

Section blocks.
Context (i : nat) (b : tcb) (s : tcps) (Hb : at_ i s b).
Lemma this_run : this i s = ([], Ret b s).
Proof. unfold this, item, kbind. cbn. by rewrite Hb. Qed.
Lemma upd_run g : upd i g s = ([], Ret tt (put i (g b) s)).
Proof. unfold upd, kmod, put. by rewrite (alter_as_insert _ _ _ b). Qed.
Lemma put_at b' : at_ i (put i b' s) b'.
Proof. apply list_lookup_insert_eq. by eapply lookup_lt_Some. Qed.
Lemma block_put_put b1 b2 : put i b2 (put i b1 s) = put i b2 s.
Proof. unfold put, set_TCBTable. cbn. by rewrite list_insert_insert_eq. Qed.
Lemma put_here : put i b s = s.
Proof. unfold put. rewrite list_insert_id by done. by destruct s as [n l []]. Qed.
Lemma block_put_other b' j : i <> j -> elems (TCBTable (put i b' s)) !! j = elems (TCBTable s) !! j.
Proof. intros Hne. by apply list_lookup_insert_ne. Qed.
Lemma put_keys dev p b' : key b' = key b -> connection dev p (put i b' s) = connection dev p s.
Proof.
  intros Hk. apply connection_keys; [done|]. cbn. rewrite list_fmap_insert, Hk. apply list_insert_id. by rewrite list_lookup_fmap, Hb.
Qed.
End blocks.

(** ** The stream *)

Section stream.
Context `{Fresh} `{Peers}.
Context (i dev : nat) (me : AdapterIPAddressItem) (mac : list Z) (x : ARPTableItem) (p : peer) (snd : Z).

(** An established block: [buf] waits in its page, and [nxt] is the next number it takes. *)
Record stream (b : tcb) (buf : list Z) (nxt : Z) : Prop := {
  st_state : State b = ESTABLISHED;
  st_idle : idle (TFrame b);
  st_small : FrameSize (TFrame b) <= 1400;
  st_peer : peer_of (TFrame b) = p;
  st_iface : Iface b = Some dev;
  st_next : RNext b = nxt;
  st_send : SNext b = snd;
  st_window : RWindow b = DefWindowSize - Z.of_nat (length buf);
  st_fits : Z.of_nat (length buf) <= DefWindowSize;
  st_page : length (Window b) = Z.to_nat 4096;
  st_bytes : take (length buf) (Window b) = buf;
}.
Record conn (b : tcb) (buf : list Z) (nxt : Z) (s : tcps) : Prop := {
  cn_stream : stream b buf nxt;
  cn_at : at_ i s b;
  cn_found : connection dev p s = Some i;
  cn_reach : reach (tnet s) (p_address p) dev me mac x;
}.

Lemma conn_put b buf nxt s b' buf' nxt' n : conn b buf nxt s -> stream b' buf' nxt' -> Started b' = Started b ->
  reach n (p_address p) dev me mac x -> conn b' buf' nxt' (set_tnet n (put i b' s)).
Proof.
  intros [H1 H2 H3 H4] Hs Hst Hr. split; [done|by eapply put_at| |done]. rewrite <-H3. apply (put_keys i b); [done|].
  unfold key. by rewrite Hst, (st_iface _ _ _ H1), (st_peer _ _ _ H1), (st_iface _ _ _ Hs), (st_peer _ _ _ Hs).
Qed.
Lemma conn_lock b buf nxt s l : conn b buf nxt s -> conn b buf nxt (set_TCPLock l s).
Proof. by intros [H1 H2 H3 H4]. Qed.

(** A block whose send variables or frame change is the same stream. *)
Lemma stream_send b buf nxt una iss : stream b buf nxt -> stream (set_send una (SNext b) iss b) buf nxt.
Proof. by intros []. Qed.
Lemma stream_sender b buf nxt g : stream b buf nxt -> idle g -> peer_of g = peer_of (TFrame b) -> FrameSize g <= 82 ->
  stream (set_sender (Some dev) g b) buf nxt.
Proof. intros [] Hi Hp Hs. split; try done; [cbn; lia|cbn; congruence]. Qed.

(** The page after more bytes, and after some were taken. *)
Lemma page_more w buf D : (length buf + length D <= length w)%nat -> take (length buf) w = buf ->
  take (length (buf ++ D)) (splice w (length buf) D) = buf ++ D.
Proof.
  intros Hl Hb. unfold splice. rewrite Hb, app_assoc, take_app_length; done.
Qed.
Lemma page_less w buf n : (n <= length buf)%nat -> (length buf <= length w)%nat -> take (length buf) w = buf ->
  take (length (drop n buf)) (splice w 0 (slice w n (length buf - n))) = drop n buf.
Proof.
  intros Hn Hl Hb. assert (E : slice w n (length buf - n) = drop n buf).
  { unfold slice. rewrite <-Hb at 2. rewrite skipn_firstn_comm. done. }
  rewrite E. unfold splice. change (take 0 w) with (@nil Z). rewrite app_nil_l. by rewrite take_app_length.
Qed.

(** ** Segments of the connection *)

(** The data of a segment, for segments that hold what their length fields say. *)
Record holds_data (f : frame) (D : list Z) : Prop := {
  hd_data : GetData 0 (DataSize f) f = Some D;
  hd_size : DataSize f = Z.of_nat (length D);
}.

Lemma sending_put s h g b : at_ i s b ->
  sending s i dev h g = set_tnet (set_sent ((dev, h) :: sent (tnet s)) (tnet s)) (put i (set_sender (Some dev) g b) s).
Proof. intros Hb. unfold sending, put, set_tnet. cbn. by rewrite (alter_as_insert _ _ _ b). Qed.

(** The data are stored and acknowledged, and the reader is woken. *)
Lemma StoreData_run b buf nxt s f D : conn b buf nxt s -> holds_data f D -> GetSequenceNumber f = nxt ->
  Z.of_nat (length buf + length D) <= DefWindowSize ->
  exists h b' s', StoreData i f s = ([Wakeup (ChTcp i)], Ret tt s') /\ conn b' (buf ++ D) (u32 (nxt + Z.of_nat (length D))) s' /\
    TCPLock s' = TCPLock s /\ tnet s' = set_sent ((dev, h) :: sent (tnet s)) (tnet s) /\
    control_segment (TFrame b) h snd (nxt + Z.of_nat (length D)) ACK (DefWindowSize - Z.of_nat (length (buf ++ D))) (IPAddress me) (MACAddress x).
Proof.
  intros Hc [HD Hd] Hn Hfit. pose proof (cn_at _ _ _ _ Hc) as Hb. pose proof (cn_stream _ _ _ _ Hc) as Hs.
  unfold StoreData. rewrite (kbind_pure _ _ _ b s) by (by apply this_run). cbv zeta. rewrite HD, Hd, Hn, (st_window _ _ _ Hs).
  replace (DefWindowSize - (DefWindowSize - Z.of_nat (length buf))) with (Z.of_nat (length buf)) by lia.
  replace (Z.of_nat (length buf) <? 0) with false by (symmetry; apply Z.ltb_ge; lia).
  replace (4096 <? Z.of_nat (length buf) + Z.of_nat (length D)) with false by (symmetry; apply Z.ltb_ge; unfold DefWindowSize in *; lia).
  rewrite orb_false_r, andb_false_r. rewrite Nat2Z.id.
  erewrite kbind_pure; [|by apply (upd_run i b)].
  cbv beta. match goal with |- context [put i ?y s] => set (b1 := y) end. assert (S1 : stream b1 (buf ++ D) (u32 (nxt + Z.of_nat (length D)))).
  { destruct Hs. split; try done; subst b1; cbn.
    - rewrite length_app, st_window0. unfold u16, DefWindowSize in *. rewrite Z.mod_small by lia. lia.
    - rewrite length_app. lia.
    - rewrite length_splice; [done|]. unfold DefWindowSize in *. lia.
    - apply page_more; [|done]. unfold DefWindowSize in *. lia. }
  pose proof (conn_put _ _ _ _ _ _ _ (tnet s) Hc S1 eq_refl (cn_reach _ _ _ _ Hc)) as C1.
  change (set_tnet (tnet s) (put i b1 s)) with (put i b1 s) in C1. pose proof (cn_at _ _ _ _ C1) as B1.
  destruct (SendControl_run i b1 (SNext b) (u32 (nxt + Z.of_nat (length D))) ACK (put i b1 s) dev me mac x) as (r & h & g & ES & Hh & Ig & Pg & Sg).
  { exact B1. } { apply Hs. } { apply Hs. } { replace (GetDestinationAddress (TFrame b1)) with (p_address p); [apply C1|]. by rewrite <-(st_peer _ _ _ S1). }
  erewrite kbind_pure; [|exact ES]. rewrite (sending_put _ _ _ b1) by done.
  exists h, (set_sender (Some dev) g b1). eexists. split; [reflexivity|]. split_and!.
  - eapply conn_put; [exact C1|by apply stream_sender|done|apply reach_sent, C1].
  - done.
  - done.
  - rewrite (st_send _ _ _ Hs) in Hh. destruct Hh as [A1 A2 A3 A4 A5 A6 A7 A8 A9 A10]. split; try done.
    + rewrite A7. unfold u32. by rewrite Z.mod_mod.
    + rewrite A9. by rewrite (st_window _ _ _ S1).
Qed.

(** An acknowledgement of anything sent so far. *)
Lemma DoClosing_run b buf nxt s f : conn b buf nxt s -> GetAcknowledgementNumber f <= snd ->
  exists b', DoClosing i f s = ([], Ret false (put i b' s)) /\ stream b' buf nxt /\ Started b' = Started b /\ TFrame b' = TFrame b.
Proof.
  intros Hc Ha. pose proof (cn_at _ _ _ _ Hc) as Hb. pose proof (cn_stream _ _ _ _ Hc) as Hs.
  unfold DoClosing. rewrite (kbind_pure _ _ _ b s) by (by apply this_run). cbv zeta. rewrite (st_state _ _ _ Hs).
  case_match.
  - exists (set_send (GetAcknowledgementNumber f) (SNext b) (InitialSend b) b). split; [|split; [by apply stream_send|done]].
    erewrite kbind_pure; [|erewrite kbind_pure; [|by apply (upd_run i b)]; reflexivity]. done.
  - replace (SNext b <? GetAcknowledgementNumber f) with false by (symmetry; apply Z.ltb_ge; rewrite (st_send _ _ _ Hs); lia).
    exists b. split; [|done]. by rewrite (put_here i b).
Qed.

(** Whether the bytes of a segment are taken. *)
Definition takes (f : frame) (nxt : Z) : bool :=
  (GetSequenceNumber f =? nxt) && negb (has (GetFlags f) (Z.lor RST SYN)) && has (GetFlags f) ACK && has (GetFlags f) PSH && negb (DataSize f =? 0).

Lemma BlockMain_run b buf nxt s f D : conn b buf nxt s -> holds_data f D -> has (GetFlags f) FIN = false -> GetAcknowledgementNumber f <= snd ->
  (takes f nxt = true -> Z.of_nat (length buf + length D) <= DefWindowSize) ->
  if takes f nxt
  then exists h b' s', BlockMain i f s = ([Wakeup (ChTcp i)], Ret tt s') /\ conn b' (buf ++ D) (u32 (nxt + Z.of_nat (length D))) s' /\
    TCPLock s' = TCPLock s /\ tnet s' = set_sent ((dev, h) :: sent (tnet s)) (tnet s) /\
    control_segment (TFrame b) h snd (nxt + Z.of_nat (length D)) ACK (DefWindowSize - Z.of_nat (length (buf ++ D))) (IPAddress me) (MACAddress x)
  else exists b', BlockMain i f s = ([], Ret tt (put i b' s)) /\ conn b' buf nxt (put i b' s).
Proof.
  intros Hc HD HF Ha Hw. pose proof (cn_at _ _ _ _ Hc) as Hb. pose proof (cn_stream _ _ _ _ Hc) as Hs.
  unfold takes, BlockMain in *. rewrite (kbind_pure _ _ _ b s) by (by apply this_run). rewrite (st_state _ _ _ Hs), (st_next _ _ _ Hs).
  assert (Hsame : exists b', @kret tcps _ tt s = ([], Ret tt (put i b' s)) /\ conn b' buf nxt (put i b' s)) by (exists b; by rewrite (put_here i b)).
  destruct (GetSequenceNumber f =? nxt) eqn:En; cbn [negb andb] in *; [|done].
  destruct (has (GetFlags f) (Z.lor RST SYN)); cbn [negb andb] in *; [done|].
  destruct (has (GetFlags f) ACK); cbn [negb andb] in *; [|done].
  rewrite decide_False by done. rewrite kbind_ret_l.
  destruct (DoClosing_run b buf nxt s f Hc Ha) as (b1 & EC & S1 & Hst & Hf). rewrite (kbind_pure _ _ _ _ _ EC). cbv iota.
  pose proof (conn_put _ _ _ _ _ _ _ (tnet s) Hc S1 Hst (cn_reach _ _ _ _ Hc)) as C1. change (set_tnet (tnet s) (put i b1 s)) with (put i b1 s) in C1.
  unfold text_and_fin. rewrite HF. destruct (has (GetFlags f) PSH && negb (DataSize f =? 0))%bool eqn:Ep.
  - specialize (Hw eq_refl). apply Z.eqb_eq in En.
    destruct (StoreData_run b1 buf nxt _ f D C1 HD En Hw) as (h & b2 & s2 & ES & C2 & L2 & N2 & Hh).
    exists h, b2, s2. split; [|rewrite Hf in Hh; done].
    rewrite (kbind_run _ _ _ [Wakeup (ChTcp i)] tt s2 [] (Ret tt s2)); [done| |done].
    rewrite (kbind_pure _ _ _ b1 (put i b1 s)) by (by apply this_run, (cn_at _ _ _ _ C1)).
    unfold IsReadyForReception. by rewrite (st_state _ _ _ S1).
  - exists b1. by split.
Qed.

(** [TCP::Main] finds the block. *)
Lemma Main_to f s : TCPLock s = false -> connection dev (peer_from f) s = Some i ->
  Main dev f s = (BlockMain i f ;;; release tcp_lk) (set_TCPLock true s).
Proof.
  intros Hl Hf. unfold Main. rewrite (kbind_pure _ _ _ tt (set_TCPLock true s)) by (by apply (acquire_run tcp_lk)).
  kstep. destruct (connection_demux dev f s i Hf) as (aF & aL & E). cbn [TCBTable set_TCPLock]. by rewrite E.
Qed.

(** ** A queue of bytes *)

Inductive sop :=
| Seg (f : frame)                          (* TCP::Main *)
| Recv (Size : Z)                          (* Receive *)
| Wake (Size : Z).                         (* a Receive that was woken *)
(** The segments that the machine answers with, as its peer sees them. *)
Record answer := Answer { an_dev : nat; an_valid : bool; an_peer : peer; an_seq : Z; an_ack : Z; an_flags : Z; an_window : Z; an_size : Z }.
Definition answer_of (m : nat * frame) : answer :=
  let h := m.2 in
  Answer m.1 (Ipv4.IsValid h && IsValid h) (peer_of h) (GetSequenceNumber h) (GetAcknowledgementNumber h) (GetFlags h) (GetWindow h) (DataSize h).
Inductive reply :=
| Taken (a : list answer) (woken : bool)
| Got (D : list Z)
| Waits.

(** The acknowledgement of everything before [nxt], with [n] bytes waiting. *)
Definition ack_of (nxt : Z) (n : nat) : answer := Answer dev true p (u32 snd) nxt ACK (DefWindowSize - Z.of_nat n) 0.
Definition data_of (f : frame) : list Z := default [] (GetData 0 (DataSize f) f).
Definition take_bytes (Size : Z) (buf : list Z) : reply * list Z :=
  match buf with [] => (Waits, []) | _ => (Got (take (Z.to_nat Size) buf), drop (Z.to_nat Size) buf) end.
(** A peer that sends more than the window is outside the contract. *)
Definition spec_step (op : sop) (q : list Z * Z) : option (reply * (list Z * Z)) :=
  let '(buf, nxt) := q in
  match op with
  | Seg f =>
      if takes f nxt then
        let buf := buf ++ data_of f in
        let nxt := u32 (nxt + Z.of_nat (length (data_of f))) in
        if DefWindowSize <? Z.of_nat (length buf) then None else Some (Taken [ack_of nxt (length buf)] true, (buf, nxt))
      else Some (Taken [] false, (buf, nxt))
  | Recv Size | Wake Size => let '(r, buf) := take_bytes Size buf in Some (r, (buf, nxt))
  end.
Fixpoint spec_run (ops : list sop) (q : list Z * Z) : option (list reply * (list Z * Z)) :=
  match ops with
  | [] => Some ([], q)
  | op :: ops => '(r, q) ← spec_step op q; '(rs, q) ← spec_run ops q; Some (r :: rs, q)
  end.

(** The operations of the code. *)
Definition got (r : list event * outcome tcps (Z * list Z)) : option (reply * tcps) :=
  match r with
  | ([], Ret (n, D) s) => if n =? Z.of_nat (length D) then Some (Got D, s) else None
  | ([], Stop (Sleeping c) s) => if decide (c = ChTcp i) then Some (Waits, s) else None
  | _ => None
  end.
Definition woke (ev : list event) : option bool :=
  match ev with [] => Some false | [Wakeup c] => if decide (c = ChTcp i) then Some true else None | _ => None end.
Definition sstep (op : sop) (s : tcps) : option (reply * tcps) :=
  match op with
  | Seg f =>
      match Main dev f s with
      | (ev, Ret _ s') =>
          woken ← woke ev;
          Some (Taken (answer_of <$> take (length (sent (tnet s')) - length (sent (tnet s))) (sent (tnet s'))) woken, s')
      | _ => None
      end
  | Recv Size => got (Receive (Z.of_nat i) Size s)
  | Wake Size => got (Receive_resume i Size s)
  end.
Fixpoint srun (ops : list sop) (s : tcps) : option (list reply * tcps) :=
  match ops with
  | [] => Some ([], s)
  | op :: ops => '(r, s) ← sstep op s; '(rs, s) ← srun ops s; Some (r :: rs, s)
  end.
(** What the peer and the caller keep to: segments of this connection that do not end it and
    acknowledge nothing that was not sent, and sizes that are not negative. *)
Definition legal (op : sop) : Prop :=
  match op with
  | Seg f => peer_from f = p /\ holds_data f (data_of f) /\ has (GetFlags f) FIN = false /\ GetAcknowledgementNumber f <= snd
  | Recv Size | Wake Size => 0 <= Size
  end.

Lemma control_answer f h seq ack win ip m : control_segment f h seq ack ACK win ip m -> 0 <= win < 2 ^ 16 ->
  answer_of (dev, h) = Answer dev true (peer_of f) (u32 seq) (u32 ack) ACK win 0.
Proof.
  intros [A1 A2 A3 A4 A5 A6 A7 A8 A9 A10] Hw. unfold answer_of. cbn [fst Datatypes.snd]. rewrite A1, A2, A5, A6, A7, A8, A9, A10.
  unfold u16. by rewrite Z.mod_small.
Qed.
Lemma take_newest {A} (y : A) l : take (length (y :: l) - length l) (y :: l) = [y].
Proof. replace (length (y :: l) - length l)%nat with 1%nat by (cbn; lia). done. Qed.
Lemma Seg_step f b buf nxt s r q : conn b buf nxt s -> TCPLock s = false -> legal (Seg f) -> spec_step (Seg f) (buf, nxt) = Some (r, q) ->
  exists b' s', sstep (Seg f) s = Some (r, s') /\ conn b' q.1 q.2 s' /\ TCPLock s' = false.
Proof.
  intros Hc Hl (Hp & HD & HF & Ha) Hr. cbn [spec_step] in Hr.
  assert (Hw : takes f nxt = true -> Z.of_nat (length buf + length (data_of f)) <= DefWindowSize).
  { intros Ht. rewrite Ht in Hr. rewrite length_app in Hr. destruct (Z.ltb_spec DefWindowSize (Z.of_nat (length buf + length (data_of f)))); [done|lia]. }
  pose proof (BlockMain_run b buf nxt _ f _ (conn_lock _ _ _ _ true Hc) HD HF Ha Hw) as HB. cbn [sstep].
  rewrite (Main_to f s) by (done || rewrite Hp; apply Hc). destruct (takes f nxt) eqn:Ht.
  - destruct HB as (h & b' & s' & EB & C' & L' & N' & Hh). specialize (Hw eq_refl). rewrite length_app in Hr.
    destruct (DefWindowSize <? _); [done|]. injection Hr as <- <-. exists b', (set_TCPLock false s').
    rewrite (kbind_run _ _ _ [Wakeup (ChTcp i)] tt s' [] (Ret tt (set_TCPLock false s')));
      [|done|by apply (release_run tcp_lk); cbn; rewrite L'].
    split_and!; [|by apply conn_lock|done]. cbn [app woke]. rewrite decide_True by done. cbn [mbind option_bind tnet set_TCPLock]. rewrite N'. cbn [sent set_sent].
    rewrite take_newest. cbn [fmap list_fmap]. erewrite control_answer by (first [exact Hh|rewrite length_app; unfold DefWindowSize in *; lia]).
    unfold ack_of. rewrite (st_peer _ _ _ (cn_stream _ _ _ _ Hc)), length_app. done.
  - destruct HB as (b' & EB & C'). injection Hr as <- <-. exists b', (set_TCPLock false (put i b' s)).
    rewrite (kbind_pure _ _ _ _ _ EB), (release_run tcp_lk) by done. split_and!; [|apply (conn_lock _ _ _ _ false C')|done].
    cbn [woke mbind option_bind]. cbn. by rewrite Nat.sub_diag.
Qed.

Lemma turn_step b buf nxt s Size : conn b buf nxt s -> TCPLock s = true -> 0 <= Size ->
  exists b' s', got (receive_turn i Size s) = Some ((take_bytes Size buf).1, s') /\ conn b' (take_bytes Size buf).2 nxt s' /\ TCPLock s' = false.
Proof.
  intros Hc Hl HS. pose proof (cn_at _ _ _ _ Hc) as Hb. pose proof (cn_stream _ _ _ _ Hc) as Hs. pose proof (st_fits _ _ _ Hs) as Hfit.
  unfold receive_turn. rewrite (kbind_pure _ _ _ b s) by (by apply this_run). cbv zeta. rewrite (st_window _ _ _ Hs).
  replace (DefWindowSize - (DefWindowSize - Z.of_nat (length buf))) with (Z.of_nat (length buf)) by lia.
  destruct (Z.eqb_spec (Z.of_nat (length buf)) 0) as [E0|E0].
  - destruct buf; [|done]. unfold IsReadyForReception. rewrite (st_state _ _ _ Hs). cbn [negb]. unfold ksleep. cbn [got].
    rewrite decide_True by done. exists b, (set_TCPLock false s). split_and!; [done|by apply conn_lock|done].
  - set (n := if Size <? Z.of_nat (length buf) then Size else Z.of_nat (length buf)).
    assert (Hn : 0 <= n <= Z.of_nat (length buf) /\ take (Z.to_nat n) buf = take (Z.to_nat Size) buf /\ drop (Z.to_nat n) buf = drop (Z.to_nat Size) buf).
    { unfold n. destruct (Z.ltb_spec Size (Z.of_nat (length buf))); [split; [lia|done]|]. split; [lia|]. rewrite Nat2Z.id.
      rewrite !take_ge, !drop_ge by lia. done. }
    destruct Hn as (Hn & Et & Ed). replace (n <? 0) with false by (symmetry; apply Z.ltb_ge; lia).
    erewrite kbind_pure; [|by apply (upd_run i b)]. cbv beta. match goal with |- context [put i ?y s] => set (b1 := y) end.
    rewrite (kbind_pure _ _ _ tt (set_TCPLock false (put i b1 s))) by (by apply (release_run tcp_lk)).
    assert (Hw : (length buf <= length (Window b))%nat) by (rewrite (st_page _ _ _ Hs); unfold DefWindowSize in *; lia).
    assert (El : slice (Window b) 0 (Z.to_nat n) = take (Z.to_nat Size) buf).
    { unfold slice. rewrite drop_0, <-Et, <-(st_bytes _ _ _ Hs) at 1. rewrite take_take. f_equal. lia. }
    assert (S1 : stream b1 (drop (Z.to_nat n) buf) nxt).
    { destruct Hs. split; try done; subst b1; cbn.
      - rewrite length_drop, st_window0. unfold u16, DefWindowSize in *. rewrite Z.mod_small by lia. lia.
      - rewrite length_drop. lia.
      - rewrite length_splice; [done|]. rewrite length_slice; lia.
      - replace (Z.to_nat (Z.of_nat (length buf) - n)) with (length buf - Z.to_nat n)%nat by lia. apply page_less; [lia|done|done]. }
    exists b1, (set_TCPLock false (put i b1 s)). unfold kret. cbn [got]. rewrite El.
    replace (n =? _) with true by (symmetry; apply Z.eqb_eq; rewrite <-Et, length_take; lia).
    unfold take_bytes. destruct buf as [|y buf]; [done|]. cbn [fst Datatypes.snd]. rewrite <-Ed. split_and!; [done| |done].
    apply conn_lock. apply (conn_put _ _ _ _ _ _ _ (tnet s) Hc S1); [done|apply Hc].
Qed.
Lemma spec_follows op b buf nxt s r q : conn b buf nxt s -> TCPLock s = false -> legal op -> spec_step op (buf, nxt) = Some (r, q) ->
  exists b' s', sstep op s = Some (r, s') /\ conn b' q.1 q.2 s' /\ TCPLock s' = false.
Proof.
  intros Hc Hl Hop Hr. destruct op as [f|Size|Size]; [by eapply Seg_step| |]; cbn [sstep spec_step legal] in *.
  all: destruct (turn_step b buf nxt (set_TCPLock true s) Size) as (b' & s' & E & C' & L'); [by apply conn_lock|done|done|].
  all: destruct (take_bytes Size buf) as [r0 q0]; injection Hr as <- <-; exists b', s'; split_and!; [|done|done].
  - pose proof (cn_at _ _ _ _ Hc) as Hb. unfold Receive, size. kstep.
    assert (Hi : (i < csize (TCBTable s))%nat).
    { destruct (first_at_some _ _ _ (cn_found _ _ _ _ Hc)) as (y & Hy & _). apply lookup_lt_Some in Hy. unfold live in Hy. rewrite length_take in Hy. lia. }
    replace (Z.of_nat (csize (TCBTable s)) <? Z.of_nat i) with false by (symmetry; apply Z.ltb_ge; lia).
    rewrite (kbind_pure _ _ _ tt (set_TCPLock true s)) by (by apply (acquire_run tcp_lk)). unfold block.
    replace (Z.of_nat i <? 0) with false by (symmetry; apply Z.ltb_ge; lia). rewrite Nat2Z.id.
    rewrite (kbind_pure _ _ _ b (set_TCPLock true s)) by (by apply this_run). exact E.
  - unfold Receive_resume. rewrite (kbind_pure _ _ _ tt (set_TCPLock true s)) by (by apply (acquire_run tcp_lk)). exact E.
Qed.

(** C39. An established connection is a queue of bytes.  Segments that arrive and calls that receive,
    in any order, answer as the queue does: a segment is taken exactly when it is the next one
    and is pushed, it is acknowledged at once with the room that is left, and its reader is
    woken; a reader gets the bytes in order, each once, and waits when there are none. *)
Theorem tcp_stream ops b buf nxt s rs q : conn b buf nxt s -> TCPLock s = false -> Forall legal ops ->
  spec_run ops (buf, nxt) = Some (rs, q) ->
  exists b' s', srun ops s = Some (rs, s') /\ conn b' q.1 q.2 s' /\ TCPLock s' = false.
Proof.
  revert b buf nxt s rs q. induction ops as [|op ops IH]; intros b buf nxt s rs q Hc Hl Hops Hr.
  { injection Hr as <- <-. by exists b, s. }
  apply Forall_cons in Hops as [Hop Hops]. cbn [spec_run] in Hr. destruct (spec_step op (buf, nxt)) as [[r [buf1 nxt1]]|] eqn:E1; [|done].
  cbn [mbind option_bind] in Hr. destruct (spec_run ops (buf1, nxt1)) as [[rs1 q1]|] eqn:E2; [|done]. cbn [mbind option_bind] in Hr. injection Hr as <- <-.
  destruct (spec_follows op b buf nxt s _ _ Hc Hl Hop E1) as (b1 & s1 & F1 & C1 & L1).
  destruct (IH b1 buf1 nxt1 s1 rs1 q1 C1 L1 Hops E2) as (b2 & s2 & F2 & C2 & L2).
  exists b2, s2. split; [|done]. cbn [srun]. rewrite F1. cbn [mbind option_bind]. by rewrite F2.
Qed.
End stream.

(** ** The handshake *)

Section handshake.
Context `{Fresh} `{Peers}.

Lemma first_at_false {A} (P : A -> bool) l j y : first_at P l = None -> l !! j = Some y -> P y = false.
Proof.
  revert j. induction l as [|z l IH]; intros j; [done|]. cbn. destruct (P z) eqn:Hz; [done|].
  destruct (first_at P l) eqn:E; [done|]. intros _. destruct j as [|j]; cbn; [by intros [= <-]|by apply IH].
Qed.
(** A new block, for a peer that had none, is the one that is found. *)
Lemma connection_new dev p k b b' s : connection dev p s = None -> (k < csize (TCBTable s))%nat -> at_ k s b -> matches dev p (key b') = true ->
  connection dev p (put k b' s) = Some k.
Proof.
  intros Hn Hk Hb Hm. unfold connection, live in *. cbn. rewrite take_insert_lt by done.
  assert (Hl : (k < length (take (csize (TCBTable s)) (elems (TCBTable s))))%nat) by (rewrite length_take; apply lookup_lt_Some in Hb; lia).
  apply (first_at_lookup _ _ k b'); [by apply list_lookup_insert_eq|done|].
  intros j y Hj Hy. rewrite list_lookup_insert_ne in Hy by lia. by eapply (first_at_false (fun b => matches dev p (key b))).
Qed.

(** The frame of a new block, addressed to its peer. *)
Definition addressed (p : peer) (f : frame) : frame := SetDestinationPort (p_dport p) (SetDestinationAddress (p_address p) (SetSourcePort (p_sport p) f)).
Lemma addressed_idle p f : idle f -> 0 <= p_address p < 2 ^ 32 -> 0 <= p_sport p < 2 ^ 16 -> 0 <= p_dport p < 2 ^ 16 ->
  idle (addressed p f) /\ FrameSize (addressed p f) = FrameSize f /\ peer_of (addressed p f) = p.
Proof.
  intros Hf R1 R2 R3. pose proof (id_header _ Hf) as E0. unfold addressed.
  destruct (store_field 2 (p_sport p) SourcePort true f) as (F1 & S1 & E1 & V1 & G1); [apply Hf|apply Hf|done|unfold SourcePort; lia|].
  set (f1 := SetSourcePort (p_sport p) f) in *. change (Ipv4.SetDataFrom 2 (p_sport p) SourcePort true f) with f1 in *.
  destruct (set_header_full 4 (p_address p) 30 false f1 F1) as (F2 & S2 & E2 & _ & G2); [lia|lia|].
  assert (V2 : get_at 4 false 30 (set_at 4 false 30 (p_address p) f1) = p_address p).
  { rewrite get_set_same by (apply F1 || lia). apply Z.mod_small. exact R1. }
  change (set_at 4 false 30 (p_address p) f1) with (SetDestinationAddress (p_address p) f1) in *.
  set (f2 := SetDestinationAddress (p_address p) f1) in *. rewrite E1 in E2.
  destruct (store_field 2 (p_dport p) DestinationPort true f2) as (F3 & S3 & E3 & V3 & G3); [apply F2|apply F2|done|unfold DestinationPort; lia|].
  change (Ipv4.SetDataFrom 2 (p_dport p) DestinationPort true f2) with (SetDestinationPort (p_dport p) f2) in *.
  unfold SourcePort, DestinationPort in *. cbn [Nat.add] in *. split_and!; [|congruence|].
  - apply (idle_at f); [done|apply F3|apply F3|rewrite G3, G2, G1 by lia; done|rewrite G3, G2, G1 by lia; done|rewrite G3, G2, G1 by lia; apply Hf].
  - destruct (places _ E3) as [A1 A2 A3 _ _ _ _ _]. unfold peer_of. rewrite A1, A2, A3, V3. rewrite !G3, V2 by lia. rewrite G2, V1 by lia.
    rewrite !Z.mod_small by lia. by destruct p.
Qed.

(** The block that [Fork] makes of [fb], and what the SYN makes of it. *)
Definition forked (q dev : nat) (g : frame) (fb : tcb) : tcb :=
  Tcb (Some q) true LISTEN (Some dev) g (Window fb) (Unacknowledged fb) (SNext fb) (InitialSend fb)
    (RNext fb) DefWindowSize (InitialReceive fb) (ReceiveQueue fb).
Definition half_open (q dev : nat) (f g : frame) (iss : Z) (fb : tcb) : tcb :=
  Tcb (Some q) true SYN_RECEIVED (Some dev) g (Window fb) iss (u32 (iss + 1)) iss
    (u32 (GetSequenceNumber f + 1)) DefWindowSize (GetSequenceNumber f) (ReceiveQueue fb).

Context (dev k q : nat) (me : AdapterIPAddressItem) (mac : list Z) (x : ARPTableItem).

Lemma Fork_run f s fb pb : at_ k s fb -> at_ q s pb -> k <> q -> State pb = LISTEN -> GetSourcePort (TFrame pb) = GetDestinationPort f ->
  Fork k q dev f s = ([], Ret tt (put k (forked q dev (addressed (peer_from f) (TFrame fb)) fb) s)).
Proof.
  intros Hk Hq Hne Hl Hp. unfold Fork. rewrite (kbind_pure _ _ _ pb s) by (by apply this_run).
  erewrite kbind_pure; [|by apply (upd_run k fb)]. erewrite kbind_pure; [|by apply (upd_run k _ _ (put_at k fb s Hk _))]. rewrite block_put_put.
  erewrite kbind_pure; [|by apply (upd_run k _ _ (put_at k fb s Hk _))]. rewrite block_put_put.
  erewrite kbind_pure; [|by apply (upd_run k _ _ (put_at k fb s Hk _))]. rewrite block_put_put.
  rewrite (upd_run k _ _ (put_at k fb s Hk _)), block_put_put. rewrite Hl, Hp. reflexivity.
Qed.

(** A SYN makes a block that has answered it. *)
Lemma DoListen_run f s fb b : at_ k s b -> b = forked q dev (addressed (peer_from f) (TFrame fb)) fb -> idle (TFrame fb) -> FrameSize (TFrame fb) <= 1400 ->
  frame_ok f -> reach (tnet s) (GetSourceAddress f) dev me mac x -> header f = 20 ->
  has (GetFlags f) RST = false -> has (GetFlags f) ACK = false -> has (GetFlags f) SYN = true ->
  let iss := first_value (nticks (tnet s) / 100) in
  exists h g, DoListen k f s = ([], Ret tt (set_tnet (set_sent ((dev, h) :: sent (tnet s)) (tnet s)) (put k (half_open q dev f g iss fb) s))) /\
    control_segment (addressed (peer_from f) (TFrame fb)) h iss (GetSequenceNumber f + 1) (Z.lor SYN ACK) DefWindowSize (IPAddress me) (MACAddress x) /\
    idle g /\ peer_of g = peer_from f /\ FrameSize g <= 82.
Proof.
  intros Hb Eb Hi Hsz Hf Hre Hh FR FA FS iss.
  destruct (addressed_idle (peer_from f) (TFrame fb) Hi) as (Ia & Sa & Pa).
  { apply (get_at_range 4); [done|offset_lia]. }
  { unfold peer_from, p_sport. rewrite (ap_dport _ (places f Hh)). apply (get_at_range 2); [done|lia]. }
  { unfold peer_from, p_dport. rewrite (ap_sport _ (places f Hh)). apply (get_at_range 2); [done|lia]. }
  unfold DoListen. rewrite FR, FA, FS. rewrite (kbind_pure _ _ _ (nticks (tnet s) / 100) s) by (by destruct s). cbv zeta. fold iss. clearbody iss.
  erewrite kbind_pure; [|by apply (upd_run k b)]. cbv beta. match goal with |- context [put k ?y s] => set (b1 := y) end.
  pose proof (put_at k b s Hb b1) as B1. assert (Tf : TFrame b1 = addressed (peer_from f) (TFrame fb)) by (subst b1 b; done).
  destruct (SendControl_run k b1 iss (u32 (GetSequenceNumber f + 1)) (Z.lor SYN ACK) (put k b1 s) dev me mac x) as (r & h & g & ES & Hseg & Ig & Pg & Sg).
  { exact B1. } { by rewrite Tf. } { rewrite Tf. lia. }
  { replace (GetDestinationAddress (TFrame b1)) with (GetSourceAddress f); [exact Hre|]. rewrite Tf. by injection Pa as ->. }
  erewrite kbind_pure; [|exact ES]. rewrite (sending_put k dev _ _ _ b1) by done.
  set (n1 := set_sent _ _). set (b2 := set_sender (Some dev) g b1).
  assert (B2 : at_ k (set_tnet n1 (put k b2 (put k b1 s))) b2) by (by apply (put_at k b1)).
  erewrite kbind_pure; [|by apply (upd_run k b2)]. pose proof (put_at k _ _ B2 (set_send iss (u32 (iss + 1)) iss b2)) as B3.
  unfold SetState. rewrite (upd_run k _ _ B3). exists h, g. split_and!; [|rewrite Tf in Hseg|done|by rewrite Pg, Tf|done].
  - unfold put, set_tnet, set_TCBTable. cbn. rewrite !list_insert_insert_eq. unfold n1, b2, b1. rewrite Eb. reflexivity.
  - destruct Hseg as [A1 A2 A3 A4 A5 A6 A7 A8 A9 A10]. split; try done.
    + rewrite A7. unfold u32. by rewrite Z.mod_mod.
    + rewrite A9. unfold b1. by rewrite Eb.
Qed.

(** A SYN that no connection expects, to a port that [q] listens on, with [k] the first free block. *)
Record syn (f : frame) (s : tcps) (fb pb : tcb) : Prop := {
  sy_demux : demux (live (TCBTable s)) 0 dev f None None = (None, Some k, Some q);
  sy_free : at_ k s fb;
  sy_listen : at_ q s pb;
  sy_idle : idle (TFrame fb);
  sy_small : FrameSize (TFrame fb) <= 1400;
  sy_page : length (Window fb) = Z.to_nat 4096;
  sy_ok : frame_ok f;
  sy_header : header f = 20;
  sy_flags : has (GetFlags f) RST = false /\ has (GetFlags f) ACK = false /\ has (GetFlags f) SYN = true;
}.
Lemma syn_blocks f s fb pb : syn f s fb pb -> (k < csize (TCBTable s))%nat /\ k <> q /\ State pb = LISTEN /\ GetSourcePort (TFrame pb) = GetDestinationPort f.
Proof.
  intros [Hd Hk Hq _ _ _ _ _ _]. apply demux_new in Hd as [[?|(_ & b & Hb & Hs)] [?|(_ & c & Hc & Hst & Hl & Hp)]]; try done.
  rewrite Nat.sub_0_r in Hb, Hc. pose proof (lookup_lt_Some _ _ _ Hb) as Hlt. unfold live in Hlt. rewrite length_take in Hlt.
  apply live_block in Hb, Hc. assert (b = fb) as -> by congruence. assert (c = pb) as -> by congruence.
  split_and!; [lia|intros ->; congruence|done|done].
Qed.
Lemma Main_syn f s fb pb : syn f s fb pb -> TCPLock s = false -> reach (tnet s) (GetSourceAddress f) dev me mac x ->
  let iss := first_value (nticks (tnet s) / 100) in
  exists h g, Main dev f s = ([], Ret tt (set_tnet (set_sent ((dev, h) :: sent (tnet s)) (tnet s)) (put k (half_open q dev f g iss fb) s))) /\
    control_segment (addressed (peer_from f) (TFrame fb)) h iss (GetSequenceNumber f + 1) (Z.lor SYN ACK) DefWindowSize (IPAddress me) (MACAddress x) /\
    idle g /\ peer_of g = peer_from f /\ FrameSize g <= 82.
Proof.
  intros Hsy Hl Hre iss. destruct (syn_blocks _ _ _ _ Hsy) as (Hlt & Hne & Hst & Hp). destruct Hsy as [Hd Hk Hq Hi Hsm _ Hok Hh (F1 & F2 & F3)].
  unfold Main. rewrite (kbind_pure _ _ _ tt (set_TCPLock true s)) by (by apply (acquire_run tcp_lk)). kstep. cbn [TCBTable set_TCPLock]. rewrite Hd, F3.
  set (s0 := set_TCPLock true s). erewrite kbind_pure; [|by apply (Fork_run f s0 fb pb)]. set (b1 := forked q dev _ fb).
  pose proof (put_at k fb s0 Hk b1) as B1.
  destruct (DoListen_run f (put k b1 s0) fb b1 B1 eq_refl Hi Hsm Hok Hre Hh F1 F2 F3) as (h & g & ED & Hseg & Ig & Pg & Sg).
  exists h, g. split; [|done]. erewrite kbind_pure; [|unfold BlockMain; rewrite (kbind_pure _ _ _ _ _ (this_run k b1 _ B1)); exact ED].
  rewrite (release_run tcp_lk) by done. rewrite block_put_put. destruct s as [n l T]. cbn in Hl. subst l. reflexivity.
Qed.

(** The acknowledgement of the SYN: the block is established and waits for [Accept]. *)
Definition established (b : tcb) : tcb := set_send (SNext b) (SNext b) (InitialSend b) (set_State ESTABLISHED b).
Record ack_of_syn (f : frame) (b : tcb) : Prop := {
  as_seq : GetSequenceNumber f = RNext b;
  as_ack : GetAcknowledgementNumber f = SNext b;
  as_flags : has (GetFlags f) (Z.lor RST SYN) = false /\ has (GetFlags f) ACK = true /\ has (GetFlags f) FIN = false;
  as_empty : DataSize f = 0;
}.
Lemma Main_ack f s b pb : TCPLock s = false -> connection dev (peer_from f) s = Some k -> at_ k s b -> at_ q s pb -> k <> q ->
  State b = SYN_RECEIVED -> ParentBody b = Some q -> Unacknowledged b < SNext b -> ack_of_syn f b ->
  Main dev f s = ([Wakeup (ChTcp q)], Ret tt (put k (established b) (put q (set_queue (ReceiveQueue pb ++ [k]) pb) (put k (set_State ESTABLISHED b) s)))).
Proof.
  intros Hl Hc Hk Hq Hne Hst Hpar Hu [As Aa (F1 & F2 & F3) Ad]. rewrite (Main_to k dev f s Hl Hc).
  set (s0 := set_TCPLock true s). set (b1 := set_State ESTABLISHED b). set (pb1 := set_queue (ReceiveQueue pb ++ [k]) pb).
  assert (K1 : at_ k (put k b1 s0) b1) by (by apply (put_at k b)).
  assert (Q1 : at_ q (put k b1 s0) pb) by (by rewrite block_put_other).
  assert (K2 : at_ k (put q pb1 (put k b1 s0)) b1) by (by rewrite block_put_other).
  assert (ES : DoSynReceived k f s0 = ([Wakeup (ChTcp q)], Ret tt (put q pb1 (put k b1 s0)))).
  { unfold DoSynReceived. rewrite (kbind_pure _ _ _ b s0) by (by apply this_run). cbv zeta. rewrite Aa.
    replace (Unacknowledged b <=? SNext b) with true by (symmetry; apply Z.leb_le; lia). rewrite Z.leb_refl. cbn [andb].
    unfold SetState. rewrite (kbind_pure _ _ _ tt (put k b1 s0)) by (by apply (upd_run k b)). rewrite Hpar.
    rewrite (kbind_pure _ _ _ pb (put k b1 s0)) by (by apply this_run). by rewrite (kbind_pure _ _ _ tt (put q pb1 (put k b1 s0))) by (by apply (upd_run q pb)). }
  assert (EC : DoClosing k f (put q pb1 (put k b1 s0)) = ([], Ret false (put k (established b) (put q pb1 (put k b1 s0))))).
  { unfold DoClosing. rewrite (kbind_pure _ _ _ b1 _) by (by apply this_run). cbv zeta. rewrite Aa. change (SNext b1) with (SNext b).
    change (Unacknowledged b1) with (Unacknowledged b). replace (Unacknowledged b <? SNext b) with true by (symmetry; apply Z.ltb_lt; lia).
    rewrite Z.leb_refl. cbn [andb]. erewrite kbind_pure; [|erewrite kbind_pure; [|by apply (upd_run k b1)]; reflexivity]. done. }
  assert (EB : BlockMain k f s0 = ([Wakeup (ChTcp q)], Ret tt (put k (established b) (put q pb1 (put k b1 s0))))).
  { unfold BlockMain. rewrite (kbind_pure _ _ _ b s0) by (by apply this_run). rewrite Hst, As, Z.eqb_refl, F1, F2. cbn [negb].
    rewrite decide_True by done. erewrite kbind_run; [|exact ES|rewrite (kbind_pure _ _ _ _ _ EC); cbv iota; unfold text_and_fin; rewrite Ad, F3, andb_false_r; reflexivity].
    done. }
  erewrite kbind_run; [|exact EB|by apply (release_run tcp_lk)]. rewrite app_nil_r. destruct s as [n l T]. cbn in Hl. subst l. reflexivity.
Qed.

(** [Accept], woken, returns the connection. *)
Lemma Accept_run s pb b : TCPLock s = false -> at_ q s pb -> at_ k s b -> k <> q -> ReceiveQueue pb = [k] ->
  Accept_resume q true s = ([], Ret (Accepted (Z.of_nat k) (p_address (peer_of (TFrame b))) (p_dport (peer_of (TFrame b)))) (put q (set_queue [] pb) s)).
Proof.
  intros Hl Hq Hk Hne Hr. unfold Accept_resume. set (s0 := set_TCPLock true s). rewrite (kbind_pure _ _ _ tt s0) by (by apply (acquire_run tcp_lk)).
  unfold accept_turn. rewrite (kbind_pure _ _ _ pb s0) by (by apply this_run). rewrite Hr.
  rewrite (kbind_pure _ _ _ tt (put q (set_queue [] pb) s0)) by (by apply (upd_run q pb)).
  rewrite (kbind_pure _ _ _ b _) by (apply this_run; by rewrite block_put_other). cbn [negb].
  erewrite kbind_pure; [|by apply (release_run tcp_lk)]. destruct s as [n l T]. cbn in Hl. subst l. reflexivity.
Qed.

(** The block that [Accept] returns is a connection with nothing in its page. *)
Lemma established_conn f g fb iss s : idle g -> FrameSize g <= 82 -> peer_of g = peer_from f -> length (Window fb) = Z.to_nat 4096 ->
  let b := established (half_open q dev f g iss fb) in
  at_ k s b -> connection dev (peer_from f) s = Some k -> reach (tnet s) (GetSourceAddress f) dev me mac x ->
  conn k dev me mac x (peer_from f) (u32 (iss + 1)) b [] (u32 (GetSequenceNumber f + 1)) s.
Proof.
  intros Hi Hs Hp Hw b Hb Hc Hr. split; [|done|done|done]. split; try done. cbn. lia.
Qed.

(** C38. A client connects.  A SYN for a listening port is answered once, with a valid SYN and ACK to
    the client that acknowledges its number; the acknowledgement of that wakes the listener, and
    [Accept] returns the connection, established and empty, with the address of the client.  The
    last sequence number, 2^32 - 1, is excluded: the test of the acknowledgement does not wrap. *)
Theorem tcp_handshake f1 f2 s fb pb iss : syn f1 s fb pb -> TCPLock s = false -> reach (tnet s) (GetSourceAddress f1) dev me mac x ->
  ReceiveQueue pb = [] -> iss = first_value (nticks (tnet s) / 100) -> iss < 2 ^ 32 - 1 ->
  peer_from f2 = peer_from f1 -> GetSequenceNumber f2 = u32 (GetSequenceNumber f1 + 1) -> GetAcknowledgementNumber f2 = iss + 1 ->
  has (GetFlags f2) (Z.lor RST SYN) = false -> has (GetFlags f2) ACK = true -> has (GetFlags f2) FIN = false -> DataSize f2 = 0 ->
  exists h s1 s2 s3 b, Main dev f1 s = ([], Ret tt s1) /\ sent (tnet s1) = (dev, h) :: sent (tnet s) /\
    Ipv4.IsValid h = true /\ IsValid h = true /\ peer_of h = peer_from f1 /\ GetFlags h = Z.lor SYN ACK /\
    GetSequenceNumber h = iss /\ GetAcknowledgementNumber h = u32 (GetSequenceNumber f1 + 1) /\
    Main dev f2 s1 = ([Wakeup (ChTcp q)], Ret tt s2) /\
    Accept_resume q true s2 = ([], Ret (Accepted (Z.of_nat k) (GetSourceAddress f1) (GetSourcePort f1)) s3) /\
    conn k dev me mac x (peer_from f1) (iss + 1) b [] (u32 (GetSequenceNumber f1 + 1)) s3 /\ TCPLock s3 = false.
Proof.
  intros Hsy Hl Hre Hq Eiss Hiss Hp2 As Aa F1 F2 F3 Ad. destruct (syn_blocks _ _ _ _ Hsy) as (Hlt & Hne & Hst & Hp).
  destruct (Main_syn f1 s fb pb Hsy Hl Hre) as (h & g & E1 & Hh & Ig & Pg & Sg). rewrite <-Eiss in E1, Hh.
  assert (Hr : 0 <= iss) by (rewrite Eiss; apply first_value_range). clear Eiss.
  assert (Ei : u32 iss = iss) by (unfold u32; apply Z.mod_small; lia).
  assert (Eu : u32 (iss + 1) = iss + 1) by (unfold u32; apply Z.mod_small; lia).
  set (b0 := half_open q dev f1 g iss fb) in *. set (s1 := set_tnet _ (put k b0 s)) in *.
  assert (K1 : at_ k s1 b0) by (by apply (put_at k fb), Hsy). assert (Q1 : at_ q s1 pb) by (cbn; rewrite list_lookup_insert_ne by done; apply Hsy).
  assert (C1 : connection dev (peer_from f1) s1 = Some k).
  { apply (connection_new dev (peer_from f1) k fb b0 s); [|done|apply Hsy|].
    - pose proof (demux_first (live (TCBTable s)) 0 dev f1 None None) as Hd. rewrite (sy_demux _ _ _ _ Hsy) in Hd. unfold connection.
      by destruct (first_at _ _).
    - unfold matches, key. cbn [b0 half_open Started Iface TFrame]. rewrite Pg. rewrite (bool_decide_eq_true_2 (Some dev = Some dev)), (bool_decide_eq_true_2 (peer_from f1 = _)), orb_true_r by done. done. }
  set (pb1 := set_queue (ReceiveQueue pb ++ [k]) pb). set (b1 := set_State ESTABLISHED b0).
  pose proof (Main_ack f2 s1 b0 pb) as E2. rewrite Hp2 in E2. specialize (E2 Hl C1 K1 Q1 Hne eq_refl eq_refl). fold pb1 b1 in E2.
  set (s2 := put k (established b0) (put q pb1 (put k b1 s1))) in *.
  assert (Kb : at_ k (put k b1 s1) b1) by (by apply (put_at k b0)). assert (Qb : at_ q (put k b1 s1) pb) by (by rewrite block_put_other).
  assert (Kc : at_ k (put q pb1 (put k b1 s1)) b1) by (by rewrite block_put_other).
  assert (K2 : at_ k s2 (established b0)) by (by apply (put_at k b1)).
  assert (Q2 : at_ q s2 pb1) by (unfold s2; rewrite block_put_other by done; by apply (put_at q pb)).
  pose proof (Accept_run s2 pb1 (established b0) Hl Q2 K2 Hne) as E3.
  exists h, s1, s2, (put q (set_queue [] pb1) s2), (established b0). destruct Hh as [A1 A2 A3 A4 A5 A6 A7 A8 A9 A10].
  destruct (addressed_idle (peer_from f1) (TFrame fb)) as (_ & _ & Pa); [apply Hsy|..].
  { apply (get_at_range 4); [apply Hsy|offset_lia]. }
  { unfold peer_from, p_sport. rewrite (ap_dport _ (places f1 (sy_header _ _ _ _ Hsy))). apply (get_at_range 2); [apply Hsy|lia]. }
  { unfold peer_from, p_dport. rewrite (ap_sport _ (places f1 (sy_header _ _ _ _ Hsy))). apply (get_at_range 2); [apply Hsy|lia]. }
  split_and!; [exact E1|done|done|done|by rewrite A5|by rewrite A8|by rewrite A6|by rewrite A7| | | |done].
  - apply E2; [cbn; lia|]. split; [done|by rewrite Aa; cbn|done|done].
  - rewrite E3; [|cbn; by rewrite Hq]. cbn [established set_send set_State TFrame b0 half_open]. by rewrite Pg.
  - rewrite <-Eu. apply established_conn; [done|done|done|apply Hsy| | |by apply reach_sent].
    + cbn. rewrite list_lookup_insert_ne by done. exact K2.
    + rewrite (put_keys q pb1) by done. unfold s2. rewrite (put_keys k b1) by done. rewrite (put_keys q pb) by done. by rewrite (put_keys k b0).
Qed.
End handshake.

(** ** An example: the client of [demo_calls] *)

Definition demo_me : AdapterIPAddressItem := IPItem (Some 0%nat) 251766976 16777215.
Definition demo_mac : list Z := [82; 84; 0; 18; 52; 86].
Definition demo_neighbour : ARPTableItem := ARPItem 33685514 1 2 peer_mac 0.
Definition demo_peer : peer := Peer 33685514 80 5000.
Lemma demo_reach l : reach (set_sent l demo_known) 33685514 0 demo_me demo_mac demo_neighbour.
Proof.
  apply reach_sent. split.
  - exact demo_known_ok.
  - exists [], default_route. split; [vm_compute; reflexivity|]. split; [reflexivity|]. split; [constructor|reflexivity].
  - vm_compute. reflexivity.
  - cbn. lia.
  - vm_compute. reflexivity.
  - vm_compute. reflexivity.
  - reflexivity.
  - cbn. repeat constructor; lia.
Qed.

(** The parts of a block that can be decided. *)
Definition sound_block (b : tcb) : bool :=
  let f := TFrame b in
  ((length (Frame.Data f) =? 1518)%nat && forallb (fun z => (0 <=? z) && (z <? 256)) (Frame.Data f) && (64 <=? FrameSize f) && (FrameSize f <=? 1400) &&
   (GetVersion f =? 4) && (header f =? 20) && (GetProtocol f =? ProtocolNumber) && (get_at 1 true 46 f =? 80) && (length (Window b) =? Z.to_nat 4096)%nat)%bool.
Lemma sound_block_idle b : sound_block b = true -> idle (TFrame b) /\ FrameSize (TFrame b) <= 1400 /\ length (Window b) = Z.to_nat 4096.
Proof.
  unfold sound_block. rewrite !andb_true_iff, !Z.leb_le, !Z.eqb_eq, !Nat.eqb_eq. intros ((((((((H1 & H2) & H3) & H4) & H5) & H6) & H7) & H8) & H9).
  split_and!; [|done|done]. split; try done. apply checked_ok. rewrite H1, H2. unfold MinDataSize, MaxFrameSize. cbn [Nat.eqb andb].
  rewrite andb_true_iff, !Z.leb_le. lia.
Qed.

Definition demo_listen : tcps := run (take 4 demo_open) (registered demo_known).
Definition demo_syn : frame := demo_seg SYN 100 0.
Definition demo_ack : frame := demo_seg ACK 101 demo_isn.
Lemma demo_syn_ok : frame_ok demo_syn.
Proof. apply checked_ok. vm_compute. reflexivity. Qed.

Lemma tcp_handshake_witness : exists h s1 s2 s3 b, Main 0 demo_syn demo_listen = ([], Ret tt s1) /\ sent (tnet s1) = (0%nat, h) :: sent (tnet demo_listen) /\
  Main 0 demo_ack s1 = ([Wakeup (ChTcp 0)], Ret tt s2) /\ Accept_resume 0 true s2 = ([], Ret (Accepted 1 33685514 5000) s3) /\
  conn 1 0 demo_me demo_mac demo_neighbour demo_peer demo_isn b [] 101 s3.
Proof.
  destruct (elems (TCBTable demo_listen) !! 1%nat) as [fb|] eqn:Hfb; [|exfalso; revert Hfb; vm_compute; discriminate].
  destruct (elems (TCBTable demo_listen) !! 0%nat) as [pb|] eqn:Hpb; [|exfalso; revert Hpb; vm_compute; discriminate].
  assert (Sf : sound_block <$> (elems (TCBTable demo_listen) !! 1%nat) = Some true) by (vm_compute; reflexivity).
  assert (Sp : ReceiveQueue <$> (elems (TCBTable demo_listen) !! 0%nat) = Some []) by (vm_compute; reflexivity).
  rewrite Hfb in Sf. rewrite Hpb in Sp. injection Sf as Sf. injection Sp as Sp. destruct (sound_block_idle fb Sf) as (Hi & Hs & Hw).
  assert (Hn : tnet demo_listen = set_sent (sent demo_known) demo_known) by (vm_compute; reflexivity).
  destruct (tcp_handshake 0 1 0 demo_me demo_mac demo_neighbour demo_syn demo_ack demo_listen fb pb (first_value (nticks (tnet demo_listen) / 100)))
    as (h & s1 & s2 & s3 & b & E1 & Es & _ & _ & _ & _ & _ & _ & E2 & E3 & Hc & _).
  - split; [vm_compute; reflexivity|exact Hfb|exact Hpb|exact Hi|exact Hs|exact Hw|exact demo_syn_ok|vm_compute; reflexivity|].
    split; [vm_compute; reflexivity|]. split; vm_compute; reflexivity.
  - vm_compute. reflexivity.
  - rewrite Hn. replace (GetSourceAddress demo_syn) with 33685514 by (vm_compute; reflexivity). apply demo_reach.
  - exact Sp.
  - reflexivity.
  - vm_compute. reflexivity.
  - vm_compute. reflexivity.
  - vm_compute. reflexivity.
  - vm_compute. reflexivity.
  - vm_compute. reflexivity.
  - vm_compute. reflexivity.
  - vm_compute. reflexivity.
  - vm_compute. reflexivity.
  - exists h, s1, s2, s3, b. split; [exact E1|]. split; [exact Es|]. split; [exact E2|].
    replace (GetSourceAddress demo_syn) with 33685514 in E3 by (vm_compute; reflexivity).
    replace (GetSourcePort demo_syn) with 5000 in E3 by (vm_compute; reflexivity). split; [exact E3|].
    replace demo_isn with (first_value (nticks (tnet demo_listen) / 100) + 1) by (vm_compute; reflexivity).
    replace demo_peer with (peer_from demo_syn) by (vm_compute; reflexivity).
    replace 101 with (u32 (GetSequenceNumber demo_syn + 1)) by (vm_compute; reflexivity). exact Hc.
Defined.

(** Three bytes arrive twice, while a process reads. *)
Definition demo_conn : tcps := run demo_calls (registered demo_known).
Definition demo_text : frame :=
  let f := default TCP (SetData [7; 8; 9] 0 (demo_seg (Z.lor PSH ACK) 101 demo_isn)) in
  let f := SetTotalLength 43 f in
  SetTotalLength 43 (SetChecksum (VerifyChecksum true f) f).
Definition demo_reads : list sop := [Recv 100; Seg demo_text; Wake 2; Seg demo_text; Recv 10].

Lemma demo_conn_ok : exists b, conn 1 0 demo_me demo_mac demo_neighbour demo_peer demo_isn b [] 101 demo_conn.
Proof.
  destruct (elems (TCBTable demo_conn) !! 1%nat) as [b|] eqn:Hb; [|exfalso; revert Hb; vm_compute; discriminate].
  assert (Sb : (fun b => (sound_block b, State b, Iface b, RNext b, RWindow b)) <$> (elems (TCBTable demo_conn) !! 1%nat) =
    Some (true, ESTABLISHED, Some 0%nat, 101, 2000)) by (vm_compute; reflexivity).
  assert (S2 : (fun b => peer_of (TFrame b)) <$> (elems (TCBTable demo_conn) !! 1%nat) = Some demo_peer) by (vm_compute; reflexivity).
  assert (S5 : SNext <$> (elems (TCBTable demo_conn) !! 1%nat) = Some demo_isn) by (vm_compute; reflexivity).
  rewrite Hb in Sb, S2, S5. apply (inj Some) in S2, S5. injection Sb as Sb S1 S3 S4 S6. destruct (sound_block_idle b Sb) as (Hi & Hs & Hw).
  assert (Hn : tnet demo_conn = set_sent (sent (tnet demo_conn)) demo_known) by (vm_compute; reflexivity).
  assert (Hf : connection 0 demo_peer demo_conn = Some 1%nat) by (vm_compute; reflexivity).
  exists b. split; [|exact Hb|exact Hf|rewrite Hn; apply demo_reach].
  split; try assumption; [cbn; unfold DefWindowSize; lia|reflexivity].
Qed.
Lemma demo_text_legal : legal demo_peer demo_isn (Seg demo_text).
Proof.
  split; [vm_compute; reflexivity|]. split; [split; vm_compute; reflexivity|]. split; [vm_compute; reflexivity|].
  apply Z.leb_le. vm_compute. reflexivity.
Qed.
Lemma tcp_stream_witness : exists s', srun 1 0 demo_reads demo_conn =
  Some ([Waits; Taken [ack_of 0 demo_peer demo_isn 104 3] true; Got [7; 8]; Taken [] false; Got [9]], s') /\ TCPLock s' = false.
Proof.
  destruct demo_conn_ok as [b Hc].
  destruct (tcp_stream 1 0 demo_me demo_mac demo_neighbour demo_peer demo_isn demo_reads b [] 101 demo_conn
    [Waits; Taken [ack_of 0 demo_peer demo_isn 104 3] true; Got [7; 8]; Taken [] false; Got [9]] ([], 104) Hc) as (b' & s' & E & _ & L).
  - vm_compute. reflexivity.
  - repeat (apply Forall_cons; split); first [exact demo_text_legal|cbn; lia|constructor].
  - vm_compute. reflexivity.
  - exists s'. split; [exact E|exact L].
Defined.
