(* ===== verification/Adapter.v ===== *)
(** * The network adapter and the dispatch of frames

    kernel/UNetworkAdapter.cc, and the end of kernel/UEtherFrame.cc: the driver of the Intel 8254x
    over its registers and its rings of descriptors, its interrupt, and the hand-over of received
    frames to the protocols.  The controller behind the registers is a class, with laws for the
    registers that the proofs rely on; what it does when a packet arrives is [arrive].  The protocols are a table of
    handlers over a state of their own. *)

From stdpp Require Import base list gmap.
From Stdlib Require Import ZArith Lia.
From S2P Require Import Prelude CString Bytes Frame.
Open Scope Z_scope.

(** ** Registers *)

Definition CTRL : Z := 0x0.
Definition ICR : Z := 0xC0.
Definition IMS : Z := 0xD0.
Definition IMC : Z := 0xD8.
Definition RCTL : Z := 0x100.
Definition RDBAL : Z := 0x2800.
Definition RDBAH : Z := 0x2804.
Definition RDLEN : Z := 0x2808.
Definition RDH : Z := 0x2810.
Definition RDT : Z := 0x2818.
Definition MTA : Z := 0x5200.
Definition RAL0 : Z := 0x5400.
Definition RAH0 : Z := 0x5404.
Definition TCTL : Z := 0x400.
Definition TDBAL : Z := 0x3800.
Definition TDBAH : Z := 0x3804.
Definition TDLEN : Z := 0x3808.
Definition TDH : Z := 0x3810.
Definition TDT : Z := 0x3818.
Definition ASDE : Z := Z.shiftl 1 5.
Definition SLU : Z := Z.shiftl 1 6.
Definition RST : Z := Z.shiftl 1 26.
Definition RXT0 : Z := Z.shiftl 1 7.
Definition EN : Z := Z.shiftl 1 1.
Definition PSP : Z := Z.shiftl 1 3.
(** SBP, UPE, MPE, LPE, RDMTSHalf, BAM, BSIZE2K and SECRC. *)
Definition reception_flags : list Z :=
  [Z.shiftl 1 2; Z.shiftl 1 3; Z.shiftl 1 4; Z.shiftl 1 5; 0; Z.shiftl 1 15; 0; Z.shiftl 1 26].
Definition DD : Z := 1.
Definition EOP : Z := 2.
Definition tx_EOP : Z := Z.shiftl 1 0.
Definition tx_RS : Z := Z.shiftl 1 3.
Definition RDescLayoutMaxSize : Z := 16.
Definition TDescLayoutMaxSize : Z := 16.
Definition EtherFrameBufferMaxSize : nat := 180.

(** A register read, and written; either may have an effect. *)
Class Registers (D : Type) := {
  reg_read : Z -> D -> Z * D;
  reg_write : Z -> Z -> D -> D;
}.

(** ** The adapter *)

Record rdesc := RDesc { rd_addr : Z; rd_length : Z; rd_status : Z; rd_errors : Z }.
Record tdesc := TDesc { td_addr : Z; td_length : Z; td_command : Z; td_status : Z }.
Definition set_rd_status v (d : rdesc) : rdesc := RDesc (rd_addr d) (rd_length d) v (rd_errors d).
Record nic (D : Type) := Nic {
  hw : D;
  RDescLayout : list rdesc;
  TDescLayout : list tdesc;
  buffers : gmap Z (list Z);       (* pages, by physical address *)
  MACAddress : list Z;
}.
Arguments Nic {D}.
Arguments hw {D}.
Arguments RDescLayout {D}.
Arguments TDescLayout {D}.
Arguments buffers {D}.
Arguments MACAddress {D}.

Section driver.
Context {D : Type} `{HD : Registers D}.
Notation AK := (K (nic D)).
Definition set_hw v (a : nic D) : nic D := Nic v (RDescLayout a) (TDescLayout a) (buffers a) (MACAddress a).
Definition set_RDescLayout v (a : nic D) : nic D := Nic (hw a) v (TDescLayout a) (buffers a) (MACAddress a).
Definition set_TDescLayout v (a : nic D) : nic D := Nic (hw a) (RDescLayout a) v (buffers a) (MACAddress a).
Definition set_MACAddress v (a : nic D) : nic D := Nic (hw a) (RDescLayout a) (TDescLayout a) (buffers a) v.

Definition GetRegister (Register : Z) : AK Z :=
  let! a := kget in
  let '(v, d) := reg_read Register (hw a) in
  kmod (set_hw d) ;;; kret (u32 v).
Definition SetRegister (Register Value : Z) : AK unit := kmod (fun a => set_hw (reg_write Register (u32 Value) (hw a)) a).
(** [r |= flags] and [r &= ~flags] on a register. *)
Definition set_flags (Register : Z) (flags : list Z) : AK unit :=
  let! v := GetRegister Register in
  SetRegister Register (foldl Z.lor v flags).
Definition clear_flag (Register flag : Z) : AK unit :=
  let! v := GetRegister Register in
  SetRegister Register (Z.ldiff v flag).

Definition EnableAutoSpeed : AK unit := set_flags CTRL [ASDE; SLU].
Definition DisableAutoSpeed : AK unit := clear_flag CTRL SLU.
Definition EnableTransmission : AK unit := set_flags TCTL [EN].
Definition EnableReception : AK unit := set_flags RCTL [EN].
Definition DisableTransmission : AK unit := clear_flag TCTL EN.
Definition DisableReception : AK unit := clear_flag RCTL EN.
Definition EnableInterrupts : AK unit := set_flags IMS [RXT0].
Definition DisableInterrupts : AK unit := set_flags IMC [RXT0].
Definition InitMulticastTableArray : AK unit :=
  for_each (seq 0 128) (fun i => SetRegister (u16 (MTA + Z.shiftl (Z.of_nat i) 2)) 0).
Definition Open : AK Z :=
  EnableInterrupts ;;; GetRegister ICR ;;; EnableTransmission ;;; EnableReception ;;; EnableAutoSpeed ;;; kret 0.
Definition Close : AK Z :=
  DisableInterrupts ;;; GetRegister ICR ;;; DisableTransmission ;;; DisableReception ;;; DisableAutoSpeed ;;; kret 0.
Definition HasInterrupt : AK bool := let! v := GetRegister ICR in kret (has v RXT0).
Definition ClearInterrupt : AK unit := GetRegister ICR ;;; kret tt.
(** [while (!IsReady) { ... }] *)
Fixpoint reset_wait (fuel : nat) : AK unit :=
  let! v := GetRegister CTRL in
  if has v RST then match fuel with O => kstop NoFuel | S fuel => reset_wait fuel end else kret tt.
Definition Reset (fuel : nat) : AK unit := set_flags CTRL [RST] ;;; reset_wait fuel.
Definition LoadMACAddress : AK unit :=
  let! lo := GetRegister RAL0 in
  let! hi := GetRegister RAH0 in
  kmod (set_MACAddress (le_bytes 4 lo ++ le_bytes 2 hi)).

(** The rings; [pages] are the physical addresses of what [kalloc] returns. *)
Definition AllocateReceiveDescrBuffer (pages : list Z) : AK unit :=
  kmod (set_RDescLayout (map (fun i => RDesc (nth i pages 0) 0 0 0) (seq 0 (Z.to_nat RDescLayoutMaxSize)))).
Definition SetupPacketReception (ring : Z) (pages : list Z) : AK unit :=
  AllocateReceiveDescrBuffer pages ;;;
  SetRegister RDBAH (Z.shiftr ring 32) ;;;
  SetRegister RDBAL ring ;;;
  SetRegister RDLEN (RDescLayoutMaxSize * 16) ;;;
  SetRegister RDH 0 ;;;
  SetRegister RDT (RDescLayoutMaxSize - 1) ;;;
  set_flags RCTL reception_flags ;;;
  EnableReception.
Definition SetupPacketTransmission (ring : Z) : AK unit :=
  kmod (set_TDescLayout (replicate (Z.to_nat TDescLayoutMaxSize) (TDesc 0 0 0 0))) ;;;
  SetRegister TDBAH (Z.shiftr ring 32) ;;;
  SetRegister TDBAL ring ;;;
  SetRegister TDLEN (TDescLayoutMaxSize * 16) ;;;
  SetRegister TDH 0 ;;;
  SetRegister TDT 0 ;;;
  set_flags TCTL [PSP] ;;;
  EnableTransmission.

Section transmit.
(** What the controller does during [microdelay(10)]. *)
Context (microdelay : AK unit).
Definition tx_at (i : Z) : AK tdesc :=
  let! a := kget in match TDescLayout a !! Z.to_nat i with Some d => kret d | None => fault end.
(** [while (!(TDescLayout[TransmitTail].Status & 0xF)) microdelay(10);] *)
Fixpoint tx_wait (fuel : nat) (tail : Z) : AK unit :=
  let! d := tx_at tail in
  if has (td_status d) 0xF then kret tt
  else match fuel with O => kstop NoFuel | S fuel => microdelay ;;; tx_wait fuel tail end.
Definition Transmit (fuel : nat) (address : Z) (f : frame) : AK Z :=
  let! tail := GetRegister TDT in
  tx_at tail ;;;
  kmod (fun a => set_TDescLayout (<[Z.to_nat tail := TDesc address (u16 (FrameSize f)) (Z.lor tx_EOP tx_RS) 0]> (TDescLayout a)) a) ;;;
  SetRegister TDT ((tail + 1) mod TDescLayoutMaxSize) ;;;
  tx_wait fuel tail ;;;
  let! d := tx_at tail in
  kret (td_length d).
End transmit.

(** ** Reception *)

Context `{HF : Fresh}.
Definition rx_at (i : Z) : AK rdesc :=
  let! a := kget in match RDescLayout a !! Z.to_nat i with Some d => kret d | None => fault end.
Definition page_at (addr : Z) : AK (list Z) :=
  let! a := kget in match buffers a !! addr with Some b => kret b | None => fault end.
Definition short_packet : Z := i32 0xBABABABA.
Definition not_eop : Z := i32 0xBAADF00D.
(** The loop, with the frames stored so far; [None] is a [return] from it. *)
Fixpoint receive_loop (fuel : nat) (FrameBuffer : list frame) (BufferSize : nat) : AK (Z * list frame) :=
  let! tail := GetRegister RDT in
  let tail := (tail + 1) mod RDescLayoutMaxSize in
  let! d := rx_at tail in
  if negb (has (rd_status d) DD) then kret (Z.of_nat BufferSize, FrameBuffer)
  else if rd_length d <? 60 then kret (short_packet, FrameBuffer)
  else if negb (has (rd_status d) EOP) then kret (not_eop, FrameBuffer)
  else if negb (rd_errors d =? 0) then kret (- rd_errors d, FrameBuffer)
  else
    let! b := page_at (rd_addr d) in
    match FromDevice b (rd_length d) with
    | None => fault
    | Some f =>
        if decide (EtherFrameBufferMaxSize <= BufferSize)%nat then fault
        else
          kmod (fun a => set_RDescLayout (<[Z.to_nat tail := set_rd_status 0 d]> (RDescLayout a)) a) ;;;
          SetRegister RDT tail ;;;
          match fuel with
          | O => kstop NoFuel
          | S fuel => receive_loop fuel (<[BufferSize := f]> FrameBuffer) (S BufferSize)
          end
    end.
(** Every turn clears one descriptor of the ring. *)
Definition Receive (FrameBuffer : list frame) : AK (Z * list frame) := receive_loop (Z.to_nat RDescLayoutMaxSize) FrameBuffer 0.
End driver.

(** ** The interrupt and the protocols *)

Record netsys (D S : Type) := Netsys {
  NetworkAdapterList : list (nic D);
  EtherFrameBufferCurrentSize : Z;
  GlobalEtherFrameBuffer : list frame;
  protocols : S;
}.
Arguments Netsys {D S}.
Arguments NetworkAdapterList {D S}.
Arguments EtherFrameBufferCurrentSize {D S}.
Arguments GlobalEtherFrameBuffer {D S}.
Arguments protocols {D S}.

Section dispatch.
Context {D S : Type} `{HD : Registers D} `{HF : Fresh}.
(** The entries of [ProtocolInvokers]: an EtherType and its [Main]. *)
Context (ProtocolInvokers : list (Z * (nat -> frame -> K S unit))).
Notation NK := (K (netsys D S)).
Definition set_adapters v (s : netsys D S) : netsys D S := Netsys v (EtherFrameBufferCurrentSize s) (GlobalEtherFrameBuffer s) (protocols s).
Definition set_frames n v (s : netsys D S) : netsys D S := Netsys (NetworkAdapterList s) n v (protocols s).
Definition set_protocols v (s : netsys D S) : netsys D S := Netsys (NetworkAdapterList s) (EtherFrameBufferCurrentSize s) (GlobalEtherFrameBuffer s) v.
Definition in_protocols : lens (netsys D S) S := Lens protocols set_protocols.
(** Code of the adapter [i]. *)
Definition on_adapter {A} (i : nat) (m : K (nic D) A) : NK A := fun s =>
  match NetworkAdapterList s !! i with
  | None => fault s
  | Some a =>
      match m a with
      | (t, Ret r a') => (t, Ret r (set_adapters (<[i := a']> (NetworkAdapterList s)) s))
      | (t, Stop r a') => (t, Stop r (set_adapters (<[i := a']> (NetworkAdapterList s)) s))
      end
  end.

Definition FrameFilter (mac : list Z) (f : frame) : bool :=
  if IsBroadcast f then true else bool_decide (mac = GetDestination f).
Definition invoke (dev : nat) (f : frame) : NK unit :=
  for_each ProtocolInvokers (fun '(ty, Main) => kwhen (GetEtherType f =? ty) (zoom in_protocols (Main dev f))).
Definition FrameBufferHandler (dev : nat) (Size : Z) : NK unit :=
  for_each (seq 0 (Z.to_nat Size)) (fun k =>
    let! s := kget in
    match GlobalEtherFrameBuffer s !! k, NetworkAdapterList s !! dev with
    | Some f, Some a => kwhen (FrameFilter (MACAddress a) f) (invoke dev f)
    | _, _ => fault
    end).
(** One turn of the loop over the adapters; [Some tt] is a [return]. *)
Definition adapter_interrupt (i : nat) : NK (option unit) :=
  let! pending := on_adapter i HasInterrupt in
  if pending : bool then
    let! s := kget in
    let! (n, frames) := on_adapter i (Receive (GlobalEtherFrameBuffer s)) in
    let n := u64 n in
    kmod (set_frames n frames) ;;;
    on_adapter i ClearInterrupt ;;;
    if ((n =? 0xBABABABA) || (n =? 0xBAADF00D) || (n <? 0))%bool then kret (Some tt)
    else FrameBufferHandler i (i32 n) ;;; kret None
  else kret None.
Definition Intel8254xInterrupt : NK unit :=
  let! s := kget in
  for_return (seq 0 (length (NetworkAdapterList s))) adapter_interrupt ;;;
  kret tt.
End dispatch.
