(* ===== verification/AdapterOk.v ===== *)
(** * The ring of received packets as a queue

    The controller stores the packets that arrive in the descriptors between its head and the
    tail that the driver sets; [ring] says which packets wait there.  [interrupt_delivers] shows
    that an interrupt hands exactly these, in order and once, to the protocols they are for. *)

From stdpp Require Import base list gmap.
From Stdlib Require Import ZArith Lia.
From S2P Require Import Prelude CString Bytes Frame Adapter.
Open Scope Z_scope.

(** What the manual says of the registers of the receive ring: the tail is what was last written,
    the head moves as packets arrive, and no other register changes them but by a reset. *)
Class Controller (D : Type) `{Registers D} := {
  rdt : D -> Z;
  rdh : D -> Z;
  set_head : Z -> D -> D;
  read_rdt : forall d, reg_read RDT d = (rdt d, d);
  read_keeps : forall r d, rdt (reg_read r d).2 = rdt d /\ rdh (reg_read r d).2 = rdh d;
  write_rdt : forall v d, 0 <= v < 16 -> rdt (reg_write RDT v d) = v /\ rdh (reg_write RDT v d) = rdh d;
  write_rdh : forall v d, 0 <= v < 16 -> rdh (reg_write RDH v d) = v /\ rdt (reg_write RDH v d) = rdt d;
  write_keeps : forall r v d, r <> RDT -> r <> RDH -> r <> CTRL -> rdt (reg_write r v d) = rdt d /\ rdh (reg_write r v d) = rdh d;
  head_moves : forall v d, rdh (set_head v d) = v /\ rdt (set_head v d) = rdt d;
}.

Section ring.
Context {D : Type} `{HC : Controller D} `{HF : Fresh}.

(** A packet arrives: it goes to the descriptor at the head, unless none is free. *)
Definition arrive (p : list Z) (a : nic D) : nic D :=
  let h := rdh (hw a) in
  if h =? rdt (hw a) then a
  else
    match RDescLayout a !! Z.to_nat h with
    | None => a
    | Some d =>
        Nic (set_head ((h + 1) mod 16) (hw a))
          (<[Z.to_nat h := RDesc (rd_addr d) (Z.of_nat (length p)) (Z.lor DD EOP) 0]> (RDescLayout a)) (TDescLayout a)
          (alter (fun b => splice b 0 p) (rd_addr d) (buffers a)) (MACAddress a)
    end.

(** The [k]th descriptor behind the tail. *)
Definition slot (t : Z) (k : nat) : nat := Z.to_nat ((t + 1 + Z.of_nat k) mod 16).
Definition holds_packet (a : nic D) (i : nat) (p : list Z) : Prop :=
  exists addr b, RDescLayout a !! i = Some (RDesc addr (Z.of_nat (length p)) (Z.lor DD EOP) 0) /\
    buffers a !! addr = Some b /\ take (length p) b = p.
Definition desc_free (a : nic D) (i : nat) : Prop := exists d, RDescLayout a !! i = Some d /\ has (rd_status d) DD = false.
(** The packets [q] wait in the ring. *)
Record ring (a : nic D) (q : list (list Z)) : Prop := {
  ri_length : length (RDescLayout a) = 16%nat;
  ri_tail : 0 <= rdt (hw a) < 16;
  ri_size : (length q <= 15)%nat;
  ri_head : rdh (hw a) = (rdt (hw a) + 1 + Z.of_nat (length q)) mod 16;
  ri_distinct : NoDup (rd_addr <$> RDescLayout a);
  ri_pages : forall d, d ∈ RDescLayout a -> exists b, buffers a !! rd_addr d = Some b /\ length b = 4096%nat;
  ri_packets : forall k p, q !! k = Some p -> holds_packet a (slot (rdt (hw a)) k) p;
  ri_free : forall k, (length q <= k < 16)%nat -> desc_free a (slot (rdt (hw a)) k);
}.
Definition good (p : list Z) : Prop := (60 <= length p <= 1518)%nat /\ bytes p.
Definition received (p : list Z) : frame :=
  Frame (p ++ map junk (seq (length p) (1518 - length p))) (if MinFrameSize <=? Z.of_nat (length p) then Z.of_nat (length p) else MinFrameSize).

Lemma slot_lt t k : 0 <= t -> (slot t k < 16)%nat.
Proof. intros Ht. unfold slot. lia_dm. Qed.
Lemma rx_slot_inj t j k : 0 <= t < 16 -> (j < 16)%nat -> (k < 16)%nat -> slot t j = slot t k -> j = k.
Proof. unfold slot. intros Ht Hj Hk E. lia_dm. Qed.
Lemma slot_next t k : 0 <= t < 16 -> slot ((t + 1) mod 16) k = slot t (S k).
Proof. unfold slot. intros Ht. f_equal. lia_dm. Qed.

Lemma arrive_ring a q p : ring a q -> good p -> ring (arrive p a) (if decide (length q < 15)%nat then q ++ [p] else q).
Proof.
  intros [H1 H2 H3 H4 H5 H6 H7 H8] [Hg Hb]. unfold arrive. rewrite H4. destruct (decide (length q < 15)%nat) as [Hq|Hq].
  - rewrite (proj2 (Z.eqb_neq _ _)) by lia_dm. set (h := slot (rdt (hw a)) (length q)). change (Z.to_nat ((rdt (hw a) + 1 + Z.of_nat (length q)) mod 16)) with h.
    destruct (H8 (length q) ltac:(lia)) as (d & Hd & Hs). fold h in Hd. rewrite Hd.
    assert (Hdin : d ∈ RDescLayout a) by (by eapply list_elem_of_lookup_2). destruct (H6 d Hdin) as (b & Hb1 & Hb2).
    assert (Hh : (h < 16)%nat) by (apply slot_lt; lia).
    destruct (head_moves (((rdt (hw a) + 1 + Z.of_nat (length q)) mod 16 + 1) mod 16) (hw a)) as [Eh Et].
    assert (Eaddr : rd_addr <$> <[h := RDesc (rd_addr d) (Z.of_nat (length p)) (Z.lor DD EOP) 0]> (RDescLayout a) = rd_addr <$> RDescLayout a).
    { rewrite list_fmap_insert. cbn. apply list_insert_id. by rewrite list_lookup_fmap, Hd. }
    split; cbn [hw RDescLayout buffers]; rewrite ?Eh, ?Et, ?length_insert, ?length_app; cbn [length]; try done; try lia.
    + lia_dm.
    + by rewrite Eaddr.
    + intros d' Hd'. assert (Ha : rd_addr d' ∈ rd_addr <$> RDescLayout a) by (rewrite <-Eaddr; by apply list_elem_of_fmap_2).
      apply list_elem_of_fmap in Ha as (d2 & E2 & Hd2). destruct (H6 d2 Hd2) as (b2 & Hb2' & Hl2). rewrite <-E2 in Hb2'.
      destruct (decide (rd_addr d' = rd_addr d)) as [E|E].
      * rewrite E, lookup_alter_eq, Hb1. eexists. split; [done|]. rewrite length_splice by lia. done.
      * rewrite lookup_alter_ne by done. by exists b2.
    + intros k p' Hk. destruct (decide (k = length q)) as [->|Hne].
      * rewrite lookup_app_r, Nat.sub_diag in Hk by lia. injection Hk as <-. fold h. exists (rd_addr d), (splice b 0 p). cbn [RDescLayout buffers].
        rewrite list_lookup_insert_eq by lia. split; [done|]. rewrite lookup_alter_eq, Hb1. split; [done|].
        unfold splice. rewrite take_0. cbn [app]. apply take_app_length.
      * assert (Hlt : (k < length q)%nat) by (apply lookup_lt_Some in Hk; rewrite length_app in Hk; cbn in Hk; lia). rewrite lookup_app_l in Hk by done.
        destruct (H7 k p' Hk) as (addr & b' & R1 & R2 & R3). assert (Hsl : slot (rdt (hw a)) k <> h) by (intros E; apply rx_slot_inj in E; lia).
        exists addr, b'. cbn [RDescLayout buffers]. rewrite list_lookup_insert_ne by done. split; [done|]. rewrite lookup_alter_ne; [done|].
        intros E. apply Hsl. eapply (NoDup_lookup _ _ _ addr H5); rewrite list_lookup_fmap; [by rewrite R1|rewrite Hd; cbn; by rewrite E].
    + intros k Hk. destruct (H8 k ltac:(lia)) as (d' & R1 & R2). exists d'. cbn [RDescLayout]. rewrite list_lookup_insert_ne; [done|]. intros E. apply rx_slot_inj in E; lia.
  - replace (length q) with 15%nat by lia. rewrite (proj2 (Z.eqb_eq _ _)) by lia_dm. by split.
Qed.
(** The first packet is taken: its descriptor is free again, at the end of the ring. *)
Lemma take_ring a p q d (a' := set_hw (reg_write RDT ((rdt (hw a) + 1) mod 16) (hw a))
    (set_RDescLayout (<[slot (rdt (hw a)) 0 := set_rd_status 0 d]> (RDescLayout a)) a)) :
  ring a (p :: q) -> RDescLayout a !! slot (rdt (hw a)) 0 = Some d -> ring a' q.
Proof.
  intros [H1 H2 H3 H4 H5 H6 H7 H8] Hd. set (t := rdt (hw a)) in *. destruct (write_rdt ((t + 1) mod 16) (hw a) ltac:(lia_dm)) as [Et Eh].
  assert (Hs0 : (slot t 0 < 16)%nat) by (apply slot_lt; lia). cbn [length] in *.
  assert (Eaddr : rd_addr <$> <[slot t 0 := set_rd_status 0 d]> (RDescLayout a) = rd_addr <$> RDescLayout a).
  { rewrite list_fmap_insert. cbn. apply list_insert_id. by rewrite list_lookup_fmap, Hd. }
  split; unfold a'; cbn [hw RDescLayout buffers set_hw set_RDescLayout]; rewrite ?Et, ?Eh, ?length_insert; try done; try lia.
  - lia_dm.
  - rewrite H4. lia_dm.
  - by rewrite Eaddr.
  - intros d' Hd'. assert (Ha : rd_addr d' ∈ rd_addr <$> RDescLayout a) by (rewrite <-Eaddr; by apply list_elem_of_fmap_2).
    apply list_elem_of_fmap in Ha as (d2 & E2 & Hd2). rewrite E2. by apply H6.
  - intros k p' Hk. assert ((k < length q)%nat) by (by eapply lookup_lt_Some). rewrite slot_next by done. destruct (H7 (S k) p' Hk) as (addr & b & R1 & R2 & R3). exists addr, b.
    cbn [RDescLayout buffers set_hw set_RDescLayout]. rewrite list_lookup_insert_ne; [done|]. intros E. apply rx_slot_inj in E; lia.
  - intros k Hk. rewrite slot_next by done. destruct (decide (k = 15)%nat) as [->|Hne].
    + exists (set_rd_status 0 d). cbn [RDescLayout set_hw set_RDescLayout]. replace (slot t 16) with (slot t 0) by (unfold slot; f_equal; lia_dm). by rewrite list_lookup_insert_eq by lia.
    + destruct (H8 (S k) ltac:(lia)) as (d' & R1 & R2). exists d'. cbn [RDescLayout set_hw set_RDescLayout]. rewrite list_lookup_insert_ne; [done|]. intros E. apply rx_slot_inj in E; lia.
Qed.
Lemma from_device b p : good p -> take (length p) b = p -> FromDevice b (Z.of_nat (length p)) = Some (received p).
Proof.
  intros [Hg _] Hb. unfold FromDevice, received. rewrite (proj2 (Z.leb_le 0 _)), (proj2 (Z.leb_le _ MaxFrameSize)) by (unfold MaxFrameSize; lia).
  cbn [andb]. by rewrite Nat2Z.id, Hb.
Qed.
Lemma get_rdt_wp (a : nic D) Q : 0 <= rdt (hw a) < 16 -> Q (rdt (hw a)) a [] -> wp (GetRegister RDT) a Q.
Proof. intros Hr HQ. unfold GetRegister. apply wp_bind, wp_get. rewrite read_rdt. apply wp_bind, wp_mod, wp_ret. rewrite u32_small by lia. by destruct a. Qed.
Lemma rx_at_wp (a : nic D) i d Q : RDescLayout a !! Z.to_nat i = Some d -> Q d a [] -> wp (rx_at i) a Q.
Proof. intros Hd HQ. unfold rx_at. apply wp_bind, wp_get. rewrite Hd. by apply wp_ret. Qed.

(** [l] stored in the array from [n] on. *)
Definition stored (FB : list frame) (n : nat) (l : list frame) : list frame := take n FB ++ l ++ drop (n + length l) FB.
Lemma stored_nil FB n : stored FB n [] = FB.
Proof. unfold stored. cbn. rewrite Nat.add_0_r. apply take_drop. Qed.
Lemma stored_cons FB n f l : (n < length FB)%nat -> stored (<[n := f]> FB) (S n) l = stored FB n (f :: l).
Proof.
  intros Hn. unfold stored. cbn [length app]. rewrite (take_S_r _ _ f) by (by apply list_lookup_insert_eq). rewrite take_insert_ge, drop_insert_lt by lia.
  rewrite <-app_assoc. cbn. do 3 f_equal. f_equal. lia.
Qed.
Lemma receive_loop_wp q : forall fuel FB n a Q, ring a q -> Forall good q -> (length q <= fuel)%nat -> length FB = EtherFrameBufferMaxSize ->
  (n + length q <= EtherFrameBufferMaxSize)%nat ->
  (forall a', ring a' [] -> MACAddress a' = MACAddress a -> Q (Z.of_nat (n + length q), stored FB n (received <$> q)) a' []) ->
  wp (receive_loop fuel FB n) a Q.
Proof.
  induction q as [|p q IH]; intros fuel FB n a Q Hr Hg Hfuel HFB Hn HQ; pose proof (ri_tail _ _ Hr) as Ht; destruct fuel as [|fuel]; cbn [length] in *; try lia; cbn [receive_loop];
    apply wp_bind, get_rdt_wp; try done; unfold RDescLayoutMaxSize; apply wp_bind.
  1,2: destruct (ri_free _ _ Hr 0%nat ltac:(cbn; lia)) as (d & Hd & Hs); unfold slot in Hd; rewrite Z.add_0_r in Hd; apply (rx_at_wp a _ d); [done|];
    rewrite Hs; apply wp_ret; rewrite Nat.add_0_r, stored_nil in HQ; by apply HQ.
  apply Forall_cons in Hg as [Hp Hg]. destruct (ri_packets _ _ Hr 0%nat p eq_refl) as (addr & b & R1 & R2 & R3). pose proof R1 as R1'. unfold slot in R1. rewrite Z.add_0_r in R1.
  apply (rx_at_wp a _ _ _ R1). cbn [rd_status rd_length rd_errors rd_addr]. change (has (Z.lor DD EOP) DD) with true. change (has (Z.lor DD EOP) EOP) with true. cbn [negb].
  rewrite (proj2 (Z.ltb_ge _ _)) by (destruct Hp; lia). change (negb (0 =? 0)) with false. cbv iota.
  apply wp_bind. unfold page_at. apply wp_bind, wp_get. rewrite R2. apply wp_ret. rewrite (from_device b p Hp R3). rewrite decide_False by lia.
  apply wp_bind, wp_mod, wp_bind. unfold SetRegister at 1. apply wp_mod. rewrite u32_small by lia_dm. pose proof (take_ring a p q _ Hr R1') as Hr'. unfold slot in Hr'. rewrite Z.add_0_r in Hr'.
  apply IH; [exact Hr'|done|lia|by rewrite length_insert|lia|]. intros a' Ha' Hm. cbn [MACAddress set_hw set_RDescLayout] in Hm.
  replace (S n + length q)%nat with (n + S (length q))%nat by lia. rewrite stored_cons by lia. by apply HQ.
Qed.

(** A packet of less than 60 bytes at the front: [Receive] fails and leaves it there, for ever. *)
Lemma short_packet_wedges (a : nic D) addr n FB : 0 <= rdt (hw a) < 16 -> 0 <= n < 60 ->
  RDescLayout a !! slot (rdt (hw a)) 0 = Some (RDesc addr n (Z.lor DD EOP) 0) -> wp (Receive FB) a (fun r a' _ => r = (short_packet, FB) /\ a' = a).
Proof.
  intros Ht Hn Hd. unfold slot in Hd. rewrite Z.add_0_r in Hd. unfold Receive. cbn [receive_loop RDescLayoutMaxSize Z.to_nat].
  change (Z.to_nat RDescLayoutMaxSize) with 16%nat. cbn [receive_loop]. apply wp_bind, get_rdt_wp; [done|]. apply wp_bind. apply (rx_at_wp a _ _ _ Hd).
  cbn [rd_status rd_length]. change (has (Z.lor DD EOP) DD) with true. cbn [negb]. rewrite (proj2 (Z.ltb_lt _ _)) by lia. by apply wp_ret.
Qed.

(** The ring after it was set up. *)
Lemma set_register_wp (a : nic D) r v Q : Q tt (set_hw (reg_write r (u32 v) (hw a)) a) [] -> wp (SetRegister r v) a Q.
Proof. intros HQ. unfold SetRegister. by apply wp_mod. Qed.
Lemma set_flags_wp (a : nic D) r fl Q : (forall d', r <> RDT -> r <> RDH -> r <> CTRL -> rdt d' = rdt (hw a) /\ rdh d' = rdh (hw a) -> Q tt (set_hw d' a) []) ->
  r <> RDT -> r <> RDH -> r <> CTRL -> wp (set_flags r fl) a Q.
Proof.
  intros HQ H1 H2 H3. unfold set_flags, GetRegister. apply wp_bind, wp_bind, wp_get. pose proof (read_keeps r (hw a)) as [K1 K2]. destruct (reg_read r (hw a)) as [v d]. cbn [Datatypes.snd] in *.
  apply wp_bind, wp_mod, wp_ret, set_register_wp. cbn [set_hw hw]. destruct (write_keeps r (u32 (foldl Z.lor (u32 v) fl)) d H1 H2 H3) as [K3 K4]. apply HQ; try done. split; congruence.
Qed.
Definition fresh_descs (pages : list Z) : list rdesc := map (fun i => RDesc (nth i pages 0) 0 0 0) (seq 0 (Z.to_nat RDescLayoutMaxSize)).
Lemma fresh_desc pages k : (k < 16)%nat -> fresh_descs pages !! k = Some (RDesc (nth k pages 0) 0 0 0).
Proof. intros Hk. unfold fresh_descs. change (map ?f ?l) with (f <$> l). by rewrite list_lookup_fmap, lookup_seq_lt by (unfold RDescLayoutMaxSize; lia). Qed.
Lemma fresh_ring (a : nic D) pages : RDescLayout a = fresh_descs pages -> rdt (hw a) = 15 -> rdh (hw a) = 0 -> length pages = 16%nat -> NoDup pages ->
  (forall x, x ∈ pages -> exists b, buffers a !! x = Some b /\ length b = 4096%nat) -> ring a [].
Proof.
  intros Hd Ht Hh Hl Hn Hp. assert (Ed : rd_addr <$> fresh_descs pages = pages).
  { apply list_eq. intros k. rewrite list_lookup_fmap. destruct (decide (k < 16)%nat) as [Hk|Hk].
    - rewrite fresh_desc by done. cbn. rewrite nth_lookup. destruct (lookup_lt_is_Some_2 pages k) as [x Hx]; [lia|]. by rewrite Hx.
    - rewrite (lookup_ge_None_2 pages) by lia. rewrite lookup_ge_None_2; [done|]. unfold fresh_descs. rewrite length_map, length_seq. unfold RDescLayoutMaxSize. lia. }
  split; rewrite ?Hd, ?Ht, ?Hh; cbn [length]; try done; try lia.
  - by rewrite Ed.
  - intros d Hdd. apply Hp. rewrite <-Ed. by apply list_elem_of_fmap_2.
  - intros k Hk. exists (RDesc (nth (slot 15 k) pages 0) 0 0 0). rewrite Hd, fresh_desc; [done|]. apply slot_lt. lia.
Qed.
Lemma setup_ring (a : nic D) ring_addr pages : length pages = 16%nat -> NoDup pages -> (forall x, x ∈ pages -> exists b, buffers a !! x = Some b /\ length b = 4096%nat) ->
  wp (SetupPacketReception ring_addr pages) a (fun _ a' _ => ring a' []).
Proof.
  intros Hl Hn Hp. unfold SetupPacketReception, AllocateReceiveDescrBuffer. change (map _ _) with (fresh_descs pages).
  apply wp_bind, wp_mod. do 5 (apply wp_bind, set_register_wp). cbn [hw set_hw set_RDescLayout]. unfold RDescLayoutMaxSize. rewrite (u32_small 0), (u32_small (16 - 1)) by lia.
  set (d0 := reg_write RDLEN _ _). destruct (write_rdh 0 d0 ltac:(lia)) as [E1 _]. set (d1 := reg_write RDH 0 d0) in *. destruct (write_rdt (16 - 1) d1 ltac:(lia)) as [E2 E3]. set (d2 := reg_write RDT (16 - 1) d1) in *.
  apply wp_bind, set_flags_wp; try done. intros d3 _ _ _ [F1 F2]. apply set_flags_wp; try done. intros d4 _ _ _ [F3 F4]. cbn [hw set_hw set_RDescLayout] in *.
  apply (fresh_ring _ pages); cbn [hw set_hw set_RDescLayout RDescLayout buffers]; try done; congruence || lia.
Qed.
End ring.

(** ** The interrupt *)

Lemma wp_bind_inv {T A B} (m : K T A) (f : A -> K T B) x Q : wp (kbind m f) x Q -> wp m x (fun a x1 t1 => wp (f a) x1 (fun b x2 t2 => Q b x2 (t1 ++ t2))).
Proof. unfold wp, kbind. destruct (m x) as [t [a x1|]]; [|done]. by destruct (f a x1) as [t2 [b x2|]]. Qed.

Section interrupt.
Context {D S : Type} `{HC : Controller D} `{HF : Fresh}.
Context (ProtocolInvokers : list (Z * (nat -> frame -> K S unit))).
Implicit Types (s : netsys D S).

(** The handlers of a frame. *)
Definition call (c : nat * frame) : K S unit :=
  for_each ProtocolInvokers (fun '(ty, Main) => kwhen (GetEtherType c.2 =? ty) (Main c.1 c.2)).
Definition pending (a : nic D) : bool := has (u32 (reg_read ICR (hw a)).1) RXT0.
(** What an interrupt hands over, adapter by adapter. *)
Definition accepted (i : nat) (a : nic D) (q : list (list Z)) : list (nat * frame) :=
  pair i <$> filter (fun f => FrameFilter (MACAddress a) f = true) (received <$> q).
Fixpoint deliveries (i : nat) (l : list (nic D)) (qs : list (list (list Z))) : list (nat * frame) :=
  match l, qs with
  | a :: l, q :: qs => (if pending a then accepted i a q else []) ++ deliveries (Datatypes.S i) l qs
  | _, _ => []
  end.
Fixpoint drained (l : list (nic D)) (qs : list (list (list Z))) : list (list (list Z)) :=
  match l, qs with
  | a :: l, q :: qs => (if pending a then [] else q) :: drained l qs
  | _, _ => []
  end.

Lemma ring_hw (a : nic D) q d : ring a q -> rdt d = rdt (hw a) -> rdh d = rdh (hw a) -> ring (set_hw d a) q.
Proof. intros [H1 H2 H3 H4 H5 H6 H7 H8] Et Eh. split; cbn [hw set_hw RDescLayout buffers]; rewrite ?Et, ?Eh; done. Qed.
Lemma read_icr_wp (a : nic D) q Q : ring a q ->
  (forall d, ring (set_hw d a) q -> Q (u32 (reg_read ICR (hw a)).1) (set_hw d a) []) -> wp (GetRegister ICR) a Q.
Proof.
  intros Hr HQ. unfold GetRegister. apply wp_bind, wp_get. destruct (read_keeps ICR (hw a)) as [K1 K2]. destruct (reg_read ICR (hw a)) as [v d].
  apply wp_bind, wp_mod, wp_ret. apply HQ. by apply ring_hw.
Qed.
Lemma on_adapter_wp {A} i (m : K (nic D) A) s a Q : NetworkAdapterList s !! i = Some a ->
  wp m a (fun r a' t => Q r (set_adapters (<[i := a']> (NetworkAdapterList s)) s) t) -> wp (on_adapter i m) s Q.
Proof. intros Ha. unfold wp, on_adapter. rewrite Ha. by destruct (m a) as [t [r a'|]]. Qed.
Lemma invoke_wp dev f s Q : wp (call (dev, f)) (protocols s) (fun _ x t => Q tt (set_protocols x s) t) -> wp (invoke ProtocolInvokers dev f) s Q.
Proof.
  unfold call, invoke. cbn [fst Datatypes.snd]. revert s Q. induction ProtocolInvokers as [|[ty Main] l IH]; intros s Q HQ; cbn [for_each] in *.
  - apply wp_ret. by destruct s.
  - apply wp_bind. apply wp_bind_inv in HQ. destruct (GetEtherType f =? ty); cbn [kwhen] in *.
    + apply wp_zoom. eapply wp_mono; [exact HQ|]. intros u x1 t1 H1. apply IH. exact H1.
    + apply wp_ret. apply IH. exact HQ.
Qed.
Lemma handler_wp dev s a m k Q : NetworkAdapterList s !! dev = Some a -> (k + m <= length (GlobalEtherFrameBuffer s))%nat ->
  wp (for_each (pair dev <$> filter (fun f => FrameFilter (MACAddress a) f = true) (take m (drop k (GlobalEtherFrameBuffer s)))) call) (protocols s)
    (fun _ x t => Q tt (set_protocols x s) t) ->
  wp (for_each (seq k m) (fun k =>
    let! s := kget in
    match GlobalEtherFrameBuffer s !! k, NetworkAdapterList s !! dev with
    | Some f, Some a => kwhen (FrameFilter (MACAddress a) f) (invoke ProtocolInvokers dev f)
    | _, _ => fault
    end)) s Q.
Proof.
  revert s k Q. induction m as [|m IH]; intros s k Q Ha Hk HQ; cbn [seq for_each].
  - apply wp_ret. revert HQ. rewrite take_0. by destruct s.
  - destruct (lookup_lt_is_Some_2 (GlobalEtherFrameBuffer s) k) as [f Hf]; [lia|]. rewrite (drop_S _ f k Hf), firstn_cons, filter_cons in HQ.
    apply wp_bind, wp_bind, wp_get. rewrite Hf, Ha. destruct (FrameFilter (MACAddress a) f) eqn:E; cbn [kwhen].
    + rewrite decide_True, fmap_cons in HQ by done. cbn [for_each] in HQ. apply wp_bind_inv in HQ. apply invoke_wp. eapply wp_mono; [exact HQ|].
      intros u x t Hx. apply IH; [done|cbn [GlobalEtherFrameBuffer set_protocols]; lia|]. exact Hx.
    + rewrite decide_False in HQ by done. apply wp_ret. apply IH; [done|lia|]. exact HQ.
Qed.

Definition rings s (qs : list (list (list Z))) : Prop :=
  Forall2 ring (NetworkAdapterList s) qs /\ length (GlobalEtherFrameBuffer s) = EtherFrameBufferMaxSize.
Lemma turn_wp i s a q Q : NetworkAdapterList s !! i = Some a -> ring a q -> Forall good q -> length (GlobalEtherFrameBuffer s) = EtherFrameBufferMaxSize ->
  wp (for_each (if pending a then accepted i a q else []) call) (protocols s) (fun _ x t => forall a' n fb,
    ring a' (if pending a then [] else q) -> length fb = EtherFrameBufferMaxSize -> Q None (Netsys (<[i := a']> (NetworkAdapterList s)) n fb x) t) ->
  wp (adapter_interrupt ProtocolInvokers i) s Q.
Proof.
  intros Ha Hr Hg HFB HQ. assert (Hi : (i < length (NetworkAdapterList s))%nat) by (by eapply lookup_lt_Some).
  unfold adapter_interrupt. apply wp_bind. apply (on_adapter_wp i _ s a _ Ha). unfold HasInterrupt. apply wp_bind. apply (read_icr_wp a q _ Hr). intros d Hd. apply wp_ret.
  change (has (u32 (reg_read ICR (hw a)).1) RXT0) with (pending a). destruct (pending a).
  - set (s1 := set_adapters _ s). assert (Ha1 : NetworkAdapterList s1 !! i = Some (set_hw d a)) by (by apply list_lookup_insert_eq).
    apply wp_bind, wp_get, wp_bind. apply (on_adapter_wp i _ s1 _ _ Ha1). pose proof (ri_size _ _ Hd) as Hq. unfold EtherFrameBufferMaxSize in *.
    apply (receive_loop_wp q); [done|done|change (Z.to_nat RDescLayoutMaxSize) with 16%nat; lia|done|unfold EtherFrameBufferMaxSize; lia|]. intros a2 Hr2 Hm2.
    rewrite Nat.add_0_l. apply wp_bind, wp_mod. rewrite u64_small by lia. set (s2 := set_frames _ _ _).
    assert (Ha2 : NetworkAdapterList s2 !! i = Some a2) by (apply list_lookup_insert_eq; cbn; by rewrite length_insert).
    apply wp_bind. apply (on_adapter_wp i _ s2 _ _ Ha2). unfold ClearInterrupt. apply wp_bind. apply (read_icr_wp a2 [] _ Hr2). intros d3 Hd3. apply wp_ret.
    rewrite (proj2 (Z.eqb_neq _ 0xBABABABA)), (proj2 (Z.eqb_neq _ 0xBAADF00D)), (proj2 (Z.ltb_ge _ 0)) by lia. cbn [orb]. rewrite i32_small_id by lia.
    apply wp_bind. unfold FrameBufferHandler. rewrite Nat2Z.id. set (s3 := set_adapters _ s2).
    assert (Ha3 : NetworkAdapterList s3 !! i = Some (set_hw d3 a2)) by (apply list_lookup_insert_eq; cbn; by rewrite !length_insert).
    assert (Hfb : length (stored (GlobalEtherFrameBuffer s) 0 (received <$> q)) = 180%nat).
    { unfold stored. rewrite !length_app, length_take, length_drop, !length_fmap. lia. }
    apply (handler_wp i s3 _ _ 0 _ Ha3); [change (GlobalEtherFrameBuffer s3) with (stored (GlobalEtherFrameBuffer s) 0 (received <$> q)); lia|].
    change (GlobalEtherFrameBuffer s3) with (stored (GlobalEtherFrameBuffer s) 0 (received <$> q)). change (protocols s3) with (protocols s). change (MACAddress (set_hw d3 a2)) with (MACAddress a2).
    assert (Et : take (length q) (drop 0 (stored (GlobalEtherFrameBuffer s) 0 (received <$> q))) = received <$> q).
    { rewrite drop_0. unfold stored. rewrite take_0. cbn [app]. rewrite <-(length_fmap received q) at 1. apply take_app_length. }
    rewrite Et. replace (MACAddress a2) with (MACAddress a) by (by rewrite Hm2). eapply wp_mono; [exact HQ|]. intros u x t Hx. apply wp_ret. cbn [app]. rewrite app_nil_r.
    unfold s3, s2, s1, set_protocols, set_adapters, set_frames. cbn [NetworkAdapterList EtherFrameBufferCurrentSize GlobalEtherFrameBuffer protocols].
    rewrite !list_insert_insert_eq. by apply Hx.
  - apply wp_ret. destruct s as [l n fb x]. cbn. by apply HQ.
Qed.

(** The adapters before [i] are drained, the others as they were. *)
Lemma interrupt_loop m : forall i l qs s qs' Q, drop i (NetworkAdapterList s) = l -> length l = m -> rings s (qs' ++ qs) -> length qs' = i -> Forall (Forall good) qs ->
  wp (for_each (deliveries i l qs) call) (protocols s) (fun _ x t => forall s', protocols s' = x -> rings s' (qs' ++ drained l qs) -> Q None s' t) ->
  wp (for_return (seq i m) (adapter_interrupt ProtocolInvokers)) s Q.
Proof.
  induction m as [|m IH]; intros i l qs s qs' Q Hl Hlen [Hr HFB] Hi Hg HQ; cbn [seq for_return].
  - apply wp_ret. destruct l; [|done]. pose proof (Forall2_length _ _ _ Hr) as E. apply (f_equal length) in Hl. rewrite length_drop in Hl. rewrite length_app in E. cbn in Hl.
    assert (qs = []) as -> by (apply nil_length_inv; lia). by apply HQ.
  - destruct l as [|a l]; [done|]. injection Hlen as Hlen. assert (Ha : NetworkAdapterList s !! i = Some a) by (rewrite <-(Nat.add_0_r i), <-lookup_drop, Hl; done).
    pose proof (Forall2_lookup_l _ _ _ _ _ Hr Ha) as (q & Hq & Hra). rewrite lookup_app_r, Hi, Nat.sub_diag in Hq by lia. destruct qs as [|q' qs]; [done|]. injection Hq as ->.
    apply Forall_cons in Hg as [Hgq Hg]. cbn [deliveries drained] in HQ. apply wp_bind. apply (turn_wp i s a q _ Ha Hra Hgq HFB).
    eapply wp_keq in HQ; [|symmetry; apply for_each_app]. apply wp_bind_inv in HQ. eapply wp_mono; [exact HQ|]. intros u x t Hx a' n fb Hra' Hfb'.
    apply (IH _ l qs _ (qs' ++ [if pending a then [] else q])); [|done| | |done|].
    + cbn [NetworkAdapterList]. rewrite drop_insert_lt by lia. rewrite <-Nat.add_1_r, <-drop_drop, Hl. done.
    + split; [|done]. cbn [NetworkAdapterList]. rewrite <-app_assoc. cbn [app].
      replace (qs' ++ (if pending a then [] else q) :: qs) with (<[i := if pending a then [] else q]> (qs' ++ q :: qs)) by (rewrite insert_app_r_alt, Hi, Nat.sub_diag by lia; done).
      by apply Forall2_insert.
    + rewrite length_app. cbn. lia.
    + cbn [protocols]. eapply wp_mono; [exact Hx|]. intros u' x' t' Hx' s' Hs' Hr'. apply Hx'; [done|]. by rewrite <-app_assoc in Hr'.
Qed.

(** Packets that arrive, each at an adapter. *)
Definition arrivals (ps : list (nat * list Z)) s : netsys D S :=
  foldl (fun s c => set_adapters (alter (arrive c.2) c.1 (NetworkAdapterList s)) s) s ps.
Definition enqueue (p : list Z) (q : list (list Z)) : list (list Z) := if decide (length q < 15)%nat then q ++ [p] else q.
Definition queued (ps : list (nat * list Z)) (qs : list (list (list Z))) : list (list (list Z)) :=
  foldl (fun qs c => alter (enqueue c.2) c.1 qs) qs ps.
Lemma arrivals_rings ps : forall s qs, rings s qs -> Forall (fun c => good c.2) ps -> Forall (Forall good) qs ->
  rings (arrivals ps s) (queued ps qs) /\ Forall (Forall good) (queued ps qs).
Proof.
  induction ps as [|[i p] ps IH]; intros s qs [Hr Hf] Hp Hg; [done|]. apply Forall_cons in Hp as [Hp1 Hp]. cbn [Datatypes.snd] in Hp1. apply IH; [split; [|done]|done|].
  - cbn [fst Datatypes.snd NetworkAdapterList set_adapters]. apply Forall2_alter; [done|]. intros a q _ _ Ha. by apply arrive_ring.
  - cbn [fst Datatypes.snd]. apply Forall_alter; [done|]. intros q _ Hq. unfold enqueue. destruct (decide _); [|done]. apply Forall_app. by split; [|constructor].
Qed.
Lemma arrivals_protocols ps s : protocols (arrivals ps s) = protocols s.
Proof. revert s. induction ps as [|c ps IH]; intros s; [done|]. exact (IH (set_adapters _ s)). Qed.

End interrupt.

(** An adapter whose registers are its tail, its head and its interrupt causes. *)
#[export] Instance demo_registers : Registers (Z * Z * Z) := {
  reg_read r d := let '(t, h, c) := d in if r =? RDT then (t, d) else if r =? RDH then (h, d) else if r =? ICR then (c, (t, h, 0)) else (0, d);
  reg_write r v d := let '(t, h, c) := d in if r =? RDT then (v, h, c) else if r =? RDH then (t, v, c) else d;
}.
#[export] Instance demo_controller : Controller (Z * Z * Z).
Proof.
  refine {| rdt := fun d => d.1.1; rdh := fun d => d.1.2; set_head := fun v d => (d.1.1, v, RXT0) |}.
  - by intros [[t h] c].
  - intros r [[t h] c]. cbn. destruct (r =? RDT), (r =? RDH), (r =? ICR); done.
  - by intros v [[t h] c] _.
  - by intros v [[t h] c] _.
  - intros r v [[t h] c] H1 H2 _. cbn. apply Z.eqb_neq in H1, H2. by rewrite H1, H2.
  - by intros v [[t h] c].
Defined.
#[local] Instance demo_junk : Fresh := {| junk := fun _ => 0; junk_byte := fun _ => conj (Z.le_refl 0) eq_refl |}.
Definition demo_pages : list Z := map (fun i => 4096 * Z.of_nat i) (seq 1 16).
Definition demo_nic : nic (Z * Z * Z) :=
  Nic (15, 0, 0) (fresh_descs demo_pages) [] (gset_to_gmap (replicate 4096 0) (list_to_set demo_pages)) [2; 0; 0; 0; 0; 1].
(** A broadcast of type 0x0806, and one for another address. *)
Definition demo_packets : list (nat * list Z) :=
  [(0%nat, replicate 6 255 ++ replicate 6 9 ++ [8; 6] ++ replicate 50 7); (0%nat, replicate 6 3 ++ replicate 6 9 ++ [8; 6] ++ replicate 50 7)].
Definition demo_invokers : list (Z * (nat -> frame -> K (list (nat * frame)) unit)) := [(2048, fun _ _ => fault); (2054, fun dev f => kmod (fun l => l ++ [(dev, f)]))].
