(* ===== verification/Grep.v ===== *)
(** * Searching text: user/grep.c

    The matcher of patterns, against the language that a pattern denotes, and the loop over a
    buffer that feeds it lines.  A C string is the list of its characters, which are not 0; what
    lies behind its end reads as 0.  The buffer of [grep] is a list of 1024 bytes, and reading
    past it is [None]. *)

From stdpp Require Import base list sets.
From Stdlib Require Import ZArith Lia.
From S2P Require Import Prelude CString.
Open Scope Z_scope.

Definition ch_hat : Z := 94.
Definition ch_dot : Z := 46.
Definition ch_star : Z := 42.
Definition ch_dollar : Z := 36.
Definition newline : Z := 10.

(** ** The matcher *)

(** [do { if (matchhere(re, text)) return 1; } while ( *text != 0 && ( *text++ == c || c == '.'));] *)
Fixpoint matchstar (matchhere_re : list Z -> bool) (c : Z) (text : list Z) : bool :=
  if matchhere_re text then true
  else
    match text with
    | [] => false
    | t :: text => if ((t =? c) || (c =? ch_dot))%bool then matchstar matchhere_re c text else false
    end.

Fixpoint matchhere (re text : list Z) : bool :=
  match re with
  | [] => true
  | c :: re1 =>
      let plain :=
        if ((c =? ch_dollar) && bool_decide (re1 = []))%bool then bool_decide (text = [])
        else
          match text with
          | t :: text => if ((c =? ch_dot) || (c =? t))%bool then matchhere re1 text else false
          | [] => false
          end in
      match re1 with
      | s :: re2 => if s =? ch_star then matchstar (matchhere re2) c text else plain
      | [] => plain
      end
  end.

(** [do { if (matchhere(re, text)) return 1; } while ( *text++ != 0);] *)
Fixpoint match_loop (re text : list Z) : bool :=
  if matchhere re text then true
  else match text with [] => false | _ :: text => match_loop re text end.
Definition grep_match (re text : list Z) : bool :=
  match re with
  | c :: re' => if c =? ch_hat then matchhere re' text else match_loop re text
  | [] => match_loop re text
  end.

(** ** What a pattern denotes

    [denotes re w rest]: the pattern [re] matches [w] where [rest] follows it. *)

Definition fits (c t : Z) : Prop := c = ch_dot \/ c = t.
Inductive denotes : list Z -> list Z -> list Z -> Prop :=
| DNil rest : denotes [] [] rest
| DStar c re ws w rest : Forall (fits c) ws -> denotes re w rest -> denotes (c :: ch_star :: re) (ws ++ w) rest
| DEnd : denotes [ch_dollar] [] []
| DChar c re t w rest : head re <> Some ch_star -> (c = ch_dollar -> re <> []) -> fits c t -> denotes re w rest ->
    denotes (c :: re) (t :: w) rest.

(** Somewhere in [text], or at its start when the pattern begins with a hat. *)
Definition occurs (re text : list Z) : Prop :=
  exists pre w rest, text = pre ++ w ++ rest /\
    (if decide (head re = Some ch_hat) then pre = [] /\ denotes (tail re) w rest else denotes re w rest).

(** ** Matching is what the pattern denotes *)

Lemma fits_test c t : ((c =? ch_dot) || (c =? t))%bool = true <-> fits c t.
Proof. unfold fits. by rewrite orb_true_iff, !Z.eqb_eq. Qed.
Lemma fits_test_star c t : ((t =? c) || (c =? ch_dot))%bool = true <-> fits c t.
Proof. unfold fits. rewrite orb_true_iff, !Z.eqb_eq. naive_solver. Qed.

Lemma matchstar_spec (m : list Z -> bool) c text :
  matchstar m c text = true <-> exists ws rest, text = ws ++ rest /\ Forall (fits c) ws /\ m rest = true.
Proof.
  induction text as [|t text IH]; cbn [matchstar].
  - destruct (m []) eqn:E.
    + split; [intros _; by exists [], []|done].
    + split; [done|]. intros (ws & rest & Ht & _ & Hm). symmetry in Ht. apply app_eq_nil in Ht as [_ ->]. congruence.
  - destruct (m (t :: text)) eqn:E; [split; [intros _; by exists [], (t :: text)|done]|].
    destruct ((t =? c) || (c =? ch_dot))%bool eqn:Ec.
    + rewrite IH. split.
      * intros (ws & rest & -> & Hf & Hm). exists (t :: ws), rest. split_and!; [done| |done]. constructor; [by apply fits_test_star|done].
      * intros ([|u ws] & rest & Ht & Hf & Hm); [cbn in Ht; congruence|]. injection Ht as <- ->. apply Forall_cons in Hf as [_ Hf]. by exists ws, rest.
    + split; [done|]. intros ([|u ws] & rest & Ht & Hf & Hm); [cbn in Ht; congruence|]. injection Ht as <- ->.
      apply Forall_cons in Hf as [Hf _]. apply fits_test_star in Hf. congruence.
Qed.

(** The pattern without a star at its front. *)
Lemma denotes_plain c re text : head re <> Some ch_star ->
  (exists w rest, text = w ++ rest /\ denotes (c :: re) w rest) <->
  (if decide (c = ch_dollar /\ re = []) then text = []
   else exists t text', text = t :: text' /\ fits c t /\ exists w rest, text' = w ++ rest /\ denotes re w rest).
Proof.
  intros Hs. split.
  - intros (w & rest & -> & Hd). inversion Hd; subst; [done|by rewrite decide_True|].
    rewrite decide_False by naive_solver. eexists _, _. split; [done|]. split; [done|]. by eexists _, _.
  - case_decide as Hd.
    + destruct Hd as [-> ->]. intros ->. exists [], []. split; [done|constructor].
    + intros (t & text' & -> & Hf & w & rest & -> & Hw). exists (t :: w), rest. split; [done|]. constructor; [done|naive_solver|done|done].
Qed.
Lemma matchhere_spec re text : matchhere re text = true <-> exists w rest, text = w ++ rest /\ denotes re w rest.
Proof.
  revert text. induction re as [re IH] using (induction_ltof1 _ (@length Z)); unfold ltof in IH. intros text.
  destruct re as [|c re1]; [split; [intros _; exists [], text; split; [done|constructor]|done]|]. cbn [matchhere].
  assert (Hplain : head re1 <> Some ch_star ->
    (if ((c =? ch_dollar) && bool_decide (re1 = []))%bool then bool_decide (text = [])
     else match text with t :: text => if ((c =? ch_dot) || (c =? t))%bool then matchhere re1 text else false | [] => false end) = true <->
    exists w rest, text = w ++ rest /\ denotes (c :: re1) w rest).
  { intros Hs. rewrite denotes_plain by done. case_decide as Hd.
    - destruct Hd as [-> ->]. cbn. by rewrite bool_decide_eq_true.
    - replace ((c =? ch_dollar) && bool_decide (re1 = []))%bool with false.
      2: { symmetry. apply not_true_iff_false. rewrite andb_true_iff, Z.eqb_eq, bool_decide_eq_true. naive_solver. }
      destruct text as [|t text]; [split; [done|naive_solver]|]. destruct ((c =? ch_dot) || (c =? t))%bool eqn:Ec.
      + rewrite IH by (cbn; lia). apply fits_test in Ec. split; [intros Hw; by exists t, text|by intros (? & ? & [= <- <-] & _ & Hw)].
      + split; [done|]. intros (? & ? & [= <- <-] & Hf & _). apply fits_test in Hf. congruence. }
  destruct re1 as [|s re2]; [by apply Hplain|]. destruct (Z.eqb_spec s ch_star) as [->|Hs]; [|apply Hplain; naive_solver].
  rewrite matchstar_spec. split.
  - intros (ws & rest & -> & Hf & Hm). apply IH in Hm as (w & rest' & -> & Hw); [|cbn; lia]. exists (ws ++ w), rest'. rewrite <-app_assoc. by split; [|constructor].
  - intros (w & rest & -> & Hd). inversion Hd; subst; [|done]. rewrite <-app_assoc. eexists _, _. split; [done|].
    split; [done|]. apply IH; [cbn; lia|]. by eexists _, _.
Qed.
Lemma match_loop_occurs re text : match_loop re text = true <-> exists pre w rest, text = pre ++ w ++ rest /\ denotes re w rest.
Proof.
  induction text as [|t text IH]; cbn [match_loop].
  - destruct (matchhere re []) eqn:E.
    + apply matchhere_spec in E as (w & rest & Ht & Hd). split; [intros _; by exists [], w, rest|done].
    + split; [done|]. intros (pre & w & rest & Ht & Hd). symmetry in Ht. apply app_eq_nil in Ht as [_ Ht].
      enough (matchhere re [] = true) by congruence. apply matchhere_spec. by exists w, rest.
  - destruct (matchhere re (t :: text)) eqn:E.
    + apply matchhere_spec in E as (w & rest & Ht & Hd). split; [intros _; by exists [], w, rest|done].
    + rewrite IH. split.
      * intros (pre & w & rest & -> & Hd). by exists (t :: pre), w, rest.
      * intros ([|u pre] & w & rest & Ht & Hd).
        { enough (matchhere re (t :: text) = true) by congruence. apply matchhere_spec. by exists w, rest. }
        injection Ht as <- ->. by exists pre, w, rest.
Qed.

(** C31. The matcher agrees with the meaning of patterns: [match] returns 1 exactly when the pattern
    occurs in the text, a star standing for any number of its character, a dot for any
    character, a hat for the start of the text and a dollar at the end for its end. *)
Theorem match_is_denotation re text : grep_match re text = true <-> occurs re text.
Proof.
  unfold grep_match, occurs. destruct re as [|c re]; [rewrite match_loop_occurs; done|]. cbn [head tail].
  destruct (Z.eqb_spec c ch_hat) as [->|Hc].
  - destruct (decide (Some ch_hat = Some ch_hat)); [|done]. rewrite matchhere_spec. split.
    + intros (w & rest & -> & Hd). by exists [], w, rest.
    + intros (pre & w & rest & -> & -> & Hd). by exists w, rest.
  - destruct (decide (Some c = Some ch_hat)); [congruence|]. apply match_loop_occurs.
Qed.

(** ** The loop over the input *)

Definition BUFSIZE : nat := 1024.
(** [read(fd, p, n)] from an input that arrives in pieces. *)
Definition read (n : nat) (input : list (list Z)) : list Z * list (list Z) :=
  match input with
  | [] => ([], [])
  | d :: ds => if decide (length d <= n)%nat then (d, ds) else (take n d, drop n d :: ds)
  end.

(** [while ((q = strchr(p, '\n')) != 0) { ... }]: the buffer, [p] and what was written. *)
Fixpoint lines_loop (fuel : nat) (pattern buf : list Z) (p : nat) (out : list (list Z)) : option (list Z * nat * list (list Z)) :=
  strchr (drop p buf) newline ≫= fun r =>
  match r with
  | None => Some (buf, p, out)
  | Some k =>
      let q := (p + k)%nat in
      poke buf q 0 ≫= fun buf0 =>
      match fuel with
      | O => None
      | S fuel =>
          if grep_match pattern (cstr (drop p buf0)) then
            poke buf0 q newline ≫= fun buf1 => lines_loop fuel pattern buf1 (q + 1) (out ++ [slice buf1 p (q + 1 - p)])
          else lines_loop fuel pattern buf0 (q + 1) out
      end
  end.
(** [while ((n = read(fd, buf+m, sizeof(buf)-m)) > 0) { ... }]; [m] is an int that can become
    negative, and the call of memmove then never ends within memory. *)
Fixpoint grep_loop (fuel : nat) (pattern buf : list Z) (m : nat) (input : list (list Z)) (out : list (list Z)) : option (list Z * list (list Z)) :=
  let '(d, input) := read (BUFSIZE - m) input in
  match d with
  | [] => Some (buf, out)
  | _ =>
      match fuel with
      | O => None
      | S fuel =>
          let buf := splice buf m d in
          let m := (m + length d)%nat in
          lines_loop BUFSIZE pattern buf 0 out ≫= fun '(buf, p, out) =>
          let m := if decide (p = 0)%nat then 0%nat else m in
          if decide (0 < m)%nat then
            if decide (m < p)%nat then None
            else sys_memmove buf 0 p (m - p) ≫= fun buf => grep_loop fuel pattern buf (m - p) input out
          else grep_loop fuel pattern buf m input out
      end
  end.
Definition grep (pattern : list Z) (input : list (list Z)) : option (list (list Z)) :=
  (fun r => r.2) <$> grep_loop (length (concat input)) pattern (replicate BUFSIZE 0) 0 input [].

(** ** One read *)

(** The lines of a text that end with a newline. *)
Fixpoint lines_from (l text : list Z) : list (list Z) :=
  match text with
  | [] => []
  | c :: text => if c =? newline then l :: lines_from [] text else lines_from (l ++ [c]) text
  end.
Definition lines_of (text : list Z) : list (list Z) := lines_from [] text.
Definition printed (pattern text : list Z) : list (list Z) :=
  (fun l => l ++ [newline]) <$> filter (fun l => grep_match pattern l = true) (lines_of text).

Notation texty l := (Forall (fun c => c <> 0) l).
Lemma strchr_found l r i : texty l -> newline ∉ l -> strchr_from (l ++ newline :: r) newline i = Some (Some (i + length l)%nat).
Proof.
  revert i. induction l as [|c l IH]; intros i Hl Hn; cbn; [by rewrite Nat.add_0_r|]. apply Forall_cons in Hl as [Hc Hl].
  rewrite (proj2 (Z.eqb_neq c 0)) by done. rewrite (proj2 (Z.eqb_neq c newline)) by set_solver. rewrite IH by (done || set_solver). do 2 f_equal. lia.
Qed.
Lemma strchr_ends l r i : texty l -> newline ∉ l -> strchr_from (l ++ 0 :: r) newline i = Some None.
Proof.
  revert i. induction l as [|c l IH]; intros i Hl Hn; cbn; [done|]. apply Forall_cons in Hl as [Hc Hl].
  rewrite (proj2 (Z.eqb_neq c 0)) by done. rewrite (proj2 (Z.eqb_neq c newline)) by set_solver. apply IH; [done|set_solver].
Qed.
Lemma split_line text : newline ∉ text \/ exists l r, text = l ++ newline :: r /\ newline ∉ l.
Proof.
  induction text as [|c text IH]; [left; set_solver|]. destruct (decide (c = newline)) as [->|Hc]; [right; exists [], text; split; [done|set_solver]|].
  destruct IH as [Hn|(l & r & -> & Hn)]; [left; set_solver|right]. exists (c :: l), r. split; [done|set_solver].
Qed.
Lemma lines_from_app k l r : newline ∉ l -> lines_from k (l ++ newline :: r) = (k ++ l) :: lines_of r.
Proof.
  revert k. induction l as [|c l IH]; intros k Hn; cbn; [by rewrite app_nil_r|]. rewrite (proj2 (Z.eqb_neq c newline)) by set_solver.
  rewrite IH by set_solver. by rewrite <-app_assoc.
Qed.
Lemma lines_from_none k l : newline ∉ l -> lines_from k l = [].
Proof.
  revert k. induction l as [|c l IH]; intros k Hn; cbn; [done|]. rewrite (proj2 (Z.eqb_neq c newline)) by set_solver. apply IH. set_solver.
Qed.
Lemma poke_mid (a b : list Z) x y : poke (a ++ x :: b) (length a) y = Some (a ++ y :: b).
Proof. unfold poke. rewrite decide_True by (rewrite length_app; cbn; lia). f_equal. rewrite insert_app_r_alt by done. by rewrite Nat.sub_diag. Qed.

(** The lines of what was read, with a 0 behind it. *)
Lemma lines_loop_run pattern fuel done text z out : texty text -> (length text <= fuel)%nat ->
  exists buf p, lines_loop fuel pattern (done ++ text ++ 0 :: z) (length done) out = Some (buf, p, out ++ printed pattern text) /\
    (length done <= p <= length done + length text)%nat /\ length buf = length (done ++ text ++ 0 :: z).
Proof.
  revert done text out. induction fuel as [|fuel IH]; intros done text out Ht Hf.
  - destruct text; [|cbn in Hf; lia]. exists (done ++ 0 :: z), (length done). cbn. rewrite drop_app_length. cbn. unfold printed. cbn. rewrite app_nil_r. split; [done|lia].
  - destruct (split_line text) as [Hn|(l & r & -> & Hn)]; cbn [lines_loop]; rewrite drop_app_length; unfold strchr.
    + rewrite strchr_ends by done. cbn. unfold printed, lines_of. rewrite lines_from_none by done. cbn. rewrite app_nil_r. eexists _, _. split; [done|lia].
    + apply Forall_app in Ht as [Hl [_ Hr]%Forall_cons]. rewrite <-app_assoc. cbn [app]. rewrite strchr_found by done. cbn [mbind option_bind].
      rewrite Nat.add_0_l. rewrite (app_assoc done l), <-length_app. rewrite poke_mid. cbn [mbind option_bind].
      rewrite <-(app_assoc done l), drop_app_length, cstr_nonzero_app by done. cbn [cstr Z.eqb]. rewrite app_nil_r.
      assert (Hp : printed pattern (l ++ newline :: r) =
        (if grep_match pattern l then [l ++ [newline]] else []) ++ printed pattern r).
      { unfold printed, lines_of. rewrite lines_from_app by done. rewrite app_nil_l. rewrite filter_cons. destruct (grep_match pattern l); done. }
      rewrite Hp. rewrite length_app in Hf. cbn in Hf. destruct (grep_match pattern l).
      * rewrite (app_assoc done l), poke_mid. cbn [mbind option_bind].
        replace (slice _ (length done) _) with (l ++ [newline]).
        2: { unfold slice. rewrite <-app_assoc, drop_app_length, length_app. replace (length done + length l + 1 - length done)%nat with (length (l ++ [newline])) by (rewrite length_app; cbn; lia).
             replace (l ++ newline :: r ++ 0 :: z) with ((l ++ [newline]) ++ r ++ 0 :: z) by (by rewrite <-app_assoc). by rewrite take_app_length. }
        destruct (IH ((done ++ l) ++ [newline]) r (out ++ [l ++ [newline]]) Hr) as (buf & p & E & Hp' & Hb); [lia|].
        exists buf, p. rewrite <-app_assoc in E. cbn [app] in E. rewrite !length_app in *. cbn [length] in *.
        rewrite E. rewrite <-!app_assoc. cbn [app]. split; [done|]. split; [lia|]. rewrite Hb. cbn. rewrite ?length_app. cbn. lia.
      * destruct (IH ((done ++ l) ++ [0]) r out Hr) as (buf & p & E & Hp' & Hb); [lia|].
        exists buf, p. rewrite <-!app_assoc in E. cbn [app] in E. rewrite !length_app in *. cbn [length] in *. replace (length done + length l + 1)%nat with (length done + (length l + 1))%nat by lia.
        rewrite E. split; [done|]. split; [lia|]. rewrite Hb. cbn. rewrite ?length_app. cbn. lia.
Qed.

(** C32. For a text that one read returns, without 0 and shorter than the buffer, grep ends and writes
    exactly the lines that match, each once, in order and with their newlines.  (After a second
    read it may not: [grep_reads_stale].) *)
Theorem grep_prints_matches pattern text : Forall (fun c => c <> 0) text -> (length text < BUFSIZE)%nat ->
  grep pattern [text] = Some (printed pattern text).
Proof.
  intros Ht Hl. unfold grep. cbn [concat]. rewrite app_nil_r. destruct text as [|c text]; [done|]. set (d := c :: text) in *.
  change (length d) with (S (length text)). cbn [grep_loop]. unfold read. rewrite decide_True by (unfold d in *; lia).
  assert (Hs : splice (replicate BUFSIZE 0) 0 d = [] ++ d ++ 0 :: replicate (BUFSIZE - length d - 1) 0).
  { unfold splice. rewrite drop_replicate, Nat.add_0_l. f_equal. f_equal. by replace (BUFSIZE - length d)%nat with (S (BUFSIZE - length d - 1)) at 1 by lia. }
  unfold d at 1. cbv iota. fold d. rewrite Hs.
  destruct (lines_loop_run pattern BUFSIZE [] d (replicate (BUFSIZE - length d - 1) 0) []) as (buf & p & E & Hp & Hb); [done|lia|].
  rewrite app_nil_l in *. cbn [length] in E. rewrite E. cbn [mbind option_bind]. rewrite app_nil_l in *. cbn [length] in Hp.
  assert (Hlen : length buf = BUFSIZE) by (rewrite Hb, length_app; cbn [length]; rewrite length_replicate; lia).
  destruct (decide (p = 0)%nat).
  - rewrite decide_False by lia. by destruct (length text).
  - rewrite decide_True by (unfold d; cbn; lia). rewrite decide_False by lia. rewrite memmove_spec by lia. cbn [mbind option_bind]. by destruct (length text).
Qed.
(** "ab", "c" and "ba" searched for b. *)
Lemma grep_prints_matches_witness : grep [98] [[97; 98; 10; 99; 10; 98; 97; 10]] = Some [[97; 98; 10]; [98; 97; 10]].
Proof.
  rewrite grep_prints_matches; [vm_compute; reflexivity| |].
  - repeat constructor; discriminate.
  - cbn. unfold BUFSIZE. lia.
Defined.
(** Interactive use: a line, then a shorter one.  What is left of the first is taken for a line. *)
Lemma grep_reads_stale : grep [ch_dot] [[97; 98; 99; newline]; [100; newline]] = None /\
  grep [ch_dot] [[97; newline]; [98; newline]] = Some [[97; newline]; [98; newline]].
Proof. split; vm_compute; reflexivity. Qed.
