(* ===== verification/Sh.v ===== *)
(** * The command language of the shell: the parser of user/sh.c

    A [char *] into the line is the list of the characters from there on, and its end [es] the empty
    list, where the terminator 0 is read.  The parser is code over the pointer [*ps], which panics
    on an error.  [parsecmd_total] shows that it ends on every line, and [parse_print] that it
    reads back every command that is written down. *)

From stdpp Require Import base list strings.
From Stdlib Require Import ZArith Lia.
From S2P Require Import Prelude CString.
Open Scope Z_scope.

(** ** Commands *)

Definition MAXARGS : nat := 10.
(** Over the words of the line: pairs of pointers, or the words themselves. *)
Inductive cmd (A : Type) :=
| Exec (argv : list A)
| Redir (c : cmd A) (file : A) (mode fd : Z)
| Pipe (left right : cmd A)
| List_ (left right : cmd A)
| Back (c : cmd A).
Arguments Exec {A}.
Arguments Redir {A}.
Arguments Pipe {A}.
Arguments List_ {A}.
Arguments Back {A}.
Fixpoint cmd_map {A B} (f : A -> B) (c : cmd A) : cmd B :=
  match c with
  | Exec argv => Exec (f <$> argv)
  | Redir c file mode fd => Redir (cmd_map f c) (f file) mode fd
  | Pipe l r => Pipe (cmd_map f l) (cmd_map f r)
  | List_ l r => List_ (cmd_map f l) (cmd_map f r)
  | Back c => Back (cmd_map f c)
  end.

Definition O_RDONLY : Z := 2.
Definition O_WRONLY : Z := 4.
Definition O_CREATE : Z := 16.

(** ** Tokens *)

Definition whitespace : list Z := [32; 9; 13; 10; 11].
Definition symbols : list Z := [60; 124; 62; 38; 59; 40; 41].
(** [strchr(l, c)] for a string [l]. *)
Definition among (l : list Z) (c : Z) : bool := existsb (Z.eqb c) l.
#[global] Arguments among : simpl never.

(** [while (s < es && strchr(whitespace, *s)) s++;] *)
Fixpoint skip (s : list Z) : list Z :=
  match s with c :: s' => if among whitespace c then skip s' else s | [] => [] end.
(** [while (s < es && !strchr(whitespace, *s) && !strchr(symbols, *s)) s++;] *)
Fixpoint word_end (s : list Z) : list Z :=
  match s with c :: s' => if (among whitespace c || among symbols c)%bool then s else word_end s' | [] => [] end.

Notation span := (list Z * list Z)%type.     (* q and eq *)
Definition ch_a : Z := 97.
Definition ch_plus : Z := 43.
(** The kind of the token, its span, and the pointer behind it. *)
Definition gettoken (s : list Z) : Z * span * list Z :=
  let s := skip s in
  let '(ret, e) :=
    match s with
    | [] => (0, [])
    | c :: s' =>
        if c =? 0 then (0, s)
        else if among [124; 40; 41; 59; 38; 60] c then (c, s')
        else if c =? 62 then match s' with c' :: s'' => if c' =? 62 then (ch_plus, s'') else (62, s') | [] => (62, s') end
        else (ch_a, word_end s)
    end in
  (ret, (s, e), skip e).
Definition peek (toks : list Z) (s : list Z) : bool * list Z :=
  let s := skip s in
  (match s with c :: _ => negb (c =? 0) && among toks c | [] => false end, s).

(** ** The parser *)

Notation P := (K (list Z)).
Definition p_peek (toks : list Z) : P bool := let! s := kget in let '(r, s) := peek toks s in kmod (fun _ => s) ;;; kret r.
Definition p_token : P (Z * span) := let! s := kget in let '(r, q, s) := gettoken s in kmod (fun _ => s) ;;; kret (r, q).

(** A redirection, as [parseredirs] puts it around a command. *)
Record redir (A : Type) := Rd { r_file : A; r_mode : Z; r_fd : Z }.
Arguments Rd {A}.
Arguments r_file {A}.
Arguments r_mode {A}.
Arguments r_fd {A}.
Definition add_redir {A} (c : cmd A) (r : redir A) : cmd A := Redir c (r_file r) (r_mode r) (r_fd r).
Definition redir_of {A} (tok : Z) (file : A) : list (redir A) :=
  if tok =? 60 then [Rd file O_RDONLY 0]
  else if tok =? 62 then [Rd file (Z.lor O_WRONLY O_CREATE) 1]
  else if tok =? ch_plus then [Rd file (Z.lor O_WRONLY O_CREATE) 1]
  else [].
(** [parseredirs]: the redirections in order. *)
Fixpoint parseredirs (fuel : nat) (rs : list (redir span)) : P (list (redir span)) :=
  let! more := p_peek [60; 62] in
  if negb more then kret rs
  else
    match fuel with
    | O => kstop NoFuel
    | S fuel =>
        let! (tok, _) := p_token in
        let! (kind, file) := p_token in
        if negb (kind =? ch_a) then panic "missing file for redirection"
        else parseredirs fuel (rs ++ redir_of tok file)
    end.
(** The loop of [parseexec] over the arguments.  The [execcmd] under the redirections is the one
    that the arguments are stored in. *)
Fixpoint parseargs (fuel : nat) (argv : list span) (rs : list (redir span)) : P (list span * list (redir span)) :=
  let! stop := p_peek [124; 41; 38; 59] in
  if stop : bool then kret (argv, rs)
  else
    match fuel with
    | O => kstop NoFuel
    | S fuel =>
        let! (tok, q) := p_token in
        if tok =? 0 then kret (argv, rs)
        else if negb (tok =? ch_a) then panic "syntax"
        else
          let argv := argv ++ [q] in
          if decide (MAXARGS <= length argv)%nat then panic "too many args"
          else
            let! rs := parseredirs fuel rs in
            parseargs fuel argv rs
    end.
(** [while (peek(ps, es, "&")) { gettoken(...); cmd = backcmd(cmd); }] *)
Fixpoint parseback (fuel : nat) (c : cmd span) : P (cmd span) :=
  let! more := p_peek [38] in
  if negb more then kret c
  else match fuel with O => kstop NoFuel | S fuel => p_token ;;; parseback fuel (Back c) end.

Fixpoint parseline (fuel : nat) : P (cmd span) :=
  match fuel with
  | O => kstop NoFuel
  | S fuel =>
      let! c := parsepipe fuel in
      let! c := parseback fuel c in
      let! more := p_peek [59] in
      if more : bool then p_token ;;; let! c' := parseline fuel in kret (List_ c c') else kret c
  end
with parsepipe (fuel : nat) : P (cmd span) :=
  match fuel with
  | O => kstop NoFuel
  | S fuel =>
      let! c := parseexec fuel in
      let! more := p_peek [124] in
      if more : bool then p_token ;;; let! c' := parsepipe fuel in kret (Pipe c c') else kret c
  end
with parseexec (fuel : nat) : P (cmd span) :=
  match fuel with
  | O => kstop NoFuel
  | S fuel =>
      let! block := p_peek [40] in
      if block : bool then parseblock fuel
      else
        let! rs := parseredirs fuel [] in
        let! (argv, rs) := parseargs fuel [] rs in
        kret (foldl add_redir (Exec argv) rs)
  end
with parseblock (fuel : nat) : P (cmd span) :=
  match fuel with
  | O => kstop NoFuel
  | S fuel =>
      let! open := p_peek [40] in
      if negb open then panic "parseblock"
      else
        p_token ;;;
        let! c := parseline fuel in
        let! close := p_peek [41] in
        if negb close then panic "syntax - missing )"
        else
          p_token ;;;
          let! rs := parseredirs fuel [] in
          kret (foldl add_redir c rs)
  end.

(** [nulterminate]: a 0 behind every word, [n] being the length of the line. *)
Fixpoint nulterminate (n : nat) (c : cmd span) (buf : list Z) : list Z :=
  match c with
  | Exec argv => foldl (fun buf q => <[(n - length q.2)%nat := 0]> buf) buf argv
  | Redir c file _ _ => <[(n - length file.2)%nat := 0]> (nulterminate n c buf)
  | Pipe l r | List_ l r => nulterminate n r (nulterminate n l buf)
  | Back c => nulterminate n c buf
  end.

(** Enough for every call and every turn of a loop. *)
Definition parse_fuel (s : list Z) : nat := (4 * length s + 4)%nat.
(** The command, and the line with its terminator afterwards. *)
Definition parsecmd (s : list Z) : list event * outcome (list Z) (cmd span * list Z) :=
  (let! c := parseline (parse_fuel s) in
   p_peek [] ;;;
   let! rest := kget in
   if decide (rest = []) then kret (c, nulterminate (length s) c (s ++ [0])) else panic "syntax") s.

(** ** Every line is parsed or rejected *)

(** [m] returns from [s] in [Q], or panics; it never runs out of fuel. *)
Definition parses {A} (m : P A) (s : list Z) (Q : A -> list Z -> Prop) : Prop :=
  match (m s).2 with Ret a s' => Q a s' | Stop (Panicked _) _ => True | Stop _ _ => False end.

Lemma parses_bind {A B} (m : P A) (f : A -> P B) s Q R : parses m s Q -> (forall a s', Q a s' -> parses (f a) s' R) -> parses (kbind m f) s R.
Proof.
  unfold parses, kbind. intros Hm Hf. destruct (m s) as [t [a s'|r s']]; cbn in *; [|by destruct r]. specialize (Hf a s' Hm). by destruct (f a s').
Qed.
Lemma parses_ret {A} (a : A) s (Q : A -> list Z -> Prop) : Q a s -> parses (kret a) s Q.
Proof. done. Qed.
Lemma parses_panic {A} msg s (Q : A -> list Z -> Prop) : parses (panic msg) s Q.
Proof. done. Qed.
Lemma parses_mono {A} (m : P A) s (Q R : A -> list Z -> Prop) : parses m s Q -> (forall a s', Q a s' -> R a s') -> parses m s R.
Proof. unfold parses. intros Hm HR. destruct (m s) as [t [a s'|[] s']]; naive_solver. Qed.

Lemma skip_length s : (length (skip s) <= length s)%nat.
Proof. induction s as [|c s IH]; cbn; [done|]. case_match; cbn; lia. Qed.
Lemma word_end_length s : (length (word_end s) <= length s)%nat.
Proof. induction s as [|c s IH]; cbn; [done|]. case_match; cbn; lia. Qed.
Lemma skip_skip s : skip (skip s) = skip s.
Proof. induction s as [|c s IH]; cbn; [done|]. destruct (among whitespace c) eqn:E; [done|]. cbn. by rewrite E. Qed.

(** A token that is not the end is at least one character. *)
Lemma gettoken_length s : let '(ret, _, s') := gettoken s in (length s' <= length s)%nat /\ (ret <> 0 -> (length s' < length s)%nat).
Proof.
  unfold gettoken. pose proof (skip_length s) as Hs. destruct (skip s) as [|c t] eqn:E; [cbn; lia|]. cbn [length] in Hs.
  destruct (c =? 0) eqn:Ec; [pose proof (skip_length (c :: t)); cbn [length] in *; split; [lia|done]|].
  destruct (among _ c) eqn:Ea; [pose proof (skip_length t); split; [lia|intros _; lia]|].
  destruct (c =? 62) eqn:Eg.
  - assert (Hgen : forall e, (length e <= length t)%nat -> (length (skip e) <= length s)%nat /\ (length (skip e) < length s)%nat).
    { intros e He. pose proof (skip_length e). lia. }
    destruct t as [|c' t']; [split; [|intros _]; apply Hgen; done|].
    destruct (c' =? 62); (split; [|intros _]); apply Hgen; cbn; lia.
  - assert (He : (length (word_end (c :: t)) <= length t)%nat).
    { cbn. destruct (among whitespace c) eqn:Ew; cbn [orb].
      - exfalso. clear -E Ew. revert E Ew. induction s as [|d s IH]; cbn; [done|]. destruct (among whitespace d) eqn:Ed; [done|]. intros [= -> ->]. congruence.
      - destruct (among symbols c) eqn:Esym; [|apply word_end_length].
        exfalso. unfold among, symbols in *. cbn [existsb] in *. rewrite !orb_false_iff in Ea. rewrite !orb_true_iff in Esym. naive_solver congruence. }
    pose proof (skip_length (word_end (c :: t))). split; [lia|intros _; lia].
Qed.

(** ** The words of a line *)

Definition special (c : Z) : bool := among whitespace c || among symbols c.
Definition is_word (w : list Z) : Prop := w <> [] /\ Forall (fun c => special c = false) w.
(** The end of a word: the end of the line, or a character that no word has. *)
Definition word_stops (e : list Z) : Prop := match e with [] => True | c :: _ => special c = true end.
Definition good_span (line : list Z) (q : span) : Prop :=
  exists w, q.1 = w ++ q.2 /\ is_word w /\ word_stops q.2 /\ q.1 `suffix_of` line.
Fixpoint spans_ok (line : list Z) (c : cmd span) : Prop :=
  match c with
  | Exec argv => (length argv < MAXARGS)%nat /\ Forall (good_span line) argv
  | Redir c file _ _ => spans_ok line c /\ good_span line file
  | Pipe l r | List_ l r => spans_ok line l /\ spans_ok line r
  | Back c => spans_ok line c
  end.

Lemma skip_suffix s : skip s `suffix_of` s.
Proof. induction s as [|c s IH]; cbn; [done|]. case_match; [by apply suffix_cons_r|done]. Qed.
Lemma word_end_spec s : exists w, s = w ++ word_end s /\ Forall (fun c => special c = false) w /\ word_stops (word_end s).
Proof.
  induction s as [|c s (w & E & Hw & Hs)]; cbn [word_end]; [by exists []|]. fold (special c). destruct (special c) eqn:Ec.
  - exists []. split_and!; [done|constructor|exact Ec].
  - exists (c :: w). split_and!; [cbn; by f_equal|by constructor|done].
Qed.
Lemma good_span_suffix s line q : good_span s q -> s `suffix_of` line -> good_span line q.
Proof. intros (w & H1 & H2 & H3 & H4) Hs. exists w. split_and!; [done|done|done|by etrans]. Qed.

(** What a token leaves, and the span of a word. *)
Lemma gettoken_suffix s : let '(ret, q, s') := gettoken s in s' `suffix_of` s /\ (ret = ch_a -> good_span s q).
Proof.
  unfold gettoken. pose proof (skip_suffix s) as Hs. destruct (skip s) as [|c t] eqn:E; [split; [done|discriminate]|].
  assert (Hgen : forall e, e `suffix_of` c :: t -> skip e `suffix_of` s) by (intros e He; etrans; [apply skip_suffix|by etrans]).
  destruct (c =? 0) eqn:E0; [split; [by apply Hgen|discriminate]|].
  destruct (among _ c) eqn:Ea.
  { split; [apply Hgen; by apply suffix_cons_r|]. intros ->. discriminate. }
  destruct (c =? 62) eqn:Eg.
  - destruct t as [|c' t']; [split; [apply Hgen; by apply suffix_cons_r|discriminate]|].
    destruct (c' =? 62); (split; [apply Hgen|discriminate]); [apply suffix_cons_r, suffix_cons_r|apply suffix_cons_r]; done.
  - destruct (word_end_spec (c :: t)) as (w & Ew & Hw & Hst). split; [apply Hgen; exists w; exact Ew|]. intros _. exists w. split_and!; [done| |done|done].
    split; [|done]. intros ->. cbn [app] in Ew. revert Ew Hst. destruct (word_end (c :: t)) as [|d e]; [done|]. intros [= <- <-]. cbn. unfold special.
    rewrite orb_true_iff. intros [Hwh|Hsy].
    + clear -E Hwh. revert E. induction s as [|d s IH]; cbn; [done|]. destruct (among whitespace d) eqn:Ed; [done|]. intros [= -> ->]. congruence.
    + unfold among, symbols in *. cbn [existsb] in *. rewrite !orb_false_iff in Ea. rewrite !orb_true_iff in Hsy. naive_solver congruence.
Qed.

(** A pointer that moved on. *)
Definition onward (s s' : list Z) : Prop := s' `suffix_of` s /\ (length s' <= length s)%nat.
Lemma onward_trans s1 s2 s3 : onward s1 s2 -> onward s2 s3 -> onward s1 s3.
Proof. intros [A1 A2] [B1 B2]. split; [by etrans|lia]. Qed.
Lemma suffix_onward s s' : s' `suffix_of` s -> onward s s'.
Proof. intros Hs. split; [done|by apply suffix_length]. Qed.

Lemma p_peek_parses toks s : parses (p_peek toks) s (fun r s' => s' = skip s /\ onward s s' /\
  (r = true -> exists c t, s' = c :: t /\ c <> 0 /\ among toks c = true)).
Proof.
  unfold p_peek, peek, parses. cbn. pose proof (suffix_onward _ _ (skip_suffix s)) as Hs. destruct (skip s) as [|c t]; cbn; [done|]. split_and!; [done|done|].
  intros [E1 E2]%andb_true_iff. exists c, t. rewrite negb_true_iff, Z.eqb_neq in E1. done.
Qed.
Lemma p_token_parses s : parses p_token s (fun r s' => onward s s' /\ (r.1 <> 0 -> (length s' < length s)%nat) /\ (r.1 = ch_a -> good_span s r.2)).
Proof.
  unfold p_token, parses. cbn. pose proof (gettoken_length s) as Hg. pose proof (gettoken_suffix s) as Hg'.
  destruct (gettoken s) as [[r q] s']. destruct Hg as [H1 H2], Hg' as [H3 H4]. done.
Qed.
(** After a successful [peek] for symbols the next token is one of them. *)
Lemma among_in l c : among l c = true <-> In c l.
Proof. unfold among. rewrite existsb_exists. split; [intros (d & Hd & ->%Z.eqb_eq); done|intros Hc; exists c; by rewrite Z.eqb_refl]. Qed.
Lemma symbol_visible c : among symbols c = true -> among whitespace c = false.
Proof. rewrite among_in. cbn. intros Hc. destruct_or?; subst; done. Qed.
Lemma symbol_parses toks c t : among toks c = true -> c <> 0 -> forallb (among symbols) toks = true ->
  parses p_token (c :: t) (fun _ s' => onward (c :: t) s' /\ (length s' < length (c :: t))%nat).
Proof.
  intros Hc H0 Hs. rewrite forallb_forall in Hs. rewrite among_in in Hc. specialize (Hs c Hc). pose proof (symbol_visible c Hs) as Hv.
  pose proof (p_token_parses (c :: t)) as Hp. unfold parses, p_token in *. cbn -[length gettoken] in *.
  destruct (gettoken (c :: t)) as [[r q] s'] eqn:E. cbn -[length] in *. destruct Hp as (H1 & H2 & _). split; [done|]. apply H2.
  unfold gettoken in E. cbn [skip] in E. rewrite Hv, (proj2 (Z.eqb_neq c 0)) in E by done.
  destruct (among [124; 40; 41; 59; 38; 60] c); [by injection E as <- _ _|].
  destruct (c =? 62); [destruct t as [|c' t]; [by injection E as <- _ _|destruct (c' =? 62); by injection E as <- _ _]|by injection E as <- _ _].
Qed.

Section words.
Context (line : list Z).
Notation rs_ok rs := (Forall (fun r => good_span line (r_file r)) rs).

Lemma parseredirs_parses fuel rs s : s `suffix_of` line -> (length s <= fuel)%nat -> rs_ok rs ->
  parses (parseredirs fuel rs) s (fun rs' s' => onward s s' /\ rs_ok rs').
Proof.
  revert rs s. induction fuel as [|fuel IH]; intros rs s Hs Hf Hr; cbn [parseredirs]; (eapply parses_bind; [apply p_peek_parses|]);
    intros [|] s1 (-> & Ho & Hc); cbn [negb]; try (by apply parses_ret).
  - destruct (Hc eq_refl) as (c & t & E & _). rewrite E in Ho. destruct Ho as [_ Ho]. cbn in Ho. lia.
  - destruct (Hc eq_refl) as (c & t & E & H0 & Ha). rewrite E in *. eapply parses_bind; [by apply (symbol_parses [60; 62])|].
    intros [tok q] s2 [Ho2 H2]. eapply parses_bind; [apply p_token_parses|]. intros [kind file] s3 (Ho3 & _ & Hg). cbn [fst Datatypes.snd] in Hg.
    destruct (Z.eqb_spec kind ch_a) as [Ek|]; cbn [negb]; [|apply parses_panic]. specialize (Hg Ek).
    assert (H13 : onward s s3) by (eapply onward_trans; [exact Ho|eapply onward_trans; [exact Ho2|exact Ho3]]).
    assert (Hl : (length s3 <= fuel)%nat) by (destruct Ho as [_ Ho], Ho3 as [_ Ho3]; lia).
    eapply parses_mono; [apply IH; [etrans; [apply H13|done]|done|]|].
    + apply Forall_app. split; [done|]. assert (good_span line file) by (eapply good_span_suffix; [exact Hg|etrans; [apply Ho2|etrans; [apply Ho|done]]]).
      unfold redir_of. repeat case_match; repeat constructor; done.
    + intros rs' s4 [H4 H5]. split; [by eapply onward_trans|done].
Qed.
Lemma parseargs_parses fuel argv rs s : s `suffix_of` line -> (length s < fuel)%nat -> rs_ok rs -> (length argv < MAXARGS)%nat -> Forall (good_span line) argv ->
  parses (parseargs fuel argv rs) s (fun r s' => onward s s' /\ (length r.1 < MAXARGS)%nat /\ Forall (good_span line) r.1 /\ rs_ok r.2).
Proof.
  revert argv rs s. induction fuel as [|fuel IH]; intros argv rs s Hs Hf Hr Hn Ha; [lia|]. cbn [parseargs]. eapply parses_bind; [apply p_peek_parses|].
  intros [|] s1 (-> & Ho & _); [by apply parses_ret|].
  eapply parses_bind; [apply p_token_parses|]. intros [tok q] s2 (Ho2 & H2 & Hg). cbn [fst Datatypes.snd] in *.
  assert (H12 : onward s s2) by (by eapply onward_trans).
  destruct (Z.eqb_spec tok 0) as [->|Ht]; [by apply parses_ret|]. specialize (H2 Ht).
  destruct (Z.eqb_spec tok ch_a) as [Ek|]; cbn [negb]; [|apply parses_panic]. specialize (Hg Ek). case_decide as Hm; [apply parses_panic|].
  assert (Hl : (length s2 < fuel)%nat) by (destruct Ho as [_ Ho]; lia).
  eapply parses_bind; [apply parseredirs_parses; [etrans; [apply H12|done]|lia|done]|]. intros rs' s3 [H3 H4].
  eapply parses_mono; [apply IH|].
  - etrans; [apply H3|]. etrans; [apply H12|done].
  - destruct H3 as [_ H3]. lia.
  - done.
  - lia.
  - apply Forall_app. split; [done|]. repeat constructor. eapply good_span_suffix; [exact Hg|]. etrans; [apply Ho|done].
  - intros r s4 [H5 H6]. split; [|done]. eapply onward_trans; [exact H12|by eapply onward_trans].
Qed.
Lemma parseback_parses fuel c s : s `suffix_of` line -> (length s <= fuel)%nat -> spans_ok line c ->
  parses (parseback fuel c) s (fun c' s' => onward s s' /\ spans_ok line c').
Proof.
  revert c s. induction fuel as [|fuel IH]; intros c s Hs Hf Hok; cbn [parseback]; (eapply parses_bind; [apply p_peek_parses|]);
    intros [|] s1 (-> & Ho & Hc); cbn [negb]; try (by apply parses_ret).
  - destruct (Hc eq_refl) as (d & t & E & _). rewrite E in Ho. destruct Ho as [_ Ho]. cbn in Ho. lia.
  - destruct (Hc eq_refl) as (d & t & E & H0 & Ha). rewrite E in *. eapply parses_bind; [by apply (symbol_parses [38])|].
    intros ? s2 [Ho2 H2]. assert (H12 : onward s s2) by (by eapply onward_trans). destruct Ho as [_ Ho].
    eapply parses_mono; [apply IH; [etrans; [apply H12|done]|lia|done]|]. intros c' s3 [H3 H4]. split; [by eapply onward_trans|done].
Qed.
Lemma redirs_ok c rs : spans_ok line c -> rs_ok rs -> spans_ok line (foldl add_redir c rs).
Proof. revert c. induction rs as [|r rs IH]; intros c Hc Hr; [done|]. apply Forall_cons in Hr as [Hr Hrs]. by apply IH. Qed.

Notation fine s := (fun c s' => onward s s' /\ spans_ok line c).
Lemma parser_parses fuel : forall s, s `suffix_of` line ->
  ((4 * length s + 4 <= fuel)%nat -> parses (parseline fuel) s (fine s)) /\
  ((4 * length s + 3 <= fuel)%nat -> parses (parsepipe fuel) s (fine s)) /\
  ((4 * length s + 2 <= fuel)%nat -> parses (parseexec fuel) s (fine s)) /\
  ((4 * length s + 1 <= fuel)%nat -> parses (parseblock fuel) s (fine s)).
Proof.
  induction fuel as [|fuel IH]; intros s Hs; [split_and!; lia|].
  assert (HL : forall s, s `suffix_of` line -> (4 * length s + 4 <= fuel)%nat -> parses (parseline fuel) s (fine s)) by (intros; by apply IH).
  assert (HP : forall s, s `suffix_of` line -> (4 * length s + 3 <= fuel)%nat -> parses (parsepipe fuel) s (fine s)) by (intros; by apply IH).
  assert (HE : forall s, s `suffix_of` line -> (4 * length s + 2 <= fuel)%nat -> parses (parseexec fuel) s (fine s)) by (intros; by apply IH).
  assert (HB : forall s, s `suffix_of` line -> (4 * length s + 1 <= fuel)%nat -> parses (parseblock fuel) s (fine s)) by (intros; by apply IH).
  clear IH. split_and!; intros Hf; cbn [parseline parsepipe parseexec parseblock].
  - eapply parses_bind; [apply HP; [done|lia]|]. intros c s1 [O1 K1]. pose proof O1 as [S1 L1].
    eapply parses_bind; [apply parseback_parses; [by etrans|lia|exact K1]|]. intros c1 s2 [O2 K2]. pose proof (onward_trans _ _ _ O1 O2) as O12.
    eapply parses_bind; [apply p_peek_parses|]. intros [|] s3 (-> & O3 & Hc); pose proof (onward_trans _ _ _ O12 O3) as O13; [|by apply parses_ret].
    destruct (Hc eq_refl) as (d & t & E & H0 & Ha). rewrite E in *. eapply parses_bind; [by apply (symbol_parses [59])|]. intros ? s4 [O4 H4].
    pose proof (onward_trans _ _ _ O13 O4) as O14. destruct O13 as [_ L13].
    eapply parses_bind; [apply HL; [etrans; [apply O14|done]|lia]|]. intros c2 s5 [O5 K5]. apply parses_ret. split; [by eapply onward_trans|done].
  - eapply parses_bind; [apply HE; [done|lia]|]. intros c s1 [O1 K1].
    eapply parses_bind; [apply p_peek_parses|]. intros [|] s3 (-> & O3 & Hc); pose proof (onward_trans _ _ _ O1 O3) as O13; [|by apply parses_ret].
    destruct (Hc eq_refl) as (d & t & E & H0 & Ha). rewrite E in *. eapply parses_bind; [by apply (symbol_parses [124])|]. intros ? s4 [O4 H4].
    pose proof (onward_trans _ _ _ O13 O4) as O14. destruct O13 as [_ L13].
    eapply parses_bind; [apply HP; [etrans; [apply O14|done]|lia]|]. intros c2 s5 [O5 K5]. apply parses_ret. split; [by eapply onward_trans|done].
  - eapply parses_bind; [apply p_peek_parses|]. intros [|] s1 (-> & O1 & _); pose proof O1 as [S1 L1].
    + eapply parses_mono; [apply HB; [by etrans|lia]|]. intros c s2 [O2 K2]. split; [by eapply onward_trans|done].
    + eapply parses_bind; [apply parseredirs_parses; [by etrans|lia|constructor]|]. intros rs s2 [O2 K2]. pose proof (onward_trans _ _ _ O1 O2) as O12. pose proof O12 as [S12 L12].
      eapply parses_bind; [apply parseargs_parses; [by etrans|lia|done|unfold MAXARGS; cbn; lia|constructor]|].
      intros [argv rs'] s3 (O3 & N3 & A3 & K3). apply parses_ret. split; [by eapply onward_trans|]. by apply redirs_ok.
  - eapply parses_bind; [apply p_peek_parses|]. intros [|] s1 (-> & O1 & Hc); [|apply parses_panic]. cbn [negb].
    destruct (Hc eq_refl) as (d & t & E & H0 & Ha). rewrite E in *. eapply parses_bind; [by apply (symbol_parses [40])|]. intros ? s2 [O2 H2].
    pose proof (onward_trans _ _ _ O1 O2) as O12. destruct O1 as [_ L1].
    eapply parses_bind; [apply HL; [etrans; [apply O12|done]|lia]|]. intros c s3 [O3 K3]. pose proof (onward_trans _ _ _ O12 O3) as O13.
    eapply parses_bind; [apply p_peek_parses|]. intros [|] s4 (-> & O4 & Hc4); [|apply parses_panic]. cbn [negb]. pose proof (onward_trans _ _ _ O13 O4) as O14.
    destruct (Hc4 eq_refl) as (d4 & t4 & E4 & H04 & Ha4). rewrite E4 in *. eapply parses_bind; [by apply (symbol_parses [41])|]. intros ? s5 [O5 H5].
    pose proof (onward_trans _ _ _ O14 O5) as O15. pose proof O15 as [S15 L15].
    eapply parses_bind; [apply parseredirs_parses; [by etrans|lia|constructor]|]. intros rs s6 [O6 K6]. apply parses_ret.
    split; [by eapply onward_trans|by apply redirs_ok].
Qed.

(** ** Terminating the words *)

(** The string at a pointer into the line, in the line as it is now. *)
Definition string_at (buf : list Z) (q : span) : list Z := cstr (drop (length line - length q.1) buf).
Definition word_of (q : span) : list Z := take (length q.1 - length q.2) q.1.
(** The line with some of the ends of words cleared. *)
Record cut_at_ends (buf : list Z) : Prop := {
  cu_length : length buf = S (length line);
  cu_kept : forall i c, line !! i = Some c -> special c = false -> buf !! i = Some c;
}.
Lemma end_of_span q : good_span line q -> (length q.2 <= length line)%nat /\
  forall c, line !! (length line - length q.2)%nat = Some c -> special c = true.
Proof.
  intros (w & E & _ & Hst & [pre Hp]). rewrite E in Hp. assert (Hl : length line = (length pre + length w + length q.2)%nat) by (rewrite Hp, !length_app; lia).
  split; [lia|]. intros c. rewrite Hl. replace (length pre + length w + length q.2 - length q.2)%nat with (length (pre ++ w) + 0)%nat by (rewrite length_app; lia).
  rewrite Hp, app_assoc, lookup_app_r by lia. replace (length (pre ++ w) + 0 - length (pre ++ w))%nat with 0%nat by lia.
  destruct q.2 as [|d e]; [done|]. cbn. intros [= ->]. exact Hst.
Qed.
Lemma cut_keeps buf q : good_span line q -> cut_at_ends buf -> cut_at_ends (<[(length line - length q.2)%nat := 0]> buf).
Proof.
  intros Hq [Hl Hk]. destruct (end_of_span q Hq) as [_ He]. split; [by rewrite length_insert|]. intros i c Hi Hc.
  rewrite list_lookup_insert_ne; [by apply Hk|]. intros <-. specialize (He c Hi). congruence.
Qed.
Lemma cut_string buf q : good_span line q -> cut_at_ends buf -> buf !! (length line - length q.2)%nat = Some 0 -> Forall (fun c => c <> 0) line ->
  string_at buf q = word_of q.
Proof.
  intros (w & E & [_ Hw] & Hst & [pre Hp]) [Hl Hk] Hz H0. rewrite E in Hp.
  assert (Hn : length line = (length pre + length w + length q.2)%nat) by (rewrite Hp, !length_app; lia).
  unfold string_at, word_of. rewrite E, length_app. replace (length w + length q.2 - length q.2)%nat with (length w) by lia. rewrite take_app_length.
  replace (length line - (length w + length q.2))%nat with (length pre) by lia. replace (length line - length q.2)%nat with (length pre + length w)%nat in Hz by lia.
  assert (Hd : drop (length pre) buf = w ++ 0 :: drop (length pre + length w + 1) buf).
  { apply list_eq. intros j. rewrite lookup_drop. destruct (decide (j < length w)%nat) as [Hj|Hj].
    - rewrite lookup_app_l by done. destruct (lookup_lt_is_Some_2 w j Hj) as [c Hc]. rewrite Hc. apply Hk.
      + rewrite Hp, lookup_app_r by lia. replace (length pre + j - length pre)%nat with j by lia. by rewrite lookup_app_l.
      + rewrite Forall_lookup in Hw. by apply (Hw j).
    - rewrite lookup_app_r by lia. destruct (decide (j = length w)) as [->|Hne]; [by rewrite Nat.sub_diag|].
      replace (j - length w)%nat with (S (j - length w - 1)) by lia. 
      transitivity (drop (length pre + length w + 1) buf !! (j - length w - 1)%nat); [rewrite lookup_drop; f_equal; lia|done]. }
  rewrite Hd, cstr_nonzero_app; [cbn; by rewrite app_nil_r|]. rewrite Hp in H0. apply Forall_app in H0 as [_ H0]. by apply Forall_app in H0 as [H0 _].
Qed.

Fixpoint spans (c : cmd span) : list span :=
  match c with
  | Exec argv => argv
  | Redir c file _ _ => spans c ++ [file]
  | Pipe l r | List_ l r => spans l ++ spans r
  | Back c => spans c
  end.
Lemma spans_good c : spans_ok line c -> Forall (good_span line) (spans c).
Proof. induction c; cbn; rewrite ?Forall_app, ?Forall_singleton; naive_solver. Qed.
Definition cut (buf : list Z) (q : span) : list Z := <[(length line - length q.2)%nat := 0]> buf.
Lemma nulterminate_cuts c buf : nulterminate (length line) c buf = foldl cut buf (spans c).
Proof.
  revert buf. induction c as [argv|c IH file mode fd|l IHl r IHr|l IHl r IHr|c IH]; intros buf; cbn [nulterminate spans]; [done| | | |done].
  - by rewrite foldl_app, IH.
  - by rewrite foldl_app, IHl, IHr.
  - by rewrite foldl_app, IHl, IHr.
Qed.
Lemma cuts_end qs buf : Forall (good_span line) qs -> cut_at_ends buf ->
  cut_at_ends (foldl cut buf qs) /\ forall q, q ∈ qs -> foldl cut buf qs !! (length line - length q.2)%nat = Some 0.
Proof.
  intros Hq Hb. induction qs as [|q qs IH] using rev_ind; [split; [done|intros q Hq'; by apply elem_of_nil in Hq']|].
  apply Forall_app in Hq as [Hqs [Hq _]%Forall_cons]. destruct (IH Hqs) as [IH1 IH2]. rewrite foldl_app. cbn [foldl]. pose proof (cut_keeps _ q Hq IH1) as Hc.
  split; [done|]. intros q' [Hin|Hin]%elem_of_app; unfold cut at 1.
  - destruct (decide (length line - length q.2 = length line - length q'.2)%nat) as [->|Hne]; [|rewrite list_lookup_insert_ne by done; by apply IH2].
    apply list_lookup_insert_eq. rewrite (cu_length _ IH1). lia.
  - apply list_elem_of_singleton in Hin as ->. apply list_lookup_insert_eq. rewrite (cu_length _ IH1). lia.
Qed.
Lemma nulterminate_words c : Forall (fun c => c <> 0) line -> spans_ok line c ->
  Forall (fun q => is_word (word_of q) /\ string_at (nulterminate (length line) c (line ++ [0])) q = word_of q) (spans c).
Proof.
  intros H0 Hc. pose proof (spans_good c Hc) as Hg. rewrite nulterminate_cuts.
  assert (Hstart : cut_at_ends (line ++ [0])) by (split; [rewrite length_app; cbn; lia|intros i d Hi _; by rewrite lookup_app_l by (by eapply lookup_lt_Some)]).
  destruct (cuts_end (spans c) (line ++ [0]) Hg Hstart) as [H1 H2]. rewrite Forall_forall in Hg |- *. intros q Hq. specialize (Hg q Hq).
  split; [|by apply cut_string; [..|apply H2|]]. destruct Hg as (w & E & Hw & _). unfold word_of. rewrite E, length_app.
  replace (length w + length q.2 - length q.2)%nat with (length w) by lia. by rewrite take_app_length.
Qed.
End words.

(** C30. The shell reads every line: [parsecmd] ends, with a command or with a panic.  The words of a
    command, at most nine for each program, are words of the line, and after [nulterminate] the
    pointers lead to exactly these words. *)
Theorem parsecmd_total line : Forall (fun c => c <> 0) line ->
  match (parsecmd line).2 with
  | Ret (c, buf) _ => spans_ok line c /\ Forall (fun q => is_word (word_of q) /\ string_at line buf q = word_of q) (spans c)
  | Stop (Panicked _) _ => True
  | Stop _ _ => False
  end.
Proof.
  intros H0. enough (parses (fun s => parsecmd s) line (fun r s' => spans_ok line r.1 /\
    Forall (fun q => is_word (word_of q) /\ string_at line r.2 q = word_of q) (spans r.1))) as Hp
    by (unfold parses in Hp; by destruct (parsecmd line) as [t [[c buf] s'|[] s']]).
  assert (Hl : parses (parseline (parse_fuel line)) line (fun c s' => onward line s' /\ spans_ok line c)) by (apply (parser_parses line); [done|unfold parse_fuel; lia]).
  unfold parses, parsecmd in *. revert Hl. generalize (parseline (parse_fuel line)) as m. intros m Hl.
  apply (parses_bind m _ line _ _ Hl). intros c s1 [_ Hc]. eapply parses_bind; [apply p_peek_parses|]. intros ? s2 _.
  eapply (parses_bind _ _ _ (fun _ _ => True)); [done|]. intros rest s3 _. case_decide; [|apply parses_panic]. apply parses_ret.
  split; [done|]. by apply nulterminate_words.
Qed.

(** "ls a>b|wc" *)
Definition demo_line : list Z := [108; 115; 32; 97; 62; 98; 124; 119; 99].
Lemma parsecmd_total_witness : match (parsecmd demo_line).2 with
  | Ret (c, buf) _ => cmd_map word_of c = Pipe (Redir (Exec [[108; 115]; [97]]) [98] 20 1) (Exec [[119; 99]]) /\
      buf = [108; 115; 0; 97; 0; 98; 0; 119; 99; 0] /\ Forall (fun q => is_word (word_of q) /\ string_at demo_line buf q = word_of q) (spans c)
  | Stop _ _ => False
  end.
Proof.
  assert (H0 : Forall (fun c => c <> 0) demo_line) by (repeat constructor; discriminate).
  pose proof (parsecmd_total demo_line H0) as Ht.
  destruct (parsecmd demo_line) as [t [[c buf] s|r s]] eqn:E; cbn [Datatypes.snd] in *; [|revert E; vm_compute; discriminate].
  revert E. vm_compute. intros E. injection E as _ <- <- _. split; [reflexivity|]. split; [reflexivity|]. apply Ht.
Defined.

(** ** Reading back what was written *)

Section print.
(** The white space between tokens. *)
Context (sep : list Z) (Hsep : sep <> []) (Hwhite : Forall (fun c => among whitespace c = true) sep).

Inductive rkind := RIn | ROut | RAppend.
Inductive part := Arg (w : list Z) | Red (k : rkind) (w : list Z).
Inductive line := LEnd (p : pline) (amps : nat) | LSeq (p : pline) (amps : nat) (l : line)
with pline := PEnd (i : item) | PBar (i : item) (p : pline)
with item := IBlock (l : line) (rs : list (rkind * list Z)) | IWords (ps : list part).

(** The text of a command line. *)
Definition pr_sym (c : Z) : list Z := c :: sep.
Definition pr_redir (r : rkind * list Z) : list Z :=
  (match r.1 with RIn => [60] | ROut => [62] | RAppend => [62; 62] end) ++ sep ++ r.2 ++ sep.
Definition pr_part (p : part) : list Z := match p with Arg w => w ++ sep | Red k w => pr_redir (k, w) end.
Definition pr_amps (n : nat) : list Z := concat (replicate n (pr_sym 38)).
Fixpoint pr_line (l : line) : list Z :=
  match l with
  | LEnd p n => pr_pline p ++ pr_amps n
  | LSeq p n l => pr_pline p ++ pr_amps n ++ pr_sym 59 ++ pr_line l
  end
with pr_pline (p : pline) : list Z :=
  match p with
  | PEnd i => pr_item i
  | PBar i p => pr_item i ++ pr_sym 124 ++ pr_pline p
  end
with pr_item (i : item) : list Z :=
  match i with
  | IBlock l rs => pr_sym 40 ++ pr_line l ++ pr_sym 41 ++ concat (pr_redir <$> rs)
  | IWords ps => concat (pr_part <$> ps)
  end.

(** The command that it means. *)
Definition redirect (c : cmd (list Z)) (r : rkind * list Z) : cmd (list Z) :=
  match r.1 with RIn => Redir c r.2 O_RDONLY 0 | _ => Redir c r.2 (Z.lor O_WRONLY O_CREATE) 1 end.
Definition args_of (ps : list part) : list (list Z) := omap (fun p => match p with Arg w => Some w | Red _ _ => None end) ps.
Definition redirs_of (ps : list part) : list (rkind * list Z) := omap (fun p => match p with Arg _ => None | Red k w => Some (k, w) end) ps.
Fixpoint tree_line (l : line) : cmd (list Z) :=
  match l with
  | LEnd p n => Nat.iter n Back (tree_pline p)
  | LSeq p n l => List_ (Nat.iter n Back (tree_pline p)) (tree_line l)
  end
with tree_pline (p : pline) : cmd (list Z) :=
  match p with PEnd i => tree_item i | PBar i p => Pipe (tree_item i) (tree_pline p) end
with tree_item (i : item) : cmd (list Z) :=
  match i with
  | IBlock l rs => foldl redirect (tree_line l) rs
  | IWords ps => foldl redirect (Exec (args_of ps)) (redirs_of ps)
  end.

(** Words are words, and no program has more than nine. *)
Definition word_ok (w : list Z) : Prop := is_word w /\ Forall (fun c => c <> 0) w.
Definition part_ok (p : part) : Prop := match p with Arg w | Red _ w => word_ok w end.
Fixpoint line_ok (l : line) : Prop :=
  match l with LEnd p _ => pline_ok p | LSeq p _ l => pline_ok p /\ line_ok l end
with pline_ok (p : pline) : Prop :=
  match p with PEnd i => item_ok i | PBar i p => item_ok i /\ pline_ok p end
with item_ok (i : item) : Prop :=
  match i with
  | IBlock l rs => line_ok l /\ Forall (fun r => word_ok r.2) rs
  | IWords ps => Forall part_ok ps /\ (length (args_of ps) < MAXARGS)%nat
  end.

(** ** Tokens of printed text *)

Definition clean (s : list Z) : Prop := skip s = s.
Lemma skip_sep s : clean s -> skip (sep ++ s) = s.
Proof.
  intros Hs. clear Hsep. induction sep as [|c l IH]; [exact Hs|]. apply Forall_cons in Hwhite as [Hc Hl]. cbn. rewrite Hc. by apply IH.
Qed.
Lemma clean_cons c s : among whitespace c = false -> clean (c :: s).
Proof. intros Hc. unfold clean. cbn. by rewrite Hc. Qed.
Definition begins (toks : list Z) (s : list Z) : bool := match s with c :: _ => negb (c =? 0) && among toks c | [] => false end.
Lemma p_peek_run toks s : clean s -> p_peek toks s = ([], Ret (begins toks s) s).
Proof. intros Hs. unfold p_peek, peek. cbn. by rewrite Hs. Qed.
Lemma word_end_word w e : Forall (fun c => special c = false) w -> word_stops e -> word_end (w ++ e) = e.
Proof.
  intros Hw He. induction w as [|c w IH]; cbn [app].
  - destruct e as [|d e]; [done|]. cbn in *. unfold special in He. by rewrite He.
  - apply Forall_cons in Hw as [Hc Hw]. cbn. unfold special in Hc. rewrite Hc. by apply IH.
Qed.
Lemma sep_stops s : word_stops (sep ++ s).
Proof. destruct sep as [|c l]; [done|]. apply Forall_cons in Hwhite as [Hc _]. cbn. unfold special. by rewrite Hc. Qed.
Lemma word_head w : word_ok w -> exists c w', w = c :: w' /\ c <> 0 /\ special c = false.
Proof. intros [[Hn Hw] H0]. destruct w as [|c w]; [done|]. apply Forall_cons in Hw as [Hc _]. apply Forall_cons in H0 as [H0 _]. by exists c, w. Qed.
Lemma special_false c : special c = false -> among whitespace c = false /\ among symbols c = false.
Proof. unfold special. by rewrite orb_false_iff. Qed.
Lemma word_token w s : word_ok w -> clean s -> p_token (w ++ sep ++ s) = ([], Ret (ch_a, (w ++ sep ++ s, sep ++ s)) s).
Proof.
  intros Hw Hs. destruct (word_head w Hw) as (c & w' & -> & H0 & Hc). destruct (special_false c Hc) as [Hwh Hsy].
  assert (Hn : among [124; 40; 41; 59; 38; 60] c = false /\ (c =? 62) = false).
  { unfold among, symbols in *. cbn [existsb] in *. rewrite !orb_false_iff in *. naive_solver. }
  destruct Hn as [N1 N2]. unfold p_token, gettoken. cbn -[word_end app]. cbn [app skip]. rewrite Hwh, (proj2 (Z.eqb_neq c 0)), N1, N2 by done.
  change (c :: w' ++ sep ++ s) with ((c :: w') ++ sep ++ s). rewrite word_end_word by (apply Hw || apply sep_stops). by rewrite skip_sep.
Qed.
Lemma sym_token c s : In c [124; 40; 41; 59; 38; 60] -> clean s -> exists q, p_token (pr_sym c ++ s) = ([], Ret (c, q) s).
Proof.
  intros Hc Hs. assert (Ha : among [124; 40; 41; 59; 38; 60] c = true) by (by apply among_in).
  assert (Hv : among whitespace c = false /\ c <> 0) by (cbn in Hc; destruct_or?; subst; done).
  eexists. unfold p_token, gettoken, pr_sym. cbn -[app]. cbn [app skip]. rewrite (proj1 Hv), (proj2 (Z.eqb_neq c 0)), Ha by apply Hv. by rewrite skip_sep.
Qed.

(** ** Redirections and arguments *)

Definition mode_of (k : rkind) : Z := match k with RIn => O_RDONLY | _ => Z.lor O_WRONLY O_CREATE end.
Definition fd_of (k : rkind) : Z := match k with RIn => 0 | _ => 1 end.
Definition meant (r : rkind * list Z) : redir (list Z) := Rd r.2 (mode_of r.1) (fd_of r.1).
Definition read_redir (r : redir span) : redir (list Z) := Rd (word_of (r_file r)) (r_mode r) (r_fd r).
Lemma redirect_meant c rs : foldl redirect c rs = foldl add_redir c (meant <$> rs).
Proof. revert c. induction rs as [|[k w] rs IH]; intros c; [done|]. cbn. rewrite IH. by destruct k. Qed.
Lemma map_redirs c rs : cmd_map word_of (foldl add_redir c rs) = foldl add_redir (cmd_map word_of c) (read_redir <$> rs).
Proof. revert c. induction rs as [|r rs IH]; intros c; [done|]. cbn. by rewrite IH. Qed.

Lemma word_clean w s : word_ok w -> clean (w ++ s).
Proof. intros Hw. destruct (word_head w Hw) as (c & w' & -> & _ & Hc). apply clean_cons. by apply special_false. Qed.
Lemma word_begins w s toks : word_ok w -> forallb (among symbols) toks = true -> begins toks (w ++ s) = false.
Proof.
  intros Hw Ht. destruct (word_head w Hw) as (c & w' & -> & _ & Hc). destruct (special_false c Hc) as [_ Hs]. cbn. apply andb_false_iff. right.
  apply not_true_iff_false. rewrite among_in. intros Hin. rewrite forallb_forall in Ht. specialize (Ht c Hin). congruence.
Qed.
Lemma read_span w s : word_of (w ++ sep ++ s, sep ++ s) = w.
Proof. unfold word_of. cbn. rewrite !length_app. replace (length w + (length sep + length s) - (length sep + length s))%nat with (length w) by lia. apply take_app_length. Qed.
Lemma redir_head r s : begins [60; 62] (pr_redir r ++ s) = true /\ clean (pr_redir r ++ s) /\ begins [40] (pr_redir r ++ s) = false.
Proof. destruct r as [k w]. unfold pr_redir. by destruct k. Qed.
Lemma redir_token k w s : word_ok w -> clean s -> exists tok q, p_token (pr_redir (k, w) ++ s) = ([], Ret (tok, q) (w ++ sep ++ s)) /\
  forall file, redir_of tok file = [Rd (A := span) file (mode_of k) (fd_of k)].
Proof.
  intros Hw Hs. pose proof (word_clean w (sep ++ s) Hw) as Hc. set (e := w ++ sep ++ s) in *.
  assert (Htok : forall a r, gettoken (a ++ sep ++ e) = (r, (a ++ sep ++ e, sep ++ e), skip (sep ++ e)) ->
    p_token (a ++ sep ++ e) = ([], Ret (r, (a ++ sep ++ e, sep ++ e)) e)).
  { intros a r Hg. unfold p_token. cbn -[gettoken]. rewrite Hg. by rewrite skip_sep. }
  assert (Ep : pr_redir (k, w) ++ s = (match k with RIn => [60] | ROut => [62] | RAppend => [62; 62] end) ++ sep ++ e)
    by (unfold pr_redir, e; cbn [fst Datatypes.snd]; by rewrite <-!app_assoc).
  rewrite Ep. exists (match k with RIn => 60 | ROut => 62 | RAppend => ch_plus end). eexists. split; [|by destruct k]. apply Htok.
  destruct k; [reflexivity| |reflexivity].
  unfold gettoken. cbn [app skip]. change (among whitespace 62) with false. cbv iota. change (62 =? 0) with false.
  change (among [124; 40; 41; 59; 38; 60] 62) with false. change (62 =? 62) with true. cbv iota.
  destruct sep as [|d l]; [done|]. cbn [app]. apply Forall_cons in Hwhite as [Hd _]. by rewrite (proj2 (Z.eqb_neq d 62)) by (intros ->; discriminate).
Qed.
Lemma parseredirs_one k w s fuel acc : word_ok w -> clean s -> exists r, read_redir r = meant (k, w) /\
  parseredirs (S fuel) acc (pr_redir (k, w) ++ s) = parseredirs fuel (acc ++ [r]) s.
Proof.
  intros Hw Hs. destruct (redir_head (k, w) s) as (Hb & Hc & _). destruct (redir_token k w s Hw Hs) as (tok & q & Et & Er).
  exists (Rd (w ++ sep ++ s, sep ++ s) (mode_of k) (fd_of k)). split; [unfold read_redir, meant; cbn [r_file r_mode r_fd fst Datatypes.snd]; by rewrite read_span|].
  cbn [parseredirs]. rewrite (kbind_pure _ _ _ _ _ (p_peek_run [60; 62] _ Hc)), Hb. cbn [negb].
  rewrite (kbind_pure _ _ _ _ _ Et). rewrite (kbind_pure _ _ _ _ _ (word_token w s Hw Hs)). cbn [Z.eqb ch_a negb Pos.eqb]. by rewrite Er.
Qed.
Lemma parseredirs_none fuel acc s : clean s -> begins [60; 62] s = false -> parseredirs fuel acc s = ([], Ret acc s).
Proof. intros Hs Hb. destruct fuel; cbn [parseredirs]; by rewrite (kbind_pure _ _ _ _ _ (p_peek_run [60; 62] s Hs)), Hb. Qed.

(** What may follow: the end, or one of some symbols. *)
Definition follows (toks s : list Z) : Prop := clean s /\ (s = [] \/ begins toks s = true).
Lemma begins_head toks c s : c <> 0 -> begins toks (c :: s) = among toks c.
Proof. intros Hc. cbn. by rewrite (proj2 (Z.eqb_neq c 0)). Qed.
(** No symbol is in both of two disjoint lists. *)
Lemma follows_not toks other s : follows toks s -> forallb (fun c => negb (among other c)) toks = true -> begins other s = false.
Proof.
  intros [_ [->|Hb]] Hd; [done|]. destruct s as [|c s]; [done|]. cbn in *. apply andb_true_iff in Hb as [-> Ha]. cbn.
  rewrite forallb_forall in Hd. apply among_in in Ha. specialize (Hd c Ha). by apply negb_true_iff in Hd.
Qed.
Lemma follows_sym toks c s : among symbols c = true -> among toks c = true -> follows toks (pr_sym c ++ s).
Proof.
  intros Hs Ha. pose proof (symbol_visible c Hs) as Hv. split; [by apply clean_cons|]. right. cbn. rewrite Ha, andb_true_r.
  apply negb_true_iff, Z.eqb_neq. intros ->. discriminate.
Qed.

Lemma args_run ps s f1 f2 argv acc : Forall part_ok ps -> follows [124; 41; 38; 59] s -> (length argv + length (args_of ps) < MAXARGS)%nat ->
  (length (concat (pr_part <$> ps) ++ s) <= f1)%nat -> (length (concat (pr_part <$> ps) ++ s) < f2)%nat ->
  exists argv' rs', (let! rs := parseredirs f1 acc in parseargs f2 argv rs) (concat (pr_part <$> ps) ++ s) = ([], Ret (argv ++ argv', acc ++ rs') s) /\
    word_of <$> argv' = args_of ps /\ read_redir <$> rs' = meant <$> redirs_of ps.
Proof.
  revert f1 f2 argv acc. induction ps as [|p ps IH]; intros f1 f2 argv acc Hps Hs Hn H1 H2.
  - exists [], []. split; [|done]. rewrite !app_nil_r. cbn [concat fmap list_fmap app] in *. destruct f2 as [|f2]; [cbn in H2; lia|]. pose proof Hs as [Hcl He].
    rewrite (kbind_pure _ _ _ acc s) by (apply parseredirs_none; [done|by eapply follows_not]). cbn [parseargs].
    rewrite (kbind_pure _ _ _ _ _ (p_peek_run _ s Hcl)). destruct He as [->| ->]; [|done]. reflexivity.
  - apply Forall_cons in Hps as [Hp Hps]. destruct Hs as [Hcl He] eqn:Es. clear Es. cbn [fmap list_fmap concat] in *. rewrite <-app_assoc in *.
    set (rest := concat (pr_part <$> ps) ++ s) in *.
    assert (Hr : clean rest).
    { unfold rest. clear -Hps Hcl Hsep Hwhite. destruct ps as [|[w|k w] ps]; [done| |]; cbn [fmap list_fmap concat pr_part]; rewrite <-?app_assoc; apply Forall_cons in Hps as [Hp _].
      - by apply word_clean.
      - apply (redir_head (k, w)). }
    destruct p as [w|k w]; cbn [pr_part part_ok] in *.
    + rewrite <-app_assoc in *. destruct f2 as [|f2]; [lia|]. rewrite (kbind_pure _ _ _ acc _) by (apply parseredirs_none; [by apply word_clean|by apply word_begins]).
      cbn [parseargs]. rewrite (kbind_pure _ _ _ _ _ (p_peek_run _ _ (word_clean w _ Hp))). rewrite word_begins by done. rewrite (kbind_pure _ _ _ _ _ (word_token w rest Hp Hr)).
      change (ch_a =? 0) with false. cbv iota. change (ch_a =? ch_a) with true. cbn [negb]. cbv zeta. cbn [args_of omap list_omap length] in Hn. fold (args_of ps) in Hn.
      rewrite decide_False by (rewrite length_app; cbn; lia). rewrite !length_app in H1, H2. destruct (word_head w Hp) as (c & w' & -> & _). cbn in H1, H2.
      destruct (IH f2 f2 (argv ++ [((c :: w') ++ sep ++ rest, sep ++ rest)]) acc Hps) as (argv' & rs' & E & A1 & A2); [by split|rewrite length_app; cbn; lia|lia|lia|].
      exists (((c :: w') ++ sep ++ rest, sep ++ rest) :: argv'), rs'. rewrite E. split; [by rewrite <-app_assoc|]. split; [|done].
      cbn [fmap list_fmap args_of omap list_omap]. rewrite read_span. by rewrite A1.
    + rewrite length_app in H1, H2. assert (Hpos : (0 < length (pr_redir (k, w)))%nat) by (unfold pr_redir; rewrite length_app; destruct k; cbn; lia).
      destruct f1 as [|f1]; [lia|]. destruct (parseredirs_one k w rest f1 acc Hp Hr) as (r & Hm & E1).
      destruct (IH f1 f2 argv (acc ++ [r]) Hps) as (argv' & rs' & E & A1 & A2); [by split|exact Hn|lia|lia|].
      exists argv', (r :: rs'). split; [|split; [exact A1|cbn [fmap list_fmap redirs_of omap list_omap]; by rewrite Hm, A2]].
      unfold kbind at 1 in E. unfold kbind at 1. rewrite E1, E. by rewrite <-app_assoc.
Qed.
Lemma redirs_run rs s fuel acc : Forall (fun r => word_ok r.2) rs -> clean s -> begins [60; 62] s = false -> (length (concat (pr_redir <$> rs) ++ s) <= fuel)%nat ->
  exists rs', parseredirs fuel acc (concat (pr_redir <$> rs) ++ s) = ([], Ret (acc ++ rs') s) /\ read_redir <$> rs' = meant <$> rs.
Proof.
  revert fuel acc. induction rs as [|[k w] rs IH]; intros fuel acc Hr Hs Hb Hf; [exists []; rewrite app_nil_r; split; [by apply parseredirs_none|done]|].
  apply Forall_cons in Hr as [Hw Hr]. cbn [fmap list_fmap concat] in *. rewrite <-app_assoc in *. rewrite length_app in Hf.
  assert (Hpos : (0 < length (pr_redir (k, w)))%nat) by (unfold pr_redir; rewrite length_app; destruct k; cbn; lia).
  assert (Hcl : clean (concat (pr_redir <$> rs) ++ s)) by (destruct rs as [|r rs]; [done|]; cbn [fmap list_fmap concat]; rewrite <-app_assoc; apply redir_head).
  destruct fuel as [|fuel]; [lia|]. destruct (parseredirs_one k w _ fuel acc Hw Hcl) as (r & Hm & E1). rewrite E1.
  destruct (IH fuel (acc ++ [r]) Hr Hs Hb) as (rs' & E & A); [lia|]. exists (r :: rs'). rewrite E, <-app_assoc. split; [done|]. cbn [fmap list_fmap]. by rewrite Hm, A.
Qed.
Lemma amps_run n s fuel c : follows [59; 41] s -> (length (pr_amps n ++ s) <= fuel)%nat -> parseback fuel c (pr_amps n ++ s) = ([], Ret (Nat.iter n Back c) s).
Proof.
  intros Hs. revert fuel c. induction n as [|n IH]; intros fuel c Hf.
  - destruct fuel; cbn [parseback pr_amps replicate concat app]; rewrite (kbind_pure _ _ _ _ _ (p_peek_run [38] s (proj1 Hs))); by rewrite (follows_not _ _ _ Hs).
  - unfold pr_amps in *. cbn [replicate concat] in *. rewrite <-app_assoc in *. destruct fuel as [|fuel]; [cbn in Hf; lia|]. cbn [parseback].
    assert (Hcl : clean (concat (replicate n (pr_sym 38)) ++ s)) by (destruct n; [apply Hs|done]).
    rewrite (kbind_pure _ _ _ _ _ (p_peek_run [38] (pr_sym 38 ++ concat (replicate n (pr_sym 38)) ++ s) eq_refl)).
    change (begins [38] (pr_sym 38 ++ concat (replicate n (pr_sym 38)) ++ s)) with true. cbn [negb].
    destruct (sym_token 38 (concat (replicate n (pr_sym 38)) ++ s)) as (q & E); [cbn; tauto|done|]. rewrite (kbind_pure _ _ _ _ _ E).
    rewrite IH by (rewrite length_app in Hf; cbn in Hf; lia). by rewrite Nat.iter_succ_r.
Qed.

(** ** Commands *)

Scheme line_mut := Induction for line Sort Prop with pline_mut := Induction for pline Sort Prop with item_mut := Induction for item Sort Prop.
Combined Scheme command_ind from line_mut, pline_mut, item_mut.

Lemma item_head i s : item_ok i -> clean s -> clean (pr_item i ++ s).
Proof.
  destruct i as [l rs|ps]; cbn [item_ok pr_item]; [done|]. intros [Hps _] Hs. destruct ps as [|[w|k w] ps]; [done| |]; cbn [fmap list_fmap concat pr_part]; rewrite <-?app_assoc;
    apply Forall_cons in Hps as [Hp _]; [by apply word_clean|apply (redir_head (k, w))].
Qed.
Lemma pline_head p s : pline_ok p -> clean s -> clean (pr_pline p ++ s).
Proof.
  destruct p as [i|i p]; cbn [pline_ok pr_pline]; [apply item_head|]. intros [Hi _] Hs. rewrite <-!app_assoc. apply item_head; [done|]. by apply clean_cons.
Qed.
Lemma words_open ps s : Forall part_ok ps -> follows [124; 38; 59; 41] s -> begins [40] (concat (pr_part <$> ps) ++ s) = false.
Proof.
  intros Hps Hs. destruct ps as [|[w|k w] ps]; [by eapply follows_not| |]; cbn [fmap list_fmap concat pr_part]; rewrite <-?app_assoc; apply Forall_cons in Hps as [Hp _];
    [by apply word_begins|apply (redir_head (k, w))].
Qed.
(** A symbol that is there, and the rest. *)
Lemma symbol_run {A} toks c s (f : bool -> P A) : In c [124; 40; 41; 59; 38; 60] -> among toks c = true -> clean s ->
  (let! r := p_peek toks in f r) (pr_sym c ++ s) = f true (pr_sym c ++ s).
Proof.
  intros Hc Ha Hs. assert (Hv : among whitespace c = false /\ c <> 0) by (cbn in Hc; destruct_or?; subst; done).
  rewrite (kbind_pure _ _ _ _ _ (p_peek_run toks (pr_sym c ++ s) (clean_cons _ _ (proj1 Hv)))). unfold pr_sym. cbn [app]. by rewrite begins_head, Ha by apply Hv.
Qed.

Definition parsed (m : P (cmd span)) (text s : list Z) (c' : cmd (list Z)) : Prop := exists c, m (text ++ s) = ([], Ret c s) /\ cmd_map word_of c = c'.
Lemma map_back n c : cmd_map word_of (Nat.iter n Back c) = Nat.iter n Back (cmd_map word_of c).
Proof. induction n as [|n IH]; [done|]. rewrite !Nat.iter_succ. cbn [cmd_map]. by rewrite IH. Qed.

Lemma follows_more toks toks' s : follows toks s -> forallb (among toks') toks = true -> follows toks' s.
Proof.
  intros [Hc [->|Hb]] Ht; [by split; [|left]|]. split; [done|right]. destruct s as [|c s]; [done|]. cbn in *. apply andb_true_iff in Hb as [-> Ha].
  rewrite forallb_forall in Ht. apply Ht. by apply among_in.
Qed.
Lemma amps_follow n s toks : follows [59; 41] s -> forallb (among toks) [38; 59; 41] = true -> follows toks (pr_amps n ++ s).
Proof.
  intros Hs Ht. apply (follows_more [38; 59; 41]); [|done]. destruct n; [by eapply follows_more|]. unfold pr_amps. cbn [replicate concat]. rewrite <-app_assoc. by apply follows_sym.
Qed.

Lemma line_end_parses p n s fuel : (forall s fuel, follows [38; 59; 41] s -> (4 * length (pr_pline p ++ s) + 3 <= fuel)%nat -> parsed (parsepipe fuel) (pr_pline p) s (tree_pline p)) ->
  follows [59; 41] s -> (4 * length (pr_pline p ++ pr_amps n ++ s) + 3 <= fuel)%nat ->
  exists c, (let! c := parsepipe fuel in parseback fuel c) (pr_pline p ++ pr_amps n ++ s) = ([], Ret c s) /\ cmd_map word_of c = Nat.iter n Back (tree_pline p).
Proof.
  intros IHp Hs Hf. destruct (IHp (pr_amps n ++ s) fuel) as (c & E & Hc); [by apply amps_follow|done|]. rewrite (kbind_pure _ _ _ _ _ E). rewrite length_app in Hf.
  exists (Nat.iter n Back c). split; [apply amps_run; [done|lia]|]. by rewrite map_back, Hc.
Qed.
Lemma line_head l s : line_ok l -> follows [41] s -> clean (pr_line l ++ s).
Proof.
  intros Hl Hs. destruct l; cbn [pr_line line_ok] in *; rewrite <-?app_assoc; (apply pline_head; [apply Hl|]).
  - apply (amps_follow amps _ [38; 59; 41]); [by eapply follows_more|done].
  - apply (amps_follow amps _ [38; 59; 41]); [by apply follows_sym|done].
Qed.
Lemma kbind_split {A B C} (m : P A) (f : A -> P B) (g : B -> P C) s b s' : (let! a := m in f a) s = ([], Ret b s') -> (let! a := m in let! b := f a in g b) s = g b s'.
Proof. intros E. rewrite <-kbind_assoc. by rewrite (kbind_pure _ _ _ _ _ E). Qed.

Lemma block_parses l rs s fuel : (forall s fuel, follows [41] s -> (4 * length (pr_line l ++ s) + 4 <= fuel)%nat -> parsed (parseline fuel) (pr_line l) s (tree_line l)) ->
  line_ok l -> Forall (fun r => word_ok r.2) rs -> follows [124; 38; 59; 41] s -> (4 * length (pr_item (IBlock l rs) ++ s) + 2 <= fuel)%nat ->
  parsed (parseexec fuel) (pr_item (IBlock l rs)) s (tree_item (IBlock l rs)).
Proof.
  intros IHl Hl Hrs Hs Hf. unfold parsed. cbn [pr_item tree_item] in *. rewrite <-!app_assoc in *. destruct fuel as [|[|fuel]]; [lia|lia|]. cbn [parseexec parseblock].
  set (tail := concat (pr_redir <$> rs) ++ s) in *. set (rest := pr_line l ++ pr_sym 41 ++ tail) in *.
  assert (Ht : clean tail) by (unfold tail; destruct rs as [|r rs']; [apply Hs|]; cbn [fmap list_fmap concat]; rewrite <-app_assoc; apply redir_head).
  assert (Hfo : follows [41] (pr_sym 41 ++ tail)) by (by apply follows_sym).
  assert (Hr : clean rest) by (by apply line_head).
  rewrite symbol_run by (done || (cbn; tauto)). rewrite symbol_run by (done || (cbn; tauto)). cbn [negb].
  destruct (sym_token 40 rest) as (q & Et); [cbn; tauto|done|]. rewrite (kbind_pure _ _ _ _ _ Et). clear Et.
  destruct (IHl (pr_sym 41 ++ tail) fuel Hfo) as (c & E & Hc); [fold rest; rewrite length_app in Hf; cbn in Hf; lia|]. fold rest in E.
  rewrite (kbind_pure _ _ _ _ _ E). rewrite symbol_run by (done || (cbn; tauto)). cbn [negb].
  destruct (sym_token 41 tail) as (q' & Et); [cbn; tauto|done|]. rewrite (kbind_pure _ _ _ _ _ Et). clear Et.
  destruct (redirs_run rs s fuel [] Hrs) as (rs' & Er & Hrr); [apply Hs|by eapply follows_not|fold tail; unfold rest in Hf; rewrite !length_app in Hf; cbn in Hf; lia|].
  fold tail in Er. rewrite (kbind_pure _ _ _ _ _ Er). eexists. split; [reflexivity|]. by rewrite app_nil_l, map_redirs, Hc, Hrr, redirect_meant.
Qed.
Lemma words_parse ps s fuel : Forall part_ok ps -> (length (args_of ps) < MAXARGS)%nat -> follows [124; 38; 59; 41] s ->
  (4 * length (pr_item (IWords ps) ++ s) + 2 <= fuel)%nat -> parsed (parseexec fuel) (pr_item (IWords ps)) s (tree_item (IWords ps)).
Proof.
  intros Hps Hn Hs Hf. unfold parsed. cbn [pr_item tree_item] in *. destruct fuel as [|fuel]; [lia|]. cbn [parseexec].
  assert (Hcl : clean (concat (pr_part <$> ps) ++ s)) by (apply (item_head (IWords ps)); [by split|apply Hs]).
  rewrite (kbind_pure _ _ _ _ _ (p_peek_run [40] _ Hcl)). rewrite words_open by done.
  destruct (args_run ps s fuel fuel [] [] Hps) as (argv' & rs' & E & A1 & A2); [by eapply follows_more|exact Hn|lia|lia|].
  rewrite (kbind_split _ _ _ _ _ _ E). eexists. split; [reflexivity|]. rewrite !app_nil_l, map_redirs. cbn [cmd_map]. by rewrite A1, A2, redirect_meant.
Qed.

Lemma printed_parses :
  (forall l, line_ok l -> forall s fuel, follows [41] s -> (4 * length (pr_line l ++ s) + 4 <= fuel)%nat -> parsed (parseline fuel) (pr_line l) s (tree_line l)) /\
  (forall p, pline_ok p -> forall s fuel, follows [38; 59; 41] s -> (4 * length (pr_pline p ++ s) + 3 <= fuel)%nat -> parsed (parsepipe fuel) (pr_pline p) s (tree_pline p)) /\
  (forall i, item_ok i -> forall s fuel, follows [124; 38; 59; 41] s -> (4 * length (pr_item i ++ s) + 2 <= fuel)%nat -> parsed (parseexec fuel) (pr_item i) s (tree_item i)).
Proof.
  apply command_ind.
  - intros p IHp n Hp s fuel Hs Hf. unfold parsed. cbn [pr_line tree_line] in *. rewrite <-app_assoc in *. destruct fuel as [|fuel]; [lia|]. cbn [parseline].
    destruct (line_end_parses p n s fuel (IHp Hp)) as (c & E & Hc); [by eapply follows_more|lia|]. rewrite (kbind_split _ _ _ _ _ _ E).
    rewrite (kbind_pure _ _ _ _ _ (p_peek_run [59] s (proj1 Hs))). rewrite (follows_not _ _ _ Hs) by done. by exists c.
  - intros p IHp n l IHl [Hp Hl] s fuel Hs Hf. unfold parsed. cbn [pr_line tree_line] in *. rewrite <-!app_assoc in *. destruct fuel as [|fuel]; [lia|]. cbn [parseline].
    set (rest := pr_line l ++ s) in *. assert (Hr : clean rest) by (by apply line_head).
    destruct (line_end_parses p n (pr_sym 59 ++ rest) fuel (IHp Hp)) as (c & E & Hc); [by apply follows_sym|lia|]. rewrite (kbind_split _ _ _ _ _ _ E).
    rewrite symbol_run by (done || (cbn; tauto)). destruct (sym_token 59 rest) as (q & Et); [cbn; tauto|done|]. rewrite (kbind_pure _ _ _ _ _ Et).
    destruct (IHl Hl s fuel Hs) as (c' & E' & Hc'); [fold rest; rewrite !length_app in Hf; cbn in Hf; lia|]. fold rest in E'.
    rewrite (kbind_pure _ _ _ _ _ E'). eexists. split; [reflexivity|]. cbn [cmd_map]. by rewrite Hc, Hc'.
  - intros i IHi Hi s fuel Hs Hf. unfold parsed. cbn [pr_pline tree_pline] in *. destruct fuel as [|fuel]; [lia|]. cbn [parsepipe].
    destruct (IHi Hi s fuel) as (c & E & Hc); [by eapply follows_more|lia|]. rewrite (kbind_pure _ _ _ _ _ E).
    rewrite (kbind_pure _ _ _ _ _ (p_peek_run [124] s (proj1 Hs))). rewrite (follows_not _ _ _ Hs) by done. by exists c.
  - intros i IHi p IHp [Hi Hp] s fuel Hs Hf. unfold parsed. cbn [pr_pline tree_pline] in *. rewrite <-!app_assoc in *. destruct fuel as [|fuel]; [lia|]. cbn [parsepipe].
    set (rest := pr_pline p ++ s) in *. assert (Hr : clean rest) by (apply pline_head; [done|apply Hs]).
    destruct (IHi Hi (pr_sym 124 ++ rest) fuel) as (c & E & Hc); [by apply follows_sym|lia|]. rewrite (kbind_pure _ _ _ _ _ E).
    rewrite symbol_run by (done || (cbn; tauto)). destruct (sym_token 124 rest) as (q & Et); [cbn; tauto|done|]. rewrite (kbind_pure _ _ _ _ _ Et).
    destruct (IHp Hp s fuel Hs) as (c' & E' & Hc'); [fold rest; rewrite !length_app in Hf; cbn in Hf; lia|]. fold rest in E'.
    rewrite (kbind_pure _ _ _ _ _ E'). eexists. split; [reflexivity|]. cbn [cmd_map]. by rewrite Hc, Hc'.
  - intros l IHl rs [Hl Hrs] s fuel Hs Hf. apply block_parses; auto.
  - intros ps [Hps Hn] s fuel Hs Hf. by apply words_parse.
Qed.

(** ** The line as a whole *)

Notation texty l := (Forall (fun c => c <> 0) l).
Lemma sep_texty : texty sep.
Proof. eapply Forall_impl; [exact Hwhite|]. intros c Hc ->. discriminate. Qed.
Lemma redir_texty r : word_ok r.2 -> texty (pr_redir r).
Proof.
  intros [_ Hw]. unfold pr_redir. rewrite !Forall_app. split; [|split; [apply sep_texty|split; [done|apply sep_texty]]]. destruct r as [[] w]; repeat constructor; discriminate.
Qed.
Lemma sym_texty c : c <> 0 -> texty (pr_sym c).
Proof. intros Hc. constructor; [done|apply sep_texty]. Qed.
Lemma amps_texty n : texty (pr_amps n).
Proof. unfold pr_amps. induction n as [|n IH]; cbn [replicate concat]; [constructor|]. apply Forall_app. split; [by apply sym_texty|done]. Qed.
Lemma concat_texty {A} (f : A -> list Z) l : Forall (fun x => texty (f x)) l -> texty (concat (f <$> l)).
Proof. induction 1; cbn; [constructor|]. by apply Forall_app. Qed.
Lemma printed_texty : (forall l, line_ok l -> texty (pr_line l)) /\ (forall p, pline_ok p -> texty (pr_pline p)) /\ (forall i, item_ok i -> texty (pr_item i)).
Proof.
  apply command_ind; cbn [line_ok pline_ok item_ok pr_line pr_pline pr_item]; intros; rewrite ?Forall_app.
  - split; [auto|apply amps_texty].
  - destruct H1 as [K1 K2]. split; [auto|]. split; [apply amps_texty|]. split; [by apply sym_texty|auto].
  - auto.
  - destruct H1 as [K1 K2]. split; [auto|]. split; [by apply sym_texty|auto].
  - destruct H0 as [K1 K2]. split; [by apply sym_texty|]. split; [auto|]. split; [by apply sym_texty|]. apply concat_texty.
    eapply Forall_impl; [exact K2|]. intros r. apply redir_texty.
  - destruct H as [K1 _]. apply concat_texty. eapply Forall_impl; [exact K1|]. intros [w|k w] Hw; cbn [pr_part part_ok] in *.
    + apply Forall_app. split; [apply Hw|apply sep_texty].
    + by apply (redir_texty (k, w)).
Qed.
End print.

Lemma cmd_map_ext {B} (f g : span -> B) c : Forall (fun q => f q = g q) (spans c) -> cmd_map f c = cmd_map g c.
Proof.
  induction c as [argv|c IH file mode fd|l IHl r IHr|l IHl r IHr|c IH]; cbn [spans cmd_map]; rewrite ?Forall_app, ?Forall_singleton.
  - intros Ha. f_equal. by apply Forall_fmap_ext_1.
  - intros [Hc Hf]. by rewrite IH, Hf.
  - intros [H1 H2]. by rewrite IHl, IHr.
  - intros [H1 H2]. by rewrite IHl, IHr.
  - intros Hc. by rewrite IH.
Qed.

Lemma parsecmd_print sep l : sep <> [] -> Forall (fun c => among whitespace c = true) sep -> line_ok l ->
  let text := pr_line sep l in
  exists c buf, parsecmd text = ([], Ret (c, buf) []) /\ cmd_map (string_at text buf) c = tree_line l.
Proof.
  intros Hsep Hw Hl text. pose proof (proj1 (printed_parses sep Hsep Hw) l Hl [] (parse_fuel text)) as Hp.
  destruct Hp as (c & E & Hc); [by split; [|left]|rewrite app_nil_r; unfold parse_fuel, text; lia|]. rewrite app_nil_r in E. fold text in E.
  exists c, (nulterminate (length text) c (text ++ [0])). split.
  - unfold parsecmd. rewrite (kbind_pure _ _ _ _ _ E). reflexivity.
  - assert (Hok : spans_ok text c).
    { pose proof (proj1 (parser_parses text (parse_fuel text) text (reflexivity _))) as Hf. specialize (Hf ltac:(unfold parse_fuel; lia)).
      unfold parses in Hf. rewrite E in Hf. apply Hf. }
    pose proof (nulterminate_words text c (proj1 (printed_texty sep Hw) l Hl) Hok) as Hn. rewrite <-Hc. apply cmd_map_ext.
    eapply Forall_impl; [exact Hn|]. by intros q [_ Hq].
Qed.


(** "ls -l > f | ( cat ; wc ) &" *)
Definition demo_command : line :=
  LEnd (PBar (IWords [Arg [108; 115]; Arg [45; 108]; Red ROut [102]]) (PEnd (IBlock (LSeq (PEnd (IWords [Arg [99; 97; 116]])) 0 (LEnd (PEnd (IWords [Arg [119; 99]])) 0)) []))) 1.
