(* ===== verification/ShRun.v ===== *)
(** * Running commands: runcmd and the loop of user/sh.c

    What a command line starts: the programs, and for each of them the descriptors it finds open.
    The state is that of one process of the shell, and what all of them did so far; a child made
    by [fork] runs on a copy of the descriptors of its parent, and the parent goes on with its
    own.  Whether files open, programs exist and processes can be made is up to the kernel: a
    parameter, which may depend on what was started before.  The programs are listed in the order
    their processes are made; [wait], which only delays the parent, has no part in it. *)

From stdpp Require Import base list gmap strings.
From Stdlib Require Import ZArith Lia.
From S2P Require Import Prelude CString Proc Sh.
Open Scope Z_scope.

Notation word := (list Z).
(** What a descriptor refers to. *)
Inductive object :=
| Inherited (n : nat)
| Opened (file : word) (mode : Z)
| PipeEnd (k : nat) (write : bool).
Notation table := (gmap nat object).
Record started := Started { s_path : word; s_argv : list word; s_fds : table }.

Record shell := Shell {
  fds : table;                 (* of this process *)
  npipes : nat;
  nforks : nat;
  runs : list started;
  dirs : list word;            (* arguments of chdir *)
}.
Definition set_fds v (s : shell) : shell := Shell v (npipes s) (nforks s) (runs s) (dirs s).
Definition add_run r (s : shell) : shell := Shell (fds s) (npipes s) (nforks s) (runs s ++ [r]) (dirs s).
Definition add_fork (s : shell) : shell := Shell (fds s) (npipes s) (S (nforks s)) (runs s) (dirs s).
Definition add_pipe (s : shell) : shell := Shell (fds s) (S (npipes s)) (nforks s) (runs s) (dirs s).
Definition add_dir d (s : shell) : shell := Shell (fds s) (npipes s) (nforks s) (runs s) (dirs s ++ [d]).
Notation HK := (K shell).

(** ** Descriptors *)

(** The lowest descriptor that is free. *)
Definition lowest (t : table) : option nat := List.find (fun i => bool_decide (t !! i = None)) (seq 0 NOFILE).
Definition close_ (fd : nat) : HK unit := kmod (fun s => set_fds (delete fd (fds s)) s).
Definition dup_ (fd : nat) : HK unit :=
  kmod (fun s => match fds s !! fd, lowest (fds s) with Some o, Some i => set_fds (<[i := o]> (fds s)) s | _, _ => s end).
(** The two ends, or [None] for -1. *)
Definition pipe_ : HK (option (nat * nat)) :=
  let! s := kget in
  let k := npipes s in
  match lowest (fds s) with
  | None => kret None
  | Some i =>
      let t := <[i := PipeEnd k false]> (fds s) in
      match lowest t with
      | None => kret None
      | Some j => kmod (fun s => add_pipe (set_fds (<[j := PipeEnd k true]> t) s)) ;;; kret (Some (i, j))
      end
  end.

(** ** The library *)

(** [strcat_s(dest, right, max_len)] of ulib/string.c, from the turn [i]. *)
Fixpoint strcat_loop (turns i : nat) (writing : option nat) (dest right : list Z) : list Z :=
  match turns with
  | O => dest
  | S turns =>
      let writing := match writing with None => if nth i dest 0 =? 0 then Some i else None | Some w => Some w end in
      match writing with
      | None => strcat_loop turns (S i) writing dest right
      | Some w =>
          let c := nth (i - w) right 0 in
          let dest := <[i := c]> dest in
          if c =? 0 then dest else strcat_loop turns (S i) writing dest right
      end
  end.
Definition strcat_s (dest right : list Z) (max_len : nat) : list Z := strcat_loop max_len 0 None dest right.

(** The end of a process, by [procexit] or by a program that takes its place. *)
Definition procexit {A} : HK A := kstop Switched.

Section run.
Context (can_open : list started -> word -> Z -> bool) (can_exec : list started -> word -> bool) (can_fork : nat -> bool).
(** What is in the 250 bytes of [buf] behind "/bin/" and its terminator. *)
Context (junk : list Z).

(** [open]: the descriptor, or [None] for a negative result. *)
Definition open_ (file : word) (mode : Z) : HK (option nat) :=
  let! s := kget in
  match can_open (runs s) file mode, lowest (fds s) with
  | true, Some i => kmod (set_fds (<[i := Opened file mode]> (fds s))) ;;; kret (Some i)
  | _, _ => kret None
  end.
(** [exec]: returns only when it fails. *)
Definition exec_ (path : word) (argv : list word) : HK unit :=
  let! s := kget in
  if can_exec (runs s) path then kmod (add_run (Started path argv (fds s))) ;;; procexit else kret tt.
(** [if (fork1() == 0) child;], where [child] ends its process, also by a panic. *)
Definition fork1 (child : HK unit) : HK unit := fun s =>
  if can_fork (nforks s) then
    match (child (add_fork s)).2 with Ret _ s' | Stop _ s' => ([], Ret tt (set_fds (fds s) s')) end
  else panic "fork" s.

(** "/bin/" *)
Definition bin : word := [47; 98; 105; 110; 47].
Definition in_bin (path : word) : word := cstr (strcat_s (bin ++ 0 :: junk) path 256).

Fixpoint runcmd (c : cmd word) : HK unit :=
  match c with
  | Exec [] => procexit
  | Exec (path :: argv) =>
      exec_ path (path :: argv) ;;;
      exec_ (in_bin path) (path :: argv) ;;;
      procexit
  | Redir c file mode fd =>
      close_ (Z.to_nat fd) ;;;
      let! r := open_ file mode in
      match r with None => procexit | Some _ => runcmd c end
  | List_ l r =>
      fork1 (runcmd l) ;;;
      runcmd r
  | Pipe l r =>
      let! p := pipe_ in
      match p with
      | None => panic "pipe"
      | Some (p0, p1) =>
          fork1 (close_ 1 ;;; dup_ p1 ;;; close_ p0 ;;; close_ p1 ;;; runcmd l) ;;;
          fork1 (close_ 0 ;;; dup_ p0 ;;; close_ p0 ;;; close_ p1 ;;; runcmd r) ;;;
          close_ p0 ;;;
          close_ p1 ;;;
          procexit
      end
  | Back c => fork1 (runcmd c) ;;; procexit
  end.

(** The body of the loop of [main] on the string [buf].  [parsecmd] works in the child. *)
Definition sh_line (buf : word) : HK unit :=
  if decide (take 3 buf = [99; 100; 32]) then kmod (add_dir (take (length buf - 4) (drop 3 buf)))
  else
    fork1 (match (parsecmd buf).2 with
           | Ret (c, buf') _ => runcmd (cmd_map (string_at buf buf') c)
           | Stop r _ => kstop r
           end).

(** ** What a command means *)

(** The pipes made and the programs started, on descriptors [T], after the ones in [h]. *)
Fixpoint launch (c : cmd word) (T : table) (h : nat * list started) : nat * list started :=
  match c with
  | Exec [] => h
  | Exec (path :: argv) =>
      if can_exec h.2 path then (h.1, h.2 ++ [Started path (path :: argv) T])
      else if can_exec h.2 (bin ++ path) then (h.1, h.2 ++ [Started (bin ++ path) (path :: argv) T])
      else h
  | Redir c file mode fd => if can_open h.2 file mode then launch c (<[Z.to_nat fd := Opened file mode]> T) h else h
  | List_ l r => launch r T (launch l T h)
  | Pipe l r => launch r (<[0%nat := PipeEnd h.1 false]> T) (launch l (<[1%nat := PipeEnd h.1 true]> T) (S h.1, h.2))
  | Back c => launch c T h
  end.
(** Programs have names that fit in [buf], and redirections replace a standard descriptor. *)
Fixpoint runnable (c : cmd word) : Prop :=
  match c with
  | Exec [] => True
  | Exec (path :: _) => (length path < 251)%nat /\ Forall (fun c => c <> 0) path
  | Redir c _ _ fd => 0 <= fd < 3 /\ runnable c
  | Pipe l r | List_ l r => runnable l /\ runnable r
  | Back c => runnable c
  end.
Definition standard (T : table) : Prop := forall i, is_Some (T !! i) <-> (i < 3)%nat.
Lemma strcat_copies w a b pre rest turns : Forall (fun c => c <> 0) b -> length pre = (w + length a)%nat -> (length b < turns)%nat -> (length b < length rest)%nat ->
  exists rest', strcat_loop turns (length pre) (Some w) (pre ++ rest) (a ++ b) = pre ++ b ++ 0 :: rest'.
Proof.
  revert a pre rest turns. induction b as [|c b IH]; intros a pre rest turns Hb Hp Ht Hr; destruct turns as [|turns]; cbn [length] in *; try lia;
    destruct rest as [|x rest]; cbn [length] in *; try lia; cbn [strcat_loop].
  - rewrite app_nil_r, (nth_overflow a) by lia. cbn. rewrite insert_app_r_alt, Nat.sub_diag by done. by exists rest.
  - apply Forall_cons in Hb as [Hc Hb]. replace (length pre - w)%nat with (length a + 0)%nat by lia.
    rewrite app_nth2_plus. cbn [nth]. apply Z.eqb_neq in Hc as ->. rewrite insert_app_r_alt, Nat.sub_diag by done. cbn.
    destruct (IH (a ++ [c]) (pre ++ [c]) rest turns) as [rest' E]; [done|rewrite !length_app; cbn; lia|lia..|].
    exists rest'. rewrite <-!app_assoc in E. cbn in E. rewrite length_app, Nat.add_comm in E. exact E.
Qed.
Lemma in_bin_path path : length junk = 250%nat -> (length path < 251)%nat -> Forall (fun c => c <> 0) path -> in_bin path = bin ++ path.
Proof.
  intros Hj Hl Hz. unfold in_bin, strcat_s.
  destruct (strcat_copies 5 [] path bin (0 :: junk) 251) as [rest' E]; [done|done|lia|cbn; lia|].
  change (strcat_loop 256 0 None (bin ++ 0 :: junk) path) with (strcat_loop 251 5 None (bin ++ 0 :: junk) path).
  change (strcat_loop 251 5 None (bin ++ 0 :: junk) path) with (strcat_loop 251 (length bin) (Some 5%nat) (bin ++ 0 :: junk) ([] ++ path)).
  rewrite E, cstr_nonzero_app by (by repeat constructor). f_equal. rewrite cstr_nonzero_app by done. apply app_nil_r.
Qed.

Context (all_fork : forall n, can_fork n = true) (junk_length : length junk = 250%nat).

Lemma lowest_first T i : (i < NOFILE)%nat -> T !! i = None -> (forall j, (j < i)%nat -> is_Some (T !! j)) -> lowest T = Some i.
Proof.
  intros Hi Hn Hl. apply find_seq_first; [done|by apply bool_decide_eq_true_2|].
  intros j Hj. apply bool_decide_eq_false_2. apply not_eq_None_Some. by apply Hl.
Qed.
Lemma standard_insert T i o : standard T -> (i < 3)%nat -> standard (<[i := o]> T).
Proof.
  intros HT Hi j. destruct (decide (i = j)) as [<-|Hn]; [rewrite lookup_insert_eq; naive_solver|].
  rewrite lookup_insert_ne by done. apply HT.
Qed.

(** The state of the processes behind the one that runs. *)
Definition behind (s : shell) : nat * list started := (npipes s, runs s).
(** [m] ends its process, having done [h]. *)
Definition ends (m : HK unit) (s : shell) (h : nat * list started) : Prop :=
  exists s', m s = ([], Stop Switched s') /\ behind s' = h /\ dirs s' = dirs s.
Lemma fork1_ends child s h : ends child (add_fork s) h ->
  exists s', fork1 child s = ([], Ret tt s') /\ fds s' = fds s /\ behind s' = h /\ dirs s' = dirs s.
Proof. intros (s' & E & Hh & Hd). unfold fork1. rewrite all_fork, E. cbn. eexists. split; [done|]. by destruct s'. Qed.
Lemma process_bind {A} (m : HK A) (f : A -> HK unit) s a s1 h : m s = ([], Ret a s1) -> dirs s1 = dirs s -> ends (f a) s1 h -> ends (kbind m f) s h.
Proof. intros E Hd (s' & E2 & Hh & Hd2). exists s'. rewrite (kbind_pure _ _ _ _ _ E). split_and!; [done|done|congruence]. Qed.
Lemma process_fork child (f : unit -> HK unit) s h h' : ends child (add_fork s) h ->
  (forall s', fds s' = fds s -> behind s' = h -> ends (f tt) s' h') -> ends (kbind (fork1 child) f) s h'.
Proof. intros (s' & E & H1 & H2 & H3)%fork1_ends Hf. eapply process_bind; [exact E|done|]. by apply Hf. Qed.

Lemma exec_ends path argv T s (h h' : nat * list started) f : fds s = T -> behind s = h ->
  (can_exec h.2 path = false -> ends (f tt) s h') ->
  ends (kbind (exec_ path argv) f) s (if can_exec h.2 path then (h.1, h.2 ++ [Started path argv T]) else h').
Proof.
  intros <- <- Hf. unfold behind in *. cbn [fst snd] in *. destruct (can_exec (runs s) path) eqn:E.
  - eexists. split; [|split]; [unfold kbind, exec_, kget, kmod, procexit, kstop; cbn; rewrite E; reflexivity|done..].
  - eapply process_bind; [unfold exec_, kbind, kget; cbn; by rewrite E|done|]. by apply Hf.
Qed.

(** The ends of a new pipe are 3 and 4; one of them becomes a standard descriptor of the child, and neither stays open. *)
Lemma pipe_opens s : standard (fds s) ->
  pipe_ s = ([], Ret (Some (3, 4)%nat) (add_pipe (set_fds (<[4%nat := PipeEnd (npipes s) true]> (<[3%nat := PipeEnd (npipes s) false]> (fds s))) s))).
Proof.
  intros HT. assert (N : forall i, (3 <= i)%nat -> fds s !! i = None) by (intros i Hi; apply eq_None_not_Some; rewrite (HT i); lia).
  unfold pipe_, kbind, kget. rewrite (lowest_first _ 3); [|unfold NOFILE; lia|apply N; lia|intros j Hj; by apply HT].
  rewrite (lowest_first _ 4); [done|unfold NOFILE; lia|rewrite lookup_insert_ne by done; apply N; lia|].
  intros j Hj. destruct (decide (j = 3%nat)) as [->|Hn]; [by rewrite lookup_insert_eq|]. rewrite lookup_insert_ne by done. apply HT. lia.
Qed.
Definition with_pipe (k : nat) (T : table) : table := <[4%nat := PipeEnd k true]> (<[3%nat := PipeEnd k false]> T).
Lemma dup_run s fd o i : fds s !! fd = Some o -> lowest (fds s) = Some i -> dup_ fd s = ([], Ret tt (set_fds (<[i := o]> (fds s)) s)).
Proof. intros H1 H2. unfold dup_, kmod. by rewrite H1, H2. Qed.
Lemma plumb (T : table) k (fd : nat) (w : bool) s (m : HK unit) h : standard T -> fds s = with_pipe k T -> (fd < 2)%nat ->
  (forall s', fds s' = <[fd := PipeEnd k w]> T -> behind s' = behind s -> ends m s' h) ->
  ends (close_ fd ;;; dup_ (if w then 4 else 3) ;;; close_ 3 ;;; close_ 4 ;;; m) s h.
Proof.
  intros HT Hs Hfd Hm. eapply process_bind; [reflexivity|done|]. eapply process_bind; [apply (dup_run _ _ (PipeEnd k w) fd)|done|].
  1, 2: cbn [set_fds fds]; rewrite Hs; unfold with_pipe.
  - rewrite lookup_delete_ne by (destruct w; lia). destruct w; [by rewrite lookup_insert_eq|]. by rewrite lookup_insert_ne, lookup_insert_eq.
  - apply lowest_first; [unfold NOFILE; lia|apply lookup_delete_eq|]. intros j Hj. rewrite lookup_delete_ne, !lookup_insert_ne by lia. apply HT. lia.
  - do 2 (eapply process_bind; [reflexivity|done|]). apply Hm; [|done]. cbn [set_fds fds]. rewrite Hs. unfold with_pipe. apply map_eq. intros i.
    destruct (decide (i = fd)) as [->|Hn]; [by rewrite !lookup_delete_ne, !lookup_insert_eq by lia|].
    assert (N : forall i, (3 <= i)%nat -> T !! i = None) by (intros x Hx; apply eq_None_not_Some; rewrite (HT x); lia).
    destruct (decide (i = 4%nat)) as [->|H4]; [rewrite lookup_delete_eq, lookup_insert_ne by done; symmetry; apply N; lia|].
    rewrite lookup_delete_ne by done. destruct (decide (i = 3%nat)) as [->|H3]; [rewrite lookup_delete_eq, lookup_insert_ne by done; symmetry; apply N; lia|].
    by rewrite lookup_delete_ne, lookup_insert_ne, lookup_delete_ne, !lookup_insert_ne by done.
Qed.
Lemma redirect_ends (T : table) fd file mode s (f : option nat -> HK unit) h : standard T -> fds s = T -> (fd < 3)%nat ->
  (can_open (runs s) file mode = true -> forall s', fds s' = <[fd := Opened file mode]> T -> behind s' = behind s -> ends (f (Some fd)) s' h) ->
  (can_open (runs s) file mode = false -> forall s', behind s' = behind s -> ends (f None) s' h) ->
  ends (close_ fd ;;; kbind (open_ file mode) f) s h.
Proof.
  intros HT Hs Hfd H1 H2. eapply process_bind; [reflexivity|done|]. destruct (can_open (runs s) file mode) eqn:E.
  - assert (Hl : lowest (delete fd (fds s)) = Some fd).
    { apply lowest_first; [unfold NOFILE; lia|apply lookup_delete_eq|]. intros j Hj. rewrite lookup_delete_ne, Hs by lia. apply HT. lia. }
    eapply process_bind; [unfold open_, kbind, kget; cbn [set_fds fds runs]; rewrite E, Hl; reflexivity|reflexivity|].
    apply H1; [done| |done]. cbn. by rewrite Hs, insert_delete_eq.
  - eapply process_bind; [unfold open_, kbind, kget; cbn [set_fds fds runs]; by rewrite E|done|]. by apply H2.
Qed.

Lemma runcmd_launches c : runnable c -> forall T s, standard T -> fds s = T -> ends (runcmd c) s (launch c T (behind s)).
Proof.
  induction c as [argv|c IH file mode fd|l IHl r IHr|l IHl r IHr|c IH]; cbn [runnable runcmd]; intros Hc T s HT Hs.
  - destruct argv as [|path argv]; [by exists s|]. destruct Hc as [Hl Hz]. cbn [launch].
    apply exec_ends; [done|done|]. intros _. rewrite (in_bin_path path junk_length Hl Hz). apply exec_ends; [done|done|]. intros _. by exists s.
  - destruct Hc as [Hfd Hc]. cbn [launch]. eapply redirect_ends; [done|done|lia|..]; intros E; cbn [behind snd]; rewrite E.
    + intros s' Hs' Hb. rewrite <-Hb. apply IH; [done| |done]. apply standard_insert; [done|lia].
    + intros s' Hb. by exists s'.
  - destruct Hc as [Hl Hr]. eapply process_bind; [by apply pipe_opens; rewrite Hs|done|]. cbn [launch].
    apply (process_fork _ _ _ (launch l (<[1%nat := PipeEnd (npipes s) true]> T) (S (npipes s), runs s))); [apply (plumb T (npipes s) 1 true); [done|cbn; by rewrite Hs|lia|]|].
    { intros s' Hs' Hb. assert (E : behind s' = (S (npipes s), runs s)) by exact Hb. rewrite <-E. apply IHl; [done|apply standard_insert; [done|lia]|done]. }
    intros s1 Hs1 Hb1. cbn [behind fst]. eapply (process_fork _ _ _ (launch r (<[0%nat := PipeEnd (npipes s) false]> T) (behind s1))); [apply (plumb T (npipes s) 0 false); [done|cbn; by rewrite Hs1, <-Hs|lia|]|].
    { intros s' Hs' Hb. assert (E : behind s' = behind s1) by exact Hb. rewrite <-E. apply IHr; [done|apply standard_insert; [done|lia]|done]. }
    intros s2 Hs2 Hb2. do 2 (eapply process_bind; [reflexivity|done|]). eexists. split; [reflexivity|]. split; [|done]. etrans; [exact Hb2|]. by rewrite Hb1.
  - destruct Hc as [Hl Hr]. cbn [launch]. apply (process_fork _ _ _ (launch l T (behind s))); [by apply (IHl Hl T (add_fork s))|]. intros s' Hs' Hb. rewrite <-Hb. apply IHr; [done|done|congruence].
  - cbn [launch]. apply (process_fork _ _ _ (launch c T (behind s))); [by apply (IH Hc T (add_fork s))|]. intros s' Hs' Hb. by exists s'.
Qed.
End run.

(** ** From the line to the programs *)

Lemma back_runnable n c : runnable c -> runnable (Nat.iter n Back c).
Proof. induction n; cbn; auto. Qed.
Lemma redirs_runnable c rs : runnable c -> runnable (foldl redirect c rs).
Proof. revert c. induction rs as [|[k f] rs IH]; intros c Hc; [done|]. apply IH. destruct k; by (split; [lia|]). Qed.
Lemma length_arg sep ps w ws : args_of ps = w :: ws -> (length w <= length (concat (pr_part sep <$> ps)))%nat.
Proof.
  induction ps as [|p ps IH]; [done|]. rewrite fmap_cons. cbn [concat]. rewrite length_app. destruct p as [w'|k w']; cbn.
  - intros [= -> _]. rewrite length_app. lia.
  - intros E. specialize (IH E). lia.
Qed.
Lemma args_ok ps w ws : Forall part_ok ps -> args_of ps = w :: ws -> word_ok w.
Proof.
  induction 1 as [|[w'|k w'] ps Hp Hps IH]; [done|..]; cbn; [by intros [= -> _]|]. exact IH.
Qed.
Lemma tree_runnable sep : (forall l, line_ok l -> (length (pr_line sep l) < 251)%nat -> runnable (tree_line l)) /\
  (forall p, pline_ok p -> (length (pr_pline sep p) < 251)%nat -> runnable (tree_pline p)) /\
  (forall i, item_ok i -> (length (pr_item sep i) < 251)%nat -> runnable (tree_item i)).
Proof.
  apply command_ind; cbn [line_ok pline_ok item_ok pr_line pr_pline pr_item tree_line tree_pline tree_item runnable].
  - intros p IH n Hp. rewrite length_app. intros Hl. apply back_runnable, IH; [done|lia].
  - intros p IHp n l IHl [Hp Hl]. rewrite !length_app. intros Hn. split; [apply back_runnable, IHp|apply IHl]; try done; lia.
  - auto.
  - intros i IHi p IHp [Hi Hp]. rewrite !length_app. intros Hn. split; [apply IHi|apply IHp]; try done; lia.
  - intros l IH rs [Hl _]. rewrite !length_app. intros Hn. apply redirs_runnable, IH; [done|lia].
  - intros ps [Hp _] Hn. apply redirs_runnable. destruct (args_of ps) as [|w ws] eqn:E; cbn; [done|].
    pose proof (length_arg sep ps w ws E). split; [lia|]. apply (args_ok ps w ws Hp E).
Qed.


(** "ls -l > f | ( cat ; wc ) &", with "ls" in /bin and no "wc". *)
Definition demo_shell : shell := Shell (<[0%nat := Inherited 0]> (<[1%nat := Inherited 1]> (<[2%nat := Inherited 2]> ∅))) 7 0 [] [].
Lemma demo_standard : standard (fds demo_shell).
Proof.
  intros i. do 3 (destruct i as [|i]; [split; [lia|by eexists]|]). cbn [demo_shell fds]. rewrite !lookup_insert_ne, lookup_empty by lia.
  split; [by intros []|lia].
Qed.
